(* ===== verification/_CoqProject ===== *)
-Q . S2P
Prelude.v
SafeMath.v
OsslTime.v
UintSet.v
QuicFc.v
Statm.v
NewReno.v
QuicVlint.v
Packet.v
BufMem.v
WPacket.v
QuicWire.v
QuicWirePkt.v
QuicWirePktSpec.v
QuicWirePktSafe.v
QuicRetry.v
PktSample.v
PriorityQueue.v
Rcidm.v
RcidmInv.v
RcidmSpec.v
RingBuf.v
SfList.v
RStream.v
SStream.v
Transfer.v
CList.v
LHash.v
LHashInv.v
LHashSpec.v
LHashSample.v
DList.v
Cfq.v
CfqSpec.v
StreamMap.v
StreamMapInv.v
StreamMapSpec.v
StreamChan.v
RxDepack.v
RxDepackInv.v
RxDepackSpec.v
ChanLife.v
StreamSample.v
AckHist.v
Txpim.v
Ackm.v
AckmDetect.v
AckmInv.v
AckmOps.v
AckmSpec.v
Fifd.v
FifdStreams.v
FifdLoops.v
FifdInv.v
FifdOps.v
FifdSpec.v
FifdSample.v
