(* ===== verification/Prelude.v ===== *)
(** * Verification of the QUIC transport core of OpenSSL

    The repository holds a copy of OpenSSL ([openssl-master]) next to a few
    Python scripts.  This development is about the C code that carries the
    logic of OpenSSL's QUIC transport: stream data, loss and flow bookkeeping,
    the wire format of frames, and the containers these are built from.

    ** The parts and how they interact

    A sending application appends to a send stream ([quic_sstream.c]), which
    keeps the bytes in a ring buffer ([ring_buf.h]) and the offsets to be sent
    and acknowledged in sets of integers ([uint_set.c]).  Flow controllers
    ([quic_fc.c]) limit what may be sent; the congestion controller
    ([cc_newreno.c]) limits what may be in flight, with times ([time.h]) and
    the RTT estimate ([quic_statm.c]).  The ACK manager ([quic_ackm.c]) keeps the
    packets sent until they are acknowledged, lost or discarded, tells the
    congestion controller and the RTT estimate, sets the loss detection timer,
    and keeps the numbers of the packets received, in a set of integers, to
    detect duplicates and to generate ACK frames.  Frames are written with the packet
    writer ([packet.c], on [buffer.c]) and variable-length integers
    ([quic_vlint.c]) by [quic_wire.c], and read back by it from a packet reader
    ([packet.h], [packet_quic.h]).  A receive stream ([quic_rstream.c]) keeps
    what arrives in a list of frames ([quic_sf_list.c]) that point into packets,
    moves it to a ring buffer when packets are to be released, and tells the
    flow controller what has been read.  The stream map ([quic_stream_map.c]) holds
    the streams of a connection with the state machines of their two parts, the
    list of those that have something to send, the queue of those to be accepted
    and those to be collected; the channel ([quic_channel.c]) creates streams in it,
    and [quic_rx_depack.c] reads the frames of a packet and calls all of these.
    Control frames wait in a queue ([quic_cfq.c]); what a packet carries is noted in
    a record from a pool ([quic_txpim.c]); the dispatcher ([quic_fifd.c]) marks it as
    sent when the packet is committed and, when the ACK manager calls back, confirms it
    or has it sent again, through callbacks of the packetiser ([quic_txp.c]).
    Packets have headers, numbers and header protection ([quic_wire_pkt.c]).
    Timers and events are kept in a
    priority queue ([priority_queue.c]), as are the connection IDs a peer has issued
    until they are used and retired ([quic_rcidm.c]).  Streams and sent packets are found
    through hash tables ([lhash.c]).  Arithmetic that may overflow is done
    with the checked operations of [safe_math.h].

    ** Which file models what

    Each file has one [Module] per component (two in [QuicFc]); definitions have
    the names of the C functions and structures they translate, C's [field]s are
    record fields, and a function whose loop is a definition of its own has it
    named after it.

    - [Prelude]: machine integers as [Z] with explicit wraps, the monad [M] for
      functions that update a structure and may fail, tactics and shared lemmas.
    - [SafeMath] ([include/internal/safe_math.h]), [OsslTime]
      ([include/internal/time.h]): checked arithmetic and saturating times.
    - [UintSet] ([ssl/quic/uint_set.c]): sets of integers as sorted ranges.
    - [QuicFc] ([ssl/quic/quic_fc.c]): transmit and receive flow controllers in a
      store, since the controllers of streams share that of their connection.
    - [Statm] ([ssl/quic/quic_statm.c]), [NewReno] ([ssl/quic/cc_newreno.c]).
    - [QuicVlint] ([crypto/quic_vlint.c]), [Packet] ([include/internal/packet.h],
      [packet_quic.h]), [BufMem] ([crypto/buffer/buffer.c]), [WPacket]
      ([crypto/packet.c]), [QuicWire] ([ssl/quic/quic_wire.c]).
    - [QuicWirePkt] and [QuicRetry] ([ssl/quic/quic_wire_pkt.c]): packet headers,
      header protection and packet numbers; the tags of Retry packets.  Their
      theorems are in [QuicWirePktSpec], [QuicWirePktSafe] and [QuicRetry];
      [PktSample] has packets on which they are applied.
    - [PriorityQueue] ([ssl/priority_queue.c]): the binary heap with its table of
      handles and free list.  [Rcidm] ([ssl/quic/quic_rcidm.c]): the manager of
      remote connection IDs on top of it; [RcidmInv] (what each transition does to the
      objects, the queue and the list of retiring IDs) and [RcidmSpec] (the operations as one
      type, reachable managers, the theorems).
    - [LHash] ([crypto/lhash/lhash.c]): hash tables by linear hashing, nodes in a heap and
      buckets in an array, with pointers to pointers as slots; [LHashInv] (chains and
      buckets, splitting and merging), [LHashSpec] (the finite map a table stands for, and
      iteration with a callback that deletes), [LHashSample] (tables on which the theorems
      are applied, the string functions, departures of the code).
    - [RingBuf] ([include/internal/ring_buf.h]), [SfList]
      ([ssl/quic/quic_sf_list.c] and the packet reference counters of
      [quic_record_rx.c]), [RStream] ([ssl/quic/quic_rstream.c]), [SStream]
      ([ssl/quic/quic_sstream.c]), [Transfer] (the composition of the last two).
    - [CList] (the circular lists of [ssl/quic/quic_stream_map.c]), [StreamMap] (the
      rest of it: streams in a heap, the hash table, the lists, with the flow
      controllers and packet counters the streams share), [StreamMapInv] (the
      invariant) and [StreamMapSpec] (the operations as one type, and the theorems).
    - [StreamChan] (the functions of [ssl/quic/quic_channel.c] that create, reject
      and count streams), [RxDepack] ([ssl/quic/quic_rx_depack.c]) with
      [RxDepackInv] (rules for what a handler may do to the channel) and
      [RxDepackSpec]; [ChanLife]: the channels that opening streams, packets,
      writing, accepting, sending, acknowledgements and losses lead to; [StreamSample]: a channel on which the
      theorems are applied, and departures of the code.
    - [AckHist] and [Ackm] ([ssl/quic/quic_ackm.c]): the packet histories and the
      ACK manager, over a table of congestion control methods ([quic_cc.h]);
      [AckmDetect], [AckmInv], [AckmOps] and [AckmSpec] hold the proofs: detection
      of acknowledged and lost packets, the invariant and the interface
      [CcAccounting] to the congestion controller with its instance for NewReno,
      the operations, and the properties of reachable states.
    - [DList] (linked lists) and [Cfq] ([ssl/quic/quic_cfq.c]) with [CfqSpec];
      [Txpim] ([ssl/quic/quic_txpim.c]), over any [qsort] with the behaviour of the C
      standard; [Fifd] ([ssl/quic/quic_fifd.c] and its callbacks in
      [ssl/quic/quic_txp.c]): the queue, the records, the streams and the ACK manager
      as one state.  [FifdStreams] (one chunk and the send buffers), [FifdLoops] (the
      loops over chunks and control frames), [FifdInv] (the invariant, and one callback),
      [FifdOps] (building packets, and the callbacks of one call), [FifdSpec] (the
      connections reached, and the theorems); [FifdSample]: a connection on which they are
      applied, and departures of the code.

    ** Conventions

    A [w]-bit integer is a [Z] with the wrap written out ([u64] and so on); the
    platform is LP64.  A pointer that may be null is an [option].  Memory a
    structure owns is a list; an access outside it, a null dereference, a failed
    [assert] and a division by zero are the result [Undef] (or [None] where a
    function returns an [option]).  A failed [ossl_assert] takes the branch the
    code has for it.  Outcomes of the environment are inputs: a boolean for each
    allocation that may fail, a list of values for the clock.  Fuel, where a loop
    is not structural, is a bound the theorems show to be enough: the number of
    frames for the loops over a frame list, the number of bytes for those that
    push or copy, the number of elements for the heap; running out of it is
    [Undef], which the theorems exclude.  The loop over the frames of a packet has
    the number of its bytes as fuel, that over streams to be opened their number,
    the iteration over active streams their number, the loops over linked lists and
    over the control frames of a packet the number of items, those over the chains of a
    hash table the number of its nodes.

    ** What the theorems show

    - [UintSet]: insertion, removal and query refine union, difference and
      membership; disjoint insertions keep the list canonical.
    - [QuicFc]: no limit is exceeded or ever lowered, a consumption beyond the credit takes
      exactly what is left, the connection-level count is the sum of the streams'; received
      bytes are counted at both levels, violations and final-size conflicts are
      recorded, windows stay bounded.
    - [SafeMath], [OsslTime], [Statm], [NewReno]: exactness and saturation of the
      arithmetic, bounds on the RTT estimate, exact accounting of bytes in
      flight, one window reduction per burst, linear growth in avoidance.
    - [QuicVlint], [Packet], [BufMem], [WPacket], [QuicWire]: readers never leave
      the packet, and decoders nothing outside what they fill; writers append exactly the documented bytes (filled from the
      front, within the buffer), and every frame
      round-trips through encoding and decoding, frames without data through the encoders of headers.
    - [QuicWirePktSpec], [QuicWirePktSafe], [QuicRetry]: headers of all types
      round-trip, also through header protection, which a receiver removes without
      knowing what it hides; packet numbers survive truncation within the window;
      decoding any bytes is defined and agrees with the routing of datagrams; the
      tag of a Retry packet covers exactly the pseudo-packet of RFC 9001.
    - [PriorityQueue]: a refinement of a finite map with a least element, and
      sorting as a corollary; assertions and termination included.
    - [RcidmSpec]: no assertion of the manager of connection IDs ever fails; IDs move only
      from pending to current to retiring and are handed out for retirement in that order;
      after every operation the ID in use is the one the policy names, and it is recorded and marked as
      present except in the case of [rcidm_preferred_lost].
    - [LHashSpec]: a hash table is a finite map, through every split and merge of buckets
      and every failed allocation; its load stays between one and two items a bucket; and
      iterating over it while deleting visits each item once, when it cannot contract.
    - [RingBuf], [SfList], [RStream], [SStream], [Transfer]: a ring buffer is a
      window on a stream; inserting, dropping and moving frames keeps exactly the
      data received; a receiver delivers the stream in order and completely; a
      sender keeps every byte until it is acknowledged and reports it right; and
      end to end what is read is what was written, under any loss, duplication
      and reordering.
    - [StreamMapSpec]: every operation on a stream follows the state machines of
      RFC 9000 and is refused exactly where the code's table says, which for ten of the thirteen is the
      header's ([stream_ops_departures] for the others); a stream is active
      exactly when it has something to say; iteration visits every active stream
      once and the round robin is fair; the accept queue is first in, first out.
    - [StreamChan], [RxDepackSpec], [ChanLife]: streams are opened in order and
      within the limits, by us or by the peer's frames; whatever bytes a packet
      holds, processing it, up to a frame whose handler is not modelled and after it again, ends, is defined, keeps the invariant of the channel and
      fails only with a protocol error; and in every reachable channel each stream
      is what its identifier says and refers only to packets that are allocated.
    - [AckmSpec]: in every reachable state of the ACK manager each packet sent is
      in a history or was reported exactly once (if the hash table has memory for it), the byte counters are exact and
      agree with the congestion controller's, and the loss detection timer is that of RFC 9002 for
      the loss times the code selects; an ACK frame reports exactly the packets RFC 9002
      says, by number and by the clock; no packet number is processed twice; an acknowledgement carried from
      one endpoint to the other only covers packets that were received.
    - [CfqSpec]: every queued frame is in the list its state names, in order, each
      buffer is freed once, and iteration visits the waiting frames of a space, each once (larger priority values
      first: [cfq_transmission_order]).  [Txpim]: a record keeps exactly the chunks it was given, up to its limit.
    - [FifdSpec]: whatever is built, sent, acknowledged, lost and discarded, a control
      frame is marked as sent exactly when it is in one packet in flight, and a byte is
      in flight exactly when one chunk of one such packet has it; every packet that
      leaves the histories has its bytes, its FIN and its control frames confirmed or waiting again; no step is
      undefined; and between callbacks the packets the ACK manager may still read are unchanged.  (The FIN of an empty stream, which the code records as a chunk of all
      bytes, is outside, as are failures to allocate marks and entries of the history, and what becomes of
      STOP_SENDING and RESET_STREAM frames, for which see [fifd_abort_frames_dropped].)

    Several theorems record where the code departs from its documentation or
    from its evident intent, on concrete inputs: [uint_set_insert_leaves_border],
    [time_muldiv_overflow_is_zero], [wpacket_unguarded_writes],
    [quic_ack_truncated_unchecked], [pqueue_reserve_wraps],
    [ring_buf_off_by_one], [sframe_insert_head_quirks], [rstream_record_quirks],
    [sstream_totally_acked_missed], [ackm_loss_time_hidden],
    [ackm_ack_frame_quirks], [stream_gc_releases_nothing],
    [conn_flow_control_unchecked], [depack_dispatch_slips],
    [retry_tag_error_leaks], [partial_decode_skips_pn], [raw_pn_without_four_bytes],
    [fifd_abort_frames_dropped], [fifd_empty_fin_is_all_bytes], [lhash_down_load_zero],
    [lhash_contract_frees_array], [rcidm_preferred_lost], [stream_ops_departures],
    [cfq_transmission_order].

    ** Not modelled

    The packetiser's choice of frames and layout of datagrams, and the
    handlers of ACK, CRYPTO, NEW_CONNECTION_ID, PATH_CHALLENGE, CONNECTION_CLOSE and
    HANDSHAKE_DONE frames: the loop of [RxDepack] stops at such a frame.  The record layer,
    the rest of the channel, the reactor and the TLS glue are
    network I/O, cryptography and threads around these parts; TLS and DTLS, the
    cryptographic library, providers, applications and tests are other systems.
    Ciphers are parameters of header protection and of the Retry tags; setting up
    and releasing their contexts is not modelled.  The signed half of [safe_math.h] and the little-endian readers of
    [packet.h] are left out, having no client here.  Wiping of freed memory is
    not represented, except in the ring buffer, where it could touch live data. *)
From Stdlib Require Import ZArith Lia.
From stdpp Require Import base list gmap.
#[local] Open Scope Z_scope.

(** ** Machine integers

    A [w]-bit unsigned integer is a [Z] in [0, 2^w); C's unsigned
    arithmetic is the arithmetic of [Z] followed by one of these wraps. *)

Declare Scope ossl_scope.
Delimit Scope ossl_scope with ossl.

Abbreviation UINT8_MOD := 256 (only parsing).
Abbreviation UINT32_MOD := 4294967296 (only parsing).
Abbreviation UINT64_MOD := 18446744073709551616 (only parsing).
Abbreviation UINT64_MAX := 18446744073709551615 (only parsing).
(** The model is of an LP64 platform: [size_t] is 64 bits wide. *)
Abbreviation SIZE_MAX := 18446744073709551615 (only parsing).

Definition u8 (x : Z) : Z := x mod UINT8_MOD.
Definition u32 (x : Z) : Z := x mod UINT32_MOD.
Definition u64 (x : Z) : Z := x mod UINT64_MOD.

Definition is_u8 (x : Z) : Prop := 0 <= x < UINT8_MOD.
Definition is_u64 (x : Z) : Prop := 0 <= x < UINT64_MOD.

#[global] Instance is_u8_dec x : Decision (is_u8 x).
Proof. unfold is_u8. apply _. Defined.
#[global] Instance is_u64_dec x : Decision (is_u64 x).
Proof. unfold is_u64. apply _. Defined.

(** A pointer that may be null is an [option]. *)
Definition is_null {A} (p : option A) : bool :=
  match p with None => true | Some _ => false end.

Create HintDb ossl.

Lemma u64_id x : is_u64 x -> u64 x = x.
Proof. unfold is_u64, u64. apply Z.mod_small. Qed.

Lemma u64_range x : is_u64 (u64 x).
Proof. unfold is_u64, u64. apply Z.mod_pos_bound. lia. Qed.

Lemma u8_id x : is_u8 x -> u8 x = x.
Proof. unfold is_u8, u8. apply Z.mod_small. Qed.

Lemma u8_range x : is_u8 (u8 x).
Proof. unfold is_u8, u8. apply Z.mod_pos_bound. lia. Qed.

#[export] Hint Resolve u64_range u8_range : ossl.

(** [u64_simpl] removes the wraps whose argument [lia] can bound. *)
Ltac u64_simpl :=
  repeat match goal with
  | |- context [u64 ?x] => rewrite (u64_id x) by (unfold is_u64 in *; lia)
  | H : context [u64 ?x] |- _ => rewrite (u64_id x) in H by (unfold is_u64 in *; lia)
  end.

(** [zb] turns the boolean comparisons of [Z] in hypotheses and goal into
    propositions and splits the boolean connectives. *)
Ltac zb_step :=
  match goal with
  | H : _ && _ = true |- _ => apply andb_true_iff in H as [??]
  | H : _ || _ = false |- _ => apply orb_false_iff in H as [??]
  | H : negb _ = true |- _ => apply negb_true_iff in H
  | H : negb _ = false |- _ => apply negb_false_iff in H
  | H : (_ <=? _) = true |- _ => apply Z.leb_le in H
  | H : (_ <=? _) = false |- _ => apply Z.leb_gt in H
  | H : (_ <? _) = true |- _ => apply Z.ltb_lt in H
  | H : (_ <? _) = false |- _ => apply Z.ltb_ge in H
  | H : (_ =? _) = true |- _ => apply Z.eqb_eq in H
  | H : (_ =? _) = false |- _ => apply Z.eqb_neq in H
  end.
Ltac zb := repeat zb_step.

Lemma true_iff (P : Prop) : (true = true <-> P) -> P.
Proof. tauto. Qed.
Lemma false_iff (P : Prop) : (false = true <-> P) -> ~ P.
Proof. intros [_ H] HP. discriminate (H HP). Qed.

(** [bool_iff] uses the hypotheses [b = true <-> P] whose [b] is known. *)
Ltac bool_iff :=
  repeat match goal with
  | H : true = true <-> _ |- _ => apply true_iff in H
  | H : false = true <-> _ |- _ => apply false_iff in H
  end.

(** [zcase] splits on the condition of an innermost [if] of the goal and
    reflects it. *)
Ltac zcase :=
  match goal with
  | |- context [if ?b then _ else _] =>
      lazymatch type of b with bool => idtac end;
      lazymatch b with
      | context [if _ then _ else _] => fail
      | _ => let E := fresh "E" in destruct b eqn:E; zb
      end
  end.

(** ** Sums over finite maps *)

Definition msum {A} (f : A -> Z) (h : gmap nat A) : Z :=
  map_fold (fun _ x acc => f x + acc) 0 h.

Lemma msum_insert_None {A} (f : A -> Z) h i x :
  h !! i = None -> msum f (<[i := x]> h) = f x + msum f h.
Proof.
  intros. unfold msum. rewrite map_fold_insert_L; [done| |done]. intros. lia.
Qed.

Lemma msum_insert_Some {A} (f : A -> Z) h i x y :
  h !! i = Some x -> msum f (<[i := y]> h) = msum f h - f x + f y.
Proof.
  intros H.
  assert (E : msum f h = f x + msum f (delete i h)).
  { rewrite <- (insert_id h i x H) at 1. rewrite <- (insert_delete_eq h i x).
    apply msum_insert_None, lookup_delete_eq. }
  rewrite <- (insert_delete_eq h i y), msum_insert_None by apply lookup_delete_eq. lia.
Qed.

(** ** External inputs

    The outcomes of calls the code makes to its environment are inputs of the
    model: [clock] is the sequence of values successive calls of a [now]
    callback return (zero when the sequence is used up). *)
Definition clock := list Z.
Definition read_clock (ck : clock) : Z * clock :=
  match ck with [] => (0, []) | t :: ck => (t, ck) end.

(** ** Functions that update a state and may fail

    A C function that returns 1 or 0 and works on a structure by reference is
    a function of the structure: it returns a value, or the failure the caller
    tests, or has undefined behaviour; in every case with the structure as it
    leaves it.  A sequence of calls joined by [||] with an early [return 0] is
    the monadic sequence: a failure stops it and keeps the state reached. *)
Inductive res (A : Type) := Ret (a : A) | Err | Undef.
Arguments Ret {A} a.
Arguments Err {A}.
Arguments Undef {A}.

Definition M (S A : Type) : Type := S -> res A * S.

#[global] Instance M_ret {S} : MRet (M S) := fun A a s => (Ret a, s).
#[global] Instance M_bind {S} : MBind (M S) := fun A B f m s =>
  match m s with
  | (Ret a, s') => f a s'
  | (Err, s') => (Err, s')
  | (Undef, s') => (Undef, s')
  end.

Definition fail {S A} : M S A := fun s => (Err, s).
Definition undefined {S A} : M S A := fun s => (Undef, s).
Definition get {S} : M S S := fun s => (Ret s, s).
Definition put {S} (s : S) : M S unit := fun _ => (Ret tt, s).
Definition modify {S} (f : S -> S) : M S unit := fun s => (Ret tt, f s).
(** [if (!b) return 0]. *)
Definition guard_ {S} (b : bool) : M S unit := if b then mret tt else fail.

Lemma bind_ret {S A B} (m : M S A) (f : A -> M S B) s a s' :
  m s = (Ret a, s') -> (m ≫= f) s = f a s'.
Proof. unfold mbind, M_bind. by intros ->. Qed.

Lemma bind_err {S A B} (m : M S A) (f : A -> M S B) s s' :
  m s = (Err, s') -> (m ≫= f) s = (Err, s').
Proof. unfold mbind, M_bind. by intros ->. Qed.

Lemma bind_inv {S A B} (m : M S A) (f : A -> M S B) s b s' :
  (m ≫= f) s = (Ret b, s') -> exists a s1, m s = (Ret a, s1) /\ f a s1 = (Ret b, s').
Proof. unfold mbind, M_bind. destruct (m s) as [[] s1]; naive_solver. Qed.

Lemma guard_true {S A} (b : bool) (f : M S A) s : b = true -> (guard_ b;; f) s = f s.
Proof. by intros ->. Qed.
Lemma guard_false {S A} (b : bool) (f : M S A) s : b = false -> (guard_ b;; f) s = (Err, s).
Proof. by intros ->. Qed.

(** What holds after a call that cannot have undefined behaviour: [Q] of the
    value and the state when it returns one, [E] of the state when it fails. *)
Definition wp {S A} (m : M S A) (s : S) (Q : A -> S -> Prop) (E : S -> Prop) : Prop :=
  match m s with (Ret a, s') => Q a s' | (Err, s') => E s' | (Undef, _) => False end.

Lemma wp_mono {S A} (m : M S A) s (Q Q' : A -> S -> Prop) (E E' : S -> Prop) :
  wp m s Q E -> (forall a s', Q a s' -> Q' a s') -> (forall s', E s' -> E' s') -> wp m s Q' E'.
Proof. unfold wp. destruct (m s) as [[] ?]; naive_solver. Qed.

Lemma wp_bind {S A B} (m : M S A) (f : A -> M S B) s Q E :
  wp m s (fun a s' => wp (f a) s' Q E) E -> wp (m ≫= f) s Q E.
Proof. unfold wp, mbind, M_bind. by destruct (m s) as [[] ?]. Qed.

(** A step of a longer sequence, given what it establishes. *)
Lemma wp_seq {S A B C} (m : M S A) (f : A -> M S B) (h : A -> B -> M S C) s (P : A -> B -> S -> Prop) Q E :
  wp (a ← m; b ← f a; mret (a, b)) s (fun ab s' => P ab.1 ab.2 s') E ->
  (forall a b s', P a b s' -> wp (h a b) s' Q E) -> wp (a ← m; b ← f a; h a b) s Q E.
Proof.
  unfold wp, mbind, M_bind. destruct (m s) as [[a| |] s1]; try done. destruct (f a s1) as [[b| |] s2]; try done.
  intros HP HQ. exact (HQ a b s2 HP).
Qed.

Lemma wp_eq {S A} (m : M S A) s a s' (Q : A -> S -> Prop) E : m s = (Ret a, s') -> Q a s' -> wp m s Q E.
Proof. unfold wp. by intros ->. Qed.

Lemma wp_ret {S A} (a : A) (s : S) (Q : A -> S -> Prop) E : Q a s -> wp (mret a) s Q E.
Proof. done. Qed.
Lemma wp_fail {S A} (s : S) (Q : A -> S -> Prop) (E : S -> Prop) : E s -> wp fail s Q E.
Proof. done. Qed.
Lemma wp_get {S} (s : S) (Q : S -> S -> Prop) E : Q s s -> wp get s Q E.
Proof. done. Qed.
Lemma wp_modify {S} (f : S -> S) s (Q : unit -> S -> Prop) E : Q tt (f s) -> wp (modify f) s Q E.
Proof. done. Qed.
Lemma wp_guard {S} (b : bool) (s : S) (Q : unit -> S -> Prop) (E : S -> Prop) :
  (b = true -> Q tt s) -> (b = false -> E s) -> wp (guard_ b) s Q E.
Proof. destruct b; cbn; auto. Qed.

(** [wp_step] takes the first call of a sequence. *)
Ltac wp_step :=
  match goal with
  | |- wp (_ ≫= _) _ _ _ => apply wp_bind
  | |- wp (mret _) _ _ _ => apply wp_ret
  | |- wp get _ _ _ => apply wp_get
  | |- wp (modify _) _ _ _ => apply wp_modify
  | |- wp fail _ _ _ => apply wp_fail
  end.
Ltac wp_steps := repeat (wp_step; cbv beta zeta).

(** ** Bits and big-endian bytes *)

Lemma lor_shiftl_add a b n : 0 <= n -> 0 <= b < 2 ^ n -> Z.lor (Z.shiftl a n) b = a * 2 ^ n + b.
Proof.
  intros Hn Hb. rewrite Z.shiftl_mul_pow2 by done. symmetry. apply Z.add_nocarry_lor.
  apply Z.bits_inj'. intros k Hk. rewrite Z.land_spec, Z.bits_0.
  destruct (Z.lt_ge_cases k n).
  - by rewrite Z.mul_pow2_bits_low.
  - destruct (Z.eq_dec b 0) as [->|]; [by rewrite Z.bits_0, andb_false_r|].
    rewrite (Z.bits_above_log2 b k), andb_false_r; [done|lia|].
    apply Z.log2_lt_pow2; [lia|]. eapply Z.lt_le_trans; [apply Hb|apply Z.pow_le_mono_r; lia].
Qed.

Lemma u8_land x : Z.land x 255 = u8 x.
Proof. change 255 with (Z.ones 8). by rewrite Z.land_ones. Qed.

Fixpoint be_bytes (n : nat) (v : Z) : list Z :=
  match n with
  | O => []
  | S k => u8 (Z.shiftr v (8 * Z.of_nat k)) :: be_bytes k v
  end.

Fixpoint be_val (l : list Z) : Z :=
  match l with
  | [] => 0
  | b :: l => b * 2 ^ (8 * Z.of_nat (length l)) + be_val l
  end.

Abbreviation bytes l := (Forall is_u8 l).

Lemma length_be_bytes n v : length (be_bytes n v) = n.
Proof. induction n; simpl; congruence. Qed.

Lemma bytes_be_bytes n v : bytes (be_bytes n v).
Proof. induction n; simpl; constructor; auto using u8_range. Qed.

Lemma pow256_succ n : 2 ^ (8 * Z.of_nat (S n)) = 256 * 2 ^ (8 * Z.of_nat n).
Proof.
  replace (8 * Z.of_nat (S n)) with (8 + 8 * Z.of_nat n) by lia.
  rewrite Z.pow_add_r by lia. reflexivity.
Qed.

Lemma pow256_pos n : 0 < 2 ^ (8 * Z.of_nat n).
Proof. apply Z.pow_pos_nonneg; lia. Qed.

Lemma be_val_be_bytes n v : be_val (be_bytes n v) = v mod 2 ^ (8 * Z.of_nat n).
Proof.
  induction n as [|n IH]; [by rewrite Z.mod_1_r|].
  cbn [be_bytes be_val]. rewrite length_be_bytes, IH, Z.shiftr_div_pow2 by lia.
  rewrite pow256_succ. unfold u8. pose proof (pow256_pos n).
  rewrite (Z.mul_comm 256), Z.rem_mul_r by lia. lia.
Qed.

Lemma be_val_range l : bytes l -> 0 <= be_val l < 2 ^ (8 * Z.of_nat (length l)).
Proof.
  induction 1 as [|b l Hb _ IH]; [simpl; lia|].
  cbn [length be_val]. rewrite pow256_succ. unfold is_u8 in Hb.
  pose proof (pow256_pos (length l)). nia.
Qed.

Lemma be_bytes_shift n v a : be_bytes n (a * 2 ^ (8 * Z.of_nat n) + v) = be_bytes n v.
Proof.
  induction n as [|n IH] in a |- *; [done|]. cbn [be_bytes]. f_equal.
  - rewrite !Z.shiftr_div_pow2, pow256_succ by lia. pose proof (pow256_pos n). unfold u8.
    replace (a * (256 * 2 ^ (8 * Z.of_nat n)) + v) with (v + a * 256 * 2 ^ (8 * Z.of_nat n)) by lia.
    by rewrite Z.div_add, Z.mod_add by lia.
  - rewrite pow256_succ. replace (a * (256 * 2 ^ (8 * Z.of_nat n))) with (a * 256 * 2 ^ (8 * Z.of_nat n)) by lia.
    apply IH.
Qed.

Lemma be_bytes_be_val l : bytes l -> be_bytes (length l) (be_val l) = l.
Proof.
  induction 1 as [|b l Hb Hl IH]; [done|]. cbn [length be_bytes be_val].
  rewrite be_bytes_shift, IH. f_equal. pose proof (be_val_range l Hl).
  rewrite Z.shiftr_div_pow2, Z.div_add_l, Z.div_small, Z.add_0_r by lia. by apply u8_id.
Qed.
