(* ===== verification/SafeMath.v ===== *)
(** * Overflow-checked unsigned arithmetic

    Model of the unsigned half of [include/internal/safe_math.h], the macros
    [OSSL_SAFE_MATH_UNSIGNED(type_name, type)] instantiates.  A function that
    reports through [int *err] returns its value paired with the flag it ORs
    into [*err].  The header has two bodies for addition and multiplication,
    selected by [has(__builtin_..._overflow)]; both are here. *)
From Stdlib Require Import ZArith Lia.
From stdpp Require Import base tactics list.
From S2P Require Import Prelude.
#[local] Open Scope Z_scope.

Module SafeMath.

Section Unsigned.
(** The width of [type] in bits. *)
Context (w : Z).

Definition modulus : Z := 2 ^ w.
(** [OSSL_SAFE_MATH_MAXU(type)], that is [~(type)0]. *)
Definition max : Z := modulus - 1.
Definition wrap (x : Z) : Z := x mod modulus.

(** With the compiler's builtins. *)
Definition safe_add_builtin (a b : Z) : Z * bool :=
  if a + b <=? max then (a + b, false) else (wrap (a + b), true).
Definition safe_mul_builtin (a b : Z) : Z * bool :=
  if a * b <=? max then (a * b, false) else (wrap (a * b), true).

(** Without them. *)
Definition safe_add (a b : Z) : Z * bool := (wrap (a + b), wrap (max - a) <? b).
Definition safe_sub (a b : Z) : Z * bool := (wrap (a - b), a <? b).
Definition safe_mul (a b : Z) : Z * bool :=
  (wrap (a * b), negb (b =? 0) && (max / b <? a)).
Definition safe_div (a b : Z) : Z * bool :=
  if negb (b =? 0) then (a / b, false) else (max, true).
Definition safe_mod (a b : Z) : Z * bool :=
  if negb (b =? 0) then (a mod b, false) else (0, true).
Definition safe_neg (a : Z) : Z * bool :=
  if a =? 0 then (a, false) else (wrap (1 + (max - a)), true).
Definition safe_abs (a : Z) : Z * bool := (a, false).

Definition safe_muldiv (a b c : Z) : Z * bool :=
  if c =? 0 then (if (a =? 0) || (b =? 0) then 0 else max, true)
  else
    let '(x, e2) := safe_mul a b in
    if negb e2 then (x / c, false)
    else
      let '(a, b) := if a <? b then (b, a) else (a, b) in
      let '(x, e1) := safe_mul (a mod c) b in
      let '(y, e2) := safe_mul (a / c) b in
      let '(r, e3) := safe_add y (x / c) in
      (r, e1 || e2 || e3).

(** [x != 0] as an integer. *)
Definition nz (x : Z) : Z := if x =? 0 then 0 else 1.

Definition safe_div_round_up (a b : Z) : Z * bool :=
  if (0 <? b) && (0 <? a) then
    if a <? wrap (max - b) then (wrap (wrap (a + b) - 1) / b, false)
    else (wrap (a / b + nz (a mod b)), false)
  else if b =? 0 then (if a =? 0 then 0 else max, true)
  else if a =? 0 then (0, false)
  else
    let '(x, e1) := safe_mod a b in
    let '(q, e2) := safe_div a b in
    let '(r, e3) := safe_add q (nz x) in
    (r, e1 || e2 || e3).

(** ** Lemmas *)
Context (Hw : 0 < w).

Definition is_uint (x : Z) : Prop := 0 <= x < modulus.

Lemma modulus_ge_2 : 2 <= modulus.
Proof. unfold modulus. change 2 with (2 ^ 1) at 1. apply Z.pow_le_mono_r; lia. Qed.

Lemma wrap_id x : is_uint x -> wrap x = x.
Proof. apply Z.mod_small. Qed.

Lemma wrap_is_uint x : is_uint (wrap x).
Proof. pose proof modulus_ge_2. apply Z.mod_pos_bound. lia. Qed.

Lemma safe_add_eq a b : is_uint a -> is_uint b -> safe_add a b = safe_add_builtin a b.
Proof.
  unfold is_uint, safe_add, safe_add_builtin, max. intros Ha Hb.
  rewrite (wrap_id (modulus - 1 - a)) by (unfold is_uint; lia).
  zcase; f_equal; try lia. apply wrap_id. unfold is_uint. lia.
Qed.

Lemma safe_mul_eq a b : is_uint a -> is_uint b -> safe_mul a b = safe_mul_builtin a b.
Proof.
  unfold is_uint, safe_mul, safe_mul_builtin, max. intros Ha Hb.
  destruct (Z.eqb_spec b 0) as [->|Hb0]; simpl.
  { rewrite Z.mul_0_r. zcase; [done|lia]. }
  pose proof (Z.div_mod (modulus - 1) b Hb0). pose proof (Z.mod_pos_bound (modulus - 1) b).
  zcase; f_equal; try (apply wrap_id; unfold is_uint; nia); destruct (Z.ltb_spec ((modulus - 1) / b) a); auto; nia.
Qed.

Lemma muldiv_split a b c : c <> 0 -> a * b / c = a / c * b + a mod c * b / c.
Proof.
  intros Hc. rewrite (Z.div_mod a c Hc) at 1.
  rewrite Z.mul_add_distr_r, <- Z.mul_assoc, Z.mul_comm, Z.add_comm, Z.div_add by done. lia.
Qed.

Lemma safe_mul_ok a b x :
  is_uint a -> is_uint b -> safe_mul a b = (x, false) -> x = a * b.
Proof.
  intros Ha Hb. rewrite safe_mul_eq by done. unfold safe_mul_builtin. zcase; congruence.
Qed.

Lemma safe_add_ok a b x :
  is_uint a -> is_uint b -> safe_add a b = (x, false) -> x = a + b.
Proof.
  intros Ha Hb. rewrite safe_add_eq by done. unfold safe_add_builtin. zcase; congruence.
Qed.

Lemma div_is_uint a c : is_uint a -> 0 <= c -> is_uint (a / c).
Proof.
  intros [Ha Ha']. destruct (Z.eq_dec c 0) as [->|]; [rewrite Z.div_0_r; unfold is_uint; lia|].
  intros. split; [apply Z.div_pos; lia|]. eapply Z.le_lt_trans; [|done].
  apply Z.div_le_upper_bound; nia.
Qed.

Lemma mod_is_uint a c : is_uint a -> is_uint c -> is_uint (a mod c).
Proof.
  intros Ha Hc. destruct (Z.eq_dec c 0) as [->|]; [by rewrite Z.mod_0_r|].
  pose proof (Z.mod_pos_bound a c). unfold is_uint in *. lia.
Qed.

End Unsigned.

#[global] Arguments safe_add : simpl never.
#[global] Arguments safe_sub : simpl never.
#[global] Arguments safe_mul : simpl never.
#[global] Arguments safe_div : simpl never.
#[global] Arguments safe_muldiv : simpl never.

#[export] Hint Resolve div_is_uint mod_is_uint wrap_is_uint : ossl.

(** ** Properties *)

(** The portable and the builtin bodies of checked addition and
    multiplication agree: same value, and the error flag is set exactly when
    the mathematical result does not fit the type. *)
Theorem safe_add_mul_portable w a b :
  0 < w -> is_uint w a -> is_uint w b ->
  safe_add w a b = safe_add_builtin w a b /\ safe_mul w a b = safe_mul_builtin w a b.
Proof. intros. split; [by apply safe_add_eq|by apply safe_mul_eq]. Qed.

Lemma safe_add_mul_portable_witness :
  safe_add 64 UINT64_MAX 2 = (1, true) /\ safe_mul 64 UINT64_MAX 2 = (UINT64_MAX - 1, true).
Proof.
  destruct (safe_add_mul_portable 64 UINT64_MAX 2) as [-> ->];
    unfold is_uint, modulus; simpl; try lia.
  split; reflexivity.
Defined.

(** When [safe_muldiv] reports no error its result is the exact quotient
    a * b / c, although the product may not fit the type; and it never reports
    an error when the product does fit. *)
Theorem safe_muldiv_exact w a b c :
  0 < w -> is_uint w a -> is_uint w b -> is_uint w c ->
  (snd (safe_muldiv w a b c) = false -> c <> 0 /\ fst (safe_muldiv w a b c) = a * b / c) /\
  (c <> 0 -> a * b < modulus w -> snd (safe_muldiv w a b c) = false).
Proof.
  intros Hw Ha Hb Hc. unfold safe_muldiv. destruct (Z.eqb_spec c 0) as [->|Hc0].
  { split; [discriminate|lia]. }
  destruct (safe_mul w a b) as [x e2] eqn:E1. destruct e2; cbn [negb].
  - split; [|intros _ Hlt; exfalso; rewrite safe_mul_eq in E1 by done;
             unfold safe_mul_builtin, max in E1; revert E1; zcase; [congruence|lia]].
    intros He. split; [done|]. revert He.
    assert (Hsw : exists a' b', (if a <? b then (b, a) else (a, b)) = (a', b') /\
              is_uint w a' /\ is_uint w b' /\ a' * b' = a * b)
      by (zcase; eexists _, _; split_and!; eauto; lia).
    destruct Hsw as (a' & b' & -> & Ha' & Hb' & <-). cbv beta iota.
    destruct (safe_mul w (a' mod c) b') as [x1 [|]] eqn:F1,
             (safe_mul w (a' / c) b') as [y1 [|]] eqn:F2,
             (safe_add w y1 (x1 / c)) as [r1 [|]] eqn:F3; cbn [fst snd orb]; try (intros; discriminate).
    intros _. rewrite muldiv_split by done.
    assert (is_uint w x1 /\ is_uint w y1) as [Hx Hy].
    { unfold safe_mul in F1, F2. injection F1 as <- _. injection F2 as <- _.
      split; by apply wrap_is_uint. }
    apply safe_mul_ok in F1, F2; try done; try (apply mod_is_uint; done);
      try (apply div_is_uint; [done..|unfold is_uint in *; lia]).
    apply safe_add_ok in F3; try done; [by rewrite F3, F1, F2|].
    apply div_is_uint; [done..|unfold is_uint in *; lia].
  - split; [|done]. intros _. split; [done|]. by apply safe_mul_ok in E1 as ->.
Qed.

Lemma safe_muldiv_exact_witness :
  safe_muldiv 64 (2 ^ 63) 8 16 = (2 ^ 62, false) /\ fst (safe_muldiv 64 (2 ^ 63) 8 16) = 2 ^ 63 * 8 / 16.
Proof.
  split; [reflexivity|].
  apply (safe_muldiv_exact 64 (2 ^ 63) 8 16); unfold is_uint, modulus; simpl; try lia; reflexivity.
Defined.

(** For a non-zero divisor [safe_div_round_up] is the ceiling of a / b and
    reports no error, in every branch, including where a + b would overflow. *)
Theorem safe_div_round_up_ceiling w a b :
  0 < w -> is_uint w a -> is_uint w b -> b <> 0 ->
  safe_div_round_up w a b = ((a + b - 1) / b, false).
Proof.
  intros Hw Ha Hb Hb0. unfold safe_div_round_up, is_uint in *.
  pose proof (modulus_ge_2 w Hw).
  assert (Hb' : (0 <? b) = true) by lia. rewrite Hb'. simpl.
  destruct (Z.ltb_spec 0 a); simpl.
  - unfold max. rewrite (wrap_id w (modulus w - 1 - b)) by (unfold is_uint; lia).
    zcase.
    + rewrite (wrap_id w (a + b)) by (unfold is_uint; lia).
      rewrite wrap_id by (unfold is_uint; lia). done.
    + pose proof (Z.div_mod a b Hb0). pose proof (Z.mod_pos_bound a b).
      assert (a / b <= a) by (apply Z.div_le_upper_bound; nia).
      assert (Hq : (a + b - 1) / b = a / b + nz (a mod b)).
      { unfold nz. zcase.
        - symmetry. apply (Z.div_unique _ _ _ (b - 1)); lia.
        - symmetry. apply (Z.div_unique _ _ _ (a mod b - 1)); lia. }
      rewrite Hq. f_equal. apply wrap_id. unfold is_uint, nz in *.
      zcase; [pose proof (Z.div_pos a b); lia|].
      pose proof (Z.div_pos a b). destruct (Z.eq_dec b 1); [subst; rewrite Z.mod_1_r in *; lia|nia].
  - assert (a = 0) as -> by lia. destruct (Z.eqb_spec b 0); [lia|]. simpl.
    f_equal. symmetry. apply Z.div_small. lia.
Qed.

Lemma safe_div_round_up_ceiling_witness :
  safe_div_round_up 64 UINT64_MAX 2 = (2 ^ 63, false).
Proof.
  rewrite (safe_div_round_up_ceiling 64 UINT64_MAX 2); unfold is_uint, modulus; simpl; try lia.
  reflexivity.
Defined.

End SafeMath.
