(* ===== verification/OsslTime.v ===== *)
(** * [OSSL_TIME]: saturating nanosecond times

    Model of [include/internal/time.h].  [OSSL_TIME] is a structure with the
    single field [t], a 64-bit tick count; it is that integer here. *)
From Stdlib Require Import ZArith Lia.
From stdpp Require Import base tactics list.
From S2P Require Import Prelude SafeMath.
#[local] Open Scope Z_scope.

Module OsslTime.

Abbreviation OSSL_TIME := Z (only parsing).

Definition OSSL_TIME_SECOND : Z := 1000000000.
Definition OSSL_TIME_MS : Z := OSSL_TIME_SECOND / 1000.
Definition OSSL_TIME_US : Z := OSSL_TIME_MS / 1000.
Definition OSSL_TIME_NS : Z := OSSL_TIME_US / 1000.

Definition ossl_ticks2time (ticks : Z) : OSSL_TIME := ticks.
Definition ossl_time2ticks (t : OSSL_TIME) : Z := t.

Definition ossl_seconds2time (s : Z) : OSSL_TIME := ossl_ticks2time (u64 (s * OSSL_TIME_SECOND)).
Definition ossl_time2seconds (t : OSSL_TIME) : Z := ossl_time2ticks t / OSSL_TIME_SECOND.
Definition ossl_ms2time (ms : Z) : OSSL_TIME := ossl_ticks2time (u64 (ms * OSSL_TIME_MS)).
Definition ossl_time2ms (t : OSSL_TIME) : Z := ossl_time2ticks t / OSSL_TIME_MS.
Definition ossl_us2time (us : Z) : OSSL_TIME := ossl_ticks2time (u64 (us * OSSL_TIME_US)).
Definition ossl_time2us (t : OSSL_TIME) : Z := ossl_time2ticks t / OSSL_TIME_US.

Definition ossl_time_zero : OSSL_TIME := ossl_ticks2time 0.
Definition ossl_time_infinite : OSSL_TIME := ossl_ticks2time UINT64_MAX.

(** [struct timeval]; [time_t] and [suseconds_t] are signed 64-bit. *)
Record timeval := mkTimeval { tv_sec : Z; tv_usec : Z }.

Definition ossl_time_to_timeval (t : OSSL_TIME) : timeval :=
  let '(r, err) := SafeMath.safe_add 64 t (OSSL_TIME_US - 1) in
  let t := if (err : bool) then ossl_time_infinite else r in
  mkTimeval (t / OSSL_TIME_SECOND) ((t mod OSSL_TIME_SECOND) / OSSL_TIME_US).

Definition ossl_time_from_timeval (tv : timeval) : OSSL_TIME :=
  if tv_sec tv <? 0 then ossl_time_zero
  else u64 (u64 (tv_sec tv * OSSL_TIME_SECOND) + u64 (tv_usec tv * OSSL_TIME_US)).

Definition ossl_time_to_time_t (t : OSSL_TIME) : Z := t / OSSL_TIME_SECOND.
Definition ossl_time_from_time_t (t : Z) : OSSL_TIME := u64 (u64 t * OSSL_TIME_SECOND).

Definition ossl_time_compare (a b : OSSL_TIME) : Z :=
  if b <? a then 1 else if a <? b then -1 else 0.

Definition ossl_time_is_zero (t : OSSL_TIME) : bool := ossl_time_compare t ossl_time_zero =? 0.
Definition ossl_time_is_infinite (t : OSSL_TIME) : bool :=
  ossl_time_compare t ossl_time_infinite =? 0.

(** [err ? dflt : r] *)
Definition on_err (dflt : OSSL_TIME) (r : Z * bool) : OSSL_TIME :=
  if snd r then dflt else fst r.

Definition ossl_time_add (a b : OSSL_TIME) : OSSL_TIME :=
  on_err ossl_time_infinite (SafeMath.safe_add 64 a b).
Definition ossl_time_subtract (a b : OSSL_TIME) : OSSL_TIME :=
  on_err ossl_time_zero (SafeMath.safe_sub 64 a b).
Definition ossl_time_abs_difference (a b : OSSL_TIME) : OSSL_TIME :=
  if b <? a then ossl_time_subtract a b else ossl_time_subtract b a.
Definition ossl_time_multiply (a : OSSL_TIME) (b : Z) : OSSL_TIME :=
  on_err ossl_time_infinite (SafeMath.safe_mul 64 a b).
Definition ossl_time_divide (a : OSSL_TIME) (b : Z) : OSSL_TIME :=
  on_err ossl_time_zero (SafeMath.safe_div 64 a b).
Definition ossl_time_muldiv (a : OSSL_TIME) (b c : Z) : OSSL_TIME :=
  on_err ossl_time_zero (SafeMath.safe_muldiv 64 a b c).
Definition ossl_time_max (a b : OSSL_TIME) : OSSL_TIME := if b <? a then a else b.
Definition ossl_time_min (a b : OSSL_TIME) : OSSL_TIME := if a <? b then a else b.

(** ** Lemmas *)

Lemma is_u64_uint x : is_u64 x <-> SafeMath.is_uint 64 x.
Proof. reflexivity. Qed.

Lemma modulus_64 : SafeMath.modulus 64 = UINT64_MOD.
Proof. reflexivity. Qed.

Lemma time_compare_spec a b : ossl_time_compare a b = Z.sgn (a - b).
Proof. unfold ossl_time_compare. repeat zcase; lia. Qed.

Lemma time_is_zero_spec t : ossl_time_is_zero t = (t =? 0).
Proof.
  unfold ossl_time_is_zero, ossl_time_compare. change ossl_time_zero with 0.
  repeat zcase; destruct (Z.eqb_spec t 0); lia.
Qed.

Lemma time_max_spec a b : ossl_time_max a b = Z.max a b.
Proof. unfold ossl_time_max. zcase; lia. Qed.

Lemma time_min_spec a b : ossl_time_min a b = Z.min a b.
Proof. unfold ossl_time_min. zcase; lia. Qed.

Lemma time_add_spec a b :
  is_u64 a -> is_u64 b -> ossl_time_add a b = Z.min (a + b) UINT64_MAX.
Proof.
  intros Ha Hb. unfold ossl_time_add, on_err. rewrite SafeMath.safe_add_eq by (done || lia).
  unfold SafeMath.safe_add_builtin, SafeMath.max. rewrite modulus_64.
  unfold is_u64, ossl_time_infinite, ossl_ticks2time in *. zcase; simpl; lia.
Qed.

Lemma time_subtract_spec a b :
  is_u64 a -> is_u64 b -> ossl_time_subtract a b = Z.max (a - b) 0.
Proof.
  intros Ha Hb. unfold ossl_time_subtract, on_err, SafeMath.safe_sub. simpl.
  unfold is_u64, ossl_time_zero, ossl_ticks2time in *. zcase; [lia|].
  rewrite SafeMath.wrap_id by (unfold SafeMath.is_uint; rewrite modulus_64; lia). lia.
Qed.

Lemma time_abs_difference_spec a b :
  is_u64 a -> is_u64 b -> ossl_time_abs_difference a b = Z.abs (a - b).
Proof.
  intros. unfold ossl_time_abs_difference. zcase; rewrite time_subtract_spec by done; lia.
Qed.

Lemma time_multiply_spec a b :
  is_u64 a -> is_u64 b -> ossl_time_multiply a b = Z.min (a * b) UINT64_MAX.
Proof.
  intros Ha Hb. unfold ossl_time_multiply, on_err. rewrite SafeMath.safe_mul_eq by (done || lia).
  unfold SafeMath.safe_mul_builtin, SafeMath.max. rewrite modulus_64.
  unfold is_u64, ossl_time_infinite, ossl_ticks2time in *. zcase; simpl; lia.
Qed.

Lemma time_divide_spec a b : b <> 0 -> ossl_time_divide a b = a / b.
Proof.
  intros Hb. unfold ossl_time_divide, on_err, SafeMath.safe_div.
  destruct (Z.eqb_spec b 0); [done|reflexivity].
Qed.

Lemma is_u64_add a b : is_u64 a -> is_u64 b -> is_u64 (ossl_time_add a b).
Proof. intros. rewrite time_add_spec by done. unfold is_u64 in *. lia. Qed.
Lemma is_u64_subtract a b : is_u64 a -> is_u64 b -> is_u64 (ossl_time_subtract a b).
Proof. intros. rewrite time_subtract_spec by done. unfold is_u64 in *. lia. Qed.
Lemma is_u64_multiply a b : is_u64 a -> is_u64 b -> is_u64 (ossl_time_multiply a b).
Proof. intros. rewrite time_multiply_spec by done. unfold is_u64 in *. nia. Qed.
Lemma is_u64_abs_difference a b :
  is_u64 a -> is_u64 b -> is_u64 (ossl_time_abs_difference a b).
Proof. intros. rewrite time_abs_difference_spec by done. unfold is_u64 in *. lia. Qed.
Lemma is_u64_divide a b : is_u64 a -> 0 < b -> is_u64 (ossl_time_divide a b).
Proof.
  intros. rewrite time_divide_spec by lia. apply is_u64_uint, SafeMath.div_is_uint; [done|lia].
Qed.

#[export] Hint Resolve is_u64_add is_u64_subtract is_u64_multiply is_u64_divide
  is_u64_abs_difference : ossl.

(** ** Properties *)

(** Addition, subtraction, multiplication and absolute difference of
    times saturate at the ends of the 64-bit range instead of wrapping. *)
Theorem time_ops_saturate a b :
  is_u64 a -> is_u64 b ->
  ossl_time_add a b = Z.min (a + b) UINT64_MAX /\
  ossl_time_subtract a b = Z.max (a - b) 0 /\
  ossl_time_multiply a b = Z.min (a * b) UINT64_MAX /\
  ossl_time_abs_difference a b = Z.abs (a - b).
Proof.
  intros. split_and!; auto using time_add_spec, time_subtract_spec, time_multiply_spec,
    time_abs_difference_spec.
Qed.

Lemma time_ops_saturate_witness : ossl_time_add UINT64_MAX 5 = UINT64_MAX.
Proof.
  destruct (time_ops_saturate UINT64_MAX 5) as [-> _]; unfold is_u64; [lia..|reflexivity].
Defined.

(** [ossl_time_muldiv] does not saturate: where the quotient overflows it
    returns the smallest time, not the largest, although the comment above the
    arithmetic functions says every one of them saturates. *)
Theorem time_muldiv_overflow_is_zero :
  ossl_time_muldiv UINT64_MAX 4 1 = ossl_time_zero /\
  UINT64_MAX * 4 / 1 > UINT64_MAX /\
  ossl_time_multiply UINT64_MAX 4 = ossl_time_infinite.
Proof. split_and!; reflexivity. Qed.

(** Converting a time to [struct timeval] rounds up to the next
    microsecond and converting back gives the rounded time: never earlier than
    the original, less than a microsecond later, and zero only for zero. *)
Theorem time_timeval_roundtrip t :
  is_u64 t -> t + 999 < UINT64_MOD ->
  let t' := ossl_time_from_timeval (ossl_time_to_timeval t) in
  t <= t' < t + 1000 /\ t' mod 1000 = 0 /\ (t' = 0 <-> t = 0).
Proof.
  intros Ht Hlt. unfold ossl_time_to_timeval.
  change (OSSL_TIME_US - 1) with 999.
  rewrite SafeMath.safe_add_eq by (unfold SafeMath.is_uint, is_u64 in *; rewrite ?modulus_64; lia).
  unfold SafeMath.safe_add_builtin, SafeMath.max. rewrite modulus_64.
  destruct (Z.leb_spec (t + 999) (UINT64_MOD - 1)); [|lia].
  unfold ossl_time_from_timeval, is_u64 in *. cbn [tv_sec tv_usec].
  change OSSL_TIME_SECOND with 1000000000. change OSSL_TIME_US with 1000.
  set (x := t + 999) in *.
  destruct (Z.ltb_spec (x / 1000000000) 0); [pose proof (Z.div_pos x 1000000000); lia|].
  assert (Hx : x / 1000000000 * 1000000000 + x mod 1000000000 / 1000 * 1000
          = x - x mod 1000).
  { pose proof (Z.div_mod x 1000000000). pose proof (Z.div_mod (x mod 1000000000) 1000).
    assert ((x mod 1000000000) mod 1000 = x mod 1000).
    { apply Z.mod_mod_divide. exists 1000000. reflexivity. }
    lia. }
  pose proof (Z.mod_pos_bound x 1000). pose proof (Z.mod_pos_bound x 1000000000).
  pose proof (Z.div_pos (x mod 1000000000) 1000).
  rewrite (u64_id (x / 1000000000 * 1000000000)) by (unfold is_u64; lia).
  rewrite (u64_id (x mod 1000000000 / 1000 * 1000)) by (unfold is_u64; lia).
  rewrite Hx. rewrite u64_id by (unfold is_u64; lia).
  split_and!; try lia. rewrite Zminus_mod_idemp_r, Z.sub_diag. reflexivity.
Qed.

Lemma time_timeval_roundtrip_witness :
  ossl_time_from_timeval (ossl_time_to_timeval 1) = 1000 /\ 1000 mod 1000 = 0.
Proof.
  assert (E : ossl_time_from_timeval (ossl_time_to_timeval 1) = 1000) by reflexivity.
  split; [exact E|]. rewrite <- E.
  apply (time_timeval_roundtrip 1); unfold is_u64; lia.
Defined.

End OsslTime.
