(* ===== verification/UintSet.v ===== *)
(** * [UINT_SET]: sets of 64-bit integers as sorted lists of ranges

    Model of [ssl/quic/uint_set.c].  The intrusive doubly linked list of
    [include/internal/list.h] is a Rocq list in list order (head first); a
    position inside it is a zipper: the nodes before it in reverse order, and
    the nodes after it.  Walking backwards, as the code does, is structural
    recursion on the reversed part. *)
From Stdlib Require Import ZArith Lia Sorting.Sorted.
From stdpp Require Import base list sorting.
From S2P Require Import Prelude.
#[local] Open Scope Z_scope.

Module UintSet.

Record UINT_RANGE := mkRange { start : Z; end_ : Z }.

#[global] Instance UINT_RANGE_eq_dec : EqDecision UINT_RANGE.
Proof. solve_decision. Defined.

Definition UINT_SET := list UINT_RANGE.

Definition ossl_uint_set_init : UINT_SET := [].

Definition u64_min (x y : Z) : Z := if x <? y then x else y.
Definition u64_max (x y : Z) : Z := if y <? x then x else y.

Definition uint_range_overlaps (a b : UINT_RANGE) : bool :=
  u64_max (start a) (start b) <=? u64_min (end_ a) (end_ b).

(** [alloc_ok] is the outcome of [OPENSSL_malloc]. *)
Definition create_set_item (alloc_ok : bool) (s e : Z) : option UINT_RANGE :=
  if alloc_ok then Some (mkRange s e) else None.

(** Possible merge of [x] with the node before it; the list is
    [rev rprev ++ x :: after]. *)
Definition uint_set_merge_adjacent
    (rprev : list UINT_RANGE) (x : UINT_RANGE) (after : list UINT_RANGE) : UINT_SET :=
  match rprev with
  | [] => x :: after
  | xprev :: rp =>
      if negb (u64 (start x - 1) =? end_ xprev) then rev rprev ++ x :: after
      else rev rp ++ mkRange (start xprev) (end_ x) :: after
  end.

(** The inner [while (zprev != NULL && uint_range_overlaps(...))] loop: the
    earliest overlapping node and what precedes it. *)
Fixpoint earliest_overlap (range z : UINT_RANGE) (rprev : list UINT_RANGE)
    : UINT_RANGE * list UINT_RANGE :=
  match rprev with
  | zprev :: rp =>
      if uint_range_overlaps zprev range then earliest_overlap range zprev rp
      else (z, rprev)
  | [] => (z, [])
  end.

(** The [for (; z != NULL; z = zprev)] loop of [ossl_uint_set_insert]; the
    head of [rl] is [z] and the list is [rev rl ++ after]. *)
Fixpoint insert_walk (alloc_ok : bool) (range : UINT_RANGE)
    (rl after : list UINT_RANGE) : bool * UINT_SET :=
  match rl with
  | [] => (true, after)
  | z :: rprev =>
      if (start z <=? start range) && (end_ range <=? end_ z)
      then (true, rev rl ++ after)
      else if uint_range_overlaps z range then
        let '(zf, rp) := earliest_overlap range z rprev in
        (true, rev rp ++ mkRange (u64_min (start range) (start zf))
                                 (u64_max (end_ range) (end_ z)) :: after)
      else if (end_ range <? start z)
              && match rprev with
                 | [] => true
                 | zprev :: _ => end_ zprev <? start range
                 end then
        if start z =? u64 (end_ range + 1) then
          (true, uint_set_merge_adjacent rprev (mkRange (start range) (end_ z)) after)
        else
          match rprev with
          | zprev :: rp =>
              if u64 (end_ zprev + 1) =? start range then
                (true, uint_set_merge_adjacent
                         (mkRange (start zprev) (end_ range) :: rp) z after)
              else
                match create_set_item alloc_ok (start range) (end_ range) with
                | None => (false, rev rl ++ after)
                | Some x => (true, rev rprev ++ x :: z :: after)
                end
          | [] =>
              match create_set_item alloc_ok (start range) (end_ range) with
              | None => (false, rev rl ++ after)
              | Some x => (true, x :: z :: after)
              end
          end
      else insert_walk alloc_ok range rprev (z :: after)
  end.

(** The result is the return value (1 or 0) and the set after the call. *)
Definition ossl_uint_set_insert (alloc_ok : bool) (s : UINT_SET) (range : UINT_RANGE)
    : bool * UINT_SET :=
  if negb (start range <=? end_ range) then (false, s)
  else
    match s, rev s with
    | f :: rest, z :: rprev =>
        if end_ z <? start range then
          if u64 (end_ z + 1) =? start range then
            (true, rev rprev ++ [mkRange (start z) (end_ range)])
          else
            match create_set_item alloc_ok (start range) (end_ range) with
            | None => (false, s)
            | Some x => (true, s ++ [x])
            end
        else if (start range <=? start f) && (end_ z <=? end_ range) then
          (true, [mkRange (start range) (end_ range)])
        else if end_ range <? start f then insert_walk alloc_ok range [f] rest
        else insert_walk alloc_ok range (z :: rprev) []
    | _, _ =>
        match create_set_item alloc_ok (start range) (end_ range) with
        | None => (false, s)
        | Some x => (true, [x])
        end
    end.

(** The loop of [ossl_uint_set_remove].  [None] is the dereference of the
    unchecked null result of [create_set_item] by
    [ossl_list_uint_set_insert_after]. *)
Fixpoint remove_walk (alloc_ok : bool) (range : UINT_RANGE)
    (rl after : list UINT_RANGE) : option UINT_SET :=
  match rl with
  | [] => Some after
  | z :: rprev =>
      if end_ z <? start range then Some (rev rl ++ after)
      else if (start range <=? start z) && (end_ z <=? end_ range) then
        remove_walk alloc_ok range rprev after
      else if (start range <=? start z) && (start z <=? end_ range) then
        remove_walk alloc_ok range rprev
          (mkRange (u64 (end_ range + 1)) (end_ z) :: after)
      else if end_ z <=? end_ range then
        Some (rev rprev ++ mkRange (start z) (u64 (start range - 1)) :: after)
      else if (start z <? start range) && (end_ range <? end_ z) then
        match create_set_item alloc_ok (u64 (end_ range + 1)) (end_ z) with
        | None => None
        | Some y =>
            Some (rev rprev ++ mkRange (start z) (u64 (start range - 1)) :: y :: after)
        end
      else remove_walk alloc_ok range rprev (z :: after)
  end.

Definition ossl_uint_set_remove (alloc_ok : bool) (s : UINT_SET) (range : UINT_RANGE)
    : option (bool * UINT_SET) :=
  if negb (start range <=? end_ range) then Some (false, s)
  else
    match remove_walk alloc_ok range (rev s) [] with
    | None => None
    | Some s' => Some (true, s')
    end.

Fixpoint query_walk (rl : list UINT_RANGE) (v : Z) : bool :=
  match rl with
  | [] => false
  | x :: rprev =>
      if (start x <=? v) && (v <=? end_ x) then true
      else if end_ x <? v then false
      else query_walk rprev v
  end.

Definition ossl_uint_set_query (s : UINT_SET) (v : Z) : bool :=
  match s with
  | [] => false
  | _ => query_walk (rev s) v
  end.


(** ** Specification *)

Definition in_range (v : Z) (r : UINT_RANGE) : Prop := start r <= v <= end_ r.

(** The set of integers a list of ranges denotes. *)
Definition mem (v : Z) (s : UINT_SET) : Prop := Exists (in_range v) s.

Definition range_ok (r : UINT_RANGE) : Prop :=
  0 <= start r /\ start r <= end_ r /\ end_ r < UINT64_MOD.

(** [sep a b]: range [a] lies wholly before range [b]. *)
Definition sep (a b : UINT_RANGE) : Prop := end_ a < start b.

(** The invariant: ranges are non-empty, in ascending order, disjoint. *)
Definition wf (s : UINT_SET) : Prop := Forall range_ok s /\ StronglySorted sep s.

#[global] Instance in_range_dec v r : Decision (in_range v r).
Proof. unfold in_range. apply _. Defined.
#[global] Instance mem_dec v s : Decision (mem v s).
Proof. unfold mem. apply _. Defined.

(** Two neighbours border when no integer lies between them: what the
    comment at the top of the file rules out. *)
Fixpoint no_borders (s : UINT_SET) : bool :=
  match s with
  | a :: ((b :: _) as rest) => negb (end_ a + 1 =? start b) && no_borders rest
  | _ => true
  end.

(** ** Lemmas *)

Lemma mem_app v s1 s2 : mem v (s1 ++ s2) <-> mem v s1 \/ mem v s2.
Proof. unfold mem. apply Exists_app. Qed.

Lemma mem_cons v r s : mem v (r :: s) <-> in_range v r \/ mem v s.
Proof. unfold mem. apply Exists_cons. Qed.

Lemma mem_nil v : mem v [] <-> False.
Proof. unfold mem. apply Exists_nil. Qed.

Lemma mem_rev v s : mem v (rev s) <-> mem v s.
Proof.
  induction s as [|r s IH]; [reflexivity|].
  simpl. rewrite mem_app, !mem_cons, IH, mem_nil. tauto.
Qed.

Create Rewrite HintDb mem.
#[local] Hint Rewrite mem_app mem_cons mem_nil mem_rev : mem.

Lemma wf_nil : wf [].
Proof. split; constructor. Qed.

Lemma wf_cons r s :
  wf (r :: s) <-> range_ok r /\ Forall (sep r) s /\ wf s.
Proof.
  unfold wf. split.
  - intros [H1 H2]. inversion H1; inversion H2; subst. auto.
  - intros (H1 & H2 & H3 & H4). split; constructor; auto.
Qed.

Lemma wf_app s1 s2 :
  wf (s1 ++ s2) <-> wf s1 /\ wf s2 /\ Forall (fun a => Forall (sep a) s2) s1.
Proof.
  induction s1 as [|r s1 IH]; simpl.
  - split; [intros; auto using wf_nil | tauto].
  - rewrite !wf_cons, IH, Forall_app, Forall_cons. tauto.
Qed.

Lemma u64_min_eq x y : u64_min x y = Z.min x y.
Proof. unfold u64_min. zcase; lia. Qed.

Lemma u64_max_eq x y : u64_max x y = Z.max x y.
Proof. unfold u64_max. zcase; lia. Qed.

Lemma overlaps_spec a b :
  uint_range_overlaps a b = true <-> start a <= end_ b /\ start b <= end_ a
                                     /\ start a <= end_ a /\ start b <= end_ b.
Proof.
  unfold uint_range_overlaps. rewrite u64_min_eq, u64_max_eq, Z.leb_le. lia.
Qed.

Lemma overlaps_false a b :
  range_ok a -> range_ok b -> uint_range_overlaps a b = false ->
  end_ a < start b \/ end_ b < start a.
Proof.
  intros [_ [Ha _]] [_ [Hb _]] H.
  destruct (Z.lt_ge_cases (end_ a) (start b)); [auto|].
  destruct (Z.lt_ge_cases (end_ b) (start a)); [auto|].
  exfalso. apply Bool.diff_true_false. rewrite <- H. symmetry. apply overlaps_spec. lia.
Qed.

Lemma Forall_rev_iff {A} (P : A -> Prop) l : Forall P (rev l) <-> Forall P l.
Proof.
  split; [|apply Forall_rev].
  intros H%Forall_rev. by rewrite rev_involutive in H.
Qed.

(** [below x s]: every range of [s] ends before [x]; [above x s]: every one
    starts after [x]. *)
Definition below (x : Z) (s : UINT_SET) : Prop := Forall (fun r => end_ r < x) s.
Definition above (x : Z) (s : UINT_SET) : Prop := Forall (fun r => x < start r) s.

Lemma Forall_sep r s : Forall (sep r) s <-> above (end_ r) s.
Proof. reflexivity. Qed.

Lemma below_trans x y s : x <= y -> below x s -> below y s.
Proof. unfold below. intros ? H. eapply Forall_impl; [exact H|]. simpl. lia. Qed.

Lemma above_trans x y s : y <= x -> above x s -> above y s.
Proof. unfold above. intros ? H. eapply Forall_impl; [exact H|]. simpl. lia. Qed.

Lemma below_mem x s v : below x s -> mem v s -> v < x.
Proof.
  unfold below, mem. rewrite Forall_forall, Exists_exists.
  intros H (r & Hr & ? & ?). specialize (H r Hr). lia.
Qed.

Lemma above_mem x s v : above x s -> mem v s -> x < v.
Proof.
  unfold above, mem. rewrite Forall_forall, Exists_exists.
  intros H (r & Hr & ? & ?). specialize (H r Hr). lia.
Qed.

(** The shape every operation reasons with: a focused node [z] between what
    precedes it (reversed) and what follows it. *)
Lemma wf_focus rprev z after :
  wf (rev rprev ++ z :: after) <->
  wf (rev rprev) /\ wf after /\ range_ok z /\ below (start z) rprev /\
  above (end_ z) after.
Proof.
  rewrite wf_app, wf_cons, Forall_rev_iff. unfold below, above.
  split.
  - intros (H1 & (H2 & H3 & H4) & H5). split_and!; try done.
    eapply Forall_impl; [exact H5|]. intros a Ha. by inversion Ha.
  - intros (H1 & H2 & H3 & H4 & H5). split; [done|]. split; [done|].
    eapply Forall_impl; [exact H4|]. intros a Ha. simpl in Ha. constructor; [done|].
    eapply Forall_impl; [exact H5|]. unfold sep, range_ok in *. simpl. lia.
Qed.

Lemma wf_rev_cons z rprev : wf (rev (z :: rprev)) <->
  wf (rev rprev) /\ range_ok z /\ below (start z) rprev.
Proof.
  simpl. rewrite wf_focus. split; [tauto|].
  intros (? & ? & ?). split_and!; auto using wf_nil. constructor.
Qed.

Lemma rev_cons_app {A} (z : A) l after : rev (z :: l) ++ after = rev l ++ z :: after.
Proof. simpl. by rewrite <- app_assoc. Qed.

(** [mem_lia] decides membership equivalences: memberships in the unsplit
    parts are replaced by truth values, the rest is linear arithmetic. *)
Ltac mem_atom v s :=
  let H := fresh "Hm" in
  destruct (decide (mem v s)) as [H|H];
  [ assert (mem v s <-> True) as -> by tauto | assert (mem v s <-> False) as -> by tauto ].

Ltac mem_lia :=
  autorewrite with mem; unfold in_range in *; simpl;
  repeat match goal with |- context [mem ?v ?s] => mem_atom v s end; lia.

Lemma earliest_overlap_spec range : forall rprev z after zf rp,
  wf (rev rprev ++ z :: after) -> range_ok range ->
  uint_range_overlaps z range = true ->
  earliest_overlap range z rprev = (zf, rp) ->
  wf (rev rp) /\ below (Z.min (start range) (start zf)) rp /\
  range_ok zf /\ start zf <= start z /\
  (forall v, (mem v rprev \/ in_range v z) \/ in_range v range <->
             mem v rp \/ Z.min (start range) (start zf) <= v
                         <= Z.max (end_ range) (end_ z)).
Proof.
  induction rprev as [|zp rprev IH]; simpl; intros z after zf rp Hwf Hr Hov Heq.
  - injection Heq as <- <-. apply wf_cons in Hwf as (Hz & _ & _).
    apply overlaps_spec in Hov. split_and!; try done; [apply wf_nil|constructor|].
    intros v. unfold range_ok in *. mem_lia.
  - rewrite <- app_assoc in Hwf. simpl in Hwf.
    destruct (uint_range_overlaps zp range) eqn:Hzp.
    + destruct (IH zp (z :: after) zf rp Hwf Hr Hzp Heq) as (H1 & H2 & H3 & H4 & H5).
      apply wf_focus in Hwf as (_ & Hz & Hzpok & _ & Hab).
      apply wf_cons in Hz as (Hzok & _ & _). apply Forall_cons in Hab as [Hab _]. simpl in Hab.
      apply overlaps_spec in Hov, Hzp. unfold range_ok in *.
      split_and!; try done; try lia.
      intros v. specialize (H5 v). revert H5. mem_lia.
    + injection Heq as <- <-.
      assert (Hwf' := Hwf). rewrite <- (rev_cons_app zp) in Hwf'.
      apply wf_focus in Hwf' as (H1 & _ & Hzok & H3 & _).
      apply wf_rev_cons in H1 as H1'. destruct H1' as (_ & Hzpok & Hbp).
      apply Forall_cons in H3 as [H3 _]. simpl in H3.
      apply overlaps_false in Hzp; [|done..]. apply overlaps_spec in Hov.
      unfold range_ok in *. split_and!; try done; try lia.
      * constructor; [lia|]. eapply below_trans; [|exact Hbp]. lia.
      * intros v. mem_lia.
Qed.

(** [wf_solve] closes the conjuncts [wf_focus] and [wf_cons] leave. *)
Ltac wf_solve :=
  split_and!; unfold range_ok in *; simpl; try done; try lia;
  auto using wf_nil; try (apply Forall_nil; done).

(** [wf_list] proves a concrete list of ranges well-formed. *)
Ltac wf_list :=
  unfold wf, range_ok, sep; split; repeat (constructor; simpl; try lia).

(** What a call that may insert [range] into [s] must establish. *)
Definition insert_post (alloc_ok : bool) (s : UINT_SET) (range : UINT_RANGE)
    (r : bool * UINT_SET) : Prop :=
  match r with
  | (true, s') => wf s' /\ forall v, mem v s' <-> mem v s \/ in_range v range
  | (false, s') => s' = s /\ alloc_ok = false
  end.

Lemma merge_adjacent_spec rprev x after :
  wf (rev rprev ++ x :: after) ->
  wf (uint_set_merge_adjacent rprev x after) /\
  forall v, mem v (uint_set_merge_adjacent rprev x after)
            <-> mem v (rev rprev ++ x :: after).
Proof.
  intros Hwf. destruct rprev as [|xp rp]; [done|].
  unfold uint_set_merge_adjacent. zcase; [done|].
  apply wf_focus in Hwf as (Hr & Ha & Hx & Hb & Hab).
  apply wf_rev_cons in Hr as (Hr & Hxp & Hbp).
  apply Forall_cons in Hb as [Hb _]. simpl in Hb.
  unfold range_ok in *. u64_simpl. split.
  - apply wf_focus. simpl. split_and!; try done; unfold range_ok; simpl; lia.
  - intros v. simpl. mem_lia.
Qed.

Lemma create_item_insert alloc_ok rprev range z after :
  wf (rev (z :: rprev) ++ after) -> range_ok range ->
  end_ range < start z -> below (start range) rprev ->
  insert_post alloc_ok (rev (z :: rprev) ++ after) range
    match create_set_item alloc_ok (start range) (end_ range) with
    | None => (false, rev (z :: rprev) ++ after)
    | Some x => (true, rev rprev ++ x :: z :: after)
    end.
Proof.
  intros Hwf Hr Hlt Hb. unfold create_set_item. destruct alloc_ok; [|split; done].
  rewrite rev_cons_app in *. apply wf_focus in Hwf as (H1 & H2 & H3 & H4 & H5).
  split.
  - apply wf_focus. split_and!; try done.
    + apply wf_cons. done.
    + constructor; simpl; [lia|].
      eapply above_trans; [|exact H5]. unfold range_ok in *. simpl. lia.
  - intros v. mem_lia.
Qed.

Lemma insert_walk_spec alloc_ok range : forall rl after,
  wf (rev rl ++ after) -> range_ok range -> above (end_ range) after ->
  match rl with [] => False | z :: _ => start range <= end_ z end ->
  insert_post alloc_ok (rev rl ++ after) range (insert_walk alloc_ok range rl after).
Proof.
  induction rl as [|z rprev IH]; intros after Hwf Hr Hab Hz; [done|].
  assert (Hwf' := Hwf). rewrite rev_cons_app in Hwf'.
  apply wf_focus in Hwf' as (H1 & H2 & H3 & H4 & H5).
  cbn [insert_walk]. zcase.
  { split; [done|]. intros v. rewrite rev_cons_app. mem_lia. }
  destruct (uint_range_overlaps z range) eqn:Hov.
  { destruct (earliest_overlap range z rprev) as [zf rp] eqn:Heo.
    rewrite rev_cons_app in *.
    destruct (earliest_overlap_spec range rprev z after zf rp Hwf Hr Hov Heo)
      as (K1 & K2 & K3 & K4 & K5).
    rewrite u64_min_eq, u64_max_eq. unfold range_ok in *. split.
    - apply wf_focus. simpl. split_and!; try done; unfold range_ok; simpl; try lia.
      apply overlaps_spec in Hov.
      destruct (Z.max_spec (end_ range) (end_ z)) as [[? ->]|[? ->]]; done.
    - intros v. specialize (K5 v). revert K5. mem_lia. }
  apply overlaps_false in Hov; [|done..].
  zcase.
  - assert (Hbs : below (start range) rprev).
    { destruct rprev as [|zp rp]; [constructor|]. zb. constructor; [done|].
      apply wf_rev_cons in H1 as (_ & Hzp & Hbp).
      eapply below_trans; [|exact Hbp]. unfold range_ok in *. lia. }
    assert (Hcreate := create_item_insert alloc_ok rprev range z after Hwf Hr
                         ltac:(lia) Hbs).
    zcase.
    { destruct (merge_adjacent_spec rprev (mkRange (start range) (end_ z)) after) as [W M].
      - unfold range_ok in *. apply wf_focus. simpl.
        split_and!; try done; unfold range_ok; simpl; lia.
      - split; [done|]. intros v. rewrite M, rev_cons_app.
        unfold range_ok in *. u64_simpl. mem_lia. }
    destruct rprev as [|zp rp]; [exact Hcreate|]. zcase; [|exact Hcreate].
    apply wf_rev_cons in H1 as (Hrp & Hzp & Hbp).
    apply Forall_cons in Hbs as [Hbs _]. apply Forall_cons in H4 as [H4 H4'].
    simpl in Hbs, H4. unfold range_ok in *. u64_simpl.
    destruct (merge_adjacent_spec (mkRange (start zp) (end_ range) :: rp) z after) as [W M].
    + rewrite rev_cons_app. apply wf_focus. simpl. unfold range_ok; simpl.
      split_and!; try done; try lia.
      * apply wf_cons. done.
      * constructor; [lia|]. eapply above_trans; [|exact H5]. lia.
    + split; [done|]. intros v. rewrite M, !rev_cons_app. mem_lia.
  - unfold range_ok in *. rewrite rev_cons_app in *. apply IH; try done.
    + constructor; [|done]. apply andb_false_iff in E0 as [?|?]; zb; [lia|].
      destruct rprev; [done|]. lia.
    + apply andb_false_iff in E0 as [?|?]; zb; [lia|].
      destruct rprev; [done|]. zb. lia.
Qed.

Lemma rev_eq_cons {A} (s : list A) z rprev :
  rev s = z :: rprev -> s = rev rprev ++ [z].
Proof. intros H. rewrite <- (rev_involutive s), H. reflexivity. Qed.

Lemma wf_tail_below s z rprev v :
  wf s -> rev s = z :: rprev -> mem v s -> v <= end_ z.
Proof.
  intros Hwf Hrev. rewrite (rev_eq_cons _ _ _ Hrev) in *.
  apply wf_focus in Hwf as (_ & _ & Hz & Hb & _).
  rewrite mem_app, mem_rev, mem_cons, mem_nil. unfold range_ok, in_range in *.
  intros [H|[H|[]]]; [|lia]. pose proof (below_mem _ _ _ Hb H). lia.
Qed.

Lemma wf_head_above f rest v : wf (f :: rest) -> mem v (f :: rest) -> start f <= v.
Proof.
  intros (Hf & Ha & _)%wf_cons. rewrite mem_cons. unfold range_ok, in_range in *.
  intros [H|H]; [lia|]. pose proof (above_mem _ _ _ Ha H). lia.
Qed.

(** [ossl_uint_set_insert] refines set union with the range. *)
Lemma insert_refines alloc_ok s range :
  wf s -> range_ok range ->
  insert_post alloc_ok s range (ossl_uint_set_insert alloc_ok s range).
Proof.
  intros Hwf Hr. unfold ossl_uint_set_insert.
  zcase; [unfold range_ok in *; lia|]. clear E.
  destruct s as [|f rest] eqn:Hs.
  { simpl. unfold create_set_item. destruct alloc_ok; [|split; done].
    split; [apply wf_cons; split_and!; auto using wf_nil|].
    intros v. mem_lia. }
  rewrite <- Hs in *. destruct (rev s) as [|z rprev] eqn:Hrev.
  { exfalso. apply (f_equal (@length _)) in Hrev. rewrite length_rev, Hs in Hrev. done. }
  pose proof (rev_eq_cons _ _ _ Hrev) as Hsp.
  pose proof Hwf as Hwf'. rewrite Hsp in Hwf'.
  apply wf_focus in Hwf' as (H1 & _ & H3 & H4 & _).
  unfold range_ok in *. zcase.
  - zcase.
    + u64_simpl. split.
      * apply wf_focus. wf_solve.
      * intros v. rewrite Hsp. mem_lia.
    + unfold create_set_item. destruct alloc_ok; [|split; done]. split.
      * rewrite <- (rev_involutive s), Hrev. apply wf_focus. wf_solve.
        -- apply wf_focus. wf_solve.
        -- constructor; [done|]. eapply below_trans; [|exact H4]. lia.
      * intros v. mem_lia.
  - zcase.
    + split.
      * apply wf_cons. wf_solve.
      * intros v. pose proof (wf_tail_below s z rprev v Hwf Hrev).
        pose proof (wf_head_above f rest v). rewrite <- Hs in *.
        rewrite mem_cons, mem_nil. unfold in_range. simpl.
        destruct (decide (mem v s)); intuition lia.
    + zcase.
      * rewrite Hs in Hwf. apply wf_cons in Hwf as Hf. destruct Hf as (? & Ha & _).
        unfold range_ok in *. rewrite Hs.
        apply (insert_walk_spec alloc_ok range [f] rest); try done; [|lia].
        eapply above_trans; [|exact Ha]. lia.
      * replace s with (rev (z :: rprev) ++ []) at 1
          by (rewrite app_nil_r, <- Hrev; apply rev_involutive).
        apply insert_walk_spec; try done; [|constructor].
        rewrite app_nil_r, <- Hrev, rev_involutive. done.
Qed.

Lemma remove_walk_spec alloc_ok range : forall rl after,
  wf (rev rl ++ after) -> range_ok range -> above (end_ range) after ->
  match remove_walk alloc_ok range rl after with
  | None => alloc_ok = false
  | Some s' => wf s' /\
      forall v, mem v s' <-> mem v (rev rl ++ after) /\ ~ in_range v range
  end.
Proof.
  induction rl as [|z rprev IH]; intros after Hwf Hr Hab; cbn [remove_walk].
  { split; [done|]. intros v. simpl. pose proof (above_mem _ _ v Hab).
    unfold in_range. destruct (decide (mem v after)); intuition lia. }
  rewrite rev_cons_app in *. pose proof Hwf as Hwf'.
  apply wf_focus in Hwf' as (H1 & H2 & H3 & H4 & H5).
  assert (Hout : forall v, (mem v after -> end_ range < v) /\ (mem v rprev -> v < start z))
    by (split; [apply above_mem|apply below_mem]; done).
  unfold range_ok in *. zcase.
  { split; [done|]. intros v.
    destruct (Hout v) as [Ha Hb]. revert Ha Hb. mem_lia. }
  zcase.
  { assert (Hwf2 : wf (rev rprev ++ after)).
    { apply wf_app in Hwf as (? & (_ & _ & ?)%wf_cons & Hf). apply wf_app. split_and!; try done.
      eapply Forall_impl; [exact Hf|]. simpl. by intros a [_ ?]%Forall_cons. }
    specialize (IH after Hwf2 Hr Hab). destruct (remove_walk _ _ _ _); [|done].
    destruct IH as [W M]. split; [done|]. intros v. rewrite M. mem_lia. }
  zcase.
  { u64_simpl. set (z' := mkRange (end_ range + 1) (end_ z)).
    assert (above (end_ range) (z' :: after)) by (constructor; [simpl; lia|done]).
    assert (Hwf2 : wf (rev rprev ++ z' :: after)).
    { apply wf_focus. wf_solve. eapply below_trans; [|exact H4]. simpl. lia. }
    specialize (IH (z' :: after) Hwf2 Hr ltac:(done)).
    destruct (remove_walk _ _ _ _); [|done].
    destruct IH as [W M]. split; [done|]. intros v. rewrite M.
    destruct (Hout v) as [Ha Hb]. revert Ha Hb. mem_lia. }
  apply andb_false_iff in E0, E1. zcase.
  { u64_simpl. split; [apply wf_focus; wf_solve|].
    - eapply above_trans; [|exact H5]. lia.
    - intros v. destruct (Hout v) as [Ha Hb]. revert Ha Hb.
      destruct E0; zb; mem_lia. }
  zcase.
  { unfold create_set_item. destruct alloc_ok; [|done]. u64_simpl.
    split; [apply wf_focus; wf_solve|].
    - apply wf_cons. wf_solve.
    - constructor; simpl; [lia|]. eapply above_trans; [|exact H5]. lia.
    - intros v. destruct (Hout v) as [Ha Hb]. revert Ha Hb. mem_lia. }
  assert (above (end_ range) (z :: after)).
  { constructor; [|done]. apply andb_false_iff in E3. destruct E0, E1, E3; zb; lia. }
  specialize (IH (z :: after) Hwf Hr ltac:(done)).
  destruct (remove_walk _ _ _ _); done.
Qed.

Lemma query_walk_spec v : forall rl, wf (rev rl) -> query_walk rl v = true <-> mem v rl.
Proof.
  induction rl as [|x rl IH]; intros Hwf; simpl; [by rewrite mem_nil|].
  apply wf_rev_cons in Hwf as (Hr & Hx & Hb). rewrite mem_cons. unfold in_range.
  pose proof (below_mem _ _ v Hb). unfold range_ok in *.
  zcase; [tauto|]. apply andb_false_iff in E.
  zcase; [destruct (decide (mem v rl)); intuition lia|].
  rewrite IH by done. destruct E; zb; intuition lia.
Qed.

(** ** Sets without borders

    As long as the ranges inserted are disjoint from the set, no two ranges of
    it border one another, and the list is the canonical one. *)
Definition gap (a b : UINT_RANGE) : Prop := end_ a + 1 < start b.
Definition gwf (s : UINT_SET) : Prop := Forall range_ok s /\ StronglySorted gap s.

Lemma gwf_wf s : gwf s -> wf s.
Proof.
  intros [H1 H2]. split; [done|]. clear H1. induction H2 as [|a l Hl IH Ha]; constructor; [done|].
  eapply Forall_impl; [exact Ha|]. unfold gap, sep. lia.
Qed.

Lemma gwf_nil : gwf [].
Proof. split; constructor. Qed.

Lemma gwf_cons r s : gwf (r :: s) <-> range_ok r /\ above (end_ r + 1) s /\ gwf s.
Proof.
  unfold gwf, above. rewrite Forall_cons, StronglySorted_cons. unfold gap. tauto.
Qed.

Lemma gwf_focus rprev z after :
  gwf (rev rprev ++ z :: after) <->
  gwf (rev rprev) /\ gwf after /\ range_ok z /\ below (start z - 1) rprev /\ above (end_ z + 1) after.
Proof.
  unfold gwf, below, above. rewrite <- (Forall_rev_iff (fun r => end_ r < start z - 1) rprev).
  rewrite StronglySorted_app, StronglySorted_cons, Forall_app, Forall_cons, !(Forall_forall _ (rev rprev)), !(Forall_forall _ after).
  unfold gap. setoid_rewrite elem_of_cons. split.
  - intros ((H1 & H2 & H3) & H4 & H5 & H6 & H7). split_and!; try done. intros a Ha.
    specialize (H4 a z Ha ltac:(auto)). lia.
  - intros ((H1 & H2) & (H3 & H4) & H5 & H6 & H7). split_and!; try done.
    intros a b Ha [-> |Hb]; [specialize (H6 a Ha); lia|]. specialize (H6 a Ha). specialize (H7 b Hb).
    unfold range_ok in H5. lia.
Qed.

Lemma gwf_rev_cons z rprev :
  gwf (rev (z :: rprev)) <-> gwf (rev rprev) /\ range_ok z /\ below (start z - 1) rprev.
Proof.
  simpl. rewrite gwf_focus. split; [tauto|]. intros (? & ? & ?). split_and!; auto using gwf_nil. constructor.
Qed.

(** A range that meets no range of the set. *)
Definition apart (range : UINT_RANGE) (s : UINT_SET) : Prop :=
  Forall (fun r => end_ r < start range \/ end_ range < start r) s.

Lemma apart_mem range s :
  range_ok range -> wf s -> (forall v, in_range v range -> ~ mem v s) -> apart range s.
Proof.
  intros Hr [Hok _] Hd. unfold apart. rewrite Forall_forall in *. intros r Hin. specialize (Hok r Hin).
  destruct (Z.lt_ge_cases (end_ r) (start range)); [by left|].
  destruct (Z.lt_ge_cases (end_ range) (start r)); [by right|exfalso].
  apply (Hd (Z.max (start r) (start range))); unfold in_range, range_ok in *; [lia|].
  apply Exists_exists. exists r. split; [done|]. unfold in_range. lia.
Qed.

Lemma merge_adjacent_gapped rprev x after :
  gwf (rev rprev) -> gwf after -> range_ok x -> below (start x) rprev -> above (end_ x + 1) after ->
  gwf (uint_set_merge_adjacent rprev x after).
Proof.
  intros H1 H2 H3 H4 H5. destruct rprev as [|xp rp]; [by apply gwf_cons|].
  apply Forall_cons in H4 as [H4 H4']. cbn [uint_set_merge_adjacent].
  pose proof H1 as (K1 & K2 & K3)%gwf_rev_cons. unfold range_ok in *.
  zcase; u64_simpl.
  - apply gwf_focus. split_and!; unfold range_ok; try done; try lia. constructor; [lia|].
    eapply below_trans; [|exact K3]. lia.
  - apply gwf_focus. split_and!; unfold range_ok; cbn; try done; lia.
Qed.

Lemma insert_walk_gapped alloc_ok range : forall rl after,
  gwf (rev rl ++ after) -> range_ok range -> above (end_ range) after -> apart range rl ->
  match rl with [] => False | z :: _ => start range <= end_ z end ->
  gwf (insert_walk alloc_ok range rl after).2.
Proof.
  induction rl as [|z rprev IH]; intros after Hwf Hr Hab Hap Hz; [done|].
  apply Forall_cons in Hap as [Hapz Hap].
  pose proof Hwf as Hwf'. rewrite rev_cons_app in Hwf'. apply gwf_focus in Hwf' as (H1 & H2 & H3 & H4 & H5).
  unfold range_ok in H3, Hr. cbn [insert_walk].
  destruct (uint_range_overlaps z range) eqn:Hov; [apply overlaps_spec in Hov; lia|]. zcase; [lia|]. clear E.
  zcase.
  - assert (Hbs : below (start range) rprev).
    { destruct rprev as [|zp rp]; [constructor|]. zb. constructor; [done|].
      apply gwf_rev_cons in H1 as (_ & Hzp & Hbp). eapply below_trans; [|exact Hbp]. unfold range_ok in *. lia. }
    assert (Hcreate : above (end_ range + 1) [z] -> below (start range - 1) rprev ->
      gwf (match create_set_item alloc_ok (start range) (end_ range) with
           | None => (false, rev (z :: rprev) ++ after) | Some x => (true, rev rprev ++ x :: z :: after) end).2).
    { intros Hc%Forall_cons Hb. destruct Hc as [Hc _]. unfold create_set_item. destruct alloc_ok; [|done].
      apply gwf_focus. split_and!; try done; [apply gwf_cons; split_and!; done|].
      constructor; [done|]. eapply above_trans; [|exact H5]. cbn. lia. }
    zcase; [apply merge_adjacent_gapped; unfold range_ok; cbn; try done; lia|]. u64_simpl.
    assert (Hz1 : above (end_ range + 1) [z]) by (constructor; [lia|constructor]).
    destruct rprev as [|zp rp]; [apply Hcreate; [done|constructor]|].
    pose proof H1 as (K1 & K2 & K3)%gwf_rev_cons. apply Forall_cons in Hbs as [Hbs Hbs']. unfold range_ok in K2.
    zcase; u64_simpl.
    + apply merge_adjacent_gapped; try done; [|constructor; cbn; [lia|]].
      * apply gwf_rev_cons. unfold range_ok. cbn. split_and!; try done; lia.
      * eapply below_trans; [|exact K3]. lia.
    + apply Hcreate; [done|]. constructor; [lia|]. eapply below_trans; [|exact K3]. lia.
  - rewrite rev_cons_app in Hwf. apply IH; try done; [constructor; [lia|done]|].
    apply andb_false_iff in E as [?|?]; zb; [lia|]. destruct rprev; [done|]. zb. lia.
Qed.

(** Inserting a disjoint range keeps the set free of borders. *)
Lemma insert_gapped alloc_ok s range :
  gwf s -> range_ok range -> (forall v, in_range v range -> ~ mem v s) ->
  gwf (ossl_uint_set_insert alloc_ok s range).2.
Proof.
  intros Hwf Hr Hd. pose proof (apart_mem range s Hr (gwf_wf _ Hwf) Hd) as Hap. unfold ossl_uint_set_insert.
  unfold range_ok in Hr. zcase; [lia|]. clear E. destruct s as [|f rest] eqn:Hs.
  { unfold create_set_item. destruct alloc_ok; [|done]. apply gwf_cons. split_and!; [done|constructor|apply gwf_nil]. }
  rewrite <- Hs in *. destruct (rev s) as [|z rprev] eqn:Hrev.
  { exfalso. apply (f_equal (@length _)) in Hrev. rewrite length_rev, Hs in Hrev. done. }
  pose proof (rev_eq_cons _ _ _ Hrev) as Hsp. pose proof Hwf as Hwf'. rewrite Hsp in Hwf'.
  apply gwf_focus in Hwf' as (H1 & _ & H3 & H4 & _). unfold range_ok in H3.
  zcase; [zcase; u64_simpl|].
  - apply gwf_focus. unfold range_ok. cbn. split_and!; try done; try lia; [apply gwf_nil|constructor].
  - unfold create_set_item. destruct alloc_ok; [|done]. cbn. rewrite <- (rev_involutive s), Hrev. apply gwf_focus.
    split_and!; [by rewrite <- Hrev, rev_involutive|apply gwf_nil|done| |constructor].
    constructor; [cbn; lia|]. eapply below_trans; [|exact H4]. cbn. lia.
  - assert (Hf : f ∈ s) by (rewrite Hs; left). pose proof Hap as Hapf. unfold apart in Hapf. rewrite Forall_forall in Hapf.
    specialize (Hapf f Hf). pose proof Hwf as [Hok _]. rewrite Forall_forall in Hok. specialize (Hok f Hf).
    assert (Hzs : z ∈ s) by (rewrite Hsp, elem_of_app; right; left).
    assert (Hfz : start f <= start z).
    { apply (wf_head_above f rest); rewrite <- Hs; [by apply gwf_wf|]. apply Exists_exists. exists z. unfold in_range. split; [done|lia]. }
    unfold range_ok in Hok. zcase; [|zcase].
    + apply gwf_cons. split_and!; [done|constructor|apply gwf_nil].
    + apply insert_walk_gapped; cbn [rev app]; [by rewrite <- Hs|done| |by constructor|lia].
      pose proof Hwf as Hw2. rewrite Hs in Hw2. apply gwf_cons in Hw2 as (_ & Ha & _).
      eapply above_trans; [|exact Ha]. lia.
    + apply insert_walk_gapped; [by rewrite app_nil_r, <- Hrev, rev_involutive|done|constructor| |lia].
      unfold apart. rewrite <- Hrev, Forall_rev_iff. done.
Qed.

Lemma remove_walk_gapped alloc_ok range : range_ok range -> forall rl after s',
  gwf (rev rl ++ after) -> remove_walk alloc_ok range rl after = Some s' -> gwf s'.
Proof.
  intros Hr rl. induction rl as [|z rprev IH]; intros after s' Hwf; cbn [remove_walk]; [by intros [= <-]|].
  pose proof Hwf as Hwf'. rewrite rev_cons_app in Hwf'. pose proof Hwf' as (H1 & H2 & H3 & H4 & H5)%gwf_focus.
  unfold range_ok in Hr, H3. zcase; [by intros [= <-]|]. zcase.
  { apply IH. destruct after as [|a after]; [by rewrite app_nil_r|]. apply gwf_cons in H2 as (A1 & A2 & A3).
    apply Forall_cons in H5 as [H5 H5']. cbn in H5.
    apply gwf_focus. split_and!; try done. eapply below_trans; [|exact H4]. lia. }
  zcase.
  { apply IH, gwf_focus. u64_simpl. unfold range_ok. cbn. split_and!; try done; try lia.
    eapply below_trans; [|exact H4]. lia. }
  zcase; [intros [= <-]; apply gwf_focus; u64_simpl; unfold range_ok; cbn; split_and!; try done; try lia;
          eapply above_trans; [|exact H5]; lia|].
  zcase; [|rewrite rev_cons_app in Hwf; by apply IH].
  unfold create_set_item. destruct alloc_ok; [|done]. intros [= <-]. apply gwf_focus. u64_simpl. unfold range_ok. cbn.
  split_and!; try done; try lia.
  - apply gwf_cons. unfold range_ok. cbn. split_and!; try done; lia.
  - constructor; [cbn; lia|]. eapply above_trans; [|exact H5]. lia.
Qed.

Lemma remove_gapped alloc_ok s range b s' :
  gwf s -> range_ok range -> ossl_uint_set_remove alloc_ok s range = Some (b, s') -> gwf s'.
Proof.
  intros Hwf Hr. unfold ossl_uint_set_remove. zcase; [by intros [= _ <-]|].
  destruct (remove_walk alloc_ok range (rev s) []) eqn:E'; [|done]. intros [= _ <-].
  eapply remove_walk_gapped; [done| |exact E']. by rewrite app_nil_r, rev_involutive.
Qed.

(** No range of the set continues another. *)
Lemma gwf_end s r : gwf s -> r ∈ s -> ~ mem (end_ r + 1) s.
Proof.
  intros Hs Hr Hm. apply list_elem_of_split in Hr as (l1 & l2 & ->).
  rewrite <- (rev_involutive l1) in Hs, Hm. apply gwf_focus in Hs as (_ & _ & Hok & Hb & Ha).
  unfold range_ok in Hok. rewrite mem_app, mem_cons, mem_rev in Hm. unfold in_range in Hm.
  destruct Hm as [Hm|[Hm|Hm]]; [pose proof (below_mem _ _ _ Hb Hm); lia|lia|pose proof (above_mem _ _ _ Ha Hm); lia].
Qed.

(** [ossl_uint_set_remove] refines set difference with the range. *)
Lemma remove_refines alloc_ok s range :
  wf s -> range_ok range ->
  match ossl_uint_set_remove alloc_ok s range with
  | Some (ret, s') => ret = true /\ wf s' /\
      forall v, mem v s' <-> mem v s /\ ~ in_range v range
  | None => alloc_ok = false
  end.
Proof.
  intros Hwf Hr. unfold ossl_uint_set_remove.
  zcase; [unfold range_ok in *; lia|].
  pose proof (remove_walk_spec alloc_ok range (rev s) []) as H.
  rewrite app_nil_r, rev_involutive in H. specialize (H Hwf Hr ltac:(constructor)).
  destruct (remove_walk _ _ _ _); done.
Qed.

Lemma query_refines s v : wf s -> ossl_uint_set_query s v = true <-> mem v s.
Proof.
  intros Hwf. unfold ossl_uint_set_query. destruct s as [|r s]; [by rewrite mem_nil|].
  rewrite query_walk_spec by (by rewrite rev_involutive). apply mem_rev.
Qed.

(** ** Properties *)

(** C33: inserting a range into a well-formed set either fails without
    touching the set, and then only because allocation failed, or yields a
    well-formed set whose members are exactly the old ones and the integers
    of the range. *)
Theorem uint_set_insert_correct alloc_ok s range :
  wf s -> range_ok range ->
  match ossl_uint_set_insert alloc_ok s range with
  | (true, s') => wf s' /\ forall v, mem v s' <-> mem v s \/ in_range v range
  | (false, s') => s' = s /\ alloc_ok = false
  end.
Proof. exact (insert_refines alloc_ok s range). Qed.

(** C34: removing a range from a well-formed set yields a well-formed set
    whose members are exactly the old ones outside the range; the only
    undefined outcome is the dereference of a failed allocation. *)
Theorem uint_set_remove_correct alloc_ok s range :
  wf s -> range_ok range ->
  match ossl_uint_set_remove alloc_ok s range with
  | Some (ret, s') => ret = true /\ wf s' /\
      forall v, mem v s' <-> mem v s /\ ~ in_range v range
  | None => alloc_ok = false
  end.
Proof. exact (remove_refines alloc_ok s range). Qed.

(** On a well-formed set the early-exit backwards search of
    [ossl_uint_set_query] decides membership. *)
Theorem uint_set_query_correct s v :
  wf s -> ossl_uint_set_query s v = true <-> mem v s.
Proof. exact (query_refines s v). Qed.

(** The invariant the comments of uint_set.c state, that no two adjacent
    ranges border one another, is not maintained: extending a range up to the
    edge of its neighbour leaves the two unmerged. *)
Theorem uint_set_insert_leaves_border :
  exists s range,
    wf s /\ no_borders s = true /\ range_ok range /\
    ossl_uint_set_insert true s range
      = (true, [mkRange 0 9; mkRange 10 20]) /\
    no_borders (snd (ossl_uint_set_insert true s range)) = false.
Proof.
  exists [mkRange 0 4; mkRange 10 20], (mkRange 2 9). split_and!; try reflexivity.
  - wf_list.
  - wf_solve.
Qed.

(** ** Witnesses *)

Definition sample : UINT_SET := [mkRange 0 4; mkRange 10 20].

Lemma sample_wf : wf sample.
Proof. wf_list. Qed.

Lemma uint_set_insert_witness :
  exists s', ossl_uint_set_insert true sample (mkRange 3 12) = (true, s') /\ wf s' /\ mem 7 s'.
Proof.
  pose proof (uint_set_insert_correct true sample (mkRange 3 12) sample_wf ltac:(wf_solve)) as H.
  destruct (ossl_uint_set_insert true sample (mkRange 3 12)) as [[] s'] eqn:E;
    [|destruct H; discriminate].
  exists s'. destruct H as [W M]. split_and!; [done..|].
  apply M. right. unfold in_range. simpl. lia.
Defined.

Lemma uint_set_remove_witness :
  exists s', ossl_uint_set_remove true sample (mkRange 12 15) = Some (true, s') /\ wf s' /\ ~ mem 13 s'.
Proof.
  pose proof (uint_set_remove_correct true sample (mkRange 12 15) sample_wf ltac:(wf_solve)) as H.
  destruct (ossl_uint_set_remove true sample (mkRange 12 15)) as [[r s']|] eqn:E;
    [|discriminate].
  destruct H as (-> & W & M). exists s'. split_and!; [done..|].
  intros [_ H]%M. apply H. unfold in_range. simpl. lia.
Defined.

Lemma uint_set_query_witness : mem 12 sample.
Proof. apply (uint_set_query_correct sample 12 sample_wf). reflexivity. Defined.

End UintSet.
