(* ===== verification/QuicFc.v ===== *)
(** * QUIC flow controllers

    Model of [ssl/quic/quic_fc.c].  A controller is reached through a pointer
    and every stream-level controller shares its connection-level parent, so
    controllers live in a store, a [gmap] from addresses to records; [None]
    as the result of an operation is an access through an invalid pointer. *)
From Stdlib Require Import ZArith Lia.
From stdpp Require Import base tactics list gmap option.
From S2P Require Import Prelude SafeMath OsslTime.
#[local] Open Scope Z_scope.

(** ** Transmit side *)
Module Txfc.

Record QUIC_TXFC := mkTxfc {
  parent : option nat;            (* stream-level iff not [None] *)
  swm : Z;                        (* spent watermark *)
  cwm : Z;                        (* credit watermark *)
  has_become_blocked : bool
}.

Abbreviation store := (gmap nat QUIC_TXFC).

Definition txfc_is_conn_level (h : store) (conn : option nat) : option bool :=
  match conn with
  | None => Some true
  | Some q => c ← h !! q; Some (is_null (parent c))
  end.

(** [p] is the storage the caller provides. *)
Definition ossl_quic_txfc_init (h : store) (p : nat) (conn_txfc : option nat)
    : option (bool * store) :=
  ok ← txfc_is_conn_level h conn_txfc;
  if negb ok then Some (false, h)
  else Some (true, <[p := mkTxfc conn_txfc 0 0 false]> h).

Definition ossl_quic_txfc_get_parent (txfc : QUIC_TXFC) : option nat := parent txfc.

Definition ossl_quic_txfc_bump_cwm (txfc : QUIC_TXFC) (new : Z) : bool * QUIC_TXFC :=
  if new <=? cwm txfc then (false, txfc)
  else (true, mkTxfc (parent txfc) (swm txfc) new (has_become_blocked txfc)).

(** [None] is a failed assertion or an access through an invalid pointer. *)
Definition ossl_quic_txfc_get_credit_local (txfc : QUIC_TXFC) (consumed : Z) : option Z :=
  if u64 (swm txfc + consumed) <=? cwm txfc then Some (u64 (cwm txfc - u64 (consumed + swm txfc))) else None.

Definition ossl_quic_txfc_get_credit (h : store) (p : nat) (consumed : Z) : option Z :=
  txfc ← h !! p;
  r ← ossl_quic_txfc_get_credit_local txfc 0;
  match parent txfc with
  | None => Some r
  | Some q =>
      ptxfc ← h !! q;
      if negb (is_null (parent ptxfc)) then None else
      conn_r ← ossl_quic_txfc_get_credit_local ptxfc consumed;
      Some (if conn_r <? r then conn_r else r)
  end.

Definition ossl_quic_txfc_consume_credit_local (txfc : QUIC_TXFC) (num_bytes : Z)
    : option (bool * QUIC_TXFC) :=
  credit ← ossl_quic_txfc_get_credit_local txfc 0;
  let '(ok, num_bytes) := if credit <? num_bytes then (false, credit) else (true, num_bytes) in
  let blocked := if (0 <? num_bytes) && (num_bytes =? credit) then true
                 else has_become_blocked txfc in
  Some (ok, mkTxfc (parent txfc) (u64 (swm txfc + num_bytes)) (cwm txfc) blocked).

Definition ossl_quic_txfc_consume_credit (h : store) (p : nat) (num_bytes : Z)
    : option (bool * store) :=
  txfc ← h !! p;
  '(ok, txfc') ← ossl_quic_txfc_consume_credit_local txfc num_bytes;
  let h := <[p := txfc']> h in
  match parent txfc' with
  | None => Some (ok, h)
  | Some q =>
      ptxfc ← h !! q;
      if negb (is_null (parent ptxfc)) then None else
      '(ok2, ptxfc') ← ossl_quic_txfc_consume_credit_local ptxfc num_bytes;
      let h := <[q := ptxfc']> h in
      Some (if negb ok2 then false else ok, h)
  end.

Definition ossl_quic_txfc_has_become_blocked (txfc : QUIC_TXFC) (clear : bool)
    : bool * QUIC_TXFC :=
  (has_become_blocked txfc,
   mkTxfc (parent txfc) (swm txfc) (cwm txfc)
          (if clear then false else has_become_blocked txfc)).

Definition ossl_quic_txfc_get_cwm (txfc : QUIC_TXFC) : Z := cwm txfc.
Definition ossl_quic_txfc_get_swm (txfc : QUIC_TXFC) : Z := swm txfc.

(** *** Reachable states of one connection

    One connection-level controller [c]; streams are created under it, the
    peer raises limits, and the sender consumes credit, on streams or on one
    controller alone, with success or not.  A step is [exact] unless credit was
    consumed at one level only, or not enough was there. *)
Section Connection.
Context (c : nat).

Inductive op :=
| NewStream (p : nat)
| BumpCwm (p : nat) (n : Z)
| Consume (p : nat) (n : Z)
| ConsumeLocal (p : nat) (n : Z)
| HasBecomeBlocked (p : nat) (clear : bool).

(** The result of the call, and the store after it. *)
Definition exec (o : op) (h : store) : option (bool * store) :=
  match o with
  | NewStream p => ossl_quic_txfc_init h p (Some c)
  | BumpCwm p n => t ← h !! p; let '(r, t) := ossl_quic_txfc_bump_cwm t n in Some (r, <[p := t]> h)
  | Consume p n => ossl_quic_txfc_consume_credit h p n
  | ConsumeLocal p n => t ← h !! p; '(r, t) ← ossl_quic_txfc_consume_credit_local t n; Some (r, <[p := t]> h)
  | HasBecomeBlocked p clear => t ← h !! p; let '(r, t) := ossl_quic_txfc_has_become_blocked t clear in Some (r, <[p := t]> h)
  end.

(** Storage for a new stream is new, other pointers are valid, arguments are 64-bit, and
    stream data is not charged to the connection-level controller. *)
Definition allowed (o : op) (h : store) : Prop :=
  match o with
  | NewStream p => h !! p = None
  | BumpCwm p n | ConsumeLocal p n => is_Some (h !! p) /\ is_u64 n
  | Consume p n => is_Some (h !! p) /\ is_u64 n /\ p <> c
  | HasBecomeBlocked p _ => is_Some (h !! p)
  end.

Definition exact (o : op) (r : bool) : bool :=
  match o with Consume _ _ => r | ConsumeLocal _ _ => false | _ => true end.

Inductive reachable : bool -> store -> Prop :=
| reach_init : reachable true {[c := mkTxfc None 0 0 false]}
| reach_step e h o r h' : reachable e h -> allowed o h -> exec o h = Some (r, h') -> reachable (e && exact o r) h'.

(** Bytes sent on the streams of the connection. *)
Definition stream_bytes (t : QUIC_TXFC) : Z :=
  match parent t with None => 0 | Some _ => swm t end.

Definition txfc_ok (t : QUIC_TXFC) : Prop := 0 <= swm t <= cwm t /\ is_u64 (cwm t).

Record conn_inv (e : bool) (h : store) : Prop := {
  ci_ok : forall p t, h !! p = Some t -> txfc_ok t;
  ci_parent : forall p t, h !! p = Some t -> parent t = if decide (p = c) then None else Some c;
  ci_conn : is_Some (h !! c);
  ci_sum : e = true -> forall conn, h !! c = Some conn -> swm conn = msum stream_bytes h
}.
End Connection.

Lemma stream_bytes_eq t :
  stream_bytes t = match parent t with None => 0 | Some _ => swm t end.
Proof. reflexivity. Qed.

Lemma credit_local_ok t : txfc_ok t -> ossl_quic_txfc_get_credit_local t 0 = Some (cwm t - swm t).
Proof.
  unfold txfc_ok, ossl_quic_txfc_get_credit_local, is_u64. intros. u64_simpl. zcase; [f_equal|]; lia.
Qed.

(** A controller whose credit can be asked for: it and its parent are within their limits,
    and its parent is a connection-level one. *)
Definition usable (h : store) (t : QUIC_TXFC) : Prop :=
  txfc_ok t /\ forall q, parent t = Some q -> exists conn, h !! q = Some conn /\ parent conn = None /\ txfc_ok conn.

Lemma usable_credit h p t : h !! p = Some t -> usable h t -> is_Some (ossl_quic_txfc_get_credit h p 0).
Proof.
  intros Hp [Ht Hpar]. unfold ossl_quic_txfc_get_credit. rewrite Hp. cbn. rewrite credit_local_ok by done. cbn.
  destruct (parent t) as [q|]; [|eauto]. destruct (Hpar q eq_refl) as (conn & -> & Hc & Hok). cbn. rewrite Hc. cbn.
  rewrite credit_local_ok by done. cbn. eauto.
Qed.

Lemma usable_mono h h' t : usable h t ->
  (forall q conn, h !! q = Some conn -> parent conn = None -> txfc_ok conn -> exists conn', h' !! q = Some conn' /\ parent conn' = None /\ txfc_ok conn') -> usable h' t.
Proof. intros [Ht Hp] Hm. split; [done|]. intros q Hq. destruct (Hp q Hq) as (conn & Hc & Hn & Hok). by apply (Hm q conn). Qed.

(** Consuming on one controller never fails an assertion, and takes no more than is there. *)
Lemma consume_local_spec t n :
  txfc_ok t -> is_u64 n -> exists t', ossl_quic_txfc_consume_credit_local t n = Some (n <=? cwm t - swm t, t') /\
  txfc_ok t' /\ parent t' = parent t /\ cwm t' = cwm t /\
  swm t' = swm t + Z.min n (cwm t - swm t).
Proof.
  unfold ossl_quic_txfc_consume_credit_local. intros Ht Hn. rewrite credit_local_ok by done. cbn.
  unfold txfc_ok, is_u64 in *. destruct (Z.ltb_spec (cwm t - swm t) n), (Z.leb_spec n (cwm t - swm t)); try lia;
    (eexists; split; [reflexivity|]); simpl; u64_simpl; split_and!; (done || lia).
Qed.

(** Updating one controller without changing its parent. *)
Lemma conn_inv_update c e e' h p t t' :
  conn_inv c e h -> h !! p = Some t -> txfc_ok t' -> parent t' = parent t ->
  (e' = true -> e = true /\ swm t' = swm t) ->
  conn_inv c e' (<[p := t']> h).
Proof.
  intros [Hok Hpar Hc Hsum] Hp Ht' Hparent Hswm. constructor.
  - intros q u. rewrite lookup_insert. case_decide; [intros [= <-]; done|apply Hok].
  - intros q u. rewrite lookup_insert. case_decide; [|apply Hpar].
    intros [= <-]. subst. rewrite Hparent. by apply Hpar.
  - rewrite lookup_insert. by case_decide.
  - intros He conn. destruct (Hswm He) as [-> Es]. rewrite (msum_insert_Some _ _ _ t) by done.
    replace (stream_bytes t') with (stream_bytes t) by (unfold stream_bytes; by rewrite Hparent, Es).
    rewrite lookup_insert. case_decide as Hpc.
    + intros [= <-]. subst. rewrite Es, (Hsum eq_refl t) by done. lia.
    + intros Hc'. rewrite (Hsum eq_refl conn) by done. lia.
Qed.

(** Consuming on a stream: both levels are charged, each with no more than it has. *)
Lemma consume_spec c e h p t n :
  conn_inv c e h -> p <> c -> h !! p = Some t -> is_u64 n ->
  exists conn t' conn' ok, h !! c = Some conn /\ ossl_quic_txfc_consume_credit h p n = Some (ok, <[c := conn']> (<[p := t']> h)) /\
    ok = (n <=? cwm t - swm t) && (n <=? cwm conn - swm conn) /\ parent t = Some c /\ parent conn = None /\
    (txfc_ok t' /\ parent t' = parent t /\ cwm t' = cwm t /\ swm t' = swm t + Z.min n (cwm t - swm t)) /\
    (txfc_ok conn' /\ parent conn' = parent conn /\ cwm conn' = cwm conn /\ swm conn' = swm conn + Z.min n (cwm conn - swm conn)).
Proof.
  intros [Hok Hpar [conn Hc] _] Hpc Hp Hn. unfold ossl_quic_txfc_consume_credit. rewrite Hp. cbn.
  pose proof (Hpar _ _ Hp) as Hpt. rewrite decide_False in Hpt by done.
  pose proof (Hpar _ _ Hc) as Hcp. rewrite decide_True in Hcp by done.
  destruct (consume_local_spec t n (Hok _ _ Hp) Hn) as (t' & -> & T). destruct T as (T1 & T2 & T3 & T4). cbn.
  rewrite T2, Hpt, lookup_insert_ne, Hc by done. cbn. rewrite Hcp. cbn.
  destruct (consume_local_spec conn n (Hok _ _ Hc) Hn) as (conn' & -> & U). cbn.
  exists conn, t', conn'. eexists. split; [done|]. split; [reflexivity|]. split; [by destruct (n <=? cwm t - swm t), (n <=? cwm conn - swm conn)|].
  split_and!; try done; try apply U; congruence.
Qed.

Lemma conn_inv_consume c e h p n ok h' :
  conn_inv c e h -> p <> c -> is_Some (h !! p) -> is_u64 n ->
  ossl_quic_txfc_consume_credit h p n = Some (ok, h') -> conn_inv c (e && ok) h'.
Proof.
  intros Hinv Hpc [t Hp] Hn E. destruct (consume_spec c e h p t n Hinv Hpc Hp Hn)
    as (conn & t' & conn' & ok' & Hc & E' & Hok' & Hpt & Hcp & (T1 & T2 & T3 & T4) & (U1 & U2 & U3 & U4)).
  rewrite E in E'. injection E' as -> ->. destruct Hinv as [Hok Hpar _ Hsum]. constructor.
  - intros q u. rewrite !lookup_insert. repeat case_decide; intros; simplify_eq; eauto.
  - intros q u. destruct (decide (q = c)) as [->|Hq].
    + rewrite lookup_insert_eq. intros [= <-]. congruence.
    + rewrite lookup_insert_ne, lookup_insert by done.
      case_decide; intros Hu; [simplify_eq; congruence|].
      apply Hpar in Hu. by rewrite decide_False in Hu.
  - rewrite lookup_insert_eq. by eexists.
  - intros [-> Hk]%andb_true_iff x. rewrite lookup_insert_eq. intros [= <-].
    rewrite (msum_insert_Some _ _ _ conn) by (by rewrite lookup_insert_ne).
    rewrite (msum_insert_Some _ _ _ t) by done.
    rewrite !stream_bytes_eq, U2, Hcp, T2, Hpt, U4, T4. pose proof (Hsum eq_refl conn Hc).
    rewrite Hk in Hok'. symmetry in Hok'. apply andb_true_iff in Hok' as [?%Z.leb_le ?%Z.leb_le]. lia.
Qed.

Lemma reachable_inv c e h : reachable c e h -> conn_inv c e h.
Proof.
  induction 1 as [|e h o r h' _ IH Ha E].
  - constructor.
    + intros p t. rewrite lookup_singleton. case_decide; [|done].
      intros [= <-]. split; unfold is_u64; simpl; lia.
    + intros p t. destruct (decide (p = c)) as [->|].
      * rewrite lookup_singleton_eq. by intros [= <-].
      * by rewrite lookup_singleton_ne.
    + rewrite lookup_singleton_eq. by eexists.
    + intros _ conn. rewrite lookup_singleton_eq. intros [= <-].
      rewrite <- insert_empty. by rewrite msum_insert_None by apply lookup_empty.
  - destruct o as [p|p n|p n|p n|p clear]; cbn [exec allowed exact] in *; rewrite ?andb_true_r, ?andb_false_r.
    + unfold ossl_quic_txfc_init in E. pose proof IH as [Hok Hpar [conn Hc] Hsum].
      simpl in E. rewrite Hc in E. simpl in E. destruct (is_null (parent conn)); cbn in E; injection E as <- <-; [|done].
      assert (p <> c) by congruence. constructor.
      * intros q u. rewrite lookup_insert. case_decide; [|apply Hok].
        intros [= <-]. split; unfold is_u64; simpl; lia.
      * intros q u. rewrite lookup_insert. case_decide; [|apply Hpar].
        intros [= <-]. subst. by rewrite decide_False.
      * rewrite lookup_insert_ne by done. by eexists.
      * intros He x. rewrite lookup_insert_ne by done. intros Hx.
        rewrite msum_insert_None by done. rewrite stream_bytes_eq. simpl. rewrite (Hsum He x Hx). lia.
    + destruct Ha as [[t Hp] Hn]. rewrite Hp in E. cbn in E. pose proof (ci_ok _ _ _ IH _ _ Hp) as Ht.
      unfold ossl_quic_txfc_bump_cwm in E. destruct (Z.leb_spec n (cwm t)); injection E as <- <-; (eapply conn_inv_update; [exact IH|exact Hp|..]); try done.
      unfold txfc_ok, is_u64 in *. simpl. lia.
    + destruct Ha as (Hp & Hn & Hpc). by eapply conn_inv_consume.
    + destruct Ha as [[t Hp] Hn]. rewrite Hp in E. cbn in E. destruct (consume_local_spec t n (ci_ok _ _ _ IH _ _ Hp) Hn) as (t' & Et & T1 & T2 & _).
      rewrite Et in E. cbn in E. injection E as <- <-. by eapply conn_inv_update.
    + destruct Ha as [t Hp]. rewrite Hp in E. cbn in E. injection E as <- <-. eapply conn_inv_update; [exact IH|exact Hp| | |]; [exact (ci_ok _ _ _ IH _ _ Hp)|done..].
Qed.

(** ** Properties *)

(** C39: whatever was created, raised and consumed on a connection, at one level or both
    and with enough credit or not, every further call is defined (no assertion fails), no
    controller has spent more than its credit watermark and every stream hangs below the
    connection; a consumption that asks for more than there is reports it and takes exactly
    what is left at each level.  As long as credit was only consumed on streams and was
    there, the connection has spent exactly what its streams have spent together. *)
Theorem txfc_connection_invariant c e h :
  reachable c e h ->
  (forall p t, h !! p = Some t -> 0 <= swm t <= cwm t /\ parent t = if decide (p = c) then None else Some c) /\
  (e = true -> exists conn, h !! c = Some conn /\ swm conn = msum stream_bytes h) /\
  (forall o, allowed c o h -> exists r h', exec c o h = Some (r, h') /\ reachable c (e && exact o r) h') /\
  (forall p t n, h !! p = Some t -> p <> c -> is_u64 n ->
     exists conn t' conn' h', h !! c = Some conn /\ h' !! p = Some t' /\ h' !! c = Some conn' /\
       ossl_quic_txfc_consume_credit h p n = Some ((n <=? cwm t - swm t) && (n <=? cwm conn - swm conn), h') /\
       swm t' = swm t + Z.min n (cwm t - swm t) /\ swm conn' = swm conn + Z.min n (cwm conn - swm conn)).
Proof.
  intros Hr. pose proof (reachable_inv c e h Hr) as H. pose proof H as [Hok Hpar [conn Hc] Hsum]. split_and!.
  - intros p t Hp. split; [by apply (Hok p)|by apply Hpar].
  - intros He. exists conn. split; [done|by apply Hsum].
  - intros o Ha. assert (Hd : exists r h', exec c o h = Some (r, h')).
    { destruct o as [p|p n|p n|p n|p clear]; cbn [exec allowed] in *.
      - unfold ossl_quic_txfc_init. cbn. rewrite Hc. cbn. destruct (is_null _); eauto.
      - destruct Ha as [[t ->] _]. cbn. destruct (ossl_quic_txfc_bump_cwm t n). eauto.
      - destruct Ha as ([t Hp] & Hn & Hpc). destruct (consume_spec c e h p t n H Hpc Hp Hn) as (? & ? & ? & ? & _ & -> & _). eauto.
      - destruct Ha as [[t Hp] Hn]. rewrite Hp. cbn. destruct (consume_local_spec t n (Hok _ _ Hp) Hn) as (t' & -> & _). cbn. eauto.
      - destruct Ha as [t ->]. cbn. eauto. }
    destruct Hd as (r & h' & E). exists r, h'. split; [done|]. by eapply reach_step.
  - intros p t n Hp Hpc Hn. destruct (consume_spec c e h p t n H Hpc Hp Hn) as (x & t' & x' & ok & Hx & E & -> & _ & _ & (_ & _ & _ & T4) & (_ & _ & _ & U4)).
    eexists x, t', x', _. split_and!; [done| |by rewrite lookup_insert_eq|exact E|done|done]. by rewrite lookup_insert_ne, lookup_insert_eq by done.
Qed.

Definition conn0 : store := {[0%nat := mkTxfc None 0 0 false]}.

(** A stream of limit 10 under a connection of limit 20, after 7 bytes were sent. *)
Definition run (ops : list op) : option (bool * store) :=
  foldl (fun x o => '(e, h) ← x; '(r, h') ← exec 0 o h; Some (e && exact o r, h')) (Some (true, conn0)) ops.
Definition sample_txfcs : store := default ∅ (snd <$> run [NewStream 1; BumpCwm 0 20; BumpCwm 1 10; Consume 1 7]).

Lemma sample_txfcs_reachable : reachable 0 true sample_txfcs.
Proof.
  assert (Hs : forall h o r h', reachable 0 true h -> allowed 0 o h -> exec 0 o h = Some (r, h') -> exact o r = true -> reachable 0 true h').
  { intros h o r h' Hr Ha E Hx. pose proof (reach_step 0 true h o r h' Hr Ha E) as H. by rewrite Hx in H. }
  eapply (Hs _ (Consume 1 7) true); [eapply (Hs _ (BumpCwm 1 10) true); [eapply (Hs _ (BumpCwm 0 20) true); [eapply (Hs _ (NewStream 1) true); [apply reach_init|..]|..]|..]|..];
    try reflexivity; cbn; split_and!; unfold is_u64; try lia; by eexists.
Qed.

Lemma txfc_connection_invariant_witness :
  exists conn t' conn' h', sample_txfcs !! 0%nat = Some conn /\ h' !! 1%nat = Some t' /\ h' !! 0%nat = Some conn' /\
    ossl_quic_txfc_consume_credit sample_txfcs 1 5 = Some (false, h') /\ swm t' = 10 /\ swm conn' = 12.
Proof.
  destruct (txfc_connection_invariant 0 true sample_txfcs sample_txfcs_reachable) as (_ & _ & _ & H).
  destruct (H 1%nat (mkTxfc (Some 0%nat) 7 10 false) 5 eq_refl ltac:(done) ltac:(unfold is_u64; lia)) as (conn & t' & conn' & h' & H1 & H2 & H3 & H4 & H5 & H6).
  assert (conn = mkTxfc None 7 20 false) as -> by (vm_compute in H1; congruence).
  exists (mkTxfc None 7 20 false), t', conn', h'. split_and!; [exact H1|exact H2|exact H3|exact H4|exact H5|exact H6].
Defined.

(** [ossl_quic_txfc_get_credit] is exact: in a reachable state, consuming
    n bytes on a stream succeeds if and only if n is at most the credit
    reported, and then the stream's credit falls by exactly n. *)
Theorem txfc_credit_exact c e h p n :
  reachable c e h -> p <> c -> is_u64 n -> is_Some (h !! p) ->
  exists r ok h', ossl_quic_txfc_get_credit h p 0 = Some r /\
    ossl_quic_txfc_consume_credit h p n = Some (ok, h') /\
    (ok = true <-> n <= r) /\
    (ok = true -> exists t t', h !! p = Some t /\ h' !! p = Some t' /\ swm t' = swm t + n).
Proof.
  intros Hr Hpc Hn [t Hp]. pose proof (reachable_inv c e h Hr) as H.
  destruct (consume_spec c e h p t n H Hpc Hp Hn) as (x & t' & x' & ok & Hx & E & -> & Hpt & Hcp & (_ & _ & _ & T4) & _).
  pose proof H as [Hok _ _ _]. unfold ossl_quic_txfc_get_credit. rewrite Hp. cbn.
  rewrite (credit_local_ok t) by eauto. cbn. rewrite Hpt, Hx. cbn. rewrite Hcp. cbn. rewrite (credit_local_ok x) by eauto. cbn.
  eexists _, _, _. split_and!; [reflexivity|exact E| |].
  - rewrite andb_true_iff, !Z.leb_le. zcase; lia.
  - intros [?%Z.leb_le ?%Z.leb_le]%andb_true_iff. exists t, t'.
    rewrite lookup_insert_ne, lookup_insert_eq by done. split_and!; [done..|]. lia.
Qed.

Lemma txfc_credit_exact_witness :
  exists ok h', ossl_quic_txfc_consume_credit sample_txfcs 1 5 = Some (ok, h') /\
    (ok = true <-> 5 <= 3).
Proof.
  destruct (txfc_credit_exact 0 true sample_txfcs 1 5 sample_txfcs_reachable) as (r & ok & h' & H1 & H2 & H3 & _);
    [lia|unfold is_u64; lia|by eexists|].
  exists ok, h'. split; [exact H2|].
  assert (r = 3) as -> by (vm_compute in H1; congruence). exact H3.
Defined.

End Txfc.

(** ** Receive side *)
Module Rxfc.
Import OsslTime.

Definition OSSL_QUIC_ERR_FLOW_CONTROL_ERROR : Z := 3.
Definition OSSL_QUIC_ERR_FINAL_SIZE_ERROR : Z := 6.

Record QUIC_RXFC := mkRxfc {
  cwm : Z;                 (* credit watermark: what the peer may send *)
  swm : Z;                 (* received watermark *)
  rwm : Z;                 (* retired watermark *)
  esrwm : Z;               (* rwm when the auto-tuning epoch started *)
  hwm : Z;                 (* highest stream length seen *)
  cur_window_size : Z;
  max_window_size : Z;
  epoch_start : OSSL_TIME;
  parent : option nat;
  error_code : Z;
  has_cwm_changed : bool;
  is_fin : bool;
  standalone : bool
}.

Abbreviation store := (gmap nat QUIC_RXFC).

Definition set_swm (v : Z) (r : QUIC_RXFC) : QUIC_RXFC :=
  mkRxfc (cwm r) v (rwm r) (esrwm r) (hwm r) (cur_window_size r) (max_window_size r)
    (epoch_start r) (parent r) (error_code r) (has_cwm_changed r) (is_fin r) (standalone r).
Definition set_rwm (v : Z) (r : QUIC_RXFC) : QUIC_RXFC :=
  mkRxfc (cwm r) (swm r) v (esrwm r) (hwm r) (cur_window_size r) (max_window_size r)
    (epoch_start r) (parent r) (error_code r) (has_cwm_changed r) (is_fin r) (standalone r).
Definition set_hwm (v : Z) (r : QUIC_RXFC) : QUIC_RXFC :=
  mkRxfc (cwm r) (swm r) (rwm r) (esrwm r) v (cur_window_size r) (max_window_size r)
    (epoch_start r) (parent r) (error_code r) (has_cwm_changed r) (is_fin r) (standalone r).
Definition set_cwm_changed (v : Z) (r : QUIC_RXFC) : QUIC_RXFC :=
  mkRxfc v (swm r) (rwm r) (esrwm r) (hwm r) (cur_window_size r) (max_window_size r)
    (epoch_start r) (parent r) (error_code r) true (is_fin r) (standalone r).
Definition set_cur_window_size (v : Z) (r : QUIC_RXFC) : QUIC_RXFC :=
  mkRxfc (cwm r) (swm r) (rwm r) (esrwm r) (hwm r) v (max_window_size r)
    (epoch_start r) (parent r) (error_code r) (has_cwm_changed r) (is_fin r) (standalone r).
Definition set_epoch (t : OSSL_TIME) (v : Z) (r : QUIC_RXFC) : QUIC_RXFC :=
  mkRxfc (cwm r) (swm r) (rwm r) v (hwm r) (cur_window_size r) (max_window_size r)
    t (parent r) (error_code r) (has_cwm_changed r) (is_fin r) (standalone r).
Definition set_error_code (v : Z) (r : QUIC_RXFC) : QUIC_RXFC :=
  mkRxfc (cwm r) (swm r) (rwm r) (esrwm r) (hwm r) (cur_window_size r) (max_window_size r)
    (epoch_start r) (parent r) v (has_cwm_changed r) (is_fin r) (standalone r).
Definition set_is_fin (v : bool) (r : QUIC_RXFC) : QUIC_RXFC :=
  mkRxfc (cwm r) (swm r) (rwm r) (esrwm r) (hwm r) (cur_window_size r) (max_window_size r)
    (epoch_start r) (parent r) (error_code r) (has_cwm_changed r) v (standalone r).

Definition rxfc_is_conn_level (h : store) (conn : option nat) : option bool :=
  match conn with
  | None => Some true
  | Some q => c ← h !! q; Some (is_null (parent c))
  end.

Definition ossl_quic_rxfc_init (h : store) (p : nat) (conn_rxfc : option nat)
    (initial_window_size max_window_size : Z) : option (bool * store) :=
  ok ← rxfc_is_conn_level h conn_rxfc;
  if negb ok then Some (false, h)
  else Some (true, <[p := mkRxfc initial_window_size 0 0 0 0 initial_window_size
                            max_window_size ossl_time_zero conn_rxfc 0 false false false]> h).

Definition ossl_quic_rxfc_init_standalone (h : store) (p : nat) (initial_window_size : Z)
    : option (bool * store) :=
  '(ok, h') ← ossl_quic_rxfc_init h p None initial_window_size initial_window_size;
  if negb ok then Some (false, h')
  else
    r ← h' !! p;
    Some (true, <[p := mkRxfc (cwm r) (swm r) (rwm r) (esrwm r) (hwm r) (cur_window_size r)
                         (max_window_size r) (epoch_start r) (parent r) (error_code r)
                         (has_cwm_changed r) (is_fin r) true]> h').

Definition ossl_quic_rxfc_get_parent (r : QUIC_RXFC) : option nat := parent r.

Definition ossl_quic_rxfc_set_max_window_size (r : QUIC_RXFC) (v : Z) : QUIC_RXFC :=
  mkRxfc (cwm r) (swm r) (rwm r) (esrwm r) (hwm r) (cur_window_size r) v
    (epoch_start r) (parent r) (error_code r) (has_cwm_changed r) (is_fin r) (standalone r).

Definition rxfc_start_epoch (ck : clock) (r : QUIC_RXFC) : QUIC_RXFC * clock :=
  let '(now, ck) := read_clock ck in (set_epoch now (rwm r) r, ck).

Definition on_rx_controlled_bytes (r : QUIC_RXFC) (num_bytes : Z) : bool * QUIC_RXFC :=
  let credit := u64 (cwm r - swm r) in
  let '(ok, num_bytes, r) :=
    if credit <? num_bytes
    then (false, credit, set_error_code OSSL_QUIC_ERR_FLOW_CONTROL_ERROR r)
    else (true, num_bytes, r) in
  (ok, set_swm (u64 (swm r + num_bytes)) r).

Definition ossl_quic_rxfc_on_rx_stream_frame (h : store) (p : nat) (end_ : Z) (fin : bool)
    : option (bool * store) :=
  r ← h !! p;
  if negb (standalone r) && is_null (parent r)
  then Some (false, h)
  else if is_fin r && ((fin && negb (hwm r =? end_)) || (hwm r <? end_)) then
    Some (true, <[p := set_error_code OSSL_QUIC_ERR_FINAL_SIZE_ERROR r]> h)
  else
    let r := if fin then set_is_fin true r else r in
    if hwm r <? end_ then
      let delta := u64 (end_ - hwm r) in
      let r := set_hwm end_ r in
      let h := <[p := snd (on_rx_controlled_bytes r delta)]> h in
      match parent r with
      | None => Some (true, h)
      | Some q => c ← h !! q; Some (true, <[q := snd (on_rx_controlled_bytes c delta)]> h)
      end
    else if (end_ <? hwm r) && fin then
      Some (true, <[p := set_error_code OSSL_QUIC_ERR_FINAL_SIZE_ERROR r]> h)
    else Some (true, <[p := r]> h).

Definition WINDOW_THRESHOLD_NUM : Z := 3.
Definition WINDOW_THRESHOLD_DEN : Z := 4.

Definition rxfc_cwm_bump_desired (r : QUIC_RXFC) : bool :=
  let window_rem := u64 (cwm r - rwm r) in
  let '(threshold, err) :=
    SafeMath.safe_muldiv 64 (cur_window_size r) WINDOW_THRESHOLD_NUM WINDOW_THRESHOLD_DEN in
  let threshold := if (err : bool) then cur_window_size r / 2 else threshold in
  negb (is_fin r) && (window_rem <=? threshold).

Definition rxfc_should_bump_window_size (ck : clock) (r : QUIC_RXFC) (rtt : OSSL_TIME)
    : bool * clock :=
  let b := u64 (rwm r - esrwm r) in
  if b =? 0 then (false, ck)
  else
    let '(now, ck) := read_clock ck in
    let dt := ossl_time_subtract now (epoch_start r) in
    let t_window := ossl_time_muldiv dt (cur_window_size r) b in
    (ossl_time_compare t_window (ossl_time_multiply rtt 4) <? 0, ck).

Definition rxfc_adjust_window_size (ck : clock) (r : QUIC_RXFC) (min_window_size : Z)
    (rtt : OSSL_TIME) : QUIC_RXFC * clock :=
  let '(bump, ck) := rxfc_should_bump_window_size ck r rtt in
  let new_window_size := if bump then u64 (cur_window_size r * 2) else cur_window_size r in
  let new_window_size :=
    if new_window_size <? min_window_size then min_window_size else new_window_size in
  let new_window_size :=
    if max_window_size r <? new_window_size then max_window_size r else new_window_size in
  rxfc_start_epoch ck (set_cur_window_size new_window_size r).

Definition rxfc_update_cwm (ck : clock) (r : QUIC_RXFC) (min_window_size : Z)
    (rtt : OSSL_TIME) : QUIC_RXFC * clock :=
  if negb (rxfc_cwm_bump_desired r) then (r, ck)
  else
    let '(r, ck) := rxfc_adjust_window_size ck r min_window_size rtt in
    let new_cwm := u64 (rwm r + cur_window_size r) in
    (if cwm r <? new_cwm then set_cwm_changed new_cwm r else r, ck).

Definition rxfc_on_retire (ck : clock) (r : QUIC_RXFC) (num_bytes min_window_size : Z)
    (rtt : OSSL_TIME) : QUIC_RXFC * clock :=
  let '(r, ck) :=
    if ossl_time_is_zero (epoch_start r) then rxfc_start_epoch ck r else (r, ck) in
  rxfc_update_cwm ck (set_rwm (u64 (rwm r + num_bytes)) r) min_window_size rtt.

Definition ossl_quic_rxfc_on_retire (ck : clock) (h : store) (p : nat) (num_bytes : Z)
    (rtt : OSSL_TIME) : option (bool * store) :=
  r ← h !! p;
  if is_null (parent r) && negb (standalone r)
  then Some (false, h)
  else if num_bytes =? 0 then Some (true, h)
  else if swm r <? u64 (rwm r + num_bytes) then Some (false, h)
  else
    let '(r', ck) := rxfc_on_retire ck r num_bytes 0 rtt in
    let h := <[p := r']> h in
    if negb (standalone r') then
      q ← parent r';
      c ← h !! q;
      let '(c', _) := rxfc_on_retire ck c num_bytes (cur_window_size r') rtt in
      Some (true, <[q := c']> h)
    else Some (true, h).

Definition ossl_quic_rxfc_get_cwm (r : QUIC_RXFC) : Z := cwm r.
Definition ossl_quic_rxfc_get_swm (r : QUIC_RXFC) : Z := swm r.
Definition ossl_quic_rxfc_get_rwm (r : QUIC_RXFC) : Z := rwm r.
Definition ossl_quic_rxfc_get_credit (r : QUIC_RXFC) : Z :=
  u64 (ossl_quic_rxfc_get_cwm r - ossl_quic_rxfc_get_swm r).

Definition ossl_quic_rxfc_has_cwm_changed (r : QUIC_RXFC) (clear : bool) : bool * QUIC_RXFC :=
  (has_cwm_changed r,
   mkRxfc (cwm r) (swm r) (rwm r) (esrwm r) (hwm r) (cur_window_size r) (max_window_size r)
    (epoch_start r) (parent r) (error_code r)
    (if clear then false else has_cwm_changed r) (is_fin r) (standalone r)).

Definition ossl_quic_rxfc_get_error (r : QUIC_RXFC) (clear : bool) : Z * QUIC_RXFC :=
  (error_code r, if clear then set_error_code 0 r else r).

Definition ossl_quic_rxfc_get_final_size (r : QUIC_RXFC) : option Z :=
  if negb (is_fin r) then None else Some (hwm r).

(** *** Lemmas *)

Definition rxfc_ok (r : QUIC_RXFC) : Prop :=
  is_u64 (cwm r) /\ 0 <= swm r <= cwm r /\ is_u64 (rwm r) /\ is_u64 (hwm r) /\
  is_u64 (cur_window_size r) /\ is_u64 (max_window_size r).

Definition store_ok (h : store) : Prop := forall p r, h !! p = Some r -> rxfc_ok r.

(** The advertised limits of [h'] are at least those of [h]. *)
Definition cwm_grows (h h' : store) : Prop :=
  forall p r, h !! p = Some r -> exists r', h' !! p = Some r' /\ cwm r <= cwm r'.

Lemma cwm_grows_refl h : cwm_grows h h.
Proof. intros p r ?. exists r. split; [done|lia]. Qed.

Lemma cwm_grows_trans h1 h2 h3 : cwm_grows h1 h2 -> cwm_grows h2 h3 -> cwm_grows h1 h3.
Proof.
  intros H1 H2 p r Hr. destruct (H1 p r Hr) as (r2 & Hr2 & ?).
  destruct (H2 p r2 Hr2) as (r3 & Hr3 & ?). exists r3. split; [done|lia].
Qed.

(** Replacing one controller by a well-formed one with no smaller limit. *)
Lemma store_update h p r r' :
  store_ok h -> h !! p = Some r -> rxfc_ok r' -> cwm r <= cwm r' ->
  store_ok (<[p := r']> h) /\ cwm_grows h (<[p := r']> h).
Proof.
  intros Hok Hp Hr' Hle. split.
  - intros q u. rewrite lookup_insert. case_decide; [by intros [= <-]|apply Hok].
  - intros q u Hq. rewrite lookup_insert. case_decide; [|exists u; split; [done|lia]].
    exists r'. split; [done|]. simplify_eq. lia.
Qed.

Lemma controlled_bytes_spec r n :
  rxfc_ok r -> is_u64 n ->
  let r' := snd (on_rx_controlled_bytes r n) in
  rxfc_ok r' /\ cwm r' = cwm r /\ hwm r' = hwm r /\ is_fin r' = is_fin r /\
  swm r' = Z.min (cwm r) (swm r + n) /\
  error_code r' = if cwm r <? swm r + n then OSSL_QUIC_ERR_FLOW_CONTROL_ERROR else error_code r.
Proof.
  unfold rxfc_ok, on_rx_controlled_bytes, is_u64. intros Hr Hn. u64_simpl.
  destruct (Z.ltb_spec (cwm r) (swm r + n)), (Z.ltb_spec (cwm r - swm r) n); try lia;
    simpl; u64_simpl; split_and!; try done; lia.
Qed.

Lemma adjust_window_spec ck r min rtt r' ck' :
  rxfc_ok r -> is_u64 min -> rxfc_adjust_window_size ck r min rtt = (r', ck') ->
  rxfc_ok r' /\ cwm r' = cwm r /\ swm r' = swm r /\ rwm r' = rwm r /\
  max_window_size r' = max_window_size r /\ cur_window_size r' <= max_window_size r.
Proof.
  unfold rxfc_adjust_window_size, rxfc_start_epoch. intros Hr Hm.
  destruct (rxfc_should_bump_window_size ck r rtt) as [bump ck1].
  destruct (read_clock ck1) as [t ck2]. intros [= <- <-]. simpl.
  unfold rxfc_ok, is_u64 in *. simpl.
  pose proof (u64_range (cur_window_size r * 2)) as Hu. unfold is_u64 in Hu.
  destruct bump; repeat zcase; intuition lia.
Qed.

Lemma on_retire_spec ck r n min rtt r' ck' :
  rxfc_ok r -> is_u64 min -> rxfc_on_retire ck r n min rtt = (r', ck') ->
  rxfc_ok r' /\ cwm r <= cwm r' /\ swm r' = swm r /\ rwm r' = u64 (rwm r + n) /\
  cwm r' <= Z.max (cwm r) (rwm r' + max_window_size r) /\
  (cwm r' <> cwm r -> has_cwm_changed r' = true).
Proof.
  unfold rxfc_on_retire. intros Hr Hm.
  set (x := if ossl_time_is_zero (epoch_start r) then _ else _).
  assert (Hx : exists r1 ck1, x = (r1, ck1) /\ rxfc_ok r1 /\ cwm r1 = cwm r /\ swm r1 = swm r /\
    rwm r1 = rwm r /\ max_window_size r1 = max_window_size r).
  { unfold x, rxfc_start_epoch. destruct (read_clock ck) as [t ck1].
    zcase; eexists _, _; split_and!; try reflexivity; done. }
  destruct Hx as (r1 & ck1 & -> & Hr1 & <- & <- & <- & <-).
  pose proof (u64_range (rwm r1 + n)) as Hu.
  assert (Hr2 : rxfc_ok (set_rwm (u64 (rwm r1 + n)) r1)) by (unfold rxfc_ok in *; simpl; tauto).
  unfold rxfc_update_cwm. zcase.
  { intros [= <- <-]. simpl. unfold rxfc_ok in *. simpl in *. intuition lia. }
  destruct (rxfc_adjust_window_size ck1 _ min rtt) as [r3 ck3] eqn:Ea.
  destruct (adjust_window_spec _ _ _ _ _ _ Hr2 Hm Ea) as (H1 & H2 & H3 & H4 & H5 & H6).
  simpl in H2, H3, H4, H5, H6. pose proof (u64_range (rwm r3 + cur_window_size r3)) as Hv.
  assert (Hle : u64 (rwm r3 + cur_window_size r3) <= rwm r3 + cur_window_size r3).
  { unfold rxfc_ok, is_u64 in H1. unfold u64. apply Z.mod_le; lia. }
  zcase; intros [= <- <-]; simpl; unfold rxfc_ok, is_u64 in *; simpl; intuition lia.
Qed.

(** *** Properties *)

(** Receiving a STREAM frame and retiring bytes keep every controller of
    the store well-formed, with no more received than the limit granted, and
    never lower an advertised limit, on any controller and in any branch. *)
Theorem rxfc_limits_never_shrink h p :
  store_ok h ->
  (forall end_ fin ok h', is_u64 end_ ->
     ossl_quic_rxfc_on_rx_stream_frame h p end_ fin = Some (ok, h') ->
     store_ok h' /\ cwm_grows h h') /\
  (forall ck n rtt ok h',
     ossl_quic_rxfc_on_retire ck h p n rtt = Some (ok, h') ->
     store_ok h' /\ cwm_grows h h').
Proof.
  intros Hok. split.
  - intros end_ fin ok h' He. unfold ossl_quic_rxfc_on_rx_stream_frame.
    destruct (h !! p) as [r|] eqn:Hp; [|done]. simpl.
    pose proof (Hok _ _ Hp) as Hr.
    zcase; [intros [= <- <-]; auto using cwm_grows_refl|].
    zcase; [intros [= <- <-]; by apply (store_update h p r)|].
    set (r1 := if fin then set_is_fin true r else r).
    assert (Hr1 : rxfc_ok r1 /\ cwm r1 = cwm r) by (unfold r1; destruct fin; done).
    destruct Hr1 as [Hr1 Hc1]. clearbody r1. zcase.
    + set (r2 := set_hwm end_ r1).
      assert (Hr2 : rxfc_ok r2) by (unfold rxfc_ok in *; simpl; tauto).
      destruct (controlled_bytes_spec r2 (u64 (end_ - hwm r1)) Hr2 ltac:(auto with ossl))
        as (K1 & K2 & _).
      destruct (store_update h p r (snd (on_rx_controlled_bytes r2 (u64 (end_ - hwm r1))))
                  Hok Hp K1) as [S1 S2]; [simpl in K2; lia|].
      change (parent (set_hwm end_ r1)) with (parent r1).
      destruct (parent r1) as [q|]; [|by intros [= <- <-]].
      destruct (<[p := _]> h !! q) as [c|] eqn:Hq; [|done]. simpl. intros [= <- <-].
      destruct (controlled_bytes_spec c (u64 (end_ - hwm r1)) (S1 _ _ Hq)
                  ltac:(auto with ossl)) as (L1 & L2 & _).
      edestruct (store_update _ q c _ S1 Hq L1) as [U1 U2]; [lia|].
      split; [done|]. by eapply cwm_grows_trans.
    + zcase; intros [= <- <-]; apply (store_update h p r); try done; simpl; lia.
  - intros ck n rtt ok h'. unfold ossl_quic_rxfc_on_retire.
    destruct (h !! p) as [r|] eqn:Hp; [|done]. simpl.
    pose proof (Hok _ _ Hp) as Hr.
    zcase; [intros [= <- <-]; auto using cwm_grows_refl|].
    zcase; [intros [= <- <-]; auto using cwm_grows_refl|].
    zcase; [intros [= <- <-]; auto using cwm_grows_refl|].
    destruct (rxfc_on_retire ck r n 0 rtt) as [r' ck'] eqn:Er.
    destruct (on_retire_spec ck r n 0 rtt r' ck' Hr ltac:(unfold is_u64; lia) Er) as (K1 & K2 & _).
    destruct (store_update h p r r' Hok Hp K1 K2) as [S1 S2].
    zcase; [|intros [= <- <-]; by split].
    destruct (parent r') as [q|]; [|done]. simpl.
    destruct (<[p := r']> h !! q) as [c|] eqn:Hq; [|done]. simpl.
    destruct (rxfc_on_retire ck' c n _ rtt) as [c' ck2] eqn:Ec. intros [= <- <-].
    destruct (on_retire_spec ck' c n (cur_window_size r') rtt c' ck2 (S1 _ _ Hq)
                ltac:(apply K1) Ec) as (L1 & L2 & _).
    destruct (store_update _ q c c' S1 Hq L1 L2) as [U1 U2].
    split; [done|]. by eapply cwm_grows_trans.
Qed.

Definition conn_rxfc : QUIC_RXFC :=
  mkRxfc 100 40 0 0 0 100 400 0 None 0 false false false.
Definition stream_rxfc : QUIC_RXFC :=
  mkRxfc 50 40 0 0 40 50 200 0 (Some 0%nat) 0 false false false.
Definition fin_rxfc : QUIC_RXFC := set_is_fin true stream_rxfc.
Definition sample_store : store := <[1%nat := stream_rxfc]> {[0%nat := conn_rxfc]}.
Definition fin_store : store := <[1%nat := fin_rxfc]> {[0%nat := conn_rxfc]}.

Lemma pair_store_ok a b :
  rxfc_ok a -> rxfc_ok b -> store_ok (<[1%nat := a]> {[0%nat := b]}).
Proof.
  intros Ha Hb p r. rewrite lookup_insert, lookup_singleton.
  repeat case_decide; intros; by simplify_eq.
Qed.

Ltac rxfc_ok_solve := unfold rxfc_ok, is_u64; simpl; lia.

Lemma rxfc_limits_never_shrink_witness :
  exists h', ossl_quic_rxfc_on_retire [7; 9; 9; 9] sample_store 1 30 1 = Some (true, h') /\
    store_ok h' /\ cwm_grows sample_store h'.
Proof.
  destruct (rxfc_limits_never_shrink sample_store 1) as [_ H];
    [apply pair_store_ok; rxfc_ok_solve|].
  specialize (H [7; 9; 9; 9] 30 1).
  destruct (ossl_quic_rxfc_on_retire [7; 9; 9; 9] sample_store 1 30 1) as [[[] h']|] eqn:E;
    [|vm_compute in E; discriminate..].
  exists h'. split; [done|]. by apply (H true h').
Defined.

(** C40: a STREAM frame that reaches a new offset is counted at both levels, each of
    which takes no byte past the limit it advertised, and records FLOW_CONTROL_ERROR
    exactly when the frame goes beyond it: for a stream that is open and in step (received
    = highest offset), the stream-level controller when the offset is beyond its limit, the
    connection-level one when the new bytes, with those received on all streams, are beyond
    the connection's.  No other controller changes. *)
Theorem rxfc_flow_control_enforced h p r q c end_ fin :
  store_ok h -> h !! p = Some r -> parent r = Some q -> q <> p -> h !! q = Some c ->
  is_fin r = false -> swm r = hwm r -> is_u64 end_ -> hwm r < end_ ->
  exists h' r' c', ossl_quic_rxfc_on_rx_stream_frame h p end_ fin = Some (true, h') /\
    (h' !! p = Some r' /\ hwm r' = end_ /\ is_fin r' = fin /\ cwm r' = cwm r /\ swm r' = Z.min (cwm r) end_ /\
     error_code r' = if cwm r <? end_ then OSSL_QUIC_ERR_FLOW_CONTROL_ERROR else error_code r) /\
    (h' !! q = Some c' /\ cwm c' = cwm c /\ swm c' = Z.min (cwm c) (swm c + (end_ - hwm r)) /\
     error_code c' = if cwm c <? swm c + (end_ - hwm r) then OSSL_QUIC_ERR_FLOW_CONTROL_ERROR else error_code c) /\
    (forall k, k <> p -> k <> q -> h' !! k = h !! k).
Proof.
  intros Hok Hp Hpar Hqp Hq Hfin Hsync He Hlt. pose proof (Hok _ _ Hp) as Hr. pose proof (Hok _ _ Hq) as Hcok.
  unfold ossl_quic_rxfc_on_rx_stream_frame. rewrite Hp. simpl. rewrite Hpar, Hfin, andb_false_r.
  simpl. set (r1 := if fin then set_is_fin true r else r).
  assert (Hr1 : rxfc_ok r1 /\ cwm r1 = cwm r /\ swm r1 = swm r /\ hwm r1 = hwm r /\
                parent r1 = Some q /\ is_fin r1 = fin /\ error_code r1 = error_code r)
    by (unfold r1; destruct fin; simpl; split_and!; done).
  clearbody r1. destruct Hr1 as (Hr1 & E1 & E2 & E3 & E4 & E5 & E6).
  rewrite E3. destruct (Z.ltb_spec (hwm r) end_); [|lia].
  assert (Hr2 : rxfc_ok (set_hwm end_ r1)) by (unfold rxfc_ok in *; simpl; tauto).
  assert (Hd : u64 (end_ - hwm r) = end_ - hwm r) by (unfold rxfc_ok, is_u64 in *; by u64_simpl). rewrite Hd.
  assert (Hdu : is_u64 (end_ - hwm r)) by (unfold rxfc_ok, is_u64 in *; lia).
  destruct (controlled_bytes_spec _ _ Hr2 Hdu) as (_ & K2 & K3 & K4 & K5 & K6).
  destruct (controlled_bytes_spec _ _ Hcok Hdu) as (_ & L2 & _ & _ & L5 & L6).
  rewrite E4, lookup_insert_ne, Hq by done. simpl in *.
  replace (swm r1 + (end_ - hwm r)) with end_ in K5, K6 by lia. rewrite ?E1, ?E6 in *.
  eexists _, _, _. split_and!; [reflexivity|by rewrite lookup_insert_ne, lookup_insert_eq by done|exact K3|congruence|exact K2|exact K5|exact K6
    |by rewrite lookup_insert_eq|exact L2|exact L5|exact L6|].
  intros k H1 H2. by rewrite !lookup_insert_ne by done.
Qed.

Lemma rxfc_flow_control_enforced_witness :
  exists h' r' c', ossl_quic_rxfc_on_rx_stream_frame sample_store 1 60 false = Some (true, h') /\
    h' !! 1%nat = Some r' /\ error_code r' = OSSL_QUIC_ERR_FLOW_CONTROL_ERROR /\ swm r' = 50 /\
    h' !! 0%nat = Some c' /\ swm c' = 60 /\ error_code c' = 0.
Proof.
  destruct (rxfc_flow_control_enforced sample_store 1 stream_rxfc 0 conn_rxfc 60 false)
    as (h' & r' & c' & H1 & (H2 & _ & _ & _ & H3 & H4) & (H5 & _ & H6 & H7) & _); try reflexivity; try lia.
  - apply pair_store_ok; rxfc_ok_solve.
  - unfold is_u64. lia.
  - exists h', r', c'. split_and!; [exact H1|exact H2|exact H4|exact H3|exact H5|exact H6|exact H7].
Defined.

(** Once the final size of a stream is known it never changes: a later
    frame that ends beyond it, or carries FIN at a different offset, records
    FINAL_SIZE_ERROR and nothing else; any other frame changes nothing. *)
Theorem rxfc_final_size_fixed h p r end_ fin :
  h !! p = Some r -> parent r <> None -> is_fin r = true ->
  ossl_quic_rxfc_on_rx_stream_frame h p end_ fin =
    Some (true,
      if (fin && negb (hwm r =? end_)) || (hwm r <? end_)
      then <[p := set_error_code OSSL_QUIC_ERR_FINAL_SIZE_ERROR r]> h else h).
Proof.
  intros Hp Hpar Hfin. unfold ossl_quic_rxfc_on_rx_stream_frame. rewrite Hp. simpl.
  destruct (parent r) as [q|] eqn:Hq; [|done]. rewrite Hfin, andb_false_r. simpl.
  zcase; [done|].
  assert (Hid : (if fin then set_is_fin true r else r) = r).
  { destruct fin, r; simpl in *; [by subst|done]. }
  rewrite Hid. destruct (Z.ltb_spec (hwm r) end_); [lia|].
  destruct ((end_ <? hwm r) && fin) eqn:E2; zb.
  - exfalso. subst fin. simpl in H. zb. lia.
  - by rewrite insert_id.
Qed.

Lemma rxfc_final_size_fixed_witness :
  ossl_quic_rxfc_on_rx_stream_frame fin_store 1 30 true =
    Some (true, <[1%nat := set_error_code OSSL_QUIC_ERR_FINAL_SIZE_ERROR fin_rxfc]> fin_store).
Proof. rewrite (rxfc_final_size_fixed fin_store 1 fin_rxfc 30 true); try reflexivity. discriminate. Defined.

(** Retiring bytes never retires more than was received, and grants at
    most the maximum window beyond what was retired: a refused call changes
    nothing, an accepted one advances the retired mark by exactly [n], and a
    raised limit is announced. *)
Theorem rxfc_retire_window_bounded ck h p r q n rtt :
  store_ok h -> h !! p = Some r -> parent r = Some q -> standalone r = false -> q <> p ->
  is_Some (h !! q) -> 0 < n -> rwm r + n < UINT64_MOD ->
  exists ok h' r', ossl_quic_rxfc_on_retire ck h p n rtt = Some (ok, h') /\
    h' !! p = Some r' /\
    if ok then rwm r' = rwm r + n /\ rwm r' <= swm r' /\
               cwm r' <= Z.max (cwm r) (rwm r' + max_window_size r) /\
               (cwm r' <> cwm r -> has_cwm_changed r' = true)
    else h' = h /\ swm r < rwm r + n.
Proof.
  intros Hok Hp Hpar Hsa Hqp [c Hq] Hn Hlt. pose proof (Hok _ _ Hp) as Hr.
  unfold ossl_quic_rxfc_on_retire. rewrite Hp. simpl. rewrite Hpar. simpl.
  destruct (Z.eqb_spec n 0); [lia|].
  rewrite (u64_id (rwm r + n)) by (unfold rxfc_ok, is_u64 in *; lia). zcase.
  { eexists _, _, r. split_and!; [reflexivity|done|]. simpl. split; [done|lia]. }
  destruct (rxfc_on_retire ck r n 0 rtt) as [r' ck'] eqn:Er.
  assert (Hpar' : parent r' = Some q /\ standalone r' = false).
  { revert Er. unfold rxfc_on_retire, rxfc_start_epoch, rxfc_update_cwm, rxfc_adjust_window_size,
      rxfc_start_epoch. destruct (read_clock ck). intros Er.
    repeat (case_match; simplify_eq/=; try done). }
  destruct Hpar' as [-> ->]. simpl. rewrite lookup_insert_ne, Hq by done. simpl.
  destruct (rxfc_on_retire ck' c n _ rtt) as [c' ck2] eqn:Ec.
  destruct (on_retire_spec ck r n 0 rtt r' ck' Hr ltac:(unfold is_u64; lia) Er)
    as (K1 & K2 & K3 & K4 & K5 & K6).
  rewrite (u64_id (rwm r + n)) in K4 by (unfold rxfc_ok, is_u64 in *; lia).
  eexists _, _, r'. split_and!; [reflexivity|by rewrite lookup_insert_ne, lookup_insert_eq by done|].
  simpl. split_and!; (done || lia).
Qed.

Lemma rxfc_retire_window_bounded_witness :
  exists ok h' r', ossl_quic_rxfc_on_retire [7; 9; 9; 9] sample_store 1 30 1 = Some (ok, h') /\
    h' !! 1%nat = Some r' /\ (ok = true -> rwm r' = 30 /\ cwm r' <= 230).
Proof.
  destruct (rxfc_retire_window_bounded [7; 9; 9; 9] sample_store 1 stream_rxfc 0 30 1)
    as (ok & h' & r' & H1 & H2 & H3); try reflexivity; try lia.
  - apply pair_store_ok; rxfc_ok_solve.
  - by eexists.
  - exists ok, h', r'. split_and!; [done..|]. intros ->. simpl in H3. lia.
Defined.

End Rxfc.
