(* ===== verification/Statm.v ===== *)
(** * Round-trip time statistics

    Model of [ssl/quic/quic_statm.c]: the estimator of RFC 9002 section 5,
    with the saturating arithmetic of [OSSL_TIME]. *)
From Stdlib Require Import ZArith Lia.
From stdpp Require Import base tactics list.
From S2P Require Import Prelude SafeMath OsslTime.
Import OsslTime.
#[local] Open Scope Z_scope.

Module Statm.

Record OSSL_STATM := mkStatm {
  smoothed_rtt : OSSL_TIME; latest_rtt : OSSL_TIME; min_rtt : OSSL_TIME;
  rtt_variance : OSSL_TIME; have_first_sample : bool
}.

Record OSSL_RTT_INFO := mkRttInfo {
  info_smoothed_rtt : OSSL_TIME; info_latest_rtt : OSSL_TIME;
  info_rtt_variance : OSSL_TIME; info_min_rtt : OSSL_TIME
}.

Definition ossl_statm_update_rtt (statm : OSSL_STATM) (ack_delay override_latest_rtt : OSSL_TIME)
    : OSSL_STATM :=
  let latest := if ossl_time_is_zero override_latest_rtt then latest_rtt statm
                else override_latest_rtt in
  if negb (have_first_sample statm) then
    mkStatm latest latest latest (ossl_time_divide latest 2) true
  else
    let min_rtt' := if ossl_time_compare latest (min_rtt statm) <? 0 then latest
                    else min_rtt statm in
    let adjusted_rtt :=
      if 0 <=? ossl_time_compare latest (ossl_time_add min_rtt' ack_delay)
      then ossl_time_subtract latest ack_delay else latest in
    let variance :=
      ossl_time_divide (ossl_time_add (ossl_time_multiply (rtt_variance statm) 3)
                          (ossl_time_abs_difference (smoothed_rtt statm) adjusted_rtt)) 4 in
    let smoothed :=
      ossl_time_divide (ossl_time_add (ossl_time_multiply (smoothed_rtt statm) 7)
                          adjusted_rtt) 8 in
    mkStatm smoothed latest min_rtt' variance true.

Definition K_INITIAL_RTT : OSSL_TIME := ossl_ms2time 333.

Definition ossl_statm_init : OSSL_STATM :=
  mkStatm K_INITIAL_RTT ossl_time_zero ossl_time_infinite
    (ossl_time_divide K_INITIAL_RTT 2) false.

Definition ossl_statm_get_rtt_info (statm : OSSL_STATM) : OSSL_RTT_INFO :=
  mkRttInfo (smoothed_rtt statm) (latest_rtt statm) (rtt_variance statm) (min_rtt statm).

(** A sequence of updates, each an ack delay and an override. *)
Definition updates (s : OSSL_STATM) (us : list (Z * Z)) : OSSL_STATM :=
  foldl (fun s u => ossl_statm_update_rtt s u.1 u.2) s us.

(** The samples those updates stand for: a zero override repeats the previous
    sample. *)
Fixpoint samples (latest : Z) (us : list (Z * Z)) : list Z :=
  match us with
  | [] => []
  | (_, o) :: us => let r := if o =? 0 then latest else o in r :: samples r us
  end.

(** ** Lemmas *)

(** Times small enough (73 years in nanoseconds) for the estimator's
    intermediate products not to saturate. *)
Definition small (t : Z) : Prop := 0 <= t < 2 ^ 61.

Lemma small_u64 t : small t -> is_u64 t.
Proof. unfold small, is_u64. lia. Qed.
#[local] Hint Resolve small_u64 : ossl.

(** What an update computes once the arithmetic is known not to saturate. *)
Definition rfc_update (s : OSSL_STATM) (ack_delay r : Z) : OSSL_STATM :=
  let m := Z.min r (min_rtt s) in
  let a := if m + ack_delay <=? r then r - ack_delay else r in
  mkStatm ((7 * smoothed_rtt s + a) / 8) r m
    ((3 * rtt_variance s + Z.abs (smoothed_rtt s - a)) / 4) true.

Lemma update_rfc s d o :
  have_first_sample s = true -> is_u64 d ->
  let r := if o =? 0 then latest_rtt s else o in
  small r -> small (smoothed_rtt s) -> small (rtt_variance s) -> small (min_rtt s) ->
  ossl_statm_update_rtt s d o = rfc_update s d r.
Proof.
  intros Hf Hd r Hr Hs Hv Hm. unfold ossl_statm_update_rtt, rfc_update.
  rewrite Hf, time_is_zero_spec. fold r. simpl. rewrite !time_compare_spec.
  replace (if Z.sgn (r - min_rtt s) <? 0 then r else min_rtt s) with (Z.min r (min_rtt s))
    by (zcase; lia).
  set (m := Z.min r (min_rtt s)). assert (small m) by (unfold m, small in *; lia).
  rewrite (time_add_spec m d) by auto using small_u64.
  assert (Ha : (if 0 <=? Z.sgn (r - Z.min (m + d) UINT64_MAX) then ossl_time_subtract r d else r)
               = (if m + d <=? r then r - d else r)).
  { rewrite time_subtract_spec by (auto using small_u64). unfold small, is_u64 in *.
    destruct (Z.leb_spec (m + d) r), (Z.leb_spec 0 (Z.sgn (r - Z.min (m + d) UINT64_MAX))); lia. }
  rewrite Ha. set (a := if m + d <=? r then r - d else r).
  assert (small a) by (unfold a, small, is_u64 in *; zcase; lia).
  rewrite !time_divide_spec by lia.
  rewrite !time_multiply_spec by (auto using small_u64; unfold is_u64; lia).
  rewrite time_abs_difference_spec by (auto using small_u64).
  unfold small in *.
  rewrite !(Z.min_l _ UINT64_MAX) by lia.
  rewrite !time_add_spec by (unfold is_u64; lia).
  rewrite !(Z.min_l _ UINT64_MAX) by lia.
  do 3 f_equal; lia.
Qed.

(** The estimates lie in the range [lo, hi] of the samples seen so far. *)
Definition within (lo hi : Z) (s : OSSL_STATM) : Prop :=
  have_first_sample s = true /\ min_rtt s = lo /\
  lo <= smoothed_rtt s <= hi /\ lo <= latest_rtt s <= hi /\ 0 <= rtt_variance s <= hi.

Lemma div_bounds x k lo hi : 0 < k -> k * lo <= x -> x <= k * hi -> lo <= x / k <= hi.
Proof.
  intros. split; [apply Z.div_le_lower_bound; lia|apply Z.div_le_upper_bound; lia].
Qed.

Lemma update_within lo hi s d o :
  within lo hi s -> is_u64 d -> 0 <= lo -> hi < 2 ^ 61 ->
  let r := if o =? 0 then latest_rtt s else o in
  small r ->
  within (Z.min lo r) (Z.max hi r) (ossl_statm_update_rtt s d o) /\
  latest_rtt (ossl_statm_update_rtt s d o) = r.
Proof.
  intros (Hf & Hm & Hs & Hl & Hv) Hd Hlo Hhi r Hr.
  rewrite update_rfc by (unfold small in *; fold r; lia || done). fold r.
  unfold rfc_update, within. simpl. rewrite Hm. unfold small, is_u64 in *.
  set (a := if _ <=? _ then _ else _).
  assert (Z.min lo r <= a <= r) by (unfold a; zcase; lia).
  pose proof (div_bounds (7 * smoothed_rtt s + a) 8 (Z.min lo r) (Z.max hi r)).
  pose proof (div_bounds (3 * rtt_variance s + Z.abs (smoothed_rtt s - a)) 4 0 (Z.max hi r)).
  split_and!; done || lia.
Qed.

(** Smallest and largest of a non-empty list. *)
Definition zmin (x : Z) (l : list Z) : Z := foldl Z.min x l.
Definition zmax (x : Z) (l : list Z) : Z := foldl Z.max x l.

Lemma updates_within us : forall lo hi s,
  within lo hi s -> 0 <= lo -> hi < 2 ^ 61 ->
  Forall (fun u => is_u64 u.1 /\ small u.2) us ->
  within (zmin lo (samples (latest_rtt s) us)) (zmax hi (samples (latest_rtt s) us)) (updates s us) /\
  Some (latest_rtt (updates s us)) = last (latest_rtt s :: samples (latest_rtt s) us).
Proof.
  induction us as [|[d o] us IH]; intros lo hi s Hw Hlo Hhi Hus; [done|].
  apply Forall_cons in Hus as [[Hd Ho] Hus]. simpl in Hd, Ho.
  set (r := if o =? 0 then latest_rtt s else o).
  assert (Hr : small r).
  { unfold r, small in *. destruct Hw as (_ & _ & _ & Hl & _). zcase; lia. }
  destruct (update_within lo hi s d o Hw Hd Hlo Hhi Hr) as [Hw' Hl'].
  fold r in Hw', Hl'.
  destruct (IH _ _ _ Hw') as [IH1 IH2]; [unfold small in *; lia..|done|].
  simpl. fold r. rewrite Hl' in IH1, IH2. split; [exact IH1|].
  exact IH2.
Qed.

(** ** Properties *)

(** After any non-empty sequence of updates with round-trip times below
    73 years, the minimum is exactly the smallest sample and the latest value
    exactly the last one; the smoothed estimate lies between the smallest and
    the largest sample whatever ack delays the peer reports, and the variance
    never exceeds the largest sample. *)
Theorem statm_estimates_bounded d o us :
  Forall (fun u => is_u64 u.1 /\ small u.2) ((d, o) :: us) ->
  let s := updates ossl_statm_init ((d, o) :: us) in
  let rtts := samples o us in
  have_first_sample s = true /\
  min_rtt s = zmin o rtts /\ Some (latest_rtt s) = last (o :: rtts) /\
  zmin o rtts <= smoothed_rtt s <= zmax o rtts /\ 0 <= rtt_variance s <= zmax o rtts.
Proof.
  intros [[Hd Ho] Hus]%Forall_cons. simpl in Hd, Ho.
  assert (Hfirst : ossl_statm_update_rtt ossl_statm_init d o = mkStatm o o o (o / 2) true).
  { unfold ossl_statm_update_rtt. simpl. rewrite time_is_zero_spec, time_divide_spec by lia.
    destruct (Z.eqb_spec o 0) as [->|]; reflexivity. }
  cbn [updates foldl fst snd]. rewrite Hfirst.
  pose proof (div_bounds o 2 0 o).
  destruct (updates_within us o o (mkStatm o o o (o / 2) true)) as [(W1 & W2 & W3 & _ & W4) Hl];
    [|unfold small in *; lia..|done|].
  { unfold within, small in *. simpl. split_and!; done || lia. }
  exact (conj W1 (conj W2 (conj Hl (conj W3 W4)))).
Qed.

Lemma statm_estimates_bounded_witness :
  let s := updates ossl_statm_init [(0, 100); (20, 180); (500, 60)] in
  min_rtt s = 60 /\ 60 <= smoothed_rtt s <= 180.
Proof.
  destruct (statm_estimates_bounded 0 100 [(20, 180); (500, 60)]) as (_ & H1 & _ & H2 & _).
  { rewrite !Forall_cons. unfold is_u64, small. simpl. split_and!; lia || constructor. }
  split; [exact H1|exact H2].
Defined.

Lemma steady_step r v :
  small r -> small v ->
  ossl_statm_update_rtt (mkStatm r r r v true) 0 r = mkStatm r r r (3 * v / 4) true.
Proof.
  intros Hr Hv.
  rewrite update_rfc; simpl; [|done|unfold is_u64; lia|by zcase|done..].
  replace (if r =? 0 then r else r) with r by (by zcase).
  unfold rfc_update. simpl. rewrite Z.min_id, Z.add_0_r, Z.leb_refl, Z.sub_0_r, Z.sub_diag.
  f_equal; [|f_equal; simpl; lia].
  symmetry. apply (Z.div_unique _ _ _ 0); lia.
Qed.

Lemma steady_run n : forall r v, small r -> small v ->
  exists v', updates (mkStatm r r r v true) (replicate n (0, r)) = mkStatm r r r v' true /\
    0 <= v' /\ 4 ^ Z.of_nat n * v' <= 3 ^ Z.of_nat n * v.
Proof.
  induction n as [|n IH]; intros r v Hr Hv.
  { exists v. unfold small in *. split_and!; [done|lia..]. }
  assert (H4 : 0 <= 3 * v / 4 /\ 4 * (3 * v / 4) <= 3 * v).
  { unfold small in *. split; [apply Z.div_pos; lia|apply Z.mul_div_le; lia]. }
  destruct (IH r (3 * v / 4)) as (v' & Hrun & Hpos & Hle); [done|unfold small in *; lia|].
  exists v'. split_and!; [|done|].
  - cbn [updates replicate foldl fst snd]. rewrite steady_step by done. exact Hrun.
  - rewrite Nat2Z.inj_succ, !Z.pow_succ_r by lia.
    pose proof (Z.pow_pos_nonneg 3 (Z.of_nat n)). nia.
Qed.

(** On a path whose round-trip time is constant and which delays no
    acknowledgement, the estimator locks on to that time at once and the
    variance decays geometrically, by a factor 3/4 for every update. *)
Theorem statm_converges r n :
  small r -> r <> 0 ->
  let s := updates ossl_statm_init ((0, r) :: replicate n (0, r)) in
  smoothed_rtt s = r /\ min_rtt s = r /\ latest_rtt s = r /\
  0 <= rtt_variance s /\ 4 ^ Z.of_nat n * rtt_variance s <= 3 ^ Z.of_nat n * r.
Proof.
  intros Hr Hr0. cbn [updates foldl fst snd].
  assert (Hfirst : ossl_statm_update_rtt ossl_statm_init 0 r = mkStatm r r r (r / 2) true).
  { unfold ossl_statm_update_rtt. simpl. rewrite time_is_zero_spec, time_divide_spec by lia.
    destruct (Z.eqb_spec r 0); [lia|reflexivity]. }
  rewrite Hfirst. assert (0 <= r / 2 <= r) by (apply div_bounds; unfold small in *; lia).
  destruct (steady_run n r (r / 2)) as (v' & Hrun & Hpos & Hle); [done|unfold small in *; lia|].
  unfold updates in Hrun. rewrite Hrun. cbv zeta. simpl.
  pose proof (Z.pow_pos_nonneg 3 (Z.of_nat n)). split_and!; done || nia.
Qed.

Lemma statm_converges_witness :
  rtt_variance (updates ossl_statm_init ((0, 100) :: replicate 20 (0, 100))) = 0 /\
  smoothed_rtt (updates ossl_statm_init ((0, 100) :: replicate 20 (0, 100))) = 100.
Proof.
  split; [vm_compute; reflexivity|].
  apply (statm_converges 100 20); unfold small; lia.
Defined.

End Statm.
