(* ===== verification/NewReno.v ===== *)
(** * The NewReno congestion controller

    Model of [ssl/quic/cc_newreno.c].  The controller's state is a record with
    the source's fields; the locations bound with [bind_diagnostic] are
    pointers into a memory of unsigned cells, and the readings of the [now]
    callback are a [clock].  [OSSL_PARAM_get_size_t] belongs to
    [crypto/params.c] and is an argument of [newreno_set_input_params]. *)
From Stdlib Require Import ZArith Lia String.
From stdpp Require Import base tactics list gmap option strings.
From S2P Require Import Prelude SafeMath OsslTime.
Import OsslTime.
#[local] Open Scope Z_scope.

Module NewReno.

(** The diagnostic output locations, null when not bound. *)
Record diag_ptrs := mkDiag {
  p_diag_max_dgram_payload_len : option nat; p_diag_cur_cwnd_size : option nat;
  p_diag_min_cwnd_size : option nat; p_diag_cur_bytes_in_flight : option nat;
  p_diag_cur_state : option nat
}.

Record OSSL_CC_NEWRENO := mkNewReno {
  k_init_wnd : Z; k_min_wnd : Z;
  k_loss_reduction_factor_num : Z; k_loss_reduction_factor_den : Z; persistent_cong_thresh : Z;
  max_dgram_size : Z;
  bytes_in_flight : Z; cong_wnd : Z; slow_start_thresh : Z; bytes_acked : Z;
  cong_recovery_start_time : OSSL_TIME;
  processing_loss : bool; tx_time_of_last_loss : OSSL_TIME;
  in_congestion_recovery : bool;
  diag : diag_ptrs
}.

(** Field assignments. *)
Definition set_max_dgram_size (v : Z) (n : OSSL_CC_NEWRENO) : OSSL_CC_NEWRENO :=
  mkNewReno (k_init_wnd n) (k_min_wnd n) (k_loss_reduction_factor_num n)
    (k_loss_reduction_factor_den n) (persistent_cong_thresh n) v (bytes_in_flight n)
    (cong_wnd n) (slow_start_thresh n) (bytes_acked n) (cong_recovery_start_time n)
    (processing_loss n) (tx_time_of_last_loss n) (in_congestion_recovery n) (diag n).
Definition set_bytes_in_flight (v : Z) (n : OSSL_CC_NEWRENO) : OSSL_CC_NEWRENO :=
  mkNewReno (k_init_wnd n) (k_min_wnd n) (k_loss_reduction_factor_num n)
    (k_loss_reduction_factor_den n) (persistent_cong_thresh n) (max_dgram_size n) v (cong_wnd n)
    (slow_start_thresh n) (bytes_acked n) (cong_recovery_start_time n) (processing_loss n)
    (tx_time_of_last_loss n) (in_congestion_recovery n) (diag n).
Definition set_cong_wnd (v : Z) (n : OSSL_CC_NEWRENO) : OSSL_CC_NEWRENO :=
  mkNewReno (k_init_wnd n) (k_min_wnd n) (k_loss_reduction_factor_num n)
    (k_loss_reduction_factor_den n) (persistent_cong_thresh n) (max_dgram_size n)
    (bytes_in_flight n) v (slow_start_thresh n) (bytes_acked n) (cong_recovery_start_time n)
    (processing_loss n) (tx_time_of_last_loss n) (in_congestion_recovery n) (diag n).
Definition set_slow_start_thresh (v : Z) (n : OSSL_CC_NEWRENO) : OSSL_CC_NEWRENO :=
  mkNewReno (k_init_wnd n) (k_min_wnd n) (k_loss_reduction_factor_num n)
    (k_loss_reduction_factor_den n) (persistent_cong_thresh n) (max_dgram_size n)
    (bytes_in_flight n) (cong_wnd n) v (bytes_acked n) (cong_recovery_start_time n)
    (processing_loss n) (tx_time_of_last_loss n) (in_congestion_recovery n) (diag n).
Definition set_bytes_acked (v : Z) (n : OSSL_CC_NEWRENO) : OSSL_CC_NEWRENO :=
  mkNewReno (k_init_wnd n) (k_min_wnd n) (k_loss_reduction_factor_num n)
    (k_loss_reduction_factor_den n) (persistent_cong_thresh n) (max_dgram_size n)
    (bytes_in_flight n) (cong_wnd n) (slow_start_thresh n) v (cong_recovery_start_time n)
    (processing_loss n) (tx_time_of_last_loss n) (in_congestion_recovery n) (diag n).
Definition set_cong_recovery_start_time (v : Z) (n : OSSL_CC_NEWRENO) : OSSL_CC_NEWRENO :=
  mkNewReno (k_init_wnd n) (k_min_wnd n) (k_loss_reduction_factor_num n)
    (k_loss_reduction_factor_den n) (persistent_cong_thresh n) (max_dgram_size n)
    (bytes_in_flight n) (cong_wnd n) (slow_start_thresh n) (bytes_acked n) v (processing_loss n)
    (tx_time_of_last_loss n) (in_congestion_recovery n) (diag n).
Definition set_processing_loss (v : bool) (n : OSSL_CC_NEWRENO) : OSSL_CC_NEWRENO :=
  mkNewReno (k_init_wnd n) (k_min_wnd n) (k_loss_reduction_factor_num n)
    (k_loss_reduction_factor_den n) (persistent_cong_thresh n) (max_dgram_size n)
    (bytes_in_flight n) (cong_wnd n) (slow_start_thresh n) (bytes_acked n)
    (cong_recovery_start_time n) v (tx_time_of_last_loss n) (in_congestion_recovery n) (diag n).
Definition set_tx_time_of_last_loss (v : Z) (n : OSSL_CC_NEWRENO) : OSSL_CC_NEWRENO :=
  mkNewReno (k_init_wnd n) (k_min_wnd n) (k_loss_reduction_factor_num n)
    (k_loss_reduction_factor_den n) (persistent_cong_thresh n) (max_dgram_size n)
    (bytes_in_flight n) (cong_wnd n) (slow_start_thresh n) (bytes_acked n)
    (cong_recovery_start_time n) (processing_loss n) v (in_congestion_recovery n) (diag n).
Definition set_in_congestion_recovery (v : bool) (n : OSSL_CC_NEWRENO) : OSSL_CC_NEWRENO :=
  mkNewReno (k_init_wnd n) (k_min_wnd n) (k_loss_reduction_factor_num n)
    (k_loss_reduction_factor_den n) (persistent_cong_thresh n) (max_dgram_size n)
    (bytes_in_flight n) (cong_wnd n) (slow_start_thresh n) (bytes_acked n)
    (cong_recovery_start_time n) (processing_loss n) (tx_time_of_last_loss n) v (diag n).
Definition set_diag (v : diag_ptrs) (n : OSSL_CC_NEWRENO) : OSSL_CC_NEWRENO :=
  mkNewReno (k_init_wnd n) (k_min_wnd n) (k_loss_reduction_factor_num n)
    (k_loss_reduction_factor_den n) (persistent_cong_thresh n) (max_dgram_size n)
    (bytes_in_flight n) (cong_wnd n) (slow_start_thresh n) (bytes_acked n)
    (cong_recovery_start_time n) (processing_loss n) (tx_time_of_last_loss n)
    (in_congestion_recovery n) v.
(** The controller with what it reads and writes outside itself. *)
Record cc_state := mkCc { nr : OSSL_CC_NEWRENO; mem : gmap nat Z; now_cb : clock }.

Definition MIN_MAX_INIT_WND_SIZE : Z := 14720.
Definition QUIC_MIN_INITIAL_DGRAM_LEN : Z := 1200.
Definition OSSL_CC_LOST_FLAG_PERSISTENT_CONGESTION : Z := 1.

(** [*p = v] when [p] is not null. *)
Definition store_diag (p : option nat) (v : Z) (m : gmap nat Z) : gmap nat Z :=
  match p with None => m | Some a => <[a := v]> m end.

(** The characters ['R'], ['S'] and ['A']. *)
Definition diag_state (n : OSSL_CC_NEWRENO) : Z :=
  if in_congestion_recovery n then 82
  else if cong_wnd n <? slow_start_thresh n then 83 else 65.

Definition newreno_update_diag (s : cc_state) : cc_state :=
  let n := nr s in
  let m := store_diag (p_diag_max_dgram_payload_len (diag n)) (max_dgram_size n) (mem s) in
  let m := store_diag (p_diag_cur_cwnd_size (diag n)) (cong_wnd n) m in
  let m := store_diag (p_diag_min_cwnd_size (diag n)) (k_min_wnd n) m in
  let m := store_diag (p_diag_cur_bytes_in_flight (diag n)) (bytes_in_flight n) m in
  let m := store_diag (p_diag_cur_state (diag n)) (diag_state n) m in
  mkCc n m (now_cb s).

Definition newreno_set_max_dgram_size (s : cc_state) (size : Z) : cc_state :=
  let n := nr s in
  let is_reduced := size <? max_dgram_size n in
  let max_init_wnd := u64 (2 * size) in
  let max_init_wnd := if max_init_wnd <? MIN_MAX_INIT_WND_SIZE then MIN_MAX_INIT_WND_SIZE
                      else max_init_wnd in
  let k_init := u64 (10 * size) in
  let k_init := if max_init_wnd <? k_init then max_init_wnd else k_init in
  let n' := mkNewReno k_init (u64 (2 * size)) (k_loss_reduction_factor_num n)
              (k_loss_reduction_factor_den n) (persistent_cong_thresh n) size
              (bytes_in_flight n) (if is_reduced then k_init else cong_wnd n)
              (slow_start_thresh n) (bytes_acked n) (cong_recovery_start_time n)
              (processing_loss n) (tx_time_of_last_loss n) (in_congestion_recovery n) (diag n) in
  newreno_update_diag (mkCc n' (mem s) (now_cb s)).

Definition newreno_reset (n : OSSL_CC_NEWRENO) : OSSL_CC_NEWRENO :=
  mkNewReno (k_init_wnd n) (k_min_wnd n) 1 2 3 (max_dgram_size n)
    0 (k_init_wnd n) UINT64_MAX 0 ossl_time_zero false ossl_time_zero false (diag n).

(** A zeroed allocation; [alloc] says whether it succeeds. *)
Definition zalloc_newreno : OSSL_CC_NEWRENO :=
  mkNewReno 0 0 0 0 0 0 0 0 0 0 0 false 0 false (mkDiag None None None None None).

Definition newreno_new (alloc : bool) (m : gmap nat Z) (ck : clock) : option cc_state :=
  if negb alloc then None
  else
    let s := newreno_set_max_dgram_size (mkCc zalloc_newreno m ck) QUIC_MIN_INITIAL_DGRAM_LEN in
    Some (mkCc (newreno_reset (nr s)) (mem s) (now_cb s)).

(** ** Parameters *)

Definition OSSL_PARAM_UNSIGNED_INTEGER : Z := 2.

Record OSSL_PARAM := mkParam {
  key : string; data_type : Z; data : option nat; data_size : Z
}.

(** An array of parameters ends at the first null key; here, with the list. *)
Definition OSSL_PARAM_locate_const (params : list OSSL_PARAM) (k : string) : option OSSL_PARAM :=
  List.find (fun p => String.eqb k (key p)) params.

Definition OSSL_CC_OPTION_MAX_DGRAM_PAYLOAD_LEN : string := "max_dgram_payload_len".
Definition OSSL_CC_OPTION_CUR_CWND_SIZE : string := "cur_cwnd_size".
Definition OSSL_CC_OPTION_MIN_CWND_SIZE : string := "min_cwnd_size".
Definition OSSL_CC_OPTION_CUR_BYTES_IN_FLIGHT : string := "bytes_in_flight".
Definition OSSL_CC_OPTION_CUR_STATE : string := "cur_state".

Definition newreno_set_input_params (OSSL_PARAM_get_size_t : OSSL_PARAM -> option Z)
    (s : cc_state) (params : list OSSL_PARAM) : bool * cc_state :=
  match OSSL_PARAM_locate_const params OSSL_CC_OPTION_MAX_DGRAM_PAYLOAD_LEN with
  | Some p =>
      match OSSL_PARAM_get_size_t p with
      | None => (false, s)
      | Some value =>
          if value <? QUIC_MIN_INITIAL_DGRAM_LEN then (false, s)
          else (true, newreno_set_max_dgram_size s value)
      end
  | None => (true, s)
  end.

(** [None] is failure; [Some p] leaves [p] in [*pp]. *)
Definition bind_diag (params : list OSSL_PARAM) (param_name : string) (len : Z)
    : option (option nat) :=
  match OSSL_PARAM_locate_const params param_name with
  | None => Some None
  | Some p =>
      if negb (data_type p =? OSSL_PARAM_UNSIGNED_INTEGER) || negb (data_size p =? len)
      then None else Some (data p)
  end.

(** [if (new_p != NULL) p = new_p]. *)
Definition rebind (new_p p : option nat) : option nat :=
  if is_null new_p then p else new_p.

Definition newreno_bind_diagnostic (s : cc_state) (params : list OSSL_PARAM) : bool * cc_state :=
  match
    d1 ← bind_diag params OSSL_CC_OPTION_MAX_DGRAM_PAYLOAD_LEN 8;
    d2 ← bind_diag params OSSL_CC_OPTION_CUR_CWND_SIZE 8;
    d3 ← bind_diag params OSSL_CC_OPTION_MIN_CWND_SIZE 8;
    d4 ← bind_diag params OSSL_CC_OPTION_CUR_BYTES_IN_FLIGHT 8;
    d5 ← bind_diag params OSSL_CC_OPTION_CUR_STATE 4;
    Some (mkDiag d1 d2 d3 d4 d5)
  with
  | None => (false, s)
  | Some d =>
      let o := diag (nr s) in
      let d' := mkDiag
        (rebind (p_diag_max_dgram_payload_len d) (p_diag_max_dgram_payload_len o))
        (rebind (p_diag_cur_cwnd_size d) (p_diag_cur_cwnd_size o))
        (rebind (p_diag_min_cwnd_size d) (p_diag_min_cwnd_size o))
        (rebind (p_diag_cur_bytes_in_flight d) (p_diag_cur_bytes_in_flight o))
        (rebind (p_diag_cur_state d) (p_diag_cur_state o)) in
      (true, newreno_update_diag (mkCc (set_diag d' (nr s)) (mem s) (now_cb s)))
  end.

Definition unbind_diag (params : list OSSL_PARAM) (param_name : string) (pp : option nat)
    : option nat :=
  match OSSL_PARAM_locate_const params param_name with Some _ => None | None => pp end.

Definition newreno_unbind_diagnostic (s : cc_state) (params : list OSSL_PARAM) : bool * cc_state :=
  let o := diag (nr s) in
  let d' := mkDiag
    (unbind_diag params OSSL_CC_OPTION_MAX_DGRAM_PAYLOAD_LEN (p_diag_max_dgram_payload_len o))
    (unbind_diag params OSSL_CC_OPTION_CUR_CWND_SIZE (p_diag_cur_cwnd_size o))
    (unbind_diag params OSSL_CC_OPTION_MIN_CWND_SIZE (p_diag_min_cwnd_size o))
    (unbind_diag params OSSL_CC_OPTION_CUR_BYTES_IN_FLIGHT (p_diag_cur_bytes_in_flight o))
    (unbind_diag params OSSL_CC_OPTION_CUR_STATE (p_diag_cur_state o)) in
  (true, mkCc (set_diag d' (nr s)) (mem s) (now_cb s)).

(** ** Congestion events *)

Definition newreno_in_cong_recovery (n : OSSL_CC_NEWRENO) (tx_time : OSSL_TIME) : bool :=
  ossl_time_compare tx_time (cong_recovery_start_time n) <=? 0.

Definition newreno_cong (s : cc_state) (tx_time : OSSL_TIME) : cc_state :=
  if newreno_in_cong_recovery (nr s) tx_time then s
  else
    let '(now, ck) := read_clock (now_cb s) in
    let n := set_cong_recovery_start_time now (set_in_congestion_recovery true (nr s)) in
    let '(thresh, err) := SafeMath.safe_muldiv 64 (cong_wnd n) (k_loss_reduction_factor_num n)
                            (k_loss_reduction_factor_den n) in
    let thresh := if (err : bool) then UINT64_MAX else thresh in
    let n := set_cong_wnd thresh (set_slow_start_thresh thresh n) in
    let n := if cong_wnd n <? k_min_wnd n then set_cong_wnd (k_min_wnd n) n else n in
    mkCc n (mem s) ck.

Definition newreno_flush (s : cc_state) (flags : Z) : cc_state :=
  if negb (processing_loss (nr s)) then s
  else
    let s := newreno_cong s (tx_time_of_last_loss (nr s)) in
    let n := if negb (Z.land flags OSSL_CC_LOST_FLAG_PERSISTENT_CONGESTION =? 0)
             then set_cong_recovery_start_time ossl_time_zero
                    (set_cong_wnd (k_min_wnd (nr s)) (nr s))
             else nr s in
    newreno_update_diag (mkCc (set_processing_loss false n) (mem s) (now_cb s)).

Definition newreno_get_tx_allowance (n : OSSL_CC_NEWRENO) : Z :=
  if cong_wnd n <=? bytes_in_flight n then 0 else u64 (cong_wnd n - bytes_in_flight n).

Definition newreno_get_wakeup_deadline (n : OSSL_CC_NEWRENO) : OSSL_TIME :=
  if 0 <? newreno_get_tx_allowance n then ossl_time_zero else ossl_time_infinite.

Definition newreno_on_data_sent (s : cc_state) (num_bytes : Z) : bool * cc_state :=
  let n := set_bytes_in_flight (u64 (bytes_in_flight (nr s) + num_bytes)) (nr s) in
  (true, newreno_update_diag (mkCc n (mem s) (now_cb s))).

Definition newreno_is_cong_limited (n : OSSL_CC_NEWRENO) : bool :=
  if cong_wnd n <=? bytes_in_flight n then true
  else
    let wnd_rem := u64 (cong_wnd n - bytes_in_flight n) in
    ((cong_wnd n <? slow_start_thresh n) && (wnd_rem <=? cong_wnd n / 2))
    || (wnd_rem <=? u64 (3 * max_dgram_size n)).

Record OSSL_CC_ACK_INFO := mkAckInfo { ack_tx_time : OSSL_TIME; ack_tx_size : Z }.
Record OSSL_CC_LOSS_INFO := mkLossInfo { loss_tx_time : OSSL_TIME; loss_tx_size : Z }.
Record OSSL_CC_ECN_INFO := mkEcnInfo { largest_acked_time : OSSL_TIME }.

Definition newreno_on_data_acked (s : cc_state) (info : OSSL_CC_ACK_INFO) : bool * cc_state :=
  let n := set_bytes_in_flight (u64 (bytes_in_flight (nr s) - ack_tx_size info)) (nr s) in
  let out n := (true, newreno_update_diag (mkCc n (mem s) (now_cb s))) in
  if negb (newreno_is_cong_limited n) then out n
  else if newreno_in_cong_recovery n (ack_tx_time info) then out n
  else if cong_wnd n <? slow_start_thresh n then
    out (set_in_congestion_recovery false
           (set_cong_wnd (u64 (cong_wnd n + ack_tx_size info)) n))
  else
    let n := set_bytes_acked (u64 (bytes_acked n + ack_tx_size info)) n in
    let n := if cong_wnd n <=? bytes_acked n
             then set_cong_wnd (u64 (cong_wnd n + max_dgram_size n))
                    (set_bytes_acked (u64 (bytes_acked n - cong_wnd n)) n)
             else n in
    out (set_in_congestion_recovery false n).

Definition newreno_on_data_lost (s : cc_state) (info : OSSL_CC_LOSS_INFO) : bool * cc_state :=
  if bytes_in_flight (nr s) <? loss_tx_size info then (false, s)
  else
    let n := set_bytes_in_flight (u64 (bytes_in_flight (nr s) - loss_tx_size info)) (nr s) in
    let out n := (true, newreno_update_diag (mkCc n (mem s) (now_cb s))) in
    let finish n :=
      out (set_tx_time_of_last_loss
             (ossl_time_max (tx_time_of_last_loss n) (loss_tx_time info)) n) in
    if negb (processing_loss n) then
      if ossl_time_compare (loss_tx_time info) (tx_time_of_last_loss n) <=? 0 then out n
      else finish (set_bytes_acked 0 (set_processing_loss true n))
    else finish n.

Definition newreno_on_data_lost_finished (s : cc_state) (flags : Z) : bool * cc_state :=
  (true, newreno_flush s flags).

Definition newreno_on_data_invalidated (s : cc_state) (num_bytes : Z) : bool * cc_state :=
  let n := set_bytes_in_flight (u64 (bytes_in_flight (nr s) - num_bytes)) (nr s) in
  (true, newreno_update_diag (mkCc n (mem s) (now_cb s))).

Definition newreno_on_ecn (s : cc_state) (info : OSSL_CC_ECN_INFO) : bool * cc_state :=
  let n := set_tx_time_of_last_loss (largest_acked_time info)
             (set_bytes_acked 0 (set_processing_loss true (nr s))) in
  (true, newreno_flush (mkCc n (mem s) (now_cb s)) 0).

(** ** The life of a connection

    [cc_step] relates states across any call of the controller's methods.  The
    second component is the specification's view of the packets in flight: the
    sizes of those sent and not yet acknowledged, lost or invalidated.  The
    side conditions say what the callers guarantee: a packet leaves the set
    once, and the byte counts stay below 2^64. *)
Definition zsum (l : list Z) : Z := foldr Z.add 0 l.

Definition step_size (n : OSSL_CC_NEWRENO) (sz : Z) : Z := Z.max sz (max_dgram_size n).

Inductive cc_step : cc_state * list Z -> cc_state * list Z -> Prop :=
  | step_sent s out sz :
      0 <= sz -> zsum out + sz < UINT64_MOD ->
      cc_step (s, out) (snd (newreno_on_data_sent s sz), sz :: out)
  | step_acked s out l1 sz l2 t :
      out = l1 ++ sz :: l2 -> cong_wnd (nr s) + step_size (nr s) sz < UINT64_MOD ->
      cc_step (s, out) (snd (newreno_on_data_acked s (mkAckInfo t sz)), l1 ++ l2)
  | step_lost s out l1 sz l2 t :
      out = l1 ++ sz :: l2 ->
      cc_step (s, out) (snd (newreno_on_data_lost s (mkLossInfo t sz)), l1 ++ l2)
  | step_lost_finished s out flags :
      cc_step (s, out) (snd (newreno_on_data_lost_finished s flags), out)
  | step_invalidated s out l1 sz l2 :
      out = l1 ++ sz :: l2 ->
      cc_step (s, out) (snd (newreno_on_data_invalidated s sz), l1 ++ l2)
  | step_ecn s out t :
      cc_step (s, out) (snd (newreno_on_ecn s (mkEcnInfo t)), out)
  | step_params s out get params :
      (forall p v, get p = Some v -> 0 <= v < 2 ^ 60) ->
      cc_step (s, out) (snd (newreno_set_input_params get s params), out)
  | step_bind s out params : cc_step (s, out) (snd (newreno_bind_diagnostic s params), out)
  | step_unbind s out params : cc_step (s, out) (snd (newreno_unbind_diagnostic s params), out)
  | step_reset s out :
      cc_step (s, out) (mkCc (newreno_reset (nr s)) (mem s) (now_cb s), []).

Inductive cc_reachable : cc_state -> list Z -> Prop :=
  | reach_new m ck s : newreno_new true m ck = Some s -> cc_reachable s []
  | reach_step s out s' out' :
      cc_reachable s out -> cc_step (s, out) (s', out') -> cc_reachable s' out'.

Record cc_inv (n : OSSL_CC_NEWRENO) (out : list Z) : Prop := {
  inv_flight : bytes_in_flight n = zsum out;
  inv_out : Forall (fun z => 0 <= z) out;
  inv_sum : zsum out < UINT64_MOD;
  inv_num : k_loss_reduction_factor_num n = 1;
  inv_den : k_loss_reduction_factor_den n = 2;
  inv_dgram : QUIC_MIN_INITIAL_DGRAM_LEN <= max_dgram_size n < 2 ^ 60;
  inv_min : k_min_wnd n = 2 * max_dgram_size n;
  inv_init : k_min_wnd n <= k_init_wnd n < UINT64_MOD;
  inv_wnd : 2 * QUIC_MIN_INITIAL_DGRAM_LEN <= cong_wnd n < UINT64_MOD
}.

(** ** Lemmas *)

Lemma zsum_app l1 l2 : zsum (l1 ++ l2) = zsum l1 + zsum l2.
Proof. induction l1; simpl; lia. Qed.

Lemma zsum_nonneg l : Forall (fun z => 0 <= z) l -> 0 <= zsum l.
Proof. induction 1; simpl; lia. Qed.

(** Taking a packet out of the set. *)
Lemma take_packet l1 sz l2 :
  Forall (fun z => 0 <= z) (l1 ++ sz :: l2) ->
  Forall (fun z => 0 <= z) (l1 ++ l2) /\ 0 <= sz /\ 0 <= zsum (l1 ++ l2) /\
  zsum (l1 ++ sz :: l2) = sz + zsum (l1 ++ l2).
Proof.
  rewrite Forall_app, Forall_cons. intros (H1 & Hz & H2).
  assert (Forall (fun z => 0 <= z) (l1 ++ l2)) by (by apply Forall_app).
  split_and!; [done..|by apply zsum_nonneg|]. rewrite !zsum_app. simpl. lia.
Qed.

Lemma muldiv_half w : is_u64 w -> SafeMath.safe_muldiv 64 w 1 2 = (w / 2, false).
Proof.
  intros Hw. unfold SafeMath.safe_muldiv. cbn [Z.eqb].
  rewrite SafeMath.safe_mul_eq by (try lia; unfold SafeMath.is_uint; rewrite ?modulus_64; done || lia).
  unfold SafeMath.safe_mul_builtin, SafeMath.max. rewrite modulus_64, Z.mul_1_r.
  unfold is_u64 in Hw. destruct (Z.leb_spec w (UINT64_MOD - 1)); [done|lia].
Qed.

Lemma in_recovery_spec n t : newreno_in_cong_recovery n t = (t <=? cong_recovery_start_time n).
Proof.
  unfold newreno_in_cong_recovery. rewrite time_compare_spec.
  destruct (Z.leb_spec t (cong_recovery_start_time n)),
    (Z.leb_spec (Z.sgn (t - cong_recovery_start_time n)) 0); lia.
Qed.

(** What the congestion reaction leaves: everything but the window, the
    threshold and the recovery period. *)
Lemma cong_spec s t :
  k_loss_reduction_factor_num (nr s) = 1 -> k_loss_reduction_factor_den (nr s) = 2 ->
  is_u64 (cong_wnd (nr s)) ->
  let n := nr s in let w := cong_wnd n / 2 in
  nr (newreno_cong s t) =
    if t <=? cong_recovery_start_time n then n
    else mkNewReno (k_init_wnd n) (k_min_wnd n) 1 2 (persistent_cong_thresh n) (max_dgram_size n)
           (bytes_in_flight n) (Z.max w (k_min_wnd n)) w (bytes_acked n)
           (fst (read_clock (now_cb s))) (processing_loss n) (tx_time_of_last_loss n) true (diag n).
Proof.
  intros Hn Hd Hw n w. unfold newreno_cong. rewrite in_recovery_spec. fold n.
  destruct (t <=? _); [done|].
  destruct (read_clock (now_cb s)) as [now ck]. subst n. destruct (nr s). simpl in *. subst.
  unfold set_cong_recovery_start_time, set_in_congestion_recovery. cbn [k_init_wnd k_min_wnd
    k_loss_reduction_factor_num k_loss_reduction_factor_den cong_wnd].
  rewrite muldiv_half by done. fold w. cbn [nr]. cbv beta iota zeta.
  zcase; [rewrite Z.max_r by (simpl in *; lia)|rewrite Z.max_l by (simpl in *; lia)]; reflexivity.
Qed.

Lemma div2_bounds w : 0 <= w -> 0 <= w / 2 <= w.
Proof. intros. split; [apply Z.div_pos; lia|apply Z.div_le_upper_bound; lia]. Qed.

(** Changes that touch neither the packets in flight nor the constants. *)
Lemma cc_inv_frame n n' out :
  cc_inv n out ->
  bytes_in_flight n' = bytes_in_flight n ->
  k_loss_reduction_factor_num n' = k_loss_reduction_factor_num n ->
  k_loss_reduction_factor_den n' = k_loss_reduction_factor_den n ->
  max_dgram_size n' = max_dgram_size n -> k_min_wnd n' = k_min_wnd n ->
  k_init_wnd n' = k_init_wnd n ->
  2 * QUIC_MIN_INITIAL_DGRAM_LEN <= cong_wnd n' < UINT64_MOD ->
  cc_inv n' out.
Proof.
  intros [] E1 E2 E3 E4 E5 E6 Hw. split; rewrite ?E1, ?E2, ?E3, ?E4, ?E5, ?E6; done.
Qed.

(** A change of the packets in flight. *)
Lemma cc_inv_flight n n' out out' :
  cc_inv n out ->
  bytes_in_flight n' = zsum out' -> Forall (fun z => 0 <= z) out' -> zsum out' < UINT64_MOD ->
  k_loss_reduction_factor_num n' = k_loss_reduction_factor_num n ->
  k_loss_reduction_factor_den n' = k_loss_reduction_factor_den n ->
  max_dgram_size n' = max_dgram_size n -> k_min_wnd n' = k_min_wnd n ->
  k_init_wnd n' = k_init_wnd n ->
  2 * QUIC_MIN_INITIAL_DGRAM_LEN <= cong_wnd n' < UINT64_MOD ->
  cc_inv n' out'.
Proof.
  intros [] ? ? ? E1 E2 E3 E4 E5 Hw. split; rewrite ?E1, ?E2, ?E3, ?E4, ?E5; done.
Qed.

Lemma flush_inv s flags out :
  cc_inv (nr s) out -> cc_inv (nr (newreno_flush s flags)) out.
Proof.
  intros Hinv. pose proof Hinv as [_ _ _ Hn Hd Hdg Hmin Hini Hw].
  unfold newreno_flush. destruct (processing_loss (nr s)); simpl; [|done].
  assert (Hc : cc_inv (nr (newreno_cong s (tx_time_of_last_loss (nr s)))) out).
  { rewrite cong_spec by (done || (unfold is_u64, QUIC_MIN_INITIAL_DGRAM_LEN in *; lia)).
    zcase; [done|]. unfold QUIC_MIN_INITIAL_DGRAM_LEN in *.
    pose proof (div2_bounds (cong_wnd (nr s))).
    eapply cc_inv_frame; [exact Hinv|done..|]. simpl. unfold QUIC_MIN_INITIAL_DGRAM_LEN. lia. }
  pose proof Hc as [_ _ _ _ _ Hdg' Hmin' _ Hw'].
  destruct (negb _); eapply cc_inv_frame; try exact Hc; try done.
  simpl. rewrite Hmin'. unfold QUIC_MIN_INITIAL_DGRAM_LEN in *. lia.
Qed.

Lemma set_max_dgram_size_inv s v out :
  cc_inv (nr s) out -> QUIC_MIN_INITIAL_DGRAM_LEN <= v < 2 ^ 60 ->
  cc_inv (nr (newreno_set_max_dgram_size s v)) out.
Proof.
  intros [? ? ? ? ? ? ? ? ?] Hv.
  unfold newreno_set_max_dgram_size, QUIC_MIN_INITIAL_DGRAM_LEN, MIN_MAX_INIT_WND_SIZE in *.
  u64_simpl. split; simpl; try done; unfold QUIC_MIN_INITIAL_DGRAM_LEN in *;
    repeat zcase; lia.
Qed.

Lemma acked_inv s l1 sz l2 t :
  cc_inv (nr s) (l1 ++ sz :: l2) -> cong_wnd (nr s) + step_size (nr s) sz < UINT64_MOD ->
  cc_inv (nr (snd (newreno_on_data_acked s (mkAckInfo t sz)))) (l1 ++ l2).
Proof.
  intros Hinv Hlt. pose proof Hinv as [Hf Ho Hs _ _ Hdg _ _ Hw].
  apply take_packet in Ho as (Ho & Hsz & Hpos & Hsum). rewrite Hsum in *.
  unfold newreno_on_data_acked. cbn [ack_tx_size ack_tx_time].
  assert (Hu : u64 (bytes_in_flight (nr s) - sz) = zsum (l1 ++ l2))
    by (rewrite Hf, u64_id; unfold is_u64; lia).
  rewrite Hu. unfold step_size, QUIC_MIN_INITIAL_DGRAM_LEN in *.
  repeat zcase; simpl;
    (eapply cc_inv_flight; [exact Hinv|done..|lia|done|done|done|done|done|]);
    simpl in *; u64_simpl; unfold QUIC_MIN_INITIAL_DGRAM_LEN; lia.
Qed.

Lemma lost_nr s t sz :
  0 <= sz <= bytes_in_flight (nr s) -> bytes_in_flight (nr s) < UINT64_MOD ->
  exists pl ba, nr (snd (newreno_on_data_lost s (mkLossInfo t sz))) =
    set_processing_loss pl (set_bytes_acked ba (set_tx_time_of_last_loss
      (Z.max (tx_time_of_last_loss (nr s)) t) (set_bytes_in_flight (bytes_in_flight (nr s) - sz) (nr s)))) /\
    pl = processing_loss (nr s) || (tx_time_of_last_loss (nr s) <? t).
Proof.
  intros Hsz Hlt. unfold newreno_on_data_lost. cbn [loss_tx_size loss_tx_time].
  destruct (Z.ltb_spec (bytes_in_flight (nr s)) sz); [lia|].
  u64_simpl. rewrite time_compare_spec. destruct (nr s) eqn:En. simpl in *.
  destruct processing_loss0; simpl.
  - eexists _, _. rewrite time_max_spec. split; [|done]. reflexivity.
  - destruct (Z.leb_spec (Z.sgn (t - tx_time_of_last_loss0)) 0).
    + eexists _, bytes_acked0. split; [|done].
      destruct (Z.ltb_spec tx_time_of_last_loss0 t); [lia|].
      unfold set_tx_time_of_last_loss, set_bytes_in_flight, set_processing_loss,
        set_bytes_acked. simpl. f_equal. lia.
    + eexists _, 0. split; [|done]. destruct (Z.ltb_spec tx_time_of_last_loss0 t); [|lia].
      simpl. rewrite time_max_spec. reflexivity.
Qed.

Lemma cc_step_inv p q :
  cc_step p q -> cc_inv (nr p.1) p.2 -> cc_inv (nr q.1) q.2.
Proof.
  destruct 1 as [s out sz Hsz Hlt|s out l1 sz l2 t -> Hlt|s out l1 sz l2 t ->|s out flags
    |s out l1 sz l2 ->|s out t|s out get params Hget|s out params|s out params|s out];
    intros Hinv; cbn [fst snd] in *; pose proof Hinv as [Hf Ho Hs _ _ _ _ _ Hw].
  - pose proof (zsum_nonneg _ Ho).
    eapply cc_inv_flight; [exact Hinv| |by constructor|simpl; lia|done..].
    simpl. rewrite Hf, u64_id by (unfold is_u64; lia). lia.
  - by apply acked_inv.
  - apply take_packet in Ho as (Ho & Hsz & Hpos & Hsum). rewrite Hsum in *.
    destruct (lost_nr s t sz) as (pl & ba & -> & _); [lia..|].
    eapply cc_inv_flight; [exact Hinv|simpl; lia|done|lia|done..].
  - by apply flush_inv.
  - apply take_packet in Ho as (Ho & Hsz & Hpos & Hsum). rewrite Hsum in *.
    eapply cc_inv_flight; [exact Hinv| |done|lia|done..].
    simpl. rewrite Hf, u64_id by (unfold is_u64; lia). lia.
  - apply flush_inv. eapply cc_inv_frame; [exact Hinv|done..].
  - unfold newreno_set_input_params. destruct (OSSL_PARAM_locate_const _ _) as [p|]; [|done].
    destruct (get p) as [v|] eqn:Ev; [|done]. zcase; [done|].
    apply set_max_dgram_size_inv; [done|]. apply Hget in Ev. lia.
  - unfold newreno_bind_diagnostic. destruct (_ ≫= _) as [d|]; [|done].
    eapply cc_inv_frame; [exact Hinv|done..].
  - eapply cc_inv_frame; [exact Hinv|done..].
  - destruct Hinv as [? ? ? ? ? ? ? Hini ?].
    unfold QUIC_MIN_INITIAL_DGRAM_LEN in *. split; simpl; try done; unfold QUIC_MIN_INITIAL_DGRAM_LEN; lia.
Qed.

Lemma cc_reachable_inv s out : cc_reachable s out -> cc_inv (nr s) out.
Proof.
  induction 1 as [m ck s Hnew|s out s' out' _ IH Hstep].
  - injection Hnew as <-. split; simpl; try done; unfold QUIC_MIN_INITIAL_DGRAM_LEN; simpl; try lia.
  - exact (cc_step_inv _ _ Hstep IH).
Qed.

(** ** Loss bursts *)

Definition lose_all (s : cc_state) (infos : list OSSL_CC_LOSS_INFO) : cc_state :=
  foldl (fun s i => snd (newreno_on_data_lost s i)) s infos.

Definition burst_time (infos : list OSSL_CC_LOSS_INFO) (t0 : Z) : Z :=
  foldl (fun t i => Z.max t (loss_tx_time i)) t0 infos.

Lemma burst_time_ge infos : forall t0, t0 <= burst_time infos t0.
Proof.
  induction infos as [|i infos IH]; intros t0; simpl; [lia|].
  pose proof (IH (Z.max t0 (loss_tx_time i))). lia.
Qed.

(** The fields a burst leaves alone. *)
Definition same_window (n n' : OSSL_CC_NEWRENO) : Prop :=
  cong_wnd n' = cong_wnd n /\ k_min_wnd n' = k_min_wnd n /\
  cong_recovery_start_time n' = cong_recovery_start_time n /\
  k_loss_reduction_factor_num n' = k_loss_reduction_factor_num n /\
  k_loss_reduction_factor_den n' = k_loss_reduction_factor_den n.

Lemma lose_all_spec infos : forall s,
  Forall (fun i => 0 <= loss_tx_size i) infos ->
  zsum (map loss_tx_size infos) <= bytes_in_flight (nr s) < UINT64_MOD ->
  let s' := lose_all s infos in let t0 := tx_time_of_last_loss (nr s) in
  same_window (nr s) (nr s') /\
  bytes_in_flight (nr s') = bytes_in_flight (nr s) - zsum (map loss_tx_size infos) /\
  tx_time_of_last_loss (nr s') = burst_time infos t0 /\
  processing_loss (nr s') = processing_loss (nr s) || (t0 <? burst_time infos t0).
Proof.
  induction infos as [|[t sz] infos IH]; intros s Hall Hsum.
  { simpl. rewrite Z.ltb_irrefl, orb_false_r. unfold same_window. split_and!; done || lia. }
  apply Forall_cons in Hall as [Hsz Hall]. cbn [loss_tx_size] in Hsz.
  cbn [map zsum foldr loss_tx_size] in Hsum. fold (zsum (map loss_tx_size infos)) in Hsum.
  assert (Hr : 0 <= zsum (map loss_tx_size infos)) by (by apply zsum_nonneg, Forall_map).
  destruct (lost_nr s t sz) as (pl & ba & Hnr & Hpl); [lia..|].
  destruct (IH (snd (newreno_on_data_lost s (mkLossInfo t sz)))) as (Hw & Hb & Ht & Hp);
    [done|rewrite Hnr; simpl; lia|].
  cbv zeta. simpl. unfold lose_all in *. rewrite Hnr in *.
  unfold same_window in *. simpl in *. split_and!; try apply Hw; try (done || lia).
  rewrite Hp, Hpl. pose proof (burst_time_ge infos (Z.max (tx_time_of_last_loss (nr s)) t)).
  destruct (processing_loss (nr s)); [done|]. simpl.
  destruct (Z.ltb_spec (tx_time_of_last_loss (nr s)) t),
    (Z.ltb_spec (Z.max (tx_time_of_last_loss (nr s)) t)
       (burst_time infos (Z.max (tx_time_of_last_loss (nr s)) t))),
    (Z.ltb_spec (tx_time_of_last_loss (nr s))
       (burst_time infos (Z.max (tx_time_of_last_loss (nr s)) t))); simpl; done || lia.
Qed.

(** ** Congestion avoidance *)

Definition ack_all (s : cc_state) (infos : list OSSL_CC_ACK_INFO) : cc_state :=
  foldl (fun s i => snd (newreno_on_data_acked s i)) s infos.

Lemma acked_step_avoidance s i :
  slow_start_thresh (nr s) <= cong_wnd (nr s) ->
  0 < cong_wnd (nr s) -> 0 <= max_dgram_size (nr s) -> 0 <= ack_tx_size i -> 0 <= bytes_acked (nr s) ->
  cong_wnd (nr s) + max_dgram_size (nr s) < UINT64_MOD ->
  bytes_acked (nr s) + ack_tx_size i < UINT64_MOD ->
  let n := nr s in let n' := nr (snd (newreno_on_data_acked s i)) in
  slow_start_thresh n' = slow_start_thresh n /\ max_dgram_size n' = max_dgram_size n /\
  0 <= bytes_acked n' /\
  ((cong_wnd n' = cong_wnd n /\ bytes_acked n' <= bytes_acked n + ack_tx_size i) \/
   (cong_wnd n' = cong_wnd n + max_dgram_size n /\
    bytes_acked n' + cong_wnd n = bytes_acked n + ack_tx_size i)).
Proof.
  intros Hss Hpos Hm Hsz Hba Hw Hb. cbv zeta. unfold newreno_on_data_acked.
  repeat zcase; simpl in *; u64_simpl; split_and!; try (done || lia).
Qed.

Lemma ack_all_avoidance infos : forall s w0,
  0 < w0 <= cong_wnd (nr s) -> slow_start_thresh (nr s) <= cong_wnd (nr s) ->
  0 <= max_dgram_size (nr s) -> 0 <= bytes_acked (nr s) ->
  Forall (fun i => 0 <= ack_tx_size i) infos ->
  cong_wnd (nr s) + Z.of_nat (length infos) * max_dgram_size (nr s) < UINT64_MOD ->
  bytes_acked (nr s) + zsum (map ack_tx_size infos) < UINT64_MOD ->
  exists k, 0 <= k /\
    cong_wnd (nr (ack_all s infos)) = cong_wnd (nr s) + k * max_dgram_size (nr s) /\
    k * w0 <= bytes_acked (nr s) + zsum (map ack_tx_size infos).
Proof.
  induction infos as [|i infos IH]; intros s w0 Hw0 Hss Hm Hba Hall Hlt Hb.
  { exists 0. simpl in *. lia. }
  apply Forall_cons in Hall as [Hi Hall]. cbn [length map zsum foldr] in *.
  fold (zsum (map ack_tx_size infos)) in *.
  assert (Hr : 0 <= zsum (map ack_tx_size infos)) by (by apply zsum_nonneg, Forall_map).
  rewrite Nat2Z.inj_succ in Hlt.
  destruct (acked_step_avoidance s i) as (E1 & E2 & E3 & E4); [lia..|nia|lia|].
  destruct (IH (snd (newreno_on_data_acked s i)) w0) as (k & Hk & Hck & Hkw);
    rewrite ?E1, ?E2; try done; try nia.
  rewrite E2 in Hck. cbn [ack_all foldl]. unfold ack_all in Hck.
  destruct E4 as [[F1 F2]|[F1 F2]]; [exists k|exists (k + 1)]; split_and!; try rewrite Hck; lia.
Qed.

(** ** Properties *)

(** In every state a connection can reach, the byte count the controller
    keeps is exactly the total size of the packets in flight, so a loss of any
    of them is accepted; the congestion window is at least two minimum-size
    datagrams; and the allowance is what remains of the window, never
    negative. *)
Theorem newreno_accounting_exact s out :
  cc_reachable s out ->
  bytes_in_flight (nr s) = zsum out /\
  (forall sz t, sz ∈ out -> fst (newreno_on_data_lost s (mkLossInfo t sz)) = true) /\
  2 * QUIC_MIN_INITIAL_DGRAM_LEN <= cong_wnd (nr s) /\
  newreno_get_tx_allowance (nr s) = Z.max 0 (cong_wnd (nr s) - zsum out).
Proof.
  intros H%cc_reachable_inv. destruct H as [Hf Ho Hs _ _ _ _ _ Hw].
  pose proof (zsum_nonneg _ Ho). split_and!; [done| |lia|].
  - intros sz t (l1 & l2 & ->)%list_elem_of_split.
    apply take_packet in Ho as (Ho & Hsz & Hpos & Hsum).
    unfold newreno_on_data_lost. cbn [loss_tx_size loss_tx_time].
    destruct (Z.ltb_spec (bytes_in_flight (nr s)) sz); [lia|]. by repeat zcase.
  - unfold newreno_get_tx_allowance, QUIC_MIN_INITIAL_DGRAM_LEN in *. rewrite Hf.
    zcase; [lia|]. rewrite u64_id by (unfold is_u64; lia). lia.
Qed.

Definition fresh : cc_state := default (mkCc zalloc_newreno ∅ []) (newreno_new true ∅ [50; 90]).

Lemma newreno_accounting_exact_witness :
  let s := snd (newreno_on_data_acked (snd (newreno_on_data_sent
             (snd (newreno_on_data_sent fresh 1000)) 700)) (mkAckInfo 3 1000)) in
  bytes_in_flight (nr s) = 700 /\ newreno_get_tx_allowance (nr s) = 11300.
Proof.
  cbv zeta.
  edestruct (newreno_accounting_exact (snd (newreno_on_data_acked (snd (newreno_on_data_sent
             (snd (newreno_on_data_sent fresh 1000)) 700)) (mkAckInfo 3 1000))) ([700] ++ []))
    as (H1 & _ & _ & H2).
  - eapply reach_step; [|eapply (step_acked _ [700; 1000] [700] 1000 []); done].
    eapply reach_step; [|apply step_sent; done].
    eapply reach_step; [|apply step_sent; done].
    eapply reach_new. reflexivity.
  - split; [exact H1|exact H2].
Defined.

(** A burst of losses reduces the window at most once: reporting any
    number of lost packets and then ending the burst halves the window, down to
    the minimum, exactly when the latest of them was sent after every earlier
    loss and after the current recovery period began, and leaves it alone
    otherwise; the bytes in flight drop by the total size of the packets. *)
Theorem newreno_one_reduction_per_burst s infos :
  let n := nr s in let t := burst_time infos (tx_time_of_last_loss n) in
  let s' := snd (newreno_on_data_lost_finished (lose_all s infos) 0) in
  processing_loss n = false -> is_u64 (cong_wnd n) ->
  k_loss_reduction_factor_num n = 1 -> k_loss_reduction_factor_den n = 2 ->
  Forall (fun i => 0 <= loss_tx_size i) infos ->
  zsum (map loss_tx_size infos) <= bytes_in_flight n < UINT64_MOD ->
  cong_wnd (nr s') =
    (if (tx_time_of_last_loss n <? t) && (cong_recovery_start_time n <? t)
     then Z.max (cong_wnd n / 2) (k_min_wnd n) else cong_wnd n) /\
  bytes_in_flight (nr s') = bytes_in_flight n - zsum (map loss_tx_size infos) /\
  tx_time_of_last_loss (nr s') = t /\ processing_loss (nr s') = false.
Proof.
  intros n t s' Hpl Hw Hnum Hden Hall Hsum. subst n.
  destruct (lose_all_spec infos s Hall Hsum) as ((E1 & E2 & E3 & E4 & E5) & Hb & Ht & Hp).
  fold t in Ht, Hp. rewrite Hpl in Hp. simpl in Hp. subst s'. unfold newreno_on_data_lost_finished, newreno_flush.
  rewrite Hp. destruct (Z.ltb_spec (tx_time_of_last_loss (nr s)) t); simpl; [|by rewrite E1].
  rewrite cong_spec by (rewrite ?E4, ?E5, ?E1; done). rewrite Ht, E3.
  destruct (Z.leb_spec t (cong_recovery_start_time (nr s))),
    (Z.ltb_spec (cong_recovery_start_time (nr s)) t); simpl; try lia; rewrite ?E1, ?E2; done.
Qed.

Lemma newreno_one_reduction_per_burst_witness :
  let s := snd (newreno_on_data_sent fresh 5000) in
  let s' := snd (newreno_on_data_lost_finished
                   (lose_all s [mkLossInfo 20 1000; mkLossInfo 10 1000; mkLossInfo 30 1000]) 0) in
  cong_wnd (nr s) = 12000 /\ cong_wnd (nr s') = 6000 /\ bytes_in_flight (nr s') = 2000.
Proof.
  cbv zeta. split; [reflexivity|].
  destruct (newreno_one_reduction_per_burst (snd (newreno_on_data_sent fresh 5000))
    [mkLossInfo 20 1000; mkLossInfo 10 1000; mkLossInfo 30 1000]) as (H1 & H2 & _);
    [reflexivity|split; vm_compute; congruence|reflexivity|reflexivity
    |repeat constructor; vm_compute; congruence|split; vm_compute; congruence|].
  split; [exact H1|exact H2].
Defined.

(** In congestion avoidance the window grows linearly: however the
    acknowledgements are split, it grows by whole datagrams, and by one
    datagram for every full window's worth of newly acknowledged bytes at
    most. *)
Theorem newreno_avoidance_linear s infos :
  0 < cong_wnd (nr s) -> slow_start_thresh (nr s) <= cong_wnd (nr s) ->
  0 <= max_dgram_size (nr s) -> 0 <= bytes_acked (nr s) ->
  Forall (fun i => 0 <= ack_tx_size i) infos ->
  cong_wnd (nr s) + Z.of_nat (length infos) * max_dgram_size (nr s) < UINT64_MOD ->
  bytes_acked (nr s) + zsum (map ack_tx_size infos) < UINT64_MOD ->
  exists k, 0 <= k /\
    cong_wnd (nr (ack_all s infos)) = cong_wnd (nr s) + k * max_dgram_size (nr s) /\
    k * cong_wnd (nr s) <= bytes_acked (nr s) + zsum (map ack_tx_size infos).
Proof. intros. apply ack_all_avoidance; done || lia. Qed.

Definition avoiding : cc_state :=
  snd (newreno_on_data_lost_finished
         (lose_all (snd (newreno_on_data_sent fresh 15000)) [mkLossInfo 20 1000]) 0).

Lemma newreno_avoidance_linear_witness :
  let s := ack_all avoiding (repeat (mkAckInfo 60 1000) 7) in
  cong_wnd (nr avoiding) = 6000 /\ cong_wnd (nr s) = 7200 /\
  exists k, cong_wnd (nr s) = 6000 + k * 1200 /\ k * 6000 <= 7000.
Proof.
  cbv zeta. split; [reflexivity|]. split; [reflexivity|].
  destruct (newreno_avoidance_linear avoiding (repeat (mkAckInfo 60 1000) 7)) as (k & _ & H1 & H2);
    try (vm_compute; congruence); try (repeat constructor; vm_compute; congruence).
  exists k. split; [exact H1|exact H2].
Defined.

End NewReno.
