(* ===== verification/QuicVlint.v ===== *)
(** * QUIC variable-length integers

    Model of [crypto/quic_vlint.c] and [include/internal/quic_vlint.h].  The
    encoder's result is the bytes it stores from [buf] on; the decoder reads a
    buffer, and a read past its end is undefined ([None]). *)
From Stdlib Require Import ZArith Lia.
From stdpp Require Import base tactics list.
From S2P Require Import Prelude.
#[local] Open Scope Z_scope.

Module Vlint.

Definition OSSL_QUIC_VLINT_2B_MIN : Z := 64.
Definition OSSL_QUIC_VLINT_4B_MIN : Z := 16384.
Definition OSSL_QUIC_VLINT_8B_MIN : Z := 1073741824.
Definition OSSL_QUIC_VLINT_8B_MAX : Z := Z.shiftl 1 62 - 1.
Definition OSSL_QUIC_VLINT_MAX : Z := OSSL_QUIC_VLINT_8B_MAX.

Definition ossl_quic_vlint_encode_len (v : Z) : Z :=
  if v <? OSSL_QUIC_VLINT_2B_MIN then 1
  else if v <? OSSL_QUIC_VLINT_4B_MIN then 2
  else if v <? OSSL_QUIC_VLINT_8B_MIN then 4
  else if v <=? OSSL_QUIC_VLINT_MAX then 8
  else 0.

Definition ossl_quic_vlint_encode_n (v n : Z) : list Z :=
  if n =? 1 then [u8 v]
  else if n =? 2 then [u8 (Z.lor 0x40 (Z.land (Z.shiftr v 8) 0x3F)); u8 v]
  else if n =? 4 then
    [u8 (Z.lor 0x80 (Z.land (Z.shiftr v 24) 0x3F)); u8 (Z.shiftr v 16); u8 (Z.shiftr v 8); u8 v]
  else
    [u8 (Z.lor 0xC0 (Z.land (Z.shiftr v 56) 0x3F)); u8 (Z.shiftr v 48); u8 (Z.shiftr v 40);
     u8 (Z.shiftr v 32); u8 (Z.shiftr v 24); u8 (Z.shiftr v 16); u8 (Z.shiftr v 8); u8 v].

Definition ossl_quic_vlint_encode (v : Z) : list Z :=
  ossl_quic_vlint_encode_n v (ossl_quic_vlint_encode_len v).

Definition ossl_quic_vlint_decode_len (first_byte : Z) : Z :=
  Z.shiftl 1 (Z.shiftr (Z.land first_byte 0xC0) 6).

(** [(uint64_t)x << n]. *)
Definition shl (x n : Z) : Z := u64 (Z.shiftl x n).

Definition ossl_quic_vlint_decode_unchecked (buf : list Z) : option Z :=
  first_byte ← buf !! 0%nat;
  let sz := ossl_quic_vlint_decode_len first_byte in
  let top := Z.land first_byte 0x3F in
  if sz =? 1 then Some top
  else if sz =? 2 then
    b1 ← buf !! 1%nat;
    Some (Z.lor (shl top 8) b1)
  else if sz =? 4 then
    b1 ← buf !! 1%nat; b2 ← buf !! 2%nat; b3 ← buf !! 3%nat;
    Some (Z.lor (Z.lor (Z.lor (shl top 24) (shl b1 16)) (shl b2 8)) b3)
  else
    b1 ← buf !! 1%nat; b2 ← buf !! 2%nat; b3 ← buf !! 3%nat; b4 ← buf !! 4%nat;
    b5 ← buf !! 5%nat; b6 ← buf !! 6%nat; b7 ← buf !! 7%nat;
    Some (Z.lor (Z.lor (Z.lor (Z.lor (Z.lor (Z.lor (Z.lor (shl top 56) (shl b1 48)) (shl b2 40))
            (shl b3 32)) (shl b4 24)) (shl b5 16)) (shl b6 8)) b7).

(** The result is the return value and what is stored in [*v]; [buf_len] is
    the length of [buf]. *)
Definition ossl_quic_vlint_decode (buf : list Z) (buf_len : Z) : option (Z * option Z) :=
  if buf_len <? 1 then Some (0, None)
  else
    first_byte ← buf !! 0%nat;
    let dec_len := ossl_quic_vlint_decode_len first_byte in
    if buf_len <? dec_len then Some (0, None)
    else x ← ossl_quic_vlint_decode_unchecked buf; Some (dec_len, Some x).

(** ** Lemmas *)

(** The two-bit length tag in front of an [n]-byte encoding. *)
Definition tag (n : Z) : Z := if n =? 1 then 0 else if n =? 2 then 1 else if n =? 4 then 2 else 3.

Definition valid_len (n : Z) : Prop := n = 1 \/ n = 2 \/ n = 4 \/ n = 8.

Lemma decode_len_spec b :
  is_u8 b -> ossl_quic_vlint_decode_len b = 2 ^ (b / 64) /\ 0 <= b / 64 <= 3.
Proof.
  unfold is_u8. intros Hb. unfold ossl_quic_vlint_decode_len.
  assert (Hq : 0 <= b / 64 <= 3) by (split; [apply Z.div_pos; lia|
    apply Z.lt_succ_r, Z.div_lt_upper_bound; lia]).
  assert (E : Z.shiftr (Z.land b 192) 6 = b / 64).
  { rewrite Z.shiftr_land. change (Z.shiftr 192 6) with (Z.ones 2).
    rewrite Z.land_ones, Z.shiftr_div_pow2 by lia. change (2 ^ 6) with 64.
    apply Z.mod_small. change (2 ^ 2) with 4. lia. }
  rewrite E, Z.shiftl_mul_pow2 by lia. split; lia.
Qed.

Lemma land_63 x : Z.land x 63 = x mod 64.
Proof. change 63 with (Z.ones 6). by rewrite Z.land_ones. Qed.

Lemma decode_len_valid b : is_u8 b -> valid_len (ossl_quic_vlint_decode_len b).
Proof.
  intros Hb. destruct (decode_len_spec b Hb) as [-> Hq]. unfold valid_len.
  assert (b / 64 = 0 \/ b / 64 = 1 \/ b / 64 = 2 \/ b / 64 = 3) as [->|[->|[->| ->]]] by lia; tauto.
Qed.

(** Rewrites an innermost [x << n | y] to a sum. *)
Ltac lor_add :=
  match goal with
  | |- context [Z.lor (Z.shiftl ?a ?n) ?b] =>
      lazymatch b with
      | context [Z.lor] => fail
      | _ => rewrite (lor_shiftl_add a b n) by lia
      end
  end.

(** The decoder reads a big-endian number whose two top bits are cleared. *)
Lemma decode_unchecked_spec b l :
  is_u8 b -> bytes l ->
  ossl_quic_vlint_decode_len b <= 1 + Z.of_nat (length l) ->
  ossl_quic_vlint_decode_unchecked (b :: l) =
    Some (be_val (b mod 64 :: take (Z.to_nat (ossl_quic_vlint_decode_len b) - 1) l)).
Proof.
  intros Hb Hl Hlen. unfold ossl_quic_vlint_decode_unchecked. cbn [lookup list_lookup option_bind mbind].
  rewrite land_63. assert (0 <= b mod 64 < 64) by (apply Z.mod_pos_bound; lia).
  set (t := b mod 64) in *. unfold is_u8 in *.
  destruct (decode_len_valid b Hb) as [E|[E|[E|E]]]; rewrite E in *; cbn [Z.eqb Pos.eqb].
  - change (Z.to_nat 1 - 1)%nat with 0%nat. simpl. f_equal. lia.
  - destruct l as [|b1 l]; [simpl in Hlen; lia|].
    rewrite !Forall_cons in Hl. cbn [lookup list_lookup mbind option_bind]. unfold shl.
    change (Z.to_nat 2 - 1)%nat with 1%nat.
    rewrite u64_id by (rewrite Z.shiftl_mul_pow2 by lia; unfold is_u64; lia).
    rewrite lor_shiftl_add by lia. f_equal. simpl. lia.
  - destruct l as [|b1 [|b2 [|b3 l]]]; try (simpl in Hlen; lia).
    rewrite !Forall_cons in Hl. cbn [lookup list_lookup mbind option_bind]. unfold shl.
    change (Z.to_nat 4 - 1)%nat with 3%nat.
    rewrite !u64_id by (rewrite Z.shiftl_mul_pow2 by lia; unfold is_u64; lia).
    rewrite <- !Z.lor_assoc. repeat lor_add. f_equal. simpl. lia.
  - destruct l as [|b1 [|b2 [|b3 [|b4 [|b5 [|b6 [|b7 l]]]]]]]; try (simpl in Hlen; lia).
    rewrite !Forall_cons in Hl. cbn [lookup list_lookup mbind option_bind]. unfold shl.
    change (Z.to_nat 8 - 1)%nat with 7%nat.
    rewrite !u64_id by (rewrite Z.shiftl_mul_pow2 by lia; unfold is_u64; lia).
    rewrite <- !Z.lor_assoc. repeat lor_add. f_equal. simpl. lia.
Qed.

Lemma shiftr_range v k m : 0 <= k -> 0 <= v < 2 ^ k * m -> 0 <= Z.shiftr v k < m.
Proof.
  intros Hk Hv. rewrite Z.shiftr_div_pow2 by done. pose proof (Z.pow_pos_nonneg 2 k).
  split; [apply Z.div_pos; lia|apply Z.div_lt_upper_bound; lia].
Qed.

Lemma tagged_byte t x : t = 64 \/ t = 128 \/ t = 192 -> 0 <= x < 64 -> u8 (Z.lor t (Z.land x 63)) = t + x.
Proof.
  intros Ht Hx. rewrite land_63, Z.mod_small by done.
  assert (E : Z.lor t x = t + x).
  { destruct Ht as [->|[->| ->]]; [change 64 with (Z.shiftl 1 6) at 1|change 128 with (Z.shiftl 2 6) at 1
      |change 192 with (Z.shiftl 3 6) at 1]; rewrite lor_shiftl_add; lia. }
  rewrite E. apply u8_id. unfold is_u8. lia.
Qed.

Lemma tagged_be_bytes k t v :
  0 <= t < 4 -> 0 <= v < 2 ^ (8 * Z.of_nat k) * 64 ->
  be_bytes (S k) (t * 64 * 2 ^ (8 * Z.of_nat k) + v) =
    t * 64 + Z.shiftr v (8 * Z.of_nat k) :: be_bytes k v.
Proof.
  intros Ht Hv. cbn [be_bytes]. rewrite be_bytes_shift. f_equal.
  pose proof (shiftr_range v (8 * Z.of_nat k) 64).
  rewrite !Z.shiftr_div_pow2 in * by lia. pose proof (pow256_pos k).
  rewrite Z.div_add_l by lia. apply u8_id. unfold is_u8. lia.
Qed.

(** The encoding is the value as a big-endian number under its tag. *)
Lemma encode_n_spec v n :
  valid_len n -> 0 <= v < 2 ^ (8 * n - 2) ->
  ossl_quic_vlint_encode_n v n = be_bytes (Z.to_nat n) (tag n * 2 ^ (8 * n - 2) + v).
Proof.
  intros Hn Hv. unfold ossl_quic_vlint_encode_n, tag.
  destruct Hn as [->|[->|[->| ->]]]; cbn [Z.eqb Pos.eqb].
  - done.
  - rewrite tagged_byte by (lia || (apply shiftr_range; lia)).
    change (Z.to_nat 2) with 2%nat. rewrite (tagged_be_bytes 1 1) by lia.
    simpl. by rewrite Z.shiftr_0_r.
  - rewrite tagged_byte by (lia || (apply shiftr_range; lia)).
    change (Z.to_nat 4) with 4%nat. rewrite (tagged_be_bytes 3 2) by lia.
    simpl. by rewrite Z.shiftr_0_r.
  - rewrite tagged_byte by (lia || (apply shiftr_range; lia)).
    change (Z.to_nat 8) with 8%nat. rewrite (tagged_be_bytes 7 3) by lia.
    simpl. by rewrite Z.shiftr_0_r.
Qed.

Lemma length_encode_n v n : valid_len n -> length (ossl_quic_vlint_encode_n v n) = Z.to_nat n.
Proof. by intros [->|[->|[->| ->]]]. Qed.

Lemma bytes_encode_n v n : bytes (ossl_quic_vlint_encode_n v n).
Proof. unfold ossl_quic_vlint_encode_n. repeat zcase; repeat constructor; apply u8_range. Qed.

Lemma encode_len_spec v :
  0 <= v -> let n := ossl_quic_vlint_encode_len v in
  (n = 0 /\ OSSL_QUIC_VLINT_MAX < v) \/ (valid_len n /\ v < 2 ^ (8 * n - 2)).
Proof.
  intros Hv. unfold ossl_quic_vlint_encode_len, OSSL_QUIC_VLINT_MAX, OSSL_QUIC_VLINT_8B_MAX,
    OSSL_QUIC_VLINT_2B_MIN, OSSL_QUIC_VLINT_4B_MIN, OSSL_QUIC_VLINT_8B_MIN, valid_len.
  change (Z.shiftl 1 62) with (2 ^ 62).
  repeat zcase; [right; split; [tauto|lia]..|left; split; [done|lia]].
Qed.

Lemma encode_len_least v n :
  0 <= v < 2 ^ (8 * n - 2) -> valid_len n -> ossl_quic_vlint_encode_len v <= n.
Proof.
  intros Hv Hn. unfold ossl_quic_vlint_encode_len, OSSL_QUIC_VLINT_MAX, OSSL_QUIC_VLINT_8B_MAX,
    OSSL_QUIC_VLINT_2B_MIN, OSSL_QUIC_VLINT_4B_MIN, OSSL_QUIC_VLINT_8B_MIN.
  change (Z.shiftl 1 62) with (2 ^ 62).
  destruct Hn as [->|[->|[->| ->]]]; repeat zcase; lia.
Qed.

Lemma encode_len_fits v n :
  0 <= v -> valid_len n -> 0 < ossl_quic_vlint_encode_len v <= n -> v < 2 ^ (8 * n - 2).
Proof.
  intros Hv Hn Hl. destruct (encode_len_spec v Hv) as [[E _]|[Hm Hlt]]; [lia|].
  eapply Z.lt_le_trans; [exact Hlt|]. apply Z.pow_le_mono_r; lia.
Qed.

(** The first byte of an encoding tells its length. *)
Lemma encode_n_head v n :
  valid_len n -> 0 <= v < 2 ^ (8 * n - 2) ->
  exists b l, ossl_quic_vlint_encode_n v n = b :: l /\ is_u8 b /\
    ossl_quic_vlint_decode_len b = n /\ b mod 64 = Z.shiftr v (8 * (n - 1)) /\
    l = be_bytes (Z.to_nat n - 1) v.
Proof.
  intros Hn Hv. rewrite encode_n_spec by done.
  assert (Hk : exists k, Z.to_nat n = S k /\ Z.of_nat k = n - 1).
  { exists (Z.to_nat (n - 1)). unfold valid_len in Hn. lia. }
  destruct Hk as (k & Ek & Hk). rewrite Ek.
  replace (tag n * 2 ^ (8 * n - 2) + v) with (tag n * 64 * 2 ^ (8 * Z.of_nat k) + v)
    by (rewrite Hk; destruct Hn as [->|[->|[->| ->]]]; cbn; lia).
  assert (Hv' : 0 <= v < 2 ^ (8 * Z.of_nat k) * 64)
    by (rewrite Hk; destruct Hn as [->|[->|[->| ->]]]; cbn in *; lia).
  assert (Ht : 0 <= tag n < 4 /\ 2 ^ tag n = n)
    by (unfold tag; destruct Hn as [->|[->|[->| ->]]]; cbn; lia).
  rewrite tagged_be_bytes by lia.
  pose proof (shiftr_range v (8 * Z.of_nat k) 64 ltac:(lia) Hv') as Hr.
  rewrite <- Hk. set (x := Z.shiftr v _) in *.
  assert (Hu : is_u8 (tag n * 64 + x)) by (unfold is_u8; lia).
  eexists _, _. split_and!; [reflexivity|done| | |by rewrite Nat.sub_succ, Nat.sub_0_r].
  - destruct (decode_len_spec _ Hu) as [-> _].
    rewrite Z.div_add_l, Z.div_small, Z.add_0_r by lia. apply Ht.
  - rewrite Z.add_comm, Z.mod_add, Z.mod_small by lia. done.
Qed.

Lemma decode_unchecked_encode_n v n rest :
  valid_len n -> 0 <= v < 2 ^ (8 * n - 2) -> bytes rest ->
  ossl_quic_vlint_decode_unchecked (ossl_quic_vlint_encode_n v n ++ rest) = Some v.
Proof.
  intros Hn Hv Hr. destruct (encode_n_head v n Hn Hv) as (b & l & E & Hb & Hd & Hm & Hl).
  assert (Hll : length l = (Z.to_nat n - 1)%nat) by (subst; apply length_be_bytes).
  assert (Hn1 : 1 <= n) by (unfold valid_len in Hn; lia).
  rewrite E. cbn [app]. rewrite decode_unchecked_spec, Hd; [|done| |rewrite length_app; lia].
  2: { apply Forall_app. split; [subst; apply bytes_be_bytes|done]. }
  rewrite <- Hll, take_app_length. f_equal. cbn [be_val].
  rewrite Hm, Hl, length_be_bytes, be_val_be_bytes, Nat2Z.inj_sub, Z2Nat.id by lia.
  rewrite Z.shiftr_div_pow2 by lia. change (Z.of_nat 1) with 1.
  symmetry. rewrite Z.mul_comm. apply Z.div_mod. pose proof (Z.pow_pos_nonneg 2 (8 * (n - 1))). lia.
Qed.

(** ** Properties *)

(** A value encoded with any sufficient length decodes to itself, whatever
    follows it; in particular with the length [ossl_quic_vlint_encode_len]
    chooses, which is the least possible. *)
Theorem vlint_roundtrip v n rest :
  0 <= v -> valid_len n -> 0 < ossl_quic_vlint_encode_len v <= n -> bytes rest ->
  let buf := ossl_quic_vlint_encode_n v n ++ rest in
  ossl_quic_vlint_decode buf (Z.of_nat (length buf)) = Some (n, Some v) /\
  (forall m, valid_len m -> v < 2 ^ (8 * m - 2) -> ossl_quic_vlint_encode_len v <= m).
Proof.
  intros Hv Hn Hl Hr buf. pose proof (encode_len_fits v n Hv Hn Hl) as Hlt.
  split; [|intros m Hm Hvm; by apply encode_len_least].
  destruct (encode_n_head v n Hn) as (b & l & E & Hb & Hd & _); [lia|].
  pose proof (length_encode_n v n Hn) as Hlen.
  unfold ossl_quic_vlint_decode.
  assert (Hbl : n <= Z.of_nat (length buf)) by (unfold buf; rewrite length_app; lia).
  assert (Hn1 : 1 <= n) by (unfold valid_len in Hn; lia).
  destruct (Z.ltb_spec (Z.of_nat (length buf)) 1); [lia|].
  assert (Hhd : buf !! 0%nat = Some b) by (unfold buf; by rewrite E).
  rewrite Hhd. cbn [mbind option_bind]. rewrite Hd.
  destruct (Z.ltb_spec (Z.of_nat (length buf)) n); [lia|].
  unfold buf. rewrite decode_unchecked_encode_n by (done || lia). done.
Qed.

Lemma vlint_roundtrip_witness :
  ossl_quic_vlint_encode_n 37 4 = [0x80; 0; 0; 37] /\
  ossl_quic_vlint_decode [0x80; 0; 0; 37; 99] 5 = Some (4, Some 37).
Proof.
  split; [reflexivity|].
  destruct (vlint_roundtrip 37 4 [99]) as [H _];
    [lia|unfold valid_len; lia|split; vm_compute; congruence|repeat constructor; vm_compute; congruence|].
  exact H.
Defined.

(** On any non-empty buffer of bytes the decoder is total: it never reads
    past the end; it fails exactly when the length announced by the first byte
    exceeds the buffer; and otherwise re-encoding the value it found with the
    length it consumed gives back the bytes it read. *)
Theorem vlint_decode_total buf :
  bytes buf -> buf <> [] ->
  let len := Z.of_nat (length buf) in
  exists b l, buf = b :: l /\ let n := ossl_quic_vlint_decode_len b in
  (len < n /\ ossl_quic_vlint_decode buf len = Some (0, None)) \/
  (n <= len /\ exists v, ossl_quic_vlint_decode buf len = Some (n, Some v) /\
     0 <= v <= OSSL_QUIC_VLINT_MAX /\ ossl_quic_vlint_encode_n v n = take (Z.to_nat n) buf).
Proof.
  intros Hbuf Hne len. destruct buf as [|b l]; [done|].
  apply Forall_cons in Hbuf as [Hb Hl]. exists b, l. split; [done|]. intros n.
  unfold ossl_quic_vlint_decode. cbn [lookup list_lookup mbind option_bind]. fold n.
  destruct (Z.ltb_spec len 1); [unfold len in *; simpl in *; lia|].
  destruct (Z.ltb_spec len n); [left; done|right]. split; [done|].
  pose proof (decode_len_valid b Hb) as Hn. fold n in Hn.
  rewrite decode_unchecked_spec by (done || (unfold len in *; fold n; cbn [length] in *; lia)).
  fold n. cbn [mbind option_bind]. eexists. split; [reflexivity|].
  destruct (decode_len_spec b Hb) as [Hd Hq]. fold n in Hd.
  set (tl := take (Z.to_nat n - 1) l).
  assert (Hlt : Z.of_nat (length tl) = n - 1).
  { unfold tl, len, valid_len in *. rewrite length_take. cbn [length] in *. lia. }
  assert (Htl : bytes tl) by (by apply Forall_take).
  pose proof (Z.mod_pos_bound b 64 ltac:(lia)) as Hm.
  pose proof (be_val_range tl Htl) as Hr. rewrite Hlt in Hr.
  assert (Hp : 2 ^ (8 * n - 2) = 64 * 2 ^ (8 * (n - 1))).
  { replace (8 * n - 2) with (6 + 8 * (n - 1)) by lia. rewrite Z.pow_add_r; unfold valid_len in Hn; lia. }
  cbn [be_val]. rewrite Hlt. set (v := _ + _).
  assert (Hv : 0 <= v < 2 ^ (8 * n - 2)) by (unfold v; nia).
  split.
  - unfold OSSL_QUIC_VLINT_MAX, OSSL_QUIC_VLINT_8B_MAX. change (Z.shiftl 1 62) with (2 ^ (8 * 8 - 2)).
    assert (2 ^ (8 * n - 2) <= 2 ^ (8 * 8 - 2)) by (apply Z.pow_le_mono_r; unfold valid_len in Hn; lia).
    lia.
  - rewrite encode_n_spec by done.
    assert (Ht : tag n = b / 64).
    { rewrite Hd. assert (b / 64 = 0 \/ b / 64 = 1 \/ b / 64 = 2 \/ b / 64 = 3) as [->|[->|[->| ->]]] by lia;
        reflexivity. }
    assert (Hk : Z.to_nat n = S (length tl)) by (unfold valid_len in Hn; lia).
    assert (Htake : take (Z.to_nat n) (b :: l) = b :: tl).
    { unfold tl. rewrite Hk. cbn [take]. f_equal. f_equal. lia. }
    rewrite Htake. replace (Z.to_nat n) with (length (b :: tl)) by (cbn [length]; lia).
    rewrite <- (be_bytes_be_val (b :: tl)) at 2 by (by constructor). f_equal.
    cbn [be_val]. rewrite Hlt, Hp, Ht. unfold v. pose proof (Z.div_mod b 64). nia.
Qed.

Lemma vlint_decode_total_witness :
  ossl_quic_vlint_decode [0x40; 1; 9] 3 = Some (2, Some 1) /\
  exists b l, [0x40; 1; 9] = b :: l /\ b = 0x40.
Proof.
  split; [reflexivity|].
  destruct (vlint_decode_total [0x40; 1; 9]) as (b & l & H & _);
    [repeat constructor; vm_compute; congruence|done|].
  exists b, l. split; [exact H|congruence].
Defined.

End Vlint.
