(* ===== verification/Packet.v ===== *)
(** * Reading packets

    Model of the reader half of [include/internal/packet.h] and of
    [include/internal/packet_quic.h].  A pointer into a buffer is the list of
    the bytes from it to the buffer's end, so a pointer returned to the caller
    or kept in a sub-packet is such a list and shares nothing that is written
    to.  A load past the end of the buffer is undefined behaviour. *)
From Stdlib Require Import ZArith Lia.
From stdpp Require Import base tactics list.
From S2P Require Import Prelude QuicVlint.
Import Vlint.
#[local] Open Scope Z_scope.

Module Packet.

Record PACKET := mkPacket { curr : list Z; remaining : Z }.

(** [pkt->curr[i]]. *)
Definition load (i : nat) : M PACKET Z := fun p =>
  match curr p !! i with Some b => (Ret b, p) | None => (Undef, p) end.

Definition packet_forward (len : Z) : M PACKET unit :=
  modify (fun p => mkPacket (drop (Z.to_nat len) (curr p)) (u64 (remaining p - len))).

Definition PACKET_remaining : M PACKET Z := fun p => (Ret (remaining p), p).
Definition PACKET_data : M PACKET (list Z) := fun p => (Ret (curr p), p).

Definition PACKET_buf_init (buf : list Z) (len : Z) : option PACKET :=
  if SIZE_MAX / 2 <? len then None else Some (mkPacket buf len).

Definition PACKET_null_init : PACKET := mkPacket [] 0.

Definition PACKET_equal (ptr : list Z) (num : Z) : M PACKET bool :=
  r ← PACKET_remaining;
  if negb (r =? num) then mret false
  else c ← PACKET_data;
       mret (bool_decide (take (Z.to_nat num) c = take (Z.to_nat num) ptr)).

(** [if (PACKET_remaining(pkt) < len) return 0]. *)
Definition need (len : Z) : M PACKET unit :=
  r ← PACKET_remaining; guard_ (negb (r <? len)).

(** [(unsigned ...)b << n], at a width that holds it. *)
Definition sh (b n : Z) : Z := Z.shiftl b n.

Definition PACKET_peek_sub_packet (len : Z) : M PACKET PACKET :=
  need len;; c ← PACKET_data;
  match PACKET_buf_init c len with Some s => mret s | None => fail end.

Definition PACKET_get_sub_packet (len : Z) : M PACKET PACKET :=
  s ← PACKET_peek_sub_packet len; packet_forward len;; mret s.

Definition PACKET_peek_net_2 : M PACKET Z :=
  need 2;; b0 ← load 0; b1 ← load 1; mret (Z.lor (sh b0 8) b1).
Definition PACKET_get_net_2 : M PACKET Z :=
  v ← PACKET_peek_net_2; packet_forward 2;; mret v.

Definition PACKET_peek_net_3 : M PACKET Z :=
  need 3;; b0 ← load 0; b1 ← load 1; b2 ← load 2;
  mret (Z.lor (Z.lor (sh b0 16) (sh b1 8)) b2).
Definition PACKET_get_net_3 : M PACKET Z :=
  v ← PACKET_peek_net_3; packet_forward 3;; mret v.

Definition PACKET_peek_net_4 : M PACKET Z :=
  need 4;; b0 ← load 0; b1 ← load 1; b2 ← load 2; b3 ← load 3;
  mret (Z.lor (Z.lor (Z.lor (sh b0 24) (sh b1 16)) (sh b2 8)) b3).
Definition PACKET_get_net_4 : M PACKET Z :=
  v ← PACKET_peek_net_4; packet_forward 4;; mret v.

Definition PACKET_peek_net_8 : M PACKET Z :=
  need 8;; b0 ← load 0; b1 ← load 1; b2 ← load 2; b3 ← load 3;
  b4 ← load 4; b5 ← load 5; b6 ← load 6; b7 ← load 7;
  mret (Z.lor (Z.lor (Z.lor (Z.lor (Z.lor (Z.lor (Z.lor (sh b0 56) (sh b1 48)) (sh b2 40))
          (sh b3 32)) (sh b4 24)) (sh b5 16)) (sh b6 8)) b7).
Definition PACKET_get_net_8 : M PACKET Z :=
  v ← PACKET_peek_net_8; packet_forward 8;; mret v.

Definition PACKET_peek_1 : M PACKET Z :=
  r ← PACKET_remaining; guard_ (negb (r =? 0));; load 0.
Definition PACKET_get_1 : M PACKET Z :=
  v ← PACKET_peek_1; packet_forward 1;; mret v.

Definition PACKET_peek_4 : M PACKET Z :=
  need 4;; b0 ← load 0; b1 ← load 1; b2 ← load 2; b3 ← load 3;
  mret (Z.lor (Z.lor (Z.lor b0 (sh b1 8)) (sh b2 16)) (sh b3 24)).
Definition PACKET_get_4 : M PACKET Z :=
  v ← PACKET_peek_4; packet_forward 4;; mret v.

Definition PACKET_peek_bytes (len : Z) : M PACKET (list Z) := need len;; PACKET_data.
Definition PACKET_get_bytes (len : Z) : M PACKET (list Z) :=
  d ← PACKET_peek_bytes len; packet_forward len;; mret d.

(** The copied bytes; copying more than the buffer holds is undefined. *)
Definition PACKET_peek_copy_bytes (len : Z) : M PACKET (list Z) :=
  need len;; c ← PACKET_data;
  if Z.of_nat (length c) <? len then undefined else mret (take (Z.to_nat len) c).
Definition PACKET_copy_bytes (len : Z) : M PACKET (list Z) :=
  d ← PACKET_peek_copy_bytes len; packet_forward len;; mret d.

Definition PACKET_contains_zero_byte : M PACKET bool :=
  r ← PACKET_remaining; c ← PACKET_data;
  mret (existsb (fun b => b =? 0) (take (Z.to_nat r) c)).

Definition PACKET_forward (len : Z) : M PACKET unit := need len;; packet_forward len.

(** A call that works on a copy of the packet, stored back on success. *)
Definition on_copy {A} (m : M PACKET A) : M PACKET A := fun p =>
  match m p with
  | (Ret a, tmp) => (Ret a, tmp)
  | (Err, _) => (Err, p)
  | (Undef, _) => (Undef, p)
  end.

(** The body shared by the length-prefixed readers: [get_len] reads the length
    and [whole] asks that nothing be left. *)
Definition length_prefixed (get_len : M PACKET Z) (whole : bool) : M PACKET PACKET :=
  on_copy (
    len ← get_len; data ← PACKET_get_bytes len;
    r ← PACKET_remaining; guard_ (negb (whole && negb (r =? 0)));;
    mret (mkPacket data len)).

Definition PACKET_get_length_prefixed_1 : M PACKET PACKET := length_prefixed PACKET_get_1 false.
Definition PACKET_as_length_prefixed_1 : M PACKET PACKET := length_prefixed PACKET_get_1 true.
Definition PACKET_get_length_prefixed_2 : M PACKET PACKET := length_prefixed PACKET_get_net_2 false.
Definition PACKET_as_length_prefixed_2 : M PACKET PACKET := length_prefixed PACKET_get_net_2 true.
Definition PACKET_get_length_prefixed_3 : M PACKET PACKET := length_prefixed PACKET_get_net_3 false.

(** ** Variable-length integers *)

(** The checks and the decoding shared by the readers of an integer. *)
Definition vlint_enclen : M PACKET Z :=
  r ← PACKET_remaining; guard_ (negb (r <? 1));;
  b ← load 0;
  let enclen := ossl_quic_vlint_decode_len b in
  r ← PACKET_remaining; guard_ (negb (r <? enclen));;
  mret enclen.

Definition vlint_decode_at : M PACKET Z :=
  c ← PACKET_data;
  match ossl_quic_vlint_decode_unchecked c with Some v => mret v | None => undefined end.

Definition PACKET_get_quic_vlint : M PACKET Z :=
  enclen ← vlint_enclen; v ← vlint_decode_at; packet_forward enclen;; mret v.

(** The value and [*was_minimal]. *)
Definition PACKET_peek_quic_vlint_ex : M PACKET (Z * bool) :=
  enclen ← vlint_enclen; v ← vlint_decode_at;
  mret (v, enclen =? ossl_quic_vlint_encode_len v).

Definition PACKET_peek_quic_vlint : M PACKET Z :=
  '(v, _) ← PACKET_peek_quic_vlint_ex; mret v.

Definition PACKET_skip_quic_vlint : M PACKET unit :=
  enclen ← vlint_enclen; packet_forward enclen.

Definition PACKET_get_quic_length_prefixed : M PACKET PACKET :=
  on_copy (
    length ← PACKET_get_quic_vlint; guard_ (negb (SIZE_MAX <? length));;
    data ← PACKET_get_bytes length;
    mret (mkPacket data length)).

(** ** Lemmas *)

(** A packet that lies within its buffer. *)
Record packet_ok (p : PACKET) : Prop := {
  ok_rem : 0 <= remaining p <= Z.of_nat (length (curr p));
  ok_size : remaining p < UINT64_MOD;
  ok_bytes : bytes (curr p)
}.

(** [reads m p x a]: on packet [p], whose buffer starts with [x], [m] consumes
    exactly [x] and returns [a]. *)
Definition reads {A} (m : M PACKET A) (x : list Z) (a : list Z -> A) : Prop :=
  forall rest rem, Z.of_nat (length x) <= rem < UINT64_MOD -> bytes rest ->
  m (mkPacket (x ++ rest) rem) = (Ret (a rest), mkPacket rest (rem - Z.of_nat (length x))).

Lemma reads_ret {A} (a : A) : reads (mret a) [] (fun _ => a).
Proof. intros rest rem H _. simpl. by rewrite Z.sub_0_r. Qed.

Lemma reads_bind {A B} (m : M PACKET A) (f : A -> M PACKET B) x y (a : A) b :
  bytes y -> reads m x (fun _ => a) -> reads (f a) y b -> reads (m ≫= f) (x ++ y) b.
Proof.
  intros Hy Hm Hf rest rem Hrem Hrest. rewrite length_app in *. rewrite <- app_assoc.
  erewrite bind_ret; [|apply Hm; [lia|by apply Forall_app]].
  rewrite Hf by (done || lia). do 2 f_equal. lia.
Qed.

Lemma reads_guard {A} b (f : M PACKET A) x a :
  b = true -> reads f x a -> reads (guard_ b;; f) x a.
Proof. by intros ->. Qed.

Lemma forward_spec x rest rem :
  Z.of_nat (length x) <= rem < UINT64_MOD ->
  packet_forward (Z.of_nat (length x)) (mkPacket (x ++ rest) rem) =
    (Ret tt, mkPacket rest (rem - Z.of_nat (length x))).
Proof.
  intros H. unfold packet_forward, modify. cbn [curr remaining].
  rewrite Nat2Z.id, drop_app_length, u64_id by (unfold is_u64; lia). done.
Qed.

Lemma need_ok n c rem : n <= rem -> need n (mkPacket c rem) = (Ret tt, mkPacket c rem).
Proof.
  intros. unfold need, PACKET_remaining, mbind, M_bind. cbn [remaining].
  by destruct (Z.ltb_spec rem n); [lia|].
Qed.

Lemma need_err n c rem : rem < n -> need n (mkPacket c rem) = (Err, mkPacket c rem).
Proof.
  intros. unfold need, PACKET_remaining, mbind, M_bind. cbn [remaining].
  by destruct (Z.ltb_spec rem n); [|lia].
Qed.

Lemma forward_reads x :
  reads (PACKET_forward (Z.of_nat (length x))) x (fun _ => tt).
Proof.
  intros rest rem H _. unfold PACKET_forward.
  erewrite bind_ret by (apply need_ok; lia). by apply forward_spec.
Qed.

Lemma get_bytes_reads x :
  reads (PACKET_get_bytes (Z.of_nat (length x))) x (fun rest => x ++ rest).
Proof.
  intros rest rem H _. unfold PACKET_get_bytes, PACKET_peek_bytes.
  erewrite bind_ret; [|erewrite bind_ret by (apply need_ok; lia); reflexivity].
  erewrite bind_ret by (by apply forward_spec). done.
Qed.

Lemma copy_bytes_reads x :
  reads (PACKET_copy_bytes (Z.of_nat (length x))) x (fun _ => x).
Proof.
  intros rest rem H _. unfold PACKET_copy_bytes, PACKET_peek_copy_bytes.
  erewrite bind_ret.
  2: { erewrite bind_ret by (apply need_ok; lia). unfold PACKET_data, mbind at 1, M_bind. cbn [curr].
       destruct (Z.ltb_spec (Z.of_nat (length (x ++ rest))) (Z.of_nat (length x)));
         [rewrite length_app in *; lia|]. rewrite Nat2Z.id, take_app_length. reflexivity. }
  erewrite bind_ret by (by apply forward_spec). done.
Qed.

Lemma vlint_enclen_spec v n rest rem :
  valid_len n -> 0 <= v < 2 ^ (8 * n - 2) -> n <= rem ->
  let p := mkPacket (ossl_quic_vlint_encode_n v n ++ rest) rem in
  vlint_enclen p = (Ret n, p).
Proof.
  intros Hn Hv Hrem p. destruct (encode_n_head v n Hn Hv) as (b & l & E & _ & Hd & _).
  assert (1 <= n) by (unfold valid_len in Hn; lia).
  unfold vlint_enclen, p, PACKET_remaining, mbind, M_bind, load. cbn [remaining curr].
  destruct (Z.ltb_spec rem 1); [lia|]. rewrite E. cbn. rewrite Hd.
  by destruct (Z.ltb_spec rem n); [lia|].
Qed.

Lemma get_vlint_n_reads v n :
  valid_len n -> 0 <= v < 2 ^ (8 * n - 2) ->
  reads PACKET_get_quic_vlint (ossl_quic_vlint_encode_n v n) (fun _ => v).
Proof.
  intros Hn Hv rest rem Hrem Hrest.
  assert (Hlen : Z.of_nat (length (ossl_quic_vlint_encode_n v n)) = n).
  { rewrite length_encode_n by done. unfold valid_len in Hn. lia. }
  rewrite Hlen in *. unfold PACKET_get_quic_vlint.
  erewrite bind_ret by (apply vlint_enclen_spec; done || lia).
  erewrite bind_ret.
  2: { unfold vlint_decode_at, PACKET_data, mbind, M_bind. cbn [curr].
       rewrite decode_unchecked_encode_n by done. reflexivity. }
  pose proof (forward_spec (ossl_quic_vlint_encode_n v n) rest rem) as Hf. rewrite Hlen in Hf.
  erewrite bind_ret by (apply Hf; lia). done.
Qed.

Lemma encode_is_n v :
  0 <= v <= OSSL_QUIC_VLINT_MAX ->
  let n := ossl_quic_vlint_encode_len v in valid_len n /\ 0 <= v < 2 ^ (8 * n - 2).
Proof.
  intros Hv n. destruct (encode_len_spec v) as [[_ H]|[H1 H2]]; [lia..|].
  split; [done|]. split; [lia|exact H2].
Qed.

Lemma get_vlint_reads v :
  0 <= v <= OSSL_QUIC_VLINT_MAX ->
  reads PACKET_get_quic_vlint (ossl_quic_vlint_encode v) (fun _ => v).
Proof. intros Hv. apply get_vlint_n_reads; by apply encode_is_n. Qed.

Lemma bytes_encode v : bytes (ossl_quic_vlint_encode v).
Proof. apply bytes_encode_n. Qed.

Lemma length_encode v :
  0 <= v <= OSSL_QUIC_VLINT_MAX ->
  Z.of_nat (length (ossl_quic_vlint_encode v)) = ossl_quic_vlint_encode_len v.
Proof.
  intros Hv. destruct (encode_is_n v Hv) as [Hn _].
  unfold ossl_quic_vlint_encode. rewrite length_encode_n by done. unfold valid_len in Hn. lia.
Qed.

#[export] Hint Resolve bytes_encode bytes_encode_n bytes_be_bytes : ossl.

(** Loads of the bytes a reader has checked for. *)
Lemma load_ok i c rem b : c !! i = Some b -> load i (mkPacket c rem) = (Ret b, mkPacket c rem).
Proof. intros H. unfold load. cbn [curr]. by rewrite H. Qed.

Ltac loads := repeat (erewrite bind_ret by (apply load_ok; reflexivity)).

Lemma get_1_reads b : is_u8 b -> reads PACKET_get_1 [b] (fun _ => b).
Proof.
  intros _ rest rem H _. cbn [length] in H. unfold PACKET_get_1, PACKET_peek_1.
  erewrite bind_ret.
  2: { unfold PACKET_remaining, mbind at 1, M_bind. cbn [remaining].
       destruct (Z.eqb_spec rem 0); [lia|]. cbn. reflexivity. }
  erewrite bind_ret by (apply (forward_spec [b]); cbn [length]; lia). done.
Qed.

Lemma get_net_reads n (peek : M PACKET Z) v :
  (forall c rem l, length l = n -> bytes l -> Z.of_nat n <= rem ->
     peek (mkPacket (l ++ c) rem) = (Ret (be_val l), mkPacket (l ++ c) rem)) ->
  0 <= v < 2 ^ (8 * Z.of_nat n) ->
  reads (x ← peek; packet_forward (Z.of_nat n);; mret x) (be_bytes n v) (fun _ => v).
Proof.
  intros Hp Hv rest rem H _. rewrite length_be_bytes in *.
  erewrite bind_ret by (apply Hp; [apply length_be_bytes|apply bytes_be_bytes|lia]).
  pose proof (length_be_bytes n v) as Hl.
  pose proof (forward_spec (be_bytes n v) rest rem) as Hf. rewrite Hl in Hf.
  erewrite bind_ret by (apply Hf; lia). rewrite be_val_be_bytes, Z.mod_small by done. done.
Qed.

Ltac lor_sum := rewrite <- ?Z.lor_assoc; repeat lor_add; simpl; lia.

Lemma peek_net_2_spec c rem l :
  length l = 2%nat -> bytes l -> Z.of_nat 2 <= rem ->
  PACKET_peek_net_2 (mkPacket (l ++ c) rem) = (Ret (be_val l), mkPacket (l ++ c) rem).
Proof.
  intros Hl Hb Hr. destruct l as [|b0 [|b1 [|]]]; try done.
  rewrite !Forall_cons in Hb. unfold is_u8 in Hb.
  unfold PACKET_peek_net_2. erewrite bind_ret by (apply need_ok; lia). loads.
  unfold mret, M_ret, sh. do 2 f_equal. lor_sum.
Qed.

Lemma peek_net_3_spec c rem l :
  length l = 3%nat -> bytes l -> Z.of_nat 3 <= rem ->
  PACKET_peek_net_3 (mkPacket (l ++ c) rem) = (Ret (be_val l), mkPacket (l ++ c) rem).
Proof.
  intros Hl Hb Hr. destruct l as [|b0 [|b1 [|b2 [|]]]]; try done.
  rewrite !Forall_cons in Hb. unfold is_u8 in Hb.
  unfold PACKET_peek_net_3. erewrite bind_ret by (apply need_ok; lia). loads.
  unfold mret, M_ret, sh. do 2 f_equal. lor_sum.
Qed.

Lemma peek_net_4_spec c rem l :
  length l = 4%nat -> bytes l -> Z.of_nat 4 <= rem ->
  PACKET_peek_net_4 (mkPacket (l ++ c) rem) = (Ret (be_val l), mkPacket (l ++ c) rem).
Proof.
  intros Hl Hb Hr. destruct l as [|b0 [|b1 [|b2 [|b3 [|]]]]]; try done.
  rewrite !Forall_cons in Hb. unfold is_u8 in Hb.
  unfold PACKET_peek_net_4. erewrite bind_ret by (apply need_ok; lia). loads.
  unfold mret, M_ret, sh. do 2 f_equal. lor_sum.
Qed.

Lemma peek_net_8_spec c rem l :
  length l = 8%nat -> bytes l -> Z.of_nat 8 <= rem ->
  PACKET_peek_net_8 (mkPacket (l ++ c) rem) = (Ret (be_val l), mkPacket (l ++ c) rem).
Proof.
  intros Hl Hb Hr. destruct l as [|b0 [|b1 [|b2 [|b3 [|b4 [|b5 [|b6 [|b7 [|]]]]]]]]]; try done.
  rewrite !Forall_cons in Hb. unfold is_u8 in Hb.
  unfold PACKET_peek_net_8. erewrite bind_ret by (apply need_ok; lia). loads.
  unfold mret, M_ret, sh. do 2 f_equal. lor_sum.
Qed.

Lemma get_net_4_reads v : 0 <= v < 2 ^ 32 -> reads PACKET_get_net_4 (be_bytes 4 v) (fun _ => v).
Proof. intros. apply (get_net_reads 4); [apply peek_net_4_spec|done]. Qed.
Lemma get_net_2_reads v : 0 <= v < 2 ^ 16 -> reads PACKET_get_net_2 (be_bytes 2 v) (fun _ => v).
Proof. intros. apply (get_net_reads 2); [apply peek_net_2_spec|done]. Qed.
Lemma get_net_3_reads v : 0 <= v < 2 ^ 24 -> reads PACKET_get_net_3 (be_bytes 3 v) (fun _ => v).
Proof. intros. apply (get_net_reads 3); [apply peek_net_3_spec|done]. Qed.
Lemma get_net_8_reads v : is_u64 v -> reads PACKET_get_net_8 (be_bytes 8 v) (fun _ => v).
Proof. intros. apply (get_net_reads 8); [apply peek_net_8_spec|done]. Qed.

Lemma length_prefixed_reads get_len whole hdr payload :
  bytes hdr -> bytes payload -> reads get_len hdr (fun _ => Z.of_nat (length payload)) ->
  forall rest rem, Z.of_nat (length (hdr ++ payload)) <= rem < UINT64_MOD -> bytes rest ->
  whole = false \/ rem = Z.of_nat (length (hdr ++ payload)) ->
  length_prefixed get_len whole (mkPacket (hdr ++ payload ++ rest) rem) =
    (Ret (mkPacket (payload ++ rest) (Z.of_nat (length payload))),
     mkPacket rest (rem - Z.of_nat (length (hdr ++ payload)))).
Proof.
  intros Hh Hp Hget rest rem Hrem Hrest Hw. rewrite length_app in *.
  unfold length_prefixed, on_copy.
  erewrite bind_ret by (apply Hget; [lia|by apply Forall_app]).
  erewrite bind_ret by (apply get_bytes_reads; done || lia).
  unfold PACKET_remaining at 1, mbind at 1, M_bind. cbn [remaining].
  assert (Hg : whole && negb (rem - Z.of_nat (length hdr) - Z.of_nat (length payload) =? 0) = false).
  { destruct Hw as [->| ->]; [done|]. rewrite andb_false_iff, negb_false_iff. right. apply Z.eqb_eq. lia. }
  rewrite Hg. cbn. do 2 f_equal. lia.
Qed.

(** ** Every reader is safe

    [safe m]: on a packet within its buffer [m] has no undefined behaviour and
    leaves a packet within the buffer; a failure that the function promises to
    leave no trace is dealt with by [on_copy]. *)
Definition suffix_of (p' p : PACKET) : Prop :=
  exists k, 0 <= k <= remaining p /\ curr p' = drop (Z.to_nat k) (curr p) /\
    remaining p' = remaining p - k.

Definition safe {A} (m : M PACKET A) : Prop :=
  forall p, packet_ok p ->
  exists r p', m p = (r, p') /\ r <> Undef /\ packet_ok p' /\ suffix_of p' p.

Lemma suffix_refl p : 0 <= remaining p -> suffix_of p p.
Proof. exists 0. split_and!; [lia..|done|lia]. Qed.

Lemma suffix_trans p1 p2 p3 : suffix_of p3 p2 -> suffix_of p2 p1 -> suffix_of p3 p1.
Proof.
  intros (k & Hk & Hc & Hr) (j & Hj & Hd & Hs). exists (j + k).
  split_and!; [lia..| |lia]. rewrite Hc, Hd, drop_drop. f_equal. lia.
Qed.

Lemma safe_ret {A} (a : A) : safe (mret a).
Proof. intros p Hp. eexists _, p. split_and!; [done..|]. apply suffix_refl, Hp. Qed.
Lemma safe_fail {A} : safe (fail (A := A)).
Proof. intros p Hp. eexists _, p. split_and!; [done..|]. apply suffix_refl, Hp. Qed.
Lemma safe_guard b : safe (guard_ b).
Proof. destruct b; [apply safe_ret|apply safe_fail]. Qed.
Lemma safe_remaining : safe PACKET_remaining.
Proof. intros p Hp. eexists _, p. split_and!; [done..|]. apply suffix_refl, Hp. Qed.
Lemma safe_data : safe PACKET_data.
Proof. intros p Hp. eexists _, p. split_and!; [done..|]. apply suffix_refl, Hp. Qed.

Lemma safe_bind {A B} (m : M PACKET A) (f : A -> M PACKET B) :
  safe m -> (forall a, safe (f a)) -> safe (m ≫= f).
Proof.
  intros Hm Hf p Hp. destruct (Hm p Hp) as (r & p1 & E & Hr & Hp1 & Hs).
  unfold mbind, M_bind. rewrite E. destruct r as [a| |]; [|by eexists _, p1|done].
  destruct (Hf a p1 Hp1) as (r2 & p2 & E2 & Hr2 & Hp2 & Hs2).
  eexists r2, p2. split_and!; try done. by eapply suffix_trans.
Qed.

(** Code that runs once [len] bytes are known to remain. *)
Lemma safe_need {A} n (f : M PACKET A) :
  (forall p, packet_ok p -> n <= remaining p ->
     exists r p', f p = (r, p') /\ r <> Undef /\ packet_ok p' /\ suffix_of p' p) ->
  safe (need n;; f).
Proof.
  intros Hf [c rem] Hp. destruct (Z.lt_ge_cases rem n).
  - erewrite bind_err by (by apply need_err). eexists _, _.
    split_and!; [done..|]. apply suffix_refl, Hp.
  - erewrite bind_ret by (by apply need_ok). by apply Hf.
Qed.

Lemma forward_safe p n :
  packet_ok p -> 0 <= n <= remaining p ->
  exists p', packet_forward n p = (Ret tt, p') /\ packet_ok p' /\ suffix_of p' p.
Proof.
  intros [Hr Hs Hb] Hn. eexists. split; [reflexivity|].
  assert (E : u64 (remaining p - n) = remaining p - n) by (apply u64_id; unfold is_u64; lia).
  split.
  - split; cbn [curr remaining]; rewrite ?E; [|lia|by apply Forall_drop].
    rewrite length_drop. lia.
  - exists n. cbn [curr remaining]. rewrite E. split_and!; done || lia.
Qed.

(** A peek followed by the matching forward. *)
Lemma peek_forward_safe {A} n (peek : M PACKET A) :
  0 <= n ->
  (forall p, packet_ok p -> peek p = (Err, p) \/ (exists a, peek p = (Ret a, p)) /\ n <= remaining p) ->
  safe (a ← peek; packet_forward n;; mret a).
Proof.
  intros Hn Hpeek p Hp. destruct (Hpeek p Hp) as [E|[[a E] Hle]].
  - erewrite bind_err by exact E. eexists _, p. split_and!; [done..|]. apply suffix_refl, Hp.
  - erewrite bind_ret by exact E.
    destruct (forward_safe p n Hp) as (p' & E' & Hp' & Hs); [lia|].
    erewrite bind_ret by exact E'. by eexists _, p'.
Qed.

Lemma load_in p i : packet_ok p -> Z.of_nat i < remaining p -> exists b, load i p = (Ret b, p) /\ is_u8 b.
Proof.
  intros [Hr _ Hb] Hi. unfold load. destruct (curr p !! i) as [b|] eqn:E.
  - exists b. split; [done|]. by eapply Forall_lookup in Hb.
  - apply lookup_ge_None in E. lia.
Qed.

Ltac load_next i p :=
  let b := fresh "b" in let E := fresh "E" in
  destruct (load_in p i) as (b & E & _); [done|cbn [remaining]; lia|]; erewrite bind_ret by exact E.

Lemma peek_bytes_cases n p :
  packet_ok p -> PACKET_peek_bytes n p = (Err, p) \/
  (exists a, PACKET_peek_bytes n p = (Ret a, p)) /\ n <= remaining p.
Proof.
  intros Hp. destruct p as [c rem]. unfold PACKET_peek_bytes. destruct (Z.lt_ge_cases rem n).
  - left. by erewrite bind_err by (by apply need_err).
  - right. split; [|done]. eexists. by erewrite bind_ret by (by apply need_ok).
Qed.

Lemma get_bytes_safe n : 0 <= n -> safe (PACKET_get_bytes n).
Proof. intros Hn. apply peek_forward_safe; [done|]. intros. by apply peek_bytes_cases. Qed.

Lemma PACKET_forward_safe n : 0 <= n -> safe (PACKET_forward n).
Proof.
  intros Hn. apply safe_need. intros p Hp Hle.
  destruct (forward_safe p n Hp) as (p' & E & Hp' & Hs); [lia|]. by eexists _, p'.
Qed.

Lemma copy_bytes_safe n : 0 <= n -> safe (PACKET_copy_bytes n).
Proof.
  intros Hn. apply peek_forward_safe; [done|]. intros [c rem] Hp.
  unfold PACKET_peek_copy_bytes. destruct (Z.lt_ge_cases rem n).
  - left. by erewrite bind_err by (by apply need_err).
  - right. split; [|done]. erewrite bind_ret by (by apply need_ok).
    unfold PACKET_data, mbind, M_bind. cbn [curr]. destruct Hp as [Hr _ _]. cbn [curr remaining] in Hr.
    destruct (Z.ltb_spec (Z.of_nat (length c)) n); [lia|]. by eexists.
Qed.

Lemma get_1_safe : safe PACKET_get_1.
Proof.
  apply (peek_forward_safe 1); [lia|]. intros p Hp. unfold PACKET_peek_1, PACKET_remaining, mbind, M_bind.
  destruct (Z.eqb_spec (remaining p) 0); [by left|right]. cbn.
  destruct (load_in p 0 Hp) as (b & -> & _); [destruct Hp; lia|]. split; [by eexists|]. destruct Hp; lia.
Qed.

Lemma get_net_2_safe : safe PACKET_get_net_2.
Proof.
  apply (peek_forward_safe 2); [lia|]. intros [c rem] Hp. unfold PACKET_peek_net_2.
  destruct (Z.lt_ge_cases rem 2); [left; by erewrite bind_err by (by apply need_err)|right].
  split; [|done]. erewrite bind_ret by (by apply need_ok).
  load_next 0%nat (mkPacket c rem). load_next 1%nat (mkPacket c rem). by eexists.
Qed.

Lemma get_net_8_safe : safe PACKET_get_net_8.
Proof.
  apply (peek_forward_safe 8); [lia|]. intros [c rem] Hp. unfold PACKET_peek_net_8.
  destruct (Z.lt_ge_cases rem 8); [left; by erewrite bind_err by (by apply need_err)|right].
  split; [|done]. erewrite bind_ret by (by apply need_ok).
  load_next 0%nat (mkPacket c rem). load_next 1%nat (mkPacket c rem).
  load_next 2%nat (mkPacket c rem). load_next 3%nat (mkPacket c rem).
  load_next 4%nat (mkPacket c rem). load_next 5%nat (mkPacket c rem).
  load_next 6%nat (mkPacket c rem). load_next 7%nat (mkPacket c rem). by eexists.
Qed.

(** What the integer readers find in a packet within its buffer. *)
Lemma vlint_cases p :
  packet_ok p ->
  vlint_enclen p = (Err, p) \/
  exists n v, vlint_enclen p = (Ret n, p) /\ vlint_decode_at p = (Ret v, p) /\
    1 <= n <= remaining p /\ 0 <= v <= OSSL_QUIC_VLINT_MAX.
Proof.
  intros Hp. pose proof Hp as [Hr _ Hb]. destruct p as [c rem]. cbn [curr remaining] in *.
  unfold vlint_enclen, PACKET_remaining, mbind, M_bind. cbn [remaining].
  destruct (Z.ltb_spec rem 1); [by left|].
  destruct c as [|b l]; [cbn in Hr; lia|]. apply Forall_cons in Hb as [Hb Hl].
  cbn. set (n := ossl_quic_vlint_decode_len b).
  destruct (Z.ltb_spec rem n); [by left|right].
  pose proof (decode_len_valid b Hb) as Hn. fold n in Hn. cbn [length] in Hr.
  exists n. unfold vlint_decode_at, PACKET_data, mbind, M_bind. cbn [curr].
  rewrite decode_unchecked_spec by (done || (fold n; lia)). fold n.
  eexists. split_and!; [done..|unfold valid_len in Hn; lia|done| |].
  - pose proof (Z.mod_pos_bound b 64 ltac:(lia)).
    apply be_val_range. constructor; [unfold is_u8; lia|by apply Forall_take].
  - cbn [be_val]. set (tl := take _ l).
    assert (Htl : Z.of_nat (length tl) = n - 1)
      by (unfold tl, valid_len in *; rewrite length_take; lia).
    assert (bytes tl) by (by apply Forall_take).
    pose proof (be_val_range tl). rewrite Htl in *.
    pose proof (Z.mod_pos_bound b 64 ltac:(lia)).
    assert (Hpow : 2 ^ (8 * (n - 1)) <= 2 ^ 56) by (apply Z.pow_le_mono_r; unfold valid_len in Hn; lia).
    unfold OSSL_QUIC_VLINT_MAX, OSSL_QUIC_VLINT_8B_MAX. change (Z.shiftl 1 62) with (64 * 2 ^ 56).
    assert (0 < 2 ^ (8 * (n - 1))) by (apply Z.pow_pos_nonneg; unfold valid_len in Hn; lia).
    specialize (H2 H1). clear - H2 H3 Hpow H4. nia.
Qed.

Lemma get_vlint_inv p :
  packet_ok p ->
  PACKET_get_quic_vlint p = (Err, p) \/
  exists v p', PACKET_get_quic_vlint p = (Ret v, p') /\ packet_ok p' /\ suffix_of p' p /\
    0 <= v <= OSSL_QUIC_VLINT_MAX /\ remaining p' < remaining p.
Proof.
  intros Hp. unfold PACKET_get_quic_vlint. destruct (vlint_cases p Hp) as [E|(n & v & E & Ev & Hn & Hv)].
  - left. by erewrite bind_err by exact E.
  - right. erewrite bind_ret by exact E. erewrite bind_ret by exact Ev.
    destruct (forward_safe p n Hp) as (p' & Ef & Hp' & Hs); [lia|].
    erewrite bind_ret by exact Ef. exists v, p'. split_and!; try (done || lia).
    unfold packet_forward, modify in Ef. injection Ef as <-. cbn [remaining].
    destruct Hp. rewrite u64_id by (unfold is_u64; lia). lia.
Qed.

Lemma get_vlint_safe : safe PACKET_get_quic_vlint.
Proof.
  intros p Hp. destruct (get_vlint_inv p Hp) as [E|(v & p' & E & Hp' & Hs & _)].
  - eexists _, p. split_and!; [done..|]. apply suffix_refl, Hp.
  - by eexists _, p'.
Qed.

Lemma skip_vlint_safe : safe PACKET_skip_quic_vlint.
Proof.
  intros p Hp. unfold PACKET_skip_quic_vlint. destruct (vlint_cases p Hp) as [E|(n & v & E & Ev & Hn & Hv)].
  - erewrite bind_err by exact E. eexists _, p. split_and!; [done..|]. apply suffix_refl, Hp.
  - erewrite bind_ret by exact E.
    destruct (forward_safe p n Hp) as (p' & Ef & Hp' & Hs); [lia|]. by eexists _, p'.
Qed.

(** ** Length-prefixed data *)

Definition nonneg_reader (m : M PACKET Z) : Prop :=
  forall p v p', packet_ok p -> m p = (Ret v, p') -> 0 <= v.

Lemma on_copy_safe {A} (m : M PACKET A) : safe m -> safe (on_copy m).
Proof.
  intros Hm p Hp. destruct (Hm p Hp) as (r & p' & E & Hr & Hp' & Hs).
  unfold on_copy. rewrite E. destruct r; [by eexists _, p'| |done].
  eexists _, p. split_and!; [done..|]. apply suffix_refl, Hp.
Qed.

Lemma length_prefixed_safe get_len whole :
  safe get_len -> nonneg_reader get_len -> safe (length_prefixed get_len whole).
Proof.
  intros Hs Hn. apply on_copy_safe. intros p Hp.
  destruct (Hs p Hp) as (r & p1 & E & Hr & Hp1 & Hs1).
  unfold mbind at 1, M_bind. rewrite E. destruct r as [v| |]; [|by eexists _, p1|done].
  specialize (Hn p v p1 Hp E).
  destruct (safe_bind (PACKET_get_bytes v)
    (fun data => r ← PACKET_remaining; guard_ (negb (whole && negb (r =? 0)));; mret (mkPacket data v))
    (get_bytes_safe v Hn)) with (p := p1) as (r2 & p2 & E2 & Hr2 & Hp2 & Hs2); [|done|].
  - intros data. apply safe_bind; [apply safe_remaining|]. intros r.
    apply safe_bind; [apply safe_guard|]. intros _. apply safe_ret.
  - exists r2, p2. split_and!; try done. by eapply suffix_trans.
Qed.

Lemma get_net_3_safe : safe PACKET_get_net_3.
Proof.
  apply (peek_forward_safe 3); [lia|]. intros [c rem] Hp. unfold PACKET_peek_net_3.
  destruct (Z.lt_ge_cases rem 3); [left; by erewrite bind_err by (by apply need_err)|right].
  split; [|done]. erewrite bind_ret by (by apply need_ok).
  load_next 0%nat (mkPacket c rem). load_next 1%nat (mkPacket c rem).
  load_next 2%nat (mkPacket c rem). by eexists.
Qed.

Lemma get_net_4_safe : safe PACKET_get_net_4.
Proof.
  apply (peek_forward_safe 4); [lia|]. intros [c rem] Hp. unfold PACKET_peek_net_4.
  destruct (Z.lt_ge_cases rem 4); [left; by erewrite bind_err by (by apply need_err)|right].
  split; [|done]. erewrite bind_ret by (by apply need_ok).
  load_next 0%nat (mkPacket c rem). load_next 1%nat (mkPacket c rem).
  load_next 2%nat (mkPacket c rem). load_next 3%nat (mkPacket c rem). by eexists.
Qed.

Lemma get_4_safe : safe PACKET_get_4.
Proof.
  apply (peek_forward_safe 4); [lia|]. intros [c rem] Hp. unfold PACKET_peek_4.
  destruct (Z.lt_ge_cases rem 4); [left; by erewrite bind_err by (by apply need_err)|right].
  split; [|done]. erewrite bind_ret by (by apply need_ok).
  load_next 0%nat (mkPacket c rem). load_next 1%nat (mkPacket c rem).
  load_next 2%nat (mkPacket c rem). load_next 3%nat (mkPacket c rem). by eexists.
Qed.

Lemma load_nonneg i p b p' : packet_ok p -> load i p = (Ret b, p') -> 0 <= b /\ p' = p.
Proof.
  intros [_ _ Hb] E. unfold load in E. destruct (curr p !! i) eqn:El; [|done].
  injection E as -> <-. split; [|done]. eapply Forall_lookup in Hb; [|exact El].
  unfold is_u8 in Hb. lia.
Qed.

Lemma need_same n p u p' : need n p = (Ret u, p') -> p' = p.
Proof.
  unfold need, PACKET_remaining, mbind, M_bind. destruct (_ <? _); unfold guard_, fail, mret, M_ret; cbn; congruence.
Qed.

(** Walks through a successful run of a reader, collecting the signs of the
    bytes it loads. *)
Ltac run_reader E Hp :=
  repeat match type of E with
  | (mbind _ _) _ = (Ret _, _) =>
      let a := fresh "a" in let q := fresh "q" in let F := fresh "F" in
      apply bind_inv in E as (a & q & F & E);
      first [apply need_same in F; subst q
            |apply (load_nonneg _ _ _ _ Hp) in F as [F ->]
            |idtac]
  end.

Lemma get_net_2_nonneg : nonneg_reader PACKET_get_net_2.
Proof.
  intros p v p' Hp E. unfold PACKET_get_net_2 in E. apply bind_inv in E as (w & q & E & E').
  apply bind_inv in E' as (u & q' & _ & E'). injection E' as -> _.
  unfold PACKET_peek_net_2 in E. run_reader E Hp. injection E as <- _.
  unfold sh. rewrite ?Z.lor_nonneg, ?Z.shiftl_nonneg. lia.
Qed.

Lemma get_net_3_nonneg : nonneg_reader PACKET_get_net_3.
Proof.
  intros p v p' Hp E. unfold PACKET_get_net_3 in E. apply bind_inv in E as (w & q & E & E').
  apply bind_inv in E' as (u & q' & _ & E'). injection E' as -> _.
  unfold PACKET_peek_net_3 in E. run_reader E Hp. injection E as <- _.
  unfold sh. rewrite ?Z.lor_nonneg, ?Z.shiftl_nonneg. lia.
Qed.

Lemma get_1_nonneg : nonneg_reader PACKET_get_1.
Proof.
  intros p v p' Hp E. unfold PACKET_get_1 in E. apply bind_inv in E as (w & q & E & E').
  apply bind_inv in E' as (u & q' & _ & E'). injection E' as -> _.
  unfold PACKET_peek_1 in E. apply bind_inv in E as (r & q1 & F & E).
  injection F as _ <-. apply bind_inv in E as (? & q1 & F & E).
  destruct (negb _); [|done]. injection F as _ <-.
  by apply (load_nonneg _ _ _ _ Hp) in E as [? _].
Qed.

Lemma quic_length_prefixed_safe : safe PACKET_get_quic_length_prefixed.
Proof.
  apply on_copy_safe. intros p Hp. destruct (get_vlint_inv p Hp) as [E|(v & p1 & E & Hp1 & Hs & Hv & _)].
  - erewrite bind_err by exact E. eexists _, p. split_and!; [done..|]. apply suffix_refl, Hp.
  - erewrite bind_ret by exact E.
    destruct (safe_bind (guard_ (negb (SIZE_MAX <? v)))
      (fun _ => data ← PACKET_get_bytes v; mret (mkPacket data v)) (safe_guard _)) with (p := p1)
      as (r2 & p2 & E2 & Hr2 & Hp2 & Hs2); [|done|].
    + intros _. apply safe_bind; [apply get_bytes_safe; lia|]. intros. apply safe_ret.
    + exists r2, p2. split_and!; try done. by eapply suffix_trans.
Qed.

Lemma on_copy_err {A} (m : M PACKET A) p p' : on_copy m p = (Err, p') -> p' = p.
Proof. unfold on_copy. destruct (m p) as [[] ?]; congruence. Qed.

(** On a packet that lies within its buffer no reader loads a byte outside
    the buffer, whatever the input, and the packet it leaves is the unread rest
    of the one it was given; and a length-prefixed reader that fails leaves the
    packet untouched. *)
Theorem packet_readers_safe :
  (safe PACKET_get_1 /\ safe PACKET_get_net_2 /\ safe PACKET_get_net_3 /\ safe PACKET_get_net_4 /\
   safe PACKET_get_net_8 /\ safe PACKET_get_4 /\ safe PACKET_get_quic_vlint /\
   safe PACKET_skip_quic_vlint) /\
  (forall n, 0 <= n -> safe (PACKET_get_bytes n) /\ safe (PACKET_copy_bytes n) /\ safe (PACKET_forward n)) /\
  (forall m, m ∈ [PACKET_get_length_prefixed_1; PACKET_as_length_prefixed_1;
                  PACKET_get_length_prefixed_2; PACKET_as_length_prefixed_2;
                  PACKET_get_length_prefixed_3; PACKET_get_quic_length_prefixed] ->
     safe m /\ forall p p', m p = (Err, p') -> p' = p).
Proof.
  split; [|split].
  - split_and!; auto using get_1_safe, get_net_2_safe, get_net_3_safe, get_net_4_safe, get_net_8_safe,
      get_4_safe, get_vlint_safe, skip_vlint_safe.
  - intros n Hn. split_and!; auto using get_bytes_safe, copy_bytes_safe, PACKET_forward_safe.
  - intros m Hm. rewrite !elem_of_cons in Hm.
    destruct Hm as [->|[->|[->|[->|[->|[->|Hm]]]]]]; [..|by apply elem_of_nil in Hm];
      (split; [first [apply quic_length_prefixed_safe | apply length_prefixed_safe];
                 auto using get_1_safe, get_net_2_safe, get_net_3_safe, get_1_nonneg,
                   get_net_2_nonneg, get_net_3_nonneg
              |intros p p'; apply on_copy_err]).
Qed.

End Packet.
