(* ===== verification/BufMem.v ===== *)
(** * Growable buffers

    Model of [crypto/buffer/buffer.c].  [bm_data] holds the [bm_length] bytes
    in use of the block [data] points to ([None] when it is null).  The bytes
    between [length] and [max] are not represented: every function that moves
    [length] over them clears them first.  The outcomes of the allocations the
    code makes are read from a [heap]. *)
From Stdlib Require Import ZArith Lia.
From stdpp Require Import base tactics list.
From S2P Require Import Prelude.
#[local] Open Scope Z_scope.

Module BufMem.

(** Whether each successive allocation succeeds; those past the end of the
    list do. *)
Definition heap := list bool.
Definition malloc (h : heap) : bool * heap :=
  match h with [] => (true, []) | b :: h => (b, h) end.

Record BUF_MEM := mkBuf {
  bm_length : Z; bm_data : option (list Z); bm_max : Z; bm_flags : Z
}.

Definition BUF_MEM_FLAG_SECURE : Z := 1.
Definition LIMIT_BEFORE_EXPANSION : Z := 0x5ffffffc.

Definition zeros (n : Z) : list Z := replicate (Z.to_nat n) 0.

Definition BUF_MEM_new (h : heap) : option BUF_MEM * heap :=
  let '(ok, h) := malloc h in
  if negb ok then (None, h) else (Some (mkBuf 0 None 0 0), h).

Definition BUF_MEM_new_ex (h : heap) (flags : Z) : option BUF_MEM * heap :=
  let '(ret, h) := BUF_MEM_new h in
  (match ret with
   | Some r => Some (mkBuf (bm_length r) (bm_data r) (bm_max r) flags)
   | None => None
   end, h).

(** A new block of [len] bytes holding the bytes in use of the old one. *)
Definition sec_alloc_realloc (h : heap) (str : BUF_MEM) (len : Z) : option (list Z) * heap :=
  let '(ok, h) := malloc h in
  (if ok then Some (default [] (bm_data str)) else None, h).

(** [OPENSSL_realloc(str->data, n)] and [OPENSSL_clear_realloc]: likewise. *)
Definition realloc_data (h : heap) (str : BUF_MEM) (n : Z) : option (list Z) * heap :=
  let '(ok, h) := malloc h in
  (if ok then Some (default [] (bm_data str)) else None, h).

Definition BUF_MEM_grow (h : heap) (str : BUF_MEM) (len : Z) : Z * BUF_MEM * heap :=
  if len <=? bm_length str then
    (len, mkBuf len (take (Z.to_nat len) <$> bm_data str) (bm_max str) (bm_flags str), h)
  else if len <=? bm_max str then
    (len, mkBuf len ((fun d => d ++ zeros (len - bm_length str)) <$> bm_data str)
            (bm_max str) (bm_flags str), h)
  else if LIMIT_BEFORE_EXPANSION <? len then (0, str, h)
  else
    let n := (len + 3) / 3 * 4 in
    let '(ret, h) := if negb (Z.land (bm_flags str) BUF_MEM_FLAG_SECURE =? 0)
                     then sec_alloc_realloc h str n else realloc_data h str n in
    match ret with
    | None => (0, str, h)
    | Some d => (len, mkBuf len (Some (d ++ zeros (len - bm_length str))) n (bm_flags str), h)
    end.

(** The same but for the clearing of the bytes that fall out of use or are
    left behind in the old block, which are not represented. *)
Definition BUF_MEM_grow_clean (h : heap) (str : BUF_MEM) (len : Z) : Z * BUF_MEM * heap :=
  if len <=? bm_length str then
    (len, mkBuf len (take (Z.to_nat len) <$> bm_data str) (bm_max str) (bm_flags str), h)
  else if len <=? bm_max str then
    (len, mkBuf len ((fun d => d ++ zeros (len - bm_length str)) <$> bm_data str)
            (bm_max str) (bm_flags str), h)
  else if LIMIT_BEFORE_EXPANSION <? len then (0, str, h)
  else
    let n := (len + 3) / 3 * 4 in
    let '(ret, h) := if negb (Z.land (bm_flags str) BUF_MEM_FLAG_SECURE =? 0)
                     then sec_alloc_realloc h str n else realloc_data h str n in
    match ret with
    | None => (0, str, h)
    | Some d => (len, mkBuf len (Some (d ++ zeros (len - bm_length str))) n (bm_flags str), h)
    end.

(** [BUF_reverse]: with [in], the loop that fills [out] from its end; without,
    the loop that swaps the ends of [out].  [i] counts the iterations left. *)
Fixpoint reverse_copy (input acc : list Z) : list Z :=
  match input with
  | [] => acc
  | b :: input => reverse_copy input (b :: acc)
  end.

Fixpoint reverse_swap (i : nat) (out q : nat) (buf : list Z) : list Z :=
  match i with
  | O => buf
  | S i =>
      match buf !! q, buf !! out with
      | Some c, Some d => reverse_swap i (S out) (q - 1) (<[out := c]> (<[q := d]> buf))
      | _, _ => buf
      end
  end.

Definition BUF_reverse (out : list Z) (input : option (list Z)) : list Z :=
  match input with
  | Some l => reverse_copy l []
  | None => reverse_swap (length out / 2) 0 (length out - 1) out
  end.

(** ** Lemmas *)

Record buf_ok (b : BUF_MEM) : Prop := {
  bo_len : 0 <= bm_length b <= bm_max b;
  bo_max : bm_max b < UINT64_MOD;
  bo_data : match bm_data b with
            | Some d => Z.of_nat (length d) = bm_length b
            | None => bm_length b = 0 /\ bm_max b = 0
            end
}.

(** The bytes in use. *)
Definition buf_bytes (b : BUF_MEM) : list Z := default [] (bm_data b).

Lemma buf_bytes_length b : buf_ok b -> Z.of_nat (length (buf_bytes b)) = bm_length b.
Proof. intros [_ _ H]. unfold buf_bytes. destruct (bm_data b); simpl; lia. Qed.

Lemma length_zeros n : 0 <= n -> Z.of_nat (length (zeros n)) = n.
Proof. intros. unfold zeros. rewrite length_replicate. lia. Qed.

Lemma grow_up_spec h str len :
  buf_ok str -> bm_length str < len ->
  let '(r, str', h') := BUF_MEM_grow h str len in
  (r = 0 /\ str' = str) \/
  (r = len /\ buf_ok str' /\ bm_length str' = len /\ is_Some (bm_data str') /\
   buf_bytes str' = buf_bytes str ++ zeros (len - bm_length str)).
Proof.
  intros Hok Hlt. pose proof Hok as [Hl Hm Hd]. unfold BUF_MEM_grow.
  destruct (Z.leb_spec len (bm_length str)); [lia|].
  destruct (Z.leb_spec len (bm_max str)).
  - right. split; [done|]. unfold buf_bytes. destruct (bm_data str) as [d|] eqn:Ed; [|lia].
    split_and!; [|done..|by eexists|done]. split; cbn; try lia.
    rewrite length_app, Nat2Z.inj_add, length_zeros by lia. lia.
  - zcase; [by left|]. unfold LIMIT_BEFORE_EXPANSION in *.
    assert (Hn : len <= (len + 3) / 3 * 4 < UINT64_MOD)
      by (pose proof (Z.div_mod (len + 3) 3); pose proof (Z.mod_pos_bound (len + 3) 3); lia).
    unfold sec_alloc_realloc, realloc_data. destruct (malloc h) as [ok h'].
    destruct (negb _), ok; try (by left); right; (split_and!; [done| |done|by eexists|done]);
      (split; cbn; [lia..|]); rewrite length_app, Nat2Z.inj_add, length_zeros by lia;
      change (default [] (bm_data str)) with (buf_bytes str); rewrite buf_bytes_length by done; lia.
Qed.

Lemma reverse_copy_spec l : forall acc, reverse_copy l acc = reverse l ++ acc.
Proof.
  induction l as [|b l IH]; intros acc; [done|]. simpl. rewrite IH, reverse_cons, <- app_assoc. done.
Qed.

(** The swap loop turns [pre ++ mid ++ post] with [pre], [post] swapped
    already into the same with [mid] reversed. *)
Lemma reverse_swap_spec n : forall mid pre post i out q,
  length mid = n -> i = (length mid / 2)%nat -> out = length pre ->
  q = (length pre + length mid - 1)%nat ->
  reverse_swap i out q (pre ++ mid ++ post) = pre ++ reverse mid ++ post.
Proof.
  induction n as [n IH] using lt_wf_ind. intros mid pre post i out q Hn -> -> ->.
  destruct mid as [|a mid]; [done|].
  destruct (decide (mid = [])) as [->|Hne]; [done|].
  destruct (exists_last Hne) as (mid' & b & ->).
  assert (Hdiv : (length (a :: mid' ++ [b]) / 2 = S (length mid' / 2))%nat).
  { cbn [length]. rewrite length_app. cbn [length].
    replace (S (length mid' + 1)) with (1 * 2 + length mid')%nat by lia.
    rewrite Nat.div_add_l by lia. lia. }
  rewrite Hdiv. cbn [reverse_swap].
  set (buf := pre ++ (a :: mid' ++ [b]) ++ post).
  assert (Eb : buf = pre ++ a :: mid' ++ b :: post) by (unfold buf; cbn; by rewrite <- app_assoc).
  replace (length pre + length (a :: mid' ++ [b]) - 1)%nat with (length pre + S (length mid'))%nat
    by (cbn [length]; rewrite length_app; cbn [length]; lia).
  assert (E1 : buf !! (length pre + S (length mid'))%nat = Some b).
  { rewrite Eb, lookup_app_r by lia. replace (length pre + S (length mid') - length pre)%nat
      with (S (length mid')) by lia. change ((mid' ++ b :: post) !! length mid' = Some b).
    rewrite lookup_app_r, Nat.sub_diag by lia. done. }
  assert (E2 : buf !! length pre = Some a) by (rewrite Eb, lookup_app_r, Nat.sub_diag by lia; done).
  rewrite E1, E2.
  assert (E3 : <[length pre := b]> (<[(length pre + S (length mid'))%nat := a]> buf)
               = (pre ++ [b]) ++ mid' ++ a :: post).
  { rewrite Eb, insert_app_r.
    change (<[S (length mid') := a]> (a :: mid' ++ b :: post))
      with (a :: <[length mid' := a]> (mid' ++ b :: post)).
    replace (<[length mid' := a]> (mid' ++ b :: post)) with (mid' ++ a :: post).
    2: { rewrite <- (Nat.add_0_r (length mid')), insert_app_r. done. }
    rewrite <- (Nat.add_0_r (length pre)), insert_app_r, <- app_assoc. done. }
  rewrite E3.
  assert (Hlt : (length mid' < n)%nat) by (subst n; cbn [length]; rewrite length_app; lia).
  rewrite (IH (length mid') Hlt mid' (pre ++ [b]) (a :: post)); try done;
    try (rewrite length_app; cbn [length]; lia).
  rewrite reverse_cons, reverse_app, <- !app_assoc. reflexivity.
Qed.

(** ** Properties *)

(** Growing a buffer keeps its contents: on success the bytes in use are
    the old ones followed by zeros up to the new length; a failure leaves the
    buffer as it was; for the plain and the clearing variant, in ordinary and in
    secure memory.  The in-place and the copying reversal both reverse. *)
Theorem buf_mem_grow_keeps_contents h str len :
  buf_ok str -> bm_length str < len ->
  (forall grow, grow = BUF_MEM_grow \/ grow = BUF_MEM_grow_clean ->
   let '(r, str', _) := grow h str len in
   (r = 0 /\ str' = str) \/
   (r = len /\ buf_ok str' /\ bm_length str' = len /\
    buf_bytes str' = buf_bytes str ++ zeros (len - bm_length str))) /\
  (forall l, BUF_reverse l None = reverse l /\ BUF_reverse l (Some l) = reverse l).
Proof.
  intros Hok Hlt. split.
  - intros grow Hg. assert (grow h str len = BUF_MEM_grow h str len) as -> by (by destruct Hg as [->| ->]).
    pose proof (grow_up_spec h str len Hok Hlt) as H.
    destruct (BUF_MEM_grow h str len) as [[r str'] h'].
    destruct H as [H|(H1 & H2 & H3 & _ & H4)]; [by left|right; by split_and!].
  - intros l. unfold BUF_reverse. split; [|rewrite reverse_copy_spec; apply app_nil_r].
    rewrite <- (app_nil_r l) at 3.
    rewrite (reverse_swap_spec (length l) l [] []); try done. apply app_nil_r.
Qed.

Lemma buf_mem_grow_keeps_contents_witness :
  let b := mkBuf 2 (Some [7; 8]) 4 0 in
  BUF_MEM_grow [] b 5 = (5, mkBuf 5 (Some [7; 8; 0; 0; 0]) 8 0, []) /\
  BUF_reverse [1; 2; 3; 4; 5] None = [5; 4; 3; 2; 1].
Proof.
  cbv zeta. split; [reflexivity|].
  destruct (buf_mem_grow_keeps_contents [] (mkBuf 2 (Some [7; 8]) 4 0) 5) as (_ & H);
    [split; cbn; lia|cbn; lia|].
  apply (H [1; 2; 3; 4; 5]).
Defined.

End BufMem.
