(* ===== verification/WPacket.v ===== *)
(** * Writing packets

    Model of [crypto/packet.c].  A [WPACKET] writes to a growable [BUF_MEM], to
    a fixed buffer, or nowhere, from the front or (for DER) from the end.  A
    pointer it hands out is an offset into its buffer, null ([None]) when there
    is none; storing outside the buffer is undefined behaviour.  The open
    sub-packets are a list, the innermost first. *)
From Stdlib Require Import ZArith Lia.
From stdpp Require Import base tactics list.
From S2P Require Import Prelude QuicVlint BufMem Packet.
Import Vlint BufMem.
#[local] Open Scope Z_scope.

Module WPacket.

Record WPACKET_SUB := mkSub { packet_len : Z; lenbytes : Z; pwritten : Z; flags : Z }.

Record WPACKET := mkW {
  buf : option BUF_MEM; staticbuf : option (list Z);
  curr : Z; written : Z; maxsize : Z; subs : list WPACKET_SUB; endfirst : bool
}.

Definition WPACKET_FLAGS_NON_ZERO_LENGTH : Z := 1.
Definition WPACKET_FLAGS_ABANDON_ON_ZERO_LENGTH : Z := 2.
Definition WPACKET_FLAGS_QUIC_VLINT : Z := 4.
Definition DEFAULT_BUF_SIZE : Z := 256.

(** The state of a function on packets: the packet, and the allocations that
    are still to come. *)
Abbreviation wst := (WPACKET * heap)%type.

Definition set_buf (b : option BUF_MEM) (w : WPACKET) : WPACKET :=
  mkW b (staticbuf w) (curr w) (written w) (maxsize w) (subs w) (endfirst w).
Definition set_staticbuf (b : option (list Z)) (w : WPACKET) : WPACKET :=
  mkW (buf w) b (curr w) (written w) (maxsize w) (subs w) (endfirst w).
Definition set_pos (c wr : Z) (w : WPACKET) : WPACKET :=
  mkW (buf w) (staticbuf w) c wr (maxsize w) (subs w) (endfirst w).
Definition set_maxsize (m : Z) (w : WPACKET) : WPACKET :=
  mkW (buf w) (staticbuf w) (curr w) (written w) m (subs w) (endfirst w).
Definition set_subs (l : list WPACKET_SUB) (w : WPACKET) : WPACKET :=
  mkW (buf w) (staticbuf w) (curr w) (written w) (maxsize w) l (endfirst w).

(** [pkt->...], and an assignment to the packet. *)
Definition pkt : M wst WPACKET := fun s => (Ret s.1, s).
Definition upd (f : WPACKET -> WPACKET) : M wst unit := fun s => (Ret tt, (f s.1, s.2)).

(** [OPENSSL_zalloc(...) == NULL] returns 0. *)
Definition zalloc : M wst unit := fun s =>
  let '(ok, h) := malloc s.2 in (if ok then Ret tt else Err, (s.1, h)).

Definition GETBUF (w : WPACKET) : option (list Z) :=
  match staticbuf w with
  | Some b => Some b
  | None => match buf w with Some b => bm_data b | None => None end
  end.

Definition store_at (l : list Z) (off : nat) (bs : list Z) : list Z :=
  take off l ++ bs ++ drop (off + length bs) l.

(** Stores [bs] from offset [off] of the buffer on. *)
Definition write_buf (off : Z) (bs : list Z) : M wst unit :=
  w ← pkt;
  match GETBUF w with
  | None => undefined
  | Some l =>
      if (off <? 0) || (Z.of_nat (length l) <? off + Z.of_nat (length bs)) then undefined
      else
        let l' := store_at l (Z.to_nat off) bs in
        upd (fun w =>
          match staticbuf w with
          | Some _ => set_staticbuf (Some l') w
          | None => set_buf ((fun b => mkBuf (bm_length b) (Some l') (bm_max b) (bm_flags b)) <$> buf w) w
          end)
  end.

Definition WPACKET_get_curr (w : WPACKET) : option Z :=
  match GETBUF w with
  | None => None
  | Some _ => Some (if endfirst w then maxsize w - curr w else curr w)
  end.

(** [if (BUF_MEM_grow(pkt->buf, newlen) == 0) return 0]. *)
Definition grow_buf (b : BUF_MEM) (newlen : Z) : M wst unit := fun s =>
  let '(r, b', h') := BUF_MEM_grow s.2 b newlen in
  (if r =? 0 then Err else Ret tt, (set_buf (Some b') s.1, h')).

Definition WPACKET_reserve_bytes (len : Z) : M wst (option Z) :=
  w ← pkt;
  guard_ (negb (bool_decide (subs w = [])) && negb (len =? 0));;
  guard_ (negb (u64 (maxsize w - written w) <? len));;
  (match buf w with
   | Some b =>
       if u64 (bm_length b - written w) <? len then
         let reflen := if bm_length b <? len then len else bm_length b in
         let newlen :=
           if SIZE_MAX / 2 <? reflen then SIZE_MAX
           else let n := reflen * 2 in if n <? DEFAULT_BUF_SIZE then DEFAULT_BUF_SIZE else n in
         grow_buf b newlen
       else mret tt
   | None => mret tt
   end);;
  w ← pkt;
  mret (match WPACKET_get_curr w with
        | Some p => Some (if endfirst w then p - len else p)
        | None => None
        end).

Definition WPACKET_allocate_bytes (len : Z) : M wst (option Z) :=
  p ← WPACKET_reserve_bytes len;
  upd (fun w => set_pos (u64 (curr w + len)) (u64 (written w + len)) w);;
  mret p.

Definition maxmaxsize (lenbytes : Z) : Z :=
  if (8 <=? lenbytes) || (lenbytes =? 0) then SIZE_MAX
  else Z.shiftl 1 (lenbytes * 8) - 1 + lenbytes.

(** [if (!m) \{ pkt->subs = NULL; return 0; \}]. *)
Definition or_drop_subs {A} (m : M wst A) : M wst A := fun s =>
  match m s with
  | (Err, s') => (Err, (set_subs [] s'.1, s'.2))
  | r => r
  end.

Definition wpacket_intern_init_len (lenb : Z) : M wst unit :=
  upd (set_pos 0 0);;
  (fun s => match zalloc s with
            | (Err, s') => (Err, (set_subs [] s'.1, s'.2))
            | (Ret _, s') => (Ret tt, (set_subs [mkSub 0 0 0 0] s'.1, s'.2))
            | (Undef, s') => (Undef, s')
            end);;
  if lenb =? 0 then mret tt
  else
    upd (set_subs [mkSub 0 lenb lenb 0]);;
    or_drop_subs (WPACKET_allocate_bytes lenb);;
    mret tt.

Definition WPACKET_init_static_len (b : list Z) (len lenb : Z) : M wst unit :=
  let max := maxmaxsize lenb in
  guard_ (negb (len =? 0));;
  upd (fun w => mkW None (Some b) (curr w) (written w) (if max <? len then max else len) (subs w) false);;
  wpacket_intern_init_len lenb.

Definition WPACKET_init_der (b : list Z) (len : Z) : M wst unit :=
  guard_ (negb (len =? 0));;
  upd (fun w => mkW None (Some b) (curr w) (written w) len (subs w) true);;
  wpacket_intern_init_len 0.

Definition WPACKET_init_len (b : BUF_MEM) (lenb : Z) : M wst unit :=
  upd (fun w => mkW (Some b) None (curr w) (written w) (maxmaxsize lenb) (subs w) false);;
  wpacket_intern_init_len lenb.

Definition WPACKET_init (b : BUF_MEM) : M wst unit := WPACKET_init_len b 0.

Definition WPACKET_init_null (lenb : Z) : M wst unit :=
  upd (fun w => mkW None None (curr w) (written w) (maxmaxsize lenb) (subs w) false);;
  wpacket_intern_init_len 0.

Definition WPACKET_init_null_der : M wst unit :=
  upd (fun w => mkW None None (curr w) (written w) SIZE_MAX (subs w) true);;
  wpacket_intern_init_len 0.

Definition WPACKET_set_flags (fl : Z) : M wst unit :=
  w ← pkt;
  match subs w with
  | [] => fail
  | s :: rest => upd (set_subs (mkSub (packet_len s) (lenbytes s) (pwritten s) fl :: rest))
  end.

(** The loop of [put_value]: [len] bytes from the last to the first, and what
    is left of [value]. *)
Fixpoint put_value_loop (len : nat) (value : Z) (acc : list Z) : list Z * Z :=
  match len with
  | O => (acc, value)
  | S len => put_value_loop len (Z.shiftr value 8) (Z.land value 0xff :: acc)
  end.

Definition put_value (data : option Z) (value len : Z) : M wst unit :=
  match data with
  | None => mret tt
  | Some off =>
      let '(bs, value') := put_value_loop (Z.to_nat len) value [] in
      write_buf off bs;; guard_ (negb (0 <? value'))
  end.

Definition put_quic_value (data : option Z) (value len : Z) : M wst unit :=
  match data with
  | None => mret tt
  | Some off =>
      guard_ (negb (len <? ossl_quic_vlint_encode_len value));;
      write_buf off (ossl_quic_vlint_encode_n value len)
  end.

Definition WPACKET_put_bytes__ (val size : Z) : M wst unit :=
  guard_ (size <=? 8);;
  data ← WPACKET_allocate_bytes size;
  put_value data val size.

Definition WPACKET_put_bytes_u8 (val : Z) : M wst unit := WPACKET_put_bytes__ val 1.
Definition WPACKET_put_bytes_u32 (val : Z) : M wst unit := WPACKET_put_bytes__ val 4.
Definition WPACKET_put_bytes_u64 (val : Z) : M wst unit := WPACKET_put_bytes__ val 8.

(** [while ((tmplen = tmplen >> 8) > 0) numlenbytes++]; a [size_t] is used up
    after eight rounds. *)
Fixpoint count_len_bytes (fuel : nat) (tmplen n : Z) : Z :=
  match fuel with
  | O => n
  | S fuel => let t := Z.shiftr tmplen 8 in if 0 <? t then count_len_bytes fuel t (n + 1) else n
  end.

(** [sub] is one of the open sub-packets; [has_parent] says whether
    [sub->parent] is not null.  A sub-packet is only closed when it is the
    innermost one. *)
Definition wpacket_intern_close (sub : WPACKET_SUB) (has_parent doclose : bool) : M wst unit :=
  w ← pkt;
  let packlen := u64 (written w - pwritten sub) in
  let abandon := negb (Z.land (flags sub) WPACKET_FLAGS_ABANDON_ON_ZERO_LENGTH =? 0) in
  guard_ (negb ((packlen =? 0) && negb (Z.land (flags sub) WPACKET_FLAGS_NON_ZERO_LENGTH =? 0)));;
  (if (packlen =? 0) && abandon then guard_ doclose else mret tt);;
  (if (packlen =? 0) && abandon && (u64 (curr w - lenbytes sub) =? packet_len sub)
   then upd (fun w => set_pos (u64 (curr w - lenbytes sub)) (u64 (written w - lenbytes sub)) w)
   else mret tt);;
  let lenb := if (packlen =? 0) && abandon then 0 else lenbytes sub in
  let plen := if (packlen =? 0) && abandon then 0 else packet_len sub in
  (if 0 <? lenb then
     w ← pkt;
     match GETBUF w with
     | None => mret tt
     | Some _ =>
         if Z.land (flags sub) WPACKET_FLAGS_QUIC_VLINT =? 0
         then put_value (Some plen) packlen lenb
         else put_quic_value (Some plen) packlen lenb
     end
   else if endfirst w && has_parent && (negb (packlen =? 0) || negb abandon) then
     let numlenbytes := count_len_bytes 8 packlen 1 in
     WPACKET_put_bytes__ packlen numlenbytes;;
     if 0x7f <? packlen then WPACKET_put_bytes_u8 (Z.lor numlenbytes 0x80) else mret tt
   else mret tt);;
  if doclose then upd (fun w => set_subs (tail (subs w)) w) else mret tt.

Fixpoint fill_lengths_loop (l : list WPACKET_SUB) : M wst unit :=
  match l with
  | [] => mret tt
  | sub :: parents =>
      wpacket_intern_close sub (negb (bool_decide (parents = []))) false;;
      fill_lengths_loop parents
  end.

Definition WPACKET_fill_lengths : M wst unit :=
  w ← pkt;
  guard_ (negb (bool_decide (subs w = [])));;
  fill_lengths_loop (subs w).

Definition WPACKET_close : M wst unit :=
  w ← pkt;
  match subs w with
  | sub :: _ :: _ => wpacket_intern_close sub true true
  | _ => fail
  end.

Definition WPACKET_finish : M wst unit :=
  w ← pkt;
  match subs w with
  | [sub] => wpacket_intern_close sub false true;; upd (set_subs [])
  | _ => fail
  end.

Definition WPACKET_start_sub_packet_len__ (lenb : Z) : M wst unit :=
  w ← pkt;
  guard_ (negb (bool_decide (subs w = [])));;
  guard_ (negb ((0 <? lenb) && endfirst w));;
  zalloc;;
  upd (fun w => set_subs (mkSub (if lenb =? 0 then 0 else written w) lenb
                            (u64 (written w + lenb)) 0 :: subs w) w);;
  if lenb =? 0 then mret tt
  else WPACKET_allocate_bytes lenb;; mret tt.

Definition WPACKET_start_sub_packet : M wst unit := WPACKET_start_sub_packet_len__ 0.

Definition WPACKET_sub_allocate_bytes__ (len lenb : Z) : M wst (option Z) :=
  WPACKET_start_sub_packet_len__ lenb;;
  p ← WPACKET_allocate_bytes len;
  WPACKET_close;; mret p.

Definition WPACKET_sub_reserve_bytes__ (len lenb : Z) : M wst (option Z) :=
  w ← pkt;
  guard_ (negb (endfirst w && (0 <? lenb)));;
  p ← WPACKET_reserve_bytes (u64 (lenb + len));
  mret (match p with Some p => Some (p + lenb) | None => None end).

Definition WPACKET_set_max_size (size : Z) : M wst unit :=
  w ← pkt;
  match last (subs w) with
  | None => fail
  | Some sub =>
      let lenb := if lenbytes sub =? 0 then 8 else lenbytes sub in
      guard_ (negb ((maxmaxsize lenb <? size) || (size <? written w)));;
      upd (set_maxsize size)
  end.

Definition WPACKET_memset (ch len : Z) : M wst unit :=
  if len =? 0 then mret tt
  else
    dest ← WPACKET_allocate_bytes len;
    match dest with
    | Some p => write_buf p (replicate (Z.to_nat len) (u8 ch))
    | None => mret tt
    end.

(** [src] is the [len] bytes to copy. *)
Definition WPACKET_memcpy (src : list Z) : M wst unit :=
  let len := Z.of_nat (length src) in
  if len =? 0 then mret tt
  else
    dest ← WPACKET_allocate_bytes len;
    match dest with Some p => write_buf p src | None => mret tt end.

Definition WPACKET_sub_memcpy__ (src : list Z) (lenb : Z) : M wst unit :=
  WPACKET_start_sub_packet_len__ lenb;; WPACKET_memcpy src;; WPACKET_close.

Definition WPACKET_get_total_written (w : WPACKET) : Z := written w.

Definition WPACKET_get_length (w : WPACKET) : option Z :=
  match subs w with [] => None | s :: _ => Some (u64 (written w - pwritten s)) end.

Definition WPACKET_is_null_buf (w : WPACKET) : bool := is_null (buf w) && is_null (staticbuf w).

Definition WPACKET_cleanup : M wst unit := upd (set_subs []).

(** ** QUIC *)

Definition WPACKET_start_quic_sub_packet_bound (max_len : Z) : M wst unit :=
  let enclen := ossl_quic_vlint_encode_len max_len in
  guard_ (negb (enclen =? 0));;
  WPACKET_start_sub_packet_len__ enclen;;
  w ← pkt;
  match subs w with
  | [] => undefined
  | s :: rest =>
      upd (set_subs (mkSub (packet_len s) (lenbytes s) (pwritten s)
                       (Z.lor (flags s) WPACKET_FLAGS_QUIC_VLINT) :: rest))
  end.

Definition WPACKET_start_quic_sub_packet : M wst unit :=
  WPACKET_start_quic_sub_packet_bound OSSL_QUIC_VLINT_4B_MIN.

Definition WPACKET_quic_sub_allocate_bytes (len : Z) : M wst (option Z) :=
  WPACKET_start_quic_sub_packet_bound len;;
  p ← WPACKET_allocate_bytes len;
  WPACKET_close;; mret p.

(** The encoder stores through the pointer without a test: undefined when the
    packet has no buffer. *)
Definition WPACKET_quic_write_vlint (v : Z) : M wst unit :=
  let enclen := ossl_quic_vlint_encode_len v in
  guard_ (negb (enclen =? 0));;
  b ← WPACKET_allocate_bytes enclen;
  match b with
  | Some p => write_buf p (ossl_quic_vlint_encode v)
  | None => undefined
  end.

(** ** Well-formed packets *)

Definition backed (w : WPACKET) : bool := negb (WPACKET_is_null_buf w).

(** The open sub-packets below position [wr]: each starts where its parent is
    already open and keeps its length field in front of its contents. *)
Fixpoint subs_ok (ef : bool) (wr : Z) (l : list WPACKET_SUB) : Prop :=
  match l with
  | [] => True
  | s :: rest =>
      0 <= lenbytes s /\ 0 <= pwritten s - lenbytes s /\ pwritten s <= wr /\
      packet_len s = (if lenbytes s =? 0 then 0 else pwritten s - lenbytes s) /\
      (ef = true -> lenbytes s = 0) /\
      (Z.land (flags s) WPACKET_FLAGS_QUIC_VLINT <> 0 -> lenbytes s = 0 \/ valid_len (lenbytes s)) /\
      subs_ok ef (pwritten s - lenbytes s) rest
  end.

Record wp_ok (w : WPACKET) : Prop := {
  wo_pos : curr w = written w;
  wo_written : 0 <= written w <= maxsize w;
  wo_maxsize : maxsize w < UINT64_MOD;
  wo_buf : match staticbuf w, buf w with
           | Some l, None => maxsize w <= Z.of_nat (length l)
           | None, Some b => buf_ok b /\ written w <= bm_length b /\ endfirst w = false
           | None, None => True
           | Some _, Some _ => False
           end;
  wo_subs : subs_ok (endfirst w) (written w) (subs w)
}.

(** What has been written so far, for a packet filled from the front. *)
Definition wbytes (w : WPACKET) : list Z := default [] (GETBUF w).
Definition content (w : WPACKET) : list Z := take (Z.to_nat (written w)) (wbytes w).

(** What writing does not change. *)
Definition frame (w w' : WPACKET) : Prop :=
  maxsize w' = maxsize w /\ subs w' = subs w /\ endfirst w' = endfirst w /\
  is_null (staticbuf w') = is_null (staticbuf w) /\ is_null (buf w') = is_null (buf w).

(** All allocations to come succeed. *)
Abbreviation all_ok h := (Forall (eq true) h).

(** A fixed buffer with an open packet and room for [n] more bytes. *)
Definition fits (s : wst) (n : Z) : Prop :=
  staticbuf s.1 <> None /\ subs s.1 <> [] /\ all_ok s.2 /\ written s.1 + n <= maxsize s.1.

Definition extends (w w' : WPACKET) (bs : list Z) : Prop :=
  wp_ok w' /\ frame w w' /\ written w' = written w + Z.of_nat (length bs) /\
  content w' = content w ++ bs.

(** [appends m bs]: on a well-formed packet that has a buffer and is filled
    from the front, [m] appends exactly [bs]; it has no undefined behaviour,
    and the only failures are for want of room or memory. *)
Definition appends {A} (m : M wst A) (bs : list Z) : Prop :=
  forall w h, wp_ok w -> backed w = true -> endfirst w = false ->
  (exists s', m (w, h) = (Err, s') /\ ~ fits (w, h) (Z.of_nat (length bs))) \/
  (exists a w' h', m (w, h) = (Ret a, (w', h')) /\ extends w w' bs /\ (all_ok h -> all_ok h')).

Lemma frame_refl w : frame w w.
Proof. by unfold frame. Qed.

Lemma frame_trans w1 w2 w3 : frame w1 w2 -> frame w2 w3 -> frame w1 w3.
Proof. unfold frame. intros (? & ? & ? & ? & ?) (? & ? & ? & ? & ?). split_and!; congruence. Qed.

Lemma frame_backed w w' : frame w w' -> backed w' = backed w.
Proof. intros (_ & _ & _ & E1 & E2). unfold backed, WPACKET_is_null_buf. by rewrite E1, E2. Qed.

Lemma frame_static w w' : frame w w' -> staticbuf w <> None -> staticbuf w' <> None.
Proof. intros (_ & _ & _ & E & _). by destruct (staticbuf w), (staticbuf w'). Qed.

Lemma wbytes_length w : wp_ok w -> backed w = true -> written w <= Z.of_nat (length (wbytes w)).
Proof.
  intros [_ Hw _ Hb _] Hbk. unfold wbytes, GETBUF, backed, WPACKET_is_null_buf in *.
  destruct (staticbuf w) as [l|], (buf w) as [b|]; try done; cbn in *; try lia.
  destruct Hb as (Hok & Hl & _). rewrite <- (buf_bytes_length b Hok) in Hl.
  unfold buf_bytes in Hl. lia.
Qed.

Lemma content_length w : wp_ok w -> backed w = true -> Z.of_nat (length (content w)) = written w.
Proof.
  intros Hok Hb. pose proof (wbytes_length w Hok Hb). destruct Hok as [_ Hw _ _ _].
  unfold content. rewrite length_take. lia.
Qed.

Lemma store_at_end a g bs : length g = length bs -> store_at (a ++ g) (length a) bs = a ++ bs.
Proof.
  intros Hl. unfold store_at. rewrite take_app_length. f_equal.
  rewrite <- Hl, <- length_app, drop_all. apply app_nil_r.
Qed.

Lemma store_at_mid a g b bs :
  length g = length bs -> store_at (a ++ g ++ b) (length a) bs = a ++ bs ++ b.
Proof.
  intros Hl. unfold store_at. rewrite take_app_length. do 2 f_equal.
  by rewrite <- Hl, app_assoc, <- length_app, drop_app_length.
Qed.

Lemma length_store_at l off bs :
  (off + length bs <= length l)%nat -> length (store_at l off bs) = length l.
Proof. intros. unfold store_at. rewrite !length_app, length_take, length_drop. lia. Qed.

Lemma take_store_at l off bs n :
  (off + length bs <= n <= length l)%nat ->
  take n (store_at l off bs) = store_at (take n l) off bs.
Proof.
  intros Hn. unfold store_at. rewrite take_app_ge by (rewrite length_take; lia).
  rewrite length_take, Nat.min_l by lia. rewrite take_app_ge by lia.
  rewrite take_take, Nat.min_l by lia. do 2 f_equal.
  rewrite take_drop_commute. f_equal. f_equal. lia.
Qed.

Lemma all_ok_malloc h ok h' : malloc h = (ok, h') -> all_ok h -> ok = true /\ all_ok h'.
Proof.
  destruct h as [|b h]; intros [= <- <-]; [done|]. intros [<- ?]%Forall_cons. done.
Qed.

Lemma grow_heap h b n r b' h' : BUF_MEM_grow h b n = (r, b', h') -> all_ok h -> all_ok h'.
Proof.
  unfold BUF_MEM_grow, sec_alloc_realloc, realloc_data. intros E Hall.
  destruct (malloc h) as [ok h1] eqn:Em. pose proof (all_ok_malloc h ok h1 Em Hall) as [-> Hall'].
  destruct (n <=? _); [by injection E as _ _ <-|]. destruct (n <=? _); [by injection E as _ _ <-|].
  destruct (_ <? n); [by injection E as _ _ <-|]. destruct (negb _); by injection E as _ _ <-.
Qed.

(** ** Reserving and storing *)

Lemma pkt_bind {A} (f : WPACKET -> M wst A) s : (pkt ≫= f) s = f s.1 s.
Proof. by destruct s. Qed.
Lemma upd_bind {A} g (f : unit -> M wst A) s : (upd g ≫= f) s = f tt (g s.1, s.2).
Proof. done. Qed.

(** The growth step of [WPACKET_reserve_bytes]. *)
Lemma grow_cases w h b newlen :
  wp_ok w -> buf w = Some b -> bm_length b < newlen ->
  let '(r, b', h') := BUF_MEM_grow h b newlen in
  r = 0 \/
  (r = newlen /\ r <> 0 /\ wp_ok (set_buf (Some b') w) /\ frame w (set_buf (Some b') w) /\
   bm_length b' = newlen /\ content (set_buf (Some b') w) = content w).
Proof.
  intros Hok Hb Hlt. pose proof Hok as [Hp Hw Hm Hbuf Hs]. rewrite Hb in Hbuf.
  destruct (staticbuf w) as [|] eqn:Est; [done|]. destruct Hbuf as (Hbok & Hwl & Hef).
  pose proof (grow_up_spec h b newlen Hbok Hlt) as Hg.
  destruct (BUF_MEM_grow h b newlen) as [[r b'] h'].
  destruct Hg as [[-> _]|(-> & Hbok' & Hl' & [d' Hd'] & Hbytes)]; [by left|right].
  assert (0 <= bm_length b) by (by destruct Hbok as [[? _] _ _]).
  split_and!; [done|lia| |by unfold frame; cbn; rewrite Hb|done|].
  - split; cbn; try done. rewrite Est. split_and!; [done|lia|done].
  - unfold content, wbytes, GETBUF. cbn. rewrite Est, Hb, Hd'. cbn.
    unfold buf_bytes in Hbytes. rewrite Hd' in Hbytes. cbn in Hbytes. rewrite Hbytes.
    apply take_app_le. pose proof (buf_bytes_length b Hbok) as Hbl. unfold buf_bytes in Hbl.
    destruct (bm_data b); cbn in *; lia.
Qed.

Lemma reserve_spec w h len :
  wp_ok w -> 0 <= len ->
  (exists s', WPACKET_reserve_bytes len (w, h) = (Err, s') /\ ~ (len <> 0 /\ fits (w, h) len)) \/
  (exists w' h', WPACKET_reserve_bytes len (w, h) =
     (Ret (if backed w then Some (if endfirst w then maxsize w - written w - len else written w)
           else None), (w', h')) /\
     0 < len /\ subs w <> [] /\ written w + len <= maxsize w /\ wp_ok w' /\ frame w w' /\
     written w' = written w /\ content w' = content w /\ (all_ok h -> all_ok h') /\
     (forall b, buf w' = Some b -> written w + len <= bm_length b)).
Proof.
  intros Hok Hlen. pose proof Hok as [Hp Hw Hm Hbuf Hs]. unfold WPACKET_reserve_bytes.
  rewrite pkt_bind. cbn [fst].
  destruct (decide (subs w = [])) as [Es|Es].
  { left. eexists. split; [apply guard_false; rewrite bool_decide_eq_true_2 by done; done|].
    intros (_ & _ & ? & _). done. }
  destruct (Z.eqb_spec len 0) as [->|Hl0].
  { left. eexists. split; [apply guard_false; by rewrite andb_false_r|]. by intros (? & _). }
  rewrite guard_true by (by rewrite bool_decide_eq_false_2).
  rewrite (u64_id (maxsize w - written w)) by (unfold is_u64; lia).
  destruct (Z.ltb_spec (maxsize w - written w) len).
  { left. eexists. split; [by apply guard_false|]. unfold fits. cbn. lia. }
  rewrite guard_true by done.
  assert (Hend : forall w', wp_ok w' -> frame w w' -> written w' = written w ->
    (backed w = true -> GETBUF w' <> None) ->
    match WPACKET_get_curr w' with
    | Some p => Some (if endfirst w' then p - len else p) | None => None end
    = (if backed w then Some (if endfirst w then maxsize w - written w - len else written w) else None)).
  { intros w' Hok' Hf Hw' Hg. pose proof Hf as (Ems & _ & Eef & Esb & Ebf). unfold WPACKET_get_curr.
    pose proof Hok' as [Hp' _ _ _ _].
    destruct (backed w) eqn:Ebk.
    - destruct (GETBUF w'); [|by destruct Hg]. rewrite Eef, Ems, Hp', Hw'. by destruct (endfirst w).
    - unfold backed, WPACKET_is_null_buf in Ebk. rewrite <- Esb, <- Ebf in Ebk. unfold GETBUF.
      by destruct (staticbuf w'), (buf w'). }
  destruct (buf w) as [b|] eqn:Eb.
  - destruct (staticbuf w) as [|] eqn:Est; [done|]. destruct Hbuf as (Hbok & Hwl & Hef).
    pose proof Hbok as [Hbl Hbm _].
    rewrite (u64_id (bm_length b - written w)) by (unfold is_u64; lia).
    destruct (Z.ltb_spec (bm_length b - written w) len) as [Hgrow|Hroom].
    + set (reflen := if bm_length b <? len then len else bm_length b).
      set (newlen := if SIZE_MAX / 2 <? reflen then SIZE_MAX
           else if reflen * 2 <? DEFAULT_BUF_SIZE then DEFAULT_BUF_SIZE else reflen * 2).
      assert (Hnew : written w + len <= newlen /\ bm_length b < newlen).
      { assert (reflen = Z.max len (bm_length b)) by (unfold reflen; zcase; lia).
        change (SIZE_MAX / 2) with 9223372036854775807 in newlen.
        unfold newlen, DEFAULT_BUF_SIZE. repeat zcase; lia. }
      pose proof (grow_cases w h b newlen Hok Eb ltac:(lia)) as Hg.
      destruct (BUF_MEM_grow h b newlen) as [[r b'] h'] eqn:Eg.
      assert (Egb : grow_buf b newlen (w, h) =
        (if r =? 0 then Err else Ret tt, (set_buf (Some b') w, h'))) by (unfold grow_buf; cbn [fst snd]; by rewrite Eg).
      destruct Hg as [->|(-> & Hr0 & Hok' & Hf & Hl' & Hc)].
      * left. eexists. split; [by erewrite bind_err by exact Egb|]. unfold fits. cbn. rewrite Est. tauto.
      * right. destruct (Z.eqb_spec newlen 0) as [?|_]; [done|]. rewrite (bind_ret _ _ _ _ _ Egb), pkt_bind.
        exists (set_buf (Some b') w), h'. split; [|split_and!; try done; try lia].
        -- unfold mret, M_ret. cbn [fst]. do 2 f_equal. apply Hend; try done.
           intros _. unfold GETBUF. cbn. rewrite Est. destruct Hok' as [_ _ _ Hb' _]. cbn in Hb'.
           rewrite Est in Hb'. destruct Hb' as (Hbo & _ & _). destruct Hbo as [_ _ Hd].
           destruct (bm_data b'); [done|]. lia.
        -- by eapply grow_heap.
        -- intros b0 [= <-]. lia.
    + right. exists w, h. split; [|split_and!; try done; try lia; try apply frame_refl].
      * rewrite (bind_ret (mret tt) _ _ tt (w, h)), pkt_bind by done. unfold mret, M_ret. cbn [fst]. do 2 f_equal.
        apply Hend; try done. intros _. unfold GETBUF. rewrite Est, Eb.
        destruct Hbok as [_ _ Hd]. destruct (bm_data b); [done|]. lia.
      * intros b0 Hb0. rewrite Eb in Hb0. injection Hb0 as <-. lia.
  - right. exists w, h. split; [|split_and!; try done; try lia; try apply frame_refl; by rewrite Eb].
    rewrite (bind_ret (mret tt) _ _ tt (w, h)), pkt_bind by done. unfold mret, M_ret. cbn [fst]. do 2 f_equal.
    apply Hend; try done. intros Hbk. unfold backed, WPACKET_is_null_buf in Hbk. unfold GETBUF.
    rewrite Eb in *. by destruct (staticbuf w).
Qed.

Lemma subs_ok_mono ef wr wr' l : subs_ok ef wr l -> wr <= wr' -> subs_ok ef wr' l.
Proof. destruct l; [done|]. cbn. intros (? & ? & ? & ? & ? & ? & ?) ?. split_and!; done || lia. Qed.

(** A gap of [len] bytes for the caller to fill. *)
Lemma alloc_spec w h len :
  wp_ok w -> 0 <= len ->
  (exists s', WPACKET_allocate_bytes len (w, h) = (Err, s') /\ ~ (len <> 0 /\ fits (w, h) len)) \/
  (exists w' h', WPACKET_allocate_bytes len (w, h) =
     (Ret (if backed w then Some (if endfirst w then maxsize w - written w - len else written w)
           else None), (w', h')) /\
     0 < len /\ subs w <> [] /\ wp_ok w' /\ frame w w' /\ written w' = written w + len /\
     (all_ok h -> all_ok h') /\
     (backed w = true -> exists gap, Z.of_nat (length gap) = len /\ content w' = content w ++ gap)).
Proof.
  intros Hok Hlen. unfold WPACKET_allocate_bytes.
  destruct (reserve_spec w h len Hok Hlen) as
    [(s' & E & Hf)|(w1 & h1 & E & Hl0 & Hs & Hfit & Hok1 & Hfr & Hw1 & Hc & Hh & Hroom)].
  - left. exists s'. by rewrite (bind_err _ _ _ _ E).
  - right. rewrite (bind_ret _ _ _ _ _ E), upd_bind. cbn [fst snd].
    pose proof Hok as [_ Hwr Hmx _ _]. pose proof Hok1 as [Hp1 Hwr1 Hmx1 Hb1 Hs1].
    pose proof Hfr as (Emx & Esub & Eef & Esb & Ebf).
    rewrite Hp1, Hw1, u64_id by (unfold is_u64; lia).
    set (w2 := set_pos (written w + len) (written w + len) w1).
    assert (Hok2 : wp_ok w2).
    { split; cbn; [done|lia|done| |].
      - destruct (staticbuf w1), (buf w1) as [b1|]; try done. destruct Hb1 as (? & ? & ?).
        split_and!; [done| |done]. by apply Hroom.
      - eapply subs_ok_mono; [exact Hs1|]. lia. }
    exists w2, h1. split_and!; try done.
    intros Hbk. assert (Hbk2 : backed w2 = true) by (rewrite <- Hbk; by apply frame_backed).
    exists (drop (Z.to_nat (written w)) (content w2)).
    pose proof (content_length w2 Hok2 Hbk2) as Hl2. cbn in Hl2. rewrite length_drop.
    split; [lia|]. rewrite <- Hc. unfold content at 2. rewrite Hw1.
    change (wbytes w1) with (wbytes w2). unfold content at 1.
    rewrite <- (take_drop (Z.to_nat (written w)) (take _ (wbytes w2))), take_take, Nat.min_l
      by (cbn; lia). done.
Qed.

Lemma write_spec w h off bs :
  wp_ok w -> backed w = true -> endfirst w = false ->
  0 <= off -> off + Z.of_nat (length bs) <= written w -> 0 < written w ->
  exists w', write_buf off bs (w, h) = (Ret tt, (w', h)) /\ wp_ok w' /\ frame w w' /\
    written w' = written w /\ content w' = store_at (content w) (Z.to_nat off) bs.
Proof.
  intros Hok Hbk Hef Hoff Hfit Hpos. pose proof (wbytes_length w Hok Hbk) as Hlen.
  pose proof Hok as [Hp Hw Hm Hb Hs].
  assert (Hl : exists l, GETBUF w = Some l /\ wbytes w = l).
  { unfold wbytes. destruct (GETBUF w) as [l|] eqn:E; [by exists l|].
    unfold wbytes in Hlen. rewrite E in Hlen. cbn in Hlen. lia. }
  destruct Hl as (l & El & Hwl). rewrite Hwl in Hlen.
  unfold write_buf. rewrite pkt_bind. cbn [fst]. rewrite El.
  destruct (Z.ltb_spec off 0); [lia|].
  destruct (Z.ltb_spec (Z.of_nat (length l)) (off + Z.of_nat (length bs))); [lia|]. cbn [orb].
  set (l' := store_at l (Z.to_nat off) bs).
  assert (Hl' : length l' = length l) by (apply length_store_at; lia).
  assert (Hcont : take (Z.to_nat (written w)) l' = store_at (content w) (Z.to_nat off) bs).
  { unfold content. rewrite Hwl. apply take_store_at. lia. }
  unfold upd. cbn [fst snd]. eexists. split; [reflexivity|].
  unfold GETBUF in El. destruct (staticbuf w) as [st|] eqn:Est.
  - injection El as ->. destruct (buf w) as [|] eqn:Eb; [done|].
    split_and!; [|unfold frame; cbn; by rewrite Est|done|].
    + split; cbn; try done. rewrite Eb. lia.
    + rewrite <- Hcont. done.
  - destruct (buf w) as [b|] eqn:Eb; [|done]. destruct Hb as (Hbok & Hwb & _).
    split_and!; [|unfold frame; cbn; by rewrite Est, Eb|done|].
    + split; cbn; try done. rewrite Est. split_and!; [|done..].
      destruct Hbok as [? ? Hd]. rewrite El in Hd. split; cbn; try done. by rewrite Hl'.
    + rewrite <- Hcont. unfold content, wbytes, GETBUF. cbn. by rewrite Est.
Qed.

(** ** Appending *)

Lemma appends_ret {A} (a : A) : appends (mret a) [].
Proof.
  intros w h Hok Hb He. right. exists a, w, h. split; [done|]. split; [|done].
  unfold extends. cbn. rewrite app_nil_r. split_and!; [done|apply frame_refl|lia|done].
Qed.

Lemma extends_trans w1 w2 w3 b1 b2 :
  extends w1 w2 b1 -> extends w2 w3 b2 -> extends w1 w3 (b1 ++ b2).
Proof.
  intros (H1 & F1 & W1 & C1) (H2 & F2 & W2 & C2). unfold extends.
  rewrite length_app, W2, W1, C2, C1, app_assoc. split_and!; [done|by eapply frame_trans|lia|done].
Qed.

Lemma extends_fits w h w' h' b1 n :
  extends w w' b1 -> (all_ok h -> all_ok h') ->
  fits (w, h) (Z.of_nat (length b1) + n) -> fits (w', h') n.
Proof.
  intros (_ & F & W & _) Hh (Hs & Hsub & Ha & Hf). pose proof F as (Em & Es & _).
  unfold fits in *. cbn [fst snd] in *. rewrite Es, Em, W. split_and!; [|done|by apply Hh|lia].
  by apply (frame_static _ _ F).
Qed.

Lemma appends_bind {A B} (m : M wst A) (f : A -> M wst B) b1 b2 :
  appends m b1 -> (forall a, appends (f a) b2) -> appends (m ≫= f) (b1 ++ b2).
Proof.
  intros Hm Hf w h Hok Hb He. rewrite length_app, Nat2Z.inj_add.
  destruct (Hm w h Hok Hb He) as [(s' & E & Hn)|(a & w1 & h1 & E & Hx & Hh)].
  - left. exists s'. rewrite (bind_err _ _ _ _ E). split; [done|]. intros (? & ? & ? & ?).
    apply Hn. unfold fits. cbn in *. split_and!; try done. lia.
  - rewrite (bind_ret _ _ _ _ _ E). pose proof Hx as (Hok1 & Hfr & _ & _).
    destruct (Hf a w1 h1 Hok1) as [(s' & E2 & Hn)|(a2 & w2 & h2 & E2 & Hx2 & Hh2)].
    + by rewrite (frame_backed _ _ Hfr).
    + by destruct Hfr as (_ & _ & -> & _).
    + left. exists s'. split; [done|]. intros Hfit. apply Hn. by eapply extends_fits.
    + right. exists a2, w2, h2. split; [done|]. split; [by eapply extends_trans|auto].
Qed.

Lemma appends_guard {A} b (f : M wst A) bs : b = true -> appends f bs -> appends (guard_ b;; f) bs.
Proof. by intros ->. Qed.

(** Allocate room, then store into it. *)
Lemma appends_alloc_write {B} bs n (f : option Z -> M wst B) :
  bs <> [] -> n = Z.of_nat (length bs) ->
  (forall w h p, wp_ok w -> backed w = true -> endfirst w = false -> 0 <= p ->
     p + Z.of_nat (length bs) = written w ->
     exists a, f (Some p) (w, h) =
       match write_buf p bs (w, h) with (Ret _, s) => (Ret a, s) | (Err, s) => (Err, s) | (Undef, s) => (Undef, s) end) ->
  appends (WPACKET_allocate_bytes n ≫= f) bs.
Proof.
  intros Hne -> Hf w h Hok Hbk He.
  assert (Hlen : 0 < Z.of_nat (length bs)) by (destruct bs; [done|cbn; lia]).
  destruct (alloc_spec w h (Z.of_nat (length bs)) Hok ltac:(lia)) as
    [(s' & E & Hn)|(w1 & h1 & E & _ & Hs & Hok1 & Hfr & Hw1 & Hh & Hgap)].
  - left. exists s'. rewrite (bind_err _ _ _ _ E). split; [done|]. intros ?. apply Hn. split; [lia|done].
  - right. rewrite (bind_ret _ _ _ _ _ E), Hbk, He.
    destruct (Hgap Hbk) as (gap & Hg & Hc).
    assert (Hbk1 : backed w1 = true) by (by rewrite (frame_backed _ _ Hfr)).
    assert (He1 : endfirst w1 = false) by (by destruct Hfr as (_ & _ & -> & _)).
    assert (Hwr : 0 <= written w) by (by destruct Hok as [_ [? _] _ _ _]).
    destruct (write_spec w1 h1 (written w) bs) as (w2 & E2 & Hok2 & Hfr2 & Hw2 & Hc2); try done; [lia..|].
    destruct (Hf w1 h1 (written w) Hok1 Hbk1 He1) as (a & Ea); [lia..|].
    exists a, w2, h1. rewrite Ea, E2. split; [done|]. split; [|done].
    unfold extends. split_and!; [done|by eapply frame_trans|lia|].
    rewrite Hc2, Hc, <- (content_length w Hok Hbk), Nat2Z.id. apply store_at_end. lia.
Qed.

Lemma bind_unit_ret (m : M wst unit) s : (m;; mret tt) s = m s.
Proof. unfold mbind, M_bind. by destruct (m s) as [[[]| |] ?]. Qed.

Lemma memcpy_appends src : appends (WPACKET_memcpy src) src.
Proof.
  unfold WPACKET_memcpy. destruct (Z.eqb_spec (Z.of_nat (length src)) 0) as [E|E].
  { destruct src; [|cbn in E; lia]. apply appends_ret. }
  apply appends_alloc_write; [by intros ->|done|]. intros w h p _ _ _ _ _. exists tt.
  by destruct (write_buf p src (w, h)) as [[[]| |] ?].
Qed.

Lemma memset_appends ch n : 0 <= n -> appends (WPACKET_memset ch n) (replicate (Z.to_nat n) (u8 ch)).
Proof.
  intros Hn. unfold WPACKET_memset. destruct (Z.eqb_spec n 0) as [->|E]; [apply appends_ret|].
  apply appends_alloc_write.
  - destruct (Z.to_nat n) eqn:En; [lia|done].
  - rewrite length_replicate. lia.
  - intros w h p _ _ _ _ _. exists tt.
    by destruct (write_buf p _ (w, h)) as [[[]| |] ?].
Qed.

Lemma put_value_loop_spec len : forall value acc,
  0 <= value ->
  put_value_loop len value acc =
    (be_bytes len value ++ acc, Z.shiftr value (8 * Z.of_nat len)).
Proof.
  induction len as [|len IH]; intros value acc Hv.
  { cbn. by rewrite Z.shiftr_0_r. }
  cbn [put_value_loop]. rewrite IH by (by apply Z.shiftr_nonneg).
  rewrite Z.shiftr_shiftr by lia. replace (8 + 8 * Z.of_nat len) with (8 * Z.of_nat (S len)) by lia.
  f_equal. rewrite u8_land. clear IH.
  assert (Hstep : forall k, be_bytes k (Z.shiftr value 8) ++ [u8 value] = be_bytes (S k) value).
  { intros k. induction k as [|k IHk].
    - cbn. by rewrite Z.shiftr_0_r.
    - cbn [be_bytes] in *. rewrite <- app_comm_cons, IHk. f_equal. f_equal.
      rewrite Z.shiftr_shiftr by lia. f_equal. lia. }
  rewrite <- Hstep, <- app_assoc. done.
Qed.

Lemma put_value_write p v (n : nat) w h :
  0 <= v < 2 ^ (8 * Z.of_nat n) ->
  put_value (Some p) v (Z.of_nat n) (w, h) = write_buf p (be_bytes n v) (w, h).
Proof.
  intros Hv. unfold put_value. rewrite Nat2Z.id, put_value_loop_spec by lia.
  rewrite app_nil_r, Z.shiftr_div_pow2, Z.div_small by lia. cbn [Z.ltb Z.compare negb].
  apply bind_unit_ret.
Qed.

Lemma put_bytes_appends v (n : nat) :
  (0 < n <= 8)%nat -> 0 <= v < 2 ^ (8 * Z.of_nat n) ->
  appends (WPACKET_put_bytes__ v (Z.of_nat n)) (be_bytes n v).
Proof.
  intros Hn Hv. apply appends_guard; [lia|]. apply appends_alloc_write.
  - intros E%(f_equal length). rewrite length_be_bytes in E. cbn in E. lia.
  - by rewrite length_be_bytes.
  - intros w h p _ _ _ _ _. exists tt. rewrite put_value_write by done.
    by destruct (write_buf p _ (w, h)) as [[[]| |] ?].
Qed.

Lemma write_vlint_appends v :
  0 <= v <= OSSL_QUIC_VLINT_MAX ->
  appends (WPACKET_quic_write_vlint v) (ossl_quic_vlint_encode v).
Proof.
  intros Hv. destruct (Packet.encode_is_n v Hv) as [Hn _].
  pose proof (Packet.length_encode v Hv) as Hl. unfold WPACKET_quic_write_vlint.
  apply appends_guard; [unfold valid_len in Hn; apply negb_true_iff, Z.eqb_neq; lia|].
  apply appends_alloc_write; [|done|].
  - intros E. rewrite E in Hl. cbn in Hl. unfold valid_len in Hn. lia.
  - intros w h p _ _ _ _ _. exists tt. by destruct (write_buf p _ (w, h)) as [[[]| |] ?].
Qed.

(** ** Sub-packets *)

(** Reserving does not look at the open sub-packets beyond there being one. *)
Lemma reserve_subs w h len l :
  subs w <> [] -> l <> [] ->
  WPACKET_reserve_bytes len (set_subs l w, h) =
    let '(r, (w', h')) := WPACKET_reserve_bytes len (w, h) in (r, (set_subs l w', h')).
Proof.
  intros Hs Hl. unfold WPACKET_reserve_bytes. rewrite !pkt_bind. cbn [fst subs set_subs].
  rewrite !bool_decide_eq_false_2 by done. cbn [negb andb maxsize written buf set_subs].
  destruct (negb (len =? 0)); [rewrite !(guard_true true) by done|by rewrite !(guard_false false)].
  destruct (negb (_ <? len)); [rewrite !(guard_true true) by done|by rewrite !(guard_false false)].
  destruct (buf w) as [b|].
  - destruct (_ <? len); [|done]. unfold grow_buf, mbind, M_bind. cbn [fst snd].
    destruct (BUF_MEM_grow h b _) as [[r b'] h']. by destruct (r =? 0).
  - done.
Qed.

Lemma alloc_subs w h len l :
  subs w <> [] -> l <> [] ->
  WPACKET_allocate_bytes len (set_subs l w, h) =
    let '(r, (w', h')) := WPACKET_allocate_bytes len (w, h) in (r, (set_subs l w', h')).
Proof.
  intros Hs Hl. unfold WPACKET_allocate_bytes, mbind, M_bind. rewrite reserve_subs by done.
  destruct (WPACKET_reserve_bytes len (w, h)) as [[] [w' h']]; done.
Qed.

(** What opening a sub-packet with a length field leaves. *)
Record opened (w w1 : WPACKET) (lenb fl : Z) : Prop := {
  op_ok : wp_ok w1;
  op_static : is_null (staticbuf w1) = is_null (staticbuf w);
  op_buf : is_null (buf w1) = is_null (buf w);
  op_end : endfirst w1 = false;
  op_max : maxsize w1 = maxsize w;
  op_subs : subs w1 = mkSub (written w) lenb (written w + lenb) fl :: subs w;
  op_parent : subs w <> [];
  op_written : written w1 = written w + lenb;
  op_gap : exists gap, Z.of_nat (length gap) = lenb /\ content w1 = content w ++ gap
}.

Lemma start_sub_spec w h lenb :
  wp_ok w -> backed w = true -> endfirst w = false -> 0 < lenb ->
  (exists s', WPACKET_start_sub_packet_len__ lenb (w, h) = (Err, s') /\ ~ fits (w, h) lenb) \/
  (exists w1 h1, WPACKET_start_sub_packet_len__ lenb (w, h) = (Ret tt, (w1, h1)) /\
     opened w w1 lenb 0 /\ (all_ok h -> all_ok h1)).
Proof.
  intros Hok Hbk He Hl. unfold WPACKET_start_sub_packet_len__. rewrite pkt_bind. cbn [fst].
  destruct (decide (subs w = [])) as [Es|Es].
  { left. eexists. rewrite bool_decide_eq_true_2 by done. split; [by apply guard_false|].
    intros (_ & ? & _). done. }
  rewrite bool_decide_eq_false_2, guard_true by done.
  rewrite He, andb_false_r, guard_true by done.
  destruct (malloc h) as [ok h1] eqn:Em.
  assert (Ez : zalloc (w, h) = (if ok then Ret tt else Err, (w, h1))) by (unfold zalloc; cbn; by rewrite Em).
  destruct ok.
  2: { left. rewrite (bind_err _ _ _ _ Ez). eexists. split; [done|]. intros (_ & _ & Ha & _).
       by apply (all_ok_malloc h false h1 Em) in Ha as [? _]. }
  rewrite (bind_ret _ _ _ _ _ Ez), upd_bind. cbn [fst snd].
  destruct (Z.eqb_spec lenb 0); [lia|].
  pose proof Hok as [Hp Hw Hm _ Hs].
  destruct (alloc_spec w h1 lenb Hok ltac:(lia)) as
    [(s' & E & Hn)|(w' & h' & E & _ & _ & Hok' & Hfr & Hw' & Hh & Hgap)].
  - left. destruct s' as [w' h'].
    erewrite bind_err by (rewrite alloc_subs, E by done; reflexivity).
    eexists. split; [done|]. intros (? & ? & Ha & ?). apply Hn. split; [done|]. unfold fits. cbn in *.
    split_and!; try done. by apply (all_ok_malloc h true h1 Em).
  - right. erewrite bind_ret by (rewrite alloc_subs, E by done; reflexivity).
    destruct (Hgap Hbk) as (gap & Hg & Hc). destruct Hfr as (Fm & Fs & Fe & Fst & Fb).
    eexists _, h'. split; [reflexivity|].
    split; [|intros Ha; apply Hh; by apply (all_ok_malloc h true h1 Em)].
    pose proof Hok' as [Hp' Hwr' Hm' Hb' _].
    rewrite (u64_id (written w + lenb)) by (unfold is_u64; lia).
    split; cbn; try done; [|by rewrite Fe|by exists gap].
    split; cbn; try done. rewrite Fe, He in *.
    destruct (Z.eqb_spec lenb 0); [lia|]. split_and!; try done; try lia.
    replace (written w + lenb - lenb) with (written w) by lia. done.
Qed.

Lemma start_quic_sub_spec w h max_len :
  wp_ok w -> backed w = true -> endfirst w = false -> 0 <= max_len <= OSSL_QUIC_VLINT_MAX ->
  let lenb := ossl_quic_vlint_encode_len max_len in
  (exists s', WPACKET_start_quic_sub_packet_bound max_len (w, h) = (Err, s') /\ ~ fits (w, h) lenb) \/
  (exists w1 h1, WPACKET_start_quic_sub_packet_bound max_len (w, h) = (Ret tt, (w1, h1)) /\
     opened w w1 lenb WPACKET_FLAGS_QUIC_VLINT /\ (all_ok h -> all_ok h1)).
Proof.
  intros Hok Hbk He Hml lenb. destruct (Packet.encode_is_n max_len Hml) as [Hn _]. fold lenb in Hn.
  assert (Hpos : 0 < lenb) by (unfold valid_len in Hn; lia).
  unfold WPACKET_start_quic_sub_packet_bound. fold lenb.
  rewrite guard_true by (apply negb_true_iff, Z.eqb_neq; lia).
  destruct (start_sub_spec w h lenb Hok Hbk He Hpos) as [(s' & E & Hnf)|(w1 & h1 & E & Hop & Hh)].
  - left. exists s'. by rewrite (bind_err _ _ _ _ E).
  - right. rewrite (bind_ret _ _ _ _ _ E), pkt_bind. cbn [fst].
    destruct Hop as [Hok1 H1 H2 H3 H4 H5 H6 H7 H8]. rewrite H5. unfold upd. cbn [fst snd packet_len lenbytes pwritten flags].
    eexists _, h1. split; [reflexivity|]. split; [|done].
    split; cbn; try done. destruct Hok1 as [K1 K2 K3 K4 K5].
    split; cbn; try done. rewrite H5 in K5. cbn in K5. destruct K5 as (? & ? & ? & ? & ? & _ & ?).
    split_and!; try done. intros _. by right.
Qed.

(** Closing writes the length field and nothing else. *)
Lemma close_spec w h s s0 rest pre gap bs hdr :
  wp_ok w -> backed w = true -> endfirst w = false -> subs w = s :: s0 :: rest ->
  0 < lenbytes s -> content w = pre ++ gap ++ bs ->
  Z.of_nat (length pre) = packet_len s -> Z.of_nat (length gap) = lenbytes s ->
  length hdr = length gap ->
  Z.land (flags s) WPACKET_FLAGS_NON_ZERO_LENGTH = 0 ->
  Z.land (flags s) WPACKET_FLAGS_ABANDON_ON_ZERO_LENGTH = 0 ->
  (forall w h, (if Z.land (flags s) WPACKET_FLAGS_QUIC_VLINT =? 0
    then put_value (Some (packet_len s)) (Z.of_nat (length bs)) (lenbytes s)
    else put_quic_value (Some (packet_len s)) (Z.of_nat (length bs)) (lenbytes s)) (w, h)
   = write_buf (packet_len s) hdr (w, h)) ->
  exists w', WPACKET_close (w, h) = (Ret tt, (w', h)) /\ wp_ok w' /\ frame w (set_subs (s :: s0 :: rest) w') /\
    subs w' = s0 :: rest /\ written w' = written w /\ content w' = pre ++ hdr ++ bs.
Proof.
  intros Hok Hbk He Hsub Hl Hc Hpre Hgap Hhdr Hf1 Hf2 Hput.
  pose proof (content_length w Hok Hbk) as Hcl. rewrite Hc, !length_app in Hcl.
  pose proof Hok as [Hp Hw Hm Hb Hs]. rewrite Hsub in Hs. cbn in Hs.
  destruct Hs as (_ & Hq & Hpw & Hpl & _ & _ & Hs0).
  destruct (Z.eqb_spec (lenbytes s) 0); [lia|].
  unfold WPACKET_close. rewrite pkt_bind. cbn [fst]. rewrite Hsub.
  unfold wpacket_intern_close. rewrite pkt_bind. cbn [fst].
  assert (Epl : u64 (written w - pwritten s) = Z.of_nat (length bs))
    by (rewrite u64_id; [lia|unfold is_u64; lia]).
  rewrite Epl, Hf1, Hf2. cbn [Z.eqb negb]. rewrite !andb_false_r. rewrite guard_true by done.
  cbn [andb]. rewrite (bind_ret (mret tt) _ _ tt (w, h)) by done.
  rewrite (bind_ret (mret tt) _ _ tt (w, h)) by done.
  destruct (Z.ltb_spec 0 (lenbytes s)); [|lia].
  destruct (write_spec w h (packet_len s) hdr Hok Hbk He) as (w' & E & Hok' & Hfr & Hw' & Hc'); [lia..|].
  erewrite bind_ret.
  2: { rewrite pkt_bind. cbn [fst].
       destruct (GETBUF w) as [l|] eqn:Eg.
       - rewrite Hput. exact E.
       - unfold write_buf in E. rewrite pkt_bind in E. cbn [fst] in E. by rewrite Eg in E. }
  unfold upd. cbn [fst snd]. eexists. split; [reflexivity|].
  destruct Hfr as (Fm & Fs & Fe & Fst & Fb). rewrite Fs, Hsub. cbn [tail].
  split_and!; [|unfold frame; cbn; by rewrite Hsub|done|done|].
  - destruct Hok' as [K1 K2 K3 K4 K5]. split; cbn; try done.
    rewrite Fe, Hw'.
    refine (subs_ok_mono (endfirst w) (pwritten s - lenbytes s) (written w) (s0 :: rest) Hs0 _). lia.
  - change (content _) with (content w'). rewrite Hc', Hc, <- Hpre, Nat2Z.id. by apply store_at_mid.
Qed.

(** A body between opening and closing a sub-packet is appended behind the
    length field. *)
Lemma sub_packet_appends {A} (open_ : M wst unit) (m : M wst A) lenb fl bs hdr :
  (forall w h, wp_ok w -> backed w = true -> endfirst w = false ->
     (exists s', open_ (w, h) = (Err, s') /\ ~ fits (w, h) lenb) \/
     (exists w1 h1, open_ (w, h) = (Ret tt, (w1, h1)) /\ opened w w1 lenb fl /\ (all_ok h -> all_ok h1))) ->
  0 < lenb -> appends m bs -> Z.of_nat (length hdr) = lenb ->
  fl = 0 \/ fl = WPACKET_FLAGS_QUIC_VLINT ->
  (forall p w h, (if Z.land fl WPACKET_FLAGS_QUIC_VLINT =? 0
    then put_value (Some p) (Z.of_nat (length bs)) lenb
    else put_quic_value (Some p) (Z.of_nat (length bs)) lenb) (w, h) = write_buf p hdr (w, h)) ->
  appends (open_;; a ← m; WPACKET_close;; mret a) (hdr ++ bs).
Proof.
  intros Hopen Hl Hm Hhdr Hfl Hput w h Hok Hbk He.
  destruct (Hopen w h Hok Hbk He) as [(s' & E & Hnf)|(w1 & h1 & E & Hop & Hh)].
  { left. exists s'. rewrite (bind_err _ _ _ _ E). split; [done|]. intros (? & ? & ? & Hf). apply Hnf.
    unfold fits. rewrite length_app in Hf. cbn in *. split_and!; try done. lia. }
  rewrite (bind_ret _ _ _ _ _ E). destruct Hop as [Hok1 O1 O2 O3 O4 O5 O6 O7 (gap & Hg & Hc1)].
  assert (Hbk1 : backed w1 = true) by (unfold backed, WPACKET_is_null_buf in *; by rewrite O1, O2).
  destruct (Hm w1 h1 Hok1 Hbk1 O3) as [(s' & E2 & Hnf)|(a & w2 & h2 & E2 & Hx & Hh2)].
  { left. exists s'. rewrite (bind_err _ _ _ _ E2). split; [done|]. intros (Hst & ? & ? & Hf). apply Hnf.
    unfold fits. rewrite length_app in Hf. cbn in *. rewrite O5, O4, O7.
    split_and!; [|done|auto|lia]. by destruct (staticbuf w), (staticbuf w1). }
  right. rewrite (bind_ret _ _ _ _ _ E2). destruct Hx as (Hok2 & Hfr2 & Hw2 & Hc2).
  destruct (subs w) as [|s0 rest] eqn:Esub; [done|].
  pose proof Hfr2 as (F1 & F2 & F3 & F4 & F5).
  destruct (close_spec w2 h2 (mkSub (written w) lenb (written w + lenb) fl) s0 rest
    (content w) gap bs hdr) as (w3 & E3 & Hok3 & Hfr3 & Hs3 & Hw3 & Hc3); cbn; try done.
  - by rewrite (frame_backed _ _ Hfr2).
  - by rewrite F3.
  - by rewrite F2.
  - by rewrite Hc2, Hc1, <- app_assoc.
  - by apply content_length.
  - lia.
  - by destruct Hfl as [->| ->].
  - by destruct Hfl as [->| ->].
  - intros w0 h0. apply Hput.
  - exists a, w3, h2. rewrite (bind_ret _ _ _ _ _ E3). split; [done|]. split; [|auto].
    destruct Hfr3 as (G1 & _ & G3 & G4 & G5). cbn in G1, G3, G4, G5.
    split_and!; [done| |rewrite Hw3, Hw2, O7, length_app; lia|done].
    unfold frame. rewrite G1, F1, O4, Hs3, Esub, G3, F3, O3, He, G4, F4, O1, G5, F5, O2. by split_and!.
Qed.

Lemma sub_len_appends {A} (m : M wst A) bs (n : nat) :
  (0 < n)%nat -> appends m bs -> Z.of_nat (length bs) < 2 ^ (8 * Z.of_nat n) ->
  appends (WPACKET_start_sub_packet_len__ (Z.of_nat n);; a ← m; WPACKET_close;; mret a)
    (be_bytes n (Z.of_nat (length bs)) ++ bs).
Proof.
  intros Hn Hm Hlt. apply (sub_packet_appends _ _ (Z.of_nat n) 0); try done; try lia.
  - intros w h Hok Hbk He. by apply start_sub_spec; try lia.
  - by rewrite length_be_bytes.
  - intros p w h. cbn [Z.land Z.eqb]. by apply put_value_write; try lia.
Qed.

Lemma sub_quic_appends {A} (m : M wst A) bs max_len :
  0 <= max_len <= OSSL_QUIC_VLINT_MAX -> appends m bs -> Z.of_nat (length bs) <= max_len ->
  appends (WPACKET_start_quic_sub_packet_bound max_len;; a ← m; WPACKET_close;; mret a)
    (ossl_quic_vlint_encode_n (Z.of_nat (length bs)) (ossl_quic_vlint_encode_len max_len) ++ bs).
Proof.
  intros Hml Hm Hlt. destruct (Packet.encode_is_n max_len Hml) as [Hn Hlim].
  set (lenb := ossl_quic_vlint_encode_len max_len) in *.
  apply (sub_packet_appends _ _ lenb WPACKET_FLAGS_QUIC_VLINT); try done.
  - intros w h Hok Hbk He. by apply start_quic_sub_spec.
  - unfold valid_len in Hn. lia.
  - rewrite length_encode_n by done. unfold valid_len in Hn. lia.
  - by right.
  - intros p w h. cbn [Z.land Z.eqb]. unfold put_quic_value. apply guard_true.
    apply negb_true_iff, Z.ltb_ge. apply encode_len_least; [lia|done].
Qed.

Lemma sub_memcpy_appends src (n : nat) :
  (0 < n)%nat -> Z.of_nat (length src) < 2 ^ (8 * Z.of_nat n) ->
  appends (WPACKET_sub_memcpy__ src (Z.of_nat n)) (be_bytes n (Z.of_nat (length src)) ++ src).
Proof.
  intros Hn Hlt w h Hok Hbk He.
  pose proof (sub_len_appends (WPACKET_memcpy src) src n Hn (memcpy_appends src) Hlt w h Hok Hbk He) as H.
  unfold WPACKET_sub_memcpy__. unfold mbind, M_bind in *.
  destruct (WPACKET_start_sub_packet_len__ (Z.of_nat n) (w, h)) as [[]]; try exact H.
  destruct (WPACKET_memcpy src _) as [[[]| |] ?]; try exact H.
  destruct (WPACKET_close _) as [[[]| |] ?]; exact H.
Qed.

(** ** Whole packets in a fixed buffer *)

Lemma init_static_spec w0 h b :
  b <> [] -> Z.of_nat (length b) < UINT64_MOD -> all_ok h ->
  exists w h', WPACKET_init_static_len b (Z.of_nat (length b)) 0 (w0, h) = (Ret tt, (w, h')) /\
    wp_ok w /\ backed w = true /\ endfirst w = false /\ all_ok h' /\ content w = [] /\
    written w = 0 /\ maxsize w = Z.of_nat (length b) /\ subs w = [mkSub 0 0 0 0] /\ staticbuf w <> None.
Proof.
  intros Hb Hlen Hall. unfold WPACKET_init_static_len.
  assert (0 < Z.of_nat (length b)) by (destruct b; [done|cbn; lia]).
  rewrite guard_true by (apply negb_true_iff, Z.eqb_neq; lia). rewrite upd_bind. cbn [fst snd].
  change (maxmaxsize 0) with SIZE_MAX. destruct (Z.ltb_spec SIZE_MAX (Z.of_nat (length b))); [lia|].
  unfold wpacket_intern_init_len. rewrite upd_bind. cbn [fst snd].
  destruct (malloc h) as [ok h1] eqn:Em. destruct (all_ok_malloc _ _ _ Em Hall) as [-> Hall1].
  eexists _, h1. split.
  { erewrite bind_ret; [|unfold zalloc; cbn [fst snd]; rewrite Em; reflexivity]. reflexivity. }
  split_and!; try done. split; cbn; try done; try lia.
Qed.

Lemma finish_spec w h :
  wp_ok w -> endfirst w = false -> subs w = [mkSub 0 0 0 0] ->
  WPACKET_finish (w, h) = (Ret tt, (set_subs [] w, h)).
Proof.
  intros Hok He Hs. unfold WPACKET_finish. rewrite pkt_bind. cbn [fst]. rewrite Hs.
  assert (E : wpacket_intern_close (mkSub 0 0 0 0) false true (w, h) = (Ret tt, (set_subs [] w, h))).
  { unfold wpacket_intern_close. rewrite pkt_bind. cbn [fst flags lenbytes packet_len pwritten Z.land Z.eqb negb].
    rewrite !andb_false_r. cbn [negb Z.ltb Z.compare]. rewrite guard_true by done.
    cbn [andb]. repeat rewrite (bind_ret (mret tt) _ _ tt (w, h)) by done.
    unfold upd. cbn [fst snd]. rewrite Hs. done. }
  rewrite (bind_ret _ _ _ _ _ E). done.
Qed.

(** Writing to a fixed buffer from start to finish. *)
Definition build {A} (b : list Z) (m : M wst A) : M wst unit :=
  WPACKET_init_static_len b (Z.of_nat (length b)) 0;; m;; WPACKET_finish.

Lemma build_spec {A} b (m : M wst A) bs w0 h :
  appends m bs -> b <> [] -> (length bs <= length b)%nat -> Z.of_nat (length b) < UINT64_MOD ->
  all_ok h ->
  exists w h', build b m (w0, h) = (Ret tt, (w, h')) /\ content w = bs /\ subs w = [] /\
    WPACKET_get_total_written w = Z.of_nat (length bs).
Proof.
  intros Hm Hb Hfit Hlen Hall.
  destruct (init_static_spec w0 h b Hb Hlen Hall) as
    (w & h1 & E & Hok & Hbk & He & Hall1 & Hc & Hw & Hmx & Hs & Hst).
  unfold build. rewrite (bind_ret _ _ _ _ _ E).
  destruct (Hm w h1 Hok Hbk He) as [(s' & E2 & Hn)|(a & w2 & h2 & E2 & Hx & _)].
  - exfalso. apply Hn. unfold fits. cbn. rewrite Hs, Hw, Hmx. split_and!; try done. lia.
  - rewrite (bind_ret _ _ _ _ _ E2). destruct Hx as (Hok2 & (_ & Fs & Fe & _ & _) & Hw2 & Hc2).
    rewrite finish_spec; [|done|by rewrite Fe|by rewrite Fs].
    eexists _, h2. split; [done|]. rewrite Hc in Hc2. rewrite Hw in Hw2.
    split_and!; [exact Hc2|done|exact Hw2].
Qed.

(** ** Properties *)

(** C38: the writing functions append exactly what they are documented to
    write, and nothing else of the packet changes: the bytes themselves, a
    value in big-endian order, a variable-length integer, and a sub-packet
    behind its length, which is filled in when the sub-packet is closed and may
    itself contain anything that is appended, other sub-packets included.  This
    is for packets that are well formed ([wp_ok]: in particular the maximum size
    is within a fixed buffer), have a buffer and are filled from the front
    ([endfirst = false]; an end-first packet refuses sub-packets with a length).
    There the functions have no undefined behaviour; they may fail in a growing
    buffer, or when an allocation fails, and never fail in a fixed buffer with
    enough room when the allocations succeed ([fits]). *)
Theorem wpacket_appends_exactly :
  (forall src, appends (WPACKET_memcpy src) src) /\
  (forall ch n, 0 <= n -> appends (WPACKET_memset ch n) (replicate (Z.to_nat n) (u8 ch))) /\
  (forall v n, (0 < n <= 8)%nat -> 0 <= v < 2 ^ (8 * Z.of_nat n) ->
     appends (WPACKET_put_bytes__ v (Z.of_nat n)) (be_bytes n v)) /\
  (forall v, 0 <= v <= OSSL_QUIC_VLINT_MAX ->
     appends (WPACKET_quic_write_vlint v) (ossl_quic_vlint_encode v)) /\
  (forall (m : M wst unit) bs n, (0 < n)%nat -> appends m bs ->
     Z.of_nat (length bs) < 2 ^ (8 * Z.of_nat n) ->
     appends (WPACKET_start_sub_packet_len__ (Z.of_nat n);; a ← m; WPACKET_close;; mret a)
       (be_bytes n (Z.of_nat (length bs)) ++ bs)) /\
  (forall (m : M wst unit) bs max_len, 0 <= max_len <= OSSL_QUIC_VLINT_MAX -> appends m bs ->
     Z.of_nat (length bs) <= max_len ->
     appends (WPACKET_start_quic_sub_packet_bound max_len;; a ← m; WPACKET_close;; mret a)
       (ossl_quic_vlint_encode_n (Z.of_nat (length bs)) (ossl_quic_vlint_encode_len max_len) ++ bs)).
Proof.
  split_and!; auto using memcpy_appends, memset_appends, put_bytes_appends, write_vlint_appends.
  - intros. by apply sub_len_appends.
  - intros. by apply sub_quic_appends.
Qed.

(** Data written behind a 2-byte length in a fixed buffer that has room for
    it is read back by [PACKET_get_length_prefixed_2]: the writer succeeds, the
    reader finds exactly the data, and nothing is left over. *)
Theorem wpacket_packet_roundtrip w0 h b src :
  bytes src -> b <> [] -> (length src + 2 <= length b)%nat -> Z.of_nat (length b) < UINT64_MOD ->
  Z.of_nat (length src) < 65536 -> all_ok h ->
  exists w h' p, build b (WPACKET_sub_memcpy__ src 2) (w0, h) = (Ret tt, (w, h')) /\
    Packet.PACKET_buf_init (content w) (WPACKET_get_total_written w) = Some p /\
    Packet.PACKET_as_length_prefixed_2 p =
      (Ret (Packet.mkPacket src (Z.of_nat (length src))), Packet.mkPacket [] 0).
Proof.
  intros Hsrc Hb Hfit Hlen Hlt Hall.
  pose proof (sub_memcpy_appends src 2 ltac:(lia) ltac:(lia)) as Hm.
  set (hdr := be_bytes 2 (Z.of_nat (length src))) in *.
  assert (Hl : length (hdr ++ src) = (2 + length src)%nat) by (by rewrite length_app).
  destruct (build_spec b (WPACKET_sub_memcpy__ src 2) (hdr ++ src) w0 h) as (w & h' & E & Hc & _ & Hw);
    [exact Hm|done|lia|done|done|].
  exists w, h'. rewrite Hc, Hw. unfold Packet.PACKET_buf_init.
  change (SIZE_MAX / 2) with 9223372036854775807.
  destruct (Z.ltb_spec 9223372036854775807 (Z.of_nat (length (hdr ++ src)))); [lia|].
  eexists. split; [exact E|]. split; [reflexivity|].
  pose proof (Packet.length_prefixed_reads Packet.PACKET_get_net_2 true hdr src (bytes_be_bytes _ _) Hsrc) as Hr.
  unfold Packet.PACKET_as_length_prefixed_2. rewrite <- (app_nil_r src) at 1.
  rewrite Hr; try done.
  - rewrite app_nil_r, Z.sub_diag. done.
  - by apply Packet.get_net_2_reads; try lia.
  - lia.
  - by right.
Qed.

Lemma wpacket_packet_roundtrip_witness :
  exists w h' p,
    build (repeat 0 8) (WPACKET_sub_memcpy__ [5; 6; 7] 2) (mkW None None 0 0 0 [] false, [])
      = (Ret tt, (w, h')) /\ content w = [0; 3; 5; 6; 7] /\
    Packet.PACKET_buf_init (content w) (WPACKET_get_total_written w) = Some p /\
    Packet.PACKET_as_length_prefixed_2 p = (Ret (Packet.mkPacket [5; 6; 7] 3), Packet.mkPacket [] 0).
Proof.
  destruct (wpacket_packet_roundtrip (mkW None None 0 0 0 [] false) [] (repeat 0 8) [5; 6; 7])
    as (w & h' & p & E & H1 & H2);
    [repeat constructor; vm_compute; congruence|done|cbn; lia|cbn; lia|cbn; lia|constructor|].
  exists w, h', p. split; [exact E|]. split; [|split; [exact H1|exact H2]].
  vm_compute in E. injection E as <- _. reflexivity.
Defined.

(** Two writes the code does not guard.  [WPACKET_set_max_size] can raise
    the limit of a packet beyond the fixed buffer it was initialised with, and
    the next write runs past the buffer's end; and [WPACKET_quic_write_vlint]
    stores through a null pointer on a packet that only counts. *)
Theorem wpacket_unguarded_writes :
  (WPACKET_init_static_len [0; 0; 0; 0] 4 0;; WPACKET_set_max_size 8;; WPACKET_put_bytes_u64 1)
    (mkW None None 0 0 0 [] false, []) =
    (Undef, (mkW None (Some [0; 0; 0; 0]) 8 8 8 [mkSub 0 0 0 0] false, [])) /\
  (WPACKET_init_null 0;; WPACKET_quic_write_vlint 5) (mkW None None 0 0 0 [] false, []) =
    (Undef, (mkW None None 1 1 SIZE_MAX [mkSub 0 0 0 0] false, [])).
Proof. split; vm_compute; reflexivity. Qed.

End WPacket.
