(* ===== verification/QuicWire.v ===== *)
(** * QUIC frames on the wire

    Model of [ssl/quic/quic_wire.c]: the encoders write to a [WPACKET], the
    decoders read from a [PACKET].  A structure filled in by a decoder is its
    result, returned when the function succeeds; a pointer into the packet kept
    in it is the bytes from there on. *)
From Stdlib Require Import ZArith Lia String.
From stdpp Require Import base tactics list strings.
From S2P Require Import Prelude SafeMath OsslTime QuicVlint BufMem Packet WPacket.
Import OsslTime Vlint BufMem Packet WPacket.
#[local] Open Scope Z_scope.

Module QuicWire.

Definition OSSL_QUIC_FRAME_TYPE_PADDING : Z := 0x00.
Definition OSSL_QUIC_FRAME_TYPE_PING : Z := 0x01.
Definition OSSL_QUIC_FRAME_TYPE_ACK_WITHOUT_ECN : Z := 0x02.
Definition OSSL_QUIC_FRAME_TYPE_ACK_WITH_ECN : Z := 0x03.
Definition OSSL_QUIC_FRAME_TYPE_RESET_STREAM : Z := 0x04.
Definition OSSL_QUIC_FRAME_TYPE_STOP_SENDING : Z := 0x05.
Definition OSSL_QUIC_FRAME_TYPE_CRYPTO : Z := 0x06.
Definition OSSL_QUIC_FRAME_TYPE_NEW_TOKEN : Z := 0x07.
Definition OSSL_QUIC_FRAME_TYPE_STREAM : Z := 0x08.
Definition OSSL_QUIC_FRAME_TYPE_MAX_DATA : Z := 0x10.
Definition OSSL_QUIC_FRAME_TYPE_MAX_STREAM_DATA : Z := 0x11.
Definition OSSL_QUIC_FRAME_TYPE_MAX_STREAMS_BIDI : Z := 0x12.
Definition OSSL_QUIC_FRAME_TYPE_MAX_STREAMS_UNI : Z := 0x13.
Definition OSSL_QUIC_FRAME_TYPE_DATA_BLOCKED : Z := 0x14.
Definition OSSL_QUIC_FRAME_TYPE_STREAM_DATA_BLOCKED : Z := 0x15.
Definition OSSL_QUIC_FRAME_TYPE_STREAMS_BLOCKED_BIDI : Z := 0x16.
Definition OSSL_QUIC_FRAME_TYPE_STREAMS_BLOCKED_UNI : Z := 0x17.
Definition OSSL_QUIC_FRAME_TYPE_NEW_CONN_ID : Z := 0x18.
Definition OSSL_QUIC_FRAME_TYPE_RETIRE_CONN_ID : Z := 0x19.
Definition OSSL_QUIC_FRAME_TYPE_PATH_CHALLENGE : Z := 0x1A.
Definition OSSL_QUIC_FRAME_TYPE_PATH_RESPONSE : Z := 0x1B.
Definition OSSL_QUIC_FRAME_TYPE_CONN_CLOSE_TRANSPORT : Z := 0x1C.
Definition OSSL_QUIC_FRAME_TYPE_CONN_CLOSE_APP : Z := 0x1D.
Definition OSSL_QUIC_FRAME_TYPE_HANDSHAKE_DONE : Z := 0x1E.
Definition OSSL_QUIC_FRAME_FLAG_STREAM_FIN : Z := 0x01.
Definition OSSL_QUIC_FRAME_FLAG_STREAM_LEN : Z := 0x02.
Definition OSSL_QUIC_FRAME_FLAG_STREAM_OFF : Z := 0x04.
Definition OSSL_QUIC_FRAME_FLAG_STREAM_MASK : Z := 0x07.
Definition QUIC_MAX_CONN_ID_LEN : Z := 20.
Definition QUIC_TPARAM_PREFERRED_ADDR : Z := 0x0D.
Definition QUIC_MIN_ENCODED_PREFERRED_ADDR_LEN : Z := 41.
Definition QUIC_MAX_ENCODED_PREFERRED_ADDR_LEN : Z := 61.

Record OSSL_QUIC_ACK_RANGE := mkRange { range_start : Z; range_end : Z }.

(** [ack_ranges] is the caller's array, [num_ack_ranges] the entries in use or,
    for the decoder, available. *)
Record OSSL_QUIC_FRAME_ACK := mkAck {
  ack_ranges : list OSSL_QUIC_ACK_RANGE; num_ack_ranges : Z;
  delay_time : OSSL_TIME; ect0 : Z; ect1 : Z; ecnce : Z; ecn_present : bool
}.

Record OSSL_QUIC_FRAME_STREAM := mkStream {
  st_stream_id : Z; st_offset : Z; st_len : Z; st_data : option (list Z);
  has_explicit_len : bool; st_is_fin : bool
}.
Record OSSL_QUIC_FRAME_CRYPTO := mkCrypto {
  cr_offset : Z; cr_len : Z; cr_data : option (list Z)
}.
Record OSSL_QUIC_FRAME_RESET_STREAM := mkReset {
  rs_stream_id : Z; rs_app_error_code : Z; rs_final_size : Z
}.
Record OSSL_QUIC_FRAME_STOP_SENDING := mkStop { ss_stream_id : Z; ss_app_error_code : Z }.

(** [id] is the array of [QUIC_MAX_CONN_ID_LEN] bytes. *)
Record QUIC_CONN_ID := mkConnId { id_len : Z; id : list Z }.

Record OSSL_QUIC_FRAME_NEW_CONN_ID := mkNewConnId {
  seq_num : Z; retire_prior_to : Z; conn_id : QUIC_CONN_ID; stateless_reset : list Z
}.
Record OSSL_QUIC_FRAME_CONN_CLOSE := mkConnClose {
  is_app : bool; error_code : Z; frame_type : Z; reason : list Z; reason_len : Z
}.
Record QUIC_PREFERRED_ADDR := mkPrefAddr {
  ipv4_port : Z; ipv6_port : Z; ipv4 : list Z; ipv6 : list Z;
  pa_stateless_reset : list Z; cid : QUIC_CONN_ID
}.

(** The loop over the array stops at the first match; reading past the array
    is not modelled ([num_ack_ranges] entries are in use). *)
Definition ossl_quic_frame_ack_contains_pn (ack : OSSL_QUIC_FRAME_ACK) (pn : Z) : bool :=
  existsb (fun r => (range_start r <=? pn) && (pn <=? range_end r))
    (take (Z.to_nat (num_ack_ranges ack)) (ack_ranges ack)).

(** ** Encoding *)

Definition ossl_quic_wire_encode_padding (num_bytes : Z) : M wst unit := WPACKET_memset 0 num_bytes.

Definition encode_frame_hdr (ty : Z) : M wst unit := WPACKET_quic_write_vlint ty.

Definition ossl_quic_wire_encode_frame_ping : M wst unit :=
  encode_frame_hdr OSSL_QUIC_FRAME_TYPE_PING.

(** [(uint64_t)1 << n], undefined for [n >= 64]. *)
Definition one_shl {S} (n : Z) : M S Z :=
  if 64 <=? n then undefined else mret (Z.shiftl 1 n).

(** The loop over the ranges after the first; [prev] is the one before. *)
Fixpoint encode_ack_ranges (prev : OSSL_QUIC_ACK_RANGE) (l : list OSSL_QUIC_ACK_RANGE) : M wst unit :=
  match l with
  | [] => mret tt
  | r :: l =>
      let gap := u64 (u64 (range_start prev - range_end r) - 2) in
      let range_len := u64 (range_end r - range_start r) in
      WPACKET_quic_write_vlint gap;;
      WPACKET_quic_write_vlint range_len;;
      encode_ack_ranges r l
  end.

Definition ossl_quic_wire_encode_frame_ack (ack_delay_exponent : Z) (ack : OSSL_QUIC_FRAME_ACK)
    : M wst unit :=
  let ty := if ecn_present ack then OSSL_QUIC_FRAME_TYPE_ACK_WITH_ECN
            else OSSL_QUIC_FRAME_TYPE_ACK_WITHOUT_ECN in
  guard_ (negb (num_ack_ranges ack =? 0));;
  sc ← one_shl ack_delay_exponent;
  let delay := ossl_time_divide (ossl_time_divide (delay_time ack) OSSL_TIME_US) sc in
  match take (Z.to_nat (num_ack_ranges ack)) (ack_ranges ack) with
  | [] => undefined
  | r0 :: rest =>
      encode_frame_hdr ty;;
      WPACKET_quic_write_vlint (range_end r0);;
      WPACKET_quic_write_vlint (ossl_time2ticks delay);;
      WPACKET_quic_write_vlint (u64 (num_ack_ranges ack - 1));;
      WPACKET_quic_write_vlint (u64 (range_end r0 - range_start r0));;
      encode_ack_ranges r0 rest;;
      (if Z.of_nat (length (ack_ranges ack)) <? num_ack_ranges ack then undefined else mret tt);;
      if ecn_present ack then
        WPACKET_quic_write_vlint (ect0 ack);;
        WPACKET_quic_write_vlint (ect1 ack);;
        WPACKET_quic_write_vlint (ecnce ack)
      else mret tt
  end.

Definition ossl_quic_wire_encode_frame_reset_stream (f : OSSL_QUIC_FRAME_RESET_STREAM) : M wst unit :=
  encode_frame_hdr OSSL_QUIC_FRAME_TYPE_RESET_STREAM;;
  WPACKET_quic_write_vlint (rs_stream_id f);;
  WPACKET_quic_write_vlint (rs_app_error_code f);;
  WPACKET_quic_write_vlint (rs_final_size f).

Definition ossl_quic_wire_encode_frame_stop_sending (f : OSSL_QUIC_FRAME_STOP_SENDING) : M wst unit :=
  encode_frame_hdr OSSL_QUIC_FRAME_TYPE_STOP_SENDING;;
  WPACKET_quic_write_vlint (ss_stream_id f);;
  WPACKET_quic_write_vlint (ss_app_error_code f).

Definition ossl_quic_wire_encode_frame_crypto_hdr (f : OSSL_QUIC_FRAME_CRYPTO) : M wst unit :=
  encode_frame_hdr OSSL_QUIC_FRAME_TYPE_CRYPTO;;
  WPACKET_quic_write_vlint (cr_offset f);;
  WPACKET_quic_write_vlint (cr_len f).

Definition ossl_quic_wire_get_encoded_frame_len_crypto_hdr (f : OSSL_QUIC_FRAME_CRYPTO) : Z :=
  let a := ossl_quic_vlint_encode_len OSSL_QUIC_FRAME_TYPE_CRYPTO in
  let b := ossl_quic_vlint_encode_len (cr_offset f) in
  let c := ossl_quic_vlint_encode_len (cr_len f) in
  if (a =? 0) || (b =? 0) || (c =? 0) then 0 else a + b + c.

(** [if (data != NULL) memcpy(p, data, len)]. *)
Definition copy_data (p : option Z) (data : option (list Z)) (len : Z) : M wst unit :=
  match data with
  | None => mret tt
  | Some d =>
      if Z.of_nat (length d) <? len then undefined
      else match p with
           | Some off => write_buf off (take (Z.to_nat len) d)
           | None => undefined
           end
  end.

(** [WPACKET_memcpy(pkt, src, len)]: the bytes are read once room for them has
    been found, and [src] must hold that many. *)
Definition memcpy_from (src : list Z) (len : Z) : M wst unit :=
  if Z.of_nat (length src) <? len then WPACKET_allocate_bytes len;; undefined
  else WPACKET_memcpy (take (Z.to_nat len) src).

(** The pointer returned is null exactly when the function fails. *)
Definition ossl_quic_wire_encode_frame_crypto (f : OSSL_QUIC_FRAME_CRYPTO) : M wst (option Z) :=
  ossl_quic_wire_encode_frame_crypto_hdr f;;
  guard_ (negb (SIZE_MAX <? cr_len f));;
  p ← WPACKET_allocate_bytes (cr_len f);
  copy_data p (cr_data f) (cr_len f);;
  mret p.

(** [token] is the [token_len] bytes. *)
Definition ossl_quic_wire_encode_frame_new_token (token : list Z) : M wst unit :=
  encode_frame_hdr OSSL_QUIC_FRAME_TYPE_NEW_TOKEN;;
  WPACKET_quic_write_vlint (Z.of_nat (length token));;
  WPACKET_memcpy token.

Definition stream_frame_type (f : OSSL_QUIC_FRAME_STREAM) : Z :=
  let t := OSSL_QUIC_FRAME_TYPE_STREAM in
  let t := if negb (st_offset f =? 0) then Z.lor t OSSL_QUIC_FRAME_FLAG_STREAM_OFF else t in
  let t := if has_explicit_len f then Z.lor t OSSL_QUIC_FRAME_FLAG_STREAM_LEN else t in
  if st_is_fin f then Z.lor t OSSL_QUIC_FRAME_FLAG_STREAM_FIN else t.

Definition ossl_quic_wire_encode_frame_stream_hdr (f : OSSL_QUIC_FRAME_STREAM) : M wst unit :=
  encode_frame_hdr (stream_frame_type f);;
  WPACKET_quic_write_vlint (st_stream_id f);;
  (if negb (st_offset f =? 0) then WPACKET_quic_write_vlint (st_offset f) else mret tt);;
  (if has_explicit_len f then WPACKET_quic_write_vlint (st_len f) else mret tt).

Definition ossl_quic_wire_get_encoded_frame_len_stream_hdr (f : OSSL_QUIC_FRAME_STREAM) : Z :=
  let a := ossl_quic_vlint_encode_len OSSL_QUIC_FRAME_TYPE_STREAM in
  let b := ossl_quic_vlint_encode_len (st_stream_id f) in
  if (a =? 0) || (b =? 0) then 0
  else
    let c := if 0 <? st_offset f then ossl_quic_vlint_encode_len (st_offset f) else 0 in
    if (0 <? st_offset f) && (c =? 0) then 0
    else
      let d := if has_explicit_len f then ossl_quic_vlint_encode_len (st_len f) else 0 in
      if has_explicit_len f && (d =? 0) then 0 else a + b + c + d.

Definition ossl_quic_wire_encode_frame_stream (f : OSSL_QUIC_FRAME_STREAM) : M wst (option Z) :=
  ossl_quic_wire_encode_frame_stream_hdr f;;
  guard_ (negb (SIZE_MAX <? st_len f));;
  p ← WPACKET_allocate_bytes (st_len f);
  copy_data p (st_data f) (st_len f);;
  mret p.

Definition ossl_quic_wire_encode_frame_max_data (max_data : Z) : M wst unit :=
  encode_frame_hdr OSSL_QUIC_FRAME_TYPE_MAX_DATA;; WPACKET_quic_write_vlint max_data.

Definition ossl_quic_wire_encode_frame_max_stream_data (stream_id max_data : Z) : M wst unit :=
  encode_frame_hdr OSSL_QUIC_FRAME_TYPE_MAX_STREAM_DATA;;
  WPACKET_quic_write_vlint stream_id;; WPACKET_quic_write_vlint max_data.

Definition ossl_quic_wire_encode_frame_max_streams (is_uni : bool) (max_streams : Z) : M wst unit :=
  encode_frame_hdr (if is_uni then OSSL_QUIC_FRAME_TYPE_MAX_STREAMS_UNI
                    else OSSL_QUIC_FRAME_TYPE_MAX_STREAMS_BIDI);;
  WPACKET_quic_write_vlint max_streams.

Definition ossl_quic_wire_encode_frame_data_blocked (max_data : Z) : M wst unit :=
  encode_frame_hdr OSSL_QUIC_FRAME_TYPE_DATA_BLOCKED;; WPACKET_quic_write_vlint max_data.

Definition ossl_quic_wire_encode_frame_stream_data_blocked (stream_id max_stream_data : Z) : M wst unit :=
  encode_frame_hdr OSSL_QUIC_FRAME_TYPE_STREAM_DATA_BLOCKED;;
  WPACKET_quic_write_vlint stream_id;; WPACKET_quic_write_vlint max_stream_data.

Definition ossl_quic_wire_encode_frame_streams_blocked (is_uni : bool) (max_streams : Z) : M wst unit :=
  encode_frame_hdr (if is_uni then OSSL_QUIC_FRAME_TYPE_STREAMS_BLOCKED_UNI
                    else OSSL_QUIC_FRAME_TYPE_STREAMS_BLOCKED_BIDI);;
  WPACKET_quic_write_vlint max_streams.

Definition ossl_quic_wire_encode_frame_new_conn_id (f : OSSL_QUIC_FRAME_NEW_CONN_ID) : M wst unit :=
  guard_ (negb ((id_len (conn_id f) <? 1) || (QUIC_MAX_CONN_ID_LEN <? id_len (conn_id f))));;
  encode_frame_hdr OSSL_QUIC_FRAME_TYPE_NEW_CONN_ID;;
  WPACKET_quic_write_vlint (seq_num f);;
  WPACKET_quic_write_vlint (retire_prior_to f);;
  WPACKET_put_bytes_u8 (id_len (conn_id f));;
  memcpy_from (id (conn_id f)) (id_len (conn_id f));;
  memcpy_from (stateless_reset f) 16.

Definition ossl_quic_wire_encode_frame_retire_conn_id (seq : Z) : M wst unit :=
  encode_frame_hdr OSSL_QUIC_FRAME_TYPE_RETIRE_CONN_ID;; WPACKET_quic_write_vlint seq.

Definition ossl_quic_wire_encode_frame_path_challenge (data : Z) : M wst unit :=
  encode_frame_hdr OSSL_QUIC_FRAME_TYPE_PATH_CHALLENGE;; WPACKET_put_bytes_u64 data.

Definition ossl_quic_wire_encode_frame_path_response (data : Z) : M wst unit :=
  encode_frame_hdr OSSL_QUIC_FRAME_TYPE_PATH_RESPONSE;; WPACKET_put_bytes_u64 data.

Definition ossl_quic_wire_encode_frame_conn_close (f : OSSL_QUIC_FRAME_CONN_CLOSE) : M wst unit :=
  encode_frame_hdr (if is_app f then OSSL_QUIC_FRAME_TYPE_CONN_CLOSE_APP
                    else OSSL_QUIC_FRAME_TYPE_CONN_CLOSE_TRANSPORT);;
  WPACKET_quic_write_vlint (error_code f);;
  (if negb (is_app f) then WPACKET_quic_write_vlint (frame_type f) else mret tt);;
  WPACKET_quic_write_vlint (reason_len f);;
  memcpy_from (reason f) (reason_len f).

Definition ossl_quic_wire_encode_frame_handshake_done : M wst unit :=
  encode_frame_hdr OSSL_QUIC_FRAME_TYPE_HANDSHAKE_DONE.

(** [value] is null or holds at least [value_len] bytes; the result is the
    pointer to the parameter's bytes. *)
Definition ossl_quic_wire_encode_transport_param_bytes (pid : Z) (value : option (list Z))
    (value_len : Z) : M wst (option Z) :=
  WPACKET_quic_write_vlint pid;;
  WPACKET_quic_write_vlint value_len;;
  b ← (if value_len =? 0 then (w ← pkt; mret (WPACKET_get_curr w))
       else WPACKET_allocate_bytes value_len);
  (if value_len =? 0 then mret tt else copy_data b value value_len);;
  mret b.

Definition ossl_quic_wire_encode_transport_param_int (pid value : Z) : M wst unit :=
  WPACKET_quic_write_vlint pid;;
  WPACKET_quic_write_vlint (ossl_quic_vlint_encode_len value);;
  WPACKET_quic_write_vlint value.

Definition ossl_quic_wire_encode_transport_param_cid (pid : Z) (c : QUIC_CONN_ID) : M wst unit :=
  guard_ (negb (QUIC_MAX_CONN_ID_LEN <? id_len c));;
  b ← ossl_quic_wire_encode_transport_param_bytes pid (Some (id c)) (id_len c);
  guard_ (negb (is_null b)).

(** ** Decoding *)

Definition ossl_quic_wire_peek_frame_header : M PACKET (Z * bool) := PACKET_peek_quic_vlint_ex.
Definition ossl_quic_wire_skip_frame_header : M PACKET Z := PACKET_get_quic_vlint.

Definition expect_frame_header_mask (expected mask : Z) : M PACKET Z :=
  actual ← ossl_quic_wire_skip_frame_header;
  guard_ (Z.ldiff actual mask =? expected);; mret actual.

Definition expect_frame_header (expected : Z) : M PACKET unit :=
  actual ← ossl_quic_wire_skip_frame_header; guard_ (actual =? expected).

(** Loops run once per announced range and stop at the first read that fails;
    every round consumes at least two bytes, so a fuel of one more than the
    bytes left is never used up ([Undef] would tell). *)
Definition loop_fuel : M PACKET nat := fun p => (Ret (S (length (Packet.curr p))), p).

Fixpoint skip_ranges (fuel : nat) (i count : Z) : M PACKET unit :=
  if negb (i <? count) then mret tt
  else
    match fuel with
    | O => undefined
    | S fuel => PACKET_skip_quic_vlint;; PACKET_skip_quic_vlint;; skip_ranges fuel (i + 1) count
    end.

(** Works on a copy of the packet. *)
Definition ossl_quic_wire_peek_frame_ack_num_ranges (p : PACKET) : res Z :=
  fst ((expect_frame_header_mask OSSL_QUIC_FRAME_TYPE_ACK_WITHOUT_ECN 1;;
        PACKET_skip_quic_vlint;; PACKET_skip_quic_vlint;;
        count ← PACKET_get_quic_vlint;
        fuel ← loop_fuel;
        skip_ranges fuel 0 count;;
        mret (u64 (count + 1))) p).

(** [ack->ack_ranges[i] = r], undefined past the end of the array. *)
Definition store_range {S} (i : Z) (r : OSSL_QUIC_ACK_RANGE) (ranges : list OSSL_QUIC_ACK_RANGE)
    : M S (list OSSL_QUIC_ACK_RANGE) :=
  if (Z.to_nat i <? length ranges)%nat then mret (<[Z.to_nat i := r]> ranges) else undefined.

(** [cap] is [num_ack_ranges] of the structure to fill, absent when [ack] is
    null; [start] is only moved when a range is stored. *)
Fixpoint decode_ack_ranges (fuel : nat) (cap : option Z) (i count start : Z)
    (ranges : list OSSL_QUIC_ACK_RANGE) : M PACKET (list OSSL_QUIC_ACK_RANGE) :=
  if negb (i <? count) then mret ranges
  else
    match fuel with
    | O => undefined
    | S fuel =>
        gap ← PACKET_get_quic_vlint;
        len ← PACKET_get_quic_vlint;
        let end_ := u64 (u64 (start - gap) - 2) in
        guard_ (negb ((start <? u64 (gap + 2)) || (end_ <? len)));;
        if (match cap with Some n => i + 1 <? n | None => false end) then
          let start' := u64 (end_ - len) in
          ranges ← store_range (i + 1) (mkRange start' end_) ranges;
          decode_ack_ranges fuel cap (i + 1) count start' ranges
        else decode_ack_ranges fuel cap (i + 1) count start ranges
    end.

(** The structure is null or as the caller passed it; the second component of
    the result is [*total_ranges]. *)
Definition ossl_quic_wire_decode_frame_ack (ack_delay_exponent : Z) (ack : option OSSL_QUIC_FRAME_ACK)
    : M PACKET (option OSSL_QUIC_FRAME_ACK * Z) :=
  ty ← expect_frame_header_mask OSSL_QUIC_FRAME_TYPE_ACK_WITHOUT_ECN 1;
  largest_ackd ← PACKET_get_quic_vlint;
  ack_delay_raw ← PACKET_get_quic_vlint;
  count ← PACKET_get_quic_vlint;
  first_ack_range ← PACKET_get_quic_vlint;
  guard_ (negb (largest_ackd <? first_ack_range));;
  guard_ (negb (SIZE_MAX <? count));;
  let start := u64 (largest_ackd - first_ack_range) in
  sc ← (if is_null ack then mret 0 else one_shl ack_delay_exponent);
  let '(scaled, err) := SafeMath.safe_mul 64 ack_delay_raw sc in
  let delay := if err : bool then ossl_time_infinite
               else ossl_time_multiply (ossl_ticks2time OSSL_TIME_US) scaled in
  let ranges := match ack with Some a => ack_ranges a | None => [] end in
  ranges ← match ack with
           | Some a => if 0 <? num_ack_ranges a
                       then store_range 0 (mkRange start largest_ackd) ranges else mret ranges
           | None => mret ranges
           end;
  fuel ← loop_fuel;
  ranges ← decode_ack_ranges fuel (num_ack_ranges <$> ack) 0 count start ranges;
  let num := match ack with
             | Some a => if u64 (count + 1) <? num_ack_ranges a then u64 (count + 1) else num_ack_ranges a
             | None => 0
             end in
  let total := u64 (count + 1) in
  if ty =? OSSL_QUIC_FRAME_TYPE_ACK_WITH_ECN then
    e0 ← PACKET_get_quic_vlint; e1 ← PACKET_get_quic_vlint; ce ← PACKET_get_quic_vlint;
    mret ((fun _ => mkAck ranges num delay e0 e1 ce true) <$> ack, total)
  else
    mret ((fun a => mkAck ranges num delay (ect0 a) (ect1 a) (ecnce a) false) <$> ack, total).

Definition ossl_quic_wire_decode_frame_reset_stream : M PACKET OSSL_QUIC_FRAME_RESET_STREAM :=
  expect_frame_header OSSL_QUIC_FRAME_TYPE_RESET_STREAM;;
  a ← PACKET_get_quic_vlint; b ← PACKET_get_quic_vlint; c ← PACKET_get_quic_vlint;
  mret (mkReset a b c).

Definition ossl_quic_wire_decode_frame_stop_sending : M PACKET OSSL_QUIC_FRAME_STOP_SENDING :=
  expect_frame_header OSSL_QUIC_FRAME_TYPE_STOP_SENDING;;
  a ← PACKET_get_quic_vlint; b ← PACKET_get_quic_vlint;
  mret (mkStop a b).

(** [(((uint64_t)1) << 62) - 1]. *)
Definition MAX_STREAM_END : Z := Z.shiftl 1 62 - 1.

Definition ossl_quic_wire_decode_frame_crypto (nodata : bool) : M PACKET OSSL_QUIC_FRAME_CRYPTO :=
  expect_frame_header OSSL_QUIC_FRAME_TYPE_CRYPTO;;
  offset ← PACKET_get_quic_vlint; len ← PACKET_get_quic_vlint;
  guard_ (negb (SIZE_MAX <? len));;
  guard_ (negb (MAX_STREAM_END <? u64 (offset + len)));;
  if nodata then mret (mkCrypto offset len None)
  else
    r ← PACKET_remaining; guard_ (negb (r <? len));;
    d ← PACKET_data;
    PACKET_forward len;;
    mret (mkCrypto offset len (Some d)).

(** The token's bytes start at the pointer returned. *)
Definition ossl_quic_wire_decode_frame_new_token : M PACKET (list Z * Z) :=
  expect_frame_header OSSL_QUIC_FRAME_TYPE_NEW_TOKEN;;
  len ← PACKET_get_quic_vlint;
  guard_ (negb (SIZE_MAX <? len));;
  tok ← PACKET_data;
  PACKET_forward len;;
  mret (tok, len).

Definition ossl_quic_wire_decode_frame_stream (nodata : bool) : M PACKET OSSL_QUIC_FRAME_STREAM :=
  ty ← expect_frame_header_mask OSSL_QUIC_FRAME_TYPE_STREAM OSSL_QUIC_FRAME_FLAG_STREAM_MASK;
  sid ← PACKET_get_quic_vlint;
  offset ← (if negb (Z.land ty OSSL_QUIC_FRAME_FLAG_STREAM_OFF =? 0)
            then PACKET_get_quic_vlint else mret 0);
  let explicit_len := negb (Z.land ty OSSL_QUIC_FRAME_FLAG_STREAM_LEN =? 0) in
  let fin := negb (Z.land ty OSSL_QUIC_FRAME_FLAG_STREAM_FIN =? 0) in
  len ← (if explicit_len then PACKET_get_quic_vlint
         else if nodata then mret 0 else PACKET_remaining);
  guard_ (negb (MAX_STREAM_END <? u64 (offset + len)));;
  if nodata then mret (mkStream sid offset len None explicit_len fin)
  else
    d ← PACKET_data;
    guard_ (negb (SIZE_MAX <? len));;
    PACKET_forward len;;
    mret (mkStream sid offset len (Some d) explicit_len fin).

Definition ossl_quic_wire_decode_frame_max_data : M PACKET Z :=
  expect_frame_header OSSL_QUIC_FRAME_TYPE_MAX_DATA;; PACKET_get_quic_vlint.

Definition ossl_quic_wire_decode_frame_max_stream_data : M PACKET (Z * Z) :=
  expect_frame_header OSSL_QUIC_FRAME_TYPE_MAX_STREAM_DATA;;
  a ← PACKET_get_quic_vlint; b ← PACKET_get_quic_vlint; mret (a, b).

Definition ossl_quic_wire_decode_frame_max_streams : M PACKET Z :=
  expect_frame_header_mask OSSL_QUIC_FRAME_TYPE_MAX_STREAMS_BIDI 1;; PACKET_get_quic_vlint.

Definition ossl_quic_wire_decode_frame_data_blocked : M PACKET Z :=
  expect_frame_header OSSL_QUIC_FRAME_TYPE_DATA_BLOCKED;; PACKET_get_quic_vlint.

Definition ossl_quic_wire_decode_frame_stream_data_blocked : M PACKET (Z * Z) :=
  expect_frame_header OSSL_QUIC_FRAME_TYPE_STREAM_DATA_BLOCKED;;
  a ← PACKET_get_quic_vlint; b ← PACKET_get_quic_vlint; mret (a, b).

Definition ossl_quic_wire_decode_frame_streams_blocked : M PACKET Z :=
  expect_frame_header_mask OSSL_QUIC_FRAME_TYPE_STREAMS_BLOCKED_BIDI 1;; PACKET_get_quic_vlint.

(** [PACKET_copy_bytes] into an array of [room] bytes. *)
Definition copy_into (room len : Z) : M PACKET (list Z) :=
  d ← PACKET_copy_bytes len;
  if room <? len then undefined else mret d.

Definition ossl_quic_wire_decode_frame_new_conn_id : M PACKET OSSL_QUIC_FRAME_NEW_CONN_ID :=
  expect_frame_header OSSL_QUIC_FRAME_TYPE_NEW_CONN_ID;;
  seq ← PACKET_get_quic_vlint; rpt ← PACKET_get_quic_vlint;
  guard_ (negb (seq <? rpt));;
  len ← PACKET_get_1;
  guard_ (negb (len <? 1) && negb (QUIC_MAX_CONN_ID_LEN <? len));;
  i ← copy_into QUIC_MAX_CONN_ID_LEN len;
  tok ← copy_into 16 16;
  mret (mkNewConnId seq rpt
          (mkConnId (u8 len) (i ++ replicate (Z.to_nat (QUIC_MAX_CONN_ID_LEN - len)) 0)) tok).

Definition ossl_quic_wire_decode_frame_retire_conn_id : M PACKET Z :=
  expect_frame_header OSSL_QUIC_FRAME_TYPE_RETIRE_CONN_ID;; PACKET_get_quic_vlint.

Definition ossl_quic_wire_decode_frame_path_challenge : M PACKET Z :=
  expect_frame_header OSSL_QUIC_FRAME_TYPE_PATH_CHALLENGE;; PACKET_get_net_8.

Definition ossl_quic_wire_decode_frame_path_response : M PACKET Z :=
  expect_frame_header OSSL_QUIC_FRAME_TYPE_PATH_RESPONSE;; PACKET_get_net_8.

Definition ossl_quic_wire_decode_frame_conn_close : M PACKET OSSL_QUIC_FRAME_CONN_CLOSE :=
  ty ← expect_frame_header_mask OSSL_QUIC_FRAME_TYPE_CONN_CLOSE_TRANSPORT 1;
  ec ← PACKET_get_quic_vlint;
  let app := negb (Z.land ty 1 =? 0) in
  ft ← (if negb app then PACKET_get_quic_vlint else mret 0);
  rl ← PACKET_get_quic_vlint;
  guard_ (negb (SIZE_MAX <? rl));;
  r ← PACKET_get_bytes rl;
  mret (mkConnClose app ec ft r rl).

(** [while (p < end && *p == 0) ++p]. *)
Fixpoint count_zeros (l : list Z) : nat :=
  match l with b :: l => if b =? 0 then S (count_zeros l) else 0%nat | [] => 0%nat end.

Definition ossl_quic_wire_decode_padding : M PACKET Z :=
  c ← PACKET_data; r ← PACKET_remaining;
  let n := Z.of_nat (count_zeros (take (Z.to_nat r) c)) in
  PACKET_forward n;; mret n.

Definition ossl_quic_wire_decode_frame_ping : M PACKET unit :=
  expect_frame_header OSSL_QUIC_FRAME_TYPE_PING.

Definition ossl_quic_wire_decode_frame_handshake_done : M PACKET unit :=
  expect_frame_header OSSL_QUIC_FRAME_TYPE_HANDSHAKE_DONE.

Definition ossl_quic_wire_peek_transport_param : M PACKET Z := PACKET_peek_quic_vlint.

(** The pointer, [*id] and [*len]; failure is the null pointer. *)
Definition ossl_quic_wire_decode_transport_param_bytes : M PACKET (list Z * Z * Z) :=
  pid ← PACKET_get_quic_vlint; len ← PACKET_get_quic_vlint;
  guard_ (negb (SIZE_MAX <? len));;
  b ← PACKET_get_bytes len;
  mret (b, pid, len).

(** Runs a reader on another packet, which is dropped afterwards. *)
Definition on_sub {A} (sub : PACKET) (m : M PACKET A) : M PACKET A := fun p =>
  match fst (m sub) with Ret a => (Ret a, p) | Err => (Err, p) | Undef => (Undef, p) end.

Definition ossl_quic_wire_decode_transport_param_int : M PACKET (Z * Z) :=
  '(b, pid, len) ← ossl_quic_wire_decode_transport_param_bytes;
  v ← on_sub (mkPacket b len) (v ← PACKET_get_quic_vlint; r ← PACKET_remaining;
                               guard_ (negb (0 <? r));; mret v);
  mret (pid, v).

(** [cid->id] beyond [id_len] keeps what it held: [old]. *)
Definition ossl_quic_wire_decode_transport_param_cid (old : list Z) : M PACKET (Z * QUIC_CONN_ID) :=
  '(b, pid, len) ← ossl_quic_wire_decode_transport_param_bytes;
  guard_ (negb (QUIC_MAX_CONN_ID_LEN <? len));;
  if (Z.of_nat (length b) <? len) || (QUIC_MAX_CONN_ID_LEN <? len) then undefined
  else mret (pid, mkConnId (u8 len) (take (Z.to_nat len) b ++ drop (Z.to_nat len) old)).

Definition ossl_quic_wire_decode_transport_param_preferred_addr (old : list Z)
    : M PACKET QUIC_PREFERRED_ADDR :=
  '(b, pid, len) ← ossl_quic_wire_decode_transport_param_bytes;
  guard_ (negb ((len <? QUIC_MIN_ENCODED_PREFERRED_ADDR_LEN) ||
                (QUIC_MAX_ENCODED_PREFERRED_ADDR_LEN <? len) ||
                negb (pid =? QUIC_TPARAM_PREFERRED_ADDR)));;
  match PACKET_buf_init b len with
  | None => fail
  | Some pkt2 =>
      on_sub pkt2 (
        v4 ← copy_into 4 4; p4 ← PACKET_get_net_2;
        v6 ← copy_into 16 16; p6 ← PACKET_get_net_2;
        cidl ← PACKET_get_1; guard_ (negb (QUIC_MAX_CONN_ID_LEN <? cidl));;
        i ← copy_into QUIC_MAX_CONN_ID_LEN cidl; tok ← copy_into 16 16;
        mret (mkPrefAddr (p4 mod 65536) (p6 mod 65536) v4 v6 tok
                (mkConnId (u8 cidl) (i ++ drop (Z.to_nat cidl) old))))
  end.

(** ** Names *)

Definition ossl_quic_frame_type_to_string (ty : Z) : option string :=
  match ty with
  | 0x00 => Some "PADDING" | 0x01 => Some "PING"
  | 0x02 => Some "ACK_WITHOUT_ECN" | 0x03 => Some "ACK_WITH_ECN"
  | 0x04 => Some "RESET_STREAM" | 0x05 => Some "STOP_SENDING"
  | 0x06 => Some "CRYPTO" | 0x07 => Some "NEW_TOKEN"
  | 0x10 => Some "MAX_DATA" | 0x11 => Some "MAX_STREAM_DATA"
  | 0x12 => Some "MAX_STREAMS_BIDI" | 0x13 => Some "MAX_STREAMS_UNI"
  | 0x14 => Some "DATA_BLOCKED" | 0x15 => Some "STREAM_DATA_BLOCKED"
  | 0x16 => Some "STREAMS_BLOCKED_BIDI" | 0x17 => Some "STREAMS_BLOCKED_UNI"
  | 0x18 => Some "NEW_CONN_ID" | 0x19 => Some "RETIRE_CONN_ID"
  | 0x1A => Some "PATH_CHALLENGE" | 0x1B => Some "PATH_RESPONSE"
  | 0x1C => Some "CONN_CLOSE_TRANSPORT" | 0x1D => Some "CONN_CLOSE_APP"
  | 0x1E => Some "HANDSHAKE_DONE"
  | 0x08 => Some "STREAM" | 0x09 => Some "STREAM_FIN"
  | 0x0A => Some "STREAM_LEN" | 0x0B => Some "STREAM_LEN_FIN"
  | 0x0C => Some "STREAM_OFF" | 0x0D => Some "STREAM_OFF_FIN"
  | 0x0E => Some "STREAM_OFF_LEN" | 0x0F => Some "STREAM_OFF_LEN_FIN"
  | _ => None
  end%string.

Definition ossl_quic_err_to_string (ec : Z) : option string :=
  match ec with
  | 0x00 => Some "NO_ERROR" | 0x01 => Some "INTERNAL_ERROR"
  | 0x02 => Some "CONNECTION_REFUSED" | 0x03 => Some "FLOW_CONTROL_ERROR"
  | 0x04 => Some "STREAM_LIMIT_ERROR" | 0x05 => Some "STREAM_STATE_ERROR"
  | 0x06 => Some "FINAL_SIZE_ERROR" | 0x07 => Some "FRAME_ENCODING_ERROR"
  | 0x08 => Some "TRANSPORT_PARAMETER_ERROR" | 0x09 => Some "CONNECTION_ID_LIMIT_ERROR"
  | 0x0A => Some "PROTOCOL_VIOLATION" | 0x0B => Some "INVALID_TOKEN"
  | 0x0C => Some "APPLICATION_ERROR" | 0x0D => Some "CRYPTO_BUFFER_EXCEEDED"
  | 0x0E => Some "KEY_UPDATE_ERROR" | 0x0F => Some "AEAD_LIMIT_REACHED"
  | 0x10 => Some "NO_VIABLE_PATH"
  | _ => None
  end%string.

(** ** Frames as values

    [frame] collects the frame types other than ACK, a run of padding being
    one frame as it is for the decoder; [encode_frame] and
    [decode_frame] choose the function for the type, the decoder by the type
    field it peeks at, the way the depacketiser does. *)
Inductive frame :=
  | F_PADDING (num_bytes : Z) | F_PING | F_HANDSHAKE_DONE
  | F_RESET_STREAM (f : OSSL_QUIC_FRAME_RESET_STREAM)
  | F_STOP_SENDING (f : OSSL_QUIC_FRAME_STOP_SENDING)
  | F_CRYPTO (f : OSSL_QUIC_FRAME_CRYPTO)
  | F_NEW_TOKEN (token : list Z) (token_len : Z)
  | F_STREAM (f : OSSL_QUIC_FRAME_STREAM)
  | F_MAX_DATA (n : Z) | F_MAX_STREAM_DATA (stream_id n : Z) | F_MAX_STREAMS (is_uni : bool) (n : Z)
  | F_DATA_BLOCKED (n : Z) | F_STREAM_DATA_BLOCKED (stream_id n : Z)
  | F_STREAMS_BLOCKED (is_uni : bool) (n : Z)
  | F_NEW_CONN_ID (f : OSSL_QUIC_FRAME_NEW_CONN_ID) | F_RETIRE_CONN_ID (n : Z)
  | F_PATH_CHALLENGE (data : Z) | F_PATH_RESPONSE (data : Z)
  | F_CONN_CLOSE (f : OSSL_QUIC_FRAME_CONN_CLOSE).

Definition encode_frame (f : frame) : M wst unit :=
  match f with
  | F_PADDING n => ossl_quic_wire_encode_padding n
  | F_PING => ossl_quic_wire_encode_frame_ping
  | F_HANDSHAKE_DONE => ossl_quic_wire_encode_frame_handshake_done
  | F_RESET_STREAM f => ossl_quic_wire_encode_frame_reset_stream f
  | F_STOP_SENDING f => ossl_quic_wire_encode_frame_stop_sending f
  | F_CRYPTO f => ossl_quic_wire_encode_frame_crypto f;; mret tt
  | F_NEW_TOKEN t n => ossl_quic_wire_encode_frame_new_token (take (Z.to_nat n) t)
  | F_STREAM f => ossl_quic_wire_encode_frame_stream f;; mret tt
  | F_MAX_DATA n => ossl_quic_wire_encode_frame_max_data n
  | F_MAX_STREAM_DATA i n => ossl_quic_wire_encode_frame_max_stream_data i n
  | F_MAX_STREAMS u n => ossl_quic_wire_encode_frame_max_streams u n
  | F_DATA_BLOCKED n => ossl_quic_wire_encode_frame_data_blocked n
  | F_STREAM_DATA_BLOCKED i n => ossl_quic_wire_encode_frame_stream_data_blocked i n
  | F_STREAMS_BLOCKED u n => ossl_quic_wire_encode_frame_streams_blocked u n
  | F_NEW_CONN_ID f => ossl_quic_wire_encode_frame_new_conn_id f
  | F_RETIRE_CONN_ID n => ossl_quic_wire_encode_frame_retire_conn_id n
  | F_PATH_CHALLENGE d => ossl_quic_wire_encode_frame_path_challenge d
  | F_PATH_RESPONSE d => ossl_quic_wire_encode_frame_path_response d
  | F_CONN_CLOSE f => ossl_quic_wire_encode_frame_conn_close f
  end.

Definition decode_by_type (ty : Z) : M PACKET frame :=
  match ty with
  | 0x00 => n ← ossl_quic_wire_decode_padding; mret (F_PADDING n)
  | 0x01 => ossl_quic_wire_decode_frame_ping;; mret F_PING
  | 0x04 => f ← ossl_quic_wire_decode_frame_reset_stream; mret (F_RESET_STREAM f)
  | 0x05 => f ← ossl_quic_wire_decode_frame_stop_sending; mret (F_STOP_SENDING f)
  | 0x06 => f ← ossl_quic_wire_decode_frame_crypto false; mret (F_CRYPTO f)
  | 0x07 => '(t, n) ← ossl_quic_wire_decode_frame_new_token; mret (F_NEW_TOKEN t n)
  | 0x08 | 0x09 | 0x0A | 0x0B | 0x0C | 0x0D | 0x0E | 0x0F =>
      f ← ossl_quic_wire_decode_frame_stream false; mret (F_STREAM f)
  | 0x10 => n ← ossl_quic_wire_decode_frame_max_data; mret (F_MAX_DATA n)
  | 0x11 => '(i, n) ← ossl_quic_wire_decode_frame_max_stream_data; mret (F_MAX_STREAM_DATA i n)
  | 0x12 => n ← ossl_quic_wire_decode_frame_max_streams; mret (F_MAX_STREAMS false n)
  | 0x13 => n ← ossl_quic_wire_decode_frame_max_streams; mret (F_MAX_STREAMS true n)
  | 0x14 => n ← ossl_quic_wire_decode_frame_data_blocked; mret (F_DATA_BLOCKED n)
  | 0x15 => '(i, n) ← ossl_quic_wire_decode_frame_stream_data_blocked; mret (F_STREAM_DATA_BLOCKED i n)
  | 0x16 => n ← ossl_quic_wire_decode_frame_streams_blocked; mret (F_STREAMS_BLOCKED false n)
  | 0x17 => n ← ossl_quic_wire_decode_frame_streams_blocked; mret (F_STREAMS_BLOCKED true n)
  | 0x18 => f ← ossl_quic_wire_decode_frame_new_conn_id; mret (F_NEW_CONN_ID f)
  | 0x19 => n ← ossl_quic_wire_decode_frame_retire_conn_id; mret (F_RETIRE_CONN_ID n)
  | 0x1A => d ← ossl_quic_wire_decode_frame_path_challenge; mret (F_PATH_CHALLENGE d)
  | 0x1B => d ← ossl_quic_wire_decode_frame_path_response; mret (F_PATH_RESPONSE d)
  | 0x1C | 0x1D => f ← ossl_quic_wire_decode_frame_conn_close; mret (F_CONN_CLOSE f)
  | 0x1E => ossl_quic_wire_decode_frame_handshake_done;; mret F_HANDSHAKE_DONE
  | _ => fail
  end.

Definition decode_frame : M PACKET frame :=
  '(ty, _) ← ossl_quic_wire_peek_frame_header; decode_by_type ty.

(** A frame without what lies behind its data in memory. *)
Definition view (f : frame) : frame :=
  match f with
  | F_CRYPTO c => F_CRYPTO (mkCrypto (cr_offset c) (cr_len c) (take (Z.to_nat (cr_len c)) <$> cr_data c))
  | F_STREAM s => F_STREAM (mkStream (st_stream_id s) (st_offset s) (st_len s)
                    (take (Z.to_nat (st_len s)) <$> st_data s) (has_explicit_len s) (st_is_fin s))
  | F_NEW_TOKEN t n => F_NEW_TOKEN (take (Z.to_nat n) t) n
  | F_NEW_CONN_ID c => F_NEW_CONN_ID (mkNewConnId (seq_num c) (retire_prior_to c)
      (mkConnId (id_len (conn_id c)) (take (Z.to_nat (id_len (conn_id c))) (id (conn_id c))))
      (stateless_reset c))
  | F_CONN_CLOSE c => F_CONN_CLOSE (mkConnClose (is_app c) (error_code c) (frame_type c)
                        (take (Z.to_nat (reason_len c)) (reason c)) (reason_len c))
  | _ => f
  end.

Abbreviation vl := ossl_quic_vlint_encode.
Definition vint (v : Z) : Prop := 0 <= v <= OSSL_QUIC_VLINT_MAX.

(** [d] points to [len] bytes. *)
Definition holds (d : list Z) (len : Z) : Prop := 0 <= len <= Z.of_nat (length d) /\ bytes d.

Definition valid_frame (f : frame) : Prop :=
  match f with
  | F_PADDING n => 0 < n
  | F_PING | F_HANDSHAKE_DONE => True
  | F_RESET_STREAM f => vint (rs_stream_id f) /\ vint (rs_app_error_code f) /\ vint (rs_final_size f)
  | F_STOP_SENDING f => vint (ss_stream_id f) /\ vint (ss_app_error_code f)
  | F_CRYPTO f => 0 <= cr_offset f /\ 0 <= cr_len f /\ cr_offset f + cr_len f <= MAX_STREAM_END /\
      exists d, cr_data f = Some d /\ holds d (cr_len f)
  | F_NEW_TOKEN t n => vint n /\ holds t n
  | F_STREAM f => vint (st_stream_id f) /\ 0 <= st_offset f /\ 0 <= st_len f /\
      st_offset f + st_len f <= MAX_STREAM_END /\
      exists d, st_data f = Some d /\ holds d (st_len f)
  | F_MAX_DATA n | F_MAX_STREAMS _ n | F_DATA_BLOCKED n | F_STREAMS_BLOCKED _ n
  | F_RETIRE_CONN_ID n => vint n
  | F_MAX_STREAM_DATA i n | F_STREAM_DATA_BLOCKED i n => vint i /\ vint n
  | F_NEW_CONN_ID f => vint (seq_num f) /\ 0 <= retire_prior_to f <= seq_num f /\
      1 <= id_len (conn_id f) <= QUIC_MAX_CONN_ID_LEN /\ holds (id (conn_id f)) (id_len (conn_id f)) /\
      length (stateless_reset f) = 16%nat /\ bytes (stateless_reset f)
  | F_PATH_CHALLENGE d | F_PATH_RESPONSE d => is_u64 d
  | F_CONN_CLOSE f => vint (error_code f) /\ vint (frame_type f) /\
      (is_app f = true -> frame_type f = 0) /\ vint (reason_len f) /\ holds (reason f) (reason_len f)
  end.

Definition frame_wire_type (f : frame) : Z :=
  match f with
  | F_PADDING _ => 0x00 | F_PING => 0x01 | F_HANDSHAKE_DONE => 0x1E | F_RESET_STREAM _ => 0x04 | F_STOP_SENDING _ => 0x05
  | F_CRYPTO _ => 0x06 | F_NEW_TOKEN _ _ => 0x07 | F_STREAM f => stream_frame_type f
  | F_MAX_DATA _ => 0x10 | F_MAX_STREAM_DATA _ _ => 0x11
  | F_MAX_STREAMS u _ => if u then 0x13 else 0x12
  | F_DATA_BLOCKED _ => 0x14 | F_STREAM_DATA_BLOCKED _ _ => 0x15
  | F_STREAMS_BLOCKED u _ => if u then 0x17 else 0x16
  | F_NEW_CONN_ID _ => 0x18 | F_RETIRE_CONN_ID _ => 0x19
  | F_PATH_CHALLENGE _ => 0x1A | F_PATH_RESPONSE _ => 0x1B
  | F_CONN_CLOSE f => if is_app f then 0x1D else 0x1C
  end.

(** The bytes of a frame behind its type, as RFC 9000 lays them out. *)
Definition frame_body (f : frame) : list Z :=
  match f with
  | F_PADDING n => replicate (Z.to_nat (n - 1)) 0
  | F_PING | F_HANDSHAKE_DONE => []
  | F_RESET_STREAM f => vl (rs_stream_id f) ++ vl (rs_app_error_code f) ++ vl (rs_final_size f)
  | F_STOP_SENDING f => vl (ss_stream_id f) ++ vl (ss_app_error_code f)
  | F_CRYPTO f => vl (cr_offset f) ++ vl (cr_len f) ++ take (Z.to_nat (cr_len f)) (default [] (cr_data f))
  | F_NEW_TOKEN t n => vl n ++ take (Z.to_nat n) t
  | F_STREAM f =>
      vl (st_stream_id f) ++ (if st_offset f =? 0 then [] else vl (st_offset f)) ++
      (if has_explicit_len f then vl (st_len f) else []) ++
      take (Z.to_nat (st_len f)) (default [] (st_data f))
  | F_MAX_DATA n | F_MAX_STREAMS _ n | F_DATA_BLOCKED n | F_STREAMS_BLOCKED _ n
  | F_RETIRE_CONN_ID n => vl n
  | F_MAX_STREAM_DATA i n | F_STREAM_DATA_BLOCKED i n => vl i ++ vl n
  | F_NEW_CONN_ID f =>
      vl (seq_num f) ++ vl (retire_prior_to f) ++ [id_len (conn_id f)] ++
      take (Z.to_nat (id_len (conn_id f))) (id (conn_id f)) ++ stateless_reset f
  | F_PATH_CHALLENGE d | F_PATH_RESPONSE d => be_bytes 8 d
  | F_CONN_CLOSE f =>
      vl (error_code f) ++ (if is_app f then [] else vl (frame_type f)) ++
      vl (reason_len f) ++ take (Z.to_nat (reason_len f)) (reason f)
  end.

Definition frame_wire (f : frame) : list Z := vl (frame_wire_type f) ++ frame_body f.

(** Where the decoder finds a frame's end: a STREAM frame without a length runs
    to the end of the packet, and padding to the first byte that is not zero. *)
Definition delimited (f : frame) (rest : list Z) (rem : Z) : Prop :=
  match f with
  | F_STREAM s => has_explicit_len s = true \/ rem = Z.of_nat (length (frame_wire f))
  | F_PADDING _ => rem = Z.of_nat (length (frame_wire f)) \/ exists b l, rest = b :: l /\ b <> 0
  | _ => True
  end.

(** STREAM and CRYPTO frames that carry no data, and the encoders of the part
    of a frame in front of its data. *)
Definition carries_none (f : frame) : bool :=
  match f with F_STREAM s => st_len s =? 0 | F_CRYPTO c => cr_len c =? 0 | _ => false end.

Definition encode_frame_hdr_only (f : frame) : M wst unit :=
  match f with
  | F_STREAM s => ossl_quic_wire_encode_frame_stream_hdr s
  | F_CRYPTO c => ossl_quic_wire_encode_frame_crypto_hdr c
  | _ => encode_frame f
  end.

(** [m] fails on every packet, whatever its room. *)
Definition refuses {A} (m : M wst A) : Prop :=
  forall w h, wp_ok w -> backed w = true -> endfirst w = false -> exists s', m (w, h) = (Err, s').

(** ** Lemmas *)

Lemma vlint_max_val : OSSL_QUIC_VLINT_MAX = 2 ^ 62 - 1.
Proof. reflexivity. Qed.
Lemma max_stream_end_val : MAX_STREAM_END = 2 ^ 62 - 1.
Proof. reflexivity. Qed.

Lemma small_vint n : 0 <= n < 64 -> vint n.
Proof. unfold vint. rewrite vlint_max_val. lia. Qed.

Lemma vint_bound n : vint n -> 0 <= n < 2 ^ 62.
Proof. unfold vint. rewrite vlint_max_val. lia. Qed.

Lemma frame_type_small f : 0 <= frame_wire_type f < 64.
Proof.
  destruct f; cbn; try lia; unfold stream_frame_type;
    repeat match goal with |- context [if ?b then _ else _] => destruct b end; split; vm_compute; congruence.
Qed.

Lemma appends_bind_r {A B} (m : M wst A) (f : A -> M wst B) b :
  appends m b -> (forall a, appends (f a) []) -> appends (m ≫= f) b.
Proof. intros Hm Hf. rewrite <- (app_nil_r b). by apply appends_bind. Qed.

Lemma appends_bind_l {A B} (m : M wst A) (f : A -> M wst B) b :
  appends m [] -> (forall a, appends (f a) b) -> appends (m ≫= f) b.
Proof. intros Hm Hf. change b with ([] ++ b). by apply appends_bind. Qed.

Lemma appends_ret_bind {A B} (x : A) (f : A -> M wst B) b :
  appends (f x) b -> appends (mret x ≫= f) b.
Proof. intros H w h. exact (H w h). Qed.

Lemma hdr_appends ty : 0 <= ty < 64 -> appends (encode_frame_hdr ty) (vl ty).
Proof. intros. by apply write_vlint_appends, small_vint. Qed.

Lemma put_u8_appends v : is_u8 v -> appends (WPACKET_put_bytes_u8 v) [v].
Proof.
  intros Hv. assert (E : [v] = be_bytes 1 v) by (cbn; by rewrite Z.shiftr_0_r, u8_id). rewrite E.
  unfold is_u8 in Hv. apply (put_bytes_appends v 1); lia.
Qed.

Lemma put_u64_appends v : is_u64 v -> appends (WPACKET_put_bytes_u64 v) (be_bytes 8 v).
Proof. intros Hv. unfold is_u64 in Hv. apply (put_bytes_appends v 8); lia. Qed.

Lemma alloc_copy_appends d len :
  0 < len -> holds d len ->
  appends (p ← WPACKET_allocate_bytes len; copy_data p (Some d) len;; mret p) (take (Z.to_nat len) d).
Proof.
  intros Hl [Hd _]. apply appends_alloc_write.
  - intros E%(f_equal length). rewrite length_take in E. cbn in E. lia.
  - rewrite length_take. lia.
  - intros w h p _ _ _ _ _. exists (Some p). unfold copy_data, mbind, M_bind.
    destruct (Z.ltb_spec (Z.of_nat (length d)) len); [lia|].
    by destruct (write_buf p _ (w, h)) as [[]].
Qed.

Lemma memcpy_from_appends src len :
  holds src len -> appends (memcpy_from src len) (take (Z.to_nat len) src).
Proof.
  intros [Hl _]. unfold memcpy_from. destruct (Z.ltb_spec (Z.of_nat (length src)) len); [lia|].
  apply memcpy_appends.
Qed.

(** Splits a sequence of writes and proves each of them. *)
Ltac wr :=
  repeat first
    [ apply hdr_appends; lia | apply write_vlint_appends; done | apply memcpy_appends
    | apply memcpy_from_appends; done
    | apply put_u8_appends; done | apply put_u64_appends; done | apply appends_ret
    | apply appends_bind; [|intros _] | intros _ ].

Lemma stream_hdr_appends f :
  vint (st_stream_id f) -> vint (st_offset f) -> vint (st_len f) ->
  appends (ossl_quic_wire_encode_frame_stream_hdr f)
    (vl (stream_frame_type f) ++ vl (st_stream_id f) ++
     (if st_offset f =? 0 then [] else vl (st_offset f)) ++
     (if has_explicit_len f then vl (st_len f) else [])).
Proof.
  intros. pose proof (frame_type_small (F_STREAM f)) as Hty. cbn in Hty.
  unfold ossl_quic_wire_encode_frame_stream_hdr.
  repeat (apply appends_bind; [|intros _]); try wr;
    destruct (st_offset f =? 0), (has_explicit_len f); cbn [negb]; wr.
Qed.

Lemma crypto_hdr_appends f :
  vint (cr_offset f) -> vint (cr_len f) ->
  appends (ossl_quic_wire_encode_frame_crypto_hdr f) (vl 6 ++ vl (cr_offset f) ++ vl (cr_len f)).
Proof. intros. unfold ossl_quic_wire_encode_frame_crypto_hdr. wr. Qed.

(** The fields of a frame that carries data lie in the range of the wire. *)
Lemma data_vints off len :
  0 <= off -> 0 <= len -> off + len <= MAX_STREAM_END -> vint off /\ vint len /\ negb (SIZE_MAX <? len) = true.
Proof.
  unfold vint. rewrite vlint_max_val, max_stream_end_val. intros. split_and!; lia.
Qed.

(** Writing a header and then data that is empty. *)
Lemma empty_data_refused {B} (m : M wst unit) (f : option Z -> M wst B) bs :
  appends m bs -> refuses (m;; guard_ (negb (SIZE_MAX <? 0));; p ← WPACKET_allocate_bytes 0; f p).
Proof.
  intros Hm w h Hw Hb He. destruct (Hm w h Hw Hb He) as [(s' & E & _)|(a & w' & h' & E & _)].
  - exists s'. by rewrite (bind_err _ _ _ _ E).
  - rewrite (bind_ret _ _ _ _ _ E). rewrite guard_true by done. exists (w', h').
    rewrite (bind_err _ _ _ (w', h')); [done|]. unfold WPACKET_allocate_bytes.
    rewrite (bind_err _ _ _ (w', h')); [done|].
    unfold WPACKET_reserve_bytes. rewrite pkt_bind. rewrite guard_false; [done|]. by rewrite andb_false_r.
Qed.

Lemma refuses_bind {A B} (m : M wst A) (f : A -> M wst B) : refuses m -> refuses (m ≫= f).
Proof. intros Hm w h Hw Hb He. destruct (Hm w h Hw Hb He) as (s' & E). exists s'. by apply bind_err. Qed.

Lemma encode_frame_appends f :
  valid_frame f -> carries_none f = false -> appends (encode_frame f) (frame_wire f).
Proof.
  intros Hf Hn. unfold frame_wire.
  destruct f; cbn [encode_frame frame_body frame_wire_type valid_frame carries_none] in *.
  - change (vl 0) with [0]. replace ([0] ++ replicate (Z.to_nat (num_bytes - 1)) 0)
      with (replicate (Z.to_nat num_bytes) (u8 0)).
    { apply memset_appends. lia. }
    replace (Z.to_nat num_bytes) with (S (Z.to_nat (num_bytes - 1))) by lia. done.
  - rewrite app_nil_r. by apply hdr_appends.
  - rewrite app_nil_r. by apply hdr_appends.
  - destruct Hf as (? & ? & ?). unfold ossl_quic_wire_encode_frame_reset_stream. wr.
  - destruct Hf as (? & ?). unfold ossl_quic_wire_encode_frame_stop_sending. wr.
  - destruct Hf as (Ho & Hl & Hs & d & Hd & Hh). rewrite Hd. cbn [default].
    destruct (data_vints _ _ Ho Hl Hs) as (? & ? & ?). apply Z.eqb_neq in Hn.
    apply appends_bind_r; [|intros; apply appends_ret]. unfold ossl_quic_wire_encode_frame_crypto. rewrite Hd.
    rewrite (app_assoc (vl (cr_offset f))), app_assoc.
    apply appends_bind; [by apply crypto_hdr_appends|intros _].
    apply appends_guard; [done|]. apply alloc_copy_appends; [lia|done].
  - destruct Hf as (? & Hh & ?). unfold ossl_quic_wire_encode_frame_new_token.
    rewrite length_take, Nat.min_l by lia. rewrite Z2Nat.id by lia. wr.
  - destruct Hf as (Hi & Ho & Hl & Hs & d & Hd & Hh). rewrite Hd. cbn [default].
    destruct (data_vints _ _ Ho Hl Hs) as (? & ? & ?). apply Z.eqb_neq in Hn.
    apply appends_bind_r; [|intros; apply appends_ret]. unfold ossl_quic_wire_encode_frame_stream. rewrite Hd.
    rewrite (app_assoc _ (if has_explicit_len f then _ else _)), (app_assoc (vl (st_stream_id f))), app_assoc.
    apply appends_bind; [by apply stream_hdr_appends|intros _].
    apply appends_guard; [done|]. apply alloc_copy_appends; [lia|done].
  - unfold ossl_quic_wire_encode_frame_max_data. wr.
  - destruct Hf. unfold ossl_quic_wire_encode_frame_max_stream_data. wr.
  - unfold ossl_quic_wire_encode_frame_max_streams. destruct is_uni; wr.
  - unfold ossl_quic_wire_encode_frame_data_blocked. wr.
  - destruct Hf. unfold ossl_quic_wire_encode_frame_stream_data_blocked. wr.
  - unfold ossl_quic_wire_encode_frame_streams_blocked. destruct is_uni; wr.
  - destruct Hf as (? & ? & Hl & ? & Ht & ?). unfold ossl_quic_wire_encode_frame_new_conn_id.
    unfold QUIC_MAX_CONN_ID_LEN in *.
    assert (Hr : holds (stateless_reset f) 16) by (split; [lia|done]).
    assert (Ha : appends (memcpy_from (stateless_reset f) 16) (stateless_reset f))
      by (rewrite <- (take_ge (stateless_reset f) (Z.to_nat 16)) at 2 by lia; by apply memcpy_from_appends).
    assert (vint (retire_prior_to f)) by (unfold vint in *; lia).
    assert (is_u8 (id_len (conn_id f))) by (unfold is_u8; lia).
    apply appends_guard; [|wr; exact Ha]. apply negb_true_iff, orb_false_iff. lia.
  - unfold ossl_quic_wire_encode_frame_retire_conn_id. wr.
  - unfold ossl_quic_wire_encode_frame_path_challenge. wr.
  - unfold ossl_quic_wire_encode_frame_path_response. wr.
  - destruct Hf as (? & ? & Happ & ? & ?). unfold ossl_quic_wire_encode_frame_conn_close.
    destruct (is_app f) eqn:Ea; cbn [negb]; [|wr].
    apply appends_bind; [wr|intros _]. cbn [app]. apply appends_bind; [wr|intros _].
    apply appends_bind_l; wr.
Qed.

(** Frames without data: the encoders of the header write the whole frame, and
    those that write header and data refuse it. *)
Lemma encode_empty_frame f :
  valid_frame f -> carries_none f = true ->
  appends (encode_frame_hdr_only f) (frame_wire f) /\ refuses (encode_frame f).
Proof.
  intros Hf Hn. unfold frame_wire. destruct f; try done; cbn [carries_none valid_frame] in *; apply Z.eqb_eq in Hn.
  - destruct Hf as (Ho & Hl & Hs & d & Hd & Hh). destruct (data_vints _ _ Ho Hl Hs) as (? & ? & _).
    cbn [encode_frame_hdr_only encode_frame frame_wire_type frame_body].
    pose proof (crypto_hdr_appends f ltac:(done) ltac:(done)) as Ha. split.
    + rewrite Hn at 2. cbn [Z.to_nat take]. by rewrite app_nil_r.
    + apply refuses_bind. unfold ossl_quic_wire_encode_frame_crypto. rewrite Hn. eapply empty_data_refused, Ha.
  - destruct Hf as (Hi & Ho & Hl & Hs & d & Hd & Hh). destruct (data_vints _ _ Ho Hl Hs) as (? & ? & _).
    cbn [encode_frame_hdr_only encode_frame frame_wire_type frame_body].
    pose proof (stream_hdr_appends f ltac:(done) ltac:(done) ltac:(done)) as Ha. split.
    + replace (take (Z.to_nat (st_len f)) _) with (@nil Z) by (by rewrite Hn). by rewrite app_nil_r.
    + apply refuses_bind. unfold ossl_quic_wire_encode_frame_stream. rewrite Hn. eapply empty_data_refused, Ha.
Qed.

(** What the decoder returns for a frame: pointers lead into the packet, with
    [rest] behind the frame; connection IDs are padded with zeros. *)
Definition decoded (f : frame) (rest : list Z) : frame :=
  match f with
  | F_CRYPTO c => F_CRYPTO (mkCrypto (cr_offset c) (cr_len c)
                    (Some (take (Z.to_nat (cr_len c)) (default [] (cr_data c)) ++ rest)))
  | F_STREAM s => F_STREAM (mkStream (st_stream_id s) (st_offset s) (st_len s)
                    (Some (take (Z.to_nat (st_len s)) (default [] (st_data s)) ++ rest))
                    (has_explicit_len s) (st_is_fin s))
  | F_NEW_TOKEN t n => F_NEW_TOKEN (take (Z.to_nat n) t ++ rest) n
  | F_NEW_CONN_ID c => F_NEW_CONN_ID (mkNewConnId (seq_num c) (retire_prior_to c)
      (mkConnId (u8 (id_len (conn_id c)))
         (take (Z.to_nat (id_len (conn_id c))) (id (conn_id c)) ++
          replicate (Z.to_nat (QUIC_MAX_CONN_ID_LEN - id_len (conn_id c))) 0))
      (stateless_reset c))
  | F_CONN_CLOSE c => F_CONN_CLOSE (mkConnClose (is_app c) (error_code c) (frame_type c)
                        (take (Z.to_nat (reason_len c)) (reason c) ++ rest) (reason_len c))
  | _ => f
  end.

Lemma take_take_app (l rest : list Z) n :
  0 <= n <= Z.of_nat (length l) -> take (Z.to_nat n) (take (Z.to_nat n) l ++ rest) = take (Z.to_nat n) l.
Proof.
  intros. rewrite take_app_le by (rewrite length_take; lia). rewrite take_take. f_equal. lia.
Qed.

Lemma view_decoded f rest : valid_frame f -> view (decoded f rest) = view f.
Proof.
  intros Hf. destruct f; cbn in *; try done.
  - destruct Hf as (_ & _ & _ & d & Hd & [Hl _]). rewrite Hd. cbn. by rewrite take_take_app.
  - destruct Hf as (_ & [Hl _]). by rewrite take_take_app.
  - destruct Hf as (_ & _ & _ & _ & d & Hd & [Hl _]). rewrite Hd. cbn. by rewrite take_take_app.
  - destruct Hf as (_ & _ & Hi & [Hl _] & _). unfold QUIC_MAX_CONN_ID_LEN in *.
    rewrite !u8_id by (unfold is_u8; lia). by rewrite take_take_app.
  - destruct Hf as (_ & _ & _ & _ & [Hl _]). by rewrite take_take_app.
Qed.

Lemma reads_last {A B} (m : M PACKET A) (f : A -> M PACKET B) x a b :
  reads m x a -> (forall rest, f (a rest) = mret (b rest)) -> reads (m ≫= f) x b.
Proof.
  intros Hm Hf rest rem Hr Hb. rewrite (bind_ret _ _ _ _ _ (Hm rest rem Hr Hb)), Hf. done.
Qed.

Lemma expect_reads ty : 0 <= ty < 64 -> reads (expect_frame_header ty) (vl ty) (fun _ => tt).
Proof.
  intros Ht. eapply reads_last; [by apply get_vlint_reads, small_vint|].
  intros rest. by rewrite Z.eqb_refl.
Qed.

Lemma expect_mask_reads ty expected mask :
  0 <= ty < 64 -> Z.ldiff ty mask = expected ->
  reads (expect_frame_header_mask expected mask) (vl ty) (fun _ => ty).
Proof.
  intros Ht E. eapply reads_last; [by apply get_vlint_reads, small_vint|].
  intros rest. cbn. rewrite E, Z.eqb_refl. done.
Qed.

Lemma data_forward_reads {B} x len (g : list Z -> B) :
  len = Z.of_nat (length x) ->
  reads (d ← PACKET_data; PACKET_forward len;; mret (g d)) x (fun rest => g (x ++ rest)).
Proof.
  intros -> rest rem Hr Hb. unfold PACKET_data at 1, mbind at 1, M_bind. cbn [Packet.curr].
  by rewrite (bind_ret _ _ _ _ _ (forward_reads x rest rem Hr Hb)).
Qed.

Lemma remaining_guard_reads {B} x len (f : M PACKET B) a :
  len <= Z.of_nat (length x) -> reads f x a ->
  reads (r ← PACKET_remaining; guard_ (negb (r <? len));; f) x a.
Proof.
  intros Hl Hf rest rem Hr Hb.
  rewrite (bind_ret PACKET_remaining _ _ rem (mkPacket (x ++ rest) rem)) by done.
  destruct (Z.ltb_spec rem len); [lia|]. cbn [negb]. rewrite guard_true by done. by apply Hf.
Qed.

Lemma get_bytes_reads_n x len :
  len = Z.of_nat (length x) -> reads (PACKET_get_bytes len) x (fun rest => x ++ rest).
Proof. intros ->. apply get_bytes_reads. Qed.

Lemma copy_bytes_reads_n x len :
  len = Z.of_nat (length x) -> reads (PACKET_copy_bytes len) x (fun _ => x).
Proof. intros ->. apply copy_bytes_reads. Qed.

Lemma copy_into_reads x len room :
  len = Z.of_nat (length x) -> len <= room -> reads (copy_into room len) x (fun _ => x).
Proof.
  intros Hl Hr. apply (reads_last _ _ x (fun _ => x)); [by apply copy_bytes_reads_n|]. intros ?.
  by destruct (Z.ltb_spec room len); [lia|].
Qed.

Lemma size_guard len : vint len -> negb (SIZE_MAX <? len) = true.
Proof. intros H%vint_bound. apply negb_true_iff, Z.ltb_ge. lia. Qed.

Lemma stream_guard off len :
  0 <= off -> 0 <= len -> off + len <= MAX_STREAM_END ->
  negb (MAX_STREAM_END <? u64 (off + len)) = true.
Proof.
  intros ? ? H. rewrite max_stream_end_val in *. rewrite u64_id by (unfold is_u64; lia).
  apply negb_true_iff, Z.ltb_ge. lia.
Qed.

Lemma holds_take_length d len : holds d len -> len = Z.of_nat (length (take (Z.to_nat len) d)).
Proof. intros [H _]. rewrite length_take. lia. Qed.

Lemma holds_bytes d len : holds d len -> bytes (take (Z.to_nat len) d).
Proof. intros [_ H]. by apply Forall_take. Qed.

Ltac bytes_tac := repeat (apply Forall_app_2 || apply Forall_cons_2); eauto using holds_bytes with ossl.

(** Splits a sequence of reads and proves each of them. *)
Ltac rd :=
  repeat first
    [ apply expect_reads; split; vm_compute; congruence
    | apply expect_mask_reads; [split; vm_compute; congruence|reflexivity]
    | apply get_vlint_reads; done | apply get_1_reads; done
    | apply get_net_8_reads; done
    | apply copy_bytes_reads_n; first [by apply holds_take_length|lia]
    | apply get_bytes_reads_n; first [by apply holds_take_length|lia]
    | apply data_forward_reads; first [by apply holds_take_length|lia]
    | apply reads_guard; [first [by apply size_guard|by apply stream_guard; lia]|]
    | eapply reads_bind; [solve [bytes_tac]| |]
    | eapply reads_last; [|intros ?; reflexivity] ].

Lemma bytes_vl v : bytes (vl v).
Proof. apply bytes_encode. Qed.
#[local] Hint Resolve bytes_vl : ossl.

(** How the type of a STREAM frame is decoded. *)
Lemma stream_type_bits f :
  let ty := stream_frame_type f in
  decode_by_type ty = (f ← ossl_quic_wire_decode_frame_stream false; mret (F_STREAM f)) /\
  0 <= ty < 64 /\ Z.ldiff ty 7 = 8 /\ (Z.land ty 4 =? 0) = (st_offset f =? 0) /\
  (Z.land ty 2 =? 0) = negb (has_explicit_len f) /\ (Z.land ty 1 =? 0) = negb (st_is_fin f).
Proof.
  cbv zeta. unfold stream_frame_type.
  destruct (st_offset f =? 0), (has_explicit_len f), (st_is_fin f); cbn [negb];
    (split_and!; [reflexivity|vm_compute; congruence..]).
Qed.

(** The data of a STREAM frame, once its length is known. *)
Lemma stream_data_reads sid off len d el fin :
  0 <= off -> 0 <= len -> off + len <= MAX_STREAM_END -> holds d len ->
  reads (guard_ (negb (MAX_STREAM_END <? u64 (off + len)));;
         d ← PACKET_data; guard_ (negb (SIZE_MAX <? len));; PACKET_forward len;;
         mret (mkStream sid off len (Some d) el fin))
    (take (Z.to_nat len) d) (fun rest => mkStream sid off len (Some (take (Z.to_nat len) d ++ rest)) el fin).
Proof.
  intros Ho Hl Hs Hh. destruct (data_vints _ _ Ho Hl Hs) as (_ & _ & Hg).
  apply reads_guard; [by apply stream_guard|].
  intros rest rem Hr Hb. rewrite (bind_ret PACKET_data _ _ (take (Z.to_nat len) d ++ rest)
    (mkPacket (take (Z.to_nat len) d ++ rest) rem)) by done.
  rewrite guard_true by done.
  pose proof (holds_take_length d len Hh) as El. rewrite El at 1.
  by rewrite (bind_ret _ _ _ _ _ (forward_reads (take (Z.to_nat len) d) rest rem Hr Hb)).
Qed.

(** The first read of a sequence, performed. *)
Lemma reads_step {A B} (m : M PACKET A) x (a : A) (f : A -> M PACKET B) y rem :
  reads m x (fun _ => a) -> Z.of_nat (length x) <= rem < UINT64_MOD -> bytes y ->
  (m ≫= f) (mkPacket (x ++ y) rem) = f a (mkPacket y (rem - Z.of_nat (length x))).
Proof. intros Hm Hr Hy. by rewrite (bind_ret _ _ _ _ _ (Hm y rem Hr Hy)). Qed.

(** A STREAM frame with its length is found in any packet that holds it; one
    without must end the packet. *)
Lemma decode_stream_reads sid off len d el fin rest rem :
  vint sid -> 0 <= off -> 0 <= len -> off + len <= MAX_STREAM_END -> holds d len ->
  let f := F_STREAM (mkStream sid off len (Some d) el fin) in
  Z.of_nat (length (frame_wire f)) <= rem < UINT64_MOD -> bytes rest ->
  el = true \/ rem = Z.of_nat (length (frame_wire f)) ->
  decode_by_type (frame_wire_type f) (mkPacket (frame_wire f ++ rest) rem) =
    (Ret (decoded f rest), mkPacket rest (rem - Z.of_nat (length (frame_wire f)))).
Proof.
  intros Hi Ho Hl Hs Hh. cbv zeta. set (f := mkStream sid off len (Some d) el fin). intros Hr Hb Hel.
  destruct (data_vints _ _ Ho Hl Hs) as (Hvo & Hvl & _).
  destruct (stream_type_bits f) as (Ed & Ht & Hd & H4 & H2 & H1). cbn [frame_wire_type]. rewrite Ed.
  unfold frame_wire in *. cbn [frame_wire_type frame_body decoded] in *.
  cbn [f st_stream_id st_offset st_len st_data has_explicit_len st_is_fin] in *.
  change (default [] (Some d)) with d in *.
  assert (Hbd : bytes ((if el then vl len else []) ++ take (Z.to_nat len) d))
    by (apply Forall_app_2; [destruct el; [apply bytes_vl|constructor]|by eapply holds_bytes]).
  assert (Hbo : bytes (if off =? 0 then [] else vl off)) by (destruct (off =? 0); [constructor|apply bytes_vl]).
  rewrite (bind_ret _ _ _ (mkStream sid off len (Some (take (Z.to_nat len) d ++ rest)) el fin)
    (mkPacket rest (rem - Z.of_nat (length (vl (stream_frame_type f) ++ vl sid ++
       (if off =? 0 then [] else vl off) ++ (if el then vl len else []) ++ take (Z.to_nat len) d)))));
    [done|].
  unfold ossl_quic_wire_decode_frame_stream. rewrite !length_app in *.
  rewrite <- !app_assoc.
  apply Forall_app in Hbd as [Hbl Hbt].
  assert (Hbs : forall l, bytes l -> bytes ((if el then vl len else []) ++ take (Z.to_nat len) d ++ l))
    by (intros; apply Forall_app_2; [done|by apply Forall_app_2]).
  rewrite (reads_step _ _ _ _ _ _ (expect_mask_reads _ OSSL_QUIC_FRAME_TYPE_STREAM _ Ht Hd))
    by (lia || (apply Forall_app_2; [apply bytes_vl|apply Forall_app_2; auto])).
  rewrite (reads_step _ _ _ _ _ _ (get_vlint_reads sid Hi)) by (lia || (apply Forall_app_2; auto)).
  unfold OSSL_QUIC_FRAME_FLAG_STREAM_OFF, OSSL_QUIC_FRAME_FLAG_STREAM_LEN, OSSL_QUIC_FRAME_FLAG_STREAM_FIN.
  rewrite H4, H2, H1, !negb_involutive.
  assert (Hoff : reads (if negb (off =? 0) then PACKET_get_quic_vlint else mret 0)
    (if off =? 0 then [] else vl off) (fun _ => off)).
  { destruct (Z.eqb_spec off 0) as [->|]; cbn [negb]; [apply reads_ret|by apply get_vlint_reads]. }
  rewrite (reads_step _ _ _ _ _ _ Hoff) by (lia || auto).
  pose proof (holds_take_length d len Hh) as El. destruct el; cbv iota in *.
  - rewrite (reads_step _ _ _ _ _ _ (get_vlint_reads len Hvl)) by (lia || by apply Forall_app_2).
    rewrite (stream_data_reads sid off len d true fin Ho Hl Hs Hh) by (done || lia). do 2 f_equal. lia.
  - cbn [app length] in *. destruct Hel as [|Hel]; [done|].
    rewrite (bind_ret PACKET_remaining _ _ len (mkPacket (take (Z.to_nat len) d ++ rest) len)).
    2: { unfold PACKET_remaining. cbn. f_equal; [f_equal|f_equal]; lia. }
    rewrite (stream_data_reads sid off len d false fin Ho Hl Hs Hh) by (done || lia). do 2 f_equal. lia.
Qed.

Lemma count_zeros_app n rest :
  (forall b l, rest = b :: l -> b <> 0) -> count_zeros (replicate n 0 ++ rest) = n.
Proof.
  intros Hr. induction n as [|n IH]; cbn; [|by rewrite IH].
  destruct rest as [|b l]; [done|]. cbn. specialize (Hr b l eq_refl). by destruct (Z.eqb_spec b 0).
Qed.

(** Padding extends to the end of the packet or to a byte that is not zero. *)
Lemma decode_padding_exact n rest rem :
  0 < n <= rem -> rem < UINT64_MOD -> bytes rest ->
  rem = n \/ (exists b l, rest = b :: l /\ b <> 0) ->
  ossl_quic_wire_decode_padding (mkPacket (replicate (Z.to_nat n) 0 ++ rest) rem) =
    (Ret n, mkPacket rest (rem - n)).
Proof.
  intros Hn Hr Hb Hend. unfold ossl_quic_wire_decode_padding.
  rewrite (bind_ret PACKET_data _ _ (replicate (Z.to_nat n) 0 ++ rest)
    (mkPacket (replicate (Z.to_nat n) 0 ++ rest) rem)) by done.
  rewrite (bind_ret PACKET_remaining _ _ rem (mkPacket (replicate (Z.to_nat n) 0 ++ rest) rem)) by done.
  cbv zeta. rewrite take_app_ge by (rewrite length_replicate; lia). rewrite length_replicate.
  rewrite count_zeros_app.
  2: { intros b l E. destruct Hend as [->|(b' & l' & -> & Hb')].
       - by replace (Z.to_nat n - Z.to_nat n)%nat with 0%nat in E by lia.
       - destruct (Z.to_nat rem - Z.to_nat n)%nat; [done|]. cbn in E. by injection E as <- _. }
  assert (El : Z.of_nat (length (replicate (Z.to_nat n) 0)) = n) by (rewrite length_replicate; lia).
  rewrite Z2Nat.id by lia.
  pose proof (forward_reads (replicate (Z.to_nat n) 0) rest rem ltac:(lia) Hb) as Ef. rewrite El in Ef.
  by rewrite (bind_ret _ _ _ _ _ Ef).
Qed.

Lemma decode_conn_close_reads app ec ft r rl :
  vint ec -> vint ft -> (app = true -> ft = 0) -> vint rl -> holds r rl ->
  reads (decode_by_type (if app then 0x1D else 0x1C))
    (vl (if app then 0x1D else 0x1C) ++ vl ec ++ (if app then [] else vl ft) ++ vl rl ++
     take (Z.to_nat rl) r)
    (fun rest => F_CONN_CLOSE (mkConnClose app ec ft (take (Z.to_nat rl) r ++ rest) rl)).
Proof.
  intros He Hft Happ Hrl Hh.
  assert (Hty : exists ty, (if app then 0x1D else 0x1C) = ty /\
    decode_by_type ty = (f ← ossl_quic_wire_decode_frame_conn_close; mret (F_CONN_CLOSE f)) /\
    0 <= ty < 64 /\ Z.ldiff ty 1 = OSSL_QUIC_FRAME_TYPE_CONN_CLOSE_TRANSPORT /\
    (Z.land ty 1 =? 0) = negb app).
  { eexists. split; [reflexivity|]. destruct app; (split_and!; [reflexivity|vm_compute; congruence..]). }
  destruct Hty as (ty & -> & -> & Ht & Hd & H1).
  eapply reads_last; [|intros ?; reflexivity]. unfold ossl_quic_wire_decode_frame_conn_close.
  eapply reads_bind; [destruct app; bytes_tac|by apply expect_mask_reads|].
  eapply reads_bind; [destruct app; bytes_tac|rd|]. rewrite H1, negb_involutive.
  eapply (reads_bind _ _ _ _ ft); [bytes_tac| |].
  { destruct app; cbn [negb]; [rewrite Happ by done; apply reads_ret|rd]. }
  eapply reads_bind; [bytes_tac|rd|].
  apply reads_guard; [by apply size_guard|].
  eapply reads_last; [rd|done].
Qed.

(** Frames whose end does not depend on what follows. *)
Definition self_delimited (f : frame) : bool :=
  match f with F_STREAM _ | F_PADDING _ => false | _ => true end.

Lemma decode_frame_reads f :
  valid_frame f -> self_delimited f = true ->
  reads (decode_by_type (frame_wire_type f)) (frame_wire f) (decoded f).
Proof.
  intros Hf Hsd. unfold frame_wire. destruct f; try done; clear Hsd;
    cbn [frame_body frame_wire_type valid_frame decoded] in *.
  - rewrite app_nil_r. eapply reads_last; [by apply expect_reads|done].
  - rewrite app_nil_r. eapply reads_last; [by apply expect_reads|done].
  - destruct Hf as (? & ? & ?). destruct f. eapply reads_last; [|intros ?; reflexivity].
    unfold ossl_quic_wire_decode_frame_reset_stream.
    cbn [rs_stream_id rs_app_error_code rs_final_size] in *. rd.
  - destruct Hf as (? & ?). destruct f. eapply reads_last; [|intros ?; reflexivity].
    unfold ossl_quic_wire_decode_frame_stop_sending. cbn [ss_stream_id ss_app_error_code] in *. rd.
  - destruct f as [off len data]. cbn [cr_offset cr_len cr_data] in *.
    destruct Hf as (Ho & Hl & Hs & d & -> & Hh). change (default [] (Some d)) with d.
    assert (vint off /\ vint len) as [? ?]
      by (unfold vint; rewrite vlint_max_val; rewrite max_stream_end_val in *; lia).
    eapply reads_last; [|intros ?; reflexivity]. unfold ossl_quic_wire_decode_frame_crypto.
    do 3 (eapply reads_bind; [solve [bytes_tac]|rd|]). rd.
    apply remaining_guard_reads; [rewrite <- holds_take_length by done; lia|]. rd.
  - destruct Hf as (? & Hh).
    apply (reads_last _ _ _ (fun rest => (take (Z.to_nat token_len) token ++ rest, token_len))); [|done].
    unfold ossl_quic_wire_decode_frame_new_token.
    do 2 (eapply reads_bind; [solve [bytes_tac]|rd|]). rd.
  - eapply reads_last; [|intros ?; reflexivity]. unfold ossl_quic_wire_decode_frame_max_data. rd.
  - destruct Hf. apply (reads_last _ _ _ (fun _ => (stream_id, n))); [|done].
    unfold ossl_quic_wire_decode_frame_max_stream_data. rd.
  - destruct is_uni; (eapply reads_last; [|intros ?; reflexivity]);
      unfold ossl_quic_wire_decode_frame_max_streams; rd.
  - eapply reads_last; [|intros ?; reflexivity]. unfold ossl_quic_wire_decode_frame_data_blocked. rd.
  - destruct Hf. apply (reads_last _ _ _ (fun _ => (stream_id, n))); [|done].
    unfold ossl_quic_wire_decode_frame_stream_data_blocked. rd.
  - destruct is_uni; (eapply reads_last; [|intros ?; reflexivity]);
      unfold ossl_quic_wire_decode_frame_streams_blocked; rd.
  - destruct f as [sq rpt [il i] tok]. cbn [seq_num retire_prior_to conn_id stateless_reset id_len id] in *.
    destruct Hf as (? & ? & Hl & Hi & Ht & Hb). unfold QUIC_MAX_CONN_ID_LEN in Hl.
    assert (vint rpt) by (unfold vint in *; lia). assert (is_u8 il) by (unfold is_u8; lia).
    eapply reads_last; [|intros ?; reflexivity]. unfold ossl_quic_wire_decode_frame_new_conn_id.
    do 3 (eapply reads_bind; [solve [bytes_tac]|rd|]).
    apply reads_guard; [apply negb_true_iff, Z.ltb_ge; lia|].
    eapply reads_bind; [solve [bytes_tac]|rd|].
    apply reads_guard; [unfold QUIC_MAX_CONN_ID_LEN; apply andb_true_iff; split;
      apply negb_true_iff, Z.ltb_ge; lia|].
    eapply reads_bind; [solve [bytes_tac]|apply copy_into_reads;
      [by apply holds_take_length|unfold QUIC_MAX_CONN_ID_LEN; lia]|].
    eapply reads_last; [apply copy_into_reads; lia|done].
  - eapply reads_last; [|intros ?; reflexivity]. unfold ossl_quic_wire_decode_frame_retire_conn_id. rd.
  - eapply reads_last; [|intros ?; reflexivity]. unfold ossl_quic_wire_decode_frame_path_challenge.
    eapply reads_bind; [apply bytes_be_bytes|by apply expect_reads|by apply get_net_8_reads].
  - eapply reads_last; [|intros ?; reflexivity]. unfold ossl_quic_wire_decode_frame_path_response.
    eapply reads_bind; [apply bytes_be_bytes|by apply expect_reads|by apply get_net_8_reads].
  - destruct f as [app ec ft r rl]. cbn [is_app error_code frame_type reason reason_len] in *.
    destruct Hf as (? & ? & Happ & ? & Hh). by apply decode_conn_close_reads.
Qed.

Lemma decode_frame_delimited f rest rem :
  valid_frame f -> Z.of_nat (length (frame_wire f)) <= rem < UINT64_MOD -> bytes rest ->
  delimited f rest rem ->
  decode_by_type (frame_wire_type f) (mkPacket (frame_wire f ++ rest) rem) =
    (Ret (decoded f rest), mkPacket rest (rem - Z.of_nat (length (frame_wire f)))).
Proof.
  intros Hf Hr Hb Hd. destruct (self_delimited f) eqn:Esd; [by apply decode_frame_reads|].
  destruct f as [n| | | | | | |[sid off len data el fin]| | | | | | | | | | |]; try done.
  - cbn [valid_frame] in Hf.
    assert (Ew : frame_wire (F_PADDING n) = replicate (Z.to_nat n) 0).
    { unfold frame_wire. cbn [frame_wire_type frame_body]. change (vl 0) with [0].
      by replace (Z.to_nat n) with (S (Z.to_nat (n - 1))) by lia. }
    cbn [delimited] in Hd. rewrite Ew, length_replicate, Z2Nat.id in * by lia.
    cbn [frame_wire_type decoded]. unfold decode_by_type.
    by rewrite (bind_ret _ _ _ _ _ (decode_padding_exact n rest rem ltac:(lia) ltac:(lia) Hb Hd)).
  - cbn [valid_frame st_stream_id st_offset st_len st_data] in Hf.
    destruct Hf as (Hi & Ho & Hl & Hs & d & -> & Hh). by apply decode_stream_reads.
Qed.

Lemma peek_header_spec ty y rem :
  0 <= ty < 64 -> Z.of_nat (length (vl ty)) <= rem -> bytes y ->
  ossl_quic_wire_peek_frame_header (mkPacket (vl ty ++ y) rem) = (Ret (ty, true), mkPacket (vl ty ++ y) rem).
Proof.
  intros Ht Hr Hy. pose proof (small_vint ty Ht) as Hv. destruct (encode_is_n ty Hv) as [Hn Hlt].
  rewrite length_encode in Hr by done.
  unfold ossl_quic_wire_peek_frame_header, PACKET_peek_quic_vlint_ex.
  erewrite bind_ret by (by apply vlint_enclen_spec). erewrite bind_ret.
  2: { unfold vlint_decode_at, PACKET_data, mbind, M_bind. cbn [Packet.curr].
       unfold vl. rewrite decode_unchecked_encode_n by done. reflexivity. }
  by rewrite Z.eqb_refl.
Qed.

(** ** ACK frames *)

(** [l] continues a frame whose last range starts at [start]. *)
Fixpoint descending (start : Z) (l : list OSSL_QUIC_ACK_RANGE) : Prop :=
  match l with
  | [] => True
  | r :: l => 0 <= range_start r <= range_end r /\ range_end r + 2 <= start /\ descending (range_start r) l
  end.

Definition valid_ranges (l : list OSSL_QUIC_ACK_RANGE) : Prop :=
  match l with
  | [] => False
  | r :: l => 0 <= range_start r <= range_end r /\ vint (range_end r) /\ descending (range_start r) l
  end.

Definition used_ranges (a : OSSL_QUIC_FRAME_ACK) : list OSSL_QUIC_ACK_RANGE :=
  take (Z.to_nat (num_ack_ranges a)) (ack_ranges a).

Record valid_ack (e : Z) (a : OSSL_QUIC_FRAME_ACK) : Prop := {
  va_exp : 0 <= e < 64;
  va_num : 0 < num_ack_ranges a <= Z.of_nat (length (ack_ranges a));
  va_cnt : vint (num_ack_ranges a);
  va_ranges : valid_ranges (used_ranges a);
  va_delay : is_u64 (delay_time a);
  va_ecn : vint (ect0 a) /\ vint (ect1 a) /\ vint (ecnce a)
}.

Fixpoint ranges_wire (start : Z) (l : list OSSL_QUIC_ACK_RANGE) : list Z :=
  match l with
  | [] => []
  | r :: l => vl (start - range_end r - 2) ++ vl (range_end r - range_start r) ++ ranges_wire (range_start r) l
  end.

Definition ecn_wire (a : OSSL_QUIC_FRAME_ACK) : list Z :=
  if ecn_present a then vl (ect0 a) ++ vl (ect1 a) ++ vl (ecnce a) else [].

Definition ack_type (a : OSSL_QUIC_FRAME_ACK) : Z := if ecn_present a then 3 else 2.

(** The delay in the units of the wire. *)
Definition wire_delay (e : Z) (a : OSSL_QUIC_FRAME_ACK) : Z := delay_time a / 1000 / 2 ^ e.

Definition ack_wire (e : Z) (a : OSSL_QUIC_FRAME_ACK) : list Z :=
  match used_ranges a with
  | [] => []
  | r0 :: l =>
      vl (ack_type a) ++ vl (range_end r0) ++ vl (wire_delay e a) ++ vl (num_ack_ranges a - 1) ++
      vl (range_end r0 - range_start r0) ++ ranges_wire (range_start r0) l ++ ecn_wire a
  end.

Lemma used_length e a : valid_ack e a -> Z.of_nat (length (used_ranges a)) = num_ack_ranges a.
Proof. intros [_ H _ _ _ _]. unfold used_ranges. rewrite length_take. lia. Qed.

Lemma wire_delay_vint e a : valid_ack e a -> vint (wire_delay e a).
Proof.
  intros [He _ _ _ Hd _]. unfold wire_delay, vint, is_u64 in *. rewrite vlint_max_val.
  assert (0 < 2 ^ e) by (apply Z.pow_pos_nonneg; lia).
  assert (0 <= delay_time a / 1000 < 2 ^ 62 - 1)
    by (split; [apply Z.div_pos; lia|apply Z.div_lt_upper_bound; lia]).
  split; [apply Z.div_pos; lia|]. apply Z.div_le_upper_bound; nia.
Qed.

Lemma encode_ranges_appends l : forall prev,
  vint (range_start prev) -> descending (range_start prev) l ->
  appends (encode_ack_ranges prev l) (ranges_wire (range_start prev) l).
Proof.
  induction l as [|r l IH]; intros prev Hp Hd; [apply appends_ret|].
  cbn [descending encode_ack_ranges ranges_wire] in *. destruct Hd as (Hr & Hg & Hd).
  pose proof (vint_bound _ Hp).
  assert (Hv : forall x, 0 <= x < 2 ^ 62 -> vint x) by (unfold vint; rewrite vlint_max_val; lia).
  rewrite (u64_id (range_start prev - range_end r)) by (unfold is_u64; lia).
  rewrite !u64_id by (unfold is_u64; lia).
  apply appends_bind; [apply write_vlint_appends, Hv; lia|intros _].
  apply appends_bind; [apply write_vlint_appends, Hv; lia|intros _].
  apply IH; [apply Hv; lia|done].
Qed.

Lemma time_unit_divide x : ossl_time_divide x OSSL_TIME_US = x / 1000.
Proof. by rewrite time_divide_spec. Qed.

Lemma encode_ack_appends e a :
  valid_ack e a -> appends (ossl_quic_wire_encode_frame_ack e a) (ack_wire e a).
Proof.
  intros Hv. pose proof (used_length e a Hv) as Hlen. pose proof (wire_delay_vint e a Hv) as Hdel.
  destruct Hv as [He Hn Hc Hr Hd (H0 & H1 & H2)].
  unfold ossl_quic_wire_encode_frame_ack, ack_wire.
  apply appends_guard; [apply negb_true_iff, Z.eqb_neq; lia|].
  unfold one_shl. destruct (Z.leb_spec 64 e); [lia|].
  apply appends_ret_bind. fold (used_ranges a).
  destruct (used_ranges a) as [|r0 l] eqn:Eu; [done|]. cbn [valid_ranges] in Hr. destruct Hr as (Hr0 & Hve & Hd').
  assert (Hvx : forall x, 0 <= x < 2 ^ 62 -> vint x) by (unfold vint; rewrite vlint_max_val; lia).
  pose proof (vint_bound _ Hve). pose proof (vint_bound _ Hc).
  assert (Hsh : 0 < Z.shiftl 1 e) by (rewrite Z.shiftl_1_l; apply Z.pow_pos_nonneg; lia).
  assert (Edel : ossl_time2ticks (ossl_time_divide (ossl_time_divide (delay_time a) OSSL_TIME_US)
            (Z.shiftl 1 e)) = wire_delay e a)
    by (unfold ossl_time2ticks; rewrite time_unit_divide, time_divide_spec, Z.shiftl_1_l by lia; done).
  rewrite Edel, !u64_id by (unfold is_u64; lia).
  apply appends_bind; [unfold ack_type; destruct (ecn_present a); wr|intros _].
  apply appends_bind; [wr|intros _]. apply appends_bind; [wr|intros _].
  apply appends_bind; [apply write_vlint_appends, Hvx; lia|intros _].
  apply appends_bind; [apply write_vlint_appends, Hvx; lia|intros _].
  apply appends_bind; [apply encode_ranges_appends; [apply Hvx; lia|done]|intros _].
  destruct (Z.ltb_spec (Z.of_nat (length (ack_ranges a))) (num_ack_ranges a)); [lia|].
  apply appends_bind_l; [apply appends_ret|intros _].
  unfold ecn_wire. destruct (ecn_present a); wr.
Qed.

(** Writing a list of ranges behind entry [i] of the array. *)
Fixpoint fill (i : nat) (l ranges : list OSSL_QUIC_ACK_RANGE) : list OSSL_QUIC_ACK_RANGE :=
  match l with [] => ranges | r :: l => fill (S i) l (<[S i := r]> ranges) end.

Lemma take_fill l : forall i ranges,
  (S i + length l <= length ranges)%nat ->
  take (S i + length l) (fill i l ranges) = take (S i) ranges ++ l.
Proof.
  induction l as [|r l IH]; intros i ranges Hl; cbn [fill length].
  { by rewrite Nat.add_0_r, app_nil_r. }
  cbn [length] in Hl. replace (S i + S (length l))%nat with (S (S i) + length l)%nat by lia.
  rewrite IH by (rewrite length_insert; lia).
  rewrite (take_S_r (<[S i := r]> ranges) (S i) r) by (apply list_lookup_insert_eq; lia).
  rewrite take_insert_ge by lia. by rewrite <- app_assoc.
Qed.

Lemma reads_ret_bind {A B} (v : A) (f : A -> M PACKET B) x b :
  reads (f v) x b -> reads (mret v ≫= f) x b.
Proof. intros H rest rem. exact (H rest rem). Qed.

Lemma store_range_ret {S} (i : nat) r ranges :
  (i < length ranges)%nat -> @store_range S (Z.of_nat i) r ranges = mret (<[i := r]> ranges).
Proof. intros Hi. unfold store_range. rewrite Nat2Z.id. by destruct (Nat.ltb_spec i (length ranges)); [|lia]. Qed.

Lemma store_range_first {S} r ranges :
  (0 < length ranges)%nat -> @store_range S 0 r ranges = mret (<[0%nat := r]> ranges).
Proof. exact (store_range_ret 0 r ranges). Qed.

Lemma decode_ranges_reads l : forall fuel cap (i : nat) count start ranges,
  vint start -> descending start l -> (length l <= fuel)%nat ->
  count = Z.of_nat (i + length l) -> count < cap <= Z.of_nat (length ranges) ->
  reads (decode_ack_ranges fuel (Some cap) (Z.of_nat i) count start ranges) (ranges_wire start l)
    (fun _ => fill i l ranges).
Proof.
  induction l as [|r l IH]; intros fuel cap i count start ranges Hs Hd Hf Hc Hcap.
  { cbn [length] in *. destruct fuel; cbn [decode_ack_ranges];
      (destruct (Z.ltb_spec (Z.of_nat i) count); [lia|]); apply reads_ret. }
  cbn [length descending ranges_wire fill] in *. destruct Hd as (Hr & Hg & Hd). pose proof (vint_bound _ Hs).
  destruct fuel as [|fuel]; [lia|]. cbn [decode_ack_ranges].
  destruct (Z.ltb_spec (Z.of_nat i) count); [|lia]. cbn [negb].
  assert (Hv : forall x, 0 <= x < 2 ^ 62 -> vint x) by (unfold vint; rewrite vlint_max_val; lia).
  assert (Hb : forall s, bytes (ranges_wire s l)).
  { clear. induction l as [|r l IH]; intros s; cbn; [constructor|bytes_tac]. }
  eapply reads_bind; [bytes_tac|apply get_vlint_reads, Hv; lia|].
  eapply reads_bind; [apply Hb|apply get_vlint_reads, Hv; lia|].
  rewrite (u64_id (start - _)) by (unfold is_u64; lia).
  replace (start - (start - range_end r - 2) - 2) with (range_end r) by lia.
  rewrite !(u64_id (range_end r)) by (unfold is_u64; lia).
  rewrite !u64_id by (unfold is_u64; lia).
  apply reads_guard; [apply negb_true_iff, orb_false_iff; split; apply Z.ltb_ge; lia|].
  destruct (Z.ltb_spec (Z.of_nat i + 1) cap); [|lia].
  replace (range_end r - (range_end r - range_start r)) with (range_start r) by lia.
  replace (Z.of_nat i + 1) with (Z.of_nat (S i)) by lia. rewrite store_range_ret by lia.
  replace (mkRange (range_start r) (range_end r)) with r by (by destruct r).
  apply reads_ret_bind. apply IH; try done; try lia; [apply Hv; lia|rewrite length_insert; lia].
Qed.

Lemma ranges_wire_length l : forall s, (length l <= length (ranges_wire s l))%nat.
Proof.
  induction l as [|r l IH]; intros s; cbn [ranges_wire length]; [lia|].
  rewrite !length_app. specialize (IH (range_start r)).
  assert (H : forall v, (1 <= length (vl v))%nat).
  { intros v. unfold ossl_quic_vlint_encode, ossl_quic_vlint_encode_n. repeat zcase; cbn; lia. }
  pose proof (H (s - range_end r - 2)). lia.
Qed.

Lemma bytes_ranges_wire l : forall s, bytes (ranges_wire s l).
Proof. induction l as [|r l IH]; intros s; cbn; [constructor|bytes_tac]. Qed.

Lemma bytes_ecn_wire a : bytes (ecn_wire a).
Proof. unfold ecn_wire. destruct (ecn_present a); [bytes_tac|constructor]. Qed.

Lemma reads_fuel {B} (f : nat -> M PACKET B) x a :
  (forall fuel, (length x < fuel)%nat -> reads (f fuel) x a) -> reads (loop_fuel ≫= f) x a.
Proof.
  intros Hf rest rem Hr Hb.
  rewrite (bind_ret loop_fuel _ _ (S (length (x ++ rest))) (mkPacket (x ++ rest) rem)) by done.
  apply Hf; [rewrite length_app; lia|done..].
Qed.

(** The delay that survives the trip: whole wire units. *)
Lemma delay_scaled e a :
  valid_ack e a ->
  let d := wire_delay e a in
  SafeMath.safe_mul 64 d (Z.shiftl 1 e) = (d * 2 ^ e, false) /\
  ossl_time_multiply (ossl_ticks2time OSSL_TIME_US) (d * 2 ^ e) = d * 2 ^ e * 1000 /\
  d * 2 ^ e * 1000 <= delay_time a < d * 2 ^ e * 1000 + 1000 * 2 ^ e.
Proof.
  intros Hv d. pose proof (wire_delay_vint e a Hv) as Hd. fold d in Hd. apply vint_bound in Hd.
  destruct Hv as [He _ _ _ Hdl _]. unfold is_u64 in Hdl.
  assert (Hp : 0 < 2 ^ e) by (apply Z.pow_pos_nonneg; lia).
  assert (Hpw : 2 ^ e < 2 ^ 64) by (apply Z.pow_lt_mono_r; lia).
  assert (H1 : d * 2 ^ e <= delay_time a / 1000 < d * 2 ^ e + 2 ^ e).
  { unfold d, wire_delay. pose proof (Z.div_mod (delay_time a / 1000) (2 ^ e) ltac:(lia)).
    pose proof (Z.mod_pos_bound (delay_time a / 1000) (2 ^ e) ltac:(lia)). nia. }
  pose proof (Z.div_mod (delay_time a) 1000 ltac:(lia)) as Hdm.
  pose proof (Z.mod_pos_bound (delay_time a) 1000 ltac:(lia)).
  assert (0 <= d * 2 ^ e) by nia. rewrite Z.shiftl_1_l.
  split_and!; [| |lia|lia].
  - rewrite SafeMath.safe_mul_eq by (unfold SafeMath.is_uint; rewrite ?modulus_64; lia).
    unfold SafeMath.safe_mul_builtin, SafeMath.max. rewrite modulus_64.
    destruct (Z.leb_spec (d * 2 ^ e) (UINT64_MOD - 1)); [done|lia].
  - unfold ossl_ticks2time. rewrite time_multiply_spec by (unfold is_u64; change OSSL_TIME_US with 1000; lia).
    change OSSL_TIME_US with 1000. lia.
Qed.

(** What decoding an encoded ACK frame into [out] gives. *)
Definition decoded_ack (e : Z) (a out : OSSL_QUIC_FRAME_ACK) : OSSL_QUIC_FRAME_ACK :=
  let ranges := match used_ranges a with
                | [] => ack_ranges out
                | r0 :: l => fill 0 l (<[0%nat := r0]> (ack_ranges out))
                end in
  let d := wire_delay e a * 2 ^ e * 1000 in
  if ecn_present a then mkAck ranges (num_ack_ranges a) d (ect0 a) (ect1 a) (ecnce a) true
  else mkAck ranges (num_ack_ranges a) d (ect0 out) (ect1 out) (ecnce out) false.

Lemma decode_ack_reads e a out :
  valid_ack e a -> num_ack_ranges a <= num_ack_ranges out <= Z.of_nat (length (ack_ranges out)) ->
  reads (ossl_quic_wire_decode_frame_ack e (Some out)) (ack_wire e a)
    (fun _ => (Some (decoded_ack e a out), num_ack_ranges a)).
Proof.
  intros Hv Hcap. pose proof (used_length e a Hv) as Hlen.
  destruct (delay_scaled e a Hv) as (Hmul & Hus & _). pose proof (wire_delay_vint e a Hv) as Hdel.
  destruct Hv as [He Hn Hc Hr Hd (H0 & H1 & H2)]. unfold ack_wire, decoded_ack.
  destruct (used_ranges a) as [|r0 l] eqn:Eu; [done|]. cbn [valid_ranges length] in *.
  destruct Hr as (Hr0 & Hve & Hd').
  assert (Hvx : forall x, 0 <= x < 2 ^ 62 -> vint x) by (unfold vint; rewrite vlint_max_val; lia).
  pose proof (vint_bound _ Hve). pose proof (vint_bound _ Hc).
  pose proof (bytes_ranges_wire l (range_start r0)). pose proof (bytes_ecn_wire a).
  unfold ossl_quic_wire_decode_frame_ack.
  eapply reads_bind; [bytes_tac| |].
  { apply expect_mask_reads; unfold ack_type; destruct (ecn_present a); done || lia. }
  eapply reads_bind; [bytes_tac|rd|]. eapply reads_bind; [bytes_tac|rd|].
  eapply reads_bind; [bytes_tac|apply get_vlint_reads, Hvx; lia|].
  eapply reads_bind; [bytes_tac|apply get_vlint_reads, Hvx; lia|].
  apply reads_guard; [apply negb_true_iff, Z.ltb_ge; lia|].
  apply reads_guard; [apply negb_true_iff, Z.ltb_ge; lia|].
  cbn [is_null]. unfold one_shl. destruct (Z.leb_spec 64 e); [lia|]. apply reads_ret_bind.
  rewrite Hmul. cbv beta iota zeta. rewrite Hus.
  rewrite (u64_id (range_end r0 - (range_end r0 - range_start r0))) by (unfold is_u64; lia).
  replace (range_end r0 - (range_end r0 - range_start r0)) with (range_start r0) by lia.
  destruct (Z.ltb_spec 0 (num_ack_ranges out)); [|lia].
  replace (mkRange (range_start r0) (range_end r0)) with r0 by (by destruct r0).
  rewrite store_range_first by lia. apply reads_ret_bind.
  apply reads_fuel. intros fuel Hfuel.
  rewrite length_app in Hfuel. pose proof (ranges_wire_length l (range_start r0)).
  eapply reads_bind; [apply bytes_ecn_wire| |].
  { apply (decode_ranges_reads l fuel (num_ack_ranges out) 0); [apply Hvx; lia|done|lia|cbn [Nat.add]; lia|rewrite length_insert; lia]. }
  rewrite !(u64_id (num_ack_ranges a - 1 + 1)) by (unfold is_u64; lia).
  replace (num_ack_ranges a - 1 + 1) with (num_ack_ranges a) by lia.
  assert (Enum : (if num_ack_ranges a <? num_ack_ranges out then num_ack_ranges a else num_ack_ranges out)
                 = num_ack_ranges a) by (zcase; lia).
  rewrite Enum. unfold ack_type, ecn_wire. destruct (ecn_present a); cbn [Z.eqb Pos.eqb].
  - change (3 =? OSSL_QUIC_FRAME_TYPE_ACK_WITH_ECN) with true. cbv iota. rd.
  - change (2 =? OSSL_QUIC_FRAME_TYPE_ACK_WITH_ECN) with false. cbv iota. apply reads_ret.
Qed.

Lemma decoded_ack_ranges e a out :
  valid_ack e a -> num_ack_ranges a <= num_ack_ranges out <= Z.of_nat (length (ack_ranges out)) ->
  used_ranges (decoded_ack e a out) = used_ranges a.
Proof.
  intros Hv Hcap. pose proof (used_length e a Hv) as Hlen. destruct Hv as [_ Hn _ Hr _ _].
  assert (E : used_ranges (decoded_ack e a out) =
    take (Z.to_nat (num_ack_ranges a)) (match used_ranges a with
      | [] => ack_ranges out | r0 :: l => fill 0 l (<[0%nat := r0]> (ack_ranges out)) end)).
  { unfold used_ranges at 1, decoded_ack. by destruct (ecn_present a). }
  rewrite E. destruct (used_ranges a) as [|r0 l]; [done|]. cbn [length] in Hlen.
  replace (Z.to_nat (num_ack_ranges a)) with (1 + length l)%nat by lia.
  rewrite take_fill by (rewrite length_insert; lia).
  destruct (ack_ranges out); [cbn in Hcap; lia|]. done.
Qed.

(** ** Properties *)

Lemma bytes_frame_body f : valid_frame f -> bytes (frame_body f).
Proof.
  intros Hf. destruct f; cbn [frame_body valid_frame] in *; try solve [constructor|bytes_tac];
    try (apply Forall_replicate; unfold is_u8; lia);
    repeat match goal with H : _ /\ _ |- _ => destruct H end;
    repeat match goal with H : exists _, _ |- _ => destruct H end;
    repeat match goal with H : _ /\ _ |- _ => destruct H end;
    repeat match goal with H : _ = Some _ |- _ => rewrite H end; cbn [default];
    repeat match goal with |- context [if ?b then _ else _] => destruct b end;
    try solve [bytes_tac]; try apply bytes_be_bytes.
  bytes_tac. unfold is_u8, QUIC_MAX_CONN_ID_LEN in *. lia.
Qed.

(** C36: every frame type other than ACK survives the trip, whatever the values
    of its fields in the ranges of the wire format.  Its encoder writes exactly
    the bytes of the wire format, unless it is a STREAM or CRYPTO frame that
    carries no data: the functions that write header and data refuse those, and
    the functions for the header alone write exactly the frame.  The decoder
    selected by the type field in front of the bytes consumes exactly those
    bytes and returns the frame, whatever follows in the packet; a STREAM frame
    without a length must be the last of its packet, and a run of padding must
    end there or be followed by a byte that is not zero. *)
Theorem quic_frame_roundtrip f :
  valid_frame f ->
  (if carries_none f
   then appends (encode_frame_hdr_only f) (frame_wire f) /\ refuses (encode_frame f)
   else appends (encode_frame f) (frame_wire f)) /\
  (forall rest rem, Z.of_nat (length (frame_wire f)) <= rem < UINT64_MOD -> bytes rest ->
   delimited f rest rem ->
   exists f', decode_frame (mkPacket (frame_wire f ++ rest) rem) =
     (Ret f', mkPacket rest (rem - Z.of_nat (length (frame_wire f)))) /\ view f' = view f).
Proof.
  intros Hf. split.
  { destruct (carries_none f) eqn:En; [by apply encode_empty_frame|by apply encode_frame_appends]. }
  intros rest rem Hr Hb Hd. exists (decoded f rest). split; [|by apply view_decoded].
  pose proof (frame_type_small f) as Hty. unfold decode_frame.
  pose proof (bytes_frame_body f Hf) as Hbody.
  pose proof Hr as Hr'. unfold frame_wire in Hr'. rewrite length_app in Hr'.
  erewrite bind_ret.
  2: { unfold frame_wire. rewrite <- app_assoc. apply peek_header_spec; [done|lia|by apply Forall_app_2]. }
  rewrite app_assoc. fold (frame_wire f). by apply decode_frame_delimited.
Qed.

(** A STREAM frame with a length in front of other bytes, and one that carries
    only the end of its stream and runs to the end of the packet. *)
Lemma quic_frame_roundtrip_witness :
  let f := F_STREAM (mkStream 4 70000 3 (Some [1; 2; 3]) true true) in
  let g := F_STREAM (mkStream 4 70000 0 (Some []) false true) in
  (frame_wire f = [0x0F; 4; 0x80; 1; 0x11; 0x70; 3; 1; 2; 3] /\
   exists f', decode_frame (mkPacket (frame_wire f ++ [99]) 11) = (Ret f', mkPacket [99] 1) /\
     view f' = view f) /\
  (frame_wire g = [0x0D; 4; 0x80; 1; 0x11; 0x70] /\
   refuses (encode_frame g) /\
   exists g', decode_frame (mkPacket (frame_wire g ++ []) 6) = (Ret g', mkPacket [] 0) /\ view g' = view g).
Proof.
  cbv zeta. split; (split; [vm_compute; reflexivity|]).
  - destruct (quic_frame_roundtrip (F_STREAM (mkStream 4 70000 3 (Some [1; 2; 3]) true true))) as [_ H].
    { cbn. unfold vint, holds. rewrite vlint_max_val, max_stream_end_val. cbn.
      split_and!; try lia. exists [1; 2; 3]. split; [done|]. split; [cbn; lia|].
      repeat constructor; unfold is_u8; lia. }
    destruct (H [99] 11) as (f' & E & V); [vm_compute; split; congruence| |by left|].
    { constructor; [unfold is_u8; lia|constructor]. }
    exists f'. split; [exact E|exact V].
  - destruct (quic_frame_roundtrip (F_STREAM (mkStream 4 70000 0 (Some []) false true))) as [[_ Hr] H].
    { cbn. unfold vint, holds. rewrite vlint_max_val, max_stream_end_val. cbn.
      split_and!; try lia. exists []. split; [done|]. split; [cbn; lia|constructor]. }
    split; [exact Hr|].
    destruct (H [] 6) as (f' & E & V); [vm_compute; split; congruence|constructor|by right|].
    exists f'. split; [exact E|exact V].
Defined.

(** An ACK frame whose ranges are sorted, disjoint and not adjacent
    survives the trip: decoding into an array that is large enough gives back
    the same ranges and the same ECN counts, and a delay rounded down to the
    units the delay exponent provides. *)
Theorem quic_ack_roundtrip e a out :
  valid_ack e a -> num_ack_ranges a <= num_ack_ranges out <= Z.of_nat (length (ack_ranges out)) ->
  appends (ossl_quic_wire_encode_frame_ack e a) (ack_wire e a) /\
  (forall rest rem, Z.of_nat (length (ack_wire e a)) <= rem < UINT64_MOD -> bytes rest ->
   exists a', ossl_quic_wire_decode_frame_ack e (Some out) (mkPacket (ack_wire e a ++ rest) rem) =
     (Ret (Some a', num_ack_ranges a), mkPacket rest (rem - Z.of_nat (length (ack_wire e a)))) /\
     used_ranges a' = used_ranges a /\
     delay_time a' <= delay_time a < delay_time a' + 1000 * 2 ^ e /\
     ecn_present a' = ecn_present a /\
     (ecn_present a = true -> ect0 a' = ect0 a /\ ect1 a' = ect1 a /\ ecnce a' = ecnce a)).
Proof.
  intros Hv Hcap. split; [by apply encode_ack_appends|]. intros rest rem Hr Hb.
  exists (decoded_ack e a out). split; [by apply decode_ack_reads; try lia|].
  split; [by apply decoded_ack_ranges|]. destruct (delay_scaled e a Hv) as (_ & _ & Hd).
  unfold decoded_ack. destruct (ecn_present a); cbn [delay_time ecn_present ect0 ect1 ecnce];
    (split; [lia|]); by split.
Qed.

Definition sample_ack : OSSL_QUIC_FRAME_ACK :=
  mkAck [mkRange 20 25; mkRange 10 12; mkRange 0 3] 3 64000 7 8 9 true.
Definition blank_ack : OSSL_QUIC_FRAME_ACK :=
  mkAck (repeat (mkRange 0 0) 5) 5 0 0 0 0 false.

Lemma quic_ack_roundtrip_witness :
  ack_wire 3 sample_ack = [3; 25; 8; 2; 5; 6; 2; 5; 3; 7; 8; 9] /\
  exists a', ossl_quic_wire_decode_frame_ack 3 (Some blank_ack) (mkPacket (ack_wire 3 sample_ack ++ []) 12) =
    (Ret (Some a', 3), mkPacket [] 0) /\ used_ranges a' = [mkRange 20 25; mkRange 10 12; mkRange 0 3].
Proof.
  split; [vm_compute; reflexivity|].
  destruct (quic_ack_roundtrip 3 sample_ack blank_ack) as [_ H].
  { split; cbn; unfold vint, is_u64; rewrite ?vlint_max_val; split_and!; lia || done. }
  { cbn. lia. }
  destruct (H [] 12) as (a' & E & Hu & _); [vm_compute; split; congruence|constructor|].
  exists a'. split; [exact E|exact Hu].
Defined.

(** The decoder does not carry [start] from one range to the next once the
    array it was given is full, so the checks of the remaining ranges are made
    against a stale value: a frame whose third range would lie below packet
    number zero is refused when there is room for it, and accepted, with three
    ranges announced, when there is room for one range only, or for none. *)
Theorem quic_ack_truncated_unchecked :
  let bad := mkPacket [2; 10; 0; 2; 0; 0; 8; 0; 0] 9 in
  let room n := Some (mkAck (repeat (mkRange 0 0) n) (Z.of_nat n) 0 0 0 0 false) in
  (exists p, ossl_quic_wire_decode_frame_ack 0 (room 3%nat) bad = (Err, p)) /\
  (exists a, ossl_quic_wire_decode_frame_ack 0 (room 1%nat) bad = (Ret (Some a, 3), mkPacket [] 0)) /\
  ossl_quic_wire_decode_frame_ack 0 None bad = (Ret (None, 3), mkPacket [] 0).
Proof.
  cbv zeta. split; [|split]; [eexists; vm_compute; reflexivity..|vm_compute; reflexivity].
Qed.

(** ** Arbitrary input *)

Lemma safe_vlint_bind {B} (f : Z -> M PACKET B) :
  (forall v, vint v -> safe (f v)) -> safe (PACKET_get_quic_vlint ≫= f).
Proof.
  intros Hf p Hp. destruct (get_vlint_inv p Hp) as [E|(v & p1 & E & Hp1 & Hs & Hv & _)].
  - rewrite (bind_err _ _ _ _ E). eexists _, p. split_and!; [done..|]. apply suffix_refl, Hp.
  - rewrite (bind_ret _ _ _ _ _ E). destruct (Hf v Hv p1 Hp1) as (r & p2 & E2 & Hr & Hp2 & Hs2).
    exists r, p2. split_and!; try done. by eapply suffix_trans.
Qed.

Lemma safe_get_1_bind {B} (f : Z -> M PACKET B) :
  (forall v, 0 <= v -> safe (f v)) -> safe (PACKET_get_1 ≫= f).
Proof.
  intros Hf p Hp. destruct (get_1_safe p Hp) as (r & p1 & E & Hr & Hp1 & Hs).
  destruct r as [v| |]; [|rewrite (bind_err _ _ _ _ E); by eexists _, p1|done].
  rewrite (bind_ret _ _ _ _ _ E). pose proof (get_1_nonneg p v p1 Hp E) as Hv.
  destruct (Hf v Hv p1 Hp1) as (r2 & p2 & E2 & Hr2 & Hp2 & Hs2).
  exists r2, p2. split_and!; try done. by eapply suffix_trans.
Qed.

Lemma safe_guard_bind {B} b (f : unit -> M PACKET B) : (b = true -> safe (f tt)) -> safe (guard_ b ≫= f).
Proof.
  intros Hf p Hp. destruct b; [exact (Hf eq_refl p Hp)|].
  eexists _, p. split_and!; [done..|]. apply suffix_refl, Hp.
Qed.

Lemma safe_remaining_bind {B} (f : Z -> M PACKET B) :
  (forall v, 0 <= v -> safe (f v)) -> safe (PACKET_remaining ≫= f).
Proof.
  intros Hf p Hp. rewrite (bind_ret PACKET_remaining _ p (Packet.remaining p) p) by done.
  apply Hf; [|done]. destruct Hp. lia.
Qed.

(** A loop whose rounds each consume something, run on enough fuel. *)
Lemma safe_loop_fuel {B} (f : nat -> M PACKET B) :
  (forall fuel p, packet_ok p -> Packet.remaining p < Z.of_nat fuel ->
     exists r p', f fuel p = (r, p') /\ r <> Undef /\ packet_ok p' /\ suffix_of p' p) ->
  safe (loop_fuel ≫= f).
Proof.
  intros Hf p Hp. rewrite (bind_ret loop_fuel _ p (S (length (Packet.curr p))) p) by done.
  apply Hf; [done|]. destruct Hp. lia.
Qed.

Lemma skip_vlint_inv p :
  packet_ok p ->
  PACKET_skip_quic_vlint p = (Err, p) \/
  exists p', PACKET_skip_quic_vlint p = (Ret tt, p') /\ packet_ok p' /\ suffix_of p' p /\
    Packet.remaining p' < Packet.remaining p.
Proof.
  intros Hp. unfold PACKET_skip_quic_vlint. destruct (vlint_cases p Hp) as [E|(n & v & E & Ev & Hn & Hv)].
  - left. by rewrite (bind_err _ _ _ _ E).
  - right. rewrite (bind_ret _ _ _ _ _ E).
    destruct (forward_safe p n Hp) as (p' & Ef & Hp' & Hs); [lia|]. exists p'. split_and!; try done.
    unfold packet_forward, modify in Ef. injection Ef as <-. cbn [Packet.remaining].
    destruct Hp. rewrite u64_id by (unfold is_u64; lia). lia.
Qed.

Lemma skip_ranges_safe fuel : forall i count p,
  packet_ok p -> Packet.remaining p < Z.of_nat fuel ->
  exists r p', skip_ranges fuel i count p = (r, p') /\ r <> Undef /\ packet_ok p' /\ suffix_of p' p.
Proof.
  induction fuel as [|fuel IH]; intros i count p Hp Hf; [destruct Hp; lia|].
  assert (Hrefl : suffix_of p p) by (apply suffix_refl, Hp).
  cbn [skip_ranges]. destruct (negb (i <? count)); [by eexists _, p|].
  destruct (skip_vlint_inv p Hp) as [E|(p1 & E & Hp1 & Hs1 & Hl1)];
    [rewrite (bind_err _ _ _ _ E); by eexists _, p|rewrite (bind_ret _ _ _ _ _ E)].
  destruct (skip_vlint_inv p1 Hp1) as [E1|(p2 & E1 & Hp2 & Hs2 & Hl2)];
    [rewrite (bind_err _ _ _ _ E1); by eexists _, p1|rewrite (bind_ret _ _ _ _ _ E1)].
  destruct (IH (i + 1) count p2 Hp2) as (r & p3 & E2 & Hr & Hp3 & Hs3); [lia|].
  exists r, p3. split_and!; try done. eapply suffix_trans; [exact Hs3|]. by eapply suffix_trans.
Qed.

(** With room for every range, what the loop stores is a descending list. *)
Lemma decode_ranges_sound fuel : forall cap (i : nat) count start ranges p,
  packet_ok p -> Packet.remaining p < Z.of_nat fuel -> vint start -> vint count ->
  Z.of_nat i <= count -> (forall n, cap = Some n -> n <= Z.of_nat (length ranges)) ->
  exists r p', decode_ack_ranges fuel cap (Z.of_nat i) count start ranges p = (r, p') /\
    r <> Undef /\ packet_ok p' /\ suffix_of p' p /\
    (forall n, cap = Some n -> count < n -> forall out, r = Ret out ->
       exists l, descending start l /\ Z.of_nat (i + length l) = count /\ out = fill i l ranges).
Proof.
  induction fuel as [|fuel IH]; intros cap i count start ranges p Hp Hf Hs Hc Hi Hroom; [destruct Hp; lia|].
  assert (Hrefl : suffix_of p p) by (apply suffix_refl, Hp).
  pose proof (vint_bound _ Hs). pose proof (vint_bound _ Hc).
  cbn [decode_ack_ranges]. destruct (Z.ltb_spec (Z.of_nat i) count); cbn [negb].
  2: { eexists _, p. split_and!; try done. intros n -> Hn out [= <-]. exists []. cbn.
       split_and!; [done|lia|done]. }
  destruct (get_vlint_inv p Hp) as [E|(gap & p1 & E & Hp1 & Hs1 & Hg & Hl1)];
    [rewrite (bind_err _ _ _ _ E); by eexists _, p|rewrite (bind_ret _ _ _ _ _ E)].
  destruct (get_vlint_inv p1 Hp1) as [E1|(len & p2 & E1 & Hp2 & Hs2 & Hlen & Hl2)];
    [rewrite (bind_err _ _ _ _ E1); by eexists _, p1|rewrite (bind_ret _ _ _ _ _ E1)].
  assert (Hs02 : suffix_of p2 p) by (by eapply suffix_trans).
  pose proof (vint_bound _ Hg). pose proof (vint_bound _ Hlen).
  rewrite (u64_id (gap + 2)) by (unfold is_u64; lia).
  destruct (Z.ltb_spec start (gap + 2)); cbn [orb negb].
  { rewrite guard_false by done. by eexists _, p2. }
  rewrite (u64_id (start - gap)) by (unfold is_u64; lia).
  rewrite (u64_id (start - gap - 2)) by (unfold is_u64; lia).
  destruct (Z.ltb_spec (start - gap - 2) len); cbn [negb].
  { rewrite guard_false by done. by eexists _, p2. }
  rewrite guard_true, (u64_id (start - gap - 2 - len)) by (done || (unfold is_u64; lia)).
  assert (Hvx : forall x, 0 <= x < 2 ^ 62 -> vint x) by (unfold vint; rewrite vlint_max_val; lia).
  replace (Z.of_nat i + 1) with (Z.of_nat (S i)) by lia.
  destruct (match cap with Some n => Z.of_nat (S i) <? n | None => false end) eqn:Ecap.
  - destruct cap as [n0|]; [|done]. specialize (Hroom n0 eq_refl). apply Z.ltb_lt in Ecap.
    rewrite store_range_ret by lia. erewrite bind_ret by reflexivity.
    destruct (IH (Some n0) (S i) count (start - gap - 2 - len)
      (<[S i := mkRange (start - gap - 2 - len) (start - gap - 2)]> ranges) p2)
      as (r & p3 & E2 & Hr & Hp3 & Hs3 & Hpost);
      [done|lia|apply Hvx; lia|done|lia|intros n [= <-]; rewrite length_insert; lia|].
    exists r, p3. split_and!; try done; [by eapply suffix_trans|].
    intros n En Hn out Hout. destruct (Hpost n En Hn out Hout) as (l & Hl & Hcount & ->).
    exists (mkRange (start - gap - 2 - len) (start - gap - 2) :: l). cbn [descending length fill range_start range_end].
    split_and!; try done; lia.
  - destruct (IH cap (S i) count start ranges p2) as (r & p3 & E2 & Hr & Hp3 & Hs3 & Hpost);
      [done|lia|done|done|lia|done|].
    exists r, p3. split_and!; try done; [by eapply suffix_trans|].
    intros n -> Hn. exfalso. apply Z.ltb_ge in Ecap. lia.
Qed.

Lemma get_bytes_post n p d p' :
  packet_ok p -> 0 <= n -> PACKET_get_bytes n p = (Ret d, p') -> packet_ok (mkPacket d n).
Proof.
  intros Hp Hn E. unfold PACKET_get_bytes in E. apply bind_inv in E as (d' & p1 & E & E').
  apply bind_inv in E' as (u & p2 & _ & E'). injection E' as -> _.
  unfold PACKET_peek_bytes in E. apply bind_inv in E as (u' & p3 & E & E').
  pose proof (need_same _ _ _ _ E) as ->. unfold PACKET_data in E'. cbn in E'. injection E' as <- <-.
  unfold need, PACKET_remaining, mbind, M_bind, guard_ in E.
  destruct (Z.ltb_spec (Packet.remaining p) n); [done|]. destruct Hp as [Hr Hs Hb].
  split; cbn; [lia..|done].
Qed.

Lemma safe_tparam_bind {B} (f : list Z * Z * Z -> M PACKET B) :
  (forall b pid len, vint len -> packet_ok (mkPacket b len) -> safe (f (b, pid, len))) ->
  safe (ossl_quic_wire_decode_transport_param_bytes ≫= f).
Proof.
  intros Hf p Hp. unfold ossl_quic_wire_decode_transport_param_bytes.
  assert (Hrefl : suffix_of p p) by (apply suffix_refl, Hp).
  destruct (get_vlint_inv p Hp) as [E|(pid & p1 & E & Hp1 & Hs1 & Hv & _)].
  { rewrite (bind_err _ _ _ p) by (by rewrite (bind_err _ _ _ _ E)). by eexists _, p. }
  destruct (get_vlint_inv p1 Hp1) as [E1|(len & p2 & E1 & Hp2 & Hs2 & Hv2 & _)].
  { rewrite (bind_err _ _ _ p1) by (by rewrite (bind_ret _ _ _ _ _ E), (bind_err _ _ _ _ E1)).
    by eexists _, p1. }
  pose proof (vint_bound _ Hv2) as Hb2. assert (Hs02 : suffix_of p2 p) by (by eapply suffix_trans).
  destruct (get_bytes_safe len ltac:(lia) p2 Hp2) as (r & p3 & E2 & Hr & Hp3 & Hs3).
  assert (Hs03 : suffix_of p3 p) by (by eapply suffix_trans).
  destruct r as [b| |]; [| |done].
  - erewrite bind_ret.
    2: { rewrite (bind_ret _ _ _ _ _ E), (bind_ret _ _ _ _ _ E1), guard_true by (by apply size_guard).
         rewrite (bind_ret _ _ _ _ _ E2). reflexivity. }
    destruct (Hf b pid len Hv2 (get_bytes_post len p2 b p3 Hp2 ltac:(lia) E2) p3 Hp3)
      as (r4 & p4 & E4 & Hr4 & Hp4 & Hs4).
    exists r4, p4. split_and!; try done. by eapply suffix_trans.
  - rewrite (bind_err _ _ _ p3) by (rewrite (bind_ret _ _ _ _ _ E), (bind_ret _ _ _ _ _ E1),
      guard_true by (by apply size_guard); by rewrite (bind_err _ _ _ _ E2)).
    by eexists _, p3.
Qed.

Lemma copy_into_safe room len : 0 <= len <= room -> safe (copy_into room len).
Proof.
  intros Hl. unfold copy_into. destruct (Z.ltb_spec room len); [lia|].
  apply safe_bind; [apply copy_bytes_safe; lia|intros; apply safe_ret].
Qed.

Lemma on_sub_safe {A} sub (m : M PACKET A) : packet_ok sub -> safe m -> safe (on_sub sub m).
Proof.
  intros Hsub Hm p Hp. destruct (Hm sub Hsub) as (r & p' & E & Hr & _). unfold on_sub. rewrite E.
  assert (Hrefl : suffix_of p p) by (apply suffix_refl, Hp).
  destruct r; [by eexists _, p|by eexists _, p|done].
Qed.

(** Proves a decoder safe from the safety of the readers it is made of. *)
Ltac sf :=
  repeat match goal with
  | |- safe (mret _) => apply safe_ret
  | |- safe fail => apply safe_fail
  | |- safe (guard_ _) => apply safe_guard
  | |- safe (expect_frame_header _) => unfold expect_frame_header, ossl_quic_wire_skip_frame_header
  | |- safe (expect_frame_header_mask _ _) =>
      unfold expect_frame_header_mask, ossl_quic_wire_skip_frame_header
  | |- safe PACKET_get_quic_vlint => apply get_vlint_safe
  | |- safe PACKET_skip_quic_vlint => apply skip_vlint_safe
  | |- safe PACKET_get_net_8 => apply get_net_8_safe
  | |- safe PACKET_get_net_2 => apply get_net_2_safe
  | |- safe PACKET_data => apply safe_data
  | |- safe (PACKET_copy_bytes _) => apply copy_bytes_safe; lia
  | |- safe (copy_into _ _) => apply copy_into_safe; unfold QUIC_MAX_CONN_ID_LEN in *; lia
  | |- safe (if ?b then _ else _) => destruct b
  | |- safe (PACKET_get_quic_vlint ≫= _) =>
      apply safe_vlint_bind; let v := fresh "v" in let Hv := fresh "Hv" in intros v Hv; apply vint_bound in Hv
  | |- safe (PACKET_get_1 ≫= _) => apply safe_get_1_bind; intros ? ?
  | |- safe (PACKET_remaining ≫= _) => apply safe_remaining_bind; intros ? ?
  | |- safe (PACKET_get_bytes _) => apply get_bytes_safe; lia
  | |- safe (PACKET_forward _) => apply PACKET_forward_safe; lia
  | |- safe (guard_ _ ≫= _) => apply safe_guard_bind; intros ?
  | |- safe (_ ≫= _) => apply safe_bind; [|intros ?]
  end.

Lemma stream_len_safe {B} (b1 b2 : bool) (f : Z -> M PACKET B) :
  (forall v, 0 <= v -> safe (f v)) ->
  safe ((if b1 then PACKET_get_quic_vlint else if b2 then mret 0 else PACKET_remaining) ≫= f).
Proof.
  intros Hf. destruct b1, b2; try (apply safe_vlint_bind; intros v Hv%vint_bound; apply Hf; lia).
  - intros p Hp. rewrite (bind_ret (mret 0) _ _ 0 p) by done. apply Hf; [lia|done].
  - by apply safe_remaining_bind.
Qed.

Lemma decode_stream_safe nodata : safe (ossl_quic_wire_decode_frame_stream nodata).
Proof.
  unfold ossl_quic_wire_decode_frame_stream. apply safe_bind; [sf|intros ty].
  apply safe_vlint_bind. intros sid _.
  apply safe_bind; [sf|intros off]. apply stream_len_safe. intros len Hlen. sf.
Qed.

Lemma decode_padding_safe : safe ossl_quic_wire_decode_padding.
Proof. unfold ossl_quic_wire_decode_padding. sf. Qed.

Lemma tparam_cid_safe old : safe (ossl_quic_wire_decode_transport_param_cid old).
Proof.
  apply safe_tparam_bind. intros b pid len Hv Hok. apply safe_guard_bind. intros Hg.
  destruct Hok as [Hr _ _]. cbn in Hr. apply negb_true_iff in Hg. rewrite Hg.
  destruct (Z.ltb_spec (Z.of_nat (length b)) len); [lia|]. cbn [orb]. sf.
Qed.

Lemma tparam_pref_addr_safe old : safe (ossl_quic_wire_decode_transport_param_preferred_addr old).
Proof.
  apply safe_tparam_bind. intros b pid len Hv Hok. apply safe_bind; [sf|intros _].
  unfold PACKET_buf_init. destruct (_ <? len); [sf|]. apply on_sub_safe; [done|]. sf.
Qed.

Lemma ack_num_ranges_total p : packet_ok p -> ossl_quic_wire_peek_frame_ack_num_ranges p <> Undef.
Proof.
  intros Hp. unfold ossl_quic_wire_peek_frame_ack_num_ranges.
  match goal with |- fst (?m p) <> _ => assert (Hm : safe m) end.
  { apply safe_bind; [sf|intros _]. do 2 (apply safe_bind; [sf|intros _]).
    apply safe_vlint_bind. intros count _. apply safe_loop_fuel. intros fuel q Hq Hf.
    destruct (skip_ranges_safe fuel 0 count q Hq Hf) as (r & q' & E & Hr & Hq' & Hs).
    destruct r; [|rewrite (bind_err _ _ _ _ E); by eexists _, q'|done].
    rewrite (bind_ret _ _ _ _ _ E). by eexists _, q'. }
  destruct (Hm p Hp) as (r & p' & E & Hr & _). by rewrite E.
Qed.

(** What the ACK decoder promises on any input. *)
Definition ack_sound (out : option OSSL_QUIC_FRAME_ACK) (r : res (option OSSL_QUIC_FRAME_ACK * Z)) : Prop :=
  forall o a total, out = Some o -> r = Ret (Some a, total) ->
  total <= num_ack_ranges o <= Z.of_nat (length (ack_ranges o)) ->
  num_ack_ranges a = total /\ valid_ranges (used_ranges a).

(** The array of the structure to fill, when there is one, has the number of
    entries it says. *)
Definition ack_room (out : option OSSL_QUIC_FRAME_ACK) : Prop :=
  forall o, out = Some o -> num_ack_ranges o <= Z.of_nat (length (ack_ranges o)).

Lemma decode_ack_sound e out p :
  packet_ok p -> 0 <= e < 64 -> ack_room out ->
  exists r p', ossl_quic_wire_decode_frame_ack e out p = (r, p') /\
    r <> Undef /\ packet_ok p' /\ suffix_of p' p /\ ack_sound out r.
Proof.
  intros Hp He Hroom. unfold ossl_quic_wire_decode_frame_ack.
  assert (Hstop : forall q, packet_ok q -> suffix_of q p -> exists r p', (Err, q) = (r, p') /\
    r <> Undef /\ packet_ok p' /\ suffix_of p' p /\ ack_sound out r) by (intros q ? ?; by eexists _, q).
  assert (Hty : safe (expect_frame_header_mask OSSL_QUIC_FRAME_TYPE_ACK_WITHOUT_ECN 1)) by sf.
  destruct (Hty p Hp) as (r & p1 & E & Hr & Hp1 & Hs1).
  destruct r as [ty| |]; [rewrite (bind_ret _ _ _ _ _ E)|rewrite (bind_err _ _ _ _ E); by apply Hstop|done].
  destruct (get_vlint_inv p1 Hp1) as [E1|(lg & p2 & E1 & Hp2 & Hs2 & Hlg & _)];
    [rewrite (bind_err _ _ _ _ E1); by apply Hstop|rewrite (bind_ret _ _ _ _ _ E1)].
  assert (S2 : suffix_of p2 p) by (by eapply suffix_trans).
  destruct (get_vlint_inv p2 Hp2) as [E2|(raw & p3 & E2 & Hp3 & Hs3 & Hraw & _)];
    [rewrite (bind_err _ _ _ _ E2); by apply Hstop|rewrite (bind_ret _ _ _ _ _ E2)].
  assert (S3 : suffix_of p3 p) by (by eapply suffix_trans).
  destruct (get_vlint_inv p3 Hp3) as [E3|(count & p4 & E3 & Hp4 & Hs4 & Hcnt & _)];
    [rewrite (bind_err _ _ _ _ E3); by apply Hstop|rewrite (bind_ret _ _ _ _ _ E3)].
  assert (S4 : suffix_of p4 p) by (by eapply suffix_trans).
  destruct (get_vlint_inv p4 Hp4) as [E4|(fst_ & p5 & E4 & Hp5 & Hs5 & Hfst & _)];
    [rewrite (bind_err _ _ _ _ E4); by apply Hstop|rewrite (bind_ret _ _ _ _ _ E4)].
  assert (S5 : suffix_of p5 p) by (by eapply suffix_trans).
  pose proof (vint_bound _ Hlg). pose proof (vint_bound _ Hfst). pose proof (vint_bound _ Hcnt).
  destruct (Z.ltb_spec lg fst_); cbn [negb]; [rewrite guard_false by done; by apply Hstop|].
  rewrite guard_true by done. rewrite guard_true by (by apply size_guard).
  rewrite !(u64_id (lg - fst_)) by (unfold is_u64; lia). rewrite !(u64_id (count + 1)) by (unfold is_u64; lia).
  assert (Hsc : exists sc, (if is_null out then mret 0 else one_shl e) p5 = (Ret sc, p5)).
  { unfold one_shl. destruct (is_null out), (Z.leb_spec 64 e); try lia; by eexists. }
  destruct Hsc as (sc & Esc). rewrite (bind_ret _ _ _ _ _ Esc).
  destruct (SafeMath.safe_mul 64 raw sc) as [scaled err]. cbv beta iota zeta.
  assert (Hvx : forall x, 0 <= x < 2 ^ 62 -> vint x) by (unfold vint; rewrite vlint_max_val; lia).
  set (ranges0 := match out with
    | Some o => if 0 <? num_ack_ranges o then <[0%nat := mkRange (lg - fst_) lg]> (ack_ranges o) else ack_ranges o
    | None => [] end).
  rewrite (bind_ret _ _ p5 ranges0 p5).
  2: { unfold ranges0. destruct out as [o|]; [|done]. specialize (Hroom o eq_refl).
       destruct (Z.ltb_spec 0 (num_ack_ranges o)); [|done].
       by rewrite store_range_first by lia. }
  rewrite (bind_ret loop_fuel _ p5 (S (length (Packet.curr p5))) p5) by done.
  destruct (decode_ranges_sound (S (length (Packet.curr p5))) (num_ack_ranges <$> out) 0 count (lg - fst_)
    ranges0 p5) as (r & p6 & E6 & Hr6 & Hp6 & Hs6 & Hpost);
    [done|destruct Hp5; lia|apply Hvx; lia|done|lia| |].
  { intros n En. unfold ranges0. destruct out as [o|]; [|done]. injection En as <-. specialize (Hroom o eq_refl).
    destruct (0 <? num_ack_ranges o); rewrite ?length_insert; lia. }
  assert (S6 : suffix_of p6 p) by (by eapply suffix_trans).
  destruct r as [ranges| |]; [rewrite (bind_ret _ _ _ _ _ E6)|rewrite (bind_err _ _ _ _ E6); by apply Hstop|done].
  assert (Hsound : forall o, out = Some o -> count + 1 <= num_ack_ranges o <= Z.of_nat (length (ack_ranges o)) ->
    (if count + 1 <? num_ack_ranges o then count + 1 else num_ack_ranges o) = count + 1 /\
    valid_ranges (take (Z.to_nat (count + 1)) ranges)).
  { intros o -> Hcap. split; [zcase; lia|].
    destruct (Hpost (num_ack_ranges o) eq_refl ltac:(lia) ranges eq_refl) as (l & Hl & Hcl & ->).
    unfold ranges0. destruct (Z.ltb_spec 0 (num_ack_ranges o)); [|lia].
    replace (Z.to_nat (count + 1)) with (1 + length l)%nat by lia.
    rewrite take_fill by (rewrite length_insert; lia).
    destruct (ack_ranges o); [cbn in Hcap; lia|]. cbn. split_and!; [lia..|exact Hlg|done]. }
  destruct (ty =? _).
  - destruct (get_vlint_inv p6 Hp6) as [E7|(e0 & p7 & E7 & Hp7 & Hs7 & _)];
      [rewrite (bind_err _ _ _ _ E7); by apply Hstop|rewrite (bind_ret _ _ _ _ _ E7)].
    assert (S7 : suffix_of p7 p) by (by eapply suffix_trans).
    destruct (get_vlint_inv p7 Hp7) as [E8|(e1 & p8 & E8 & Hp8 & Hs8 & _)];
      [rewrite (bind_err _ _ _ _ E8); by apply Hstop|rewrite (bind_ret _ _ _ _ _ E8)].
    assert (S8 : suffix_of p8 p) by (by eapply suffix_trans).
    destruct (get_vlint_inv p8 Hp8) as [E9|(ce & p9 & E9 & Hp9 & Hs9 & _)];
      [rewrite (bind_err _ _ _ _ E9); by apply Hstop|rewrite (bind_ret _ _ _ _ _ E9)].
    eexists _, p9. split_and!; try done; [by eapply suffix_trans|].
    intros o a total Eo Er Hcap. destruct out; [|done]. injection Eo as ->. injection Er as <- <-.
    unfold used_ranges. cbn. destruct (Hsound o eq_refl Hcap) as [-> ?]. done.
  - eexists _, p6. split_and!; try done.
    intros o a total Eo Er Hcap. destruct out; [|done]. injection Eo as ->. injection Er as <- <-.
    unfold used_ranges. cbn. destruct (Hsound o eq_refl Hcap) as [-> ?]. done.
Qed.

(** C37: whatever bytes a peer sends, no frame or transport-parameter decoder
    reads outside the packet, writes outside the arrays it fills or runs out of
    its loop bound, and the packet it leaves is the unread rest; for the ACK
    decoder this asks that the array of ranges has the entries the structure
    announces and that the delay exponent is below 64.  On success the ACK
    decoder, given room for the announced ranges, has filled in exactly that
    many, each non-empty, in strictly descending order and with a gap of at
    least one packet number between neighbours. *)
Theorem quic_decoders_robust :
  (safe ossl_quic_wire_decode_frame_ping /\ safe ossl_quic_wire_decode_frame_handshake_done /\
   safe ossl_quic_wire_decode_frame_reset_stream /\ safe ossl_quic_wire_decode_frame_stop_sending /\
   (forall nodata, safe (ossl_quic_wire_decode_frame_crypto nodata)) /\
   safe ossl_quic_wire_decode_frame_new_token /\
   (forall nodata, safe (ossl_quic_wire_decode_frame_stream nodata))) /\
  (safe ossl_quic_wire_decode_frame_max_data /\ safe ossl_quic_wire_decode_frame_max_stream_data /\
   safe ossl_quic_wire_decode_frame_max_streams /\ safe ossl_quic_wire_decode_frame_data_blocked /\
   safe ossl_quic_wire_decode_frame_stream_data_blocked /\
   safe ossl_quic_wire_decode_frame_streams_blocked /\ safe ossl_quic_wire_decode_frame_new_conn_id /\
   safe ossl_quic_wire_decode_frame_retire_conn_id /\ safe ossl_quic_wire_decode_frame_path_challenge /\
   safe ossl_quic_wire_decode_frame_path_response /\ safe ossl_quic_wire_decode_frame_conn_close) /\
  (safe ossl_quic_wire_decode_padding /\ safe ossl_quic_wire_decode_transport_param_bytes /\
   safe ossl_quic_wire_decode_transport_param_int /\
   forall old, safe (ossl_quic_wire_decode_transport_param_cid old) /\
     safe (ossl_quic_wire_decode_transport_param_preferred_addr old)) /\
  (forall e out p, packet_ok p -> 0 <= e < 64 -> ack_room out ->
   ossl_quic_wire_peek_frame_ack_num_ranges p <> Undef /\
   exists r p', ossl_quic_wire_decode_frame_ack e out p = (r, p') /\
     r <> Undef /\ packet_ok p' /\ suffix_of p' p /\ ack_sound out r).
Proof.
  split; [|split; [|split]].
  - split_and!; intros; try apply decode_stream_safe;
      unfold ossl_quic_wire_decode_frame_ping, ossl_quic_wire_decode_frame_handshake_done,
        ossl_quic_wire_decode_frame_reset_stream, ossl_quic_wire_decode_frame_stop_sending,
        ossl_quic_wire_decode_frame_crypto, ossl_quic_wire_decode_frame_new_token; sf.
  - split_and!; unfold ossl_quic_wire_decode_frame_max_data, ossl_quic_wire_decode_frame_max_stream_data,
      ossl_quic_wire_decode_frame_max_streams, ossl_quic_wire_decode_frame_data_blocked,
      ossl_quic_wire_decode_frame_stream_data_blocked, ossl_quic_wire_decode_frame_streams_blocked,
      ossl_quic_wire_decode_frame_new_conn_id, ossl_quic_wire_decode_frame_retire_conn_id,
      ossl_quic_wire_decode_frame_path_challenge, ossl_quic_wire_decode_frame_path_response,
      ossl_quic_wire_decode_frame_conn_close; sf.
  - split_and!; intros; [apply decode_padding_safe| | |split; [apply tparam_cid_safe|apply tparam_pref_addr_safe]].
    + unfold ossl_quic_wire_decode_transport_param_bytes. sf.
    + apply safe_tparam_bind. intros b pid len Hv Hok. apply safe_bind; [|intros; sf].
      apply on_sub_safe; [done|]. sf.
  - intros e out p Hp He Hroom. split; [by apply ack_num_ranges_total|by apply decode_ack_sound].
Qed.

(** The functions that compute the length of a STREAM or CRYPTO header
    agree with the encoders: for a header that can be encoded they give exactly
    the number of bytes the encoder appends, and zero for one that cannot. *)
Theorem quic_header_lengths_exact :
  (forall f, vint (st_stream_id f) -> vint (st_offset f) -> vint (st_len f) ->
   exists bs, appends (ossl_quic_wire_encode_frame_stream_hdr f) bs /\
     Z.of_nat (length bs) = ossl_quic_wire_get_encoded_frame_len_stream_hdr f) /\
  (forall f, vint (cr_offset f) -> vint (cr_len f) ->
   exists bs, appends (ossl_quic_wire_encode_frame_crypto_hdr f) bs /\
     Z.of_nat (length bs) = ossl_quic_wire_get_encoded_frame_len_crypto_hdr f) /\
  (forall f, OSSL_QUIC_VLINT_MAX < st_stream_id f -> ossl_quic_wire_get_encoded_frame_len_stream_hdr f = 0) /\
  (forall f, OSSL_QUIC_VLINT_MAX < cr_offset f \/ OSSL_QUIC_VLINT_MAX < cr_len f ->
   0 <= cr_offset f -> 0 <= cr_len f -> ossl_quic_wire_get_encoded_frame_len_crypto_hdr f = 0).
Proof.
  assert (Hpos : forall v, vint v -> 1 <= ossl_quic_vlint_encode_len v).
  { intros v Hv. destruct (encode_is_n v Hv) as [Hn _]. unfold valid_len in Hn. lia. }
  assert (Hbig : forall v, OSSL_QUIC_VLINT_MAX < v -> ossl_quic_vlint_encode_len v = 0).
  { intros v Hv. rewrite vlint_max_val in Hv. destruct (encode_len_spec v ltac:(lia)) as [[? _]|[Hn Hlt]]; [done|].
    assert (2 ^ (8 * ossl_quic_vlint_encode_len v - 2) <= 2 ^ 62)
      by (apply Z.pow_le_mono_r; unfold valid_len in Hn; lia). lia. }
  split_and!.
  - intros f Hi Ho Hl. pose proof (frame_type_small (F_STREAM f)) as Hty. cbn in Hty.
    eexists. split; [by apply stream_hdr_appends|]. rewrite !length_app, !Nat2Z.inj_add. rewrite !length_encode by (done || by apply small_vint).
      assert (Et : ossl_quic_vlint_encode_len (stream_frame_type f) = 1)
        by (unfold ossl_quic_vlint_encode_len, OSSL_QUIC_VLINT_2B_MIN; zcase; lia).
      rewrite Et. unfold ossl_quic_wire_get_encoded_frame_len_stream_hdr.
      pose proof (Hpos _ Hi). pose proof (Hpos _ Ho). pose proof (Hpos _ Hl). pose proof (vint_bound _ Ho).
      change (ossl_quic_vlint_encode_len OSSL_QUIC_FRAME_TYPE_STREAM) with 1.
      destruct (Z.eqb_spec (st_offset f) 0) as [Ez|Ez]; destruct (has_explicit_len f); cbn [negb];
        rewrite ?length_encode by done; cbn [length];
        (destruct (Z.ltb_spec 0 (st_offset f)); [|try lia]); try lia;
        repeat (match goal with |- context [?x =? 0] => destruct (Z.eqb_spec x 0); try lia end);
        cbn; lia.
  - intros f Ho Hl. eexists. split; [by apply crypto_hdr_appends|]. rewrite !length_app, !Nat2Z.inj_add. rewrite !length_encode by (done || by apply small_vint).
      unfold ossl_quic_wire_get_encoded_frame_len_crypto_hdr.
      change (ossl_quic_vlint_encode_len OSSL_QUIC_FRAME_TYPE_CRYPTO) with 1.
      change (ossl_quic_vlint_encode_len 6) with 1. pose proof (Hpos _ Ho). pose proof (Hpos _ Hl).
      destruct (Z.eqb_spec (ossl_quic_vlint_encode_len (cr_offset f)) 0),
        (Z.eqb_spec (ossl_quic_vlint_encode_len (cr_len f)) 0); cbn; lia.
  - intros f Hi. unfold ossl_quic_wire_get_encoded_frame_len_stream_hdr. rewrite (Hbig (st_stream_id f)) by done.
    by rewrite orb_true_r.
  - intros f [H|H] _ _; unfold ossl_quic_wire_get_encoded_frame_len_crypto_hdr; rewrite (Hbig _ H);
      by rewrite ?orb_true_r.
Qed.

End QuicWire.
