(* ===== verification/QuicWirePkt.v ===== *)
(** * Packet headers

    Model of [ssl/quic/quic_wire_pkt.c] without the integrity tags of Retry
    packets: header protection, the headers of the six types of packets, and
    packet numbers.

    A connection identifier is the list of its [id_len] bytes.  The pointers of
    [QUIC_PKT_HDR_PTRS] are offsets from the first byte of the packet; [data] and
    [token] are, as in [Packet], the bytes from the pointer to the end of the
    buffer.  The block cipher or stream cipher that generates masks is a parameter
    of the protector. *)
From Stdlib Require Import ZArith Lia.
From stdpp Require Import base tactics list.
From S2P Require Import Prelude QuicVlint Packet BufMem WPacket.
Import Vlint.
#[local] Open Scope Z_scope.

(** ** Types of packets *)
Module PktType.

Definition QUIC_PKT_TYPE_INITIAL : Z := 1.
Definition QUIC_PKT_TYPE_0RTT : Z := 2.
Definition QUIC_PKT_TYPE_HANDSHAKE : Z := 3.
Definition QUIC_PKT_TYPE_RETRY : Z := 4.
Definition QUIC_PKT_TYPE_1RTT : Z := 5.
Definition QUIC_PKT_TYPE_VERSION_NEG : Z := 6.

Definition QUIC_ENC_LEVEL_INITIAL : Z := 0.
Definition QUIC_ENC_LEVEL_HANDSHAKE : Z := 1.
Definition QUIC_ENC_LEVEL_0RTT : Z := 2.
Definition QUIC_ENC_LEVEL_1RTT : Z := 3.
Definition QUIC_ENC_LEVEL_NUM : Z := 4.
Definition QUIC_PN_SPACE_NUM : Z := 3.

Definition ossl_quic_pkt_type_to_enc_level (pkt_type : Z) : Z :=
  if pkt_type =? QUIC_PKT_TYPE_INITIAL then QUIC_ENC_LEVEL_INITIAL
  else if pkt_type =? QUIC_PKT_TYPE_HANDSHAKE then QUIC_ENC_LEVEL_HANDSHAKE
  else if pkt_type =? QUIC_PKT_TYPE_0RTT then QUIC_ENC_LEVEL_0RTT
  else if pkt_type =? QUIC_PKT_TYPE_1RTT then QUIC_ENC_LEVEL_1RTT
  else QUIC_ENC_LEVEL_NUM.

Definition ossl_quic_pkt_type_is_encrypted (pkt_type : Z) : bool :=
  negb ((pkt_type =? QUIC_PKT_TYPE_RETRY) || (pkt_type =? QUIC_PKT_TYPE_VERSION_NEG)).
Definition ossl_quic_pkt_type_has_pn (pkt_type : Z) : bool := ossl_quic_pkt_type_is_encrypted pkt_type.
Definition ossl_quic_pkt_type_can_share_dgram (pkt_type : Z) : bool := ossl_quic_pkt_type_is_encrypted pkt_type.
Definition ossl_quic_pkt_type_must_be_last (pkt_type : Z) : bool :=
  negb (ossl_quic_pkt_type_can_share_dgram pkt_type) || (pkt_type =? QUIC_PKT_TYPE_1RTT).

End PktType.

Module QuicWirePkt.
Export PktType.

Definition QUIC_VERSION_1 : Z := 1.
Definition QUIC_MAX_CONN_ID_LEN : Z := 20.
Definition QUIC_MIN_VALID_PKT_LEN_CRYPTO : Z := 21.
Definition QUIC_MIN_VALID_PKT_LEN : Z := 7.
Definition QUIC_PN_INVALID : Z := UINT64_MAX.

Record QUIC_PKT_HDR := mkHdr {
  type : Z; spin_bit : bool; key_phase : bool; pn_len : Z; partial : bool; fixed : bool; unused : Z; reserved : Z;
  version : Z; dst_conn_id : list Z; src_conn_id : list Z; pn : list Z;
  token : option (list Z); token_len : Z; len : Z; data : option (list Z)
}.

Record QUIC_PKT_HDR_PTRS := mkPtrs { raw_start : option Z; raw_sample : option Z; raw_sample_len : Z; raw_pn : option Z }.

Definition id_len (id : list Z) : Z := Z.of_nat (length id).

(** ** Header protection *)
Definition QUIC_HDR_PROT_CIPHER_AES_128 : Z := 1.
Definition QUIC_HDR_PROT_CIPHER_AES_256 : Z := 2.
Definition QUIC_HDR_PROT_CIPHER_CHACHA : Z := 3.

Section Protector.
(** The cipher context: what encrypting the sample (or, with the sample as the
    nonce, five zero bytes) gives; absent when the library reports an error. *)
Context (cipher_id : Z) (cipher : list Z -> option (list Z)).

Definition hdr_generate_mask (sample : list Z) (sample_len : Z) : res (list Z) :=
  if (cipher_id =? QUIC_HDR_PROT_CIPHER_AES_128) || (cipher_id =? QUIC_HDR_PROT_CIPHER_AES_256)
     || (cipher_id =? QUIC_HDR_PROT_CIPHER_CHACHA) then
    if sample_len <? 16 then Err
    else if (length sample <? 16)%nat then Undef
    else match cipher (take 16 sample) with Some dst => Ret (take 5 dst) | None => Err end
  else Undef.

(** [pn_bytes[i] ^= mask[i + 1]] for the bytes of the packet number. *)
Definition xor_pn (n : nat) (mask pn_bytes : list Z) : list Z :=
  zip_with Z.lxor (take n pn_bytes) (drop 1 mask) ++ drop n pn_bytes.
Definition xor_first (mask : list Z) (first_byte : Z) : Z :=
  Z.lxor first_byte (Z.land (nth 0 mask 0) (if Z.land first_byte 0x80 =? 0 then 0x1f else 0xf)).

Definition ossl_quic_hdr_protector_decrypt_fields (sample : list Z) (sample_len first_byte : Z) (pn_bytes : list Z)
    : res (Z * list Z) :=
  match hdr_generate_mask sample sample_len with
  | Ret mask =>
      let first_byte := xor_first mask first_byte in
      let pn_len := Z.to_nat (Z.land first_byte 0x3 + 1) in
      if (length pn_bytes <? pn_len)%nat then Undef else Ret (first_byte, xor_pn pn_len mask pn_bytes)
  | Err => Err
  | Undef => Undef
  end.

Definition ossl_quic_hdr_protector_encrypt_fields (sample : list Z) (sample_len first_byte : Z) (pn_bytes : list Z)
    : res (Z * list Z) :=
  match hdr_generate_mask sample sample_len with
  | Ret mask =>
      let pn_len := Z.to_nat (Z.land first_byte 0x3 + 1) in
      if (length pn_bytes <? pn_len)%nat then Undef else Ret (xor_first mask first_byte, xor_pn pn_len mask pn_bytes)
  | Err => Err
  | Undef => Undef
  end.

(** A call on the fields that the pointers select in the buffer [buf]. *)
Definition on_fields (f : list Z -> Z -> Z -> list Z -> res (Z * list Z)) (buf : list Z) (ptrs : QUIC_PKT_HDR_PTRS) : res (list Z) :=
  let sample := match raw_sample ptrs with Some o => drop (Z.to_nat o) buf | None => [] end in
  match raw_start ptrs, raw_pn ptrs with
  | Some st, Some pn =>
      match buf !! Z.to_nat st with
      | Some b =>
          match f sample (raw_sample_len ptrs) b (drop (Z.to_nat pn) buf) with
          | Ret (b', pn') => Ret (<[Z.to_nat st := b']> (take (Z.to_nat pn) buf ++ pn'))
          | Err => Err
          | Undef => Undef
          end
      | None => Undef
      end
  | _, _ => if raw_sample_len ptrs <? 16 then Err else Undef
  end.
Definition ossl_quic_hdr_protector_decrypt := on_fields ossl_quic_hdr_protector_decrypt_fields.
Definition ossl_quic_hdr_protector_encrypt := on_fields ossl_quic_hdr_protector_encrypt_fields.
End Protector.

(** ** Decoding *)
Definition zero_pn : list Z := [0; 0; 0; 0].

(** Skip or copy the packet number: it is assumed to have four bytes while it is
    protected. *)
Definition decode_pn (is_partial : bool) (n : Z) : M Packet.PACKET (list Z) :=
  if is_partial then Packet.PACKET_forward 4;; mret zero_pn
  else b ← Packet.PACKET_copy_bytes n; mret (b ++ drop (length b) zero_pn).

(** [l] is the length of the packet, [raw_pn] an offset. *)
Definition decode_short (short_conn_id_len : Z) (is_partial : bool) (b0 l : Z) : M Packet.PACKET (QUIC_PKT_HDR * option Z) :=
  guard_ (negb (QUIC_MAX_CONN_ID_LEN <? short_conn_id_len));;
  guard_ (negb ((Z.land b0 0x40 =? 0) || (l <? QUIC_MIN_VALID_PKT_LEN_CRYPTO)));;
  let n := if is_partial then 0 else Z.land b0 0x03 + 1 in
  id ← Packet.PACKET_copy_bytes short_conn_id_len;
  r ← Packet.PACKET_remaining;
  p ← decode_pn is_partial n;
  n' ← Packet.PACKET_remaining;
  d ← Packet.PACKET_data;
  Packet.PACKET_forward n';;
  mret (mkHdr QUIC_PKT_TYPE_1RTT (negb (Z.land b0 0x20 =? 0)) (negb is_partial && negb (Z.land b0 0x04 =? 0)) n is_partial true 0
          (if is_partial then 0 else Z.shiftr (Z.land b0 0x18) 3) 0 id [] p None 0 n' (Some d), Some (l - r)).

Definition decode_version_neg (b0 : Z) (dst src : list Z) : M Packet.PACKET (QUIC_PKT_HDR * option Z) :=
  d ← Packet.PACKET_data;
  n ← Packet.PACKET_remaining;
  guard_ (n mod 4 =? 0);;
  Packet.PACKET_forward n;;
  mret (mkHdr QUIC_PKT_TYPE_VERSION_NEG false false 0 false (negb (Z.land b0 0x40 =? 0)) 0 0 0 dst src zero_pn None 0 n (Some d), None).

Definition raw_to_type (raw_type : Z) : Z :=
  if raw_type =? 0 then QUIC_PKT_TYPE_INITIAL else if raw_type =? 1 then QUIC_PKT_TYPE_0RTT
  else if raw_type =? 2 then QUIC_PKT_TYPE_HANDSHAKE else QUIC_PKT_TYPE_RETRY.

Definition decode_token (ty : Z) : M Packet.PACKET (option (list Z) * Z) :=
  if ty =? QUIC_PKT_TYPE_INITIAL then
    n ← Packet.PACKET_get_quic_vlint;
    guard_ (negb (SIZE_MAX <? n));;
    t ← Packet.PACKET_get_bytes n;
    mret (if n =? 0 then None else Some t, n)
  else mret (None, 0).

(** From the packet type of a long header of version 1 on. *)
Definition decode_long_v1 (is_partial nodata : bool) (b0 l ver : Z) (dst src : list Z) : M Packet.PACKET (QUIC_PKT_HDR * option Z) :=
  guard_ (negb (l <? QUIC_MIN_VALID_PKT_LEN_CRYPTO));;
  let ty := raw_to_type (Z.land (Z.shiftr b0 4) 0x3) in
  t ← decode_token ty;
  if ty =? QUIC_PKT_TYPE_RETRY then
    d ← Packet.PACKET_data;
    n ← Packet.PACKET_remaining;
    Packet.PACKET_forward n;;
    mret (mkHdr ty false false 0 false true (Z.land b0 0x0f) 0 ver dst src zero_pn t.1 t.2 n (Some d), None)
  else
    let n := if is_partial then 0 else Z.land b0 0x03 + 1 in
    let res := if is_partial then 0 else Z.shiftr (Z.land b0 0x0C) 2 in
    plen ← Packet.PACKET_get_quic_vlint;
    guard_ (negb (plen <? 4));;
    r ← Packet.PACKET_remaining;
    guard_ (negb (negb nodata && (r <? plen)));;
    p ← decode_pn is_partial n;
    let n' := if is_partial then plen - 4 else plen - n in
    d ← (if nodata then mret None else d ← Packet.PACKET_data; Packet.PACKET_forward n';; mret (Some d));
    mret (mkHdr ty false false n is_partial true 0 res ver dst src p t.1 t.2 n' d, Some (l - r)).

Definition decode_long (is_partial nodata : bool) (b0 l : Z) : M Packet.PACKET (QUIC_PKT_HDR * option Z) :=
  ver ← Packet.PACKET_get_net_4;
  guard_ (negb (negb (ver =? 0) && (Z.land b0 0x40 =? 0)));;
  dl ← Packet.PACKET_get_1;
  guard_ (negb (QUIC_MAX_CONN_ID_LEN <? dl));;
  dst ← Packet.PACKET_copy_bytes dl;
  sl ← Packet.PACKET_get_1;
  guard_ (negb (QUIC_MAX_CONN_ID_LEN <? sl));;
  src ← Packet.PACKET_copy_bytes sl;
  if ver =? 0 then decode_version_neg b0 dst src
  else guard_ (ver =? QUIC_VERSION_1);; decode_long_v1 is_partial nodata b0 l ver dst src.

(** The pointers of a packet of [l] bytes: [raw_sample_len] is a difference of
    pointers. *)
Definition decoded_ptrs (l : Z) (pn : option Z) : QUIC_PKT_HDR_PTRS :=
  match pn with
  | Some o => mkPtrs (Some 0) (Some (o + 4)) (u64 (l - (o + 4))) (Some o)
  | None => mkPtrs (Some 0) None 0 None
  end.

Definition ossl_quic_wire_decode_pkt_hdr (short_conn_id_len : Z) (is_partial nodata : bool)
    : M Packet.PACKET (QUIC_PKT_HDR * QUIC_PKT_HDR_PTRS) :=
  l ← Packet.PACKET_remaining;
  guard_ (negb (l <? QUIC_MIN_VALID_PKT_LEN));;
  b0 ← Packet.PACKET_get_1;
  r ← (if Z.land b0 0x80 =? 0 then decode_short short_conn_id_len is_partial b0 l else decode_long is_partial nodata b0 l);
  mret (r.1, decoded_ptrs l r.2).

(** ** Encoding *)
Abbreviation wst := WPacket.wst.

(** The [n] bytes a pointer points to. *)
Definition bytes_at (o : option (list Z)) (n : Z) : M wst (list Z) :=
  if n =? 0 then mret []
  else match o with
       | Some d => if n <=? Z.of_nat (length d) then mret (take (Z.to_nat n) d) else undefined
       | None => undefined
       end.

Definition pn_len_ok (h : QUIC_PKT_HDR) : bool := negb ((pn_len h <? 1) || (4 <? pn_len h)).

(** The wire value of a long packet type. *)
Definition type_to_raw (h : QUIC_PKT_HDR) : option Z :=
  if type h =? QUIC_PKT_TYPE_VERSION_NEG then if negb (version h =? 0) then None else Some 0
  else if type h =? QUIC_PKT_TYPE_INITIAL then Some 0
  else if type h =? QUIC_PKT_TYPE_0RTT then Some 1
  else if type h =? QUIC_PKT_TYPE_HANDSHAKE then Some 2
  else if type h =? QUIC_PKT_TYPE_RETRY then Some 3
  else None.

Definition b0_short (h : QUIC_PKT_HDR) : Z :=
  u8 (Z.lor (Z.lor (Z.lor (Z.lor (Z.shiftl (Z.b2z (spin_bit h)) 5) (Z.shiftl (Z.b2z (key_phase h)) 2)) (pn_len h - 1))
        (Z.shiftl (reserved h) 3)) 0x40).
Definition b0_long (h : QUIC_PKT_HDR) (raw_type : Z) : Z :=
  let b0 := u8 (Z.lor (Z.shiftl raw_type 4) 0x80) in
  let b0 := if negb (type h =? QUIC_PKT_TYPE_VERSION_NEG) || fixed h then u8 (Z.lor b0 0x40) else b0 in
  let b0 := if ossl_quic_pkt_type_has_pn (type h)
            then u8 (Z.lor (u8 (Z.lor b0 (pn_len h - 1))) (Z.shiftl (reserved h) 2)) else b0 in
  if type h =? QUIC_PKT_TYPE_RETRY then u8 (Z.lor b0 (unused h)) else b0.

(** [if (hdr->len > 0 && !WPACKET_reserve_bytes(pkt, hdr->len, NULL)) return 0]. *)
Definition reserve_payload (h : QUIC_PKT_HDR) : M wst unit :=
  if 0 <? len h then WPacket.WPACKET_reserve_bytes (len h);; mret tt else mret tt.

(** The short header, and the long one; the result is [off_pn], absent when the
    packet has no packet number. *)
Definition encode_short (short_conn_id_len : Z) (h : QUIC_PKT_HDR) : M wst (option Z) :=
  guard_ (negb (negb (id_len (dst_conn_id h) =? short_conn_id_len) || (QUIC_MAX_CONN_ID_LEN <? short_conn_id_len)) && pn_len_ok h);;
  WPacket.WPACKET_put_bytes_u8 (b0_short h);;
  WPacket.WPACKET_memcpy (dst_conn_id h);;
  w ← WPacket.pkt;
  WPacket.WPACKET_memcpy (take (Z.to_nat (pn_len h)) (pn h));;
  mret (Some (WPacket.WPACKET_get_total_written w)).

Definition encode_long (h : QUIC_PKT_HDR) : M wst (option Z) :=
  guard_ (negb ((QUIC_MAX_CONN_ID_LEN <? id_len (dst_conn_id h)) || (QUIC_MAX_CONN_ID_LEN <? id_len (src_conn_id h))));;
  guard_ (negb (ossl_quic_pkt_type_has_pn (type h)) || pn_len_ok h);;
  match type_to_raw h with
  | None => fail
  | Some raw_type =>
      WPacket.WPACKET_put_bytes_u8 (b0_long h raw_type);;
      WPacket.WPACKET_put_bytes_u32 (version h);;
      WPacket.WPACKET_put_bytes_u8 (id_len (dst_conn_id h));;
      WPacket.WPACKET_memcpy (dst_conn_id h);;
      WPacket.WPACKET_put_bytes_u8 (id_len (src_conn_id h));;
      WPacket.WPACKET_memcpy (src_conn_id h);;
      if (type h =? QUIC_PKT_TYPE_VERSION_NEG) || (type h =? QUIC_PKT_TYPE_RETRY) then mret None
      else
        (if type h =? QUIC_PKT_TYPE_INITIAL then
           WPacket.WPACKET_quic_write_vlint (token_len h);;
           t ← bytes_at (token h) (token_len h);
           WPacket.WPACKET_memcpy t
         else mret tt);;
        WPacket.WPACKET_quic_write_vlint (u64 (len h + pn_len h));;
        w ← WPacket.pkt;
        WPacket.WPACKET_memcpy (take (Z.to_nat (pn_len h)) (pn h));;
        mret (Some (WPacket.WPACKET_get_total_written w))
  end.

Definition null_ptrs : QUIC_PKT_HDR_PTRS := mkPtrs None None 0 None.

(** [want] tells whether pointers are asked for; they are relative to [start]. *)
Definition encoded_ptrs (h : QUIC_PKT_HDR) (start : option Z) (off_start off_pn : Z) (w : WPacket.WPACKET) : QUIC_PKT_HDR_PTRS :=
  match start, WPacket.WPACKET_get_curr w with
  | Some s, Some c =>
      let off_sample := u64 (off_pn + 4) in
      mkPtrs (Some 0) (Some (off_sample - off_start)) (u64 (c + len h - (s + (off_sample - off_start)))) (Some (off_pn - off_start))
  | _, _ => null_ptrs
  end.

Definition ossl_quic_wire_encode_pkt_hdr (short_conn_id_len : Z) (h : QUIC_PKT_HDR) (want : bool) : M wst QUIC_PKT_HDR_PTRS :=
  w ← WPacket.pkt;
  let start := WPacket.WPACKET_get_curr w in
  let off_start := WPacket.WPACKET_get_total_written w in
  guard_ (negb (want && is_null (WPacket.staticbuf w)));;
  guard_ (negb (partial h || ((type h =? QUIC_PKT_TYPE_1RTT) && negb (id_len (dst_conn_id h) =? short_conn_id_len))));;
  off_pn ← (if type h =? QUIC_PKT_TYPE_1RTT then encode_short short_conn_id_len h else encode_long h);
  reserve_payload h;;
  w ← WPacket.pkt;
  mret (match off_pn with Some o => if want : bool then encoded_ptrs h start off_start o w else null_ptrs | None => null_ptrs end).

(** The result is an [int]. *)
Definition to_int (n : Z) : Z := (n + 2 ^ 31) mod 2 ^ 32 - 2 ^ 31.

Definition ossl_quic_wire_get_encoded_pkt_hdr_len (short_conn_id_len : Z) (h : QUIC_PKT_HDR) : Z :=
  if partial h || ((type h =? QUIC_PKT_TYPE_1RTT) && negb (id_len (dst_conn_id h) =? short_conn_id_len)) then 0
  else if type h =? QUIC_PKT_TYPE_1RTT then
    if negb (id_len (dst_conn_id h) =? short_conn_id_len) || (QUIC_MAX_CONN_ID_LEN <? short_conn_id_len) || negb (pn_len_ok h) then 0
    else to_int (1 + short_conn_id_len + pn_len h)
  else if (QUIC_MAX_CONN_ID_LEN <? id_len (dst_conn_id h)) || (QUIC_MAX_CONN_ID_LEN <? id_len (src_conn_id h)) then 0
  else
    let n := 1 + 4 + 1 + id_len (dst_conn_id h) + 1 + id_len (src_conn_id h) in
    if ossl_quic_pkt_type_has_pn (type h) && negb (pn_len_ok h) then 0
    else
      let n := if ossl_quic_pkt_type_has_pn (type h) then n + pn_len h else n in
      if (type h =? QUIC_PKT_TYPE_INITIAL) && (ossl_quic_vlint_encode_len (token_len h) =? 0) then 0
      else
        let n := if type h =? QUIC_PKT_TYPE_INITIAL then u64 (n + (ossl_quic_vlint_encode_len (token_len h) + token_len h)) else n in
        if ossl_quic_pkt_type_must_be_last (type h) then to_int n
        else
          let enclen := ossl_quic_vlint_encode_len (u64 (len h + pn_len h)) in
          if enclen =? 0 then 0 else to_int (u64 (n + enclen)).

(** ** The destination of a packet *)

(** [buf[i]]. *)
Definition at_byte (buf : list Z) (i : nat) : res Z := match buf !! i with Some b => Ret b | None => Undef end.
(** [memcpy(dst, buf + off, n)]. *)
Definition copy_from (buf : list Z) (off : nat) (n : Z) : res (list Z) :=
  if (off + Z.to_nat n <=? length buf)%nat then Ret (take (Z.to_nat n) (drop off buf)) else Undef.

Definition ossl_quic_wire_get_pkt_hdr_dst_conn_id (buf : list Z) (buf_len short_conn_id_len : Z) : res (list Z) :=
  if (buf_len <? QUIC_MIN_VALID_PKT_LEN) || (QUIC_MAX_CONN_ID_LEN <? short_conn_id_len) then Err
  else
    match at_byte buf 0, at_byte buf 1, at_byte buf 2, at_byte buf 3, at_byte buf 4, at_byte buf 5 with
    | Ret b0, Ret b1, Ret b2, Ret b3, Ret b4, Ret blen =>
        if negb (Z.land b0 0x80 =? 0) then
          if negb ((b1 =? 0) && (b2 =? 0) && (b3 =? 0) && (b4 =? 0)) && (Z.land b0 0x40 =? 0) then Err
          else if (QUIC_MAX_CONN_ID_LEN <? blen) || (buf_len <? QUIC_MIN_VALID_PKT_LEN + blen) then Err
          else copy_from buf 6 blen
        else if Z.land b0 0x40 =? 0 then Err
        else if buf_len <? QUIC_MIN_VALID_PKT_LEN_CRYPTO + short_conn_id_len then Err
        else copy_from buf 1 short_conn_id_len
    | _, _, _, _, _, _ => Undef
    end.

(** ** Packet numbers *)

(** The value of an expression of type [int64_t], absent on overflow; the
    conversion of an unsigned value. *)
Definition i64 (x : Z) : option Z := if bool_decide (- 2 ^ 63 <= x < 2 ^ 63) then Some x else None.
Definition to_i64 (x : Z) : Z := (x + 2 ^ 63) mod 2 ^ 64 - 2 ^ 63.

Definition truncated_pn (enc_pn : list Z) (enc_pn_len : Z) : option Z :=
  match enc_pn_len, enc_pn with
  | 1, a :: _ => Some a
  | 2, a :: b :: _ => Some (Z.lor (Z.shiftl a 8) b)
  | 3, a :: b :: c :: _ => Some (Z.lor (Z.lor (Z.shiftl a 16) (Z.shiftl b 8)) c)
  | 4, a :: b :: c :: d :: _ => Some (Z.lor (Z.lor (Z.lor (Z.shiftl a 24) (Z.shiftl b 16)) (Z.shiftl c 8)) d)
  | _, _ => None
  end.

Definition candidate (expected_pn truncated pn_win : Z) : option Z :=
  let pn_hwin := pn_win / 2 in
  let candidate_pn := Z.lor (Z.land expected_pn (Z.lnot (pn_win - 1))) truncated in
  lo ← i64 (expected_pn - pn_hwin);
  if (candidate_pn <=? lo) && (candidate_pn <? Z.shiftl 1 62 - pn_win) then i64 (candidate_pn + pn_win)
  else
    hi ← i64 (expected_pn + pn_hwin);
    if (hi <? candidate_pn) && (pn_win <=? candidate_pn) then i64 (candidate_pn - pn_win) else Some candidate_pn.

(** [*res_pn]; [Undef] for a load outside [enc_pn] or an overflow. *)
Definition ossl_quic_wire_decode_pkt_hdr_pn (enc_pn : list Z) (enc_pn_len largest_pn : Z) : res Z :=
  if negb ((1 <=? enc_pn_len) && (enc_pn_len <=? 4)) then Err
  else
    match (t ← truncated_pn enc_pn enc_pn_len; candidate (to_i64 (u64 (largest_pn + 1))) t (Z.shiftl 1 (enc_pn_len * 8))) with
    | Some v => Ret (u64 v)
    | None => Undef
    end.

Definition ossl_quic_wire_determine_pn_len (pn largest_acked : Z) : Z :=
  let num_unacked := if largest_acked =? QUIC_PN_INVALID then u64 (pn + 1) else u64 (pn - largest_acked) in
  if num_unacked <=? Z.shiftl 1 7 then 1
  else if num_unacked <=? Z.shiftl 1 15 then 2
  else if num_unacked <=? Z.shiftl 1 23 then 3
  else 4.

(** The bytes stored to [enc_pn]. *)
Definition ossl_quic_wire_encode_pkt_hdr_pn (pn enc_pn_len : Z) : option (list Z) :=
  match enc_pn_len with
  | 1 => Some [u8 pn]
  | 2 => Some [u8 (Z.shiftr pn 8); u8 pn]
  | 3 => Some [u8 (Z.shiftr pn 16); u8 (Z.shiftr pn 8); u8 pn]
  | 4 => Some [u8 (Z.shiftr pn 24); u8 (Z.shiftr pn 16); u8 (Z.shiftr pn 8); u8 pn]
  | _ => None
  end.

End QuicWirePkt.
