(* ===== verification/QuicWirePktSpec.v ===== *)
(** * What packet headers promise

    Packet numbers survive truncation, headers and their protection round-trip,
    and a receiver that removes the protection of a packet sees the header that
    was sent. *)
From Stdlib Require Import ZArith Lia.
From stdpp Require Import base tactics list.
From S2P Require Import Prelude QuicVlint Packet BufMem WPacket QuicWire QuicWirePkt.
Import Vlint QuicWirePkt.
#[local] Open Scope Z_scope.

Module QuicWirePktSpec.

(** ** Packet numbers *)

Lemma land_lnot_ones x n : 0 <= n -> Z.land x (Z.lnot (2 ^ n - 1)) = x / 2 ^ n * 2 ^ n.
Proof.
  intros Hn. replace (2 ^ n - 1) with (Z.ones n) by (rewrite Z.ones_equiv; lia).
  rewrite <- Z.ldiff_land, Z.ldiff_ones_r, Z.shiftl_mul_pow2, Z.shiftr_div_pow2 by lia. done.
Qed.

(** The candidate in the window around the expected number is the packet number. *)
Lemma candidate_closest e pn n : 0 < n <= 32 -> 0 <= e <= 2 ^ 62 -> 0 <= pn < 2 ^ 62 ->
  e - 2 ^ (n - 1) < pn <= e + 2 ^ (n - 1) -> candidate e (pn mod 2 ^ n) (2 ^ n) = Some pn.
Proof.
  intros Hn He Hpn Hw. unfold candidate. rewrite land_lnot_ones by lia.
  assert (E2 : 2 ^ n = 2 * 2 ^ (n - 1)) by (rewrite <- Z.pow_succ_r by lia; f_equal; lia).
  assert (Hh : 2 ^ n / 2 = 2 ^ (n - 1)) by (rewrite E2, Z.mul_comm; by apply Z.div_mul). rewrite Hh.
  assert (Hmax : 2 ^ n <= 2 ^ 32) by (apply Z.pow_le_mono_r; lia). assert (Hpos : 0 < 2 ^ (n - 1)) by (apply Z.pow_pos_nonneg; lia).
  set (h := 2 ^ (n - 1)) in *. set (w := 2 ^ n) in *. change (Z.shiftl 1 62) with (2 ^ 62).
  assert (Ec : Z.lor (e / w * w) (pn mod w) = e / w * w + pn mod w).
  { pose proof (lor_shiftl_add (e / w) (pn mod w) n ltac:(lia) (Z.mod_pos_bound pn w ltac:(lia))) as H. by rewrite Z.shiftl_mul_pow2 in H by lia. }
  rewrite Ec. pose proof (Z.mod_pos_bound pn w ltac:(lia)) as Ht. pose proof (Z.div_mod pn w ltac:(lia)) as Ep.
  pose proof (Z.mod_pos_bound e w ltac:(lia)) as He2. pose proof (Z.div_mod e w ltac:(lia)) as Ee.
  set (c := e / w * w + pn mod w) in *. assert (Hc : pn = c + (pn / w - e / w) * w) by (unfold c; nia).
  assert (Hk : pn / w - e / w = -1 \/ pn / w - e / w = 0 \/ pn / w - e / w = 1) by (unfold c in *; nia).
  assert (Hi : forall x, - 2 ^ 63 <= x < 2 ^ 63 -> i64 x = Some x) by (intros; unfold i64; by rewrite bool_decide_eq_true_2).
  clearbody c. rewrite (Hi (e - h)) by lia. cbn [mbind option_bind].
  destruct Hk as [Hk|[Hk|Hk]]; rewrite Hk in Hc.
  - destruct (Z.leb_spec c (e - h)); [lia|]. cbn [andb]. rewrite (Hi (e + h)) by lia. cbn [mbind option_bind].
    destruct (Z.ltb_spec (e + h) c); [|lia]. destruct (Z.leb_spec w c); [|lia]. cbn [andb]. rewrite Hi by lia. f_equal. lia.
  - destruct (Z.leb_spec c (e - h)); [lia|]. cbn [andb]. rewrite (Hi (e + h)) by lia. cbn [mbind option_bind].
    destruct (Z.ltb_spec (e + h) c); [lia|]. cbn [andb]. f_equal. lia.
  - destruct (Z.leb_spec c (e - h)); [|lia]. destruct (Z.ltb_spec c (2 ^ 62 - w)); [|lia]. cbn [andb]. rewrite Hi by lia. f_equal. lia.
Qed.

Lemma encode_pn_bytes pn n : (1 <= n <= 4)%nat -> ossl_quic_wire_encode_pkt_hdr_pn pn (Z.of_nat n) = Some (be_bytes n pn).
Proof. intros Hn. assert (H : n = 1%nat \/ n = 2%nat \/ n = 3%nat \/ n = 4%nat) by lia. destruct H as [->|[->|[->| ->]]]; cbn; by rewrite ?Z.shiftr_0_r. Qed.

Lemma truncated_be bs n rest : length bs = n -> bytes bs -> (1 <= n <= 4)%nat -> truncated_pn (bs ++ rest) (Z.of_nat n) = Some (be_val bs).
Proof.
  intros Hl Hb Hn.
  destruct bs as [|a [|b [|c [|d [|? ?]]]]]; cbn in Hl; subst n; try lia;
    repeat match goal with H : Forall _ (_ :: _) |- _ => apply Forall_cons in H as [? ?] end; unfold is_u8 in *;
    unfold truncated_pn, be_val; cbn [Z.of_nat Pos.of_succ_nat Pos.succ app length]; f_equal;
    rewrite <- ?Z.lor_assoc, ?(Z.mul_0_r 8), ?Z.pow_0_r;
    try (rewrite (lor_shiftl_add c _ 8) by lia); try (rewrite (lor_shiftl_add b _ 16) by lia); try (rewrite (lor_shiftl_add b _ 8) by lia);
    try (rewrite lor_shiftl_add by lia);
    change (8 * Z.of_nat 1) with 8; change (8 * Z.of_nat 2) with 16; change (8 * Z.of_nat 3) with 24; lia.
Qed.

(** The number a packet number stands for: none is one less than the first. *)
Definition pn_or_none (pn : Z) : Z := if pn =? QUIC_PN_INVALID then -1 else pn.

(** C23: packet numbers survive truncation (RFC 9000 A.2, A.3).  The sender
    shortens the number [pn] as the largest number acknowledged to it allows; a
    receiver that has processed at least that number, with the packet late by
    less than half the window of the encoding, gets [pn] back, whatever follows
    the bytes of the number; it is enough that at most 2^31 packets are
    unacknowledged. *)
Theorem pkt_pn_roundtrip pn largest_acked largest_pn rest :
  is_u64 largest_acked -> is_u64 largest_pn -> pn < 2 ^ 62 -> pn_or_none largest_pn < 2 ^ 62 ->
  pn_or_none largest_acked < pn -> pn - pn_or_none largest_acked <= 2 ^ 31 -> pn_or_none largest_acked <= pn_or_none largest_pn ->
  let n := ossl_quic_wire_determine_pn_len pn largest_acked in
  pn_or_none largest_pn + 1 < pn + 2 ^ (8 * n - 1) ->
  exists bs, ossl_quic_wire_encode_pkt_hdr_pn pn n = Some bs /\ ossl_quic_wire_decode_pkt_hdr_pn (bs ++ rest) n largest_pn = Ret pn.
Proof.
  intros Ha Hl Hpn Hlm Hap Hun Hal n Hlate. unfold is_u64 in *.
  assert (Hla : -1 <= pn_or_none largest_acked) by (unfold pn_or_none; case_match; lia).
  set (k := pn - pn_or_none largest_acked) in *.
  assert (Hk : (if largest_acked =? QUIC_PN_INVALID then u64 (pn + 1) else u64 (pn - largest_acked)) = k).
  { unfold k, pn_or_none in *. destruct (largest_acked =? QUIC_PN_INVALID); rewrite u64_id; unfold is_u64; lia. }
  assert (Hn : 1 <= n <= 4 /\ k <= 2 ^ (8 * n - 1)).
  { unfold n, ossl_quic_wire_determine_pn_len. rewrite Hk. change (Z.shiftl 1 7) with 128. change (Z.shiftl 1 15) with 32768.
    change (Z.shiftl 1 23) with 8388608.
    destruct (Z.leb_spec k 128); [|destruct (Z.leb_spec k 32768); [|destruct (Z.leb_spec k 8388608)]]; (split; [lia|]);
      (etrans; [eassumption|done]). }
  clearbody n. destruct Hn as [Hn Hkn]. assert (En : exists m, n = Z.of_nat m /\ (1 <= m <= 4)%nat) by (exists (Z.to_nat n); lia).
  destruct En as (m & -> & Hm). exists (be_bytes m pn). split; [by apply encode_pn_bytes|].
  unfold ossl_quic_wire_decode_pkt_hdr_pn. destruct (Z.leb_spec 1 (Z.of_nat m)); [|lia]. destruct (Z.leb_spec (Z.of_nat m) 4); [|lia].
  cbn [andb negb]. rewrite truncated_be; [|by rewrite length_be_bytes|apply bytes_be_bytes|done]. cbn [mbind option_bind].
  rewrite be_val_be_bytes, Z.shiftl_mul_pow2, Z.mul_1_l, (Z.mul_comm (Z.of_nat m)) by lia.
  assert (Ee : to_i64 (u64 (largest_pn + 1)) = pn_or_none largest_pn + 1).
  { clear - Hl Hlm. revert Hlm. unfold pn_or_none, QUIC_PN_INVALID. destruct (Z.eqb_spec largest_pn UINT64_MAX) as [->|]; [done|]. intros Hlm.
    rewrite u64_id by (unfold is_u64; lia). unfold to_i64. rewrite Z.mod_small; lia. }
  assert (Hlo : -1 <= pn_or_none largest_pn) by (unfold pn_or_none; destruct (largest_pn =? QUIC_PN_INVALID); lia).
  rewrite Ee, candidate_closest; try lia. rewrite u64_id; [done|]. unfold is_u64. lia.
Qed.

(** ** Header protection *)

Lemma xor_keeps b x y c : Z.land y c = 0 -> Z.land (Z.lxor b (Z.land x y)) c = Z.land b c.
Proof.
  intros H. apply Z.bits_inj'. intros i Hi. rewrite !Z.land_spec, Z.lxor_spec, Z.land_spec.
  assert (Hb : Z.testbit y i && Z.testbit c i = false) by (by rewrite <- Z.land_spec, H, Z.bits_0).
  destruct (Z.testbit b i), (Z.testbit x i), (Z.testbit y i), (Z.testbit c i); done.
Qed.

(** The bits of the first byte that are not protected. *)
Lemma first_keeps mask b c : Z.land (if Z.land b 0x80 =? 0 then 0x1f else 0xf) c = 0 ->
  Z.land (xor_first mask b) c = Z.land b c.
Proof. intros H. unfold xor_first. by apply xor_keeps. Qed.

Lemma first_form mask b : Z.land (xor_first mask b) 0x80 = Z.land b 0x80.
Proof. apply first_keeps. by destruct (_ =? _). Qed.

Lemma xor_first_invol mask b : xor_first mask (xor_first mask b) = b.
Proof.
  unfold xor_first at 1. rewrite first_form. unfold xor_first.
  by rewrite Z.lxor_assoc, Z.lxor_nilpotent, Z.lxor_0_r.
Qed.

Lemma xor_pn_length n mask l : (n < length mask)%nat -> (n <= length l)%nat -> length (xor_pn n mask l) = length l.
Proof. intros. unfold xor_pn. rewrite length_app, length_zip_with, !length_drop, length_take. lia. Qed.

Lemma zip_xor_invol (l m : list Z) : (length l <= length m)%nat -> zip_with Z.lxor (zip_with Z.lxor l m) m = l.
Proof.
  revert m. induction l as [|a l IH]; intros [|b m] H; cbn in *; try done; [lia|].
  rewrite Z.lxor_assoc, Z.lxor_nilpotent, Z.lxor_0_r, IH by lia. done.
Qed.

Lemma xor_pn_invol n mask l : (n < length mask)%nat -> (n <= length l)%nat -> xor_pn n mask (xor_pn n mask l) = l.
Proof.
  intros Hm Hl. unfold xor_pn.
  assert (E : length (zip_with Z.lxor (take n l) (drop 1 mask)) = n) by (rewrite length_zip_with, length_take, length_drop; lia).
  rewrite take_app_length', drop_app_length', zip_xor_invol by (rewrite ?length_take, ?length_drop; lia). apply take_drop.
Qed.

Lemma u8_lxor a b : is_u8 a -> is_u8 b -> is_u8 (Z.lxor a b).
Proof.
  unfold is_u8. change UINT8_MOD with (2 ^ 8). intros Ha Hb. destruct (Z.eq_dec (Z.lxor a b) 0) as [->|Hn]; [lia|].
  assert (0 <= Z.lxor a b) by (apply Z.lxor_nonneg; lia). split; [done|]. apply Z.log2_lt_pow2; [lia|].
  eapply Z.le_lt_trans; [apply Z.log2_lxor; lia|]. apply Z.max_lub_lt.
  - destruct (Z.eq_dec a 0) as [->|]; [done|]. apply Z.log2_lt_pow2; lia.
  - destruct (Z.eq_dec b 0) as [->|]; [done|]. apply Z.log2_lt_pow2; lia.
Qed.

Lemma zip_lxor_bytes (x y : list Z) : bytes x -> bytes y -> bytes (zip_with Z.lxor x y).
Proof. intros Hx. revert y. induction Hx as [|a x Ha _ IH]; intros [|b y] Hy; cbn; try constructor; apply Forall_cons in Hy as [Hb Hy]; auto using u8_lxor. Qed.

Lemma xor_pn_bytes n mask l : bytes mask -> bytes l -> bytes (xor_pn n mask l).
Proof. intros Hm Hl. unfold xor_pn. apply Forall_app. split; [apply zip_lxor_bytes; [by apply Forall_take|by apply Forall_drop]|by apply Forall_drop]. Qed.

Lemma xor_first_u8 mask b : is_u8 b -> is_u8 (xor_first mask b).
Proof.
  intros Hb. unfold xor_first. apply u8_lxor; [done|]. unfold is_u8. set (x := nth 0 mask 0).
  change 0x1f with (Z.ones 5). change 0xf with (Z.ones 4). destruct (_ =? _); rewrite Z.land_ones by lia;
    [pose proof (Z.mod_pos_bound x (2 ^ 5) ltac:(lia))|pose proof (Z.mod_pos_bound x (2 ^ 4) ltac:(lia))]; lia.
Qed.

(** ** The wire format *)
Abbreviation vl := ossl_quic_vlint_encode.

Definition token_bytes (h : QUIC_PKT_HDR) : list Z :=
  if type h =? QUIC_PKT_TYPE_INITIAL then vl (token_len h) ++ take (Z.to_nat (token_len h)) (default [] (token h)) else [].
(** What comes between the first byte and the packet number. *)
Definition prefix (h : QUIC_PKT_HDR) : list Z :=
  if type h =? QUIC_PKT_TYPE_1RTT then dst_conn_id h
  else be_bytes 4 (version h) ++ [id_len (dst_conn_id h)] ++ dst_conn_id h ++ [id_len (src_conn_id h)] ++ src_conn_id h ++
       (if ossl_quic_pkt_type_has_pn (type h) then token_bytes h ++ vl (len h + pn_len h) else []).
Definition first_byte (h : QUIC_PKT_HDR) : Z :=
  if type h =? QUIC_PKT_TYPE_1RTT then b0_short h else b0_long h (default 0 (type_to_raw h)).
Definition pn_bytes (h : QUIC_PKT_HDR) : list Z := take (Z.to_nat (pn_len h)) (pn h).
Definition hdr_bytes (h : QUIC_PKT_HDR) : list Z := first_byte h :: prefix h ++ pn_bytes h.

(** A complete header, as the functions of the header file describe it; fields
    that a type of packet does not have are zero. *)
Record fields_ok (short_conn_id_len : Z) (h : QUIC_PKT_HDR) : Prop := {
  ho_type : 1 <= type h <= 6;
  ho_full : partial h = false;
  ho_ids : bytes (dst_conn_id h) /\ bytes (src_conn_id h) /\ id_len (dst_conn_id h) <= 20 /\ id_len (src_conn_id h) <= 20;
  ho_pn : exists bs, bytes bs /\ Z.of_nat (length bs) = pn_len h /\ pn h = bs ++ drop (length bs) zero_pn /\
    if ossl_quic_pkt_type_has_pn (type h) then 1 <= pn_len h <= 4 else pn_len h = 0;
  ho_bits : 0 <= reserved h < 4 /\ 0 <= unused h < 16 /\ (ossl_quic_pkt_type_has_pn (type h) = false -> reserved h = 0) /\
    (type h <> QUIC_PKT_TYPE_RETRY -> unused h = 0) /\ (type h <> QUIC_PKT_TYPE_1RTT -> spin_bit h = false /\ key_phase h = false) /\
    (type h <> QUIC_PKT_TYPE_VERSION_NEG -> fixed h = true);
  ho_short : type h = QUIC_PKT_TYPE_1RTT -> version h = 0 /\ src_conn_id h = [] /\ id_len (dst_conn_id h) = short_conn_id_len;
  ho_version : type h <> QUIC_PKT_TYPE_1RTT -> version h = (if type h =? QUIC_PKT_TYPE_VERSION_NEG then 0 else QUIC_VERSION_1);
  ho_token : if type h =? QUIC_PKT_TYPE_INITIAL
    then 0 <= token_len h <= OSSL_QUIC_VLINT_MAX /\
         (if token_len h =? 0 then token h = None else exists t, token h = Some t /\ bytes t /\ token_len h <= Z.of_nat (length t))
    else token h = None /\ token_len h = 0;
  ho_max : 0 <= len h /\ len h + pn_len h <= OSSL_QUIC_VLINT_MAX
}.

(** A header with its payload.  A packet with a packet number is long enough for
    a sample, a Retry packet for its tag. *)
Record hdr_ok (short_conn_id_len : Z) (h : QUIC_PKT_HDR) : Prop := {
  ho_fields :> fields_ok short_conn_id_len h;
  ho_len : len h + pn_len h <= OSSL_QUIC_VLINT_MAX /\ (type h = QUIC_PKT_TYPE_VERSION_NEG -> len h mod 4 = 0) /\
    (type h = QUIC_PKT_TYPE_RETRY -> 16 <= len h) /\ (ossl_quic_pkt_type_has_pn (type h) = true -> 20 <= len h + pn_len h);
  ho_data : exists d, data h = Some d /\ bytes d /\ Z.of_nat (length d) = len h
}.

(** The first byte. *)
Lemma range4 x : 0 <= x < 4 -> x = 0 \/ x = 1 \/ x = 2 \/ x = 3.
Proof. lia. Qed.
Lemma range6 x : 1 <= x <= 6 -> x = 1 \/ x = 2 \/ x = 3 \/ x = 4 \/ x = 5 \/ x = 6.
Proof. lia. Qed.

Lemma b0_short_bits short h : fields_ok short h -> type h = QUIC_PKT_TYPE_1RTT -> let b := b0_short h in
  is_u8 b /\ Z.land b 0x80 = 0 /\ (Z.land b 0x40 =? 0) = false /\ negb (Z.land b 0x20 =? 0) = spin_bit h /\
  negb (Z.land b 0x04 =? 0) = key_phase h /\ Z.land b 0x03 + 1 = pn_len h /\ Z.shiftr (Z.land b 0x18) 3 = reserved h.
Proof.
  intros Hh Ht. destruct (ho_bits _ _ Hh) as ([H1 H2] & _). destruct (ho_pn _ _ Hh) as (_ & _ & _ & _ & Hp).
  rewrite Ht in Hp. cbn in Hp. cbn zeta. unfold b0_short.
  destruct (range4 (reserved h) (conj H1 H2)) as [->|[->|[->| ->]]]; destruct (range4 (pn_len h - 1) ltac:(lia)) as [E|[E|[E|E]]];
    rewrite E; (replace (pn_len h) with (pn_len h - 1 + 1) by lia); rewrite E; destruct (spin_bit h), (key_phase h); vm_compute;
    split_and!; congruence.
Qed.

Lemma b0_long_bits short h : fields_ok short h -> type h <> QUIC_PKT_TYPE_1RTT -> let b := b0_long h (default 0 (type_to_raw h)) in
  is_u8 b /\ (Z.land b 0x80 =? 0) = false /\ negb (Z.land b 0x40 =? 0) = (negb (type h =? QUIC_PKT_TYPE_VERSION_NEG) || fixed h) /\
  is_Some (type_to_raw h) /\
  (type h <> QUIC_PKT_TYPE_VERSION_NEG -> raw_to_type (Z.land (Z.shiftr b 4) 0x3) = type h) /\
  (type h = QUIC_PKT_TYPE_RETRY -> Z.land b 0x0f = unused h) /\
  (ossl_quic_pkt_type_has_pn (type h) = true -> Z.land b 0x03 + 1 = pn_len h /\ Z.shiftr (Z.land b 0x0c) 2 = reserved h).
Proof.
  intros Hh Ht. destruct (ho_bits _ _ Hh) as (Hr & Hu & Hr0 & Hu0 & _). destruct (ho_pn _ _ Hh) as (_ & _ & _ & _ & Hp).
  pose proof (ho_version _ _ Hh Ht) as Hv. pose proof (range6 _ (ho_type _ _ Hh)) as Hty. cbn zeta. unfold b0_long, type_to_raw. rewrite Hv.
  destruct Hty as [E|[E|[E|[E|[E|E]]]]]; rewrite E in *; try done.
  1-3: destruct (range4 (reserved h) Hr) as [->|[->|[->| ->]]]; destruct (range4 (pn_len h - 1) ltac:(cbn in Hp; lia)) as [E1|[E1|[E1|E1]]];
    (replace (pn_len h) with (pn_len h - 1 + 1) by lia); rewrite E1; vm_compute; split_and!; (done || by eexists).
  - assert (Hx : exists n, (n < 16)%nat /\ unused h = Z.of_nat n) by (exists (Z.to_nat (unused h)); lia).
    destruct Hx as (n & Hn & ->). clear - Hn. do 16 (destruct n as [|n]; [vm_compute; split_and!; (done || by eexists)|]). lia.
  - destruct (fixed h); vm_compute; split_and!; (done || by eexists).
Qed.

(** ** Decoding *)
Abbreviation mkP := Packet.mkPacket.

(** The bytes of the packet number that a decoder passes. *)
Definition pn_skip (is_partial : bool) (n : Z) : nat := if is_partial then 4 else Z.to_nat n.
Definition pn_field (is_partial : bool) (n : Z) (q : list Z) : list Z :=
  if is_partial then zero_pn else take (Z.to_nat n) q ++ drop (Z.to_nat n) zero_pn.

Lemma decode_pn_run is_partial n q rem : bytes q -> 0 <= n -> (pn_skip is_partial n <= length q)%nat -> Z.of_nat (pn_skip is_partial n) <= rem < UINT64_MOD ->
  decode_pn is_partial n (mkP q rem) = (Ret (pn_field is_partial n q), mkP (drop (pn_skip is_partial n) q) (rem - Z.of_nat (pn_skip is_partial n))).
Proof.
  intros Hq Hn Hl Hr. rewrite <- (take_drop (pn_skip is_partial n) q) at 1.
  assert (El : length (take (pn_skip is_partial n) q) = pn_skip is_partial n) by (rewrite length_take; lia).
  unfold decode_pn, pn_field. destruct is_partial; cbn [pn_skip] in *.
  - pose proof (Packet.forward_reads (take 4 q) (drop 4 q) rem) as H. rewrite El in H.
    erewrite bind_ret by (apply H; [lia|by apply Forall_drop]). done.
  - pose proof (Packet.copy_bytes_reads (take (Z.to_nat n) q) (drop (Z.to_nat n) q) rem) as H. rewrite El, Z2Nat.id in H by done.
    erewrite bind_ret by (apply H; [lia|by apply Forall_drop]). rewrite El, Z2Nat.id by done. done.
Qed.

(** The fields of the packet number in a first byte [b]. *)
Definition shown (is_partial : bool) (x : Z) : Z := if is_partial then 0 else x.

Lemma remaining_bind {A} (f : Z -> M Packet.PACKET A) c r : (Packet.PACKET_remaining ≫= f) (mkP c r) = f r (mkP c r).
Proof. done. Qed.
Lemma data_bind {A} (f : list Z -> M Packet.PACKET A) c r : (Packet.PACKET_data ≫= f) (mkP c r) = f c (mkP c r).
Proof. done. Qed.
Lemma ret_bind {S A B} (a : A) (f : A -> M S B) s : (mret a ≫= f) s = f a s.
Proof. done. Qed.

(** Passing all that is left. *)
Lemma forward_all {A} (f : unit -> M Packet.PACKET A) c r : r = Z.of_nat (length c) -> r < UINT64_MOD ->
  (Packet.PACKET_forward r ≫= f) (mkP c r) = f tt (mkP [] 0).
Proof.
  intros -> Hr. pose proof (Packet.forward_reads c [] (Z.of_nat (length c)) ltac:(lia) ltac:(constructor)) as H.
  rewrite app_nil_r, Z.sub_diag in H. by rewrite (bind_ret _ _ _ _ _ H).
Qed.

(** The header behind its first byte. *)
Lemma decode_first short is_partial nodata b c rem h' o s : is_u8 b -> bytes c -> QUIC_MIN_VALID_PKT_LEN <= rem < UINT64_MOD ->
  (if Z.land b 0x80 =? 0 then decode_short short is_partial b rem else decode_long is_partial nodata b rem) (mkP c (rem - 1)) = (Ret (h', o), s) ->
  ossl_quic_wire_decode_pkt_hdr short is_partial nodata (mkP (b :: c) rem) = (Ret (h', decoded_ptrs rem o), s).
Proof.
  intros Hb Hc Hr E. unfold QUIC_MIN_VALID_PKT_LEN in Hr. unfold ossl_quic_wire_decode_pkt_hdr. rewrite remaining_bind.
  rewrite guard_true by (apply negb_true_iff, Z.ltb_ge; unfold QUIC_MIN_VALID_PKT_LEN; lia).
  erewrite bind_ret by (apply (Packet.get_1_reads b Hb c rem); [cbn; lia|done]). by rewrite (bind_ret _ _ _ _ _ E).
Qed.

(** A short header with the first byte [b], in front of [q]. *)
Lemma decode_short_run id is_partial nodata b q rem : bytes id -> id_len id <= 20 ->
  is_u8 b -> Z.land b 0x80 = 0 -> (Z.land b 0x40 =? 0) = false -> bytes q -> 21 <= rem < UINT64_MOD ->
  rem = 1 + id_len id + Z.of_nat (length q) ->
  let n := shown is_partial (Z.land b 0x03 + 1) in let k := pn_skip is_partial n in (k <= length q)%nat ->
  ossl_quic_wire_decode_pkt_hdr (id_len id) is_partial nodata (mkP (b :: id ++ q) rem) =
    (Ret (mkHdr QUIC_PKT_TYPE_1RTT (negb (Z.land b 0x20 =? 0)) (negb is_partial && negb (Z.land b 0x04 =? 0)) n is_partial true 0
            (shown is_partial (Z.shiftr (Z.land b 0x18) 3)) 0 id [] (pn_field is_partial n q) None 0
            (Z.of_nat (length q - k)) (Some (drop k q)),
          decoded_ptrs rem (Some (1 + id_len id))), mkP [] 0).
Proof.
  intros Hd Hdl Hb H80 H40 Hq Hrem Er n k Hk. unfold id_len in *.
  assert (Hn : 0 <= n) by (unfold n, shown; destruct is_partial; [lia|]; pose proof (proj2 (Z.land_nonneg b 3)); lia).
  apply decode_first; [done|by apply Forall_app|unfold QUIC_MIN_VALID_PKT_LEN; lia|]. rewrite H80. cbn [Z.eqb]. unfold decode_short.
  rewrite guard_true by (apply negb_true_iff, Z.ltb_ge; unfold QUIC_MAX_CONN_ID_LEN; lia). rewrite H40. cbn [orb].
  rewrite guard_true by (apply negb_true_iff, Z.ltb_ge; unfold QUIC_MIN_VALID_PKT_LEN_CRYPTO; lia).
  erewrite bind_ret by (apply (Packet.copy_bytes_reads id q (rem - 1)); [lia|done]). rewrite remaining_bind.
  replace (if is_partial then 0 else Z.land b 3 + 1) with n by done.
  erewrite bind_ret by (apply decode_pn_run; [done|done|done|fold k; lia]). fold k. rewrite remaining_bind, data_bind, forward_all by (rewrite ?length_drop; lia).
  unfold mret, M_ret. do 3 f_equal; [f_equal; lia|f_equal; lia].
Qed.

Definition ids_bytes (dst src : list Z) : list Z := id_len dst :: dst ++ id_len src :: src.
Definition ids_ok (dst src : list Z) : Prop := bytes dst /\ bytes src /\ id_len dst <= 20 /\ id_len src <= 20.

Lemma id_byte id : id_len id <= 20 -> is_u8 (id_len id).
Proof. unfold id_len, is_u8. lia. Qed.

(** A long header up to its connection identifiers. *)
Lemma decode_long_run is_partial nodata b l ver dst src q rem : ids_ok dst src -> 0 <= ver < 2 ^ 32 -> (ver = 0 \/ (Z.land b 0x40 =? 0) = false) ->
  bytes q -> Z.of_nat (length (be_bytes 4 ver ++ ids_bytes dst src)) <= rem < UINT64_MOD ->
  decode_long is_partial nodata b l (mkP (be_bytes 4 ver ++ ids_bytes dst src ++ q) rem) =
    (if ver =? 0 then decode_version_neg b dst src else guard_ (ver =? QUIC_VERSION_1);; decode_long_v1 is_partial nodata b l ver dst src)
      (mkP q (rem - Z.of_nat (length (be_bytes 4 ver ++ ids_bytes dst src)))).
Proof.
  intros (Hd & Hs & Hdl & Hsl) Hv H40 Hq Hr. unfold ids_bytes in *.
  rewrite length_app, length_be_bytes in Hr |- *. cbn [length] in Hr |- *. rewrite length_app in Hr |- *. cbn [length] in Hr |- *.
  pose proof (id_byte dst Hdl) as Hdb. pose proof (id_byte src Hsl) as Hsb.
  assert (Hq1 : bytes (id_len src :: src ++ q)) by (constructor; [done|by apply Forall_app]).
  assert (Hq2 : bytes (id_len dst :: dst ++ id_len src :: src ++ q)) by (constructor; [done|by apply Forall_app]).
  unfold decode_long. cbn [app]. rewrite <- (app_assoc dst). cbn [app].
  erewrite bind_ret by (apply (Packet.get_net_4_reads ver Hv); [rewrite length_be_bytes; lia|done]).
  rewrite length_be_bytes. rewrite guard_true by (destruct H40 as [->| ->]; [done|by rewrite andb_false_r]).
  erewrite bind_ret by (apply (Packet.get_1_reads _ Hdb); [cbn; lia|by apply Forall_cons in Hq2 as [_ ?]]).
  rewrite guard_true by (apply negb_true_iff, Z.ltb_ge; unfold QUIC_MAX_CONN_ID_LEN; lia). cbn [length].
  erewrite bind_ret by (apply (Packet.copy_bytes_reads dst); [lia|done]).
  erewrite bind_ret by (apply (Packet.get_1_reads _ Hsb); [cbn; lia|by apply Forall_cons in Hq1 as [_ ?]]).
  rewrite guard_true by (apply negb_true_iff, Z.ltb_ge; unfold QUIC_MAX_CONN_ID_LEN; lia). cbn [length].
  erewrite bind_ret by (apply (Packet.copy_bytes_reads src); [lia|done]).
  replace (rem - Z.of_nat 4 - Z.of_nat 1 - Z.of_nat (length dst) - Z.of_nat 1 - Z.of_nat (length src))
    with (rem - Z.of_nat (4 + S (length dst + S (length src)))) by lia. by destruct (ver =? 0).
Qed.

(** What a decoder makes of the token, in front of [q]. *)
Definition token_seen (h : QUIC_PKT_HDR) (q : list Z) : option (list Z) :=
  if (type h =? QUIC_PKT_TYPE_INITIAL) && negb (token_len h =? 0) then Some (take (Z.to_nat (token_len h)) (default [] (token h)) ++ q) else None.

Lemma token_take short h : fields_ok short h -> type h = QUIC_PKT_TYPE_INITIAL ->
  let t := take (Z.to_nat (token_len h)) (default [] (token h)) in Z.of_nat (length t) = token_len h /\ bytes t.
Proof.
  intros Hh Ht t. pose proof (ho_token _ _ Hh) as H. rewrite Ht in H. cbn in H. destruct H as [Hr H]. unfold t.
  destruct (Z.eqb_spec (token_len h) 0) as [E|E].
  - rewrite E. split; [done|constructor].
  - destruct H as (t0 & -> & Hb & Hl). cbn. rewrite length_take. split; [lia|by apply Forall_take].
Qed.

Lemma token_len_zero short h : fields_ok short h -> type h <> QUIC_PKT_TYPE_INITIAL -> token_len h = 0.
Proof. intros Hh Ht. pose proof (ho_token _ _ Hh) as H. destruct (Z.eqb_spec (type h) QUIC_PKT_TYPE_INITIAL); [done|]. by destruct H. Qed.

Lemma bytes_token short h : fields_ok short h -> bytes (token_bytes h).
Proof.
  intros Hh. unfold token_bytes. destruct (Z.eqb_spec (type h) QUIC_PKT_TYPE_INITIAL) as [E|E]; [|constructor].
  apply Forall_app. split; [apply Packet.bytes_encode|]. by apply (token_take _ _ Hh E).
Qed.

Lemma decode_token_run short h q rem : fields_ok short h -> bytes q -> Z.of_nat (length (token_bytes h)) <= rem < UINT64_MOD ->
  decode_token (type h) (mkP (token_bytes h ++ q) rem) =
    (Ret (token_seen h q, token_len h), mkP q (rem - Z.of_nat (length (token_bytes h)))).
Proof.
  intros Hh Hq Hr. unfold decode_token, token_bytes, token_seen in *. destruct (Z.eqb_spec (type h) QUIC_PKT_TYPE_INITIAL) as [E|E].
  - destruct (token_take _ _ Hh E) as [Hl Hb]. pose proof (ho_token _ _ Hh) as H. rewrite E in H. cbn in H. destruct H as [Hv _].
    set (t := take _ _) in *. rewrite length_app in Hr |- *. rewrite <- app_assoc.
    erewrite bind_ret by (apply (Packet.get_vlint_reads _ Hv); [lia|by apply Forall_app]).
    rewrite guard_true by (apply negb_true_iff, Z.ltb_ge; unfold OSSL_QUIC_VLINT_MAX in Hv; lia).
    pose proof (Packet.get_bytes_reads t q (rem - Z.of_nat (length (vl (token_len h))))) as H. rewrite Hl in H.
    erewrite bind_ret by (apply H; [lia|done]). unfold mret, M_ret. cbn [andb]. destruct (token_len h =? 0); cbn [negb]; do 2 f_equal; lia.
  - cbn [andb]. rewrite (token_len_zero _ _ Hh E). cbn. by rewrite Z.sub_0_r.
Qed.

(** The packet number and the payload. *)
Abbreviation plen h := (len h + pn_len h).

Lemma pn_small b : 1 <= Z.land b 0x03 + 1 <= 4.
Proof. change 0x03 with (Z.ones 2). rewrite Z.land_ones by lia. pose proof (Z.mod_pos_bound b (2 ^ 2)). lia. Qed.

Lemma skip_small is_partial b : (pn_skip is_partial (shown is_partial (Z.land b 0x03 + 1)) <= 4)%nat.
Proof. pose proof (pn_small b). unfold pn_skip, shown. destruct is_partial; lia. Qed.

Lemma decode_v1_run short h is_partial b l dst src q rem : hdr_ok short h -> ossl_quic_pkt_type_has_pn (type h) = true ->
  raw_to_type (Z.land (Z.shiftr b 4) 0x3) = type h -> 21 <= l -> bytes q -> plen h <= Z.of_nat (length q) ->
  rem = Z.of_nat (length (token_bytes h ++ vl (plen h) ++ q)) -> rem < UINT64_MOD ->
  let n := shown is_partial (Z.land b 0x03 + 1) in let k := pn_skip is_partial n in
  decode_long_v1 is_partial false b l QUIC_VERSION_1 dst src (mkP (token_bytes h ++ vl (plen h) ++ q) rem) =
    (Ret (mkHdr (type h) false false n is_partial true 0 (shown is_partial (Z.shiftr (Z.land b 0x0c) 2)) QUIC_VERSION_1 dst src
            (pn_field is_partial n q) (token_seen h (vl (plen h) ++ q)) (token_len h) (plen h - Z.of_nat k) (Some (drop k q)),
          Some (l - Z.of_nat (length q))),
     mkP (drop (Z.to_nat (plen h)) q) (Z.of_nat (length q) - plen h)).
Proof.
  intros Hh Hpn Hty Hl Hq Hp Er Hrem n k. destruct (ho_len _ _ Hh) as (Hmax & _ & _ & H20). specialize (H20 Hpn).
  pose proof (skip_small is_partial b) as Hk. fold n in Hk. fold k in Hk. pose proof (pn_small b) as Hsm.
  rewrite !length_app, !Nat2Z.inj_add in Er. unfold decode_long_v1.
  rewrite guard_true by (apply negb_true_iff, Z.ltb_ge; unfold QUIC_MIN_VALID_PKT_LEN_CRYPTO; lia).
  rewrite Hty. erewrite bind_ret by (apply (decode_token_run short); [apply Hh|apply Forall_app; split; [apply Packet.bytes_encode|done]|lia]).
  destruct (Z.eqb_spec (type h) QUIC_PKT_TYPE_RETRY) as [Ex|_]; [by rewrite Ex in Hpn|].
  erewrite bind_ret by (apply (Packet.get_vlint_reads (plen h)); [lia..|done]). rewrite guard_true by (apply negb_true_iff, Z.ltb_ge; lia).
  rewrite remaining_bind. replace (rem - Z.of_nat (length (token_bytes h)) - Z.of_nat (length (vl (plen h)))) with (Z.of_nat (length q)) by lia.
  rewrite guard_true by (apply negb_true_iff; cbn [negb andb]; apply Z.ltb_ge; lia).
  replace (if is_partial then 0 else Z.land b 3 + 1) with n by done.
  erewrite bind_ret by (apply decode_pn_run; [done|unfold n, shown; destruct is_partial; lia|fold k; lia..]). fold k. cbv iota beta.
  replace (if is_partial then plen h - 4 else plen h - n) with (plen h - Z.of_nat k)
    by (unfold k, pn_skip, n, shown; destruct is_partial; lia).
  set (m := (Z.to_nat (plen h) - k)%nat). assert (Em : plen h - Z.of_nat k = Z.of_nat m) by lia. rewrite Em.
  erewrite bind_ret.
  2: { rewrite data_bind. pose proof (Packet.forward_reads (take m (drop k q)) (drop m (drop k q)) (Z.of_nat (length q) - Z.of_nat k)) as H.
       assert (El : length (take m (drop k q)) = m) by (rewrite length_take, length_drop; lia). rewrite El, take_drop in H.
       erewrite bind_ret by (apply H; [lia|do 2 apply Forall_drop; done]). reflexivity. }
  unfold mret, M_ret. rewrite drop_drop. f_equal. f_equal; [f_equal; lia|lia].
Qed.

(** The bits of the first byte that are not protected. *)
Definition open_bits (h : QUIC_PKT_HDR) : Z := if type h =? QUIC_PKT_TYPE_1RTT then 0xe0 else 0xf0.

Lemma land_same b c x y : Z.land b x = Z.land c x -> Z.land x y = y -> Z.land b y = Z.land c y.
Proof. intros H E. rewrite <- E, !Z.land_assoc, H. done. Qed.

(** What a decoder makes of the first byte [b] and the bytes [q] behind the
    prefix of [h]. *)
Definition seen (h : QUIC_PKT_HDR) (is_partial : bool) (b : Z) (q : list Z) : QUIC_PKT_HDR :=
  let n := shown is_partial (Z.land b 0x03 + 1) in
  let k := pn_skip is_partial n in
  mkHdr (type h) (spin_bit h) (negb is_partial && (type h =? QUIC_PKT_TYPE_1RTT) && negb (Z.land b 0x04 =? 0)) n is_partial true 0
    (shown is_partial (if type h =? QUIC_PKT_TYPE_1RTT then Z.shiftr (Z.land b 0x18) 3 else Z.shiftr (Z.land b 0x0c) 2)) (version h)
    (dst_conn_id h) (src_conn_id h) (pn_field is_partial n q) (token_seen h (vl (plen h) ++ q)) (token_len h) (plen h - Z.of_nat k)
    (Some (drop k q)).

Lemma bytes_prefix short h : fields_ok short h -> bytes (prefix h).
Proof.
  intros Hh. destruct (ho_ids _ _ Hh) as (Hd & Hs & Hdl & Hsl). unfold prefix. case_match; [done|].
  rewrite !Forall_app, !Forall_cons. split_and!; auto using id_byte, bytes_be_bytes, Forall_nil_2.
  destruct (ossl_quic_pkt_type_has_pn (type h)); [|constructor]. apply Forall_app. split; [by eapply bytes_token|apply Packet.bytes_encode].
Qed.

Lemma decode_run short h is_partial b q : hdr_ok short h -> ossl_quic_pkt_type_has_pn (type h) = true -> is_u8 b ->
  Z.land b (open_bits h) = Z.land (first_byte h) (open_bits h) -> bytes q -> plen h <= Z.of_nat (length q) ->
  (type h = QUIC_PKT_TYPE_1RTT -> plen h = Z.of_nat (length q)) ->
  let o := Z.of_nat (S (length (prefix h))) in let rem := o + Z.of_nat (length q) in rem < UINT64_MOD ->
  ossl_quic_wire_decode_pkt_hdr short is_partial false (mkP (b :: prefix h ++ q) rem) =
    (Ret (seen h is_partial b q, decoded_ptrs rem (Some o)), mkP (drop (Z.to_nat (plen h)) q) (Z.of_nat (length q) - plen h)).
Proof.
  intros Hh Hpn Hb Hbits Hq Hp Hlast o rem Hrem. pose proof (bytes_prefix _ _ Hh) as Hpre.
  destruct (ho_ids _ _ Hh) as (Hd & Hs & Hdl & Hsl). destruct (ho_len _ _ Hh) as (Hmax & _ & _ & H20). specialize (H20 Hpn).
  pose proof (skip_small is_partial b) as Hk. unfold open_bits, first_byte in Hbits.
  destruct (Z.eqb_spec (type h) QUIC_PKT_TYPE_1RTT) as [E|E].
  - destruct (b0_short_bits _ _ Hh E) as (_ & B1 & B2 & B3 & _). destruct (ho_short _ _ Hh E) as (Ev & Es & Ed).
    assert (Ep : prefix h = dst_conn_id h) by (unfold prefix; by rewrite E).
    rewrite <- Ed, Ep in *. rewrite decode_short_run; try done; unfold rem, o in *; rewrite ?Ep in *; unfold id_len; try lia.
    + rewrite (Hlast E), Z.sub_diag, Nat2Z.id, drop_all. f_equal. f_equal. f_equal.
      * unfold seen. rewrite E, Ev, Es. rewrite (token_len_zero _ _ Hh) by (by rewrite E). unfold token_seen. rewrite E. cbn [Z.eqb Pos.eqb andb].
        rewrite andb_true_r. rewrite (land_same _ _ _ 0x20 Hbits eq_refl), B3. f_equal. lia.
      * do 2 f_equal; lia.
    + by rewrite (land_same _ _ _ 0x80 Hbits eq_refl).
    + by rewrite (land_same _ _ _ 0x40 Hbits eq_refl).
  - destruct (b0_long_bits _ _ Hh E) as (_ & B1 & B2 & _ & B3 & _ & _). pose proof (ho_version _ _ Hh E) as Ev.
    assert (En : (type h =? QUIC_PKT_TYPE_VERSION_NEG) = false) by (apply Z.eqb_neq; intros Ex; by rewrite Ex in Hpn). rewrite En in Ev, B2.
    assert (Et : raw_to_type (Z.land (Z.shiftr b 4) 3) = type h).
    { rewrite <- B3 by (apply Z.eqb_neq; exact En). f_equal. change 3 with (Z.shiftr 0x30 4). rewrite <- !Z.shiftr_land. f_equal. exact (land_same _ _ _ _ Hbits eq_refl). }
    assert (Ep : prefix h = be_bytes 4 (version h) ++ ids_bytes (dst_conn_id h) (src_conn_id h) ++ token_bytes h ++ vl (plen h)).
    { unfold prefix, ids_bytes. rewrite Hpn. destruct (Z.eqb_spec (type h) QUIC_PKT_TYPE_1RTT); [done|]. cbn [app]. by rewrite <- (app_assoc (dst_conn_id h)). }
    assert (Elen : length (prefix h) = (length (be_bytes 4 (version h) ++ ids_bytes (dst_conn_id h) (src_conn_id h)) + (length (token_bytes h) + length (vl (plen h))))%nat)
      by (rewrite Ep, app_assoc, !length_app; lia).
    unfold rem, o in Hrem |- *. rewrite Elen in Hrem |- *. set (L := length (_ ++ ids_bytes _ _)) in *.
    apply decode_first; [done|by apply Forall_app|unfold QUIC_MIN_VALID_PKT_LEN; lia|].
    rewrite (land_same _ _ _ 0x80 Hbits eq_refl), B1, Ep, <- !app_assoc.
    rewrite decode_long_run; [|done|rewrite Ev; done|right; rewrite (land_same _ _ _ 0x40 Hbits eq_refl); by apply negb_true_iff|
      apply Forall_app; split; [exact (bytes_token _ _ Hh)|apply Forall_app; split; [apply Packet.bytes_encode|done]]|fold L; lia].
    rewrite Ev. cbn [Z.eqb QUIC_VERSION_1 Pos.eqb]. rewrite guard_true by done. fold L.
    rewrite (decode_v1_run short); try done; rewrite ?length_app; try lia.
    unfold seen. rewrite Ev. destruct (Z.eqb_spec (type h) QUIC_PKT_TYPE_1RTT); [done|]. rewrite andb_false_r.
    destruct (ho_bits _ _ Hh) as (_ & _ & _ & _ & Hsp & _). destruct (Hsp E) as [-> _]. do 3 f_equal. f_equal. lia.
  unfold L. rewrite !length_app, !length_be_bytes. lia.
Qed.

(** ** Encoding *)

(** [puts m bs a]: with room for [bs] in a fixed buffer, [m] appends exactly
    [bs]; the result may depend on how much was written before. *)
Definition puts {A} (m : M wst A) (bs : list Z) (a : Z -> A) : Prop :=
  forall w h, WPacket.wp_ok w -> WPacket.backed w = true -> WPacket.endfirst w = false -> WPacket.fits (w, h) (Z.of_nat (length bs)) ->
  exists w' h', m (w, h) = (Ret (a (WPacket.written w)), (w', h')) /\ WPacket.extends w w' bs /\ WPacket.all_ok h'.

Lemma puts_unit (m : M wst unit) bs : WPacket.appends m bs -> puts m bs (fun _ => tt).
Proof.
  intros Hm w h Hok Hb He Hf. destruct (Hm w h Hok Hb He) as [(s' & _ & Hn)|([] & w' & h' & E & Hx & Hh)]; [done|].
  exists w', h'. destruct Hf as (_ & _ & ? & _). auto.
Qed.

Lemma puts_bind {A} (m : M wst unit) (f : unit -> M wst A) b1 b2 a : WPacket.appends m b1 -> puts (f tt) b2 a ->
  puts (m ≫= f) (b1 ++ b2) (fun z => a (z + Z.of_nat (length b1))).
Proof.
  intros Hm Hf w h Hok Hb He Hfit. rewrite length_app, Nat2Z.inj_add in Hfit.
  destruct (puts_unit _ _ Hm w h Hok Hb He) as (w1 & h1 & E1 & Hx1 & Ha1).
  { destruct Hfit as (? & ? & ? & ?). unfold WPacket.fits. cbn in *. split_and!; try done. lia. }
  pose proof Hx1 as (Hok1 & Hfr & Hw1 & _). rewrite (bind_ret _ _ _ _ _ E1).
  destruct (Hf w1 h1 Hok1) as (w2 & h2 & E2 & Hx2 & Ha2).
  - by rewrite (WPacket.frame_backed _ _ Hfr).
  - by destruct Hfr as (_ & _ & -> & _).
  - by eapply WPacket.extends_fits.
  - exists w2, h2. rewrite Hw1 in E2. split; [done|]. split; [by eapply WPacket.extends_trans|done].
Qed.

Lemma puts_guard {A} b (f : M wst A) bs a : b = true -> puts f bs a -> puts (guard_ b;; f) bs a.
Proof. by intros ->. Qed.

Lemma puts_eq {A} (m : M wst A) bs bs' a a' : bs = bs' -> (forall z, a z = a' z) -> puts m bs a -> puts m bs' a'.
Proof. intros <- Ha Hm w h H1 H2 H3 H4. destruct (Hm w h H1 H2 H3 H4) as (w' & h' & E & ?). exists w', h'. by rewrite <- Ha. Qed.

Lemma puts_pn bs : puts (w ← WPacket.pkt; WPacket.WPACKET_memcpy bs;; mret (Some (WPacket.WPACKET_get_total_written w))) bs Some.
Proof.
  intros w h Hok Hb He Hf. rewrite WPacket.pkt_bind. cbn [fst].
  destruct (puts_unit _ _ (WPacket.memcpy_appends bs) w h Hok Hb He Hf) as (w' & h' & E & Hx & Ha).
  exists w', h'. by rewrite (bind_ret _ _ _ _ _ E).
Qed.

Lemma puts_none {A} (a : A) : puts (mret a) [] (fun _ => a).
Proof. intros w h Hok Hb He Hf. destruct (WPacket.appends_ret a w h Hok Hb He) as [(? & [=] & _)|(a' & w' & h' & [= <- <- <-] & Hx & Hh)]. exists w, h. destruct Hf as (_ & _ & ? & _). auto. Qed.

Lemma put_u32 v : 0 <= v < 2 ^ 32 -> WPacket.appends (WPacket.WPACKET_put_bytes_u32 v) (be_bytes 4 v).
Proof. intros Hv. apply (WPacket.put_bytes_appends v 4); lia. Qed.

Lemma pn_ok_true short h : fields_ok short h -> ossl_quic_pkt_type_has_pn (type h) = true -> pn_len_ok h = true.
Proof.
  intros Hh Hpn. destruct (ho_pn _ _ Hh) as (_ & _ & _ & _ & Hp). rewrite Hpn in Hp. unfold pn_len_ok.
  destruct (Z.ltb_spec (pn_len h) 1); [lia|]. by destruct (Z.ltb_spec 4 (pn_len h)); [lia|].
Qed.

Lemma encode_short_puts short h : fields_ok short h -> type h = QUIC_PKT_TYPE_1RTT ->
  puts (encode_short short h) (hdr_bytes h) (fun z => Some (z + Z.of_nat (S (length (prefix h))))).
Proof.
  intros Hh E. destruct (ho_short _ _ Hh E) as (_ & _ & Ed). destruct (ho_ids _ _ Hh) as (_ & _ & Hdl & _). unfold encode_short.
  apply puts_guard.
  { rewrite (pn_ok_true _ _ Hh) by (by rewrite E). rewrite Ed, Z.eqb_refl. unfold QUIC_MAX_CONN_ID_LEN.
    by destruct (Z.ltb_spec 20 short); [lia|]. }
  assert (Ep : prefix h = dst_conn_id h) by (unfold prefix; by rewrite E).
  eapply puts_eq, (puts_bind _ _ [b0_short h]), (puts_bind _ _ (dst_conn_id h)), puts_pn.
  - unfold hdr_bytes, first_byte. by rewrite E, Ep.
  - intros z. cbn. rewrite Ep. f_equal. lia.
  - apply QuicWire.put_u8_appends. by apply (b0_short_bits short).
  - apply WPacket.memcpy_appends.
Qed.

Lemma put_token short h : fields_ok short h ->
  WPacket.appends (if type h =? QUIC_PKT_TYPE_INITIAL then
           WPacket.WPACKET_quic_write_vlint (token_len h);;
           t ← bytes_at (token h) (token_len h);
           WPacket.WPACKET_memcpy t
         else mret tt) (token_bytes h).
Proof.
  intros Hh. unfold token_bytes. pose proof (ho_token _ _ Hh) as H. destruct (Z.eqb_spec (type h) QUIC_PKT_TYPE_INITIAL) as [E|E]; [|apply WPacket.appends_ret].
  destruct H as [Hr H]. apply WPacket.appends_bind; [by apply WPacket.write_vlint_appends|intros _]. unfold bytes_at.
  destruct (Z.eqb_spec (token_len h) 0) as [E0|E0]; [rewrite E0; exact (WPacket.memcpy_appends [])|].
  destruct H as (t & -> & _ & Hl). destruct (Z.leb_spec (token_len h) (Z.of_nat (length t))); [|lia]. exact (WPacket.memcpy_appends _).
Qed.

Lemma encode_long_puts short h : fields_ok short h -> type h <> QUIC_PKT_TYPE_1RTT ->
  puts (encode_long h) (hdr_bytes h)
    (fun z => if ossl_quic_pkt_type_has_pn (type h) then Some (z + Z.of_nat (S (length (prefix h)))) else None).
Proof.
  intros Hh E. destruct (ho_ids _ _ Hh) as (_ & _ & Hdl & Hsl). destruct (ho_max _ _ Hh) as [Hd0 Hmax].
  destruct (b0_long_bits _ _ Hh E) as (Hb & _ & _ & [raw Er] & _). rewrite Er in Hb. pose proof (ho_version _ _ Hh E) as Ev.
  destruct (ho_pn _ _ Hh) as (bs & _ & Hbl & Epn & Hp).
  unfold encode_long. unfold QUIC_MAX_CONN_ID_LEN.
  apply puts_guard. { destruct (Z.ltb_spec 20 (id_len (dst_conn_id h))); [lia|]. by destruct (Z.ltb_spec 20 (id_len (src_conn_id h))); [lia|]. }
  apply puts_guard. { destruct (ossl_quic_pkt_type_has_pn (type h)) eqn:Ex; [|done]. by rewrite (pn_ok_true _ _ Hh Ex). }
  rewrite Er. set (ids := fun tl => be_bytes 4 (version h) ++ [id_len (dst_conn_id h)] ++ dst_conn_id h ++ [id_len (src_conn_id h)] ++ src_conn_id h ++ tl).
  assert (Eb : hdr_bytes h = [b0_long h raw] ++ ids (if ossl_quic_pkt_type_has_pn (type h) then token_bytes h ++ vl (plen h) ++ pn_bytes h else pn_bytes h)).
  { unfold hdr_bytes, first_byte, prefix. rewrite Er. destruct (Z.eqb_spec (type h) QUIC_PKT_TYPE_1RTT); [done|]. unfold ids. cbn [default app].
    by destruct (ossl_quic_pkt_type_has_pn (type h)); rewrite <- !app_assoc; cbn [app]; rewrite <- !app_assoc; cbn [app]; rewrite <- !app_assoc. }
  assert (Ex : ((type h =? QUIC_PKT_TYPE_VERSION_NEG) || (type h =? QUIC_PKT_TYPE_RETRY)) = negb (ossl_quic_pkt_type_has_pn (type h))).
  { unfold ossl_quic_pkt_type_has_pn, ossl_quic_pkt_type_is_encrypted. by rewrite negb_involutive, orb_comm. }
  rewrite Ex. destruct (ossl_quic_pkt_type_has_pn (type h)) eqn:Hpn; cbn [negb]; try rewrite Hpn in Hp.
  all: eapply puts_eq; [symmetry; exact Eb| |apply puts_bind; [by apply QuicWire.put_u8_appends|]; apply puts_bind; [apply put_u32; rewrite Ev; by case_match|];
    apply puts_bind; [by apply QuicWire.put_u8_appends, id_byte|]; apply puts_bind; [apply WPacket.memcpy_appends|];
    apply puts_bind; [by apply QuicWire.put_u8_appends, id_byte|]; apply puts_bind; [apply WPacket.memcpy_appends|]].
  2: { apply puts_bind; [by eapply put_token|]. rewrite (u64_id (plen h)) by (clear - Hmax Hp Hd0; change OSSL_QUIC_VLINT_MAX with (2 ^ 62 - 1) in Hmax; unfold is_u64; lia).
       apply puts_bind; [apply WPacket.write_vlint_appends; lia|]. apply puts_pn. }
  3: { unfold pn_bytes. rewrite Hp. apply puts_none. }
  - intros z. cbn beta. f_equal. unfold prefix. rewrite Hpn. destruct (Z.eqb_spec (type h) QUIC_PKT_TYPE_1RTT); [done|].
    rewrite !length_app. cbn [length]. lia.
  - done.
Qed.

Lemma reserve_run h w hp : WPacket.wp_ok w -> 0 <= len h -> WPacket.fits (w, hp) (len h) ->
  exists w' hp', reserve_payload h (w, hp) = (Ret tt, (w', hp')) /\ WPacket.extends w w' [] /\ WPacket.all_ok hp'.
Proof.
  intros Hok Hl Hf. unfold reserve_payload. destruct (Z.ltb_spec 0 (len h)) as [Hp|Hp].
  - destruct (WPacket.reserve_spec w hp (len h) Hok Hl) as [(s' & _ & Hn)|(w' & hp' & E & _ & _ & _ & Hok' & Hfr & Hw & Hc & Hh & _)].
    { exfalso. apply Hn. split; [lia|done]. }
    exists w', hp'. rewrite (bind_ret _ _ _ _ _ E). split; [done|]. split; [|apply Hh, Hf].
    unfold WPacket.extends. rewrite app_nil_r. split_and!; try done. cbn. lia.
  - exists w, hp. split; [done|]. split; [|apply Hf]. unfold WPacket.extends. rewrite app_nil_r.
    split_and!; try done. cbn. lia.
Qed.

Lemma static_curr w : WPacket.wp_ok w -> WPacket.staticbuf w <> None -> WPacket.endfirst w = false ->
  WPacket.backed w = true /\ WPacket.WPACKET_get_curr w = Some (WPacket.written w).
Proof.
  intros Hok Hs He. destruct Hok as [Hp _ _ Hb _]. unfold WPacket.backed, WPacket.WPACKET_is_null_buf, WPacket.WPACKET_get_curr, WPacket.GETBUF.
  rewrite He, Hp. destruct (WPacket.staticbuf w); [|done]. by destruct (WPacket.buf w).
Qed.

(** The pointers of the packet that a header and its payload form. *)
Definition packet_len (h : QUIC_PKT_HDR) : Z := Z.of_nat (length (hdr_bytes h)) + len h.
Definition packet_ptrs (h : QUIC_PKT_HDR) (want : bool) : QUIC_PKT_HDR_PTRS :=
  if want && ossl_quic_pkt_type_has_pn (type h) then decoded_ptrs (packet_len h) (Some (Z.of_nat (S (length (prefix h))))) else null_ptrs.

Lemma hdr_bytes_length short h : fields_ok short h -> Z.of_nat (length (hdr_bytes h)) = Z.of_nat (S (length (prefix h))) + pn_len h.
Proof.
  intros Hh. destruct (ho_pn _ _ Hh) as (bs & _ & Hl & E & _). unfold hdr_bytes, pn_bytes. cbn [length].
  rewrite length_app, length_take, E, length_app. lia.
Qed.

Lemma encode_spec short h want w hp : fields_ok short h -> (want = true -> ossl_quic_pkt_type_has_pn (type h) = true -> 4 <= plen h) -> WPacket.wp_ok w -> WPacket.endfirst w = false -> WPacket.fits (w, hp) (packet_len h) ->
  exists w' hp', ossl_quic_wire_encode_pkt_hdr short h want (w, hp) = (Ret (packet_ptrs h want), (w', hp')) /\
    WPacket.extends w w' (hdr_bytes h) /\ WPacket.all_ok hp'.
Proof.
  intros Hh Hw4 Hok He Hf. pose proof Hf as (Hst & Hsub & Hall & Hroom). cbn [fst snd] in Hst, Hsub, Hall, Hroom.
  destruct (static_curr _ Hok Hst He) as [Hb Hc]. destruct (ho_max _ _ Hh) as [Hdl _]. unfold packet_len in Hroom.
  unfold ossl_quic_wire_encode_pkt_hdr. rewrite WPacket.pkt_bind. cbn [fst].
  rewrite guard_true by (destruct (WPacket.staticbuf w); [by rewrite andb_false_r|done]).
  rewrite guard_true.
  2: { rewrite (ho_full _ _ Hh). destruct (Z.eqb_spec (type h) QUIC_PKT_TYPE_1RTT) as [E|]; [|done].
       destruct (ho_short _ _ Hh E) as (_ & _ & ->). by rewrite Z.eqb_refl. }
  assert (Hm : puts (if type h =? QUIC_PKT_TYPE_1RTT then encode_short short h else encode_long h) (hdr_bytes h)
    (fun z => if ossl_quic_pkt_type_has_pn (type h) then Some (z + Z.of_nat (S (length (prefix h)))) else None)).
  { destruct (Z.eqb_spec (type h) QUIC_PKT_TYPE_1RTT) as [E|E]; [|by eapply encode_long_puts].
    eapply puts_eq, encode_short_puts; try done. intros z. by rewrite E. }
  destruct (Hm w hp Hok Hb He) as (w1 & hp1 & E1 & Hx1 & Ha1); [unfold WPacket.fits; cbn [fst snd]; split_and!; try done; lia|].
  rewrite (bind_ret _ _ _ _ _ E1). pose proof Hx1 as (Hok1 & Hfr1 & Hw1 & _).
  destruct (reserve_run h w1 hp1 Hok1 ltac:(lia)) as (w2 & hp2 & E2 & Hx2 & Ha2).
  { eapply WPacket.extends_fits; [exact Hx1|auto|]. done. }
  rewrite (bind_ret _ _ _ _ _ E2), WPacket.pkt_bind. cbn [fst]. exists w2, hp2.
  pose proof (WPacket.extends_trans _ _ _ _ _ Hx1 Hx2) as Hx. rewrite app_nil_r in Hx. split; [|done].
  pose proof Hx as (Hok2 & Hfr2 & Hw2 & _). destruct (static_curr w2 Hok2) as [_ Hc2].
  { by apply (WPacket.frame_static _ _ Hfr2). } { by destruct Hfr2 as (_ & _ & -> & _). }
  unfold mret, M_ret, packet_ptrs. f_equal. f_equal. destruct (ossl_quic_pkt_type_has_pn (type h)) eqn:Hpn, want; cbn [andb]; try done.
  specialize (Hw4 eq_refl eq_refl). pose proof (hdr_bytes_length _ _ Hh) as Hpl.
  unfold encoded_ptrs, decoded_ptrs, packet_len. rewrite Hc, Hc2, Hw2. destruct Hok as [_ Hwr Hmx _ _].
  unfold WPacket.WPACKET_get_total_written. rewrite u64_id by (unfold is_u64; lia). f_equal; f_equal; lia.
Qed.

(** ** Round trips *)

(** A header without the bytes behind the token and the payload. *)
Definition view (h : QUIC_PKT_HDR) : QUIC_PKT_HDR :=
  mkHdr (type h) (spin_bit h) (key_phase h) (pn_len h) (partial h) (fixed h) (unused h) (reserved h) (version h) (dst_conn_id h) (src_conn_id h)
    (pn h) (take (Z.to_nat (token_len h)) <$> token h) (token_len h) (len h) (take (Z.to_nat (len h)) <$> data h).
Definition payload (h : QUIC_PKT_HDR) : list Z := default [] (data h).

Lemma view_token short h q : fields_ok short h -> take (Z.to_nat (token_len h)) <$> token_seen h q = take (Z.to_nat (token_len h)) <$> token h.
Proof.
  intros Hh. pose proof (ho_token _ _ Hh) as H. unfold token_seen. destruct (Z.eqb_spec (type h) QUIC_PKT_TYPE_INITIAL) as [E|E]; cbn [andb].
  - destruct H as [Hr H]. destruct (Z.eqb_spec (token_len h) 0) as [E0|E0]; cbn [negb]; [by rewrite H|]. destruct H as (t & -> & _ & Hl). cbn.
    rewrite take_app_length' by (rewrite length_take; lia). done.
  - by destruct H as [-> _].
Qed.

Lemma bytes_pn short h : fields_ok short h -> bytes (pn_bytes h) /\ Z.of_nat (length (pn_bytes h)) = pn_len h /\
  pn h = pn_bytes h ++ drop (length (pn_bytes h)) zero_pn.
Proof.
  intros Hh. destruct (ho_pn _ _ Hh) as (bs & Hb & Hl & E & _). unfold pn_bytes. rewrite E, <- Hl, Nat2Z.id, take_app_length. done.
Qed.

Lemma first_u8 short h : fields_ok short h -> is_u8 (first_byte h).
Proof.
  intros Hh. unfold first_byte. destruct (Z.eqb_spec (type h) QUIC_PKT_TYPE_1RTT) as [E|E]; [by apply (b0_short_bits short)|by apply (b0_long_bits short)].
Qed.

Lemma first_fields short h : fields_ok short h -> ossl_quic_pkt_type_has_pn (type h) = true -> let b := first_byte h in
  Z.land b 0x03 + 1 = pn_len h /\ (if type h =? QUIC_PKT_TYPE_1RTT then Z.shiftr (Z.land b 0x18) 3 else Z.shiftr (Z.land b 0x0c) 2) = reserved h /\
  ((type h =? QUIC_PKT_TYPE_1RTT) && negb (Z.land b 0x04 =? 0)) = key_phase h.
Proof.
  intros Hh Hpn. cbn zeta. unfold first_byte. destruct (Z.eqb_spec (type h) QUIC_PKT_TYPE_1RTT) as [E|E].
  - by destruct (b0_short_bits _ _ Hh E) as (_ & _ & _ & _ & -> & -> & ->).
  - destruct (b0_long_bits _ _ Hh E) as (_ & _ & _ & _ & _ & _ & H). destruct (H Hpn) as [-> ->].
    destruct (ho_bits _ _ Hh) as (_ & _ & _ & _ & Hsp & _). destruct (Hsp E) as [_ ->]. done.
Qed.

(** What a full decoding sees of the unprotected packet is the header. *)
Lemma seen_view short h rest : hdr_ok short h -> ossl_quic_pkt_type_has_pn (type h) = true ->
  view (seen h false (first_byte h) (pn_bytes h ++ payload h ++ rest)) = view h.
Proof.
  intros Hh Hpn. destruct (first_fields _ _ Hh Hpn) as (F1 & F2 & F3). destruct (bytes_pn _ _ Hh) as (_ & Hl & Epn).
  destruct (ho_data _ _ Hh) as (d & Ed & _ & Hd). destruct (ho_bits _ _ Hh) as (_ & _ & _ & Hu & _ & Hfx).
  unfold seen, view. cbn [type spin_bit key_phase pn_len partial fixed unused reserved version dst_conn_id src_conn_id pn token token_len len data shown pn_skip pn_field negb andb].
  rewrite F1, F2, F3, (view_token short) by apply Hh. rewrite (ho_full _ _ Hh), Hu, Hfx by (intros E; by rewrite E in Hpn).
  rewrite <- Hl, Nat2Z.id, take_app_length, drop_app_length, <- Epn, Hl. unfold payload. rewrite Ed. cbn [default from_option id fmap option_fmap option_map].
  replace (plen h - pn_len h) with (len h) by lia. rewrite take_app_le by lia. by rewrite !take_ge by lia.
Qed.

(** Headers without a packet number. *)
Definition last_seen (h : QUIC_PKT_HDR) : QUIC_PKT_HDR :=
  mkHdr (type h) false false 0 false (fixed h) (unused h) 0 (version h) (dst_conn_id h) (src_conn_id h) zero_pn None 0 (len h) (Some (payload h)).

Lemma last_cases h : ossl_quic_pkt_type_has_pn (type h) = false -> type h = QUIC_PKT_TYPE_VERSION_NEG \/ type h = QUIC_PKT_TYPE_RETRY.
Proof.
  unfold ossl_quic_pkt_type_has_pn, ossl_quic_pkt_type_is_encrypted. destruct (Z.eqb_spec (type h) QUIC_PKT_TYPE_RETRY); [by right|].
  destruct (Z.eqb_spec (type h) QUIC_PKT_TYPE_VERSION_NEG); [by left|done].
Qed.

Lemma last_pn short h : fields_ok short h -> ossl_quic_pkt_type_has_pn (type h) = false -> pn_len h = 0 /\ pn h = zero_pn.
Proof. intros Hh Hpn. destruct (ho_pn _ _ Hh) as (bs & _ & Hl & E & H). rewrite Hpn in H. destruct bs; [done|cbn in Hl; lia]. Qed.

Lemma last_view short h : hdr_ok short h -> ossl_quic_pkt_type_has_pn (type h) = false -> view (last_seen h) = view h.
Proof.
  intros Hh Hpn. destruct (last_pn _ _ Hh Hpn) as [H1 H2]. destruct (ho_data _ _ Hh) as (d & Ed & _ & _).
  destruct (ho_bits _ _ Hh) as (_ & _ & Hr & _ & Hsp & _). destruct Hsp as [S1 S2]; [intros E; by rewrite E in Hpn|].
  pose proof (ho_token _ _ Hh) as Ht. destruct (Z.eqb_spec (type h) QUIC_PKT_TYPE_INITIAL) as [E|_]; [by rewrite E in Hpn|]. destruct Ht as [T1 T2].
  unfold last_seen, view, payload. cbn [type spin_bit key_phase pn_len partial fixed unused reserved version dst_conn_id src_conn_id pn token token_len len data].
  by rewrite H1, H2, Ed, S1, S2, T1, T2, (Hr Hpn), (ho_full _ _ Hh).
Qed.

(** The connection identifiers are followed by the payload. *)
Lemma last_shape short h : fields_ok short h -> ossl_quic_pkt_type_has_pn (type h) = false ->
  hdr_bytes h = first_byte h :: be_bytes 4 (version h) ++ ids_bytes (dst_conn_id h) (src_conn_id h) /\
  length (hdr_bytes h) = (7 + length (dst_conn_id h) + length (src_conn_id h))%nat.
Proof.
  intros Hh Hpn. assert (E : hdr_bytes h = first_byte h :: be_bytes 4 (version h) ++ ids_bytes (dst_conn_id h) (src_conn_id h)).
  { unfold hdr_bytes, pn_bytes, prefix, ids_bytes. destruct (last_pn _ _ Hh Hpn) as [-> _]. rewrite Hpn.
    destruct (Z.eqb_spec (type h) QUIC_PKT_TYPE_1RTT) as [E|_]; [by rewrite E in Hpn|]. cbn [app]. by rewrite !app_nil_r. }
  split; [done|]. rewrite E. cbn [length]. rewrite length_app, length_be_bytes. unfold ids_bytes. cbn [length]. rewrite length_app. cbn [length]. lia.
Qed.

Lemma decode_last_body short h is_partial nodata : hdr_ok short h -> ossl_quic_pkt_type_has_pn (type h) = false -> packet_len h < UINT64_MOD ->
  (if version h =? 0 then decode_version_neg (first_byte h) (dst_conn_id h) (src_conn_id h)
   else guard_ (version h =? QUIC_VERSION_1);; decode_long_v1 is_partial nodata (first_byte h) (packet_len h) (version h) (dst_conn_id h) (src_conn_id h))
    (mkP (payload h) (len h)) = (Ret (last_seen h, None), mkP [] 0).
Proof.
  intros Hh Hpn Hmax. destruct (ho_data _ _ Hh) as (d & Ed & _ & Hd). assert (E : type h <> QUIC_PKT_TYPE_1RTT) by (intros E; by rewrite E in Hpn).
  pose proof (ho_version _ _ Hh E) as Ev. destruct (ho_len _ _ Hh) as (_ & Hm4 & Hm16 & _). destruct (ho_bits _ _ Hh) as (_ & _ & _ & Hu & _ & Hfx).
  destruct (b0_long_bits _ _ Hh E) as (_ & _ & B2 & _ & B3 & B4 & _). destruct (last_shape _ _ Hh Hpn) as [_ El].
  assert (Ef : first_byte h = b0_long h (default 0 (type_to_raw h))) by (unfold first_byte; by destruct (Z.eqb_spec (type h) QUIC_PKT_TYPE_1RTT)).
  rewrite Ef. set (b := b0_long _ _) in *. clearbody b. unfold last_seen, payload. rewrite Ed. cbn [default from_option id]. unfold packet_len in *.
  destruct (last_cases _ Hpn) as [Ec|Ec]; rewrite Ec in *; cbn [Z.eqb Pos.eqb QUIC_PKT_TYPE_VERSION_NEG QUIC_PKT_TYPE_RETRY negb orb] in Ev, B2; rewrite Ev.
  - cbn [Z.eqb]. unfold decode_version_neg. rewrite data_bind, remaining_bind, guard_true by (apply Z.eqb_eq; by apply Hm4).
    rewrite forward_all by lia. unfold mret, M_ret. by rewrite B2, Hu.
  - cbn [Z.eqb QUIC_VERSION_1 Pos.eqb]. rewrite guard_true by done. unfold decode_long_v1.
    rewrite guard_true by (apply negb_true_iff, Z.ltb_ge; unfold QUIC_MIN_VALID_PKT_LEN_CRYPTO; specialize (Hm16 eq_refl); lia).
    rewrite B3 by done. change (decode_token QUIC_PKT_TYPE_RETRY) with (mret (None, 0) : M Packet.PACKET (option (list Z) * Z)). rewrite ret_bind.
    cbn [Z.eqb Pos.eqb QUIC_PKT_TYPE_RETRY]. rewrite data_bind, remaining_bind, forward_all by lia. unfold mret, M_ret. by rewrite B4, Hfx.
Qed.

Lemma decode_last_run short h is_partial nodata : hdr_ok short h -> ossl_quic_pkt_type_has_pn (type h) = false -> packet_len h < UINT64_MOD ->
  ossl_quic_wire_decode_pkt_hdr short is_partial nodata (mkP (hdr_bytes h ++ payload h) (packet_len h)) =
    (Ret (last_seen h, decoded_ptrs (packet_len h) None), mkP [] 0).
Proof.
  intros Hh Hpn Hmax. assert (E : type h <> QUIC_PKT_TYPE_1RTT) by (intros E; by rewrite E in Hpn).
  destruct (ho_data _ _ Hh) as (d & Ed & Hdb & Hd). pose proof (ho_ids _ _ Hh) as Hids. pose proof (ho_version _ _ Hh E) as Ev.
  destruct (b0_long_bits _ _ Hh E) as (_ & B1 & B2 & _). pose proof (bytes_prefix _ _ Hh) as Hpre. pose proof (first_u8 _ _ Hh) as Hb.
  assert (Ef : b0_long h (default 0 (type_to_raw h)) = first_byte h) by (unfold first_byte; by destruct (Z.eqb_spec (type h) QUIC_PKT_TYPE_1RTT)).
  rewrite Ef in B1, B2. destruct (last_shape _ _ Hh Hpn) as [Esh El]. assert (Hpl : bytes (payload h)) by (unfold payload; by rewrite Ed).
  destruct (last_pn _ _ Hh Hpn) as [Hp0 _]. assert (Ep : prefix h = be_bytes 4 (version h) ++ ids_bytes (dst_conn_id h) (src_conn_id h)).
  { unfold hdr_bytes, pn_bytes in Esh. rewrite Hp0 in Esh. cbn in Esh. rewrite app_nil_r in Esh. by injection Esh. }
  pose proof (hdr_bytes_length _ _ Hh) as Hhl. rewrite Hp0, Ep in Hhl. rewrite Esh. cbn [app].
  apply decode_first; [done|rewrite <- Ep; by apply Forall_app|unfold QUIC_MIN_VALID_PKT_LEN, packet_len in *; lia|].
  rewrite B1, <- app_assoc, decode_long_run; try done.
  - replace (packet_len h - 1 - _) with (len h) by (unfold packet_len; lia). by apply (decode_last_body short).
  - rewrite Ev. by case_match.
  - destruct (last_cases _ Hpn) as [Ec|Ec]; rewrite Ec in Ev, B2; [by left|right]. by apply negb_true_iff.
  - unfold packet_len in *. lia.
Qed.

Lemma to_int_small n : 0 <= n < 2 ^ 31 -> to_int n = n.
Proof. intros H. unfold to_int. rewrite Z.mod_small; lia. Qed.

Lemma vl_len v : 0 <= v <= OSSL_QUIC_VLINT_MAX -> ossl_quic_vlint_encode_len v = Z.of_nat (length (vl v)) /\ 0 < ossl_quic_vlint_encode_len v.
Proof. intros Hv. split; [symmetry; by apply Packet.length_encode|]. destruct (Packet.encode_is_n v Hv) as [Hn _]. unfold valid_len in Hn. lia. Qed.

(** The parts of a long header with a packet number. *)
Lemma long_length short h : fields_ok short h -> type h <> QUIC_PKT_TYPE_1RTT -> ossl_quic_pkt_type_has_pn (type h) = true ->
  Z.of_nat (length (hdr_bytes h)) = 1 + 4 + 1 + id_len (dst_conn_id h) + 1 + id_len (src_conn_id h) + pn_len h +
    (if type h =? QUIC_PKT_TYPE_INITIAL then ossl_quic_vlint_encode_len (token_len h) + token_len h else 0) + ossl_quic_vlint_encode_len (plen h).
Proof.
  intros Hh E Hpn. rewrite (hdr_bytes_length _ _ Hh). destruct (ho_max _ _ Hh) as [Hd0 Hv]. destruct (ho_pn _ _ Hh) as (bs & _ & Hbl & _).
 destruct (vl_len (plen h)) as [-> _]; [lia|].
  assert (Et : Z.of_nat (length (token_bytes h)) = if type h =? QUIC_PKT_TYPE_INITIAL then ossl_quic_vlint_encode_len (token_len h) + token_len h else 0).
  { unfold token_bytes. pose proof (ho_token _ _ Hh) as Ht. destruct (Z.eqb_spec (type h) QUIC_PKT_TYPE_INITIAL) as [Ei|_]; [|done].
    destruct (token_take _ _ Hh Ei) as [Hl _]. destruct (vl_len (token_len h)) as [-> _]; [by destruct Ht|]. rewrite length_app. lia. }
  rewrite <- Et. unfold prefix. rewrite Hpn. destruct (Z.eqb_spec (type h) QUIC_PKT_TYPE_1RTT); [done|].
  rewrite !length_app, length_be_bytes. unfold id_len. cbn [length]. lia.
Qed.

Lemma encoded_len short h : fields_ok short h -> Z.of_nat (length (hdr_bytes h)) < 2 ^ 31 ->
  ossl_quic_wire_get_encoded_pkt_hdr_len short h = Z.of_nat (length (hdr_bytes h)).
Proof.
  intros Hh Hmax. pose proof (hdr_bytes_length _ _ Hh) as Hl. destruct (ho_ids _ _ Hh) as (_ & _ & Hdl & Hsl). destruct (ho_max _ _ Hh) as [Hd0 Hv].
  destruct (ho_pn _ _ Hh) as (bs & _ & Hbl & _).
  unfold ossl_quic_wire_get_encoded_pkt_hdr_len, QUIC_MAX_CONN_ID_LEN. rewrite (ho_full _ _ Hh), orb_false_l.
  destruct (Z.eqb_spec (type h) QUIC_PKT_TYPE_1RTT) as [E|E].
  { destruct (ho_short _ _ Hh E) as (_ & _ & Ed). rewrite Ed, Z.eqb_refl, (pn_ok_true _ _ Hh) by (by rewrite E).
    destruct (Z.ltb_spec 20 short); [lia|]. cbn [negb orb andb].
    assert (Ep : prefix h = dst_conn_id h) by (unfold prefix; by rewrite E). rewrite Ep in Hl. unfold id_len in Ed. rewrite to_int_small; lia. }
  cbn [andb]. destruct (Z.ltb_spec 20 (id_len (dst_conn_id h))); [lia|]. destruct (Z.ltb_spec 20 (id_len (src_conn_id h))); [lia|]. cbn [orb].
  assert (Elast : ossl_quic_pkt_type_must_be_last (type h) = negb (ossl_quic_pkt_type_has_pn (type h))).
  { unfold ossl_quic_pkt_type_must_be_last. destruct (Z.eqb_spec (type h) QUIC_PKT_TYPE_1RTT); [done|]. apply orb_false_r. }
  rewrite Elast. destruct (ossl_quic_pkt_type_has_pn (type h)) eqn:Hpn; cbn [andb negb].
  - rewrite (pn_ok_true _ _ Hh Hpn), (u64_id (plen h)) by (change OSSL_QUIC_VLINT_MAX with (2 ^ 62 - 1) in Hv; unfold is_u64; lia). cbn [negb].
    pose proof (long_length _ _ Hh E Hpn) as HL. destruct (vl_len (plen h)) as [_ Hp]; [lia|]. pose proof (ho_token _ _ Hh) as Ht.
    unfold id_len in *. destruct (Z.eqb_spec (ossl_quic_vlint_encode_len (plen h)) 0); [lia|].
    destruct (Z.eqb_spec (type h) QUIC_PKT_TYPE_INITIAL) as [Ei|Ei]; cbn [andb].
    + destruct Ht as [Ht _]. destruct (vl_len (token_len h) Ht) as [_ Hp2]. destruct (Z.eqb_spec (ossl_quic_vlint_encode_len (token_len h)) 0); [lia|].
      rewrite (u64_id (_ + (_ + token_len h))) by (unfold is_u64; lia). rewrite u64_id, to_int_small by (unfold is_u64; lia). lia.
    + rewrite u64_id, to_int_small by (unfold is_u64; lia). lia.
  - destruct (Z.eqb_spec (type h) QUIC_PKT_TYPE_INITIAL) as [Ei|Ei]; [by rewrite Ei in Hpn|]. cbn [andb].
    destruct (last_shape _ _ Hh Hpn) as [_ El]. unfold id_len. rewrite to_int_small; lia.
Qed.

(** The whole packet, decoded completely. *)
Lemma full_decode short h rest : hdr_ok short h -> bytes rest -> (ossl_quic_pkt_type_must_be_last (type h) = true -> rest = []) ->
  let total := packet_len h + Z.of_nat (length rest) in total < UINT64_MOD ->
  exists h' ptrs, ossl_quic_wire_decode_pkt_hdr short false false (mkP (hdr_bytes h ++ payload h ++ rest) total) =
    (Ret (h', ptrs), mkP rest (Z.of_nat (length rest))) /\ view h' = view h /\ raw_pn ptrs = raw_pn (packet_ptrs h true).
Proof.
  intros Hh Hr Hlast total Hmax. unfold total, packet_ptrs in *. destruct (ho_data _ _ Hh) as (d & Ed & Hdb & Hd).
  assert (Hpl : payload h = d) by (unfold payload; by rewrite Ed). cbn [andb]. destruct (ossl_quic_pkt_type_has_pn (type h)) eqn:Hpn.
  - destruct (bytes_pn _ _ Hh) as (Hpb & Hpnl & _). pose proof (hdr_bytes_length _ _ Hh) as Hl. unfold packet_len in *.
    pose proof (decode_run short h false (first_byte h) (pn_bytes h ++ payload h ++ rest) Hh Hpn (first_u8 _ _ Hh) eq_refl) as H.
    rewrite Hpl, !length_app in H. eexists _, _. split; [|split; [by apply (seen_view short)|]].
    + assert (Ea : hdr_bytes h ++ payload h ++ rest = first_byte h :: prefix h ++ pn_bytes h ++ payload h ++ rest) by (unfold hdr_bytes; cbn; by rewrite <- app_assoc).
      rewrite Ea, Hpl. etrans; [etrans; [|apply H]|].
      * do 2 f_equal. lia.
      * rewrite !Forall_app. done.
      * lia.
      * intros E. rewrite Hlast by (by rewrite E). cbn. lia.
      * lia.
      * f_equal. f_equal; [|lia]. rewrite app_assoc, drop_app_length' by (rewrite length_app; lia). done.
    + done.
  - rewrite Hlast in * by (unfold ossl_quic_pkt_type_must_be_last; change (ossl_quic_pkt_type_can_share_dgram (type h)) with (ossl_quic_pkt_type_has_pn (type h)); by rewrite Hpn).
    cbn [length Z.of_nat] in *. rewrite Z.add_0_r, app_nil_r in *. eexists _, _. split; [by apply (decode_last_run short)|]. split; [by apply (last_view short)|done].
Qed.

(** C11: packet headers round-trip, for every type of packet.  In a fixed buffer
    with room for the packet the encoder writes exactly the header, whose length
    is the one announced, and finds the packet number where a decoder will; a
    decoder given the header, its payload and more packets of the datagram
    returns the header, consumes the packet and leaves the others. *)
Theorem pkt_hdr_roundtrip short h w hp rest : hdr_ok short h ->
  WPacket.wp_ok w -> WPacket.endfirst w = false -> WPacket.fits (w, hp) (packet_len h) ->
  bytes rest -> (ossl_quic_pkt_type_must_be_last (type h) = true -> rest = []) -> packet_len h + Z.of_nat (length rest) < UINT64_MOD ->
  Z.of_nat (length (hdr_bytes h)) < 2 ^ 31 ->
  exists w' hp' ptrs h' ptrs',
    ossl_quic_wire_encode_pkt_hdr short h true (w, hp) = (Ret ptrs, (w', hp')) /\ WPacket.extends w w' (hdr_bytes h) /\
    ossl_quic_wire_get_encoded_pkt_hdr_len short h = Z.of_nat (length (hdr_bytes h)) /\
    ossl_quic_wire_decode_pkt_hdr short false false (mkP (hdr_bytes h ++ payload h ++ rest) (packet_len h + Z.of_nat (length rest))) =
      (Ret (h', ptrs'), mkP rest (Z.of_nat (length rest))) /\
    view h' = view h /\ raw_pn ptrs' = raw_pn ptrs.
Proof.
  intros Hh Hok He Hf Hr Hlast Hmax Hlen. destruct (encode_spec short h true w hp Hh ltac:(intros _ Hpn; by pose proof (proj2 (proj2 (proj2 (ho_len _ _ Hh))) Hpn); lia) Hok He Hf) as (w' & hp' & E & Hx & _).
  destruct (full_decode short h rest Hh Hr Hlast Hmax) as (h' & ptrs' & Ed & Hv & Hp).
  exists w', hp', (packet_ptrs h true), h', ptrs'. split_and!; try done. apply encoded_len; [apply Hh|done].
Qed.

(** ** Protected packets *)
Section Protected.
Context (cipher_id : Z) (cipher : list Z -> option (list Z)).
(** A cipher of the library: it never fails, and gives at least five bytes. *)
Hypothesis known : 1 <= cipher_id <= 3.
Hypothesis cipher_ok : forall sample, length sample = 16%nat -> exists m, cipher sample = Some m /\ bytes m /\ (5 <= length m)%nat.

Lemma mask_ok sample n : (16 <= length sample)%nat -> 16 <= n ->
  exists m, hdr_generate_mask cipher_id cipher sample n = Ret m /\ bytes m /\ length m = 5%nat.
Proof.
  intros Hs Hn. destruct (cipher_ok (take 16 sample)) as (m & E & Hb & Hl); [rewrite length_take; lia|]. exists (take 5 m).
  unfold hdr_generate_mask, QUIC_HDR_PROT_CIPHER_AES_128, QUIC_HDR_PROT_CIPHER_AES_256, QUIC_HDR_PROT_CIPHER_CHACHA.
  destruct (Z.ltb_spec n 16); [lia|]. destruct (Nat.ltb_spec (length sample) 16); [lia|]. rewrite E.
  assert (Hc : cipher_id = 1 \/ cipher_id = 2 \/ cipher_id = 3) by lia.
  split; [destruct Hc as [->|[->| ->]]; done|]. split; [by apply Forall_take|]. rewrite length_take. lia.
Qed.

Lemma mask_same s1 s2 n1 n2 m : hdr_generate_mask cipher_id cipher s1 n1 = Ret m -> 16 <= n2 -> take 16 s1 = take 16 s2 ->
  hdr_generate_mask cipher_id cipher s2 n2 = Ret m.
Proof.
  unfold hdr_generate_mask. intros E Hn Es. pose proof (f_equal length Es) as El. rewrite !length_take in El.
  rewrite <- Es. case_match; [|done]. destruct (n1 <? 16); [done|]. destruct (Nat.ltb_spec (length s1) 16); [done|].
  destruct (Z.ltb_spec n2 16); [lia|]. by destruct (Nat.ltb_spec (length s2) 16); [lia|].
Qed.

(** Masking the fields of the packet [b :: p ++ q]. *)
Lemma on_fields_run f b p q n b' q' : f (drop 4 q) n b q = Ret (b', q') ->
  on_fields f (b :: p ++ q) (mkPtrs (Some 0) (Some (Z.of_nat (S (length p)) + 4)) n (Some (Z.of_nat (S (length p))))) = Ret (b' :: p ++ q').
Proof.
  intros E. unfold on_fields. cbn [raw_sample raw_start raw_pn raw_sample_len]. replace (Z.to_nat (Z.of_nat (S (length p)) + 4)) with (S (length p + 4)) by lia.
  rewrite Nat2Z.id. cbn [drop take]. rewrite drop_app_add, drop_app_length, take_app_length. change (Z.to_nat 0) with 0%nat. cbn [lookup list_lookup]. by rewrite E.
Qed.

Lemma xor_pn_app n mask q rest : (n <= length q)%nat -> xor_pn n mask (q ++ rest) = xor_pn n mask q ++ rest.
Proof. intros Hn. unfold xor_pn. rewrite take_app_le, drop_app_le by done. by rewrite app_assoc. Qed.

Lemma drop_xor_pn n m mask q : (n <= m)%nat -> (n < length mask)%nat -> (n <= length q)%nat -> drop m (xor_pn n mask q) = drop m q.
Proof.
  intros Hm Hk Hn. unfold xor_pn. rewrite drop_app_ge by (rewrite length_zip_with, length_take, length_drop; lia).
  rewrite drop_drop, length_zip_with, length_take, length_drop. f_equal. lia.
Qed.

(** Protecting, then removing the protection, with bytes behind the packet. *)
Lemma protect_run b p q n : is_u8 b -> (20 <= length q)%nat -> 16 <= n -> bytes q ->
  let ptrs n := mkPtrs (Some 0) (Some (Z.of_nat (S (length p)) + 4)) n (Some (Z.of_nat (S (length p)))) in
  exists b' q', ossl_quic_hdr_protector_encrypt cipher_id cipher (b :: p ++ q) (ptrs n) = Ret (b' :: p ++ q') /\
    is_u8 b' /\ bytes q' /\ length q' = length q /\ drop (Z.to_nat (Z.land b 0x3 + 1)) q' = drop (Z.to_nat (Z.land b 0x3 + 1)) q /\
    (forall c, Z.land (if Z.land b 0x80 =? 0 then 0x1f else 0xf) c = 0 -> Z.land b' c = Z.land b c) /\
    forall rest n', 16 <= n' -> ossl_quic_hdr_protector_decrypt cipher_id cipher (b' :: p ++ q' ++ rest) (ptrs n') = Ret (b :: p ++ q ++ rest).
Proof.
  intros Hb Hq Hn Hqb ptrs. destruct (mask_ok (drop 4 q) n) as (m & Em & Hmb & Hml); [rewrite length_drop; lia|done|].
  set (k := Z.to_nat (Z.land b 0x3 + 1)). pose proof (pn_small b) as Hk. assert (Hkl : (1 <= k <= 4)%nat) by lia.
  exists (xor_first m b), (xor_pn k m q). split.
  { apply on_fields_run. unfold ossl_quic_hdr_protector_encrypt_fields. rewrite Em. fold k. destruct (Nat.ltb_spec (length q) k); [lia|done]. }
  split; [by apply xor_first_u8|]. split; [by apply xor_pn_bytes|]. split; [apply xor_pn_length; lia|]. split; [apply drop_xor_pn; lia|].
  split; [intros c; apply first_keeps|].
  intros rest n' Hn'. apply on_fields_run. unfold ossl_quic_hdr_protector_decrypt_fields.
  rewrite (mask_same _ (drop 4 (xor_pn k m q ++ rest)) _ n' _ Em Hn').
  2: { rewrite drop_app_le, drop_xor_pn by (rewrite ?xor_pn_length; lia). rewrite take_app_le by (rewrite length_drop; lia). done. }
  rewrite xor_first_invol. fold k. destruct (Nat.ltb_spec (length (xor_pn k m q ++ rest)) k) as [Hx|_]; [rewrite length_app, xor_pn_length in Hx; lia|].
  rewrite xor_pn_app by (rewrite xor_pn_length; lia). by rewrite xor_pn_invol by lia.
Qed.

Lemma open_unmasked short h : fields_ok short h -> Z.land (if Z.land (first_byte h) 0x80 =? 0 then 0x1f else 0xf) (open_bits h) = 0.
Proof.
  intros Hh. unfold first_byte, open_bits. destruct (Z.eqb_spec (type h) QUIC_PKT_TYPE_1RTT) as [E|E].
  - by destruct (b0_short_bits _ _ Hh E) as (_ & -> & _).
  - by destruct (b0_long_bits _ _ Hh E) as (_ & -> & _).
Qed.

(** C10: a receiver sees the header that was sent.  The sender encodes a header
    with its payload and protects it; nothing but the bits of the first byte that
    RFC 9001 (5.4) names and the packet number changes.  The receiver, which
    knows neither, finds the type of the packet, its connection identifiers, its
    end in the datagram and the fields to unmask; unmasking them gives back what
    the sender encoded, and decoding that gives the header. *)
Theorem pkt_protection_transparent short h rest : hdr_ok short h -> ossl_quic_pkt_type_has_pn (type h) = true ->
  bytes rest -> (type h = QUIC_PKT_TYPE_1RTT -> rest = []) -> packet_len h + Z.of_nat (length rest) < UINT64_MOD ->
  let total := packet_len h + Z.of_nat (length rest) in let ending := mkP rest (Z.of_nat (length rest)) in
  exists prot hp ptrs h' ptrs',
    ossl_quic_hdr_protector_encrypt cipher_id cipher (hdr_bytes h ++ payload h) (packet_ptrs h true) = Ret prot /\
    (exists b' pn', prot = b' :: prefix h ++ pn' ++ payload h /\ length pn' = length (pn_bytes h) /\
       Z.land b' (open_bits h) = Z.land (first_byte h) (open_bits h)) /\
    ossl_quic_wire_decode_pkt_hdr short true false (mkP (prot ++ rest) total) = (Ret (hp, ptrs), ending) /\
    type hp = type h /\ dst_conn_id hp = dst_conn_id h /\ src_conn_id hp = src_conn_id h /\ partial hp = true /\
    ossl_quic_hdr_protector_decrypt cipher_id cipher (prot ++ rest) ptrs = Ret (hdr_bytes h ++ payload h ++ rest) /\
    ossl_quic_wire_decode_pkt_hdr short false false (mkP (hdr_bytes h ++ payload h ++ rest) total) = (Ret (h', ptrs'), ending) /\
    view h' = view h.
Proof.
  intros Hh Hpn Hr Hlast Hmax total ending. destruct (ho_data _ _ Hh) as (d & Ed & Hdb & Hd). destruct (ho_len _ _ Hh) as (_ & _ & _ & H20). specialize (H20 Hpn).
  assert (Hpl : payload h = d) by (unfold payload; by rewrite Ed). destruct (bytes_pn _ _ Hh) as (Hpb & Hpnl & _).
  pose proof (hdr_bytes_length _ _ Hh) as Hl. destruct (full_decode short h rest Hh Hr) as (h' & ptrs' & Ef & Hv & _); [|done|].
  { unfold ossl_quic_pkt_type_must_be_last. change (ossl_quic_pkt_type_can_share_dgram (type h)) with (ossl_quic_pkt_type_has_pn (type h)). rewrite Hpn.
    intros E%Z.eqb_eq. by apply Hlast. }
  set (q := pn_bytes h ++ payload h). assert (Hql : Z.of_nat (length q) = plen h) by (unfold q; rewrite length_app, Hpl; lia).
  assert (Hqb : bytes q) by (unfold q; rewrite Hpl; by apply Forall_app).
  assert (Eb : forall r, hdr_bytes h ++ payload h ++ r = first_byte h :: prefix h ++ q ++ r) by (intros r; unfold hdr_bytes, q; cbn; by rewrite <- !app_assoc).
  pose proof (Eb []) as Eb0. rewrite !app_nil_r in Eb0. unfold packet_len in *.
  destruct (protect_run (first_byte h) (prefix h) q (u64 (packet_len h - (Z.of_nat (S (length (prefix h))) + 4)))) as (b' & q' & Ee & Hb' & Hqb' & Hql' & Htl & Hbits & Edec);
    [exact (first_u8 _ _ Hh)|lia|unfold packet_len; rewrite u64_id by (unfold is_u64; lia); lia|done|].
  pose proof (decode_run short h true b' (q' ++ rest) Hh Hpn Hb') as H. rewrite length_app, Hql' in H.
  exists (b' :: prefix h ++ q'), (seen h true b' (q' ++ rest)), (decoded_ptrs total (Some (Z.of_nat (S (length (prefix h)))))), h', ptrs'.
  assert (Et : Z.of_nat (S (length (prefix h))) + Z.of_nat (length q + length rest) = total) by (unfold total, packet_len; lia).
  split_and!; try done.
  - unfold packet_ptrs. rewrite Hpn. cbn [andb decoded_ptrs]. by rewrite Eb0.
  - destruct (first_fields _ _ Hh Hpn) as (F1 & _). rewrite F1 in Htl. exists b', (take (Z.to_nat (pn_len h)) q').
    split_and!; [|rewrite length_take; lia|apply Hbits; exact (open_unmasked _ _ Hh)].
    rewrite <- (take_drop (Z.to_nat (pn_len h)) q') at 1. rewrite Htl. unfold q. by rewrite drop_app_length' by lia.
  - cbn [app]. rewrite <- app_assoc, <- Et. rewrite H.
    + unfold ending. f_equal. f_equal; [|lia]. by rewrite drop_app_length' by lia.
    + apply Hbits. exact (open_unmasked _ _ Hh).
    + by apply Forall_app.
    + lia.
    + intros E. rewrite (Hlast E). cbn. lia.
    + lia.
  - cbn [app decoded_ptrs]. rewrite <- app_assoc, Edec; [by rewrite <- Eb|]. unfold total, packet_len in *. rewrite u64_id by (unfold is_u64; lia). lia.
Qed.
End Protected.
End QuicWirePktSpec.
