(* ===== verification/QuicWirePktSafe.v ===== *)
(** * Headers of arbitrary packets

    Decoding any bytes has no undefined behaviour, and the destination that
    [ossl_quic_wire_get_pkt_hdr_dst_conn_id] reads to route a datagram is the one
    the decoder finds in it. *)
From Stdlib Require Import ZArith Lia.
From stdpp Require Import base tactics list.
From S2P Require Import Prelude QuicVlint Packet QuicWire QuicWirePkt QuicWirePktSpec.
Import Vlint Packet QuicWirePkt.
#[local] Open Scope Z_scope.

Module QuicWirePktSafe.

(** ** Safety *)
Lemma safe_check {A} (b : bool) (f : M PACKET A) : (b = true -> safe f) -> safe (guard_ b;; f).
Proof. destruct b; [auto|]. intros _ p Hp. exists Err, p. split_and!; [done..|]. apply suffix_refl, Hp. Qed.

Lemma decode_pn_safe is_partial n : 0 <= n -> safe (decode_pn is_partial n).
Proof.
  intros Hn. unfold decode_pn. destruct is_partial; (apply safe_bind; [|intros ?; apply safe_ret]).
  - by apply PACKET_forward_safe.
  - by apply copy_bytes_safe.
Qed.

Lemma shown_nonneg (is_partial : bool) b : 0 <= (if is_partial then 0 else Z.land b 0x03 + 1).
Proof. pose proof (QuicWirePktSpec.pn_small b). destruct is_partial; lia. Qed.

Lemma decode_short_safe short is_partial b l : 0 <= short -> safe (decode_short short is_partial b l).
Proof.
  intros Hs. unfold decode_short. do 2 (apply safe_bind; [apply safe_guard|intros _]). apply safe_bind; [by apply copy_bytes_safe|intros id].
  apply QuicWire.safe_remaining_bind. intros r _. apply safe_bind; [apply decode_pn_safe, shown_nonneg|intros pn].
  apply QuicWire.safe_remaining_bind. intros n Hn. apply safe_bind; [apply safe_data|intros d].
  apply safe_bind; [by apply PACKET_forward_safe|intros _]. apply safe_ret.
Qed.

Lemma decode_token_safe ty : safe (decode_token ty).
Proof. unfold decode_token. destruct (_ =? _); [|apply safe_ret]. QuicWire.sf. Qed.

Lemma decode_v1_safe is_partial nodata b l ver dst src : safe (decode_long_v1 is_partial nodata b l ver dst src).
Proof.
  unfold decode_long_v1. apply safe_bind; [apply safe_guard|intros _]. apply safe_bind; [apply decode_token_safe|intros t].
  destruct (_ =? QUIC_PKT_TYPE_RETRY); [QuicWire.sf|]. apply QuicWire.safe_vlint_bind. intros plen _.
  apply safe_check. intros Hp%negb_true_iff%Z.ltb_ge. apply QuicWire.safe_remaining_bind. intros r _. apply safe_bind; [apply safe_guard|intros _].
  apply safe_bind; [apply decode_pn_safe, shown_nonneg|intros pn]. apply safe_bind; [|intros d; apply safe_ret].
  destruct nodata; [apply safe_ret|]. apply safe_bind; [apply safe_data|intros d]. apply safe_bind; [|intros _; apply safe_ret].
  apply PACKET_forward_safe. pose proof (QuicWirePktSpec.pn_small b). destruct is_partial; lia.
Qed.

Lemma decode_long_safe is_partial nodata b l : safe (decode_long is_partial nodata b l).
Proof.
  unfold decode_long. apply safe_bind; [apply get_net_4_safe|intros ver]. apply safe_bind; [apply safe_guard|intros _].
  apply QuicWire.safe_get_1_bind. intros dl Hdl. apply safe_bind; [apply safe_guard|intros _]. apply safe_bind; [by apply copy_bytes_safe|intros dst].
  apply QuicWire.safe_get_1_bind. intros sl Hsl. apply safe_bind; [apply safe_guard|intros _]. apply safe_bind; [by apply copy_bytes_safe|intros src].
  destruct (ver =? 0); [|apply safe_bind; [apply safe_guard|intros _; apply decode_v1_safe]].
  unfold decode_version_neg. apply safe_bind; [apply safe_data|intros d]. apply QuicWire.safe_remaining_bind. intros n Hn. QuicWire.sf.
Qed.

Lemma decode_hdr_safe short is_partial nodata : 0 <= short -> safe (ossl_quic_wire_decode_pkt_hdr short is_partial nodata).
Proof.
  intros Hs. unfold ossl_quic_wire_decode_pkt_hdr. apply QuicWire.safe_remaining_bind. intros l _. apply safe_bind; [apply safe_guard|intros _].
  apply safe_bind; [apply get_1_safe|intros b]. apply safe_bind; [|intros r; apply safe_ret].
  destruct (_ =? 0); [by apply decode_short_safe|apply decode_long_safe].
Qed.

(** ** The destination *)

(** What a reader that succeeds has read. *)
Definition took (p p' : PACKET) (x : list Z) : Prop := curr p = x ++ curr p' /\ remaining p' = remaining p - Z.of_nat (length x).

Lemma forward_took n p p' u : 0 <= n <= remaining p -> packet_ok p -> packet_forward n p = (Ret u, p') -> took p p' (take (Z.to_nat n) (curr p)).
Proof.
  intros Hn [Hr Hs _] E. unfold packet_forward, modify in E. injection E as _ <-. unfold took. cbn [curr remaining].
  rewrite take_drop, length_take, u64_id by (unfold is_u64; lia). split; [done|lia].
Qed.

Lemma guard_inv {S} b (s : S) u s' : guard_ b s = (Ret u, s') -> b = true /\ s' = s.
Proof. destruct b; [by intros [= _ <-]|done]. Qed.

Lemma need_inv n p u p' : need n p = (Ret u, p') -> n <= remaining p /\ p' = p.
Proof.
  intros E. unfold need in E. apply bind_inv in E as (r & p1 & [= <- <-] & E). apply guard_inv in E as [H ->].
  apply negb_true_iff, Z.ltb_ge in H. done.
Qed.

Lemma copy_inv n p x p' : packet_ok p -> 0 <= n -> PACKET_copy_bytes n p = (Ret x, p') -> took p p' x /\ Z.of_nat (length x) = n.
Proof.
  intros Hp Hn E. unfold PACKET_copy_bytes in E. apply bind_inv in E as (d & p1 & E & E').
  apply bind_inv in E' as (u & p2 & E2 & [= -> ->]). unfold PACKET_peek_copy_bytes in E. apply bind_inv in E as (u' & p3 & E & E').
  apply need_inv in E as [Hle ->]. apply bind_inv in E' as (c & p4 & [= <- <-] & E'). pose proof Hp as [Hr _ _].
  destruct (Z.ltb_spec (Z.of_nat (length (curr p))) n); [lia|]. injection E' as <- <-.
  split; [by eapply forward_took|]. rewrite length_take. lia.
Qed.

Lemma get_1_inv p b p' : packet_ok p -> PACKET_get_1 p = (Ret b, p') -> took p p' [b] /\ 0 <= b /\ 1 <= remaining p.
Proof.
  intros Hp E. pose proof (get_1_nonneg p b p' Hp E) as Hb. unfold PACKET_get_1 in E. apply bind_inv in E as (v & p1 & E & E').
  apply bind_inv in E' as (u & p2 & E2 & [= -> ->]). unfold PACKET_peek_1 in E. apply bind_inv in E as (r & p3 & [= <- <-] & E).
  apply bind_inv in E as (u' & p4 & E & E'). apply guard_inv in E as [H ->]. apply negb_true_iff, Z.eqb_neq in H. pose proof Hp as [Hr _ _].
  unfold load in E'. destruct (curr p !! 0%nat) as [b'|] eqn:El; [|done]. injection E' as -> <-.
  apply (forward_took 1) in E2; [|lia|done]. destruct (curr p) as [|x c] eqn:Ec; [done|]. cbn in El. injection El as ->.
  split_and!; [|done|lia]. unfold took in *. rewrite Ec in *. exact E2.
Qed.

Lemma get_4_inv p v p' : packet_ok p -> PACKET_get_net_4 p = (Ret v, p') ->
  exists b1 b2 b3 b4, took p p' [b1; b2; b3; b4] /\ (v =? 0) = ((b1 =? 0) && (b2 =? 0) && (b3 =? 0) && (b4 =? 0)).
Proof.
  intros Hp E. unfold PACKET_get_net_4 in E. apply bind_inv in E as (v' & p1 & E & E').
  apply bind_inv in E' as (u & p2 & E2 & [= -> ->]). pose proof Hp as [Hr _ Hb]. destruct p as [c rem]. cbn [curr remaining] in *.
  assert (H4 : 4 <= rem). { unfold PACKET_peek_net_4 in E. apply bind_inv in E as (? & ? & E & _). by apply need_inv in E as [? _]. }
  destruct c as [|b1 [|b2 [|b3 [|b4 c]]]]; cbn [length] in Hr; try lia.
  pose proof (peek_net_4_spec c rem [b1; b2; b3; b4] eq_refl) as Es. cbn [app] in Es. rewrite Es in E; [|exact (Forall_take _ 4 _ Hb)|lia].
  injection E as <- <-. exists b1, b2, b3, b4. split; [apply (forward_took 4) in E2; [exact E2|cbn [remaining]; lia|done]|].
  rewrite !Forall_cons in Hb. destruct Hb as (H1 & H2 & H3 & H5 & _). unfold is_u8 in *. unfold be_val. cbn [length].
  destruct (Z.eqb_spec b1 0), (Z.eqb_spec b2 0), (Z.eqb_spec b3 0), (Z.eqb_spec b4 0); cbn [andb];
    (apply Z.eqb_eq || apply Z.eqb_neq); change (8 * Z.of_nat 3) with 24; change (8 * Z.of_nat 2) with 16; change (8 * Z.of_nat 1) with 8; lia.
Qed.

(** The identifier in a decoded header. *)
Lemma short_dst short is_partial b l p h o p' : packet_ok p -> 0 <= short -> decode_short short is_partial b l p = (Ret (h, o), p') ->
  (Z.land b 0x40 =? 0) = false /\ short <= 20 /\ type h = QUIC_PKT_TYPE_1RTT /\
    exists c, curr p = dst_conn_id h ++ c /\ id_len (dst_conn_id h) = short.
Proof.
  intros Hp Hs E. unfold decode_short in E. apply bind_inv in E as (? & ? & G1 & E). apply guard_inv in G1 as [G1 ->].
  apply bind_inv in E as (? & ? & G2 & E). apply guard_inv in G2 as [G2 ->]. apply bind_inv in E as (id & p1 & Ec & E).
  apply copy_inv in Ec as [[Ec _] Hl]; [|done..]. do 4 apply bind_inv in E as (? & ? & _ & E). apply bind_inv in E as (? & ? & _ & E).
  injection E as <- _ _. apply negb_true_iff in G1, G2. apply orb_false_iff in G2 as [G2 _]. apply Z.ltb_ge in G1.
  split_and!; [done..|]. exists (curr p1). done.
Qed.

Lemma long_dst is_partial nodata b l p h o p' : packet_ok p -> decode_long is_partial nodata b l p = (Ret (h, o), p') ->
  exists b1 b2 b3 b4 c, curr p = [b1; b2; b3; b4; id_len (dst_conn_id h)] ++ dst_conn_id h ++ c /\
    negb ((b1 =? 0) && (b2 =? 0) && (b3 =? 0) && (b4 =? 0)) && (Z.land b 0x40 =? 0) = false /\
    id_len (dst_conn_id h) <= 20 /\ 6 + id_len (dst_conn_id h) <= remaining p.
Proof.
  intros Hp E. unfold decode_long in E. apply bind_inv in E as (ver & p1 & E1 & E).
  destruct (get_net_4_safe p Hp) as (r & p1' & E1' & _ & Hp1 & _). rewrite E1 in E1'. injection E1' as <- <-.
  apply get_4_inv in E1 as (b1 & b2 & b3 & b4 & [T1 R1] & Ez); [|done].
  apply bind_inv in E as (? & ? & G1 & E). apply guard_inv in G1 as [G1 ->]. apply bind_inv in E as (dl & p2 & E2 & E).
  destruct (get_1_safe p1 Hp1) as (r & p2' & E2' & _ & Hp2 & _). rewrite E2 in E2'. injection E2' as <- <-.
  apply get_1_inv in E2 as ([T2 R2] & Hdl & _); [|done]. apply bind_inv in E as (? & ? & G2 & E). apply guard_inv in G2 as [G2 ->].
  apply bind_inv in E as (dst & p3 & E3 & E). destruct (copy_bytes_safe dl Hdl p2 Hp2) as (r & p3' & E3' & _ & Hp3 & _). rewrite E3 in E3'. injection E3' as <- <-.
  apply copy_inv in E3 as [[T3 R3] Hl]; [|done..]. apply bind_inv in E as (sl & p4 & E4 & E). apply get_1_inv in E4 as (_ & _ & H1); [|done].
  apply bind_inv in E as (? & ? & _ & E). apply bind_inv in E as (src & p5 & _ & E).
  assert (Ed : dst_conn_id h = dst).
  { destruct (ver =? 0).
    - unfold decode_version_neg in E. do 4 apply bind_inv in E as (? & ? & _ & E). by injection E as <- _ _.
    - apply bind_inv in E as (? & ? & _ & E). unfold decode_long_v1 in E. do 2 apply bind_inv in E as (? & ? & _ & E). destruct (_ =? QUIC_PKT_TYPE_RETRY).
      + do 3 apply bind_inv in E as (? & ? & _ & E). by injection E as <- _ _.
      + do 6 apply bind_inv in E as (? & ? & _ & E). by injection E as <- _ _. }
  rewrite Ed. unfold id_len. rewrite Hl. exists b1, b2, b3, b4, (curr p3). apply negb_true_iff in G1, G2. apply Z.ltb_ge in G2. cbn [length] in *.
  split_and!; [|by rewrite <- Ez|done|lia]. rewrite T1, T2, T3. done.
Qed.

Lemma six_bytes (l : list Z) : (6 <= length l)%nat -> exists b0 b1 b2 b3 b4 b5 c, l = b0 :: b1 :: b2 :: b3 :: b4 :: b5 :: c.
Proof. intros H. do 6 (destruct l as [|? l]; [cbn in H; lia|]). by repeat eexists. Qed.

Lemma copy_from_ok buf off n : Z.of_nat off + n <= Z.of_nat (length buf) -> 0 <= n ->
  copy_from buf off n = Ret (take (Z.to_nat n) (drop off buf)).
Proof. intros H Hn. unfold copy_from. by destruct (Nat.leb_spec (off + Z.to_nat n) (length buf)); [|lia]. Qed.

Lemma get_dst_defined p short : packet_ok p -> 0 <= short -> ossl_quic_wire_get_pkt_hdr_dst_conn_id (curr p) (remaining p) short <> Undef.
Proof.
  intros [Hr _ Hb] Hs. unfold ossl_quic_wire_get_pkt_hdr_dst_conn_id, QUIC_MIN_VALID_PKT_LEN, QUIC_MIN_VALID_PKT_LEN_CRYPTO, QUIC_MAX_CONN_ID_LEN.
  destruct (Z.ltb_spec (remaining p) 7); [done|]. destruct (Z.ltb_spec 20 short); [done|]. cbn [orb].
  destruct (six_bytes (curr p)) as (b0 & b1 & b2 & b3 & b4 & b5 & c & E); [lia|]. rewrite E in *. unfold at_byte. cbn [lookup list_lookup].
  destruct (negb (Z.land b0 0x80 =? 0)).
  - destruct (negb _ && _); [done|]. destruct (Z.ltb_spec 20 b5); [done|]. destruct (Z.ltb_spec (remaining p) (7 + b5)); [done|]. cbn [orb].
    rewrite copy_from_ok; [done|lia|]. rewrite !Forall_cons in Hb. destruct Hb as (_ & _ & _ & _ & _ & Hb & _). unfold is_u8 in Hb. lia.
  - destruct (_ =? 0); [done|]. destruct (Z.ltb_spec (remaining p) (21 + short)); [done|]. rewrite copy_from_ok; [done|lia..].
Qed.

Lemma get_dst_short b id c rem : Z.land b 0x80 = 0 -> (Z.land b 0x40 =? 0) = false -> 21 + id_len id <= rem <= Z.of_nat (length (b :: id ++ c)) -> id_len id <= 20 ->
  ossl_quic_wire_get_pkt_hdr_dst_conn_id (b :: id ++ c) rem (id_len id) = Ret id.
Proof.
  intros H80 H40 Hr Hid. unfold ossl_quic_wire_get_pkt_hdr_dst_conn_id, QUIC_MIN_VALID_PKT_LEN, QUIC_MIN_VALID_PKT_LEN_CRYPTO, QUIC_MAX_CONN_ID_LEN.
  unfold id_len in *. destruct (Z.ltb_spec rem 7); [lia|]. destruct (Z.ltb_spec 20 (Z.of_nat (length id))); [lia|]. cbn [orb].
  destruct (six_bytes (b :: id ++ c)) as (b0 & b1 & b2 & b3 & b4 & b5 & c' & E); [lia|]. pose proof E as [= <- Et]. rewrite E in *. unfold at_byte. cbn [lookup list_lookup].
  rewrite H80, H40. cbn [Z.eqb negb]. destruct (Z.ltb_spec rem (21 + Z.of_nat (length id))); [lia|]. rewrite copy_from_ok by lia.
  cbn [drop]. by rewrite <- Et, Nat2Z.id, take_app_length.
Qed.

Lemma get_dst_small b c rem short : Z.land b 0x80 = 0 -> 7 <= rem <= Z.of_nat (length (b :: c)) -> rem < 21 + short ->
  ossl_quic_wire_get_pkt_hdr_dst_conn_id (b :: c) rem short = Err.
Proof.
  intros H80 Hr Hlt. unfold ossl_quic_wire_get_pkt_hdr_dst_conn_id, QUIC_MIN_VALID_PKT_LEN_CRYPTO. destruct (_ || _); [done|].
  destruct (six_bytes (b :: c)) as (b0 & b1 & b2 & b3 & b4 & b5 & c' & E); [lia|]. pose proof E as [= <- _]. rewrite E. unfold at_byte. cbn [lookup list_lookup].
  rewrite H80. cbn [Z.eqb negb]. destruct (_ =? 0); [done|]. by destruct (Z.ltb_spec rem (21 + short)); [|lia].
Qed.

Lemma get_dst_long b b1 b2 b3 b4 id c rem short : (Z.land b 0x80 =? 0) = false -> negb ((b1 =? 0) && (b2 =? 0) && (b3 =? 0) && (b4 =? 0)) && (Z.land b 0x40 =? 0) = false ->
  id_len id <= 20 -> short <= 20 -> 7 + id_len id <= rem <= Z.of_nat (length (b :: [b1; b2; b3; b4; id_len id] ++ id ++ c)) ->
  ossl_quic_wire_get_pkt_hdr_dst_conn_id (b :: [b1; b2; b3; b4; id_len id] ++ id ++ c) rem short = Ret id.
Proof.
  intros H80 H40 Hid Hs Hr. unfold ossl_quic_wire_get_pkt_hdr_dst_conn_id, QUIC_MIN_VALID_PKT_LEN, QUIC_MIN_VALID_PKT_LEN_CRYPTO, QUIC_MAX_CONN_ID_LEN.
  unfold id_len in *. destruct (Z.ltb_spec rem 7); [lia|]. destruct (Z.ltb_spec 20 short); [lia|]. cbn [orb]. unfold at_byte. cbn [lookup list_lookup app].
  rewrite H80, H40. cbn [negb]. destruct (Z.ltb_spec 20 (Z.of_nat (length id))); [lia|]. destruct (Z.ltb_spec rem (7 + Z.of_nat (length id))); [lia|]. cbn [orb].
  cbn [app] in Hr. rewrite copy_from_ok by lia. change (drop 6 _) with (id ++ c). by rewrite Nat2Z.id, take_app_length.
Qed.

(** C24: the header of any packet can be decoded: whatever the bytes received, no
    load leaves the packet, and what is left to decode is the rest of it.  The
    identifier that is looked up to route a datagram, before it is decoded, is
    defined too; it is the destination of the header that a decoder (with or
    without header protection removed) returns, except that a short packet with
    room for an identifier but not for a minimum of encrypted bytes behind it has
    no destination. *)
Theorem pkt_decoder_robust short is_partial nodata p : packet_ok p -> 0 <= short <= 20 ->
  let dst := ossl_quic_wire_get_pkt_hdr_dst_conn_id (curr p) (remaining p) short in
  dst <> Undef /\
  exists r p', ossl_quic_wire_decode_pkt_hdr short is_partial nodata p = (r, p') /\ r <> Undef /\ packet_ok p' /\ suffix_of p' p /\
    forall h ptrs, r = Ret (h, ptrs) -> id_len (dst_conn_id h) <= 20 /\
      (dst = Ret (dst_conn_id h) \/ dst = Err /\ type h = QUIC_PKT_TYPE_1RTT /\ remaining p < 21 + short).
Proof.
  intros Hp Hs dst. split; [apply get_dst_defined; [done|lia]|]. destruct (decode_hdr_safe short is_partial nodata ltac:(lia) p Hp) as (r & p' & E & Hr & Hp' & Hsf).
  exists r, p'. split_and!; try done. intros h ptrs ->. pose proof Hp as [Hrem _ _]. unfold ossl_quic_wire_decode_pkt_hdr in E.
  apply bind_inv in E as (? & ? & [= <- <-] & E). apply bind_inv in E as (? & ? & G & E). apply guard_inv in G as [G ->]. apply negb_true_iff, Z.ltb_ge in G.
  apply bind_inv in E as (b & p1 & E1 & E). destruct (get_1_safe p Hp) as (r & p1' & E1' & _ & Hp1 & _). rewrite E1 in E1'. injection E1' as <- <-.
  apply get_1_inv in E1 as ([T1 R1] & Hb & _); [|done]. apply bind_inv in E as ([h' o] & p2 & E & [= -> _ _]). cbn [app fst length] in *.
  rewrite T1 in Hrem. unfold dst. rewrite T1. destruct (Z.eqb_spec (Z.land b 0x80) 0) as [H80|H80].
  - apply short_dst in E as (H40 & H20 & Hty & c & Ec & Hid); [|done|lia]. rewrite Ec in *. split; [lia|].
    destruct (Z.lt_ge_cases (remaining p) (21 + short)) as [Hlt|Hge].
    + right. split_and!; [|done..]. apply get_dst_small; [done| |done]. unfold QUIC_MIN_VALID_PKT_LEN in G. lia.
    + left. rewrite <- Hid in *. apply get_dst_short; try done. lia.
  - apply long_dst in E as (b1 & b2 & b3 & b4 & c & Ec & H40 & H20 & Hl); [|done]. split; [done|]. left. rewrite Ec in *.
    apply get_dst_long; try done; [by apply Z.eqb_neq|lia|lia].
Qed.
End QuicWirePktSafe.
