(* ===== verification/QuicRetry.v ===== *)
(** * Integrity tags of Retry packets

    Model of the last part of [ssl/quic/quic_wire_pkt.c]: the tag of a Retry
    packet (RFC 9001, 5.8) and its validation.  The cipher AES-128-GCM is a
    parameter. *)
From Stdlib Require Import ZArith Lia.
From stdpp Require Import base tactics list.
From S2P Require Import Prelude QuicVlint Packet BufMem WPacket QuicWire QuicWirePkt QuicWirePktSpec.
Import Vlint QuicWirePkt QuicWirePktSpec.
#[local] Open Scope Z_scope.

Module QuicRetry.

Definition QUIC_RETRY_INTEGRITY_TAG_LEN : Z := 16.
Definition retry_integrity_key : list Z :=
  [0xbe; 0x0c; 0x69; 0x0b; 0x9f; 0x66; 0x57; 0x5a; 0x1d; 0x76; 0x6b; 0x54; 0xe3; 0x68; 0xc8; 0x4e].
Definition retry_integrity_nonce : list Z := [0x46; 0x15; 0x99; 0xd3; 0x5d; 0x63; 0x2b; 0xf2; 0x23; 0x98; 0x25; 0xbb].

Definition set_len (n : Z) (h : QUIC_PKT_HDR) : QUIC_PKT_HDR :=
  mkHdr (type h) (spin_bit h) (key_phase h) (pn_len h) (partial h) (fixed h) (unused h) (reserved h) (version h) (dst_conn_id h) (src_conn_id h)
    (pn h) (token h) (token_len h) n (data h).
Definition set_data (d : list Z) (h : QUIC_PKT_HDR) : QUIC_PKT_HDR :=
  mkHdr (type h) (spin_bit h) (key_phase h) (pn_len h) (partial h) (fixed h) (unused h) (reserved h) (version h) (dst_conn_id h) (src_conn_id h)
    (pn h) (token h) (token_len h) (len h) (Some d).

(** [goto err]: the packet is finished, whatever that returns. *)
Definition goto_err {A} (m : M wst A) : M wst A := fun s =>
  match m s with (Err, s') => match WPacket.WPACKET_finish s' with (Undef, s2) => (Undef, s2) | (_, s2) => (Err, s2) end | r => r end.

(** A call whose result is not looked at. *)
Definition ignoring {A} (m : M wst A) : M wst unit := fun s =>
  match m s with (Undef, s') => (Undef, s') | (_, s') => (Ret tt, s') end.

Section Tags.
(** Whether a context for the cipher can be set up with a key and a nonce; the tag
    of data that is authenticated and not encrypted, absent on an error. *)
Context (gcm_init : list Z -> list Z -> bool) (gcm_tag : list Z -> list Z -> list Z -> option (list Z)).

(** The packet [wpkt] is the state; [buf] holds what the automatic variable held.
    The result is the tag. *)
Definition ossl_quic_calculate_retry_integrity_tag (buf : list Z) (hdr : QUIC_PKT_HDR) (client_initial_dcid : option (list Z)) : M wst (list Z) :=
  match data hdr, client_initial_dcid with
  | Some d, Some dcid =>
      guard_ (negb (negb (type hdr =? QUIC_PKT_TYPE_RETRY) || (version hdr =? 0) || (len hdr <? QUIC_RETRY_INTEGRITY_TAG_LEN)
                    || (QUIC_MAX_CONN_ID_LEN <? id_len dcid)));;
      WPacket.WPACKET_init_static_len buf 128 0;;
      goto_err (WPacket.WPACKET_put_bytes_u8 (id_len dcid);; WPacket.WPACKET_memcpy dcid);;
      goto_err (ossl_quic_wire_encode_pkt_hdr (id_len (dst_conn_id hdr)) (set_len 0 hdr) false);;
      w ← WPacket.pkt;
      let hdr_enc_len := WPacket.WPACKET_get_total_written w in
      goto_err (guard_ (gcm_init retry_integrity_key retry_integrity_nonce));;
      body ← bytes_at (Some d) (len hdr - QUIC_RETRY_INTEGRITY_TAG_LEN);
      match gcm_tag retry_integrity_key retry_integrity_nonce (take (Z.to_nat hdr_enc_len) (WPacket.wbytes w) ++ body) with
      | None => fail
      | Some tag =>
          ignoring WPacket.WPACKET_finish;;
          mret tag
      end
  | _, _ => fail
  end.

Definition ossl_quic_validate_retry_integrity_tag (buf : list Z) (hdr : QUIC_PKT_HDR) (client_initial_dcid : option (list Z)) : M wst unit :=
  guard_ (negb (len hdr <? QUIC_RETRY_INTEGRITY_TAG_LEN));;
  expected_tag ← ossl_quic_calculate_retry_integrity_tag buf hdr client_initial_dcid;
  actual_tag ← bytes_at (data hdr ≫= fun d => Some (drop (Z.to_nat (len hdr - QUIC_RETRY_INTEGRITY_TAG_LEN)) d)) QUIC_RETRY_INTEGRITY_TAG_LEN;
  guard_ (bool_decide (expected_tag = actual_tag)).

(** ** What is authenticated *)

(** The pseudo-packet of RFC 9001: the identifier the client used first, and the
    Retry packet without its tag. *)
Definition pseudo_packet (dcid : list Z) (h : QUIC_PKT_HDR) : list Z :=
  id_len dcid :: dcid ++ hdr_bytes h ++ take (Z.to_nat (len h - 16)) (payload h).

Context (short : Z) (h : QUIC_PKT_HDR) (dcid buf : list Z).
Hypothesis Hh : hdr_ok short h.
Hypothesis Hty : type h = QUIC_PKT_TYPE_RETRY.
Hypothesis Hdcid : bytes dcid /\ id_len dcid <= 20.
Hypothesis Hbuf : length buf = 128%nat.

Lemma set_len_fields short' : fields_ok short' (set_len 0 h) /\ hdr_bytes (set_len 0 h) = hdr_bytes h.
Proof.
  destruct Hh as [[F1 F2 F3 F4 F5 F6 F7 F8 [F9 F10]] _ _]. split.
  - destruct F4 as (bs & ? & ? & ? & Hp). split; try done; [by exists bs|by cbn; rewrite Hty|]. cbn. rewrite Hty in Hp. cbn in Hp. rewrite Hp. split; [lia|]. 
    unfold OSSL_QUIC_VLINT_MAX. vm_compute. congruence.
  - unfold hdr_bytes, first_byte, prefix, pn_bytes, b0_long, type_to_raw, token_bytes. cbn [type set_len version dst_conn_id src_conn_id pn pn_len fixed reserved unused].
    by rewrite Hty.
Qed.

Lemma goto_err_ret {A B} (m : M wst A) (f : A -> M wst B) s a s' : m s = (Ret a, s') -> (goto_err m ≫= f) s = f a s'.
Proof. intros E. apply bind_ret. unfold goto_err. by rewrite E. Qed.

Lemma payload_ok : exists d, data h = Some d /\ payload h = d /\ Z.of_nat (length d) = len h /\ 16 <= len h.
Proof.
  destruct (ho_data _ _ Hh) as (d & Ed & _ & Hd). exists d. split_and!; try done; [unfold payload; by rewrite Ed|].
  destruct (ho_len _ _ Hh) as (_ & _ & H & _). by apply H.
Qed.

Lemma body_run (s : wst) d : data h = Some d -> bytes_at (Some d) (len h - QUIC_RETRY_INTEGRITY_TAG_LEN) s = (Ret (take (Z.to_nat (len h - 16)) (payload h)), s).
Proof.
  intros Ed. destruct payload_ok as (d' & Ed' & -> & Hl & H16). rewrite Ed in Ed'. injection Ed' as <-. unfold bytes_at, QUIC_RETRY_INTEGRITY_TAG_LEN.
  destruct (Z.eqb_spec (len h - 16) 0) as [E|E]; [by rewrite E|]. by destruct (Z.leb_spec (len h - 16) (Z.of_nat (length d))); [|lia].
Qed.

(** The header of the pseudo-packet fits into the buffer. *)
Lemma hdr_short : (length (hdr_bytes h) <= 47)%nat.
Proof. destruct (last_shape _ _ Hh) as [_ ->]; [by rewrite Hty|]. destruct (ho_ids _ _ Hh) as (_ & _ & ? & ?). unfold id_len in *. lia. Qed.

Lemma assemble_run {B} (f : unit -> M wst B) w hp : WPacket.wp_ok w -> WPacket.endfirst w = false -> WPacket.fits (w, hp) 128 ->
  exists w' hp', WPacket.extends w w' (id_len dcid :: dcid ++ hdr_bytes h) /\
    (goto_err (WPacket.WPACKET_put_bytes_u8 (id_len dcid);; WPacket.WPACKET_memcpy dcid);;
     goto_err (ossl_quic_wire_encode_pkt_hdr (id_len (dst_conn_id h)) (set_len 0 h) false);; f tt) (w, hp) = f tt (w', hp').
Proof.
  intros Hok He Hfit. pose proof Hfit as (Hst & Hs & Hall & Hroom). cbn [fst snd] in *. destruct (static_curr _ Hok Hst He) as [Hbk _].
  destruct Hdcid as [Hdb Hdl]. destruct (set_len_fields (id_len (dst_conn_id h))) as [Hf Eb]. pose proof hdr_short as Hhl.
  assert (Hput : WPacket.appends (WPacket.WPACKET_put_bytes_u8 (id_len dcid);; WPacket.WPACKET_memcpy dcid) ([id_len dcid] ++ dcid)).
  { apply WPacket.appends_bind; [by apply QuicWire.put_u8_appends, id_byte|intros _; apply WPacket.memcpy_appends]. }
  unfold id_len in Hdl. destruct (puts_unit _ _ Hput w hp Hok Hbk He) as (w2 & hp2 & E2 & Hx2 & Ha2).
  { unfold WPacket.fits. cbn [app length fst snd] in *. split_and!; try done. lia. }
  pose proof Hx2 as (Hok2 & Hfr2 & _). assert (He2 : WPacket.endfirst w2 = false) by (by destruct Hfr2 as (_ & _ & -> & _)).
  destruct (encode_spec (id_len (dst_conn_id h)) (set_len 0 h) false w2 hp2 Hf) as (w3 & hp3 & E3 & Hx3 & Ha3); [done..| |].
  { eapply WPacket.extends_fits; [exact Hx2|done|]. unfold WPacket.fits, packet_len. cbn [fst snd len set_len app length]. rewrite Eb. split_and!; try done. lia. }
  rewrite Eb in Hx3. exists w3, hp3. split; [exact (WPacket.extends_trans _ _ _ _ _ Hx2 Hx3)|].
  rewrite (goto_err_ret _ _ _ _ _ E2), (goto_err_ret _ _ _ _ _ E3). done.
Qed.

(** The tag is the one of the pseudo-packet; the packet is finished unless the
    cipher fails. *)
Lemma calculate_run w0 hp : WPacket.all_ok hp -> gcm_init retry_integrity_key retry_integrity_nonce = true ->
  exists s', WPacket.subs s'.1 <> [] /\
    ossl_quic_calculate_retry_integrity_tag buf h (Some dcid) (w0, hp) =
      match gcm_tag retry_integrity_key retry_integrity_nonce (pseudo_packet dcid h) with
      | Some tag => (Ret tag, (WPacket.set_subs [] s'.1, s'.2))
      | None => (Err, s')
      end.
Proof.
  intros Hall Hinit. destruct payload_ok as (d & Ed & Epl & Hl & H16).
  assert (Hty1 : type h <> QUIC_PKT_TYPE_1RTT) by (by rewrite Hty). pose proof (ho_version _ _ Hh Hty1) as Ev. rewrite Hty in Ev. cbn in Ev.
  destruct (WPacket.init_static_spec w0 hp buf) as (w & hp1 & E1 & Hok & Hbk & He & Ha & Hc & Hw & Hmx & Hs & Hst); [by destruct buf|rewrite Hbuf; done|done|].
  rewrite Hbuf in E1, Hmx. unfold ossl_quic_calculate_retry_integrity_tag. rewrite Ed, guard_true.
  2: { destruct Hdcid as [_ Hdl]. rewrite Hty, Ev. unfold QUIC_RETRY_INTEGRITY_TAG_LEN, QUIC_MAX_CONN_ID_LEN. cbn [Z.eqb Pos.eqb negb orb QUIC_PKT_TYPE_RETRY QUIC_VERSION_1].
       destruct (Z.ltb_spec (len h) 16); [lia|]. by destruct (Z.ltb_spec 20 (id_len dcid)); [lia|]. }
  rewrite (bind_ret _ _ _ _ _ E1).
  match goal with |- context [(_;; goto_err _;; ?g)%stdpp (w, hp1)] => destruct (assemble_run (fun _ => g) w hp1) as (w3 & hp3 & Hx & E3) end; [done..| |].
  { unfold WPacket.fits. cbn [fst snd]. rewrite Hs, Hw, Hmx. split_and!; done || lia. }
  destruct Hx as (Hok3 & (_ & Es & Ee & _) & Hw3 & Hc3). exists (w3, hp3). cbn [fst snd]. rewrite Es, Hs. split; [done|]. rewrite E3, WPacket.pkt_bind. cbn [fst].
  rewrite Hinit. rewrite (goto_err_ret (guard_ true) _ _ tt (w3, hp3)) by done. rewrite (bind_ret _ _ _ _ _ (body_run _ _ Ed)).
  assert (Ec : take (Z.to_nat (WPacket.WPACKET_get_total_written w3)) (WPacket.wbytes w3) = id_len dcid :: dcid ++ hdr_bytes h).
  { rewrite Hc in Hc3. exact Hc3. }
  rewrite Ec. change ((_ :: _) ++ ?x) with (id_len dcid :: (dcid ++ hdr_bytes h) ++ x). rewrite <- app_assoc. fold (pseudo_packet dcid h).
  destruct (gcm_tag _ _ _) as [tag|]; [|done].
  erewrite bind_ret; [|unfold ignoring; rewrite WPacket.finish_spec; [reflexivity|done|by rewrite Ee|by rewrite Es]]. done.
Qed.

Lemma validate_run w0 hp : WPacket.all_ok hp -> gcm_init retry_integrity_key retry_integrity_nonce = true ->
  (ossl_quic_validate_retry_integrity_tag buf h (Some dcid) (w0, hp)).1 =
    match gcm_tag retry_integrity_key retry_integrity_nonce (pseudo_packet dcid h) with
    | Some tag => if bool_decide (tag = drop (Z.to_nat (len h - 16)) (payload h)) then Ret tt else Err
    | None => Err
    end.
Proof.
  intros Hall Hinit. destruct payload_ok as (d & Ed & Epl & Hl & H16). destruct (calculate_run w0 hp Hall Hinit) as (s' & _ & E).
  unfold ossl_quic_validate_retry_integrity_tag, QUIC_RETRY_INTEGRITY_TAG_LEN. rewrite guard_true by (apply negb_true_iff, Z.ltb_ge; lia).
  destruct (gcm_tag _ _ (pseudo_packet dcid h)) as [tag|]; [|by rewrite (bind_err _ _ _ _ E)].
  rewrite (bind_ret _ _ _ _ _ E), Ed, Epl. cbn [mbind option_bind]. set (act := drop _ d).
  assert (Ha : length act = 16%nat) by (unfold act; rewrite length_drop; lia).
  erewrite bind_ret.
  2: { unfold bytes_at. cbn [Z.eqb]. destruct (Z.leb_spec 16 (Z.of_nat (length act))); [|lia]. rewrite take_ge by (rewrite Ha; done). reflexivity. }
  by case_bool_decide.
Qed.
End Tags.

Lemma fill_ok short h tag : hdr_ok short h -> type h = QUIC_PKT_TYPE_RETRY -> bytes tag -> length tag = 16%nat ->
  let h' := set_data (take (Z.to_nat (len h - 16)) (payload h) ++ tag) h in
  hdr_ok short h' /\ (forall dcid, pseudo_packet dcid h' = pseudo_packet dcid h) /\ drop (Z.to_nat (len h - 16)) (payload h') = tag.
Proof.
  intros Hh Hty Htb Htl. cbn zeta. destruct (payload_ok _ _ Hh Hty) as (d & Ed & Epl & Hl & H16). rewrite Epl.
  assert (Ht : length (take (Z.to_nat (len h - 16)) d) = Z.to_nat (len h - 16)) by (rewrite length_take; lia).
  destruct Hh as [[F1 F2 F3 F4 F5 F6 F7 F8 F9] G1 (d' & Ed' & Hdb & _)]. rewrite Ed in Ed'. injection Ed' as <-. split_and!.
  - split; [split; done|done|]. cbn. eexists. split; [done|]. split; [apply Forall_app; split; [by apply Forall_take|done]|]. rewrite length_app, Ht, Htl. lia.
  - intros dcid. unfold pseudo_packet. f_equal. f_equal. unfold payload at 1. cbn [set_data data default from_option len id].
    rewrite take_app_length' by done. by rewrite Epl.
  - unfold payload. cbn [set_data data default from_option id]. by rewrite drop_app_length' by done.
Qed.

(** The tag of a Retry packet authenticates the pseudo-packet of RFC 9001: the
    identifier the client used first, and the packet without its tag.  Validation
    accepts exactly the packets that end in the tag computed from it, so it
    accepts a packet whose tag the sender has filled in. *)
Theorem retry_tag_exact gcm_init gcm_tag short h dcid buf w hp tag :
  hdr_ok short h -> type h = QUIC_PKT_TYPE_RETRY -> bytes dcid /\ id_len dcid <= 20 -> length buf = 128%nat -> WPacket.all_ok hp ->
  gcm_init retry_integrity_key retry_integrity_nonce = true ->
  gcm_tag retry_integrity_key retry_integrity_nonce (pseudo_packet dcid h) = Some tag -> bytes tag -> length tag = 16%nat ->
  (exists s, ossl_quic_calculate_retry_integrity_tag gcm_init gcm_tag buf h (Some dcid) (w, hp) = (Ret tag, s)) /\
  (ossl_quic_validate_retry_integrity_tag gcm_init gcm_tag buf h (Some dcid) (w, hp)).1 =
    (if bool_decide (tag = drop (Z.to_nat (len h - 16)) (payload h)) then Ret tt else Err) /\
  (ossl_quic_validate_retry_integrity_tag gcm_init gcm_tag buf (set_data (take (Z.to_nat (len h - 16)) (payload h) ++ tag) h) (Some dcid) (w, hp)).1 = Ret tt.
Proof.
  intros Hh Hty Hd Hb Ha Hi Et Htb Htl. destruct (fill_ok short h tag Hh Hty Htb Htl) as (Hh' & Ep & Edr). split_and!.
  - destruct (calculate_run gcm_init gcm_tag short h dcid buf Hh Hty Hd Hb w hp Ha Hi) as (s' & _ & E). rewrite Et in E. by eexists.
  - rewrite (validate_run _ _ short) by done. by rewrite Et.
  - rewrite (validate_run _ _ short) by done. rewrite Ep, Et. rewrite bool_decide_eq_true_2; [done|]. by rewrite <- Edr at 1.
Qed.

(** An error of the cipher while the tag is computed returns at once: the
    sub-packet of [wpkt] stays allocated (so do the contexts of the cipher). *)
Theorem retry_tag_error_leaks gcm_init gcm_tag short h dcid buf w hp :
  hdr_ok short h -> type h = QUIC_PKT_TYPE_RETRY -> bytes dcid /\ id_len dcid <= 20 -> length buf = 128%nat -> WPacket.all_ok hp ->
  gcm_init retry_integrity_key retry_integrity_nonce = true ->
  gcm_tag retry_integrity_key retry_integrity_nonce (pseudo_packet dcid h) = None ->
  exists s, ossl_quic_calculate_retry_integrity_tag gcm_init gcm_tag buf h (Some dcid) (w, hp) = (Err, s) /\ WPacket.subs s.1 <> [].
Proof.
  intros Hh Hty Hd Hb Ha Hi Et. destruct (calculate_run gcm_init gcm_tag short h dcid buf Hh Hty Hd Hb w hp Ha Hi) as (s' & Hs & E).
  rewrite Et in E. by exists s'.
Qed.
End QuicRetry.
