(* ===== verification/PktSample.v ===== *)
(** * Concrete packets

    An Initial packet and a Retry packet, at which the properties of packet
    headers hold, with ciphers that are functions of the sample and of the data. *)
From Stdlib Require Import ZArith Lia.
From stdpp Require Import base tactics list.
From S2P Require Import Prelude QuicVlint Packet BufMem WPacket QuicWirePkt QuicWirePktSpec QuicWirePktSafe QuicRetry.
Import Vlint QuicWirePkt QuicWirePktSpec QuicRetry.
#[local] Open Scope Z_scope.

Module PktSample.

Definition sample_id : list Z := [0x83; 0x94; 0xc8; 0xf0; 0x3e; 0x51; 0x57; 0x08].
Definition sample_payload : list Z := [6; 0; 18; 1; 2; 3; 4; 5; 6; 7; 8; 9; 10; 11; 12; 13; 14; 15; 16; 17; 18].

(** A client's Initial packet with the number 0x0203 and a token of two bytes. *)
Definition sample_initial : QUIC_PKT_HDR :=
  mkHdr QUIC_PKT_TYPE_INITIAL false false 2 false true 0 0 QUIC_VERSION_1 sample_id [] [2; 3; 0; 0] (Some [7; 8]) 2 21 (Some sample_payload).
(** A Retry packet with a token of five bytes in front of its tag. *)
Definition sample_retry : QUIC_PKT_HDR :=
  mkHdr QUIC_PKT_TYPE_RETRY false false 0 false true 5 0 QUIC_VERSION_1 [] sample_id zero_pn None 0 21 (Some sample_payload).

Ltac sample_bytes := repeat constructor; unfold is_u8; lia.
(** Evaluates the conditions on the fields of a concrete header. *)
Ltac sample_field := vm_compute; intuition congruence.

Lemma sample_initial_ok : hdr_ok 0 sample_initial.
Proof.
  split; [split|..].
  - sample_field.
  - done.
  - split_and!; [sample_bytes|sample_bytes|sample_field..].
  - exists [2; 3]. split_and!; [sample_bytes|done..].
  - sample_field.
  - sample_field.
  - done.
  - split; [sample_field|]. cbn. exists [7; 8]. split_and!; [done|sample_bytes|done].
  - sample_field.
  - sample_field.
  - exists sample_payload. split_and!; [done|sample_bytes|done].
Qed.

Lemma sample_retry_ok : hdr_ok 0 sample_retry.
Proof.
  split; [split|..].
  - sample_field.
  - done.
  - split_and!; [sample_bytes|sample_bytes|sample_field..].
  - exists []. split_and!; [constructor|done..].
  - sample_field.
  - sample_field.
  - done.
  - done.
  - sample_field.
  - sample_field.
  - exists sample_payload. split_and!; [done|sample_bytes|done].
Qed.

(** An open packet in a buffer of 64 bytes. *)
Definition sample_writer : WPacket.WPACKET := WPacket.mkW None (Some (replicate 64 0)) 0 0 64 [WPacket.mkSub 0 0 0 0] false.
(** What follows in the datagram. *)
Definition sample_rest : list Z := [0x41; 1; 2; 3].

Lemma sample_writer_ok : WPacket.wp_ok sample_writer /\ WPacket.fits (sample_writer, []) (packet_len sample_initial).
Proof.
  split; [split; vm_compute; intuition congruence|]. unfold WPacket.fits. split_and!; [done|done|constructor|]. vm_compute. congruence.
Qed.

(** A cipher: any function of the sample will do. *)
Definition sample_cipher (sample : list Z) : option (list Z) := Some ((fun x => u8 (7 * x + 3)) <$> sample).
Definition sample_gcm (key nonce aad : list Z) : option (list Z) := Some (u8 (Z.of_nat (length aad)) :: take 15 key).

Lemma sample_cipher_ok sample : length sample = 16%nat -> exists m, sample_cipher sample = Some m /\ bytes m /\ (5 <= length m)%nat.
Proof.
  intros Hl. eexists. split; [done|]. split; [|rewrite length_fmap; lia]. apply Forall_fmap, Forall_true. intros x. unfold is_u8. apply u8_range.
Qed.

Lemma pkt_pn_roundtrip_witness :
  exists bs, ossl_quic_wire_encode_pkt_hdr_pn 0xac5c02 (ossl_quic_wire_determine_pn_len 0xac5c02 0xabe8b3) = Some bs /\
    ossl_quic_wire_decode_pkt_hdr_pn (bs ++ sample_payload) (ossl_quic_wire_determine_pn_len 0xac5c02 0xabe8b3) 0xac5bff = Ret 0xac5c02.
Proof. apply (pkt_pn_roundtrip 0xac5c02 0xabe8b3 0xac5bff sample_payload); vm_compute; intuition congruence. Defined.

Lemma pkt_hdr_roundtrip_witness :
  exists w' hp' ptrs h' ptrs',
    ossl_quic_wire_encode_pkt_hdr 0 sample_initial true (sample_writer, []) = (Ret ptrs, (w', hp')) /\
    WPacket.extends sample_writer w' (hdr_bytes sample_initial) /\
    ossl_quic_wire_get_encoded_pkt_hdr_len 0 sample_initial = Z.of_nat (length (hdr_bytes sample_initial)) /\
    ossl_quic_wire_decode_pkt_hdr 0 false false
      (mkP (hdr_bytes sample_initial ++ payload sample_initial ++ sample_rest) (packet_len sample_initial + Z.of_nat (length sample_rest))) =
      (Ret (h', ptrs'), mkP sample_rest (Z.of_nat (length sample_rest))) /\
    view h' = view sample_initial /\ raw_pn ptrs' = raw_pn ptrs.
Proof.
  apply (pkt_hdr_roundtrip 0 sample_initial sample_writer [] sample_rest).
  - exact sample_initial_ok.
  - apply sample_writer_ok.
  - done.
  - apply sample_writer_ok.
  - sample_bytes.
  - done.
  - by vm_compute.
  - by vm_compute.
Defined.

Lemma pkt_protection_transparent_witness :
  exists prot hp ptrs h' ptrs',
    ossl_quic_hdr_protector_encrypt QUIC_HDR_PROT_CIPHER_AES_128 sample_cipher (hdr_bytes sample_initial ++ payload sample_initial) (packet_ptrs sample_initial true) = Ret prot /\
    (exists b' pn', prot = b' :: prefix sample_initial ++ pn' ++ payload sample_initial /\ length pn' = length (pn_bytes sample_initial) /\
       Z.land b' (open_bits sample_initial) = Z.land (first_byte sample_initial) (open_bits sample_initial)) /\
    ossl_quic_wire_decode_pkt_hdr 0 true false (mkP (prot ++ sample_rest) (packet_len sample_initial + Z.of_nat (length sample_rest))) =
      (Ret (hp, ptrs), mkP sample_rest (Z.of_nat (length sample_rest))) /\
    type hp = QUIC_PKT_TYPE_INITIAL /\ dst_conn_id hp = sample_id /\ src_conn_id hp = [] /\ partial hp = true /\
    ossl_quic_hdr_protector_decrypt QUIC_HDR_PROT_CIPHER_AES_128 sample_cipher (prot ++ sample_rest) ptrs =
      Ret (hdr_bytes sample_initial ++ payload sample_initial ++ sample_rest) /\
    ossl_quic_wire_decode_pkt_hdr 0 false false
      (mkP (hdr_bytes sample_initial ++ payload sample_initial ++ sample_rest) (packet_len sample_initial + Z.of_nat (length sample_rest))) =
      (Ret (h', ptrs'), mkP sample_rest (Z.of_nat (length sample_rest))) /\ view h' = view sample_initial.
Proof.
  apply (pkt_protection_transparent QUIC_HDR_PROT_CIPHER_AES_128 sample_cipher ltac:(by vm_compute) sample_cipher_ok 0 sample_initial sample_rest sample_initial_ok).
  - done.
  - sample_bytes.
  - done.
  - by vm_compute.
Defined.

Lemma retry_tag_exact_witness :
  let tag := 29 :: take 15 retry_integrity_key in
  let validate h := (ossl_quic_validate_retry_integrity_tag (fun _ _ => true) sample_gcm (replicate 128 0) h (Some sample_id) (sample_writer, [])).1 in
  (exists s, ossl_quic_calculate_retry_integrity_tag (fun _ _ => true) sample_gcm (replicate 128 0) sample_retry (Some sample_id) (sample_writer, []) = (Ret tag, s)) /\
  validate sample_retry = (if bool_decide (tag = drop 5 sample_payload) then Ret tt else Err) /\
  validate (set_data (take 5 sample_payload ++ tag) sample_retry) = Ret tt.
Proof.
  apply (retry_tag_exact (fun _ _ => true) sample_gcm 0 sample_retry sample_id (replicate 128 0) sample_writer [] (29 :: take 15 retry_integrity_key)).
  - exact sample_retry_ok.
  - done.
  - split; [sample_bytes|by vm_compute].
  - done.
  - constructor.
  - done.
  - by vm_compute.
  - sample_bytes.
  - done.
Defined.

Lemma pkt_decoder_robust_witness : let p := mkP (hdr_bytes sample_initial ++ sample_payload) (packet_len sample_initial) in
  let dst := ossl_quic_wire_get_pkt_hdr_dst_conn_id (Packet.curr p) (Packet.remaining p) 0 in
  dst <> Undef /\
  exists r p', ossl_quic_wire_decode_pkt_hdr 0 true false p = (r, p') /\ r <> Undef /\ Packet.packet_ok p' /\ Packet.suffix_of p' p /\
    forall h ptrs, r = Ret (h, ptrs) -> id_len (dst_conn_id h) <= 20 /\
      (dst = Ret (dst_conn_id h) \/ dst = Err /\ type h = QUIC_PKT_TYPE_1RTT /\ Packet.remaining p < 21 + 0).
Proof.
  apply (QuicWirePktSafe.pkt_decoder_robust 0 true false).
  - split; [by vm_compute|by vm_compute|]. vm_compute. repeat constructor; congruence.
  - lia.
Defined.

(** A partial decoding leaves out four bytes in front of the payload, although the
    packet number may be shorter. *)
Theorem partial_decode_skips_pn : exists h ptrs p,
  ossl_quic_wire_decode_pkt_hdr 0 true false (mkP (hdr_bytes sample_initial ++ sample_payload) (packet_len sample_initial)) = (Ret (h, ptrs), p) /\
  len h = len sample_initial - 2 /\ data h = Some (drop 2 sample_payload).
Proof. eexists _, _, _. by vm_compute. Qed.

(** A complete short packet with two bytes behind the identifier. *)
Definition tiny_packet : list Z := 0x40 :: replicate 20 9 ++ [1; 2].
Theorem raw_pn_without_four_bytes : exists h p,
  ossl_quic_wire_decode_pkt_hdr 20 false false (mkP tiny_packet 23) = (Ret (h, mkPtrs (Some 0) (Some 25) (2 ^ 64 - 2) (Some 21)), p).
Proof. eexists _, _. by vm_compute. Qed.
End PktSample.
