(* ===== verification/PriorityQueue.v ===== *)
(** * Priority queues

    Model of [ssl/priority_queue.c]: a binary heap whose entries carry a handle
    by which a client can remove them.  The handles index [elements]: a handle
    in use holds the position of its entry in [heap], and the free ones are
    linked through the same field.

    The build modelled is the one with assertions: a failed [ASSERT_USED] or
    [ASSERT_ELEM_USED] aborts, which the model treats like any other undefined
    behaviour, so that what is proved to be defined passes them all.  Entries
    of [heap] beyond the allocated and written ones are [None]; reading one is
    undefined.  Positions are [nat]: every queue has fewer than [max_nodes]
    (below 2^60) entries, so [2 * n + 2] does not wrap.  The arithmetic on the
    number of entries a client asks to reserve is done modulo 2^64. *)
From Stdlib Require Import ZArith Lia.
From stdpp Require Import base tactics list gmap sorting.
From S2P Require Import Prelude SafeMath.
#[local] Open Scope Z_scope.

Module PQueue.

Section Model.
Context {D : Type}.

Record pq_heap_st := mkHeap { data : D; index : nat }.
Record pq_elem_st := mkElem { posn : nat; used : bool }.
Record OSSL_PQUEUE := mkPq {
  heap : list (option pq_heap_st); elements : list pq_elem_st;
  compare : D -> D -> Z; htop : nat; hmax : nat; freelist : nat
}.

Definition set_heap (h : list (option pq_heap_st)) (q : OSSL_PQUEUE) : OSSL_PQUEUE :=
  mkPq h (elements q) (compare q) (htop q) (hmax q) (freelist q).
Definition set_elements (e : list pq_elem_st) (q : OSSL_PQUEUE) : OSSL_PQUEUE :=
  mkPq (heap q) e (compare q) (htop q) (hmax q) (freelist q).
Definition set_htop (n : nat) (q : OSSL_PQUEUE) : OSSL_PQUEUE :=
  mkPq (heap q) (elements q) (compare q) n (hmax q) (freelist q).
Definition set_hmax (n : nat) (q : OSSL_PQUEUE) : OSSL_PQUEUE :=
  mkPq (heap q) (elements q) (compare q) (htop q) n (freelist q).
Definition set_freelist (n : nat) (q : OSSL_PQUEUE) : OSSL_PQUEUE :=
  mkPq (heap q) (elements q) (compare q) (htop q) (hmax q) n.

Abbreviation PQ := (M OSSL_PQUEUE).

Definition min_nodes : nat := 8.
Definition max_nodes : Z := SIZE_MAX / 16.

(** Array accesses; out of range, or of an entry never written, undefined. *)
Definition heap_at (i : nat) : PQ pq_heap_st := fun q =>
  match heap q !! i with Some (Some h) => (Ret h, q) | _ => (Undef, q) end.
Definition elem_at (i : nat) : PQ pq_elem_st := fun q =>
  match elements q !! i with Some e => (Ret e, q) | None => (Undef, q) end.
Definition put_heap (i : nat) (h : pq_heap_st) : PQ unit := fun q =>
  if decide (i < length (heap q))%nat then (Ret tt, set_heap (<[i := Some h]> (heap q)) q) else (Undef, q).
Definition put_elem (i : nat) (e : pq_elem_st) : PQ unit := fun q =>
  if decide (i < length (elements q))%nat then (Ret tt, set_elements (<[i := e]> (elements q)) q) else (Undef, q).
Definition set_posn (i p : nat) : PQ unit := e ← elem_at i; put_elem i (mkElem p (used e)).
Definition set_used (i : nat) (b : bool) : PQ unit := e ← elem_at i; put_elem i (mkElem (posn e) b).

Definition assert_ (b : bool) : PQ unit := if b then mret tt else undefined.
Definition ASSERT_USED (idx : nat) : PQ unit :=
  h ← heap_at idx; e ← elem_at (index h);
  assert_ (used e);; assert_ (bool_decide (posn e = idx)).
Definition ASSERT_ELEM_USED (elem : nat) : PQ unit := e ← elem_at elem; assert_ (used e).

(** The loop of [compute_pqueue_growth]; [None] when the fuel runs out. *)
Fixpoint growth_loop (fuel : nat) (target current : Z) : option Z :=
  if current <? target then
    if max_nodes <=? current then Some 0
    else
      match fuel with
      | O => None
      | S fuel =>
          let '(current, err) := SafeMath.safe_muldiv 64 current 8 5 in
          if err : bool then Some 0
          else growth_loop fuel target (if max_nodes <=? current then max_nodes else current)
      end
  else Some current.
Definition compute_pqueue_growth (target current : Z) : option Z := growth_loop 128 target current.

Definition pqueue_swap_elem (i j : nat) : PQ unit :=
  ASSERT_USED i;; ASSERT_USED j;;
  t_h ← heap_at i; h_j ← heap_at j;
  put_heap i h_j;; put_heap j t_h;;
  h_i ← heap_at i; set_posn (index h_i) i;;
  h_j ← heap_at j; set_posn (index h_j) j.

Definition pqueue_move_elem (from to : nat) : PQ unit :=
  ASSERT_USED from;;
  h ← heap_at from; put_heap to h;;
  h ← heap_at to; set_posn (index h) to.

Fixpoint force_bottom_loop (fuel n : nat) : PQ unit :=
  if decide (0 < n)%nat then
    match fuel with
    | O => undefined
    | S fuel =>
        let p := ((n - 1) / 2)%nat in
        ASSERT_USED p;; pqueue_swap_elem n p;; force_bottom_loop fuel p
    end
  else mret tt.
Definition pqueue_force_bottom (n : nat) : PQ unit := ASSERT_USED n;; force_bottom_loop n n.

Fixpoint move_down_loop (fuel n : nat) : PQ unit :=
  if decide (0 < n)%nat then
    match fuel with
    | O => undefined
    | S fuel =>
        let p := ((n - 1) / 2)%nat in
        ASSERT_USED p;;
        q ← get; h_n ← heap_at n; h_p ← heap_at p;
        if 0 <=? compare q (data h_n) (data h_p) then mret tt
        else pqueue_swap_elem n p;; move_down_loop fuel p
    end
  else mret tt.
Definition pqueue_move_down (n : nat) : PQ unit := ASSERT_USED n;; move_down_loop n n.

(** [if (pq->compare(h[p].data, h[p + 1].data) > 0) p++]. *)
Definition pick_child (p : nat) : PQ nat :=
  q ← get; a ← heap_at p; b ← heap_at (p + 1);
  mret (if 0 <? compare q (data a) (data b) then (p + 1)%nat else p).

Fixpoint move_up_loop (fuel n p : nat) : PQ unit :=
  q ← get;
  if decide (p < htop q)%nat then
    h_p ← heap_at p; h_n ← heap_at n;
    if compare q (data h_p) (data h_n) <? 0 then
      match fuel with
      | O => undefined
      | S fuel =>
          ASSERT_USED p;; pqueue_swap_elem n p;;
          let n := p in
          let p := (n * 2 + 1)%nat in
          p ← (if decide (p + 1 < htop q)%nat then ASSERT_USED (p + 1);; pick_child p else mret p);
          move_up_loop fuel n p
      end
    else mret tt
  else mret tt.
Definition pqueue_move_up (n : nat) : PQ unit :=
  q ← get;
  let p := (n * 2 + 1)%nat in
  ASSERT_USED n;;
  p ← (if decide (p + 1 < htop q)%nat then ASSERT_USED p;; ASSERT_USED (p + 1);; pick_child p else mret p);
  move_up_loop (htop q) n p.

Fixpoint for_each (l : list nat) (f : nat -> PQ unit) : PQ unit :=
  match l with [] => mret tt | i :: l => f i;; for_each l f end.

Definition pqueue_add_freelist (from : nat) : PQ unit :=
  q ← get;
  for_each (seq from (hmax q - from)) (fun i => set_used i false);;
  set_posn from (freelist q);;
  for_each (seq (from + 1) (hmax q - (from + 1))) (fun i => set_posn i (i - 1));;
  modify (set_freelist (hmax q - 1)).

(** [OPENSSL_realloc] to [n] entries: the first ones are kept, new ones have
    no defined content.  ([elements] are filled before they are read, so what
    they are filled with here does not matter.) *)
Definition resize {A} (n : nat) (x : A) (l : list A) : list A := take n l ++ replicate (n - length l) x.

(** [alloc_h] and [alloc_e] say whether the two reallocations succeed. *)
Definition ossl_pqueue_reserve (alloc_h alloc_e : bool) (n : Z) : PQ unit :=
  q ← get;
  let cur_max := Z.of_nat (hmax q) in
  if u64 (Z.of_nat (htop q) + n) <? cur_max then mret tt
  else
    match compute_pqueue_growth (u64 (n + cur_max)) cur_max with
    | None => undefined
    | Some new_max =>
        guard_ (negb (new_max =? 0));;
        guard_ alloc_h;;
        modify (fun q => set_heap (resize (Z.to_nat new_max) None (heap q)) q);;
        guard_ alloc_e;;
        modify (fun q => set_elements (resize (Z.to_nat new_max) (mkElem 0 false) (elements q)) q);;
        modify (set_hmax (Z.to_nat new_max));;
        pqueue_add_freelist (hmax q)
    end.

Definition ossl_pqueue_push (alloc_h alloc_e : bool) (d : D) : PQ nat :=
  ossl_pqueue_reserve alloc_h alloc_e 1;;
  q ← get;
  let n := htop q in
  modify (set_htop (n + 1));;
  let m := freelist q in
  e ← elem_at m; modify (set_freelist (posn e));;
  put_heap n (mkHeap d m);;
  set_posn m n;; set_used m true;;
  pqueue_move_down n;;
  mret m.

Definition ossl_pqueue_peek : PQ (option D) :=
  q ← get;
  if decide (0 < htop q)%nat then ASSERT_USED 0;; h ← heap_at 0; mret (Some (data h)) else mret None.

Definition ossl_pqueue_pop : PQ (option D) :=
  q ← get;
  if decide (htop q = 0)%nat then mret None
  else
    ASSERT_USED 0;;
    h ← heap_at 0;
    let elem := index h in
    modify (set_htop (htop q - 1));;
    (if decide (htop q - 1 <> 0)%nat then pqueue_move_elem (htop q - 1) 0;; pqueue_move_up 0 else mret tt);;
    set_posn elem (freelist q);; modify (set_freelist elem);; set_used elem false;;
    mret (Some (data h)).

Definition ossl_pqueue_remove (elem : nat) : PQ (option D) :=
  q ← get;
  if decide (hmax q <= elem \/ htop q = 0)%nat then mret None
  else
    ASSERT_ELEM_USED elem;;
    e ← elem_at elem;
    let n := posn e in
    ASSERT_USED n;;
    if decide (n = htop q - 1)%nat then
      set_posn elem (freelist q);; modify (set_freelist elem);; set_used elem false;;
      modify (set_htop (htop q - 1));;
      h ← heap_at (htop q - 1); mret (Some (data h))
    else
      (if decide (0 < n)%nat then pqueue_force_bottom n else mret tt);;
      ossl_pqueue_pop.

(** [alloc_q], [alloc_h] and [alloc_e]: whether the three allocations succeed. *)
Definition ossl_pqueue_new (cmp : option (D -> D -> Z)) (alloc_q alloc_h alloc_e : bool)
    : res (option OSSL_PQUEUE) :=
  match cmp with
  | None => Ret None
  | Some cmp =>
      if negb alloc_q then Ret None
      else if negb alloc_h || negb alloc_e then Ret None
      else
        match pqueue_add_freelist 0
                (mkPq (replicate min_nodes None) (replicate min_nodes (mkElem 0 false)) cmp 0 min_nodes 0) with
        | (Ret _, q) => Ret (Some q)
        | _ => Undef
        end
  end.

Definition ossl_pqueue_num (q : OSSL_PQUEUE) : nat := htop q.

(** The calls of [freefunc] made by [ossl_pqueue_pop_free], in order. *)
Fixpoint free_loop (l : list nat) : PQ (list D) :=
  match l with
  | [] => mret []
  | i :: l => h ← heap_at i; rest ← free_loop l; mret (data h :: rest)
  end.
Definition ossl_pqueue_pop_free : PQ (list D) := q ← get; free_loop (seq 0 (htop q)).

End Model.
Arguments pq_heap_st : clear implicits.
Arguments OSSL_PQUEUE : clear implicits.

(** ** The specification

    A queue is a map from handles to data.  The comparison function must be a
    total preorder; [qsort]-like contracts ask for the same. *)
Class Comparator {D} (cmp : D -> D -> Z) : Prop := {
  cmp_flip a b : 0 <= cmp a b -> cmp b a <= 0;
  cmp_trans a b c : cmp a b <= 0 -> cmp b c <= 0 -> cmp a c <= 0
}.

#[global] Instance Z_comparator : Comparator Z.sub.
Proof. split; lia. Qed.

Section Spec.
Context {D : Type} (cmp : D -> D -> Z).

Inductive op := Push (alloc_h alloc_e : bool) (d : D) | Pop | Peek | Remove (e : nat)
  | Reserve (alloc_h alloc_e : bool) (n : Z) | Num.
Inductive outcome := OHandle (m : nat) | OData (d : option D) | ODone | OFail | ONum (n : nat).

Definition least (d : D) (A : gmap nat D) : Prop := forall m x, A !! m = Some x -> cmp d x <= 0.

(** The only reasons for running out of room. *)
Definition no_room (ah ae : bool) (needed : Z) : Prop := ah = false \/ ae = false \/ max_nodes <= needed.

Inductive spec_step : gmap nat D -> op -> outcome -> gmap nat D -> Prop :=
  | spec_push A ah ae d m : A !! m = None -> spec_step A (Push ah ae d) (OHandle m) (<[m := d]> A)
  | spec_push_fail A ah ae d : no_room ah ae (Z.of_nat (size A) + 1) -> spec_step A (Push ah ae d) OFail A
  | spec_pop A m d : A !! m = Some d -> least d A -> spec_step A Pop (OData (Some d)) (delete m A)
  | spec_pop_empty : spec_step ∅ Pop (OData None) ∅
  | spec_peek A m d : A !! m = Some d -> least d A -> spec_step A Peek (OData (Some d)) A
  | spec_peek_empty : spec_step ∅ Peek (OData None) ∅
  | spec_remove A e d : A !! e = Some d -> spec_step A (Remove e) (OData (Some d)) (delete e A)
  | spec_remove_empty e : spec_step ∅ (Remove e) (OData None) ∅
  | spec_reserve A ah ae n : spec_step A (Reserve ah ae n) ODone A
  | spec_reserve_fail A ah ae n :
      no_room ah ae (Z.of_nat (size A) + 2 * n) -> spec_step A (Reserve ah ae n) OFail A
  | spec_num A : spec_step A Num (ONum (size A)) A.

(** What a client may ask: a handle it removes is in use (or the queue is
    empty), and it reserves no more than a signed size can express. *)
Definition legal (A : gmap nat D) (o : op) : Prop :=
  match o with
  | Remove e => is_Some (A !! e) \/ A = ∅
  | Reserve _ _ n => 0 <= n < 2 ^ 63
  | _ => True
  end.

Definition catch {S A} (m : M S A) (f : A -> outcome) : M S outcome := fun s =>
  match m s with
  | (Ret a, s) => (Ret (f a), s) | (Err, s) => (Ret OFail, s) | (Undef, s) => (Undef, s)
  end.

Definition exec (o : op) : M (OSSL_PQUEUE D) outcome :=
  match o with
  | Push ah ae d => catch (ossl_pqueue_push ah ae d) OHandle
  | Pop => catch ossl_pqueue_pop OData
  | Peek => catch ossl_pqueue_peek OData
  | Remove e => catch (ossl_pqueue_remove e) OData
  | Reserve ah ae n => catch (ossl_pqueue_reserve ah ae n) (fun _ => ODone)
  | Num => q ← get; mret (ONum (ossl_pqueue_num q))
  end.

End Spec.

(** ** Heap order on lists

    [L] is the list of the entries in heap position order; the children of
    position [p] are [2p+1] and [2p+2]. *)
Section Order.
Context {D : Type} (cmp : D -> D -> Z) `{!Comparator cmp}.
Implicit Types L : list (pq_heap_st D).

Abbreviation edge p c := (c = 2 * p + 1 \/ c = 2 * p + 2)%nat.
Definition le_at L (i j : nat) : Prop :=
  forall x y, L !! i = Some x -> L !! j = Some y -> cmp (data x) (data y) <= 0.

Definition ordered L : Prop := forall p c, edge p c -> le_at L p c.

(** Order everywhere but around [n], whose parent is below its children. *)
Definition except L (n : nat) : Prop :=
  (forall p c, edge p c -> p <> n -> c <> n -> le_at L p c) /\
  (forall q c, edge q n -> edge n c -> le_at L q c).
Definition above L (n : nat) : Prop := forall q, edge q n -> le_at L q n.
Definition below L (n : nat) : Prop := forall c, edge n c -> le_at L n c.

Definition swap L (i j : nat) : list (pq_heap_st D) :=
  match L !! i, L !! j with Some a, Some b => <[j := a]> (<[i := b]> L) | _, _ => L end.
Definition tr (i j k : nat) : nat := if decide (k = i) then j else if decide (k = j) then i else k.

Lemma lookup_swap L i j k a b :
  L !! i = Some a -> L !! j = Some b -> swap L i j !! k = L !! tr i j k.
Proof.
  intros Hi Hj. unfold swap, tr. rewrite Hi, Hj.
  pose proof (lookup_lt_Some _ _ _ Hi). pose proof (lookup_lt_Some _ _ _ Hj).
  destruct (decide (k = j)) as [->|Hkj].
  - rewrite list_lookup_insert_eq by (rewrite length_insert; lia).
    destruct (decide (j = i)) as [->|]; congruence.
  - rewrite list_lookup_insert_ne by done. destruct (decide (k = i)) as [->|Hki].
    + by rewrite list_lookup_insert_eq by lia.
    + by rewrite list_lookup_insert_ne.
Qed.

Lemma length_swap L i j : length (swap L i j) = length L.
Proof. unfold swap. destruct (L !! i), (L !! j); by rewrite ?length_insert. Qed.

Lemma swap_perm L i j a b : L !! i = Some a -> L !! j = Some b -> swap L i j ≡ₚ L.
Proof.
  intros Hi Hj. apply Permutation_inj. split; [apply length_swap|]. exists (tr i j). split.
  - intros x y. unfold tr. repeat case_decide; congruence.
  - intros k. by eapply lookup_swap.
Qed.

Lemma cmp_refl x : cmp x x <= 0.
Proof. destruct (Z.le_gt_cases 0 (cmp x x)); [by apply cmp_flip|lia]. Qed.

Lemma le_at_swap L i j a b x y :
  L !! i = Some a -> L !! j = Some b -> le_at L (tr i j x) (tr i j y) -> le_at (swap L i j) x y.
Proof. intros Hi Hj H u v. rewrite !(lookup_swap _ _ _ _ _ _ Hi Hj). apply H. Qed.

Lemma le_at_trans L i j k b : L !! j = Some b -> le_at L i j -> le_at L j k -> le_at L i k.
Proof. intros Hj H1 H2 x y Hx Hy. eapply cmp_trans; eauto. Qed.

Ltac trcase := unfold tr; repeat case_decide; subst; try lia.

Lemma except_ordered L n : except L n -> above L n -> below L n -> ordered L.
Proof.
  intros [He _] Ha Hb p c Hpc. destruct (decide (p = n)) as [->|]; [by apply Hb|].
  destruct (decide (c = n)) as [->|]; [by apply Ha|by apply He].
Qed.

Lemma ordered_except L n b : L !! n = Some b -> ordered L -> except L n.
Proof. intros Hn Ho. split; [auto|]. intros q c Hq Hc. eapply le_at_trans; eauto. Qed.

(** Exchanging [n] with its parent. *)
Lemma except_swap_parent L n q a b :
  edge q n -> L !! n = Some a -> L !! q = Some b -> except L n -> except (swap L n q) q.
Proof.
  intros Hq Hn Hb [He Hg]. split.
  - intros p c Hpc Hp Hc. eapply le_at_swap; eauto. trcase; [apply Hg; lia|apply He; lia].
  - intros r c Hr Hc. eapply le_at_swap; eauto. trcase; [apply He; lia|].
    eapply le_at_trans; [exact Hb|apply He; lia..].
Qed.

Lemma below_swap_parent L n q a b :
  edge q n -> L !! n = Some a -> L !! q = Some b -> except L n ->
  cmp (data a) (data b) <= 0 -> below (swap L n q) q.
Proof.
  intros Hq Hn Hb [He _] Hlt c Hc.
  assert (Hnq : le_at L n q) by (intros x y; rewrite Hn, Hb; congruence).
  eapply le_at_swap; eauto. trcase; [done|]. eapply le_at_trans; [exact Hb|done|]. apply He; lia.
Qed.

(** Exchanging [n] with its lesser child [p]. *)
Lemma except_swap_child L n p a b :
  edge n p -> L !! n = Some a -> L !! p = Some b -> except L n ->
  (forall c, edge n c -> le_at L p c) -> except (swap L n p) p.
Proof.
  intros Hp Hn Hb [He Hg] Hmin. split.
  - intros r c Hr Hrp Hcp. eapply le_at_swap; eauto. trcase; [apply Hmin; lia|apply Hg; lia|apply He; lia].
  - intros r c Hr Hc. eapply le_at_swap; eauto. trcase. apply He; lia.
Qed.

Lemma above_swap_child L n p a b :
  edge n p -> L !! n = Some a -> L !! p = Some b -> cmp (data b) (data a) <= 0 -> above (swap L n p) p.
Proof.
  intros Hp Hn Hb Hlt q Hq. eapply le_at_swap; eauto. trcase. intros x y; rewrite Hn, Hb. congruence.
Qed.

Lemma parent_edge n : (0 < n)%nat -> edge ((n - 1) / 2)%nat n.
Proof.
  intros. pose proof (Nat.div_mod_eq (n - 1) 2). pose proof (Nat.mod_upper_bound (n - 1) 2). lia.
Qed.

(** The first entry of an ordered list is a least one. *)
Lemma ordered_least L a : ordered L -> L !! 0%nat = Some a ->
  forall i x, L !! i = Some x -> cmp (data a) (data x) <= 0.
Proof.
  intros Ho Ha i. induction (lt_wf i) as [i _ IH]. intros x Hx.
  destruct (decide (i = 0)%nat) as [->|]; [simplify_eq; apply cmp_refl|].
  pose proof (parent_edge i ltac:(lia)) as Hp.
  destruct (lookup_lt_is_Some_2 L ((i - 1) / 2)%nat) as [y Hy].
  { apply lookup_lt_Some in Hx. lia. }
  eapply cmp_trans; [apply (IH ((i - 1) / 2)%nat ltac:(lia) _ Hy)|eapply Ho; eauto].
Qed.

End Order.

(** ** The representation *)
Section Rep.
Context {D : Type} (cmp : D -> D -> Z) `{!Comparator cmp}.
Implicit Types (q : OSSL_PQUEUE D) (L : list (pq_heap_st D)).

(** The free handles linked from [start] are those of [fl]. *)
Fixpoint chain (es : list pq_elem_st) (start : nat) (fl : list nat) : Prop :=
  match fl with
  | [] => True
  | e :: fl => start = e /\ exists p, es !! e = Some (mkElem p false) /\ chain es p fl
  end.

(** [q] represents the entries [L]; the handles [lim] are those of entries
    being taken out, and [fl] the free ones. *)
Record str q L (lim fl : list nat) : Prop := {
  str_cmp : compare q = cmp;
  str_top : htop q = length L;
  str_heap : forall i h, L !! i = Some h -> heap q !! i = Some (Some h);
  str_room : (hmax q <= length (heap q))%nat;
  str_elems : length (elements q) = hmax q;
  str_part : (index <$> L) ++ lim ++ fl ≡ₚ seq 0 (hmax q);
  str_used : forall i h, L !! i = Some h -> elements q !! index h = Some (mkElem i true);
  str_chain : chain (elements q) (freelist q) fl
}.

Definition same q q' : Prop := hmax q' = hmax q /\ freelist q' = freelist q.

Lemma same_trans q1 q2 q3 : same q1 q2 -> same q2 q3 -> same q1 q3.
Proof. unfold same. intros [-> ->] [-> ->]. done. Qed.

Lemma chain_frame es es' fl : forall start,
  (forall e, e ∈ fl -> es' !! e = es !! e) -> chain es start fl -> chain es' start fl.
Proof.
  induction fl as [|e fl IH]; intros start Hes; [done|]. cbn. intros [-> (p & Hp & Hc)]. split; [done|].
  exists p. rewrite Hes by (left; done). split; [done|]. apply IH; [|done]. intros. apply Hes. by right.
Qed.

Section Facts.
Context {q L lim fl} (Hs : str q L lim fl).

Lemma str_nodup : NoDup ((index <$> L) ++ lim ++ fl).
Proof. rewrite (str_part _ _ _ _ Hs). apply NoDup_seq. Qed.

Lemma idx_inj i j a b : L !! i = Some a -> L !! j = Some b -> index a = index b -> i = j.
Proof.
  intros Hi Hj E. pose proof str_nodup as Hn. apply NoDup_app in Hn as [Hn _].
  eapply NoDup_lookup; [exact Hn|by rewrite list_lookup_fmap, Hi|]. by rewrite list_lookup_fmap, Hj, E.
Qed.

Lemma idx_not_fl i a : L !! i = Some a -> index a ∉ lim ++ fl.
Proof.
  intros Hi. pose proof str_nodup as Hn. apply NoDup_app in Hn as (_ & Hn & _). apply Hn.
  apply list_elem_of_fmap. exists a. split; [done|]. by eapply list_elem_of_lookup_2.
Qed.

Lemma idx_ne_fl i a e : L !! i = Some a -> e ∈ fl -> index a <> e.
Proof. intros Hi He <-. apply (idx_not_fl _ _ Hi), elem_of_app. by right. Qed.

Lemma handle_lt e : e ∈ (index <$> L) ++ lim ++ fl -> (e < hmax q)%nat.
Proof. rewrite (str_part _ _ _ _ Hs), elem_of_seq. lia. Qed.

Lemma idx_lt i a : L !! i = Some a -> (index a < hmax q)%nat.
Proof.
  intros Hi. apply handle_lt, elem_of_app. left. apply list_elem_of_fmap. exists a.
  split; [done|]. by eapply list_elem_of_lookup_2.
Qed.

Lemma str_size : (length L + length lim + length fl = hmax q)%nat.
Proof.
  pose proof (Permutation_length (str_part _ _ _ _ Hs)) as H.
  rewrite !length_app, length_fmap, length_seq in H. lia.
Qed.

Lemma pos_lt i a : L !! i = Some a -> (i < length (heap q))%nat.
Proof. intros Hi. apply (str_heap _ _ _ _ Hs) in Hi. by eapply lookup_lt_Some. Qed.

Lemma heap_at_ok i a : L !! i = Some a -> heap_at i q = (Ret a, q).
Proof. intros Hi. unfold heap_at. by rewrite (str_heap _ _ _ _ Hs _ _ Hi). Qed.

Lemma elem_at_ok i a : L !! i = Some a -> elem_at (index a) q = (Ret (mkElem i true), q).
Proof. intros Hi. unfold elem_at. by rewrite (str_used _ _ _ _ Hs _ _ Hi). Qed.

Lemma assert_used_ok i a : L !! i = Some a -> ASSERT_USED i q = (Ret tt, q).
Proof.
  intros Hi. unfold ASSERT_USED. rewrite (bind_ret _ _ _ _ _ (heap_at_ok _ _ Hi)).
  rewrite (bind_ret _ _ _ _ _ (elem_at_ok _ _ Hi)). cbn. by rewrite bool_decide_true.
Qed.

End Facts.

Lemma put_heap_ok i h q : (i < length (heap q))%nat ->
  put_heap i h q = (Ret tt, set_heap (<[i := Some h]> (heap q)) q).
Proof. intros. unfold put_heap. by rewrite decide_True. Qed.

Lemma set_posn_ok i p e q : elements q !! i = Some e ->
  set_posn i p q = (Ret tt, set_elements (<[i := mkElem p (used e)]> (elements q)) q).
Proof.
  intros Hi. unfold set_posn, elem_at, put_elem, mbind, M_bind. rewrite Hi.
  rewrite decide_True by (by eapply lookup_lt_Some). done.
Qed.

Lemma set_used_ok i b e q : elements q !! i = Some e ->
  set_used i b q = (Ret tt, set_elements (<[i := mkElem (posn e) b]> (elements q)) q).
Proof.
  intros Hi. unfold set_used, elem_at, put_elem, mbind, M_bind. rewrite Hi.
  rewrite decide_True by (by eapply lookup_lt_Some). done.
Qed.

Lemma swap_elem_ok q L lim fl i j a b :
  str q L lim fl -> i <> j -> L !! i = Some a -> L !! j = Some b ->
  exists q', pqueue_swap_elem i j q = (Ret tt, q') /\ str q' (swap L i j) lim fl /\ same q q'.
Proof.
  intros Hs Hij Hi Hj. unfold pqueue_swap_elem.
  rewrite (bind_ret _ _ _ _ _ (assert_used_ok Hs _ _ Hi)), (bind_ret _ _ _ _ _ (assert_used_ok Hs _ _ Hj)).
  rewrite (bind_ret _ _ _ _ _ (heap_at_ok Hs _ _ Hi)), (bind_ret _ _ _ _ _ (heap_at_ok Hs _ _ Hj)).
  pose proof (pos_lt Hs _ _ Hi). pose proof (pos_lt Hs _ _ Hj).
  assert (Hne : index a <> index b) by (intros E; by pose proof (idx_inj Hs _ _ _ _ Hi Hj E)).
  pose proof (str_used _ _ _ _ Hs _ _ Hi) as Hui. pose proof (str_used _ _ _ _ Hs _ _ Hj) as Huj.
  pose proof (lookup_lt_Some _ _ _ Hui). pose proof (lookup_lt_Some _ _ _ Huj).
  rewrite (bind_ret _ _ _ _ _ (put_heap_ok i b q ltac:(lia))).
  erewrite bind_ret; [|apply put_heap_ok; cbn; rewrite length_insert; lia].
  erewrite bind_ret; [|unfold heap_at; cbn; rewrite list_lookup_insert_ne, list_lookup_insert_eq by (done || lia); reflexivity].
  erewrite bind_ret; [|apply (set_posn_ok _ _ (mkElem j true)); done]. cbn.
  erewrite bind_ret; [|unfold heap_at; cbn; rewrite list_lookup_insert_eq by (rewrite length_insert; lia); reflexivity].
  erewrite (set_posn_ok _ _ (mkElem i true)) by (cbn; by rewrite list_lookup_insert_ne).
  eexists. split; [reflexivity|]. split; [|done].
  assert (Hsw : swap L i j = <[j := a]> (<[i := b]> L)) by (unfold swap; by rewrite Hi, Hj).
  pose proof (fun k => lookup_swap L i j k _ _ Hi Hj) as Hlk. unfold tr in Hlk.
  constructor; cbn; rewrite ?length_insert, ?length_swap; try apply Hs.
  - intros k h Hk. rewrite Hlk in Hk.
    destruct (decide (k = j)) as [->|]; [rewrite decide_False in Hk by done|
      destruct (decide (k = i)) as [->|]].
    + rewrite list_lookup_insert_eq by (rewrite length_insert; lia). congruence.
    + rewrite list_lookup_insert_ne, list_lookup_insert_eq by (done || lia). congruence.
    + rewrite !list_lookup_insert_ne by done. by apply Hs.
  - rewrite (swap_perm L i j _ _ Hi Hj). apply Hs.
  - intros k h Hk. rewrite Hlk in Hk.
    destruct (decide (k = i)) as [->|]; [|destruct (decide (k = j)) as [->|]]; [simplify_eq..|].
    + rewrite list_lookup_insert_ne, list_lookup_insert_eq by (done || lia). done.
    + by rewrite list_lookup_insert_eq by (rewrite length_insert; lia).
    + assert (index a <> index h) by (intros E; by pose proof (idx_inj Hs _ _ _ _ Hi Hk E)).
      assert (index b <> index h) by (intros E; by pose proof (idx_inj Hs _ _ _ _ Hj Hk E)).
      rewrite !list_lookup_insert_ne by done. by apply Hs.
  - eapply chain_frame; [|apply Hs]. intros e He.
    by rewrite !list_lookup_insert_ne by eauto using idx_ne_fl.
Qed.

Lemma force_bottom_loop_ok fuel : forall n q L lim fl a,
  (n <= fuel)%nat -> str q L lim fl -> L !! n = Some a -> except cmp L n ->
  exists q' L', force_bottom_loop fuel n q = (Ret tt, q') /\ str q' L' lim fl /\ same q q' /\
    L' ≡ₚ L /\ L' !! 0%nat = Some a /\ except cmp L' 0.
Proof.
  induction fuel as [|fuel IH]; intros n q L lim fl a Hf Hs Ha He; cbn [force_bottom_loop];
    case_decide as Hn; try lia; try (assert (n = 0)%nat as -> by lia; by exists q, L).
  pose proof (parent_edge n Hn) as Hp. set (p := ((n - 1) / 2)%nat) in *.
  destruct (lookup_lt_is_Some_2 L p) as [b Hb]; [apply lookup_lt_Some in Ha; lia|].
  rewrite (bind_ret _ _ _ _ _ (assert_used_ok Hs _ _ Hb)).
  destruct (swap_elem_ok q L lim fl n p a b Hs) as (q1 & E1 & Hs1 & Hq1); [lia|done..|].
  rewrite (bind_ret _ _ _ _ _ E1).
  destruct (IH p q1 _ _ _ a ltac:(lia) Hs1) as (q2 & L2 & E2 & Hs2 & Hq2 & HL & H0 & He2).
  { rewrite (lookup_swap _ _ _ _ _ _ Ha Hb). unfold tr. rewrite decide_False, decide_True by (done || lia). done. }
  { by eapply except_swap_parent. }
  exists q2, L2. split_and!; try done; [by eapply same_trans|]. by rewrite HL, (swap_perm _ _ _ _ _ Ha Hb).
Qed.

Lemma move_down_loop_ok fuel : forall n q L lim fl a,
  (n <= fuel)%nat -> str q L lim fl -> L !! n = Some a -> except cmp L n -> below cmp L n ->
  exists q' L', move_down_loop fuel n q = (Ret tt, q') /\ str q' L' lim fl /\ same q q' /\
    L' ≡ₚ L /\ ordered cmp L'.
Proof.
  induction fuel as [|fuel IH]; intros n q L lim fl a Hf Hs Ha He Hbl; cbn [move_down_loop];
    case_decide as Hn; try lia;
    try (exists q, L; split_and!; try done; apply (except_ordered _ _ n); try done; intros ?; lia).
  pose proof (parent_edge n Hn) as Hp. set (p := ((n - 1) / 2)%nat) in *.
  destruct (lookup_lt_is_Some_2 L p) as [b Hb]; [apply lookup_lt_Some in Ha; lia|].
  rewrite (bind_ret _ _ _ _ _ (assert_used_ok Hs _ _ Hb)), (bind_ret get _ q q q) by done.
  rewrite (bind_ret _ _ _ _ _ (heap_at_ok Hs _ _ Ha)), (bind_ret _ _ _ _ _ (heap_at_ok Hs _ _ Hb)).
  rewrite (str_cmp _ _ _ _ Hs). destruct (Z.leb_spec 0 (cmp (data a) (data b))) as [Hc|Hc].
  - exists q, L. split_and!; try done. apply (except_ordered _ _ n); [done| |done].
    intros r Hr. replace r with p by lia. intros x y. rewrite Ha, Hb. intros [= <-] [= <-]. by apply cmp_flip.
  - destruct (swap_elem_ok q L lim fl n p a b Hs) as (q1 & E1 & Hs1 & Hq1); [lia|done..|].
    rewrite (bind_ret _ _ _ _ _ E1).
    destruct (IH p q1 _ _ _ a ltac:(lia) Hs1) as (q2 & L2 & E2 & Hs2 & Hq2 & HL & Ho).
    { rewrite (lookup_swap _ _ _ _ _ _ Ha Hb). unfold tr. rewrite decide_False, decide_True by (done || lia). done. }
    { by eapply except_swap_parent. }
    { eapply below_swap_parent; eauto. lia. }
    exists q2, L2. split_and!; try done; [by eapply same_trans|]. by rewrite HL, (swap_perm _ _ _ _ _ Ha Hb).
Qed.

(** [p] is the lesser child of [n], or past the end when [n] has none. *)
Definition picked L (n p : nat) : Prop :=
  (p = 2 * n + 1 \/ p = 2 * n + 2)%nat /\
  (forall c, (c = 2 * n + 1 \/ c = 2 * n + 2)%nat -> le_at cmp L p c) /\
  (length L <= p -> length L <= 2 * n + 1)%nat.

Lemma pick_child_ok q L lim fl n :
  str q L lim fl -> (n * 2 + 1 + 1 < length L)%nat ->
  exists p, pick_child (n * 2 + 1) q = (Ret p, q) /\ picked L n p.
Proof.
  intros Hs Hlen. unfold pick_child. rewrite (bind_ret get _ q q q) by done.
  destruct (lookup_lt_is_Some_2 L (n * 2 + 1)) as [a Ha]; [lia|].
  destruct (lookup_lt_is_Some_2 L (n * 2 + 1 + 1)) as [b Hb]; [lia|].
  rewrite (bind_ret _ _ _ _ _ (heap_at_ok Hs _ _ Ha)), (bind_ret _ _ _ _ _ (heap_at_ok Hs _ _ Hb)).
  rewrite (str_cmp _ _ _ _ Hs). eexists. split; [reflexivity|].
  destruct (Z.ltb_spec 0 (cmp (data a) (data b))) as [Hc|Hc];
    (split; [lia|split; [|lia]]); intros c Hcc x y Hx Hy;
    (destruct (decide (c = n * 2 + 1)%nat) as [->|];
     [|replace c with (n * 2 + 1 + 1)%nat in Hy by lia]); simplify_eq; try lia; try by apply cmp_refl.
  apply cmp_flip. lia.
Qed.

Lemma picked_last L n : (length L <= n * 2 + 1 + 1)%nat -> picked L n (n * 2 + 1).
Proof.
  intros Hlen. split; [lia|split; [|lia]]. intros c Hc x y Hx Hy.
  apply lookup_lt_Some in Hy as Hlt. replace c with (n * 2 + 1)%nat in Hy by lia.
  simplify_eq. by apply cmp_refl.
Qed.

Lemma move_up_loop_ok fuel : forall n p q L lim fl a,
  (length L <= n + fuel)%nat -> str q L lim fl -> L !! n = Some a -> picked L n p ->
  except cmp L n -> above cmp L n ->
  exists q' L', move_up_loop fuel n p q = (Ret tt, q') /\ str q' L' lim fl /\ same q q' /\
    L' ≡ₚ L /\ ordered cmp L'.
Proof.
  induction fuel as [|fuel IH]; intros n p q L lim fl a Hf Hs Ha (Hp & Hmin & Hend) He Hab;
    apply lookup_lt_Some in Ha as Hlt; [lia|]. cbn [move_up_loop].
  rewrite (bind_ret get _ q q q) by done. rewrite (str_top _ _ _ _ Hs).
  case_decide as Hpl.
  2: { exists q, L. split_and!; try done. apply (except_ordered _ _ n); [done..|].
       intros c Hc x y Hx Hy. apply lookup_lt_Some in Hy. lia. }
  destruct (lookup_lt_is_Some_2 L p Hpl) as [b Hb].
  rewrite (bind_ret _ _ _ _ _ (heap_at_ok Hs _ _ Hb)), (bind_ret _ _ _ _ _ (heap_at_ok Hs _ _ Ha)).
  rewrite (str_cmp _ _ _ _ Hs). destruct (Z.ltb_spec (cmp (data b) (data a)) 0) as [Hc|Hc].
  2: { exists q, L. split_and!; try done. apply (except_ordered _ _ n); [done..|].
       intros c Hcc. eapply le_at_trans; [done|exact Hb| |by apply Hmin].
       intros x y. rewrite Ha, Hb. intros [= <-] [= <-]. by apply cmp_flip. }
  rewrite (bind_ret _ _ _ _ _ (assert_used_ok Hs _ _ Hb)).
  destruct (swap_elem_ok q L lim fl n p a b Hs) as (q1 & E1 & Hs1 & Hq1); [lia|done..|].
  rewrite (bind_ret _ _ _ _ _ E1).
  assert (Hpick : exists p', (if decide (p * 2 + 1 + 1 < length L)%nat
      then ASSERT_USED (p * 2 + 1 + 1);; pick_child (p * 2 + 1) else mret (p * 2 + 1)%nat) q1 = (Ret p', q1) /\
    picked (swap L n p) p p').
  { case_decide as Hd.
    - destruct (lookup_lt_is_Some_2 (swap L n p) (p * 2 + 1 + 1)) as [c Hcc]; [by rewrite length_swap|].
      rewrite (bind_ret _ _ _ _ _ (assert_used_ok Hs1 _ _ Hcc)). eapply pick_child_ok; [done|by rewrite length_swap].
    - eexists. split; [reflexivity|]. apply picked_last. rewrite length_swap. lia. }
  destruct Hpick as (p' & Ep & Hp'). rewrite (bind_ret _ _ _ _ _ Ep).
  destruct (IH p p' q1 (swap L n p) lim fl a ltac:(rewrite length_swap; lia) Hs1) as (q2 & L2 & E2 & Hs2 & Hq2 & HL & Ho);
    [|done|by eapply except_swap_child|eapply above_swap_child; [exact Hp|exact Ha|exact Hb|lia]|].
  { rewrite (lookup_swap _ _ _ _ _ _ Ha Hb). unfold tr. rewrite decide_False, decide_True by (done || lia). done. }
  exists q2, L2. split_and!; try done; [by eapply same_trans|]. by rewrite HL, (swap_perm _ _ _ _ _ Ha Hb).
Qed.

Lemma move_up_ok q L lim fl a :
  str q L lim fl -> L !! 0%nat = Some a -> except cmp L 0 ->
  exists q' L', pqueue_move_up 0 q = (Ret tt, q') /\ str q' L' lim fl /\ same q q' /\
    L' ≡ₚ L /\ ordered cmp L'.
Proof.
  intros Hs Ha He. unfold pqueue_move_up. rewrite (bind_ret get _ q q q) by done.
  rewrite (bind_ret _ _ _ _ _ (assert_used_ok Hs _ _ Ha)). rewrite (str_top _ _ _ _ Hs).
  assert (Hpick : exists p', (if decide (0 * 2 + 1 + 1 < length L)%nat
      then ASSERT_USED (0 * 2 + 1);; ASSERT_USED (0 * 2 + 1 + 1);; pick_child (0 * 2 + 1)
      else mret (0 * 2 + 1)%nat) q = (Ret p', q) /\ picked L 0 p').
  { case_decide as Hd.
    - destruct (lookup_lt_is_Some_2 L (0 * 2 + 1)) as [b Hb]; [lia|].
      destruct (lookup_lt_is_Some_2 L (0 * 2 + 1 + 1)) as [c Hc]; [lia|].
      rewrite (bind_ret _ _ _ _ _ (assert_used_ok Hs _ _ Hb)), (bind_ret _ _ _ _ _ (assert_used_ok Hs _ _ Hc)).
      by eapply pick_child_ok.
    - eexists. split; [reflexivity|]. apply picked_last. lia. }
  destruct Hpick as (p' & Ep & Hp'). rewrite (bind_ret _ _ _ _ _ Ep).
  eapply move_up_loop_ok; eauto. intros r Hr. lia.
Qed.

(** Returning the handle [e] to the free list. *)
Definition release (e : nat) q : OSSL_PQUEUE D :=
  set_freelist e (set_elements (<[e := mkElem (freelist q) false]> (elements q)) q).

Lemma release_run {A} e f (k : M (OSSL_PQUEUE D) A) q :
  (e < length (elements q))%nat -> f = freelist q ->
  (set_posn e f;; modify (set_freelist e);; set_used e false;; k) q = k (release e q).
Proof.
  intros He ->. destruct (lookup_lt_is_Some_2 (elements q) e He) as [x Hx].
  rewrite (bind_ret _ _ _ _ _ (set_posn_ok _ _ _ _ Hx)).
  erewrite bind_ret by reflexivity. erewrite bind_ret.
  2: { eapply set_used_ok. cbn. by rewrite list_lookup_insert_eq. }
  cbn. by rewrite list_insert_insert_eq.
Qed.

Lemma release_str q L e lim fl : str q L (e :: lim) fl -> str (release e q) L lim (e :: fl).
Proof.
  intros Hs. pose proof (str_nodup Hs) as Hn.
  assert (He : (e < length (elements q))%nat).
  { rewrite (str_elems _ _ _ _ Hs). apply (handle_lt Hs). set_solver. }
  constructor; cbn; rewrite ?length_insert; try apply Hs.
  - rewrite <- (str_part _ _ _ _ Hs). solve_Permutation.
  - intros i h Hi. rewrite list_lookup_insert_ne; [by apply Hs|]. intros ->.
    apply (idx_not_fl Hs _ _ Hi). set_solver.
  - split; [done|]. eexists. split; [by rewrite list_lookup_insert_eq|].
    eapply chain_frame; [|apply Hs]. intros x Hx. rewrite list_lookup_insert_ne; [done|]. intros <-.
    apply NoDup_app in Hn as (_ & _ & Hn). cbn in Hn. apply NoDup_cons in Hn as [Hn _]. set_solver.
Qed.

(** Taking the last entry out. *)
Lemma drop_last_str q L z fl :
  str q (L ++ [z]) [] fl -> str (set_htop (length L) q) L [index z] fl.
Proof.
  intros Hs. constructor; cbn; try apply Hs; try done.
  - intros i h Hi. apply Hs. by apply lookup_app_l_Some.
  - rewrite <- (str_part _ _ _ _ Hs), fmap_app. by rewrite <- !app_assoc.
  - intros i h Hi. apply Hs. by apply lookup_app_l_Some.
Qed.

Lemma ordered_prefix L1 L2 : ordered cmp (L1 ++ L2) -> ordered cmp L1.
Proof. intros Ho p c Hpc x y Hx Hy. eapply Ho; eauto using lookup_app_l_Some. Qed.

(** Moving the last entry over the first. *)
Lemma move_elem_ok q a mid z fl :
  str q (a :: mid ++ [z]) [] fl ->
  exists q', pqueue_move_elem (S (length mid)) 0 (set_htop (S (length mid)) q) = (Ret tt, q') /\
    str q' (z :: mid) [index a] fl /\ same q q'.
Proof.
  intros Hs. assert (Hz : (a :: mid ++ [z]) !! S (length mid) = Some z)
    by (apply (list_lookup_middle (a :: mid)); done).
  pose proof (str_heap _ _ _ _ Hs _ _ Hz) as Hhz. pose proof (str_used _ _ _ _ Hs _ _ Hz) as Huz.
  pose proof (pos_lt Hs _ _ Hz) as Hlen. pose proof (lookup_lt_Some _ _ _ Huz) as Hel.
  assert (Hraw : heap_at (S (length mid)) (set_htop (S (length mid)) q) = (Ret z, set_htop (S (length mid)) q))
    by (unfold heap_at; cbn; by rewrite Hhz).
  unfold pqueue_move_elem, ASSERT_USED. erewrite bind_ret.
  2: { rewrite (bind_ret _ _ _ _ _ Hraw). erewrite bind_ret by (unfold elem_at; cbn; rewrite Huz; reflexivity).
       cbn. rewrite bool_decide_true by done. reflexivity. }
  rewrite (bind_ret _ _ _ _ _ Hraw).
  erewrite bind_ret by (apply put_heap_ok; cbn; lia). cbn.
  erewrite bind_ret by (unfold heap_at; cbn; rewrite list_lookup_insert_eq by lia; reflexivity).
  erewrite set_posn_ok by exact Huz. eexists. split; [reflexivity|]. split; [|done].
  constructor; cbn; rewrite ?length_insert; try apply Hs; try done.
  - intros [|i] h; cbn; [intros [= <-]; by rewrite list_lookup_insert_eq by lia|]. intros Hi.
    rewrite list_lookup_insert_ne by lia. apply (str_heap _ _ _ _ Hs (S i)). cbn. by apply lookup_app_l_Some.
  - rewrite <- (str_part _ _ _ _ Hs). cbn. rewrite fmap_app. cbn. solve_Permutation.
  - intros [|i] h; cbn; [intros [= <-]; by rewrite list_lookup_insert_eq by lia|]. intros Hi.
    assert (Hi' : (a :: mid ++ [z]) !! S i = Some h) by (cbn; by apply lookup_app_l_Some).
    apply lookup_lt_Some in Hi as Hlt.
    rewrite list_lookup_insert_ne; [by apply (str_used _ _ _ _ Hs)|].
    intros E. pose proof (idx_inj Hs _ _ _ _ Hz Hi' E). lia.
  - eapply chain_frame; [|apply Hs]. intros e He. rewrite list_lookup_insert_ne; [done|].
    by eapply (idx_ne_fl Hs).
Qed.

Lemma except_root a mid z : except cmp (a :: mid ++ [z]) 0 -> except cmp (z :: mid) 0.
Proof.
  intros [He _]. split; [|intros; lia]. intros [|p] [|c] Hpc Hp Hc; try lia. intros x y Hx Hy.
  eapply (He (S p) (S c)); try done; cbn; by apply lookup_app_l_Some.
Qed.

Lemma pop_ok q a L fl :
  str q (a :: L) [] fl -> except cmp (a :: L) 0 ->
  exists q' L', ossl_pqueue_pop q = (Ret (Some (data a)), q') /\ str q' L' [] (index a :: fl) /\
    hmax q' = hmax q /\ L' ≡ₚ L /\ ordered cmp L'.
Proof.
  intros Hs He. unfold ossl_pqueue_pop. rewrite (bind_ret get _ q q q) by done.
  rewrite (str_top _ _ _ _ Hs), decide_False by done. cbn [length].
  rewrite (bind_ret _ _ _ _ _ (assert_used_ok Hs 0%nat a eq_refl)), (bind_ret _ _ _ _ _ (heap_at_ok Hs 0%nat a eq_refl)).
  erewrite bind_ret by reflexivity. cbn zeta. rewrite Nat.sub_succ, Nat.sub_0_r.
  assert (Hmv : exists q1 L1, (if decide (length L <> 0)%nat then pqueue_move_elem (length L) 0;; pqueue_move_up 0
      else mret tt) (set_htop (length L) q) = (Ret tt, q1) /\ str q1 L1 [index a] fl /\ same q q1 /\
      L1 ≡ₚ L /\ ordered cmp L1).
  { destruct L as [|z mid _] using rev_ind.
    - rewrite decide_False by (cbn; lia). exists (set_htop 0 q), []. split_and!; try done.
      apply (drop_last_str q [] a fl Hs).
    - rewrite length_app, Nat.add_comm. rewrite decide_True by (cbn; lia).
      destruct (move_elem_ok q a mid z fl Hs) as (q1 & E1 & Hs1 & Hq1). rewrite (bind_ret _ _ _ _ _ E1).
      destruct (move_up_ok q1 _ _ _ z Hs1 eq_refl (except_root _ _ _ He)) as (q2 & L2 & E2 & Hs2 & Hq2 & HL & Ho).
      exists q2, L2. split_and!; try done; [by eapply same_trans|]. rewrite HL. solve_Permutation. }
  destruct Hmv as (q1 & L1 & E1 & Hs1 & [Hm Hf] & HL & Ho). rewrite (bind_ret _ _ _ _ _ E1).
  rewrite release_run by (done || (rewrite (str_elems _ _ _ _ Hs1); apply (handle_lt Hs1); set_solver)).
  exists (release (index a) q1), L1. split_and!; try done. by apply release_str.
Qed.

Lemma remove_ok q n a L fl :
  str q L [] fl -> ordered cmp L -> L !! n = Some a ->
  exists q' L', ossl_pqueue_remove (index a) q = (Ret (Some (data a)), q') /\ str q' L' [] (index a :: fl) /\
    hmax q' = hmax q /\ a :: L' ≡ₚ L /\ ordered cmp L'.
Proof.
  intros Hs Ho Ha. pose proof (idx_lt Hs _ _ Ha). pose proof (lookup_lt_Some _ _ _ Ha) as Hlt.
  unfold ossl_pqueue_remove. rewrite (bind_ret get _ q q q) by done. rewrite (str_top _ _ _ _ Hs).
  rewrite decide_False by lia.
  assert (Hae : ASSERT_ELEM_USED (index a) q = (Ret tt, q))
    by (unfold ASSERT_ELEM_USED; by rewrite (bind_ret _ _ _ _ _ (elem_at_ok Hs _ _ Ha))).
  rewrite (bind_ret _ _ _ _ _ Hae), (bind_ret _ _ _ _ _ (elem_at_ok Hs _ _ Ha)). cbn zeta. cbn [posn].
  rewrite (bind_ret _ _ _ _ _ (assert_used_ok Hs _ _ Ha)).
  case_decide as Hn.
  - destruct L as [|z mid _] using rev_ind; [done|]. rewrite length_app in *. cbn in Hn, Hlt |- *.
    assert (n = length mid) as -> by lia. rewrite lookup_app_r, Nat.sub_diag in Ha by lia. injection Ha as ->.
    rewrite release_run by (done || by rewrite (str_elems _ _ _ _ Hs)).
    erewrite bind_ret by reflexivity. rewrite Nat.add_sub.
    pose proof (str_heap _ _ _ _ Hs (length mid) a ltac:(by rewrite lookup_app_r, Nat.sub_diag)) as Hh.
    erewrite bind_ret by (unfold heap_at; cbn; rewrite Hh; reflexivity).
    exists (release (index a) (set_htop (length mid) q)), mid. split_and!; try done.
    + by apply release_str, drop_last_str.
    + solve_Permutation.
    + by eapply ordered_prefix.
  - assert (Hfb : exists q1 L1, (if decide (0 < n)%nat then pqueue_force_bottom n else mret tt) q = (Ret tt, q1) /\
      str q1 (a :: L1) [] fl /\ same q q1 /\ a :: L1 ≡ₚ L /\ except cmp (a :: L1) 0).
    { case_decide.
      - unfold pqueue_force_bottom. rewrite (bind_ret _ _ _ _ _ (assert_used_ok Hs _ _ Ha)).
        destruct (force_bottom_loop_ok n n q L [] fl a) as (q1 & L1 & E1 & Hs1 & Hq1 & HL & Hr0 & He);
          [done..|by eapply ordered_except|].
        destruct L1 as [|a' L1]; [done|]. injection Hr0 as ->. by exists q1, L1.
      - assert (n = 0)%nat as -> by lia. destruct L as [|a' L]; [done|]. injection Ha as ->.
        exists q, L. split_and!; try done. by eapply ordered_except. }
    destruct Hfb as (q1 & L1 & E1 & Hs1 & [Hm _] & HL & He). rewrite (bind_ret _ _ _ _ _ E1).
    destruct (pop_ok q1 a L1 fl Hs1 He) as (q2 & L2 & E2 & Hs2 & Hm2 & HL2 & Ho2).
    exists q2, L2. split_and!; try done; [by rewrite Hm2|by rewrite HL2].
Qed.

(** *** Growing *)

Lemma muldiv_8_5 c : 0 <= c < max_nodes -> SafeMath.safe_muldiv 64 c 8 5 = (c * 8 / 5, false).
Proof.
  intros Hc. assert (Hmx : max_nodes = 2 ^ 60 - 1) by reflexivity.
  unfold SafeMath.safe_muldiv. change (5 =? 0) with false. cbv iota.
  assert (Hm : SafeMath.modulus 64 = 2 ^ 64) by reflexivity.
  rewrite SafeMath.safe_mul_eq by (unfold SafeMath.is_uint; rewrite Hm; lia).
  unfold SafeMath.safe_mul_builtin, SafeMath.max. rewrite Hm.
  destruct (Z.leb_spec (c * 8) (2 ^ 64 - 1)); [done|lia].
Qed.

Lemma growth_loop_ok fuel : forall target c,
  8 <= c <= max_nodes -> max_nodes * 2 ^ Z.of_nat fuel <= c * 3 ^ Z.of_nat fuel ->
  exists r, growth_loop fuel target c = Some r /\
    (r = 0 /\ max_nodes < target \/ target <= r /\ c <= r <= max_nodes).
Proof.
  induction fuel as [|fuel IH]; intros target c Hc Hf; cbn [growth_loop];
    (destruct (Z.ltb_spec c target); [|exists c; split; [done|right; lia]]);
    (destruct (Z.leb_spec max_nodes c); [exists 0; split; [done|left; lia]|]).
  - change (2 ^ Z.of_nat 0) with 1 in Hf. change (3 ^ Z.of_nat 0) with 1 in Hf. lia.
  - rewrite muldiv_8_5 by lia.
    rewrite Nat2Z.inj_succ, !Z.pow_succ_r in Hf by lia.
    assert (H3 : 2 ^ Z.of_nat fuel <= 3 ^ Z.of_nat fuel) by (apply Z.pow_le_mono_l; lia).
    assert (H2 : 0 < 2 ^ Z.of_nat fuel) by (apply Z.pow_pos_nonneg; lia).
    assert (Hg : 3 * c <= 2 * (c * 8 / 5)) by (Z.to_euclidean_division_equations; lia).
    destruct (Z.leb_spec max_nodes (c * 8 / 5)) as [Hcap|Hcap].
    + destruct (IH target max_nodes ltac:(lia) ltac:(nia)) as (r & E & Hr). exists r. split; [done|lia].
    + destruct (IH target (c * 8 / 5) ltac:(lia) ltac:(nia)) as (r & E & Hr). exists r. split; [done|lia].
Qed.

(** 128 rounds are enough: each multiplies by at least 3/2. *)
Lemma growth_ok target c :
  8 <= c <= max_nodes ->
  exists r, compute_pqueue_growth target c = Some r /\
    (r = 0 /\ max_nodes < target \/ target <= r /\ c <= r <= max_nodes).
Proof.
  intros Hc. apply growth_loop_ok; [done|]. transitivity (8 * 3 ^ Z.of_nat 128); [by vm_compute|].
  apply Z.mul_le_mono_nonneg_r; [by vm_compute|lia].
Qed.

Lemma for_each_elems (f : nat -> M (OSSL_PQUEUE D) unit) (g : nat -> pq_elem_st -> pq_elem_st) :
  (forall i e q, elements q !! i = Some e -> f i q = (Ret tt, set_elements (<[i := g i e]> (elements q)) q)) ->
  forall k from q, (from + k <= length (elements q))%nat ->
  exists es, for_each (seq from k) f q = (Ret tt, set_elements es q) /\ length es = length (elements q) /\
    forall j, es !! j = if decide (from <= j < from + k)%nat then g j <$> elements q !! j else elements q !! j.
Proof.
  intros Hf k. induction k as [|k IH]; intros from q Hlen; cbn [seq for_each].
  { exists (elements q). split_and!; [by destruct q|done|]. intros j. by rewrite decide_False by lia. }
  destruct (lookup_lt_is_Some_2 (elements q) from) as [e He]; [lia|].
  rewrite (bind_ret _ _ _ _ _ (Hf _ _ _ He)).
  destruct (IH (S from) (set_elements (<[from := g from e]> (elements q)) q)) as (es & E & Hl & Hes).
  { cbn. rewrite length_insert. lia. }
  cbn in Hl, Hes. rewrite length_insert in Hl. exists es. split_and!; [done|done|].
  intros j. rewrite Hes. destruct (decide (j = from)) as [->|Hj].
  - rewrite decide_False by lia. rewrite decide_True by lia. rewrite list_lookup_insert_eq by lia. by rewrite He.
  - rewrite list_lookup_insert_ne by done. repeat case_decide; (done || lia).
Qed.

Lemma chain_new es start fl from k :
  chain es start fl ->
  (forall j, (from <= j < from + k)%nat ->
     es !! j = Some (mkElem (if decide (j = from) then start else j - 1)%nat false)) ->
  chain es (if decide (k = 0)%nat then start else from + k - 1)%nat (reverse (seq from k) ++ fl).
Proof.
  intros Hc. induction k as [|k IH]; intros Hes; [done|].
  rewrite seq_S, reverse_app. cbn [reverse app chain]. rewrite decide_False by done.
  split; [lia|]. eexists. split; [apply Hes; lia|].
  specialize (IH ltac:(intros; apply Hes; lia)).
  destruct (decide (k = 0)%nat) as [->|].
  - rewrite decide_True by lia. done.
  - rewrite decide_False by lia. done.
Qed.

(** New handles between [from] and [hmax] are put in front of the free list. *)
Lemma add_freelist_ok q from :
  (from < hmax q)%nat -> length (elements q) = hmax q ->
  exists es, pqueue_add_freelist from q = (Ret tt, set_freelist (hmax q - 1) (set_elements es q)) /\
    length es = hmax q /\ forall j, es !! j =
      if decide (from <= j < hmax q)%nat
      then Some (mkElem (if decide (j = from) then freelist q else j - 1)%nat false) else elements q !! j.
Proof.
  intros Hlt Hlen. unfold pqueue_add_freelist. rewrite (bind_ret get _ q q q) by done.
  destruct (for_each_elems (fun i => set_used i false) (fun _ e => mkElem (posn e) false)
    (fun i e q => set_used_ok i false e q) (hmax q - from) from q) as (es1 & E1 & Hl1 & Hes1); [lia|].
  rewrite (bind_ret _ _ _ _ _ E1).
  destruct (lookup_lt_is_Some_2 es1 from) as [e He]; [lia|].
  rewrite (bind_ret _ _ _ _ _ (set_posn_ok from (freelist q) e (set_elements es1 q) He)). cbn.
  set (es2 := <[from := _]> es1).
  destruct (for_each_elems (fun i => set_posn i (i - 1)) (fun i e => mkElem (i - 1) (used e))
    (fun i e q => set_posn_ok i (i - 1) e q) (hmax q - (from + 1)) (from + 1) (set_elements es2 q))
    as (es3 & E3 & Hl3 & Hes3).
  { cbn. unfold es2. rewrite length_insert. lia. }
  erewrite bind_ret by exact E3. cbn in Hl3, Hes3. unfold es2 in Hl3. rewrite length_insert in Hl3.
  exists es3. split_and!; [done|lia|]. intros j. rewrite Hes3. unfold es2.
  rewrite Hes1, decide_True in He by lia.
  destruct (lookup_lt_is_Some_2 (elements q) from) as [e0 He0]; [lia|].
  rewrite He0 in He. injection He as <-. cbn.
  destruct (decide (j = from)) as [->|Hj].
  - rewrite decide_False by lia. rewrite decide_True by lia. by rewrite list_lookup_insert_eq by lia.
  - rewrite list_lookup_insert_ne by done. rewrite Hes1.
    destruct (decide (from <= j < hmax q)%nat).
    + rewrite decide_True by lia. rewrite decide_True by lia.
      destruct (lookup_lt_is_Some_2 (elements q) j) as [e1 He1]; [lia|]. by rewrite He1.
    + rewrite decide_False by lia. by rewrite decide_False by lia.
Qed.

Lemma length_resize {A} n (x : A) l : length (resize n x l) = n.
Proof. unfold resize. rewrite length_app, length_take, length_replicate. lia. Qed.

Lemma lookup_resize {A} n (x y : A) l i :
  (i < n)%nat -> l !! i = Some y -> resize n x l !! i = Some y.
Proof. intros Hi Hl. unfold resize. apply lookup_app_l_Some. by rewrite lookup_take_lt. Qed.

(** The invariant between calls: [q] holds the entries [L] in heap order, and
    there is always a free slot. *)
Record rep q L : Prop := {
  rep_str : exists fl, str q L [] fl;
  rep_ordered : ordered cmp L;
  rep_slot : (length L < hmax q)%nat;
  rep_hmax : 8 <= Z.of_nat (hmax q) <= max_nodes
}.

Lemma resize_heap_str q L fl n :
  str q L [] fl -> (hmax q <= n)%nat -> str (set_heap (resize n None (heap q)) q) L [] fl.
Proof.
  intros Hs Hn. constructor; cbn; rewrite ?length_resize; try apply Hs; [|done].
  intros i h Hi. apply lookup_resize; [|by apply Hs]. pose proof (str_size Hs).
  apply lookup_lt_Some in Hi. lia.
Qed.

Lemma grow_str q L fl n :
  str q L [] fl -> (hmax q < n)%nat ->
  exists q' fl', pqueue_add_freelist (hmax q) (set_hmax n (set_elements (resize n (mkElem 0 false) (elements q))
      (set_heap (resize n None (heap q)) q))) = (Ret tt, q') /\ hmax q' = n /\ str q' L [] fl'.
Proof.
  intros Hs Hn. set (q1 := set_hmax _ _).
  destruct (add_freelist_ok q1 (hmax q)) as (es & E & Hl & Hes); [done|cbn; apply length_resize|].
  cbn in Hl, Hes, E. rewrite E. eexists _, _. split_and!; [reflexivity|reflexivity|].
  assert (Hold : forall e x, elements q !! e = Some x -> es !! e = Some x).
  { intros e x Hx. apply lookup_lt_Some in Hx as Hlt. rewrite (str_elems _ _ _ _ Hs) in Hlt.
    rewrite Hes, decide_False by lia. apply lookup_resize; [lia|done]. }
  constructor; cbn; rewrite ?length_resize; try apply Hs; try done.
  - intros i h Hi. apply lookup_resize; [|by apply Hs]. pose proof (str_size Hs).
    apply lookup_lt_Some in Hi. lia.
  - rewrite (Permutation_app_comm _ (reverse (seq (hmax q) (n - hmax q)) ++ fl)), <- app_assoc.
    rewrite (Permutation_app_comm fl), reverse_Permutation. cbn in *.
    pose proof (str_part _ _ _ _ Hs) as Hp. cbn in Hp. rewrite Hp, Permutation_app_comm, <- seq_app.
    by replace (hmax q + (n - hmax q))%nat with n by lia.
  - intros i h Hi. apply Hold. by apply Hs.
  - pose proof (chain_new es (freelist q) fl (hmax q) (n - hmax q)) as Hc.
    rewrite decide_False in Hc by lia. replace (hmax q + (n - hmax q) - 1)%nat with (n - 1)%nat in Hc by lia.
    apply Hc; [|intros j Hj; rewrite Hes, decide_True by lia; done].
    eapply chain_frame; [|apply Hs]. intros e He.
    destruct (lookup_lt_is_Some_2 (elements q) e) as [x Hx]; [|by rewrite Hx; apply Hold].
    rewrite (str_elems _ _ _ _ Hs). apply (handle_lt Hs). set_solver.
Qed.

Lemma reserve_ok ah ae n q L :
  rep q L -> 0 <= n < 2 ^ 63 ->
  exists r q', ossl_pqueue_reserve ah ae n q = (r, q') /\ rep q' L /\
    (r = Ret tt /\ Z.of_nat (length L) + n < Z.of_nat (hmax q') \/
     r = Err /\ (ah = false \/ ae = false \/
       max_nodes < n + Z.of_nat (hmax q) /\ Z.of_nat (hmax q) <= Z.of_nat (length L) + n)).
Proof.
  intros Hrep Hn. destruct Hrep as [[fl Hs] Ho Hslot Hmx].
  assert (Hm60 : max_nodes < 2 ^ 60) by done.
  unfold ossl_pqueue_reserve. rewrite (bind_ret get _ q q q) by done. rewrite (str_top _ _ _ _ Hs).
  rewrite !u64_id by (unfold is_u64; lia).
  destruct (Z.ltb_spec (Z.of_nat (length L) + n) (Z.of_nat (hmax q))) as [Hfit|Hfit].
  { exists (Ret tt), q. split_and!; [done|by split; eauto|by left]. }
  destruct (growth_ok (n + Z.of_nat (hmax q)) (Z.of_nat (hmax q)) Hmx) as (r & -> & [[-> Hbig]|[Ht Hr]]).
  { exists Err, q. split_and!; [done|by split; eauto|right; auto]. }
  destruct (Z.eqb_spec r 0); [lia|]. cbn [negb]. rewrite guard_true by done.
  destruct ah; [rewrite guard_true by done|exists Err, q; split_and!; [done|by split; eauto|right; auto]].
  erewrite bind_ret by reflexivity.
  destruct ae; [rewrite guard_true by done|].
  2: { eexists Err, _. split_and!; [reflexivity| |right; auto]. split; eauto. exists fl.
       apply resize_heap_str; [done|lia]. }
  do 2 erewrite bind_ret by reflexivity.
  destruct (grow_str q L fl (Z.to_nat r) Hs ltac:(lia)) as (q' & fl' & E & Hm' & Hs').
  exists (Ret tt), q'. split_and!; [exact E| |left; split; [done|lia]].
  split; [eauto|done|lia|lia].
Qed.

Lemma push_str q L m fl d p :
  str q L [] (m :: fl) -> elements q !! m = Some (mkElem p false) ->
  str (mkPq (<[length L := Some (mkHeap d m)]> (heap q)) (<[m := mkElem (length L) true]> (elements q))
        (compare q) (length L + 1) (hmax q) p) (L ++ [mkHeap d m]) [] fl.
Proof.
  intros Hs Hm. pose proof (str_size Hs) as Hsz. cbn in Hsz. pose proof (str_room _ _ _ _ Hs).
  apply lookup_lt_Some in Hm as Hml. pose proof (str_nodup Hs) as Hn. cbn in Hn.
  apply NoDup_app in Hn as (_ & Hd & Hn). apply NoDup_cons in Hn as [Hmfl _].
  constructor; cbn; rewrite ?length_insert, ?length_app; try apply Hs; try done.
  - intros i h [[Hi Hlt]|[-> Hlt]]%lookup_snoc_Some.
    + rewrite list_lookup_insert_ne by lia. by apply Hs.
    + rewrite list_lookup_insert_eq by lia. congruence.
  - rewrite <- (str_part _ _ _ _ Hs), fmap_app. cbn. solve_Permutation.
  - intros i h [[Hlt Hi]|[-> <-]]%lookup_snoc_Some.
    + rewrite list_lookup_insert_ne; [by apply Hs|]. intros ->. eapply (idx_not_fl Hs); [done|]. set_solver.
    + by rewrite list_lookup_insert_eq.
  - destruct (str_chain _ _ _ _ Hs) as [_ (p' & Hp & Hc)]. rewrite Hm in Hp. injection Hp as <-.
    eapply chain_frame; [|exact Hc]. intros e He. rewrite list_lookup_insert_ne; [done|]. set_solver.
Qed.

Lemma snoc_except L h : ordered cmp L -> except cmp (L ++ [h]) (length L) /\ below cmp (L ++ [h]) (length L).
Proof.
  assert (Hend : forall c x, (c = 2 * length L + 1 \/ c = 2 * length L + 2)%nat -> (L ++ [h]) !! c = Some x -> False).
  { intros c x Hc Hx. apply lookup_lt_Some in Hx. rewrite length_app in Hx. cbn in Hx. lia. }
  intros Ho. split; [split|].
  - intros p c Hpc Hp Hc x y [[_ Hx]|[? _]]%lookup_snoc_Some [[_ Hy]|[? _]]%lookup_snoc_Some; try done.
    by eapply Ho.
  - intros p c _ Hc x y _ Hy. by destruct (Hend c y).
  - intros c Hc x y _ Hy. by destruct (Hend c y).
Qed.

Lemma push_ok ah ae d q L :
  rep q L ->
  exists r q', ossl_pqueue_push ah ae d q = (r, q') /\
    ((exists m L', r = Ret m /\ rep q' L' /\ L' ≡ₚ mkHeap d m :: L /\ m ∉ index <$> L) \/
     (r = Err /\ rep q' L /\ (ah = false \/ ae = false \/ max_nodes <= Z.of_nat (length L) + 1))).
Proof.
  intros Hrep. unfold ossl_pqueue_push.
  destruct (reserve_ok ah ae 1 q L Hrep ltac:(lia)) as (r & q1 & E & Hrep1 & [[-> Hroom]|[-> Hwhy]]).
  2: { rewrite (bind_err _ _ _ _ E). exists Err, q1. split; [done|]. right. split_and!; try done.
       destruct Hwhy as [?|[?|?]]; auto. right; right. lia. }
  rewrite (bind_ret _ _ _ _ _ E), (bind_ret get _ q1 q1 q1) by done.
  destruct Hrep1 as [[fl Hs] Ho Hslot Hmx]. rewrite (str_top _ _ _ _ Hs). erewrite bind_ret by reflexivity.
  destruct fl as [|m fl]; [pose proof (str_size Hs) as Hsz; cbn in Hsz; lia|].
  destruct (str_chain _ _ _ _ Hs) as (Hfl & p & Hp & _). rewrite Hfl.
  assert (HlenL : (length L < length (heap q1))%nat) by (pose proof (str_room _ _ _ _ Hs); lia).
  apply lookup_lt_Some in Hp as Hml.
  erewrite bind_ret by (unfold elem_at; cbn; rewrite Hp; reflexivity). erewrite bind_ret by reflexivity.
  erewrite bind_ret by (apply put_heap_ok; cbn; lia).
  erewrite bind_ret by (apply set_posn_ok; exact Hp). cbn.
  erewrite bind_ret by (apply set_used_ok; cbn; by rewrite list_lookup_insert_eq). cbn.
  rewrite list_insert_insert_eq. pose proof (push_str q1 L m fl d p Hs Hp) as Hs2.
  set (q2 := mkPq _ _ _ _ _ _) in Hs2.
  change (set_elements _ _) with q2.
  assert (Hlast : (L ++ [mkHeap d m]) !! length L = Some (mkHeap d m)) by (by apply list_lookup_middle).
  destruct (snoc_except L (mkHeap d m) Ho) as [He Hb].
  destruct (move_down_loop_ok (length L) (length L) q2 _ _ _ _ ltac:(done) Hs2 Hlast He Hb)
    as (q3 & L3 & E3 & Hs3 & [Hm3 _] & HL3 & Ho3).
  assert (E3' : pqueue_move_down (length L) q2 = (Ret tt, q3)).
  { unfold pqueue_move_down. by rewrite (bind_ret _ _ _ _ _ (assert_used_ok Hs2 _ _ Hlast)). }
  rewrite (bind_ret _ _ _ _ _ E3'). exists (Ret m), q3. split; [done|]. left. exists m, L3. split_and!; try done.
  - split; [eauto|done| |by rewrite Hm3]. rewrite HL3, length_app, Hm3. cbn. lia.
  - rewrite HL3. solve_Permutation.
  - intros Hin. pose proof (str_nodup Hs) as Hn. apply NoDup_app in Hn as (_ & Hn & _). apply (Hn m Hin). cbn. left.
Qed.

Lemma new_ok : exists q, ossl_pqueue_new (Some cmp) true true true = Ret (Some q) /\ rep q [].
Proof.
  unfold ossl_pqueue_new. cbn [negb orb].
  set (q0 := mkPq _ _ _ _ _ _).
  destruct (add_freelist_ok q0 0) as (es & E & Hl & Hes); [cbn; unfold min_nodes; lia|done|].
  rewrite E. eexists. split; [reflexivity|].
  split; [exists (reverse (seq 0 8) ++ [])|intros p c _ x y Hx; done|cbn; unfold min_nodes; lia|split; vm_compute; congruence].
  constructor; try done.
  - rewrite app_nil_r. apply reverse_Permutation.
  - change (chain es (if decide (8 = 0)%nat then 0%nat else 0 + 8 - 1)%nat (reverse (seq 0 8) ++ [])).
    apply chain_new; [done|]. intros j Hj. rewrite Hes. cbn. rewrite decide_True by (unfold min_nodes; lia). done.
Qed.

(** *** The map a queue stands for *)

Definition entries q : list (pq_heap_st D) := omap id (take (htop q) (heap q)).
Definition kv (h : pq_heap_st D) : nat * D := (index h, data h).
Definition abs q : gmap nat D := list_to_map (kv <$> entries q).
Definition pq_ok q : Prop := exists L, rep q L.

Lemma entries_rep q L : rep q L -> entries q = L.
Proof.
  intros [[fl Hs] _ _ _]. unfold entries. rewrite (str_top _ _ _ _ Hs).
  replace (take (length L) (heap q)) with (Some <$> L).
  - induction L as [|h L' IH] in |- *; [done|]. cbn. by f_equal.
  - pose proof (str_size Hs). pose proof (str_room _ _ _ _ Hs).
    apply list_eq_same_length with (length L); rewrite ?length_fmap, ?length_take; [lia..|].
    intros i x y Hi Hx Hy. rewrite lookup_take_lt in Hy by done. rewrite list_lookup_fmap in Hx.
    destruct (L !! i) as [h|] eqn:E; [|done]. apply (str_heap _ _ _ _ Hs) in E. cbn in Hx. congruence.
Qed.

Lemma abs_rep q L : rep q L -> abs q = list_to_map (kv <$> L).
Proof. intros Hr. unfold abs. by rewrite (entries_rep q L Hr). Qed.

Lemma rep_nodup q L : rep q L -> NoDup (kv <$> L).*1.
Proof.
  intros [[fl Hs] _ _ _]. rewrite <- list_fmap_compose. pose proof (str_nodup Hs) as Hn.
  by apply NoDup_app in Hn as [Hn _].
Qed.

Lemma abs_lookup q L h : rep q L -> h ∈ L -> abs q !! index h = Some (data h).
Proof.
  intros Hr Hh. rewrite (abs_rep q L Hr). apply elem_of_list_to_map; [by eapply rep_nodup|].
  apply list_elem_of_fmap. by exists h.
Qed.

Lemma abs_lookup_inv q L m d :
  rep q L -> abs q !! m = Some d -> exists i h, L !! i = Some h /\ index h = m /\ data h = d.
Proof.
  intros Hr. rewrite (abs_rep q L Hr). intros (h & Hkv & Hh)%elem_of_list_to_map_2%list_elem_of_fmap.
  apply list_elem_of_lookup in Hh as [i Hi]. exists i, h. unfold kv in Hkv. by simplify_eq.
Qed.

Lemma abs_size q L : rep q L -> size (abs q) = length L.
Proof. intros Hr. rewrite (abs_rep q L Hr), map_size_list_to_map by (by eapply rep_nodup). apply length_fmap. Qed.

Lemma abs_cons q L q' L' h :
  rep q L -> rep q' L' -> h :: L' ≡ₚ L -> abs q = <[index h := data h]> (abs q') /\ abs q' !! index h = None.
Proof.
  intros Hr Hr' HL. pose proof (rep_nodup q L Hr) as Hn. rewrite <- HL in Hn. split.
  - rewrite (abs_rep q L Hr), (abs_rep q' L' Hr').
    rewrite <- (list_to_map_proper (kv <$> (h :: L')) (kv <$> L)) by (done || by rewrite HL). done.
  - rewrite (abs_rep q' L' Hr'). apply not_elem_of_list_to_map_1. cbn in Hn. by apply NoDup_cons in Hn as [Hn _].
Qed.

Lemma abs_delete q L q' L' h :
  rep q L -> rep q' L' -> h :: L' ≡ₚ L -> abs q' = delete (index h) (abs q).
Proof. intros Hr Hr' HL. destruct (abs_cons q L q' L' h Hr Hr' HL) as [-> Hn]. by rewrite delete_insert_id. Qed.

Lemma rep_after q L q' L' a fl :
  rep q L -> str q' L' [] (a :: fl) -> hmax q' = hmax q -> ordered cmp L' -> rep q' L'.
Proof.
  intros Hr Hs Hm Ho. pose proof (str_size Hs) as Hsz. cbn in Hsz.
  split; [eauto|done|lia|]. rewrite Hm. apply Hr.
Qed.

Lemma rep_pop q L : rep q L ->
  (L = [] /\ ossl_pqueue_pop q = (Ret None, q)) \/
  (exists a L' q', L !! 0%nat = Some a /\ ossl_pqueue_pop q = (Ret (Some (data a)), q') /\ rep q' L' /\ a :: L' ≡ₚ L).
Proof.
  intros Hr. destruct (rep_str q L Hr) as [fl Hs]. destruct L as [|a L].
  - left. split; [done|]. unfold ossl_pqueue_pop. rewrite (bind_ret get _ q q q) by done.
    by rewrite (str_top _ _ _ _ Hs).
  - right. destruct (pop_ok q a L fl Hs) as (q' & L' & E & Hs' & Hm & HL & Ho).
    { eapply ordered_except; [done|reflexivity|apply Hr]. }
    exists a, L', q'. split_and!; [done|done|by eapply rep_after|by rewrite HL].
Qed.

Lemma rep_least q L a : rep q L -> L !! 0%nat = Some a -> least cmp (data a) (abs q).
Proof.
  intros Hr Ha m x Hx. destruct (abs_lookup_inv q L m x Hr Hx) as (i & h & Hi & _ & <-).
  eapply ordered_least; [done|apply Hr|done|exact Hi].
Qed.

Lemma abs_nil q : rep q [] -> abs q = ∅.
Proof. intros Hr. by rewrite (abs_rep q [] Hr). Qed.

End Rep.

(** Each operation, on the map. *)
Section Refine.
Context {D : Type} (cmp : D -> D -> Z) `{!Comparator cmp}.
Implicit Types (q : OSSL_PQUEUE D).

Definition simulates q (o : op) : Prop :=
  exists out q', exec o q = (Ret out, q') /\ pq_ok cmp q' /\ spec_step cmp (abs q) o out (abs q').

Lemma push_simulates q ah ae d : pq_ok cmp q -> simulates q (Push ah ae d).
Proof.
  intros [L Hr]. destruct (push_ok cmp ah ae d q L Hr) as (r & q' & E & [(m & L' & -> & Hr' & HL & Hm)|(-> & Hr' & Hwhy)]);
    unfold simulates; cbn [exec]; unfold catch; rewrite E.
  - exists (OHandle m), q'. split_and!; [done|by exists L'|].
    destruct (abs_cons cmp q' L' q L (mkHeap d m) Hr' Hr) as [-> Hn]; [by rewrite HL|]. by constructor.
  - exists OFail, q'. split_and!; [done|by exists L|].
    rewrite (abs_rep cmp q' L Hr'), <- (abs_rep cmp q L Hr). constructor.
    unfold no_room. by rewrite (abs_size cmp q L Hr).
Qed.

Lemma pop_simulates q : pq_ok cmp q -> simulates q Pop.
Proof.
  intros [L Hr]. unfold simulates. cbn [exec]. unfold catch.
  destruct (rep_pop cmp q L Hr) as [[-> ->]|(a & L' & q' & Ha & -> & Hr' & HL)].
  - exists (OData None), q. split_and!; [done|by exists []|]. rewrite (abs_nil cmp q Hr). constructor.
  - exists (OData (Some (data a))), q'. split_and!; [done|by exists L'|].
    rewrite (abs_delete cmp q L q' L' a Hr Hr' HL). constructor; [|by eapply rep_least].
    eapply abs_lookup; [done|]. by eapply list_elem_of_lookup_2.
Qed.

Lemma peek_simulates q : pq_ok cmp q -> simulates q Peek.
Proof.
  intros [L Hr]. destruct (rep_str cmp q L Hr) as [fl Hs]. unfold simulates. cbn [exec]. unfold catch, ossl_pqueue_peek.
  rewrite (bind_ret get _ q q q) by done. rewrite (str_top _ _ _ _ _ Hs).
  destruct L as [|a L]; cbn [length].
  - exists (OData None), q. split_and!; [done|by exists []|]. rewrite (abs_nil cmp q Hr). constructor.
  - rewrite decide_True by lia. rewrite (bind_ret _ _ _ _ _ (assert_used_ok cmp Hs 0%nat a eq_refl)).
    rewrite (bind_ret _ _ _ _ _ (heap_at_ok cmp Hs 0%nat a eq_refl)).
    exists (OData (Some (data a))), q. split_and!; [done|by exists (a :: L)|].
    econstructor; [eapply abs_lookup; [done|left]|by eapply rep_least].
Qed.

Lemma remove_simulates q e : pq_ok cmp q -> legal (abs q) (Remove e) -> simulates q (Remove e).
Proof.
  intros [L Hr] Hl. destruct (rep_str cmp q L Hr) as [fl Hs]. unfold simulates. cbn [exec]. unfold catch.
  destruct Hl as [[d Hd]|Hemp].
  - destruct (abs_lookup_inv cmp q L e d Hr Hd) as (i & h & Hi & <- & <-).
    destruct (remove_ok cmp q i h L fl Hs ltac:(apply Hr) Hi) as (q' & L' & -> & Hs' & Hm & HL & Ho).
    assert (Hr' : rep cmp q' L') by (by eapply rep_after).
    exists (OData (Some (data h))), q'. split_and!; [done|by exists L'|].
    rewrite (abs_delete cmp q L q' L' h Hr Hr' HL). by constructor.
  - assert (L = []) as ->.
    { apply length_zero_iff_nil. by rewrite <- (abs_size cmp q L Hr), Hemp. }
    unfold ossl_pqueue_remove. rewrite (bind_ret get _ q q q) by done.
    rewrite (str_top _ _ _ _ _ Hs), decide_True by auto.
    exists (OData None), q. split_and!; [done|by exists []|]. rewrite Hemp. constructor.
Qed.

Lemma reserve_simulates q ah ae n : pq_ok cmp q -> 0 <= n < 2 ^ 63 -> simulates q (Reserve ah ae n).
Proof.
  intros [L Hr] Hn. destruct (reserve_ok cmp ah ae n q L Hr Hn) as (r & q' & E & Hr' & Hwhy).
  unfold simulates. cbn [exec]. unfold catch. rewrite E.
  pose proof (abs_rep cmp q' L Hr') as Ha. rewrite <- (abs_rep cmp q L Hr) in Ha.
  destruct Hwhy as [[-> _]|[-> Hwhy]].
  - exists ODone, q'. split_and!; [done|by exists L|]. rewrite Ha. constructor.
  - exists OFail, q'. split_and!; [done|by exists L|]. rewrite Ha. constructor.
    unfold no_room. rewrite (abs_size cmp q L Hr). destruct Hwhy as [?|[?|?]]; auto. right; right. lia.
Qed.

End Refine.

(** C35: a queue implements a map from handles to data whose least datum can be
    taken out.  A new queue is empty; from then on every legal operation is
    defined (no assertion fails, no array is accessed out of range, every loop
    ends) and does what the map specification allows: [push] binds a fresh
    handle, [pop] and [peek] return a datum no greater than any other, [remove]
    takes out exactly the entry of its handle, a failure leaves the contents
    unchanged and only comes from a failed allocation or from the maximum size. *)
Theorem pqueue_refines_map {D} (cmp : D -> D -> Z) (Hcmp : Comparator cmp) :
  (exists q, ossl_pqueue_new (Some cmp) true true true = Ret (Some q) /\ pq_ok cmp q /\ abs q = ∅) /\
  (forall q o, pq_ok cmp q -> legal (abs q) o ->
   exists out q', exec o q = (Ret out, q') /\ pq_ok cmp q' /\ spec_step cmp (abs q) o out (abs q')).
Proof.
  split.
  - destruct (new_ok cmp) as (q & E & Hr). exists q. split_and!; [done|by exists []|by apply (abs_nil cmp)].
  - intros q [ah ae d| | |e|ah ae n|] Hq Hl.
    + by apply push_simulates. + by apply pop_simulates. + by apply peek_simulates.
    + by apply remove_simulates. + by apply reserve_simulates.
    + destruct Hq as [L Hr]. exists (ONum (htop q)), q. split_and!; [done|by exists L|].
      destruct (rep_str cmp q L Hr) as [fl Hs]. rewrite (str_top _ _ _ _ _ Hs), <- (abs_size cmp q L Hr). constructor.
Qed.

Lemma pqueue_refines_map_witness :
  exists q, ossl_pqueue_new (Some Z.sub) true true true = Ret (Some q) /\
  exists out q', exec (Push true true 5) q = (Ret out, q') /\
    spec_step Z.sub (abs q) (Push true true 5) out (abs q').
Proof.
  destruct (pqueue_refines_map Z.sub Z_comparator) as [(q & E & Hq & _) Hstep]. exists q. split; [exact E|].
  destruct (Hstep q (Push true true 5) Hq I) as (out & q' & E' & _ & Hs). by exists out, q'.
Defined.

(** *** Sorting with a queue *)
Section Sorting.
Context {D : Type} (cmp : D -> D -> Z) `{!Comparator cmp}.

Fixpoint push_all (ds : list D) : M (OSSL_PQUEUE D) unit :=
  match ds with [] => mret tt | d :: ds => ossl_pqueue_push true true d;; push_all ds end.
Fixpoint drain (k : nat) : M (OSSL_PQUEUE D) (list D) :=
  match k with
  | O => mret []
  | S k => r ← ossl_pqueue_pop;
           match r with Some d => rest ← drain k; mret (d :: rest) | None => mret [] end
  end.

Lemma push_all_ok ds : forall q L,
  rep cmp q L -> Z.of_nat (length L + length ds) < max_nodes ->
  exists q' L', push_all ds q = (Ret tt, q') /\ rep cmp q' L' /\ data <$> L' ≡ₚ ds ++ (data <$> L).
Proof.
  induction ds as [|d ds IH]; intros q L Hr Hlen; [by exists q, L|]. cbn [push_all length] in *.
  destruct (push_ok cmp true true d q L Hr) as (r & q1 & E & [(m & L1 & -> & Hr1 & HL1 & _)|(_ & _ & Hwhy)]).
  2: { destruct Hwhy as [?|[?|?]]; [done..|lia]. }
  rewrite (bind_ret _ _ _ _ _ E). destruct (IH q1 L1 Hr1) as (q2 & L2 & E2 & Hr2 & HL2).
  { rewrite HL1. cbn. lia. }
  exists q2, L2. split_and!; [done|done|]. rewrite HL2, HL1. cbn. solve_Permutation.
Qed.

Lemma drain_ok k : forall q L, rep cmp q L -> length L = k ->
  exists ds q', drain k q = (Ret ds, q') /\ ds ≡ₚ data <$> L /\ StronglySorted (fun a b => cmp a b <= 0) ds.
Proof.
  induction k as [|k IH]; intros q L Hr Hk; cbn [drain].
  { apply length_zero_iff_nil in Hk as ->. exists [], q. split_and!; [done|done|constructor]. }
  destruct (rep_pop cmp q L Hr) as [[-> _]|(a & L1 & q1 & Ha & E & Hr1 & HL)]; [done|].
  rewrite (bind_ret _ _ _ _ _ E).
  destruct (IH q1 L1 Hr1) as (ds & q2 & E2 & Hds & Hso). { rewrite <- HL in Hk. cbn in Hk. lia. }
  rewrite (bind_ret _ _ _ _ _ E2). exists (data a :: ds), q2. split_and!; [done|by rewrite <- HL, Hds|].
  constructor; [done|]. apply Forall_forall. intros x Hx. rewrite Hds in Hx.
  apply list_elem_of_fmap in Hx as (h & -> & Hh).
  assert (Hh' : h ∈ L) by (rewrite <- HL; by right). apply list_elem_of_lookup in Hh' as [i Hi].
  eapply ordered_least; [done|apply Hr|done|exact Hi].
Qed.

End Sorting.

(** Pushing any number of data (below the maximum size) into a new queue
    and popping as many returns all of them, in ascending order. *)
Theorem pqueue_sorts {D} (cmp : D -> D -> Z) (Hcmp : Comparator cmp) (ds : list D) :
  Z.of_nat (length ds) < max_nodes ->
  exists q out q', ossl_pqueue_new (Some cmp) true true true = Ret (Some q) /\
    (push_all ds;; drain (length ds)) q = (Ret out, q') /\
    out ≡ₚ ds /\ StronglySorted (fun a b => cmp a b <= 0) out.
Proof.
  intros Hlen. destruct (new_ok cmp) as (q & E & Hr).
  destruct (push_all_ok cmp ds q [] Hr Hlen) as (q1 & L1 & E1 & Hr1 & HL1).
  rewrite app_nil_r in HL1. pose proof (Permutation_length HL1) as Hk. rewrite length_fmap in Hk.
  destruct (drain_ok cmp (length ds) q1 L1 Hr1 Hk) as (out & q2 & E2 & Hout & Hso).
  exists q, out, q2. split_and!; [done| |by rewrite Hout|done]. by rewrite (bind_ret _ _ _ _ _ E1).
Qed.

Lemma pqueue_sorts_witness :
  exists q out q', ossl_pqueue_new (Some Z.sub) true true true = Ret (Some q) /\
    (push_all [5; 1; 4; 1; 3; 9; 2; 6; 0; 7];; drain 10) q = (Ret out, q') /\
    out ≡ₚ [5; 1; 4; 1; 3; 9; 2; 6; 0; 7] /\ StronglySorted (fun a b => Z.sub a b <= 0) out.
Proof. apply (pqueue_sorts Z.sub Z_comparator [5; 1; 4; 1; 3; 9; 2; 6; 0; 7]). vm_compute. reflexivity. Defined.

(** The same run, evaluated: the queue grows on the way. *)
Example pqueue_sorts_run :
  (match ossl_pqueue_new (Some Z.sub) true true true with
   | Ret (Some q) => fst ((push_all [5; 1; 4; 1; 3; 9; 2; 6; 0; 7];; drain 10) q)
   | _ => Undef
   end) = Ret [0; 1; 1; 2; 3; 4; 5; 6; 7; 9].
Proof. vm_compute. reflexivity. Qed.

(** [ossl_pqueue_reserve] does not check its additions for wrap-around.
    Asked for 2^64 - 8 more entries, an empty queue keeps its size and then
    initialises an element past the end of the array; asked for 2^64 - 1, a
    queue with an entry reports success without reserving anything. *)
Theorem pqueue_reserve_wraps :
  exists q q1, ossl_pqueue_new (Some Z.sub) true true true = Ret (Some q) /\
    fst (ossl_pqueue_reserve true true (2 ^ 64 - 8) q) = Undef /\
    push_all [1] q = (Ret tt, q1) /\
    ossl_pqueue_reserve true true (2 ^ 64 - 1) q1 = (Ret tt, q1) /\ hmax q1 = 8%nat.
Proof.
  do 2 eexists. split; [vm_compute; reflexivity|]. split; [vm_compute; reflexivity|].
  split; [vm_compute; reflexivity|]. split; vm_compute; reflexivity.
Qed.

End PQueue.
