(* ===== verification/Rcidm.v ===== *)
(** * Remote connection IDs

    Model of [ssl/quic/quic_rcidm.c]: the connection IDs a peer has issued, which
    are pending in a priority queue, then current, then retiring in a list, and are
    freed when their sequence number is popped.

    The objects are in a heap by address.  The priority queue is that of
    [PriorityQueue]; an entry of it is the address of an object with its sequence
    number, which the comparison reads through the pointer and which never changes.
    The list of retiring objects is a list of addresses.  [pq_idx] is the handle the
    queue gave, or [SIZE_MAX].  A failed [assert] is undefined behaviour.
    Allocations are inputs: the address of the new object, or [None], and the two
    reallocations of a push. *)
From Stdlib Require Import ZArith Lia.
From stdpp Require Import base tactics option list gmap.
From S2P Require Import Prelude PriorityQueue QuicVlint QuicWire.
#[local] Open Scope Z_scope.

Module Rcidm.

Abbreviation QUIC_CONN_ID := QuicWire.QUIC_CONN_ID.
Abbreviation id_len := QuicWire.id_len.
Abbreviation PQ := (PQueue.OSSL_PQUEUE (Z * nat)).

Definition PACKETS_PER_RCID : Z := 10000.
Definition INITIAL_SEQ_NUM : Z := 0.
Definition OSSL_QUIC_VLINT_MAX : Z := 4611686018427387903.
Definition MAX_NUMBERED_RCIDS : Z := SIZE_MAX / 2.

Definition RCID_STATE_PENDING : Z := 0.
Definition RCID_STATE_CUR : Z := 1.
Definition RCID_STATE_RETIRING : Z := 2.
Definition RCID_TYPE_INITIAL : Z := 0.
Definition RCID_TYPE_PREF_ADDR : Z := 1.
Definition RCID_TYPE_NCID : Z := 2.

Record RCID := mkRcid { cid : QUIC_CONN_ID; seq_num : Z; pq_idx : Z; state : Z; type : Z }.

Definition ossl_quic_conn_id_eq (a b : QUIC_CONN_ID) : bool :=
  if negb (id_len a =? id_len b) || (QuicWire.QUIC_MAX_CONN_ID_LEN <? id_len a) then false
  else bool_decide (take (Z.to_nat (id_len a)) (QuicWire.id a) = take (Z.to_nat (id_len a)) (QuicWire.id b)).

Record QUIC_RCIDM := mkRcidm {
  objs : gmap nat RCID;
  preferred_rcid : QUIC_CONN_ID; initial_odcid : QUIC_CONN_ID; retry_odcid : QUIC_CONN_ID;
  packets_sent : Z; num_changes : Z; retire_prior_to : Z;
  rcids : PQ; cur_rcid : option nat; retiring_list : list nat; num_retiring : Z;
  preferred_rcid_changed : bool; have_preferred_rcid : bool; handshake_complete : bool;
  added_initial_odcid : bool; added_retry_odcid : bool; added_initial_rcid : bool; roll_requested : bool
}.

Abbreviation MR := (M QUIC_RCIDM).

Definition set_objs (v : gmap nat RCID) (m : QUIC_RCIDM) : QUIC_RCIDM :=
  mkRcidm v (preferred_rcid m) (initial_odcid m) (retry_odcid m) (packets_sent m) (num_changes m) (retire_prior_to m) (rcids m) (cur_rcid m) (retiring_list m) (num_retiring m)
    (preferred_rcid_changed m) (have_preferred_rcid m) (handshake_complete m) (added_initial_odcid m) (added_retry_odcid m) (added_initial_rcid m) (roll_requested m).
Definition set_rcids (v : PQ) (m : QUIC_RCIDM) : QUIC_RCIDM :=
  mkRcidm (objs m) (preferred_rcid m) (initial_odcid m) (retry_odcid m) (packets_sent m) (num_changes m) (retire_prior_to m) v (cur_rcid m) (retiring_list m) (num_retiring m)
    (preferred_rcid_changed m) (have_preferred_rcid m) (handshake_complete m) (added_initial_odcid m) (added_retry_odcid m) (added_initial_rcid m) (roll_requested m).
Definition set_cur (v : option nat) (m : QUIC_RCIDM) : QUIC_RCIDM :=
  mkRcidm (objs m) (preferred_rcid m) (initial_odcid m) (retry_odcid m) (packets_sent m) (num_changes m) (retire_prior_to m) (rcids m) v (retiring_list m) (num_retiring m)
    (preferred_rcid_changed m) (have_preferred_rcid m) (handshake_complete m) (added_initial_odcid m) (added_retry_odcid m) (added_initial_rcid m) (roll_requested m).
Definition set_retiring (l : list nat) (n : Z) (m : QUIC_RCIDM) : QUIC_RCIDM :=
  mkRcidm (objs m) (preferred_rcid m) (initial_odcid m) (retry_odcid m) (packets_sent m) (num_changes m) (retire_prior_to m) (rcids m) (cur_rcid m) l n
    (preferred_rcid_changed m) (have_preferred_rcid m) (handshake_complete m) (added_initial_odcid m) (added_retry_odcid m) (added_initial_rcid m) (roll_requested m).
Definition set_preferred (c : QUIC_CONN_ID) (changed have : bool) (m : QUIC_RCIDM) : QUIC_RCIDM :=
  mkRcidm (objs m) c (initial_odcid m) (retry_odcid m) (packets_sent m) (num_changes m) (retire_prior_to m) (rcids m) (cur_rcid m) (retiring_list m) (num_retiring m)
    changed have (handshake_complete m) (added_initial_odcid m) (added_retry_odcid m) (added_initial_rcid m) (roll_requested m).
(** The counters and flags that only the policy reads. *)
Definition set_policy (ps nc : Z) (hc roll : bool) (m : QUIC_RCIDM) : QUIC_RCIDM :=
  mkRcidm (objs m) (preferred_rcid m) (initial_odcid m) (retry_odcid m) ps nc (retire_prior_to m) (rcids m) (cur_rcid m) (retiring_list m) (num_retiring m)
    (preferred_rcid_changed m) (have_preferred_rcid m) hc (added_initial_odcid m) (added_retry_odcid m) (added_initial_rcid m) roll.
Definition set_retire_prior_to (v : Z) (m : QUIC_RCIDM) : QUIC_RCIDM :=
  mkRcidm (objs m) (preferred_rcid m) (initial_odcid m) (retry_odcid m) (packets_sent m) (num_changes m) v (rcids m) (cur_rcid m) (retiring_list m) (num_retiring m)
    (preferred_rcid_changed m) (have_preferred_rcid m) (handshake_complete m) (added_initial_odcid m) (added_retry_odcid m) (added_initial_rcid m) (roll_requested m).
Definition set_added_initial_rcid (m : QUIC_RCIDM) : QUIC_RCIDM :=
  mkRcidm (objs m) (preferred_rcid m) (initial_odcid m) (retry_odcid m) (packets_sent m) (num_changes m) (retire_prior_to m) (rcids m) (cur_rcid m) (retiring_list m) (num_retiring m)
    (preferred_rcid_changed m) (have_preferred_rcid m) (handshake_complete m) (added_initial_odcid m) (added_retry_odcid m) true (roll_requested m).
Definition set_retry_odcid (c : QUIC_CONN_ID) (m : QUIC_RCIDM) : QUIC_RCIDM :=
  mkRcidm (objs m) (preferred_rcid m) (initial_odcid m) c (packets_sent m) (num_changes m) (retire_prior_to m) (rcids m) (cur_rcid m) (retiring_list m) (num_retiring m)
    (preferred_rcid_changed m) (have_preferred_rcid m) (handshake_complete m) (added_initial_odcid m) true (added_initial_rcid m) (roll_requested m).

Definition with_state (s : Z) (x : RCID) : RCID := mkRcid (cid x) (seq_num x) (pq_idx x) s (type x).
Definition with_pq_idx (i : Z) (x : RCID) : RCID := mkRcid (cid x) (seq_num x) i (state x) (type x).

Definition obj (r : nat) : MR RCID := fun m => match objs m !! r with Some x => (Ret x, m) | None => (Undef, m) end.
Definition upd_obj (r : nat) (f : RCID -> RCID) : MR unit := x ← obj r; modify (fun m => set_objs (<[r := f x]> (objs m)) m).
Definition free_obj (r : nat) : MR unit := obj r;; modify (fun m => set_objs (delete r (objs m)) m).
Definition on_pq {A} (f : M PQ A) : MR A := fun m => let '(r, q) := f (rcids m) in (r, set_rcids q m).
Definition assert_ (b : bool) : MR unit := if b then mret tt else undefined.

Definition rcid_cmp (a b : Z * nat) : Z := if a.1 <? b.1 then -1 else if b.1 <? a.1 then 1 else 0.

(** [ossl_list_retiring_next(rcid) != NULL || ..._prev(rcid) != NULL || ..._head(...) == rcid]. *)
Definition linked (r : nat) (l : list nat) : bool := bool_decide (r ∈ l).

Definition rcidm_check_rcid (r : nat) : MR unit :=
  m ← get;
  x ← obj r;
  assert_ ((state x =? RCID_STATE_PENDING) || (state x =? RCID_STATE_CUR) || (state x =? RCID_STATE_RETIRING));;
  assert_ (eqb (state x =? RCID_STATE_PENDING) (negb (pq_idx x =? SIZE_MAX)));;
  assert_ (eqb (state x =? RCID_STATE_CUR) (bool_decide (cur_rcid m = Some r)));;
  assert_ (eqb (linked r (retiring_list m)) (state x =? RCID_STATE_RETIRING));;
  assert_ (negb (type x =? RCID_TYPE_INITIAL) || (seq_num x =? 0));;
  assert_ (negb (type x =? RCID_TYPE_PREF_ADDR) || (seq_num x =? 1));;
  assert_ (seq_num x <=? OSSL_QUIC_VLINT_MAX);;
  assert_ ((0 <? id_len (cid x)) && (id_len (cid x) <=? QuicWire.QUIC_MAX_CONN_ID_LEN));;
  assert_ ((retire_prior_to m <=? seq_num x) || (state x =? RCID_STATE_RETIRING));;
  assert_ ((num_changes m =? 0) || handshake_complete m);;
  assert_ (negb (state x =? RCID_STATE_RETIRING) || (0 <? num_retiring m)).

Definition rcidm_set_preferred_rcid (rcid : option QUIC_CONN_ID) : MR unit :=
  m ← get;
  match rcid with
  | None => modify (set_preferred (preferred_rcid m) true false)
  | Some c =>
      if ossl_quic_conn_id_eq (preferred_rcid m) c then mret tt
      else modify (set_preferred c true true)
  end.

(** [ossl_list_retiring_insert_tail(...); ++rcidm->num_retiring]. *)
Definition insert_retiring (r : nat) : MR unit := modify (fun m => set_retiring (retiring_list m ++ [r]) (u64 (num_retiring m + 1)) m).

(** [if (!ossl_pqueue_RCID_push(...)) { OPENSSL_free(rcid); return NULL; }]. *)
Definition push_pending (alloc_h alloc_e : bool) (sn : Z) (r : nat) : MR unit := fun m =>
  match PQueue.ossl_pqueue_push alloc_h alloc_e (sn, r) (rcids m) with
  | (Ret h, q) => upd_obj r (with_pq_idx (Z.of_nat h)) (set_rcids q m)
  | (Err, q) => (free_obj r;; fail) (set_rcids q m)
  | (Undef, q) => (Undef, set_rcids q m)
  end.

Definition rcidm_create_rcid (alloc : option nat) (alloc_h alloc_e : bool) (sn : Z) (c : QUIC_CONN_ID) (ty : Z) : MR nat :=
  m ← get;
  guard_ (negb ((id_len c <? 1) || (QuicWire.QUIC_MAX_CONN_ID_LEN <? id_len c) || (OSSL_QUIC_VLINT_MAX <? sn)
                || (MAX_NUMBERED_RCIDS <? u64 (Z.of_nat (PQueue.ossl_pqueue_num (rcids m)) + num_retiring m))));;
  match alloc with
  | None => fail
  | Some r =>
      modify (fun m => set_objs (<[r := mkRcid c sn 0 0 ty]> (objs m)) m);;
      (if retire_prior_to m <=? sn then
         upd_obj r (with_state RCID_STATE_PENDING);;
         push_pending alloc_h alloc_e sn r
       else
         upd_obj r (with_state RCID_STATE_RETIRING);;
         upd_obj r (with_pq_idx SIZE_MAX);;
         insert_retiring r);;
      rcidm_check_rcid r;;
      mret r
  end.

(** The body of [rcidm_transition_rcid], which calls itself for the current object when
    another becomes current. *)
Definition transition (rec : nat -> Z -> MR unit) (r : nat) (st : Z) : MR unit :=
  x ← obj r;
  let old_state := state x in
  assert_ ((old_state <=? st) && (st <=? RCID_STATE_RETIRING));;
  rcidm_check_rcid r;;
  if st =? old_state then mret tt else
  m ← get;
  match cur_rcid m with
  | Some c =>
      if st =? RCID_STATE_CUR then
        rec c RCID_STATE_RETIRING;;
        m ← get; assert_ (is_null (cur_rcid m))
      else mret tt
  | None => mret tt
  end;;
  (if old_state =? RCID_STATE_PENDING then
     x ← obj r;
     on_pq (PQueue.ossl_pqueue_remove (Z.to_nat (pq_idx x)));;
     upd_obj r (with_pq_idx SIZE_MAX)
   else mret tt);;
  upd_obj r (with_state st);;
  (if st =? RCID_STATE_CUR then modify (set_cur (Some r))
   else if st =? RCID_STATE_RETIRING then
     (if old_state =? RCID_STATE_CUR then modify (set_cur None) else mret tt);;
     insert_retiring r
   else mret tt);;
  rcidm_check_rcid r.
Definition rcidm_transition_rcid : nat -> Z -> MR unit := transition (transition (fun _ _ => undefined)).

Definition rcidm_free_rcid (r : nat) : MR unit :=
  rcidm_check_rcid r;;
  x ← obj r;
  (if state x =? RCID_STATE_PENDING then on_pq (PQueue.ossl_pqueue_remove (Z.to_nat (pq_idx x)));; mret tt
   else if state x =? RCID_STATE_CUR then modify (set_cur None)
   else if state x =? RCID_STATE_RETIRING then
     modify (fun m => set_retiring (filter (fun a => a <> r) (retiring_list m)) (u64 (num_retiring m - 1)) m)
   else undefined);;
  free_obj r.

Definition peek : MR (option nat) := d ← on_pq PQueue.ossl_pqueue_peek; mret (snd <$> d).

Fixpoint retire_loop (fuel : nat) (rpt : Z) : MR unit :=
  p ← peek;
  match p with
  | None => mret tt
  | Some r =>
      x ← obj r;
      if seq_num x <? rpt then
        match fuel with
        | O => undefined
        | S fuel => rcidm_transition_rcid r RCID_STATE_RETIRING;; retire_loop fuel rpt
        end
      else mret tt
  end.

Definition rcidm_handle_retire_prior_to (rpt : Z) : MR unit :=
  m ← get;
  if rpt <=? retire_prior_to m then mret tt else
  match cur_rcid m with
  | Some c => x ← obj c; if seq_num x <? rpt then rcidm_transition_rcid c RCID_STATE_RETIRING else mret tt
  | None => mret tt
  end;;
  m ← get;
  retire_loop (PQueue.ossl_pqueue_num (rcids m)) rpt;;
  modify (set_retire_prior_to rpt).

Definition rcidm_roll : MR unit :=
  p ← peek;
  match p with
  | None => mret tt
  | Some r =>
      rcidm_transition_rcid r RCID_STATE_CUR;;
      modify (fun m => set_policy (if PACKETS_PER_RCID <=? packets_sent m then packets_sent m mod PACKETS_PER_RCID else 0)
                         (u64 (num_changes m + 1)) (handshake_complete m) false m)
  end.

Definition rcidm_update : MR unit :=
  m ← get;
  (match cur_rcid m with
   | None =>
       p ← peek;
       match p with
       | Some r => rcidm_transition_rcid r RCID_STATE_CUR;; m ← get; assert_ (negb (is_null (cur_rcid m)))
       | None => mret tt
       end
   | Some _ => mret tt
   end);;
  m ← get;
  match cur_rcid m with
  | Some c => rcidm_check_rcid c;; x ← obj c; rcidm_set_preferred_rcid (Some (cid x))
  | None =>
      if added_retry_odcid m && negb (handshake_complete m) then rcidm_set_preferred_rcid (Some (retry_odcid m))
      else if added_initial_odcid m && negb (handshake_complete m) then rcidm_set_preferred_rcid (Some (initial_odcid m))
      else rcidm_set_preferred_rcid None
  end.

Definition rcidm_should_roll (m : QUIC_RCIDM) : bool :=
  handshake_complete m && ((num_changes m =? 0) || (PACKETS_PER_RCID <=? packets_sent m) || roll_requested m).

Definition rcidm_tick : MR unit :=
  m ← get;
  (if rcidm_should_roll m then rcidm_roll else mret tt);;
  rcidm_update.

Definition zero_cid : QUIC_CONN_ID := QuicWire.mkConnId 0 (replicate 20 0).

(** [alloc], [alloc_q], [alloc_h] and [alloc_e]: the structure and those of its queue. *)
Definition ossl_quic_rcidm_new (alloc alloc_q alloc_h alloc_e : bool) (odcid : option QUIC_CONN_ID) : res (option QUIC_RCIDM) :=
  if negb alloc then Ret None else
  match PQueue.ossl_pqueue_new (Some rcid_cmp) alloc_q alloc_h alloc_e with
  | Ret (Some q) =>
      match rcidm_update (mkRcidm ∅ zero_cid (default zero_cid odcid) zero_cid 0 0 0 q None [] 0 false false false (negb (is_null odcid)) false false false) with
      | (Ret _, m) => Ret (Some m)
      | _ => Undef
      end
  | Ret None => Ret None
  | _ => Undef
  end.

(** The loop over the queue of [ossl_quic_rcidm_free], and that over the list. *)
Fixpoint free_queue (fuel : nat) : MR unit :=
  d ← on_pq PQueue.ossl_pqueue_pop;
  match d with
  | None => mret tt
  | Some (_, r) => match fuel with O => undefined | S fuel => free_obj r;; free_queue fuel end
  end.
Fixpoint free_list (l : list nat) : MR unit := match l with [] => mret tt | r :: l => free_obj r;; free_list l end.

Definition ossl_quic_rcidm_free : MR unit :=
  m ← get;
  match cur_rcid m with Some c => free_obj c | None => mret tt end;;
  free_queue (PQueue.ossl_pqueue_num (rcids m));;
  free_list (retiring_list m).

Definition ossl_quic_rcidm_on_handshake_complete : MR unit :=
  m ← get;
  if handshake_complete m then mret tt else
  modify (set_policy (packets_sent m) (num_changes m) true (roll_requested m));; rcidm_tick.

Definition ossl_quic_rcidm_on_packet_sent (n : Z) : MR unit :=
  if n =? 0 then mret tt else
  modify (fun m => set_policy (u64 (packets_sent m + n)) (num_changes m) (handshake_complete m) (roll_requested m) m);; rcidm_tick.

Definition ossl_quic_rcidm_request_roll : MR unit :=
  modify (fun m => set_policy (packets_sent m) (num_changes m) (handshake_complete m) true m);; rcidm_tick.

Definition ossl_quic_rcidm_add_from_initial (alloc : option nat) (alloc_h alloc_e : bool) (c : QUIC_CONN_ID) : MR unit :=
  m ← get;
  guard_ (negb (added_initial_rcid m || handshake_complete m));;
  rcidm_create_rcid alloc alloc_h alloc_e INITIAL_SEQ_NUM c RCID_TYPE_INITIAL;;
  modify set_added_initial_rcid;; rcidm_tick.

Definition ossl_quic_rcidm_add_from_server_retry (c : QUIC_CONN_ID) : MR unit :=
  m ← get;
  guard_ (negb (added_retry_odcid m || handshake_complete m));;
  modify (set_retry_odcid c);; rcidm_tick.

Definition ossl_quic_rcidm_add_from_ncid (alloc : option nat) (alloc_h alloc_e : bool) (f : QuicWire.OSSL_QUIC_FRAME_NEW_CONN_ID) : MR unit :=
  rcidm_create_rcid alloc alloc_h alloc_e (QuicWire.seq_num f) (QuicWire.conn_id f) RCID_TYPE_NCID;;
  rcidm_handle_retire_prior_to (QuicWire.retire_prior_to f);;
  rcidm_tick.

Definition rcidm_get_retire (peek_only : bool) : MR Z :=
  m ← get;
  match head (retiring_list m) with
  | None => fail
  | Some r =>
      x ← obj r;
      (if peek_only then mret tt else rcidm_free_rcid r);;
      mret (seq_num x)
  end.
Definition ossl_quic_rcidm_pop_retire_seq_num : MR Z := rcidm_get_retire false.
Definition ossl_quic_rcidm_peek_retire_seq_num : MR Z := rcidm_get_retire true.

Definition ossl_quic_rcidm_get_preferred_tx_dcid : MR QUIC_CONN_ID :=
  m ← get; guard_ (have_preferred_rcid m);; mret (preferred_rcid m).
Definition ossl_quic_rcidm_get_preferred_tx_dcid_changed (clear : bool) : MR bool :=
  m ← get;
  (if clear then modify (set_preferred (preferred_rcid m) false (have_preferred_rcid m)) else mret tt);;
  mret (preferred_rcid_changed m).
Definition ossl_quic_rcidm_get_num_retiring (m : QUIC_RCIDM) : Z := num_retiring m.
Definition ossl_quic_rcidm_get_num_active (m : QUIC_RCIDM) : Z :=
  u64 (Z.of_nat (PQueue.ossl_pqueue_num (rcids m)) + (if is_null (cur_rcid m) then 0 else 1) + ossl_quic_rcidm_get_num_retiring m).
End Rcidm.
