(* ===== verification/RcidmInv.v ===== *)
(** * Remote connection IDs: the invariant

    [rinv] is what the comments of [quic_rcidm.c] state of every object: it is pending
    and in the queue, current, or retiring and in the list; with it every call of
    [rcidm_check_rcid] passes.  The transitions of one object keep it, and only move
    objects forward ([evolves]). *)
From Stdlib Require Import ZArith Lia.
From stdpp Require Import base tactics option list gmap.
From S2P Require Import Prelude PriorityQueue QuicWire Rcidm.
#[local] Open Scope Z_scope.
Import Rcidm.

Module RcidmInv.

#[global] Instance rcid_comparator : PQueue.Comparator rcid_cmp.
Proof. split; intros [a ?] [b ?]; [|intros [c ?]]; unfold rcid_cmp; cbn; repeat case_match; zb; lia. Qed.

Lemma rcid_cmp_le a b : rcid_cmp a b <= 0 -> a.1 <= b.1.
Proof. unfold rcid_cmp. repeat case_match; zb; lia. Qed.

(** What is asserted of an object on its own. *)
Record obj_ok (rpt : Z) (x : RCID) : Prop := {
  ob_state : state x = RCID_STATE_PENDING \/ state x = RCID_STATE_CUR \/ state x = RCID_STATE_RETIRING;
  ob_idx : state x <> RCID_STATE_PENDING -> pq_idx x = SIZE_MAX;
  ob_initial : type x = RCID_TYPE_INITIAL -> seq_num x = 0;
  ob_pref : type x = RCID_TYPE_PREF_ADDR -> seq_num x = 1;
  ob_seq : seq_num x <= OSSL_QUIC_VLINT_MAX;
  ob_cid : 0 < id_len (cid x) <= QuicWire.QUIC_MAX_CONN_ID_LEN;
  ob_rpt : rpt <= seq_num x \/ state x = RCID_STATE_RETIRING
}.

Abbreviation pq_abs m := (PQueue.abs (rcids m)).
Definition cur_count (m : QUIC_RCIDM) : nat := if is_null (cur_rcid m) then 0%nat else 1%nat.

Record rinv (m : QUIC_RCIDM) : Prop := {
  ri_pq : PQueue.pq_ok rcid_cmp (rcids m);
  ri_queue e s a : pq_abs m !! e = Some (s, a) -> exists x, objs m !! a = Some x /\ state x = RCID_STATE_PENDING /\ seq_num x = s /\ pq_idx x = Z.of_nat e;
  ri_pending a x : objs m !! a = Some x -> state x = RCID_STATE_PENDING -> exists e, pq_idx x = Z.of_nat e /\ pq_abs m !! e = Some (seq_num x, a);
  ri_cur a : cur_rcid m = Some a <-> exists x, objs m !! a = Some x /\ state x = RCID_STATE_CUR;
  ri_nodup : NoDup (retiring_list m);
  ri_retiring a : a ∈ retiring_list m <-> exists x, objs m !! a = Some x /\ state x = RCID_STATE_RETIRING;
  ri_num : num_retiring m = Z.of_nat (length (retiring_list m));
  ri_obj a x : objs m !! a = Some x -> obj_ok (retire_prior_to m) x;
  ri_changes : num_changes m = 0 \/ handshake_complete m = true;
  ri_size : size (objs m) = (size (pq_abs m) + cur_count m + length (retiring_list m))%nat;
  ri_few : Z.of_nat (size (objs m)) <= 9223372036854775809
}.

(** ** The queue *)

Lemma handle_small q e d : PQueue.pq_ok rcid_cmp q -> PQueue.abs q !! e = Some d -> Z.of_nat e < SIZE_MAX.
Proof.
  intros [L Hr] He. destruct (PQueue.abs_lookup_inv rcid_cmp q L e d Hr He) as (i & h & Hi & <- & _). destruct (PQueue.rep_str _ _ _ Hr) as [fl Hs].
  pose proof (PQueue.idx_lt rcid_cmp Hs i h Hi). pose proof (PQueue.rep_hmax _ _ _ Hr) as [_ Hm]. assert (PQueue.max_nodes = 1152921504606846975) by reflexivity. lia.
Qed.

Lemma pq_num q : PQueue.pq_ok rcid_cmp q -> PQueue.ossl_pqueue_num q = size (PQueue.abs q).
Proof. intros [L Hr]. destruct (PQueue.rep_str _ _ _ Hr) as [fl Hs]. unfold PQueue.ossl_pqueue_num. rewrite (PQueue.str_top _ _ _ _ _ Hs). by rewrite (PQueue.abs_size rcid_cmp q L Hr). Qed.

Lemma rcid_remove_ok q e d : PQueue.pq_ok rcid_cmp q -> PQueue.abs q !! e = Some d ->
  exists q', PQueue.ossl_pqueue_remove e q = (Ret (Some d), q') /\ PQueue.pq_ok rcid_cmp q' /\ PQueue.abs q' = delete e (PQueue.abs q).
Proof.
  intros Hq He. destruct (PQueue.remove_simulates rcid_cmp q e Hq ltac:(left; by eexists)) as (out & q' & E & Hq' & Hs). cbn in E. unfold PQueue.catch in E.
  destruct (PQueue.ossl_pqueue_remove e q) as [[r| |] q1]; inversion Hs as [| | | | | |A e' d' He' EA Ee Eo EA'|e' EA Ee Eo EA'| | |]; simplify_eq.
  - exists q'. split_and!; [do 2 f_equal; congruence|done|done].
  - rewrite <- EA in He. by rewrite lookup_empty in He.
Qed.

(** A function that only reads. *)
Definition still {S A} (f : M S A) : Prop := forall s, snd (f s) = s.
Lemma still_bind {S A B} (f : M S A) (g : A -> M S B) : still f -> (forall a, still (g a)) -> still (f ≫= g).
Proof. intros Hf Hg s. pose proof (Hf s) as E. unfold mbind, M_bind. destruct (f s) as [[a| |] s1]; cbn in E; subst; [apply Hg|done|done]. Qed.

Lemma peek_still : still (PQueue.ossl_pqueue_peek (D := Z * nat)).
Proof.
  assert (Ha : forall b, still (PQueue.assert_ (D := Z * nat) b)) by (by intros [] q).
  assert (Hh : forall i, still (PQueue.heap_at (D := Z * nat) i)) by (intros i q; unfold PQueue.heap_at; by repeat case_match).
  assert (He : forall i, still (PQueue.elem_at (D := Z * nat) i)) by (intros i q; unfold PQueue.elem_at; by repeat case_match).
  apply still_bind; [done|]. intros q. case_decide; [|done]. unfold PQueue.ASSERT_USED. repeat (apply still_bind; [auto|intros ?]); try done.
Qed.

(** An object that is pending and whose sequence number is least among those. *)
Definition first_pending (m : QUIC_RCIDM) (a : nat) (x : RCID) : Prop :=
  objs m !! a = Some x /\ state x = RCID_STATE_PENDING /\ forall b y, objs m !! b = Some y -> state y = RCID_STATE_PENDING -> seq_num x <= seq_num y.
Definition none_pending (m : QUIC_RCIDM) : Prop := forall b y, objs m !! b = Some y -> state y <> RCID_STATE_PENDING.

Lemma rcid_peek_ok m : rinv m -> (none_pending m /\ peek m = (Ret None, m)) \/ exists a x, first_pending m a x /\ peek m = (Ret (Some a), m).
Proof.
  intros Hm. destruct (PQueue.peek_simulates rcid_cmp (rcids m) (ri_pq _ Hm)) as (out & q' & E & Hq' & Hs). cbn in E. unfold PQueue.catch in E.
  destruct (PQueue.ossl_pqueue_peek (rcids m)) as [[r| |] q1] eqn:Ep; pose proof (peek_still (rcids m)) as Eq; rewrite Ep in Eq; cbn in Eq; subst q1; simplify_eq; (inversion Hs as [| | | |A e d He Hl EA Eo Er EA'|EA Eo Er EA'| | | | |]; simplify_eq).
  all: assert (Hr : set_rcids (rcids m) m = m) by (by destruct m).
  - right. destruct d as [s a]. destruct (ri_queue _ Hm e s a He) as (x & Hx & Hst & <- & _). exists a, x. split.
    + split_and!; [done|done|]. intros b y Hy Hsy. destruct (ri_pending _ Hm b y Hy Hsy) as (e' & _ & He'). exact (rcid_cmp_le (seq_num x, a) (seq_num y, b) (Hl e' _ He')).
    + unfold peek, on_pq, mbind, M_bind. rewrite Ep. cbn. by rewrite Hr.
  - left. split; [|unfold peek, on_pq, mbind, M_bind; rewrite Ep; cbn; by rewrite Hr]. intros b y Hy Hsy. destruct (ri_pending _ Hm b y Hy Hsy) as (e' & _ & He'). rewrite <- EA in He'. by rewrite lookup_empty in He'.
Qed.

(** ** The assertions *)

Lemma obj_read m r x : objs m !! r = Some x -> obj r m = (Ret x, m).
Proof. unfold obj. by intros ->. Qed.

Lemma assert_true b m : b = true -> assert_ b m = (Ret tt, m).
Proof. by intros ->. Qed.

Lemma eqb_iff b c : (b = true <-> c = true) -> eqb b c = true.
Proof. destruct b, c; cbn; intuition congruence. Qed.

Lemma check_ok m r x : rinv m -> objs m !! r = Some x -> rcidm_check_rcid r m = (Ret tt, m).
Proof.
  intros Hm Hx. pose proof (ri_obj _ Hm r x Hx) as [S1 S2 S3 S4 S5 S6 S7]. unfold rcidm_check_rcid. cbn [mbind]. rewrite (bind_ret get _ m m m eq_refl), (bind_ret _ _ _ _ _ (obj_read m r x Hx)).
  repeat first [rewrite (bind_ret _ _ m tt m); [|apply assert_true]|apply assert_true]. all: revgoals.
  - rewrite !orb_true_iff, !Z.eqb_eq. tauto.
  - apply eqb_iff. rewrite negb_true_iff, Z.eqb_eq, Z.eqb_neq. split.
    + intros Hst. destruct (ri_pending _ Hm r x Hx Hst) as (e & -> & He). pose proof (handle_small _ _ _ (ri_pq _ Hm) He). lia.
    + intros Hne. destruct (Z.eq_dec (state x) RCID_STATE_PENDING); [done|]. by destruct Hne; apply S2.
  - apply eqb_iff. rewrite Z.eqb_eq, bool_decide_eq_true, (ri_cur _ Hm r). split; [eauto|]. intros (y & Hy & ?). by simplify_eq.
  - apply eqb_iff. unfold linked. rewrite Z.eqb_eq, bool_decide_eq_true, (ri_retiring _ Hm r). split; [|eauto]. intros (y & Hy & ?). by simplify_eq.
  - destruct (type x =? RCID_TYPE_INITIAL) eqn:E; zb; cbn; [|done]. apply Z.eqb_eq. auto.
  - destruct (type x =? RCID_TYPE_PREF_ADDR) eqn:E; zb; cbn; [|done]. apply Z.eqb_eq. auto.
  - by apply Z.leb_le.
  - apply andb_true_iff. rewrite Z.ltb_lt, Z.leb_le. lia.
  - rewrite orb_true_iff, Z.leb_le, Z.eqb_eq. tauto.
  - rewrite orb_true_iff, Z.eqb_eq. apply Hm.
  - destruct (state x =? RCID_STATE_RETIRING) eqn:E; zb; cbn; [|done]. apply Z.ltb_lt. rewrite (ri_num _ Hm). assert (Hin : r ∈ retiring_list m) by (apply (ri_retiring _ Hm); eauto).
    destruct (retiring_list m); [by apply not_elem_of_nil in Hin|cbn; lia].
Qed.

(** ** Transitions *)

(** [retired] and [selected]: what the object and the manager become. *)
Definition retired (x : RCID) : RCID := mkRcid (cid x) (seq_num x) SIZE_MAX RCID_STATE_RETIRING (type x).
Definition selected (x : RCID) : RCID := mkRcid (cid x) (seq_num x) SIZE_MAX RCID_STATE_CUR (type x).
Definition to_retiring (r : nat) (x : RCID) (q : PQ) (c : option nat) (m : QUIC_RCIDM) : QUIC_RCIDM :=
  set_retiring (retiring_list m ++ [r]) (num_retiring m + 1) (set_cur c (set_rcids q (set_objs (<[r := retired x]> (objs m)) m))).
Definition to_current (r : nat) (x : RCID) (q : PQ) (m : QUIC_RCIDM) : QUIC_RCIDM :=
  set_cur (Some r) (set_rcids q (set_objs (<[r := selected x]> (objs m)) m)).

Lemma size_update {A} (g : gmap nat A) r x y : g !! r = Some x -> size (<[r := y]> g) = size g.
Proof. intros Hx. apply map_size_insert_Some. by eexists. Qed.

(** A queue with the entry of [r] taken out, or left alone when [r] is not pending. *)
Definition queue_without (m : QUIC_RCIDM) (x : RCID) (q : PQ) : Prop :=
  PQueue.pq_ok rcid_cmp q /\ if state x =? RCID_STATE_PENDING then PQueue.abs q = delete (Z.to_nat (pq_idx x)) (pq_abs m) else PQueue.abs q = pq_abs m.

Lemma queue_without_lookup m r x q : rinv m -> objs m !! r = Some x -> queue_without m x q ->
  forall e s a, PQueue.abs q !! e = Some (s, a) <-> pq_abs m !! e = Some (s, a) /\ a <> r.
Proof.
  intros Hm Hx [_ Hq] e s a. destruct (state x =? RCID_STATE_PENDING) eqn:E; zb; rewrite Hq.
  - destruct (ri_pending _ Hm r x Hx E) as (e' & Hi & He'). rewrite Hi, Nat2Z.id, lookup_delete_Some. split; [|intros [He Ha]; split; [|done]; intros ->; congruence].
    intros [Hne He]. split; [done|]. intros ->. destruct (ri_queue _ Hm e s r He) as (y & Hy & _ & _ & Hi'). simplify_eq. lia.
  - split; [|tauto]. intros He. split; [done|]. intros ->. destruct (ri_queue _ Hm e s r He) as (y & Hy & Hs & _). by simplify_eq.
Qed.

Lemma queue_without_size m r x q : rinv m -> objs m !! r = Some x -> queue_without m x q ->
  size (pq_abs m) = (size (PQueue.abs q) + if (state x =? RCID_STATE_PENDING)%Z then 1 else 0)%nat.
Proof.
  intros Hm Hx [_ Hq]. destruct (state x =? RCID_STATE_PENDING) eqn:E; zb; rewrite Hq; [|lia]. destruct (ri_pending _ Hm r x Hx E) as (e' & Hi & He').
  rewrite Hi, Nat2Z.id, map_size_delete_Some by (by eexists). assert (size (pq_abs m) <> 0%nat) by (intros Hz%map_size_empty_iff; rewrite Hz in He'; by rewrite lookup_empty in He'). lia.
Qed.

(** The object that is current, if [r] is it, is so no longer. *)
Definition cur_without (m : QUIC_RCIDM) (r : nat) : option nat := if decide (cur_rcid m = Some r) then None else cur_rcid m.

Lemma rinv_retire m r x q : rinv m -> objs m !! r = Some x -> state x <> RCID_STATE_RETIRING -> queue_without m x q -> rinv (to_retiring r x q (cur_without m r) m).
Proof.
  intros Hm Hx Hst Hq. pose proof (queue_without_lookup m r x q Hm Hx Hq) as Hl. pose proof (queue_without_size m r x q Hm Hx Hq) as Hsz. pose proof (ri_obj _ Hm r x Hx) as Hox.
  assert (Hnl : r ∉ retiring_list m) by (intros (y & Hy & ?)%(ri_retiring _ Hm); by simplify_eq). unfold to_retiring, cur_without. split; cbn.
  - apply Hq.
  - intros e s a [He Ha]%Hl. destruct (ri_queue _ Hm e s a He) as (y & Hy & ?). exists y. by rewrite lookup_insert_ne.
  - intros a y [[<- <-]|[Hne Hy]]%lookup_insert_Some Hs; [done|]. destruct (ri_pending _ Hm a y Hy Hs) as (e & Hi & He). exists e. split; [done|]. by apply Hl.
  - intros a. split.
    + case_decide; [done|]. intros Ha. pose proof Ha as (y & Hy & ?)%(ri_cur _ Hm). exists y. rewrite lookup_insert_ne; [done|]. intros <-. congruence.
    + intros (y & [[<- <-]|[Hne Hy]]%lookup_insert_Some & Hs); [done|]. assert (cur_rcid m = Some a) by (apply (ri_cur _ Hm); eauto). rewrite decide_False by congruence. done.
  - apply NoDup_app. split_and!; [apply Hm| |apply NoDup_singleton]. intros a Ha ->%list_elem_of_singleton. done.
  - intros a. rewrite elem_of_app, list_elem_of_singleton, (ri_retiring _ Hm a). split.
    + intros [(y & Hy & Hs)| ->]; [|exists (retired x); by rewrite lookup_insert_eq]. exists y. rewrite lookup_insert_ne; [done|]. intros <-. by simplify_eq.
    + intros (y & [[<- <-]|[Hne Hy]]%lookup_insert_Some & Hs); [by right|left; eauto].
  - rewrite (ri_num _ Hm), length_app. cbn. lia.
  - intros a y [[<- <-]|[Hne Hy]]%lookup_insert_Some; [|by apply (ri_obj _ Hm a)]. destruct Hox. split; cbn; auto.
  - apply Hm.
  - rewrite (size_update _ _ _ _ Hx), length_app. pose proof (ri_size _ Hm) as E. rewrite Hsz in E. cbn. unfold cur_count in *. cbn.
    destruct (decide (cur_rcid m = Some r)) as [Ec|Ec].
    + pose proof Ec as (y & Hy & Hs)%(ri_cur _ Hm). simplify_eq. rewrite Hs in E. rewrite Ec in E. cbn in *. lia.
    + destruct (state x =? RCID_STATE_PENDING) eqn:Es; zb; [lia|]. destruct (ob_state _ _ Hox) as [?|[?|?]]; [done| |done]. destruct Ec. apply (ri_cur _ Hm). eauto.
  - rewrite (size_update _ _ _ _ Hx). apply Hm.
Qed.

Lemma rinv_select m r x q : rinv m -> objs m !! r = Some x -> state x = RCID_STATE_PENDING -> cur_rcid m = None -> queue_without m x q -> rinv (to_current r x q m).
Proof.
  intros Hm Hx Hst Hc Hq. pose proof (queue_without_lookup m r x q Hm Hx Hq) as Hl. pose proof (queue_without_size m r x q Hm Hx Hq) as Hsz. pose proof (ri_obj _ Hm r x Hx) as Hox.
  unfold to_current. split; cbn.
  - apply Hq.
  - intros e s a [He Ha]%Hl. destruct (ri_queue _ Hm e s a He) as (y & Hy & ?). exists y. by rewrite lookup_insert_ne.
  - intros a y [[<- <-]|[Hne Hy]]%lookup_insert_Some Hs; [done|]. destruct (ri_pending _ Hm a y Hy Hs) as (e & Hi & He). exists e. split; [done|]. by apply Hl.
  - intros a. split.
    + intros [= <-]. exists (selected x). by rewrite lookup_insert_eq.
    + intros (y & [[<- <-]|[Hne Hy]]%lookup_insert_Some & Hs); [done|]. assert (cur_rcid m = Some a) by (apply (ri_cur _ Hm); eauto). congruence.
  - apply Hm.
  - intros a. rewrite (ri_retiring _ Hm a). split.
    + intros (y & Hy & Hs). exists y. rewrite lookup_insert_ne; [done|]. intros <-. simplify_eq. rewrite Hst in Hs. done.
    + intros (y & [[<- <-]|[Hne Hy]]%lookup_insert_Some & Hs); [done|eauto].
  - apply Hm.
  - intros a y [[<- <-]|[Hne Hy]]%lookup_insert_Some; [|by apply (ri_obj _ Hm a)]. destruct Hox as [S1 S2 S3 S4 S5 S6 S7]. split; cbn; auto. left. destruct S7 as [?|S7]; [done|]. by rewrite Hst in S7.
  - apply Hm.
  - rewrite (size_update _ _ _ _ Hx). pose proof (ri_size _ Hm) as E. rewrite Hsz, Hst in E. unfold cur_count in *. rewrite Hc in E. cbn in *. lia.
  - rewrite (size_update _ _ _ _ Hx). apply Hm.
Qed.

Lemma upd_obj_ok m r x f : objs m !! r = Some x -> upd_obj r f m = (Ret tt, set_objs (<[r := f x]> (objs m)) m).
Proof. intros Hx. unfold upd_obj. cbn [mbind]. by rewrite (bind_ret _ _ _ _ _ (obj_read m r x Hx)). Qed.

(** Taking a pending object out of the queue. *)
Lemma dequeue_ok m r x : rinv m -> objs m !! r = Some x ->
  exists q, queue_without m x q /\
    (if state x =? RCID_STATE_PENDING then y ← obj r; _ ← on_pq (PQueue.ossl_pqueue_remove (Z.to_nat (pq_idx y))); upd_obj r (with_pq_idx SIZE_MAX) else mret tt) m
    = (Ret tt, set_rcids q (set_objs (<[r := with_pq_idx SIZE_MAX x]> (objs m)) m)).
Proof.
  intros Hm Hx. pose proof (ri_obj _ Hm r x Hx) as Hox. unfold queue_without. destruct (state x =? RCID_STATE_PENDING) eqn:E; zb.
  - destruct (ri_pending _ Hm r x Hx E) as (e & Hi & He). destruct (rcid_remove_ok _ _ _ (ri_pq _ Hm) He) as (q & Er & Hq & Ha). exists q. rewrite Hi, Nat2Z.id. split; [done|].
    rewrite (bind_ret _ _ _ _ _ (obj_read m r x Hx)), Hi, Nat2Z.id. rewrite (bind_ret _ _ m (Some (seq_num x, r)) (set_rcids q m)) by (unfold on_pq; by rewrite Er). by rewrite (upd_obj_ok _ r x).
  - exists (rcids m). split; [split; [apply Hm|done]|]. assert (Hid : with_pq_idx SIZE_MAX x = x) by (destruct x; cbn in *; unfold with_pq_idx; cbn; f_equal; symmetry; by apply (ob_idx _ _ Hox)).
    rewrite Hid, insert_id by done. by destruct m.
Qed.

Lemma retiring_wrap m : rinv m -> u64 (num_retiring m + 1) = num_retiring m + 1.
Proof. intros Hm. pose proof (ri_num _ Hm). pose proof (ri_size _ Hm). pose proof (ri_few _ Hm). apply u64_id. unfold is_u64. lia. Qed.

Lemma insert_twice (g : gmap nat RCID) r x y : <[r := y]> (<[r := x]> g) = <[r := y]> g.
Proof. apply insert_insert_eq. Qed.

Lemma transition_retire rec m r x : rinv m -> objs m !! r = Some x -> state x <> RCID_STATE_RETIRING ->
  exists q, queue_without m x q /\ transition rec r RCID_STATE_RETIRING m = (Ret tt, to_retiring r x q (cur_without m r) m) /\ rinv (to_retiring r x q (cur_without m r) m).
Proof.
  intros Hm Hx Hst. pose proof (ri_obj _ Hm r x Hx) as Hox. destruct (dequeue_ok m r x Hm Hx) as (q & Hq & Eq). exists q. pose proof (rinv_retire m r x q Hm Hx Hst Hq) as Hm'.
  split_and!; [done| |done]. unfold transition. cbn [mbind]. rewrite (bind_ret _ _ _ _ _ (obj_read m r x Hx)).
  rewrite (bind_ret _ _ _ tt m) by (apply assert_true; destruct (ob_state _ _ Hox) as [->|[->| ->]]; done). rewrite (bind_ret _ _ _ _ _ (check_ok m r x Hm Hx)).
  rewrite (proj2 (Z.eqb_neq RCID_STATE_RETIRING (state x))) by congruence. rewrite (bind_ret get _ m m m eq_refl). rewrite (bind_ret _ _ m tt m) by (by destruct (cur_rcid m)).
  rewrite (bind_ret _ _ _ _ _ Eq). set (m1 := set_rcids q _). rewrite (bind_ret _ _ _ _ _ (upd_obj_ok m1 r (with_pq_idx SIZE_MAX x) _ ltac:(cbn; apply lookup_insert_eq))).
  rewrite (bind_ret _ _ _ tt (to_retiring r x q (cur_without m r) m)); [by apply (check_ok _ r (retired x) Hm'), lookup_insert_eq|].
  cbn [Z.eqb RCID_STATE_RETIRING RCID_STATE_CUR Pos.eqb]. unfold m1. cbn [objs set_rcids set_objs]. rewrite insert_twice. unfold to_retiring, cur_without.
  destruct (state x =? RCID_STATE_CUR) eqn:Ec; zb.
  - rewrite decide_True by (apply (ri_cur _ Hm); eauto). unfold modify. rewrite (bind_ret _ _ _ tt (set_cur None (set_rcids q (set_objs (<[r := retired x]> (objs m)) m)))) by done.
    unfold insert_retiring, modify. cbn. by rewrite retiring_wrap.
  - rewrite decide_False by (intros (y & Hy & ?)%(ri_cur _ Hm); by simplify_eq). rewrite (bind_ret _ _ _ tt (set_rcids q (set_objs (<[r := retired x]> (objs m)) m))) by done.
    unfold insert_retiring, modify. cbn. rewrite retiring_wrap by done. by destruct m.
Qed.

(** What a step does to the objects: none is added or freed, and each keeps its identity
    and only moves forward. *)
Definition kept (x y : RCID) : Prop := cid y = cid x /\ seq_num y = seq_num x /\ type y = type x /\ state x <= state y.
Record evolves (m m' : QUIC_RCIDM) : Prop := {
  ev_objs a : match objs m !! a, objs m' !! a with Some x, Some y => kept x y | None, None => True | _, _ => False end;
  ev_list : exists l, retiring_list m' = retiring_list m ++ l
}.

#[global] Instance evolves_preorder : PreOrder evolves.
Proof.
  split.
  - intros m. split; [intros a; destruct (objs m !! a); [|done]; by unfold kept; split_and!; try lia|exists []; by rewrite app_nil_r].
  - intros m1 m2 m3 [H1 [l1 L1]] [H2 [l2 L2]]. split.
    + intros a. pose proof (H1 a) as E1. pose proof (H2 a) as E2. destruct (objs m1 !! a), (objs m2 !! a), (objs m3 !! a); try done. unfold kept in *. destruct E1 as (? & ? & ? & ?), E2 as (? & ? & ? & ?).
      split_and!; [congruence|congruence|congruence|lia].
    + exists (l1 ++ l2). by rewrite L2, L1, app_assoc.
Qed.

Lemma evolves_obj m m' r x y l : objs m !! r = Some x -> kept x y -> objs m' = <[r := y]> (objs m) -> retiring_list m' = retiring_list m ++ l -> evolves m m'.
Proof.
  intros Hx Hk Ho Hl. split; [|by exists l]. intros a. rewrite Ho. destruct (decide (a = r)) as [->|]; [rewrite lookup_insert_eq, Hx; done|]. rewrite lookup_insert_ne by done.
  destruct (objs m !! a); [|done]. by unfold kept; split_and!; try lia.
Qed.

Lemma evolves_same m m' : objs m' = objs m -> retiring_list m' = retiring_list m -> evolves m m'.
Proof. intros Ho Hl. split; [intros a; rewrite Ho; destruct (objs m !! a); [|done]; by unfold kept; split_and!; try lia|exists []; by rewrite Hl, app_nil_r]. Qed.

Lemma evolves_retiring rpt m r x q c : obj_ok rpt x -> objs m !! r = Some x -> evolves m (to_retiring r x q c m).
Proof. intros Ho Hx. eapply (evolves_obj m _ r x (retired x)); [done| |done|done]. unfold kept. cbn. split_and!; try done. destruct (ob_state _ _ Ho) as [->|[->| ->]]; done. Qed.

Lemma evolves_current m r x q : objs m !! r = Some x -> state x = RCID_STATE_PENDING -> evolves m (to_current r x q m).
Proof. intros Hx Hs. eapply (evolves_obj m _ r x (selected x) []); [done| |done|by rewrite app_nil_r]. unfold kept. cbn. rewrite Hs. done. Qed.

(** The fields that transitions leave alone. *)
Definition rest (m : QUIC_RCIDM) :=
  (preferred_rcid m, initial_odcid m, retry_odcid m, (packets_sent m, num_changes m, retire_prior_to m),
   (preferred_rcid_changed m, have_preferred_rcid m, handshake_complete m, added_initial_odcid m, added_retry_odcid m, added_initial_rcid m, roll_requested m)).

(** No object becomes pending. *)
Definition less_pending (m m' : QUIC_RCIDM) : Prop := forall b y, objs m' !! b = Some y -> state y = RCID_STATE_PENDING -> objs m !! b = Some y.

Lemma less_pending_update m m' r x : state x <> RCID_STATE_PENDING -> objs m' = <[r := x]> (objs m) -> less_pending m m'.
Proof. intros Hx Ho b y. rewrite Ho. intros [[<- <-]|[_ Hy]]%lookup_insert_Some Hs; done. Qed.

(** A step of the manager: rules for one that cannot fail. *)
Record moves (m m' : QUIC_RCIDM) : Prop := {
  mv_inv : rinv m';
  mv_evolves : evolves m m';
  mv_pending : less_pending m m'
}.

Lemma moves_trans m1 m2 m3 : moves m1 m2 -> moves m2 m3 -> moves m1 m3.
Proof. intros [_ E1 P1] [I2 E2 P2]. split; [done|by etransitivity|]. intros b y Hy Hs. by apply P1; [apply P2|]. Qed.

Lemma moves_refl m : rinv m -> moves m m.
Proof. intros Hm. split; [done|reflexivity|by intros b y]. Qed.

Lemma select_step rec m r x : rinv m -> objs m !! r = Some x -> state x = RCID_STATE_PENDING -> cur_rcid m = None ->
  exists m', transition rec r RCID_STATE_CUR m = (Ret tt, m') /\ moves m m' /\ cur_rcid m' = Some r /\ rest m' = rest m /\ (exists y, objs m' !! r = Some y /\ seq_num y = seq_num x).
Proof.
  intros Hm Hx Hst Hc. destruct (dequeue_ok m r x Hm Hx) as (q & Hq & Eq). pose proof (rinv_select m r x q Hm Hx Hst Hc Hq) as Hm'. exists (to_current r x q m).
  split_and!; [|split; [done|by apply evolves_current|by eapply (less_pending_update _ _ r (selected x))]|done|done|exists (selected x); split; [apply lookup_insert_eq|done]].
  unfold transition. cbn [mbind]. rewrite (bind_ret _ _ _ _ _ (obj_read m r x Hx)). rewrite Hst in *.
  rewrite (bind_ret _ _ _ tt m) by done. rewrite (bind_ret _ _ _ _ _ (check_ok m r x Hm Hx)). change (RCID_STATE_CUR =? RCID_STATE_PENDING) with false. cbv iota.
  rewrite (bind_ret get _ m m m eq_refl), Hc. rewrite (bind_ret _ _ m tt m) by done. rewrite (bind_ret _ _ _ _ _ Eq). set (m1 := set_rcids q _).
  rewrite (bind_ret _ _ _ _ _ (upd_obj_ok m1 r (with_pq_idx SIZE_MAX x) _ ltac:(cbn; apply lookup_insert_eq))).
  rewrite (bind_ret _ _ _ tt (to_current r x q m)); [by apply (check_ok _ r (selected x) Hm'), lookup_insert_eq|].
  cbn. unfold modify, m1. cbn. by rewrite insert_twice.
Qed.

Lemma select_ok m r x : rinv m -> objs m !! r = Some x -> state x = RCID_STATE_PENDING ->
  exists m', rcidm_transition_rcid r RCID_STATE_CUR m = (Ret tt, m') /\ moves m m' /\ cur_rcid m' = Some r /\ rest m' = rest m /\ (exists y, objs m' !! r = Some y /\ seq_num y = seq_num x).
Proof.
  intros Hm Hx Hst. destruct (cur_rcid m) as [c|] eqn:Ec; [|by apply select_step]. pose proof Ec as (z & Hz & Hzs)%(ri_cur _ Hm).
  assert (Hrc : r <> c) by (intros ->; simplify_eq; by rewrite Hst in Hzs). destruct (transition_retire (fun _ _ => undefined) m c z Hm Hz) as (q & Hq & E & Hm1); [by rewrite Hzs|].
  set (m1 := to_retiring c z q (cur_without m c) m) in *. assert (Hc1 : cur_rcid m1 = None) by (cbn; unfold cur_without; by rewrite decide_True).
  assert (Hx1 : objs m1 !! r = Some x) by (cbn; by rewrite lookup_insert_ne).
  destruct (select_step (transition (fun _ _ => undefined)) m1 r x Hm1 Hx1 Hst Hc1) as (m' & E' & Hmv & Hc' & Hr' & Hs'). exists m'. split_and!; [| |done|by rewrite Hr'|done].
  - rewrite <- E'. unfold rcidm_transition_rcid, transition at 1 3. cbn [mbind]. rewrite (bind_ret _ _ _ _ _ (obj_read m r x Hx)), (bind_ret _ _ _ _ _ (obj_read m1 r x Hx1)), Hst.
    rewrite (bind_ret _ _ m tt m), (bind_ret _ _ m1 tt m1) by done. rewrite (bind_ret _ _ _ _ _ (check_ok m r x Hm Hx)), (bind_ret _ _ _ _ _ (check_ok m1 r x Hm1 Hx1)).
    change (RCID_STATE_CUR =? RCID_STATE_PENDING) with false. cbv iota. rewrite (bind_ret get _ m m m eq_refl), (bind_ret get _ m1 m1 m1 eq_refl), Ec, Hc1.
    rewrite (bind_ret _ _ m tt m1); [reflexivity|]. change (RCID_STATE_CUR =? RCID_STATE_CUR) with true. cbv iota. rewrite (bind_ret _ _ _ _ _ E), (bind_ret get _ m1 m1 m1 eq_refl).
    apply assert_true. by rewrite Hc1.
  - eapply moves_trans; [|exact Hmv]. split; [done|by eapply evolves_retiring; [apply (ri_obj _ Hm c)|]|by eapply (less_pending_update _ _ c (retired z))].
Qed.

Lemma retire_ok m r x : rinv m -> objs m !! r = Some x -> state x <> RCID_STATE_RETIRING ->
  exists m', rcidm_transition_rcid r RCID_STATE_RETIRING m = (Ret tt, m') /\ moves m m' /\ rest m' = rest m /\ cur_rcid m' = cur_without m r /\ (exists q, queue_without m x q /\ rcids m' = q) /\
    objs m' = <[r := retired x]> (objs m).
Proof.
  intros Hm Hx Hst. destruct (transition_retire (transition (fun _ _ => undefined)) m r x Hm Hx Hst) as (q & Hq & E & Hm'). eexists. split_and!; [exact E| |done|done|by exists q|done].
  split; [done|by eapply evolves_retiring; [apply (ri_obj _ Hm r)|]|by eapply (less_pending_update _ _ r (retired x))].
Qed.
End RcidmInv.
