(* ===== verification/RcidmSpec.v ===== *)
(** * Remote connection IDs: the operations and their theorems

    Every operation keeps the invariant of [RcidmInv], so that no assertion of the
    code fails; objects are only created by the operations that add an ID and only
    freed when their sequence number is popped; and the current ID is chosen as the
    comments say. *)
From Stdlib Require Import ZArith Lia.
From stdpp Require Import base tactics option list gmap.
From S2P Require Import Prelude PriorityQueue QuicWire Rcidm RcidmInv.
#[local] Open Scope Z_scope.
Import Rcidm RcidmInv.

Module RcidmSpec.

(** ** Fields the invariant does not depend on *)

Lemma rinv_preferred m c ch h : rinv m -> rinv (set_preferred c ch h m).
Proof. intros [H1 H2 H3 H4 H5 H6 H7 H8 H9 H10 H11]. by split. Qed.

Lemma rinv_policy m ps nc hc roll : rinv m -> nc = 0 \/ hc = true -> rinv (set_policy ps nc hc roll m).
Proof. intros [H1 H2 H3 H4 H5 H6 H7 H8 H9 H10 H11] Hn. by split. Qed.

Lemma moves_same m m' : rinv m' -> objs m' = objs m -> retiring_list m' = retiring_list m -> moves m m'.
Proof. intros Hm Ho Hl. split; [done|by apply evolves_same|]. intros b y. by rewrite Ho. Qed.

(** ** Retirement *)

Lemma queue_size_pending m x q : rinv m -> forall r, objs m !! r = Some x -> state x = RCID_STATE_PENDING -> queue_without m x q -> size (pq_abs m) = S (size (PQueue.abs q)).
Proof. intros Hm r Hx Hs Hq. rewrite (queue_without_size m r x q Hm Hx Hq), Hs. cbn. lia. Qed.

Lemma retire_loop_ok rpt : forall fuel m, rinv m -> (size (pq_abs m) <= fuel)%nat ->
  exists m', retire_loop fuel rpt m = (Ret tt, m') /\ moves m m' /\ rest m' = rest m /\ cur_rcid m' = cur_rcid m /\
    forall b y, objs m' !! b = Some y -> state y = RCID_STATE_PENDING -> rpt <= seq_num y.
Proof.
  induction fuel as [|fuel IH]; intros m Hm Hf; (destruct (rcid_peek_ok m Hm) as [[Hn Ep]|(a & x & (Hx & Hst & Hl) & Ep)]; cbn [retire_loop]; rewrite (bind_ret _ _ _ _ _ Ep);
    [exists m; split_and!; [done|by apply moves_refl|done|done|intros b y Hy Hs; by destruct (Hn b y)]|]; cbn [mbind]; rewrite (bind_ret _ _ _ _ _ (obj_read m a x Hx));
    (destruct (seq_num x <? rpt) eqn:E; zb; [|exists m; split_and!; [done|by apply moves_refl|done|done|intros b y Hy Hs; specialize (Hl b y Hy Hs); lia]])).
  - destruct (ri_pending _ Hm a x Hx Hst) as (e & _ & He). assert (Hz : size (pq_abs m) = 0%nat) by lia. apply map_size_empty_iff in Hz. rewrite Hz in He. by rewrite lookup_empty in He.
  - destruct (retire_ok m a x Hm Hx) as (m1 & E1 & Hmv & Hr & Hc & (q & Hq & Eq) & _); [by rewrite Hst|]. pose proof (queue_size_pending m x q Hm a Hx Hst Hq) as Hsz.
    destruct (IH m1 (mv_inv _ _ Hmv)) as (m' & E' & Hmv' & Hr' & Hc' & Hall); [rewrite Eq; lia|]. exists m'. rewrite (bind_ret _ _ _ _ _ E1). split_and!; [done|by eapply moves_trans|congruence| |done].
    rewrite Hc', Hc. unfold cur_without. rewrite decide_False; [done|]. intros (y & Hy & Hs)%(ri_cur _ Hm). simplify_eq. by rewrite Hst in Hs.
Qed.

Lemma rinv_watermark m rpt : rinv m -> (forall a x, objs m !! a = Some x -> rpt <= seq_num x \/ state x = RCID_STATE_RETIRING) -> rinv (set_retire_prior_to rpt m).
Proof. intros [H1 H2 H3 H4 H5 H6 H7 H8 H9 H10 H11] Hr. split; try done. intros a x Hx. destruct (H8 a x Hx). split; try done. by apply (Hr a). Qed.

(** The preferred ID and whether there is one. *)
Definition pref (m : QUIC_RCIDM) : QUIC_CONN_ID * bool := (preferred_rcid m, have_preferred_rcid m).

Lemma rest_pref m m' : rest m' = rest m -> pref m' = pref m.
Proof. intros [= E1 _ _ _ _ _ _ E2 _ _ _ _ _]. unfold pref. by rewrite E1, E2. Qed.

Lemma handle_retire_ok rpt m : rinv m ->
  exists m', rcidm_handle_retire_prior_to rpt m = (Ret tt, m') /\ moves m m' /\ (cur_rcid m' = cur_rcid m \/ cur_rcid m' = None) /\ retire_prior_to m' = Z.max (retire_prior_to m) rpt /\ pref m' = pref m.
Proof.
  intros Hm. unfold rcidm_handle_retire_prior_to. cbn [mbind]. rewrite (bind_ret get _ m m m eq_refl). destruct (rpt <=? retire_prior_to m) eqn:Er; zb.
  { exists m. split_and!; [done|by apply moves_refl|by left|lia|done]. }
  (* the current object *)
  assert (Hcur : exists m1, (match cur_rcid m with Some c => x ← obj c; if seq_num x <? rpt then rcidm_transition_rcid c RCID_STATE_RETIRING else mret tt | None => mret tt end) m = (Ret tt, m1) /\
    moves m m1 /\ rest m1 = rest m /\ (cur_rcid m1 = cur_rcid m \/ cur_rcid m1 = None) /\ forall a x, cur_rcid m1 = Some a -> objs m1 !! a = Some x -> rpt <= seq_num x).
  { destruct (cur_rcid m) as [c|] eqn:Ec; [|exists m; split_and!; [done|by apply moves_refl|done|by left|by rewrite Ec]]. pose proof Ec as (x & Hx & Hs)%(ri_cur _ Hm).
    cbn [mbind]. rewrite (bind_ret _ _ _ _ _ (obj_read m c x Hx)). destruct (seq_num x <? rpt) eqn:El; zb.
    - destruct (retire_ok m c x Hm Hx) as (m1 & E1 & Hmv & Hr & Hc & _); [by rewrite Hs|]. exists m1. unfold cur_without in Hc. rewrite decide_True in Hc by done. split_and!; [done|done|done|by right|by rewrite Hc].
    - exists m. split_and!; [done|by apply moves_refl|done|by left|]. rewrite Ec. intros a y [= <-] Hy. simplify_eq. lia. }
  destruct Hcur as (m1 & E1 & Hmv1 & Hr1 & Hc1 & Hcs). rewrite (bind_ret _ _ _ _ _ E1), (bind_ret get _ m1 m1 m1 eq_refl). pose proof (mv_inv _ _ Hmv1) as Hm1.
  destruct (retire_loop_ok rpt (PQueue.ossl_pqueue_num (rcids m1)) m1 Hm1) as (m2 & E2 & Hmv2 & Hr2 & Hc2 & Hp2); [by rewrite pq_num by apply Hm1|]. rewrite (bind_ret _ _ _ _ _ E2). pose proof (mv_inv _ _ Hmv2) as Hm2.
  assert (Hm3 : rinv (set_retire_prior_to rpt m2)).
  { apply rinv_watermark; [done|]. intros a x Hx. destruct (ob_state _ _ (ri_obj _ Hm2 a x Hx)) as [Hs|[Hs|Hs]]; [left; by eapply Hp2|left|by right].
    assert (Ha : cur_rcid m2 = Some a) by (apply (ri_cur _ Hm2); eauto). pose proof (ev_objs _ _ (mv_evolves _ _ Hmv2) a) as Hev. rewrite Hx in Hev. destruct (objs m1 !! a) as [z|] eqn:Hz; [|done].
    destruct Hev as (_ & -> & _). apply (Hcs a z); [congruence|done]. }
  exists (set_retire_prior_to rpt m2). split_and!; [done| |destruct Hc1; [left|right]; cbn; congruence|cbn; lia|].
  2: { change (pref m2 = pref m). transitivity (pref m1); by apply rest_pref. }
  eapply moves_trans; [exact Hmv1|]. eapply moves_trans; [exact Hmv2|]. by apply moves_same.
Qed.

(** ** The policy *)

(** The ID to use while no numbered one is current: that of the server's Retry packet, or
    the one the client made up, until the handshake is complete. *)
Definition bootstrap (m : QUIC_RCIDM) : option QUIC_CONN_ID :=
  if added_retry_odcid m && negb (handshake_complete m) then Some (retry_odcid m)
  else if added_initial_odcid m && negb (handshake_complete m) then Some (initial_odcid m) else None.

(** After an operation that leads from [m] to [m'] the ID to send with is [w]: it is
    recorded, and marked as present; the mark stays off only if there was no ID to send with
    before and the ID recorded then is the one wanted now. *)
Definition prefers (m m' : QUIC_RCIDM) (w : option QUIC_CONN_ID) : Prop :=
  match w with
  | None => have_preferred_rcid m' = false
  | Some c => (preferred_rcid m' = c \/ ossl_quic_conn_id_eq (preferred_rcid m') c = true) /\
      (have_preferred_rcid m' = true \/
       have_preferred_rcid m = false /\ pref m' = pref m /\ ossl_quic_conn_id_eq (preferred_rcid m) c = true)
  end.

(** A numbered ID is used when there is one, one that becomes current has the least
    sequence number among those that are pending, and the ID to send with is the current
    one or that of the handshake. *)
Record chosen (m m' : QUIC_RCIDM) : Prop := {
  ch_some : cur_rcid m' = None -> none_pending m';
  ch_least a x b y : cur_rcid m' = Some a -> cur_rcid m <> Some a -> objs m' !! a = Some x -> objs m' !! b = Some y -> state y = RCID_STATE_PENDING -> seq_num x <= seq_num y;
  ch_preferred a x : cur_rcid m' = Some a -> objs m' !! a = Some x -> ossl_quic_conn_id_eq (preferred_rcid m') (cid x) = true /\ prefers m m' (Some (cid x));
  ch_bootstrap : cur_rcid m' = None -> prefers m m' (bootstrap m')
}.

Lemma conn_id_eq_refl c : id_len c <= QuicWire.QUIC_MAX_CONN_ID_LEN -> ossl_quic_conn_id_eq c c = true.
Proof. intros Hc. unfold ossl_quic_conn_id_eq. rewrite Z.eqb_refl, (proj2 (Z.ltb_ge _ _) Hc). cbn. by apply bool_decide_eq_true. Qed.

Lemma set_preferred_ok m c : exists p ch h, rcidm_set_preferred_rcid c m = (Ret tt, set_preferred p ch h m) /\ prefers m (set_preferred p ch h m) c /\
  (forall d, c = Some d -> id_len d <= QuicWire.QUIC_MAX_CONN_ID_LEN -> ossl_quic_conn_id_eq p d = true).
Proof.
  unfold rcidm_set_preferred_rcid. cbn [mbind]. rewrite (bind_ret get _ m m m eq_refl). destruct c as [d|]; [|eexists _, _, _; by split_and!].
  destruct (ossl_quic_conn_id_eq (preferred_rcid m) d) eqn:E.
  - exists (preferred_rcid m), (preferred_rcid_changed m), (have_preferred_rcid m). split_and!; [by destruct m| |by intros ? [= <-]].
    split; [by right|]. destruct (have_preferred_rcid m) eqn:Eh; [by left|right]. split_and!; try done. unfold pref. cbn. by rewrite Eh.
  - eexists _, _, _. split_and!; [done| |intros ? [= <-]; apply conn_id_eq_refl]. split; by left.
Qed.

(** What was before matters only through the preferred ID. *)
Lemma prefers_from m1 m m' w : pref m1 = pref m -> prefers m1 m' w -> prefers m m' w.
Proof. intros Hp. destruct w as [c|]; [|done]. unfold prefers. rewrite Hp. injection Hp as E1 E2. by rewrite E1, E2. Qed.

Lemma prefers_settled m m' w : prefers m m' w -> prefers m' m' w.
Proof. destruct w as [c|]; [|done]. intros [H1 [H2|(H2 & Hp & H3)]]; split; try done; [by left|right]. injection Hp as E1 E2. split_and!; congruence. Qed.

Lemma prefers_same m m' w : prefers m m w -> pref m' = pref m -> prefers m m' w.
Proof.
  intros H Hp. destruct w as [c|]; injection Hp as E1 E2; cbn in *; rewrite ?E1, ?E2; [|done].
  destruct H as [H1 [H2|(H2 & _ & H3)]]; split; try done; [by left|right]. split_and!; try done. unfold pref. by rewrite E1, E2.
Qed.

(** Selecting the first pending object. *)
Lemma select_first m a x : rinv m -> first_pending m a x ->
  exists m', rcidm_transition_rcid a RCID_STATE_CUR m = (Ret tt, m') /\ moves m m' /\ cur_rcid m' = Some a /\ rest m' = rest m /\
    forall y b z, objs m' !! a = Some y -> objs m' !! b = Some z -> state z = RCID_STATE_PENDING -> seq_num y <= seq_num z.
Proof.
  intros Hm (Hx & Hst & Hl). destruct (select_ok m a x Hm Hx Hst) as (m' & E & Hmv & Hc & Hr & y & Hy & Hs). exists m'. split_and!; try done.
  intros y' b z Hy' Hz Hzs. simplify_eq. rewrite Hs. apply (Hl b z); [|done]. by apply (mv_pending _ _ Hmv).
Qed.

Lemma update_ok m : rinv m -> exists m', rcidm_update m = (Ret tt, m') /\ moves m m' /\ chosen m m' /\ retire_prior_to m' = retire_prior_to m /\ (forall a, cur_rcid m = Some a -> cur_rcid m' = Some a).
Proof.
  intros Hm. unfold rcidm_update. cbn [mbind]. rewrite (bind_ret get _ m m m eq_refl).
  assert (Hsel : exists m1, (match cur_rcid m with None => p ← peek; match p with Some r => rcidm_transition_rcid r RCID_STATE_CUR;; m ← get; assert_ (negb (is_null (cur_rcid m))) | None => mret tt end | Some _ => mret tt end) m = (Ret tt, m1) /\
    moves m m1 /\ rest m1 = rest m /\ (cur_rcid m1 = None -> none_pending m1) /\ (forall a, cur_rcid m = Some a -> cur_rcid m1 = Some a) /\
    forall a x b y, cur_rcid m1 = Some a -> cur_rcid m <> Some a -> objs m1 !! a = Some x -> objs m1 !! b = Some y -> state y = RCID_STATE_PENDING -> seq_num x <= seq_num y).
  { destruct (cur_rcid m) as [c|] eqn:Ec; [exists m; split_and!; [done|by apply moves_refl|done|by rewrite Ec|by intros a [= <-]|intros; congruence]|].
    destruct (rcid_peek_ok m Hm) as [[Hn Ep]|(a & x & Hf & Ep)]; rewrite (bind_ret _ _ _ _ _ Ep); [exists m; split_and!; [done|by apply moves_refl|done|done|done|intros; congruence]|].
    destruct (select_first m a x Hm Hf) as (m1 & E1 & Hmv & Hc & Hr & Hl). exists m1. split_and!; [|done|done|by rewrite Hc|done|intros a' x' b y Ha' _ Hx' Hy Hs; rewrite Hc in Ha'; simplify_eq; by eapply Hl].
    cbn [mbind]. rewrite (bind_ret _ _ _ _ _ E1), (bind_ret get _ m1 m1 m1 eq_refl). by rewrite Hc. }
  destruct Hsel as (m1 & E1 & Hmv & Hr & Hnone & Hkeep & Hleast). rewrite (bind_ret _ _ _ _ _ E1), (bind_ret get _ m1 m1 m1 eq_refl). pose proof (mv_inv _ _ Hmv) as Hm1. pose proof Hr as [= _ _ _ _ _ Hrp _ _ _ _ _ _ _].
  destruct (cur_rcid m1) as [c|] eqn:Ec.
  - pose proof Ec as (x & Hx & Hs)%(ri_cur _ Hm1). rewrite (bind_ret _ _ _ _ _ (check_ok m1 c x Hm1 Hx)), (bind_ret _ _ _ _ _ (obj_read m1 c x Hx)).
    pose proof (rest_pref _ _ Hr) as Hpf. destruct (set_preferred_ok m1 (Some (cid x))) as (p & ch & h & Ep & Hpr & Hp). exists (set_preferred p ch h m1). split_and!; [done| | |done|intros a Ha; cbn; rewrite Ec; by apply Hkeep].
    + eapply moves_trans; [exact Hmv|]. apply moves_same; [by apply rinv_preferred|done|done].
    + split; cbn [cur_rcid objs set_preferred]; [by rewrite Ec|rewrite Ec; exact Hleast| |by rewrite Ec]. intros a y. rewrite Ec. intros [= <-] Hy. rewrite Hx in Hy. injection Hy as <-.
      split; [apply Hp; [done|]; apply (ri_obj _ Hm1 _ _ Hx)|]. by apply (prefers_from m1).
  - assert (Hex : (if added_retry_odcid m1 && negb (handshake_complete m1) then rcidm_set_preferred_rcid (Some (retry_odcid m1))
      else if added_initial_odcid m1 && negb (handshake_complete m1) then rcidm_set_preferred_rcid (Some (initial_odcid m1)) else rcidm_set_preferred_rcid None) = rcidm_set_preferred_rcid (bootstrap m1)).
    { unfold bootstrap. destruct (_ && _); [done|]. by destruct (_ && _). }
    rewrite Hex. pose proof (rest_pref _ _ Hr) as Hpf. destruct (set_preferred_ok m1 (bootstrap m1)) as (p & ch & h & Ep & Hpr & _). exists (set_preferred p ch h m1). split_and!; [done| | |done|intros a Ha%Hkeep; congruence].
    + eapply moves_trans; [exact Hmv|]. apply moves_same; [by apply rinv_preferred|done|done].
    + split; cbn [cur_rcid objs set_preferred]; rewrite ?Ec; [done|done|done|]. intros _. by apply (prefers_from m1).
Qed.

Lemma tick_ok m : rinv m -> exists m', rcidm_tick m = (Ret tt, m') /\ moves m m' /\ chosen m m' /\ retire_prior_to m' = retire_prior_to m.
Proof.
  intros Hm. unfold rcidm_tick. cbn [mbind]. rewrite (bind_ret get _ m m m eq_refl).
  assert (Hplain : exists m', rcidm_update m = (Ret tt, m') /\ moves m m' /\ chosen m m' /\ retire_prior_to m' = retire_prior_to m) by (destruct (update_ok m Hm) as (m' & E & H1 & H2 & H3 & _); eauto).
  destruct (rcidm_should_roll m) eqn:Er; [|by rewrite (bind_ret _ _ m tt m)]. unfold rcidm_roll. destruct (rcid_peek_ok m Hm) as [[Hn Ep]|(a & x & Hf & Ep)].
  { by rewrite (bind_ret _ _ m tt m) by (by rewrite (bind_ret _ _ _ _ _ Ep)). }
  destruct (select_first m a x Hm Hf) as (m1 & E1 & Hmv1 & Hc1 & Hr1 & Hl1). pose proof Hr1 as [= _ _ _ _ _ Hrp _ _ Hhc _ _ _ _].
  set (m2 := set_policy (if PACKETS_PER_RCID <=? packets_sent m1 then packets_sent m1 mod PACKETS_PER_RCID else 0) (u64 (num_changes m1 + 1)) (handshake_complete m1) false m1).
  assert (Hm2 : rinv m2). { apply rinv_policy; [apply Hmv1|]. right. rewrite Hhc. unfold rcidm_should_roll in Er. by apply andb_true_iff in Er as [-> _]. }
  rewrite (bind_ret _ _ m tt m2) by (rewrite (bind_ret _ _ _ _ _ Ep); cbn [mbind]; by rewrite (bind_ret _ _ _ _ _ E1)).
  destruct (update_ok m2 Hm2) as (m' & E' & Hmv' & Hch & Hrp' & Hkeep). exists m'. split_and!; [done| | |rewrite Hrp'; exact Hrp].
  - eapply moves_trans; [exact Hmv1|]. eapply moves_trans; [|exact Hmv']. by apply moves_same.
  - assert (Hpf : pref m2 = pref m) by exact (rest_pref _ _ Hr1). destruct Hch as [C1 _ C3 C4].
    split; [done| |intros a' x' Ha' Hx'; destruct (C3 a' x' Ha' Hx'); split; [done|by apply (prefers_from m2)]|intros Hn; by apply (prefers_from m2), C4].
    intros a' x' b y Ha' _ Hx' Hy Hs. rewrite (Hkeep a Hc1) in Ha'. injection Ha' as <-.
    pose proof (mv_pending _ _ Hmv' b y Hy Hs) as Hy1. pose proof (ev_objs _ _ (mv_evolves _ _ Hmv') a) as Hev. rewrite Hx' in Hev. destruct (objs m2 !! a) as [z|] eqn:Hz; [|done].
    destruct Hev as (_ & -> & _). by apply (Hl1 z b y).
Qed.

(** ** Creation *)

(** A manager with one more object. *)
Record created (m m' : QUIC_RCIDM) (r : nat) (sn : Z) (c : QUIC_CONN_ID) (ty : Z) : Prop := {
  cr_inv : rinv m';
  cr_obj : exists x, objs m' = <[r := x]> (objs m) /\ seq_num x = sn /\ cid x = c /\ type x = ty;
  cr_cur : cur_rcid m' = cur_rcid m;
  cr_rest : rest m' = rest m;
  cr_list : exists l, retiring_list m' = retiring_list m ++ l
}.

Definition new_obj (c : QUIC_CONN_ID) (sn i st ty : Z) : RCID := mkRcid c sn i st ty.

Lemma not_mem_fresh m r : rinv m -> objs m !! r = None -> cur_rcid m <> Some r /\ (r ∉ retiring_list m) /\ (forall e s, ~ pq_abs m !! e = Some (s, r)).
Proof.
  intros Hm Hr. split_and!.
  - intros (x & Hx & _)%(ri_cur _ Hm). congruence.
  - intros (x & Hx & _)%(ri_retiring _ Hm). congruence.
  - intros e s He. destruct (ri_queue _ Hm e s r He) as (x & Hx & _). congruence.
Qed.

Lemma few_objs m : rinv m -> Z.of_nat (size (pq_abs m)) + num_retiring m <= MAX_NUMBERED_RCIDS -> Z.of_nat (S (size (objs m))) <= 9223372036854775809.
Proof. intros Hm Hn. pose proof (ri_size _ Hm) as E. pose proof (ri_num _ Hm). assert (MAX_NUMBERED_RCIDS = 9223372036854775807) by reflexivity. assert (cur_count m <= 1)%nat by (unfold cur_count; destruct (is_null _); lia). lia. Qed.

Lemma rinv_add_pending m r q e c sn ty : rinv m -> objs m !! r = None -> retire_prior_to m <= sn <= OSSL_QUIC_VLINT_MAX -> 0 < id_len c <= QuicWire.QUIC_MAX_CONN_ID_LEN ->
  (ty = RCID_TYPE_INITIAL -> sn = 0) -> (ty = RCID_TYPE_PREF_ADDR -> sn = 1) -> Z.of_nat (size (pq_abs m)) + num_retiring m <= MAX_NUMBERED_RCIDS ->
  PQueue.pq_ok rcid_cmp q -> pq_abs m !! e = None -> PQueue.abs q = <[e := (sn, r)]> (pq_abs m) ->
  rinv (set_rcids q (set_objs (<[r := new_obj c sn (Z.of_nat e) RCID_STATE_PENDING ty]> (objs m)) m)).
Proof.
  intros Hm Hr Hsn Hc Hi Hp Hfew Hq He Hq'. destruct (not_mem_fresh m r Hm Hr) as (Hcur & Hlist & Hpq). pose proof (few_objs m Hm Hfew) as Hsz. split; cbn.
  - done.
  - intros e' s a. rewrite Hq'. intros [[<- [= <- <-]]|[Hne He']]%lookup_insert_Some; [eexists; by rewrite lookup_insert_eq|].
    destruct (ri_queue _ Hm e' s a He') as (x & Hx & ?). exists x. rewrite lookup_insert_ne; [done|]. intros <-. congruence.
  - intros a x [[<- <-]|[Hne Hx]]%lookup_insert_Some Hs; [exists e; by rewrite Hq', lookup_insert_eq|]. destruct (ri_pending _ Hm a x Hx Hs) as (e' & Hi' & He'). exists e'. split; [done|].
    rewrite Hq', lookup_insert_ne; [done|]. intros <-. congruence.
  - intros a. rewrite (ri_cur _ Hm a). split.
    + intros (x & Hx & Hs). exists x. rewrite lookup_insert_ne; [done|]. intros <-. congruence.
    + intros (x & [[<- <-]|[Hne Hx]]%lookup_insert_Some & Hs); [done|eauto].
  - apply Hm.
  - intros a. rewrite (ri_retiring _ Hm a). split.
    + intros (x & Hx & Hs). exists x. rewrite lookup_insert_ne; [done|]. intros <-. congruence.
    + intros (x & [[<- <-]|[Hne Hx]]%lookup_insert_Some & Hs); [done|eauto].
  - apply Hm.
  - intros a x [[<- <-]|[Hne Hx]]%lookup_insert_Some; [|by apply (ri_obj _ Hm a)]. split; cbn; auto; [done|lia|]. left. lia.
  - apply Hm.
  - rewrite map_size_insert_None by done. rewrite Hq', map_size_insert_None by done. pose proof (ri_size _ Hm). unfold cur_count in *. cbn. lia.
  - rewrite map_size_insert_None by done. done.
Qed.

Lemma rinv_add_retiring m r c sn ty : rinv m -> objs m !! r = None -> sn <= OSSL_QUIC_VLINT_MAX -> 0 < id_len c <= QuicWire.QUIC_MAX_CONN_ID_LEN ->
  (ty = RCID_TYPE_INITIAL -> sn = 0) -> (ty = RCID_TYPE_PREF_ADDR -> sn = 1) -> Z.of_nat (size (pq_abs m)) + num_retiring m <= MAX_NUMBERED_RCIDS ->
  rinv (set_retiring (retiring_list m ++ [r]) (num_retiring m + 1) (set_objs (<[r := new_obj c sn SIZE_MAX RCID_STATE_RETIRING ty]> (objs m)) m)).
Proof.
  intros Hm Hr Hsn Hc Hi Hp Hfew. destruct (not_mem_fresh m r Hm Hr) as (Hcur & Hlist & Hpq). pose proof (few_objs m Hm Hfew) as Hsz. split; cbn.
  - apply Hm.
  - intros e s a He. destruct (ri_queue _ Hm e s a He) as (x & Hx & ?). exists x. rewrite lookup_insert_ne; [done|]. intros <-. congruence.
  - intros a x [[<- <-]|[Hne Hx]]%lookup_insert_Some Hs; [done|]. by apply (ri_pending _ Hm a x Hx Hs).
  - intros a. rewrite (ri_cur _ Hm a). split.
    + intros (x & Hx & Hs). exists x. rewrite lookup_insert_ne; [done|]. intros <-. congruence.
    + intros (x & [[<- <-]|[Hne Hx]]%lookup_insert_Some & Hs); [done|eauto].
  - apply NoDup_app. split_and!; [apply Hm| |apply NoDup_singleton]. intros a Ha ->%list_elem_of_singleton. done.
  - intros a. rewrite elem_of_app, list_elem_of_singleton, (ri_retiring _ Hm a). split.
    + intros [(x & Hx & Hs)| ->]; [|eexists; by rewrite lookup_insert_eq]. exists x. rewrite lookup_insert_ne; [done|]. intros <-. congruence.
    + intros (x & [[<- <-]|[Hne Hx]]%lookup_insert_Some & Hs); [by right|left; eauto].
  - rewrite (ri_num _ Hm), length_app. cbn. lia.
  - intros a x [[<- <-]|[Hne Hx]]%lookup_insert_Some; [|by apply (ri_obj _ Hm a)]. split; cbn; auto.
  - apply Hm.
  - rewrite map_size_insert_None, length_app by done. pose proof (ri_size _ Hm). unfold cur_count in *. cbn. lia.
  - rewrite map_size_insert_None by done. done.
Qed.

Lemma rcid_push_ok m ah ae sn r : rinv m ->
  (exists e q, PQueue.ossl_pqueue_push ah ae (sn, r) (rcids m) = (Ret e, q) /\ PQueue.pq_ok rcid_cmp q /\ pq_abs m !! e = None /\ PQueue.abs q = <[e := (sn, r)]> (pq_abs m)) \/
  (exists q, PQueue.ossl_pqueue_push ah ae (sn, r) (rcids m) = (Err, q) /\ PQueue.pq_ok rcid_cmp q /\ PQueue.abs q = pq_abs m).
Proof.
  intros Hm. destruct (PQueue.push_simulates rcid_cmp (rcids m) ah ae (sn, r) (ri_pq _ Hm)) as (out & q' & E & Hq' & Hs). cbn in E. unfold PQueue.catch in E.
  destruct (PQueue.ossl_pqueue_push ah ae (sn, r) (rcids m)) as [[e| |] q1]; [left|right|done]; simplify_eq; (inversion Hs as [A ? ? ? e' He EA Eo Er EA'|A ? ? ? Hn EA Eo Er EA'| | | | | | | | |]; simplify_eq).
  - exists e, q'. split_and!; done.
  - exists q'. split_and!; done.
Qed.

Lemma rinv_same_queue m q : rinv m -> PQueue.pq_ok rcid_cmp q -> PQueue.abs q = pq_abs m -> rinv (set_rcids q m).
Proof. intros [H1 H2 H3 H4 H5 H6 H7 H8 H9 H10 H11] Hq Ha. split; cbn; rewrite ?Ha; done. Qed.

(** An object that was not wanted leaves the manager as it was, but for the room in its
    queue. *)
Definition untouched (m m' : QUIC_RCIDM) : Prop := exists q, PQueue.pq_ok rcid_cmp q /\ PQueue.abs q = pq_abs m /\ m' = set_rcids q m.

Lemma create_ok m alloc ah ae sn c ty : rinv m -> (forall r, alloc = Some r -> objs m !! r = None) -> (ty = RCID_TYPE_INITIAL -> sn = 0) -> (ty = RCID_TYPE_PREF_ADDR -> sn = 1) ->
  (exists m', rcidm_create_rcid alloc ah ae sn c ty m = (Err, m') /\ untouched m m') \/
  (exists r m', alloc = Some r /\ rcidm_create_rcid alloc ah ae sn c ty m = (Ret r, m') /\ created m m' r sn c ty).
Proof.
  intros Hm Hal Hi Hp. assert (Hsame : untouched m m) by (exists (rcids m); split_and!; [apply Hm|done|by destruct m]). unfold rcidm_create_rcid. cbn [mbind]. rewrite (bind_ret get _ m m m eq_refl).
  destruct (_ || _) eqn:Eg; [left; exists m; by rewrite guard_false|]. rewrite guard_true by done. apply orb_false_iff in Eg as [Eg Enum]. zb.
  assert (Hfew : Z.of_nat (size (pq_abs m)) + num_retiring m <= MAX_NUMBERED_RCIDS).
  { rewrite pq_num in Enum by apply Hm. pose proof (ri_size _ Hm). pose proof (ri_num _ Hm). pose proof (ri_few _ Hm). rewrite u64_id in Enum by (unfold is_u64; lia). lia. }
  destruct alloc as [r|]; [|left; by exists m]. pose proof (Hal r eq_refl) as Hr. unfold modify. set (m1 := set_objs (<[r := mkRcid c sn 0 0 ty]> (objs m)) m).
  rewrite (bind_ret _ _ m tt m1) by done. assert (Hx1 : objs m1 !! r = Some (mkRcid c sn 0 0 ty)) by apply lookup_insert_eq.
  assert (Hid : 0 < id_len c <= QuicWire.QUIC_MAX_CONN_ID_LEN) by lia. destruct (retire_prior_to m <=? sn) eqn:Es; zb.
  - assert (E1 : upd_obj r (with_state RCID_STATE_PENDING) m1 = (Ret tt, m1)) by (rewrite (upd_obj_ok _ _ _ _ Hx1); unfold m1; cbn; by rewrite insert_twice).
    destruct (rcid_push_ok m ah ae sn r Hm) as [(e & q & Ep & Hq & He & Hq')|(q & Ep & Hq & Hq')].
    + right. set (m2 := set_rcids q (set_objs (<[r := new_obj c sn (Z.of_nat e) RCID_STATE_PENDING ty]> (objs m)) m)).
      assert (Hm2 : rinv m2) by (apply rinv_add_pending; (done || lia)). exists r, m2. split_and!; [done| |].
      * rewrite (bind_ret _ _ m1 tt m2).
        2: { rewrite (bind_ret _ _ _ _ _ E1). unfold push_pending. change (rcids m1) with (rcids m). rewrite Ep, (upd_obj_ok (set_rcids q m1) r _ _ Hx1). unfold m1, m2. cbn. by rewrite insert_twice. }
        rewrite (bind_ret _ _ m2 tt m2); [done|]. eapply (check_ok m2 r); [exact Hm2|apply lookup_insert_eq].
      * split; [done|eexists; split; [done|done]|done|done|exists []; by rewrite app_nil_r].
    + left. exists (set_rcids q m). split; [|by exists q]. rewrite (bind_err _ _ m1 (set_rcids q m)); [done|]. rewrite (bind_ret _ _ _ _ _ E1). unfold push_pending. change (rcids m1) with (rcids m). rewrite Ep.
      unfold free_obj. cbn [mbind]. unfold obj, mbind, M_bind. cbn. rewrite lookup_insert_eq. cbn. unfold set_objs, set_rcids. cbn. by rewrite delete_insert_id.
  - right. set (m2 := set_retiring (retiring_list m ++ [r]) (num_retiring m + 1) (set_objs (<[r := new_obj c sn SIZE_MAX RCID_STATE_RETIRING ty]> (objs m)) m)).
    assert (Hm2 : rinv m2) by (apply rinv_add_retiring; (done || lia)). exists r, m2. split_and!; [done| |split; [done|eexists; split; [done|done]|done|done|by exists [r]]].
    rewrite (bind_ret _ _ m1 tt m2); [rewrite (bind_ret _ _ m2 tt m2); [done|]; eapply (check_ok m2 r); [exact Hm2|apply lookup_insert_eq]|].
    rewrite (bind_ret _ _ _ _ _ (upd_obj_ok m1 r _ _ Hx1)). set (m1' := set_objs _ m1). rewrite (bind_ret _ _ _ _ _ (upd_obj_ok m1' r (mkRcid c sn 0 RCID_STATE_RETIRING ty) _ ltac:(apply lookup_insert_eq))).
    unfold insert_retiring, modify, m1', m1, m2. cbn. rewrite !insert_twice. by rewrite retiring_wrap.
Qed.

(** ** Popping *)

Lemma rcid_pop_ok m r x : rinv m -> head (retiring_list m) = Some r -> objs m !! r = Some x -> exists m', rcidm_free_rcid r m = (Ret tt, m') /\ rinv m' /\ objs m' = delete r (objs m) /\
  cur_rcid m' = cur_rcid m /\ retiring_list m = r :: retiring_list m' /\ rest m' = rest m.
Proof.
  intros Hm Hh Hx. destruct (retiring_list m) as [|r' l] eqn:El; [done|]. injection Hh as ->. pose proof (ri_nodup _ Hm) as Hnd. rewrite El in Hnd. apply NoDup_cons in Hnd as [Hrl Hnd].
  assert (Hst : state x = RCID_STATE_RETIRING) by (assert (Hin : r ∈ retiring_list m) by (rewrite El; left); apply (ri_retiring _ Hm) in Hin as (y & Hy & ?); by simplify_eq).
  pose proof (ri_num _ Hm) as Hn. rewrite El in Hn. cbn in Hn. pose proof (ri_few _ Hm) as Hfew. pose proof (ri_size _ Hm) as Hsz. rewrite El in Hsz. cbn in Hsz.
  assert (Hfl : filter (fun a => a <> r) (r :: l) = l).
  { rewrite filter_cons_False by tauto. clear -Hrl. induction l as [|a l IH]; [done|]. apply not_elem_of_cons in Hrl as [Hne Hrl]. rewrite filter_cons_True by congruence. by rewrite IH. }
  set (m' := set_objs (delete r (objs m)) (set_retiring l (num_retiring m - 1) m)). exists m'. split_and!; try done.
  - unfold rcidm_free_rcid. cbn [mbind]. rewrite (bind_ret _ _ _ _ _ (check_ok m r x Hm Hx)), (bind_ret _ _ _ _ _ (obj_read m r x Hx)), Hst.
    cbn [Z.eqb RCID_STATE_RETIRING RCID_STATE_PENDING RCID_STATE_CUR Pos.eqb]. unfold modify.
    rewrite (bind_ret _ _ m tt (set_retiring l (num_retiring m - 1) m)) by (by rewrite El, Hfl, u64_id by (unfold is_u64; lia)). unfold free_obj. cbn [mbind]. by rewrite (bind_ret _ _ _ _ _ (obj_read (set_retiring l (num_retiring m - 1) m) r x Hx)).
  - assert (Hdel : forall a y, objs m' !! a = Some y <-> objs m !! a = Some y /\ a <> r) by (intros a y; cbn; rewrite lookup_delete_Some; naive_solver). split; cbn.
    + apply Hm.
    + intros e s a He. destruct (ri_queue _ Hm e s a He) as (y & Hy & Hs & ?). exists y. split; [|done]. apply Hdel. split; [done|]. intros ->. simplify_eq. by rewrite Hst in Hs.
    + intros a y [Hy _]%Hdel Hs. by apply (ri_pending _ Hm a y Hy Hs).
    + intros a. rewrite (ri_cur _ Hm a). split; [|intros (y & [Hy _]%Hdel & Hs); eauto]. intros (y & Hy & Hs). exists y. split; [|done]. apply Hdel. split; [done|]. intros ->. simplify_eq. by rewrite Hst in Hs.
    + done.
    + intros a. pose proof (ri_retiring _ Hm a) as Ha. rewrite El in Ha. split.
      * intros Hal. destruct (proj1 Ha) as (y & Hy & Hs); [by right|]. exists y. split; [|done]. apply Hdel. split; [done|]. by intros ->.
      * intros (y & [Hy Hne]%Hdel & Hs). assert (Hin : a ∈ r :: l) by (apply Ha; eauto). by apply elem_of_cons in Hin as [->|Hin].
    + lia.
    + intros a y [Hy _]%Hdel. by apply (ri_obj _ Hm a).
    + apply Hm.
    + rewrite map_size_delete_Some by (by eexists). unfold cur_count in *. cbn. lia.
    + rewrite map_size_delete_Some by (by eexists). lia.
Qed.

(** ** Operations *)

Inductive op :=
| AddInitial (alloc : option nat) (alloc_h alloc_e : bool) (c : QUIC_CONN_ID)
| AddRetry (c : QUIC_CONN_ID)
| AddNcid (alloc : option nat) (alloc_h alloc_e : bool) (f : QuicWire.OSSL_QUIC_FRAME_NEW_CONN_ID)
| HandshakeComplete | PacketSent (n : Z) | RequestRoll | PopRetire | PeekRetire | GetChanged (clear : bool).

Definition exec (o : op) : M QUIC_RCIDM (option Z) :=
  match o with
  | AddInitial alloc ah ae c => ossl_quic_rcidm_add_from_initial alloc ah ae c;; mret None
  | AddRetry c => ossl_quic_rcidm_add_from_server_retry c;; mret None
  | AddNcid alloc ah ae f => ossl_quic_rcidm_add_from_ncid alloc ah ae f;; mret None
  | HandshakeComplete => ossl_quic_rcidm_on_handshake_complete;; mret None
  | PacketSent n => ossl_quic_rcidm_on_packet_sent n;; mret None
  | RequestRoll => ossl_quic_rcidm_request_roll;; mret None
  | PopRetire => s ← ossl_quic_rcidm_pop_retire_seq_num; mret (Some s)
  | PeekRetire => s ← ossl_quic_rcidm_peek_retire_seq_num; mret (Some s)
  | GetChanged clear => ossl_quic_rcidm_get_preferred_tx_dcid_changed clear;; mret None
  end.

(** What [malloc] returns is not in use. *)
Definition allowed (m : QUIC_RCIDM) (o : op) : Prop :=
  match o with AddInitial (Some r) _ _ _ | AddNcid (Some r) _ _ _ => objs m !! r = None | _ => True end.

(** The object an operation adds. *)
Definition adds (o : op) (r : nat) (x : RCID) : Prop :=
  match o with
  | AddInitial alloc _ _ c => alloc = Some r /\ seq_num x = 0 /\ cid x = c
  | AddNcid alloc _ _ f => alloc = Some r /\ seq_num x = QuicWire.seq_num f /\ cid x = QuicWire.conn_id f
  | _ => False
  end.

(** Where the objects of [m'] come from and where those of [m] have gone. *)
Record lifecycle (m : QUIC_RCIDM) (o : op) (out : res (option Z)) (m' : QUIC_RCIDM) : Prop := {
  lc_old a x : objs m !! a = Some x ->
    (exists y, objs m' !! a = Some y /\ kept x y) \/
    (objs m' !! a = None /\ o = PopRetire /\ out = Ret (Some (seq_num x)) /\ state x = RCID_STATE_RETIRING /\ head (retiring_list m) = Some a);
  lc_new a y : objs m' !! a = Some y -> objs m !! a = None -> adds o a y;
  lc_list : retiring_list m `prefix_of` retiring_list m' \/ (o = PopRetire /\ retiring_list m' = tail (retiring_list m))
}.

Lemma lifecycle_moves m o out m' : moves m m' -> lifecycle m o out m'.
Proof.
  intros [_ [He [l Hl]] _]. split.
  - intros a x Hx. specialize (He a). rewrite Hx in He. destruct (objs m' !! a) as [y|]; [eauto|done].
  - intros a y Hy Hx. specialize (He a). rewrite Hx, Hy in He. done.
  - left. exists l. done.
Qed.

Lemma lifecycle_created m o out m1 m' r sn c ty : objs m !! r = None -> created m m1 r sn c ty -> (forall x, seq_num x = sn -> cid x = c -> adds o r x) -> moves m1 m' -> lifecycle m o out m'.
Proof.
  intros Hr [_ (x1 & Ho & Hs & Hc & _) _ _ [l1 Hl1]] Hadd [_ [He [l Hl]] _]. split.
  - intros a x Hx. left. specialize (He a). assert (a <> r) by congruence. rewrite Ho, lookup_insert_ne, Hx in He by done. destruct (objs m' !! a) as [y|]; [eauto|done].
  - intros a y Hy Hx. specialize (He a). rewrite Ho, Hy in He. destruct (decide (a = r)) as [->|Hne]; [|by rewrite lookup_insert_ne, Hx in He]. rewrite lookup_insert_eq in He. destruct He as (Ec & Es & _).
    apply Hadd; congruence.
  - left. exists (l1 ++ l). by rewrite Hl, Hl1, app_assoc.
Qed.

(** What every operation leaves: [chosen] without reference to what was before. *)
Definition settled (m : QUIC_RCIDM) : Prop := chosen m m.

Lemma chosen_settled m m' : chosen m m' -> settled m'.
Proof.
  intros [C1 _ C3 C4]. split; [done|intros a x b y Ha Hn; congruence| |intros Hn; by eapply prefers_settled, C4].
  intros a x Ha Hx. destruct (C3 a x Ha Hx). split; [done|by eapply prefers_settled].
Qed.

Lemma chosen_same m m' : settled m -> cur_rcid m' = cur_rcid m -> pref m' = pref m -> bootstrap m' = bootstrap m -> (forall b y, objs m' !! b = Some y -> objs m !! b = Some y) -> chosen m m'.
Proof.
  intros [C1 _ C3 C4] Hc Hp Hb Ho. split.
  - rewrite Hc. intros Hn b y Hy. by apply (C1 Hn b), Ho.
  - intros a x b y Ha Hn. congruence.
  - intros a x Ha Hx. destruct (C3 a x) as [H1 H2]; [congruence|by apply Ho|]. split; [by injection Hp as -> _|by apply prefers_same].
  - rewrite Hc, Hb. intros Hn. by apply prefers_same; [apply C4|].
Qed.

(** What is shown of one operation. *)
Record good_step (m : QUIC_RCIDM) (o : op) (out : res (option Z)) (m' : QUIC_RCIDM) : Prop := {
  gs_defined : out <> Undef;
  gs_inv : rinv m';
  gs_chosen : chosen m m';
  gs_lifecycle : lifecycle m o out m';
  gs_watermark : retire_prior_to m <= retire_prior_to m'
}.

Lemma good_same m o out m' : rinv m' -> settled m -> out <> Undef -> objs m' = objs m -> retiring_list m' = retiring_list m -> cur_rcid m' = cur_rcid m -> pref m' = pref m -> bootstrap m' = bootstrap m ->
  retire_prior_to m' = retire_prior_to m -> good_step m o out m'.
Proof.
  intros Hm Hs Hd Ho Hl Hc Hp Hb Hr. split; [done|done|apply chosen_same; [done|done|done|done|by rewrite Ho]|apply lifecycle_moves; by apply moves_same|lia].
Qed.

Lemma chosen_from m1 m m' : cur_rcid m1 = cur_rcid m -> pref m1 = pref m -> chosen m1 m' -> chosen m m'.
Proof.
  intros Hc Hp [C1 C2 C3 C4]. split; [done|by rewrite Hc in C2| |intros Hn; by apply (prefers_from m1), C4].
  intros a x Ha Hx. destruct (C3 a x Ha Hx). split; [done|by apply (prefers_from m1)].
Qed.

(** A change of the fields the policy reads, and a tick. *)
Lemma good_tick m m1 o : rinv m1 -> objs m1 = objs m -> retiring_list m1 = retiring_list m -> cur_rcid m1 = cur_rcid m -> retire_prior_to m1 = retire_prior_to m -> pref m1 = pref m ->
  exists m', rcidm_tick m1 = (Ret tt, m') /\ good_step m o (Ret None) m'.
Proof.
  intros Hm1 Ho Hl Hc Hr Hp. destruct (tick_ok m1 Hm1) as (m' & E & Hmv & Hch & Hrp). exists m'. split; [done|]. split; [done|apply Hmv| |apply lifecycle_moves|lia].
  - by apply (chosen_from m1).
  - eapply moves_trans; [|exact Hmv]. by apply moves_same.
Qed.

Lemma untouched_good m m' o : rinv m -> settled m -> untouched m m' -> good_step m o Err m'.
Proof. intros Hm Hs (q & Hq & Ha & ->). apply good_same; try done. by apply rinv_same_queue. Qed.

(** The rest of an operation that has added an object. *)
Lemma good_created m o r sn c ty m1 m2 m' : objs m !! r = None -> created m m1 r sn c ty -> (forall x, seq_num x = sn -> cid x = c -> adds o r x) ->
  moves m1 m2 -> (forall a, cur_rcid m2 = Some a -> cur_rcid m1 = Some a) -> retire_prior_to m1 <= retire_prior_to m2 -> pref m2 = pref m1 ->
  rcidm_tick m2 = (Ret tt, m') -> good_step m o (Ret None) m'.
Proof.
  intros Hr Hcr Hadd Hmv Hc Hrp Hp Et. destruct (tick_ok m2 (mv_inv _ _ Hmv)) as (m3 & E & Hmv3 & [C1 C2 C3 C4] & Hrp3). rewrite Et in E. injection E as <-.
  pose proof (cr_rest _ _ _ _ _ _ Hcr) as [= _ _ _ _ _ Hrp1 _ _ _ _ _ _ _]. split; [done|apply Hmv3| |eapply lifecycle_created; [done|done|done|by eapply moves_trans]|lia].
  pose proof (rest_pref _ _ (cr_rest _ _ _ _ _ _ Hcr)) as Hp1. assert (Hp2 : pref m2 = pref m) by congruence.
  split; [done| |intros a x Ha Hx; destruct (C3 a x Ha Hx); split; [done|by apply (prefers_from m2)]|intros Hn; by apply (prefers_from m2), C4].
  intros a x b y Ha Hn. apply (C2 a x b y Ha). intros H1%Hc. by rewrite (cr_cur _ _ _ _ _ _ Hcr) in H1.
Qed.

Lemma rinv_added_initial m : rinv m -> rinv (set_added_initial_rcid m).
Proof. intros [H1 H2 H3 H4 H5 H6 H7 H8 H9 H10 H11]. by split. Qed.
Lemma rinv_retry m c : rinv m -> rinv (set_retry_odcid c m).
Proof. intros [H1 H2 H3 H4 H5 H6 H7 H8 H9 H10 H11]. by split. Qed.

Lemma add_initial_ok m alloc ah ae c : rinv m -> settled m -> allowed m (AddInitial alloc ah ae c) -> exists out m', exec (AddInitial alloc ah ae c) m = (out, m') /\ good_step m (AddInitial alloc ah ae c) out m'.
Proof.
  intros Hm Hs Ha. cbn [exec]. unfold ossl_quic_rcidm_add_from_initial. cbn [mbind]. destruct (added_initial_rcid m || handshake_complete m) eqn:Eg.
  { exists Err, m. split; [|by apply good_same]. rewrite (bind_err _ _ m m); [done|]. rewrite (bind_ret get _ m m m eq_refl). by rewrite guard_false by (by rewrite Eg). }
  destruct (create_ok m alloc ah ae INITIAL_SEQ_NUM c RCID_TYPE_INITIAL Hm) as [(m1 & E1 & Hu)|(r & m1 & -> & E1 & Hcr)]; [intros r ->; exact Ha|done|done| |].
  - exists Err, m1. split; [|by apply untouched_good]. rewrite (bind_err _ _ m m1); [done|]. rewrite (bind_ret get _ m m m eq_refl). rewrite guard_true by (by rewrite Eg). by rewrite (bind_err _ _ _ _ E1).
  - set (m2 := set_added_initial_rcid m1). assert (Hm2 : rinv m2) by (apply rinv_added_initial, Hcr). destruct (tick_ok m2 Hm2) as (m' & Et & _). exists (Ret None), m'. split.
    + rewrite (bind_ret _ _ m tt m'); [done|]. rewrite (bind_ret get _ m m m eq_refl). rewrite guard_true by (by rewrite Eg). rewrite (bind_ret _ _ _ _ _ E1). unfold modify. by rewrite (bind_ret _ _ m1 tt m2).
    + apply (good_created m _ r 0 c RCID_TYPE_INITIAL m1 m2 m'); [exact Ha|done|by intros; split_and!|by apply moves_same|done|done|done|done].
Qed.

Lemma add_ncid_ok m alloc ah ae f : rinv m -> settled m -> allowed m (AddNcid alloc ah ae f) -> exists out m', exec (AddNcid alloc ah ae f) m = (out, m') /\ good_step m (AddNcid alloc ah ae f) out m'.
Proof.
  intros Hm Hs Ha. cbn [exec]. unfold ossl_quic_rcidm_add_from_ncid. cbn [mbind].
  destruct (create_ok m alloc ah ae (QuicWire.seq_num f) (QuicWire.conn_id f) RCID_TYPE_NCID Hm) as [(m1 & E1 & Hu)|(r & m1 & -> & E1 & Hcr)]; [intros r ->; exact Ha|done|done| |].
  - exists Err, m1. split; [|by apply untouched_good]. rewrite (bind_err _ _ m m1); [done|]. by rewrite (bind_err _ _ _ _ E1).
  - destruct (handle_retire_ok (QuicWire.retire_prior_to f) m1 (cr_inv _ _ _ _ _ _ Hcr)) as (m2 & E2 & Hmv & Hc & Hrp & Hpf). destruct (tick_ok m2 (mv_inv _ _ Hmv)) as (m' & Et & _). exists (Ret None), m'. split.
    + rewrite (bind_ret _ _ m tt m'); [done|]. rewrite (bind_ret _ _ _ _ _ E1). by rewrite (bind_ret _ _ _ _ _ E2).
    + apply (good_created m _ r (QuicWire.seq_num f) (QuicWire.conn_id f) RCID_TYPE_NCID m1 m2 m'); [exact Ha|done|by intros; split_and!|done|destruct Hc as [-> | ->]; done|lia|done|done].
Qed.

Lemma pop_good m : rinv m -> settled m -> exists out m', exec PopRetire m = (out, m') /\ good_step m PopRetire out m'.
Proof.
  intros Hm Hs. cbn [exec]. unfold ossl_quic_rcidm_pop_retire_seq_num, rcidm_get_retire. cbn [mbind]. destruct (head (retiring_list m)) as [r|] eqn:Eh.
  - assert (Hin : r ∈ retiring_list m) by (destruct (retiring_list m); [done|]; injection Eh as ->; left). apply (ri_retiring _ Hm) in Hin as (x & Hx & Hst).
    destruct (rcid_pop_ok m r x Hm Eh Hx) as (m' & E & Hm' & Ho & Hc & Hl & Hr). pose proof (rest_pref _ _ Hr) as Hp. assert (Hb : bootstrap m' = bootstrap m) by (unfold bootstrap; by injection Hr as _ -> -> _ _ _ _ _ -> -> -> _ _). pose proof Hr as [= _ _ _ _ _ Hrp _ _ _ _ _ _ _]. exists (Ret (Some (seq_num x))), m'. split.
    + rewrite (bind_ret _ _ m (seq_num x) m'); [done|]. rewrite (bind_ret get _ m m m eq_refl), Eh. rewrite (bind_ret _ _ _ _ _ (obj_read m r x Hx)). by rewrite (bind_ret _ _ _ _ _ E).
    + split; [done|done|apply chosen_same; [done|done|done|done|rewrite Ho; intros b y [_ Hy]%lookup_delete_Some; done]| |lia]. split.
      * intros a y Hy. destruct (decide (a = r)) as [->|Hne]; [right; simplify_eq; by rewrite Ho, lookup_delete_eq|left]. exists y. rewrite Ho, lookup_delete_ne by done. by unfold kept.
      * intros a y Hy Hn. rewrite Ho in Hy. apply lookup_delete_Some in Hy as [_ Hy]. congruence.
      * right. split; [done|]. by rewrite Hl.
  - exists Err, m. split; [|by apply good_same]. rewrite (bind_err _ _ m m); [done|]. by rewrite (bind_ret get _ m m m eq_refl), Eh.
Qed.

Lemma rcid_exec_ok m o : rinv m -> settled m -> allowed m o -> exists out m', exec o m = (out, m') /\ good_step m o out m'.
Proof.
  intros Hm Hs Ha. destruct o as [alloc ah ae c|c|alloc ah ae f| |n| | | |clear].
  - by apply add_initial_ok.
  - cbn [exec]. unfold ossl_quic_rcidm_add_from_server_retry. cbn [mbind]. destruct (added_retry_odcid m || handshake_complete m) eqn:Eg.
    { exists Err, m. split; [|by apply good_same]. rewrite (bind_err _ _ m m); [done|]. rewrite (bind_ret get _ m m m eq_refl). by rewrite guard_false by (by rewrite Eg). }
    destruct (good_tick m (set_retry_odcid c m) (AddRetry c)) as (m' & E & Hg); try done; [by apply rinv_retry|]. exists (Ret None), m'. split; [|done].
    rewrite (bind_ret _ _ m tt m'); [done|]. rewrite (bind_ret get _ m m m eq_refl). rewrite guard_true by (by rewrite Eg). exact E.
  - by apply add_ncid_ok.
  - cbn [exec]. unfold ossl_quic_rcidm_on_handshake_complete. cbn [mbind]. destruct (handshake_complete m) eqn:Eh.
    { exists (Ret None), m. split; [|by apply good_same]. rewrite (bind_ret _ _ m tt m); [done|]. by rewrite (bind_ret get _ m m m eq_refl), Eh. }
    destruct (good_tick m (set_policy (packets_sent m) (num_changes m) true (roll_requested m) m) HandshakeComplete) as (m' & E & Hg); try done; [apply rinv_policy; auto|].
    exists (Ret None), m'. split; [|done]. rewrite (bind_ret _ _ m tt m'); [done|]. rewrite (bind_ret get _ m m m eq_refl), Eh. exact E.
  - cbn [exec]. unfold ossl_quic_rcidm_on_packet_sent. destruct (n =? 0); [exists (Ret None), m; split; [done|by apply good_same]|].
    destruct (good_tick m (set_policy (u64 (packets_sent m + n)) (num_changes m) (handshake_complete m) (roll_requested m) m) (PacketSent n)) as (m' & E & Hg); try done; [apply rinv_policy; [done|apply Hm]|].
    exists (Ret None), m'. split; [|done]. rewrite (bind_ret _ _ m tt m'); [done|]. exact E.
  - cbn [exec]. unfold ossl_quic_rcidm_request_roll.
    destruct (good_tick m (set_policy (packets_sent m) (num_changes m) (handshake_complete m) true m) RequestRoll) as (m' & E & Hg); try done; [apply rinv_policy; [done|apply Hm]|].
    exists (Ret None), m'. split; [|done]. rewrite (bind_ret _ _ m tt m'); [done|]. exact E.
  - by apply pop_good.
  - cbn [exec]. unfold ossl_quic_rcidm_peek_retire_seq_num, rcidm_get_retire. cbn [mbind]. destruct (head (retiring_list m)) as [r|] eqn:Eh.
    + assert (Hin : r ∈ retiring_list m) by (destruct (retiring_list m); [done|]; injection Eh as ->; left). apply (ri_retiring _ Hm) in Hin as (x & Hx & _).
      exists (Ret (Some (seq_num x))), m. split; [|by apply good_same]. rewrite (bind_ret _ _ m (seq_num x) m); [done|]. rewrite (bind_ret get _ m m m eq_refl), Eh. by rewrite (bind_ret _ _ _ _ _ (obj_read m r x Hx)).
    + exists Err, m. split; [|by apply good_same]. rewrite (bind_err _ _ m m); [done|]. by rewrite (bind_ret get _ m m m eq_refl), Eh.
  - exists (Ret None). destruct clear; [exists (set_preferred (preferred_rcid m) false (have_preferred_rcid m) m)|exists m]; (split; [done|]); apply good_same; try done. by apply rinv_preferred.
Qed.

(** ** Freeing the manager *)

Lemma free_obj_ok m r x : objs m !! r = Some x -> free_obj r m = (Ret tt, set_objs (delete r (objs m)) m).
Proof. intros Hx. unfold free_obj. cbn [mbind]. by rewrite (bind_ret _ _ _ _ _ (obj_read m r x Hx)). Qed.

(** The addresses in a queue. *)
Definition queued (q : PQ) (a : nat) : Prop := exists e s, PQueue.abs q !! e = Some (s, a).

Lemma free_queue_ok : forall fuel m, PQueue.pq_ok rcid_cmp (rcids m) -> (size (pq_abs m) <= fuel)%nat -> (forall a, queued (rcids m) a -> is_Some (objs m !! a)) ->
  (forall e e' s s' a, pq_abs m !! e = Some (s, a) -> pq_abs m !! e' = Some (s', a) -> e = e') ->
  exists m', free_queue fuel m = (Ret tt, m') /\ forall a x, objs m' !! a = Some x <-> objs m !! a = Some x /\ ~ queued (rcids m) a.
Proof.
  assert (Hdone : forall m q, pq_abs m = ∅ -> forall a x, objs (set_rcids q m) !! a = Some x <-> objs m !! a = Some x /\ ~ queued (rcids m) a).
  { intros m q E a x. split; [|by intros [? _]]. intros Hx. split; [done|]. intros (e & s & He). rewrite E in He. by rewrite lookup_empty in He. }
  induction fuel as [|fuel IH]; intros m Hq Hf Hin Hinj; cbn [free_queue]; destruct (PQueue.pop_simulates rcid_cmp (rcids m) Hq) as (out & q' & E & Hq' & Hs); cbn in E; unfold PQueue.catch in E;
    (destruct (PQueue.ossl_pqueue_pop (rcids m)) as [[d| |] q1] eqn:Ep; simplify_eq; inversion Hs as [| |A e d' He Hl EA Eo Er EA'|EA Eo Er EA'| | | | | | |]; simplify_eq);
    try (rewrite (bind_ret _ _ m None (set_rcids q' m)) by (unfold on_pq; by rewrite Ep); exists (set_rcids q' m); split; [done|by apply Hdone]).
  - assert (Hz : size (pq_abs m) = 0%nat) by lia. apply map_size_empty_iff in Hz. rewrite Hz in He. by rewrite lookup_empty in He.
  - destruct d' as [s r]. rewrite (bind_ret _ _ m (Some (s, r)) (set_rcids q' m)) by (unfold on_pq; by rewrite Ep). destruct (Hin r) as [x Hx]; [by exists e, s|].
    cbn [mbind]. rewrite (bind_ret _ _ _ _ _ (free_obj_ok (set_rcids q' m) r x Hx)). set (m1 := set_objs (delete r (objs m)) (set_rcids q' m)). change (set_objs _ _) with m1.
    assert (Hab : forall e' s' a, pq_abs m1 !! e' = Some (s', a) -> pq_abs m !! e' = Some (s', a) /\ a <> r).
    { intros e' s' a. change (pq_abs m1) with (PQueue.abs q'). match goal with H : _ = PQueue.abs q' |- _ => rewrite <- H end. intros [Hne He']%lookup_delete_Some. split; [done|]. intros ->. apply Hne. by eapply Hinj. }
    assert (Hsz : (size (pq_abs m1) <= fuel)%nat).
    { change (pq_abs m1) with (PQueue.abs q'). match goal with H : _ = PQueue.abs q' |- _ => rewrite <- H end. rewrite map_size_delete_Some by (by eexists). lia. }
    destruct (IH m1 Hq' Hsz) as (m' & E' & Hres).
    + intros a (e' & s' & [He' Hne]%Hab). cbn. rewrite lookup_delete_ne by done. apply Hin. by exists e', s'.
    + intros e1 e2 s1 s2 a [H1 _]%Hab [H2 _]%Hab. by eapply Hinj.
    + exists m'. split; [done|]. intros a y. rewrite (Hres a y). cbn [objs m1 set_objs set_rcids]. rewrite lookup_delete_Some. split; intros [Hy Hnq].
      2: { split; [split; [|done]|]; [intros <-; apply Hnq; by exists e, s|]. intros (e' & s' & [He' _]%Hab). apply Hnq. by exists e', s'. }
      destruct Hy as [Hne Hy]. split; [done|]. intros (e' & s' & He'). apply Hnq. exists e', s'.
      change (pq_abs m1) with (PQueue.abs q'). match goal with H : _ = PQueue.abs q' |- _ => rewrite <- H end. apply lookup_delete_Some. split; [|done]. intros <-. congruence.
Qed.

Lemma free_list_ok : forall l m, NoDup l -> (forall a, a ∈ l -> is_Some (objs m !! a)) -> exists m', free_list l m = (Ret tt, m') /\ forall a x, objs m' !! a = Some x <-> objs m !! a = Some x /\ a ∉ l.
Proof.
  induction l as [|r l IH]; intros m Hnd Hin; cbn [free_list].
  - exists m. split; [done|]. intros a x. split; [intros Hx; split; [done|apply not_elem_of_nil]|by intros [? _]].
  - apply NoDup_cons in Hnd as [Hr Hnd]. destruct (Hin r) as [x Hx]; [left|]. rewrite (bind_ret _ _ _ _ _ (free_obj_ok m r x Hx)). destruct (IH (set_objs (delete r (objs m)) m) Hnd) as (m' & E & Hres).
    + intros a Ha. cbn. rewrite lookup_delete_ne by (by intros <-). apply Hin. by right.
    + exists m'. split; [done|]. intros a y. rewrite (Hres a y). cbn [objs set_objs]. rewrite lookup_delete_Some, not_elem_of_cons. naive_solver.
Qed.

Lemma free_ok m : rinv m -> exists m', ossl_quic_rcidm_free m = (Ret tt, m') /\ objs m' = ∅.
Proof.
  intros Hm. unfold ossl_quic_rcidm_free. cbn [mbind]. rewrite (bind_ret get _ m m m eq_refl).
  assert (Hcur : exists m1, (match cur_rcid m with Some c => free_obj c | None => mret tt end) m = (Ret tt, m1) /\ rcids m1 = rcids m /\
    forall a x, objs m1 !! a = Some x <-> objs m !! a = Some x /\ cur_rcid m <> Some a).
  { destruct (cur_rcid m) as [c|] eqn:Ec; [|exists m; split_and!; [done|done|]; naive_solver]. pose proof Ec as (x & Hx & _)%(ri_cur _ Hm). exists (set_objs (delete c (objs m)) m).
    split_and!; [by apply (free_obj_ok _ _ x)|done|]. intros a y. cbn. rewrite lookup_delete_Some. naive_solver. }
  destruct Hcur as (m1 & E1 & Hq1 & H1). rewrite (bind_ret _ _ _ _ _ E1).
  assert (Hqd : forall a, queued (rcids m) a <-> exists x, objs m !! a = Some x /\ state x = RCID_STATE_PENDING).
  { intros a. split; [intros (e & s & He); destruct (ri_queue _ Hm e s a He) as (x & Hx & Hs & _); eauto|]. intros (x & Hx & Hs). destruct (ri_pending _ Hm a x Hx Hs) as (e & _ & He). by exists e, (seq_num x). }
  assert (Hncur : forall a x st, objs m !! a = Some x -> state x = st -> st <> RCID_STATE_CUR -> cur_rcid m <> Some a) by (intros a x st Hx <- Hs (y & Hy & ?)%(ri_cur _ Hm); by simplify_eq).
  destruct (free_queue_ok (PQueue.ossl_pqueue_num (rcids m)) m1) as (m2 & E2 & H2); rewrite ?Hq1.
  - apply Hm.
  - by rewrite pq_num by apply Hm.
  - intros a (x & Hx & Hs)%Hqd. exists x. apply H1. split; [done|]. by eapply Hncur.
  - intros e e' s s' a He He'. destruct (ri_queue _ Hm e s a He) as (x & Hx & _ & _ & Hi), (ri_queue _ Hm e' s' a He') as (x' & Hx' & _ & _ & Hi'). simplify_eq. lia.
  - rewrite (bind_ret _ _ _ _ _ E2). rewrite Hq1 in H2. destruct (free_list_ok (retiring_list m) m2) as (m3 & E3 & H3); [apply Hm| |].
    + intros a (x & Hx & Hs)%(ri_retiring _ Hm). exists x. apply H2. split; [apply H1; split; [done|by eapply Hncur]|]. intros (y & Hy & ?)%Hqd. simplify_eq. by rewrite Hs in *.
    + exists m3. split; [done|]. apply map_eq. intros a. rewrite lookup_empty. apply eq_None_not_Some. intros [x [[[Hx Hc]%H1 Hnq]%H2 Hnl]%H3].
      destruct (ob_state _ _ (ri_obj _ Hm a x Hx)) as [Hs|[Hs|Hs]]; [apply Hnq, Hqd; eauto|apply Hc, (ri_cur _ Hm); eauto|apply Hnl, (ri_retiring _ Hm); eauto].
Qed.

(** ** Reachable managers *)

Inductive reachable : QUIC_RCIDM -> Prop :=
| reach_new alloc alloc_q alloc_h alloc_e odcid m : ossl_quic_rcidm_new alloc alloc_q alloc_h alloc_e odcid = Ret (Some m) -> reachable m
| reach_step m o out m' : reachable m -> allowed m o -> exec o m = (out, m') -> reachable m'.

Lemma rcid_new_inv alloc alloc_q alloc_h alloc_e odcid m : ossl_quic_rcidm_new alloc alloc_q alloc_h alloc_e odcid = Ret (Some m) -> rinv m /\ settled m.
Proof.
  unfold ossl_quic_rcidm_new. destruct alloc; [|done]. cbn [negb]. destruct (PQueue.new_ok rcid_cmp) as (q & Eq & Hr).
  assert (Hpq : PQueue.ossl_pqueue_new (Some rcid_cmp) alloc_q alloc_h alloc_e = Ret (Some q) \/ PQueue.ossl_pqueue_new (Some rcid_cmp) alloc_q alloc_h alloc_e = Ret None) by (destruct alloc_q, alloc_h, alloc_e; auto).
  destruct Hpq as [-> | ->]; [|done]. set (m0 := mkRcidm _ _ _ _ _ _ _ _ _ _ _ _ _ _ _ _ _ _).
  assert (Hm0 : rinv m0).
  { pose proof (PQueue.abs_nil rcid_cmp q Hr) as Ha. split; cbn; rewrite ?Ha.
    - by exists [].
    - intros *. by rewrite lookup_empty.
    - intros *. by rewrite lookup_empty.
    - intros a. split; [done|]. intros (x & Hx & _). by rewrite lookup_empty in Hx.
    - constructor.
    - intros a. split; [by intros ?%not_elem_of_nil|]. intros (x & Hx & _). by rewrite lookup_empty in Hx.
    - done.
    - intros *. by rewrite lookup_empty.
    - by left.
    - done.
    - rewrite map_size_empty. lia. }
  destruct (update_ok m0 Hm0) as (m' & E & Hmv & Hch & _). rewrite E. intros [= <-]. split; [apply Hmv|by eapply chosen_settled].
Qed.

Lemma rcid_reach_inv m : reachable m -> rinv m /\ settled m.
Proof.
  induction 1 as [|m o out m' _ [Hm Hs] Ha E]; [by eapply rcid_new_inv|]. destruct (rcid_exec_ok m o Hm Hs Ha) as (out' & m1 & E1 & [_ H1 H2 _ _]). rewrite E in E1. simplify_eq. split; [done|by eapply chosen_settled].
Qed.

(** C20: no assertion of the connection ID manager fails: in every manager that its
    operations reach, each ID object passes every check of [rcidm_check_rcid] (it is
    pending exactly when it is in the queue, current exactly when the manager points to it,
    retiring exactly when it is in the list, and its number is in bounds and not below the
    watermark), the next operation is defined, and freeing the manager frees every object
    exactly once. *)
Theorem rcidm_assertions_hold m : reachable m ->
  (forall r x, objs m !! r = Some x -> rcidm_check_rcid r m = (Ret tt, m)) /\
  (forall o, allowed m o -> fst (exec o m) <> Undef /\ reachable (snd (exec o m))) /\
  (exists m', ossl_quic_rcidm_free m = (Ret tt, m') /\ objs m' = ∅).
Proof.
  intros Hr. destruct (rcid_reach_inv m Hr) as [Hm Hs]. split_and!; [intros r x Hx; by apply (check_ok m r x)| |by apply free_ok]. intros o Ha. destruct (rcid_exec_ok m o Hm Hs Ha) as (out & m' & E & Hg).
  rewrite E. split; [apply Hg|]. by eapply reach_step.
Qed.

(** C21: the life of a connection ID: an operation keeps every ID object with its number
    and moves it only forward (pending, current, retiring), or frees it, which happens only
    when it is the first of the retiring ones and its number is popped; new objects come
    only from the operations that add an ID, with the number and the ID they were given;
    IDs are retired in order; and the number of active IDs reported is that of the
    objects. *)
Theorem rcidm_lifecycle m o out m' : reachable m -> allowed m o -> exec o m = (out, m') ->
  lifecycle m o out m' /\ ossl_quic_rcidm_get_num_active m' = Z.of_nat (size (objs m')).
Proof.
  intros Hr Ha E. destruct (rcid_reach_inv m Hr) as [Hm Hs]. destruct (rcid_exec_ok m o Hm Hs Ha) as (out' & m1 & E1 & Hg). rewrite E in E1. simplify_eq. split; [apply Hg|]. pose proof (gs_inv _ _ _ _ Hg) as Hm'.
  unfold ossl_quic_rcidm_get_num_active, ossl_quic_rcidm_get_num_retiring. rewrite pq_num by apply Hm'. rewrite (ri_num _ Hm'). pose proof (ri_size _ Hm') as Esz. pose proof (ri_few _ Hm'). unfold cur_count in Esz.
  destruct (is_null _); rewrite u64_id by (unfold is_u64; lia); lia.
Qed.

(** C22: the choice of the connection ID to send with: after every operation a numbered ID
    is current whenever there is one that is not retiring, and one that becomes current has
    the least sequence number of those available; the ID to send with is recorded and marked
    as present, and is that of the current numbered one, or without one that of the
    handshake (the Retry packet's before the client's own) until it is complete, or none;
    the mark stays off only if it was off before the operation and the ID recorded then is
    the one wanted now ([rcidm_preferred_lost] shows that this happens); and no ID below the
    watermark, which only grows, is current or pending. *)
Theorem rcidm_policy m o out m' : reachable m -> allowed m o -> exec o m = (out, m') ->
  chosen m m' /\ retire_prior_to m <= retire_prior_to m' /\ (forall a x, objs m' !! a = Some x -> state x <> RCID_STATE_RETIRING -> retire_prior_to m' <= seq_num x).
Proof.
  intros Hr Ha E. destruct (rcid_reach_inv m Hr) as [Hm Hs]. destruct (rcid_exec_ok m o Hm Hs Ha) as (out' & m1 & E1 & Hg). rewrite E in E1. simplify_eq. split_and!; [apply Hg|apply Hg|].
  intros a x Hx Hn. by destruct (ob_rpt _ _ (ri_obj _ (gs_inv _ _ _ _ Hg) a x Hx)).
Qed.

(** ** A sample *)

Definition sample_cid (n : Z) : QUIC_CONN_ID := QuicWire.mkConnId 8 (replicate 8 n ++ replicate 12 0).
Definition sample_ncid (sn rpt : Z) : QuicWire.OSSL_QUIC_FRAME_NEW_CONN_ID := QuicWire.mkNewConnId sn rpt (sample_cid sn) (replicate 16 0).

Definition sample_new : QUIC_RCIDM :=
  match ossl_quic_rcidm_new true true true true (Some (sample_cid 99)) with
  | Ret (Some m) => m
  | _ => mkRcidm ∅ zero_cid zero_cid zero_cid 0 0 0 (PQueue.mkPq [] [] rcid_cmp 0 0 0) None [] 0 false false false false false false false
  end.

Lemma sample_new_reachable : reachable sample_new.
Proof. apply (reach_new true true true true (Some (sample_cid 99))). by vm_compute. Qed.

Fixpoint run (ops : list op) (m : QUIC_RCIDM) : QUIC_RCIDM := match ops with [] => m | o :: ops => run ops (snd (exec o m)) end.
Fixpoint allowed_all (ops : list op) (m : QUIC_RCIDM) : bool :=
  match ops with
  | [] => true
  | o :: ops => match o with AddInitial (Some r) _ _ _ | AddNcid (Some r) _ _ _ => is_null (objs m !! r) | _ => true end && allowed_all ops (snd (exec o m))
  end.

Lemma rcid_run_reachable ops m : reachable m -> allowed_all ops m = true -> reachable (run ops m).
Proof.
  induction ops as [|o ops IH] in m |- *; cbn [run allowed_all]; [done|]. intros Hr [Ha Hall]%andb_true_iff. apply IH; [|done]. eapply reach_step; [done| |apply surjective_pairing].
  destruct o as [[r|]| |[r|]| | | | | |]; cbn; try done; by destruct (objs m !! r).
Qed.

(** The handshake of a client, and IDs 3, 2 and 1 that arrive in the wrong order. *)
Definition sample_ops : list op :=
  [AddInitial (Some 0%nat) true true (sample_cid 0); HandshakeComplete; AddNcid (Some 3%nat) true true (sample_ncid 3 0); AddNcid (Some 2%nat) true true (sample_ncid 2 0);
   AddNcid (Some 1%nat) true true (sample_ncid 1 1)].
Definition sample : QUIC_RCIDM := run sample_ops sample_new.

Lemma rcid_sample_reachable : reachable sample.
Proof. apply rcid_run_reachable; [apply sample_new_reachable|by vm_compute]. Qed.

Lemma rcidm_assertions_hold_witness :
  (forall r x, objs sample !! r = Some x -> rcidm_check_rcid r sample = (Ret tt, sample)) /\
  (forall o, allowed sample o -> fst (exec o sample) <> Undef /\ reachable (snd (exec o sample))) /\
  (exists m', ossl_quic_rcidm_free sample = (Ret tt, m') /\ objs m' = ∅).
Proof. apply (rcidm_assertions_hold sample rcid_sample_reachable). Defined.

Lemma rcidm_lifecycle_witness : lifecycle sample PopRetire (fst (exec PopRetire sample)) (snd (exec PopRetire sample)) /\
  ossl_quic_rcidm_get_num_active (snd (exec PopRetire sample)) = Z.of_nat (size (objs (snd (exec PopRetire sample)))).
Proof. apply (rcidm_lifecycle sample PopRetire); [exact rcid_sample_reachable|done|apply surjective_pairing]. Defined.

Lemma rcidm_policy_witness : let m' := snd (exec RequestRoll sample) in
  chosen sample m' /\ retire_prior_to sample <= retire_prior_to m' /\ (forall a x, objs m' !! a = Some x -> state x <> RCID_STATE_RETIRING -> retire_prior_to m' <= seq_num x).
Proof. apply (rcidm_policy sample RequestRoll (fst (exec RequestRoll sample))); [exact rcid_sample_reachable|done|apply surjective_pairing]. Defined.

(** ** A departure *)

(** A connection ID that was preferred, and has to be given up, cannot be preferred
    again: setting it finds it unchanged and leaves the mark that there is none.  A client
    whose original ID is all it has completes the handshake, and the server then issues
    that ID: it becomes current, but the manager says it has no ID to send with. *)
Theorem rcidm_preferred_lost :
  let m := run [HandshakeComplete; AddNcid (Some 1%nat) true true (QuicWire.mkNewConnId 1 0 (sample_cid 99) (replicate 16 0))] sample_new in
  reachable m /\ (exists a x, cur_rcid m = Some a /\ objs m !! a = Some x /\ cid x = sample_cid 99) /\ fst (ossl_quic_rcidm_get_preferred_tx_dcid m) = Err.
Proof.
  split; [apply rcid_run_reachable; [apply sample_new_reachable|by vm_compute]|]. split; [|by vm_compute]. exists 1%nat. eexists. split_and!; [by vm_compute|vm_compute; reflexivity|by vm_compute].
Qed.
End RcidmSpec.
