(* ===== verification/RingBuf.v ===== *)
(** * Ring buffers

    Model of [include/internal/ring_buf.h]: the bytes of a QUIC stream between
    the logical offsets [ctail_offset] and [head_offset], kept in a block of
    [alloc] bytes at their offset modulo [alloc].  [rb_start] holds the bytes of
    the block ([[]] when [start] is null); an access outside it, and a division
    by an [alloc] of zero, are undefined.  A pointer into the block is its
    index. *)
From Stdlib Require Import ZArith Lia.
From stdpp Require Import base tactics list.
From S2P Require Import Prelude SafeMath.
#[local] Open Scope Z_scope.

Module RingBuf.

Record ring_buf := mkRb { rb_start : list Z; alloc : Z; head_offset : Z; ctail_offset : Z }.

Definition MAX_OFFSET : Z := Z.shiftl 1 62.

Definition ring_buf_init : ring_buf := mkRb [] 0 0 0.
Definition ring_buf_destroy (r : ring_buf) : ring_buf := mkRb [] 0 (head_offset r) (ctail_offset r).
Definition ring_buf_used (r : ring_buf) : Z := u64 (head_offset r - ctail_offset r).
Definition ring_buf_avail (r : ring_buf) : Z := u64 (alloc r - ring_buf_used r).

Definition set_head (v : Z) (r : ring_buf) : ring_buf := mkRb (rb_start r) (alloc r) v (ctail_offset r).
Definition set_ctail (v : Z) (r : ring_buf) : ring_buf := mkRb (rb_start r) (alloc r) (head_offset r) v.
Definition set_start (l : list Z) (r : ring_buf) : ring_buf :=
  mkRb l (alloc r) (head_offset r) (ctail_offset r).

(** [l] with the bytes [bs] at [i]. *)
Definition splice (l : list Z) (i : nat) (bs : list Z) : list Z :=
  take i l ++ bs ++ drop (i + length bs) l.

(** [memcpy(start + idx, buf, l)]. *)
Definition copy_in (idx l : Z) (buf : list Z) : M ring_buf unit := fun r =>
  if (idx + l <=? Z.of_nat (length (rb_start r))) && (l <=? Z.of_nat (length buf))
  then (Ret tt, set_start (splice (rb_start r) (Z.to_nat idx) (take (Z.to_nat l) buf)) r)
  else (Undef, r).

(** [logical_offset % r->alloc]. *)
Definition index_of (logical_offset : Z) : M ring_buf Z := fun r =>
  if alloc r =? 0 then (Undef, r) else (Ret (logical_offset mod alloc r), r).

(** At most [n] rounds; what is left of [buf_len]. *)
Fixpoint write_loop (n : nat) (logical_offset : Z) (buf : list Z) (buf_len : Z) : M ring_buf Z :=
  match n with
  | O => mret buf_len
  | S n =>
      if 0 <? buf_len then
        idx ← index_of logical_offset;
        r ← get;
        let l := alloc r - idx in
        let l := if buf_len <? l then buf_len else l in
        copy_in idx l buf;;
        modify (fun r => if head_offset r <? u64 (logical_offset + l)
                         then set_head (u64 (logical_offset + l)) r else r);;
        write_loop n (u64 (logical_offset + l)) (drop (Z.to_nat l) buf) (u64 (buf_len - l))
      else mret buf_len
  end.

Definition ring_buf_write_at (logical_offset : Z) (buf : list Z) (buf_len : Z) : M ring_buf unit :=
  r ← get;
  let avail := ring_buf_avail r in
  let '(a, e1) := SafeMath.safe_add 64 logical_offset buf_len in
  let '(b, e2) := SafeMath.safe_add 64 (head_offset r) avail in
  let '(c, e3) := SafeMath.safe_add 64 (head_offset r) buf_len in
  guard_ (negb ((logical_offset <? ctail_offset r) || (b <? a) || (MAX_OFFSET <? c) || (e1 || e2 || e3)));;
  left ← write_loop 2 logical_offset buf buf_len;
  if left =? 0 then mret tt else undefined.

Fixpoint push_loop (fuel : nat) (buf : list Z) (buf_len pushed : Z) : M ring_buf Z :=
  match fuel with
  | O => undefined
  | S fuel =>
      r ← get;
      let avail := ring_buf_avail r in
      let buf_len := if avail <? buf_len then avail else buf_len in
      let buf_len := if u64 (MAX_OFFSET - head_offset r) <? buf_len
                     then u64 (MAX_OFFSET - head_offset r) else buf_len in
      if buf_len =? 0 then mret pushed
      else
        idx ← index_of (head_offset r);
        let l := alloc r - idx in
        let l := if buf_len <? l then buf_len else l in
        copy_in idx l buf;;
        modify (fun r => set_head (u64 (head_offset r + l)) r);;
        push_loop fuel (drop (Z.to_nat l) buf) (u64 (buf_len - l)) (u64 (pushed + l))
  end.

(** Every round but the last copies at least one byte. *)
Definition ring_buf_push (buf : list Z) (buf_len : Z) : M ring_buf Z :=
  push_loop (S (Z.to_nat buf_len)) buf buf_len 0.

(** The index of the byte, and [*max_len]. *)
Definition ring_buf_get_ptr (r : ring_buf) (logical_offset : Z) : res (option (Z * Z)) :=
  if (head_offset r <=? logical_offset) || (logical_offset <? ctail_offset r) then Ret None
  else if alloc r =? 0 then Undef
  else let idx := logical_offset mod alloc r in Ret (Some (idx, alloc r - idx)).

(** [*buf] and [*buf_len]. *)
Definition ring_buf_get_buf_at (r : ring_buf) (logical_offset : Z) : option (Z * Z) :=
  if (head_offset r <? logical_offset) || (logical_offset <? ctail_offset r) then None
  else if alloc r =? 0 then Some (0, 0)
  else
    let idx := logical_offset mod alloc r in
    let l := u64 (head_offset r - logical_offset) in
    Some (idx, if alloc r - idx <? l then alloc r - idx else l).

(** [OPENSSL_cleanse(start + idx, l)]. *)
Definition wipe (idx l : Z) : M ring_buf unit := copy_in idx l (replicate (Z.to_nat l) 0).

Definition ring_buf_cpop_range (start end_ : Z) (cleanse : bool) : M ring_buf unit :=
  (if start <=? end_ then mret tt else undefined);;
  r ← get;
  if (ctail_offset r <? start) || (MAX_OFFSET <=? end_) then mret tt
  else
    (if cleanse && (0 <? alloc r) && (ctail_offset r <? end_) then
       let idx := ctail_offset r mod alloc r in
       let cleanse_end := if head_offset r <? u64 (end_ + 1) then head_offset r else u64 (end_ + 1) in
       let l := u64 (cleanse_end - ctail_offset r) in
       if alloc r - idx <? l then
         wipe idx (alloc r - idx);;
         let l := u64 (l - (alloc r - idx)) in
         if 0 <? l then wipe 0 l else mret tt
       else if 0 <? l then wipe idx l else mret tt
     else mret tt);;
    modify (set_ctail (u64 (end_ + 1)));;
    modify (fun r => if head_offset r <? ctail_offset r then set_head (ctail_offset r) r else r).

(** The copying loop of [ring_buf_resize]: from [r] into [rnew]. *)
Fixpoint resize_loop (fuel : nat) (r : ring_buf) (copied : Z) : M ring_buf unit :=
  match fuel with
  | O => undefined
  | S fuel =>
      match ring_buf_get_buf_at r (u64 (ctail_offset r + copied)) with
      | None => fail
      | Some (src, src_len) =>
          if src_len =? 0 then mret tt
          else
            n ← ring_buf_push (drop (Z.to_nat src) (rb_start r)) src_len;
            guard_ (n =? src_len);;
            resize_loop fuel r (u64 (copied + src_len))
      end
  end.

(** [alloc_ok]: whether the allocation succeeds; [OPENSSL_malloc(0)] does not.
    The contents of new memory are not read before they are written; here they
    are zero. *)
Definition ring_buf_resize (alloc_ok : bool) (num_bytes : Z) : M ring_buf unit :=
  r ← get;
  if num_bytes =? alloc r then mret tt
  else
    guard_ (negb (num_bytes <? ring_buf_used r));;
    guard_ (alloc_ok && negb (num_bytes =? 0));;
    let base := u64 (head_offset r - ring_buf_used r) in
    match resize_loop (S (S (Z.to_nat (ring_buf_used r)))) r 0
            (mkRb (replicate (Z.to_nat num_bytes) 0) num_bytes base base) with
    | (Ret _, rnew) =>
        if head_offset rnew =? head_offset r then put (set_ctail (ctail_offset r) rnew) else undefined
    | (Err, _) => fail
    | (Undef, _) => undefined
    end.

(** ** Specification *)

Record rb_ok (r : ring_buf) : Prop := {
  rb_order : 0 <= ctail_offset r <= head_offset r;
  rb_max : head_offset r <= MAX_OFFSET;
  rb_fits : head_offset r - ctail_offset r <= alloc r;
  rb_len : Z.of_nat (length (rb_start r)) = alloc r;
  rb_alloc : alloc r < 2 ^ 63
}.

(** The byte at a logical offset of the window the block can hold. *)
Definition byte_at (r : ring_buf) (k : Z) : option Z := rb_start r !! Z.to_nat (k mod alloc r).
Definition in_window (r : ring_buf) (k : Z) : Prop := ctail_offset r <= k < ctail_offset r + alloc r.

Lemma max_offset_val : MAX_OFFSET = 2 ^ 62.
Proof. reflexivity. Qed.

Lemma mod_near a x y : 0 < a -> Z.abs (x - y) < a -> x mod a = y mod a -> x = y.
Proof.
  intros Ha Hd He. pose proof (Z.div_mod x a ltac:(lia)). pose proof (Z.div_mod y a ltac:(lia)).
  assert (x / a = y / a) by nia. lia.
Qed.

Lemma mod_step a x j : 0 < a -> 0 <= j < a - x mod a -> (x + j) mod a = x mod a + j.
Proof.
  intros Ha Hj. pose proof (Z.mod_pos_bound x a Ha).
  rewrite Z.add_mod, (Z.mod_small j) by lia. apply Z.mod_small. lia.
Qed.

Lemma length_splice l i bs :
  (i + length bs <= length l)%nat -> length (splice l i bs) = length l.
Proof. intros. unfold splice. rewrite !length_app, length_take, length_drop. lia. Qed.

Lemma lookup_splice l i bs k :
  (i + length bs <= length l)%nat ->
  splice l i bs !! k = if decide (i <= k < i + length bs)%nat then bs !! (k - i)%nat else l !! k.
Proof.
  intros Hl. unfold splice. case_decide as Hk.
  - rewrite lookup_app_r, length_take_le by (rewrite ?length_take; lia). apply lookup_app_l. lia.
  - destruct (decide (k < i)%nat).
    + rewrite lookup_app_l, lookup_take_lt by (rewrite ?length_take; lia). done.
    + rewrite lookup_app_r, length_take_le by (rewrite ?length_take; lia).
      rewrite lookup_app_r, lookup_drop by lia. f_equal. lia.
Qed.

(** Copying the bytes [bs], which do not wrap, to the offset [off]: what the
    window holds afterwards. *)
Lemma copy_in_ok r off l buf :
  rb_ok r -> 0 < l <= Z.of_nat (length buf) -> ctail_offset r <= off ->
  off + l <= ctail_offset r + alloc r -> l <= alloc r - off mod alloc r ->
  exists st, copy_in (off mod alloc r) l buf r = (Ret tt, set_start st r) /\
    length st = length (rb_start r) /\
    forall k, in_window r k -> st !! Z.to_nat (k mod alloc r) =
      if decide (off <= k < off + l) then buf !! Z.to_nat (k - off) else byte_at r k.
Proof.
  intros [Ho Hm Hf Hlen Ha] Hl Hoff Hend Hwrap.
  assert (Hpos : 0 < alloc r) by lia. pose proof (Z.mod_pos_bound off (alloc r) Hpos) as Hidx.
  set (idx := off mod alloc r) in *. unfold copy_in.
  destruct (Z.leb_spec (idx + l) (Z.of_nat (length (rb_start r)))); [|lia].
  destruct (Z.leb_spec l (Z.of_nat (length buf))); [|lia]. cbn [andb].
  eexists. split; [reflexivity|]. assert (Htk : length (take (Z.to_nat l) buf) = Z.to_nat l)
    by (rewrite length_take; lia).
  split; [apply length_splice; lia|]. intros k Hk. unfold in_window in Hk.
  rewrite lookup_splice by lia. pose proof (Z.mod_pos_bound k (alloc r) Hpos) as Hkm.
  unfold byte_at. rewrite Htk. destruct (decide (off <= k < off + l)) as [Hin|Hout].
  - assert (E : k mod alloc r = idx + (k - off)).
    { unfold idx. rewrite <- mod_step by lia. f_equal. lia. }
    rewrite decide_True by lia. rewrite lookup_take_lt by lia. f_equal. lia.
  - rewrite decide_False; [done|]. intros Hin.
    assert (E : k mod alloc r = (off + (k mod alloc r - idx)) mod alloc r) by (rewrite mod_step; lia).
    apply mod_near in E; lia.
Qed.

(** [r'] is [r] with [bs] written at [off]. *)
Record wrote (r r' : ring_buf) (off : Z) (bs : list Z) : Prop := {
  wrote_ok : rb_ok r';
  wrote_alloc : alloc r' = alloc r;
  wrote_ctail : ctail_offset r' = ctail_offset r;
  wrote_head : head_offset r' =
    if decide (bs = []) then head_offset r else Z.max (head_offset r) (off + Z.of_nat (length bs));
  wrote_bytes : forall k, in_window r k -> byte_at r' k =
    if decide (off <= k < off + Z.of_nat (length bs)) then bs !! Z.to_nat (k - off) else byte_at r k
}.

Lemma wrote_nil r off : rb_ok r -> wrote r r off [].
Proof. intros Hr. split; try done. intros k Hk. rewrite decide_False by (cbn; lia). done. Qed.

(** One round of either loop. *)
Lemma chunk_ok r off l buf :
  rb_ok r -> 0 < l <= Z.of_nat (length buf) -> ctail_offset r <= off ->
  off + l <= ctail_offset r + alloc r -> l <= alloc r - off mod alloc r -> off + l <= MAX_OFFSET ->
  exists st, copy_in (off mod alloc r) l buf r = (Ret tt, set_start st r) /\
    forall h, h = Z.max (head_offset r) (off + l) ->
    wrote r (set_head h (set_start st r)) off (take (Z.to_nat l) buf).
Proof.
  intros Hr Hl Hoff Hend Hwrap Hmax.
  destruct (copy_in_ok r off l buf Hr Hl Hoff Hend Hwrap) as (st & E & Hst & Hb).
  exists st. split; [done|]. intros h ->.
  assert (Htk : length (take (Z.to_nat l) buf) = Z.to_nat l) by (rewrite length_take; lia).
  destruct Hr as [Ho Hm Hf Hlen Ha]. split; cbn; [split; cbn; lia|done|done| |].
  - rewrite decide_False, Htk by (intros E0; rewrite E0 in Htk; cbn in Htk; lia). f_equal. lia.
  - intros k Hk. rewrite Htk, Z2Nat.id by lia. unfold byte_at at 1. cbn. rewrite Hb by done.
    case_decide; [|done]. by rewrite lookup_take_lt by lia.
Qed.

Lemma wrote_app r r1 r2 off bs1 bs2 :
  0 <= ctail_offset r -> wrote r r1 off bs1 -> wrote r1 r2 (off + Z.of_nat (length bs1)) bs2 ->
  wrote r r2 off (bs1 ++ bs2).
Proof.
  intros Hc [Ho1 Ha1 Hc1 Hh1 Hb1] [Ho2 Ha2 Hc2 Hh2 Hb2]. split; [done|congruence|congruence| |].
  - rewrite Hh2, Hh1, length_app. destruct bs1, bs2; cbn [app length]; repeat case_decide; try done; lia.
  - intros k Hk. rewrite Hb2 by (unfold in_window in *; rewrite Ha1, Hc1; done). rewrite Hb1 by done.
    rewrite length_app. clear Hh1 Hh2 Hb1 Hb2. repeat case_decide; try lia.
    + rewrite lookup_app_r by lia. f_equal. lia.
    + rewrite lookup_app_l by lia. done.
    + done.
Qed.

(** What is written at [off] ends before [lim]. *)
Definition writable (r : ring_buf) (off n : Z) : Prop :=
  ctail_offset r <= off /\ off + n <= ctail_offset r + alloc r /\ off + n <= MAX_OFFSET.

Lemma write_loop_ok n : forall r off buf,
  rb_ok r -> writable r off (Z.of_nat (length buf)) ->
  (buf <> [] -> Z.of_nat (length buf) <= Z.of_nat n * alloc r - off mod alloc r) ->
  exists r', write_loop n off buf (Z.of_nat (length buf)) r = (Ret 0, r') /\ wrote r r' off buf.
Proof.
  induction n as [|n IH]; intros r off buf Hr (Hlo & Hhi & Hmax) Hn; cbn [write_loop].
  { destruct (decide (buf = [])) as [->|Hne]; [exists r; split; [done|by apply wrote_nil]|].
    specialize (Hn Hne). destruct buf; [done|]. pose proof (Z.mod_pos_bound off (alloc r)). destruct Hr.
    cbn in *. lia. }
  destruct (Z.ltb_spec 0 (Z.of_nat (length buf))) as [Hpos|Hz].
  2: { destruct buf; [|cbn in Hz; lia]. exists r. split; [done|]. by apply wrote_nil. }
  pose proof Hr as [Ho Hm Hf Hlen Ha]. pose proof max_offset_val.
  assert (Hal : 0 < alloc r) by lia. pose proof (Z.mod_pos_bound off (alloc r) Hal) as Hidx.
  rewrite (bind_ret (index_of off) _ r (off mod alloc r) r)
    by (unfold index_of; destruct (Z.eqb_spec (alloc r) 0); [lia|done]).
  rewrite (bind_ret get _ r r r) by done. cbv zeta.
  set (l := if Z.of_nat (length buf) <? alloc r - off mod alloc r then Z.of_nat (length buf)
            else alloc r - off mod alloc r).
  assert (Hl : 0 < l <= Z.of_nat (length buf) /\ l <= alloc r - off mod alloc r /\
    (l = Z.of_nat (length buf) \/ l = alloc r - off mod alloc r)) by (unfold l; zcase; lia).
  destruct (chunk_ok r off l buf) as (st & E & Hw); [done|lia..|]. rewrite (bind_ret _ _ _ _ _ E).
  erewrite bind_ret by reflexivity. cbn [head_offset set_start].
  rewrite (u64_id (off + l)) by (unfold is_u64; lia).
  rewrite (u64_id (Z.of_nat (length buf) - l)) by (unfold is_u64; lia).
  replace (if head_offset r <? off + l then set_head (off + l) (set_start st r) else set_start st r)
    with (set_head (Z.max (head_offset r) (off + l)) (set_start st r)).
  2: { destruct (Z.ltb_spec (head_offset r) (off + l)); [by rewrite Z.max_r by lia|].
       rewrite Z.max_l by lia. by destruct r. }
  specialize (Hw _ eq_refl). set (r1 := set_head _ _) in *.
  assert (Hdl : Z.of_nat (length buf) - l = Z.of_nat (length (drop (Z.to_nat l) buf)))
    by (rewrite length_drop; lia).
  rewrite Hdl. destruct (IH r1 (off + l) (drop (Z.to_nat l) buf)) as (r2 & E2 & Hw2).
  - apply Hw.
  - unfold writable. cbn. lia.
  - intros Hne. assert (Hbuf : buf <> []) by (intros ->; by rewrite drop_nil in Hne). specialize (Hn Hbuf).
    cbn. rewrite <- Hdl. destruct Hl as (_ & _ & [El|El]).
    { destruct (drop (Z.to_nat l) buf); [done|]. cbn in Hdl. lia. }
    replace ((off + l) mod alloc r) with 0; [nia|].
    rewrite El. symmetry. apply Z.mod_divide; [lia|]. exists (off / alloc r + 1).
    pose proof (Z.div_mod off (alloc r) ltac:(lia)). nia.
  - exists r2. split; [done|]. rewrite <- (take_drop (Z.to_nat l) buf) at 1.
    eapply wrote_app; [lia|exact Hw|]. rewrite length_take.
    replace (off + Z.of_nat (Z.to_nat l `min` length buf)) with (off + l) by lia. done.
Qed.

Lemma used_val r : rb_ok r -> ring_buf_used r = head_offset r - ctail_offset r.
Proof. intros [Ho Hm Hf Hlen Ha]. pose proof max_offset_val. unfold ring_buf_used. u64_simpl. done. Qed.

Lemma avail_val r : rb_ok r -> ring_buf_avail r = alloc r - (head_offset r - ctail_offset r).
Proof. intros Hr. unfold ring_buf_avail. rewrite used_val by done. destruct Hr. u64_simpl. done. Qed.

Lemma safe_add_val a b : 0 <= a -> 0 <= b -> a + b < 2 ^ 64 -> SafeMath.safe_add 64 a b = (a + b, false).
Proof.
  intros. assert (Hm : SafeMath.modulus 64 = 2 ^ 64) by done.
  rewrite SafeMath.safe_add_eq by (unfold SafeMath.is_uint; rewrite Hm; lia).
  unfold SafeMath.safe_add_builtin, SafeMath.max. rewrite Hm. by destruct (Z.leb_spec (a + b) (2 ^ 64 - 1)); [|lia].
Qed.

(** Whether a block is accepted; the check against [MAX_OFFSET] is made with
    the head, not with the end of the block. *)
Definition accepts (r : ring_buf) (off n : Z) : bool :=
  (ctail_offset r <=? off) && (off + n <=? ctail_offset r + alloc r) && (head_offset r + n <=? MAX_OFFSET).

Lemma write_at_ok r off buf :
  rb_ok r -> 0 <= off -> off + Z.of_nat (length buf) <= MAX_OFFSET ->
  exists r', ring_buf_write_at off buf (Z.of_nat (length buf)) r =
      (if accepts r off (Z.of_nat (length buf)) then Ret tt else Err, r') /\
    if accepts r off (Z.of_nat (length buf)) then wrote r r' off buf else r' = r.
Proof.
  intros Hr Hoff Hend. pose proof Hr as [Ho Hm Hf Hlen Ha]. pose proof max_offset_val.
  set (n := Z.of_nat (length buf)) in *. unfold ring_buf_write_at. rewrite (bind_ret get _ r r r) by done.
  rewrite avail_val by done. rewrite !safe_add_val by lia. cbn [orb].
  replace (head_offset r + (alloc r - (head_offset r - ctail_offset r))) with (ctail_offset r + alloc r) by lia.
  unfold accepts.
  destruct (Z.leb_spec (ctail_offset r) off), (Z.ltb_spec off (ctail_offset r)); try lia; cbn [andb orb negb];
    [|exists r; by rewrite guard_false].
  destruct (Z.leb_spec (off + n) (ctail_offset r + alloc r)), (Z.ltb_spec (ctail_offset r + alloc r) (off + n));
    try lia; cbn [andb orb negb]; [|exists r; by rewrite guard_false].
  destruct (Z.leb_spec (head_offset r + n) MAX_OFFSET), (Z.ltb_spec MAX_OFFSET (head_offset r + n));
    try lia; cbn [andb orb negb]; [|exists r; by rewrite guard_false].
  rewrite guard_true by done.
  destruct (write_loop_ok 2 r off buf Hr) as (r' & E & Hw); [unfold writable; lia| |].
  { intros Hne. assert (0 < n) by (unfold n; destruct buf; [done|]; cbn [length]; lia).
    pose proof (Z.mod_pos_bound off (alloc r)). unfold n in *. lia. }
  rewrite (bind_ret _ _ _ _ _ E). by exists r'.
Qed.

(** Pushing appends as much as fits. *)
Definition pushable (r : ring_buf) (n : Z) : Z :=
  Z.min n (Z.min (alloc r - (head_offset r - ctail_offset r)) (MAX_OFFSET - head_offset r)).

Lemma push_loop_ok fuel : forall r buf n pushed,
  rb_ok r -> 0 <= n <= Z.of_nat (length buf) -> n < Z.of_nat fuel -> 0 <= pushed -> pushed + n < 2 ^ 64 ->
  exists r', push_loop fuel buf n pushed r = (Ret (pushed + pushable r n), r') /\
    wrote r r' (head_offset r) (take (Z.to_nat (pushable r n)) buf).
Proof.
  induction fuel as [|fuel IH]; intros r buf n pushed Hr Hn Hf Hp Hp2; [lia|]. cbn [push_loop].
  pose proof Hr as [Ho Hm Hfit Hlen Ha]. pose proof max_offset_val.
  rewrite (bind_ret get _ r r r) by done. rewrite avail_val by done.
  rewrite !(u64_id (MAX_OFFSET - head_offset r)) by (unfold is_u64; lia). cbv zeta.
  match goal with |- context [if ?x =? 0 then _ else _] => assert (Hx : x = pushable r n) end.
  { unfold pushable. repeat zcase; lia. }
  rewrite !Hx. set (m := pushable r n) in *.
  assert (Hm0 : 0 <= m <= n /\ m <= alloc r - (head_offset r - ctail_offset r) /\ m <= MAX_OFFSET - head_offset r)
    by (unfold m, pushable; lia).
  destruct (Z.eqb_spec m 0) as [->|Hnz].
  { exists r. rewrite Z.add_0_r. split; [done|]. by apply wrote_nil. }
  assert (Hal : 0 < alloc r) by lia. pose proof (Z.mod_pos_bound (head_offset r) (alloc r) Hal) as Hidx.
  rewrite (bind_ret (index_of _) _ r (head_offset r mod alloc r) r)
    by (unfold index_of; destruct (Z.eqb_spec (alloc r) 0); [lia|done]).
  set (l := if m <? alloc r - head_offset r mod alloc r then m else alloc r - head_offset r mod alloc r).
  assert (Hl : 0 < l <= m /\ l <= alloc r - head_offset r mod alloc r) by (unfold l; zcase; lia).
  destruct (chunk_ok r (head_offset r) l buf) as (st & E & Hw); [done|lia..|].
  rewrite (bind_ret _ _ _ _ _ E). erewrite bind_ret by reflexivity. cbn [head_offset set_start].
  rewrite (u64_id (head_offset r + l)), (u64_id (m - l)), (u64_id (pushed + l)) by (unfold is_u64; lia).
  specialize (Hw (head_offset r + l) ltac:(lia)). set (r1 := set_head _ _) in *.
  destruct (IH r1 (drop (Z.to_nat l) buf) (m - l) (pushed + l)) as (r2 & E2 & Hw2);
    [apply Hw|rewrite length_drop; lia|lia..|].
  assert (Hrest : pushable r1 (m - l) = m - l) by (unfold pushable; cbn; lia).
  rewrite Hrest in E2, Hw2. exists r2. split; [rewrite E2; do 2 f_equal; lia|].
  replace (take (Z.to_nat m) buf) with (take (Z.to_nat l) buf ++ take (Z.to_nat (m - l)) (drop (Z.to_nat l) buf)).
  2: { replace (Z.to_nat m) with (Z.to_nat l + Z.to_nat (m - l))%nat by lia. apply take_take_drop. }
  eapply wrote_app; [lia|exact Hw|]. rewrite length_take.
  replace (head_offset r + Z.of_nat (Z.to_nat l `min` length buf)) with (head_offset r1) by (cbn; lia). done.
Qed.

Lemma ring_push_ok r buf n :
  rb_ok r -> 0 <= n <= Z.of_nat (length buf) -> n < 2 ^ 63 ->
  exists r', ring_buf_push buf n r = (Ret (pushable r n), r') /\
    wrote r r' (head_offset r) (take (Z.to_nat (pushable r n)) buf).
Proof. intros Hr Hn Hlt. unfold ring_buf_push. apply (push_loop_ok _ r buf n 0); [done|lia..]. Qed.

(** The bytes of [r] from [lo] up to [hi] are those of [r']. *)
Definition keeps (r r' : ring_buf) (lo hi : Z) : Prop := forall k, lo <= k < hi -> byte_at r' k = byte_at r k.

Lemma wipe_ok r off l :
  rb_ok r -> 0 < l -> ctail_offset r <= off -> off + l <= ctail_offset r + alloc r ->
  l <= alloc r - off mod alloc r ->
  exists st, wipe (off mod alloc r) l r = (Ret tt, set_start st r) /\ rb_ok (set_start st r) /\
    keeps r (set_start st r) (off + l) (ctail_offset r + alloc r).
Proof.
  intros Hr Hl Hlo Hhi Hw. unfold wipe.
  destruct (copy_in_ok r off l (replicate (Z.to_nat l) 0)) as (st & E & Hst & Hb);
    [done|rewrite length_replicate; lia|done..|].
  exists st. split_and!; [done| |].
  - destruct Hr. split; cbn; lia.
  - intros k Hk. unfold byte_at at 1. cbn. rewrite Hb by (unfold in_window; lia). by rewrite decide_False by lia.
Qed.

Lemma cleanse_ok r e :
  rb_ok r -> 0 < alloc r -> ctail_offset r < e <= head_offset r ->
  let idx := ctail_offset r mod alloc r in let l := e - ctail_offset r in
  exists st, (if alloc r - idx <? l then wipe idx (alloc r - idx);;
      (if 0 <? u64 (l - (alloc r - idx)) then wipe 0 (u64 (l - (alloc r - idx))) else mret tt)
    else if 0 <? l then wipe idx l else mret tt) r = (Ret tt, set_start st r) /\
    rb_ok (set_start st r) /\ keeps r (set_start st r) e (ctail_offset r + alloc r).
Proof.
  intros Hr Hal He idx l. pose proof Hr as [Ho Hm Hf Hlen Ha]. pose proof max_offset_val.
  pose proof (Z.mod_pos_bound (ctail_offset r) (alloc r) Hal) as Hidx. fold idx in Hidx.
  destruct (Z.ltb_spec (alloc r - idx) l) as [Hw|Hw].
  - destruct (wipe_ok r (ctail_offset r) (alloc r - idx)) as (st & E & Hr1 & Hk1); [done|lia..|].
    fold idx in E. rewrite (bind_ret _ _ _ _ _ E). u64_simpl.
    destruct (Z.ltb_spec 0 (l - (alloc r - idx))); [|lia].
    destruct (wipe_ok (set_start st r) (ctail_offset r + (alloc r - idx)) (l - (alloc r - idx)))
      as (st2 & E2 & Hr2 & Hk2); [done|cbn; lia..| |].
    { cbn. replace ((ctail_offset r + (alloc r - idx)) mod alloc r) with 0; [lia|].
      symmetry. apply Z.mod_divide; [lia|]. exists (ctail_offset r / alloc r + 1).
      pose proof (Z.div_mod (ctail_offset r) (alloc r) ltac:(lia)). unfold idx. nia. }
    cbn in E2. replace ((ctail_offset r + (alloc r - idx)) mod alloc r) with 0 in E2.
    2: { symmetry. apply Z.mod_divide; [lia|]. exists (ctail_offset r / alloc r + 1).
         pose proof (Z.div_mod (ctail_offset r) (alloc r) ltac:(lia)). unfold idx. nia. }
    exists st2. split_and!; [exact E2|exact Hr2|]. intros k Hk. cbn in Hk2.
    transitivity (byte_at (set_start st r) k); [apply Hk2; lia|apply Hk1; lia].
  - destruct (Z.ltb_spec 0 l); [|lia].
    destruct (wipe_ok r (ctail_offset r) l) as (st & E & Hr1 & Hk1); [done|lia..|].
    exists st. split_and!; [done|done|]. intros k Hk. apply Hk1. lia.
Qed.

(** Culling up to [e] moves the tail; bytes above [e] stay. *)
Lemma cpop_ok r s e cleanse :
  rb_ok r -> 0 <= s <= e -> s <= ctail_offset r -> ctail_offset r <= e + 1 -> e < MAX_OFFSET ->
  exists r', ring_buf_cpop_range s e cleanse r = (Ret tt, r') /\ rb_ok r' /\ alloc r' = alloc r /\
    ctail_offset r' = e + 1 /\ head_offset r' = Z.max (head_offset r) (e + 1) /\
    keeps r r' (e + 1) (ctail_offset r + alloc r).
Proof.
  intros Hr Hse Hs Hmono Hmax. pose proof Hr as [Ho Hm Hf Hlen Ha]. pose proof max_offset_val.
  unfold ring_buf_cpop_range. destruct (Z.leb_spec s e); [|lia].
  rewrite (bind_ret (mret tt) _ r tt r), (bind_ret get _ r r r) by done.
  destruct (Z.ltb_spec (ctail_offset r) s); [lia|]. destruct (Z.leb_spec MAX_OFFSET e); [lia|]. cbn [orb].
  assert (Hcl : exists st, (if cleanse && (0 <? alloc r) && (ctail_offset r <? e) then
      let idx := ctail_offset r mod alloc r in
      let cleanse_end := if head_offset r <? u64 (e + 1) then head_offset r else u64 (e + 1) in
      let l := u64 (cleanse_end - ctail_offset r) in
      if alloc r - idx <? l then wipe idx (alloc r - idx);;
        let l := u64 (l - (alloc r - idx)) in if 0 <? l then wipe 0 l else mret tt
      else if 0 <? l then wipe idx l else mret tt
    else mret tt) r = (Ret tt, set_start st r) /\ rb_ok (set_start st r) /\
    keeps r (set_start st r) (e + 1) (ctail_offset r + alloc r)).
  { assert (Hid : rb_ok (set_start (rb_start r) r)) by (by destruct r).
    destruct (cleanse && (0 <? alloc r) && (ctail_offset r <? e)) eqn:Ec; zb;
      [|exists (rb_start r); split_and!; [by destruct r|done|by destruct r]].
    rewrite (u64_id (e + 1)) by (unfold is_u64; lia). cbv zeta.
    set (ce := if head_offset r <? e + 1 then head_offset r else e + 1).
    assert (Hce : ctail_offset r <= ce <= head_offset r /\ ce <= e + 1) by (unfold ce; zcase; lia).
    rewrite !(u64_id (ce - ctail_offset r)) by (unfold is_u64; lia).
    destruct (decide (ce = ctail_offset r)) as [->|].
    - rewrite Z.sub_diag. pose proof (Z.mod_pos_bound (ctail_offset r) (alloc r)).
      destruct (Z.ltb_spec (alloc r - ctail_offset r mod alloc r) 0); [lia|].
      exists (rb_start r). split_and!; [by destruct r|done|by destruct r].
    - destruct (cleanse_ok r ce Hr) as (st & E & Hr1 & Hk1); [lia..|].
      exists st. split_and!; [exact E|done|]. intros k Hk. apply Hk1. lia. }
  destruct Hcl as (st & E & Hr1 & Hk1). rewrite (bind_ret _ _ _ _ _ E).
  erewrite bind_ret by reflexivity. rewrite (u64_id (e + 1)) by (unfold is_u64; lia).
  eexists. split; [reflexivity|]. cbn. destruct Hr1 as [_ _ _ Hlen1 _]. cbn in Hlen1.
  destruct (Z.ltb_spec (head_offset r) (e + 1)); cbn; split_and!; try done; try lia; split; cbn; lia.
Qed.

Lemma get_buf_at_ok r off :
  rb_ok r -> ctail_offset r <= off < head_offset r ->
  exists l, ring_buf_get_buf_at r off = Some (off mod alloc r, l) /\ 0 < l <= head_offset r - off /\
    l = Z.min (head_offset r - off) (alloc r - off mod alloc r) /\
    forall j, 0 <= j < l -> drop (Z.to_nat (off mod alloc r)) (rb_start r) !! Z.to_nat j = byte_at r (off + j).
Proof.
  intros [Ho Hm Hf Hlen Ha] Hoff. pose proof max_offset_val. unfold ring_buf_get_buf_at.
  destruct (Z.ltb_spec (head_offset r) off); [lia|]. destruct (Z.ltb_spec off (ctail_offset r)); [lia|].
  destruct (Z.eqb_spec (alloc r) 0); [lia|]. cbn [orb]. u64_simpl.
  pose proof (Z.mod_pos_bound off (alloc r) ltac:(lia)) as Hidx.
  eexists. split; [reflexivity|].
  assert (Hby : forall j, 0 <= j < alloc r - off mod alloc r ->
    drop (Z.to_nat (off mod alloc r)) (rb_start r) !! Z.to_nat j = byte_at r (off + j)).
  { intros j Hj. rewrite lookup_drop. unfold byte_at. rewrite mod_step by lia. f_equal. lia. }
  destruct (Z.ltb_spec (alloc r - off mod alloc r) (head_offset r - off)); split_and!; try lia;
    intros j Hj; apply Hby; lia.
Qed.

Record resized (r rn : ring_buf) (copied : Z) : Prop := {
  rs_ok : rb_ok rn;
  rs_ctail : ctail_offset rn = ctail_offset r;
  rs_head : head_offset rn = ctail_offset r + copied;
  rs_room : head_offset r - ctail_offset r <= alloc rn;
  rs_keeps : keeps r rn (ctail_offset r) (ctail_offset r + copied)
}.

Lemma resize_loop_ok fuel : forall r rn copied,
  rb_ok r -> resized r rn copied -> 0 <= copied <= head_offset r - ctail_offset r ->
  head_offset r - ctail_offset r - copied + 1 < Z.of_nat fuel ->
  exists rn', resize_loop fuel r copied rn = (Ret tt, rn') /\ alloc rn' = alloc rn /\
    resized r rn' (head_offset r - ctail_offset r).
Proof.
  induction fuel as [|fuel IH]; intros r rn copied Hr Hs Hc Hf; [lia|]. cbn [resize_loop].
  pose proof Hr as [Ho Hm Hfit Hlen Ha]. pose proof max_offset_val. rewrite u64_id by (unfold is_u64; lia).
  destruct (decide (copied = head_offset r - ctail_offset r)) as [->|Hlt].
  { replace (ctail_offset r + (head_offset r - ctail_offset r)) with (head_offset r) by lia.
    unfold ring_buf_get_buf_at. rewrite Z.ltb_irrefl. destruct (Z.ltb_spec (head_offset r) (ctail_offset r)); [lia|].
    cbn [orb]. destruct (Z.eqb_spec (alloc r) 0); [by exists rn|]. rewrite Z.sub_diag.
    pose proof (Z.mod_pos_bound (head_offset r) (alloc r)).
    change (u64 0) with 0. destruct (Z.ltb_spec (alloc r - head_offset r mod alloc r) 0); [lia|]. by exists rn. }
  destruct (get_buf_at_ok r (ctail_offset r + copied) Hr) as (l & -> & Hl & Hlw & Hby); [lia|].
  destruct (Z.eqb_spec l 0); [lia|]. destruct Hs as [Hok Hct Hhd Hroom Hkeep].
  set (idx := (ctail_offset r + copied) mod alloc r) in *.
  pose proof (Z.mod_pos_bound (ctail_offset r + copied) (alloc r)) as Hidx. fold idx in Hidx.
  destruct (ring_push_ok rn (drop (Z.to_nat idx) (rb_start r)) l Hok) as (rn1 & E & Hw);
    [rewrite length_drop; lia|lia|].
  assert (Hp : pushable rn l = l) by (unfold pushable; lia). rewrite Hp in E, Hw.
  rewrite (bind_ret _ _ _ _ _ E), guard_true by lia. rewrite u64_id by (unfold is_u64; lia).
  assert (Htk : length (take (Z.to_nat l) (drop (Z.to_nat idx) (rb_start r))) = Z.to_nat l)
    by (rewrite length_take, length_drop; lia).
  destruct Hw as [Hok1 Ha1 Hct1 Hhd1 Hb1]. rewrite Htk in Hhd1, Hb1.
  destruct (IH r rn1 (copied + l) Hr) as (rn2 & E2 & Ha2 & Hs2); [|lia..|].
  - split; [done|congruence| |by rewrite Ha1|].
    + rewrite Hhd1, decide_False; [lia|]. intros E0. rewrite E0 in Htk. cbn in Htk. lia.
    + intros k Hk. rewrite Hb1 by (unfold in_window; lia). rewrite Hhd. clear Hhd1 Hb1. case_decide.
      * rewrite lookup_take_lt by lia. rewrite Hby by lia. f_equal. lia.
      * apply Hkeep. lia.
  - exists rn2. split_and!; [done|congruence|done].
Qed.

Lemma resize_ok r num alloc_ok :
  rb_ok r -> 0 <= num < 2 ^ 63 ->
  exists r', ring_buf_resize alloc_ok num r =
      (if (num =? alloc r) || (head_offset r - ctail_offset r <=? num) && alloc_ok && negb (num =? 0)
       then Ret tt else Err, r') /\ rb_ok r' /\
    head_offset r' = head_offset r /\ ctail_offset r' = ctail_offset r /\
    alloc r' = (if (head_offset r - ctail_offset r <=? num) && alloc_ok && negb (num =? 0) then num else alloc r) /\
    keeps r r' (ctail_offset r) (head_offset r).
Proof.
  intros Hr Hnum. pose proof Hr as [Ho Hm Hf Hlen Ha]. pose proof max_offset_val.
  unfold ring_buf_resize. rewrite (bind_ret get _ r r r) by done. rewrite !used_val by done.
  destruct (Z.eqb_spec num (alloc r)) as [->|Hne]; cbn [orb].
  { exists r. split_and!; try done. by zcase. }
  destruct (Z.ltb_spec num (head_offset r - ctail_offset r)),
    (Z.leb_spec (head_offset r - ctail_offset r) num); try lia; cbn [negb andb];
    [rewrite guard_false by done; by exists r|]. rewrite guard_true by done.
  destruct alloc_ok; cbn [andb]; [|rewrite guard_false by done; by exists r].
  destruct (Z.eqb_spec num 0); cbn [negb]; [rewrite guard_false by done; by exists r|]. rewrite guard_true by done.
  replace (head_offset r - (head_offset r - ctail_offset r)) with (ctail_offset r) by lia.
  rewrite (u64_id (ctail_offset r)) by (unfold is_u64; lia).
  destruct (resize_loop_ok (S (S (Z.to_nat (head_offset r - ctail_offset r)))) r
    (mkRb (replicate (Z.to_nat num) 0) num (ctail_offset r) (ctail_offset r)) 0 Hr) as (rn & -> & Ha1 & Hs); [|lia..|].
  { split; cbn; try lia; [split; cbn; rewrite ?length_replicate; lia|]. intros k Hk. lia. }
  destruct Hs as [Hok Hct Hhd Hroom Hkeep]. destruct (Z.eqb_spec (head_offset rn) (head_offset r)); [|lia].
  rewrite <- Hct. exists rn. split_and!; try done.
  - unfold put. by destruct rn.
  - intros k Hk. apply Hkeep. lia.
Qed.

(** A ring buffer behaves as a window on a stream.  A block is accepted
    exactly when it lies in the window and stays below the limit, and then its
    bytes are found at their logical offsets and all others are as before; a
    push appends the longest prefix that fits; culling, with or without wiping,
    and resizing keep every byte above the tail; a contiguous read returns the
    bytes at the offsets asked for.  No operation touches memory outside the
    block or divides by zero. *)
Theorem ring_buf_window r :
  rb_ok r ->
  (forall off buf, 0 <= off -> off + Z.of_nat (length buf) <= MAX_OFFSET ->
   exists r', ring_buf_write_at off buf (Z.of_nat (length buf)) r =
       (if accepts r off (Z.of_nat (length buf)) then Ret tt else Err, r') /\
     if accepts r off (Z.of_nat (length buf)) then wrote r r' off buf else r' = r) /\
  (forall buf, Z.of_nat (length buf) < 2 ^ 63 ->
   exists r', ring_buf_push buf (Z.of_nat (length buf)) r = (Ret (pushable r (Z.of_nat (length buf))), r') /\
     wrote r r' (head_offset r) (take (Z.to_nat (pushable r (Z.of_nat (length buf)))) buf)) /\
  (forall e cleanse, 0 <= e -> ctail_offset r <= e + 1 -> e < MAX_OFFSET ->
   exists r', ring_buf_cpop_range 0 e cleanse r = (Ret tt, r') /\ rb_ok r' /\ alloc r' = alloc r /\
     ctail_offset r' = e + 1 /\ head_offset r' = Z.max (head_offset r) (e + 1) /\
     keeps r r' (e + 1) (ctail_offset r + alloc r)) /\
  (forall num alloc_ok, 0 <= num < 2 ^ 63 ->
   exists r', ring_buf_resize alloc_ok num r =
       (if (num =? alloc r) || (head_offset r - ctail_offset r <=? num) && alloc_ok && negb (num =? 0)
        then Ret tt else Err, r') /\ rb_ok r' /\
     head_offset r' = head_offset r /\ ctail_offset r' = ctail_offset r /\
     keeps r r' (ctail_offset r) (head_offset r)) /\
  (forall off, ctail_offset r <= off < head_offset r ->
   exists l, ring_buf_get_buf_at r off = Some (off mod alloc r, l) /\ 0 < l <= head_offset r - off /\
     forall j, 0 <= j < l -> drop (Z.to_nat (off mod alloc r)) (rb_start r) !! Z.to_nat j = byte_at r (off + j)).
Proof.
  intros Hr. split_and!.
  - intros. by apply write_at_ok.
  - intros buf Hb. apply ring_push_ok; [done|lia|done].
  - intros e cl He Hm Hlim. apply cpop_ok; try done; destruct Hr; lia.
  - intros num aok Hn. destruct (resize_ok r num aok Hr Hn) as (r' & E & Ho & Hh & Hc & _ & Hk). by exists r'.
  - intros off Hoff. destruct (get_buf_at_ok r off Hr Hoff) as (l & E & Hl & _ & Hb). by exists l.
Qed.

Definition sample_ring : ring_buf := mkRb [10; 11; 12; 13; 14; 15; 16; 17] 8 14 9.

Lemma sample_ring_ok : rb_ok sample_ring.
Proof. split; vm_compute; try split; congruence. Qed.

Lemma ring_buf_window_witness :
  rb_ok sample_ring /\
  exists r', ring_buf_write_at 12 [1; 2; 3; 4] 4 sample_ring = (Ret tt, r') /\
    byte_at r' 15 = Some 4 /\ byte_at r' 11 = Some 13 /\ head_offset r' = 16.
Proof.
  split; [exact sample_ring_ok|].
  destruct (ring_buf_window sample_ring sample_ring_ok) as [H _].
  destruct (H 12 [1; 2; 3; 4] ltac:(lia) ltac:(vm_compute; congruence)) as (r' & E & Hw). exists r'.
  cbn in Hw. split; [exact E|]. split_and!.
  - rewrite (wrote_bytes _ _ _ _ Hw) by (unfold in_window; cbn; lia). reflexivity.
  - rewrite (wrote_bytes _ _ _ _ Hw) by (unfold in_window; cbn; lia). reflexivity.
  - rewrite (wrote_head _ _ _ _ Hw). reflexivity.
Defined.

(** Two checks that are slightly off.  Culling exactly one byte never wipes
    it, because the end of the range, which is inclusive, is compared strictly
    with the tail; and a block written ahead of the head is checked against the
    stream limit as if it started at the head, so that the head can pass the
    limit. *)
Theorem ring_buf_off_by_one :
  (exists r', ring_buf_cpop_range 9 9 true sample_ring = (Ret tt, r') /\ ctail_offset r' = 10 /\
     rb_start r' = rb_start sample_ring) /\
  (exists r r', rb_ok r /\ ring_buf_write_at (MAX_OFFSET - 1) [7; 7] 2 r = (Ret tt, r') /\
     MAX_OFFSET < head_offset r').
Proof.
  split; [eexists; split_and!; vm_compute; reflexivity|].
  exists (mkRb (replicate 8 0) 8 (MAX_OFFSET - 4) (MAX_OFFSET - 4)). eexists.
  split; [split; vm_compute; try split; congruence|]. split; vm_compute; reflexivity.
Qed.

End RingBuf.
