(* ===== verification/SfList.v ===== *)
(** * Stream frame lists

    Model of [ssl/quic/quic_sf_list.c]: the frames of a stream that have been
    received and not yet read, in the packets they came in or, once moved, in a
    side storage.  The doubly linked list is a Rocq list, head first; an
    iterator is the position of a frame in it.  A frame's data is the list of
    its bytes, absent once they have been moved.

    Frames hold references to packets ([OSSL_QRX_PKT]); the counters of
    [ssl/quic/quic_record_rx.c] are part of the state, and counting up or down
    from a counter that is not positive fails an assertion and is undefined
    here, as is a failed [assert].  A failed [ossl_assert] takes the branch the
    code has for it.  Wiping the data of a frame that is released touches only
    memory no frame refers to any more, and is not represented. *)
From Stdlib Require Import ZArith Lia.
From stdpp Require Import base tactics list gmap sorting.
From S2P Require Import Prelude UintSet.
#[local] Open Scope Z_scope.
Import UintSet.

Module SfList.

Record STREAM_FRAME := mkFrame { range : UINT_RANGE; pkt : option nat; data : option (list Z) }.

#[global] Instance STREAM_FRAME_eq_dec : EqDecision STREAM_FRAME.
Proof. solve_decision. Defined.

Record SFRAME_LIST := mkSfl {
  frames : list STREAM_FRAME; fin : bool; num_frames : Z; offset : Z; head_locked : bool; cleanse : bool
}.

Abbreviation refs := (gmap nat Z).
Abbreviation sfs := (SFRAME_LIST * gmap nat Z)%type.
Abbreviation f_start f := (start (range f)).
Abbreviation f_end f := (end_ (range f)).

Definition set_frames (l : list STREAM_FRAME) (fl : SFRAME_LIST) : SFRAME_LIST :=
  mkSfl l (fin fl) (num_frames fl) (offset fl) (head_locked fl) (cleanse fl).
Definition set_fin (b : bool) (fl : SFRAME_LIST) : SFRAME_LIST :=
  mkSfl (frames fl) b (num_frames fl) (offset fl) (head_locked fl) (cleanse fl).
Definition set_num (n : Z) (fl : SFRAME_LIST) : SFRAME_LIST :=
  mkSfl (frames fl) (fin fl) n (offset fl) (head_locked fl) (cleanse fl).
Definition set_offset (o : Z) (fl : SFRAME_LIST) : SFRAME_LIST :=
  mkSfl (frames fl) (fin fl) (num_frames fl) o (head_locked fl) (cleanse fl).
Definition set_locked (b : bool) (fl : SFRAME_LIST) : SFRAME_LIST :=
  mkSfl (frames fl) (fin fl) (num_frames fl) (offset fl) b (cleanse fl).

Definition upd (f : SFRAME_LIST -> SFRAME_LIST) : M sfs unit := fun s => (Ret tt, (f s.1, s.2)).
Definition assert_ {S} (b : bool) : M S unit := if b then mret tt else undefined.

Definition ossl_qrx_pkt_up_ref (p : nat) : M sfs unit := fun s =>
  match s.2 !! p with
  | Some n => if 0 <? n then (Ret tt, (s.1, <[p := n + 1]> s.2)) else (Undef, s)
  | None => (Undef, s)
  end.
Definition ossl_qrx_pkt_release (p : option nat) : M sfs unit := fun s =>
  match p with
  | None => (Ret tt, s)
  | Some p =>
      match s.2 !! p with
      | Some n => if 0 <? n then (Ret tt, (s.1, <[p := n - 1]> s.2)) else (Undef, s)
      | None => (Undef, s)
      end
  end.

Definition stream_frame_free (sf : STREAM_FRAME) : M sfs unit := ossl_qrx_pkt_release (pkt sf).

Definition stream_frame_new (alloc : bool) (r : UINT_RANGE) (p : option nat) (d : option (list Z))
    : M sfs STREAM_FRAME :=
  guard_ alloc;;
  (match p with Some p => ossl_qrx_pkt_up_ref p | None => mret tt end);;
  mret (mkFrame r p d).

Definition ossl_sframe_list_init : SFRAME_LIST := mkSfl [] false 0 0 false false.

Fixpoint free_loop (l : list STREAM_FRAME) : M sfs unit :=
  match l with [] => mret tt | sf :: l => stream_frame_free sf;; free_loop l end.
Definition ossl_sframe_list_destroy : M sfs unit := s ← get; free_loop (frames s.1).

Definition append_frame (alloc : bool) (r : UINT_RANGE) (p : option nat) (d : option (list Z)) : M sfs unit :=
  nf ← stream_frame_new alloc r p d;
  upd (fun fl => set_frames (frames fl ++ [nf]) fl);;
  upd (fun fl => set_num (num_frames fl + 1) fl).

(** The frames before the first that starts at or after [r], last one first,
    and the others. *)
Fixpoint seek (r : UINT_RANGE) (rpre post : list STREAM_FRAME) : list STREAM_FRAME * list STREAM_FRAME :=
  match post with
  | sf :: post' => if f_start sf <? start r then seek r (sf :: rpre) post' else (rpre, post)
  | [] => (rpre, [])
  end.

(** Drops the frames at the front that end by [limit]; the rest. *)
Fixpoint drop_loop (limit : Z) (l : list STREAM_FRAME) : M sfs (list STREAM_FRAME) :=
  match l with
  | sf :: l' =>
      if f_end sf <=? limit then
        upd (fun fl => set_num (num_frames fl - 1) fl);;
        stream_frame_free sf;;
        drop_loop limit l'
      else mret l
  | [] => mret []
  end.

(** Where the data ends: the end of the tail, or the offset. *)
Definition curr_end (fl : SFRAME_LIST) : Z :=
  match last (frames fl) with Some t => f_end t | None => offset fl end.

Definition ossl_sframe_list_insert (alloc : bool) (r : UINT_RANGE) (p : option nat) (d : option (list Z))
    (fin' : bool) : M sfs unit :=
  s ← get;
  let fl := s.1 in
  assert_ ((negb fin' || (curr_end fl <=? end_ r)) && (negb (fin fl) || (end_ r <=? curr_end fl)));;
  (if end_ r <=? offset fl then mret tt
   else
     match last (frames fl) with
     | None =>
         nf ← stream_frame_new alloc r p d;
         upd (set_frames [nf]);; upd (fun fl => set_num (num_frames fl + 1) fl)
     | Some tl =>
         if f_start tl <? start r then
           if end_ r <=? f_end tl then mret tt else append_frame alloc r p d
         else
           let '(rpre, post) := seek r [] (frames fl) in
           guard_ (negb (is_null (head post)));;
           if (match rpre with prev :: _ => end_ r <=? f_end prev | [] => false end) then mret tt
           else
             nf ← stream_frame_new alloc r p d;
             next ← drop_loop (end_ r) post;
             match rpre, next with
             | prev :: _, nx :: _ =>
                 if f_start nx <=? f_end prev then
                   stream_frame_free nf;; upd (set_frames (rev rpre ++ next))
                 else
                   upd (set_frames (rev rpre ++ nf :: next));; upd (fun fl => set_num (num_frames fl + 1) fl)
             | _, _ =>
                 upd (set_frames (rev rpre ++ nf :: next));; upd (fun fl => set_num (num_frames fl + 1) fl)
             end
     end);;
  upd (fun fl => set_fin (fin' || fin fl) fl).

(** Return value, [*iter], [*range], [*data] and [*fin]. *)
Record peek_result := mkPeek {
  pk_ret : bool; pk_iter : option nat; pk_range : UINT_RANGE; pk_data : option (list Z); pk_fin : bool
}.

Definition ossl_sframe_list_peek (fl : SFRAME_LIST) (iter : option nat) : peek_result :=
  let '(st, i) := match iter with
                  | None => (offset fl, 0%nat)
                  | Some i => (match frames fl !! i with Some sf => f_end sf | None => 0 end, S i)
                  end in
  match frames fl !! i with
  | Some sf =>
      if (st <? f_start sf) || negb (st <? f_end sf)
      then mkPeek false None (mkRange st st) None false
      else mkPeek true (Some i) (mkRange st (f_end sf))
             (drop (Z.to_nat (st - f_start sf)) <$> data sf)
             (match frames fl !! S i with None => fin fl | Some _ => false end)
  | None => mkPeek false None (mkRange st st) None (fin fl)
  end.

Definition ossl_sframe_list_drop_frames (limit : Z) : M sfs unit :=
  s ← get;
  let fl := s.1 in
  guard_ (offset fl <=? limit);;
  guard_ (match last (frames fl) with None => true | Some t => limit <=? f_end t end);;
  guard_ (match last (frames fl) with Some _ => true | None => limit =? offset fl end);;
  upd (set_offset limit);;
  rest ← drop_loop limit (frames fl);
  upd (set_frames rest);;
  upd (set_locked false).

Definition ossl_sframe_list_lock_head (fl : SFRAME_LIST) : option peek_result * SFRAME_LIST :=
  if head_locked fl then (None, fl)
  else
    let pk := ossl_sframe_list_peek fl None in
    if pk_ret pk then (Some pk, set_locked true fl) else (None, fl).

Definition ossl_sframe_list_is_head_locked (fl : SFRAME_LIST) : bool := head_locked fl.

Section MoveData.
(** The side storage, and the callback that writes to it; [None] when the data
    does not fit. *)
Context {W : Type} (write_at_cb : Z -> list Z -> Z -> M W unit).

Definition on_list {A} (m : M sfs A) : M (sfs * W) A := fun s =>
  let '(r, s') := m s.1 in (r, (s', s.2)).
Definition on_store {A} (m : M W A) : M (sfs * W) A := fun s =>
  let '(r, w') := m s.2 in (r, (s.1, w')).

(** Moves the data of [sf] from [limit] on; the list is [pre], the frames
    passed over, then [rdone], those processed, last one first, then [sf] and
    [l]. *)
Definition move_one (pre rdone : list STREAM_FRAME) (limit : Z) (sf : STREAM_FRAME) (l : list STREAM_FRAME)
    : M (sfs * W) STREAM_FRAME :=
  match data sf with
  | Some d =>
      let d' := if f_start sf <? limit then drop (Z.to_nat (limit - f_start sf)) d else d in
      on_store (write_at_cb limit d' (f_end sf - limit));;
      on_list (ossl_qrx_pkt_release (pkt sf));;
      let sf' := mkFrame (range sf) None None in
      on_list (upd (set_frames (pre ++ rev rdone ++ sf' :: l)));;
      mret sf'
  | None => mret sf
  end.

Fixpoint move_loop (pre rdone : list STREAM_FRAME) (limit : Z) (l : list STREAM_FRAME) : M (sfs * W) unit :=
  match l with
  | [] => mret tt
  | sf :: l' =>
      let limit := if limit <? f_start sf then f_start sf else limit in
      sf' ← move_one pre rdone limit sf l';
      let limit := f_end sf' in
      match rdone with
      | prev :: rdone' =>
          if f_start sf' <=? f_end prev then
            let prev' := mkFrame (mkRange (f_start prev) (f_end sf')) (pkt prev) (data prev) in
            on_list (upd (set_frames (pre ++ rev (prev' :: rdone') ++ l')));;
            on_list (upd (fun fl => set_num (num_frames fl - 1) fl));;
            on_list (stream_frame_free sf');;
            move_loop pre (prev' :: rdone') limit l'
          else move_loop pre (sf' :: rdone) limit l'
      | [] => move_loop pre [sf'] limit l'
      end
  end.

Definition ossl_sframe_list_move_data : M (sfs * W) unit :=
  s ← get;
  let fl := s.1.1 in
  match frames fl with
  | [] => mret tt
  | h :: l => if head_locked fl then move_loop [h] [] (offset fl) l else move_loop [] [] (offset fl) (h :: l)
  end.

End MoveData.

(** ** Invariant and meaning *)

Definition lt_frame (a b : STREAM_FRAME) : Prop := f_start a <= f_start b /\ f_end a < f_end b.

(** Stream offsets are below 2^62; the frame decoders refuse others. *)
Definition MAX_END : Z := 2 ^ 62.
Definition range_ok (r : UINT_RANGE) : Prop := 0 <= start r <= end_ r /\ end_ r <= MAX_END.

Record sfl_ok (fl : SFRAME_LIST) : Prop := {
  ok_sorted : StronglySorted lt_frame (frames fl);
  ok_ranges : Forall (fun f => range_ok (range f)) (frames fl);
  ok_live : Forall (fun f => offset fl < f_end f) (frames fl);
  ok_num : num_frames fl = Z.of_nat (length (frames fl));
  ok_offset : 0 <= offset fl <= MAX_END
}.

(** The offsets whose bytes have been received and not dropped. *)
Definition in_frames (l : list STREAM_FRAME) (k : Z) : Prop := exists f, f ∈ l /\ f_start f <= k < f_end f.
Definition covered (fl : SFRAME_LIST) (k : Z) : Prop := offset fl <= k /\ in_frames (frames fl) k.

(** The references the frames of [l] hold on a packet, and those held by
    others. *)
Definition holders (l : list STREAM_FRAME) (p : nat) : Z :=
  Z.of_nat (length (filter (fun f => pkt f = Some p) l)).
Definition rcount (rc : refs) (p : nat) : Z := default 0 (rc !! p).
Definition others (s : sfs) (p : nat) : Z := rcount s.2 p - holders (frames s.1) p.
Definition refs_ok (s : sfs) : Prop := forall p, 0 <= others s p.

Lemma holders_nonneg l p : 0 <= holders l p.
Proof. unfold holders. lia. Qed.

Lemma holders_app l1 l2 p : holders (l1 ++ l2) p = holders l1 p + holders l2 p.
Proof. unfold holders. rewrite filter_app, length_app. lia. Qed.

Lemma holders_cons f l p : holders (f :: l) p = (if decide (pkt f = Some p) then 1 else 0) + holders l p.
Proof. unfold holders. rewrite filter_cons. case_decide; cbn [length]; lia. Qed.

Lemma release_ok p fl rc :
  (forall q, p = Some q -> 0 < rcount rc q) ->
  exists rc', ossl_qrx_pkt_release p (fl, rc) = (Ret tt, (fl, rc')) /\
    forall q, rcount rc' q = rcount rc q - (if decide (p = Some q) then 1 else 0).
Proof.
  intros Hp. destruct p as [q|]; [|exists rc; split; [done|intros; rewrite decide_False by done; lia]].
  specialize (Hp q eq_refl). unfold rcount in Hp. cbn. destruct (rc !! q) as [n|] eqn:E; cbn in Hp; [|lia].
  destruct (Z.ltb_spec 0 n); [|lia]. eexists. split; [reflexivity|]. intros q'. unfold rcount.
  destruct (decide (q' = q)) as [->|Hne].
  - rewrite lookup_insert_eq, E, decide_True by done. done.
  - rewrite lookup_insert_ne, decide_False by congruence. lia.
Qed.

Lemma frame_new_ok alloc r p d fl rc :
  (forall q, p = Some q -> 0 < rcount rc q) ->
  (alloc = false /\ stream_frame_new alloc r p d (fl, rc) = (Err, (fl, rc))) \/
  (exists rc', stream_frame_new alloc r p d (fl, rc) = (Ret (mkFrame r p d), (fl, rc')) /\
    forall q, rcount rc' q = rcount rc q + (if decide (p = Some q) then 1 else 0)).
Proof.
  intros Hp. destruct alloc; [right|left; split; [done|by cbn]]. unfold stream_frame_new. rewrite guard_true by done.
  destruct p as [q|]; [|exists rc; split; [done|intros; rewrite decide_False by done; lia]].
  specialize (Hp q eq_refl). unfold rcount in Hp. destruct (rc !! q) as [n|] eqn:E; cbn in Hp; [|lia].
  rewrite (bind_ret _ _ _ tt (fl, <[q := n + 1]> rc)).
  2: { unfold ossl_qrx_pkt_up_ref. cbn. rewrite E. by destruct (Z.ltb_spec 0 n); [|lia]. }
  eexists. split; [reflexivity|]. intros q'. unfold rcount.
  destruct (decide (q' = q)) as [->|Hne].
  - rewrite lookup_insert_eq, E, decide_True by done. done.
  - rewrite lookup_insert_ne, decide_False by congruence. lia.
Qed.

(** Sorted lists: the frames dropped by [drop_loop] are a prefix. *)
Lemma drop_loop_ok limit l : forall fl rc,
  (forall p, holders l p <= rcount rc p) ->
  exists dropped rest rc',
    drop_loop limit l (fl, rc) = (Ret rest, (set_num (num_frames fl - Z.of_nat (length dropped)) fl, rc')) /\
    l = dropped ++ rest /\ Forall (fun f => f_end f <= limit) dropped /\
    (forall f, head rest = Some f -> limit < f_end f) /\
    forall p, rcount rc' p = rcount rc p - holders dropped p.
Proof.
  induction l as [|sf l IH]; intros fl rc Hrc; cbn [drop_loop].
  { exists [], [], rc. split_and!; try done; [destruct fl; cbn; unfold mret, M_ret, set_num; cbn; do 3 f_equal; lia|].
    intros p. unfold holders. cbn. lia. }
  destruct (Z.leb_spec (f_end sf) limit) as [Hle|Hgt].
  2: { exists [], (sf :: l), rc. split_and!; try done.
       - destruct fl; cbn; unfold mret, M_ret, set_num; cbn; do 3 f_equal; lia.
       - intros f [= <-]. done.
       - intros p. unfold holders. cbn. lia. }
  erewrite bind_ret by reflexivity. unfold stream_frame_free.
  destruct (release_ok (pkt sf) (set_num (num_frames fl - 1) fl) rc) as (rc1 & E & Hrc1).
  { intros q Hq. specialize (Hrc q). rewrite holders_cons, decide_True in Hrc by done.
    pose proof (holders_nonneg l q). lia. }
  rewrite (bind_ret _ _ _ _ _ E).
  destruct (IH (set_num (num_frames fl - 1) fl) rc1) as (dr & rest & rc2 & E2 & -> & Hd & Hh & Hrc2).
  { intros p. rewrite Hrc1. specialize (Hrc p). rewrite holders_cons in Hrc. case_decide; lia. }
  exists (sf :: dr), rest, rc2. split_and!; try done.
  - rewrite E2. unfold set_num. cbn. do 3 f_equal. lia.
  - by constructor.
  - intros p. rewrite Hrc2, Hrc1, holders_cons. case_decide; lia.
Qed.

Lemma seek_ok r l : forall rpre, exists pre post,
  seek r rpre l = (rev pre ++ rpre, post) /\ l = pre ++ post /\ Forall (fun f => f_start f < start r) pre /\
  (forall f, head post = Some f -> start r <= f_start f).
Proof.
  induction l as [|sf l IH]; intros rpre; cbn [seek]; [by exists [], []|].
  destruct (Z.ltb_spec (f_start sf) (start r)).
  - destruct (IH (sf :: rpre)) as (pre & post & -> & -> & Hpre & Hpost).
    exists (sf :: pre), post. split_and!; try done; [|by constructor]. cbn. by rewrite <- app_assoc.
  - exists [], (sf :: l). split_and!; try done. by intros f [= <-].
Qed.

Lemma sorted_head l f g : StronglySorted lt_frame (f :: l) -> g ∈ f :: l -> f_start f <= f_start g /\ f_end f <= f_end g.
Proof.
  intros [Hf _]%StronglySorted_cons Hg. rewrite elem_of_cons in Hg. destruct Hg as [->|Hg]; [lia|].
  rewrite Forall_forall in Hf. destruct (Hf g Hg). lia.
Qed.

Lemma sorted_last l t g : StronglySorted lt_frame l -> last l = Some t -> g ∈ l -> f_start g <= f_start t /\ f_end g <= f_end t.
Proof.
  intros Hs Ht Hg. apply last_Some in Ht as [l' ->]. apply StronglySorted_app in Hs as (Hs & _ & _).
  rewrite elem_of_app, list_elem_of_singleton in Hg. destruct Hg as [Hg| ->]; [|lia].
  destruct (Hs g t Hg); [by apply list_elem_of_singleton|lia].
Qed.

Lemma in_frames_app l1 l2 k : in_frames (l1 ++ l2) k <-> in_frames l1 k \/ in_frames l2 k.
Proof.
  unfold in_frames. setoid_rewrite elem_of_app. split; [intros (f & [Hf|Hf] & Hk)|intros [(f & Hf & Hk)|(f & Hf & Hk)]]; eauto.
Qed.

Lemma in_frames_cons f l k : in_frames (f :: l) k <-> f_start f <= k < f_end f \/ in_frames l k.
Proof.
  unfold in_frames. setoid_rewrite elem_of_cons.
  split; [intros (g & [-> |Hg] & Hk)|intros [Hk|(g & Hg & Hk)]]; eauto.
Qed.

Lemma elem_end fl f : f ∈ frames fl -> sfl_ok fl -> f_end f <= curr_end fl.
Proof.
  intros Hf Hok. unfold curr_end. destruct (last (frames fl)) as [t|] eqn:El.
  - by destruct (sorted_last _ _ _ (ok_sorted _ Hok) El Hf).
  - apply last_None in El. rewrite El in Hf. by apply elem_of_nil in Hf.
Qed.

Lemma offset_le_end fl : sfl_ok fl -> offset fl <= curr_end fl.
Proof.
  intros Hok. unfold curr_end. destruct (last (frames fl)) as [t|] eqn:El; [|done].
  pose proof (ok_live _ Hok) as Hl. rewrite Forall_forall in Hl.
  specialize (Hl t (last_Some_elem_of _ _ El)). cbn in Hl. lia.
Qed.

Lemma curr_end_snoc fl l x : frames fl = l ++ [x] -> curr_end fl = f_end x.
Proof. intros E. unfold curr_end. by rewrite E, last_snoc. Qed.

(** What an insertion that is not refused does to the list. *)
Record grown (s s' : sfs) (nf : STREAM_FRAME) : Prop := {
  gr_ok : sfl_ok s'.1;
  gr_fin : fin s'.1 = fin s.1;
  gr_offset : offset s'.1 = offset s.1;
  gr_locked : head_locked s'.1 = head_locked s.1;
  gr_cleanse : cleanse s'.1 = cleanse s.1;
  gr_covered : forall k, covered s'.1 k <-> covered s.1 k \/ offset s.1 <= k /\ f_start nf <= k < f_end nf;
  gr_frames : forall f, f ∈ frames s'.1 -> f ∈ frames s.1 \/ f = nf;
  gr_end : curr_end s'.1 = Z.max (curr_end s.1) (f_end nf);
  gr_others : forall p, others s' p = others s p
}.

(** Nothing to do when the range is covered already. *)
Lemma grown_same fl rc nf :
  sfl_ok fl -> (forall k, offset fl <= k -> f_start nf <= k < f_end nf -> in_frames (frames fl) k) ->
  f_end nf <= curr_end fl -> grown (fl, rc) (fl, rc) nf.
Proof.
  intros Hok Hc He. split; try done; [|by left|cbn; lia]. intros k. unfold covered. cbn. split; [auto|]. intros [H|[H1 H2]]; [done|]. auto.
Qed.

(** The new frame takes the place of the frames [dr] it covers. *)
Lemma grown_placed fl rc rc' pre dr rest nf :
  sfl_ok fl -> frames fl = pre ++ dr ++ rest -> range_ok (range nf) -> offset fl < f_end nf ->
  (forall f, f ∈ pre -> f_start f <= f_start nf /\ f_end f < f_end nf) ->
  (forall f, f ∈ dr ++ rest -> f_start nf <= f_start f) ->
  Forall (fun f => f_end f <= f_end nf) dr -> (forall f, f ∈ rest -> f_end nf < f_end f) ->
  (forall p, rcount rc' p = rcount rc p + (if decide (pkt nf = Some p) then 1 else 0) - holders dr p) ->
  grown (fl, rc) (set_num (num_frames fl - Z.of_nat (length dr) + 1) (set_frames (pre ++ nf :: rest) fl), rc') nf.
Proof.
  intros [Hs Hr Hl Hn Ho] Hfr Hnf Hoff Hpre Hpost Hdr Hrest Hrc. rewrite Hfr in *.
  apply StronglySorted_app in Hs as (Hx & Hs1 & Hs2). apply StronglySorted_app in Hs2 as (_ & _ & Hs3).
  rewrite !Forall_app in Hr, Hl. destruct Hr as (Hr1 & Hr2 & Hr3), Hl as (Hl1 & Hl2 & Hl3).
  rewrite !length_app in Hn.
  split; cbn; try done.
  - split; cbn; [|by rewrite Forall_app, Forall_cons|by rewrite Forall_app, Forall_cons|
                 rewrite length_app; cbn [length]; lia|done].
    apply StronglySorted_app. split_and!; [|done|].
    + intros f g Hf Hg. rewrite elem_of_cons in Hg. destruct Hg as [->|Hg]; [by apply Hpre|].
      apply Hx; [done|]. rewrite elem_of_app. by right.
    + apply StronglySorted_cons. split; [|done]. apply Forall_forall. intros f Hf. split; [|by apply Hrest].
      apply Hpost. rewrite elem_of_app. by right.
  - intros k. unfold covered. cbn. rewrite Hfr, !in_frames_app, in_frames_cons.
    assert (in_frames dr k -> f_start nf <= k < f_end nf).
    { intros (f & Hf & Hk). rewrite Forall_forall in Hdr. specialize (Hdr f Hf).
      specialize (Hpost f ltac:(rewrite elem_of_app; by left)). lia. }
    tauto.
  - intros f. rewrite Hfr, !elem_of_app, elem_of_cons. tauto.
  - assert (Hall : forall f, f ∈ pre ++ dr -> f_end f <= f_end nf).
    { intros f Hf. rewrite elem_of_app in Hf. destruct Hf as [Hf|Hf]; [specialize (Hpre f Hf); lia|].
      rewrite Forall_forall in Hdr. by apply Hdr. }
    destruct rest as [|x rest _] using rev_ind.
    + erewrite curr_end_snoc by reflexivity. rewrite app_nil_r in Hfr. unfold curr_end. rewrite Hfr.
      destruct (last (pre ++ dr)) as [t|] eqn:El; [|lia]. specialize (Hall t (last_Some_elem_of _ _ El)). lia.
    + erewrite (curr_end_snoc _ (pre ++ nf :: rest) x) by (cbn; by rewrite <- app_assoc).
      rewrite (curr_end_snoc fl (pre ++ dr ++ rest) x) by (rewrite Hfr; by rewrite !app_assoc).
      specialize (Hrest x ltac:(rewrite elem_of_app; right; by left)). lia.
  - intros p. unfold others. cbn. rewrite Hfr, Hrc, !holders_app, holders_cons. lia.
Qed.

(** The final update of an insertion that places the frame. *)
Lemma place_run fl rc (n : Z) l :
  (upd (set_frames l);; upd (fun fl => set_num (num_frames fl + 1) fl)) (set_num n fl, rc) =
  (Ret tt, (set_num (n + 1) (set_frames l fl), rc)).
Proof. done. Qed.

Lemma set_num_id fl : set_num (num_frames fl) fl = fl.
Proof. by destruct fl. Qed.

Section Insert.
Context (alloc : bool) (r : UINT_RANGE) (p : option nat) (d : option (list Z)) (fl : SFRAME_LIST) (rc : refs).
Hypotheses (Hok : sfl_ok fl) (Hrefs : refs_ok (fl, rc)) (Hr : range_ok r) (Hoff : offset fl < end_ r)
  (Hp : forall q, p = Some q -> 0 < others (fl, rc) q).

Abbreviation newf := (mkFrame r p d).
Definition outcome (m : M sfs unit) : Prop :=
  (alloc = false /\ m (fl, rc) = (Err, (fl, rc))) \/
  (exists s', m (fl, rc) = (Ret tt, s') /\ grown (fl, rc) s' newf).

Lemma count_pos q : p = Some q -> 0 < rcount rc q.
Proof. intros Hq. specialize (Hp q Hq). unfold others in Hp. cbn in Hp. pose proof (holders_nonneg (frames fl) q). lia. Qed.

Lemma append_outcome :
  (forall f, f ∈ frames fl -> f_start f <= start r /\ f_end f < end_ r) -> outcome (append_frame alloc r p d).
Proof.
  intros Hall. unfold outcome, append_frame.
  destruct (frame_new_ok alloc r p d fl rc count_pos) as [[Ha E]|(rc1 & E & Hrc1)].
  - left. split; [done|]. by rewrite (bind_err _ _ _ _ E).
  - right. rewrite (bind_ret _ _ _ _ _ E). eexists. split; [reflexivity|]. cbn.
    replace (num_frames fl + 1) with (num_frames fl - Z.of_nat (length (@nil STREAM_FRAME)) + 1) by (cbn; lia).
    apply (grown_placed fl rc rc1 (frames fl) [] []); try done; [by rewrite !app_nil_r|set_solver|set_solver|].
    intros q. rewrite Hrc1. unfold holders. cbn. lia.
Qed.

Lemma first_outcome :
  frames fl = [] ->
  outcome (nf ← stream_frame_new alloc r p d; upd (set_frames [nf]);; upd (fun fl => set_num (num_frames fl + 1) fl)).
Proof.
  intros Hnil. assert (Hao : outcome (append_frame alloc r p d)).
  { apply append_outcome. intros f. rewrite Hnil. intros Hf. by apply elem_of_nil in Hf. }
  destruct Hao as [[Ha E]|(s' & E & Hg)]; [left|right].
  - split; [done|]. destruct alloc; [done|]. reflexivity.
  - exists s'. split; [|done]. rewrite <- E. unfold append_frame.
    destruct (frame_new_ok alloc r p d fl rc count_pos) as [[Ha En]|(rc1 & En & Hrc1)].
    + by rewrite !(bind_err _ _ _ _ En).
    + rewrite !(bind_ret _ _ _ _ _ En). unfold mbind, M_bind, upd. cbn [fst snd frames num_frames set_frames].
      by rewrite Hnil.
Qed.

Lemma middle_outcome pre post :
  frames fl = pre ++ post -> Forall (fun f => f_start f < start r) pre ->
  (forall f, head post = Some f -> start r <= f_start f) ->
  (match rev pre with prev :: _ => end_ r <=? f_end prev | [] => false end) = false ->
  outcome (nf ← stream_frame_new alloc r p d;
           next ← drop_loop (end_ r) post;
           match rev pre, next with
           | prev :: _, nx :: _ =>
               if f_start nx <=? f_end prev then
                 stream_frame_free nf;; upd (set_frames (rev (rev pre) ++ next))
               else
                 upd (set_frames (rev (rev pre) ++ nf :: next));; upd (fun fl => set_num (num_frames fl + 1) fl)
           | _, _ =>
               upd (set_frames (rev (rev pre) ++ nf :: next));; upd (fun fl => set_num (num_frames fl + 1) fl)
           end).
Proof.
  intros Hfr Hpre Hpost Hprev. unfold outcome.
  destruct (frame_new_ok alloc r p d fl rc count_pos) as [[Ha E]|(rc1 & E & Hrc1)];
    [left; split; [done|]; by rewrite (bind_err _ _ _ _ E)|].
  right. rewrite (bind_ret _ _ _ _ _ E).
  assert (Hh : forall q, holders post q <= rcount rc1 q).
  { intros q. rewrite Hrc1. specialize (Hrefs q). unfold others in Hrefs. cbn in Hrefs.
    rewrite Hfr, holders_app in Hrefs. pose proof (holders_nonneg pre q). case_decide; lia. }
  destruct (drop_loop_ok (end_ r) post fl rc1 Hh) as (dr & rest & rc2 & E2 & -> & Hdr & Hrest & Hrc2).
  rewrite (bind_ret _ _ _ _ _ E2). rewrite rev_involutive.
  pose proof (ok_sorted _ Hok) as Hs. rewrite Hfr in Hs.
  apply StronglySorted_app in Hs as (Hx & Hs1 & Hs2).
  assert (Hstart : forall f, f ∈ dr ++ rest -> start r <= f_start f).
  { intros f Hf. destruct (dr ++ rest) as [|g l]; [by apply elem_of_nil in Hf|].
    pose proof (sorted_head l g f Hs2 Hf). specialize (Hpost g eq_refl). lia. }
  assert (Hend : forall f, f ∈ rest -> end_ r < f_end f).
  { intros f Hf. apply StronglySorted_app in Hs2 as (_ & _ & Hs3). destruct rest as [|g l]; [by apply elem_of_nil in Hf|].
    pose proof (sorted_head l g f Hs3 Hf). specialize (Hrest g eq_refl). lia. }
  assert (Hpre2 : forall f, f ∈ pre -> f_start f <= start r /\ f_end f < end_ r).
  { intros f Hf. rewrite Forall_forall in Hpre. split; [specialize (Hpre f Hf); lia|].
    destruct (rev pre) as [|prev l] eqn:Erev.
    - apply (f_equal (@rev STREAM_FRAME)) in Erev. rewrite rev_involutive in Erev. subst. by apply elem_of_nil in Hf.
    - apply (f_equal (@rev STREAM_FRAME)) in Erev. rewrite rev_involutive in Erev. cbn in Erev. zb.
      assert (Hl : last pre = Some prev) by (rewrite Erev; apply last_snoc).
      pose proof (sorted_last pre prev f Hs1 Hl Hf). lia. }
  assert (Hplace : exists s', (upd (set_frames (pre ++ newf :: rest));; upd (fun fl => set_num (num_frames fl + 1) fl))
      (set_num (num_frames fl - Z.of_nat (length dr)) fl, rc2) = (Ret tt, s') /\ grown (fl, rc) s' newf).
  { rewrite place_run. eexists. split; [reflexivity|].
    apply (grown_placed fl rc rc2 pre dr rest newf); try done. intros q. rewrite Hrc2, Hrc1. cbn. lia. }
  destruct (rev pre) as [|prev rp] eqn:Erev; [exact Hplace|]. destruct rest as [|nx l]; [exact Hplace|].
  destruct (Z.leb_spec (f_start nx) (f_end prev)) as [Hgap|Hgap]; [|exact Hplace].
  unfold stream_frame_free. cbn [pkt].
  destruct (release_ok p (set_num (num_frames fl - Z.of_nat (length dr)) fl) rc2) as (rc3 & E3 & Hrc3).
  { intros q Hq. rewrite Hrc2, Hrc1, decide_True by done. specialize (Hrefs q). unfold others in Hrefs. cbn in Hrefs.
    rewrite Hfr, !holders_app in Hrefs. pose proof (holders_nonneg pre q). pose proof (holders_nonneg (nx :: l) q). lia. }
  rewrite (bind_ret _ _ _ _ _ E3). eexists. split; [reflexivity|].
  assert (Hin : prev ∈ pre) by (apply list_elem_of_In, in_rev; rewrite Erev; by left).
  assert (Hnx : nx ∈ nx :: l) by left.
  specialize (Hend nx Hnx) as Hnxend.
  assert (Hdc : forall k, in_frames dr k -> in_frames (pre ++ nx :: l) k).
  { intros k (f & Hf & Hk). rewrite Forall_forall in Hdr. specialize (Hdr f Hf).
    specialize (Hstart f ltac:(rewrite elem_of_app; by left)). rewrite Forall_forall in Hpre. specialize (Hpre prev Hin).
    apply in_frames_app. destruct (Z.lt_ge_cases k (f_end prev)); [left; exists prev|right; exists nx]; split; try done; lia. }
  destruct Hok as [_ Hrg Hlv Hnum Ho]. rewrite Hfr in Hrg, Hlv, Hnum. rewrite !length_app in Hnum.
  rewrite !Forall_app in Hrg, Hlv. destruct Hrg as (Hrg1 & _ & Hrg3), Hlv as (Hlv1 & _ & Hlv3).
  split; cbn; try done.
  - split; cbn; [|by rewrite Forall_app|by rewrite Forall_app|rewrite length_app; lia|done].
    apply StronglySorted_app. split_and!; [|done|by apply StronglySorted_app in Hs2 as (_ & _ & ?)].
    intros f g Hf Hg. apply Hx; [done|]. rewrite elem_of_app. by right.
  - intros k. unfold covered. cbn. rewrite Hfr, !in_frames_app. specialize (Hdc k). rewrite in_frames_app in Hdc.
    assert (Hnfc : start r <= k < end_ r -> in_frames pre k \/ in_frames (nx :: l) k).
    { intros Hk. rewrite Forall_forall in Hpre. specialize (Hpre prev Hin).
      destruct (Z.lt_ge_cases k (f_end prev)); [left; exists prev|right; exists nx]; split; try done; lia. }
    tauto.
  - intros f. rewrite Hfr, !elem_of_app. tauto.
  - assert (Hx2 : exists y z, nx :: l = y ++ [z]).
    { destruct (exists_last (l := nx :: l)) as (y & z & ->); [done|by exists y, z]. }
    destruct Hx2 as (y & z & Eyz). rewrite Eyz in *.
    erewrite (curr_end_snoc _ (pre ++ y) z) by (cbn; by rewrite app_assoc).
    rewrite (curr_end_snoc fl (pre ++ dr ++ y) z) by (rewrite Hfr; by rewrite !app_assoc).
    specialize (Hend z ltac:(rewrite elem_of_app; right; by left)). lia.
  - intros q. unfold others. cbn. rewrite Hfr, Hrc3, Hrc2, Hrc1, !holders_app. lia.
Qed.

End Insert.

(** The debug assertion of an insertion: the end of the data is not before the
    end of a final frame, nor after the end of an earlier one. *)
Definition fin_consistent (fl : SFRAME_LIST) (r : UINT_RANGE) (fin' : bool) : bool :=
  (negb fin' || (curr_end fl <=? end_ r)) && (negb (fin fl) || (end_ r <=? curr_end fl)).

Lemma insert_run alloc r p d fin' fl rc :
  sfl_ok fl -> refs_ok (fl, rc) -> range_ok r -> (forall q, p = Some q -> 0 < others (fl, rc) q) ->
  fin_consistent fl r fin' = true ->
  (alloc = false /\ ossl_sframe_list_insert alloc r p d fin' (fl, rc) = (Err, (fl, rc))) \/
  (exists s1, ossl_sframe_list_insert alloc r p d fin' (fl, rc) = (Ret tt, (set_fin (fin' || fin fl) s1.1, s1.2)) /\
     grown (fl, rc) s1 (mkFrame r p d)).
Proof.
  intros Hok Hrefs Hr Hp Hfin. unfold ossl_sframe_list_insert.
  rewrite (bind_ret get _ (fl, rc) (fl, rc) (fl, rc)) by done. cbn [fst].
  unfold fin_consistent in Hfin. rewrite Hfin. rewrite (bind_ret (assert_ true) _ _ tt (fl, rc)) by done.
  match goal with |- context [(?m ≫= _) _] =>
    assert (Hm : (alloc = false /\ m (fl, rc) = (Err, (fl, rc))) \/
      (exists s1, m (fl, rc) = (Ret tt, s1) /\ grown (fl, rc) s1 (mkFrame r p d))) end.
  2: { destruct Hm as [[Ha E]|(s1 & E & Hg)]; [left|right].
       - by rewrite (bind_err _ _ _ _ E).
       - exists s1. rewrite (bind_ret _ _ _ _ _ E). unfold upd. by rewrite (gr_fin _ _ _ Hg). }
  destruct (Z.leb_spec (end_ r) (offset fl)) as [Hold|Hoff].
  { right. eexists. split; [reflexivity|]. apply grown_same; [done|cbn; lia|]. pose proof (offset_le_end fl Hok). cbn. lia. }
  destruct (last (frames fl)) as [tl|] eqn:El.
  2: { apply last_None in El. by apply first_outcome. }
  pose proof (ok_sorted _ Hok) as Hs.
  destruct (Z.ltb_spec (f_start tl) (start r)) as [Htl|Htl].
  - destruct (Z.leb_spec (end_ r) (f_end tl)) as [Hin|Hout].
    + right. eexists. split; [reflexivity|]. apply grown_same; [done| |].
      * cbn. intros k _ Hk. exists tl. split; [by eapply last_Some_elem_of|lia].
      * unfold curr_end. by rewrite El.
    + apply append_outcome; try done. intros f Hf. pose proof (sorted_last _ _ _ Hs El Hf). lia.
  - destruct (seek_ok r (frames fl) []) as (pre & post & -> & Hfr & Hpre & Hpost). rewrite app_nil_r.
    assert (Hne : exists g post', post = g :: post').
    { destruct post as [|g post']; [|by eexists _, _]. rewrite app_nil_r in Hfr.
      rewrite Forall_forall in Hpre. specialize (Hpre tl). rewrite <- Hfr in Hpre.
      specialize (Hpre (last_Some_elem_of _ _ El)). cbn in Hpre. lia. }
    destruct Hne as (g & post' & Epost). rewrite guard_true by (by rewrite Epost).
    destruct (match rev pre with prev :: _ => end_ r <=? f_end prev | [] => false end) eqn:Eprev.
    + right. eexists. split; [reflexivity|].
      destruct (rev pre) as [|prev rp] eqn:Er; [done|]. zb.
      assert (Hin : prev ∈ pre) by (apply list_elem_of_In, in_rev; rewrite Er; by left).
      assert (Hin' : prev ∈ frames fl) by (rewrite Hfr, elem_of_app; by left).
      rewrite Forall_forall in Hpre. specialize (Hpre prev Hin). cbn in Hpre.
      apply grown_same; [done| |pose proof (elem_end fl prev Hin' Hok); cbn; lia].
      cbn. intros k _ Hk. exists prev. split; [done|lia].
    + by apply middle_outcome.
Qed.

(** ** Peeking *)

(** The position after the frames read so far. *)
Definition position (fl : SFRAME_LIST) (iter : option nat) : option Z :=
  match iter with None => Some (offset fl) | Some i => (fun f => f_end f) <$> frames fl !! i end.

Definition next_of (iter : option nat) : nat := match iter with None => 0%nat | Some i => S i end.

Lemma pos_frame fl j pos : position fl (Some j) = Some pos -> exists g, frames fl !! j = Some g /\ pos = f_end g.
Proof.
  intros Hpos. cbn in Hpos. destruct (frames fl !! j) as [g|]; cbn in Hpos; [|done]. exists g. split; congruence.
Qed.

Lemma pos_offset fl iter pos : sfl_ok fl -> position fl iter = Some pos -> offset fl <= pos.
Proof.
  intros Hok Hpos.
  destruct iter as [j|]; [|cbn in Hpos; injection Hpos as <-; lia].
  destruct (pos_frame _ _ _ Hpos) as (g & Eg & ->). pose proof (ok_live _ Hok) as Hl. rewrite Forall_forall in Hl.
  specialize (Hl g (list_elem_of_lookup_2 _ _ _ Eg)). cbn in Hl. lia.
Qed.

(** Every earlier frame ends by [pos]. *)
Lemma pos_before fl iter pos f :
  sfl_ok fl -> position fl iter = Some pos -> f ∈ take (next_of iter) (frames fl) -> f_end f <= pos.
Proof.
  intros Hok Hpos. destruct iter as [j|]; [|intros Hf; by apply elem_of_nil in Hf].
  destruct (pos_frame _ _ _ Hpos) as (g & Eg & ->). cbn [next_of]. rewrite (take_S_r _ _ _ Eg). intros Hf.
  pose proof (ok_sorted _ Hok) as Hs. rewrite <- (take_drop_middle _ _ _ Eg), cons_middle, app_assoc in Hs.
  apply StronglySorted_app in Hs as (_ & Hs & _). by destruct (sorted_last _ g f Hs (last_snoc _ _) Hf).
Qed.

Lemma pos_next fl iter pos f :
  sfl_ok fl -> position fl iter = Some pos -> frames fl !! next_of iter = Some f -> pos < f_end f.
Proof.
  intros Hok Hpos Ef. destruct iter as [j|]; cbn [next_of] in Ef.
  - destruct (pos_frame _ _ _ Hpos) as (g & Eg & ->). pose proof (ok_sorted _ Hok) as Hs.
    rewrite <- (take_drop_middle _ _ _ Ef) in Hs. apply StronglySorted_app in Hs as (Hx & _ & _).
    apply (Hx g f); [|by left]. apply list_elem_of_lookup. exists j. by rewrite lookup_take_lt by lia.
  - cbn in Hpos. injection Hpos as <-. pose proof (ok_live _ Hok) as Hl. rewrite Forall_forall in Hl.
    apply Hl. by eapply list_elem_of_lookup_2.
Qed.

Lemma pos_last fl iter pos :
  sfl_ok fl -> position fl iter = Some pos -> frames fl !! next_of iter = None -> curr_end fl = pos.
Proof.
  intros Hok Hpos Ef%lookup_ge_None. unfold curr_end. destruct (last (frames fl)) as [t|] eqn:El.
  - destruct iter as [j|]; cbn [next_of] in Ef; [|destruct (frames fl); [done|cbn in Ef; lia]].
    destruct (pos_frame _ _ _ Hpos) as (g & Eg & ->). rewrite last_lookup in El.
    replace (pred (length (frames fl))) with j in El; [congruence|]. apply lookup_lt_Some in Eg. lia.
  - apply last_None in El. destruct iter as [j|]; [|cbn in Hpos; congruence].
    destruct (pos_frame _ _ _ Hpos) as (g & Eg & _). by rewrite El in Eg.
Qed.

(** The frame after [f] ends the data later than [f] does. *)
Lemma fin_of fl i f : sfl_ok fl -> frames fl !! i = Some f ->
  (match frames fl !! S i with None => fin fl | Some _ => false end) =
  (if f_end f =? curr_end fl then fin fl else false).
Proof.
  intros Hok Ef. destruct (frames fl !! S i) as [g|] eqn:Eg.
  - pose proof (elem_end fl g (list_elem_of_lookup_2 _ _ _ Eg) Hok). pose proof (ok_sorted _ Hok) as Hs.
    rewrite <- (take_drop_middle _ _ _ Eg) in Hs. apply StronglySorted_app in Hs as (Hx & _ & _).
    destruct (Hx f g) as [_ Hlt]; [apply list_elem_of_lookup; exists i; by rewrite lookup_take_lt by lia|by left|].
    destruct (Z.eqb_spec (f_end f) (curr_end fl)); [lia|done].
  - unfold curr_end. rewrite last_lookup. replace (pred (length (frames fl))) with i.
    + by rewrite Ef, Z.eqb_refl.
    + apply lookup_ge_None in Eg. apply lookup_lt_Some in Ef. lia.
Qed.

Lemma peek_ok fl iter pos :
  sfl_ok fl -> position fl iter = Some pos ->
  let pk := ossl_sframe_list_peek fl iter in
  if pk_ret pk then
    exists i f, pk_iter pk = Some i /\ frames fl !! i = Some f /\ pk_range pk = mkRange pos (f_end f) /\
      pos < f_end f /\ f_start f <= pos /\ pk_data pk = (drop (Z.to_nat (pos - f_start f)) <$> data f) /\
      pk_fin pk = (if f_end f =? curr_end fl then fin fl else false) /\ i = next_of iter
  else ~ covered fl pos /\ pk_range pk = mkRange pos pos /\
       pk_fin pk = (if pos =? curr_end fl then fin fl else false).
Proof.
  intros Hok Hpos pk. unfold pk, ossl_sframe_list_peek. clear pk.
  assert (Hi : match iter with None => (offset fl, 0%nat)
                 | Some i => (match frames fl !! i with Some sf => f_end sf | None => 0 end, S i) end
               = (pos, next_of iter)).
  { destruct iter as [j|]; [|cbn in Hpos; by injection Hpos as <-].
    destruct (pos_frame _ _ _ Hpos) as (g & -> & ->). done. }
  rewrite Hi. clear Hi. destruct (frames fl !! next_of iter) as [f|] eqn:Ef.
  - pose proof (pos_next _ _ _ _ Hok Hpos Ef) as Hend.
    destruct (Z.ltb_spec pos (f_start f)) as [Hgap|Hgap], (Z.ltb_spec pos (f_end f)); try lia; cbn.
    + split_and!; [|done|].
      * intros [_ (g & Hg & Hk)]. pose proof (ok_sorted _ Hok) as Hs.
        rewrite <- (take_drop_middle _ _ _ Ef) in Hs, Hg. rewrite elem_of_app in Hg.
        apply StronglySorted_app in Hs as (_ & _ & Hs).
        destruct Hg as [Hg|Hg]; [pose proof (pos_before _ _ _ g Hok Hpos Hg); lia|destruct (sorted_head _ _ _ Hs Hg); lia].
      * pose proof (elem_end fl f (list_elem_of_lookup_2 _ _ _ Ef) Hok).
        destruct (Z.eqb_spec pos (curr_end fl)); [lia|done].
    + exists (next_of iter), f. split_and!; try done. by apply fin_of.
  - cbn. split_and!; [|done|by rewrite (pos_last _ _ _ Hok Hpos Ef), Z.eqb_refl].
    intros [_ (g & Hg & Hk)]. apply lookup_ge_None in Ef. pose proof (pos_before _ _ _ g Hok Hpos) as Hb.
    rewrite take_ge in Hb by done. specialize (Hb Hg). lia.
Qed.


(** ** Dropping *)

Record dropped_to (s s' : sfs) (limit : Z) : Prop := {
  dr_ok : sfl_ok s'.1;
  dr_offset : offset s'.1 = limit;
  dr_fin : fin s'.1 = fin s.1;
  dr_locked : head_locked s'.1 = false;
  dr_cleanse : cleanse s'.1 = cleanse s.1;
  dr_covered : forall k, covered s'.1 k <-> covered s.1 k /\ limit <= k;
  dr_frames : forall f, f ∈ frames s'.1 -> f ∈ frames s.1;
  dr_end : curr_end s'.1 = curr_end s.1;
  dr_others : forall p, others s' p = others s p
}.

Lemma drop_frames_ok limit fl rc :
  sfl_ok fl -> refs_ok (fl, rc) ->
  exists s', ossl_sframe_list_drop_frames limit (fl, rc) =
      (if (offset fl <=? limit) && (limit <=? curr_end fl) then Ret tt else Err, s') /\
    if (offset fl <=? limit) && (limit <=? curr_end fl) then dropped_to (fl, rc) s' limit else s' = (fl, rc).
Proof.
  intros Hok Hrefs. unfold ossl_sframe_list_drop_frames.
  rewrite (bind_ret get _ (fl, rc) (fl, rc) (fl, rc)) by done. cbn [fst].
  destruct (Z.leb_spec (offset fl) limit) as [Hlo|Hlo]; cbn [andb]; [rewrite guard_true by done|
    rewrite guard_false by done; by eexists].
  destruct (limit <=? curr_end fl) eqn:Ehi.
  2: { unfold curr_end in Ehi. destruct (last (frames fl)).
       - rewrite guard_false by done. by eexists.
       - rewrite guard_true, guard_false by (done || lia). by eexists. }
  zb. rewrite guard_true by (unfold curr_end in Ehi; destruct (last (frames fl)); lia).
  rewrite guard_true by (unfold curr_end in Ehi; destruct (last (frames fl)); lia).
  erewrite bind_ret by reflexivity. cbn [fst snd].
  destruct (drop_loop_ok limit (frames fl) (set_offset limit fl) rc) as (dr & rest & rc' & E & Hfr & Hdr & Hrest & Hrc).
  { intros p. specialize (Hrefs p). unfold others in Hrefs. cbn in Hrefs. lia. }
  rewrite (bind_ret _ _ _ _ _ E). erewrite bind_ret by reflexivity. eexists. split; [reflexivity|].
  pose proof Hok as [Hs Hrg Hlv Hn Ho]. rewrite Hfr in Hs, Hrg, Hn. apply StronglySorted_app in Hs as (_ & _ & Hs).
  rewrite Forall_app in Hrg. destruct Hrg as [_ Hrg]. rewrite length_app in Hn. rewrite Forall_forall in Hdr.
  assert (Hrest' : forall f, f ∈ rest -> limit < f_end f).
  { intros f Hf. destruct rest as [|g l]; [by apply elem_of_nil in Hf|].
    pose proof (sorted_head l g f Hs Hf). specialize (Hrest g eq_refl). lia. }
  assert (Hmax : limit <= MAX_END).
  { pose proof Hok as [_ Hrg' _ _ _]. rewrite Forall_forall in Hrg'. unfold curr_end in Ehi.
    destruct (last (frames fl)) as [t|] eqn:El; [|lia].
    destruct (Hrg' t (last_Some_elem_of _ _ El)). lia. }
  split; cbn; try done.
  - split; cbn; [done|done|by apply Forall_forall|lia|lia].
  - intros k. unfold covered. cbn. rewrite Hfr, in_frames_app.
    assert (in_frames dr k -> k < limit) by (intros (f & Hf & Hk); specialize (Hdr f Hf); lia).
    split; [intros [Hk Hin]; split; [split; [lia|by right]|done]|].
    intros [[Hk [Hin|Hin]] Hk']; [exfalso; specialize (H Hin); lia|done].
  - intros f Hf. rewrite Hfr, elem_of_app. by right.
  - unfold curr_end in Ehi |- *. cbn. destruct rest as [|x rest _] using rev_ind; cbn.
    + rewrite app_nil_r in Hfr. destruct (last (frames fl)) as [t|] eqn:El; [|lia].
      specialize (Hdr t). rewrite <- Hfr in Hdr. specialize (Hdr (last_Some_elem_of _ _ El)). cbn in Hdr. lia.
    + rewrite Hfr, app_assoc, !last_snoc. done.
  - intros p. unfold others. cbn. rewrite Hfr, Hrc, holders_app. lia.
Qed.

(** ** The stream the frames carry

    [stream k] is the byte at offset [k]; the bytes of frames that have been
    moved are in the side storage, which holds those of the offsets [held]. *)
Section Stream.
Context (stream : Z -> Z).

Definition carries (off : Z) (d : list Z) : Prop := forall (j : nat) x, d !! j = Some x -> x = stream (off + Z.of_nat j).

Definition frame_data (f : STREAM_FRAME) : Prop :=
  match data f with
  | Some d => Z.of_nat (length d) = f_end f - f_start f /\ carries (f_start f) d
  | None => True
  end.

Definition faithful (held : Z -> Prop) (fl : SFRAME_LIST) : Prop :=
  forall f, f ∈ frames fl -> frame_data f /\
    (data f = None -> forall k, offset fl <= k -> f_start f <= k < f_end f -> held k).

Lemma carries_drop off d n : carries off d -> carries (off + Z.of_nat n) (drop n d).
Proof. intros H j x Hx. rewrite lookup_drop in Hx. rewrite (H _ _ Hx). f_equal. lia. Qed.

Lemma faithful_mono (P Q : Z -> Prop) fl : (forall k, P k -> Q k) -> faithful P fl -> faithful Q fl.
Proof. intros HPQ H f Hf. destruct (H f Hf) as [Hd Hn]. split; [done|]. eauto. Qed.

Lemma faithful_insert held s s' nf :
  grown s s' nf -> faithful held s.1 -> frame_data nf ->
  (data nf = None -> f_start nf = f_end nf) -> faithful held s'.1.
Proof.
  intros Hg Hf Hd Hn f Hin. rewrite (gr_offset _ _ _ Hg). destruct (gr_frames _ _ _ Hg f Hin) as [Hin'| ->].
  - by apply Hf.
  - split; [done|]. intros E k _ Hk. specialize (Hn E). lia.
Qed.

Lemma faithful_drop held s s' limit :
  dropped_to s s' limit -> offset s.1 <= limit -> faithful held s.1 -> faithful held s'.1.
Proof.
  intros Hd Hl Hf f Hin. rewrite (dr_offset _ _ _ Hd). destruct (Hf f (dr_frames _ _ _ Hd f Hin)) as [Hd' Hn].
  split; [done|]. intros E k Hk Hr. apply Hn; [done|lia|done].
Qed.

End Stream.

(** What the list promises to its client while data is moved. *)
Record same_data (s s' : sfs) : Prop := {
  sd_ok : sfl_ok s'.1;
  sd_offset : offset s'.1 = offset s.1;
  sd_fin : fin s'.1 = fin s.1;
  sd_locked : head_locked s'.1 = head_locked s.1;
  sd_cleanse : cleanse s'.1 = cleanse s.1;
  sd_covered : forall k, covered s'.1 k <-> covered s.1 k;
  sd_end : curr_end s'.1 = curr_end s.1;
  sd_others : forall p, others s' p = others s p
}.

Lemma same_data_refl s : sfl_ok s.1 -> same_data s s.
Proof. by split. Qed.

Lemma same_data_trans s1 s2 s3 : same_data s1 s2 -> same_data s2 s3 -> same_data s1 s3.
Proof.
  intros [Ha1 Ha2 Ha3 Ha4 Ha5 Ha6 Ha7 Ha8] [Hb1 Hb2 Hb3 Hb4 Hb5 Hb6 Hb7 Hb8].
  split; try congruence.
  intros k. by rewrite Hb6.
Qed.

Lemma same_data_refs s s' : same_data s s' -> refs_ok s -> refs_ok s'.
Proof. intros Hsd Hr p. rewrite (sd_others _ _ Hsd). apply Hr. Qed.

(** Replacing a frame by one with the same range. *)
Lemma replace_same fl rc rc' l1 f f' l2 :
  sfl_ok fl -> frames fl = l1 ++ f :: l2 -> range f' = range f ->
  (forall p, rcount rc' p - holders [f'] p = rcount rc p - holders [f] p) ->
  same_data (fl, rc) (set_frames (l1 ++ f' :: l2) fl, rc').
Proof.
  intros [Hs Hr Hl Hn Ho] Hfr Er Hrc.
  split; cbn; try done.
  - rewrite Hfr in Hs, Hr, Hl, Hn. apply StronglySorted_app in Hs as (Hx & Hs1 & Hs2).
    apply StronglySorted_cons in Hs2 as [Hf Hs2]. rewrite Forall_app, Forall_cons in Hr, Hl.
    split; cbn; [|rewrite Forall_app, Forall_cons, Er; done|rewrite Forall_app, Forall_cons, Er; done|
                 rewrite length_app in *; cbn [length] in *; done|done].
    apply StronglySorted_app. split_and!; [|done|apply StronglySorted_cons; split; [|done]].
    + intros a b Ha Hb. rewrite elem_of_cons in Hb. destruct Hb as [-> |Hb].
      * unfold lt_frame. rewrite Er. apply Hx; [done|by left].
      * apply Hx; [done|by right].
    + eapply Forall_impl; [exact Hf|]. intros b. unfold lt_frame. by rewrite Er.
  - intros k. unfold covered. cbn. by rewrite Hfr, !in_frames_app, !in_frames_cons, Er.
  - unfold curr_end. cbn. rewrite Hfr. destruct l2 as [|x l2 _] using rev_ind.
    + by rewrite !last_snoc, Er.
    + change (f' :: l2 ++ [x]) with ((f' :: l2) ++ [x]). change (f :: l2 ++ [x]) with ((f :: l2) ++ [x]).
      by rewrite !app_assoc, !last_snoc.
  - intros p. unfold others. cbn. specialize (Hrc p). rewrite Hfr, !holders_app, !holders_cons in *.
    unfold holders in *. cbn in *. lia.
Qed.

(** Merging a frame into the one before it. *)
Lemma merge_same fl rc rc' l1 prev sf l2 :
  sfl_ok fl -> frames fl = l1 ++ prev :: sf :: l2 -> f_start sf <= f_end prev ->
  (forall p, rcount rc' p = rcount rc p - holders [sf] p) ->
  same_data (fl, rc) (set_num (num_frames fl - 1) (set_frames
    (l1 ++ mkFrame (mkRange (f_start prev) (f_end sf)) (pkt prev) (data prev) :: l2) fl), rc').
Proof.
  intros [Hs Hr Hl Hn Ho] Hfr Hadj Hrc. rewrite Hfr in Hs, Hr, Hl, Hn.
  apply StronglySorted_app in Hs as (Hx & Hs1 & Hs2). apply StronglySorted_cons in Hs2 as [Hp Hs2].
  apply StronglySorted_cons in Hs2 as [Hf Hs2]. rewrite Forall_cons in Hp. destruct Hp as [[Hp1 Hp2] Hp].
  rewrite Forall_app, !Forall_cons in Hr, Hl. destruct Hr as (Hr1 & Hr2 & Hr3 & Hr4), Hl as (Hl1 & Hl2 & Hl3 & Hl4).
  rewrite length_app in Hn. cbn [length] in Hn.
  split; cbn; try done.
  - split; cbn; [|rewrite Forall_app, Forall_cons|rewrite Forall_app, Forall_cons|rewrite length_app; cbn [length]; lia|done].
    + apply StronglySorted_app. split_and!; [|done|apply StronglySorted_cons; split; [|done]].
      * intros a b Ha Hb. rewrite elem_of_cons in Hb. destruct Hb as [-> |Hb]; [|apply Hx; [done|by do 2 right]].
        destruct (Hx a prev Ha ltac:(by left)). destruct (Hx a sf Ha ltac:(right; by left)). by split.
      * rewrite Forall_forall in Hp, Hf |- *. intros b Hb. destruct (Hp b Hb), (Hf b Hb). by split.
    + split_and!; [done| |done]. unfold range_ok in *. cbn. lia.
    + done.
  - intros k. unfold covered. cbn. rewrite Hfr, !in_frames_app, !in_frames_cons. cbn.
    assert ((f_start prev <= k < f_end sf) <-> (f_start prev <= k < f_end prev \/ f_start sf <= k < f_end sf)) by lia.
    tauto.
  - unfold curr_end. cbn. rewrite Hfr. destruct l2 as [|x l2 _] using rev_ind.
    + change (l1 ++ [prev; sf]) with (l1 ++ [prev] ++ [sf]). by rewrite app_assoc, !last_snoc.
    + change (prev :: sf :: l2 ++ [x]) with ((prev :: sf :: l2) ++ [x]).
      match goal with |- context [last (l1 ++ ?y :: l2 ++ [x])] => change (y :: l2 ++ [x]) with ((y :: l2) ++ [x]) end.
      by rewrite !app_assoc, !last_snoc.
  - intros p. unfold others. cbn. rewrite Hrc, Hfr, !holders_app, !holders_cons. cbn [pkt].
    unfold holders. cbn. lia.
Qed.

(** ** Moving data to a side storage

    What a side storage promises: a write it accepts makes it hold the bytes
    written, and it forgets nothing. *)
Class SideStorage {W} (write_at : Z -> list Z -> Z -> M W unit) (stream : Z -> Z)
    (inv : W -> Prop) (holds : W -> Z -> Prop) : Prop := {
  storage_write w off d :
    inv w -> 0 <= off -> off + Z.of_nat (length d) <= MAX_END -> carries stream off d ->
    exists r w', write_at off d (Z.of_nat (length d)) w = (r, w') /\ r <> Undef /\ inv w' /\
      (forall k, holds w k -> holds w' k) /\
      (r = Ret tt -> forall k, off <= k < off + Z.of_nat (length d) -> holds w' k)
}.

Section Moving.
Context {W : Type} {write_at : Z -> list Z -> Z -> M W unit} {stream : Z -> Z}
  {inv : W -> Prop} {holds : W -> Z -> Prop} `{!SideStorage write_at stream inv holds}.

Record move_inv (fl : SFRAME_LIST) (rc : refs) (w : W) (pre rdone l : list STREAM_FRAME) (limit : Z) : Prop := {
  mv_frames : frames fl = pre ++ rev rdone ++ l;
  mv_ok : sfl_ok fl;
  mv_refs : refs_ok (fl, rc);
  mv_store : inv w;
  mv_data : faithful stream (holds w) fl;
  mv_done : Forall (fun f => data f = None) rdone;
  mv_limit : limit = offset fl \/ exists prev rd, rdone = prev :: rd /\ limit = f_end prev
}.

(** What [move_loop] does in any case, and when it succeeds. *)
Definition move_post (pre : list STREAM_FRAME) (s : sfs) (w : W) (out : res unit * (sfs * W)) : Prop :=
  exists r s' w', out = (r, (s', w')) /\ r <> Undef /\ same_data s s' /\ inv w' /\
    (forall k, holds w k -> holds w' k) /\ faithful stream (holds w') s'.1 /\
    (r = Ret tt -> forall f, f ∈ frames s'.1 -> f ∈ pre \/ data f = None).

Lemma limit_bounds fl rc w pre rdone sf l limit :
  move_inv fl rc w pre rdone (sf :: l) limit -> offset fl <= limit < f_end sf.
Proof.
  intros [Hfr Hok _ _ _ _ Hlim]. pose proof Hok as [Hs _ Hl _ _]. rewrite Forall_forall in Hl.
  assert (Hsf : sf ∈ frames fl) by (rewrite Hfr, !elem_of_app; right; right; by left).
  destruct Hlim as [-> |(prev & rd & -> & ->)]; [specialize (Hl sf Hsf); cbn in Hl; lia|].
  rewrite Hfr in Hs. apply StronglySorted_app in Hs as (_ & _ & Hs). apply StronglySorted_app in Hs as (Hx & _ & _).
  assert (Hp : prev ∈ rev (prev :: rd)) by (apply list_elem_of_In, in_rev; rewrite rev_involutive; by left).
  destruct (Hx prev sf Hp ltac:(by left)). split; [|done].
  specialize (Hl prev). cbn in Hl. apply Z.lt_le_incl, Hl. rewrite Hfr, !elem_of_app. right. by left.
Qed.

(** The bytes of [sf] below the limit are held already. *)
Lemma below_limit fl rc w pre rdone sf l limit k :
  move_inv fl rc w pre rdone (sf :: l) limit -> offset fl <= k -> f_start sf <= k < limit -> holds w k.
Proof.
  intros [Hfr Hok _ _ Hd Hdone Hlim] Hk Hks. destruct Hlim as [-> |(prev & rd & -> & ->)]; [lia|].
  rewrite Forall_cons in Hdone. destruct Hdone as [Hnone _].
  assert (Hp : prev ∈ rev (prev :: rd)) by (apply list_elem_of_In, in_rev; rewrite rev_involutive; by left).
  assert (Hin : prev ∈ frames fl) by (rewrite Hfr, !elem_of_app; right; by left).
  pose proof (ok_sorted _ Hok) as Hs. rewrite Hfr in Hs. apply StronglySorted_app in Hs as (_ & _ & Hs).
  apply StronglySorted_app in Hs as (Hx & _ & _). destruct (Hx prev sf Hp ltac:(by left)).
  apply (proj2 (Hd prev Hin) Hnone k); lia.
Qed.

(** One frame whose data is moved. *)
Lemma move_frame fl rc w pre rdone sf l limit d lim :
  move_inv fl rc w pre rdone (sf :: l) limit -> data sf = Some d ->
  lim = (if limit <? f_start sf then f_start sf else limit) ->
  let sf' := mkFrame (range sf) None None in
  let fl' := set_frames (pre ++ rev rdone ++ sf' :: l) fl in
  let d' := if f_start sf <? lim then drop (Z.to_nat (lim - f_start sf)) d else d in
  exists r w', write_at lim d' (f_end sf - lim) w = (r, w') /\ r <> Undef /\ inv w' /\
    (forall k, holds w k -> holds w' k) /\
    (r = Ret tt -> faithful stream (holds w') fl' /\
     exists rc', ossl_qrx_pkt_release (pkt sf) (fl, rc) = (Ret tt, (fl, rc')) /\ same_data (fl, rc) (fl', rc')).
Proof.
  intros Hmv Ed Elim sf' fl' d'. pose proof (limit_bounds _ _ _ _ _ _ _ _ Hmv) as Hb.
  pose proof (fun k => below_limit _ _ _ _ _ _ _ _ k Hmv) as Hbelow.
  destruct Hmv as [Hfr Hok Hrefs Hinv Hd Hdone _].
  assert (Hsf : sf ∈ frames fl) by (rewrite Hfr, !elem_of_app; right; right; by left).
  pose proof Hok as [_ Hr _ _ Ho]. rewrite Forall_forall in Hr. destruct (Hr sf Hsf) as [Hr1 Hr2]. clear Hr.
  destruct (Hd sf Hsf) as [Hfd _]. unfold frame_data in Hfd. rewrite Ed in Hfd. destruct Hfd as [Hlen Hcar].
  assert (Hlim : f_start sf <= lim < f_end sf \/ lim = f_start sf) by (subst lim; zcase; lia).
  assert (Hlb : offset fl <= lim /\ limit <= lim /\ (lim = limit \/ lim = f_start sf)) by (subst lim; zcase; lia).
  assert (Hle : lim <= f_end sf) by lia.
  assert (Hd' : Z.of_nat (length d') = f_end sf - lim /\ carries stream lim d').
  { unfold d'. destruct (Z.ltb_spec (f_start sf) lim); [|replace lim with (f_start sf) by lia; done].
    rewrite length_drop. split; [lia|]. replace lim with (f_start sf + Z.of_nat (Z.to_nat (lim - f_start sf))) at 1 by lia.
    by apply carries_drop. }
  destruct Hd' as [Hlen' Hcar'].
  destruct (storage_write w lim d' Hinv) as (r & w' & E & Hnu & Hinv' & Hmono & Hnew); [lia|lia|done|].
  rewrite Hlen' in E, Hnew. exists r, w'. split_and!; try done. intros Hret. specialize (Hnew Hret). split.
  - intros f Hf. cbn in Hf |- *. rewrite !elem_of_app, elem_of_cons in Hf.
    destruct (decide (f = sf')) as [-> |Hne].
    + split; [done|]. intros _ k Hk Hks. cbn in Hks.
      destruct (Z.lt_ge_cases k lim); [apply Hmono, Hbelow; lia|apply Hnew; lia].
    + assert (Hin : f ∈ frames fl) by (rewrite Hfr, !elem_of_app, elem_of_cons; tauto).
      destruct (Hd f Hin) as [? Hn]. split; [done|]. eauto.
  - destruct (release_ok (pkt sf) fl rc) as (rc' & Er & Hrc').
    { intros q Hq. specialize (Hrefs q). unfold others in Hrefs. cbn in Hrefs.
      rewrite Hfr, !holders_app, holders_cons, decide_True in Hrefs by done.
      pose proof (holders_nonneg pre q). pose proof (holders_nonneg (rev rdone) q). pose proof (holders_nonneg l q). lia. }
    exists rc'. split; [done|]. unfold fl'. rewrite app_assoc.
    apply (replace_same fl rc rc' (pre ++ rev rdone) sf sf' l); [done|by rewrite Hfr, app_assoc|done|].
    intros q. rewrite Hrc', !holders_cons. cbn [pkt sf']. rewrite (decide_False (P := None = Some q)) by done. lia.
Qed.

(** The invariant after a frame has been moved, or had been before. *)
Lemma move_done fl rc w pre rdone sf l limit fl' rc' w' sf' :
  move_inv fl rc w pre rdone (sf :: l) limit -> same_data (fl, rc) (fl', rc') ->
  frames fl' = pre ++ rev rdone ++ sf' :: l -> data sf' = None -> inv w' -> faithful stream (holds w') fl' ->
  move_inv fl' rc' w' pre (sf' :: rdone) l (f_end sf').
Proof.
  intros [Hfr Hok Hrefs _ _ Hdone _] Hsd Hfr' Hn Hinv Hfa. split; try done.
  - rewrite Hfr'. cbn. by rewrite <- app_assoc.
  - apply (sd_ok _ _ Hsd).
  - by eapply same_data_refs.
  - by constructor.
  - right. by eexists _, _.
Qed.

Lemma move_merge fl rc w pre prev rdone sf l limit :
  move_inv fl rc w pre (sf :: prev :: rdone) l limit -> f_start sf <= f_end prev ->
  let prev' := mkFrame (mkRange (f_start prev) (f_end sf)) (pkt prev) (data prev) in
  exists fl' rc', ossl_qrx_pkt_release (pkt sf) (set_num (num_frames fl - 1)
      (set_frames (pre ++ rev (prev' :: rdone) ++ l) fl), rc) = (Ret tt, (fl', rc')) /\
    same_data (fl, rc) (fl', rc') /\ move_inv fl' rc' w pre (prev' :: rdone) l (f_end sf).
Proof.
  intros [Hfr Hok Hrefs Hinv Hd Hdone _] Hadj prev'. rewrite !Forall_cons in Hdone. destruct Hdone as (Hsn & Hpn & Hdone).
  assert (Hfr' : frames fl = (pre ++ rev rdone) ++ prev :: sf :: l) by (rewrite Hfr; cbn; by rewrite <- !app_assoc).
  destruct (release_ok (pkt sf) (set_num (num_frames fl - 1) (set_frames (pre ++ rev (prev' :: rdone) ++ l) fl)) rc)
    as (rc' & Er & Hrc').
  { intros q Hq. specialize (Hrefs q). unfold others in Hrefs. cbn in Hrefs.
    rewrite Hfr', holders_app, !holders_cons, (decide_True (P := pkt sf = Some q)) in Hrefs by done.
    pose proof (holders_nonneg (pre ++ rev rdone) q). pose proof (holders_nonneg l q). case_decide; lia. }
  eexists _, rc'. split; [exact Er|].
  assert (Hsd : same_data (fl, rc) (set_num (num_frames fl - 1) (set_frames (pre ++ rev (prev' :: rdone) ++ l) fl), rc')).
  { replace (pre ++ rev (prev' :: rdone) ++ l) with ((pre ++ rev rdone) ++ prev' :: l) by (cbn; by rewrite <- !app_assoc).
    apply (merge_same fl rc rc' (pre ++ rev rdone) prev sf l); try done.
    intros q. rewrite Hrc', holders_cons. unfold holders. cbn. lia. }
  split; [done|]. split; [done|apply (sd_ok _ _ Hsd)|by eapply same_data_refs|done| |by constructor|right; by eexists _, _].
  assert (Hp : prev ∈ frames fl /\ sf ∈ frames fl) by (rewrite Hfr', !elem_of_app, !elem_of_cons; tauto).
  intros f Hf. cbn in Hf |- *. rewrite !elem_of_app, elem_of_cons in Hf. destruct (decide (f = prev')) as [-> |Hne].
  - split; [unfold frame_data; cbn; by rewrite Hpn|]. intros _ k Hk Hks. cbn in Hks.
    destruct (Z.lt_ge_cases k (f_end prev)).
    + apply (proj2 (Hd prev (proj1 Hp)) Hpn); lia.
    + apply (proj2 (Hd sf (proj2 Hp)) Hsn); lia.
  - apply Hd. rewrite Hfr', !elem_of_app, !elem_of_cons. rewrite elem_of_nil in Hf. tauto.
Qed.

Lemma move_post_step pre s s1 w w1 out :
  same_data s s1 -> (forall k, holds w k -> holds w1 k) -> move_post pre s1 w1 out -> move_post pre s w out.
Proof.
  intros Hsd Hm (r & s' & w' & -> & Hnu & Hsd' & Hinv & Hm' & Hf & Hr). exists r, s', w'.
  split_and!; try done; [by eapply same_data_trans|auto].
Qed.

Lemma move_one_ok pre rdone limit fl rc w sf l lim :
  move_inv fl rc w pre rdone (sf :: l) limit -> lim = (if limit <? f_start sf then f_start sf else limit) ->
  (exists w1, inv w1 /\ (forall k, holds w k -> holds w1 k) /\
     move_one write_at pre rdone lim sf l ((fl, rc), w) = (Err, ((fl, rc), w1))) \/
  (exists sf' fl1 rc1 w1, move_one write_at pre rdone lim sf l ((fl, rc), w) = (Ret sf', ((fl1, rc1), w1)) /\
     same_data (fl, rc) (fl1, rc1) /\ (forall k, holds w k -> holds w1 k) /\
     move_inv fl1 rc1 w1 pre (sf' :: rdone) l (f_end sf')).
Proof.
  intros Hmv Elim. unfold move_one. destruct (data sf) as [d|] eqn:Ed.
  - destruct (move_frame fl rc w pre rdone sf l limit d lim Hmv Ed Elim) as (r & w1 & E & Hnu & Hinv & Hm & Hret).
    assert (Eo : on_store (write_at lim (if f_start sf <? lim then drop (Z.to_nat (lim - f_start sf)) d else d)
      (f_end sf - lim)) (fl, rc, w) = (r, (fl, rc, w1))) by (unfold on_store; cbn [fst snd]; by rewrite E).
    destruct r as [[]| |]; [right|left; exists w1; by rewrite (bind_err _ _ _ _ Eo)|done].
    destruct (Hret eq_refl) as (Hfa & rc1 & Er & Hsd).
    rewrite (bind_ret _ _ _ _ _ Eo). erewrite bind_ret by (unfold on_list; cbn [fst snd]; rewrite Er; reflexivity).
    eexists _, _, rc1, w1. split; [reflexivity|]. split_and!; try done.
    by eapply (move_done fl rc w pre rdone sf l limit).
  - right. exists sf, fl, rc, w. split; [done|]. split_and!; try done; [apply same_data_refl, Hmv|].
    eapply (move_done fl rc w pre rdone sf l limit); try done; [apply same_data_refl, Hmv|apply Hmv..].
Qed.

Lemma move_loop_ok l : forall pre rdone limit fl rc w,
  move_inv fl rc w pre rdone l limit ->
  move_post pre (fl, rc) w (move_loop write_at pre rdone limit l ((fl, rc), w)).
Proof.
  induction l as [|sf l IH]; intros pre rdone limit fl rc w Hmv; cbn [move_loop].
  { destruct Hmv as [Hfr Hok Hrefs Hinv Hd Hdone _]. exists (Ret tt), (fl, rc), w.
    split_and!; try done. intros _ f. cbn. rewrite Hfr, app_nil_r, elem_of_app. intros [Hf|Hf]; [by left|right].
    rewrite Forall_forall in Hdone. apply Hdone. by apply list_elem_of_In, in_rev, list_elem_of_In. }
  destruct (move_one_ok pre rdone limit fl rc w sf l _ Hmv eq_refl)
    as [(w1 & Hinv & Hm & E)|(sf' & fl1 & rc1 & w1 & E & Hsd & Hm & Hmv1)].
  { rewrite (bind_err _ _ _ _ E). exists Err, (fl, rc), w1. split_and!; try done; [apply same_data_refl, Hmv|].
    eapply faithful_mono; [exact Hm|apply Hmv]. }
  rewrite (bind_ret _ _ _ _ _ E). eapply move_post_step; [exact Hsd|exact Hm|]. cbv zeta.
  destruct rdone as [|prev rdone]; [by apply IH|].
  destruct (Z.leb_spec (f_start sf') (f_end prev)) as [Hadj|Hadj]; [|by apply IH].
  destruct (move_merge fl1 rc1 w1 pre prev rdone sf' l (f_end sf') Hmv1 Hadj) as (fl2 & rc2 & E2 & Hsd2 & Hmv2).
  do 2 erewrite bind_ret by reflexivity.
  erewrite bind_ret by (unfold on_list, stream_frame_free; cbn [fst snd num_frames set_frames]; rewrite E2; reflexivity).
  eapply move_post_step; [exact Hsd2|done|]. by apply IH.
Qed.

Lemma move_data_ok fl rc w :
  sfl_ok fl -> refs_ok (fl, rc) -> inv w -> faithful stream (holds w) fl ->
  move_post (if head_locked fl then take 1 (frames fl) else []) (fl, rc) w
    (ossl_sframe_list_move_data write_at ((fl, rc), w)).
Proof.
  intros Hok Hrefs Hinv Hfa. unfold ossl_sframe_list_move_data.
  rewrite (bind_ret get _ _ ((fl, rc), w) ((fl, rc), w)) by done. cbn [fst].
  destruct (frames fl) as [|h l] eqn:Ef.
  - exists (Ret tt), (fl, rc), w. split_and!; try done. intros _ f. cbn. rewrite Ef. set_solver.
  - destruct (head_locked fl); apply move_loop_ok; split; try done; by left.
Qed.

End Moving.

(** What inserting a frame does, for every well-formed list and every range
    the peer may send.  Either there is no memory and nothing changes, or the
    offsets covered are those covered before and those of the new range not yet
    read, the list is still sorted by the frames' starts and ends, the final flag
    is kept, only the new frame was added, and every reference the list takes on
    a packet or gives up is accounted for.  The assertions of the code hold. *)
Theorem sframe_insert_correct alloc r p d fin' fl rc :
  sfl_ok fl -> refs_ok (fl, rc) -> range_ok r -> (forall q, p = Some q -> 0 < others (fl, rc) q) ->
  fin_consistent fl r fin' = true ->
  (alloc = false /\ ossl_sframe_list_insert alloc r p d fin' (fl, rc) = (Err, (fl, rc))) \/
  exists fl' rc', ossl_sframe_list_insert alloc r p d fin' (fl, rc) = (Ret tt, (fl', rc')) /\
    sfl_ok fl' /\ fin fl' = fin' || fin fl /\ offset fl' = offset fl /\
    (forall k, covered fl' k <-> covered fl k \/ offset fl <= k /\ start r <= k < end_ r) /\
    (forall f, f ∈ frames fl' -> f ∈ frames fl \/ f = mkFrame r p d) /\
    curr_end fl' = Z.max (curr_end fl) (end_ r) /\
    (forall q, rcount rc' q - holders (frames fl') q = rcount rc q - holders (frames fl) q).
Proof.
  intros Hok Hrefs Hr Hp Hfin.
  destruct (insert_run alloc r p d fin' fl rc Hok Hrefs Hr Hp Hfin) as [H|([l1 rc1] & E & [G1 G2 G3 G4 G5 G6 G7 G8 G9])];
    [by left|right]. eexists _, _. split; [exact E|]. cbn in *. split_and!; try done. by destruct G1.
Qed.

Definition sample_list : SFRAME_LIST :=
  mkSfl [mkFrame (mkRange 0 4) (Some 1%nat) (Some [1; 2; 3; 4]); mkFrame (mkRange 6 9) (Some 2%nat) (Some [7; 8; 9])]
    false 2 0 false false.
Definition sample_refs : gmap nat Z := <[1%nat := 2]> {[2%nat := 1]}.

Lemma sample_list_ok : sfl_ok sample_list /\ refs_ok (sample_list, sample_refs).
Proof.
  split.
  - split; cbn; try (unfold MAX_END; lia); repeat constructor; cbn; try lia; unfold MAX_END; try lia.
  - intros q. unfold others, rcount, sample_refs. cbn [fst snd sample_list frames].
    destruct (decide (q = 1%nat)) as [-> |H1]; [by vm_compute|]. destruct (decide (q = 2%nat)) as [-> |H2]; [by vm_compute|].
    rewrite lookup_insert_ne, lookup_singleton_ne by done.
    rewrite !holders_cons, !decide_False by (cbn; congruence). by vm_compute.
Qed.

Lemma sframe_insert_correct_witness :
  exists fl' rc', ossl_sframe_list_insert true (mkRange 3 7) (Some 1%nat) (Some [4; 5; 6; 7]) false (sample_list, sample_refs) =
      (Ret tt, (fl', rc')) /\ (forall k, covered fl' k <-> 0 <= k < 9) /\ rc' !! 1%nat = Some 3.
Proof.
  destruct sample_list_ok as [Hok Hrefs].
  destruct (sframe_insert_correct true (mkRange 3 7) (Some 1%nat) (Some [4; 5; 6; 7]) false sample_list sample_refs)
    as [[? _]|(fl' & rc' & E & _ & _ & _ & Hc & _)]; [exact Hok|exact Hrefs|unfold range_ok, MAX_END; cbn; lia| |reflexivity|discriminate|].
  { intros q [= <-]. vm_compute. reflexivity. }
  exists fl', rc'. split; [exact E|]. split.
  - intros k. rewrite Hc. unfold covered, sample_list. cbn. rewrite !in_frames_cons. cbn.
    assert (~ in_frames [] k) by (intros (f & Hf & _); by apply elem_of_nil in Hf). intuition lia.
  - vm_compute in E. injection E as <- <-. reflexivity.
Defined.

(** Two consequences of the order of the checks.  A frame that starts where the
    head starts and ends inside it is linked in, although the list is documented
    to hold no frame inside another; and a frame that covers the head replaces it
    even while it is locked, giving up the packet of a record that has been
    handed out. *)
Theorem sframe_insert_head_quirks :
  (let ins r := ossl_sframe_list_insert true r (Some 1%nat) None false in
   frames (((ins (mkRange 0 10);; ins (mkRange 0 5)) (ossl_sframe_list_init, {[1%nat := 1]})).2.1) =
     [mkFrame (mkRange 0 5) (Some 1%nat) None; mkFrame (mkRange 0 10) (Some 1%nat) None]) /\
  (let l := set_locked true (set_num 1 (set_frames [mkFrame (mkRange 0 5) (Some 1%nat) (Some [1; 2; 3; 4; 5])] ossl_sframe_list_init)) in
   let s := (ossl_sframe_list_insert true (mkRange 0 10) (Some 2%nat) None false (l, <[1%nat := 1]> {[2%nat := 1]})).2 in
   head_locked s.1 = true /\ s.2 !! 1%nat = Some 0).
Proof. vm_compute. done. Qed.

End SfList.
