(* ===== verification/RStream.v ===== *)
(** * Receive streams

    Model of [ssl/quic/quic_rstream.c]: the receiving half of a stream, made of
    a list of stream frames ([SfList]), a ring buffer the data of frames is
    moved to when packets must be released ([RingBuf]), the flow controller
    that is told what the application has read ([QuicFc]) and the RTT estimate
    ([Statm]).  The flow controllers live in a store, since a stream's and its
    connection's are shared with other parts; the packet reference counters and
    the clock are part of the state for the same reason. *)
From Stdlib Require Import ZArith Lia.
From stdpp Require Import base tactics list gmap sorting.
From S2P Require Import Prelude OsslTime UintSet QuicFc Statm RingBuf SfList.
#[local] Open Scope Z_scope.
Import UintSet RingBuf SfList.

Module RStream.

Record QUIC_RSTREAM := mkRs {
  fl : SFRAME_LIST; rxfc : option nat; statm : option Statm.OSSL_STATM;
  head_range : UINT_RANGE; rbuf : ring_buf;
  pkts : gmap nat Z; fcs : Rxfc.store; ck : clock
}.

Definition set_fl (l : SFRAME_LIST) (rc : gmap nat Z) (s : QUIC_RSTREAM) : QUIC_RSTREAM :=
  mkRs l (rxfc s) (statm s) (head_range s) (rbuf s) rc (fcs s) (ck s).
Definition set_rbuf (r : ring_buf) (s : QUIC_RSTREAM) : QUIC_RSTREAM :=
  mkRs (fl s) (rxfc s) (statm s) (head_range s) r (pkts s) (fcs s) (ck s).
Definition set_head_range (r : UINT_RANGE) (s : QUIC_RSTREAM) : QUIC_RSTREAM :=
  mkRs (fl s) (rxfc s) (statm s) r (rbuf s) (pkts s) (fcs s) (ck s).
Definition set_fcs (h : Rxfc.store) (s : QUIC_RSTREAM) : QUIC_RSTREAM :=
  mkRs (fl s) (rxfc s) (statm s) (head_range s) (rbuf s) (pkts s) h (ck s).

(** Calls into the parts. *)
Definition on_fl {A} (m : M (SFRAME_LIST * gmap nat Z) A) : M QUIC_RSTREAM A := fun s =>
  let '(r, (l, rc)) := m (fl s, pkts s) in (r, set_fl l rc s).
Definition on_rbuf {A} (m : M ring_buf A) : M QUIC_RSTREAM A := fun s =>
  let '(r, rb) := m (rbuf s) in (r, set_rbuf rb s).

(** [alloc] and [alloc_rb]: whether the allocations of the stream and of the
    ring buffer succeed. *)
Definition ossl_quic_rstream_new (rxfc : option nat) (statm : option Statm.OSSL_STATM) (rbuf_size : Z)
    (alloc alloc_rb : bool) (pkts : gmap nat Z) (fcs : Rxfc.store) (ck : clock) : option QUIC_RSTREAM :=
  if negb alloc then None
  else
    match ring_buf_resize alloc_rb rbuf_size ring_buf_init with
    | (Ret _, rb) => Some (mkRs ossl_sframe_list_init rxfc statm (mkRange 0 0) rb pkts fcs ck)
    | _ => None
    end.

(** The state that is left, whose packet counters are those of the
    environment; [None] for a null stream. *)
Definition ossl_quic_rstream_free (qrs : option QUIC_RSTREAM) : res (option QUIC_RSTREAM) :=
  match qrs with
  | None => Ret None
  | Some s =>
      match on_fl ossl_sframe_list_destroy s with
      | (Ret _, s) => Ret (Some (set_rbuf (ring_buf_destroy (rbuf s)) s))
      | _ => Undef
      end
  end.

Definition ossl_quic_rstream_queue_data (alloc : bool) (pkt : option nat) (offset : Z) (data : option (list Z))
    (data_len : Z) (fin : bool) : M QUIC_RSTREAM unit :=
  guard_ (negb ((is_null data && negb (data_len =? 0)) || ((data_len =? 0) && negb fin)));;
  on_fl (ossl_sframe_list_insert alloc (mkRange offset (u64 (offset + data_len))) pkt data fin).

(** [memcpy] of [l] bytes from the list a pointer points to. *)
Definition copy_out (src : list Z) (l : Z) : M QUIC_RSTREAM (list Z) :=
  if l <=? Z.of_nat (length src) then mret (take (Z.to_nat l) src) else undefined.

(** [ring_buf_get_ptr]: the bytes from the one asked for to the end of the
    block, and [*max_len]. *)
Definition ring_ptr (off : Z) : M QUIC_RSTREAM (option (list Z * Z)) := fun s =>
  match ring_buf_get_ptr (rbuf s) off with
  | Ret None => (Ret None, s)
  | Ret (Some (idx, max_len)) => (Ret (Some (drop (Z.to_nat idx) (rb_start (rbuf s)), max_len)), s)
  | _ => (Undef, s)
  end.

(** The [l] bytes of a frame at [start], from the packet or from the ring
    buffer, in at most two pieces. *)
Definition frame_bytes (data : option (list Z)) (start l : Z) : M QUIC_RSTREAM (list Z) :=
  match data with
  | Some d => copy_out d l
  | None =>
      p ← ring_ptr start;
      match p with
      | None => fail
      | Some (src, max_len) =>
          if max_len <? l then
            a ← copy_out src max_len;
            q ← ring_ptr (u64 (start + max_len));
            match q with
            | None => fail
            | Some (src2, max_len2) =>
                guard_ (u64 (l - max_len) <? max_len2);;
                b ← copy_out src2 (u64 (l - max_len));
                mret (a ++ b)
            end
          else copy_out src l
      end
  end.

(** The loop of [read_internal]: what was read, the offset reached and [fin].
    There are no more rounds than frames. *)
Fixpoint read_loop (fuel : nat) (iter : option nat) (size : Z) (acc : list Z) (offset : Z)
    : M QUIC_RSTREAM (list Z * Z * bool) :=
  s ← get;
  let pk := ossl_sframe_list_peek (fl s) iter in
  if pk_ret pk then
    match fuel with
    | O => undefined
    | S fuel =>
        let len := u64 (end_ (pk_range pk) - start (pk_range pk)) in
        let '(l, fin) := if size <? len then (size, false) else (len, pk_fin pk) in
        let offset := u64 (start (pk_range pk) + l) in
        if l =? 0 then mret (acc, offset, fin)
        else
          bs ← frame_bytes (pk_data pk) (start (pk_range pk)) l;
          if u64 (size - l) =? 0 then mret (acc ++ bs, offset, fin)
          else read_loop fuel (pk_iter pk) (u64 (size - l)) (acc ++ bs) offset
    end
  else mret (acc, offset, pk_fin pk).

(** The end of [read_internal] when data is dropped: the ring buffer is culled
    whether or not the list accepted the offset. *)
Definition drop_read (offset : Z) (out : list Z * bool) : M QUIC_RSTREAM (list Z * bool) := fun s1 =>
  let '(ret, s2) := on_fl (ossl_sframe_list_drop_frames offset) s1 in
  match on_rbuf (ring_buf_cpop_range 0 (u64 (offset - 1)) (cleanse (fl s2))) s2, ret with
  | (Ret _, s3), Ret _ => (Ret out, s3)
  | (Ret _, s3), Err => (Err, s3)
  | (_, s3), _ => (Undef, s3)
  end.

(** The bytes copied to [buf], whose number is [*readbytes], and [*fin]. *)
Definition read_internal (size : Z) (drop : bool) : M QUIC_RSTREAM (list Z * bool) :=
  s ← get;
  r ← read_loop (length (frames (fl s))) None size [] 0;
  let '(bs, offset, fin) := r in
  if drop && negb (offset =? 0) then drop_read offset (bs, fin) else mret (bs, fin).

Definition get_rtt (s : QUIC_RSTREAM) : OsslTime.OSSL_TIME :=
  match statm s with
  | Some st => Statm.info_smoothed_rtt (Statm.ossl_statm_get_rtt_info st)
  | None => OsslTime.ossl_time_zero
  end.

(** [if (qrs->rxfc != NULL && !ossl_quic_rxfc_on_retire(...)) return 0]. *)
Definition retire (num : Z) (rtt : OsslTime.OSSL_TIME) : M QUIC_RSTREAM unit := fun s =>
  match rxfc s with
  | None => (Ret tt, s)
  | Some p =>
      match Rxfc.ossl_quic_rxfc_on_retire (ck s) (fcs s) p num rtt with
      | Some (true, h) => (Ret tt, set_fcs h s)
      | Some (false, h) => (Err, set_fcs h s)
      | None => (Undef, s)
      end
  end.

Definition ossl_quic_rstream_read (size : Z) : M QUIC_RSTREAM (list Z * bool) :=
  s ← get;
  let rtt := get_rtt s in
  r ← read_internal size true;
  retire (Z.of_nat (length r.1)) rtt;;
  mret r.

Definition ossl_quic_rstream_peek (size : Z) : M QUIC_RSTREAM (list Z * bool) := read_internal size false.

Fixpoint available_loop (fuel : nat) (l : SFRAME_LIST) (iter : option nat) (avail : Z) : option (Z * bool) :=
  let pk := ossl_sframe_list_peek l iter in
  if pk_ret pk then
    match fuel with
    | O => None
    | S fuel => available_loop fuel l (pk_iter pk) (u64 (avail + u64 (end_ (pk_range pk) - start (pk_range pk))))
    end
  else Some (avail, pk_fin pk).

(** [*avail] and [*fin]. *)
Definition ossl_quic_rstream_available (s : QUIC_RSTREAM) : option (Z * bool) :=
  available_loop (length (frames (fl s))) (fl s) None 0.

(** The record (absent when null), its length and [*fin]; with no readable
    head, or a locked one, there is no record, and [*fin] is what the list
    reported, or untouched. *)
Definition ossl_quic_rstream_get_record : M QUIC_RSTREAM (option (list Z) * Z * option bool) :=
  s ← get;
  let '(pk, l) := ossl_sframe_list_lock_head (fl s) in
  match pk with
  | None =>
      let f := if head_locked (fl s) then None else Some (pk_fin (ossl_sframe_list_peek (fl s) None)) in
      mret (None, 0, f)
  | Some pk =>
      modify (set_fl l (pkts s));;
      modify (set_head_range (pk_range pk));;
      (if end_ (pk_range pk) =? start (pk_range pk) then
         guard_ (pk_fin pk);; on_fl (ossl_sframe_list_drop_frames (end_ (pk_range pk)))
       else mret tt);;
      let rec_len := u64 (end_ (pk_range pk) - start (pk_range pk)) in
      if is_null (pk_data pk) && negb (rec_len =? 0) then
        p ← ring_ptr (start (pk_range pk));
        match p with
        | None => fail
        | Some (src, max_len) =>
            if max_len <? rec_len then
              modify (set_head_range (mkRange (start (pk_range pk)) (u64 (start (pk_range pk) + max_len))));;
              mret (Some src, max_len, Some (pk_fin pk))
            else mret (Some src, rec_len, Some (pk_fin pk))
        end
      else mret (pk_data pk, rec_len, Some (pk_fin pk))
  end.

Definition ossl_quic_rstream_release_record (read_len : Z) : M QUIC_RSTREAM unit :=
  s ← get;
  guard_ (ossl_sframe_list_is_head_locked (fl s));;
  let hr := head_range s in
  offset ← (if u64 (end_ hr - start hr) <? read_len
            then guard_ (read_len =? SIZE_MAX);; mret (end_ hr)
            else mret (u64 (start hr + read_len)));
  on_fl (ossl_sframe_list_drop_frames offset);;
  (if 0 <? offset then s ← get; on_rbuf (ring_buf_cpop_range 0 (u64 (offset - 1)) (cleanse (fl s))) else mret tt);;
  s ← get;
  retire offset (get_rtt s).

Definition write_at_ring_buf_cb (logical_offset : Z) (buf : list Z) (buf_len : Z) : M ring_buf unit :=
  ring_buf_write_at logical_offset buf buf_len.

Definition on_fl_rbuf {A} (m : M ((SFRAME_LIST * gmap nat Z) * ring_buf) A) : M QUIC_RSTREAM A := fun s =>
  let '(r, ((l, rc), rb)) := m ((fl s, pkts s), rbuf s) in (r, set_rbuf rb (set_fl l rc s)).

Definition ossl_quic_rstream_move_to_rbuf : M QUIC_RSTREAM unit :=
  s ← get;
  guard_ (negb (ring_buf_avail (rbuf s) =? 0));;
  on_fl_rbuf (ossl_sframe_list_move_data write_at_ring_buf_cb).

Definition ossl_quic_rstream_resize_rbuf (alloc : bool) (rbuf_size : Z) : M QUIC_RSTREAM unit :=
  s ← get;
  guard_ (negb (ossl_sframe_list_is_head_locked (fl s)));;
  on_rbuf (ring_buf_resize alloc rbuf_size).

Definition ossl_quic_rstream_set_cleanse (cleanse : bool) : M QUIC_RSTREAM unit :=
  modify (fun s => set_fl (mkSfl (frames (fl s)) (fin (fl s)) (num_frames (fl s)) (offset (fl s))
                            (head_locked (fl s)) cleanse) (pkts s) s).

(** ** The stream a receiver sees *)
Section Stream.
Context (stream : Z -> Z).

(** The bytes of the stream from [off] on. *)
Definition slice (off n : Z) : list Z := (fun j => stream (off + Z.of_nat j)) <$> seq 0 (Z.to_nat n).

Lemma length_slice off n : length (slice off n) = Z.to_nat n.
Proof. unfold slice. by rewrite length_fmap, length_seq. Qed.

Lemma lookup_slice off n (j : nat) : (j < Z.to_nat n)%nat -> slice off n !! j = Some (stream (off + Z.of_nat j)).
Proof. intros Hj. unfold slice. by rewrite list_lookup_fmap, lookup_seq_lt by done. Qed.

Lemma take_slice src off l :
  0 <= l <= Z.of_nat (length src) ->
  (forall j : nat, Z.of_nat j < l -> src !! j = Some (stream (off + Z.of_nat j))) -> take (Z.to_nat l) src = slice off l.
Proof.
  intros Hl Hs. apply list_eq_same_length with (Z.to_nat l); [by rewrite length_slice|rewrite length_take; lia|].
  intros j x y Hj Hx Hy. rewrite lookup_take_lt, Hs in Hx by lia. rewrite lookup_slice in Hy by done. congruence.
Qed.

Lemma slice_app off a b : 0 <= a -> 0 <= b -> slice off a ++ slice (off + a) b = slice off (a + b).
Proof.
  intros Ha Hb. unfold slice. rewrite Z2Nat.inj_add by done. rewrite seq_app, fmap_app. f_equal.
  replace (seq (0 + Z.to_nat a) (Z.to_nat b)) with (Nat.add (Z.to_nat a) <$> seq 0 (Z.to_nat b))
    by (rewrite fmap_add_seq; f_equal; lia).
  rewrite <- list_fmap_compose.
  apply list_fmap_ext. intros j x Hx. cbn. f_equal. lia.
Qed.

Lemma slice_nil off : slice off 0 = [].
Proof. done. Qed.

(** The offsets whose bytes the ring buffer holds. *)
Definition held (r : ring_buf) (k : Z) : Prop :=
  ctail_offset r <= k < head_offset r /\ byte_at r k = Some (stream k).

#[local] Instance ring_side_storage o :
  SideStorage write_at_ring_buf_cb stream (fun r => rb_ok r /\ ctail_offset r <= o) held.
Proof.
  split. intros r off d [Hr Ho] Hoff Hend Hcar.
  destruct (write_at_ok r off d Hr Hoff Hend) as (r' & E & Hw). unfold write_at_ring_buf_cb. rewrite E.
  destruct (accepts r off (Z.of_nat (length d))) eqn:Ea.
  2: { eexists _, r'. split; [reflexivity|]. subst r'. split_and!; try done. }
  eexists _, r'. split; [reflexivity|]. split; [done|]. destruct Hw as [Hok Ha Hc Hh Hb].
  assert (Hin : forall k, off <= k < off + Z.of_nat (length d) ->
    exists x, d !! Z.to_nat (k - off) = Some x /\ x = stream k).
  { intros k Hk. destruct (lookup_lt_is_Some_2 d (Z.to_nat (k - off))) as [x Hx]; [lia|].
    exists x. split; [done|]. rewrite (Hcar _ _ Hx). f_equal. lia. }
  unfold accepts in Ea. zb. destruct Hr as [Hr1 Hr2 Hr3 Hr4 Hr5]. split_and!; [done|lia| |].
  - intros k [Hk Hkb]. split; [rewrite Hc, Hh; case_decide; lia|].
    rewrite Hb by (unfold in_window; lia). clear Hh. case_decide as Hd; [|done].
    destruct (Hin k Hd) as (x & -> & ->). done.
  - intros _ k Hk. split.
    + rewrite Hc, Hh, decide_False; [lia|]. intros ->. cbn in Hk. lia.
    + rewrite Hb, decide_True by (unfold in_window; lia). destruct (Hin k Hk) as (x & -> & ->). done.
Qed.

Record rs_ok (s : QUIC_RSTREAM) : Prop := {
  rs_list : sfl_ok (fl s);
  rs_refs : refs_ok (fl s, pkts s);
  rs_ring : rb_ok (rbuf s);
  rs_data : faithful stream (held (rbuf s)) (fl s);
  rs_tail : ctail_offset (rbuf s) <= offset (fl s)
}.

(** *** Reading the bytes of one frame *)

Lemma held_range r pos l k : (forall j, pos <= j < pos + l -> held r j) -> pos <= k < pos + l ->
  byte_at r k = Some (stream k).
Proof. intros H Hk. by destruct (H k Hk). Qed.

Lemma ring_ptr_ok s pos :
  rb_ok (rbuf s) -> held (rbuf s) pos ->
  exists src max_len, ring_ptr pos s = (Ret (Some (src, max_len)), s) /\
    0 < max_len <= Z.of_nat (length src) /\ max_len = alloc (rbuf s) - pos mod alloc (rbuf s) /\
    forall j : nat, Z.of_nat j < max_len -> src !! j = byte_at (rbuf s) (pos + Z.of_nat j).
Proof.
  intros [Ho Hm Hf Hlen Ha] [Hp _]. unfold ring_ptr, ring_buf_get_ptr.
  destruct (Z.leb_spec (head_offset (rbuf s)) pos); [lia|]. destruct (Z.ltb_spec pos (ctail_offset (rbuf s))); [lia|].
  cbn [orb]. destruct (Z.eqb_spec (alloc (rbuf s)) 0); [lia|].
  pose proof (Z.mod_pos_bound pos (alloc (rbuf s)) ltac:(lia)) as Hidx.
  eexists _, _. split; [reflexivity|]. rewrite length_drop. split_and!; [lia|lia|done|].
  intros j Hj. rewrite lookup_drop. unfold byte_at. rewrite mod_step by lia. f_equal. lia.
Qed.

Lemma copy_slice s src off l :
  0 <= l <= Z.of_nat (length src) ->
  (forall j : nat, Z.of_nat j < l -> src !! j = Some (stream (off + Z.of_nat j))) ->
  copy_out src l s = (Ret (slice off l), s).
Proof.
  intros Hl Hs. unfold copy_out. destruct (Z.leb_spec l (Z.of_nat (length src))); [|lia].
  by rewrite (take_slice src off l).
Qed.

Lemma ring_bytes_ok s pos l :
  rb_ok (rbuf s) -> 0 < l -> (forall k, pos <= k < pos + l -> held (rbuf s) k) ->
  frame_bytes None pos l s = (Ret (slice pos l), s).
Proof.
  intros Hr Hl Hh. cbn [frame_bytes]. pose proof Hr as [Ho Hm Hf Hlen Ha]. pose proof max_offset_val.
  destruct (ring_ptr_ok s pos Hr (Hh pos ltac:(lia))) as (src & ml & E & Hml & Eml & Hsrc).
  rewrite (bind_ret _ _ _ _ _ E).
  assert (Hby : forall j : nat, Z.of_nat j < ml -> Z.of_nat j < l -> src !! j = Some (stream (pos + Z.of_nat j))).
  { intros j Hj Hjl. rewrite Hsrc by done. eapply held_range; [exact Hh|lia]. }
  destruct (Hh pos ltac:(lia)) as [Hp1 _]. destruct (Hh (pos + l - 1) ltac:(lia)) as [Hp2 _].
  destruct (Z.ltb_spec ml l) as [Hw|Hw].
  2: { apply copy_slice; [lia|]. intros j Hj. apply Hby; lia. }
  erewrite bind_ret by (apply (copy_slice s src pos ml); [lia|intros j Hj; apply Hby; lia]).
  rewrite (u64_id (pos + ml)), (u64_id (l - ml)) by (unfold is_u64; lia).
  destruct (ring_ptr_ok s (pos + ml) Hr (Hh (pos + ml) ltac:(lia))) as (src2 & ml2 & E2 & Hml2 & Eml2 & Hsrc2).
  assert (Hz : (pos + ml) mod alloc (rbuf s) = 0).
  { rewrite Eml. apply Z.mod_divide; [lia|]. exists (pos / alloc (rbuf s) + 1).
    pose proof (Z.div_mod pos (alloc (rbuf s)) ltac:(lia)). nia. }
  rewrite (bind_ret _ _ _ _ _ E2), guard_true by lia.
  erewrite bind_ret.
  2: { apply (copy_slice s src2 (pos + ml) (l - ml)); [lia|]. intros j Hj. rewrite Hsrc2 by lia.
       eapply held_range; [exact Hh|lia]. }
  unfold mret, M_ret. do 2 f_equal. rewrite slice_app by lia. f_equal. lia.
Qed.

Lemma frame_bytes_ok s f pos l :
  rs_ok s -> f ∈ frames (fl s) -> offset (fl s) <= pos -> f_start f <= pos -> 0 < l <= f_end f - pos ->
  frame_bytes (drop (Z.to_nat (pos - f_start f)) <$> data f) pos l s = (Ret (slice pos l), s).
Proof.
  intros [Hl Hrc Hr Hd _] Hf Ho Hs Hlen. destruct (Hd f Hf) as [Hfd Hfn]. unfold frame_data in Hfd.
  destruct (data f) as [d|] eqn:Ed; cbn [fmap option_fmap option_map].
  - destruct Hfd as [Hlen' Hcar]. apply copy_slice; [rewrite length_drop; lia|].
    intros j Hj. rewrite lookup_drop.
    destruct (lookup_lt_is_Some_2 d (Z.to_nat (pos - f_start f) + j)%nat) as [x Hx]; [lia|].
    rewrite Hx, (Hcar _ _ Hx). do 2 f_equal. lia.
  - apply ring_bytes_ok; [done|lia|]. intros k Hk. apply Hfn; [done|lia|lia].
Qed.

(** *** The read loop *)

Lemma covered_end l k : sfl_ok l -> covered l k -> k < curr_end l.
Proof. intros Hok [_ (f & Hf & Hk)]. pose proof (elem_end l f Hf Hok). lia. Qed.

Lemma curr_end_max l : sfl_ok l -> curr_end l <= MAX_END.
Proof.
  intros Hok. unfold curr_end. destruct (last (frames l)) as [t|] eqn:El; [|apply Hok].
  pose proof (ok_ranges _ Hok) as Hr. rewrite Forall_forall in Hr. by destruct (Hr t (last_Some_elem_of _ _ El)).
Qed.

(** [n] bytes from [pos] can be read into a buffer of [size] bytes. *)
Record readable (l : SFRAME_LIST) (pos size n : Z) : Prop := {
  rd_size : 0 <= n <= size;
  rd_covered : forall k, pos <= k < pos + n -> covered l k;
  rd_max : n < size -> ~ covered l (pos + n)
}.

Lemma readable_end l pos size n :
  sfl_ok l -> readable l pos size n -> offset l <= pos <= curr_end l -> offset l <= pos + n <= curr_end l.
Proof.
  intros Hok [Hn Hc _] Hp. destruct (decide (n = 0)) as [-> |]; [lia|].
  pose proof (covered_end l (pos + n - 1) Hok (Hc (pos + n - 1) ltac:(lia))). lia.
Qed.

Lemma read_loop_ok s : rs_ok s -> forall fuel iter size acc off pos,
  position (fl s) iter = Some pos -> (length (frames (fl s)) <= next_of iter + fuel)%nat ->
  0 <= size < UINT64_MOD ->
  exists n o, read_loop fuel iter size acc off s =
      (Ret (acc ++ slice pos n, o, fin (fl s) && (pos + n =? curr_end (fl s))), s) /\
    readable (fl s) pos size n /\ (o = pos + n \/ o = off /\ n = 0).
Proof.
  intros Hrs fuel. pose proof Hrs as [Hok _ _ _ _].
  induction fuel as [|fuel IH]; intros iter size acc off pos Hpos Hf Hsz; cbn [read_loop];
    rewrite (bind_ret get _ s s s) by done;
    pose proof (peek_ok (fl s) iter pos Hok Hpos) as Hpk; cbn zeta in Hpk |- *;
    pose proof (pos_offset (fl s) iter pos Hok Hpos) as Hoff;
    destruct (pk_ret (ossl_sframe_list_peek (fl s) iter)) eqn:Eret.
  2, 4: destruct Hpk as (Hnc & _ & Hfin); exists 0, off; rewrite Hfin, slice_nil, app_nil_r, Z.add_0_r;
    (split; [unfold mret, M_ret; do 3 f_equal; destruct (_ =? _), (fin (fl s)); done|]);
    (split; [split; [lia|lia|by rewrite Z.add_0_r]|by right]).
  { destruct Hpk as (i & f & _ & Ef & _ & _ & _ & _ & _ & ->). apply lookup_lt_Some in Ef. lia. }
  destruct Hpk as (i & f & Ei & Ef & Er & Hlt & Hst & Ed & Efin & Enext).
  rewrite Er, Ed, Ei, Efin. cbn [start end_].
  assert (Hin : f ∈ frames (fl s)) by (by eapply list_elem_of_lookup_2).
  pose proof (ok_ranges _ Hok) as Hr. rewrite Forall_forall in Hr. destruct (Hr f Hin) as [Hr1 Hr2]. unfold MAX_END in Hr2.
  pose proof (ok_offset _ Hok) as Hoo. pose proof (elem_end (fl s) f Hin Hok) as Hee.
  rewrite (u64_id (f_end f - pos)) by (unfold is_u64; lia).
  assert (Hcov : forall k, pos <= k < f_end f -> covered (fl s) k) by (intros k Hk; split; [lia|exists f; split; [done|lia]]).
  destruct (Z.ltb_spec size (f_end f - pos)) as [Hsm|Hsm].
  - (* the buffer ends inside the frame *)
    assert (Hfin : fin (fl s) && (pos + size =? curr_end (fl s)) = false)
      by (destruct (Z.eqb_spec (pos + size) (curr_end (fl s))); [lia|apply andb_false_r]).
    exists size, (pos + size). rewrite Hfin. rewrite (u64_id (pos + size)) by (unfold is_u64; lia).
    split; [|split; [split; [lia|intros; apply Hcov; lia|lia]|by left]].
    destruct (Z.eqb_spec size 0) as [-> |Hnz]; [by rewrite slice_nil, app_nil_r|].
    rewrite (bind_ret _ _ _ _ _ (frame_bytes_ok s f pos size Hrs Hin Hoff Hst ltac:(lia))).
    by rewrite Z.sub_diag.
  - rewrite (u64_id (pos + (f_end f - pos))) by (unfold is_u64; lia).
    destruct (Z.eqb_spec (f_end f - pos) 0) as [|_]; [lia|].
    rewrite (bind_ret _ _ _ _ _ (frame_bytes_ok s f pos (f_end f - pos) Hrs Hin Hoff Hst ltac:(lia))).
    rewrite (u64_id (size - (f_end f - pos))) by (unfold is_u64; lia).
    replace (pos + (f_end f - pos)) with (f_end f) by lia.
    destruct (Z.eqb_spec (size - (f_end f - pos)) 0) as [Hz|Hnz].
    + exists (f_end f - pos), (f_end f). replace (pos + (f_end f - pos)) with (f_end f) by lia.
      split; [unfold mret, M_ret; do 3 f_equal; by destruct (_ =? _), (fin (fl s))|].
      split; [split; [lia|intros; apply Hcov; lia|lia]|by left].
    + destruct (IH (Some i) (size - (f_end f - pos)) (acc ++ slice pos (f_end f - pos)) (f_end f) (f_end f))
        as (n & o & E & Hrd & Ho); [cbn; by rewrite Ef|cbn [next_of]; lia|lia|].
      exists (f_end f - pos + n), o. pose proof (rd_size _ _ _ _ Hrd) as Hn.
      split; [|split; [|left; destruct Ho as [->|[-> ->]]; lia]].
      * rewrite E, <- app_assoc. replace (f_end f) with (pos + (f_end f - pos)) at 2 by lia.
        rewrite slice_app by lia. do 5 f_equal. lia.
      * destruct Hrd as [_ Hc Hm]. split; [lia| |].
        -- intros k Hk. destruct (Z.lt_ge_cases k (f_end f)); [apply Hcov; lia|apply Hc; lia].
        -- intros Hlt'. replace (pos + (f_end f - pos + n)) with (f_end f + n) by lia. apply Hm. lia.
Qed.

(** *** Consuming: the list and the ring buffer move on together *)

Lemma faithful_from (P Q : Z -> Prop) l :
  (forall k, offset l <= k -> P k -> Q k) -> faithful stream P l -> faithful stream Q l.
Proof. intros HPQ H f Hf. destruct (H f Hf) as [Hd Hn]. split; [done|]. intros E k Hk Hr. eauto. Qed.

(** What a receiver that has read up to [o] keeps. *)
Record advanced (s s' : QUIC_RSTREAM) (o : Z) : Prop := {
  ad_ok : rs_ok s';
  ad_offset : offset (fl s') = o;
  ad_covered : forall k, covered (fl s') k <-> covered (fl s) k /\ o <= k;
  ad_fin : fin (fl s') = fin (fl s);
  ad_end : curr_end (fl s') = curr_end (fl s);
  ad_others : forall p, others (fl s', pkts s') p = others (fl s, pkts s) p;
  ad_rxfc : rxfc s' = rxfc s;
  ad_lock : head_locked (fl s') = true -> s' = s
}.

Lemma advanced_refl s : rs_ok s -> advanced s s (offset (fl s)).
Proof. intros Hrs. split; try done. intros k. split; [|tauto]. intros Hc. split; [done|]. by destruct Hc. Qed.

(** Dropping frames, then culling the ring buffer unless nothing was read. *)
Lemma consume_ok s o :
  rs_ok s -> offset (fl s) <= o <= curr_end (fl s) ->
  exists s1, on_fl (ossl_sframe_list_drop_frames o) s = (Ret tt, s1) /\
    (o = 0 -> advanced s s1 o) /\
    (0 < o -> exists s2, on_rbuf (ring_buf_cpop_range 0 (u64 (o - 1)) (cleanse (fl s1))) s1 = (Ret tt, s2) /\
       advanced s s2 o).
Proof.
  intros [Hok Hrc Hr Hd Ht] Ho. pose proof max_offset_val as Hmv. pose proof (ok_offset _ Hok) as Hoo.
  destruct (drop_frames_ok o (fl s) (pkts s) Hok Hrc) as ([l1 rc1] & E & Hdr).
  destruct (Z.leb_spec (offset (fl s)) o), (Z.leb_spec o (curr_end (fl s))); try lia; cbn [andb] in E, Hdr.
  pose proof (faithful_drop stream (held (rbuf s)) _ _ _ Hdr H Hd) as Hfd.
  destruct Hdr as [Dok Dof Dfin Dlk Dcl Dcov Dfr Dend Doth]. cbn in Dok, Dof, Dfin, Dlk, Dcl, Dcov, Dfr, Dend, Hfd.
  pose proof (ok_offset _ Dok) as Hmax. rewrite Dof in Hmax. unfold MAX_END in Hmax.
  exists (set_fl l1 rc1 s). split; [unfold on_fl; by rewrite E|].
  assert (Hrefs : refs_ok (l1, rc1)) by (intros p; rewrite Doth; apply Hrc).
  split; [intros Hz|intros Hpos].
  - split; cbn; try done; [|congruence]. split; cbn; try done. lia.
  - rewrite (u64_id (o - 1)) by (unfold is_u64; lia).
    destruct (cpop_ok (rbuf s) 0 (o - 1) (cleanse l1)) as (r' & Ec & Hr' & Ha' & Hc' & Hh' & Hk);
      [done|lia|destruct Hr; lia|lia|lia|].
    exists (set_rbuf r' (set_fl l1 rc1 s)). unfold on_rbuf. cbn [rbuf set_fl fl]. rewrite Ec. split; [reflexivity|].
    split; cbn; try done; [|congruence]. split; cbn; try done; [|lia].
    apply (faithful_from (held (rbuf s))); [|done].
    intros k Hk1 [Hk2 Hkb]. destruct Hr as [_ _ Hfit _ _]. split; [lia|]. rewrite Hk by lia. done.
Qed.

Lemma read_internal_ok s size drop :
  rs_ok s -> 0 <= size < UINT64_MOD ->
  exists n s', read_internal size drop s =
      (Ret (slice (offset (fl s)) n, fin (fl s) && (offset (fl s) + n =? curr_end (fl s))), s') /\
    readable (fl s) (offset (fl s)) size n /\
    if drop then advanced s s' (offset (fl s) + n) else s' = s.
Proof.
  intros Hrs Hsz. pose proof Hrs as [Hok _ _ _ _]. unfold read_internal. rewrite (bind_ret get _ s s s) by done.
  destruct (read_loop_ok s Hrs (length (frames (fl s))) None size [] 0 (offset (fl s)) eq_refl) as (n & o & E & Hrd & Ho);
    [cbn; lia|done|]. rewrite (bind_ret _ _ _ _ _ E). cbn [app].
  pose proof (readable_end _ _ _ _ Hok Hrd) as Hend. pose proof (offset_le_end _ Hok). pose proof (ok_offset _ Hok).
  pose proof (rd_size _ _ _ _ Hrd). exists n.
  assert (Hadv0 : o = 0 -> offset (fl s) + n = offset (fl s)).
  { intros ->. destruct Ho as [Ho|[_ ->]]; lia. }
  destruct drop; cbn [andb]; [|by exists s].
  destruct (Z.eqb_spec o 0) as [Hz|Hnz]; cbn [negb].
  - exists s. rewrite (Hadv0 Hz). split_and!; [done|done|by apply advanced_refl].
  - assert (o = offset (fl s) + n) as -> by (destruct Ho as [Ho|[Ho ->]]; lia).
    destruct (consume_ok s (offset (fl s) + n) Hrs) as (s1 & E1 & _ & Hc); [lia|].
    destruct Hc as (s2 & E2 & Hadv); [lia|].
    exists s2. unfold drop_read. rewrite E1, E2. done.
Qed.

(** Reading with flow control: the flow controller is told the number of bytes
    read; without one, reading always succeeds. *)
Lemma read_ok s size :
  rs_ok s -> 0 <= size < UINT64_MOD -> rxfc s = None ->
  exists n s', ossl_quic_rstream_read size s =
      (Ret (slice (offset (fl s)) n, fin (fl s) && (offset (fl s) + n =? curr_end (fl s))), s') /\
    readable (fl s) (offset (fl s)) size n /\ advanced s s' (offset (fl s) + n).
Proof.
  intros Hrs Hsz Hfc. unfold ossl_quic_rstream_read. rewrite (bind_ret get _ s s s) by done.
  destruct (read_internal_ok s size true Hrs Hsz) as (n & s' & E & Hrd & Hadv).
  rewrite (bind_ret _ _ _ _ _ E). exists n, s'. split_and!; try done.
  erewrite bind_ret by (unfold retire; rewrite (ad_rxfc _ _ _ Hadv), Hfc; reflexivity). done.
Qed.

(** *** Receiving *)

Lemma queue_ok s alloc p off d fin' :
  rs_ok s -> 0 <= off -> off + Z.of_nat (length d) <= MAX_END -> carries stream off d ->
  (forall q, p = Some q -> 0 < others (fl s, pkts s) q) ->
  fin_consistent (fl s) (mkRange off (off + Z.of_nat (length d))) fin' = true -> (d = [] -> fin' = true) ->
  exists r s', ossl_quic_rstream_queue_data alloc p off (Some d) (Z.of_nat (length d)) fin' s = (r, s') /\
    (r = Err /\ alloc = false /\ s' = s \/
     r = Ret tt /\ rs_ok s' /\ offset (fl s') = offset (fl s) /\ rxfc s' = rxfc s /\
     head_range s' = head_range s /\ head_locked (fl s') = head_locked (fl s) /\
     fin (fl s') = fin' || fin (fl s) /\ curr_end (fl s') = Z.max (curr_end (fl s)) (off + Z.of_nat (length d)) /\
     (forall k, covered (fl s') k <-> covered (fl s) k \/ offset (fl s) <= k /\ off <= k < off + Z.of_nat (length d)) /\
     (forall q, others (fl s', pkts s') q = others (fl s, pkts s) q)).
Proof.
  intros [Hok Hrc Hr Hd Ht] Hoff Hend Hcar Hp Hfin Hne. unfold MAX_END in Hend.
  unfold ossl_quic_rstream_queue_data. cbn [is_null andb orb].
  rewrite guard_true by (destruct d as [|b d]; cbn [length]; [rewrite (Hne eq_refl); done|]; destruct (Z.eqb_spec (Z.of_nat (S (length d))) 0); [lia|done]).
  rewrite (u64_id (off + _)) by (unfold is_u64; lia). set (rg := mkRange off (off + Z.of_nat (length d))) in *.
  destruct (insert_run alloc rg p (Some d) fin' (fl s) (pkts s)) as [[Ha E]|([l1 rc1] & E & Hg)];
    [done|done|unfold range_ok, MAX_END; cbn; lia|done|done| |].
  - exists Err, s. unfold on_fl. rewrite E. split; [by destruct s|]. left. by split_and!.
  - eexists (Ret tt), _. split; [unfold on_fl; rewrite E; reflexivity|]. right.
    pose proof Hg as [Gok Gfin Goff Glk Gcl Gcov Gfr Gend Goth]. cbn in *.
    split_and!; try done.
    split; cbn; try done; [|intros q; pose proof (Goth q) as G; pose proof (Hrc q) as G'; unfold others in *; cbn in *; lia| |].
    + by destruct Gok.
    + pose proof (faithful_insert stream (held (rbuf s)) _ _ _ Hg Hd) as Hf. cbn in Hf. apply Hf; [|done].
      unfold frame_data. cbn. split; [lia|done].
    + by rewrite Goff.
Qed.

(** *** Records *)

(** A record that has been handed out and not released. *)
Definition lent (s : QUIC_RSTREAM) (rec : list Z) : Prop :=
  head_locked (fl s) = true ->
  let hr := head_range s in
  start hr = offset (fl s) /\ start hr <= end_ hr <= curr_end (fl s) /\ rec = slice (start hr) (end_ hr - start hr).

(** Nothing of the stream's data changes. *)
Record same_stream (s s' : QUIC_RSTREAM) : Prop := {
  ss_ok : rs_ok s';
  ss_offset : offset (fl s') = offset (fl s);
  ss_fin : fin (fl s') = fin (fl s);
  ss_end : curr_end (fl s') = curr_end (fl s);
  ss_covered : forall k, covered (fl s') k <-> covered (fl s) k;
  ss_others : forall p, others (fl s', pkts s') p = others (fl s, pkts s) p;
  ss_rxfc : rxfc s' = rxfc s
}.

Lemma same_refl s : rs_ok s -> same_stream s s.
Proof. by split. Qed.

Lemma rs_ok_same l rc s r :
  rs_ok s -> same_data (fl s, pkts s) (l, rc) -> rb_ok r -> faithful stream (held r) l ->
  ctail_offset r <= offset (fl s) ->
  same_stream s (set_rbuf r (set_fl l rc s)).
Proof.
  intros [Hok Hrc Hr Hd Ht] Hsd Hr' Hd' Ht'. pose proof (same_data_refs _ _ Hsd Hrc).
  destruct Hsd as [S1 S2 S3 S4 S5 S6 S7 S8]. cbn in *. split; cbn; try done.
  split; cbn; try done. by rewrite S2.
Qed.

(** Locking the head, or setting [cleanse], changes no frame. *)
Lemma flags_same s b1 b2 hr :
  rs_ok s ->
  same_stream s (set_head_range hr (set_fl (mkSfl (frames (fl s)) (fin (fl s)) (num_frames (fl s)) (offset (fl s)) b1 b2)
                                      (pkts s) s)).
Proof.
  intros [[H1 H2 H3 H4 H5] Hrc Hr Hd Ht]. split; cbn; try done.
Qed.

(** What [get_record] reports when the head is not locked: the next record,
    which it locks, or none. *)
Definition record_post (s s' : QUIC_RSTREAM) (rec : option (list Z)) (len : Z) (b : bool) : Prop :=
  if head_locked (fl s') then
    lent s' (take (Z.to_nat len) (default [] rec)) /\ 0 < len /\ len = end_ (head_range s') - start (head_range s') /\
    (b = true -> fin (fl s) = true /\ forall k, end_ (head_range s') <= k < curr_end (fl s) -> covered (fl s) k) /\
    (fin (fl s) = true -> end_ (head_range s') = curr_end (fl s) -> b = true)
  else ~ covered (fl s) (offset (fl s)) /\ rec = None /\ len = 0 /\ b = fin (fl s) && (offset (fl s) =? curr_end (fl s)).

Abbreviation locked_at s e := (set_head_range (mkRange (offset (fl s)) e) (set_fl (set_locked true (fl s)) (pkts s) s)).

Lemma record_lent s e d (b : bool) :
  rs_ok s -> offset (fl s) < e <= curr_end (fl s) ->
  take (Z.to_nat (e - offset (fl s))) d = slice (offset (fl s)) (e - offset (fl s)) ->
  (b = true -> fin (fl s) = true /\ forall k, e <= k < curr_end (fl s) -> covered (fl s) k) ->
  (fin (fl s) = true -> e = curr_end (fl s) -> b = true) ->
  same_stream s (locked_at s e) /\ record_post s (locked_at s e) (Some d) (e - offset (fl s)) b.
Proof.
  intros Hrs He Ed Hb Hb'. split; [by apply flags_same|]. unfold record_post. cbn. split_and!; try done; [|lia].
  intros _. cbn. split_and!; [done|lia|change (curr_end (set_locked true (fl s))) with (curr_end (fl s)); lia|done].
Qed.

Lemma get_record_ok s :
  rs_ok s ->
  exists rec len f s', ossl_quic_rstream_get_record s = (Ret (rec, len, f), s') /\ same_stream s s' /\
    if head_locked (fl s) then rec = None /\ len = 0 /\ f = None /\ s' = s
    else exists b, f = Some b /\ record_post s s' rec len b.
Proof.
  intros Hrs. pose proof Hrs as [Hok Hrc Hr Hd Ht]. unfold ossl_quic_rstream_get_record.
  rewrite (bind_ret get _ s s s) by done. unfold ossl_sframe_list_lock_head.
  destruct (head_locked (fl s)) eqn:Elk.
  { eexists _, _, _, _. split; [reflexivity|]. split; [by apply same_refl|done]. }
  pose proof (peek_ok (fl s) None (offset (fl s)) Hok eq_refl) as Hpk. cbn zeta in Hpk.
  destruct (pk_ret (ossl_sframe_list_peek (fl s) None)) eqn:Eret.
  2: { destruct Hpk as (Hnc & _ & Hfin). eexists _, _, _, s. split; [reflexivity|]. split; [by apply same_refl|].
       eexists. split; [reflexivity|]. unfold record_post. rewrite Elk, Hfin. split_and!; try done.
       by destruct (_ =? _), (fin (fl s)). }
  destruct Hpk as (i & f & Ei & Ef & Er & Hlt & Hst & Ed & Efin & _). rewrite Er, Ed, Efin. cbn [start end_].
  assert (Hin : f ∈ frames (fl s)) by (by eapply list_elem_of_lookup_2).
  pose proof (elem_end (fl s) f Hin Hok) as Hee. pose proof (ok_offset _ Hok) as Hoo.
  pose proof (ok_ranges _ Hok) as Hrg. rewrite Forall_forall in Hrg. destruct (Hrg f Hin) as [_ Hr2]. unfold MAX_END in Hr2.
  do 2 erewrite bind_ret by reflexivity. destruct (Z.eqb_spec (f_end f) (offset (fl s))); [lia|].
  rewrite (bind_ret (mret tt) _ _ tt _ eq_refl). rewrite (u64_id (f_end f - offset (fl s))) by (unfold is_u64; lia).
  cbv zeta. destruct (Z.eqb_spec (f_end f - offset (fl s)) 0) as [|_]; [lia|]. cbn [negb]. rewrite andb_true_r.
  set (b := if f_end f =? curr_end (fl s) then fin (fl s) else false).
  assert (Hb : forall e, offset (fl s) <= e -> b = true -> fin (fl s) = true /\ forall k, e <= k < curr_end (fl s) -> covered (fl s) k).
  { intros e He. unfold b. destruct (Z.eqb_spec (f_end f) (curr_end (fl s))) as [Hfe|]; [|done]. intros Hfin. split; [done|].
    intros k Hk. split; [lia|]. exists f. split; [done|lia]. }
  assert (Hb' : fin (fl s) = true -> f_end f = curr_end (fl s) -> b = true)
    by (intros Hf He; unfold b; by rewrite He, Z.eqb_refl).
  pose proof (frame_bytes_ok s f (offset (fl s)) (f_end f - offset (fl s)) Hrs Hin) as Hby.
  destruct (data f) as [d|] eqn:Edf; cbn [fmap option_fmap option_map is_null] in Hby |- *.
  - unfold frame_bytes, copy_out in Hby. specialize (Hby ltac:(lia) ltac:(lia) ltac:(lia)).
    destruct (Z.leb_spec (f_end f - offset (fl s)) (Z.of_nat (length (drop (Z.to_nat (offset (fl s) - f_start f)) d))));
      [|discriminate]. injection Hby as Hby.
    destruct (record_lent s (f_end f) (drop (Z.to_nat (offset (fl s) - f_start f)) d) b) as [Hsame Hpost];
      [done|lia|done|apply Hb; lia|done|].
    eexists _, _, _, _. split; [reflexivity|]. split; [exact Hsame|]. exists b. split; [reflexivity|]. exact Hpost.
  - assert (Hheld : forall k, offset (fl s) <= k < f_end f -> held (rbuf s) k)
      by (intros k Hk; apply (proj2 (Hd f Hin) Edf); lia).
    destruct (ring_ptr_ok (locked_at s (f_end f)) (offset (fl s)) Hr (Hheld (offset (fl s)) ltac:(lia)))
      as (src & ml & E & Hml & _ & Hsrc). rewrite (bind_ret _ _ _ _ _ E). cbn [rbuf set_head_range set_fl] in Hsrc.
    assert (Htake : forall e, offset (fl s) < e <= f_end f -> e - offset (fl s) <= ml ->
      take (Z.to_nat (e - offset (fl s))) src = slice (offset (fl s)) (e - offset (fl s))).
    { intros e He Hle. apply take_slice; [lia|]. intros j Hj. rewrite Hsrc by lia. apply Hheld. lia. }
    destruct (Z.ltb_spec ml (f_end f - offset (fl s))) as [Hs|Hs].
    + rewrite (u64_id (offset (fl s) + ml)) by (unfold is_u64; lia).
      destruct (record_lent s (offset (fl s) + ml) src b) as [Hsame Hpost]; [done|lia|apply Htake; lia|apply Hb; lia|intros; exfalso; lia|].
      replace (offset (fl s) + ml - offset (fl s)) with ml in Hpost by lia.
      eexists _, _, _, _. split; [reflexivity|]. split; [exact Hsame|]. exists b. split; [reflexivity|]. exact Hpost.
    + destruct (record_lent s (f_end f) src b) as [Hsame Hpost]; [done|lia|apply Htake; lia|apply Hb; lia|done|].
      eexists _, _, _, _. split; [reflexivity|]. split; [exact Hsame|]. exists b. split; [reflexivity|]. exact Hpost.
Qed.

(** Releasing [n] bytes of the record, or all of it. *)
Lemma release_record_ok s rec n :
  rs_ok s -> lent s rec -> 0 <= n < UINT64_MOD -> rxfc s = None ->
  exists r s', ossl_quic_rstream_release_record n s = (r, s') /\
    (r = Err /\ s' = s /\
       (head_locked (fl s) = false \/ Z.of_nat (length rec) < n /\ n <> SIZE_MAX) \/
     r = Ret tt /\ exists o, advanced s s' o /\ slice (offset (fl s)) (o - offset (fl s)) = take (Z.to_nat n) rec /\
       offset (fl s) <= o).
Proof.
  intros Hrs Hlent Hn Hfc. pose proof Hrs as [Hok _ _ _ _]. unfold ossl_quic_rstream_release_record.
  rewrite (bind_ret get _ s s s) by done. unfold ossl_sframe_list_is_head_locked.
  destruct (head_locked (fl s)) eqn:Elk; [|rewrite guard_false by done; eexists _, _; split; [reflexivity|auto]].
  rewrite guard_true by done. specialize (Hlent Elk) as (Hst & Hse & ->). cbv zeta.
  pose proof (ok_offset _ Hok) as Hoo. set (hr := head_range s) in *. unfold MAX_END in Hoo.
  pose proof (curr_end_max _ Hok) as Hmax. unfold MAX_END in Hmax.
  rewrite length_slice, (u64_id (end_ hr - start hr)) by (unfold is_u64; lia).
  assert (Hgo : forall o, offset (fl s) <= o <= end_ hr ->
    take (Z.to_nat n) (slice (start hr) (end_ hr - start hr)) = slice (offset (fl s)) (o - offset (fl s)) ->
    exists r s', (on_fl (ossl_sframe_list_drop_frames o);;
      (if 0 <? o then s ← get; on_rbuf (ring_buf_cpop_range 0 (u64 (o - 1)) (cleanse (fl s))) else mret tt);;
      s ← get; retire o (get_rtt s)) s = (r, s') /\
    (r = Err /\ s' = s /\ (true = false \/ Z.of_nat (Z.to_nat (end_ hr - start hr)) < n /\ n <> SIZE_MAX) \/
     r = Ret tt /\ exists o, advanced s s' o /\ slice (offset (fl s)) (o - offset (fl s)) =
         take (Z.to_nat n) (slice (start hr) (end_ hr - start hr)) /\ offset (fl s) <= o)).
  { intros o Ho Et. destruct (consume_ok s o Hrs) as (s1 & E1 & H0 & Hp); [lia|].
    rewrite (bind_ret _ _ _ _ _ E1). destruct (Z.ltb_spec 0 o) as [Hpos|Hz].
    - destruct (Hp Hpos) as (s2 & E2 & Hadv).
      rewrite (bind_ret (s ← get; _) _ s1 tt s2) by (rewrite (bind_ret get _ s1 s1 s1) by done; exact E2).
      rewrite (bind_ret get _ s2 s2 s2) by done. unfold retire. rewrite (ad_rxfc _ _ _ Hadv), Hfc.
      eexists _, s2. split; [reflexivity|]. right. split; [done|]. exists o. split_and!; [done|done|lia].
    - rewrite (bind_ret (mret tt) _ s1 tt s1), (bind_ret get _ s1 s1 s1) by done.
      pose proof (H0 ltac:(lia)) as Hadv. unfold retire. rewrite (ad_rxfc _ _ _ Hadv), Hfc.
      eexists _, s1. split; [reflexivity|]. right. split; [done|]. exists o. split_and!; [done|done|lia]. }
  destruct (Z.ltb_spec (end_ hr - start hr) n) as [Hbig|Hsmall].
  - destruct (Z.eqb_spec n SIZE_MAX) as [Hall|Hne].
    + rewrite (bind_ret _ _ _ (end_ hr) s) by (by rewrite guard_true by done). apply Hgo; [lia|].
      rewrite take_ge by (rewrite length_slice; lia). by rewrite Hst.
    + rewrite (bind_err _ _ _ s) by (by rewrite guard_false by done).
      eexists _, _. split; [reflexivity|]. left. split_and!; [done|done|right; lia].
  - rewrite (bind_ret (mret _) _ s (u64 (start hr + n)) s) by done. rewrite (u64_id (start hr + n)) by (unfold is_u64; lia).
    apply Hgo; [lia|]. rewrite Hst. replace (offset (fl s) + n - offset (fl s)) with n by lia.
    apply take_slice; [rewrite length_slice; lia|]. intros j Hj. apply lookup_slice. lia.
Qed.

(** *** Moving and resizing *)

Lemma move_ok s :
  rs_ok s -> exists r s', ossl_quic_rstream_move_to_rbuf s = (r, s') /\ r <> Undef /\ same_stream s s' /\
    head_range s' = head_range s /\ head_locked (fl s') = head_locked (fl s) /\
    (r = Ret tt -> forall f, f ∈ frames (fl s') -> data f = None \/ head_locked (fl s) = true /\ head (frames (fl s)) = Some f).
Proof.
  intros Hrs. pose proof Hrs as [Hok Hrc Hr Hd Ht]. unfold ossl_quic_rstream_move_to_rbuf.
  rewrite (bind_ret get _ s s s) by done. destruct (_ =? 0).
  { rewrite guard_false by done. eexists _, _. split; [reflexivity|]. split_and!; try done. }
  rewrite guard_true by done. unfold on_fl_rbuf.
  destruct (move_data_ok (write_at := write_at_ring_buf_cb) (stream := stream) (holds := held)
    (inv := fun r => rb_ok r /\ ctail_offset r <= offset (fl s)) (fl s) (pkts s) (rbuf s) Hok Hrc (conj Hr Ht) Hd)
    as (r & [l rc] & rb & E & Hnu & Hsd & [Hrb Hrt] & Hm & Hfa & Hret). rewrite E.
  eexists _, _. split; [reflexivity|]. split; [done|]. split; [by apply rs_ok_same|].
  split_and!; [done|apply (sd_locked _ _ Hsd)|]. intros Er f Hf. destruct (Hret Er f Hf) as [Hp|Hp]; [right|by left].
  destruct (head_locked (fl s)); [|by apply elem_of_nil in Hp]. split; [done|].
  destruct (frames (fl s)) as [|h t]; cbn in Hp; [by apply elem_of_nil in Hp|].
  by apply list_elem_of_singleton in Hp as ->.
Qed.

Lemma resize_rbuf_ok s aok num :
  rs_ok s -> 0 <= num < 2 ^ 63 ->
  exists r s', ossl_quic_rstream_resize_rbuf aok num s = (r, s') /\ r <> Undef /\ same_stream s s' /\
    head_range s' = head_range s /\ fl s' = fl s.
Proof.
  intros Hrs Hn. pose proof Hrs as [Hok Hrc Hr Hd Ht]. unfold ossl_quic_rstream_resize_rbuf.
  rewrite (bind_ret get _ s s s) by done. unfold ossl_sframe_list_is_head_locked.
  destruct (head_locked (fl s)); cbn [negb].
  { rewrite guard_false by done. eexists _, _. split; [reflexivity|]. split_and!; try done. }
  rewrite guard_true by done. unfold on_rbuf.
  destruct (resize_ok (rbuf s) num aok Hr Hn) as (r' & E & Hr' & Hh & Hc & _ & Hk). rewrite E.
  eexists _, _. split; [reflexivity|]. split; [by zcase|]. split; [|done].
  split; cbn; try done. split; cbn; try done; [|by rewrite Hc].
  eapply faithful_from; [|exact Hd]. intros k _ [Hkr Hkb]. split; [by rewrite Hc, Hh|]. by rewrite Hk.
Qed.

(** *** Available data *)

Lemma available_loop_ok l : sfl_ok l -> forall fuel iter pos avail,
  position l iter = Some pos -> (length (frames l) <= next_of iter + fuel)%nat ->
  0 <= avail -> avail + (curr_end l - pos) <= MAX_END ->
  exists n, available_loop fuel l iter avail = Some (avail + n, fin l && (pos + n =? curr_end l)) /\
    0 <= n /\ (forall k, pos <= k < pos + n -> covered l k) /\ ~ covered l (pos + n).
Proof.
  intros Hok fuel. induction fuel as [|fuel IH]; intros iter pos avail Hpos Hf Hav Hmax; cbn [available_loop];
    pose proof (peek_ok l iter pos Hok Hpos) as Hpk; cbn zeta in Hpk |- *;
    pose proof (pos_offset l iter pos Hok Hpos) as Hoff;
    destruct (pk_ret (ossl_sframe_list_peek l iter)) eqn:Eret.
  2, 4: destruct Hpk as (Hnc & _ & Hfin); exists 0; rewrite Hfin, !Z.add_0_r;
    (split; [do 2 f_equal; destruct (_ =? _), (fin l); done|]); split_and!; [lia|intros; lia|done].
  { destruct Hpk as (i & f & _ & Ef & _ & _ & _ & _ & _ & ->). apply lookup_lt_Some in Ef. lia. }
  destruct Hpk as (i & f & Ei & Ef & Er & Hlt & Hst & _ & _ & Enext).
  assert (Hin : f ∈ frames l) by (by eapply list_elem_of_lookup_2).
  pose proof (elem_end l f Hin Hok) as Hee. pose proof (ok_offset _ Hok). unfold MAX_END in *.
  rewrite Er, Ei. cbn [start end_]. rewrite (u64_id (f_end f - pos)), u64_id by (unfold is_u64; lia).
  destruct (IH (Some i) (f_end f) (avail + (f_end f - pos))) as (n & E & Hn & Hc & Hnc);
    [cbn; by rewrite Ef|cbn [next_of]; lia|lia|lia|].
  exists (f_end f - pos + n). rewrite E. replace (pos + (f_end f - pos + n)) with (f_end f + n) by lia.
  split_and!; [do 2 f_equal; lia|lia| |done].
  intros k Hk. destruct (Z.lt_ge_cases k (f_end f)); [|apply Hc; lia]. split; [lia|]. exists f. split; [done|lia].
Qed.

Lemma available_ok s :
  rs_ok s -> exists n, ossl_quic_rstream_available s = Some (n, fin (fl s) && (offset (fl s) + n =? curr_end (fl s))) /\
    0 <= n /\ (forall k, offset (fl s) <= k < offset (fl s) + n -> covered (fl s) k) /\
    ~ covered (fl s) (offset (fl s) + n).
Proof.
  intros [Hok _ _ _ _]. pose proof (curr_end_max _ Hok). pose proof (ok_offset _ Hok).
  destruct (available_loop_ok (fl s) Hok (length (frames (fl s))) None (offset (fl s)) 0) as (n & E & Hn);
    [done|cbn; lia|lia|lia|]. exists n. by rewrite <- (Z.add_0_l n) at 1.
Qed.

(** *** A client of a receive stream

    What the application does with a stream of [F] bytes, and what the peer's
    packets do to it.  The client keeps a copy of the last record it was
    handed, what it has consumed, whether it was told that the stream has ended (by a
    read, or with no record left), and where the records end that it was handed with
    the mark that they are the last. *)
Context (F : Z) (pkts0 : gmap nat Z).

Inductive op :=
  | Queue (alloc : bool) (pkt : option nat) (off : Z) (d : list Z) (fin : bool)
  | Read (size : Z)
  | Peek (size : Z)
  | Available
  | GetRecord
  | ReleaseRecord (n : Z)
  | MoveToRbuf
  | ResizeRbuf (alloc : bool) (num : Z)
  | SetCleanse (b : bool).

Record client := mkClient { rs : QUIC_RSTREAM; rec : list Z; out : list Z; eof : bool; rfins : list Z }.

(** A failure is reported and leaves the client as it was; the result is
    [None] when behaviour is undefined. *)
Definition with_rs {A} (c : client) (k : A -> client -> client) (x : res A * QUIC_RSTREAM) : option client :=
  let '(r, s) := x in
  let c' := mkClient s (rec c) (out c) (eof c) (rfins c) in
  match r with Ret a => Some (k a c') | Err => Some c' | Undef => None end.

Definition exec (o : op) (c : client) : option client :=
  match o with
  | Queue alloc p off d f =>
      with_rs c (fun _ c => c) (ossl_quic_rstream_queue_data alloc p off (Some d) (Z.of_nat (length d)) f (rs c))
  | Read size =>
      with_rs c (fun '(bs, f) c => mkClient (rs c) (rec c) (out c ++ bs) (eof c || f) (rfins c)) (ossl_quic_rstream_read size (rs c))
  | Peek size => with_rs c (fun _ c => c) (ossl_quic_rstream_peek size (rs c))
  | Available => if ossl_quic_rstream_available (rs c) is Some _ then Some c else None
  | GetRecord =>
      with_rs c (fun '(r, len, f) c =>
        mkClient (rs c) (match r with Some d => take (Z.to_nat len) d | None => rec c end) (out c)
          (eof c || (len =? 0) && default false f)
          (if negb (len =? 0) && default false f then rfins c ++ [offset (fl (rs c)) + len] else rfins c))
        (ossl_quic_rstream_get_record (rs c))
  | ReleaseRecord n =>
      with_rs c (fun _ c => mkClient (rs c) (rec c) (out c ++ take (Z.to_nat n) (rec c)) (eof c) (rfins c))
        (ossl_quic_rstream_release_record n (rs c))
  | MoveToRbuf => with_rs c (fun _ c => c) (ossl_quic_rstream_move_to_rbuf (rs c))
  | ResizeRbuf alloc num => with_rs c (fun _ c => c) (ossl_quic_rstream_resize_rbuf alloc num (rs c))
  | SetCleanse b => with_rs c (fun _ c => c) (ossl_quic_rstream_set_cleanse b (rs c))
  end.

Fixpoint run (ops : list op) (c : client) : option client :=
  match ops with [] => Some c | o :: ops => c' ← exec o c; run ops c' end.

(** The peer sends parts of the stream, in any order and as often as it likes,
    each in a packet the caller holds; sizes are machine integers. *)
Definition legal (o : op) : Prop :=
  match o with
  | Queue _ p off d f =>
      0 <= off /\ off + Z.of_nat (length d) <= F /\ carries stream off d /\
      (f = true -> off + Z.of_nat (length d) = F) /\ (forall q, p = Some q -> 0 < rcount pkts0 q)
  | Read n | Peek n | ReleaseRecord n => 0 <= n < UINT64_MOD
  | ResizeRbuf _ n => 0 <= n < 2 ^ 63
  | _ => True
  end.

(** The offsets that arrived in a frame for which there was memory. *)
Definition arrived (ops : list op) (k : Z) : Prop :=
  exists p off d f, Queue true p off d f ∈ ops /\ off <= k < off + Z.of_nat (length d).
Definition end_arrived (ops : list op) : Prop :=
  exists p off d, Queue true p off d true ∈ ops.

Record client_ok (hist : list op) (c : client) : Prop := {
  ck_rs : rs_ok (rs c);
  ck_lent : lent (rs c) (rec c);
  ck_rxfc : rxfc (rs c) = None;
  ck_out : out c = slice 0 (offset (fl (rs c)));
  ck_end : curr_end (fl (rs c)) <= F;
  ck_fin : fin (fl (rs c)) = true -> curr_end (fl (rs c)) = F;
  ck_eof : eof c = true -> fin (fl (rs c)) = true /\ offset (fl (rs c)) = F;
  ck_others : forall p, others (fl (rs c), pkts (rs c)) p = rcount pkts0 p;
  ck_arrived : forall k, arrived hist k -> k < offset (fl (rs c)) \/ covered (fl (rs c)) k;
  ck_end_arrived : end_arrived hist -> fin (fl (rs c)) = true;
  ck_rfins : forall e, e ∈ rfins c -> fin (fl (rs c)) = true /\ e <= F /\ forall k, e <= k < F -> k < offset (fl (rs c)) \/ covered (fl (rs c)) k
}.

Definition is_queue (o : op) : bool := match o with Queue _ _ _ _ _ => true | _ => false end.

Lemma arrived_other hist o k : is_queue o = false -> arrived (hist ++ [o]) k -> arrived hist k.
Proof.
  intros Ho (p & off & d & f & Hin & Hk). rewrite elem_of_app, list_elem_of_singleton in Hin.
  destruct Hin as [Hin|<-]; [by exists p, off, d, f|done].
Qed.

Lemma end_arrived_other hist o : is_queue o = false -> end_arrived (hist ++ [o]) -> end_arrived hist.
Proof.
  intros Ho (p & off & d & Hin). rewrite elem_of_app, list_elem_of_singleton in Hin.
  destruct Hin as [Hin|<-]; [by exists p, off, d|done].
Qed.

(** Steps that leave the stream's data alone. *)
Lemma client_same hist o c s' rec' eof' rf' :
  client_ok hist c -> is_queue o = false -> same_stream (rs c) s' -> lent s' rec' ->
  (eof' = true -> eof c = true \/ fin (fl s') = true /\ offset (fl s') = F) ->
  (forall e, e ∈ rf' -> e ∈ rfins c \/ fin (fl s') = true /\ e <= F /\ forall k, e <= k < F -> covered (fl s') k) ->
  client_ok (hist ++ [o]) (mkClient s' rec' (out c) eof' rf').
Proof.
  intros [H1 H2 H3 H4 H5 H6 H7 H8 H9 H10 H11] Ho [S1 S2 S3 S4 S5 S6 S7] Hl He Hrf. split; cbn; try done; try congruence.
  - by rewrite S3, S4.
  - intros E. destruct (He E) as [E'|E']; [|done]. by rewrite S2, S3; apply H7.
  - intros k Hk%arrived_other; [|done]. rewrite S2, S5. by apply H9.
  - intros Hk%end_arrived_other; [|done]. rewrite S3. by apply H10.
  - intros e [Hin|(E1 & E2 & E3)]%Hrf; [|split_and!; auto]. destruct (H11 e Hin) as (E1 & E2 & E3). rewrite S2, S3.
    split_and!; try done. intros k Hk. rewrite S5. auto.
Qed.

(** Steps that consume the data up to [o]. *)
Lemma client_advanced hist p c s' o bs eof' :
  client_ok hist c -> is_queue p = false -> advanced (rs c) s' o -> offset (fl (rs c)) <= o ->
  bs = slice (offset (fl (rs c))) (o - offset (fl (rs c))) ->
  (eof' = true -> eof c = true \/ fin (fl (rs c)) = true /\ o = curr_end (fl (rs c))) ->
  client_ok (hist ++ [p]) (mkClient s' (rec c) (out c ++ bs) eof' (rfins c)).
Proof.
  intros [H1 H2 H3 H4 H5 H6 H7 H8 H9 H10 H11] Hp [A1 A2 A3 A4 A5 A6 A7 A8] Ho -> He.
  pose proof (offset_le_end _ (rs_list _ A1)) as Hoe. rewrite A2, A5 in Hoe.
  pose proof (ok_offset _ (rs_list _ H1)) as Hoo. split; cbn; try done; try congruence.
  - intros Hlk. rewrite (A8 Hlk) in Hlk |- *. by apply H2.
  - rewrite H4, A2. replace (offset (fl (rs c))) with (0 + offset (fl (rs c))) at 2 by lia.
    rewrite slice_app by lia. f_equal. lia.
  - by rewrite A4, A5.
  - intros E. rewrite A2, A4. destruct (He E) as [[Hf Hof]%H7|[Hf ->]].
    + split; [done|]. specialize (H6 Hf). lia.
    + by split; [|apply H6].
  - intros k Hk%arrived_other; [|done]. rewrite A2. destruct (H9 k Hk) as [|Hc]; [lia|].
    destruct (Z.lt_ge_cases k o); [by left|right]. by apply A3.
  - intros Hk%end_arrived_other; [|done]. rewrite A4. by apply H10.
  - intros e Hin. destruct (H11 e Hin) as (E1 & E2 & E3). rewrite A2, A4. split_and!; try done. intros k Hk.
    destruct (E3 k Hk) as [|Hc]; [lia|]. destruct (Z.lt_ge_cases k o); [by left|right]. by apply A3.
Qed.

Lemma client_queue hist c alloc p off d f :
  client_ok hist c -> legal (Queue alloc p off d f) -> F <= MAX_END ->
  exists c', exec (Queue alloc p off d f) c = Some c' /\ client_ok (hist ++ [Queue alloc p off d f]) c'.
Proof.
  intros Hc (Hoff & Hend & Hcar & Hf & Hp) HF. cbn [exec].
  pose proof Hc as [H1 H2 H3 H4 H5 H6 H7 H8 H9 H10 H11].
  assert (Hno : (forall k, ~ (alloc = true /\ off <= k < off + Z.of_nat (length d))) -> ~ (alloc = true /\ f = true) ->
    client_ok (hist ++ [Queue alloc p off d f]) c).
  { intros Hn Hnf. split; try done.
    - intros k (p' & off' & d' & f' & Hin & Hk). rewrite elem_of_app, list_elem_of_singleton in Hin.
      destruct Hin as [Hin|[= <- -> -> -> ->]]; [apply H9; by exists p', off', d', f'|by destruct (Hn k)].
    - intros (p' & off' & d' & Hin). rewrite elem_of_app, list_elem_of_singleton in Hin.
      destruct Hin as [Hin|[= <- -> -> -> <-]]; [apply H10; by exists p', off', d'|by destruct Hnf]. }
  destruct (decide (d = [] /\ f = false)) as [[-> ->]|Hne].
  { exists c. split; [|apply Hno; [intros k [_ Hk]; cbn in Hk; lia|by intros []]]. by destruct c. }
  destruct (queue_ok (rs c) alloc p off d f) as (r & s' & E & Hr); try done; [lia|intros q Hq; rewrite H8; auto| | |].
  { unfold fin_consistent. cbn. destruct f, (fin (fl (rs c))); cbn; try done; try specialize (H6 eq_refl);
      try specialize (Hf eq_refl); rewrite ?andb_true_iff, ?Z.leb_le; try split; lia. }
  { intros ->. destruct f; [done|]. by destruct Hne. }
  rewrite E. destruct Hr as [(-> & -> & ->)|(-> & Q1 & Q2 & Q3 & Q8 & Q9 & Q4 & Q5 & Q6 & Q7)].
  { exists c. cbn. split; [by destruct c|]. apply Hno; [intros k [? _]; done|by intros []]. }
  eexists. split; [reflexivity|]. clear Hno. split; cbn; try done; try congruence.
  - intros Hlk. rewrite Q9 in Hlk. destruct (H2 Hlk) as (L1 & L2 & L3). rewrite Q8, Q2, Q5. split_and!; [done|lia..|done].
  - lia.
  - rewrite Q4, Q5, orb_true_iff. intros [Hf'|Hf']; [specialize (Hf Hf')|specialize (H6 Hf')]; lia.
  - rewrite Q2, Q4. intros [He1 He2]%H7. by rewrite He1, orb_true_r.
  - intros k (p' & off' & d' & f' & Hin & Hk). rewrite Q2, Q6. rewrite elem_of_app, list_elem_of_singleton in Hin.
    destruct Hin as [Hin|[= _ _ -> -> _]].
    + destruct (H9 k); [by exists p', off', d', f'|auto..].
    + destruct (Z.lt_ge_cases k (offset (fl (rs c)))); auto.
  - intros (p' & off' & d' & Hin). rewrite Q4. rewrite elem_of_app, list_elem_of_singleton in Hin.
    destruct Hin as [Hin|[= _ _ _ _ <-]]; [|done]. rewrite H10; [apply orb_true_r|by exists p', off', d'].
  - intros e Hin. destruct (H11 e Hin) as (E1 & E2 & E3). rewrite Q2, Q4, E1, orb_true_r. split_and!; try done.
    intros k Hk. rewrite Q6. destruct (E3 k Hk); auto.
Qed.

Lemma client_read hist c size :
  client_ok hist c -> 0 <= size < UINT64_MOD ->
  exists n s', exec (Read size) c = Some (mkClient s' (rec c) (out c ++ slice (offset (fl (rs c))) n)
      (eof c || fin (fl (rs c)) && (offset (fl (rs c)) + n =? curr_end (fl (rs c)))) (rfins c)) /\
    readable (fl (rs c)) (offset (fl (rs c))) size n /\ advanced (rs c) s' (offset (fl (rs c)) + n).
Proof.
  intros Hc Hsz. cbn [exec].
  destruct (read_ok (rs c) size (ck_rs _ _ Hc) Hsz (ck_rxfc _ _ Hc)) as (n & s' & E & Hrd & Hadv).
  exists n, s'. by rewrite E.
Qed.

Lemma client_get_record hist c :
  client_ok hist c -> exists c', exec GetRecord c = Some c' /\ client_ok (hist ++ [GetRecord]) c'.
Proof.
  intros Hc. cbn [exec]. destruct (get_record_ok (rs c) (ck_rs _ _ Hc)) as (r & len & f & s' & E & Hsame & Hr).
  rewrite E. eexists. split; [reflexivity|]. cbn. pose proof Hc as [_ Hl _ _ _ Hfin _ _ _ _ _].
  destruct (head_locked (fl (rs c))) eqn:Elk.
  { destruct Hr as (-> & -> & -> & ->). apply client_same; try done; cbn; [rewrite orb_false_r; auto|auto]. }
  destruct Hr as (b & -> & Hp). unfold record_post in Hp. destruct (head_locked (fl s')) eqn:Elk'.
  - destruct Hp as (Hle & Hlen & Hlen2 & Hb & _). apply client_same; try done; cbn.
    + destruct r; [done|]. intros _. cbn in Hle. destruct (Hle Elk') as (L1 & L2 & L3).
      apply (f_equal length) in L3. rewrite length_slice, take_nil in L3. cbn in L3. lia.
    + destruct (Z.eqb_spec len 0); [lia|]. rewrite orb_false_r. auto.
    + destruct (Z.eqb_spec len 0); [lia|]. cbn. destruct b; [|auto]. intros e [Hin|He]%elem_of_app; [by left|right].
      apply list_elem_of_singleton in He as ->. destruct (Hb eq_refl) as [Hf Hcov]. specialize (Hfin Hf). destruct (Hle Elk') as (L1 & L2 & _).
      rewrite (ss_fin _ _ Hsame), (ss_end _ _ Hsame) in *. split_and!; [done|lia|]. intros k Hk. rewrite (ss_covered _ _ Hsame). apply Hcov. lia.
  - destruct Hp as (Hnc & -> & -> & ->). apply client_same; try done; cbn; [by intros ?; congruence| |auto].
    rewrite orb_true_iff, andb_true_iff, Z.eqb_eq, (ss_fin _ _ Hsame), (ss_offset _ _ Hsame).
    intros [He|[Hf He]]; [by left|right]. split; [done|]. rewrite He. auto.
Qed.

Lemma client_step hist o c :
  client_ok hist c -> legal o -> F <= MAX_END ->
  exists c', exec o c = Some c' /\ client_ok (hist ++ [o]) c'.
Proof.
  intros Hc Hlegal HF. pose proof (ck_rs _ _ Hc) as Hrs. pose proof (ck_lent _ _ Hc) as Hl.
  destruct o as [alloc p off d f|size|size| | |n| |alloc num|b].
  - by apply client_queue.
  - destruct (client_read hist c size Hc Hlegal) as (n & s' & -> & Hrd & Hadv).
    eexists. split; [reflexivity|]. pose proof (rd_size _ _ _ _ Hrd). apply (client_advanced hist (Read size) c s' (offset (fl (rs c)) + n)); [done|done|done|lia|f_equal; lia|].
    rewrite orb_true_iff, andb_true_iff, Z.eqb_eq. tauto.
  - cbn [exec]. destruct (read_internal_ok (rs c) size false Hrs Hlegal) as (n & s' & E & _ & ->).
    unfold ossl_quic_rstream_peek. rewrite E. eexists. split; [reflexivity|]. apply client_same; try done; auto.
  - cbn [exec]. destruct (available_ok (rs c) Hrs) as (n & -> & _). exists c. split; [done|].
    destruct c as [s r l e rf]. apply (client_same hist Available (mkClient s r l e rf)); try done; auto.
  - by apply client_get_record.
  - cbn [exec]. destruct (release_record_ok (rs c) (rec c) n Hrs Hl Hlegal (ck_rxfc _ _ Hc))
      as (r & s' & -> & [(-> & -> & _)|(-> & o & Hadv & Hsl & Ho)]); (eexists; split; [reflexivity|]).
    + apply client_same; try done; auto.
    + cbn. eapply client_advanced; try done. by left.
  - cbn [exec]. destruct (move_ok (rs c) Hrs) as (r & s' & -> & Hnu & Hsame & Hhr & Hlk & _).
    assert (Hl' : lent s' (rec c)).
    { intros H. rewrite Hlk in H. rewrite Hhr, (ss_offset _ _ Hsame), (ss_end _ _ Hsame). by apply Hl. }
    destruct r; [..|done]; (eexists; split; [reflexivity|]); apply client_same; try done; auto.
  - cbn [exec]. destruct (resize_rbuf_ok (rs c) alloc num Hrs Hlegal) as (r & s' & -> & Hnu & Hsame & Hhr & Hfl).
    assert (Hl' : lent s' (rec c)) by (intros H; rewrite Hhr, Hfl in *; by apply Hl).
    destruct r; [..|done]; (eexists; split; [reflexivity|]); apply client_same; try done; auto.
  - eexists. split; [reflexivity|]. apply client_same; try done; [|by left|by left].
    pose proof (flags_same (rs c) (head_locked (fl (rs c))) b (head_range (rs c)) Hrs) as Hs. by destruct (rs c).
Qed.

Lemma run_ok ops : forall hist c,
  client_ok hist c -> Forall legal ops -> F <= MAX_END -> exists c', run ops c = Some c' /\ client_ok (hist ++ ops) c'.
Proof.
  induction ops as [|o ops IH]; intros hist c Hc Hl HF; cbn [run]; [exists c; by rewrite app_nil_r|].
  apply Forall_cons in Hl as [Hlo Hl]. destruct (client_step hist o c Hc Hlo HF) as (c1 & E & Hc1).
  destruct (IH (hist ++ [o]) c1 Hc1 Hl HF) as (c2 & E2 & Hc2). exists c2. rewrite <- app_assoc in Hc2.
  split; [|done]. unfold mbind, option_bind. by rewrite E.
Qed.

Lemma run_app ops1 ops2 c : run (ops1 ++ ops2) c = (c' ← run ops1 c; run ops2 c').
Proof.
  revert c. induction ops1 as [|o ops IH]; intros c; [done|]. cbn [app run]. unfold mbind, option_bind.
  destruct (exec o c); [apply IH|done].
Qed.

Lemma new_rs_ok st size alloc alloc_rb h ck s :
  0 <= F -> (forall p, 0 <= rcount pkts0 p) -> 0 <= size < 2 ^ 63 ->
  ossl_quic_rstream_new None st size alloc alloc_rb pkts0 h ck = Some s -> client_ok [] (mkClient s [] [] false []).
Proof.
  intros HF Hp Hsz. unfold ossl_quic_rstream_new. destruct alloc; [|done]. cbn [negb].
  assert (Hi : rb_ok ring_buf_init) by (split; vm_compute; repeat split; congruence).
  destruct (resize_ok ring_buf_init size alloc_rb Hi Hsz) as (rb & -> & Hrb & Hh & Hc & _ & _). zcase; [|done].
  intros [= <-]. split; cbn; try done.
  - split; cbn; try done; [split; cbn; try constructor; unfold MAX_END; lia| |by intros f Hf%elem_of_nil|by rewrite Hc].
    intros p. unfold others, holders. cbn. specialize (Hp p). lia.
  - intros p. unfold others, holders. cbn. lia.
  - by intros k (p & off & d & f & Hin%elem_of_nil & _).
  - by intros (p & off & d & Hin%elem_of_nil).
  - by intros e ?%elem_of_nil.
Qed.

(** Once all of the stream has arrived, one large enough read takes the rest. *)
Lemma read_rest hist c sz :
  client_ok hist c -> (forall k, 0 <= k < F -> arrived hist k) -> end_arrived hist -> F <= sz < UINT64_MOD ->
  0 <= F -> exists c', exec (Read sz) c = Some c' /\ out c' = slice 0 F /\ eof c' = true.
Proof.
  intros Hc Hall Hend Hsz HF. destruct (client_read hist c sz Hc) as (n & s' & -> & Hrd & _); [lia|].
  pose proof Hc as [Hrs _ _ Hout Hle Hfin _ _ Harr Hfa _]. specialize (Hfa Hend). specialize (Hfin Hfa).
  pose proof (ok_offset _ (rs_list _ Hrs)) as Hoo. pose proof (offset_le_end _ (rs_list _ Hrs)) as Hoe.
  pose proof (readable_end _ _ _ _ (rs_list _ Hrs) Hrd ltac:(lia)) as Hre. destruct Hrd as [Hn _ Hmax].
  assert (HnF : offset (fl (rs c)) + n = F).
  { destruct (decide (n = sz)) as [-> |]; [lia|].
    destruct (Z.lt_ge_cases (offset (fl (rs c)) + n) F) as [Hlt|]; [exfalso|lia].
    destruct (Harr _ (Hall (offset (fl (rs c)) + n) ltac:(lia))); [lia|]. by apply Hmax; [lia|]. }
  eexists. split; [reflexivity|]. cbn. split.
  - rewrite Hout, <- HnF. apply (slice_app 0); lia.
  - rewrite Hfa, HnF, Hfin, Z.eqb_refl. apply orb_true_r.
Qed.

End Stream.

(** C31: reassembly is faithful.  Whatever parts of a stream arrive, in whatever
    order, split and repeated in whatever way, and however reads, peeks,
    records, moves to the ring buffer, resizes and failures of allocation are
    interleaved, nothing undefined happens at a stream without a flow controller, the
    bytes the application has consumed are exactly the bytes of the stream up to the read
    offset, a read, or a request for a record when there is none, reports the end only
    once the whole stream has been consumed, and every packet is referenced once more for
    each frame that still needs it.  A record that is handed out with the mark that it
    is the last ends at the end of the stream, or is followed by nothing but bytes that
    are already there: the mark may come early when the last frame wraps around in the
    ring buffer, which departs from the header ([rstream_record_quirks]). *)
Theorem rstream_in_order stream F pkts0 st size alloc_rb h ck s ops :
  0 <= F <= MAX_END -> (forall p, 0 <= rcount pkts0 p) -> 0 <= size < 2 ^ 63 ->
  ossl_quic_rstream_new None st size true alloc_rb pkts0 h ck = Some s ->
  Forall (legal stream F pkts0) ops ->
  exists c, run ops (mkClient s [] [] false []) = Some c /\
    out c = slice stream 0 (offset (fl (rs c))) /\ offset (fl (rs c)) <= F /\
    (eof c = true -> out c = slice stream 0 F) /\
    (forall e, e ∈ rfins c -> e <= F /\ forall k, e <= k < F -> k < offset (fl (rs c)) \/ covered (fl (rs c)) k) /\
    (forall p, rcount (pkts (rs c)) p = rcount pkts0 p + holders (frames (fl (rs c))) p).
Proof.
  intros [HF1 HF2] Hp Hsz Hnew Hops.
  destruct (run_ok stream F pkts0 ops [] _ (new_rs_ok stream F pkts0 st size true alloc_rb h ck s HF1 Hp Hsz Hnew) Hops HF2)
    as (c & E & [Hrs _ _ Hout Hend _ Heof Hoth _ _ Hrf]). exists c. split; [done|].
  pose proof (offset_le_end _ (rs_list _ _ Hrs)). split_and!; [done|lia|intros [_ <-]%Heof; done|by intros e (_ & ? & ?)%Hrf|].
  intros p. specialize (Hoth p). unfold others in Hoth. cbn in Hoth. lia.
Qed.

Definition sample_stream (k : Z) : Z := 65 + k.
Definition sample_ops : list op :=
  [Queue true (Some 1%nat) 3 [68; 69; 70] true; Read 8; Queue true (Some 1%nat) 0 [65; 66] false; GetRecord;
   MoveToRbuf; ReleaseRecord 1; Queue true None 1 [66; 67; 68] false; MoveToRbuf; ResizeRbuf true 16; Available; Peek 4].
Definition sample_pkts : gmap nat Z := {[ 1%nat := 1 ]}.
Definition sample_rs : QUIC_RSTREAM :=
  mkRs ossl_sframe_list_init None None (mkRange 0 0) (mkRb (replicate 8 0) 8 0 0) sample_pkts ∅ [].

Lemma sample_counts p : 0 <= rcount sample_pkts p.
Proof.
  unfold rcount, sample_pkts. destruct (decide (p = 1%nat)) as [-> |]; [by rewrite lookup_singleton_eq|].
  by rewrite lookup_singleton_ne by congruence.
Qed.

Lemma sample_legal : Forall (legal sample_stream 6 sample_pkts) sample_ops.
Proof.
  assert (Hc : forall off d, (forall j x, d !! j = Some x -> x = sample_stream (off + Z.of_nat j)) -> carries sample_stream off d) by done.
  repeat constructor; try (vm_compute; congruence); try (apply Hc; intros [|[|[|j]]] x [= <-]; done); try done;
    intros q [= <-]; vm_compute; done.
Qed.

Lemma rstream_in_order_witness :
  exists c, run sample_ops (mkClient sample_rs [] [] false []) = Some c /\
    out c = slice sample_stream 0 (offset (fl (rs c))).
Proof.
  destruct (rstream_in_order sample_stream 6 sample_pkts None 8 true ∅ [] sample_rs sample_ops)
    as (c & E & Ho & _); [vm_compute; split; congruence|exact sample_counts|lia|reflexivity|exact sample_legal|].
  exists c. split; [exact E|exact Ho].
Defined.

(** C32: delivery completes.  When every byte of the stream and its end have
    arrived in frames for which there was memory, in any order and among any
    other operations, a read with room for the stream delivers all that the
    application has not consumed and reports the end. *)
Theorem rstream_complete stream F pkts0 st size alloc_rb h ck s ops sz :
  0 <= F <= MAX_END -> (forall p, 0 <= rcount pkts0 p) -> 0 <= size < 2 ^ 63 ->
  ossl_quic_rstream_new None st size true alloc_rb pkts0 h ck = Some s ->
  Forall (legal stream F pkts0) ops ->
  (forall k, 0 <= k < F -> arrived ops k) -> end_arrived ops -> F <= sz < UINT64_MOD ->
  exists c, run (ops ++ [Read sz]) (mkClient s [] [] false []) = Some c /\
    out c = slice stream 0 F /\ eof c = true.
Proof.
  intros [HF1 HF2] Hp Hsz Hnew Hops Hall Hend Hs.
  destruct (run_ok stream F pkts0 ops [] _ (new_rs_ok stream F pkts0 st size true alloc_rb h ck s HF1 Hp Hsz Hnew) Hops HF2)
    as (c & E & Hc). destruct (read_rest stream F pkts0 ops c sz Hc Hall Hend Hs HF1) as (c' & E' & Hc').
  exists c'. split; [|done]. rewrite run_app, E. cbn [mbind option_bind run]. by rewrite E'.
Qed.

Lemma sample_arrived k : 0 <= k < 6 -> arrived sample_ops k.
Proof.
  intros Hk. unfold arrived, sample_ops. destruct (Z.lt_ge_cases k 2); [|destruct (Z.lt_ge_cases k 4)].
  - exists (Some 1%nat), 0, [65; 66], false. split; [rewrite !elem_of_cons; tauto|cbn; lia].
  - exists None, 1, [66; 67; 68], false. split; [rewrite !elem_of_cons; tauto|cbn; lia].
  - exists (Some 1%nat), 3, [68; 69; 70], true. split; [rewrite !elem_of_cons; tauto|cbn; lia].
Qed.

Lemma rstream_complete_witness :
  exists c, run (sample_ops ++ [Read 100]) (mkClient sample_rs [] [] false []) = Some c /\
    out c = [65; 66; 67; 68; 69; 70] /\ eof c = true.
Proof.
  destruct (rstream_complete sample_stream 6 sample_pkts None 8 true ∅ [] sample_rs sample_ops 100)
    as (c & E & Ho & He); [vm_compute; split; congruence|exact sample_counts|lia|reflexivity|exact sample_legal|
      exact sample_arrived|exists (Some 1%nat), 3, [68; 69; 70]; left|lia|].
  exists c. split; [exact E|]. split; [exact Ho|exact He].
Defined.

(** A stand-alone flow controller that has seen eight bytes arrive. *)
Definition fc_store : Rxfc.store :=
  match Rxfc.ossl_quic_rxfc_init_standalone ∅ 0 100 with
  | Some (_, h) => match Rxfc.ossl_quic_rxfc_on_rx_stream_frame h 0 8 true with Some (_, h) => h | None => ∅ end
  | None => ∅
  end.
Definition fc_rs (p : option nat) : QUIC_RSTREAM :=
  mkRs ossl_sframe_list_init p None (mkRange 0 0) (mkRb (replicate 6 0) 6 0 0) ∅ fc_store [].

Definition two_frames : M QUIC_RSTREAM unit :=
  ossl_quic_rstream_queue_data true None 0 (Some [1; 2; 3; 4]) 4 false;;
  ossl_quic_rstream_queue_data true None 4 (Some [5; 6; 7; 8]) 4 true.
Definition take_record : M QUIC_RSTREAM (option (list Z) * Z * option bool) :=
  r ← ossl_quic_rstream_get_record; ossl_quic_rstream_release_record r.1.2;; mret r.

(** Two departures of the record interface from what it means to do.  Releasing
    a record tells the flow controller the offset reached, not the number of
    bytes released, so that releasing the second record of a stream fails,
    where reading the same bytes succeeds.  And a record cut short at the end
    of the ring buffer is still reported as the last one. *)
Theorem rstream_record_quirks :
  (two_frames;; take_record;; take_record) (fc_rs (Some 0%nat)) =
    (Err, ((two_frames;; take_record;; take_record) (fc_rs (Some 0%nat))).2) /\
  ((two_frames;; ossl_quic_rstream_read 4;; ossl_quic_rstream_read 4) (fc_rs (Some 0%nat))).1 = Ret ([5; 6; 7; 8], true) /\
  ((two_frames;; ossl_quic_rstream_read 4;; ossl_quic_rstream_move_to_rbuf;; ossl_quic_rstream_get_record)
     (fc_rs None)).1 = Ret (Some [5; 6], 2, Some true).
Proof. vm_compute. done. Qed.

End RStream.
