(* ===== verification/SStream.v ===== *)
(** * Send streams

    Model of [ssl/quic/quic_sstream.c]: the sending half of a stream.  Data the
    application appends is kept in a ring buffer ([RingBuf]) until it has been
    acknowledged; two sets of offsets ([UintSet]) record which bytes are to be
    sent and which have been acknowledged.

    A scatter/gather vector is a list of pairs, the index of the first byte in
    the block of the ring buffer and the number of bytes.  Restoring the ring
    buffer after a failed append restores its offsets: the block itself is
    shared by the copy, so bytes written to it stay. *)
From Stdlib Require Import ZArith Lia.
From stdpp Require Import base tactics list sorting relations.
From S2P Require Import Prelude UintSet RingBuf.
#[local] Open Scope Z_scope.
Import UintSet RingBuf.

Module SStream.

Record QUIC_SSTREAM := mkSs {
  ring : ring_buf; new_set : UINT_SET; acked_set : UINT_SET;
  have_final_size : bool; sent_final_size : bool; acked_final_size : bool; cleanse : bool
}.

Definition set_ring (r : ring_buf) (q : QUIC_SSTREAM) : QUIC_SSTREAM :=
  mkSs r (new_set q) (acked_set q) (have_final_size q) (sent_final_size q) (acked_final_size q) (cleanse q).
Definition set_new (s : UINT_SET) (q : QUIC_SSTREAM) : QUIC_SSTREAM :=
  mkSs (ring q) s (acked_set q) (have_final_size q) (sent_final_size q) (acked_final_size q) (cleanse q).
Definition set_acked (s : UINT_SET) (q : QUIC_SSTREAM) : QUIC_SSTREAM :=
  mkSs (ring q) (new_set q) s (have_final_size q) (sent_final_size q) (acked_final_size q) (cleanse q).
Definition set_final (have sent acked : bool) (q : QUIC_SSTREAM) : QUIC_SSTREAM :=
  mkSs (ring q) (new_set q) (acked_set q) have sent acked (cleanse q).

Definition on_ring {A} (m : M ring_buf A) : M QUIC_SSTREAM A := fun q =>
  let '(r, rb) := m (ring q) in (r, set_ring rb q).

(** [alloc] and [alloc_rb]: whether the allocations of the stream and of its
    block succeed. *)
Definition ossl_quic_sstream_new (alloc alloc_rb : bool) (init_buf_size : Z) : option QUIC_SSTREAM :=
  if negb alloc then None
  else
    match ring_buf_resize alloc_rb init_buf_size ring_buf_init with
    | (Ret _, rb) => Some (mkSs rb ossl_uint_set_init ossl_uint_set_init false false false false)
    | _ => None
    end.

Definition ossl_quic_sstream_free (qss : option QUIC_SSTREAM) : option QUIC_SSTREAM :=
  match qss with
  | None => None
  | Some q => Some (set_ring (ring_buf_destroy (ring q)) (set_new [] (set_acked [] q)))
  end.

(** The fields of the header that are written. *)
Record frame_hdr := mkHdr { h_offset : Z; h_len : Z; h_is_fin : bool }.

(** The loop that collects the pieces; [n] is the number of vectors left. *)
Fixpoint iov_loop (n : nat) (r : ring_buf) (start max_len total_len : Z) (iov : list (Z * Z))
    : res (list (Z * Z) * Z) :=
  if max_len <=? total_len then Ret (iov, total_len)
  else
    match ring_buf_get_buf_at r (u64 (start + total_len)) with
    | None => Err
    | Some (src, src_len) =>
        if src_len =? 0 then Ret (iov, total_len)
        else
          match n with
          | O => Undef
          | S n =>
              let src_len := if max_len <? u64 (total_len + src_len) then u64 (max_len - total_len) else src_len in
              iov_loop n r start max_len (u64 (total_len + src_len)) (iov ++ [(src, src_len)])
          end
    end.

(** [*hdr] and the [*num_iov] first elements of [iov]. *)
Definition ossl_quic_sstream_get_stream_frame (skip num_iov : Z) (q : QUIC_SSTREAM)
    : res (frame_hdr * list (Z * Z)) :=
  if num_iov <? 2 then Err
  else
    match new_set q !! Z.to_nat skip with
    | None =>
        if Z.of_nat (length (new_set q)) <? skip then Err
        else if negb (have_final_size q) || sent_final_size q then Err
        else Ret (mkHdr (head_offset (ring q)) 0 true, [])
    | Some range =>
        let max_len := u64 (end_ range - start range + 1) in
        match iov_loop 2 (ring q) (start range) max_len 0 [] with
        | Ret (iov, total_len) =>
            Ret (mkHdr (start range) total_len
                   (have_final_size q && (u64 (start range + total_len) =? head_offset (ring q))), iov)
        | Err => Err
        | Undef => Undef
        end
    end.

Definition ossl_quic_sstream_has_pending (q : QUIC_SSTREAM) : res bool :=
  match ossl_quic_sstream_get_stream_frame 0 2 q with
  | Ret _ => Ret true
  | Err => Ret false
  | Undef => Undef
  end.

Definition ossl_quic_sstream_get_cur_size (q : QUIC_SSTREAM) : Z := head_offset (ring q).

(** [alloc] is the outcome of the allocation the set may need. *)
Definition ossl_quic_sstream_mark_transmitted (alloc : bool) (start end_ : Z) : M QUIC_SSTREAM unit := fun q =>
  match ossl_uint_set_remove alloc (new_set q) (mkRange start end_) with
  | None => (Undef, q)
  | Some (true, s) => (Ret tt, set_new s q)
  | Some (false, s) => (Err, set_new s q)
  end.

Definition ossl_quic_sstream_mark_transmitted_fin (final_size : Z) : M QUIC_SSTREAM unit :=
  q ← get;
  guard_ (have_final_size q && (final_size =? head_offset (ring q)));;
  put (set_final (have_final_size q) true (acked_final_size q) q).

Definition ossl_quic_sstream_mark_lost (alloc : bool) (start end_ : Z) : M QUIC_SSTREAM unit := fun q =>
  let '(ok, s) := ossl_uint_set_insert alloc (new_set q) (mkRange start end_) in
  (if ok then Ret tt else Err, set_new s q).

Definition ossl_quic_sstream_mark_lost_fin : M QUIC_SSTREAM unit :=
  q ← get;
  guard_ (negb (acked_final_size q));;
  put (set_final (have_final_size q) false (acked_final_size q) q).

Definition qss_cull : M QUIC_SSTREAM unit :=
  q ← get;
  match head (acked_set q) with
  | Some h => on_ring (ring_buf_cpop_range (start h) (end_ h) (cleanse q))
  | None => mret tt
  end.

Definition ossl_quic_sstream_mark_acked (alloc : bool) (start end_ : Z) : M QUIC_SSTREAM unit :=
  q ← get;
  let '(ok, s) := ossl_uint_set_insert alloc (acked_set q) (mkRange start end_) in
  put (set_acked s q);;
  guard_ ok;;
  qss_cull.

Definition ossl_quic_sstream_mark_acked_fin : M QUIC_SSTREAM unit :=
  q ← get;
  guard_ (have_final_size q);;
  put (set_final (have_final_size q) (sent_final_size q) true q).

Definition ossl_quic_sstream_fin : M QUIC_SSTREAM unit :=
  q ← get;
  if have_final_size q then mret tt else put (set_final true (sent_final_size q) (acked_final_size q) q).

Definition ossl_quic_sstream_get_final_size (q : QUIC_SSTREAM) : option Z :=
  if have_final_size q then Some (head_offset (ring q)) else None.

(** The pushing loop: what is left of the buffer does not fit after the first
    push, so there are two rounds at most. *)
Fixpoint append_loop (fuel : nat) (buf : list Z) (buf_len consumed : Z) : M QUIC_SSTREAM Z :=
  if 0 <? buf_len then
    match fuel with
    | O => undefined
    | S fuel =>
        l ← on_ring (ring_buf_push buf buf_len);
        if l =? 0 then mret consumed
        else append_loop fuel (drop (Z.to_nat l) buf) (u64 (buf_len - l)) (u64 (consumed + l))
    end
  else mret consumed.

(** The result is [*consumed]; it is 0 when the call fails. *)
Definition ossl_quic_sstream_append (alloc : bool) (buf : list Z) (buf_len : Z) : M QUIC_SSTREAM Z :=
  q0 ← get;
  guard_ (negb (have_final_size q0));;
  let old_head := head_offset (ring q0) in
  consumed ← append_loop 2 buf buf_len 0;
  (if 0 <? consumed then
     q ← get;
     let r := mkRange old_head (u64 (u64 (old_head + consumed) - 1)) in
     (if u64 (end_ r + 1) =? head_offset (ring q) then mret tt else undefined);;
     let '(ok, s) := ossl_uint_set_insert alloc (new_set q) r in
     put (set_new s q);;
     if ok then mret tt
     else
       modify (fun q => set_ring (set_head old_head (set_ctail (ctail_offset (ring q0)) (ring q))) q);; fail
   else mret tt);;
  mret consumed.

Definition ossl_quic_sstream_set_buffer_size (alloc : bool) (num_bytes : Z) : M QUIC_SSTREAM unit :=
  on_ring (ring_buf_resize alloc num_bytes).
Definition ossl_quic_sstream_get_buffer_size (q : QUIC_SSTREAM) : Z := RingBuf.alloc (ring q).
Definition ossl_quic_sstream_get_buffer_used (q : QUIC_SSTREAM) : Z := ring_buf_used (ring q).
Definition ossl_quic_sstream_get_buffer_avail (q : QUIC_SSTREAM) : Z := ring_buf_avail (ring q).

Definition ossl_quic_sstream_is_totally_acked (q : QUIC_SSTREAM) : res bool :=
  if have_final_size q && negb (acked_final_size q) then Ret false
  else if ossl_quic_sstream_get_cur_size q =? 0 then Ret true
  else
    match acked_set q with
    | [r] =>
        if u64 (end_ r + 1) <=? head_offset (ring q)
        then Ret ((start r =? 0) && (u64 (end_ r + 1) =? head_offset (ring q)))
        else Undef
    | _ => Ret false
    end.

Fixpoint adjust_loop (len running : Z) (iov : list (Z * Z)) : list (Z * Z) :=
  match iov with
  | [] => []
  | (buf, iovlen) :: iov =>
      let l := if len <=? running then 0 else if len <? u64 (running + iovlen) then u64 (len - running) else iovlen in
      (buf, l) :: adjust_loop len (u64 (running + iovlen)) iov
  end.
Definition ossl_quic_sstream_adjust_iov (len : Z) (iov : list (Z * Z)) : list (Z * Z) := adjust_loop len 0 iov.

Definition ossl_quic_sstream_set_cleanse (b : bool) : M QUIC_SSTREAM unit :=
  modify (fun q => mkSs (ring q) (new_set q) (acked_set q) (have_final_size q) (sent_final_size q)
                     (acked_final_size q) b).

(** ** Specification *)

(** [n] bytes of [d] from [off] on. *)
Definition sub (d : list Z) (off n : Z) : list Z := take (Z.to_nat n) (drop (Z.to_nat off) d).

(** What a scatter/gather vector refers to. *)
Definition iov_bytes (r : ring_buf) (v : Z * Z) : list Z := take (Z.to_nat v.2) (drop (Z.to_nat v.1) (rb_start r)).
Definition gather (r : ring_buf) (iov : list (Z * Z)) : list Z := concat (iov_bytes r <$> iov).
Definition in_block (r : ring_buf) (v : Z * Z) : Prop := 0 <= v.1 /\ 0 <= v.2 /\ v.1 + v.2 <= RingBuf.alloc r.

(** The state of a stream to which the bytes [d] have been appended.  A byte is
    new, acknowledged or, otherwise, in flight; those below the tail of the ring
    buffer have been acknowledged, the first one above has not. *)
Record ss_ok (d : list Z) (q : QUIC_SSTREAM) : Prop := {
  so_ring : rb_ok (ring q);
  so_head : head_offset (ring q) = Z.of_nat (length d);
  so_new : gwf (new_set q);
  so_acked : gwf (acked_set q);
  so_new_in k : mem k (new_set q) -> 0 <= k < head_offset (ring q) /\ ~ mem k (acked_set q);
  so_acked_in k : mem k (acked_set q) -> 0 <= k < head_offset (ring q);
  so_tail k : 0 <= k < ctail_offset (ring q) -> mem k (acked_set q);
  so_tail_max : ~ mem (ctail_offset (ring q)) (acked_set q);
  so_data k : ctail_offset (ring q) <= k < head_offset (ring q) -> byte_at (ring q) k = d !! Z.to_nat k;
  so_fin : acked_final_size q = true -> have_final_size q = true
}.

Definition in_flight (q : QUIC_SSTREAM) (k : Z) : Prop :=
  0 <= k < head_offset (ring q) /\ ~ mem k (new_set q) /\ ~ mem k (acked_set q).

Lemma length_sub d off n : 0 <= off -> 0 <= n -> off + n <= Z.of_nat (length d) -> Z.of_nat (length (sub d off n)) = n.
Proof. intros. unfold sub. rewrite length_take, length_drop. lia. Qed.

Lemma sub_app d off n m : 0 <= off -> 0 <= n -> 0 <= m -> sub d off n ++ sub d (off + n) m = sub d off (n + m).
Proof.
  intros. unfold sub. rewrite !Z2Nat.inj_add, <- drop_drop by lia. apply take_take_drop.
Qed.

Lemma sub_snoc d e off n : 0 <= off -> 0 <= n -> off + n <= Z.of_nat (length d) -> sub (d ++ e) off n = sub d off n.
Proof.
  intros. unfold sub. rewrite drop_app_le by lia. rewrite take_app_le; [done|]. rewrite length_drop. lia.
Qed.

Lemma mem_range (s : UINT_SET) r k : r ∈ s -> start r <= k <= end_ r -> mem k s.
Proof. intros Hr Hk. apply Exists_exists. by exists r. Qed.

(** *** Frames *)

Lemma piece_ok d r off l idx :
  rb_ok r -> 0 <= ctail_offset r -> ctail_offset r <= off -> off + l <= head_offset r -> 0 <= l ->
  (forall k, ctail_offset r <= k < head_offset r -> byte_at r k = d !! Z.to_nat k) ->
  head_offset r = Z.of_nat (length d) ->
  (forall j, 0 <= j < l -> drop (Z.to_nat idx) (rb_start r) !! Z.to_nat j = byte_at r (off + j)) ->
  iov_bytes r (idx, l) = sub d off l.
Proof.
  intros Hr Hc Hlo Hhi Hl Hd Hlen Hby. unfold iov_bytes, sub. cbn [fst snd].
  apply list_eq. intros j. destruct (decide (j < Z.to_nat l)%nat) as [Hj|Hj].
  - rewrite !lookup_take_lt by done. specialize (Hby (Z.of_nat j) ltac:(lia)). rewrite Nat2Z.id in Hby.
    rewrite Hby, Hd, lookup_drop by lia. f_equal. lia.
  - rewrite !lookup_take_ge by lia. done.
Qed.

Lemma iov_step n r s m t acc src l :
  0 <= t < m -> m <= 2 ^ 62 -> 0 <= s <= 2 ^ 62 -> 0 < l <= 2 ^ 63 -> ring_buf_get_buf_at r (s + t) = Some (src, l) ->
  iov_loop (S n) r s m t acc = iov_loop n r s m (Z.min m (t + l)) (acc ++ [(src, Z.min l (m - t))]).
Proof.
  intros Ht Hm Hs Hl E. cbn [iov_loop]. destruct (Z.leb_spec m t); [lia|]. rewrite (u64_id (s + t)), E by (unfold is_u64; lia).
  destruct (Z.eqb_spec l 0); [lia|]. rewrite !(u64_id (t + l)), !(u64_id (m - t)) by (unfold is_u64; lia).
  assert (Hc : (if m <? t + l then m - t else l) = Z.min l (m - t)) by (zcase; lia).
  cbv zeta. rewrite Hc. do 2 f_equal. rewrite u64_id by (unfold is_u64; lia). lia.
Qed.

Lemma iov_done n r s m acc : iov_loop n r s m m acc = Ret (acc, m).
Proof. by destruct n; cbn [iov_loop]; rewrite Z.leb_refl. Qed.

Lemma iov_loop_ok d r s m :
  rb_ok r -> ctail_offset r <= s -> 0 < m -> s + m <= head_offset r -> head_offset r = Z.of_nat (length d) ->
  (forall k, ctail_offset r <= k < head_offset r -> byte_at r k = d !! Z.to_nat k) ->
  exists iov, iov_loop 2 r s m 0 [] = Ret (iov, m) /\ gather r iov = sub d s m /\
    (1 <= length iov <= 2)%nat /\ Forall (in_block r) iov.
Proof.
  intros Hr Hlo Hm Hhi Hlen Hd. pose proof Hr as [Ho Hmax Hfit Hbl Ha]. pose proof max_offset_val as Hmv.
  assert (Hal : 0 < RingBuf.alloc r) by lia. pose proof (Z.mod_pos_bound s (RingBuf.alloc r) Hal) as Hidx.
  destruct (get_buf_at_ok r s Hr) as (l & E & Hl & El & Hby); [lia|].
  rewrite (iov_step 1 r s m 0 [] (s mod RingBuf.alloc r) l) by (rewrite ?Z.add_0_r; done || lia).
  rewrite Z.add_0_l, Z.sub_0_r. cbn [app].
  assert (Hp1 : iov_bytes r (s mod RingBuf.alloc r, Z.min l m) = sub d s (Z.min l m)).
  { apply piece_ok; try done; try lia. intros j Hj. apply Hby. lia. }
  destruct (Z.le_gt_cases m l) as [Hs|Hs].
  { rewrite !Z.min_l, !Z.min_r in * by lia. rewrite iov_done. eexists. split; [reflexivity|]. unfold gather. cbn.
    rewrite app_nil_r. split_and!; [done|lia|lia|repeat constructor; unfold in_block; cbn; lia]. }
  rewrite !Z.min_r, !Z.min_l in * by lia.
  destruct (get_buf_at_ok r (s + l) Hr) as (l2 & E2 & Hl2 & El2 & Hby2); [lia|].
  assert (Hz : (s + l) mod RingBuf.alloc r = 0).
  { replace l with (RingBuf.alloc r - s mod RingBuf.alloc r) by lia. apply Z.mod_divide; [lia|].
    exists (s / RingBuf.alloc r + 1). pose proof (Z.div_mod s (RingBuf.alloc r) ltac:(lia)). nia. }
  rewrite Hz in *. rewrite (iov_step 0 r s m l _ 0 l2) by (done || lia).
  rewrite !Z.min_l, (Z.min_r l2) by lia. rewrite iov_done. eexists. split; [reflexivity|].
  unfold gather. cbn. rewrite app_nil_r, Hp1.
  split_and!; [|lia|lia|repeat constructor; unfold in_block; cbn; lia].
  rewrite (piece_ok d r (s + l) (m - l)); try done; try lia; [|intros j Hj; apply Hby2; lia].
  rewrite sub_app by lia. f_equal. lia.
Qed.

Lemma new_range d q r :
  ss_ok d q -> r ∈ new_set q -> range_ok r /\ ctail_offset (ring q) <= start r /\ end_ r < head_offset (ring q) /\
    ~ mem (end_ r + 1) (new_set q).
Proof.
  intros Hok Hin. pose proof Hok as [Hr _ Hn _ Hnin _ Htail _ _ _]. pose proof (gwf_end _ _ Hn Hin).
  destruct Hn as [Hn _]. rewrite Forall_forall in Hn. specialize (Hn r Hin). split; [done|]. unfold range_ok in Hn.
  destruct (Hnin (start r)) as [H1 H2]; [eapply mem_range; [done|lia]|].
  destruct (Hnin (end_ r)) as [H3 H4]; [eapply mem_range; [done|lia]|]. split_and!; [|lia|done].
  destruct (Z.le_gt_cases (ctail_offset (ring q)) (start r)); [done|]. destruct H2. apply Htail. lia.
Qed.

(** The frame for the range number [skip] of those that are to be sent: all of
    it, from the data appended; when there is no such range, a bare FIN. *)
Lemma get_frame_ok d q skip :
  ss_ok d q -> 0 <= skip ->
  match new_set q !! Z.to_nat skip with
  | Some r =>
      exists iov, ossl_quic_sstream_get_stream_frame skip 2 q =
          Ret (mkHdr (start r) (end_ r - start r + 1) (have_final_size q && (end_ r + 1 =? head_offset (ring q))), iov) /\
        gather (ring q) iov = sub d (start r) (end_ r - start r + 1) /\ (1 <= length iov <= 2)%nat /\
        Forall (in_block (ring q)) iov
  | None => ossl_quic_sstream_get_stream_frame skip 2 q =
      if (skip =? Z.of_nat (length (new_set q))) && have_final_size q && negb (sent_final_size q)
      then Ret (mkHdr (head_offset (ring q)) 0 true, []) else Err
  end.
Proof.
  intros Hok Hskip. unfold ossl_quic_sstream_get_stream_frame. cbn [Z.ltb].
  change (2 <? 2) with false. cbv iota. destruct (new_set q !! Z.to_nat skip) as [r|] eqn:Er.
  - assert (Hin : r ∈ new_set q) by (by eapply list_elem_of_lookup_2).
    destruct (new_range d q r Hok Hin) as (Hro & Hlo & Hhi & _). unfold range_ok in Hro.
    pose proof (rb_max _ (so_ring _ _ Hok)). pose proof max_offset_val.
    rewrite (u64_id (end_ r - start r + 1)) by (unfold is_u64; lia).
    destruct (iov_loop_ok d (ring q) (start r) (end_ r - start r + 1)) as (iov & -> & Hg & Hlen & Hb);
      [apply Hok|done|lia|lia|apply Hok|apply Hok|].
    exists iov. split; [|done]. do 3 f_equal. rewrite u64_id by (unfold is_u64; lia). f_equal. f_equal. lia.
  - apply lookup_ge_None in Er. destruct (Z.ltb_spec (Z.of_nat (length (new_set q))) skip).
    + destruct (Z.eqb_spec skip (Z.of_nat (length (new_set q)))); [lia|done].
    + destruct (Z.eqb_spec skip (Z.of_nat (length (new_set q)))); [|lia].
      by destruct (have_final_size q), (sent_final_size q).
Qed.

Lemma adjust_ok r len : Z.of_nat (length (rb_start r)) = RingBuf.alloc r -> 0 <= len < 2 ^ 64 -> forall iov running,
  Forall (in_block r) iov -> 0 <= running -> running + Z.of_nat (length (gather r iov)) < 2 ^ 64 ->
  gather r (adjust_loop len running iov) = take (Z.to_nat (len - running)) (gather r iov).
Proof.
  intros Hbl Hlen iov. induction iov as [|[b l] iov IH]; intros running Hb Hrun Hmax; cbn [adjust_loop].
  { unfold gather. cbn. by rewrite take_nil. }
  apply Forall_cons in Hb as [(Hb1 & Hb2 & Hb3) Hb]. cbn in Hb1, Hb2, Hb3.
  assert (Hl : length (iov_bytes r (b, l)) = Z.to_nat l) by (unfold iov_bytes; cbn; rewrite length_take, length_drop; lia).
  unfold gather in *. cbn [fmap list_fmap concat] in Hmax |- *. rewrite length_app, Hl in Hmax.
  rewrite (u64_id (running + l)) by (unfold is_u64; lia).
  rewrite IH by (done || lia). rewrite take_app, Hl. f_equal; [|f_equal; lia].
  unfold iov_bytes. cbn [fst snd]. rewrite take_take. f_equal.
  destruct (Z.leb_spec len running); [lia|]. destruct (Z.ltb_spec len (running + l)); [|lia].
  rewrite u64_id by (unfold is_u64; lia). lia.
Qed.

(** *** Operations *)

Lemma insert_set alloc s r :
  gwf s -> range_ok r -> (forall v, in_range v r -> ~ mem v s) ->
  exists ok s', ossl_uint_set_insert alloc s r = (ok, s') /\ gwf s' /\
    if ok then forall v, mem v s' <-> mem v s \/ in_range v r else s' = s /\ alloc = false.
Proof.
  intros Hs Hr Hd. pose proof (insert_gapped alloc s r Hs Hr Hd) as Hg.
  pose proof (insert_refines alloc s r (gwf_wf _ Hs) Hr) as Hi. unfold insert_post in Hi.
  destruct (ossl_uint_set_insert alloc s r) as [ok s']. exists ok, s'. split_and!; [done|done|].
  destruct ok; [apply Hi|done].
Qed.

Lemma append_loop_ok q buf :
  rb_ok (ring q) -> Z.of_nat (length buf) < 2 ^ 63 ->
  exists r', append_loop 2 buf (Z.of_nat (length buf)) 0 q = (Ret (pushable (ring q) (Z.of_nat (length buf))), set_ring r' q) /\
    wrote (ring q) r' (head_offset (ring q)) (take (Z.to_nat (pushable (ring q) (Z.of_nat (length buf)))) buf).
Proof.
  intros Hr Hlen. set (n := pushable (ring q) (Z.of_nat (length buf))). pose proof Hr as [Ho Hm Hf Hl Ha].
  assert (Hn : 0 <= n <= Z.of_nat (length buf)) by (unfold n, pushable; lia).
  cbn [append_loop]. destruct (Z.ltb_spec 0 (Z.of_nat (length buf))) as [Hpos|Hz].
  2: { exists (ring q). assert (n = 0) as -> by lia. split; [by destruct q|]. by apply wrote_nil. }
  destruct (ring_push_ok (ring q) buf (Z.of_nat (length buf)) Hr) as (r1 & E1 & Hw1); [lia|lia|]. fold n in E1, Hw1.
  rewrite (bind_ret _ _ q n (set_ring r1 q)) by (unfold on_ring; by rewrite E1).
  destruct (Z.eqb_spec n 0) as [Hz|Hnz]; [exists r1; by rewrite Hz in * |].
  rewrite (u64_id (Z.of_nat (length buf) - n)), (u64_id (0 + n)), Z.add_0_l by (unfold is_u64; lia).
  destruct (Z.ltb_spec 0 (Z.of_nat (length buf) - n)) as [Hmore|Hdone]; [|by exists r1].
  destruct (ring_push_ok r1 (drop (Z.to_nat n) buf) (Z.of_nat (length buf) - n)) as (r2 & E2 & Hw2);
    [apply Hw1|rewrite length_drop; lia|lia|].
  assert (Hfull : pushable r1 (Z.of_nat (length buf) - n) = 0).
  { unfold pushable. rewrite (wrote_alloc _ _ _ _ Hw1), (wrote_ctail _ _ _ _ Hw1), (wrote_head _ _ _ _ Hw1).
    rewrite decide_False by (intros E; apply (f_equal length) in E; rewrite length_take in E; cbn in E; lia).
    rewrite length_take. unfold n, pushable in *. lia. }
  rewrite Hfull in E2, Hw2.
  rewrite (bind_ret _ _ _ 0 (set_ring r2 q)) by (unfold on_ring; cbn [ring set_ring]; by rewrite E2). cbn [Z.eqb].
  exists r2. split; [done|]. rewrite take_0 in Hw2. rewrite <- (app_nil_r (take _ _)).
  eapply wrote_app; [lia|exact Hw1|]. rewrite (wrote_head _ _ _ _ Hw1) in Hw2.
  rewrite decide_False in Hw2 by (intros E; apply (f_equal length) in E; rewrite length_take in E; cbn in E; lia).
  by rewrite Z.max_r in Hw2 by lia.
Qed.

Lemma wrote_head_len r r' bs : wrote r r' (head_offset r) bs -> head_offset r' = head_offset r + Z.of_nat (length bs).
Proof. intros Hw. rewrite (wrote_head _ _ _ _ Hw). case_decide as E; [subst; cbn; lia|lia]. Qed.

Lemma wrote_data d r r' bs k :
  rb_ok r -> head_offset r = Z.of_nat (length d) ->
  (forall k, ctail_offset r <= k < head_offset r -> byte_at r k = d !! Z.to_nat k) ->
  wrote r r' (head_offset r) bs -> ctail_offset r <= k < head_offset r' -> byte_at r' k = (d ++ bs) !! Z.to_nat k.
Proof.
  intros Hr Hh Hd Hw Hk. pose proof (wrote_head_len _ _ _ Hw) as Hh'.
  pose proof (wrote_ok _ _ _ _ Hw) as [_ _ Hf _ _]. rewrite (wrote_alloc _ _ _ _ Hw), (wrote_ctail _ _ _ _ Hw) in Hf.
  destruct Hr. rewrite (wrote_bytes _ _ _ _ Hw) by (unfold in_window; lia). case_decide as Hd'.
  - rewrite lookup_app_r by lia. f_equal. lia.
  - rewrite Hd, lookup_app_l by lia. done.
Qed.

(** Appending takes as much as fits; when the set has no memory for the new
    range nothing is taken. *)
Lemma append_ok d q alloc buf :
  ss_ok d q -> Z.of_nat (length buf) < 2 ^ 63 ->
  let n := pushable (ring q) (Z.of_nat (length buf)) in
  exists r q', ossl_quic_sstream_append alloc buf (Z.of_nat (length buf)) q = (r, q') /\
    have_final_size q' = have_final_size q /\ sent_final_size q' = sent_final_size q /\
    acked_set q' = acked_set q /\
    (r = Ret n /\ have_final_size q = false /\ ss_ok (d ++ take (Z.to_nat n) buf) q' /\
       (forall k, mem k (new_set q') <-> mem k (new_set q) \/ Z.of_nat (length d) <= k < Z.of_nat (length d) + n) \/
     r = Err /\ ss_ok d q' /\ new_set q' = new_set q /\ (have_final_size q = true \/ alloc = false)).
Proof.
  intros Hok Hlen n. pose proof Hok as [Hr Hh Hn Ha Hnin Hain Ht Htm Hd Hfin].
  unfold ossl_quic_sstream_append. rewrite (bind_ret get _ q q q) by done.
  destruct (have_final_size q) eqn:Efin.
  { rewrite guard_false by done. eexists _, q. split; [reflexivity|]. split_and!; try done. right. auto. }
  rewrite guard_true by done. destruct (append_loop_ok q buf Hr Hlen) as (r' & E & Hw). fold n in E, Hw.
  cbv zeta. rewrite (bind_ret _ _ _ _ _ E). pose proof max_offset_val as Hmv. pose proof Hr as [Ho Hm Hf Hbl Hal].
  assert (Hn0 : 0 <= n <= Z.of_nat (length buf) /\ n <= MAX_OFFSET - head_offset (ring q)) by (unfold n, pushable; lia).
  assert (Hlt : length (take (Z.to_nat n) buf) = Z.to_nat n) by (rewrite length_take; lia).
  pose proof (wrote_head_len _ _ _ Hw) as Hh'. rewrite Hlt in Hh'. pose proof (wrote_ctail _ _ _ _ Hw) as Hc'.
  pose proof (fun k => wrote_data d _ _ _ k Hr Hh Hd Hw) as Hd'. pose proof (wrote_ok _ _ _ _ Hw) as Hr'.
  destruct (Z.ltb_spec 0 n) as [Hpos|Hz].
  2: { assert (n = 0) as Hn00 by lia. rewrite (bind_ret (mret tt) _ _ tt _ eq_refl). eexists _, _. split; [reflexivity|]. cbn.
       split_and!; try done. left. assert (Hhe : head_offset r' = head_offset (ring q)) by lia.
       rewrite Hn00, take_0, app_nil_r in *. split_and!; try done; [|intros k; intuition lia].
       split; cbn; rewrite ?Hc', ?Hhe; try done; [|by rewrite Efin]. intros k Hk. apply Hd'. lia. }
  set (rg := mkRange (head_offset (ring q)) (u64 (u64 (head_offset (ring q) + n) - 1))).
  assert (Erg : rg = mkRange (head_offset (ring q)) (head_offset (ring q) + n - 1)).
  { unfold rg. f_equal. rewrite (u64_id (head_offset (ring q) + n)), u64_id by (unfold is_u64; lia). done. }
  destruct (insert_set alloc (new_set q) rg) as (ok & s' & Ei & Hg & Hm');
    [done|rewrite Erg; unfold range_ok; cbn; lia|rewrite Erg; unfold in_range; cbn; intros v Hv [? _]%Hnin; lia|].
  assert (Hacked : forall k, mem k (acked_set q) -> 0 <= k < head_offset (ring q) + n) by (intros k Hk%Hain; lia).
  assert (Ein : (q1 ← get; (if u64 (end_ rg + 1) =? head_offset (ring q1) then mret tt else undefined);;
      let '(ok, s) := ossl_uint_set_insert alloc (new_set q1) rg in
      put (set_new s q1);;
      (if ok then mret tt else
         modify (fun q2 => set_ring (set_head (head_offset (ring q)) (set_ctail (ctail_offset (ring q)) (ring q2))) q2);; fail))
      (set_ring r' q) =
    if ok then (Ret tt, set_new s' (set_ring r' q))
    else (Err, set_new s' (set_ring (set_head (head_offset (ring q)) (set_ctail (ctail_offset (ring q)) r')) q))).
  { rewrite (bind_ret get _ _ _ _ eq_refl). cbn [ring set_ring]. rewrite Hh', Erg. cbn [end_].
    rewrite u64_id by (unfold is_u64; lia). destruct (Z.eqb_spec (head_offset (ring q) + n - 1 + 1)
      (head_offset (ring q) + Z.of_nat (Z.to_nat n))); [|lia].
    rewrite (bind_ret (mret tt) _ _ tt _ eq_refl). cbn [new_set set_ring]. rewrite <- Erg, Ei. by destruct ok. }
  destruct ok.
  - rewrite (bind_ret _ _ _ _ _ Ein). eexists _, _. split; [reflexivity|]. cbn. split_and!; try done. left.
    split_and!; try done.
    + split; cbn; rewrite ?Hc', ?Hh', ?length_app, ?Hlt, ?Z2Nat.id by lia; try done;
        [lia| |intros k Hk; apply Hd'; lia|by rewrite Efin].
      intros k. rewrite Hm', Erg. unfold in_range. cbn. intros [[? ?]%Hnin|Hk]; [split; [lia|done]|].
      split; [lia|]. intros Hk'%Hain. lia.
    + intros k. rewrite Hm', Erg. unfold in_range. cbn. rewrite Hh. intuition lia.
  - rewrite (bind_err _ _ _ _ Ein). destruct Hm' as [-> ->]. eexists _, _. split; [reflexivity|]. cbn.
    split_and!; try done. right. split_and!; [done| |done|by right].
    split; cbn; try done; [| |by rewrite Efin].
    + destruct Hr'. split; cbn; lia.
    + intros k Hk. specialize (Hd' k). unfold byte_at in Hd' |- *. cbn. rewrite Hd' by lia. by rewrite lookup_app_l by lia.
Qed.

Lemma transmitted_ok d q lo hi :
  ss_ok d q -> 0 <= lo <= hi -> hi < UINT64_MOD ->
  exists s', ossl_quic_sstream_mark_transmitted true lo hi q = (Ret tt, set_new s' q) /\ ss_ok d (set_new s' q) /\
    forall k, mem k s' <-> mem k (new_set q) /\ ~ lo <= k <= hi.
Proof.
  intros Hok Hlo Hhi. pose proof Hok as [Hr Hh Hn Ha Hnin Hain Ht Htm Hd Hfin].
  assert (Hrg : range_ok (mkRange lo hi)) by (unfold range_ok; cbn; lia).
  unfold ossl_quic_sstream_mark_transmitted.
  pose proof (remove_refines true (new_set q) (mkRange lo hi) (gwf_wf _ Hn) Hrg) as Hrm.
  destruct (ossl_uint_set_remove true (new_set q) (mkRange lo hi)) as [[b s']|] eqn:E; [|done].
  destruct Hrm as (-> & _ & Hm). exists s'. split_and!; [done| |exact Hm].
  split; cbn; try done; [exact (remove_gapped _ _ _ _ _ Hn Hrg E)|]. intros k. rewrite Hm. intros [Hk _]. by apply Hnin.
Qed.

Lemma lost_ok d q alloc lo hi :
  ss_ok d q -> 0 <= lo <= hi -> (forall k, lo <= k <= hi -> in_flight q k) ->
  exists r s', ossl_quic_sstream_mark_lost alloc lo hi q = (r, set_new s' q) /\ r <> Undef /\
    ss_ok d (set_new s' q) /\ (forall k, mem k (new_set q) -> mem k s') /\
    (r = Ret tt -> forall k, lo <= k <= hi -> mem k s').
Proof.
  intros Hok Hlo Hfl. pose proof Hok as [Hr Hh Hn Ha Hnin Hain Ht Htm Hd Hfin]. pose proof max_offset_val as Hmv.
  destruct (Hfl hi ltac:(lia)) as [Hhi _]. destruct Hr as [Hr1 Hr2 Hr3 Hr4 Hr5].
  destruct (insert_set alloc (new_set q) (mkRange lo hi)) as (ok & s' & E & Hg & Hm);
    [done|unfold range_ok; cbn; lia|intros v Hv; by apply Hfl|].
  unfold ossl_quic_sstream_mark_lost. rewrite E. eexists _, s'. split; [reflexivity|]. split; [by destruct ok|].
  destruct ok.
  - split_and!; [|intros k Hk; apply Hm; by left|intros _ k Hk; apply Hm; by right].
    split; cbn; try done. intros k [Hk|Hk]%Hm; [by apply Hnin|]. destruct (Hfl k Hk) as (? & _ & ?). done.
  - destruct Hm as [-> ->]. split_and!; try done.
Qed.

(** Culling after an acknowledgement. *)
Lemma cull_ok q :
  rb_ok (ring q) -> gwf (acked_set q) ->
  (forall k, mem k (acked_set q) -> 0 <= k < head_offset (ring q)) ->
  (forall k, 0 <= k < ctail_offset (ring q) -> mem k (acked_set q)) ->
  exists r', qss_cull q = (Ret tt, set_ring r' q) /\ rb_ok r' /\ head_offset r' = head_offset (ring q) /\
    ctail_offset (ring q) <= ctail_offset r' /\
    (forall k, 0 <= k < ctail_offset r' -> mem k (acked_set q)) /\ ~ mem (ctail_offset r') (acked_set q) /\
    keeps (ring q) r' (ctail_offset r') (head_offset r').
Proof.
  intros Hr Ha Hain Ht. pose proof Hr as [Ho Hmax Hfit Hbl Hal]. unfold qss_cull.
  rewrite (bind_ret get _ q q q) by done. destruct (acked_set q) as [|h t] eqn:Es; cbn [head].
  { exists (ring q). split; [by destruct q|]. split_and!; try done. intros Hm. by apply Exists_nil in Hm. }
  pose proof (gwf_wf _ Ha) as Hwf. pose proof Ha as (Hro & _ & _)%gwf_cons. unfold range_ok in Hro.
  assert (Hmin : forall k, mem k (h :: t) -> start h <= k) by (intros k; by apply wf_head_above).
  destruct (Hain (end_ h)) as [_ He]; [apply (mem_range _ h); [left|lia]|].
  pose proof (gwf_end _ h Ha ltac:(left)) as Hend. unfold on_ring.
  destruct (Z.le_gt_cases (start h) (ctail_offset (ring q))) as [Hle|Hgt].
  - assert (Hce : ctail_offset (ring q) <= end_ h + 1).
    { destruct (Z.le_gt_cases (ctail_offset (ring q)) (end_ h + 1)); [done|]. destruct Hend. apply Ht. lia. }
    destruct (cpop_ok (ring q) (start h) (end_ h) (cleanse q)) as (r' & -> & Hr' & Hal' & Hc' & Hh' & Hk); [done|lia..|].
    exists r'. split; [done|]. rewrite Hc', Hh', Z.max_l by lia. split_and!; try done.
    + intros k Hk'. destruct (Z.lt_ge_cases k (ctail_offset (ring q))); [apply Ht; lia|].
      apply (mem_range _ h); [left|lia].
    + intros k Hk'. apply Hk. lia.
  - exists (ring q). split.
    + unfold ring_buf_cpop_range. destruct (Z.leb_spec (start h) (end_ h)); [|lia].
      rewrite (bind_ret (mret tt) _ _ tt _ eq_refl), (bind_ret get _ _ _ _ eq_refl).
      destruct (Z.ltb_spec (ctail_offset (ring q)) (start h)); [|lia]. cbn. by destruct q.
    + split_and!; try done. intros Hm%Hmin. lia.
Qed.

Lemma acked_ok d q alloc lo hi :
  ss_ok d q -> 0 <= lo <= hi -> (forall k, lo <= k <= hi -> in_flight q k) ->
  exists r q', ossl_quic_sstream_mark_acked alloc lo hi q = (r, q') /\ r <> Undef /\ ss_ok d q' /\
    new_set q' = new_set q /\ head_offset (ring q') = head_offset (ring q) /\
    have_final_size q' = have_final_size q /\ sent_final_size q' = sent_final_size q /\
    (forall k, mem k (acked_set q) -> mem k (acked_set q')) /\
    (r = Ret tt -> forall k, lo <= k <= hi -> mem k (acked_set q')).
Proof.
  intros Hok Hlo Hfl. pose proof Hok as [Hr Hh Hn Ha Hnin Hain Ht Htm Hd Hfin]. pose proof max_offset_val as Hmv.
  destruct (Hfl hi ltac:(lia)) as [Hhi _]. pose proof Hr as [Hr1 Hr2 Hr3 Hr4 Hr5].
  destruct (insert_set alloc (acked_set q) (mkRange lo hi)) as (ok & s' & E & Hg & Hm);
    [done|unfold range_ok; cbn; lia|intros v Hv; by apply Hfl|].
  unfold ossl_quic_sstream_mark_acked. rewrite (bind_ret get _ q q q), E by done.
  erewrite (bind_ret (put _)) by reflexivity. destruct ok.
  2: { destruct Hm as [-> ->]. rewrite guard_false by done. eexists _, _. split; [reflexivity|].
       split_and!; try done. }
  rewrite guard_true by done.
  destruct (cull_ok (set_acked s' q)) as (r' & E' & Hr' & Hh' & Hc' & Ht' & Htm' & Hk'); try done.
  { cbn. intros k [Hk|Hk]%Hm; [by apply Hain|]. cbn in Hk. destruct (Hfl k Hk) as [? _]. done. }
  { cbn. intros k Hk. apply Hm. left. by apply Ht. }
  rewrite E'. eexists _, _. split; [reflexivity|]. cbn in *. split_and!; try done.
  - split; cbn; try done; try congruence.
    + intros k Hk. destruct (Hnin k Hk) as [Hb Hna]. rewrite Hh'. split; [done|]. intros [H|H]%Hm; [done|].
      destruct (Hfl k H) as (_ & ? & _). done.
    + intros k [Hk|Hk]%Hm; rewrite Hh'; [by apply Hain|]. cbn in Hk. by destruct (Hfl k Hk).
    + intros k Hk. rewrite Hk' by done. apply Hd. lia.
  - intros k Hk. apply Hm. by left.
  - intros _ k Hk. apply Hm. by right.
Qed.

Lemma totally_acked_ok d q :
  ss_ok d q -> exists b, ossl_quic_sstream_is_totally_acked q = Ret b /\
    (b = true <-> (have_final_size q = true -> acked_final_size q = true) /\
                  forall k, 0 <= k < Z.of_nat (length d) -> mem k (acked_set q)).
Proof.
  intros [Hr Hh Hn Ha Hnin Hain Ht Htm Hd Hfin]. unfold ossl_quic_sstream_is_totally_acked, ossl_quic_sstream_get_cur_size.
  destruct (have_final_size q && negb (acked_final_size q)) eqn:Ef.
  { exists false. split; [done|]. zb. split; [done|]. intros [Hf _]. destruct (acked_final_size q); [done|]. by specialize (Hf H). }
  assert (Hff : have_final_size q = true -> acked_final_size q = true) by (by destruct (have_final_size q), (acked_final_size q)).
  destruct (Z.eqb_spec (head_offset (ring q)) 0) as [Hz|Hnz]; [exists true; split; [done|]; split; [|done]; split; [done|]; lia|].
  destruct (acked_set q) as [|r [|r2 t]] eqn:Es.
  - exists false. split; [done|]. split; [done|]. intros [_ Hall]. rewrite <- Hh in Hall. destruct Hr.
    specialize (Hall 0 ltac:(lia)). by apply Exists_nil in Hall.
  - assert (Hmem : forall k, mem k [r] <-> start r <= k <= end_ r) by (intros k; rewrite mem_cons, mem_nil; unfold in_range; tauto).
    pose proof Ha as (Hro & _ & _)%gwf_cons. unfold range_ok in Hro. pose proof (rb_max _ Hr). pose proof max_offset_val.
    destruct (Hain (end_ r)) as [_ He]; [apply Hmem; lia|]. rewrite u64_id by (unfold is_u64; lia).
    destruct (Z.leb_spec (end_ r + 1) (head_offset (ring q))); [|lia]. eexists. split; [reflexivity|].
    rewrite andb_true_iff, !Z.eqb_eq, <- Hh. setoid_rewrite Hmem. split; [intros [? ?]; split; [done|]; lia|].
    intros [_ Hall]. pose proof (Hall 0 ltac:(lia)). pose proof (Hall (head_offset (ring q) - 1) ltac:(lia)). lia.
  - exists false. split; [done|]. split; [done|]. intros [_ Hall]. rewrite <- Hh in Hall.
    pose proof (gwf_end _ r Ha ltac:(left)) as Hend. destruct Hend. pose proof Ha as (Hro & Hab & Ha2)%gwf_cons.
    apply Forall_cons in Hab as [Hab _]. pose proof Ha2 as (Hro2 & _ & _)%gwf_cons. unfold range_ok in *.
    destruct (Hain (start r2)) as [_ He]; [apply (mem_range _ r2); [right; left|lia]|]. apply Hall. lia.
Qed.

Lemma pending_ok d q :
  ss_ok d q -> exists b, ossl_quic_sstream_has_pending q = Ret b /\
    (b = true <-> (exists k, mem k (new_set q)) \/ have_final_size q = true /\ sent_final_size q = false).
Proof.
  intros Hok. pose proof (get_frame_ok _ q 0 Hok ltac:(lia)) as Hg. unfold ossl_quic_sstream_has_pending.
  destruct (new_set q) as [|r t] eqn:En; cbn [Z.to_nat lookup list_lookup length Z.of_nat Z.eqb andb] in Hg.
  - rewrite Hg. destruct (have_final_size q), (sent_final_size q); cbn; eexists; (split; [reflexivity|]); split; try done;
      try (intros _; right; done); intros [[k Hk]|[? ?]]; try done; by apply Exists_nil in Hk.
  - destruct Hg as (iov & -> & _). exists true. split; [done|]. split; [|done]. intros _. left. exists (start r).
    destruct (new_range _ q r Hok) as (Hr & _); [rewrite En; left|]. unfold range_ok in Hr.
    apply (mem_range _ r); [left|lia].
Qed.

(** ** A sender

    The way the stream is used: the application appends and closes; the
    packetizer takes a frame, or the beginning of one, puts it on the wire and
    marks it transmitted; every range in flight is later lost or acknowledged. *)
Record frame := mkFrm { f_off : Z; f_data : list Z; f_fin : bool }.

Definition send (skip len : Z) : M QUIC_SSTREAM frame :=
  q ← get;
  match ossl_quic_sstream_get_stream_frame skip 2 q with
  | Ret (h, iov) =>
      let n := Z.min len (h_len h) in
      let fin := h_is_fin h && (n =? h_len h) in
      guard_ ((0 <? n) || fin);;
      (if 0 <? n then ossl_quic_sstream_mark_transmitted true (h_offset h) (u64 (h_offset h + n - 1)) else mret tt);;
      (if fin then ossl_quic_sstream_mark_transmitted_fin (u64 (h_offset h + n)) else mret tt);;
      mret (mkFrm (h_offset h) (gather (ring q) (ossl_quic_sstream_adjust_iov n iov)) fin)
  | Err => fail
  | Undef => undefined
  end.

Abbreviation f_len f := (Z.of_nat (length (f_data f))).
Definition covers (f : frame) (k : Z) : Prop := f_off f <= k < f_off f + f_len f.

(** A frame carries bytes of the stream, and its end only when it is known. *)
Definition carries_stream (d : list Z) (final : bool) (f : frame) : Prop :=
  0 <= f_off f /\ f_off f + f_len f <= Z.of_nat (length d) /\ f_data f = sub d (f_off f) (f_len f) /\
  (f_fin f = true -> final = true /\ f_off f + f_len f = Z.of_nat (length d)).

(** What putting a frame on the wire does. *)
Record sent (d : list Z) (q q' : QUIC_SSTREAM) (f : frame) : Prop := {
  st_ok : ss_ok d q';
  st_frame : carries_stream d (have_final_size q) f;
  st_ring : ring q' = ring q;
  st_acked : acked_set q' = acked_set q;
  st_have : have_final_size q' = have_final_size q;
  st_new : forall k, mem k (new_set q) <-> mem k (new_set q') \/ covers f k;
  st_fin : sent_final_size q' = sent_final_size q || f_fin f
}.

(** The end of [send], once [n] bytes of the frame at [off] are chosen. *)
Lemma send_end d q off n fin data :
  ss_ok d q -> 0 <= off -> 0 <= n -> off + n <= Z.of_nat (length d) ->
  (forall k, off <= k < off + n -> mem k (new_set q)) -> data = sub d off n ->
  (fin = true -> have_final_size q = true /\ off + n = Z.of_nat (length d)) ->
  exists q', ((if 0 <? n then ossl_quic_sstream_mark_transmitted true off (u64 (off + n - 1)) else mret tt);;
      (if fin then ossl_quic_sstream_mark_transmitted_fin (u64 (off + n)) else mret tt);;
      mret (mkFrm off data fin)) q = (Ret (mkFrm off data fin), q') /\ sent d q q' (mkFrm off data fin).
Proof.
  intros Hok Hoff Hn Hend Hnew Ed Hfin. pose proof Hok as [Hr Hh _ _ _ _ _ _ _ _]. pose proof (rb_max _ Hr) as Hmax.
  pose proof max_offset_val as Hmv. assert (Hlen : Z.of_nat (length data) = n) by (subst data; apply length_sub; lia).
  assert (H1 : exists s', (if 0 <? n then ossl_quic_sstream_mark_transmitted true off (u64 (off + n - 1)) else mret tt) q =
      (Ret tt, set_new s' q) /\ ss_ok d (set_new s' q) /\ forall k, mem k s' <-> mem k (new_set q) /\ ~ off <= k < off + n).
  { destruct (Z.ltb_spec 0 n) as [Hpos|Hz].
    - rewrite u64_id by (unfold is_u64; lia).
      destruct (transmitted_ok d q off (off + n - 1) Hok) as (s' & E & Hok' & Hm); [lia|lia|]. exists s'.
      split_and!; try done. intros k. rewrite Hm. intuition lia.
    - exists (new_set q). replace (set_new (new_set q) q) with q by (by destruct q). split_and!; try done.
      intros k. intuition lia. }
  destruct H1 as (s' & E1 & Hok1 & Hm). rewrite (bind_ret _ _ _ _ _ E1).
  assert (Hcov : forall k, mem k (new_set q) <-> mem k s' \/ covers (mkFrm off data fin) k).
  { intros k. unfold covers. cbn. rewrite Hm, Hlen. specialize (Hnew k).
    destruct (decide (off <= k < off + n)); intuition lia. }
  assert (Hcar : carries_stream d (have_final_size q) (mkFrm off data fin)).
  { unfold carries_stream. cbn. rewrite Hlen. split_and!; try done. }
  destruct fin.
  - destruct (Hfin eq_refl) as [Hf He]. unfold ossl_quic_sstream_mark_transmitted_fin.
    rewrite (bind_ret _ _ _ tt (set_final true true (acked_final_size q) (set_new s' q))).
    2: { rewrite (bind_ret get _ _ _ _ eq_refl). cbn [have_final_size ring set_new acked_final_size].
         rewrite u64_id, Hf, Hh, He by (unfold is_u64; lia). rewrite guard_true by apply Z.eqb_refl. done. }
    eexists. split; [reflexivity|]. split; cbn; try done; [destruct Hok1; by split|by rewrite orb_true_r].
  - rewrite (bind_ret (mret tt) _ _ tt _ eq_refl). eexists. split; [reflexivity|]. split; cbn; try done. by rewrite orb_false_r.
Qed.

Lemma send_ok d q skip len :
  ss_ok d q -> 0 <= skip -> 0 <= len ->
  exists r q', send skip len q = (r, q') /\ (r = Err /\ q' = q \/ exists f, r = Ret f /\ sent d q q' f).
Proof.
  intros Hok Hskip Hlen. unfold send. rewrite (bind_ret get _ q q q) by done.
  pose proof (get_frame_ok d q skip Hok Hskip) as Hg. pose proof Hok as [Hr Hh _ _ _ _ _ _ _ _].
  pose proof (rb_max _ Hr) as Hmax. pose proof max_offset_val as Hmv.
  destruct (new_set q !! Z.to_nat skip) as [r|] eqn:Er.
  - destruct Hg as (iov & -> & Hga & _ & Hb). cbn [h_len h_offset h_is_fin].
    assert (Hin : r ∈ new_set q) by (by eapply list_elem_of_lookup_2).
    destruct (new_range d q r Hok Hin) as (Hro & Hlo & Hhi & _). unfold range_ok in Hro. cbv zeta.
    set (n := Z.min len (end_ r - start r + 1)).
    destruct ((0 <? n) || _) eqn:Eg; [rewrite guard_true by done|rewrite guard_false by done; eexists _, _; split; [reflexivity|by left]].
    destruct (send_end d q (start r) n (have_final_size q && (end_ r + 1 =? head_offset (ring q)) && (n =? end_ r - start r + 1))
      (gather (ring q) (ossl_quic_sstream_adjust_iov n iov))) as (q' & E & Hs); [done|lia|lia|lia| | | |].
    + intros k Hk. apply (mem_range _ r); [done|lia].
    + unfold ossl_quic_sstream_adjust_iov. rewrite adjust_ok; [|apply Hr|lia|done|lia|].
      * rewrite Hga, Z.sub_0_r. unfold sub. rewrite take_take. f_equal. lia.
      * rewrite Hga, length_sub by lia. lia.
    + intros Hf. zb. split; [done|lia].
    + eexists _, q'. split; [exact E|]. right. eauto.
  - rewrite Hg. destruct (_ && _ && _) eqn:Ec; [|eexists _, _; split; [reflexivity|by left]]. zb.
    cbn [h_len h_offset h_is_fin]. cbv zeta. rewrite Z.min_r, Z.eqb_refl by lia. cbn [andb orb Z.ltb Z.compare].
    rewrite guard_true by done.
    destruct (send_end d q (head_offset (ring q)) 0 true []) as (q' & E & Hs); [done|destruct Hr; lia|lia|lia|lia|done|intros _; split; [done|lia]|].
    eexists _, q'. split; [exact E|]. right. eauto.
Qed.

Record sender := mkSender { sq : QUIC_SSTREAM; appended : list Z; wire : list frame }.

Inductive sop :=
  | Append (alloc : bool) (buf : list Z)
  | Fin
  | Send (skip len : Z)
  | Lost (alloc : bool) (lo hi : Z)
  | LostFin
  | Acked (alloc : bool) (lo hi : Z)
  | AckedFin
  | SetBufferSize (alloc : bool) (num : Z)
  | SetCleanse (b : bool).

Definition with_q {A} (s : sender) (k : A -> QUIC_SSTREAM -> sender) (x : res A * QUIC_SSTREAM) : option sender :=
  match x with
  | (Ret a, q) => Some (k a q)
  | (Err, q) => Some (mkSender q (appended s) (wire s))
  | (Undef, _) => None
  end.

Definition sexec (o : sop) (s : sender) : option sender :=
  let same (_ : unit) q := mkSender q (appended s) (wire s) in
  match o with
  | Append alloc buf =>
      with_q s (fun n q => mkSender q (appended s ++ take (Z.to_nat n) buf) (wire s))
        (ossl_quic_sstream_append alloc buf (Z.of_nat (length buf)) (sq s))
  | Fin => with_q s same (ossl_quic_sstream_fin (sq s))
  | Send skip len => with_q s (fun f q => mkSender q (appended s) (f :: wire s)) (send skip len (sq s))
  | Lost alloc lo hi => with_q s same (ossl_quic_sstream_mark_lost alloc lo hi (sq s))
  | LostFin => with_q s same (ossl_quic_sstream_mark_lost_fin (sq s))
  | Acked alloc lo hi => with_q s same (ossl_quic_sstream_mark_acked alloc lo hi (sq s))
  | AckedFin => with_q s same (ossl_quic_sstream_mark_acked_fin (sq s))
  | SetBufferSize alloc num => with_q s same (ossl_quic_sstream_set_buffer_size alloc num (sq s))
  | SetCleanse b => with_q s same (ossl_quic_sstream_set_cleanse b (sq s))
  end.

(** What the parties may do: only ranges in flight are lost or acknowledged. *)
Definition slegal (o : sop) (s : sender) : Prop :=
  match o with
  | Append _ buf => Z.of_nat (length buf) < 2 ^ 63
  | Send skip len => 0 <= skip /\ 0 <= len
  | Lost _ lo hi | Acked _ lo hi => 0 <= lo <= hi /\ forall k, lo <= k <= hi -> in_flight (sq s) k
  | SetBufferSize _ num => 0 <= num < 2 ^ 63
  | _ => True
  end.

Inductive reachable : sender -> Prop :=
  | reach_new alloc_rb size q :
      0 <= size < 2 ^ 63 -> ossl_quic_sstream_new true alloc_rb size = Some q -> reachable (mkSender q [] [])
  | reach_step s o s' : reachable s -> slegal o s -> sexec o s = Some s' -> reachable s'.

Record sender_ok (s : sender) : Prop := {
  sn_ok : ss_ok (appended s) (sq s);
  sn_wire : Forall (carries_stream (appended s) (have_final_size (sq s))) (wire s);
  sn_sent k : 0 <= k < Z.of_nat (length (appended s)) ->
    mem k (new_set (sq s)) \/ exists f, f ∈ wire s /\ covers f k;
  sn_fin : sent_final_size (sq s) = true -> exists f, f ∈ wire s /\ f_fin f = true
}.

(** Steps that leave what is new, the wire and the data alone, or make more of
    the data new. *)
Lemma sender_same s q' :
  sender_ok s -> ss_ok (appended s) q' ->
  (forall k, mem k (new_set (sq s)) -> mem k (new_set q')) ->
  (have_final_size (sq s) = true -> have_final_size q' = true) ->
  (sent_final_size q' = true -> sent_final_size (sq s) = true) -> sender_ok (mkSender q' (appended s) (wire s)).
Proof.
  intros [H1 H2 H3 H4] Hok Hn Hf Hs. split; cbn; try done.
  - eapply Forall_impl; [exact H2|]. intros f (F1 & F2 & F3 & F4). split_and!; try done. intros Hff.
    destruct (F4 Hff). auto.
  - intros k Hk. destruct (H3 k Hk); auto.
  - auto.
Qed.

Lemma sender_append s alloc buf :
  sender_ok s -> Z.of_nat (length buf) < 2 ^ 63 ->
  exists s', sexec (Append alloc buf) s = Some s' /\ sender_ok s'.
Proof.
  intros Hs Hlen. cbn [sexec]. pose proof Hs as [H1 H2 H3 H4].
  destruct (append_ok _ _ alloc buf H1 Hlen) as (r & q' & -> & Hf & Hsf & Ha & [(-> & Hnf & Hok & Hm)|(-> & Hok & Hm & _)]).
  2: { eexists. split; [reflexivity|]. apply sender_same; try done; [by rewrite Hm|congruence|congruence]. }
  eexists. split; [reflexivity|]. pose proof (so_head _ _ Hok) as Hh. set (n := pushable _ _) in *. split; cbn; try done.
  - eapply Forall_impl; [exact H2|]. intros f (F1 & F2 & F3 & F4). unfold carries_stream. rewrite length_app.
    split_and!; [done|lia|rewrite sub_snoc by lia; done|]. intros Hff. destruct (F4 Hff). congruence.
  - intros k Hk. rewrite length_app, length_take in Hk. rewrite Hm.
    destruct (Z.lt_ge_cases k (Z.of_nat (length (appended s)))) as [Hlt|Hge]; [destruct (H3 k ltac:(lia)); auto|].
    left. right. lia.
  - rewrite Hsf. done.
Qed.

Lemma sender_send s skip len :
  sender_ok s -> 0 <= skip -> 0 <= len -> exists s', sexec (Send skip len) s = Some s' /\ sender_ok s'.
Proof.
  intros Hs Hskip Hlen. cbn [sexec]. pose proof Hs as [H1 H2 H3 H4].
  destruct (send_ok _ _ skip len H1 Hskip Hlen) as (r & q' & -> & [[-> ->]|(f & -> & [S1 S2 S3 S4 S5 S6 S7])]).
  { eexists. split; [reflexivity|]. by apply sender_same. }
  eexists. split; [reflexivity|]. split; cbn; try done.
  - constructor; [by rewrite S5|]. by rewrite S5.
  - intros k Hk. destruct (H3 k Hk) as [Hn|(g & Hg & Hc)]; [|right; exists g; split; [by right|done]].
    apply S6 in Hn as [Hn|Hn]; [by left|right]. exists f. split; [by left|done].
  - rewrite S7, orb_true_iff. intros [Hf|Hf]; [destruct (H4 Hf) as (g & Hg & Hgf); exists g; split; [by right|done]|].
    exists f. split; [by left|done].
Qed.

Lemma sender_step s o :
  sender_ok s -> slegal o s -> exists s', sexec o s = Some s' /\ sender_ok s'.
Proof.
  intros Hs Hl. pose proof (sn_ok _ Hs) as Hok. pose proof Hok as [Hr Hh Hn Ha Hnin Hain Ht Htm Hd Hfin].
  destruct o as [alloc buf| |skip len|alloc lo hi| |alloc lo hi| |alloc num|b].
  - by apply sender_append.
  - cbn [sexec]. unfold ossl_quic_sstream_fin. rewrite (bind_ret get _ _ _ _ eq_refl).
    destruct (have_final_size (sq s)) eqn:Ef; (eexists; split; [reflexivity|]); apply sender_same; try done.
  - destruct Hl. by apply sender_send.
  - destruct Hl as [Hlo Hfl]. cbn [sexec].
    destruct (lost_ok _ _ alloc lo hi Hok Hlo Hfl) as (r & s' & -> & Hnu & Hok' & Hm & _).
    destruct r; [..|done]; (eexists; split; [reflexivity|]); by apply sender_same.
  - cbn [sexec]. unfold ossl_quic_sstream_mark_lost_fin. rewrite (bind_ret get _ _ _ _ eq_refl).
    destruct (acked_final_size (sq s)) eqn:Ea;
      [rewrite guard_false by done|rewrite guard_true by done]; (eexists; split; [reflexivity|]); apply sender_same; try done.
  - destruct Hl as [Hlo Hfl]. cbn [sexec].
    destruct (acked_ok _ _ alloc lo hi Hok Hlo Hfl) as (r & q' & -> & Hnu & Hok' & Hm & _ & Hf & Hsf & _).
    destruct r; [..|done]; (eexists; split; [reflexivity|]); apply sender_same; try done; (by rewrite Hm) || congruence.
  - cbn [sexec]. unfold ossl_quic_sstream_mark_acked_fin. rewrite (bind_ret get _ _ _ _ eq_refl).
    destruct (have_final_size (sq s)) eqn:Ef; [rewrite guard_true by done|rewrite guard_false by done];
      (eexists; split; [reflexivity|]); apply sender_same; try done.
  - cbn [sexec]. unfold ossl_quic_sstream_set_buffer_size, on_ring.
    destruct (resize_ok (ring (sq s)) num alloc Hr Hl) as (r' & -> & Hr' & Hh' & Hc' & _ & Hk).
    zcase; (eexists; split; [reflexivity|]); apply sender_same; try done;
      (split; cbn; rewrite ?Hh', ?Hc'; try done; intros k Hk'; rewrite Hk by lia; by apply Hd).
  - eexists. split; [reflexivity|]. apply sender_same; try done.
Qed.

Lemma new_sender_ok alloc_rb size q :
  0 <= size < 2 ^ 63 -> ossl_quic_sstream_new true alloc_rb size = Some q -> sender_ok (mkSender q [] []).
Proof.
  intros Hsz. unfold ossl_quic_sstream_new. cbn [negb].
  assert (Hi : rb_ok ring_buf_init) by (split; vm_compute; repeat split; congruence).
  destruct (resize_ok ring_buf_init size alloc_rb Hi Hsz) as (rb & -> & Hrb & Hh & Hc & _ & _). zcase; [|done].
  intros [= <-]. assert (Hno : forall k, ~ mem k []) by (intros k Hm; by apply Exists_nil in Hm).
  split; cbn; [|constructor|lia|done].
  split; cbn; rewrite ?Hh, ?Hc; cbn; try done; try apply gwf_nil; try (intros; lia);
    try (intros k Hm; destruct (Hno k Hm)); apply Hno.
Qed.

Lemma reachable_ok s : reachable s -> sender_ok s.
Proof.
  induction 1 as [alloc_rb size q Hsz Hnew|s o s' _ IH Hl He]; [by eapply new_sender_ok|].
  destruct (sender_step s o IH Hl) as (s1 & E & Hok). congruence.
Qed.

(** In every state a sender can reach, nothing a party may do is undefined;
    each byte appended is new, in flight or acknowledged and never both new and
    acknowledged; the buffer holds, with their values, at least the bytes not
    acknowledged, from the first of them on, and its space is exactly what the
    bytes from there on take. *)
Theorem sstream_invariant s :
  reachable s ->
  let q := sq s in let size := Z.of_nat (length (appended s)) in
  (forall o, slegal o s -> sexec o s <> None) /\
  ossl_quic_sstream_get_cur_size q = size /\
  (forall k, mem k (new_set q) -> 0 <= k < size /\ ~ mem k (acked_set q)) /\
  (forall k, mem k (acked_set q) -> 0 <= k < size) /\
  exists first, 0 <= first <= size /\ ossl_quic_sstream_get_buffer_used q = size - first /\
    (forall k, 0 <= k < first -> mem k (acked_set q)) /\ ~ mem first (acked_set q) /\
    forall k, first <= k < size -> byte_at (ring q) k = appended s !! Z.to_nat k.
Proof.
  intros Hre q size. pose proof (reachable_ok s Hre) as Hok. pose proof (sn_ok _ Hok) as [Hr Hh Hn Ha Hnin Hain Ht Htm Hd _].
  fold q size in Hr, Hh, Hn, Ha, Hnin, Hain, Ht, Htm, Hd. rewrite Hh in Hnin, Hain, Hd. split_and!; try done.
  - intros o Hl. destruct (sender_step s o Hok Hl) as (s' & -> & _). done.
  - exists (ctail_offset (ring q)). unfold ossl_quic_sstream_get_buffer_used. rewrite used_val by done.
    split_and!; try done; destruct Hr; lia.
Qed.

Definition sample_ops : list sop :=
  [Append true [1; 2; 3; 4; 5; 6; 7]; Send 0 4; Acked true 0 1; Send 0 9; Append true [8; 9; 10]; Lost true 2 3; Fin;
   Send 1 100; Send 0 100; Acked true 4 6].

Definition srun (ops : list sop) (s : sender) : option sender :=
  foldl (fun s o => match s with Some s => sexec o s | None => None end) (Some s) ops.

Definition sample_start : sender :=
  mkSender (mkSs (mkRb (replicate 8 0) 8 0 0) [] [] false false false false) [] [].
Definition sample_sender : sender := default sample_start (srun sample_ops sample_start).

(** [forward H o] replaces a reachable concrete state by the one after [o]. *)
Ltac forward H o :=
  lazymatch type of H with
  | reachable ?s =>
      let r := eval vm_compute in (sexec o s) in
      lazymatch r with
      | Some ?t =>
          let H' := fresh in
          assert (H' : reachable t) by
            (apply (reach_step s o t H); [cbn [slegal]|vm_compute; reflexivity];
             first [exact I | cbn; lia | split; [lia|]; intros k Hk; unfold in_flight; cbn;
               rewrite ?mem_cons, ?mem_nil; unfold in_range; cbn; lia]);
          clear H; rename H' into H
      end
  end.

Lemma sample_reachable : reachable sample_sender.
Proof.
  assert (H : reachable sample_start) by (apply (reach_new true 8); [lia|reflexivity]).
  forward H (Append true [1; 2; 3; 4; 5; 6; 7]). forward H (Send 0 4). forward H (Acked true 0 1). forward H (Send 0 9).
  forward H (Append true [8; 9; 10]). forward H (Lost true 2 3). forward H Fin. forward H (Send 1 100).
  forward H (Send 0 100). forward H (Acked true 4 6). exact H.
Qed.

Lemma sstream_invariant_witness :
  ossl_quic_sstream_get_cur_size (sq sample_sender) = 10 /\ (forall k, mem k (new_set (sq sample_sender)) -> 0 <= k < 10).
Proof.
  destruct (sstream_invariant sample_sender sample_reachable) as (_ & H1 & H2 & _).
  split; [exact H1|]. intros k Hk. exact (proj1 (H2 k Hk)).
Defined.

(** What a reachable sender reports.  The frame for the range number [skip]
    is a maximal run of bytes to be sent, whole, with their values, in one or
    two pieces inside the buffer, and marked final exactly when the stream is
    closed and it reaches the end; after the last range there is a bare FIN if
    one is due; data is pending exactly when there is a byte to be sent or a FIN
    due; and the stream is totally acknowledged exactly when every byte and any
    FIN are. *)
Theorem sstream_reports s skip :
  reachable s -> 0 <= skip ->
  let q := sq s in let size := Z.of_nat (length (appended s)) in
  match new_set q !! Z.to_nat skip with
  | Some r =>
      exists iov, ossl_quic_sstream_get_stream_frame skip 2 q =
          Ret (mkHdr (start r) (end_ r - start r + 1) (have_final_size q && (end_ r + 1 =? size)), iov) /\
        gather (ring q) iov = sub (appended s) (start r) (end_ r - start r + 1) /\
        (1 <= length iov <= 2)%nat /\ Forall (in_block (ring q)) iov /\ ~ mem (end_ r + 1) (new_set q)
  | None => ossl_quic_sstream_get_stream_frame skip 2 q =
      if (skip =? Z.of_nat (length (new_set q))) && have_final_size q && negb (sent_final_size q)
      then Ret (mkHdr size 0 true, []) else Err
  end /\
  (exists b, ossl_quic_sstream_has_pending q = Ret b /\
     (b = true <-> (exists k, mem k (new_set q)) \/ have_final_size q = true /\ sent_final_size q = false)) /\
  exists b, ossl_quic_sstream_is_totally_acked q = Ret b /\
    (b = true <-> (have_final_size q = true -> acked_final_size q = true) /\
                  forall k, 0 <= k < size -> mem k (acked_set q)).
Proof.
  intros Hre Hskip q size. pose proof (sn_ok _ (reachable_ok s Hre)) as Hok. fold q in Hok.
  pose proof (so_head _ _ Hok) as Hh. split_and!; [|by eapply pending_ok|by apply totally_acked_ok].
  pose proof (get_frame_ok _ q skip Hok Hskip) as Hg. destruct (new_set q !! Z.to_nat skip) as [r|] eqn:Er.
  - destruct Hg as (iov & E & Hga & Hl & Hb). exists iov. rewrite E, Hh. split_and!; try done; try lia.
    destruct (new_range _ q r Hok) as (_ & _ & _ & ?); [by eapply list_elem_of_lookup_2|done].
  - by rewrite Hg, Hh.
Qed.

Lemma sstream_reports_witness :
  0 <= 0 /\ exists b, ossl_quic_sstream_is_totally_acked (sq sample_sender) = Ret b /\ (b = true -> mem 9 (acked_set (sq sample_sender))).
Proof.
  split; [lia|]. destruct (sstream_reports sample_sender 0 sample_reachable ltac:(lia)) as (_ & _ & b & E & Hb).
  exists b. split; [exact E|]. intros H. apply (proj2 (proj1 Hb H)). vm_compute. split; congruence.
Defined.

(** A consequence of ranges that border one another in a [UINT_SET].  When a
    range that overlaps an acknowledged one is acknowledged, the set may be left
    with two adjacent ranges; the stream then never counts as totally
    acknowledged although every byte of it is. *)
Theorem sstream_totally_acked_missed :
  let ops := ossl_quic_sstream_append true (replicate 21 7) 21;; ossl_quic_sstream_mark_transmitted true 0 20;;
             ossl_quic_sstream_mark_acked true 0 4;; ossl_quic_sstream_mark_acked true 10 20;;
             ossl_quic_sstream_mark_acked true 2 9 in
  let q := (ops (mkSs (mkRb (replicate 32 0) 32 0 0) [] [] false false false false)).2 in
  acked_set q = [mkRange 0 9; mkRange 10 20] /\ ossl_quic_sstream_get_cur_size q = 21 /\
  ossl_quic_sstream_is_totally_acked q = Ret false.
Proof. vm_compute. done. Qed.

End SStream.
