(* ===== verification/Transfer.v ===== *)
(** * From a send stream to a receive stream

    The composition of [SStream] and [RStream]: a sender puts frames on the
    wire, the network delivers any of them in any order, any number of times, or
    not at all, and the receiver queues what arrives among whatever else it
    does. *)
From Stdlib Require Import ZArith Lia.
From stdpp Require Import base tactics list gmap.
From S2P Require Import Prelude UintSet QuicFc Statm RingBuf SfList RStream SStream.
#[local] Open Scope Z_scope.

Module Transfer.

(** The stream a sender has written. *)
Definition stream_of (d : list Z) (k : Z) : Z := default 0 (d !! Z.to_nat k).

(** What the receiver may do: queue frames from the wire, in packets the caller
    holds, and use the stream. *)
Definition delivers (pkts0 : gmap nat Z) (wire : list SStream.frame) (o : RStream.op) : Prop :=
  match o with
  | RStream.Queue _ p off d f =>
      SStream.mkFrm off d f ∈ wire /\ forall q, p = Some q -> 0 < SfList.rcount pkts0 q
  | RStream.Read n | RStream.Peek n | RStream.ReleaseRecord n => 0 <= n < UINT64_MOD
  | RStream.ResizeRbuf _ n => 0 <= n < 2 ^ 63
  | _ => True
  end.

Lemma slice_take d n : 0 <= n <= Z.of_nat (length d) -> RStream.slice (stream_of d) 0 n = take (Z.to_nat n) d.
Proof.
  intros Hn. symmetry. apply RStream.take_slice; [lia|]. intros j Hj. unfold stream_of.
  destruct (lookup_lt_is_Some_2 d j) as [x Hx]; [lia|]. rewrite Hx. by rewrite Z.add_0_l, Nat2Z.id, Hx.
Qed.

Lemma frame_carries d final f :
  SStream.carries_stream d final f -> SfList.carries (stream_of d) (SStream.f_off f) (SStream.f_data f).
Proof.
  intros (H1 & H2 & H3 & _) j x Hx. unfold stream_of. pose proof (lookup_lt_Some _ _ _ Hx) as Hj.
  rewrite H3 in Hx. unfold SStream.sub in Hx. rewrite lookup_take_lt, lookup_drop in Hx by lia.
  replace (Z.to_nat (SStream.f_off f + Z.of_nat j)) with (Z.to_nat (SStream.f_off f) + j)%nat by lia. by rewrite Hx.
Qed.

(** Frames of a sender are parts of one stream. *)
Lemma delivers_legal s pkts0 o :
  SStream.sender_ok s -> delivers pkts0 (SStream.wire s) o ->
  RStream.legal (stream_of (SStream.appended s)) (Z.of_nat (length (SStream.appended s))) pkts0 o.
Proof.
  intros Hs Hd. destruct o as [alloc p off d f|n|n| | |n| |alloc n|b]; try done.
  destruct Hd as [Hin Hp]. pose proof (SStream.sn_wire _ Hs) as Hw. rewrite Forall_forall in Hw.
  pose proof (Hw _ Hin) as Hc. pose proof (frame_carries _ _ _ Hc) as Hca. destruct Hc as (H1 & H2 & H3 & H4). cbn in *.
  split_and!; try done. intros Hf. by apply H4.
Qed.

Section Composition.
Context (s : SStream.sender) (pkts0 : gmap nat Z) (st : option Statm.Statm.OSSL_STATM) (size : Z) (alloc_rb : bool)
  (h : QuicFc.Rxfc.store) (ck : clock) (r : RStream.QUIC_RSTREAM) (ops : list RStream.op).
Hypotheses (Hs : SStream.reachable s) (Hpk : forall p, 0 <= SfList.rcount pkts0 p) (Hsz : 0 <= size < 2 ^ 63)
  (Hnew : RStream.ossl_quic_rstream_new None st size true alloc_rb pkts0 h ck = Some r)
  (Hops : Forall (delivers pkts0 (SStream.wire s)) ops).

Abbreviation d := (SStream.appended s).
Abbreviation client0 := (RStream.mkClient r [] [] false []).

Lemma length_bound : 0 <= Z.of_nat (length d) <= SfList.MAX_END.
Proof.
  pose proof (SStream.sn_ok _ (SStream.reachable_ok s Hs)) as [Hr Hh _ _ _ _ _ _ _ _].
  pose proof (RingBuf.RingBuf.rb_max _ Hr). pose proof RingBuf.RingBuf.max_offset_val. unfold SfList.MAX_END. lia.
Qed.

Lemma receiver_runs : exists c, RStream.run ops client0 = Some c /\
  RStream.client_ok (stream_of d) (Z.of_nat (length d)) pkts0 ops c.
Proof.
  apply (RStream.run_ok _ _ _ ops []); [|eapply Forall_impl; [exact Hops|]; intros o; apply delivers_legal; by apply SStream.reachable_ok|apply length_bound].
  eapply RStream.new_rs_ok; [apply length_bound|exact Hpk|exact Hsz|exact Hnew].
Qed.

(** C1: what one side writes is what the other side reads.  Whatever a sender
    did, whichever of its frames arrive, in whatever order and however often,
    and whatever else the receiver does in between, nothing undefined happens at
    the receiver, the bytes its application has consumed are a prefix of the
    bytes appended by the sender's, and when a read, or a request for a record when
    there is none, tells it that the stream has ended they are all of them.  A record
    handed out with the mark that it is the last may be cut short at the end of the ring
    buffer ([RStream.rstream_record_quirks]): all that
    follows it has then arrived. *)
Theorem transfer_faithful : exists c, RStream.run ops client0 = Some c /\
  RStream.out c = take (Z.to_nat (SfList.offset (RStream.fl (RStream.rs c)))) d /\
  (RStream.eof c = true -> RStream.out c = d) /\
  (forall e, e ∈ RStream.rfins c -> e <= Z.of_nat (length d) /\
     forall k, e <= k < Z.of_nat (length d) -> k < SfList.offset (RStream.fl (RStream.rs c)) \/ SfList.covered (RStream.fl (RStream.rs c)) k).
Proof.
  destruct receiver_runs as (c & E & [Hrs _ _ Hout Hend Hfin Heof _ _ _ Hrf]). exists c. split; [done|].
  pose proof (SfList.ok_offset _ (RStream.rs_list _ _ Hrs)). pose proof (SfList.offset_le_end _ (RStream.rs_list _ _ Hrs)).
  rewrite Hout, slice_take by lia. split_and!; [done| |by intros e (_ & ? & ?)%Hrf]. intros [_ ->]%Heof. rewrite Nat2Z.id. apply firstn_all.
Qed.

(** C2: a transfer completes.  When the sender's stream is closed and it has
    nothing left to send, and every frame it put on the wire reaches a receiver
    that has memory for it, in any order and among any other operations, a read
    with room for the stream delivers whatever the application has not consumed,
    in total exactly the bytes appended, and reports the end. *)
Theorem transfer_complete sz :
  SStream.have_final_size (SStream.sq s) = true -> SStream.ossl_quic_sstream_has_pending (SStream.sq s) = Ret false ->
  (forall f, f ∈ SStream.wire s ->
     exists p, RStream.Queue true p (SStream.f_off f) (SStream.f_data f) (SStream.f_fin f) ∈ ops) ->
  Z.of_nat (length d) <= sz < UINT64_MOD ->
  exists c, RStream.run (ops ++ [RStream.Read sz]) client0 = Some c /\ RStream.out c = d /\ RStream.eof c = true.
Proof.
  intros Hfin Hpend Hall Hread. pose proof (SStream.reachable_ok s Hs) as [Hok _ Hsent Hsf].
  destruct (SStream.pending_ok _ _ Hok) as (b & Eb & Hb). rewrite Hpend in Eb. injection Eb as <-.
  assert (Hnone : forall k, ~ UintSet.UintSet.mem k (SStream.new_set (SStream.sq s))).
  { intros k Hk. assert (false = true) by (apply Hb; left; by exists k). done. }
  assert (Hfs : SStream.sent_final_size (SStream.sq s) = true).
  { destruct (SStream.sent_final_size (SStream.sq s)) eqn:E; [done|]. assert (false = true) by (apply Hb; by right). done. }
  destruct receiver_runs as (c & E & Hc).
  destruct (RStream.read_rest (stream_of d) (Z.of_nat (length d)) pkts0 ops c sz Hc) as (c' & E' & Hout & Heof);
    [| |lia|lia|].
  - intros k Hk. destruct (Hsent k Hk) as [Hn|(f & Hf & Hcov)]; [by destruct (Hnone k)|].
    destruct (Hall f Hf) as (p & Hq). by exists p, (SStream.f_off f), (SStream.f_data f), (SStream.f_fin f).
  - destruct (Hsf Hfs) as (f & Hf & Ef). destruct (Hall f Hf) as (p & Hq). rewrite Ef in Hq.
    by exists p, (SStream.f_off f), (SStream.f_data f).
  - exists c'. rewrite RStream.run_app, E. cbn [mbind option_bind RStream.run]. rewrite E'. split_and!; [done| |done].
    rewrite Hout, slice_take by lia. rewrite Nat2Z.id. apply firstn_all.
Qed.

End Composition.

Definition deliver (f : SStream.frame) : RStream.op :=
  RStream.Queue true (Some 1%nat) (SStream.f_off f) (SStream.f_data f) (SStream.f_fin f).
Definition sample_delivery : list RStream.op :=
  RStream.Read 5 :: (deliver <$> SStream.wire SStream.sample_sender) ++ [RStream.MoveToRbuf; RStream.Read 3].

Lemma sample_delivers : Forall (delivers RStream.sample_pkts (SStream.wire SStream.sample_sender)) sample_delivery.
Proof.
  unfold sample_delivery. constructor; [cbn; lia|]. apply Forall_app. split; [|repeat constructor; cbn; lia].
  apply Forall_fmap, Forall_forall. intros f Hf. split; [by destruct f|]. intros q [= <-]. by vm_compute.
Qed.

Lemma transfer_faithful_witness :
  exists c, RStream.run sample_delivery (RStream.mkClient RStream.sample_rs [] [] false []) = Some c /\
    (RStream.eof c = true -> RStream.out c = [1; 2; 3; 4; 5; 6; 7; 8; 9; 10]).
Proof.
  destruct (transfer_faithful SStream.sample_sender RStream.sample_pkts None 8 true ∅ [] RStream.sample_rs sample_delivery)
    as (c & E & _ & He & _);
    [exact SStream.sample_reachable|exact RStream.sample_counts|lia|reflexivity|exact sample_delivers|].
  exists c. split; [exact E|exact He].
Defined.

Lemma transfer_complete_witness :
  exists c, RStream.run (sample_delivery ++ [RStream.Read 50]) (RStream.mkClient RStream.sample_rs [] [] false []) = Some c /\
    RStream.out c = [1; 2; 3; 4; 5; 6; 7; 8; 9; 10] /\ RStream.eof c = true.
Proof.
  destruct (transfer_complete SStream.sample_sender RStream.sample_pkts None 8 true ∅ [] RStream.sample_rs sample_delivery)
    with (sz := 50) as (c & E & Ho & He);
    [exact SStream.sample_reachable|exact RStream.sample_counts|lia|reflexivity|exact sample_delivers|reflexivity|reflexivity|
     |vm_compute; split; congruence|].
  - intros f Hf. exists (Some 1%nat). unfold sample_delivery. apply list_elem_of_further, elem_of_app. left.
    change (deliver f ∈ deliver <$> SStream.wire SStream.sample_sender). by apply list_elem_of_fmap_2.
  - exists c. split; [exact E|]. split; [exact Ho|exact He].
Defined.

End Transfer.
