(* ===== verification/CList.v ===== *)
(** * Circular lists of streams

    Model of the circular doubly linked lists of [ssl/quic/quic_stream_map.c]
    ([list_insert_tail], [list_remove], [list_next]).  A node is reached
    through a pointer: [None] is the head, which is a node embedded in the map,
    and [Some p] the node embedded in the stream at address [p].  A list is the
    store of its linked nodes with their two pointers; a node whose pointers
    are both null, as after the allocation of a stream or after a removal, is
    absent from it.  A failed [assert] is undefined.

    [rep l c] says that the store [c] is the circular list of the elements [l];
    the three functions refine the list operations [l ++ [p]], removal and
    "the element after [p], from the start after the last". *)
From Stdlib Require Import ZArith Lia.
From stdpp Require Import base tactics option gmap sorting.
From S2P Require Import Prelude.

Module CList.

Record QUIC_STREAM_LIST_NODE := mkNode { prev : option nat; next : option nat }.

Abbreviation clist := (gmap (option nat) QUIC_STREAM_LIST_NODE).

(** [l->prev = l->next = l]. *)
Definition list_init : clist := {[ None := mkNode None None ]}.

Definition set_next (q n : option nat) (c : clist) : clist := alter (fun x => mkNode (prev x) n) q c.
Definition set_prev (q n : option nat) (c : clist) : clist := alter (fun x => mkNode n (next x)) q c.

Definition list_insert_tail (n : nat) (c : clist) : res clist :=
  match c !! None, c !! Some n with
  | Some l, None => Ret (set_prev None (Some n) (set_next (prev l) (Some n) (<[Some n := mkNode (prev l) None]> c)))
  | _, _ => Undef
  end.

Definition list_remove (n : nat) (c : clist) : res clist :=
  match c !! Some n with
  | Some x =>
      if decide (prev x = Some n) then Undef
      else if decide (next x = Some n) then Undef
      else Ret (delete (Some n) (set_prev (next x) (prev x) (set_next (prev x) (next x) c)))
  | None => Undef
  end.

(** The stream after the node [n]; [n] is the head for [accept_head] and
    [ready_for_gc_head]. *)
Definition list_next (n : option nat) (c : clist) : res (option nat) :=
  match c !! n, c !! None with
  | Some x, Some l =>
      if decide (n <> None /\ (prev x = n \/ next x = n)) then Undef
      else
        match next x with
        | Some p => Ret (Some p)
        | None => Ret (next l)
        end
  | _, _ => Undef
  end.

(** ** Refinement *)

Record rep (l : list nat) (c : clist) : Prop := {
  rep_nodup : NoDup l;
  rep_head : c !! None = Some (mkNode (last l) (head l));
  rep_node a p b : l = a ++ p :: b -> c !! Some p = Some (mkNode (last a) (head b));
  rep_out p : p ∉ l -> c !! Some p = None
}.

Lemma rep_init : rep [] list_init.
Proof.
  split; [constructor|done| |]; [by intros [] ? ?|].
  intros p _. unfold list_init. by rewrite lookup_singleton_ne.
Qed.

Lemma rep_linked l c p : rep l c -> (p ∈ l <-> is_Some (c !! Some p)).
Proof.
  intros H. split.
  - intros (a & b & ->)%list_elem_of_split. rewrite (rep_node _ _ H a p b) by done. eauto.
  - intros [x Hx]. destruct (decide (p ∈ l)) as [|Hn]; [done|]. by rewrite (rep_out _ _ H p Hn) in Hx.
Qed.

Lemma last_not_self (a b : list nat) p : NoDup (a ++ p :: b) -> last a <> Some p /\ head b <> Some p.
Proof.
  intros Hnd. split.
  - intros (a' & ->)%last_Some. rewrite <- app_assoc in Hnd. cbn in Hnd.
    apply NoDup_app in Hnd as (_ & _ & Hnd). apply NoDup_cons in Hnd as [Hp _]. apply Hp. set_solver.
  - intros E. destruct b as [|x b]; [done|]. cbn in E. simplify_eq.
    apply NoDup_app in Hnd as (_ & _ & Hnd). apply NoDup_cons in Hnd as [Hp _]. apply Hp. set_solver.
Qed.

(** The three stores of an insertion, read at any node. *)
Lemma insert_lookup c n q l : c !! None = Some l ->
  set_prev None (Some n) (set_next (prev l) (Some n) (<[Some n := mkNode (prev l) None]> c)) !! q =
  if decide (q = None) then Some (mkNode (Some n) (if decide (prev l = None) then Some n else next l))
  else (fun x => mkNode (prev x) (if decide (q = prev l) then Some n else next x)) <$>
       (if decide (q = Some n) then Some (mkNode (prev l) None) else c !! q).
Proof.
  destruct l as [lp ln]. intros Hl. unfold set_prev, set_next. cbn [prev next]. rewrite !lookup_alter, !lookup_insert.
  repeat (case_decide; subst; try congruence); rewrite ?Hl; try reflexivity.
  destruct (c !! q) as [[]|]; reflexivity.
Qed.

Lemma insert_tail_rep l c p : rep l c -> p ∉ l ->
  exists c', list_insert_tail p c = Ret c' /\ rep (l ++ [p]) c'.
Proof.
  intros H Hp. unfold list_insert_tail. rewrite (rep_head _ _ H), (rep_out _ _ H p Hp).
  eexists. split; [done|]. pose proof (fun q => insert_lookup c p q _ (rep_head _ _ H)) as Hq. cbn [prev next] in Hq.
  split.
  - apply NoDup_app. split; [apply H|]. split; [|apply NoDup_singleton].
    by intros q ? ->%list_elem_of_singleton.
  - rewrite Hq, last_snoc. rewrite decide_True by done. destruct l; [done|]. rewrite decide_False; [done|].
    by intros ?%last_None.
  - intros a q b E. rewrite Hq. rewrite decide_False by done.
    destruct b as [|x b _] using rev_ind; cbn.
    + apply app_inj_tail in E as [-> ->]. rewrite (decide_True (P := Some q = Some q)) by done. cbn.
      rewrite decide_False; [done|]. intros Hlast%eq_sym%last_Some_elem_of. done.
    + rewrite app_comm_cons, app_assoc in E. apply app_inj_tail in E as [-> ->].
      rewrite (decide_False (P := Some q = Some x)) by (intros [= ->]; apply Hp; set_solver).
      rewrite (rep_node _ _ H a q b) by done. cbn. f_equal. f_equal.
      destruct b as [|y b]; cbn; [by rewrite last_snoc, decide_True|].
      rewrite decide_False; [done|]. rewrite last_app_cons. intros E.
      pose proof (rep_nodup _ _ H) as Hnd.
      apply NoDup_app in Hnd as (_ & _ & Hnd). apply NoDup_cons in Hnd as [Hnd _]. apply Hnd.
      rewrite last_cons_cons in E. symmetry in E. apply last_Some_elem_of in E. set_solver.
  - intros q Hn. rewrite Hq, decide_False by done. rewrite decide_False by set_solver.
    by rewrite (rep_out _ _ H q) by set_solver.
Qed.

(** The two stores of a removal, read at any node. *)
Lemma remove_lookup c n x q : 
  delete (Some n) (set_prev (next x) (prev x) (set_next (prev x) (next x) c)) !! q =
  if decide (q = Some n) then None
  else (fun y => mkNode (if decide (q = next x) then prev x else prev y) (if decide (q = prev x) then next x else next y)) <$> c !! q.
Proof.
  destruct x as [xp xn]. unfold set_prev, set_next. cbn [prev next]. rewrite lookup_delete, !lookup_alter.
  repeat (case_decide; subst; try congruence); destruct (c !! _) as [[]|]; reflexivity.
Qed.

Lemma app_split_mid (a b a' b' : list nat) q : a ++ b = a' ++ q :: b' ->
  (exists a2, a = a' ++ q :: a2 /\ b' = a2 ++ b) \/ (exists b1, b = b1 ++ q :: b' /\ a' = a ++ b1).
Proof.
  intros E. revert a' E. induction a as [|x a IH]; intros a' E.
  - right. by exists a'.
  - destruct a' as [|y a']; cbn in E; injection E as -> E.
    + left. by exists a.
    + destruct (IH _ E) as [(a2 & -> & ->)|(b1 & -> & ->)]; [left; by exists a2|right; by exists b1].
Qed.

Lemma remove_rep a b c n : rep (a ++ n :: b) c ->
  exists c', list_remove n c = Ret c' /\ rep (a ++ b) c'.
Proof.
  intros H. pose proof (rep_nodup _ _ H) as Hnd. destruct (last_not_self a b n Hnd) as [Hla Hhb].
  unfold list_remove. rewrite (rep_node _ _ H a n b) by done. cbn [prev next].
  rewrite !decide_False by done. eexists. split; [done|].
  pose proof (fun q => remove_lookup c n (mkNode (last a) (head b)) q) as Hq. cbn [prev next] in Hq.
  apply NoDup_app in Hnd as (Hna & Hab & Hnb). apply NoDup_cons in Hnb as [Hn Hnb].
  assert (Hdis : forall q, q ∈ a -> q ∉ b) by (intros q Ha Hb; apply (Hab q Ha); set_solver).
  split.
  - apply NoDup_app. auto.
  - rewrite Hq, decide_False, (rep_head _ _ H), last_app_cons, last_app by done. cbn. f_equal. f_equal.
    + destruct b as [|y b]; [by rewrite decide_True|]. cbn. rewrite last_cons. by destruct (last b).
    + destruct a as [|y a]; [by rewrite decide_True|]. cbn. rewrite decide_False; [done|].
      by intros E%eq_sym%last_None.
  - intros a' q b' E. rewrite Hq.
    destruct (app_split_mid a b a' b' q E) as [(a2 & -> & ->)|(b1 & -> & ->)].
    + assert (q ≠ n) by (intros ->; apply (Hab n); set_solver).
      rewrite decide_False by congruence. rewrite (rep_node _ _ H a' q (a2 ++ n :: b)) by (by rewrite <- app_assoc).
      cbn. f_equal. f_equal.
      * rewrite decide_False; [done|]. intros Eh. apply (Hdis q); [set_solver|]. by destruct b; cbn in Eh; simplify_eq; left.
      * destruct a2 as [|y a2]; cbn; [by rewrite last_snoc, decide_True|].
        rewrite decide_False; [done|]. rewrite last_app_cons, last_cons_cons. intros E'%eq_sym%last_Some_elem_of.
        apply NoDup_app in Hna as (_ & _ & Hna). by apply NoDup_cons in Hna as [? _].
    + assert (q ≠ n) by set_solver.
      rewrite decide_False by congruence. rewrite (rep_node _ _ H (a ++ n :: b1) q b') by (by rewrite <- app_assoc).
      cbn. f_equal. f_equal.
      * destruct b1 as [|y b1]; cbn; [by rewrite app_nil_r, decide_True|].
        rewrite decide_False, last_app_cons, last_app, last_cons_cons; [by destruct (last (y :: b1)) eqn:E'; [|apply last_None in E']|].
        intros [= ->]. cbn in Hnb. apply NoDup_cons in Hnb as [Hnb _]. set_solver.
      * rewrite decide_False; [done|]. intros E'%eq_sym%last_Some_elem_of. apply (Hdis q E'). set_solver.
  - intros q Hqn. rewrite Hq. case_decide; [done|]. rewrite (rep_out _ _ H q); [done|].
    rewrite elem_of_app, elem_of_cons in *. intros [?|[->|?]]; auto.
Qed.

(** The next element, starting again after the last one. *)
Lemma next_rep a b c p : rep (a ++ p :: b) c -> list_next (Some p) c = Ret (head (b ++ a ++ [p])).
Proof.
  intros H. destruct (last_not_self a b p (rep_nodup _ _ H)) as [Hla Hhb].
  unfold list_next. rewrite (rep_node _ _ H a p b), (rep_head _ _ H) by done. cbn [prev next].
  rewrite decide_False by (intros [_ [?|?]]; congruence). destruct b; [|done]. by destruct a.
Qed.

Lemma next_head_rep l c : rep l c -> list_next None c = Ret (head l).
Proof.
  intros H. unfold list_next. rewrite (rep_head _ _ H). cbn. by destruct (head l).
Qed.
End CList.
