(* ===== verification/LHash.v ===== *)
(** * Hash tables

    Model of [crypto/lhash/lhash.c]: linear hashing, where the table grows and
    shrinks by one bucket at a time.  The nodes are in a heap by address, with the
    [next] pointer, the stored hash and the data the code keeps in them; [b] is the
    array of the buckets' first nodes, and a pointer to a pointer, which the code
    uses to unlink and to append, is a [slot].  Data are opaque pointers.  Reading
    outside the array or a node that is not allocated, and dividing by zero, are
    undefined.  Allocations are inputs.  A reallocation to no bytes frees the array
    and returns null, as [CRYPTO_realloc] does.

    The functions [hash] and [comp] and their thunks are fields of the table, as in
    the code; [strcmp] and the string hash, the defaults, read the C string at a
    data pointer, which [cstr] gives as a list of signed characters. *)
From Stdlib Require Import ZArith Lia.
From stdpp Require Import base tactics option list gmap.
From S2P Require Import Prelude.
#[local] Open Scope Z_scope.

Module LHash.

Definition LH_LOAD_MULT : Z := 256.
Definition MIN_NODES : Z := 16.
Definition UP_LOAD : Z := 2 * LH_LOAD_MULT.
Definition DOWN_LOAD : Z := LH_LOAD_MULT.

(** ** Strings *)

Definition rotate_in (v ret : Z) : Z :=
  let r := Z.land (Z.lxor (Z.shiftr v 2) v) 15 in
  let ret := Z.lor (u64 (Z.shiftl ret r)) (Z.shiftr ret (32 - r)) in
  Z.lxor (u32 ret) (u64 (v * v)).

(** The loop over the characters; [n] is [0x100] times the position from one. *)
Fixpoint strhash_loop (adjust : Z) (s : list Z) (n ret : Z) : Z :=
  match s with
  | [] => ret
  | c :: s => strhash_loop adjust s (n + 256) (rotate_in (u64 (Z.lor n (Z.land adjust c))) ret)
  end.

Definition fold_hash (ret : Z) : Z := Z.lxor (Z.shiftr ret 16) ret.

Definition OPENSSL_LH_strhash (s : list Z) : Z := fold_hash (strhash_loop (-1) s 256 0).
Definition ossl_lh_strcasehash (s : list Z) : Z := fold_hash (strhash_loop (Z.lnot 32) s 256 0).

(** [strcmp]: the difference of the first characters that differ, as unsigned. *)
Fixpoint strcmp (s t : list Z) : Z :=
  match s, t with
  | [], [] => 0
  | [], c :: _ => - u8 c
  | c :: _, [] => u8 c
  | c :: s, d :: t => if c =? d then strcmp s t else u8 c - u8 d
  end.

(** [ossl_tolower] in ASCII and [OPENSSL_strcasecmp], which other tables compare with. *)
Definition ossl_tolower (c : Z) : Z := if (65 <=? c) && (c <=? 90) then Z.lxor c 32 else c.

Fixpoint OPENSSL_strcasecmp (s t : list Z) : Z :=
  match s, t with
  | [], [] => 0
  | [], d :: _ => ossl_tolower 0 - ossl_tolower d
  | c :: _, [] => ossl_tolower c - ossl_tolower 0
  | c :: s, d :: t => let r := ossl_tolower c - ossl_tolower d in if r =? 0 then OPENSSL_strcasecmp s t else r
  end.

(** ** Tables *)

Section table.
Context {D : Type} (cstr : D -> list Z).

Record OPENSSL_LH_NODE := mkNode { data : D; next : option nat; nhash : Z }.

Record OPENSSL_LHASH := mkLh {
  nodes : gmap nat OPENSSL_LH_NODE;
  b : list (option nat);
  comp : D -> D -> Z; hash : D -> Z;
  hashw : option (D -> (D -> Z) -> Z); compw : option (D -> D -> (D -> D -> Z) -> Z);
  num_nodes : Z; num_alloc_nodes : Z; p : Z; pmax : Z;
  up_load : Z; down_load : Z; num_items : Z; error : Z
}.

Definition set_nodes (v : gmap nat OPENSSL_LH_NODE) (l : OPENSSL_LHASH) : OPENSSL_LHASH :=
  mkLh v (b l) (comp l) (hash l) (hashw l) (compw l) (num_nodes l) (num_alloc_nodes l) (p l) (pmax l) (up_load l) (down_load l) (num_items l) (error l).
Definition set_b (v : list (option nat)) (l : OPENSSL_LHASH) : OPENSSL_LHASH :=
  mkLh (nodes l) v (comp l) (hash l) (hashw l) (compw l) (num_nodes l) (num_alloc_nodes l) (p l) (pmax l) (up_load l) (down_load l) (num_items l) (error l).
Definition set_sizes (nn na p' pm : Z) (l : OPENSSL_LHASH) : OPENSSL_LHASH :=
  mkLh (nodes l) (b l) (comp l) (hash l) (hashw l) (compw l) nn na p' pm (up_load l) (down_load l) (num_items l) (error l).
Definition set_num_items (v : Z) (l : OPENSSL_LHASH) : OPENSSL_LHASH :=
  mkLh (nodes l) (b l) (comp l) (hash l) (hashw l) (compw l) (num_nodes l) (num_alloc_nodes l) (p l) (pmax l) (up_load l) (down_load l) v (error l).
Definition set_error (v : Z) (l : OPENSSL_LHASH) : OPENSSL_LHASH :=
  mkLh (nodes l) (b l) (comp l) (hash l) (hashw l) (compw l) (num_nodes l) (num_alloc_nodes l) (p l) (pmax l) (up_load l) (down_load l) (num_items l) v.

Abbreviation MH := (M OPENSSL_LHASH).

(** A read that may be undefined. *)
Definition read {A} (o : OPENSSL_LHASH -> option A) : MH A :=
  fun l => match o l with Some x => (Ret x, l) | None => (Undef, l) end.

Definition node (a : nat) : MH OPENSSL_LH_NODE := read (fun l => nodes l !! a).
Definition set_node (a : nat) (f : OPENSSL_LH_NODE -> OPENSSL_LH_NODE) : MH unit :=
  x ← node a; modify (fun l => set_nodes (<[a := f x]> (nodes l)) l).
Definition with_next (v : option nat) (x : OPENSSL_LH_NODE) : OPENSSL_LH_NODE := mkNode (data x) v (nhash x).
Definition with_data (v : D) (x : OPENSSL_LH_NODE) : OPENSSL_LH_NODE := mkNode v (next x) (nhash x).

Definition bucket_at (i : Z) (l : OPENSSL_LHASH) : option (option nat) := if i <? 0 then None else b l !! Z.to_nat i.

(** The address of a bucket's pointer, or of the [next] field of a node. *)
Inductive slot := Bucket (i : Z) | Next (a : nat).

Definition deref (s : slot) : MH (option nat) :=
  match s with
  | Bucket i => read (bucket_at i)
  | Next a => x ← node a; mret (next x)
  end.

Definition assign (s : slot) (v : option nat) : MH unit :=
  match s with
  | Bucket i => _ ← read (bucket_at i); modify (fun l => set_b (<[Z.to_nat i := v]> (b l)) l)
  | Next a => set_node a (with_next v)
  end.

(** [x % y] and [x / y] of unsigned integers. *)
Definition umod (x y : Z) : MH Z := if y =? 0 then undefined else mret (x mod y).
Definition udiv (x y : Z) : MH Z := if y =? 0 then undefined else mret (x / y).

(** A conversion to [int]. *)
Definition to_int (x : Z) : Z := if u32 x <? 2147483648 then u32 x else u32 x - 4294967296.

Definition call_hash (l : OPENSSL_LHASH) (d : D) : Z := match hashw l with Some w => w d (hash l) | None => hash l d end.
Definition call_comp (l : OPENSSL_LHASH) (d e : D) : Z := match compw l with Some w => w d e (comp l) | None => comp l d e end.

Definition OPENSSL_LH_set_thunks (hw : option (D -> (D -> Z) -> Z)) (cw : option (D -> D -> (D -> D -> Z) -> Z)) : MH unit :=
  modify (fun l => mkLh (nodes l) (b l) (comp l) (hash l) hw cw (num_nodes l) (num_alloc_nodes l) (p l) (pmax l) (up_load l) (down_load l) (num_items l) (error l)).

Definition OPENSSL_LH_new (alloc_t alloc_b : bool) (h : option (D -> Z)) (c : option (D -> D -> Z)) : option OPENSSL_LHASH :=
  if negb alloc_t then None else
  if negb alloc_b then None else
  Some (mkLh ∅ (replicate (Z.to_nat MIN_NODES) None)
    (default (fun d e => strcmp (cstr d) (cstr e)) c) (default (fun d => OPENSSL_LH_strhash (cstr d)) h) None None
    (MIN_NODES / 2) MIN_NODES 0 (MIN_NODES / 2) UP_LOAD DOWN_LOAD 0 0).

(** The inner loop of [OPENSSL_LH_flush]. *)
Fixpoint free_chain (fuel : nat) (n : option nat) : MH unit :=
  match n with
  | None => mret tt
  | Some a =>
      match fuel with
      | O => undefined
      | S fuel =>
          x ← node a;
          modify (fun l => set_nodes (delete a (nodes l)) l);; free_chain fuel (next x)
      end
  end.

(** The outer loop, with [k] buckets left from [i]. *)
Fixpoint flush_loop (k : nat) (i : Z) : MH unit :=
  match k with
  | O => mret tt
  | S k =>
      n ← deref (Bucket i);
      l ← get;
      free_chain (size (nodes l)) n;;
      assign (Bucket i) None;;
      flush_loop k (i + 1)
  end.

Definition OPENSSL_LH_flush : MH unit :=
  l ← get;
  flush_loop (Z.to_nat (num_nodes l)) 0;;
  modify (set_num_items 0).

(** The table itself is gone afterwards: what is left is only what would be leaked. *)
Definition OPENSSL_LH_free : MH unit := OPENSSL_LH_flush;; modify (set_b []).

(** The loop of [expand]: [nni] and [p] are those before the table grew. *)
Fixpoint expand_loop (fuel : nat) (nni p : Z) (n1 n2 : slot) : MH unit :=
  np ← deref n1;
  match np with
  | None => mret tt
  | Some a =>
      match fuel with
      | O => undefined
      | S fuel =>
          x ← node a;
          h ← umod (nhash x) nni;
          if negb (h =? p) then
            assign n1 (next x);;
            m ← deref n2;
            set_node a (with_next m);;
            assign n2 (Some a);;
            expand_loop fuel nni p n1 n2
          else expand_loop fuel nni p (Next a) n2
      end
  end.

(** [OPENSSL_realloc] of the array to [n] pointers, and [memset] of a part of it. *)
Definition realloc_b (n : Z) (v : list (option nat)) : list (option nat) :=
  take (Z.to_nat n) v ++ replicate (Z.to_nat n - length v) None.
Definition clear_from (i j : Z) (v : list (option nat)) : list (option nat) :=
  take (Z.to_nat i) v ++ replicate (Z.to_nat (j - i)) None ++ drop (Z.to_nat j) v.

(** The first part of [expand]: a larger array once all buckets are split. *)
Definition grow (alloc : bool) (nni p0 pmax0 : Z) : MH bool :=
  if pmax0 <=? u32 (p0 + 1) then
    let j := u32 (nni * 2) in
    if j =? 0 then modify (fun l => set_error (error l + 1) (set_b [] l));; mret false
    else if negb alloc then modify (fun l => set_error (error l + 1) l);; mret false
    else
      modify (fun l => set_sizes (num_nodes l) j 0 nni (set_b (clear_from nni j (realloc_b j (b l))) l));;
      mret true
  else modify (fun l => set_sizes (num_nodes l) (num_alloc_nodes l) (p l + 1) (pmax l) l);; mret true.

Definition expand (alloc : bool) : MH bool :=
  l ← get;
  let nni := num_alloc_nodes l in
  let p0 := p l in
  let pmax0 := pmax l in
  ok ← grow alloc nni p0 pmax0;
  if negb ok then mret false else
  modify (fun l => set_sizes (u32 (num_nodes l + 1)) (num_alloc_nodes l) (p l) (pmax l) l);;
  let n1 := Bucket p0 in
  let n2 := Bucket (u32 (p0 + pmax0)) in
  assign n2 None;;
  expand_loop (size (nodes l)) nni p0 n1 n2;;
  mret true.

(** The walk of [contract] to the last node of a chain. *)
Fixpoint chain_end (fuel : nat) (a : nat) : MH nat :=
  x ← node a;
  match next x with
  | None => mret a
  | Some c => match fuel with O => undefined | S fuel => chain_end fuel c end
  end.

(** The second part of [contract]: half the array once the last split is undone. *)
Definition shrink (alloc : bool) : MH unit :=
  l ← get;
  if p l =? 0 then
    let bytes := u32 (8 * pmax l) in
    (if bytes =? 0 then modify (fun l => set_error (error l + 1) (set_b [] l))
     else if negb alloc then modify (fun l => set_error (error l + 1) l)
     else modify (fun l => set_b (realloc_b (bytes / 8) (b l)) l));;
    modify (fun l => set_sizes (num_nodes l) (num_alloc_nodes l / 2) (u32 (pmax l / 2 - 1)) (pmax l / 2) l)
  else modify (fun l => set_sizes (num_nodes l) (num_alloc_nodes l) (p l - 1) (pmax l) l).

Definition contract (alloc : bool) : MH unit :=
  l ← get;
  let last := Bucket (u32 (p l + pmax l - 1)) in
  np ← deref last;
  assign last None;;
  shrink alloc;;
  modify (fun l => set_sizes (u32 (num_nodes l - 1)) (num_alloc_nodes l) (p l) (pmax l) l);;
  l ← get;
  let first := Bucket (to_int (p l)) in
  n1 ← deref first;
  match n1 with
  | None => assign first np
  | Some a => e ← chain_end (size (nodes l)) a; set_node e (with_next np)
  end.

Fixpoint getrn_loop (fuel : nat) (h : Z) (d : D) (ret : slot) (n1 : option nat) : MH slot :=
  match n1 with
  | None => mret ret
  | Some a =>
      match fuel with
      | O => undefined
      | S fuel =>
          x ← node a;
          if negb (nhash x =? h) then getrn_loop fuel h d (Next a) (next x) else
          l ← get;
          if call_comp l (data x) d =? 0 then mret ret
          else getrn_loop fuel h d (Next a) (next x)
      end
  end.

Definition getrn (d : D) : MH (slot * Z) :=
  l ← get;
  let h := call_hash l d in
  nn ← umod h (pmax l);
  nn ← (if nn <? p l then umod h (num_alloc_nodes l) else mret nn);
  let ret := Bucket (to_int nn) in
  n1 ← deref ret;
  s ← getrn_loop (size (nodes l)) h d ret n1;
  mret (s, h).

(** [alloc_n] is the address of the new node, or [None] when [malloc] fails. *)
Definition OPENSSL_LH_insert (alloc_b : bool) (alloc_n : option nat) (d : D) : MH (option D) :=
  modify (set_error 0);;
  l ← get;
  load ← udiv (u64 (num_items l * LH_LOAD_MULT)) (num_nodes l);
  ok ← (if up_load l <=? load then expand alloc_b else mret true);
  if negb ok then mret None else
  '(rn, h) ← getrn d;
  n ← deref rn;
  match n with
  | None =>
      match alloc_n with
      | None => modify (fun l => set_error (error l + 1) l);; mret None
      | Some nn =>
          modify (fun l => set_nodes (<[nn := mkNode d None h]> (nodes l)) l);;
          assign rn (Some nn);;
          modify (fun l => set_num_items (u64 (num_items l + 1)) l);;
          mret None
      end
  | Some a =>
      x ← node a;
      set_node a (with_data d);;
      mret (Some (data x))
  end.

Definition OPENSSL_LH_delete (alloc_b : bool) (d : D) : MH (option D) :=
  modify (set_error 0);;
  '(rn, _) ← getrn d;
  n ← deref rn;
  match n with
  | None => mret None
  | Some a =>
      x ← node a;
      assign rn (next x);;
      modify (fun l => set_nodes (delete a (nodes l)) l);;
      modify (fun l => set_num_items (u64 (num_items l - 1)) l);;
      l ← get;
      (if MIN_NODES <? num_nodes l then
         load ← udiv (u64 (num_items l * LH_LOAD_MULT)) (num_nodes l);
         if load <=? down_load l then contract alloc_b else mret tt
       else mret tt);;
      mret (Some (data x))
  end.

Definition OPENSSL_LH_retrieve (d : D) : MH (option D) :=
  l ← get;
  (if negb (error l =? 0) then modify (set_error 0) else mret tt);;
  '(rn, _) ← getrn d;
  n ← deref rn;
  match n with
  | None => mret None
  | Some a => x ← node a; mret (Some (data x))
  end.

(** [func] runs on the table, as a callback that has access to it does, and on a
    state of the caller's. *)
Section doall.
Context {A : Type} (func : D -> M (OPENSSL_LHASH * A) unit).

Definition on_table {B} (m : MH B) : M (OPENSSL_LHASH * A) B := fun s => let '(r, l) := m s.1 in (r, (l, s.2)).

Fixpoint doall_chain (fuel : nat) (a : option nat) : M (OPENSSL_LHASH * A) unit :=
  match a with
  | None => mret tt
  | Some c =>
      match fuel with
      | O => undefined
      | S fuel =>
          x ← on_table (node c);
          func (data x);;
          doall_chain fuel (next x)
      end
  end.

(** The buckets [i - 1], ..., [0]. *)
Fixpoint doall_buckets (i : nat) : M (OPENSSL_LHASH * A) unit :=
  match i with
  | O => mret tt
  | S i =>
      a ← on_table (deref (Bucket (Z.of_nat i)));
      s ← get;
      doall_chain (size (nodes s.1)) a;;
      doall_buckets i
  end.

Definition doall_util_fn : M (OPENSSL_LHASH * A) unit :=
  s ← get;
  doall_buckets (Z.to_nat (to_int (u32 (num_nodes s.1 - 1)) + 1)).
End doall.

Definition OPENSSL_LH_num_items (l : option OPENSSL_LHASH) : Z := match l with Some l => num_items l | None => 0 end.
Definition OPENSSL_LH_get_down_load (l : OPENSSL_LHASH) : Z := down_load l.
Definition OPENSSL_LH_set_down_load (v : Z) : MH unit :=
  modify (fun l => mkLh (nodes l) (b l) (comp l) (hash l) (hashw l) (compw l) (num_nodes l) (num_alloc_nodes l) (p l) (pmax l) (up_load l) v (num_items l) (error l)).
Definition OPENSSL_LH_error (l : OPENSSL_LHASH) : Z := error l.
End table.
End LHash.
