(* ===== verification/LHashInv.v ===== *)
(** * Hash tables: chains, buckets and the invariant

    The pointers of [LHash] as lists: [chain g s xs] says that the nodes reached
    from [s] are [xs].  The rules for reading and writing a slot, for the search,
    and for moving nodes between buckets when the table grows or shrinks, lead to
    the invariant [inv]: every node is in the bucket its hash says at the present
    size of the table, and no two have the same key. *)
From Stdlib Require Import ZArith Lia.
From stdpp Require Import base tactics option list gmap.
From S2P Require Import Prelude LHash.
#[local] Open Scope Z_scope.
Import LHash.

Module LHashInv.

(** ** The bucket of a hash *)

(** With [pm + p] buckets, of which the first [p] have been split. *)
Definition place (pm p h : Z) : Z := if h mod pm <? p then h mod (2 * pm) else h mod pm.

(** The number of buckets grown by one. *)
Definition grow_p (pm p : Z) : Z := if pm <=? p + 1 then 0 else p + 1.
Definition grow_pm (pm p : Z) : Z := if pm <=? p + 1 then 2 * pm else pm.

Lemma mod_double pm h : 0 < pm -> h mod (2 * pm) = h mod pm \/ h mod (2 * pm) = h mod pm + pm.
Proof.
  intros. rewrite (Z.mul_comm 2 pm), Z.rem_mul_r by lia. pose proof (Z.mod_pos_bound (h / pm) 2 ltac:(lia)).
  assert (E : (h / pm) mod 2 = 0 \/ (h / pm) mod 2 = 1) by lia. destruct E as [->| ->]; lia.
Qed.

Lemma place_range pm p h : 0 < pm -> 0 <= p < pm -> 0 <= place pm p h < pm + p.
Proof. intros. pose proof (mod_double pm h ltac:(lia)). pose proof (Z.mod_pos_bound h pm ltac:(lia)). unfold place. zcase; lia. Qed.

Lemma place_grow pm p h : 0 < pm -> 0 <= p < pm ->
  place (grow_pm pm p) (grow_p pm p) h = if place pm p h =? p then (if h mod (2 * pm) =? p then p else p + pm) else place pm p h.
Proof.
  intros. pose proof (mod_double pm h ltac:(lia)). pose proof (Z.mod_pos_bound h pm ltac:(lia)). unfold place, grow_pm, grow_p.
  destruct (pm <=? p + 1) eqn:E; zb; [pose proof (Z.mod_pos_bound h (2 * pm) ltac:(lia)); rewrite (proj2 (Z.ltb_ge (h mod (2 * pm)) 0)) by lia|]; repeat (zcase; try lia).
Qed.

Section inv.
Context {D : Type} {K : Type} `{EqK : EqDecision K, CK : !Countable K} (key : D -> K) (hk : K -> Z).

Abbreviation node_t := (OPENSSL_LH_NODE (D := D)).
Abbreviation lhash := (OPENSSL_LHASH (D := D)).

(** ** Chains *)

(** The nodes [xs] linked one after another from [s], the last with [next] [t]. *)
Fixpoint seg (g : gmap nat node_t) (s : option nat) (xs : list nat) (t : option nat) : Prop :=
  match xs with
  | [] => s = t
  | a :: xs => s = Some a /\ exists x, g !! a = Some x /\ seg g (next x) xs t
  end.
Abbreviation chain g s xs := (seg g s xs None).

Lemma seg_app g s xs ys t : seg g s (xs ++ ys) t <-> exists u, seg g s xs u /\ seg g u ys t.
Proof.
  induction xs as [|a xs IH] in s |- *; cbn; [naive_solver|]. split.
  - intros (-> & x & Hx & (u & Hu & Hy)%IH). eauto 10.
  - intros (u & (-> & x & Hx & Hs) & Hy). split; [done|]. exists x. split; [done|]. apply IH. eauto.
Qed.

Lemma chain_head g s xs : chain g s xs -> s = head xs.
Proof. destruct xs; [done|by intros [-> _]]. Qed.

Lemma seg_in g s xs t a : seg g s xs t -> a ∈ xs -> is_Some (g !! a).
Proof. induction xs as [|c xs IH] in s |- *; [set_solver|]. intros (-> & x & Hx & Hc) [->|Ha]%elem_of_cons; eauto. Qed.

Lemma seg_frame g g' s xs t : seg g s xs t -> (forall a, a ∈ xs -> g' !! a = g !! a) -> seg g' s xs t.
Proof.
  induction xs as [|c xs IH] in s |- *; [done|]. intros (-> & x & Hx & Hc) E. split; [done|]. exists x.
  rewrite E by set_solver. split; [done|]. apply IH; [done|]. intros; apply E; set_solver.
Qed.

Lemma seg_relink g s xs e t v x : NoDup (xs ++ [e]) -> seg g s (xs ++ [e]) t -> g !! e = Some x -> seg (<[e := with_next v x]> g) s (xs ++ [e]) v.
Proof.
  intros (_ & Hd & _)%NoDup_app (u & Hs & -> & y & Hy & _)%seg_app Hx. apply seg_app. exists (Some e). split.
  - eapply seg_frame; [done|]. intros a Ha. rewrite lookup_insert_ne; [done|]. intros <-. apply (Hd _ Ha). set_solver.
  - split; [done|]. exists (with_next v x). by rewrite lookup_insert_eq.
Qed.

(** What the nodes hold, without their links. *)
Definition core (x : node_t) : D * Z := (data x, nhash x).

Lemma core_with_next v g a x : g !! a = Some x -> core <$> <[a := with_next v x]> g = core <$> (g : gmap nat node_t).
Proof. intros Hx. rewrite fmap_insert. apply insert_id. by rewrite lookup_fmap, Hx. Qed.

Lemma core_size (g g' : gmap nat node_t) : core <$> g' = core <$> g -> size g' = size g.
Proof. intros E. rewrite <- (map_size_fmap core g), <- E. by rewrite map_size_fmap. Qed.

(** ** The buckets *)

Definition chains (g : gmap nat node_t) (v : list (option nat)) (n : Z) (ls : Z -> list nat) : Prop :=
  forall i, 0 <= i < n -> exists s, v !! Z.to_nat i = Some s /\ chain g s (ls i).
Definition disj (n : Z) (ls : Z -> list nat) : Prop :=
  (forall i, 0 <= i < n -> NoDup (ls i)) /\ forall i j a, 0 <= i < n -> 0 <= j < n -> a ∈ ls i -> a ∈ ls j -> i = j.
Definition upd (ls : Z -> list nat) (i : Z) (xs : list nat) (j : Z) : list nat := if decide (j = i) then xs else ls j.

Lemma upd_eq ls i xs : upd ls i xs i = xs.
Proof. unfold upd. by rewrite decide_True. Qed.
Lemma upd_ne ls i xs j : j <> i -> upd ls i xs j = ls j.
Proof. intros. unfold upd. by rewrite decide_False. Qed.

(** The slot after the nodes [xs] of bucket [i]. *)
Definition slot_of (i : Z) (xs : list nat) : slot := match last xs with None => Bucket i | Some a => Next a end.

Lemma slot_snoc i xs a : slot_of i (xs ++ [a]) = Next a.
Proof. unfold slot_of. by rewrite last_snoc. Qed.

Lemma bucket_read (l : lhash) n ls i : chains (nodes l) (b l) n ls -> 0 <= i < n -> deref (Bucket i) l = (Ret (head (ls i)), l).
Proof.
  intros Hc Hi. destruct (Hc i Hi) as (s & Hs & Hch). cbn. unfold read, bucket_at. rewrite (proj2 (Z.ltb_ge i 0)) by lia.
  rewrite Hs. by rewrite (chain_head _ _ _ Hch).
Qed.

Lemma deref_slot (l : lhash) n ls i xs ys : chains (nodes l) (b l) n ls -> 0 <= i < n -> ls i = xs ++ ys -> deref (slot_of i xs) l = (Ret (head ys), l).
Proof.
  intros Hc Hi E. destruct xs as [|e xs' _] using rev_ind; [change (slot_of i []) with (Bucket i); by rewrite (bucket_read _ _ _ _ Hc Hi), E|].
  rewrite slot_snoc. destruct (Hc i Hi) as (s & Hs & Hch). rewrite E in Hch. apply seg_app in Hch as (u & (w & _ & -> & x & Hx & Hn)%seg_app & Hy).
  cbn. unfold node, read, mbind, M_bind. rewrite Hx. cbn in *. subst. by rewrite (chain_head _ _ _ Hy).
Qed.

(** Writing a slot cuts the chain there and continues it with another. *)
Lemma assign_slot (l : lhash) n ls i xs ys v zs :
  chains (nodes l) (b l) n ls -> disj n ls -> 0 <= i < n -> ls i = xs ++ ys -> chain (nodes l) v zs -> (forall a, a ∈ zs -> a ∉ xs) ->
  exists g' b', assign (slot_of i xs) v l = (Ret tt, set_b b' (set_nodes g' l)) /\ core <$> g' = core <$> nodes l /\ length b' = length (b l) /\
    chains g' b' n (upd ls i (xs ++ zs)) /\ forall a, a ∉ xs -> g' !! a = nodes l !! a.
Proof.
  intros Hc [Hnd Hdj] Hi E Hz Hd. destruct (Hc i Hi) as (s & Hs & Hch). pose proof (Hnd i Hi) as Hni. rewrite E in Hch, Hni. destruct xs as [|e xs' _] using rev_ind.
  - exists (nodes l), (<[Z.to_nat i := v]> (b l)). split_and!; [|done|apply length_insert| |done].
    + cbn. unfold read, bucket_at, mbind, M_bind. rewrite (proj2 (Z.ltb_ge i 0)) by lia. rewrite Hs. by destruct l.
    + intros j Hj. unfold upd. case_decide; [subst j; exists v; split; [|done]; rewrite list_lookup_insert_eq; [done|by eapply lookup_lt_Some]|].
      destruct (Hc j Hj) as (t & Ht & Hjc). exists t. split; [|done]. rewrite list_lookup_insert_ne by lia. done.
  - apply seg_app in Hch as (u & Hsx & Hy). destruct (seg_in _ _ _ _ e Hsx) as [x Hx]; [set_solver|]. apply NoDup_app in Hni as (Hni & _ & _).
    rewrite slot_snoc. exists (<[e := with_next v x]> (nodes l)), (b l). split_and!.
    + cbn. unfold set_node, node, read, mbind, M_bind. rewrite Hx. by destruct l.
    + by apply core_with_next.
    + done.
    + intros j Hj. unfold upd. case_decide as Ej; [subst j; exists s; split; [done|]; apply seg_app; exists v; split; [by eapply seg_relink|]|].
      * eapply seg_frame; [done|]. intros a Ha. apply lookup_insert_ne. intros <-. apply (Hd _ Ha). set_solver.
      * destruct (Hc j Hj) as (t & Ht & Hjc). exists t. split; [done|]. eapply seg_frame; [done|]. intros a Ha. apply lookup_insert_ne. intros <-.
        apply Ej, (Hdj j i e Hj Hi Ha). rewrite E. set_solver.
    + intros a Ha. apply lookup_insert_ne. intros <-. set_solver.
Qed.

Lemma chains_ext g v n ls ls' : chains g v n ls -> (forall i, 0 <= i < n -> ls' i = ls i) -> chains g v n ls'.
Proof. intros Hc E i Hi. rewrite E by done. by apply Hc. Qed.

Lemma chains_frame g g' v n ls : chains g v n ls -> (forall i a, 0 <= i < n -> a ∈ ls i -> g' !! a = g !! a) -> chains g' v n ls.
Proof. intros Hc E i Hi. destruct (Hc i Hi) as (s & Hs & Hch). exists s. split; [done|]. eapply seg_frame; [done|]. intros; by eapply E. Qed.

Lemma disj_upd n ls i xs : disj n ls -> NoDup xs -> (forall a j, 0 <= j < n -> j <> i -> a ∈ xs -> a ∉ ls j) -> disj n (upd ls i xs).
Proof.
  intros [Hnd Hdj] Hx Hf. split.
  - intros j Hj. unfold upd. case_decide; auto.
  - intros j k a Hj Hk. unfold upd. repeat case_decide; subst; try done; [..|by apply Hdj]; intros H1 H2; exfalso; [by eapply (Hf a k)|by eapply (Hf a j)].
Qed.

(** One node moved from bucket [i] to the front of bucket [q]. *)
Definition hash_of (g : gmap nat node_t) (a : nat) : Z := match g !! a with Some x => nhash x | None => 0 end.

Lemma hash_of_core g g' a : core <$> g' = core <$> g -> hash_of g' a = hash_of g a.
Proof.
  intros E. assert (Ea : core <$> g' !! a = core <$> g !! a) by (by rewrite <- !lookup_fmap, E).
  unfold hash_of. destruct (g' !! a) as [[]|], (g !! a) as [[]|]; simplify_eq/=; done.
Qed.

Lemma set_twice (l : lhash) g v g' v' : set_b v' (set_nodes g' (set_b v (set_nodes g l))) = set_b v' (set_nodes g' l).
Proof. done. Qed.

Lemma move_step (l : lhash) n ls i q xs a ys x :
  chains (nodes l) (b l) n ls -> disj n ls -> 0 <= i < n -> 0 <= q < n -> i <> q -> ls i = xs ++ a :: ys -> nodes l !! a = Some x ->
  exists g' b', (assign (slot_of i xs) (next x);; m ← deref (Bucket q); set_node a (with_next m);; assign (Bucket q) (Some a)) l
                = (Ret tt, set_b b' (set_nodes g' l)) /\ core <$> g' = core <$> nodes l /\ length b' = length (b l) /\
    chains g' b' n (upd (upd ls i (xs ++ ys)) q (a :: ls q)) /\ disj n (upd (upd ls i (xs ++ ys)) q (a :: ls q)).
Proof.
  intros Hc Hdj Hi Hq Hne E Hx. pose proof Hdj as [Hnd Hds]. pose proof (Hnd i Hi) as Hni. rewrite E in Hni. pose proof Hni as (Hnx & Hxy & Hny)%NoDup_app.
  apply NoDup_cons in Hny as [Hay Hny].
  assert (Hys : chain (nodes l) (next x) ys).
  { destruct (Hc i Hi) as (s & _ & Hch). rewrite E in Hch. apply seg_app in Hch as (u & _ & _ & x' & Hx' & Hy). congruence. }
  destruct (assign_slot l n ls i xs (a :: ys) (next x) ys Hc Hdj Hi E Hys) as (g1 & b1 & E1 & Hcore1 & Hl1 & Hc1 & Hf1); [intros c Hcy Hcx; apply (Hxy c Hcx); set_solver|].
  assert (Hx1 : g1 !! a = Some x). { rewrite Hf1; [done|]. intros ?. apply (Hxy a); set_solver. }
  assert (Hdj1 : disj n (upd ls i (xs ++ ys))).
  { apply disj_upd; [done| |].
    - apply NoDup_app. split_and!; [done| |done]. intros c H1 H2. apply (Hxy c H1). set_solver.
    - intros c j Hj Hji Hc' Hcj. apply Hji, (Hds j i c); [done|done|done|]. rewrite E. set_solver. }
  assert (Hout : forall j, 0 <= j < n -> a ∉ upd ls i (xs ++ ys) j).
  { intros j Hj Ha. unfold upd in Ha. case_decide as Ej; [apply elem_of_app in Ha as [Ha|Ha]; [apply (Hxy a Ha); left|done]|].
    apply Ej, (Hds j i a); [done|done|done|]. rewrite E. set_solver. }
  set (l2 := set_nodes (<[a := with_next (head (ls q)) x]> g1) (set_b b1 (set_nodes g1 l))).
  assert (Hc2 : chains (nodes l2) (b l2) n (upd ls i (xs ++ ys))).
  { eapply chains_frame; [exact Hc1|]. intros j c Hj Hcj. apply lookup_insert_ne. intros <-. by apply (Hout j Hj). }
  assert (Hq1 : upd ls i (xs ++ ys) q = ls q) by (apply upd_ne; congruence).
  destruct (assign_slot l2 n _ q [] (ls q) (Some a) (a :: ls q) Hc2 Hdj1 Hq) as (g3 & b3 & E3 & Hcore3 & Hl3 & Hc3 & _); [by rewrite Hq1| |set_solver|].
  { split; [done|]. exists (with_next (head (ls q)) x). split; [apply lookup_insert_eq|]. destruct (Hc2 q Hq) as (s & _ & Hs). rewrite Hq1 in Hs.
    rewrite (chain_head _ _ _ Hs) in Hs. exact Hs. }
  exists g3, b3. split_and!; [|rewrite Hcore3; cbn; by rewrite (core_with_next _ _ _ _ Hx1)|rewrite Hl3; done|exact Hc3|].
  - rewrite (bind_ret _ _ _ _ _ E1). rewrite (bind_ret _ _ _ _ _ (bucket_read (set_b b1 (set_nodes g1 l)) n _ q Hc1 Hq)), Hq1.
    rewrite (bind_ret (set_node a (with_next (head (ls q)))) _ _ tt l2); [exact E3|]. unfold set_node, node, read, mbind, M_bind. cbn. by rewrite Hx1.
  - apply disj_upd; [done| |].
    + apply NoDup_cons. split; [rewrite <- Hq1; by apply Hout|by apply Hnd].
    + intros c j Hj Hjq [->|Hcq]%elem_of_cons; [by apply Hout|]. intros Hcj. apply Hjq, (proj2 Hdj1 j q c); [done|done|done|]. by rewrite Hq1.
Qed.

Lemma expand_loop_ok nni i q n ys : 0 < nni -> 0 <= i < n -> 0 <= q < n -> i <> q -> forall fuel (l : lhash) ls xs,
  chains (nodes l) (b l) n ls -> disj n ls -> ls i = xs ++ ys -> (length ys <= fuel)%nat ->
  let keep a := hash_of (nodes l) a mod nni = i in
  exists g' b', expand_loop fuel nni i (slot_of i xs) (Bucket q) l = (Ret tt, set_b b' (set_nodes g' l)) /\ core <$> g' = core <$> nodes l /\ length b' = length (b l) /\
    exists ls', chains g' b' n ls' /\ disj n ls' /\ (forall j, 0 <= j < n -> j <> i -> j <> q -> ls' j = ls j) /\
      (forall a, a ∈ ls' i <-> a ∈ xs \/ a ∈ ys /\ keep a) /\ (forall a, a ∈ ls' q <-> a ∈ ls q \/ a ∈ ys /\ ~ keep a).
Proof.
  intros Hn Hi Hq Hne. induction ys as [|a ys IH]; intros fuel l ls xs Hc Hdj E Hf keep.
  - exists (nodes l), (b l). split_and!; [|done|done|].
    + assert (Ed : deref (slot_of i xs) l = (Ret None, l)) by (by rewrite (deref_slot l n ls i xs [] Hc Hi E)).
      destruct fuel; cbn; rewrite (bind_ret _ _ _ _ _ Ed); by destruct l.
    + exists ls. split_and!; try done; intros c; rewrite ?E, ?app_nil_r; set_solver.
  - destruct fuel as [|fuel]; [cbn in Hf; lia|]. cbn in Hf.
    destruct (Hc i Hi) as (s & _ & Hch). rewrite E in Hch. apply seg_app in Hch as (u & _ & _ & x & Hx & Hy).
    assert (Ed : deref (slot_of i xs) l = (Ret (Some a), l)) by (by rewrite (deref_slot l n ls i xs (a :: ys) Hc Hi E)).
    assert (En : node a l = (Ret x, l)) by (unfold node, read; by rewrite Hx).
    assert (Eu : umod (nhash x) nni l = (Ret (nhash x mod nni), l)) by (unfold umod; by rewrite (proj2 (Z.eqb_neq nni 0)) by lia).
    assert (Hk : keep a <-> nhash x mod nni = i) by (unfold keep, hash_of; by rewrite Hx).
    cbn [expand_loop]. rewrite (bind_ret _ _ _ _ _ Ed). cbn [mbind]. rewrite (bind_ret _ _ _ _ _ En). rewrite (bind_ret _ _ _ _ _ Eu).
    destruct (nhash x mod nni =? i) eqn:Em; zb; cbn [negb].
    + destruct (IH fuel l ls (xs ++ [a]) Hc Hdj) as (g' & b' & Er & Hcore & Hl & ls' & H1 & H2 & H3 & H4 & H5); [by rewrite E, <- app_assoc|lia|].
      rewrite slot_snoc in Er. exists g', b'. split_and!; try done. exists ls'. split_and!; try done; intros c; [rewrite H4|rewrite H5].
      * rewrite elem_of_app, list_elem_of_singleton, elem_of_cons. naive_solver.
      * rewrite elem_of_cons. naive_solver.
    + destruct (move_step l n ls i q xs a ys x Hc Hdj Hi Hq Hne E Hx) as (g1 & b1 & E1 & Hcore1 & Hl1 & Hc1 & Hdj1).
      destruct (IH fuel (set_b b1 (set_nodes g1 l)) _ xs Hc1 Hdj1) as (g' & b' & Er & Hcore & Hl & ls' & H1 & H2 & H3 & H4 & H5);
        [rewrite upd_ne by done; apply upd_eq|lia|].
      exists g', b'. split_and!; [|by rewrite Hcore|by rewrite Hl|].
      * revert E1. unfold mbind, M_bind. repeat (case_match; try done). intros [= E1]. subst. by rewrite Er, set_twice.
      * exists ls'. split_and!; try done.
        { intros j Hj ? ?. rewrite H3, !upd_ne by done. done. }
        all: intros c; first [rewrite H4|rewrite H5]; cbn [nodes set_b set_nodes]; rewrite ?(hash_of_core _ _ c Hcore1), ?upd_eq, ?elem_of_cons; fold (keep c); naive_solver.
Qed.

Lemma chain_end_ok g s ys fuel (l : lhash) xs : nodes l = g -> chain g s (xs ++ ys) -> (length ys <= S fuel)%nat -> ys <> [] -> forall a, head ys = Some a ->
  exists e zs, ys = zs ++ [e] /\ chain_end fuel a l = (Ret e, l).
Proof.
  intros Hg Hc Hf _. induction fuel as [|fuel IH] in xs, ys, Hc, Hf |- *; intros a Ha; (destruct ys as [|c ys]; [done|]); cbn in Ha; injection Ha as ->;
    pose proof Hc as (u & _ & _ & x & Hx & Hy)%seg_app; assert (En : node a l = (Ret x, l)) by (unfold node, read; by rewrite Hg, Hx).
  - destruct ys as [|c ys]; [|cbn in Hf; lia]. cbn in Hy. exists a, []. split; [done|]. cbn. rewrite (bind_ret _ _ _ _ _ En). by rewrite Hy.
  - cbn [chain_end]. rewrite (bind_ret _ _ _ _ _ En). destruct ys as [|c ys]; cbn in Hy; [exists a, []; by rewrite Hy|]. destruct Hy as (-> & y & Hy & _).
    destruct (IH (c :: ys) (xs ++ [a])) with (a := c) as (e & zs & -> & Er); [by rewrite <- app_assoc|cbn in *; lia|done|]. exists e, (a :: zs). split; [done|]. done.
Qed.

(** ** The invariant *)

Definition placed (g : gmap nat node_t) (pm p : Z) (ls : Z -> list nat) : Prop :=
  forall i a, 0 <= i < pm + p -> a ∈ ls i <-> exists x, g !! a = Some x /\ place pm p (nhash x) = i.

Record keyed (g : gmap nat node_t) : Prop := {
  keyed_hash a x : g !! a = Some x -> nhash x = hk (key (data x));
  keyed_inj a c x y : g !! a = Some x -> g !! c = Some y -> key (data x) = key (data y) -> a = c
}.

Record shape (l : lhash) : Prop := {
  sh_pmax : exists k : nat, pmax l = 8 * 2 ^ Z.of_nat k;
  sh_p : 0 <= p l < pmax l;
  sh_nn : num_nodes l = pmax l + p l;
  sh_na : num_alloc_nodes l = 2 * pmax l;
  sh_b : num_alloc_nodes l <= Z.of_nat (length (b l));
  sh_small : num_nodes l < 536870912
}.

(** What the table's functions must be: two data are the same for [comp] when they
    have the same key, on which their hash depends. *)
Record functions (l : lhash) : Prop := {
  fn_hash d : call_hash l d = hk (key d);
  fn_comp d e : call_comp l d e = 0 <-> key d = key e
}.

Record buckets (l : lhash) (ls : Z -> list nat) : Prop := {
  bk_chains : chains (nodes l) (b l) (num_nodes l) ls;
  bk_nodup i : 0 <= i < num_nodes l -> NoDup (ls i);
  bk_placed : placed (nodes l) (pmax l) (p l) ls
}.

Record inv (l : lhash) : Prop := {
  inv_fn : functions l;
  inv_shape : shape l;
  inv_buckets : exists ls, buckets l ls;
  inv_keyed : keyed (nodes l);
  inv_items : num_items l = Z.of_nat (size (nodes l));
  inv_few : num_items l <= 536870912;
  inv_up : up_load l = UP_LOAD
}.

Lemma core_lookup (g g' : gmap nat node_t) a x : core <$> g' = core <$> g -> g !! a = Some x -> exists x', g' !! a = Some x' /\ core x' = core x.
Proof.
  intros E Hx. assert (Ea : core <$> g' !! a = core <$> g !! a) by (by rewrite <- !lookup_fmap, E). rewrite Hx in Ea.
  destruct (g' !! a) as [x'|]; [|done]. exists x'. split; [done|]. cbn [fmap option_fmap option_map] in Ea. congruence.
Qed.

Lemma keyed_core g g' : core <$> g' = core <$> g -> keyed g -> keyed g'.
Proof.
  intros E [H1 H2]. split.
  - intros a x Hx. destruct (core_lookup g' g a x) as (y & Hy & [= Ed Eh]); [done|done|]. rewrite <- Eh, <- Ed. by eapply H1.
  - intros a c x y Hx Hy Hk. destruct (core_lookup g' g a x) as (x' & Hx' & [= Ed Eh]); [done|done|]. destruct (core_lookup g' g c y) as (y' & Hy' & [= Ed' Eh']); [done|done|].
    apply (H2 a c x' y'); [done|done|]. by rewrite Ed, Ed'.
Qed.

Lemma placed_disj g pm q n ls : 0 < pm -> 0 <= q < pm -> n = pm + q -> placed g pm q ls -> (forall i, 0 <= i < n -> NoDup (ls i)) -> disj n ls.
Proof.
  intros ? ? -> Hp Hnd. split; [done|]. intros i j a Hi Hj (x & Hx & <-)%Hp (y & Hy & <-)%Hp; [|done|done]. by simplify_eq.
Qed.

Lemma buckets_disj l ls : shape l -> buckets l ls -> disj (num_nodes l) ls.
Proof. intros Hs [H1 H2 H3]. pose proof (sh_p _ Hs). eapply placed_disj; [|done|by apply Hs|done|done]. lia. Qed.

(** A placement in terms of hashes. *)
Lemma placed_hash g pm q ls : (forall i a, 0 <= i < pm + q -> a ∈ ls i <-> is_Some (g !! a) /\ place pm q (hash_of g a) = i) -> placed g pm q ls.
Proof.
  intros E i a Hi. rewrite E by done. unfold hash_of. split.
  - intros [[x Hx] Hp]. rewrite Hx in Hp. eauto.
  - intros (x & Hx & Hp). rewrite Hx. eauto.
Qed.

Lemma placed_elem g pm q ls i a : placed g pm q ls -> 0 <= i < pm + q -> a ∈ ls i <-> is_Some (g !! a) /\ place pm q (hash_of g a) = i.
Proof.
  intros Hp Hi. rewrite (Hp i a Hi). unfold hash_of. split.
  - intros (x & Hx & E). rewrite Hx. eauto.
  - intros [[x Hx] E]. rewrite Hx in E. eauto.
Qed.

Lemma core_is_Some (g g' : gmap nat node_t) a : core <$> g' = core <$> g -> is_Some (g' !! a) <-> is_Some (g !! a).
Proof. intros E. rewrite <- !elem_of_dom, <- (dom_fmap_L core g'), <- (dom_fmap_L core g). by rewrite E. Qed.

(** A chain has no more nodes than there are. *)
Lemma chain_length g s xs : NoDup xs -> chain g s xs -> (length xs <= size g)%nat.
Proof.
  intros Hnd Hc. rewrite <- size_dom, <- (size_list_to_set (C := gset nat)) by done. apply subseteq_size.
  intros a Ha%elem_of_list_to_set. apply elem_of_dom. by eapply seg_in.
Qed.

Lemma bucket_fresh (l : lhash) n ls : 0 <= n < Z.of_nat (length (b l)) -> chains (nodes l) (b l) n ls ->
  exists b', assign (Bucket n) None l = (Ret tt, set_b b' l) /\ length b' = length (b l) /\ chains (nodes l) b' (n + 1) (upd ls n []).
Proof.
  intros Hn Hc. exists (<[Z.to_nat n := None]> (b l)). destruct (lookup_lt_is_Some_2 (b l) (Z.to_nat n)) as [s Hs]; [lia|]. split_and!.
  - cbn. unfold read, bucket_at, mbind, M_bind. rewrite (proj2 (Z.ltb_ge n 0)) by lia. by rewrite Hs.
  - apply length_insert.
  - intros i Hi. unfold upd. case_decide as E; [subst; exists None; split; [|done]; apply list_lookup_insert_eq; lia|].
    destruct (Hc i) as (t & Ht & Hch); [lia|]. exists t. split; [|done]. rewrite list_lookup_insert_ne by lia. done.
Qed.

Lemma chains_b g v v' n ls : chains g v n ls -> (forall i, 0 <= i < n -> v' !! Z.to_nat i = v !! Z.to_nat i) -> chains g v' n ls.
Proof. intros Hc E i Hi. destruct (Hc i Hi) as (s & Hs & Hch). exists s. by rewrite E. Qed.

Lemma grown_b v nni j : 0 < nni <= j -> nni <= Z.of_nat (length v) ->
  length (clear_from nni j (realloc_b j v)) = Z.to_nat j /\
  forall i, 0 <= i < nni -> clear_from nni j (realloc_b j v) !! Z.to_nat i = v !! Z.to_nat i.
Proof.
  intros Hj Hl. unfold clear_from, realloc_b.
  assert (Hlen : length (take (Z.to_nat j) v ++ replicate (Z.to_nat j - length v) None) = Z.to_nat j) by (rewrite length_app, length_take, length_replicate; lia).
  split; [rewrite !length_app, length_take, length_replicate, length_drop, Hlen; lia|].
  intros i Hi. rewrite lookup_app_l by (rewrite length_take, Hlen; lia). rewrite lookup_take_lt by lia.
  rewrite lookup_app_l by (rewrite length_take; lia). by rewrite lookup_take_lt by lia.
Qed.

(** ** Growing *)

(** The fields that growing and shrinking leave alone. *)
Definition outer (l : lhash) := (comp l, hash l, hashw l, compw l, up_load l, down_load l, num_items l).

Lemma functions_outer l l' : outer l' = outer l -> functions l -> functions l'.
Proof. intros [= E1 E2 E3 E4 E5 E6 E7] [H1 H2]. unfold call_hash, call_comp in *. split; intros; unfold call_hash, call_comp; by rewrite ?E1, ?E2, ?E3, ?E4. Qed.

Lemma u32_small x : 0 <= x < 4294967296 -> u32 x = x.
Proof. apply Z.mod_small. Qed.

Lemma grow_ok alloc l ls : shape l -> num_nodes l + 1 < 536870912 -> buckets l ls ->
  (alloc = false /\ grow alloc (num_alloc_nodes l) (p l) (pmax l) l = (Ret false, set_error (error l + 1) l)) \/
  exists b', grow alloc (num_alloc_nodes l) (p l) (pmax l) l
             = (Ret true, set_sizes (num_nodes l) (2 * grow_pm (pmax l) (p l)) (grow_p (pmax l) (p l)) (grow_pm (pmax l) (p l)) (set_b b' l)) /\
    chains (nodes l) b' (num_nodes l) ls /\ 2 * grow_pm (pmax l) (p l) <= Z.of_nat (length b').
Proof.
  intros [_ Hp Hnn Hna Hb Hs] Hsm [Hc _ _]. unfold grow, grow_pm, grow_p. rewrite (u32_small (p l + 1)) by lia. destruct (pmax l <=? p l + 1) eqn:E; zb.
  - rewrite (u32_small (num_alloc_nodes l * 2)) by lia. rewrite (proj2 (Z.eqb_neq (num_alloc_nodes l * 2) 0)) by lia.
    destruct alloc; [|by left]. right. destruct (grown_b (b l) (num_alloc_nodes l) (num_alloc_nodes l * 2)) as [Hlen Hlk]; [lia|lia|].
    exists (clear_from (num_alloc_nodes l) (num_alloc_nodes l * 2) (realloc_b (num_alloc_nodes l * 2) (b l))). split; [|split].
    + cbn. rewrite Hna. by rewrite (Z.mul_comm (2 * pmax l) 2).
    + eapply chains_b; [done|]. intros i Hi. apply Hlk. lia.
    + rewrite Hlen. lia.
  - right. exists (b l). split; [|split; [done|lia]]. rewrite <- Hna. by destruct l.
Qed.

Lemma grow_geometry pm q : (exists k : nat, pm = 8 * 2 ^ Z.of_nat k) -> 0 <= q < pm ->
  (exists k : nat, grow_pm pm q = 8 * 2 ^ Z.of_nat k) /\ 0 <= grow_p pm q < grow_pm pm q /\ grow_pm pm q + grow_p pm q = pm + q + 1.
Proof.
  intros [k Hk] Hq. unfold grow_pm, grow_p. destruct (pm <=? q + 1) eqn:E; zb; [|split; [by exists k|lia]].
  split; [|lia]. exists (S k). rewrite Nat2Z.inj_succ, Z.pow_succ_r by lia. lia.
Qed.

(** Nodes whose hash says so are moved from the bucket that is split. *)
Lemma split_placed g pm q ls ls' : 0 < pm -> 0 <= q < pm -> placed g pm q ls ->
  (forall j, 0 <= j < pm + q -> j <> q -> ls' j = ls j) ->
  (forall a, a ∈ ls' q <-> a ∈ ls q /\ hash_of g a mod (2 * pm) = q) ->
  (forall a, a ∈ ls' (q + pm) <-> a ∈ ls q /\ hash_of g a mod (2 * pm) <> q) ->
  placed g (grow_pm pm q) (grow_p pm q) ls'.
Proof.
  intros Hpm Hq Hp H1 H2 H3. apply placed_hash. intros i a Hi. assert (Hg : grow_pm pm q + grow_p pm q = pm + q + 1) by (unfold grow_pm, grow_p; zcase; lia).
  pose proof (place_grow pm q (hash_of g a) Hpm Hq) as Eg. pose proof (place_range pm q (hash_of g a) Hpm Hq) as Hr.
  rewrite Eg. destruct (Z.eq_dec i q) as [->|Hiq]; [|destruct (Z.eq_dec i (q + pm)) as [->|Hiq']].
  - rewrite H2, (placed_elem _ _ _ _ _ a Hp) by lia. repeat (zcase; try lia); naive_solver lia.
  - rewrite H3, (placed_elem _ _ _ _ _ a Hp) by lia. repeat (zcase; try lia); naive_solver lia.
  - rewrite H1, (placed_elem _ _ _ _ _ a Hp) by lia. repeat (zcase; try lia); naive_solver lia.
Qed.

Lemma placed_core g g' pm q ls : core <$> g' = core <$> g -> placed g pm q ls -> placed g' pm q ls.
Proof.
  intros E Hp. apply placed_hash. intros i a Hi. by rewrite (placed_elem _ _ _ _ _ a Hp Hi), (core_is_Some g g' a E), (hash_of_core g g' a E).
Qed.

(** A table resized: the same nodes and settings, in [n] buckets. *)
Record resized (l l' : lhash) (n : Z) : Prop := {
  rs_inv : inv l';
  rs_core : core <$> nodes l' = core <$> nodes l;
  rs_outer : outer l' = outer l;
  rs_nn : num_nodes l' = n
}.

Lemma resized_intro l l' n ls : inv l -> core <$> nodes l' = core <$> nodes l -> outer l' = outer l -> num_nodes l' = n -> shape l' -> buckets l' ls -> resized l l' n.
Proof.
  intros [Hf _ _ Hk Hi Hw Hu] Hc Ho Hn Hs Hb. split; [|done|done|done]. pose proof Ho as [= _ _ _ _ Eu _ Ei]. split; [by eapply functions_outer|done|by exists ls|by eapply keyed_core| | |congruence].
  - rewrite Ei, Hi. by rewrite (core_size _ _ Hc).
  - lia.
Qed.

Lemma expand_ok alloc l : inv l -> num_nodes l + 1 < 536870912 ->
  (alloc = false /\ expand alloc l = (Ret false, set_error (error l + 1) l)) \/
  exists l', expand alloc l = (Ret true, l') /\ resized l l' (num_nodes l + 1) /\ error l' = error l.
Proof.
  intros Hinv Hsm. pose proof (inv_shape _ Hinv) as Hsh. destruct (inv_buckets _ Hinv) as [ls Hbk].
  destruct (grow_ok alloc l ls Hsh Hsm Hbk) as [[-> Eg]|(b1 & Eg & Hc1 & Hb1)].
  - left. split; [done|]. unfold expand. cbn [mbind]. rewrite (bind_ret get _ l l l eq_refl). by rewrite (bind_ret _ _ _ _ _ Eg).
  - right. pose proof Hsh as [Hpm Hp Hnn Hna Hb Hs]. pose proof Hbk as [Hc Hnd Hpl]. destruct (grow_geometry _ _ Hpm Hp) as (Hpm' & Hp' & Hsum).
    set (pm' := grow_pm (pmax l) (p l)) in *. set (p' := grow_p (pmax l) (p l)) in *.
    set (l2 := set_sizes (num_nodes l + 1) (2 * pm') p' pm' (set_b b1 l)).
    destruct (bucket_fresh l2 (num_nodes l) ls) as (b2 & E2 & Hl2 & Hc2); [cbn; lia|exact Hc1|]. cbn [nodes l2 set_sizes set_b b] in Hc2, Hl2.
    assert (Hd2 : disj (num_nodes l + 1) (upd ls (num_nodes l) [])).
    { pose proof (buckets_disj _ _ Hsh Hbk) as [_ Hdj]. split.
      - intros i Hi. unfold upd. case_decide; [constructor|]. apply Hnd. lia.
      - intros i j a Hi Hj. unfold upd. repeat case_decide; try set_solver. apply Hdj; lia. }
    destruct (Hc (p l)) as (s & _ & Hch); [lia|]. pose proof (chain_length _ _ _ (Hnd (p l) ltac:(lia)) Hch) as Hfuel.
    destruct (expand_loop_ok (num_alloc_nodes l) (p l) (num_nodes l) (num_nodes l + 1) (ls (p l))) with (fuel := size (nodes l)) (l := set_b b2 l2) (ls := upd ls (num_nodes l) []) (xs := @nil nat)
      as (g3 & b3 & E3 & Hcore & Hl3 & ls3 & Hc3 & Hd3 & H3a & H3b & H3c); [lia|lia|lia|lia|exact Hc2|exact Hd2|apply upd_ne; lia|done|].
    exists (set_b b3 (set_nodes g3 (set_b b2 l2))). split_and!.
    + unfold expand. cbn [mbind]. rewrite (bind_ret get _ l l l eq_refl). rewrite (bind_ret _ _ _ _ _ Eg). cbn [negb]. unfold modify. rewrite (bind_ret _ _ _ tt l2) by (cbn; by rewrite u32_small by lia).
      rewrite (u32_small (p l + pmax l)), (Z.add_comm (p l)), <- Hnn by lia. rewrite (bind_ret _ _ _ _ _ E2). by rewrite (bind_ret _ _ _ _ _ E3).
    + apply (resized_intro l _ _ ls3 Hinv); [exact Hcore|done|done| |].
      * split; cbn; [done|done|lia|done|cbn in Hl3; lia|lia].
      * split; cbn; [exact Hc3|apply Hd3|]. eapply placed_core; [exact Hcore|]. cbn. apply (split_placed _ _ _ ls); [lia|lia|done| | |].
        { intros j Hj Hjp. rewrite H3a, upd_ne by lia. done. }
        all: intros a; replace (p l + pmax l) with (num_nodes l) by lia; first [rewrite H3b|rewrite H3c]; rewrite ?upd_eq; cbn; rewrite Hna; set_solver.
    + done.
Qed.

(** ** Shrinking *)

(** The number of buckets before it grew to [pm + q]. *)
Definition back_p (pm q : Z) : Z := if q =? 0 then pm / 2 - 1 else q - 1.
Definition back_pm (pm q : Z) : Z := if q =? 0 then pm / 2 else pm.

Lemma back_geometry pm q : (exists k : nat, pm = 8 * 2 ^ Z.of_nat k) -> 0 <= q < pm -> 16 < pm + q ->
  let pm' := back_pm pm q in let q' := back_p pm q in
  (exists k : nat, pm' = 8 * 2 ^ Z.of_nat k) /\ 0 <= q' < pm' /\ pm' + q' = pm + q - 1 /\ grow_pm pm' q' = pm /\ grow_p pm' q' = q /\ 2 * pm' <= 2 * pm.
Proof.
  intros [k Hk] Hq Hbig. unfold back_pm, back_p. destruct (q =? 0) eqn:E; zb; cbn.
  - destruct k as [|k]; [cbn in Hk; lia|]. rewrite Nat2Z.inj_succ, Z.pow_succ_r in Hk by lia. pose proof (Z.pow_pos_nonneg 2 (Z.of_nat k) ltac:(lia) ltac:(lia)).
    assert (Hh : pm / 2 = 8 * 2 ^ Z.of_nat k) by (rewrite Hk; replace (8 * (2 * 2 ^ Z.of_nat k)) with (8 * 2 ^ Z.of_nat k * 2) by lia; by apply Z.div_mul).
    split; [by exists k|]. unfold grow_pm, grow_p. rewrite (proj2 (Z.leb_le (pm / 2) (pm / 2 - 1 + 1))) by lia. lia.
  - split; [by exists k|]. unfold grow_pm, grow_p. rewrite (proj2 (Z.leb_gt pm (q - 1 + 1))) by lia. lia.
Qed.

Lemma merge_placed g pm q ls ls' : 0 < pm -> 0 <= q < pm -> placed g (grow_pm pm q) (grow_p pm q) ls ->
  (forall j, 0 <= j < pm + q -> j <> q -> ls' j = ls j) -> (forall a, a ∈ ls' q <-> a ∈ ls q \/ a ∈ ls (q + pm)) -> placed g pm q ls'.
Proof.
  intros Hpm Hq Hp H1 H2. apply placed_hash. intros i a Hi. assert (Hg : grow_pm pm q + grow_p pm q = pm + q + 1) by (unfold grow_pm, grow_p; zcase; lia).
  pose proof (place_grow pm q (hash_of g a) Hpm Hq) as Eg. pose proof (place_range pm q (hash_of g a) Hpm Hq) as Hr.
  destruct (Z.eq_dec i q) as [->|Hiq].
  - rewrite H2, !(placed_elem _ _ _ _ _ a Hp), Eg by lia. repeat (zcase; try lia); naive_solver lia.
  - rewrite H1, !(placed_elem _ _ _ _ _ a Hp), Eg by lia. repeat (zcase; try lia); naive_solver lia.
Qed.

Lemma shrunk_b v n : n <= Z.of_nat (length v) -> length (realloc_b n v) = Z.to_nat n /\ forall i, 0 <= i < n -> realloc_b n v !! Z.to_nat i = v !! Z.to_nat i.
Proof.
  intros Hl. unfold realloc_b. split; [rewrite length_app, length_take, length_replicate; lia|].
  intros i Hi. rewrite lookup_app_l by (rewrite length_take; lia). by rewrite lookup_take_lt by lia.
Qed.

Lemma shrink_ok alloc l n ls : shape l -> 16 < num_nodes l -> n = num_nodes l - 1 -> chains (nodes l) (b l) n ls ->
  let pm' := back_pm (pmax l) (p l) in let p' := back_p (pmax l) (p l) in
  exists b' e, shrink alloc l = (Ret tt, set_sizes (num_nodes l) (2 * pm') p' pm' (set_b b' (set_error e l))) /\ chains (nodes l) b' n ls /\ 2 * pm' <= Z.of_nat (length b') /\
    (alloc = true -> e = error l).
Proof.
  intros [Hpm Hp Hnn Hna Hb Hs] Hbig Hn Hc pm' p'. destruct (back_geometry _ _ Hpm Hp ltac:(lia)) as (_ & Hq & Hsum & Hg & _ & Hle). fold pm' p' in Hq, Hsum, Hg, Hle.
  unfold shrink. cbn [mbind]. rewrite (bind_ret get _ l l l eq_refl). unfold pm', p', back_pm, back_p in *. destruct (p l =? 0) eqn:E; zb.
  - assert (H2 : 2 * (pmax l / 2) = pmax l) by lia. rewrite (u32_small (8 * pmax l)) by lia. rewrite (proj2 (Z.eqb_neq (8 * pmax l) 0)) by lia.
    rewrite (Z.mul_comm 8), Z.div_mul by lia.
    assert (Hfin : forall (l1 : lhash), num_nodes l1 = num_nodes l -> num_alloc_nodes l1 = num_alloc_nodes l -> pmax l1 = pmax l ->
      modify (fun l => set_sizes (num_nodes l) (num_alloc_nodes l / 2) (u32 (pmax l / 2 - 1)) (pmax l / 2) l) l1
      = (Ret tt, set_sizes (num_nodes l) (2 * (pmax l / 2)) (pmax l / 2 - 1) (pmax l / 2) l1)).
    { intros l1 G1 G2 G3. unfold modify. rewrite G1, G2, G3, (u32_small (pmax l / 2 - 1)) by lia. by rewrite Hna, (Z.mul_comm 2 (pmax l)), Z.div_mul, H2 by lia. }
    destruct alloc; cbn [negb].
    + destruct (shrunk_b (b l) (pmax l)) as [Hlen Hlk]; [lia|]. exists (realloc_b (pmax l) (b l)), (error l). split_and!; [|eapply chains_b; [done|intros; apply Hlk; lia]|lia|done].
      rewrite (bind_ret _ _ _ tt (set_b (realloc_b (pmax l) (b l)) l)) by done. rewrite Hfin by done. by destruct l.
    + exists (b l), (error l + 1). split_and!; [|done|lia|done]. rewrite (bind_ret _ _ _ tt (set_error (error l + 1) l)) by done. rewrite Hfin by done. by destruct l.
  - exists (b l), (error l). split_and!; [|done|lia|done]. rewrite <- Hna. by destruct l.
Qed.

Lemma lh_to_int_small x : 0 <= x < 2147483648 -> to_int x = x.
Proof. intros. unfold to_int. rewrite u32_small by lia. by rewrite (proj2 (Z.ltb_lt x 2147483648)) by lia. Qed.

(** The last bucket's nodes are linked to the end of the chain it was split from. *)
Lemma append_chain (l : lhash) n ls i np zs : chains (nodes l) (b l) n ls -> disj n ls -> 0 <= i < n -> chain (nodes l) np zs ->
  (forall a, a ∈ zs -> a ∉ ls i) ->
  exists g' b', (n1 ← deref (Bucket i); match n1 with None => assign (Bucket i) np | Some a => e ← chain_end (size (nodes l)) a; set_node e (with_next np) end) l
                = (Ret tt, set_b b' (set_nodes g' l)) /\ core <$> g' = core <$> nodes l /\ length b' = length (b l) /\ chains g' b' n (upd ls i (ls i ++ zs)).
Proof.
  intros Hc Hdj Hi Hz Hd. destruct (assign_slot l n ls i (ls i) [] np zs Hc Hdj Hi) as (g' & b' & E & Hcore & Hl & Hch & _); [by rewrite app_nil_r|done|done|].
  exists g', b'. split; [|done]. rewrite (bind_ret _ _ _ _ _ (bucket_read l n ls i Hc Hi)). destruct (ls i) as [|a ys] eqn:El; [exact E|]. cbn [head].
  destruct (Hc i Hi) as (s & _ & Hs). pose proof (chain_length _ _ _ (proj1 Hdj i Hi) Hs). rewrite El in *.
  destruct (chain_end_ok (nodes l) s (a :: ys) (size (nodes l)) l []) with (a := a) as (e & zs' & Ee & Er); [done|done|lia|done|done|].
  rewrite (bind_ret _ _ _ _ _ Er). by rewrite Ee, slot_snoc in E.
Qed.

Lemma contract_ok alloc l : inv l -> 16 < num_nodes l ->
  exists l', contract alloc l = (Ret tt, l') /\ resized l l' (num_nodes l - 1) /\ (alloc = true -> error l' = error l).
Proof.
  intros Hinv Hbig. pose proof (inv_shape _ Hinv) as Hsh. destruct (inv_buckets _ Hinv) as [ls Hbk]. pose proof Hsh as [Hpm Hp Hnn Hna Hb Hs]. pose proof Hbk as [Hc Hnd Hpl].
  pose proof (buckets_disj _ _ Hsh Hbk) as Hdj. set (n := num_nodes l - 1) in *.
  destruct (back_geometry _ _ Hpm Hp ltac:(lia)) as (Hpm' & Hq' & Hsum & Hgm & Hgp & _). set (pm' := back_pm (pmax l) (p l)) in *. set (p' := back_p (pmax l) (p l)) in *.
  destruct (assign_slot l (num_nodes l) ls n [] (ls n) None [] Hc Hdj) as (g1 & b1 & E1 & Hcore1 & Hl1 & Hc1 & Hf1); [lia|done|done|set_solver|].
  assert (Hg1 : g1 = nodes l) by (apply map_eq; intros a; apply Hf1; set_solver). subst g1.
  change (slot_of n []) with (Bucket n) in E1. replace (set_b b1 (set_nodes (nodes l) l)) with (set_b b1 l) in E1 by (by destruct l).
  destruct (shrink_ok alloc (set_b b1 l) n ls) as (b2 & e & E2 & Hc2 & Hl2 & He); [by split; cbn; rewrite ?Hl1|done|done| |].
  { intros i Hi. destruct (Hc1 i) as (s & Hs1 & Hs2); [lia|]. rewrite upd_ne in Hs2 by lia. eauto. }
  cbn [pmax set_b p num_nodes nodes] in E2, Hc2, Hl2. fold pm' p' in E2, Hl2. set (l3 := set_sizes n (2 * pm') p' pm' (set_b b2 (set_error e (set_b b1 l)))).
  destruct (Hc n) as (np & Hnp & Hch); [lia|].
  destruct (append_chain l3 n ls p' (head (ls n)) (ls n)) as (g4 & b4 & E4 & Hcore4 & Hl4 & Hc4); [exact Hc2| |lia| | |].
  { split; intros; [apply Hnd; lia|eapply (proj2 Hdj); [lia|lia|done|done]]. }
  { cbn. by rewrite <- (chain_head _ _ _ Hch). }
  { intros a Ha Ha'. enough (n = p') by lia. by apply (proj2 Hdj n p' a); [lia|lia| |]. }
  exists (set_b b4 (set_nodes g4 l3)). split_and!; [| |done].
  - unfold contract. cbn [mbind]. rewrite (bind_ret get _ l l l eq_refl). replace (u32 (p l + pmax l - 1)) with n by (rewrite u32_small; lia).
    rewrite (bind_ret _ _ _ _ _ (bucket_read l _ ls n Hc ltac:(lia))), (bind_ret _ _ _ _ _ E1), (bind_ret _ _ _ _ _ E2).
    unfold modify. rewrite (bind_ret _ _ _ tt l3) by (cbn; by rewrite u32_small by lia). rewrite (bind_ret get _ l3 l3 l3 eq_refl).
    change (p l3) with p'. rewrite lh_to_int_small by lia. exact E4.
  - apply (resized_intro l _ _ (upd ls p' (ls p' ++ ls n)) Hinv); [exact Hcore4|done|done| |].
    + split; cbn; [done|done|lia|done|cbn in Hl4; lia|lia].
    + split; cbn; [exact Hc4| |].
      * intros i Hi. unfold upd. case_decide; [|apply Hnd; lia]. apply NoDup_app. split_and!; [apply Hnd; lia| |apply Hnd; lia].
        intros a Ha Ha'. enough (n = p') by lia. by apply (proj2 Hdj n p' a); [lia|lia| |].
      * eapply placed_core; [exact Hcore4|]. cbn. apply (merge_placed _ _ _ ls); [lia|lia|by rewrite Hgm, Hgp| |].
        { intros j Hj ?. apply upd_ne. done. }
        intros a. rewrite upd_eq, elem_of_app. replace (p' + pm') with n by lia. done.
Qed.
End inv.
End LHashInv.
