(* ===== verification/LHashSpec.v ===== *)
(** * Hash tables: the operations and their theorems

    A table is a finite map: [contents] are its data by key.  The search finds the
    one node with a key; insertion, deletion, lookup and flushing do to the map what
    their names say; iteration visits every item once; the load stays between one
    and two items per bucket. *)
From Stdlib Require Import ZArith Lia.
From stdpp Require Import base tactics option list gmap.
From S2P Require Import Prelude LHash LHashInv.
#[local] Open Scope Z_scope.
Import LHash LHashInv.

Module LHashSpec.

Section spec.
Context {D : Type} {K : Type} `{EqK : EqDecision K, CK : !Countable K} (key : D -> K) (hk : K -> Z).

Abbreviation node_t := (OPENSSL_LH_NODE (D := D)).
Abbreviation lhash := (OPENSSL_LHASH (D := D)).
Abbreviation inv := (inv key hk).
Abbreviation keyed := (keyed key hk).
Abbreviation chain g s xs := (seg g s xs None).

(** ** Contents *)

Definition entry (x : node_t) : K * D := (key (data x), data x).
Definition contents (l : lhash) : gmap K D := list_to_map (entry <$> (map_to_list (nodes l)).*2).

Lemma entries_nodup g : keyed g -> NoDup ((entry <$> (map_to_list g).*2).*1).
Proof.
  intros Hk. rewrite <- !list_fmap_compose. apply NoDup_fmap_2_strong; [|apply NoDup_map_to_list].
  intros [a x] [c y] Hx%elem_of_map_to_list Hy%elem_of_map_to_list E. cbn in E. pose proof (keyed_inj _ _ _ Hk a c x y Hx Hy E) as ->. by simplify_eq.
Qed.

Lemma contents_Some l k d : keyed (nodes l) -> contents l !! k = Some d <-> exists a x, nodes l !! a = Some x /\ data x = d /\ key d = k.
Proof.
  intros Hk. unfold contents. rewrite <- elem_of_list_to_map by (by apply entries_nodup). rewrite list_elem_of_fmap. split.
  - intros (x & [= -> ->] & ([a y] & E & Hy%elem_of_map_to_list)%list_elem_of_fmap). cbn in E. subst. eauto 10.
  - intros (a & x & Hx & <- & <-). exists x. split; [done|]. apply list_elem_of_fmap. exists (a, x). split; [done|]. by apply elem_of_map_to_list.
Qed.

Lemma contents_size l : keyed (nodes l) -> size (contents l) = size (nodes l).
Proof.
  intros Hk. rewrite <- length_map_to_list. unfold contents. rewrite map_to_list_to_map by (by apply entries_nodup). by rewrite !length_fmap, length_map_to_list.
Qed.

Lemma contents_found l a x : keyed (nodes l) -> nodes l !! a = Some x -> contents l !! key (data x) = Some (data x).
Proof. intros Hk Hx. apply contents_Some; [done|]. eauto 10. Qed.

Lemma contents_None l k : keyed (nodes l) -> (forall a x, nodes l !! a = Some x -> key (data x) <> k) -> contents l !! k = None.
Proof. intros Hk Hn. destruct (contents l !! k) as [d|] eqn:E; [|done]. apply contents_Some in E as (a & x & Hx & <- & E); [|done]. by destruct (Hn a x). Qed.

Lemma contents_core l l' : core <$> nodes l' = core <$> nodes l -> keyed (nodes l) -> contents l' = contents l.
Proof.
  intros E Hk. pose proof (keyed_core _ _ _ _ E Hk) as Hk'. apply map_eq. intros k. apply option_eq. intros d. rewrite !contents_Some by done. split; intros (a & x & Hx & Hd & Hkd).
  - destruct (core_lookup (nodes l') (nodes l) a x) as (y & Hy & [= ? ?]); [done|done|]. exists a, y. split_and!; congruence.
  - destruct (core_lookup (nodes l) (nodes l') a x) as (y & Hy & [= ? ?]); [done|done|]. exists a, y. split_and!; congruence.
Qed.

(** ** The search *)

Definition is_match (l : lhash) (d : D) (a : nat) : Prop := exists x, nodes l !! a = Some x /\ key (data x) = key d.

Lemma getrn_loop_ok (l : lhash) d i : functions key hk l -> keyed (nodes l) -> forall ys fuel xs s, chain (nodes l) s ys -> (length ys <= fuel)%nat ->
  exists us vs, ys = us ++ vs /\ getrn_loop fuel (hk (key d)) d (slot_of i xs) s l = (Ret (slot_of i (xs ++ us)), l) /\
    (forall a, a ∈ us -> ~ is_match l d a) /\ (forall a, head vs = Some a -> is_match l d a).
Proof.
  intros Hf Hk. induction ys as [|a ys IH]; intros fuel xs s Hc Hl.
  - cbn in Hc. subst s. exists [], []. split_and!; try done; [rewrite app_nil_r; by destruct fuel|set_solver].
  - destruct Hc as (-> & x & Hx & Hc). destruct fuel as [|fuel]; [cbn in Hl; lia|]. cbn in Hl. cbn [getrn_loop].
    rewrite (bind_ret (node a) _ l x l) by (unfold node, read; by rewrite Hx). destruct (nhash x =? hk (key d)) eqn:Eh; zb; cbn [negb].
    1: rewrite (bind_ret get _ l l l eq_refl); destruct (call_comp l (data x) d =? 0) eqn:Ec; zb.
    1: { exists [], (a :: ys). rewrite app_nil_r. split_and!; try done; [set_solver|]. intros ? [= <-]. exists x. split; [done|]. by apply (fn_comp _ _ _ Hf). }
    all: assert (Hna : ~ is_match l d a) by (intros (y & Hy & E); simplify_eq; first [by apply Ec, (fn_comp _ _ _ Hf)|apply Eh; rewrite (keyed_hash _ _ _ Hk a x Hx); by rewrite E]).
    all: destruct (IH fuel (xs ++ [a]) (next x) Hc ltac:(lia)) as (us & vs & -> & Er & H1 & H2); rewrite slot_snoc in Er; exists (a :: us), vs.
    all: split_and!; [done|rewrite Er; by rewrite <- app_assoc| |done]; intros c [->|Hc']%elem_of_cons; auto.
Qed.

Lemma getrn_ok (l : lhash) ls d : inv l -> buckets l ls ->
  exists i xs ys, 0 <= i < num_nodes l /\ ls i = xs ++ ys /\ getrn d l = (Ret (slot_of i xs, hk (key d)), l) /\
    (forall a, head ys = Some a -> is_match l d a) /\ (ys = [] -> forall a, ~ is_match l d a) /\ i = place (pmax l) (p l) (hk (key d)).
Proof.
  intros Hinv Hbk. pose proof (inv_shape _ _ _ Hinv) as [Hpm Hp Hnn Hna Hb Hs]. pose proof Hbk as [Hc Hnd Hpl]. pose proof (inv_keyed _ _ _ Hinv) as Hk.
  set (h := hk (key d)). pose proof (place_range (pmax l) (p l) h ltac:(lia) Hp) as Hr. set (i := place (pmax l) (p l) h) in *.
  destruct (Hc i) as (s & Hsb & Hch); [lia|]. destruct (getrn_loop_ok l d i (inv_fn _ _ _ Hinv) Hk (ls i) (size (nodes l)) [] s) as (us & vs & E & Er & H1 & H2);
    [done|by eapply chain_length; [apply Hnd; lia|]|].
  exists i, us, vs. split_and!; [lia|lia|done| |done| |done].
  - unfold getrn. cbn [mbind]. rewrite (bind_ret get _ l l l eq_refl), (fn_hash _ _ _ (inv_fn _ _ _ Hinv)). fold h.
    rewrite (bind_ret _ _ l (h mod pmax l) l) by (unfold umod; by rewrite (proj2 (Z.eqb_neq (pmax l) 0)) by lia).
    rewrite (bind_ret _ _ l i l).
    2: { unfold i, place. rewrite Hna. destruct (h mod pmax l <? p l); [|done]. unfold umod. by rewrite (proj2 (Z.eqb_neq (2 * pmax l) 0)) by lia. }
    rewrite lh_to_int_small by lia. rewrite (bind_ret _ _ _ _ _ (bucket_read l _ ls i Hc ltac:(lia))). rewrite <- (chain_head _ _ _ Hch).
    change (Bucket i) with (slot_of i []). by rewrite (bind_ret _ _ _ _ _ Er).
  - intros -> a (x & Hx & Ex). rewrite app_nil_r in E. apply (H1 a); [|by exists x]. rewrite <- E. apply Hpl; [lia|]. exists x. split; [done|].
    unfold i, h. by rewrite (keyed_hash _ _ _ Hk a x Hx), Ex.
Qed.

(** ** Links and contents of one change *)

(** The settings and the size of the table, which operations on one node keep. *)
Definition frame (l : lhash) := (comp l, hash l, hashw l, compw l, up_load l, (down_load l, num_nodes l, num_alloc_nodes l, p l, pmax l)).

Lemma inv_intro l l' ls : inv l -> frame l' = frame l -> length (b l') = length (b l) -> buckets l' ls -> keyed (nodes l') ->
  num_items l' = Z.of_nat (size (nodes l')) -> num_items l' <= 536870912 -> inv l'.
Proof.
  intros [Hf [S1 S2 S3 S4 S5 S6] _ _ _ _ Hu] [= E1 E2 E3 E4 E5 E6 E7 E8 E9 E10] Hl Hb Hk Hi Hw. split; [|split; congruence || (rewrite ?E7, ?E8, ?E9, ?E10; (done || lia))|by exists ls|done|done|done|congruence].
  destruct Hf as [H1 H2]. unfold call_hash, call_comp in *. split; intros; unfold call_hash, call_comp; rewrite ?E1, ?E2, ?E3, ?E4; auto.
Qed.

Lemma keyed_delete g a : keyed g -> keyed (delete a g).
Proof. intros [H1 H2]. split; [intros c x [_ Hx]%lookup_delete_Some; eauto|]. intros c e x y [_ Hx]%lookup_delete_Some [_ Hy]%lookup_delete_Some. eauto. Qed.

Lemma keyed_insert g a x : keyed g -> nhash x = hk (key (data x)) -> (forall c y, g !! c = Some y -> key (data y) = key (data x) -> c = a) -> keyed (<[a := x]> g).
Proof.
  intros [H1 H2] Hh Hn. split.
  - intros c y [[<- <-]|[_ Hy]]%lookup_insert_Some; eauto.
  - intros c e y z [[<- <-]|[Hc Hy]]%lookup_insert_Some [[<- <-]|[He Hz]]%lookup_insert_Some Hk; [done| |by eapply Hn|by eapply H2].
    symmetry. by eapply Hn.
Qed.

Lemma contents_delete l l' a x : nodes l' = delete a (nodes l) -> keyed (nodes l) -> nodes l !! a = Some x -> contents l' = delete (key (data x)) (contents l).
Proof.
  intros E Hk Hx. pose proof (keyed_delete _ a Hk) as Hk'. rewrite <- E in Hk'. apply map_eq. intros k. apply option_eq. intros d. rewrite lookup_delete_Some, !contents_Some, E by done. split.
  - intros (c & y & [Hne Hy]%lookup_delete_Some & <- & <-). split; [|eauto 10]. intros Hky. apply Hne. by eapply (keyed_inj _ _ _ Hk a c x y).
  - intros (Hne & c & y & Hy & <- & <-). exists c, y. split; [|done]. apply lookup_delete_Some. split; [|done]. intros <-. by simplify_eq.
Qed.

Lemma contents_insert l l' a x : nodes l' = <[a := x]> (nodes l) -> keyed (nodes l) -> keyed (nodes l') -> (forall y, nodes l !! a = Some y -> key (data y) = key (data x)) ->
  contents l' = <[key (data x) := data x]> (contents l).
Proof.
  intros E Hk Hk' Ha. apply map_eq. intros k. apply option_eq. intros d. rewrite lookup_insert_Some, !contents_Some, E by done. split.
  - intros (c & y & [[<- <-]|[Hne Hy]]%lookup_insert_Some & <- & <-); [by left|]. right. split; [|eauto 10]. intros Hky. apply Hne.
    apply (keyed_inj _ _ _ Hk' a c x y); [by rewrite E, lookup_insert_eq|by rewrite E, lookup_insert_ne|done].
  - intros [[<- <-]|(Hne & c & y & Hy & <- & <-)]; [exists a, x; by rewrite lookup_insert_eq|]. exists c, y. split; [|done]. rewrite lookup_insert_ne; [done|].
    intros <-. by destruct Hne; rewrite (Ha y Hy).
Qed.

Lemma buckets_upd (l l' : lhash) ls i xs : frame l' = frame l -> buckets l ls -> NoDup xs -> chains (nodes l') (b l') (num_nodes l') (upd ls i xs) ->
  placed (nodes l') (pmax l') (p l') (upd ls i xs) -> buckets l' (upd ls i xs).
Proof. intros [= _ _ _ _ _ _ En _ _ _] [H1 H2 H3] Hx Hc Hp. split; [done| |done]. intros j Hj. unfold upd. case_decide; [done|]. apply H2. lia. Qed.

(** Removing the node after [xs] from its chain and from the heap. *)
Lemma unlink_ok (l : lhash) ls i xs a ys x : inv l -> buckets l ls -> 0 <= i < num_nodes l -> ls i = xs ++ a :: ys -> nodes l !! a = Some x ->
  exists l', (assign (slot_of i xs) (next x);; modify (fun l => set_nodes (delete a (nodes l)) l);; modify (fun l => set_num_items (u64 (num_items l - 1)) l)) l = (Ret tt, l') /\
    inv l' /\ buckets l' (upd ls i (xs ++ ys)) /\ frame l' = frame l /\ error l' = error l /\ core <$> nodes l' = delete a (core <$> nodes l) /\ num_items l' = num_items l - 1 /\
    contents l' = delete (key (data x)) (contents l).
Proof.
  intros Hinv Hbk Hi E Hx. pose proof (inv_shape _ _ _ Hinv) as Hsh. pose proof Hbk as [Hc Hnd Hpl]. pose proof (buckets_disj _ _ Hsh Hbk) as Hdj. pose proof (inv_keyed _ _ _ Hinv) as Hk.
  pose proof (Hnd i Hi) as Hni. rewrite E in Hni. pose proof Hni as (Hnx & Hxy & [Hay Hny]%NoDup_cons)%NoDup_app.
  assert (Hnxy : NoDup (xs ++ ys)) by (apply NoDup_app; split_and!; [done|intros c H1 H2; apply (Hxy c H1); set_solver|done]).
  destruct (Hc i Hi) as (s & _ & Hch). rewrite E in Hch. apply seg_app in Hch as (u & _ & _ & x' & Hx' & Hys). assert (x' = x) as -> by congruence.
  destruct (assign_slot l (num_nodes l) ls i xs (a :: ys) (next x) ys Hc Hdj Hi E Hys) as (g1 & b1 & E1 & Hcore & Hl & Hc1 & Hf1); [intros c H1 H2; apply (Hxy c H2); set_solver|].
  assert (Hx1 : g1 !! a = Some x) by (rewrite Hf1; [done|intros ?; apply (Hxy a); set_solver]).
  pose proof (inv_items _ _ _ Hinv) as Hit. pose proof (inv_few _ _ _ Hinv) as Hfew. assert (Hsz : size (nodes l) <> 0%nat) by (intros Hz%map_size_empty_iff; rewrite Hz in Hx; by rewrite lookup_empty in Hx).
  set (l1 := set_b b1 (set_nodes g1 l)). set (l2 := set_num_items (num_items l - 1) (set_nodes (delete a g1) l1)). pose proof (keyed_core _ _ _ _ Hcore Hk) as Hk1.
  assert (Hb2 : buckets l2 (upd ls i (xs ++ ys))).
  { apply (buckets_upd l l2 _ _ _ eq_refl Hbk Hnxy).
    - eapply chains_frame; [exact Hc1|]. intros j c Hj Hcj. apply lookup_delete_ne. intros <-. unfold upd in Hcj. case_decide as Ej.
      + apply elem_of_app in Hcj as [Hcj|Hcj]; [apply (Hxy a Hcj); left|done].
      + apply Ej, (proj2 Hdj j i a); [done|done|done|]. rewrite E. set_solver.
    - intros j c Hj. cbn [nodes l2 set_num_items set_nodes]. unfold upd. case_decide as Ej.
      + subst j. assert (Ha : c ∈ xs ++ ys <-> c ∈ ls i /\ c <> a) by (rewrite E; set_solver). rewrite Ha, (placed_core _ _ _ _ _ Hcore Hpl i c Hj). cbn. split.
        * intros [(y & Hy & Hp) Hne]. exists y. by rewrite lookup_delete_ne.
        * intros (y & [Hne Hy]%lookup_delete_Some & Hp). eauto.
      + rewrite (placed_core _ _ _ _ _ Hcore Hpl j c Hj). cbn. split.
        * intros (y & Hy & Hp). exists y. split; [|done]. rewrite lookup_delete_ne; [done|]. intros <-. simplify_eq. apply Ej. symmetry.
          assert (Hin : a ∈ ls i) by (rewrite E; set_solver). apply Hpl in Hin as (z & Hz & Hp'); [by simplify_eq|]. pose proof (sh_nn _ Hsh). lia.
        * intros (y & [Hne Hy]%lookup_delete_Some & Hp). eauto. }
  assert (Hsz2 : num_items l - 1 = Z.of_nat (size (delete a g1))) by (rewrite map_size_delete_Some by (by eexists); rewrite (core_size _ _ Hcore); lia).
  exists l2. split_and!; try done.
  - rewrite (bind_ret _ _ _ _ _ E1). unfold modify. rewrite (bind_ret _ _ _ tt (set_nodes (delete a g1) l1)) by done. cbn. by rewrite u64_id by (unfold is_u64; lia).
  - apply (inv_intro l l2 _ Hinv eq_refl Hl Hb2); cbn; [by apply keyed_delete|done|lia].
  - cbn. by rewrite fmap_delete, Hcore.
  - change (contents l2) with (contents (set_nodes (delete a g1) l1)). rewrite <- (contents_core l l1 Hcore Hk). by apply (contents_delete l1 _ a).
Qed.

(** ** Lookup, deletion and insertion *)

Lemma bind_seq3 {S B} (m1 m2 m3 : M S unit) (k : M S B) s s' : (m1;; m2;; m3) s = (Ret tt, s') -> (m1;; m2;; m3;; k) s = k s'.
Proof. unfold mbind, M_bind. destruct (m1 s) as [[[]| |] s1]; try done. destruct (m2 s1) as [[[]| |] s2]; try done. by intros ->. Qed.

Lemma inv_error l e : inv l -> inv (set_error e l).
Proof. intros [[H1 H2] [S1 S2 S3 S4 S5 S6] [ls [B1 B2 B3]] H4 H5 H6 H7]. by split; [split|split|exists ls; split|..]. Qed.

Lemma found_contents l d a x : inv l -> nodes l !! a = Some x -> is_match l d a -> contents l !! key d = Some (data x).
Proof. intros Hinv Hx (y & Hy & <-). simplify_eq. apply (contents_found _ a); [apply Hinv|done]. Qed.

Lemma absent_contents l d : inv l -> (forall a, ~ is_match l d a) -> contents l !! key d = None.
Proof. intros Hinv Hn. apply contents_None; [apply Hinv|]. intros a x Hx E. apply (Hn a). by exists x. Qed.

Lemma node_read (l : lhash) a x : nodes l !! a = Some x -> node a l = (Ret x, l).
Proof. unfold node, read. by intros ->. Qed.

Lemma retrieve_ok l d : inv l -> OPENSSL_LH_retrieve d l = (Ret (contents l !! key d), set_error 0 l).
Proof.
  intros Hinv. unfold OPENSSL_LH_retrieve. cbn [mbind]. rewrite (bind_ret get _ l l l eq_refl).
  rewrite (bind_ret _ _ _ tt (set_error 0 l)) by (destruct (error l =? 0) eqn:E; zb; [destruct l; cbn in *; by subst|done]).
  pose proof (inv_error l 0 Hinv) as Hi. destruct (inv_buckets _ _ _ Hi) as [ls Hbk].
  destruct (getrn_ok _ ls d Hi Hbk) as (i & xs & ys & Hr & E & Eg & H1 & H2 & _). rewrite (bind_ret _ _ _ _ _ Eg).
  rewrite (bind_ret _ _ _ _ _ (deref_slot _ _ ls i xs ys (bk_chains _ _ Hbk) Hr E)). destruct ys as [|a ys]; cbn [head].
  - by rewrite <- (absent_contents _ d Hi (H2 eq_refl)).
  - destruct (H1 a eq_refl) as (x & Hx & Ex). rewrite (bind_ret _ _ _ _ _ (node_read _ a x Hx)). f_equal. rewrite <- (found_contents _ d a x Hi Hx); [done|by exists x].
Qed.

(** The condition for contraction after a deletion. *)
Definition sparse (l : lhash) : bool := (MIN_NODES <? num_nodes l) && (num_items l * LH_LOAD_MULT / num_nodes l <=? down_load l).

Lemma load_u64 l : inv l -> u64 (num_items l * LH_LOAD_MULT) = num_items l * LH_LOAD_MULT.
Proof. intros Hinv. pose proof (inv_items _ _ _ Hinv). pose proof (inv_few _ _ _ Hinv). apply u64_id. unfold is_u64, LH_LOAD_MULT. lia. Qed.

Lemma num_nodes_pos l : inv l -> 8 <= num_nodes l.
Proof. intros Hinv. destruct (inv_shape _ _ _ Hinv) as [[k Hk] Hp Hn _ _ _]. pose proof (Z.pow_pos_nonneg 2 (Z.of_nat k) ltac:(lia) ltac:(lia)). lia. Qed.

(** A deletion: nothing, or one node unlinked and perhaps one bucket less. *)
Lemma delete_cases alloc l ls d : inv l -> buckets l ls ->
  (contents l !! key d = None /\ OPENSSL_LH_delete alloc d l = (Ret None, set_error 0 l)) \/
  exists i xs a ys x l1, 0 <= i < num_nodes l /\ ls i = xs ++ a :: ys /\ nodes l !! a = Some x /\ key (data x) = key d /\ contents l !! key d = Some (data x) /\
    inv l1 /\ buckets l1 (upd ls i (xs ++ ys)) /\ frame l1 = frame l /\ error l1 = 0 /\ core <$> nodes l1 = delete a (core <$> nodes l) /\ num_items l1 = num_items l - 1 /\
    contents l1 = delete (key d) (contents l) /\
    OPENSSL_LH_delete alloc d l = if sparse l1 then (_ ← contract alloc; mret (Some (data x))) l1 else (Ret (Some (data x)), l1).
Proof.
  intros Hinv Hbk. pose proof (inv_error l 0 Hinv) as Hi. assert (Hbk' : buckets (set_error 0 l) ls) by (by destruct Hbk; split).
  destruct (getrn_ok _ ls d Hi Hbk') as (i & xs & ys & Hr & E & Eg & H1 & H2 & _). unfold OPENSSL_LH_delete. cbn [mbind].
  rewrite (bind_ret (modify (set_error 0)) _ l tt (set_error 0 l) eq_refl), (bind_ret _ _ _ _ _ Eg).
  rewrite (bind_ret _ _ _ _ _ (deref_slot _ _ ls i xs ys (bk_chains _ _ Hbk') Hr E)). destruct ys as [|a ys]; cbn [head].
  - left. split; [|done]. exact (absent_contents _ d Hi (H2 eq_refl)).
  - right. destruct (H1 a eq_refl) as (x & Hx & Ex). destruct (unlink_ok _ ls i xs a ys x Hi Hbk' Hr E Hx) as (l1 & E1 & Hi1 & Hb1 & Hf1 & He1 & Hc1 & Hn1 & Hm1).
    exists i, xs, a, ys, x, l1. split_and!; try done; try apply Hr; [exact (found_contents _ d a x Hi Hx (ex_intro _ x (conj Hx Ex)))|by rewrite <- Ex|].
    rewrite (bind_ret _ _ _ _ _ (node_read _ a x Hx)). rewrite (bind_seq3 _ _ _ _ _ _ E1), (bind_ret get _ l1 l1 l1 eq_refl).
    unfold sparse. destruct (MIN_NODES <? num_nodes l1); [|done]. pose proof (num_nodes_pos l1 Hi1). rewrite load_u64 by done.
    unfold udiv. rewrite (proj2 (Z.eqb_neq (num_nodes l1) 0)) by lia. unfold mbind, M_bind, mret, M_ret. by destruct (_ <=? down_load l1).
Qed.

Lemma resized_contents l l' n : inv l -> resized key hk l l' n -> contents l' = contents l.
Proof. intros Hinv [_ Hc _ _]. apply contents_core; [done|apply Hinv]. Qed.

Lemma frame_eq (l l' : lhash) : frame l' = frame l -> num_nodes l' = num_nodes l /\ down_load l' = down_load l /\ p l' = p l /\ pmax l' = pmax l.
Proof. by intros [= _ _ _ _ _ -> -> _ -> ->]. Qed.

(** The load is between one and two items a bucket, unless the table has never been
    larger than [MIN_NODES]. *)
Definition balanced (l : lhash) : Prop := num_items l <= 2 * num_nodes l /\ (16 < num_nodes l -> num_nodes l <= num_items l).

Lemma delete_ok alloc l d : inv l -> exists l', OPENSSL_LH_delete alloc d l = (Ret (contents l !! key d), l') /\ inv l' /\ contents l' = delete (key d) (contents l) /\
  down_load l' = down_load l /\ (alloc = true -> error l' = 0) /\ (down_load l = DOWN_LOAD -> balanced l -> balanced l').
Proof.
  intros Hinv. destruct (inv_buckets _ _ _ Hinv) as [ls Hbk]. pose proof (num_nodes_pos l Hinv) as Hpos.
  destruct (delete_cases alloc l ls d Hinv Hbk) as [[Hn E]|(i & xs & a & ys & x & l1 & _ & _ & _ & _ & Hd & Hi1 & _ & Hf & He & _ & Hn1 & Hc & E)].
  - rewrite Hn. exists (set_error 0 l). split_and!; try done; [by apply inv_error|]. change (contents (set_error 0 l)) with (contents l). by rewrite delete_id.
  - apply frame_eq in Hf as (Hnn & Hdl & _ & _). rewrite Hd, E. unfold sparse. rewrite Hnn, Hdl, Hn1. unfold balanced.
    pose proof (inv_items _ _ _ Hi1). destruct (MIN_NODES <? num_nodes l) eqn:Em; cbn [andb]; unfold MIN_NODES in Em; zb.
    2: { exists l1. split_and!; try done. intros _ [B1 _]. lia. }
    destruct (_ <=? down_load l) eqn:El; zb.
    + destruct (contract_ok key hk alloc l1 Hi1) as (l2 & E2 & Hr & He2); [lia|]. rewrite (bind_ret _ _ _ _ _ E2). exists l2. pose proof (rs_outer _ _ _ _ _ Hr) as [= _ _ _ _ _ Ed Ei].
      pose proof (rs_nn _ _ _ _ _ Hr). split_and!; [done|apply Hr|by rewrite (resized_contents _ _ _ Hi1 Hr)|congruence|intros; rewrite He2; done|].
      intros Hdd [B1 B2]. rewrite Hdd in El. unfold DOWN_LOAD, LH_LOAD_MULT in El. pose proof (Z.mul_succ_div_gt ((num_items l - 1) * 256) (num_nodes l) ltac:(lia)). nia.
    + exists l1. split_and!; try done. intros Hdd [B1 B2]. rewrite Hdd in El. unfold DOWN_LOAD, LH_LOAD_MULT in El.
      assert (257 <= (num_items l - 1) * 256 / num_nodes l) by lia. pose proof (Z.mul_div_le ((num_items l - 1) * 256) (num_nodes l) ltac:(lia)). nia.
Qed.

(** The new node at the end of the chain the search ended in. *)
Lemma link_ok (l : lhash) ls i xs d nn : inv l -> buckets l ls -> 0 <= i < num_nodes l -> ls i = xs -> i = place (pmax l) (p l) (hk (key d)) ->
  (forall a, ~ is_match l d a) -> nodes l !! nn = None -> num_items l < 536870912 ->
  exists l', (modify (fun l => set_nodes (<[nn := mkNode d None (hk (key d))]> (nodes l)) l);; assign (slot_of i xs) (Some nn);; modify (fun l => set_num_items (u64 (num_items l + 1)) l)) l
             = (Ret tt, l') /\ inv l' /\ frame l' = frame l /\ error l' = error l /\ num_items l' = num_items l + 1 /\ contents l' = <[key d := d]> (contents l).
Proof.
  intros Hinv Hbk Hi E Hpi Hno Hfr Hfew. pose proof (inv_shape _ _ _ Hinv) as Hsh. pose proof Hbk as [Hc Hnd Hpl]. pose proof (buckets_disj _ _ Hsh Hbk) as Hdj. pose proof (inv_keyed _ _ _ Hinv) as Hk.
  pose proof (inv_items _ _ _ Hinv) as Hit. set (x := mkNode d None (hk (key d))). set (l1 := set_nodes (<[nn := x]> (nodes l)) l).
  assert (Hout : forall j c, 0 <= j < num_nodes l -> c ∈ ls j -> c <> nn).
  { intros j c Hj Hcj ->. destruct (Hc j Hj) as (s & _ & Hs). destruct (seg_in _ _ _ _ _ Hs Hcj) as [y Hy]. congruence. }
  assert (Hc1 : chains (nodes l1) (b l1) (num_nodes l1) ls) by (eapply chains_frame; [exact Hc|]; intros j c Hj Hcj; apply lookup_insert_ne; intros <-; by apply (Hout j nn)).
  destruct (assign_slot l1 (num_nodes l) ls i xs [] (Some nn) [nn] Hc1 Hdj Hi) as (g2 & b2 & E2 & Hcore & Hl & Hc2 & _); [by rewrite app_nil_r| | |].
  { split; [done|]. exists x. split; [apply lookup_insert_eq|done]. }
  { intros a ->%list_elem_of_singleton Ha. rewrite <- E in Ha. by apply (Hout i nn). }
  assert (Hk1 : keyed (nodes l1)) by (apply keyed_insert; [done|done|]; intros c y Hy Hky; destruct (Hno c); by exists y).
  set (l2 := set_num_items (num_items l + 1) (set_b b2 (set_nodes g2 l1))).
  assert (Hsz : size g2 = S (size (nodes l))) by (rewrite (core_size _ _ Hcore); cbn; by rewrite map_size_insert_None).
  exists l2. assert (Hb2 : buckets l2 (upd ls i (xs ++ [nn]))).
  { apply (buckets_upd l l2 _ _ _ eq_refl Hbk); [|exact Hc2|].
    - apply NoDup_app. split_and!; [rewrite <- E; by apply Hnd| |apply NoDup_singleton]. intros c Hcx ->%list_elem_of_singleton. rewrite <- E in Hcx. by apply (Hout i nn).
    - eapply placed_core; [exact Hcore|]. intros j c Hj. cbn [nodes l1 set_nodes]. unfold upd. change (pmax l2) with (pmax l) in *. change (p l2) with (p l) in *.
      pose proof (Hpl j c Hj) as Hjc. destruct (decide (c = nn)) as [->|Hne].
      + case_decide as Ej; [subst j; split; [intros _; exists x; rewrite lookup_insert_eq; split; [done|by rewrite Hpi]|set_solver]|].
        split; [intros Ha%Hjc; destruct Ha as (y & Hy & _); congruence|]. rewrite lookup_insert_eq. intros (y & [= <-] & Hp). destruct Ej. by rewrite Hpi, <- Hp.
      + rewrite lookup_insert_ne by done. rewrite <- Hjc. case_decide as Ej; [subst j; rewrite <- E; set_solver|done]. }
  split_and!; try done.
  - unfold modify. rewrite (bind_ret _ _ _ tt l1) by done. rewrite (bind_ret _ _ _ _ _ E2). cbn. by rewrite u64_id by (unfold is_u64; lia).
  - apply (inv_intro l l2 _ Hinv eq_refl Hl Hb2); cbn; [by eapply keyed_core|rewrite Hsz; lia|lia].
  - change (contents l2) with (contents (set_b b2 (set_nodes g2 l1))). rewrite (contents_core l1 (set_b b2 (set_nodes g2 l1)) Hcore Hk1). apply (contents_insert l l1 nn x eq_refl Hk Hk1). intros y Hy. congruence.
Qed.

Lemma replace_ok (l : lhash) a x d : inv l -> nodes l !! a = Some x -> key (data x) = key d ->
  exists l', set_node a (with_data d) l = (Ret tt, l') /\ inv l' /\ frame l' = frame l /\ error l' = error l /\ num_items l' = num_items l /\ contents l' = <[key d := d]> (contents l).
Proof.
  intros Hinv Hx Ex. destruct (inv_buckets _ _ _ Hinv) as [ls [Hc Hnd Hpl]]. pose proof (inv_keyed _ _ _ Hinv) as Hk.
  set (l' := set_nodes (<[a := with_data d x]> (nodes l)) l). exists l'.
  assert (Hk' : keyed (nodes l')).
  { apply keyed_insert; [done|cbn; rewrite <- Ex; by apply (keyed_hash _ _ _ Hk a x)|]. intros c y Hy Hky. apply (keyed_inj _ _ _ Hk c a y x Hy Hx). cbn in Hky. congruence. }
  assert (Hseg : forall ys s, chain (nodes l) s ys -> chain (nodes l') s ys).
  { induction ys as [|c ys IH]; intros s; [done|]. intros (-> & y & Hy & Hs). split; [done|]. cbn. destruct (decide (c = a)) as [->|].
    - exists (with_data d x). rewrite lookup_insert_eq. simplify_eq. split; [done|]. by apply IH.
    - exists y. rewrite lookup_insert_ne by done. auto. }
  assert (Hb' : buckets l' ls).
  { split; [intros j Hj; destruct (Hc j Hj) as (s & Hs & Hch); eauto|done|]. intros j c Hj. rewrite (Hpl j c Hj). cbn. split.
    - intros (y & Hy & Hp). destruct (decide (c = a)) as [->|]; [|exists y; by rewrite lookup_insert_ne]. simplify_eq. exists (with_data d x). by rewrite lookup_insert_eq.
    - intros (y & [[<- <-]|[_ Hy]]%lookup_insert_Some & Hp); eauto. }
  split_and!; try done.
  - unfold set_node. cbn. by rewrite (bind_ret _ _ _ _ _ (node_read l a x Hx)).
  - apply (inv_intro l l' ls Hinv eq_refl eq_refl Hb' Hk'); cbn; [|apply Hinv]. rewrite (inv_items _ _ _ Hinv). by rewrite map_size_insert_Some by (by eexists).
  - apply (contents_insert l l' a (with_data d x) eq_refl Hk Hk'). intros y Hy. simplify_eq. done.
Qed.

Lemma insert_ok alloc_b alloc_n l d : inv l -> num_items l < 536870912 -> (forall nn, alloc_n = Some nn -> nodes l !! nn = None) ->
  exists r l', OPENSSL_LH_insert alloc_b alloc_n d l = (Ret r, l') /\ inv l' /\ down_load l' = down_load l /\ (balanced l -> balanced l') /\
    ((error l' = 0 /\ r = contents l !! key d /\ contents l' = <[key d := d]> (contents l)) \/
     (error l' = 1 /\ r = None /\ contents l' = contents l /\ (alloc_b = false \/ alloc_n = None))).
Proof.
  intros Hinv Hfew Hfr. unfold OPENSSL_LH_insert. cbn [mbind]. rewrite (bind_ret (modify (set_error 0)) _ l tt (set_error 0 l) eq_refl).
  pose proof (inv_error l 0 Hinv) as Hi. set (l0 := set_error 0 l) in *. pose proof (num_nodes_pos l0 Hi) as Hpos. rewrite (bind_ret get _ l0 l0 l0 eq_refl), load_u64 by done.
  rewrite (bind_ret _ _ l0 (num_items l0 * LH_LOAD_MULT / num_nodes l0) l0) by (unfold udiv; by rewrite (proj2 (Z.eqb_neq (num_nodes l0) 0)) by lia).
  (* the table, grown or not *)
  assert (Hgrow : exists ok l1, (if up_load l0 <=? num_items l0 * LH_LOAD_MULT / num_nodes l0 then expand alloc_b else mret true) l0 = (Ret ok, l1) /\
    ((ok = false /\ l1 = set_error 1 l /\ alloc_b = false) \/
     (ok = true /\ inv l1 /\ core <$> nodes l1 = core <$> nodes l0 /\ error l1 = 0 /\ down_load l1 = down_load l /\ num_items l1 = num_items l /\
      (balanced l -> num_items l + 1 <= 2 * num_nodes l1 /\ (16 < num_nodes l1 -> num_nodes l1 <= num_items l1))))).
  { rewrite (inv_up _ _ _ Hi). unfold UP_LOAD, LH_LOAD_MULT. change (num_items l0) with (num_items l) in *. change (num_nodes l0) with (num_nodes l) in *.
    destruct (2 * 256 <=? num_items l * 256 / num_nodes l) eqn:El; zb.
    - pose proof (Z.mul_div_le (num_items l * 256) (num_nodes l) ltac:(lia)).
      destruct (expand_ok key hk alloc_b l0 Hi) as [[-> E]|(l1 & E & Hr & He)]; [change (num_nodes l0) with (num_nodes l); nia|eexists _, _; split; [exact E|by left]|].
      eexists _, _. split; [exact E|]. right. pose proof (rs_outer _ _ _ _ _ Hr) as [= _ _ _ _ _ Ed Ei]. pose proof (rs_nn _ _ _ _ _ Hr) as Hn. change (num_nodes l0) with (num_nodes l) in Hn.
      split_and!; [done|apply Hr|apply Hr|done|done|done|]. intros [B1 B2]. rewrite Hn, Ei. cbn. nia.
    - eexists _, _. split; [done|]. right. split_and!; try done. intros [B1 B2]. split; [|done]. change (num_nodes l0) with (num_nodes l). pose proof (Z.mul_succ_div_gt (num_items l * 256) (num_nodes l) ltac:(lia)). nia. }
  destruct Hgrow as (ok & l1 & Eg & [(-> & -> & ->)|(-> & Hi1 & Hc1 & He1 & Hd1 & Hn1 & Hb1)]); rewrite (bind_ret _ _ _ _ _ Eg); cbn [negb].
  { eexists _, _. split; [done|]. split_and!; try done; [by apply inv_error|]. right. auto. }
  assert (Hcc : contents l1 = contents l) by (apply (contents_core l l1 Hc1), Hinv).
  destruct (inv_buckets _ _ _ Hi1) as [ls Hbk]. destruct (getrn_ok l1 ls d Hi1 Hbk) as (i & xs & ys & Hr & E & Egr & H1 & H2 & Hpi).
  rewrite (bind_ret _ _ _ _ _ Egr), (bind_ret _ _ _ _ _ (deref_slot _ _ ls i xs ys (bk_chains _ _ Hbk) Hr E)). destruct ys as [|a ys]; cbn [head].
  - pose proof (absent_contents _ d Hi1 (H2 eq_refl)) as Hab. rewrite Hcc in Hab. destruct alloc_n as [nn|].
    + destruct (link_ok l1 ls i xs d nn Hi1 Hbk Hr) as (l2 & E2 & Hi2 & Hf2 & He2 & Hn2 & Hm2); [by rewrite app_nil_r in E|done|by apply H2| |lia|].
      { apply eq_None_not_Some. rewrite (core_is_Some (nodes l0) (nodes l1) nn Hc1). change (nodes l0) with (nodes l). rewrite (Hfr nn eq_refl). by intros [? ?]. }
      rewrite (bind_seq3 _ _ _ _ _ _ E2). apply frame_eq in Hf2 as (Hnn2 & Hdl2 & _). eexists None, l2. split_and!; [done|done|congruence| |left; split_and!; [lia|done|by rewrite Hm2, Hcc]].
      intros B%Hb1. unfold balanced. rewrite Hnn2, Hn2. lia.
    + eexists None, _. split; [done|]. split_and!; [by apply inv_error|done|intros B%Hb1; unfold balanced; cbn; lia|]. right. split_and!; [cbn; lia|done|exact Hcc|by right].
  - destruct (H1 a eq_refl) as (x & Hx & Ex). destruct (replace_ok l1 a x d Hi1 Hx Ex) as (l2 & E2 & Hi2 & Hf2 & He2 & Hn2 & Hm2).
    rewrite (bind_ret _ _ _ _ _ (node_read _ a x Hx)), (bind_ret _ _ _ _ _ E2). apply frame_eq in Hf2 as (Hnn2 & Hdl2 & _).
    eexists (Some (data x)), l2. split_and!; [done|done|congruence|intros B%Hb1; unfold balanced; rewrite Hnn2, Hn2; lia|]. left. split_and!; [lia| |by rewrite Hm2, Hcc].
    rewrite <- Hcc. symmetry. apply (found_contents _ d a x Hi1 Hx). by exists x.
Qed.

(** ** Flushing *)

Lemma free_chain_ok : forall xs fuel (l : lhash) s, chain (nodes l) s xs -> NoDup xs -> (length xs <= fuel)%nat ->
  free_chain fuel s l = (Ret tt, set_nodes (foldr delete (nodes l) xs) l).
Proof.
  induction xs as [|a xs IH]; intros fuel l s Hc Hnd Hf.
  - cbn in Hc. subst. destruct fuel; by destruct l.
  - destruct Hc as (-> & x & Hx & Hc). apply NoDup_cons in Hnd as [Ha Hnd]. destruct fuel as [|fuel]; [cbn in Hf; lia|]. cbn [free_chain].
    rewrite (bind_ret _ _ _ _ _ (node_read l a x Hx)). unfold modify. rewrite (bind_ret _ _ _ tt (set_nodes (delete a (nodes l)) l)) by done.
    rewrite IH; [|eapply seg_frame; [exact Hc|]; intros c Hcx; apply lookup_delete_ne; by intros <-|done|cbn in Hf; lia].
    cbn. f_equal. unfold set_nodes. cbn. f_equal. clear. induction xs as [|c xs IH]; cbn; [done|]. by rewrite IH, delete_delete.
Qed.

Lemma flush_loop_ok n : forall k (l : lhash) ls i, 0 <= i -> i + Z.of_nat k = n -> chains (nodes l) (b l) n ls -> disj n ls ->
  (forall a, is_Some (nodes l !! a) -> exists j, i <= j < n /\ a ∈ ls j) -> (forall j, 0 <= j < i -> ls j = []) ->
  exists b', flush_loop k i l = (Ret tt, set_b b' (set_nodes ∅ l)) /\ length b' = length (b l) /\ chains (∅ : gmap nat node_t) b' n (fun _ => []).
Proof.
  induction k as [|k IH]; intros l ls i Hi Hn Hc Hdj Hcov Hemp.
  - exists (b l). assert (E : nodes l = ∅). { apply map_eq. intros a. rewrite lookup_empty. apply eq_None_not_Some. intros (j & Hj & _)%Hcov. lia. }
    split_and!; [cbn; rewrite <- E; by destruct l|done|]. intros j Hj. destruct (Hc j Hj) as (s & Hs & Hch). rewrite Hemp in Hch by lia. eauto.
  - cbn [flush_loop]. rewrite (bind_ret _ _ _ _ _ (bucket_read l n ls i Hc ltac:(lia))). rewrite (bind_ret get _ l l l eq_refl).
    destruct (Hc i) as (s & Hs & Hch); [lia|]. pose proof (proj1 Hdj i ltac:(lia)) as Hnd.
    rewrite (bind_ret _ _ _ _ _ (free_chain_ok (ls i) (size (nodes l)) l (head (ls i)) ltac:(by rewrite <- (chain_head _ _ _ Hch)) Hnd (chain_length _ _ _ Hnd Hch))).
    set (g1 := foldr delete (nodes l) (ls i)). set (l1 := set_nodes g1 l). assert (Hg : forall a, a ∉ ls i -> g1 !! a = nodes l !! a) by (intros; by apply lookup_foldr_delete_not_elem_of).
    assert (Hg' : forall a, a ∈ ls i -> g1 !! a = None) by (intros; by apply lookup_foldr_delete).
    set (l2 := set_b (<[Z.to_nat i := None]> (b l)) l1).
    assert (E2 : assign (Bucket i) None l1 = (Ret tt, l2)). { cbn. unfold read, bucket_at, mbind, M_bind. rewrite (proj2 (Z.ltb_ge i 0)) by lia. cbn [b l1 set_nodes]. by rewrite Hs. }
    rewrite (bind_ret _ _ _ _ _ E2). destruct (IH l2 (upd ls i []) (i + 1)) as (b' & E & Hl & Hr); [lia|lia| | | | |].
    + intros j Hj. unfold upd. case_decide as Ej; [subst; exists None; split; [|done]; apply list_lookup_insert_eq; by eapply lookup_lt_Some|].
      destruct (Hc j Hj) as (t & Ht & Hjc). exists t. split; [cbn; rewrite list_lookup_insert_ne by lia; done|]. eapply seg_frame; [exact Hjc|].
      intros a Ha. apply Hg. intros Ha'. by apply Ej, (proj2 Hdj j i a); [|lia| |].
    + apply disj_upd; [done|constructor|set_solver].
    + intros a [x Hx]. change (nodes l2) with g1 in Hx. destruct (decide (a ∈ ls i)) as [Ha|Ha]; [by rewrite (Hg' a Ha) in Hx|]. rewrite (Hg a Ha) in Hx.
      destruct (Hcov a) as (j & Hj & Hin); [by eexists|]. exists j. rewrite upd_ne by (by intros ->). split; [|done]. assert (j <> i) by (by intros ->). lia.
    + intros j Hj. unfold upd. case_decide; [done|]. apply Hemp. lia.
    + exists b'. split_and!; [rewrite E; by destruct l|rewrite Hl; cbn; apply length_insert|done].
Qed.

Lemma flush_ok l : inv l -> exists l', OPENSSL_LH_flush l = (Ret tt, l') /\ inv l' /\ nodes l' = ∅ /\ contents l' = ∅ /\ num_nodes l' = num_nodes l /\ down_load l' = down_load l /\ error l' = error l.
Proof.
  intros Hinv. destruct (inv_buckets _ _ _ Hinv) as [ls Hbk]. pose proof (inv_shape _ _ _ Hinv) as Hsh. pose proof (num_nodes_pos l Hinv). pose proof (sh_nn _ Hsh) as Hnn. pose proof (sh_p _ Hsh).
  destruct (flush_loop_ok (num_nodes l) (Z.to_nat (num_nodes l)) l ls 0) as (b' & E & Hl & Hc); [lia|lia|apply Hbk|by apply buckets_disj| |lia|].
  { intros a [x Hx]. exists (place (pmax l) (p l) (nhash x)). pose proof (place_range (pmax l) (p l) (nhash x) ltac:(lia) ltac:(lia)). split; [lia|]. apply (bk_placed _ _ Hbk); [lia|]. eauto. }
  set (l' := set_num_items 0 (set_b b' (set_nodes ∅ l))). exists l'. split_and!; try done.
  - unfold OPENSSL_LH_flush. cbn [mbind]. rewrite (bind_ret get _ l l l eq_refl). by rewrite (bind_ret _ _ _ _ _ E).
  - apply (inv_intro l l' (fun _ => []) Hinv eq_refl Hl); [|split; cbn; intros *; by rewrite lookup_empty|done|cbn; lia].
    split; cbn; [done|constructor|]. intros i a Hi. split; [set_solver|]. intros (x & Hx & _). by rewrite lookup_empty in Hx.
Qed.

(** ** Iteration *)

(** A callback that notes the item and deletes those that [del] says. *)
Definition visit (alloc : bool) (del : D -> bool) (d : D) : M (lhash * list D) unit :=
  modify (fun s => (s.1, s.2 ++ [d]));;
  if del d then _ ← on_table (OPENSSL_LH_delete alloc d); mret tt else mret tt.

(** Deletion does not contract the table while there are items. *)
Definition safe (l : lhash) : Prop := num_nodes l <= 16 \/ down_load l = 0 /\ num_nodes l <= 256.

Lemma safe_sparse l : inv l -> safe l -> sparse l = true -> nodes l = ∅.
Proof.
  intros Hinv Hs. pose proof (num_nodes_pos l Hinv). unfold sparse, MIN_NODES, LH_LOAD_MULT. intros Hp. zb. destruct Hs as [?|[Hd Hn]]; [lia|]. rewrite Hd in *.
  pose proof (inv_items _ _ _ Hinv) as Hi. pose proof (Z.mul_succ_div_gt (num_items l * 256) (num_nodes l) ltac:(lia)). apply map_size_empty_inv. nia.
Qed.

Definition dat (l : lhash) (a : nat) : option D := data <$> nodes l !! a.

(** The nodes [ys] visited: their data in order, and those deleted gone. *)
Definition gone (del : D -> bool) (ys : list nat) (l l' : lhash) : Prop :=
  forall a, core <$> nodes l' !! a = match core <$> nodes l !! a with Some c => if decide (a ∈ ys) then if del c.1 then None else Some c else Some c | None => None end.

(** A table with the same buckets but the one that is being visited, or empty and with
    at most one bucket less. *)
Definition visiting (i : Z) (ls : Z -> list nat) (l l' : lhash) : Prop :=
  (frame l' = frame l /\ exists ls', buckets l' ls' /\ forall j, j <> i -> ls' j = ls j) \/ (nodes l' = ∅ /\ num_nodes l' = num_nodes l - 1 /\ down_load l' = down_load l).

Lemma split_unique (xs xs' ys ys' : list nat) a : NoDup (xs ++ a :: ys) -> xs ++ a :: ys = xs' ++ a :: ys' -> xs = xs' /\ ys = ys'.
Proof.
  induction xs as [|c xs IH] in xs' |- *; cbn; intros Hnd E; (destruct xs' as [|c' xs']; cbn in E).
  - by injection E as ->.
  - injection E as <- E2. apply NoDup_cons in Hnd as [Hn _]. destruct Hn. rewrite E2. set_solver.
  - injection E as -> E2. apply NoDup_cons in Hnd as [Hn _]. destruct Hn. set_solver.
  - injection E as -> E2. apply NoDup_cons in Hnd as [_ Hnd]. by destruct (IH _ Hnd E2) as [-> ->].
Qed.

Lemma delete_visit alloc l ls i xs a ys x (v : list D) : inv l -> buckets l ls -> safe l -> 0 <= i < num_nodes l -> ls i = xs ++ a :: ys -> nodes l !! a = Some x ->
  exists l', (_ ← on_table (OPENSSL_LH_delete alloc (data x)); mret tt) (l, v) = (Ret tt, (l', v)) /\ inv l' /\ core <$> nodes l' = delete a (core <$> nodes l) /\
    ((frame l' = frame l /\ buckets l' (upd ls i (xs ++ ys))) \/ (nodes l' = ∅ /\ ys = [] /\ num_nodes l' = num_nodes l - 1 /\ down_load l' = down_load l)).
Proof.
  intros Hinv Hbk Hs Hi E Hx. pose proof (inv_shape _ _ _ Hinv) as Hsh. pose proof (buckets_disj _ _ Hsh Hbk) as Hdj. pose proof (inv_keyed _ _ _ Hinv) as Hk.
  destruct (delete_cases alloc l ls (data x) Hinv Hbk) as [[Hn _]|(i' & xs' & a' & ys' & x' & l1 & Hi' & E' & Hx' & Ek & _ & Hi1 & Hb1 & Hf & _ & Hc1 & Hn1 & _ & Ed)];
    [by rewrite (contents_found _ a x Hk Hx) in Hn|].
  assert (a' = a) as -> by (by apply (keyed_inj _ _ _ Hk a' a x' x)). assert (i' = i) as -> by (apply (proj2 Hdj i' i a); [done|done|rewrite E'; set_solver|rewrite E; set_solver]).
  rewrite E in E'. destruct (split_unique xs xs' ys ys' a) as [<- <-]; [rewrite <- E; by apply (proj1 Hdj)|done|].
  pose proof Hf as Hf'. apply frame_eq in Hf' as (Hnn & Hdl & _). assert (Hs1 : safe l1) by (unfold safe; by rewrite Hnn, Hdl). destruct (sparse l1) eqn:Esp.
  - pose proof (safe_sparse l1 Hi1 Hs1 Esp) as He. assert (Hbig : 16 < num_nodes l1) by (unfold sparse, MIN_NODES in Esp; zb; lia).
    destruct (contract_ok key hk alloc l1 Hi1 Hbig) as (l2 & E2 & Hr & _). rewrite (bind_ret _ _ _ _ _ E2) in Ed. pose proof (rs_core _ _ _ _ _ Hr) as Hc2. pose proof (rs_nn _ _ _ _ _ Hr) as Hn2.
    pose proof (rs_outer _ _ _ _ _ Hr) as [= _ _ _ _ _ Hd2 _]. exists l2. split_and!; [|apply Hr|congruence|right; split_and!; [|destruct ys as [|c ys]; [done|]|congruence|congruence]].
    + unfold on_table, mbind, M_bind. cbn. by rewrite Ed.
    + rewrite He, fmap_empty in Hc2. by apply fmap_empty_inv in Hc2.
    + exfalso. destruct (bk_chains _ _ Hb1 i) as (s & _ & Hch); [lia|]. rewrite upd_eq in Hch. destruct (seg_in _ _ _ _ c Hch) as [y Hy]; [set_solver|]. by rewrite He, lookup_empty in Hy.
  - exists l1. split_and!; [|done|done|by left]. unfold on_table, mbind, M_bind. cbn. by rewrite Ed.
Qed.

Lemma core_delete_lookup (l l' : lhash) a c : core <$> nodes l' = delete a (core <$> nodes l) -> core <$> nodes l' !! c = if decide (c = a) then None else core <$> nodes l !! c.
Proof. intros E. rewrite <- lookup_fmap, E. case_decide; subst; [by rewrite lookup_delete_eq|by rewrite lookup_delete_ne, lookup_fmap]. Qed.

Lemma dat_core (l l' : lhash) a : core <$> nodes l' !! a = core <$> nodes l !! a -> dat l' a = dat l a.
Proof. unfold dat. destruct (nodes l' !! a) as [[]|], (nodes l !! a) as [[]|]; cbn; intros; simplify_eq; done. Qed.

Lemma doall_chain_ok alloc del i : forall ys fuel (l : lhash) ls xs v, inv l -> buckets l ls -> safe l \/ (forall d, del d = false) -> 0 <= i < num_nodes l -> ls i = xs ++ ys -> (length ys <= fuel)%nat ->
  exists l', doall_chain (visit alloc del) fuel (head ys) (l, v) = (Ret tt, (l', v ++ omap (dat l) ys)) /\ inv l' /\ gone del ys l l' /\ visiting i ls l l' /\ ((forall d, del d = false) -> l' = l).
Proof.
  induction ys as [|a ys IH]; intros fuel l ls xs v Hinv Hbk Hs Hi E Hf.
  - exists l. split_and!; [destruct fuel; cbn; by rewrite app_nil_r|done| |left; split; [done|by exists ls]|done]. intros a. by destruct (core <$> nodes l !! a).
  - destruct fuel as [|fuel]; [cbn in Hf; lia|]. cbn in Hf. destruct (bk_chains _ _ Hbk i Hi) as (s & _ & Hch). rewrite E in Hch. apply seg_app in Hch as (u & _ & _ & x & Hx & Hys).
    pose proof (bk_nodup _ _ Hbk i Hi) as Hnd. rewrite E in Hnd. pose proof Hnd as (_ & _ & [Hay _]%NoDup_cons)%NoDup_app.
    cbn [head doall_chain]. rewrite (bind_ret (on_table (node a)) _ (l, v) x (l, v)) by (unfold on_table; cbn; by rewrite (node_read l a x Hx)). rewrite (chain_head _ _ _ Hys).
    assert (Ho : omap (dat l) (a :: ys) = data x :: omap (dat l) ys) by (cbn; unfold dat at 1; by rewrite Hx). rewrite Ho. destruct (del (data x)) eqn:Ed.
    + destruct Hs as [Hs|Hno]; [|by rewrite Hno in Ed]. destruct (delete_visit alloc l ls i xs a ys x (v ++ [data x]) Hinv Hbk Hs Hi E Hx) as (l1 & E1 & Hi1 & Hc1 & Hcase).
      rewrite (bind_ret (visit alloc del (data x)) _ _ tt (l1, v ++ [data x])) by (unfold visit; rewrite Ed; exact E1). destruct Hcase as [[Hf1 Hb1]|(He & -> & Hn & Hd)].
      * pose proof (frame_eq _ _ Hf1) as (Hnn & Hdl & _). destruct (IH fuel l1 _ xs (v ++ [data x]) Hi1 Hb1) as (l' & Er & Hi' & Hg & Hv & _); [left; unfold safe; by rewrite Hnn, Hdl|lia|apply upd_eq|lia|].
        assert (Hdat : omap (dat l1) ys = omap (dat l) ys).
        { apply list_omap_ext, Forall_Forall2_diag, Forall_forall. intros c Hcy. apply dat_core. rewrite (core_delete_lookup l l1 a c Hc1). by rewrite decide_False by (by intros ->). }
        exists l'. split_and!; [rewrite Er, Hdat; by rewrite <- app_assoc|done| | |by intros Hno; rewrite Hno in Ed].
        { intros c. rewrite (Hg c), (core_delete_lookup l l1 a c Hc1). destruct (decide (c = a)) as [->|Hca]; [rewrite Hx; cbn; by rewrite decide_True, Ed by left|].
          destruct (core <$> nodes l !! c); [|done]. by rewrite (decide_ext (c ∈ a :: ys) (c ∈ ys)) by set_solver. }
        { destruct Hv as [(Hf' & ls' & Hb' & Hls)|(? & ? & ?)]; [left|right; split_and!; [done|congruence|congruence]]. split; [congruence|]. exists ls'. split; [done|]. intros j Hj. rewrite Hls by done. by apply upd_ne. }
      * exists l1. split_and!; [destruct fuel; cbn; by rewrite ?app_nil_r|done| |by right|by intros Hno; rewrite Hno in Ed].
        intros c. rewrite (core_delete_lookup l l1 a c Hc1). destruct (decide (c = a)) as [->|Hca]; [rewrite Hx; cbn; by rewrite decide_True, Ed by left|].
        destruct (core <$> nodes l !! c); [|done]. by rewrite decide_False by set_solver.
    + destruct (IH fuel l ls (xs ++ [a]) (v ++ [data x]) Hinv Hbk Hs Hi) as (l' & Er & Hi' & Hg & Hv & Hsame); [by rewrite E, <- app_assoc|lia|].
      rewrite (bind_ret (visit alloc del (data x)) _ _ tt (l, v ++ [data x])) by (unfold visit; by rewrite Ed). exists l'. split_and!; [rewrite Er; by rewrite <- app_assoc|done| |done|done].
      intros c. rewrite (Hg c). destruct (decide (c = a)) as [->|Hca]; [rewrite Hx; cbn; by rewrite (decide_False (P := a ∈ ys)), decide_True, Ed by (done || left)|].
      destruct (core <$> nodes l !! c); [|done]. by rewrite (decide_ext (c ∈ a :: ys) (c ∈ ys)) by set_solver.
Qed.

(** The nodes of the buckets [i - 1], ..., [0]. *)
Fixpoint addrs (ls : Z -> list nat) (i : nat) : list nat := match i with O => [] | S i => ls (Z.of_nat i) ++ addrs ls i end.

Lemma elem_of_addrs ls i a : a ∈ addrs ls i <-> exists j, 0 <= j < Z.of_nat i /\ a ∈ ls j.
Proof.
  induction i as [|i IH]; cbn [addrs]; [split; [set_solver|intros (j & ? & _); lia]|]. rewrite elem_of_app, IH. split.
  - intros [Ha|(j & Hj & Ha)]; [exists (Z.of_nat i)|exists j]; (split; [lia|done]).
  - intros (j & Hj & Ha). destruct (Z.eq_dec j (Z.of_nat i)) as [->|]; [by left|right]. exists j. split; [lia|done].
Qed.

Lemma addrs_ext ls ls' i : (forall j, 0 <= j < Z.of_nat i -> ls' j = ls j) -> addrs ls' i = addrs ls i.
Proof. induction i as [|i IH]; intros E; cbn; [done|]. rewrite E, IH; [done| |lia]. intros; apply E; lia. Qed.

Lemma omap_dat_ext (l l' : lhash) (xs : list nat) : (forall a, a ∈ xs -> core <$> nodes l' !! a = core <$> nodes l !! a) -> omap (dat l') xs = omap (dat l) xs.
Proof. intros E. apply list_omap_ext, Forall_Forall2_diag, Forall_forall. intros a Ha. by apply dat_core, E. Qed.

Lemma gone_app del xs ys l l1 l' : gone del xs l l1 -> gone del ys l1 l' -> gone del (xs ++ ys) l l'.
Proof.
  intros H1 H2 a. rewrite (H2 a), (H1 a). destruct (core <$> nodes l !! a) as [c|]; [|done].
  destruct (decide (a ∈ xs)), (decide (a ∈ ys)), (del c.1) eqn:E; rewrite ?E; rewrite ?(decide_True (P := a ∈ xs ++ ys)) by set_solver; rewrite ?(decide_False (P := a ∈ xs ++ ys)) by set_solver; done.
Qed.

Lemma doall_buckets_ok alloc del : forall i (l : lhash) ls v, inv l -> buckets l ls -> safe l \/ (forall d, del d = false) -> Z.of_nat i <= num_nodes l ->
  exists l', doall_buckets (visit alloc del) i (l, v) = (Ret tt, (l', v ++ omap (dat l) (addrs ls i))) /\ inv l' /\ gone del (addrs ls i) l l' /\ ((forall d, del d = false) -> l' = l).
Proof.
  induction i as [|i IH]; intros l ls v Hinv Hbk Hs Hi.
  - exists l. cbn. rewrite app_nil_r. split_and!; try done. intros a. by destruct (core <$> nodes l !! a).
  - cbn [doall_buckets]. rewrite (bind_ret (on_table (deref (Bucket (Z.of_nat i)))) _ (l, v) (head (ls (Z.of_nat i))) (l, v))
      by (unfold on_table; cbn [fst]; by rewrite (bucket_read l _ ls (Z.of_nat i) (bk_chains _ _ Hbk) ltac:(lia))).
    rewrite (bind_ret get _ (l, v) (l, v) (l, v) eq_refl). cbn [fst].
    destruct (bk_chains _ _ Hbk (Z.of_nat i)) as (s & _ & Hch); [lia|]. pose proof (bk_nodup _ _ Hbk (Z.of_nat i) ltac:(lia)) as Hnd.
    destruct (doall_chain_ok alloc del (Z.of_nat i) (ls (Z.of_nat i)) (size (nodes l)) l ls [] v Hinv Hbk Hs) as (l1 & E1 & Hi1 & Hg1 & Hv & Hsame1); [lia|done|by eapply chain_length|].
    rewrite (bind_ret _ _ _ _ _ E1). pose proof (buckets_disj _ _ (inv_shape _ _ _ Hinv) Hbk) as Hdj.
    assert (Hrest : forall a, a ∈ addrs ls i -> core <$> nodes l1 !! a = core <$> nodes l !! a /\ is_Some (nodes l !! a)).
    { intros a (j & Hj & Ha)%elem_of_addrs. destruct (bk_chains _ _ Hbk j) as (t & _ & Ht); [lia|]. split; [|by eapply seg_in]. rewrite (Hg1 a). destruct (core <$> nodes l !! a); [|done]. rewrite decide_False; [done|].
      intros Ha'. enough (j = Z.of_nat i) by lia. by apply (proj2 Hdj j (Z.of_nat i) a); [lia|lia| |]. }
    assert (Hnext : exists ls1, buckets l1 ls1 /\ (safe l1 \/ (forall d, del d = false)) /\ Z.of_nat i <= num_nodes l1 /\ omap (dat l1) (addrs ls1 i) = omap (dat l) (addrs ls i) /\ (forall a, is_Some (nodes l1 !! a) -> a ∈ addrs ls1 i <-> a ∈ addrs ls i)).
    { destruct Hv as [(Hf & ls1 & Hb1 & Hls)|(He & Hn & Hd)].
      - apply frame_eq in Hf as (Hnn & Hdl & _). exists ls1. assert (Ea : addrs ls1 i = addrs ls i) by (apply addrs_ext; intros; apply Hls; lia). rewrite Ea.
        split_and!; [done|unfold safe; by rewrite Hnn, Hdl|lia|apply omap_dat_ext; intros; by apply Hrest|done].
      - destruct (inv_buckets _ _ _ Hi1) as [ls1 Hb1]. exists ls1. assert (E0 : addrs ls i = []).
        { destruct (addrs ls i) as [|c t]; [done|]. exfalso. destruct (Hrest c) as [Hc [y Hy]]; [left|]. rewrite He, lookup_empty, Hy in Hc. done. }
        split_and!; [done|destruct Hs as [Hs|?]; [left; unfold safe in *; rewrite Hn, Hd; lia|by right]|lia| |intros a [y Hy]; by rewrite He, lookup_empty in Hy].
        rewrite E0. cbn. induction (addrs ls1 i) as [|c t IHt]; cbn; [done|]. unfold dat at 1. rewrite He, lookup_empty. exact IHt. }
    destruct Hnext as (ls1 & Hb1 & Hs1 & Hi' & Ho & Hin). destruct (IH l1 ls1 (v ++ omap (dat l) (ls (Z.of_nat i))) Hi1 Hb1 Hs1 Hi') as (l' & E & Hinv' & Hg & Hsame).
    exists l'. split_and!; [rewrite E, Ho; cbn [addrs]; by rewrite omap_app, app_assoc|done| |intros Hno; rewrite (Hsame Hno); auto].
    cbn [addrs]. eapply gone_app; [exact Hg1|]. intros a. rewrite (Hg a). destruct (nodes l1 !! a) as [y|] eqn:Ey; [|done]. cbn. by rewrite (decide_ext (a ∈ addrs ls1 i) (a ∈ addrs ls i)) by (apply Hin; by rewrite Ey).
Qed.

Lemma addrs_all l ls : inv l -> buckets l ls -> NoDup (addrs ls (Z.to_nat (num_nodes l))) /\ forall a, a ∈ addrs ls (Z.to_nat (num_nodes l)) <-> is_Some (nodes l !! a).
Proof.
  intros Hinv Hbk. pose proof (inv_shape _ _ _ Hinv) as Hsh. pose proof (buckets_disj _ _ Hsh Hbk) as Hdj. pose proof (num_nodes_pos l Hinv). pose proof (sh_nn _ Hsh). pose proof (sh_p _ Hsh). split.
  - assert (Hle : Z.of_nat (Z.to_nat (num_nodes l)) <= num_nodes l) by lia. revert Hle. induction (Z.to_nat (num_nodes l)) as [|k IH]; intros Hle; cbn [addrs]; [constructor|].
    apply NoDup_app. split_and!; [apply (proj1 Hdj); lia| |apply IH; lia]. intros a Ha (j & Hj & Ha')%elem_of_addrs. enough (j = Z.of_nat k) by lia. by apply (proj2 Hdj j (Z.of_nat k) a); [lia|lia| |].
  - intros a. rewrite elem_of_addrs. split.
    + intros (j & Hj & Ha). destruct (bk_chains _ _ Hbk j) as (s & _ & Hs); [lia|]. by eapply seg_in.
    + intros [x Hx]. exists (place (pmax l) (p l) (nhash x)). pose proof (place_range (pmax l) (p l) (nhash x) ltac:(lia) ltac:(lia)). split; [lia|]. apply (bk_placed _ _ Hbk); [lia|]. eauto.
Qed.

(** The values of a table, in any order. *)
Definition values (l : lhash) : list D := (map_to_list (contents l)).*2.

Lemma visited_values l ls : inv l -> buckets l ls -> omap (dat l) (addrs ls (Z.to_nat (num_nodes l))) ≡ₚ values l.
Proof.
  intros Hinv Hbk. destruct (addrs_all l ls Hinv Hbk) as [Hnd Hin].
  assert (Hp : addrs ls (Z.to_nat (num_nodes l)) ≡ₚ (map_to_list (nodes l)).*1).
  { apply NoDup_Permutation; [done|apply NoDup_fst_map_to_list|]. intros a. rewrite Hin, list_elem_of_fmap. split.
    - intros [x Hx]. exists (a, x). split; [done|]. by apply elem_of_map_to_list.
    - intros ([c x] & -> & Hx%elem_of_map_to_list). eauto. }
  assert (Ho : omap (dat l) ((map_to_list (nodes l)).*1) = data <$> (map_to_list (nodes l)).*2).
  { clear Hp Hin. assert (Hm : Forall (fun ax => nodes l !! ax.1 = Some ax.2) (map_to_list (nodes l))) by (apply Forall_forall; intros [a x]; apply elem_of_map_to_list).
    induction Hm as [|[a x] t Hx _ IH]; cbn; [done|]. unfold dat at 1. cbn in Hx. rewrite Hx. cbn. f_equal. exact IH. }
  unfold values, contents. rewrite Hp, Ho, map_to_list_to_map by (apply entries_nodup, Hinv). by rewrite <- !list_fmap_compose.
Qed.

Lemma gone_contents del l l' ls : inv l -> inv l' -> buckets l ls -> gone del (addrs ls (Z.to_nat (num_nodes l))) l l' ->
  contents l' = filter (fun kd => del kd.2 = false) (contents l).
Proof.
  intros Hinv Hinv' Hbk Hg. destruct (addrs_all l ls Hinv Hbk) as [_ Hin]. pose proof (inv_keyed _ _ _ Hinv) as Hk. pose proof (inv_keyed _ _ _ Hinv') as Hk'.
  assert (Hiff : forall a d, (exists x, nodes l' !! a = Some x /\ data x = d) <-> (exists x, nodes l !! a = Some x /\ data x = d) /\ del d = false).
  { intros a d. pose proof (Hg a) as Ea. destruct (nodes l !! a) as [x|] eqn:Ex; cbn in Ea.
    - rewrite decide_True in Ea by (apply Hin; by rewrite Ex). destruct (del (data x)) eqn:Ed; destruct (nodes l' !! a) as [y|] eqn:Ey; cbn in Ea; simplify_eq; split.
      + by intros (? & ? & _).
      + intros [(z & [= <-] & <-) Hf]. congruence.
      + intros (z & [= <-] & <-). split; [exists x; split; congruence|congruence].
      + intros [(z & [= <-] & <-) Hf]. exists y. split; congruence.
    - destruct (nodes l' !! a); [done|]. split; [by intros (? & ? & _)|by intros [(? & ? & _) _]]. }
  apply map_eq. intros k. apply option_eq. intros d. rewrite map_lookup_filter_Some, !contents_Some by done. cbn. split.
  - intros (a & x & Hx & Hd & Hkd). destruct (proj1 (Hiff a d)) as [(y & Hy & Hyd) Hf]; [eauto|]. split; [|done]. eauto 10.
  - intros [(a & x & Hx & Hd & Hkd) Hf]. destruct (proj2 (Hiff a d)) as (y & Hy & Hyd); [eauto|]. eauto 10.
Qed.

Lemma doall_ok alloc del l : inv l -> safe l \/ (forall d, del d = false) ->
  exists l' vs, doall_util_fn (visit alloc del) (l, []) = (Ret tt, (l', vs)) /\ inv l' /\ vs ≡ₚ values l /\ contents l' = filter (fun kd => del kd.2 = false) (contents l) /\
    ((forall d, del d = false) -> l' = l).
Proof.
  intros Hinv Hs. destruct (inv_buckets _ _ _ Hinv) as [ls Hbk]. pose proof (num_nodes_pos l Hinv). pose proof (sh_small _ (inv_shape _ _ _ Hinv)).
  destruct (doall_buckets_ok alloc del (Z.to_nat (num_nodes l)) l ls [] Hinv Hbk Hs ltac:(lia)) as (l' & E & Hi' & Hg & Hsame). exists l', (omap (dat l) (addrs ls (Z.to_nat (num_nodes l)))).
  split_and!; [|done|by apply visited_values|by eapply gone_contents|done].
  unfold doall_util_fn. cbn [mbind]. rewrite (bind_ret get _ (l, []) (l, []) (l, []) eq_refl). cbn [fst]. rewrite u32_small by lia. rewrite lh_to_int_small by lia.
  by replace (num_nodes l - 1 + 1) with (num_nodes l) by lia.
Qed.

(** ** The tables that programs build *)

Inductive op := Insert (alloc_b : bool) (alloc_n : option nat) (d : D) | Delete (alloc_b : bool) (d : D) | Retrieve (d : D) | Flush | SetDownLoad (v : Z).

Definition exec (o : op) : M lhash (option D) :=
  match o with
  | Insert alloc_b alloc_n d => OPENSSL_LH_insert alloc_b alloc_n d
  | Delete alloc_b d => OPENSSL_LH_delete alloc_b d
  | Retrieve d => OPENSSL_LH_retrieve d
  | Flush => OPENSSL_LH_flush;; mret None
  | SetDownLoad v => OPENSSL_LH_set_down_load v;; mret None
  end.

(** What [malloc] returns is not in use, and a table has fewer than [2^29] items. *)
Definition allowed (l : lhash) (o : op) : Prop :=
  match o with
  | Insert _ alloc_n _ => num_items l < 536870912 /\ match alloc_n with Some nn => nodes l !! nn = None | None => True end
  | _ => True
  end.

(** What an operation does to the map, what it returns and what [OPENSSL_LH_error] is
    afterwards.  A deletion always succeeds, also when shrinking the array fails. *)
Inductive spec (m : gmap K D) : op -> option D -> Z -> gmap K D -> Prop :=
| spec_insert alloc_b alloc_n d : spec m (Insert alloc_b alloc_n d) (m !! key d) 0 (<[key d := d]> m)
| spec_insert_fails alloc_b alloc_n d : alloc_b = false \/ alloc_n = None -> spec m (Insert alloc_b alloc_n d) None 1 m
| spec_delete alloc_b d e : (alloc_b = true -> e = 0) -> spec m (Delete alloc_b d) (m !! key d) e (delete (key d) m)
| spec_retrieve d : spec m (Retrieve d) (m !! key d) 0 m
| spec_flush e : spec m Flush None e ∅
| spec_set_down_load v e : spec m (SetDownLoad v) None e m.

(** The tables reached by operations in [P]. *)
Inductive reach (cstr : D -> list Z) (P : op -> Prop) : lhash -> Prop :=
| reach_new alloc_t alloc_b h c hw cw l0 l : OPENSSL_LH_new cstr alloc_t alloc_b h c = Some l0 -> OPENSSL_LH_set_thunks hw cw l0 = (Ret tt, l) -> functions key hk l -> reach cstr P l
| reach_step l o r l' : reach cstr P l -> P o -> allowed l o -> exec o l = (r, l') -> reach cstr P l'.

Lemma lh_new_inv cstr alloc_t alloc_b h c hw cw l0 l : OPENSSL_LH_new cstr alloc_t alloc_b h c = Some l0 -> OPENSSL_LH_set_thunks hw cw l0 = (Ret tt, l) -> functions key hk l ->
  inv l /\ balanced l /\ down_load l = DOWN_LOAD.
Proof.
  unfold OPENSSL_LH_new, OPENSSL_LH_set_thunks, modify. destruct alloc_t, alloc_b; try done. cbn [negb]. intros [= <-] [= <-] Hf. change (MIN_NODES / 2) with 8 in *. change MIN_NODES with 16 in *. cbn in *. split; [|split; [unfold balanced; cbn; lia|done]].
  split; [done|split; cbn; [by exists 0%nat|lia|done|done|done|done]| |split; cbn; intros *; by rewrite lookup_empty|done|done|done].
  exists (fun _ => []). split; cbn; [|constructor|].
  - intros i Hi. exists None. split; [|done]. by apply (lookup_replicate_2 16 None (Z.to_nat i)); lia.
  - intros i a Hi. split; [set_solver|]. intros (x & Hx & _). by rewrite lookup_empty in Hx.
Qed.

Lemma inv_down_load v l : inv l -> inv (snd (OPENSSL_LH_set_down_load v l)).
Proof. intros [[H1 H2] [S1 S2 S3 S4 S5 S6] [ls [B1 B2 B3]] H4 H5 H6 H7]. by split; [split|split|exists ls; split|..]. Qed.

(** Neither flushing nor another threshold for contraction. *)
Definition plain (o : op) : Prop := match o with Flush | SetDownLoad _ => False | _ => True end.

Lemma lh_exec_ok o l : inv l -> allowed l o ->
  exists r l', exec o l = (Ret r, l') /\ inv l' /\ spec (contents l) o r (error l') (contents l') /\
    (plain o -> down_load l' = down_load l /\ (down_load l = DOWN_LOAD -> balanced l -> balanced l')).
Proof.
  intros Hinv Ha. destruct o as [alloc_b alloc_n d|alloc_b d|d| |v]; cbn [exec].
  - destruct Ha as [Hfew Hfr]. destruct (insert_ok alloc_b alloc_n l d Hinv Hfew) as (r & l' & E & Hi & Hd & Hb & Hc); [intros nn ->; done|].
    exists r, l'. split_and!; [done|done| |auto]. destruct Hc as [(-> & -> & ->)|(-> & -> & -> & Hf)]; by constructor.
  - destruct (delete_ok alloc_b l d Hinv) as (l' & E & Hi & Hc & Hd & He & Hb). eexists _, l'. split_and!; [done|done|rewrite Hc; by constructor|auto].
  - rewrite (retrieve_ok l d Hinv). eexists _, _. split_and!; [done|by apply inv_error|constructor|done].
  - destruct (flush_ok l Hinv) as (l' & E & Hi & _ & Hc & _). exists None, l'. rewrite (bind_ret _ _ _ _ _ E). split_and!; [done|done|rewrite Hc; constructor|done].
  - exists None. eexists. split_and!; [done|by apply inv_down_load|apply spec_set_down_load|done].
Qed.

Lemma lh_reach_inv cstr P l : reach cstr P l -> inv l.
Proof. induction 1 as [|l o r l' _ IH _ Ha E]; [by eapply lh_new_inv|]. destruct (lh_exec_ok o l IH Ha) as (r' & l2 & E2 & Hi & _). congruence. Qed.

Lemma reach_balanced cstr l : reach cstr plain l -> balanced l /\ down_load l = DOWN_LOAD.
Proof.
  induction 1 as [? ? ? ? ? ? ? l E1 E2 Hf|l o r l' Hr IH Hp Ha E]; [by eapply lh_new_inv|]. pose proof (lh_reach_inv _ _ _ Hr) as Hinv. destruct IH as [Hb Hd].
  destruct (lh_exec_ok o l Hinv Ha) as (r' & l2 & E2 & _ & _ & Hk). destruct (Hk Hp) as [Hd2 Hb2]. rewrite E in E2. simplify_eq. split; [auto|congruence].
Qed.

(** C18: a hash table is a finite map: in every table that a program reaches, insertion,
    deletion, lookup and flushing are defined, return the previous entry of the key, and
    leave exactly the map they should; an insertion that cannot allocate changes nothing
    and sets the error, and the number of items is that of the map. *)
Theorem lhash_refines_map cstr l o : reach cstr (fun _ => True) l -> allowed l o ->
  exists r l', exec o l = (Ret r, l') /\ spec (contents l) o r (OPENSSL_LH_error l') (contents l') /\
    OPENSSL_LH_num_items (Some l') = Z.of_nat (size (contents l')) /\ reach cstr (fun _ => True) l'.
Proof.
  intros Hr Ha. pose proof (lh_reach_inv _ _ _ Hr) as Hinv. destruct (lh_exec_ok o l Hinv Ha) as (r & l' & E & Hi & Hs & _). exists r, l'.
  split_and!; [done|done| |by eapply reach_step]. cbn. rewrite (inv_items _ _ _ Hi). by rewrite contents_size by apply Hi.
Qed.

(** Linear hashing keeps the load between one and two items a bucket: in every table
    reached by insertions, deletions and lookups (with allocations failing or not) there
    are at most two items for each bucket, and at most as many buckets as items once
    there are more than [MIN_NODES]. *)
Theorem lhash_load cstr l : reach cstr plain l -> num_items l <= 2 * num_nodes l /\ num_nodes l <= Z.max MIN_NODES (num_items l).
Proof. intros Hr. destruct (reach_balanced cstr l Hr) as [[H1 H2] _]. split; [done|]. unfold MIN_NODES. lia. Qed.

(** C19: iterating over a table with a callback that deletes the items it is told to, with
    the contraction threshold at zero and at most 256 buckets, or at most 16, is defined,
    visits every item exactly once, and leaves exactly the items not deleted; a callback
    that deletes nothing may be used on any table and leaves it as it is. *)
Theorem lhash_doall cstr l alloc del : reach cstr (fun _ => True) l -> safe l \/ (forall d, del d = false) ->
  exists l' vs, doall_util_fn (visit alloc del) (l, []) = (Ret tt, (l', vs)) /\ vs ≡ₚ values l /\
    contents l' = filter (fun kd => del kd.2 = false) (contents l) /\ ((forall d, del d = false) -> l' = l).
Proof. intros Hr Hs. destruct (doall_ok alloc del l (lh_reach_inv _ _ _ Hr) Hs) as (l' & vs & E & _ & Hv & Hc & Hsame). eauto 10. Qed.

End spec.
End LHashSpec.
