(* ===== verification/LHashSample.v ===== *)
(** * Hash tables: strings, samples and departures

    The string functions of [lhash.c] as functions of a table; a table of integers on
    which the theorems of [LHashSpec] are applied; and where the code departs from its
    documentation: a contraction threshold of zero does not stop contraction, and
    the sizes of large arrays wrap. *)
From Stdlib Require Import ZArith Lia.
From stdpp Require Import base tactics option list gmap.
From S2P Require Import Prelude LHash LHashInv LHashSpec.
#[local] Open Scope Z_scope.
Import LHash LHashInv LHashSpec.

Module LHashSample.

(** ** Strings *)

(** A character of a string, as a signed integer. *)
Definition c_char (c : Z) : Prop := -128 <= c < 128 /\ c <> 0.

Lemma u8_char c d : -128 <= c < 128 -> -128 <= d < 128 -> u8 c = u8 d -> c = d.
Proof. unfold u8. intros Hc Hd E. pose proof (Z.div_mod c 256 ltac:(lia)). pose proof (Z.div_mod d 256 ltac:(lia)). lia. Qed.

Lemma strcmp_eq s t : Forall c_char s -> Forall c_char t -> strcmp s t = 0 <-> s = t.
Proof.
  intros Hs. induction Hs as [|c s [Hc Hc0] Hs IH] in t |- *; intros Ht; destruct Ht as [|d t [Hd Hd0] Ht]; cbn [strcmp].
  - done.
  - split; [|done]. intros E. destruct Hd0. apply u8_char; [done|lia|change (u8 0) with 0; lia].
  - split; [|done]. intros E. destruct Hc0. apply u8_char; [done|lia|change (u8 0) with 0; lia].
  - destruct (c =? d) eqn:E; zb; [subst; rewrite (IH t Ht); split; congruence|]. split; [|congruence]. intros Hu. destruct E. apply u8_char; [done|done|lia].
Qed.

Lemma tolower_zero c : c_char c -> ossl_tolower c <> 0.
Proof. intros [Hc Hc0]. unfold ossl_tolower. destruct (_ && _) eqn:E; zb; [|done]. intros ->%Z.lxor_eq. lia. Qed.

Lemma strcasecmp_eq s t : Forall c_char s -> Forall c_char t -> OPENSSL_strcasecmp s t = 0 <-> ossl_tolower <$> s = ossl_tolower <$> t.
Proof.
  intros Hs. induction Hs as [|c s Hc Hs IH] in t |- *; intros Ht; destruct Ht as [|d t Hd Ht]; cbn [OPENSSL_strcasecmp fmap list_fmap].
  - done.
  - pose proof (tolower_zero d Hd). change (ossl_tolower 0) with 0. split; [lia|done].
  - pose proof (tolower_zero c Hc). change (ossl_tolower 0) with 0. split; [lia|done].
  - destruct (_ =? 0) eqn:E; zb; [rewrite (IH t Ht); split; [intros ->; f_equal; lia|by intros [= _ ->]]|]. split; [done|]. intros [= E' _]. lia.
Qed.

Lemma land_tolower c : Z.land (Z.lnot 32) (ossl_tolower c) = Z.land (Z.lnot 32) c.
Proof.
  unfold ossl_tolower. destruct (_ && _); [|done]. apply Z.bits_inj'. intros n Hn. rewrite !Z.land_spec, Z.lnot_spec, Z.lxor_spec by done.
  by destruct (Z.testbit 32 n), (Z.testbit c n).
Qed.

Lemma strhash_tolower s n r : strhash_loop (Z.lnot 32) (ossl_tolower <$> s) n r = strhash_loop (Z.lnot 32) s n r.
Proof. induction s as [|c s IH] in n, r |- *; [done|]. cbn [fmap list_fmap strhash_loop]. rewrite land_tolower. apply IH. Qed.

(** Names that compare equal up to case have the same hash. *)
Theorem strcasehash_respects_strcasecmp s t : Forall c_char s -> Forall c_char t -> OPENSSL_strcasecmp s t = 0 -> ossl_lh_strcasehash s = ossl_lh_strcasehash t.
Proof. intros Hs Ht E%strcasecmp_eq; [|done|done]. unfold ossl_lh_strcasehash. by rewrite <- (strhash_tolower s), E, strhash_tolower. Qed.

(** The default functions are right for a table of strings, by the strings themselves. *)
Theorem default_functions {D} (cstr : D -> list Z) l : (forall d, Forall c_char (cstr d)) -> OPENSSL_LH_new cstr true true None None = Some l ->
  functions cstr OPENSSL_LH_strhash l.
Proof. intros Hc [= <-]. split; [done|]. intros d e. by apply strcmp_eq. Qed.

(** ** A table of integers *)

Abbreviation lhash := (OPENSSL_LHASH (D := Z)).
Abbreviation reached := (reach (K := Z) id id (fun _ => []) (fun _ => True)).

Definition empty : lhash := default (mkLh ∅ [] Z.sub id None None 0 0 0 0 0 0 0 0) (OPENSSL_LH_new (fun _ => []) true true (Some id) (Some Z.sub)).

Lemma empty_reached (P : op -> Prop) : reach (K := Z) id id (fun _ => []) P empty.
Proof. eapply (reach_new _ _ _ _ true true (Some id) (Some Z.sub) None None); [reflexivity|reflexivity|]. split; cbn; [done|]. unfold call_comp, id. cbn. lia. Qed.

Fixpoint run (ops : list op) (l : lhash) : option lhash :=
  match ops with
  | [] => Some l
  | o :: ops =>
      let ok := match o with Insert _ (Some nn) _ => (num_items l <? 536870912) && is_null (nodes l !! nn) | Insert _ None _ => num_items l <? 536870912 | _ => true end in
      if ok then match exec o l with (Ret _, l') => run ops l' | _ => None end else None
  end.

Lemma run_reached P ops l l' : Forall P ops -> reach (K := Z) id id (fun _ => []) P l -> run ops l = Some l' -> reach (K := Z) id id (fun _ => []) P l'.
Proof.
  intros Hp. induction Hp as [|o ops Ho _ IH] in l |- *; intros Hr; cbn [run]; [by intros [= <-]|]. destruct (match o with Insert _ _ _ => _ | _ => _ end) eqn:Eok; [|done].
  destruct (exec o l) as [[r| |] l1] eqn:E; try done. apply IH. eapply reach_step; [done|done| |done]. destruct o as [? [nn|] ?| | | |]; cbn in *; zb; try done.
  split; [done|]. by destruct (nodes l !! nn).
Qed.

Definition sample_ops : list op := [Insert true (Some 1%nat) 5; Insert true (Some 2%nat) 13; Insert true (Some 3%nat) 21; Delete true 13; Insert true (Some 2%nat) 29].
Definition sample : lhash := default empty (run sample_ops empty).

Lemma sample_reached P : Forall P sample_ops -> reach (K := Z) id id (fun _ => []) P sample.
Proof.
  intros Hp. unfold sample. destruct (run sample_ops empty) as [l|] eqn:E; [|apply empty_reached]. eapply run_reached; [exact Hp|apply empty_reached|exact E].
Qed.

Lemma lhash_refines_map_witness : exists r l', exec (Insert true (Some 9%nat) 21) sample = (Ret r, l') /\
  spec id (contents id sample) (Insert true (Some 9%nat) 21) r (OPENSSL_LH_error l') (contents id l') /\
  OPENSSL_LH_num_items (Some l') = Z.of_nat (size (contents id l')) /\ reached l'.
Proof. apply (lhash_refines_map id id (fun _ => []) sample (Insert true (Some 9%nat) 21)); [apply sample_reached; by repeat constructor|by split]. Defined.

Lemma lhash_load_witness : num_items sample <= 2 * num_nodes sample /\ num_nodes sample <= Z.max MIN_NODES (num_items sample).
Proof. apply (lhash_load id id (fun _ => [])). apply sample_reached. by repeat constructor. Defined.

Lemma lhash_doall_witness : exists l' vs, doall_util_fn (visit true (fun d => d =? 21)) (sample, []) = (Ret tt, (l', vs)) /\ vs ≡ₚ values id sample /\
  contents id l' = filter (fun kd => (kd.2 =? 21) = false) (contents id sample) /\ ((forall d, (d =? 21) = false) -> l' = sample).
Proof. apply (lhash_doall id id (fun _ => []) sample true (fun d => d =? 21)); [apply sample_reached; by repeat constructor|left; left; by vm_compute]. Defined.

(** ** Departures *)

(** 1027 insertions make 514 buckets; then all but three items, which are in the last
    bucket, are deleted with the threshold at zero. *)
Definition many : list Z := (Z.of_nat <$> seq 0 1024) ++ [1537; 2561; 3585].
Definition many_ops : list op :=
  imap (fun a d => Insert true (Some a) d) many ++ SetDownLoad 0 :: (Delete true <$> filter (fun d => d ∉ [513; 1537; 2561]) many).

(** Setting the contraction threshold to zero does not disable contraction, as the
    manual says it does (and as callers that delete while they iterate rely on): there is a
    table, reached by insertions and deletions, with the threshold at zero, where
    iterating with a callback that deletes each item reads outside the array of buckets. *)
Theorem lhash_down_load_zero : exists l, reached l /\ OPENSSL_LH_get_down_load l = 0 /\ fst (doall_util_fn (visit true (fun _ => true)) (l, [])) = Undef.
Proof.
  assert (E : match run many_ops empty with
              | Some l => (down_load l =? 0) && match fst (doall_util_fn (visit true (fun _ => true)) (l, [])) with Undef => true | _ => false end
              | None => false
              end = true) by (vm_cast_no_check (eq_refl true)).
  destruct (run many_ops empty) as [l|] eqn:Er; [|done]. apply andb_true_iff in E as [Ed%Z.eqb_eq Eu]. exists l. split_and!; [|done|].
  - eapply run_reached; [|apply empty_reached|exact Er]. by apply Forall_forall.
  - by destruct (fst _).
Qed.

(** Once the table has [2^29] buckets, contracting it truncates the size of the array to no
    bytes: the array is freed and then used. *)
Theorem lhash_contract_frees_array alloc (l : lhash) : pmax l = 536870912 -> p l = 0 -> 536870912 <= Z.of_nat (length (b l)) -> fst (contract alloc l) = Undef.
Proof.
  intros Hpm Hp Hb. unfold contract. cbn [mbind]. rewrite (bind_ret get _ l l l eq_refl). rewrite Hp, Hpm. change (u32 (0 + 536870912 - 1)) with 536870911.
  destruct (lookup_lt_is_Some_2 (b l) (Z.to_nat 536870911)) as [s Hs]; [lia|]. assert (Er : read (bucket_at 536870911) l = (Ret s, l)) by (unfold read, bucket_at; cbn [Z.ltb Z.compare]; by rewrite Hs).
  rewrite (bind_ret _ _ _ _ _ (Er : deref (Bucket 536870911) l = _)). unfold assign. cbn [mbind]. unfold shrink, modify, mbind, M_bind, get. rewrite Er. cbn [p pmax set_b]. rewrite Hp, Hpm.
  change (0 =? 0) with true. change (u32 (8 * 536870912) =? 0) with true. cbv beta iota. unfold deref, read, bucket_at. cbn [b set_b set_error set_sizes]. rewrite lookup_nil. by destruct (_ <? 0).
Qed.
End LHashSample.
