(* ===== verification/DList.v ===== *)
(** * Doubly linked lists

    Model of the linked lists of [ssl/quic/quic_cfq.c] and [ssl/quic/quic_txpim.c]
    ([list_remove], [list_insert_head], [list_insert_tail], [list_insert_after],
    [list_insert_sorted]), which the two files define alike.  The [prev] and [next]
    fields of the elements are a store of nodes by address, shared by all the
    lists an element may be in; a list is its first and last element.  An access
    to a node that is not allocated gives [None].

    [dl xs l c]: in the store [c] the list [l] has the elements [xs]. *)
From Stdlib Require Import ZArith Lia.
From stdpp Require Import base tactics option gmap sorting.
From S2P Require Import Prelude CList.

Module DList.

Record node := mkNode { prev : option nat; next : option nat }.
Record dlist := mkList { head_ : option nat; tail_ : option nat }.
Abbreviation store := (gmap nat node).

Definition set_next (v : option nat) (x : node) : node := mkNode (prev x) v.
Definition set_prev (v : option nat) (x : node) : node := mkNode v (next x).

(** An assignment through a pointer that is not null, and one guarded by a test for
    null. *)
Definition at_ (p : nat) (f : node -> node) (c : store) : option store := x ← c !! p; Some (<[p := f x]> c).
Definition at_opt (p : option nat) (f : node -> node) (c : store) : option store :=
  match p with Some q => at_ q f c | None => Some c end.

Definition list_empty : dlist := mkList None None.

Definition list_remove (l : dlist) (n : nat) (c : store) : option (dlist * store) :=
  x ← c !! n;
  let l := if decide (head_ l = Some n) then mkList (next x) (tail_ l) else l in
  let l := if decide (tail_ l = Some n) then mkList (head_ l) (prev x) else l in
  c ← at_opt (prev x) (set_next (next x)) c;
  c ← at_opt (next x) (set_prev (prev x)) c;
  c ← at_ n (fun _ => mkNode None None) c;
  Some (l, c).

Definition list_insert_head (l : dlist) (n : nat) (c : store) : option (dlist * store) :=
  c ← at_ n (fun _ => mkNode None (head_ l)) c;
  c' ← at_opt (head_ l) (set_prev (Some n)) c;
  Some (mkList (Some n) (match tail_ l with Some t => Some t | None => Some n end), c').

Definition list_insert_tail (l : dlist) (n : nat) (c : store) : option (dlist * store) :=
  c ← at_ n (fun _ => mkNode (tail_ l) None) c;
  c' ← at_opt (tail_ l) (set_next (Some n)) c;
  Some (mkList (match head_ l with Some t => Some t | None => Some n end) (Some n), c').

Definition list_insert_after (l : dlist) (ref n : nat) (c : store) : option (dlist * store) :=
  r ← c !! ref;
  c ← at_ n (fun _ => mkNode (Some ref) (next r)) c;
  c ← at_opt (next r) (set_prev (Some n)) c;
  c ← at_ ref (set_next (Some n)) c;
  Some (mkList (head_ l) (if decide (tail_ l = Some ref) then Some n else tail_ l), c).

(** The search of [list_insert_sorted]: [p] and [pprev] when it stops. *)
Fixpoint find_place (fuel : nat) (before : nat -> bool) (p pprev : option nat) (c : store) : option (option nat * option nat) :=
  match p with
  | None => Some (None, pprev)
  | Some q =>
      if before q then
        match fuel with
        | O => None
        | S fuel => x ← c !! q; find_place fuel before (next x) (Some q) c
        end
      else Some (Some q, pprev)
  end.

(** [before p] is [cmp(p, n) < 0]. *)
Definition list_insert_sorted (before : nat -> bool) (l : dlist) (n : nat) (c : store) : option (dlist * store) :=
  match head_ l with
  | None => c ← at_ n (fun _ => mkNode None None) c; Some (mkList (Some n) (Some n), c)
  | Some _ =>
      '(p, pprev) ← find_place (size c) before (head_ l) None c;
      match p, pprev with
      | None, _ => list_insert_tail l n c
      | Some _, None => list_insert_head l n c
      | Some _, Some ref => list_insert_after l ref n c
      end
  end.

(** ** Refinement *)

Record dl (xs : list nat) (l : dlist) (c : store) : Prop := {
  dl_nodup : NoDup xs;
  dl_list : l = mkList (head xs) (last xs);
  dl_node a p b : xs = a ++ p :: b -> c !! p = Some (mkNode (last a) (head b))
}.

Lemma dl_nil l c : dl [] l c <-> l = list_empty.
Proof. split; [by intros []|]. intros ->. split; [constructor|done|]. by intros [] ? ?. Qed.

Lemma dl_frame xs l c c' : dl xs l c -> (forall q, q ∈ xs -> c' !! q = c !! q) -> dl xs l c'.
Proof. intros [H1 H2 H3] E. split; try done. intros a p b ->. rewrite E by set_solver. by apply H3. Qed.

Lemma dl_in xs l c p : dl xs l c -> p ∈ xs -> is_Some (c !! p).
Proof. intros H (a & b & ->)%list_elem_of_split. rewrite (dl_node _ _ _ H a p b) by done. eauto. Qed.

(** What an operation on a list may change. *)
Definition touches (xs : list nat) (n : nat) (c c' : store) : Prop :=
  dom c' = dom c /\ forall q, q ∉ xs -> q <> n -> c' !! q = c !! q.

Lemma at_dom p f c c' : at_ p f c = Some c' -> dom c' = dom c.
Proof. unfold at_. intros (x & Hx & [= <-])%bind_Some. apply dom_insert_lookup_L. eauto. Qed.

(** The node [n] linked between [a] and [b]. *)
Definition linked (a b : option nat) (n : nat) (c : store) (q : nat) : option node :=
  if decide (q = n) then Some (mkNode a b)
  else (fun x => mkNode (if decide (b = Some q) then Some n else prev x) (if decide (a = Some q) then Some n else next x)) <$> c !! q.

Lemma link_rep a b n (c c' : store) : NoDup (a ++ n :: b) ->
  (forall a1 p b1, a ++ b = a1 ++ p :: b1 -> c !! p = Some (mkNode (last a1) (head b1))) ->
  (forall q, c' !! q = linked (last a) (head b) n c q) ->
  dl (a ++ n :: b) (mkList (head (a ++ n :: b)) (last (a ++ n :: b))) c' /\ forall q, q ∉ a ++ b -> q <> n -> c' !! q = c !! q.
Proof.
  intros Hnd Hc Hq. pose proof Hnd as Hnd'. apply NoDup_app in Hnd' as (Hna & Hab & Hnb). apply NoDup_cons in Hnb as [Hn Hnb].
  assert (Hdis : forall q, q ∈ a -> q ∉ b) by (intros q Ha Hb; apply (Hab q Ha); set_solver).
  assert (Hlast : forall q, last a = Some q -> q ∈ a) by (intros q; apply last_Some_elem_of).
  assert (Hhead : forall q, head b = Some q -> q ∈ b) by (intros q; destruct b; [done|intros [= ->]; set_solver]). split.
  - split; [done|done|]. intros a1 p b1 E. rewrite Hq. unfold linked. destruct (CList.app_split_mid a (n :: b) a1 b1 p E) as [(a2 & -> & ->)|(b2 & E2 & ->)].
    + rewrite decide_False by (intros ->; apply (Hab n); set_solver). rewrite (Hc a1 p (a2 ++ b)) by (by rewrite <- app_assoc). cbn. f_equal. f_equal.
      * rewrite decide_False; [done|]. intros ?%Hhead. apply (Hdis p); set_solver.
      * destruct a2 as [|y a2]; cbn; [by rewrite last_snoc, decide_True|]. rewrite decide_False; [done|].
        rewrite last_app_cons, last_cons_cons. intros E'%last_Some_elem_of. apply NoDup_app in Hna as (_ & _ & Hna). by apply NoDup_cons in Hna as [? _].
    + destruct b2 as [|y b2]; cbn in E2; injection E2 as <- E2; [subst; by rewrite app_nil_r, decide_True|].
      rewrite decide_False by (intros ->; apply Hn; subst; set_solver). rewrite (Hc (a ++ b2) p b1) by (subst; by rewrite <- app_assoc). cbn. subst b. f_equal. f_equal.
      * destruct b2 as [|y b2]; cbn; [by rewrite last_snoc, decide_True|]. rewrite decide_False.
        2: { intros [= ->]. cbn in Hnb. apply NoDup_cons in Hnb as [Hnb _]. apply Hnb. set_solver. }
        by rewrite !last_app_cons, last_cons_cons.
      * rewrite decide_False; [done|]. intros ?%Hlast. apply (Hdis p); set_solver.
  - intros q Hqn Hne. rewrite Hq. unfold linked. rewrite decide_False by done.
    destruct (c !! q) as [[]|]; [cbn|done]. by rewrite !decide_False by (intros E; apply Hqn, elem_of_app; auto).
Qed.

(** Reading after one assignment. *)
Lemma at_Some p f c x : c !! p = Some x -> at_ p f c = Some (<[p := f x]> c).
Proof. unfold at_. by intros ->. Qed.

Lemma at_opt_ok p f (c : store) : (forall q, p = Some q -> is_Some (c !! q)) -> exists c', at_opt p f c = Some c' /\ dom c' = dom c /\
  forall q, c' !! q = if decide (p = Some q) then f <$> c !! q else c !! q.
Proof.
  intros Hp. destruct p as [p|]; cbn; [|exists c; split_and!; try done; intros q; by rewrite decide_False].
  destruct (Hp p eq_refl) as [x Hx]. rewrite (at_Some _ _ _ _ Hx). eexists. split; [done|]. split; [by apply dom_insert_lookup_L; eauto|].
  intros q. rewrite lookup_insert. repeat case_decide; subst; try congruence. by rewrite Hx.
Qed.

Lemma at_ok p f (c : store) : is_Some (c !! p) -> exists c', at_ p f c = Some c' /\ dom c' = dom c /\
  forall q, c' !! q = if decide (q = p) then f <$> c !! q else c !! q.
Proof.
  intros [x Hx]. rewrite (at_Some _ _ _ _ Hx). eexists. split; [done|]. split; [by apply dom_insert_lookup_L; eauto|].
  intros q. rewrite lookup_insert. repeat case_decide; subst; try congruence. by rewrite Hx.
Qed.

Lemma insert_tail_dl xs l c n : dl xs l c -> n ∉ xs -> is_Some (c !! n) ->
  exists l' c', list_insert_tail l n c = Some (l', c') /\ dl (xs ++ [n]) l' c' /\ touches xs n c c'.
Proof.
  intros H Hn Hin. pose proof (dl_nodup _ _ _ H) as Hnd. rewrite (dl_list _ _ _ H). unfold list_insert_tail. cbn [head_ tail_].
  destruct (at_ok n (fun _ => mkNode (last xs) None) c Hin) as (c1 & -> & Hd1 & H1). cbn [mbind option_bind].
  destruct (at_opt_ok (last xs) (set_next (Some n)) c1) as (c2 & -> & Hd2 & H2).
  { intros q Hq%last_Some_elem_of. rewrite H1, decide_False by (by intros ->). by eapply dl_in. }
  cbn [mbind option_bind]. eexists _, c2. split; [done|].
  destruct (link_rep xs [] n c c2) as [Hl Hf].
  - apply NoDup_app. split_and!; [done| |apply NoDup_singleton]. by intros q ? ->%list_elem_of_singleton.
  - rewrite app_nil_r. apply H.
  - intros q. rewrite H2, H1. unfold linked. destruct (decide (q = n)) as [->|].
    + rewrite decide_False by (by intros ?%last_Some_elem_of). by destruct Hin as [x ->].
    + destruct (c !! q) as [[]|]; repeat case_decide; cbn; repeat case_decide; done.
  - rewrite app_nil_r in Hf. split; [|split; [congruence|done]]. rewrite last_snoc in Hl. by destruct xs.
Qed.

Lemma insert_head_dl xs l c n : dl xs l c -> n ∉ xs -> is_Some (c !! n) ->
  exists l' c', list_insert_head l n c = Some (l', c') /\ dl (n :: xs) l' c' /\ touches xs n c c'.
Proof.
  intros H Hn Hin. pose proof (dl_nodup _ _ _ H) as Hnd. rewrite (dl_list _ _ _ H). unfold list_insert_head. cbn [head_ tail_].
  assert (Hh : forall q, head xs = Some q -> q ∈ xs) by (intros q; destruct xs; [done|intros [= ->]; left]).
  destruct (at_ok n (fun _ => mkNode None (head xs)) c Hin) as (c1 & -> & Hd1 & H1). cbn [mbind option_bind].
  destruct (at_opt_ok (head xs) (set_prev (Some n)) c1) as (c2 & -> & Hd2 & H2).
  { intros q Hq%Hh. rewrite H1, decide_False by (by intros ->). by eapply dl_in. }
  cbn [mbind option_bind]. eexists _, c2. split; [done|]. destruct (link_rep [] xs n c c2) as [Hl Hf].
  - by apply NoDup_cons.
  - apply H.
  - intros q. rewrite H2, H1. unfold linked. destruct (decide (q = n)) as [->|].
    + rewrite decide_False by (by intros ?%Hh). by destruct Hin as [x ->].
    + destruct (c !! q) as [[]|]; repeat case_decide; cbn; repeat case_decide; done.
  - split; [|split; [congruence|done]]. cbn [app head] in Hl. rewrite last_cons in Hl. by destruct (last xs).
Qed.

Lemma nodup_mid (a b : list nat) ref n : NoDup (a ++ ref :: b) -> n ∉ a ++ ref :: b -> NoDup (a ++ ref :: n :: b).
Proof.
  intros Hnd Hn. assert (E : a ++ ref :: n :: b ≡ₚ n :: a ++ ref :: b) by solve_Permutation. rewrite E. by apply NoDup_cons.
Qed.

Lemma insert_after_dl a b ref l c n : let xs := a ++ ref :: b in dl xs l c -> n ∉ xs -> is_Some (c !! n) ->
  exists l' c', list_insert_after l ref n c = Some (l', c') /\ dl (a ++ ref :: n :: b) l' c' /\ touches xs n c c'.
Proof.
  intros xs H Hn Hin. pose proof (dl_nodup _ _ _ H) as Hnd. rewrite (dl_list _ _ _ H). unfold list_insert_after. cbn [head_ tail_].
  assert (Hh : forall q, head b = Some q -> q ∈ b) by (intros q; destruct b; [done|intros [= ->]; left]). pose proof (dl_node _ _ _ H a ref b eq_refl) as Href.
  assert (Hne : ref <> n) by (intros ->; apply Hn, elem_of_app; right; left).
  assert (Hbx : forall q, head b = Some q -> q ∈ xs) by (intros q Hq%Hh; apply elem_of_app; right; by right).
  assert (Hnb : forall q, q ∈ b -> q <> ref). { unfold xs in Hnd. apply NoDup_app in Hnd as (_ & _ & Hnd). apply NoDup_cons in Hnd as [Hr _]. by intros q ? ->. }
  rewrite Href. cbn [mbind option_bind next].
  destruct (at_ok n (fun _ => mkNode (Some ref) (head b)) c Hin) as (c1 & -> & Hd1 & H1). cbn [mbind option_bind].
  destruct (at_opt_ok (head b) (set_prev (Some n)) c1) as (c2 & -> & Hd2 & H2).
  { intros q Hq%Hbx. rewrite H1, decide_False by (by intros ->). by apply (dl_in _ _ _ _ H). }
  cbn [mbind option_bind]. destruct (at_ok ref (set_next (Some n)) c2) as (c3 & -> & Hd3 & H3).
  { rewrite H2, decide_False by (intros E%Hh; by apply (Hnb ref)). rewrite H1, decide_False by done. eauto. }
  cbn [mbind option_bind]. eexists _, c3. split; [done|]. destruct (link_rep (a ++ [ref]) b n c c3) as [Hl Hf].
  - rewrite <- app_assoc. by apply nodup_mid.
  - rewrite <- app_assoc. apply H.
  - intros q. rewrite H3, H2, H1, last_snoc. unfold linked. destruct (decide (q = n)) as [->|].
    + rewrite decide_False by done. rewrite decide_False by (by intros E%Hbx). by destruct Hin as [x ->].
    + destruct (c !! q) as [[]|]; repeat case_decide; cbn; repeat case_decide; simplify_eq; done.
  - rewrite <- app_assoc in Hl, Hf. cbn [app] in Hl, Hf. split; [|split; [congruence|done]].
    assert (El : (if decide (last xs = Some ref) then Some n else last xs) = last (a ++ ref :: n :: b)).
    { unfold xs. rewrite !last_app_cons. destruct b as [|y b]; [by rewrite decide_True|]. rewrite decide_False; [by rewrite !last_cons_cons|].
      rewrite last_cons_cons. intros E%last_Some_elem_of. by apply (Hnb ref). }
    rewrite El. unfold xs. by destruct a.
Qed.

(** The node [n] between [a] and [b] taken out. *)
Definition unlinked (a b : option nat) (n : nat) (c : store) (q : nat) : option node :=
  if decide (q = n) then Some (mkNode None None)
  else (fun x => mkNode (if decide (b = Some q) then a else prev x) (if decide (a = Some q) then b else next x)) <$> c !! q.

Lemma unlink_rep a b n (c c' : store) : NoDup (a ++ n :: b) ->
  (forall a1 p b1, a ++ n :: b = a1 ++ p :: b1 -> c !! p = Some (mkNode (last a1) (head b1))) ->
  (forall q, c' !! q = unlinked (last a) (head b) n c q) ->
  dl (a ++ b) (mkList (head (a ++ b)) (last (a ++ b))) c' /\ forall q, q ∉ a ++ b -> q <> n -> c' !! q = c !! q.
Proof.
  intros Hnd Hc Hq. apply NoDup_app in Hnd as (Hna & Hab & Hnb). apply NoDup_cons in Hnb as [Hn Hnb].
  assert (Hdis : forall q, q ∈ a -> q ∉ b) by (intros q Ha Hb; apply (Hab q Ha); by right).
  assert (Hlast : forall q, last a = Some q -> q ∈ a) by (intros q; apply last_Some_elem_of).
  assert (Hhead : forall q, head b = Some q -> q ∈ b) by (intros q; destruct b; [done|intros [= ->]; left]). split.
  - split; [apply NoDup_app; auto|done|]. intros a1 p b1 E. rewrite Hq. unfold unlinked. destruct (CList.app_split_mid a b a1 b1 p E) as [(a2 & -> & ->)|(b2 & -> & ->)].
    + assert (Hp : p ∈ a1 ++ p :: a2) by (apply elem_of_app; right; left). rewrite decide_False by (intros ->; apply (Hab n Hp); left).
      rewrite (Hc a1 p (a2 ++ n :: b)) by (by rewrite <- app_assoc). cbn. f_equal. f_equal.
      * rewrite decide_False; [done|]. intros ?%Hhead. by apply (Hdis p).
      * destruct a2 as [|y a2]; cbn; [by rewrite last_snoc, decide_True|]. rewrite decide_False; [done|].
        rewrite last_app_cons, last_cons_cons. intros E'%last_Some_elem_of. apply NoDup_app in Hna as (_ & _ & Hna). by apply NoDup_cons in Hna as [? _].
    + assert (Hp : p ∈ b2 ++ p :: b1) by (apply elem_of_app; right; left). rewrite decide_False by (by intros ->).
      rewrite (Hc (a ++ n :: b2) p b1) by (by rewrite <- app_assoc). cbn. f_equal. f_equal.
      * destruct b2 as [|y b2]; cbn; [by rewrite app_nil_r, decide_True|]. rewrite decide_False.
        2: { intros [= ->]. cbn in Hnb. apply NoDup_cons in Hnb as [Hnb _]. apply Hnb, elem_of_app. right. left. }
        by rewrite !last_app_cons, last_cons_cons.
      * rewrite decide_False; [done|]. intros Ha%Hlast. by apply (Hdis p).
  - intros q Hqn Hne. rewrite Hq. unfold unlinked. rewrite decide_False by done.
    destruct (c !! q) as [[]|]; [cbn|done]. by rewrite !decide_False by (intros E; apply Hqn, elem_of_app; auto).
Qed.

Lemma remove_dl a b l c n : dl (a ++ n :: b) l c ->
  exists l' c', list_remove l n c = Some (l', c') /\ dl (a ++ b) l' c' /\ touches (a ++ b) n c c' /\ is_Some (c' !! n).
Proof.
  intros H. pose proof (dl_nodup _ _ _ H) as Hnd. destruct (CList.last_not_self a b n Hnd) as [Hla Hhb].
  pose proof (dl_node _ _ _ H a n b eq_refl) as Hnn. rewrite (dl_list _ _ _ H). unfold list_remove. rewrite Hnn. cbn [mbind option_bind prev next head_ tail_].
  assert (Hin : forall q, last a = Some q \/ head b = Some q -> is_Some (c !! q)).
  { intros q Hq. apply (dl_in _ _ _ _ H), elem_of_app. destruct Hq as [?%last_Some_elem_of|Hq]; [by left|right; right]. destruct b; [done|]. injection Hq as ->. left. }
  destruct (at_opt_ok (last a) (set_next (head b)) c) as (c1 & -> & Hd1 & H1); [auto|]. cbn [mbind option_bind].
  destruct (at_opt_ok (head b) (set_prev (last a)) c1) as (c2 & -> & Hd2 & H2).
  { intros q Hq. rewrite H1. destruct (Hin q (or_intror Hq)) as [x ->]. case_decide; cbn; eauto. }
  cbn [mbind option_bind]. destruct (at_ok n (fun _ => mkNode None None) c2) as (c3 & -> & Hd3 & H3).
  { rewrite H2, H1, !decide_False by done. eauto. }
  cbn [mbind option_bind]. eexists _, c3. split; [done|]. destruct (unlink_rep a b n c c3 Hnd) as [Hl Hf].
  - apply H.
  - intros q. rewrite H3, H2, H1. unfold unlinked. destruct (decide (q = n)) as [->|]; [by rewrite !decide_False, Hnn by done|].
    destruct (c !! q) as [[]|]; repeat case_decide; cbn; repeat case_decide; simplify_eq; done.
  - split_and!; [|split; [congruence|done]|].
    + assert (Eh : (if decide (head (a ++ n :: b) = Some n) then head b else head (a ++ n :: b)) = head (a ++ b)).
      { destruct a as [|y a]; cbn; [by rewrite decide_True|]. rewrite decide_False; [done|]. intros [= ->]. apply NoDup_cons in Hnd as [Hnd _]. apply Hnd, elem_of_app. right. left. }
      assert (Et : (if decide (last (a ++ n :: b) = Some n) then last a else last (a ++ n :: b)) = last (a ++ b)).
      { rewrite last_app_cons. destruct b as [|y b]; [by rewrite decide_True, app_nil_r|]. rewrite last_cons_cons. rewrite decide_False; [by rewrite last_app_cons|].
        intros E%last_Some_elem_of. apply NoDup_app in Hnd as (_ & _ & Hnd). by apply NoDup_cons in Hnd as [? _]. }
      rewrite <- Eh, <- Et in Hl. revert Hl. by repeat case_decide.
    + rewrite H3, decide_True, H2, H1, !decide_False, Hnn by done. eauto.
Qed.

(** The elements in front of the place of a new one, and those behind it. *)
Fixpoint split_while (f : nat -> bool) (xs : list nat) : list nat * list nat :=
  match xs with
  | x :: xs' => if f x then let '(a, b) := split_while f xs' in (x :: a, b) else ([], xs)
  | [] => ([], [])
  end.

Lemma split_while_app f xs : let '(a, b) := split_while f xs in xs = a ++ b.
Proof. induction xs as [|x xs IH]; cbn; [done|]. destruct (f x); [|done]. destruct (split_while f xs). by subst. Qed.

Lemma find_place_spec before c l b : forall a fuel, dl (a ++ b) l c -> (length b <= fuel)%nat ->
  find_place fuel before (head b) (last a) c =
    let '(b1, b2) := split_while before b in Some (head b2, last (a ++ b1)).
Proof.
  induction b as [|x b IH]; intros a fuel H Hf; [destruct fuel; cbn; by rewrite app_nil_r|]. cbn in Hf. destruct fuel as [|fuel]; [lia|].
  cbn [head find_place split_while]. destruct (before x); [|by rewrite app_nil_r]. rewrite (dl_node _ _ _ H a x b eq_refl). cbn [mbind option_bind next].
  replace (Some x) with (last (a ++ [x])) by apply last_snoc. rewrite IH; [|by rewrite <- app_assoc|lia]. destruct (split_while before b). by rewrite <- app_assoc.
Qed.

Lemma dl_size xs l c : dl xs l c -> (length xs <= size c)%nat.
Proof.
  intros H. rewrite <- (size_list_to_set (C := gset nat)) by apply H. rewrite <- size_dom. apply subseteq_size.
  intros p Hp%elem_of_list_to_set. apply elem_of_dom. by eapply dl_in.
Qed.

Lemma insert_sorted_dl before xs l c n : dl xs l c -> n ∉ xs -> is_Some (c !! n) ->
  exists l' c' a b, split_while before xs = (a, b) /\
    list_insert_sorted before l n c = Some (l', c') /\ dl (a ++ n :: b) l' c' /\ touches xs n c c'.
Proof.
  intros H Hn Hin. pose proof (split_while_app before xs) as Hs. pose proof (find_place_spec before c l xs [] (size c) H (dl_size _ _ _ H)) as Hf.
  destruct (split_while before xs) as [a b] eqn:E. unfold list_insert_sorted. pose proof (dl_list _ _ _ H) as El. subst l. cbn [head_]. cbn [app last] in Hf.
  destruct xs as [|x xs]; cbn [head].
  - destruct (at_ok n (fun _ => mkNode None None) c Hin) as (c1 & -> & Hd1 & H1). cbn [mbind option_bind]. cbn in E. injection E as <- <-.
    eexists _, c1, [], []. split; [done|]. split; [done|]. split.
    + split; [apply NoDup_singleton|done|]. intros [|y a] p b Ex; cbn in Ex; [|by destruct a]. injection Ex as <- <-. rewrite H1, decide_True by done. by destruct Hin as [y ->].
    + split; [done|]. intros q _ Hq. by rewrite H1, decide_False.
  - cbn [head] in Hf. rewrite Hf. cbn [mbind option_bind]. destruct b as [|y b]; cbn [head].
    + rewrite app_nil_r in Hs. subst a. destruct (insert_tail_dl _ _ _ n H Hn Hin) as (l' & c' & E' & Hd & Ht). exists l', c', (x :: xs), []. split_and!; [done|exact E'|exact Hd|exact Ht].
    + destruct a as [|z a _] using rev_ind; cbn [last app].
      * cbn in Hs. destruct (insert_head_dl _ _ _ n H Hn Hin) as (l' & c' & E' & Hd & Ht). exists l', c', [], (y :: b). rewrite Hs in Hd. split_and!; [done|exact E'|exact Hd|exact Ht].
      * rewrite last_snoc. rewrite <- app_assoc in Hs. cbn [app] in Hs. 
        rewrite Hs in H, Hn. destruct (insert_after_dl a (y :: b) z _ c n H Hn Hin) as (l' & c' & E' & Hd & Ht). exists l', c', (a ++ [z]), (y :: b). rewrite <- app_assoc. cbn [app].
        rewrite <- Hs in E', Ht. split_and!; [done|exact E'|exact Hd|exact Ht].
Qed.
End DList.
