(* ===== verification/Cfq.v ===== *)
(** * The control frame queue

    Model of [ssl/quic/quic_cfq.c].  Items are kept in a heap by address; their
    [prev] and [next] fields are the store of links of [DList].  An allocation is
    an input: the address of the new item, or [None] when it fails.  The callbacks
    that free the buffer of a frame only append to a log.  A failed [assert] and an
    access to memory that is not allocated are undefined. *)
From Stdlib Require Import ZArith Lia.
From stdpp Require Import base tactics option gmap sorting.
From S2P Require Import Prelude DList.
#[local] Open Scope Z_scope.
Import DList.

Module Cfq.

Definition QUIC_CFQ_STATE_NEW : Z := 0.
Definition QUIC_CFQ_STATE_TX : Z := 1.
Definition QUIC_CFQ_ITEM_FLAG_UNRELIABLE : Z := 1.
Definition UINT32_MAX : Z := 4294967295.

(** The buffer of a frame is its address and its bytes; [free_cb] stands for the
    callback and its argument. *)
Record QUIC_CFQ_ITEM_EX := mkItem {
  pkt_prev : option nat; pkt_next : option nat;
  encoded : option (nat * list Z); free_cb : option nat; frame_type : Z; encoded_len : Z;
  priority : Z; pn_space : Z; flags : Z; state : Z
}.

Definition set_pkt_links (a b : option nat) (x : QUIC_CFQ_ITEM_EX) : QUIC_CFQ_ITEM_EX :=
  mkItem a b (encoded x) (free_cb x) (frame_type x) (encoded_len x) (priority x) (pn_space x) (flags x) (state x).
Definition set_state (v : Z) (x : QUIC_CFQ_ITEM_EX) : QUIC_CFQ_ITEM_EX :=
  mkItem (pkt_prev x) (pkt_next x) (encoded x) (free_cb x) (frame_type x) (encoded_len x) (priority x) (pn_space x) (flags x) v.
Definition set_priority (v : Z) (x : QUIC_CFQ_ITEM_EX) : QUIC_CFQ_ITEM_EX :=
  mkItem (pkt_prev x) (pkt_next x) (encoded x) (free_cb x) (frame_type x) (encoded_len x) v (pn_space x) (flags x) (state x).
Definition set_buffer (b : option (nat * list Z)) (n : Z) (cb : option nat) (x : QUIC_CFQ_ITEM_EX) : QUIC_CFQ_ITEM_EX :=
  mkItem (pkt_prev x) (pkt_next x) b cb (frame_type x) n (priority x) (pn_space x) (flags x) (state x).

(** A call [free_cb(encoded, encoded_len, free_cb_arg)]. *)
Record freed := mkFreed { f_cb : nat; f_buf : option (nat * list Z); f_len : Z }.

Record QUIC_CFQ := mkCfq {
  items : gmap nat QUIC_CFQ_ITEM_EX; links : store;
  new_list : dlist; tx_list : dlist; free_list : dlist; frees : list freed
}.

Inductive which := NEW | TX | FREE.
Definition sel (w : which) (c : QUIC_CFQ) : dlist := match w with NEW => new_list c | TX => tx_list c | FREE => free_list c end.
Definition set_list (w : which) (l : dlist) (k : store) (c : QUIC_CFQ) : QUIC_CFQ :=
  match w with
  | NEW => mkCfq (items c) k l (tx_list c) (free_list c) (frees c)
  | TX => mkCfq (items c) k (new_list c) l (free_list c) (frees c)
  | FREE => mkCfq (items c) k (new_list c) (tx_list c) l (frees c)
  end.
Definition set_items (m : gmap nat QUIC_CFQ_ITEM_EX) (c : QUIC_CFQ) : QUIC_CFQ :=
  mkCfq m (links c) (new_list c) (tx_list c) (free_list c) (frees c).

(** [ex->...], and assignments to the fields of an item. *)
Definition item (p : nat) : M QUIC_CFQ QUIC_CFQ_ITEM_EX := fun c => match items c !! p with Some x => (Ret x, c) | None => (Undef, c) end.
Definition upd_item (p : nat) (f : QUIC_CFQ_ITEM_EX -> QUIC_CFQ_ITEM_EX) : M QUIC_CFQ unit :=
  x ← item p; modify (fun c => set_items (<[p := f x]> (items c)) c).
Definition call_free (e : freed) : M QUIC_CFQ unit :=
  modify (fun c => mkCfq (items c) (links c) (new_list c) (tx_list c) (free_list c) (frees c ++ [e])).

Definition on_list (w : which) (f : dlist -> store -> option (dlist * store)) : M QUIC_CFQ unit := fun c =>
  match f (sel w c) (links c) with
  | Some (l, k) => (Ret tt, set_list w l k c)
  | None => (Undef, c)
  end.

Definition zero_cfq : QUIC_CFQ := mkCfq ∅ ∅ list_empty list_empty list_empty [].
Definition ossl_quic_cfq_new (alloc : bool) : option QUIC_CFQ := if alloc then Some zero_cfq else None.

Definition ossl_quic_cfq_item_get_frame_type (p : nat) : M QUIC_CFQ Z := x ← item p; mret (frame_type x).
Definition ossl_quic_cfq_item_get_encoded (p : nat) : M QUIC_CFQ (option (nat * list Z)) := x ← item p; mret (encoded x).
Definition ossl_quic_cfq_item_get_encoded_len (p : nat) : M QUIC_CFQ Z := x ← item p; mret (encoded_len x).
Definition ossl_quic_cfq_item_get_state (p : nat) : M QUIC_CFQ Z := x ← item p; mret (state x).
Definition ossl_quic_cfq_item_get_pn_space (p : nat) : M QUIC_CFQ Z := x ← item p; mret (pn_space x).
Definition is_unreliable (x : QUIC_CFQ_ITEM_EX) : bool := negb (Z.land (flags x) QUIC_CFQ_ITEM_FLAG_UNRELIABLE =? 0).
Definition ossl_quic_cfq_item_is_unreliable (p : nat) : M QUIC_CFQ bool := x ← item p; mret (is_unreliable x).

Definition compare (a b : QUIC_CFQ_ITEM_EX) : Z :=
  if pn_space a <? pn_space b then -1
  else if pn_space b <? pn_space a then 1
  else if priority b <? priority a then -1
  else if priority a <? priority b then 1
  else 0.

(** [cmp(p, n) < 0] for the addresses of two items. *)
Definition before (m : gmap nat QUIC_CFQ_ITEM_EX) (n p : nat) : bool :=
  match m !! p, m !! n with Some x, Some y => compare x y <? 0 | _, _ => false end.

Definition insert_new (n : nat) : M QUIC_CFQ unit :=
  c ← get; on_list NEW (fun l k => list_insert_sorted (before (items c) n) l n k).

Definition clear_item (p : nat) : M QUIC_CFQ unit :=
  x ← item p;
  (match free_cb x with
   | Some cb => call_free (mkFreed cb (encoded x) (encoded_len x));; upd_item p (set_buffer None 0 None)
   | None => mret tt
   end);;
  upd_item p (set_state (-1)).

(** The loop of [free_list_items] from [p] on. *)
Fixpoint free_items (fuel : nat) (p : option nat) : M QUIC_CFQ unit :=
  match p with
  | None => mret tt
  | Some q =>
      match fuel with
      | O => undefined
      | S fuel =>
          c ← get;
          match links c !! q with
          | None => undefined
          | Some x =>
              clear_item q;;
              modify (fun c => mkCfq (delete q (items c)) (delete q (links c)) (new_list c) (tx_list c) (free_list c) (frees c));;
              free_items fuel (next x)
          end
      end
  end.
Definition free_list_items (w : which) : M QUIC_CFQ unit := c ← get; free_items (size (links c)) (head_ (sel w c)).

Definition ossl_quic_cfq_free : M QUIC_CFQ unit := free_list_items NEW;; free_list_items TX;; free_list_items FREE.

Definition blank_item : QUIC_CFQ_ITEM_EX := mkItem None None None None 0 0 0 0 0 0.

Definition cfq_get_free (mem : option nat) : M QUIC_CFQ nat :=
  c ← get;
  match head_ (free_list c) with
  | Some p => mret p
  | None =>
      match mem with
      | None => fail
      | Some p =>
          modify (fun c => mkCfq (<[p := set_state (-1) blank_item]> (items c)) (<[p := mkNode None None]> (links c))
                             (new_list c) (tx_list c) (free_list c) (frees c));;
          on_list FREE (fun l => list_insert_tail l p);;
          mret p
      end
  end.

Definition ossl_quic_cfq_add_frame (mem : option nat) (prio pns ftype fl : Z) (enc : option (nat * list Z)) (enc_len : Z)
    (cb : option nat) : M QUIC_CFQ nat :=
  p ← cfq_get_free mem;
  upd_item p (fun x => mkItem (pkt_prev x) (pkt_next x) enc cb ftype enc_len prio pns fl QUIC_CFQ_STATE_NEW);;
  on_list FREE (fun l => list_remove l p);;
  insert_new p;;
  mret p.

Definition ossl_quic_cfq_mark_tx (p : nat) : M QUIC_CFQ unit :=
  x ← item p;
  if state x =? QUIC_CFQ_STATE_NEW then
    on_list NEW (fun l => list_remove l p);;
    on_list TX (fun l => list_insert_tail l p);;
    upd_item p (set_state QUIC_CFQ_STATE_TX)
  else if state x =? QUIC_CFQ_STATE_TX then mret tt
  else undefined.

Definition ossl_quic_cfq_release (p : nat) : M QUIC_CFQ unit :=
  x ← item p;
  if state x =? QUIC_CFQ_STATE_NEW then
    on_list NEW (fun l => list_remove l p);;
    on_list FREE (fun l => list_insert_tail l p);;
    clear_item p
  else if state x =? QUIC_CFQ_STATE_TX then
    on_list TX (fun l => list_remove l p);;
    on_list FREE (fun l => list_insert_tail l p);;
    clear_item p
  else undefined.

Definition ossl_quic_cfq_mark_lost (p : nat) (prio : Z) : M QUIC_CFQ unit :=
  u ← ossl_quic_cfq_item_is_unreliable p;
  if u : bool then ossl_quic_cfq_release p
  else
    x ← item p;
    if state x =? QUIC_CFQ_STATE_NEW then
      if negb (prio =? UINT32_MAX) && negb (prio =? priority x) then
        on_list NEW (fun l => list_remove l p);;
        upd_item p (set_priority prio);;
        insert_new p
      else mret tt
    else if state x =? QUIC_CFQ_STATE_TX then
      (if negb (prio =? UINT32_MAX) then upd_item p (set_priority prio) else mret tt);;
      on_list TX (fun l => list_remove l p);;
      insert_new p;;
      upd_item p (set_state QUIC_CFQ_STATE_NEW)
    else undefined.

(** The loop over the list from [p] on. *)
Fixpoint next_in_space (fuel : nat) (pns : Z) (p : option nat) (c : QUIC_CFQ) : res (option nat) :=
  match p with
  | None => Ret None
  | Some q =>
      match items c !! q, links c !! q with
      | Some x, Some k =>
          if pn_space x =? pns then Ret (Some q)
          else match fuel with O => Undef | S fuel => next_in_space fuel pns (next k) c end
      | _, _ => Undef
      end
  end.

Definition ossl_quic_cfq_get_priority_head (pns : Z) (c : QUIC_CFQ) : res (option nat) :=
  next_in_space (size (links c)) pns (head_ (new_list c)) c.

Definition ossl_quic_cfq_item_get_priority_next (p : option nat) (pns : Z) (c : QUIC_CFQ) : res (option nat) :=
  match p with
  | None => Ret None
  | Some q => match links c !! q with Some k => next_in_space (size (links c)) pns (next k) c | None => Undef end
  end.
End Cfq.
