(* ===== verification/CfqSpec.v ===== *)
(** * What the control frame queue promises

    Every item is in the list its state names, the frames that wait are in the order
    of their spaces and priorities, and each buffer handed to the queue is freed
    exactly once. *)
From Stdlib Require Import ZArith Lia.
From stdpp Require Import base tactics option gmap sorting.
From S2P Require Import Prelude DList Cfq.
#[local] Open Scope Z_scope.
Import DList Cfq.

Module CfqSpec.

#[global] Instance which_eq : EqDecision which.
Proof. solve_decision. Defined.

(** The elements of the three lists. *)
Abbreviation lists := (which -> list nat).
Definition put (w : which) (xs : list nat) (L : lists) : lists := fun w' => if decide (w' = w) then xs else L w'.

Record linked (L : lists) (c : QUIC_CFQ) : Prop := {
  lk_dl w : dl (L w) (sel w c) (links c);
  lk_one w w' p : p ∈ L w -> p ∈ L w' -> w = w'
}.

Lemma sel_set w w' l k c : sel w' (set_list w l k c) = if decide (w' = w) then l else sel w' c.
Proof. by destruct w, w'. Qed.
Lemma put_same w xs L : put w xs L w = xs.
Proof. unfold put. by rewrite decide_True. Qed.
Lemma put_other w w' xs L : w' <> w -> put w xs L w' = L w'.
Proof. intros. unfold put. by rewrite decide_False. Qed.

(** What a change of the lists leaves alone. *)
Definition same_items (c c' : QUIC_CFQ) : Prop := items c' = items c /\ frees c' = frees c /\ dom (links c') = dom (links c).

Lemma set_list_same w l k c : dom k = dom (links c) -> same_items c (set_list w l k c).
Proof. by destruct w. Qed.

(** An operation on one list keeps the others. *)
Lemma linked_put L c w l k n xs : linked L c -> dl xs l k -> touches (L w) n (links c) k -> (forall w', w' <> w -> n ∉ L w') ->
  (forall p, p ∈ xs -> p ∈ L w \/ p = n) -> linked (put w xs L) (set_list w l k c).
Proof.
  intros [Hd Ho] Hxs [_ Ht] Hn Hsub. assert (El : links (set_list w l k c) = k) by (by destruct w). split.
  - intros w'. rewrite sel_set, El. destruct (decide (w' = w)) as [->|Hw]; [by rewrite put_same|]. rewrite put_other by done.
    eapply dl_frame; [apply Hd|]. intros q Hq. apply Ht; [|by intros ->; apply (Hn w' Hw)]. intros Hq'. apply Hw. by apply (Ho w' w q).
  - assert (H : forall w1 p, w1 <> w -> p ∈ xs -> p ∉ L w1). { intros w1 p Hw [Hp| ->]%Hsub Hp1; [apply Hw; by apply (Ho w1 w p)|by apply (Hn w1)]. }
    intros w1 w2 p. unfold put. repeat case_decide; subst; try done.
    + intros Hx Hp. by destruct (H w2 p).
    + intros Hp Hx. by destruct (H w1 p).
    + apply Ho.
Qed.

Lemma remove_run L c w a p b : linked L c -> L w = a ++ p :: b ->
  exists c', on_list w (fun l => list_remove l p) c = (Ret tt, c') /\ linked (put w (a ++ b) L) c' /\ same_items c c' /\ is_Some (links c' !! p).
Proof.
  intros Hl E. pose proof (lk_dl _ _ Hl w) as Hd. rewrite E in Hd. destruct (remove_dl _ _ _ _ _ Hd) as (l' & k & El & Hd' & [Hdom Ht] & Hp).
  unfold on_list. rewrite El. eexists. split; [done|]. split; [|split; [by apply set_list_same|by destruct w]].
  eapply (linked_put _ _ _ _ _ p); try done.
  - split; [done|]. intros q Hq. rewrite E in Hq. apply Ht. rewrite elem_of_app, elem_of_cons in *. tauto.
  - intros w' Hw Hp'. apply Hw. apply (lk_one _ _ Hl _ _ p Hp'). rewrite E. apply elem_of_app. right. left.
  - intros q Hq. left. rewrite E. rewrite elem_of_app, elem_of_cons in *. tauto.
Qed.

Lemma insert_tail_run L c w p : linked L c -> (forall w', p ∉ L w') -> is_Some (links c !! p) ->
  exists c', on_list w (fun l => list_insert_tail l p) c = (Ret tt, c') /\ linked (put w (L w ++ [p]) L) c' /\ same_items c c'.
Proof.
  intros Hl Hn Hp. destruct (insert_tail_dl _ _ _ p (lk_dl _ _ Hl w) (Hn w) Hp) as (l' & k & El & Hd' & Ht).
  unfold on_list. rewrite El. eexists. split; [done|]. split; [|apply set_list_same, Ht].
  eapply (linked_put _ _ _ _ _ p); try done. intros q Hq. rewrite elem_of_app, list_elem_of_singleton in Hq. tauto.
Qed.

Lemma insert_new_run L c p : linked L c -> (forall w', p ∉ L w') -> is_Some (links c !! p) ->
  exists c' a b, split_while (before (items c) p) (L NEW) = (a, b) /\
    insert_new p c = (Ret tt, c') /\ linked (put NEW (a ++ p :: b) L) c' /\ same_items c c'.
Proof.
  intros Hl Hn Hp. destruct (insert_sorted_dl (before (items c) p) _ _ _ p (lk_dl _ _ Hl NEW) (Hn NEW) Hp) as (l' & k & a & b & Es & El & Hd' & Ht).
  unfold insert_new. rewrite (bind_ret get _ c c c) by done. unfold on_list. cbn [sel] in *. rewrite El. eexists _, a, b. split; [done|]. split; [done|]. split; [|apply set_list_same, Ht].
  pose proof (split_while_app (before (items c) p) (L NEW)) as Ha. rewrite Es in Ha.
  eapply (linked_put _ _ _ _ _ p); try done. intros q Hq. rewrite Ha. rewrite elem_of_app, elem_of_cons in *. tauto.
Qed.

(** ** The invariant *)

Definition code (w : which) : Z := match w with NEW => QUIC_CFQ_STATE_NEW | TX => QUIC_CFQ_STATE_TX | FREE => -1 end.

(** [x] may come before [y] in the list of frames that wait. *)
Definition precedes (x y : QUIC_CFQ_ITEM_EX) : Prop := pn_space x < pn_space y \/ pn_space x = pn_space y /\ priority y <= priority x.
Definition ordered (m : gmap nat QUIC_CFQ_ITEM_EX) (p q : nat) : Prop :=
  forall x y, m !! p = Some x -> m !! q = Some y -> precedes x y.

Record cfq_ok (L : lists) (c : QUIC_CFQ) : Prop := {
  ok_linked : linked L c;
  ok_dom : dom (links c) = dom (items c);
  ok_in p : is_Some (items c !! p) <-> exists w, p ∈ L w;
  ok_state w p x : p ∈ L w -> items c !! p = Some x -> state x = code w;
  ok_sorted : StronglySorted (ordered (items c)) (L NEW);
  ok_clear p x : p ∈ L FREE -> items c !! p = Some x -> free_cb x = None
}.

Lemma compare_lt x y : (compare x y <? 0) = true -> precedes x y.
Proof. unfold compare, precedes. repeat case_match; rewrite ?Z.ltb_lt, ?Z.ltb_ge in *; try done; lia. Qed.
Lemma compare_ge x y : (compare x y <? 0) = false -> precedes y x.
Proof. unfold compare, precedes. repeat case_match; rewrite ?Z.ltb_lt, ?Z.ltb_ge in *; try done; lia. Qed.

Lemma sorted_app (R : relation nat) a b : StronglySorted R (a ++ b) <->
  StronglySorted R a /\ StronglySorted R b /\ forall x y, x ∈ a -> y ∈ b -> R x y.
Proof.
  induction a as [|z a IH]; cbn.
  - split; [intros; split_and!; [constructor|done|set_solver]|tauto].
  - split.
    + intros [Hs Hf]%StronglySorted_inv. apply IH in Hs as (H1 & H2 & H3). rewrite Forall_forall in Hf. split_and!; [constructor; [done|]|done|].
      * apply Forall_forall. intros x Hx. apply Hf, elem_of_app. by left.
      * intros x y [->|Hx]%elem_of_cons Hy; [apply Hf, elem_of_app; by right|auto].
    + intros ([H1 Hf]%StronglySorted_inv & H2 & H3). constructor; [apply IH; split_and!; try done|].
      * intros x y Hx. apply H3. by right.
      * apply Forall_app. split; [done|]. apply Forall_forall. intros y Hy. apply H3; [left|done].
Qed.

Lemma sorted_remove (R : relation nat) a p b : StronglySorted R (a ++ p :: b) -> StronglySorted R (a ++ b).
Proof.
  intros (H1 & [H2 _]%StronglySorted_inv & H3)%sorted_app. apply sorted_app. split_and!; try done. intros x y Hx Hy. apply H3; [done|by right].
Qed.

Lemma sorted_insert m xs a b n : StronglySorted (ordered m) xs -> split_while (before m n) xs = (a, b) -> (forall p, p ∈ xs -> is_Some (m !! p)) ->
  is_Some (m !! n) -> StronglySorted (ordered m) (a ++ n :: b).
Proof.
  intros Hs Hsp Hin [y Hy]. revert a b Hsp. induction xs as [|p xs IH]; cbn; intros a b Hsp; [injection Hsp as <- <-; repeat constructor|].
  apply StronglySorted_inv in Hs as [Hs Hf]. destruct (Hin p) as [x Hx]; [left|].
  assert (Hb : before m n p = (compare x y <? 0)) by (unfold before; by rewrite Hx, Hy).
  destruct (before m n p) eqn:E.
  - destruct (split_while (before m n) xs) as [a' b'] eqn:Es. injection Hsp as <- <-. cbn. pose proof (split_while_app (before m n) xs) as Ha. rewrite Es in Ha.
    constructor; [apply IH; try done; intros; apply Hin; by right|]. rewrite Ha in Hf. apply Forall_app in Hf as [H1 H2]. apply Forall_app. split; [done|]. constructor; [|done].
    intros x1 y1 Hx1 Hy1. simplify_eq. by apply compare_lt.
  - injection Hsp as <- <-. cbn. assert (Hnp : ordered m n p) by (intros y1 x1 Hy1 Hx1; simplify_eq; by apply compare_ge).
    constructor; [by constructor|]. constructor; [done|]. apply Forall_forall. intros q Hq. rewrite Forall_forall in Hf. specialize (Hf q Hq).
    intros y1 z Hy1 Hz. specialize (Hnp y x Hy Hx). specialize (Hf x z Hx Hz). simplify_eq. unfold precedes in *. lia.
Qed.

(** The order depends on spaces and priorities only. *)
Lemma sorted_keys m m' xs : (forall p x', p ∈ xs -> m' !! p = Some x' -> exists x, m !! p = Some x /\ pn_space x' = pn_space x /\ priority x' = priority x) ->
  StronglySorted (ordered m) xs -> StronglySorted (ordered m') xs.
Proof.
  intros Hk Hs. induction Hs as [|p xs Hs IH Hf]; constructor.
  - apply IH. intros q x' Hq. apply Hk. by right.
  - rewrite Forall_forall in *. intros q Hq x' y' Hx Hy. destruct (Hk p x') as (x & Hx' & E1 & E2); [left|done|].
    destruct (Hk q y') as (y & Hy' & E3 & E4); [by right|done|]. specialize (Hf q Hq x y Hx' Hy'). unfold precedes in *. by rewrite E1, E2, E3, E4.
Qed.

(** ** The operations *)

(** The state after an operation that moves [p] to the list [w] and gives it the
    fields [x']. *)
Lemma ok_move L c L' c' p w x' : cfq_ok L c -> (exists w0, p ∈ L w0) -> linked L' c' -> dom (links c') = dom (links c) -> items c' = <[p := x']> (items c) ->
  (forall w' q, q <> p -> q ∈ L' w' <-> q ∈ L w') -> p ∈ L' w -> state x' = code w -> (w = FREE -> free_cb x' = None) ->
  StronglySorted (ordered (items c')) (L' NEW) -> cfq_ok L' c'.
Proof.
  intros Hok Hp Hl Hd Hi Hq Hw Hs Hf Hsort. apply (ok_in _ _ Hok) in Hp as Hpi. split; [done| | | |done|].
  - rewrite Hd, (ok_dom _ _ Hok), Hi. symmetry. by apply dom_insert_lookup_L.
  - intros q. rewrite Hi. destruct (decide (q = p)) as [->|Hne].
    + rewrite lookup_insert_eq. split; eauto.
    + rewrite lookup_insert_ne by done. rewrite (ok_in _ _ Hok). by setoid_rewrite (Hq _ q Hne).
  - intros w' q x Hin Hx. rewrite Hi in Hx. destruct (decide (q = p)) as [->|Hne].
    + rewrite lookup_insert_eq in Hx. injection Hx as <-. by rewrite (lk_one _ _ Hl w' w p Hin Hw).
    + rewrite lookup_insert_ne in Hx by done. apply (ok_state _ _ Hok w' q x); [by apply Hq|done].
  - intros q x Hin Hx. rewrite Hi in Hx. destruct (decide (q = p)) as [->|Hne].
    + rewrite lookup_insert_eq in Hx. injection Hx as <-. apply Hf. apply (lk_one _ _ Hl w FREE p Hw Hin).
    + rewrite lookup_insert_ne in Hx by done. apply (ok_clear _ _ Hok q x); [by apply Hq|done].
Qed.

(** Moving an element from one list to the end of another. *)
Lemma put_moved L w1 w2 a p b q w : L w1 = a ++ p :: b -> w1 <> w2 -> q <> p ->
  q ∈ put w2 (L w2 ++ [p]) (put w1 (a ++ b) L) w <-> q ∈ L w.
Proof.
  intros E Hw Hq. unfold put. destruct (decide (w = w2)) as [->|]; [rewrite elem_of_app, list_elem_of_singleton; tauto|].
  destruct (decide (w = w1)) as [->|]; [|done]. rewrite E, !elem_of_app, elem_of_cons. tauto.
Qed.

Lemma not_left L c w a p b : linked L c -> L w = a ++ p :: b -> forall w', p ∉ put w (a ++ b) L w'.
Proof.
  intros Hl E w' Hp. assert (Hw : p ∈ L w) by (rewrite E; apply elem_of_app; right; left). unfold put in Hp. destruct (decide (w' = w)) as [->|Hne].
  - pose proof (dl_nodup _ _ _ (lk_dl _ _ Hl w)) as Hnd. rewrite E in Hnd. assert (Hperm : a ++ p :: b ≡ₚ p :: a ++ b) by solve_Permutation.
    rewrite Hperm in Hnd. by apply NoDup_cons in Hnd as [? _].
  - apply Hne. by apply (lk_one _ _ Hl w' w p).
Qed.

Lemma item_run p c x : items c !! p = Some x -> item p c = (Ret x, c).
Proof. unfold item. by intros ->. Qed.

Lemma upd_item_run p f c x : items c !! p = Some x -> upd_item p f c = (Ret tt, set_items (<[p := f x]> (items c)) c).
Proof. intros H. unfold upd_item. by rewrite (bind_ret _ _ _ _ _ (item_run _ _ _ H)). Qed.

Lemma linked_same L c c' : linked L c -> links c' = links c -> (forall w, sel w c' = sel w c) -> linked L c'.
Proof. intros [H1 H2] El Es. split; [|done]. intros w. rewrite Es, El. apply H1. Qed.
Lemma linked_items L c m : linked L c -> linked L (set_items m c).
Proof. intros [H1 H2]. by split. Qed.

(** Where an item in use is. *)
Lemma ok_place L c p x : cfq_ok L c -> items c !! p = Some x -> state x <> -1 ->
  exists w a b, L w = a ++ p :: b /\ w <> FREE /\ state x = code w.
Proof.
  intros Hok Hx Hs. destruct (proj1 (ok_in _ _ Hok p)) as [w Hw]; [eauto|]. pose proof (ok_state _ _ Hok w p x Hw Hx) as Hc.
  destruct (list_elem_of_split _ _ Hw) as (a & b & E). exists w, a, b. split_and!; try done. intros ->. by rewrite Hc in Hs.
Qed.

Lemma mark_tx_run L c p x : cfq_ok L c -> items c !! p = Some x -> state x <> -1 ->
  exists c' L', ossl_quic_cfq_mark_tx p c = (Ret tt, c') /\ cfq_ok L' c' /\ items c' = <[p := set_state QUIC_CFQ_STATE_TX x]> (items c) /\ frees c' = frees c /\
    p ∈ L' TX /\ (forall w q, q <> p -> q ∈ L' w <-> q ∈ L w).
Proof.
  intros Hok Hx Hs. destruct (ok_place _ _ _ _ Hok Hx Hs) as (w & a & b & E & Hw & Hc). pose proof (ok_linked _ _ Hok) as Hl.
  assert (Hp : p ∈ L w) by (rewrite E; apply elem_of_app; right; left).
  unfold ossl_quic_cfq_mark_tx. rewrite (bind_ret _ _ _ _ _ (item_run _ _ _ Hx)), Hc. destruct w; cbn [code Z.eqb Pos.eqb QUIC_CFQ_STATE_NEW QUIC_CFQ_STATE_TX]; [| |done].
  - destruct (remove_run L c NEW a p b Hl E) as (c1 & E1 & Hl1 & (Hi1 & Hf1 & Hd1) & Hp1). rewrite (bind_ret _ _ _ _ _ E1).
    destruct (insert_tail_run _ c1 TX p Hl1 (not_left _ _ _ _ _ _ Hl E) Hp1) as (c2 & E2 & Hl2 & (Hi2 & Hf2 & Hd2)). rewrite (bind_ret _ _ _ _ _ E2).
    assert (Hx2 : items c2 !! p = Some x) by (by rewrite Hi2, Hi1). rewrite (upd_item_run _ _ _ _ Hx2).
    rewrite put_other in Hl2 by done. eexists _, (put TX (L TX ++ [p]) (put NEW (a ++ b) L)). split; [done|].
    assert (HpT : p ∈ put TX (L TX ++ [p]) (put NEW (a ++ b) L) TX) by (rewrite put_same; apply elem_of_app; right; left).
    split_and!; try done; [|cbn; congruence|cbn; congruence|intros w q Hq; by apply put_moved].
    eapply (ok_move L c _ _ p TX (set_state QUIC_CFQ_STATE_TX x)); try done; [by eauto|by apply linked_items|cbn; congruence|cbn; congruence|intros w q Hq; by apply put_moved|].
    rewrite put_other, put_same by done. cbn [items set_items]. rewrite Hi2, Hi1. pose proof (ok_sorted _ _ Hok) as Hsort. rewrite E in Hsort. apply sorted_remove in Hsort.
    eapply sorted_keys; [|exact Hsort]. intros q y' Hq Hy'. rewrite lookup_insert_ne in Hy'; [eauto|]. intros ->. by apply (not_left _ _ _ _ _ _ Hl E NEW); rewrite put_same.
  - exists c, L. rewrite insert_id; [done|]. rewrite Hx. f_equal. change QUIC_CFQ_STATE_TX with (code TX). rewrite <- Hc. by destruct x.
Qed.

(** The item after [clear_item], and the call that frees its buffer. *)
Definition cleared (x : QUIC_CFQ_ITEM_EX) : QUIC_CFQ_ITEM_EX :=
  set_state (-1) (match free_cb x with Some _ => set_buffer None 0 None x | None => x end).
Definition freeing (x : QUIC_CFQ_ITEM_EX) : list freed :=
  match free_cb x with Some cb => [mkFreed cb (encoded x) (encoded_len x)] | None => [] end.

Lemma clear_run p c x : items c !! p = Some x ->
  clear_item p c = (Ret tt, mkCfq (<[p := cleared x]> (items c)) (links c) (new_list c) (tx_list c) (free_list c) (frees c ++ freeing x)).
Proof.
  intros Hx. unfold clear_item, cleared, freeing. rewrite (bind_ret _ _ _ _ _ (item_run _ _ _ Hx)). destruct (free_cb x) as [cb|].
  - erewrite bind_ret.
    2: { unfold call_free. rewrite (bind_ret (modify _) _ c tt (mkCfq (items c) (links c) (new_list c) (tx_list c) (free_list c) (frees c ++ [mkFreed cb (encoded x) (encoded_len x)]))) by done.
         apply upd_item_run. exact Hx. }
    erewrite upd_item_run by apply lookup_insert_eq. cbn. by rewrite insert_insert_eq.
  - rewrite (bind_ret (mret tt) _ c tt c) by done. rewrite (upd_item_run _ _ _ _ Hx). cbn. by rewrite app_nil_r.
Qed.

Lemma sorted_without L c m' a p b : cfq_ok L c -> L NEW = a ++ p :: b -> (forall q, q <> p -> m' !! q = items c !! q) -> StronglySorted (ordered m') (a ++ b).
Proof.
  intros Hok E Hm. pose proof (ok_sorted _ _ Hok) as Hs. rewrite E in Hs. apply sorted_remove in Hs. eapply sorted_keys; [|exact Hs].
  intros q y Hq Hy. rewrite Hm in Hy; [eauto|]. intros ->. apply (not_left _ _ _ _ _ _ (ok_linked _ _ Hok) E NEW). by rewrite put_same.
Qed.

Lemma sorted_other L c m' : cfq_ok L c -> (forall q, q ∈ L NEW -> m' !! q = items c !! q) -> StronglySorted (ordered m') (L NEW).
Proof. intros Hok Hm. eapply sorted_keys; [|apply (ok_sorted _ _ Hok)]. intros q y Hq Hy. rewrite Hm in Hy by done. eauto. Qed.

Lemma cfq_release_run L c p x : cfq_ok L c -> items c !! p = Some x -> state x <> -1 ->
  exists c' L', ossl_quic_cfq_release p c = (Ret tt, c') /\ cfq_ok L' c' /\ items c' = <[p := cleared x]> (items c) /\ frees c' = frees c ++ freeing x /\
    p ∈ L' FREE /\ (forall w q, q <> p -> q ∈ L' w <-> q ∈ L w).
Proof.
  intros Hok Hx Hs. destruct (ok_place _ _ _ _ Hok Hx Hs) as (w & a & b & E & Hw & Hc). pose proof (ok_linked _ _ Hok) as Hl.
  assert (Hp : p ∈ L w) by (rewrite E; apply elem_of_app; right; left).
  destruct (remove_run L c w a p b Hl E) as (c1 & E1 & Hl1 & (Hi1 & Hf1 & Hd1) & Hp1).
  destruct (insert_tail_run _ c1 FREE p Hl1 (not_left _ _ _ _ _ _ Hl E) Hp1) as (c2 & E2 & Hl2 & (Hi2 & Hf2 & Hd2)).
  assert (Hx2 : items c2 !! p = Some x) by (by rewrite Hi2, Hi1). rewrite put_other in Hl2 by done.
  set (L' := put FREE (L FREE ++ [p]) (put w (a ++ b) L)) in *.
  set (c' := mkCfq (<[p := cleared x]> (items c2)) (links c2) (new_list c2) (tx_list c2) (free_list c2) (frees c2 ++ freeing x)).
  assert (HpF : p ∈ L' FREE) by (unfold L'; rewrite put_same; apply elem_of_app; right; left).
  assert (Hmv : forall w' q, q <> p -> q ∈ L' w' <-> q ∈ L w') by (intros w' q Hq; unfold L'; by apply put_moved).
  assert (Hrun : ossl_quic_cfq_release p c = (Ret tt, c')).
  { unfold ossl_quic_cfq_release. rewrite (bind_ret _ _ _ _ _ (item_run _ _ _ Hx)), Hc.
    destruct w; [| |done]; cbn [code Z.eqb Pos.eqb QUIC_CFQ_STATE_NEW QUIC_CFQ_STATE_TX];
      rewrite (bind_ret _ _ _ _ _ E1), (bind_ret _ _ _ _ _ E2); by apply clear_run. }
  exists c', L'. split; [done|]. split_and!; try done; [|cbn; congruence|cbn; congruence].
  eapply (ok_move L c _ _ p FREE (cleared x)); try done; [by eauto|by apply (linked_same _ c2); [..|intros []]|cbn; congruence|cbn; congruence| |].
  - intros _. unfold cleared. destruct x as [? ? ? [cb|]]; done.
  - cbn [items c']. rewrite Hi2, Hi1. unfold L'. rewrite put_other by done. destruct (decide (w = NEW)) as [->|Hnw].
    + rewrite put_same. apply (sorted_without L c _ a p b Hok E). intros q Hq. by rewrite lookup_insert_ne.
    + rewrite put_other by done. apply (sorted_other L c _ Hok). intros q Hq. rewrite lookup_insert_ne; [done|]. intros <-. apply Hnw. by apply (lk_one _ _ Hl _ _ p).
Qed.

(** An element taken out of its list and given the fields [y] is put back among
    those that wait. *)
Lemma reinsert_run L c w a p b y c1 : cfq_ok L c -> L w = a ++ p :: b -> linked (put w (a ++ b) L) c1 -> items c1 = <[p := y]> (items c) ->
  is_Some (links c1 !! p) ->
  exists c2 L', insert_new p c1 = (Ret tt, c2) /\ same_items c1 c2 /\ linked L' c2 /\ p ∈ L' NEW /\
    (forall w' q, q <> p -> q ∈ L' w' <-> q ∈ L w') /\ StronglySorted (ordered (items c1)) (L' NEW).
Proof.
  intros Hok E Hl1 Hi Hp1. pose proof (ok_linked _ _ Hok) as Hl. set (L1 := put w (a ++ b) L) in *.
  assert (Hn : forall w', p ∉ L1 w') by (apply (not_left _ _ _ _ _ _ Hl E)).
  assert (Hmv : forall w' q, q <> p -> q ∈ L1 w' <-> q ∈ L w').
  { intros w' q Hq. unfold L1, put. destruct (decide (w' = w)) as [->|]; [|done]. rewrite E, !elem_of_app, elem_of_cons. tauto. }
  destruct (insert_new_run L1 c1 p Hl1 Hn Hp1) as (c2 & a' & b' & Es & E2 & Hl2 & Hsame). exists c2, (put NEW (a' ++ p :: b') L1).
  pose proof (split_while_app (before (items c1) p) (L1 NEW)) as Ha. rewrite Es in Ha. split_and!; try done.
  - rewrite put_same. apply elem_of_app. right. left.
  - intros w' q Hq. rewrite <- Hmv by done. unfold put at 1. destruct (decide (w' = NEW)) as [->|]; [|done]. rewrite Ha, !elem_of_app, elem_of_cons. tauto.
  - rewrite put_same. eapply sorted_insert; [|exact Es| |rewrite Hi, lookup_insert_eq; eauto].
    + unfold L1. destruct (decide (w = NEW)) as [->|Hw]; [rewrite put_same|rewrite put_other by done].
      * apply (sorted_without L c _ a p b Hok E). intros q Hq. by rewrite Hi, lookup_insert_ne.
      * apply (sorted_other L c _ Hok). intros q Hq. rewrite Hi, lookup_insert_ne; [done|]. intros <-. apply (Hn NEW). unfold L1. by rewrite put_other.
    + intros q Hq. assert (q <> p) by (intros ->; by apply (Hn NEW)). rewrite Hi, lookup_insert_ne by done. apply (ok_in _ _ Hok). exists NEW. by apply Hmv.
Qed.

(** The frame goes back to those that wait. *)
Definition waiting (prio : Z) (x : QUIC_CFQ_ITEM_EX) : QUIC_CFQ_ITEM_EX :=
  set_state QUIC_CFQ_STATE_NEW (if prio =? UINT32_MAX then x else set_priority prio x).

Lemma lost_new L c p x prio : cfq_ok L c -> items c !! p = Some x -> p ∈ L NEW -> is_unreliable x = false ->
  exists c' L', ossl_quic_cfq_mark_lost p prio c = (Ret tt, c') /\ cfq_ok L' c' /\ items c' = <[p := waiting prio x]> (items c) /\ frees c' = frees c /\
    p ∈ L' NEW /\ (forall w q, q <> p -> q ∈ L' w <-> q ∈ L w).
Proof.
  intros Hok Hx Hp Hu. pose proof (ok_state _ _ Hok _ _ _ Hp Hx) as Hs. destruct (list_elem_of_split _ _ Hp) as (a & b & E). pose proof (ok_linked _ _ Hok) as Hl.
  unfold ossl_quic_cfq_mark_lost, ossl_quic_cfq_item_is_unreliable. erewrite bind_ret by (by rewrite (bind_ret _ _ _ _ _ (item_run _ _ _ Hx))). rewrite Hu.
  rewrite (bind_ret _ _ _ _ _ (item_run _ _ _ Hx)), Hs. cbn [code Z.eqb Pos.eqb QUIC_CFQ_STATE_NEW QUIC_CFQ_STATE_TX].
  destruct (negb (prio =? UINT32_MAX) && negb (prio =? priority x)) eqn:Ec.
  - apply andb_true_iff in Ec as [Ep%negb_true_iff _].
    assert (Ew : waiting prio x = set_priority prio x) by (unfold waiting; rewrite Ep; destruct x; cbn in *; by rewrite <- Hs).
    destruct (remove_run L c NEW a p b Hl E) as (c1 & E1 & Hl1 & (Hi1 & Hf1 & Hd1) & Hp1). rewrite (bind_ret _ _ _ _ _ E1).
    assert (Hx1 : items c1 !! p = Some x) by (by rewrite Hi1). rewrite (bind_ret _ _ _ _ _ (upd_item_run _ _ _ _ Hx1)).
    destruct (reinsert_run L c NEW a p b (set_priority prio x) (set_items (<[p := set_priority prio x]> (items c1)) c1) Hok E) as (c2 & L' & E2 & (Hi2 & Hf2 & Hd2) & Hl2 & HpN & Hmv & Hso);
      [by apply linked_items|cbn; by rewrite Hi1|done|].
    exists c2, L'. rewrite E2, Ew. cbn [items set_items frees links] in *. split_and!; try done; [|congruence|congruence].
    eapply (ok_move L c _ _ p NEW (set_priority prio x)); try done; [by eauto|congruence|congruence|by rewrite Hi2].
  - exists c, L. assert (Ew : waiting prio x = x).
    { unfold waiting. apply andb_false_iff in Ec as [->%negb_false_iff|E2%negb_false_iff%Z.eqb_eq]; [|rewrite E2; destruct (_ =? _)]; destruct x; cbn in *; by rewrite Hs. }
    rewrite Ew, insert_id by done. done.
Qed.

Lemma lost_tx L c p x prio : cfq_ok L c -> items c !! p = Some x -> p ∈ L TX -> is_unreliable x = false ->
  exists c' L', ossl_quic_cfq_mark_lost p prio c = (Ret tt, c') /\ cfq_ok L' c' /\ items c' = <[p := waiting prio x]> (items c) /\ frees c' = frees c /\
    p ∈ L' NEW /\ (forall w q, q <> p -> q ∈ L' w <-> q ∈ L w).
Proof.
  intros Hok Hx Hp Hu. pose proof (ok_state _ _ Hok _ _ _ Hp Hx) as Hs. destruct (list_elem_of_split _ _ Hp) as (a & b & E). pose proof (ok_linked _ _ Hok) as Hl.
  unfold ossl_quic_cfq_mark_lost, ossl_quic_cfq_item_is_unreliable. erewrite bind_ret by (by rewrite (bind_ret _ _ _ _ _ (item_run _ _ _ Hx))). rewrite Hu.
  rewrite (bind_ret _ _ _ _ _ (item_run _ _ _ Hx)), Hs. cbn [code Z.eqb Pos.eqb QUIC_CFQ_STATE_NEW QUIC_CFQ_STATE_TX].
  set (y := if prio =? UINT32_MAX then x else set_priority prio x). set (c0 := set_items (<[p := y]> (items c)) c).
  assert (E0 : (if negb (prio =? UINT32_MAX) then upd_item p (set_priority prio) else mret tt) c = (Ret tt, c0)).
  { unfold c0, y. destruct (prio =? UINT32_MAX); cbn [negb]; [rewrite insert_id by done; by destruct c|by apply upd_item_run]. }
  rewrite (bind_ret _ _ _ _ _ E0). destruct (remove_run L c0 TX a p b) as (c1 & E1 & Hl1 & (Hi1 & Hf1 & Hd1) & Hp1); [by apply linked_items|done|].
  rewrite (bind_ret _ _ _ _ _ E1).
  destruct (reinsert_run L c TX a p b y c1 Hok E) as (c2 & L' & E2 & (Hi2 & Hf2 & Hd2) & Hl2 & HpN & Hmv & Hso); [done|by rewrite Hi1|done|].
  rewrite (bind_ret _ _ _ _ _ E2). cbn [items c0 set_items] in Hi1. assert (Hx2 : items c2 !! p = Some y) by (by rewrite Hi2, Hi1, lookup_insert_eq).
  rewrite (upd_item_run _ _ _ _ Hx2). change (set_state QUIC_CFQ_STATE_NEW y) with (waiting prio x).
  assert (Hit : <[p := waiting prio x]> (items c2) = <[p := waiting prio x]> (items c)) by (by rewrite Hi2, Hi1, insert_insert_eq).
  eexists _, L'. split; [done|]. cbn [items set_items frees]. split_and!; try done; [|cbn in Hf1; congruence].
  eapply (ok_move L c _ _ p NEW (waiting prio x)); try done; [by eauto|by apply linked_items|cbn in *; congruence|].
  cbn [items set_items]. eapply sorted_keys; [|exact Hso]. intros q z Hq Hz. rewrite Hi2 in Hz. destruct (decide (q = p)) as [->|Hne].
  - rewrite lookup_insert_eq in Hz. injection Hz as <-. exists y. by rewrite Hi1, lookup_insert_eq.
  - rewrite lookup_insert_ne in Hz by done. eauto.
Qed.

Lemma lost_run L c p x prio : cfq_ok L c -> items c !! p = Some x -> state x <> -1 ->
  exists c' L', ossl_quic_cfq_mark_lost p prio c = (Ret tt, c') /\ cfq_ok L' c' /\
    items c' = <[p := if is_unreliable x then cleared x else waiting prio x]> (items c) /\
    frees c' = frees c ++ (if is_unreliable x then freeing x else []) /\
    p ∈ L' (if is_unreliable x then FREE else NEW) /\ (forall w q, q <> p -> q ∈ L' w <-> q ∈ L w).
Proof.
  intros Hok Hx Hs. destruct (is_unreliable x) eqn:Hu.
  - destruct (cfq_release_run L c p x Hok Hx Hs) as (c' & L' & E & H). exists c', L'. split; [|done].
    unfold ossl_quic_cfq_mark_lost, ossl_quic_cfq_item_is_unreliable. erewrite bind_ret by (by rewrite (bind_ret _ _ _ _ _ (item_run _ _ _ Hx))). by rewrite Hu.
  - rewrite app_nil_r. destruct (ok_place _ _ _ _ Hok Hx Hs) as (w & a & b & E & Hw & _).
    assert (Hp : p ∈ L w) by (rewrite E; apply elem_of_app; right; left). destruct w; [by apply lost_new|by apply lost_tx|done].
Qed.

(** A free item, allocated when there is none. *)
Lemma get_free_run L c mem : cfq_ok L c -> (forall p, mem = Some p -> items c !! p = None) ->
  cfq_get_free mem c = (Err, c) /\ L FREE = [] /\ mem = None \/
  exists p x c1 L1, cfq_get_free mem c = (Ret p, c1) /\ cfq_ok L1 c1 /\ p ∈ L1 FREE /\ items c1 = <[p := x]> (items c) /\ frees c1 = frees c /\
    (items c !! p = Some x \/ items c !! p = None /\ x = set_state (-1) blank_item) /\ (forall w q, q <> p -> q ∈ L1 w <-> q ∈ L w).
Proof.
  intros Hok Hm. pose proof (ok_linked _ _ Hok) as Hl. pose proof (dl_list _ _ _ (lk_dl _ _ Hl FREE)) as El. cbn [sel] in El.
  unfold cfq_get_free. rewrite (bind_ret get _ c c c), El by done. cbn [head_]. destruct (L FREE) as [|p F] eqn:EF; cbn [head].
  - destruct mem as [p|]; [right|by left]. specialize (Hm p eq_refl). assert (Hnl : forall w, p ∉ L w) by (intros w Hw; destruct (proj2 (ok_in _ _ Hok p)) as [y Hy]; [eauto|congruence]).
    set (x := set_state (-1) blank_item). set (c0 := mkCfq (<[p := x]> (items c)) (<[p := mkNode None None]> (links c)) (new_list c) (tx_list c) (mkList None (last (L FREE))) (frees c)).
    assert (Hl0 : linked L c0).
    { split; [|apply Hl]. intros w. assert (Es : sel w c0 = sel w c) by (destruct w; cbn; try done; by rewrite El, EF). rewrite Es. eapply dl_frame; [apply Hl|].
      intros q Hq. cbn. rewrite lookup_insert_ne; [done|]. intros <-. by apply (Hnl w). }
    destruct (insert_tail_run L c0 FREE p Hl0 Hnl) as (c1 & E1 & Hl1 & (Hi1 & Hf1 & Hd1)); [cbn; rewrite lookup_insert_eq; eauto|].
    rewrite EF in Hl1. cbn [app] in Hl1. exists p, x, c1, (put FREE [p] L).
    assert (Hin : forall w q, q <> p -> q ∈ put FREE [p] L w <-> q ∈ L w).
    { intros w q Hq. unfold put. case_decide as Ew; [|done]. subst w. rewrite EF, list_elem_of_singleton. split; [done|]. by intros ?%elem_of_nil. }
    split_and!; try done; [| |rewrite put_same; left|by right].
    + rewrite (bind_ret (modify _) _ c tt c0) by (unfold c0, modify; by rewrite El, EF). by rewrite (bind_ret _ _ _ _ _ E1).
    + split; [done| | | | |].
      * rewrite Hd1, Hi1. cbn. by rewrite !dom_insert_L, (ok_dom _ _ Hok).
      * intros q. rewrite Hi1. cbn. destruct (decide (q = p)) as [->|Hne].
        -- rewrite lookup_insert_eq. split; [|eauto]. intros _. exists FREE. rewrite put_same. left.
        -- rewrite lookup_insert_ne by done. rewrite (ok_in _ _ Hok). by setoid_rewrite Hin.
      * intros w q z Hq Hz. rewrite Hi1 in Hz. cbn in Hz. destruct (decide (q = p)) as [->|Hne].
        -- rewrite lookup_insert_eq in Hz. injection Hz as <-. assert (Ew : w = FREE) by (apply (lk_one _ _ Hl1 w FREE p Hq); rewrite put_same; left). by subst w.
        -- rewrite lookup_insert_ne in Hz by done. apply (ok_state _ _ Hok w q z); [by apply Hin|done].
      * rewrite put_other, Hi1 by done. cbn. apply (sorted_other L c _ Hok). intros q Hq. rewrite lookup_insert_ne; [done|]. intros <-. by apply (Hnl NEW).
      * intros q z Hq Hz. rewrite put_same in Hq. apply list_elem_of_singleton in Hq as ->. rewrite Hi1 in Hz. cbn in Hz. rewrite lookup_insert_eq in Hz. by injection Hz as <-.
  - right. assert (Hp : p ∈ L FREE) by (rewrite EF; left). destruct (proj2 (ok_in _ _ Hok p)) as [x Hx]; [eauto|].
    exists p, x, c, L. rewrite insert_id by done. split_and!; try done. by left.
Qed.

(** A new frame waits in its place. *)
Lemma add_run L c mem prio pns ftype fl enc enc_len cb : cfq_ok L c -> (forall p, mem = Some p -> items c !! p = None) ->
  ossl_quic_cfq_add_frame mem prio pns ftype fl enc enc_len cb c = (Err, c) /\ L FREE = [] /\ mem = None \/
  exists p y c' L', ossl_quic_cfq_add_frame mem prio pns ftype fl enc enc_len cb c = (Ret p, c') /\ cfq_ok L' c' /\
    y = mkItem (pkt_prev y) (pkt_next y) enc cb ftype enc_len prio pns fl QUIC_CFQ_STATE_NEW /\
    items c' = <[p := y]> (items c) /\ frees c' = frees c /\ p ∈ L' NEW /\ (forall x, items c !! p = Some x -> state x = -1 /\ free_cb x = None) /\
    (forall w q, q <> p -> q ∈ L' w <-> q ∈ L w).
Proof.
  intros Hok Hm. unfold ossl_quic_cfq_add_frame. destruct (get_free_run L c mem Hok Hm) as [(E & HF & HM)|(p & x & c1 & L1 & E & Hok1 & Hp & Hi & Hf & Hcase & Hin)].
  { left. by rewrite (bind_err _ _ _ _ E). }
  right. rewrite (bind_ret _ _ _ _ _ E). assert (Hx1 : items c1 !! p = Some x) by (by rewrite Hi, lookup_insert_eq).
  rewrite (bind_ret _ _ _ _ _ (upd_item_run _ _ _ _ Hx1)). set (y := mkItem (pkt_prev x) (pkt_next x) enc cb ftype enc_len prio pns fl QUIC_CFQ_STATE_NEW).
  set (c2 := set_items (<[p := y]> (items c1)) c1). destruct (list_elem_of_split _ _ Hp) as (a & b & EF).
  destruct (remove_run L1 c2 FREE a p b) as (c3 & E3 & Hl3 & (Hi3 & Hf3 & Hd3) & Hp3); [apply linked_items, Hok1|done|]. rewrite (bind_ret _ _ _ _ _ E3).
  destruct (reinsert_run L1 c1 FREE a p b y c3 Hok1 EF) as (c4 & L' & E4 & (Hi4 & Hf4 & Hd4) & Hl4 & HpN & Hmv & Hso); [done|by rewrite Hi3|done|].
  rewrite (bind_ret _ _ _ _ _ E4). exists p, y, c4, L'. cbn in Hi3, Hf3, Hd3. split_and!; try done.
  - eapply (ok_move L1 c1 _ _ p NEW y); try done; [by eauto|congruence|congruence|by rewrite Hi4].
  - rewrite Hi4, Hi3, Hi. by rewrite insert_insert_eq.
  - congruence.
  - intros z Hz. destruct Hcase as [Hz'|[Hz' _]]; [|congruence]. assert (z = x) as -> by congruence. by rewrite (ok_state _ _ Hok1 FREE p x Hp Hx1), (ok_clear _ _ Hok1 p x Hp Hx1).
  - intros w q Hq. by rewrite Hmv, Hin.
Qed.

(** ** Sequences of operations *)
Inductive op :=
  | Add (mem : option nat) (prio pns ftype fl : Z) (enc : option (nat * list Z)) (enc_len : Z) (cb : option nat)
  | MarkTx (p : nat) | MarkLost (p : nat) (prio : Z) | Release (p : nat) | Link (p : nat) (a b : option nat).

Definition exec (o : op) : M QUIC_CFQ unit :=
  match o with
  | Add mem prio pns ftype fl enc n cb => ossl_quic_cfq_add_frame mem prio pns ftype fl enc n cb;; mret tt
  | MarkTx p => ossl_quic_cfq_mark_tx p
  | MarkLost p prio => ossl_quic_cfq_mark_lost p prio
  | Release p => ossl_quic_cfq_release p
  | Link p a b => upd_item p (set_pkt_links a b)
  end.

(** An item that has been added and not been released. *)
Definition in_use (c : QUIC_CFQ) (p : nat) : Prop := exists x, items c !! p = Some x /\ state x <> -1.

(** The callers' part: allocations give new addresses, and handles are of items in
    use.  [Link] is an assignment to the fields that belong to the caller. *)
Definition legal (o : op) (c : QUIC_CFQ) : Prop :=
  match o with
  | Add mem _ _ _ _ _ _ _ => forall p, mem = Some p -> items c !! p = None
  | MarkTx p | MarkLost p _ | Release p | Link p _ _ => in_use c p
  end.

(** The buffers handed over with a frame and the one freed by a call. *)
Definition buffers_of (m : gmap nat QUIC_CFQ_ITEM_EX) : list freed := concat ((fun px => freeing px.2) <$> map_to_list m).
Definition buffers (c : QUIC_CFQ) : list freed := buffers_of (items c).
Definition handed (o : op) (r : res unit) : list freed :=
  match o, r with Add _ _ _ _ _ enc n (Some cb), Ret _ => [mkFreed cb enc n] | _, _ => [] end.

Lemma buffers_fresh m p x : m !! p = None -> buffers_of (<[p := x]> m) ≡ₚ freeing x ++ buffers_of m.
Proof. intros H. unfold buffers_of. by rewrite map_to_list_insert. Qed.

Lemma buffers_insert m p x : buffers_of (<[p := x]> m) ≡ₚ freeing x ++ buffers_of (delete p m).
Proof. rewrite <- insert_delete_eq. apply buffers_fresh, lookup_delete_eq. Qed.

Lemma buffers_update m p x y : m !! p = Some x ->
  freeing x ++ buffers_of (<[p := y]> m) ≡ₚ freeing y ++ buffers_of m.
Proof.
  intros Hx. rewrite buffers_insert. rewrite <- (insert_id m p x Hx) at 2. rewrite buffers_insert. solve_Permutation.
Qed.

(** [update p x c c']: from [c] to [c'] the item [p] has got the fields [x]. *)
Definition accounted (H : list freed) (c : QUIC_CFQ) : Prop := H ≡ₚ frees c ++ buffers c.

Lemma link_run L c p x a b : cfq_ok L c -> items c !! p = Some x ->
  exists c', upd_item p (set_pkt_links a b) c = (Ret tt, c') /\ cfq_ok L c' /\ items c' = <[p := set_pkt_links a b x]> (items c) /\ frees c' = frees c.
Proof.
  intros Hok Hx. eexists. split; [by apply upd_item_run|]. split; [|done]. destruct (proj1 (ok_in _ _ Hok p)) as [w Hw]; [eauto|].
  eapply (ok_move L c L _ p w (set_pkt_links a b x)); try done; [by eauto|apply linked_items, Hok|exact (ok_state _ _ Hok w p x Hw Hx)| |].
  - intros ->. exact (ok_clear _ _ Hok p x Hw Hx).
  - eapply sorted_keys; [|apply (ok_sorted _ _ Hok)]. intros q y Hq Hy. cbn in Hy. destruct (decide (q = p)) as [->|Hne].
    + rewrite lookup_insert_eq in Hy. injection Hy as <-. eauto.
    + rewrite lookup_insert_ne in Hy by done. eauto.
Qed.

Lemma freeing_cleared x : freeing (cleared x) = [].
Proof. by destruct x as [? ? ? [cb|]]. Qed.

(** What one operation does to the buffers. *)
Lemma account_update H c c' p x y : accounted H c -> items c !! p = Some x -> items c' = <[p := y]> (items c) ->
  (frees c' = frees c /\ freeing y = freeing x \/ frees c' = frees c ++ freeing x /\ freeing y = []) -> accounted H c'.
Proof.
  intros Ha Hx Hi Hc. unfold accounted, buffers in *. rewrite Hi. pose proof (buffers_update (items c) p x y Hx) as Hb. rewrite Ha.
  destruct Hc as [[-> Ey]|[-> Ey]]; rewrite Ey in Hb.
  - f_equiv. symmetry. by apply Permutation_app_inv_l in Hb.
  - rewrite <- app_assoc. f_equiv. cbn in Hb. by rewrite Hb.
Qed.

Lemma cfq_exec_ok L c H o : cfq_ok L c -> accounted H c -> legal o c ->
  exists r c' L', exec o c = (r, c') /\ r <> Undef /\ cfq_ok L' c' /\ accounted (H ++ handed o r) c'.
Proof.
  intros Hok Ha Hleg. destruct o as [mem prio pns ftype fl enc n cb|p|p prio|p|p a b]; cbn [exec legal handed] in *.
  - destruct (add_run L c mem prio pns ftype fl enc n cb Hok Hleg) as [(E & _)|(p & y & c' & L' & E & Hok' & Ey & Hi & Hf & _ & Hfr & _)].
    + exists Err, c, L. rewrite (bind_err _ _ _ _ E). split_and!; try done. destruct cb; by rewrite app_nil_r.
    + exists (Ret tt), c', L'. rewrite (bind_ret _ _ _ _ _ E). split_and!; try done. assert (Ef : freeing y = match cb with Some cb => [mkFreed cb enc n] | None => [] end) by (rewrite Ey; done).
      unfold accounted, buffers in *. rewrite Hi, Hf, Ha. replace (match cb with Some cb0 => _ | None => [] end) with (freeing y) by (rewrite Ef; by destruct cb).
      assert (Hb : buffers_of (<[p := y]> (items c)) ≡ₚ freeing y ++ buffers_of (items c)).
      { destruct (items c !! p) as [z|] eqn:Ez; [|by apply buffers_fresh]. pose proof (buffers_update (items c) p z y Ez) as Hb.
        destruct (Hfr z eq_refl) as [_ Hz]. unfold freeing at 1 in Hb. by rewrite Hz in Hb. }
      rewrite Hb. solve_Permutation.
  - destruct Hleg as (x & Hx & Hs). destruct (mark_tx_run L c p x Hok Hx Hs) as (c' & L' & E & Hok' & Hi & Hf & _).
    exists (Ret tt), c', L'. split_and!; try done. rewrite app_nil_r. eapply account_update; [done|done|done|]. left. done.
  - destruct Hleg as (x & Hx & Hs). destruct (lost_run L c p x prio Hok Hx Hs) as (c' & L' & E & Hok' & Hi & Hf & _).
    exists (Ret tt), c', L'. split_and!; try done. rewrite app_nil_r. eapply account_update; [done|done|done|]. destruct (is_unreliable x).
    + right. by rewrite freeing_cleared.
    + left. rewrite Hf, app_nil_r. split; [done|]. unfold waiting. by destruct (prio =? UINT32_MAX).
  - destruct Hleg as (x & Hx & Hs). destruct (cfq_release_run L c p x Hok Hx Hs) as (c' & L' & E & Hok' & Hi & Hf & _).
    exists (Ret tt), c', L'. split_and!; try done. rewrite app_nil_r. eapply account_update; [done|done|done|]. right. by rewrite freeing_cleared.
  - destruct Hleg as (x & Hx & Hs). destruct (link_run L c p x a b Hok Hx) as (c' & E & Hok' & Hi & Hf).
    exists (Ret tt), c', L. split_and!; try done. rewrite app_nil_r. eapply account_update; [done|done|done|]. left. done.
Qed.

(** Queues that legal calls lead to, with the buffers handed to them. *)
Inductive reachable : list freed -> QUIC_CFQ -> Prop :=
  | Rnew c : ossl_quic_cfq_new true = Some c -> reachable [] c
  | Rstep H c o r c' : reachable H c -> legal o c -> exec o c = (r, c') -> reachable (H ++ handed o r) c'.

Lemma cfq_new_ok : cfq_ok (fun _ => []) zero_cfq.
Proof.
  split; [split|..]; cbn; try done.
  - intros []; by apply dl_nil.
  - intros w w' p ?%elem_of_nil. done.
  - intros p. split; [intros [? ?]; done|]. intros [? ?%elem_of_nil]. done.
  - constructor.
Qed.

Lemma cfq_reachable_ok H c : reachable H c -> exists L, cfq_ok L c /\ accounted H c.
Proof.
  induction 1 as [c [= <-]|H c o r c' _ (L & Hok & Ha) Hleg E].
  - exists (fun _ => []). split; [exact cfq_new_ok|]. unfold accounted, buffers, buffers_of. by vm_compute.
  - destruct (cfq_exec_ok L c H o Hok Ha Hleg) as (r' & c1 & L' & E' & _ & Hok' & Ha'). rewrite E in E'. injection E' as <- <-. eauto.
Qed.

(** ** Iteration *)

(** The loop finds the first element behind [a] that is in the space. *)
Definition in_space (c : QUIC_CFQ) (pns : Z) (p : nat) : bool := match items c !! p with Some x => pn_space x =? pns | None => false end.

Fixpoint first_in (f : nat -> bool) (xs : list nat) : option (nat * list nat) :=
  match xs with [] => None | x :: xs => if f x then Some (x, xs) else first_in f xs end.

Lemma next_in_space_spec L c pns : cfq_ok L c -> forall b a fuel, L NEW = a ++ b -> (length b <= fuel)%nat ->
  next_in_space fuel pns (head b) c = Ret (fst <$> first_in (in_space c pns) b).
Proof.
  intros Hok b. induction b as [|p b IH]; intros a fuel E Hf; [by destruct fuel|]. cbn in Hf. destruct fuel as [|fuel]; [lia|].
  destruct (proj2 (ok_in _ _ Hok p)) as [x Hx]; [exists NEW; rewrite E; apply elem_of_app; right; left|].
  cbn [head next_in_space first_in]. unfold in_space at 1. rewrite Hx, (dl_node _ _ _ (lk_dl _ _ (ok_linked _ _ Hok) NEW) a p b E). cbn [next].
  destruct (pn_space x =? pns); [done|]. apply (IH (a ++ [p])); [by rewrite <- app_assoc|lia].
Qed.

Lemma new_length L c : cfq_ok L c -> (length (L NEW) <= size (links c))%nat.
Proof. intros Hok. exact (dl_size _ _ _ (lk_dl _ _ (ok_linked _ _ Hok) NEW)). Qed.

(** The frames the loop
    [for (i = ossl_quic_cfq_get_priority_head(cfq, pns); i != NULL; i = ossl_quic_cfq_item_get_priority_next(i, pns))]
    goes through. *)
Fixpoint visits (fuel : nat) (pns : Z) (p : option nat) (c : QUIC_CFQ) : res (list nat) :=
  match p with
  | None => Ret []
  | Some q =>
      match fuel with
      | O => Undef
      | S fuel =>
          match ossl_quic_cfq_item_get_priority_next p pns c with
          | Ret n => match visits fuel pns n c with Ret l => Ret (q :: l) | r => r end
          | Err => Err
          | Undef => Undef
          end
      end
  end.
Definition iterate (pns : Z) (c : QUIC_CFQ) : res (list nat) :=
  match ossl_quic_cfq_get_priority_head pns c with Ret p => visits (size (links c)) pns p c | Err => Err | Undef => Undef end.

Lemma first_in_app f xs p b : first_in f xs = Some (p, b) -> exists a, xs = a ++ p :: b /\ filter f xs = p :: filter f b.
Proof.
  induction xs as [|x xs IH]; [done|]. cbn [first_in]. destruct (f x) eqn:E.
  - intros [= <- <-]. exists []. split; [done|]. by rewrite filter_cons_True by (by rewrite E).
  - intros (a & -> & Hf)%IH. exists (x :: a). split; [done|]. by rewrite filter_cons_False by (rewrite E; intros []).
Qed.
Lemma first_in_none f xs : first_in f xs = None -> filter f xs = [].
Proof. induction xs as [|x xs IH]; [done|]. cbn [first_in]. destruct (f x) eqn:E; [done|]. intros H. rewrite filter_cons_False by (rewrite E; intros []). auto. Qed.

Lemma visits_spec L c pns : cfq_ok L c -> forall fuel b a, L NEW = a ++ b -> (length b <= fuel)%nat ->
  visits fuel pns (fst <$> first_in (in_space c pns) b) c = Ret (filter (in_space c pns) b).
Proof.
  intros Hok fuel. induction fuel as [|fuel IH]; intros b a E Hf; [by destruct b; [|cbn in Hf; lia]|].
  destruct (first_in (in_space c pns) b) as [[p b']|] eqn:Ef; cbn [fmap option_fmap option_map fst visits]; [|by rewrite (first_in_none _ _ Ef)].
  destruct (first_in_app _ _ _ _ Ef) as (a' & -> & ->). rewrite length_app in Hf. cbn in Hf.
  unfold ossl_quic_cfq_item_get_priority_next. rewrite (dl_node _ _ _ (lk_dl _ _ (ok_linked _ _ Hok) NEW) (a ++ a') p b') by (by rewrite E, <- app_assoc). cbn [next].
  pose proof (new_length _ _ Hok) as Hsz. rewrite E, !length_app in Hsz. cbn in Hsz.
  assert (E2 : L NEW = (a ++ a' ++ [p]) ++ b') by (by rewrite E, <- !app_assoc).
  rewrite (next_in_space_spec L c pns Hok b' _ _ E2), (IH b' _ E2) by lia. done.
Qed.

Lemma iterate_spec L c pns : cfq_ok L c -> iterate pns c = Ret (filter (in_space c pns) (L NEW)).
Proof.
  intros Hok. pose proof (new_length _ _ Hok). unfold iterate, ossl_quic_cfq_get_priority_head.
  pose proof (dl_list _ _ _ (lk_dl _ _ (ok_linked _ _ Hok) NEW)) as El. cbn [sel] in El. rewrite El. cbn [head_]. rewrite (next_in_space_spec L c pns Hok (L NEW) []) by done.
  by apply (visits_spec L c pns Hok _ _ []).
Qed.

(** ** Freeing the queue *)
Definition chained (xs : list nat) (c : QUIC_CFQ) : Prop :=
  NoDup xs /\ forall a p b, xs = a ++ p :: b -> is_Some (items c !! p) /\ exists k, links c !! p = Some k /\ next k = head b.

Lemma free_items_run xs : forall fuel c, chained xs c -> (length xs <= fuel)%nat -> exists c',
  free_items fuel (head xs) c = (Ret tt, c') /\ frees c' ++ buffers c' ≡ₚ frees c ++ buffers c /\
  (forall q, q ∈ xs -> items c' !! q = None) /\ (forall q, q ∉ xs -> items c' !! q = items c !! q /\ links c' !! q = links c !! q) /\
  forall w, sel w c' = sel w c.
Proof.
  induction xs as [|p xs IH]; intros fuel c [Hnd Hc] Hf; [exists c; destruct fuel; split_and!; try done; by intros q ?%elem_of_nil|].
  cbn in Hf. destruct fuel as [|fuel]; [lia|]. apply NoDup_cons in Hnd as [Hp Hnd]. destruct (Hc [] p xs eq_refl) as [[x Hx] (k & Hk & En)].
  cbn [head free_items]. rewrite (bind_ret get _ c c c), Hk by done. rewrite (bind_ret _ _ _ _ _ (clear_run _ _ _ Hx)). rewrite En.
  erewrite bind_ret by reflexivity. cbn [items links new_list tx_list free_list frees].
  set (c1 := mkCfq (delete p (<[p := cleared x]> (items c))) (delete p (links c)) (new_list c) (tx_list c) (free_list c) (frees c ++ freeing x)).
  assert (Hne : forall q, q ∈ xs -> q <> p) by (by intros q Hq ->).
  destruct (IH fuel c1) as (c' & E & Hb & Hin & Hout & Hs).
  - split; [done|]. intros a q b ->. destruct (Hc (p :: a) q b eq_refl) as [Hq1 Hq2]. assert (q <> p) by (apply Hne, elem_of_app; right; left).
    cbn. rewrite !lookup_delete_ne, lookup_insert_ne by done. done.
  - lia.
  - exists c'. split; [exact E|]. split_and!.
    + rewrite Hb. unfold buffers. cbn. rewrite delete_insert_eq, <- app_assoc. f_equiv. rewrite <- buffers_insert. by rewrite insert_id.
    + intros q [->|Hq]%elem_of_cons; [|auto]. destruct (Hout p Hp) as [-> _]. cbn. apply lookup_delete_eq.
    + intros q [Hqp Hq]%not_elem_of_cons. destruct (Hout q Hq) as [-> ->]. cbn. by rewrite !lookup_delete_ne, lookup_insert_ne.
    + intros w. rewrite Hs. by destruct w.
Qed.

Lemma free_list_run w xs c : dl xs (sel w c) (links c) -> (forall q, q ∈ xs -> is_Some (items c !! q)) -> exists c',
  free_list_items w c = (Ret tt, c') /\ frees c' ++ buffers c' ≡ₚ frees c ++ buffers c /\
  (forall q, q ∈ xs -> items c' !! q = None) /\ (forall q, q ∉ xs -> items c' !! q = items c !! q /\ links c' !! q = links c !! q) /\
  forall w, sel w c' = sel w c.
Proof.
  intros Hd Hi. unfold free_list_items. rewrite (bind_ret get _ c c c) by done.
  replace (head_ (sel w c)) with (head xs) by (by rewrite (dl_list _ _ _ Hd)).
  apply free_items_run; [|exact (dl_size _ _ _ Hd)]. split; [apply Hd|]. intros a p b ->. split; [apply Hi, elem_of_app; right; left|].
  rewrite (dl_node _ _ _ Hd a p b eq_refl). eauto.
Qed.

Lemma buffers_empty m : (forall q : nat, m !! q = None) -> buffers_of m = [].
Proof. intros H. assert (m = ∅) as -> by (by apply map_eq). by vm_compute. Qed.

Lemma free_run L c : cfq_ok L c -> exists c', ossl_quic_cfq_free c = (Ret tt, c') /\ (forall q, items c' !! q = None) /\ frees c' ≡ₚ frees c ++ buffers c.
Proof.
  intros Hok. pose proof (ok_linked _ _ Hok) as [Hd Ho]. assert (Hi : forall w q, q ∈ L w -> is_Some (items c !! q)) by (intros w q Hq; apply (ok_in _ _ Hok); eauto).
  assert (Hno : forall w w' q, w <> w' -> q ∈ L w -> q ∉ L w') by (intros w w' q Hw H1 H2; apply Hw; eauto).
  destruct (free_list_run NEW (L NEW) c (Hd NEW) (Hi NEW)) as (c1 & E1 & B1 & I1 & O1 & S1).
  destruct (free_list_run TX (L TX) c1) as (c2 & E2 & B2 & I2 & O2 & S2).
  { rewrite S1. eapply dl_frame; [apply Hd|]. intros q Hq. by apply O1, (Hno TX). }
  { intros q Hq. destruct (O1 q) as [-> _]; [by apply (Hno TX)|eauto]. }
  destruct (free_list_run FREE (L FREE) c2) as (c3 & E3 & B3 & I3 & O3 & S3).
  { rewrite S2, S1. eapply dl_frame; [apply Hd|]. intros q Hq. destruct (O2 q) as [_ ->]; [by apply (Hno FREE)|]. by apply O1, (Hno FREE). }
  { intros q Hq. destruct (O2 q) as [-> _]; [by apply (Hno FREE)|]. destruct (O1 q) as [-> _]; [by apply (Hno FREE)|eauto]. }
  assert (Hnone : forall q, items c3 !! q = None).
  { intros q. destruct (decide (q ∈ L FREE)) as [|H3]; [auto|]. destruct (O3 q H3) as [-> _]. destruct (decide (q ∈ L TX)) as [|H2]; [auto|].
    destruct (O2 q H2) as [-> _]. destruct (decide (q ∈ L NEW)) as [|H1]; [auto|]. destruct (O1 q H1) as [-> _].
    destruct (items c !! q) eqn:E; [|done]. destruct (proj1 (ok_in _ _ Hok q)) as [[] Hw]; eauto; done. }
  exists c3. split; [|split; [done|]].
  - unfold ossl_quic_cfq_free. by rewrite (bind_ret _ _ _ _ _ E1), (bind_ret _ _ _ _ _ E2).
  - rewrite <- B1, <- B2, <- B3. unfold buffers. by rewrite (buffers_empty _ Hnone), app_nil_r.
Qed.

(** ** Theorems *)

(** C16: in every queue that legal calls lead to, each item is in exactly one of the
    three lists, the one its state names, the frames that wait are ordered by space
    and priority, and no legal call fails an assertion or leaves the memory of the
    queue.  Each buffer handed over with a callback to free it has been freed or
    belongs to one item, and [ossl_quic_cfq_free] frees the rest: none twice, none
    never. *)
Theorem cfq_invariant H c : reachable H c ->
  (exists L, cfq_ok L c) /\ (forall o, legal o c -> (exec o c).1 <> Undef) /\ H ≡ₚ frees c ++ buffers c /\
  exists c', ossl_quic_cfq_free c = (Ret tt, c') /\ (forall q, items c' !! q = None) /\ frees c' ≡ₚ H.
Proof.
  intros (L & Hok & Ha)%cfq_reachable_ok. split_and!; [eauto| |done|].
  - intros o Hleg. destruct (cfq_exec_ok L c H o Hok Ha Hleg) as (r & c' & L' & E & Hr & _). by rewrite E.
  - destruct (free_run L c Hok) as (c' & E & Hn & Hf). exists c'. split_and!; try done. by rewrite Hf.
Qed.

(** The frames the loop goes through. *)
Lemma waiting_frames L c pns : cfq_ok L c ->
  iterate pns c = Ret (filter (in_space c pns) (L NEW)) /\ NoDup (filter (in_space c pns) (L NEW)) /\
  forall p, p ∈ filter (in_space c pns) (L NEW) <-> exists x, items c !! p = Some x /\ state x = QUIC_CFQ_STATE_NEW /\ pn_space x = pns.
Proof.
  intros Hok. split; [by apply iterate_spec|]. split; [apply NoDup_filter; exact (dl_nodup _ _ _ (lk_dl _ _ (ok_linked _ _ Hok) NEW))|]. intros p. rewrite list_elem_of_filter. split.
  - intros [Hp Hl]. unfold in_space in Hp. destruct (items c !! p) as [x|] eqn:Hx; [|done]. exists x. split_and!; [done|by apply (ok_state _ _ Hok NEW p)|by apply Z.eqb_eq, Is_true_true].
  - intros (x & Hx & Hs & Hp). split; [unfold in_space; rewrite Hx; by apply Is_true_true, Z.eqb_eq|].
    destruct (proj1 (ok_in _ _ Hok p)) as [w Hw]; [eauto|]. pose proof (ok_state _ _ Hok w p x Hw Hx) as Hc. rewrite Hs in Hc. by destruct w.
Qed.

(** C17: the loop over the frames that wait in a packet number space, from
    [ossl_quic_cfq_get_priority_head] by [ossl_quic_cfq_item_get_priority_next] to the end, ends in every queue that legal calls lead
    to, and goes through exactly the frames in state NEW in that space, each once.  Nothing is said here of
    the order ([cfq_transmission_order]). *)
Theorem cfq_iteration_exact H c pns : reachable H c ->
  exists l, iterate pns c = Ret l /\ NoDup l /\
    forall p, p ∈ l <-> exists x, items c !! p = Some x /\ state x = QUIC_CFQ_STATE_NEW /\ pn_space x = pns.
Proof. intros (L & Hok & Ha)%cfq_reachable_ok. eexists. by apply waiting_frames. Qed.

(** The order is that of descending priority values, the reverse of the one quic_cfq.h
    describes. *)
Theorem cfq_transmission_order H c pns : reachable H c ->
  exists l, iterate pns c = Ret l /\
    StronglySorted (fun p q => forall x y, items c !! p = Some x -> items c !! q = Some y -> priority y <= priority x) l.
Proof.
  intros (L & Hok & Ha)%cfq_reachable_ok. destruct (waiting_frames L c pns Hok) as (Hi & _ & Hin). eexists. split; [exact Hi|].
  assert (Hsp : forall p, p ∈ filter (in_space c pns) (L NEW) -> exists x, items c !! p = Some x /\ pn_space x = pns) by (intros p (x & Hx & _ & Hp)%Hin; eauto).
  pose proof (ok_sorted _ _ Hok) as Hs. clear Hi Hin. revert Hsp. generalize (in_space c pns) as f. induction Hs as [|p xs Hs IH Hf]; intros f Hsp; [constructor|].
  rewrite filter_cons in *. destruct (decide (f p)); [|exact (IH f Hsp)]. constructor; [apply IH; intros q Hq; apply Hsp; by right|].
  apply Forall_forall. intros q Hq x y Hx Hy. destruct (Hsp p) as (x' & Hx' & Ep); [left|]. destruct (Hsp q) as (y' & Hy' & Eq); [by right|].
  rewrite Forall_forall in Hf. apply list_elem_of_filter in Hq as [_ Hq]. specialize (Hf q Hq x y Hx Hy). simplify_eq. unfold precedes in Hf. lia.
Qed.

(** ** A queue *)
Definition legalb (o : op) (c : QUIC_CFQ) : bool :=
  match o with
  | Add (Some p) _ _ _ _ _ _ _ => is_null (items c !! p)
  | Add None _ _ _ _ _ _ _ => true
  | MarkTx p | MarkLost p _ | Release p | Link p _ _ => match items c !! p with Some x => negb (state x =? -1) | None => false end
  end.

Lemma legalb_ok o c : legalb o c = true -> legal o c.
Proof.
  assert (Hu : forall p, match items c !! p with Some x => negb (state x =? -1) | None => false end = true -> in_use c p).
  { intros p. unfold in_use. destruct (items c !! p) as [x|]; [|done]. intros E%negb_true_iff%Z.eqb_neq. eauto. }
  destruct o as [[p|]| | | |]; cbn; try apply Hu; [|done]. intros E q [= <-]. by destruct (items c !! p).
Qed.

Fixpoint play (ops : list op) (x : list freed * QUIC_CFQ) : option (list freed * QUIC_CFQ) :=
  match ops with
  | [] => Some x
  | o :: ops => if legalb o x.2 then let '(r, c) := exec o x.2 in play ops (x.1 ++ handed o r, c) else None
  end.

Lemma play_reachable ops : forall x y, reachable x.1 x.2 -> play ops x = Some y -> reachable y.1 y.2.
Proof.
  induction ops as [|o ops IH]; intros x y Hr; cbn; [by intros [= <-]|]. destruct (legalb o x.2) eqn:El; [|done]. destruct (exec o x.2) as [r c] eqn:E.
  apply IH. cbn. econstructor; [done|by apply legalb_ok|done].
Qed.

(** Three frames, of which one is sent and lost and one, unreliable, is sent, lost
    and so released. *)
Definition sample_ops : list op :=
  [Add (Some 1%nat) 1 2 0x18 0 (Some (11%nat, [1; 2])) 2 (Some 7%nat); Add (Some 2%nat) 5 2 0x19 0 (Some (12%nat, [3])) 1 (Some 7%nat);
   Add (Some 3%nat) 9 0 0x1b 1 (Some (13%nat, [4])) 1 (Some 7%nat); MarkTx 1; MarkTx 3; MarkLost 1 UINT32_MAX; MarkLost 3 4].
Definition sample : list freed * QUIC_CFQ := default ([], zero_cfq) (play sample_ops ([], zero_cfq)).

Lemma cfq_sample_reachable : reachable sample.1 sample.2.
Proof. apply (play_reachable sample_ops ([], zero_cfq)); [by apply Rnew|vm_compute; reflexivity]. Qed.

Lemma cfq_invariant_witness : reachable sample.1 sample.2 /\ length sample.1 = 3%nat /\ length (frees sample.2) = 1%nat /\
  exists c', ossl_quic_cfq_free sample.2 = (Ret tt, c') /\ frees c' ≡ₚ sample.1.
Proof.
  split; [exact cfq_sample_reachable|]. split; [reflexivity|]. split; [reflexivity|].
  destruct (cfq_invariant _ _ cfq_sample_reachable) as (_ & _ & _ & c' & E & _ & Hf). eauto.
Defined.

(** The frame of priority 5 comes before that of priority 1. *)
Lemma cfq_iteration_exact_witness : iterate 2 sample.2 = Ret [2%nat; 1%nat] /\ NoDup [2%nat; 1%nat].
Proof.
  destruct (cfq_iteration_exact _ _ 2 cfq_sample_reachable) as (l & E & Hnd & _). assert (El : iterate 2 sample.2 = Ret [2%nat; 1%nat]) by (vm_compute; reflexivity).
  split; [exact El|]. rewrite El in E. injection E as <-. exact Hnd.
Defined.
End CfqSpec.
