(* ===== verification/StreamMap.v ===== *)
(** * Stream map

    Model of [ssl/quic/quic_stream_map.c] and of the predicates of
    [include/internal/quic_stream_map.h]: the streams of a connection, the
    states of their two parts (RFC 9000 s. 3.1 and 3.2), the lists of streams
    that are active, wait to be accepted or can be collected, and the
    round-robin iteration over the active ones.

    A stream is reached through a pointer, an address of [heap]; [table] is the
    hash table, from identifiers to addresses.  The three lists are those of
    [CList].  The flow controllers embedded in a stream are at the stream's
    address in the stores of [QuicFc], which also hold the connection's; the
    counters of received packets that the receive buffers share are [qpkts].
    [cb_arg] is what the argument of the stream-limit callback points to: the
    connection's limits for bidirectional and unidirectional streams.  The
    fields a packet in preparation uses ([txp_...]) are not touched here and
    are left out.

    [Ret] and [Err] are the results 1 and 0 (a pointer and null); a failed
    [assert], a null or dangling pointer is [Undef]. *)
From Stdlib Require Import ZArith Lia.
From stdpp Require Import base tactics option gmap sorting.
From S2P Require Import Prelude OsslTime QuicFc RStream SStream CList.
#[local] Open Scope Z_scope.
Import CList.

Module StreamMap.

Inductive sstream_state :=
| SSTREAM_NONE | SSTREAM_READY | SSTREAM_SEND | SSTREAM_DATA_SENT
| SSTREAM_DATA_RECVD | SSTREAM_RESET_SENT | SSTREAM_RESET_RECVD.

Inductive rstream_state :=
| RSTREAM_NONE | RSTREAM_RECV | RSTREAM_SIZE_KNOWN | RSTREAM_DATA_RECVD
| RSTREAM_DATA_READ | RSTREAM_RESET_RECVD | RSTREAM_RESET_READ.

#[global] Instance sstream_state_eq_dec : EqDecision sstream_state.
Proof. solve_decision. Defined.
#[global] Instance rstream_state_eq_dec : EqDecision rstream_state.
Proof. solve_decision. Defined.

Record QUIC_STREAM := mkQs {
  id : Z;
  stop_sending_aec : Z; reset_stream_aec : Z; peer_stop_sending_aec : Z; peer_reset_stream_aec : Z;
  send_final_size : Z;
  sstream : option SStream.QUIC_SSTREAM; rstream : option RStream.QUIC_RSTREAM;
  type : Z; send_state : sstream_state; recv_state : rstream_state;
  active : bool; as_server : bool; stop_sending : bool; peer_stop_sending : bool;
  want_max_stream_data : bool; want_stop_sending : bool; want_reset_stream : bool;
  acked_stop_sending : bool; deleted : bool; ready_for_gc : bool; shutdown_flush : bool
}.

Record QUIC_STREAM_MAP := mkQsm {
  heap : gmap nat QUIC_STREAM; table : gmap Z nat;
  active_list : clist; accept_list : clist; ready_for_gc_list : clist;
  rr_stepping : Z; rr_counter : Z; num_accept_bidi : Z; num_accept_uni : Z; num_shutdown_flush : Z;
  rr_cur : option nat;
  get_stream_limit_cb : option (bool -> Z * Z -> Z); cb_arg : Z * Z;
  max_streams_bidi_rxfc : option nat; max_streams_uni_rxfc : option nat; is_server : bool;
  txfcs : Txfc.store; rxfcs : Rxfc.store; qpkts : gmap nat Z
}.

(** Assignments to one field. *)
Definition set_stop_sending_aec (v : Z) (s : QUIC_STREAM) : QUIC_STREAM :=
    mkQs (id s) v (reset_stream_aec s) (peer_stop_sending_aec s) (peer_reset_stream_aec s) (send_final_size s)
    (sstream s) (rstream s) (type s) (send_state s) (recv_state s) (active s) (as_server s) (stop_sending s)
    (peer_stop_sending s) (want_max_stream_data s) (want_stop_sending s) (want_reset_stream s) (acked_stop_sending
    s) (deleted s) (ready_for_gc s) (shutdown_flush s).
Definition set_reset_stream_aec (v : Z) (s : QUIC_STREAM) : QUIC_STREAM :=
    mkQs (id s) (stop_sending_aec s) v (peer_stop_sending_aec s) (peer_reset_stream_aec s) (send_final_size s)
    (sstream s) (rstream s) (type s) (send_state s) (recv_state s) (active s) (as_server s) (stop_sending s)
    (peer_stop_sending s) (want_max_stream_data s) (want_stop_sending s) (want_reset_stream s) (acked_stop_sending
    s) (deleted s) (ready_for_gc s) (shutdown_flush s).
Definition set_peer_stop_sending_aec (v : Z) (s : QUIC_STREAM) : QUIC_STREAM :=
    mkQs (id s) (stop_sending_aec s) (reset_stream_aec s) v (peer_reset_stream_aec s) (send_final_size s) (sstream
    s) (rstream s) (type s) (send_state s) (recv_state s) (active s) (as_server s) (stop_sending s)
    (peer_stop_sending s) (want_max_stream_data s) (want_stop_sending s) (want_reset_stream s) (acked_stop_sending
    s) (deleted s) (ready_for_gc s) (shutdown_flush s).
Definition set_peer_reset_stream_aec (v : Z) (s : QUIC_STREAM) : QUIC_STREAM :=
    mkQs (id s) (stop_sending_aec s) (reset_stream_aec s) (peer_stop_sending_aec s) v (send_final_size s) (sstream
    s) (rstream s) (type s) (send_state s) (recv_state s) (active s) (as_server s) (stop_sending s)
    (peer_stop_sending s) (want_max_stream_data s) (want_stop_sending s) (want_reset_stream s) (acked_stop_sending
    s) (deleted s) (ready_for_gc s) (shutdown_flush s).
Definition set_send_final_size (v : Z) (s : QUIC_STREAM) : QUIC_STREAM :=
    mkQs (id s) (stop_sending_aec s) (reset_stream_aec s) (peer_stop_sending_aec s) (peer_reset_stream_aec s) v
    (sstream s) (rstream s) (type s) (send_state s) (recv_state s) (active s) (as_server s) (stop_sending s)
    (peer_stop_sending s) (want_max_stream_data s) (want_stop_sending s) (want_reset_stream s) (acked_stop_sending
    s) (deleted s) (ready_for_gc s) (shutdown_flush s).
Definition set_sstream (v : option SStream.QUIC_SSTREAM) (s : QUIC_STREAM) : QUIC_STREAM :=
    mkQs (id s) (stop_sending_aec s) (reset_stream_aec s) (peer_stop_sending_aec s) (peer_reset_stream_aec s)
    (send_final_size s) v (rstream s) (type s) (send_state s) (recv_state s) (active s) (as_server s) (stop_sending
    s) (peer_stop_sending s) (want_max_stream_data s) (want_stop_sending s) (want_reset_stream s)
    (acked_stop_sending s) (deleted s) (ready_for_gc s) (shutdown_flush s).
Definition set_rstream (v : option RStream.QUIC_RSTREAM) (s : QUIC_STREAM) : QUIC_STREAM :=
    mkQs (id s) (stop_sending_aec s) (reset_stream_aec s) (peer_stop_sending_aec s) (peer_reset_stream_aec s)
    (send_final_size s) (sstream s) v (type s) (send_state s) (recv_state s) (active s) (as_server s) (stop_sending
    s) (peer_stop_sending s) (want_max_stream_data s) (want_stop_sending s) (want_reset_stream s)
    (acked_stop_sending s) (deleted s) (ready_for_gc s) (shutdown_flush s).
Definition set_send_state (v : sstream_state) (s : QUIC_STREAM) : QUIC_STREAM :=
    mkQs (id s) (stop_sending_aec s) (reset_stream_aec s) (peer_stop_sending_aec s) (peer_reset_stream_aec s)
    (send_final_size s) (sstream s) (rstream s) (type s) v (recv_state s) (active s) (as_server s) (stop_sending s)
    (peer_stop_sending s) (want_max_stream_data s) (want_stop_sending s) (want_reset_stream s) (acked_stop_sending
    s) (deleted s) (ready_for_gc s) (shutdown_flush s).
Definition set_recv_state (v : rstream_state) (s : QUIC_STREAM) : QUIC_STREAM :=
    mkQs (id s) (stop_sending_aec s) (reset_stream_aec s) (peer_stop_sending_aec s) (peer_reset_stream_aec s)
    (send_final_size s) (sstream s) (rstream s) (type s) (send_state s) v (active s) (as_server s) (stop_sending s)
    (peer_stop_sending s) (want_max_stream_data s) (want_stop_sending s) (want_reset_stream s) (acked_stop_sending
    s) (deleted s) (ready_for_gc s) (shutdown_flush s).
Definition set_active (v : bool) (s : QUIC_STREAM) : QUIC_STREAM :=
    mkQs (id s) (stop_sending_aec s) (reset_stream_aec s) (peer_stop_sending_aec s) (peer_reset_stream_aec s)
    (send_final_size s) (sstream s) (rstream s) (type s) (send_state s) (recv_state s) v (as_server s) (stop_sending
    s) (peer_stop_sending s) (want_max_stream_data s) (want_stop_sending s) (want_reset_stream s)
    (acked_stop_sending s) (deleted s) (ready_for_gc s) (shutdown_flush s).
Definition set_stop_sending (v : bool) (s : QUIC_STREAM) : QUIC_STREAM :=
    mkQs (id s) (stop_sending_aec s) (reset_stream_aec s) (peer_stop_sending_aec s) (peer_reset_stream_aec s)
    (send_final_size s) (sstream s) (rstream s) (type s) (send_state s) (recv_state s) (active s) (as_server s) v
    (peer_stop_sending s) (want_max_stream_data s) (want_stop_sending s) (want_reset_stream s) (acked_stop_sending
    s) (deleted s) (ready_for_gc s) (shutdown_flush s).
Definition set_peer_stop_sending (v : bool) (s : QUIC_STREAM) : QUIC_STREAM :=
    mkQs (id s) (stop_sending_aec s) (reset_stream_aec s) (peer_stop_sending_aec s) (peer_reset_stream_aec s)
    (send_final_size s) (sstream s) (rstream s) (type s) (send_state s) (recv_state s) (active s) (as_server s)
    (stop_sending s) v (want_max_stream_data s) (want_stop_sending s) (want_reset_stream s) (acked_stop_sending s)
    (deleted s) (ready_for_gc s) (shutdown_flush s).
Definition set_want_max_stream_data (v : bool) (s : QUIC_STREAM) : QUIC_STREAM :=
    mkQs (id s) (stop_sending_aec s) (reset_stream_aec s) (peer_stop_sending_aec s) (peer_reset_stream_aec s)
    (send_final_size s) (sstream s) (rstream s) (type s) (send_state s) (recv_state s) (active s) (as_server s)
    (stop_sending s) (peer_stop_sending s) v (want_stop_sending s) (want_reset_stream s) (acked_stop_sending s)
    (deleted s) (ready_for_gc s) (shutdown_flush s).
Definition set_want_stop_sending (v : bool) (s : QUIC_STREAM) : QUIC_STREAM :=
    mkQs (id s) (stop_sending_aec s) (reset_stream_aec s) (peer_stop_sending_aec s) (peer_reset_stream_aec s)
    (send_final_size s) (sstream s) (rstream s) (type s) (send_state s) (recv_state s) (active s) (as_server s)
    (stop_sending s) (peer_stop_sending s) (want_max_stream_data s) v (want_reset_stream s) (acked_stop_sending s)
    (deleted s) (ready_for_gc s) (shutdown_flush s).
Definition set_want_reset_stream (v : bool) (s : QUIC_STREAM) : QUIC_STREAM :=
    mkQs (id s) (stop_sending_aec s) (reset_stream_aec s) (peer_stop_sending_aec s) (peer_reset_stream_aec s)
    (send_final_size s) (sstream s) (rstream s) (type s) (send_state s) (recv_state s) (active s) (as_server s)
    (stop_sending s) (peer_stop_sending s) (want_max_stream_data s) (want_stop_sending s) v (acked_stop_sending s)
    (deleted s) (ready_for_gc s) (shutdown_flush s).
Definition set_acked_stop_sending (v : bool) (s : QUIC_STREAM) : QUIC_STREAM :=
    mkQs (id s) (stop_sending_aec s) (reset_stream_aec s) (peer_stop_sending_aec s) (peer_reset_stream_aec s)
    (send_final_size s) (sstream s) (rstream s) (type s) (send_state s) (recv_state s) (active s) (as_server s)
    (stop_sending s) (peer_stop_sending s) (want_max_stream_data s) (want_stop_sending s) (want_reset_stream s) v
    (deleted s) (ready_for_gc s) (shutdown_flush s).
Definition set_deleted (v : bool) (s : QUIC_STREAM) : QUIC_STREAM :=
    mkQs (id s) (stop_sending_aec s) (reset_stream_aec s) (peer_stop_sending_aec s) (peer_reset_stream_aec s)
    (send_final_size s) (sstream s) (rstream s) (type s) (send_state s) (recv_state s) (active s) (as_server s)
    (stop_sending s) (peer_stop_sending s) (want_max_stream_data s) (want_stop_sending s) (want_reset_stream s)
    (acked_stop_sending s) v (ready_for_gc s) (shutdown_flush s).
Definition set_ready_for_gc (v : bool) (s : QUIC_STREAM) : QUIC_STREAM :=
    mkQs (id s) (stop_sending_aec s) (reset_stream_aec s) (peer_stop_sending_aec s) (peer_reset_stream_aec s)
    (send_final_size s) (sstream s) (rstream s) (type s) (send_state s) (recv_state s) (active s) (as_server s)
    (stop_sending s) (peer_stop_sending s) (want_max_stream_data s) (want_stop_sending s) (want_reset_stream s)
    (acked_stop_sending s) (deleted s) v (shutdown_flush s).
Definition set_shutdown_flush (v : bool) (s : QUIC_STREAM) : QUIC_STREAM :=
    mkQs (id s) (stop_sending_aec s) (reset_stream_aec s) (peer_stop_sending_aec s) (peer_reset_stream_aec s)
    (send_final_size s) (sstream s) (rstream s) (type s) (send_state s) (recv_state s) (active s) (as_server s)
    (stop_sending s) (peer_stop_sending s) (want_max_stream_data s) (want_stop_sending s) (want_reset_stream s)
    (acked_stop_sending s) (deleted s) (ready_for_gc s) v.

Definition set_heap (v : gmap nat QUIC_STREAM) (q : QUIC_STREAM_MAP) : QUIC_STREAM_MAP :=
    mkQsm v (table q) (active_list q) (accept_list q) (ready_for_gc_list q) (rr_stepping q) (rr_counter q)
    (num_accept_bidi q) (num_accept_uni q) (num_shutdown_flush q) (rr_cur q) (get_stream_limit_cb q) (cb_arg q)
    (max_streams_bidi_rxfc q) (max_streams_uni_rxfc q) (is_server q) (txfcs q) (rxfcs q) (qpkts q).
Definition set_table (v : gmap Z nat) (q : QUIC_STREAM_MAP) : QUIC_STREAM_MAP :=
    mkQsm (heap q) v (active_list q) (accept_list q) (ready_for_gc_list q) (rr_stepping q) (rr_counter q)
    (num_accept_bidi q) (num_accept_uni q) (num_shutdown_flush q) (rr_cur q) (get_stream_limit_cb q) (cb_arg q)
    (max_streams_bidi_rxfc q) (max_streams_uni_rxfc q) (is_server q) (txfcs q) (rxfcs q) (qpkts q).
Definition set_active_list (v : clist) (q : QUIC_STREAM_MAP) : QUIC_STREAM_MAP :=
    mkQsm (heap q) (table q) v (accept_list q) (ready_for_gc_list q) (rr_stepping q) (rr_counter q) (num_accept_bidi
    q) (num_accept_uni q) (num_shutdown_flush q) (rr_cur q) (get_stream_limit_cb q) (cb_arg q)
    (max_streams_bidi_rxfc q) (max_streams_uni_rxfc q) (is_server q) (txfcs q) (rxfcs q) (qpkts q).
Definition set_accept_list (v : clist) (q : QUIC_STREAM_MAP) : QUIC_STREAM_MAP :=
    mkQsm (heap q) (table q) (active_list q) v (ready_for_gc_list q) (rr_stepping q) (rr_counter q) (num_accept_bidi
    q) (num_accept_uni q) (num_shutdown_flush q) (rr_cur q) (get_stream_limit_cb q) (cb_arg q)
    (max_streams_bidi_rxfc q) (max_streams_uni_rxfc q) (is_server q) (txfcs q) (rxfcs q) (qpkts q).
Definition set_ready_for_gc_list (v : clist) (q : QUIC_STREAM_MAP) : QUIC_STREAM_MAP :=
    mkQsm (heap q) (table q) (active_list q) (accept_list q) v (rr_stepping q) (rr_counter q) (num_accept_bidi q)
    (num_accept_uni q) (num_shutdown_flush q) (rr_cur q) (get_stream_limit_cb q) (cb_arg q) (max_streams_bidi_rxfc
    q) (max_streams_uni_rxfc q) (is_server q) (txfcs q) (rxfcs q) (qpkts q).
Definition set_rr_stepping (v : Z) (q : QUIC_STREAM_MAP) : QUIC_STREAM_MAP :=
    mkQsm (heap q) (table q) (active_list q) (accept_list q) (ready_for_gc_list q) v (rr_counter q) (num_accept_bidi
    q) (num_accept_uni q) (num_shutdown_flush q) (rr_cur q) (get_stream_limit_cb q) (cb_arg q)
    (max_streams_bidi_rxfc q) (max_streams_uni_rxfc q) (is_server q) (txfcs q) (rxfcs q) (qpkts q).
Definition set_rr_counter (v : Z) (q : QUIC_STREAM_MAP) : QUIC_STREAM_MAP :=
    mkQsm (heap q) (table q) (active_list q) (accept_list q) (ready_for_gc_list q) (rr_stepping q) v
    (num_accept_bidi q) (num_accept_uni q) (num_shutdown_flush q) (rr_cur q) (get_stream_limit_cb q) (cb_arg q)
    (max_streams_bidi_rxfc q) (max_streams_uni_rxfc q) (is_server q) (txfcs q) (rxfcs q) (qpkts q).
Definition set_num_accept_bidi (v : Z) (q : QUIC_STREAM_MAP) : QUIC_STREAM_MAP :=
    mkQsm (heap q) (table q) (active_list q) (accept_list q) (ready_for_gc_list q) (rr_stepping q) (rr_counter q) v
    (num_accept_uni q) (num_shutdown_flush q) (rr_cur q) (get_stream_limit_cb q) (cb_arg q) (max_streams_bidi_rxfc
    q) (max_streams_uni_rxfc q) (is_server q) (txfcs q) (rxfcs q) (qpkts q).
Definition set_num_accept_uni (v : Z) (q : QUIC_STREAM_MAP) : QUIC_STREAM_MAP :=
    mkQsm (heap q) (table q) (active_list q) (accept_list q) (ready_for_gc_list q) (rr_stepping q) (rr_counter q)
    (num_accept_bidi q) v (num_shutdown_flush q) (rr_cur q) (get_stream_limit_cb q) (cb_arg q)
    (max_streams_bidi_rxfc q) (max_streams_uni_rxfc q) (is_server q) (txfcs q) (rxfcs q) (qpkts q).
Definition set_num_shutdown_flush (v : Z) (q : QUIC_STREAM_MAP) : QUIC_STREAM_MAP :=
    mkQsm (heap q) (table q) (active_list q) (accept_list q) (ready_for_gc_list q) (rr_stepping q) (rr_counter q)
    (num_accept_bidi q) (num_accept_uni q) v (rr_cur q) (get_stream_limit_cb q) (cb_arg q) (max_streams_bidi_rxfc q)
    (max_streams_uni_rxfc q) (is_server q) (txfcs q) (rxfcs q) (qpkts q).
Definition set_rr_cur (v : option nat) (q : QUIC_STREAM_MAP) : QUIC_STREAM_MAP :=
    mkQsm (heap q) (table q) (active_list q) (accept_list q) (ready_for_gc_list q) (rr_stepping q) (rr_counter q)
    (num_accept_bidi q) (num_accept_uni q) (num_shutdown_flush q) v (get_stream_limit_cb q) (cb_arg q)
    (max_streams_bidi_rxfc q) (max_streams_uni_rxfc q) (is_server q) (txfcs q) (rxfcs q) (qpkts q).
Definition set_cb_arg (v : Z * Z) (q : QUIC_STREAM_MAP) : QUIC_STREAM_MAP :=
    mkQsm (heap q) (table q) (active_list q) (accept_list q) (ready_for_gc_list q) (rr_stepping q) (rr_counter q)
    (num_accept_bidi q) (num_accept_uni q) (num_shutdown_flush q) (rr_cur q) (get_stream_limit_cb q) v
    (max_streams_bidi_rxfc q) (max_streams_uni_rxfc q) (is_server q) (txfcs q) (rxfcs q) (qpkts q).
Definition set_txfcs (v : Txfc.store) (q : QUIC_STREAM_MAP) : QUIC_STREAM_MAP :=
    mkQsm (heap q) (table q) (active_list q) (accept_list q) (ready_for_gc_list q) (rr_stepping q) (rr_counter q)
    (num_accept_bidi q) (num_accept_uni q) (num_shutdown_flush q) (rr_cur q) (get_stream_limit_cb q) (cb_arg q)
    (max_streams_bidi_rxfc q) (max_streams_uni_rxfc q) (is_server q) v (rxfcs q) (qpkts q).
Definition set_rxfcs (v : Rxfc.store) (q : QUIC_STREAM_MAP) : QUIC_STREAM_MAP :=
    mkQsm (heap q) (table q) (active_list q) (accept_list q) (ready_for_gc_list q) (rr_stepping q) (rr_counter q)
    (num_accept_bidi q) (num_accept_uni q) (num_shutdown_flush q) (rr_cur q) (get_stream_limit_cb q) (cb_arg q)
    (max_streams_bidi_rxfc q) (max_streams_uni_rxfc q) (is_server q) (txfcs q) v (qpkts q).
Definition set_qpkts (v : gmap nat Z) (q : QUIC_STREAM_MAP) : QUIC_STREAM_MAP :=
    mkQsm (heap q) (table q) (active_list q) (accept_list q) (ready_for_gc_list q) (rr_stepping q) (rr_counter q)
    (num_accept_bidi q) (num_accept_uni q) (num_shutdown_flush q) (rr_cur q) (get_stream_limit_cb q) (cb_arg q)
    (max_streams_bidi_rxfc q) (max_streams_uni_rxfc q) (is_server q) (txfcs q) (rxfcs q) v.

(** ** Access through pointers *)
Definition deref (p : nat) : M QUIC_STREAM_MAP QUIC_STREAM := fun q =>
  match heap q !! p with Some s => (Ret s, q) | None => (Undef, q) end.
Definition upd (p : nat) (f : QUIC_STREAM -> QUIC_STREAM) : M QUIC_STREAM_MAP unit :=
  s ← deref p; modify (fun q => set_heap (<[p := f s]> (heap q)) q).
Definition lift_opt {S A} (o : option A) : M S A := match o with Some a => mret a | None => undefined end.
Definition lift_res {S A} (r : res A) : M S A := fun s => (r, s).
(** A call whose result is not used, or is tested. *)
Definition try_ {S A} (m : M S A) : M S bool := fun s =>
  match m s with
  | (Ret _, s) => (Ret true, s)
  | (Err, s) => (Ret false, s)
  | (Undef, s) => (Undef, s)
  end.
Definition when_ {S} (b : bool) (m : M S unit) : M S unit := if b then m else mret tt.
Definition assert_ {S} (b : bool) : M S unit := if b then mret tt else undefined.
Definition on_active (f : clist -> res clist) : M QUIC_STREAM_MAP unit :=
  q ← get; c ← lift_res (f (active_list q)); modify (set_active_list c).
Definition on_accept (f : clist -> res clist) : M QUIC_STREAM_MAP unit :=
  q ← get; c ← lift_res (f (accept_list q)); modify (set_accept_list c).
Definition on_gc (f : clist -> res clist) : M QUIC_STREAM_MAP unit :=
  q ← get; c ← lift_res (f (ready_for_gc_list q)); modify (set_ready_for_gc_list c).

(** ** Predicates of the header *)
Definition ossl_quic_stream_is_server_init (s : QUIC_STREAM) : bool := Z.land (type s) 1 =? 1.
Definition ossl_quic_stream_is_bidi (s : QUIC_STREAM) : bool := Z.land (type s) 2 =? 0.
Definition ossl_quic_stream_is_local_init (s : QUIC_STREAM) : bool :=
  Bool.eqb (ossl_quic_stream_is_server_init s) (as_server s).
Definition ossl_quic_stream_has_send (s : QUIC_STREAM) : bool := negb (bool_decide (send_state s = SSTREAM_NONE)).
Definition ossl_quic_stream_has_recv (s : QUIC_STREAM) : bool := negb (bool_decide (recv_state s = RSTREAM_NONE)).
Definition ossl_quic_stream_has_send_buffer (s : QUIC_STREAM) : bool :=
  match send_state s with SSTREAM_READY | SSTREAM_SEND | SSTREAM_DATA_SENT => true | _ => false end.
Definition ossl_quic_stream_send_is_reset (s : QUIC_STREAM) : bool :=
  bool_decide (send_state s = SSTREAM_RESET_SENT) || bool_decide (send_state s = SSTREAM_RESET_RECVD).
Definition ossl_quic_stream_has_recv_buffer (s : QUIC_STREAM) : bool :=
  match recv_state s with RSTREAM_RECV | RSTREAM_SIZE_KNOWN | RSTREAM_DATA_RECVD => true | _ => false end.
Definition ossl_quic_stream_recv_is_reset (s : QUIC_STREAM) : bool :=
  bool_decide (recv_state s = RSTREAM_RESET_RECVD) || bool_decide (recv_state s = RSTREAM_RESET_READ).

(** [None] when there is no final size yet. *)
Definition ossl_quic_stream_send_get_final_size (s : QUIC_STREAM) : res (option Z) :=
  match send_state s with
  | SSTREAM_SEND =>
      match sstream s with Some ss => Ret (SStream.ossl_quic_sstream_get_final_size ss) | None => Undef end
  | SSTREAM_DATA_SENT | SSTREAM_DATA_RECVD | SSTREAM_RESET_SENT | SSTREAM_RESET_RECVD => Ret (Some (send_final_size s))
  | SSTREAM_NONE | SSTREAM_READY => Ret None
  end.

(** [rxfc] is the controller of the stream.  A failed [ossl_assert] is the
    result 0. *)
Definition ossl_quic_stream_recv_get_final_size (s : QUIC_STREAM) (rxfc : Rxfc.QUIC_RXFC) : option Z :=
  match recv_state s with
  | RSTREAM_NONE | RSTREAM_RECV => None
  | _ => Rxfc.ossl_quic_rxfc_get_final_size rxfc
  end.

(** The result is an [int]: the number of bytes is converted to 32 bits, two's complement. *)
Definition int_of_size (n : Z) : Z := (n + 2147483648) mod UINT32_MOD - 2147483648.
Definition ossl_quic_stream_recv_pending (s : QUIC_STREAM) (include_fin : bool) : res Z :=
  match recv_state s with
  | RSTREAM_RECV | RSTREAM_SIZE_KNOWN | RSTREAM_DATA_RECVD =>
      match rstream s with
      | None => Undef
      | Some rs =>
          let '(avail, fin) := default (0, false) (RStream.ossl_quic_rstream_available rs) in
          Ret (int_of_size (if (avail =? 0) && include_fin && fin then 1 else avail))
      end
  | RSTREAM_RESET_RECVD => Ret (Z.b2z include_fin)
  | RSTREAM_NONE | RSTREAM_DATA_READ | RSTREAM_RESET_READ => Ret 0
  end.

(** ** The map *)
Definition ossl_quic_stream_map_init (cb : option (bool -> Z * Z -> Z)) (arg : Z * Z) (bidi uni : option nat) (server : bool)
    (tx : Txfc.store) (rx : Rxfc.store) (pk : gmap nat Z) : QUIC_STREAM_MAP :=
  mkQsm ∅ ∅ list_init list_init list_init 1 0 0 0 0 None cb arg bidi uni server tx rx pk.

(** [doall] of the hash table: the callback on every stream, in the order of
    the buckets, which is the argument. *)
Definition ossl_quic_stream_map_visit (visit_cb : nat -> M QUIC_STREAM_MAP unit) : list nat -> M QUIC_STREAM_MAP unit :=
  fix go order := match order with [] => mret tt | p :: order => visit_cb p;; go order end.

Definition zero_txfc : Txfc.QUIC_TXFC := Txfc.mkTxfc None 0 0 false.
Definition zero_rxfc : Rxfc.QUIC_RXFC := Rxfc.mkRxfc 0 0 0 0 0 0 0 0 None 0 false false false.

(** The stream before the assignments of the states. *)
Definition zalloc_stream (stream_id type : Z) (server : bool) : QUIC_STREAM :=
  mkQs stream_id 0 0 0 0 0 None None (u8 type) SSTREAM_NONE RSTREAM_NONE
    false server false false false false false false false false false.

Definition new_stream (stream_id type : Z) (server : bool) : QUIC_STREAM :=
  let s := zalloc_stream stream_id type server in
  let s := set_send_state (if ossl_quic_stream_is_local_init s || ossl_quic_stream_is_bidi s
                           then SSTREAM_READY else SSTREAM_NONE) s in
  let s := set_recv_state (if negb (ossl_quic_stream_is_local_init s) || ossl_quic_stream_is_bidi s
                           then RSTREAM_RECV else RSTREAM_NONE) s in
  set_send_final_size UINT64_MAX s.

(** [mem] is the address the allocation returns, and [lh] whether the insertion
    into the hash table finds the memory it needs: its failure is not tested. *)
Definition ossl_quic_stream_map_alloc (mem : option nat) (lh : bool) (stream_id type : Z) : M QUIC_STREAM_MAP nat :=
  q ← get;
  match table q !! stream_id with
  | Some _ => fail
  | None =>
      match mem with
      | None => fail
      | Some p =>
          modify (fun q => set_heap (<[p := new_stream stream_id type (is_server q)]> (heap q))
                    (set_txfcs (<[p := zero_txfc]> (txfcs q)) (set_rxfcs (<[p := zero_rxfc]> (rxfcs q)) q)));;
          when_ lh (modify (fun q => set_table (<[stream_id := p]> (table q)) q));;
          mret p
      end
  end.

(** A receive buffer shares the packet counters and the controllers with the
    map: [load] gives it their present values. *)
Definition load (q : QUIC_STREAM_MAP) (rs : RStream.QUIC_RSTREAM) : RStream.QUIC_RSTREAM :=
  RStream.mkRs (RStream.fl rs) (RStream.rxfc rs) (RStream.statm rs) (RStream.head_range rs) (RStream.rbuf rs)
    (qpkts q) (rxfcs q) (RStream.ck rs).

(** [ossl_quic_rstream_free] on the buffer of a stream. *)
Definition free_rstream (rs : option RStream.QUIC_RSTREAM) : M QUIC_STREAM_MAP unit :=
  q ← get;
  r ← lift_res (RStream.ossl_quic_rstream_free (load q <$> rs));
  match r with Some rs => modify (set_qpkts (RStream.pkts rs)) | None => mret tt end.

Definition unlink (p : nat) (c : clist) : res clist := if is_null (c !! Some p) then Ret c else list_remove p c.

Definition ossl_quic_stream_map_release (stream : option nat) : M QUIC_STREAM_MAP unit :=
  match stream with
  | None => mret tt
  | Some p =>
      s ← deref p;
      on_active (unlink p);; on_accept (unlink p);; on_gc (unlink p);;
      free_rstream (rstream s);;
      modify (fun q => set_table (delete (id s) (table q)) (set_heap (delete p (heap q))
                 (set_txfcs (delete p (txfcs q)) (set_rxfcs (delete p (rxfcs q)) q))))
  end.

Definition release_each (p : nat) : M QUIC_STREAM_MAP unit := ossl_quic_stream_map_release (Some p).
Definition ossl_quic_stream_map_cleanup (order : list nat) : M QUIC_STREAM_MAP unit :=
  ossl_quic_stream_map_visit release_each order;; modify (set_table ∅).

Definition ossl_quic_stream_map_get_by_id (stream_id : Z) (q : QUIC_STREAM_MAP) : option nat := table q !! stream_id.

(** ** Active streams *)
Definition stream_map_mark_active (p : nat) : M QUIC_STREAM_MAP unit :=
  s ← deref p;
  if active s then mret tt
  else
    on_active (list_insert_tail p);;
    modify (fun q => if is_null (rr_cur q) then set_rr_cur (Some p) q else q);;
    upd p (set_active true).

Definition stream_map_mark_inactive (p : nat) : M QUIC_STREAM_MAP unit :=
  s ← deref p;
  if negb (active s) then mret tt
  else
    q ← get;
    (if decide (rr_cur q = Some p)
     then n ← lift_res (list_next (Some p) (active_list q)); modify (set_rr_cur n) else mret tt);;
    modify (fun q => if decide (rr_cur q = Some p) then set_rr_cur None q else q);;
    on_active (list_remove p);;
    upd p (set_active false).

Definition ossl_quic_stream_map_set_rr_stepping (stepping : Z) (q : QUIC_STREAM_MAP) : QUIC_STREAM_MAP :=
  set_rr_counter 0 (set_rr_stepping stepping q).

Definition txfc_of (p : nat) : M QUIC_STREAM_MAP Txfc.QUIC_TXFC := q ← get; lift_opt (txfcs q !! p).
Definition rxfc_of (p : nat) : M QUIC_STREAM_MAP Rxfc.QUIC_RXFC := q ← get; lift_opt (rxfcs q !! p).

Definition stream_has_data_to_send (p : nat) : M QUIC_STREAM_MAP bool :=
  s ← deref p;
  if negb (ossl_quic_stream_has_send_buffer s) then mret false
  else
    ss ← lift_opt (sstream s);
    match SStream.ossl_quic_sstream_get_stream_frame 0 2 ss with
    | Undef => undefined
    | Err => mret false
    | Ret (shdr, _) =>
        q ← get;
        fc_credit ← lift_opt (Txfc.ossl_quic_txfc_get_credit (txfcs q) p 0);
        txfc ← txfc_of p;
        let fc_limit := u64 (Txfc.ossl_quic_txfc_get_swm txfc + fc_credit) in
        mret ((SStream.h_is_fin shdr && (SStream.h_len shdr =? 0)) || (SStream.h_offset shdr <? fc_limit))
    end.

Definition qsm_ready_for_gc (s : QUIC_STREAM) : M QUIC_STREAM_MAP bool :=
  (if negb (deleted s) || negb (ossl_quic_stream_has_send s) || ossl_quic_stream_send_is_reset s then mret tt
   else f ← lift_res (ossl_quic_stream_send_get_final_size s); assert_ (negb (is_null f)));;
  mret (deleted s
        && (negb (ossl_quic_stream_has_recv s) || acked_stop_sending s)
        && (negb (ossl_quic_stream_has_send s)
            || bool_decide (send_state s = SSTREAM_DATA_RECVD)
            || bool_decide (send_state s = SSTREAM_RESET_RECVD))).

Definition ossl_quic_stream_map_is_local_allowed_by_stream_limit (q : QUIC_STREAM_MAP) (stream_ordinal : Z) (is_uni : bool) : bool :=
  match get_stream_limit_cb q with
  | None => true
  | Some cb => stream_ordinal <? cb is_uni (cb_arg q)
  end.

Definition shutdown_flush_done (p : nat) : M QUIC_STREAM_MAP unit :=
  s ← deref p;
  if negb (shutdown_flush s) then mret tt
  else
    q ← get;
    assert_ (0 <? num_shutdown_flush q);;
    upd p (set_shutdown_flush false);;
    modify (fun q => set_num_shutdown_flush (u64 (num_shutdown_flush q - 1)) q).

Definition ossl_quic_stream_map_notify_totally_acked (p : nat) : M QUIC_STREAM_MAP unit :=
  s ← deref p;
  match send_state s with
  | SSTREAM_DATA_SENT =>
      upd p (set_send_state SSTREAM_DATA_RECVD);;
      upd p (set_sstream None);;
      shutdown_flush_done p
  | _ => fail
  end.

Definition is_totally_acked (p : nat) : M QUIC_STREAM_MAP bool :=
  s ← deref p; ss ← lift_opt (sstream s); lift_res (SStream.ossl_quic_sstream_is_totally_acked ss).

(** The first condition of [update_state]. *)
Definition allowed_by_stream_limit (q : QUIC_STREAM_MAP) (s : QUIC_STREAM) : bool :=
  if Bool.eqb (ossl_quic_stream_is_server_init s) (is_server q)
  then ossl_quic_stream_map_is_local_allowed_by_stream_limit q (Z.shiftr (id s) 2) (negb (ossl_quic_stream_is_bidi s))
  else true.

(** What happens to a send part whose data has all been acknowledged. *)
Definition update_acked (p : nat) : M QUIC_STREAM_MAP unit :=
  s ← deref p;
  b ← (if bool_decide (send_state s = SSTREAM_DATA_SENT) then is_totally_acked p else mret false);
  if b : bool then try_ (ossl_quic_stream_map_notify_totally_acked p);; mret tt
  else if shutdown_flush s && bool_decide (send_state s = SSTREAM_SEND)
  then b ← is_totally_acked p; when_ b (shutdown_flush_done p)
  else mret tt.

Definition update_gc (p : nat) : M QUIC_STREAM_MAP unit :=
  s ← deref p;
  if ready_for_gc s then mret tt
  else
    b ← qsm_ready_for_gc s;
    upd p (set_ready_for_gc b);;
    when_ b (on_gc (list_insert_tail p)).

Definition should_be_active (allowed : bool) (p : nat) : M QUIC_STREAM_MAP bool :=
  s ← deref p;
  if negb allowed || ready_for_gc s then mret false
  else
    r ← rxfc_of p;
    if ossl_quic_stream_has_recv s && negb (ossl_quic_stream_recv_is_reset s)
       && (bool_decide (recv_state s = RSTREAM_RECV)
           && (want_max_stream_data s || (Rxfc.ossl_quic_rxfc_has_cwm_changed r false).1))
    then mret true
    else if want_stop_sending s || want_reset_stream s then mret true
    else if peer_stop_sending s then mret false
    else stream_has_data_to_send p.

Definition ossl_quic_stream_map_update_state (p : nat) : M QUIC_STREAM_MAP unit :=
  s ← deref p;
  q ← get;
  let allowed := allowed_by_stream_limit q s in
  update_acked p;;
  update_gc p;;
  b ← should_be_active allowed p;
  if b : bool then stream_map_mark_active p else stream_map_mark_inactive p.

(** ** Send part *)
Definition ossl_quic_stream_map_ensure_send_part_id (p : nat) : M QUIC_STREAM_MAP unit :=
  s ← deref p;
  match send_state s with
  | SSTREAM_NONE => fail
  | SSTREAM_READY => upd p (set_send_state SSTREAM_SEND)
  | _ => mret tt
  end.

Definition ossl_quic_stream_map_notify_all_data_sent (p : nat) : M QUIC_STREAM_MAP unit :=
  s ← deref p;
  match send_state s with
  | SSTREAM_SEND =>
      ss ← lift_opt (sstream s);
      match SStream.ossl_quic_sstream_get_final_size ss with
      | None => fail
      | Some n => upd p (set_send_final_size n);; upd p (set_send_state SSTREAM_DATA_SENT)
      end
  | _ => fail
  end.

(** From [case QUIC_SSTREAM_STATE_DATA_SENT] on. *)
Definition reset_send (p : nat) (aec : Z) : M QUIC_STREAM_MAP unit :=
  upd p (set_reset_stream_aec aec);;
  upd p (set_want_reset_stream true);;
  upd p (set_send_state SSTREAM_RESET_SENT);;
  upd p (set_sstream None);;
  shutdown_flush_done p;;
  ossl_quic_stream_map_update_state p.

(** From [case QUIC_SSTREAM_STATE_SEND] on. *)
Definition reset_send_size (p : nat) (aec : Z) : M QUIC_STREAM_MAP unit :=
  t ← txfc_of p;
  upd p (set_send_final_size (Txfc.ossl_quic_txfc_get_swm t));;
  reset_send p aec.

Definition ossl_quic_stream_map_reset_stream_send_part (p : nat) (aec : Z) : M QUIC_STREAM_MAP unit :=
  s ← deref p;
  match send_state s with
  | SSTREAM_NONE | SSTREAM_DATA_RECVD => fail
  | SSTREAM_READY => ossl_quic_stream_map_ensure_send_part_id p;; reset_send_size p aec
  | SSTREAM_SEND => reset_send_size p aec
  | SSTREAM_DATA_SENT => reset_send p aec
  | SSTREAM_RESET_SENT | SSTREAM_RESET_RECVD => mret tt
  end.

Definition ossl_quic_stream_map_notify_reset_stream_acked (p : nat) : M QUIC_STREAM_MAP unit :=
  s ← deref p;
  match send_state s with
  | SSTREAM_RESET_SENT => upd p (set_send_state SSTREAM_RESET_RECVD)
  | SSTREAM_RESET_RECVD => mret tt
  | _ => fail
  end.

(** ** Receive part *)
Definition ossl_quic_stream_map_notify_size_known_recv_part (p : nat) (final_size : Z) : M QUIC_STREAM_MAP unit :=
  s ← deref p;
  match recv_state s with
  | RSTREAM_RECV => upd p (set_recv_state RSTREAM_SIZE_KNOWN)
  | _ => fail
  end.

Definition ossl_quic_stream_map_notify_totally_received (p : nat) : M QUIC_STREAM_MAP unit :=
  s ← deref p;
  match recv_state s with
  | RSTREAM_SIZE_KNOWN => upd p (set_recv_state RSTREAM_DATA_RECVD);; upd p (set_want_stop_sending false)
  | _ => fail
  end.

Definition ossl_quic_stream_map_notify_totally_read (p : nat) : M QUIC_STREAM_MAP unit :=
  s ← deref p;
  match recv_state s with
  | RSTREAM_DATA_RECVD =>
      upd p (set_recv_state RSTREAM_DATA_READ);;
      free_rstream (rstream s);;
      upd p (set_rstream None)
  | _ => fail
  end.

Definition ossl_quic_stream_map_notify_reset_recv_part (p : nat) (app_error_code final_size : Z) : M QUIC_STREAM_MAP unit :=
  s ← deref p;
  match recv_state s with
  | RSTREAM_NONE => fail
  | RSTREAM_RECV | RSTREAM_SIZE_KNOWN | RSTREAM_DATA_RECVD =>
      r ← rxfc_of p;
      guard_ (match ossl_quic_stream_recv_get_final_size s r with Some n => n =? final_size | None => true end);;
      upd p (set_recv_state RSTREAM_RESET_RECVD);;
      upd p (set_peer_reset_stream_aec app_error_code);;
      upd p (set_want_stop_sending false);;
      free_rstream (rstream s);;
      upd p (set_rstream None);;
      ossl_quic_stream_map_update_state p
  | RSTREAM_DATA_READ | RSTREAM_RESET_RECVD | RSTREAM_RESET_READ => mret tt
  end.

Definition ossl_quic_stream_map_notify_app_read_reset_recv_part (p : nat) : M QUIC_STREAM_MAP unit :=
  s ← deref p;
  match recv_state s with
  | RSTREAM_RESET_RECVD => upd p (set_recv_state RSTREAM_RESET_READ)
  | _ => fail
  end.

Definition ossl_quic_stream_map_schedule_stop_sending (p : nat) : M QUIC_STREAM_MAP unit :=
  s ← deref p;
  guard_ (stop_sending s);;
  if want_stop_sending s then mret tt
  else
    match recv_state s with
    | RSTREAM_RECV | RSTREAM_SIZE_KNOWN =>
        upd p (set_want_stop_sending true);; ossl_quic_stream_map_update_state p
    | _ => mret tt
    end.

Definition ossl_quic_stream_map_stop_sending_recv_part (p : nat) (aec : Z) : M QUIC_STREAM_MAP unit :=
  s ← deref p;
  guard_ (negb (stop_sending s));;
  match recv_state s with
  | RSTREAM_RECV | RSTREAM_SIZE_KNOWN =>
      upd p (set_stop_sending true);;
      upd p (set_stop_sending_aec aec);;
      ossl_quic_stream_map_schedule_stop_sending p
  | _ => fail
  end.

(** ** Accept queue *)
Definition ossl_quic_stream_map_peek_accept_queue (q : QUIC_STREAM_MAP) : res (option nat) := list_next None (accept_list q).

Definition ossl_quic_stream_map_push_accept_queue (p : nat) : M QUIC_STREAM_MAP unit :=
  on_accept (list_insert_tail p);;
  s ← deref p;
  modify (fun q => if ossl_quic_stream_is_bidi s then set_num_accept_bidi (u64 (num_accept_bidi q + 1)) q
                   else set_num_accept_uni (u64 (num_accept_uni q + 1)) q).

Definition qsm_get_max_streams_rxfc (q : QUIC_STREAM_MAP) (s : QUIC_STREAM) : option nat :=
  if ossl_quic_stream_is_bidi s then max_streams_bidi_rxfc q else max_streams_uni_rxfc q.

(** [ck] is the clock the controller reads. *)
Definition ossl_quic_stream_map_remove_from_accept_queue (ck : clock) (p : nat) (rtt : OsslTime.OSSL_TIME) : M QUIC_STREAM_MAP unit :=
  on_accept (list_remove p);;
  s ← deref p;
  modify (fun q => if ossl_quic_stream_is_bidi s then set_num_accept_bidi (u64 (num_accept_bidi q - 1)) q
                   else set_num_accept_uni (u64 (num_accept_uni q - 1)) q);;
  q ← get;
  match qsm_get_max_streams_rxfc q s with
  | None => mret tt
  | Some fc =>
      r ← lift_opt (Rxfc.ossl_quic_rxfc_on_retire ck (rxfcs q) fc 1 rtt);
      modify (set_rxfcs r.2)
  end.

Definition ossl_quic_stream_map_get_accept_queue_len (q : QUIC_STREAM_MAP) (is_uni : bool) : Z :=
  if is_uni then num_accept_uni q else num_accept_bidi q.
Definition ossl_quic_stream_map_get_total_accept_queue_len (q : QUIC_STREAM_MAP) : Z :=
  u64 (ossl_quic_stream_map_get_accept_queue_len q false + ossl_quic_stream_map_get_accept_queue_len q true).

(** ** Collection and shutdown *)
Definition gc_loop (qs_head : option nat) : nat -> option nat -> M QUIC_STREAM_MAP unit :=
  fix go fuel qs :=
    match qs with
    | None => mret tt
    | Some p =>
        if decide (qs = qs_head) then mret tt
        else
          match fuel with
          | O => undefined
          | S fuel =>
              q ← get;
              qsn ← lift_res (list_next (Some p) (ready_for_gc_list q));
              ossl_quic_stream_map_release (Some p);;
              go fuel qsn
          end
    end.
Definition ossl_quic_stream_map_gc : M QUIC_STREAM_MAP unit :=
  q ← get;
  h ← lift_res (list_next None (ready_for_gc_list q));
  gc_loop h (size (heap q)) h.

Definition eligible_for_shutdown_flush (p : nat) : M QUIC_STREAM_MAP bool :=
  s ← deref p;
  match send_state s with
  | SSTREAM_SEND | SSTREAM_DATA_SENT => b ← is_totally_acked p; mret (negb b)
  | _ => mret false
  end.

Definition begin_shutdown_flush_each (p : nat) : M QUIC_STREAM_MAP unit :=
  b ← eligible_for_shutdown_flush p;
  s ← deref p;
  if negb b || shutdown_flush s then mret tt
  else
    upd p (set_shutdown_flush true);;
    modify (fun q => set_num_shutdown_flush (u64 (num_shutdown_flush q + 1)) q).

Definition ossl_quic_stream_map_begin_shutdown_flush (order : list nat) : M QUIC_STREAM_MAP unit :=
  modify (set_num_shutdown_flush 0);;
  ossl_quic_stream_map_visit begin_shutdown_flush_each order.

Definition ossl_quic_stream_map_is_shutdown_flush_finished (q : QUIC_STREAM_MAP) : bool := num_shutdown_flush q =? 0.

(** ** Iteration *)
Record QUIC_STREAM_ITER := mkIter { first_stream : option nat; stream : option nat }.

Definition ossl_quic_stream_iter_init (advance_rr : bool) : M QUIC_STREAM_MAP QUIC_STREAM_ITER :=
  q ← get;
  let it := mkIter (rr_cur q) (rr_cur q) in
  (if advance_rr && negb (is_null (stream it)) then
     modify (fun q => set_rr_counter (u64 (rr_counter q + 1)) q);;
     q ← get;
     if rr_stepping q <=? rr_counter q then
       modify (set_rr_counter 0);;
       match rr_cur q with
       | None => undefined
       | Some c => n ← lift_res (list_next (Some c) (active_list q)); modify (set_rr_cur n)
       end
     else mret tt
   else mret tt);;
  mret it.

Definition ossl_quic_stream_iter_next (q : QUIC_STREAM_MAP) (it : QUIC_STREAM_ITER) : res QUIC_STREAM_ITER :=
  match stream it with
  | None => Ret it
  | Some p =>
      match list_next (Some p) (active_list q) with
      | Ret n => Ret (mkIter (first_stream it) (if decide (n = first_stream it) then None else n))
      | _ => Undef
      end
  end.

(** The streams [for (init(it); it.stream != NULL; next(it))] visits: [None]
    when [fuel] visits are not enough. *)
Fixpoint iter_visits (q : QUIC_STREAM_MAP) (fuel : nat) (it : QUIC_STREAM_ITER) : option (list nat) :=
  match stream it with
  | None => Some []
  | Some p =>
      match fuel with
      | O => None
      | S fuel =>
          match ossl_quic_stream_iter_next q it with
          | Ret it => l ← iter_visits q fuel it; Some (p :: l)
          | _ => None
          end
      end
  end.

End StreamMap.
