(* ===== verification/StreamMapInv.v ===== *)
(** * Invariant of the stream map

    What holds of a stream map between the calls the rest of the connection
    makes: [stream_ok] for a stream (the header's table of which buffer exists in
    which state, the parts a stream of its type has, and when its flags can be
    set) and [links] for the map (the three lists, the round-robin position, the
    counters, the controllers and packet references).  Every operation is shown
    to preserve it and to be free of failed assertions and invalid pointers, and
    to leave every other stream alone ([frame]). *)
From Stdlib Require Import ZArith Lia.
From stdpp Require Import base tactics option gmap sorting.
From S2P Require Import Prelude QuicFc SfList RStream SStream CList StreamMap.
#[local] Open Scope Z_scope.
Import CList StreamMap.

Module StreamMapInv.

(** The packet references the receive buffer of a stream holds. *)
Definition held_refs (k : nat) (s : QUIC_STREAM) : Z :=
  match rstream s with Some rs => SfList.holders (SfList.frames (RStream.fl rs)) k | None => 0 end.

Record stream_ok (server : bool) (s : QUIC_STREAM) : Prop := {
  so_server : as_server s = server;
  so_sstream : is_null (sstream s) = negb (ossl_quic_stream_has_send_buffer s);
  so_rstream : is_null (rstream s) = negb (ossl_quic_stream_has_recv_buffer s);
  so_send : ossl_quic_stream_has_send s = ossl_quic_stream_is_local_init s || ossl_quic_stream_is_bidi s;
  so_recv : ossl_quic_stream_has_recv s = negb (ossl_quic_stream_is_local_init s) || ossl_quic_stream_is_bidi s;
  so_buf ss : sstream s = Some ss -> exists d, SStream.ss_ok d ss;
  so_flush : shutdown_flush s = true -> send_state s = SSTREAM_SEND \/ send_state s = SSTREAM_DATA_SENT;
  so_deleted : deleted s = true ->
    match send_state s with
    | SSTREAM_READY => False
    | SSTREAM_SEND => exists ss n, sstream s = Some ss /\ SStream.ossl_quic_sstream_get_final_size ss = Some n
    | _ => True
    end;
  so_reset : want_reset_stream s = true -> ossl_quic_stream_send_is_reset s = true;
  so_stop : want_stop_sending s = true ->
    stop_sending s = true /\ (recv_state s = RSTREAM_RECV \/ recv_state s = RSTREAM_SIZE_KNOWN);
  so_gc : ready_for_gc s = true -> active s = false /\ deleted s = true /\
    (send_state s = SSTREAM_NONE \/ send_state s = SSTREAM_DATA_RECVD \/ send_state s = SSTREAM_RESET_RECVD)
}.

Definition bidi_at (q : QUIC_STREAM_MAP) (p : nat) : bool :=
  match heap q !! p with Some s => ossl_quic_stream_is_bidi s | None => false end.
Definition count_at (f : nat -> bool) (l : list nat) : Z := Z.of_nat (length (filter (fun p => f p = true) l)).

Record links (act acc gc : list nat) (q : QUIC_STREAM_MAP) : Prop := {
  l_act : rep act (active_list q);
  l_acc : rep acc (accept_list q);
  l_gc : rep gc (ready_for_gc_list q);
  l_active p : p ∈ act <-> exists s, heap q !! p = Some s /\ active s = true;
  l_ready p : p ∈ gc <-> exists s, heap q !! p = Some s /\ ready_for_gc s = true;
  l_accept p : p ∈ acc -> is_Some (heap q !! p);
  l_rr : match rr_cur q with None => act = [] | Some p => p ∈ act end;
  l_bidi : num_accept_bidi q = count_at (bidi_at q) acc;
  l_uni : num_accept_uni q = count_at (fun p => negb (bidi_at q p)) acc;
  l_flush : num_shutdown_flush q = msum (fun s => Z.b2z (shutdown_flush s)) (heap q);
  l_size : Z.of_nat (size (heap q)) < UINT64_MOD;
  l_table i p : table q !! i = Some p -> exists s, heap q !! p = Some s /\ id s = i;
  l_fcs p s : heap q !! p = Some s -> is_Some (rxfcs q !! p) /\
    exists t, txfcs q !! p = Some t /\ Txfc.usable (txfcs q) t;
  l_pkts k : msum (held_refs k) (heap q) <= SfList.rcount (qpkts q) k
}.

(** The invariant, except that the stream [x] is being changed. *)
Record inv (x : option nat) (act acc gc : list nat) (q : QUIC_STREAM_MAP) : Prop := {
  i_links : links act acc gc q;
  i_streams p s : heap q !! p = Some s -> x <> Some p -> stream_ok (is_server q) s
}.

(** The references to a packet that the streams do not account for. *)
Definition slack (q : QUIC_STREAM_MAP) (k : nat) : Z := SfList.rcount (qpkts q) k - msum (held_refs k) (heap q).

(** What an operation on the stream [p] leaves alone. *)
Record frame (p : nat) (q q' : QUIC_STREAM_MAP) : Prop := {
  f_heap p' : p' <> p -> heap q' !! p' = heap q !! p';
  f_table : table q' = table q;
  f_server : is_server q' = is_server q;
  f_cb : get_stream_limit_cb q' = get_stream_limit_cb q /\ cb_arg q' = cb_arg q;
  f_fcs : txfcs q' = txfcs q /\ rxfcs q' = rxfcs q;
  f_max : max_streams_bidi_rxfc q' = max_streams_bidi_rxfc q /\ max_streams_uni_rxfc q' = max_streams_uni_rxfc q;
  f_slack k : slack q k <= slack q' k
}.

#[export] Instance frame_refl p : Reflexive (frame p).
Proof. by intros q; split. Qed.
#[export] Instance frame_trans p : Transitive (frame p).
Proof.
  intros q1 q2 q3 [H1 H2 H3 [H4 H4'] [H5 H5'] [H6 H6'] H7] [K1 K2 K3 [K4 K4'] [K5 K5'] [K6 K6'] K7].
  split; [|congruence..|by rewrite K4, K4'|by rewrite K5, K5'|by rewrite K6, K6'|intros k; by transitivity (slack q2 k)]. intros p' Hp. by rewrite K1, H1.
Qed.

(** An assignment that does not touch what the map's lists and counters record. *)
Record keeps (s s' : QUIC_STREAM) : Prop := {
  k_id : id s' = id s;
  k_type : type s' = type s;
  k_active : active s' = active s;
  k_ready : ready_for_gc s' = ready_for_gc s;
  k_flush : shutdown_flush s' = shutdown_flush s;
  k_refs k : held_refs k s' <= held_refs k s
}.

Lemma count_at_ext f g l : (forall p, p ∈ l -> f p = g p) -> count_at f l = count_at g l.
Proof.
  intros H. unfold count_at. f_equal. f_equal. induction l as [|x l IH]; [done|].
  rewrite !filter_cons. rewrite (H x) by left. rewrite IH by (intros; apply H; by right). done.
Qed.

Lemma bidi_at_insert q p s s' : heap q !! p = Some s -> type s' = type s ->
  forall p', bidi_at (set_heap (<[p := s']> (heap q)) q) p' = bidi_at q p'.
Proof.
  intros Hp Ht p'. unfold bidi_at. cbn. destruct (decide (p' = p)) as [->|].
  - rewrite lookup_insert_eq, Hp. unfold ossl_quic_stream_is_bidi. by rewrite Ht.
  - by rewrite lookup_insert_ne.
Qed.

Lemma lookup_flag (o : option QUIC_STREAM) s (f : QUIC_STREAM -> bool) :
  o = Some s -> (exists s', o = Some s' /\ f s' = true) <-> f s = true.
Proof. intros ->. split; [by intros (? & [= <-] & ?)|eauto]. Qed.

(** A change to the stream [p] together with the lists and counters that record
    it; everything about the other streams stays. *)
Lemma links_change act acc gc q p s s' act' gc' al gl rr n :
  links act acc gc q -> heap q !! p = Some s ->
  id s' = id s -> type s' = type s -> (forall k, held_refs k s' <= held_refs k s) ->
  rep act' al -> rep gc' gl ->
  (forall p', p' <> p -> (p' ∈ act' <-> p' ∈ act)) -> (p ∈ act' <-> active s' = true) ->
  (forall p', p' <> p -> (p' ∈ gc' <-> p' ∈ gc)) -> (p ∈ gc' <-> ready_for_gc s' = true) ->
  match rr with None => act' = [] | Some c => c ∈ act' end ->
  n = num_shutdown_flush q - Z.b2z (shutdown_flush s) + Z.b2z (shutdown_flush s') ->
  links act' acc gc' (set_heap (<[p := s']> (heap q)) (set_active_list al (set_ready_for_gc_list gl
                        (set_rr_cur rr (set_num_shutdown_flush n q))))).
Proof.
  intros [] Hp Hid Ht Hrefs Hal Hgl Ha Hap Hg Hgp Hrr ->. pose proof (bidi_at_insert q p s s' Hp Ht) as Hb.
  assert (Hl : forall p', <[p := s']> (heap q) !! p' = if decide (p' = p) then Some s' else heap q !! p').
  { intros p'. rewrite lookup_insert. repeat case_decide; congruence. }
  split; cbn; try done.
  - intros p'. rewrite Hl. case_decide as Hc; [subst p'; by rewrite Hap, lookup_flag|]. by rewrite Ha, l_active0.
  - intros p'. rewrite Hl. case_decide as Hc; [subst p'; by rewrite Hgp, lookup_flag|]. by rewrite Hg, l_ready0.
  - intros p' Hin. rewrite Hl. case_decide; eauto.
  - rewrite l_bidi0. apply count_at_ext. intros; symmetry; apply Hb.
  - rewrite l_uni0. apply count_at_ext. intros; f_equal; symmetry; apply Hb.
  - rewrite (msum_insert_Some _ _ _ _ _ Hp). lia.
  - by rewrite map_size_insert_Some by eauto.
  - intros i p' E. destruct (l_table0 _ _ E) as (x & Ex & Hi). rewrite Hl. case_decide; [|eauto].
    subst p'. rewrite Hp in Ex. injection Ex as <-. eexists. split; [done|]. congruence.
  - intros p' x. rewrite Hl. case_decide; [subst; eauto|eauto].
  - intros k. rewrite (msum_insert_Some _ _ _ _ _ Hp). specialize (l_pkts0 k). specialize (Hrefs k). lia.
Qed.

Lemma links_upd act acc gc q p s s' :
  links act acc gc q -> heap q !! p = Some s -> keeps s s' ->
  links act acc gc (set_heap (<[p := s']> (heap q)) q).
Proof.
  intros Hl Hp Hk. pose proof Hl as []. destruct Hk.
  pose proof (links_change act acc gc q p s s' act gc (active_list q) (ready_for_gc_list q) (rr_cur q) (num_shutdown_flush q))
    as H. destruct q. apply H; try done.
  - rewrite l_active0, k_active0. by apply lookup_flag.
  - rewrite l_ready0, k_ready0. by apply lookup_flag.
  - rewrite k_flush0. lia.
Qed.

(** ** Working on one stream *)

Record at_ (p : nat) (s : QUIC_STREAM) (act acc gc : list nat) (q : QUIC_STREAM_MAP) : Prop := {
  at_inv : inv (Some p) act acc gc q;
  at_here : heap q !! p = Some s
}.

Lemma inv_open act acc gc q p s :
  inv None act acc gc q -> heap q !! p = Some s -> at_ p s act acc gc q /\ stream_ok (is_server q) s.
Proof. intros [Hl Hs] Hp. split; [|eauto]. split; [|done]. split; [done|]. intros; by eapply Hs. Qed.

Lemma at_close act acc gc q p s : at_ p s act acc gc q -> stream_ok (is_server q) s -> inv None act acc gc q.
Proof.
  intros [[Hl Hs] Hp] Hok. split; [done|]. intros p' s' Hp' _. destruct (decide (p' = p)) as [->|]; [|naive_solver].
  by rewrite Hp in Hp'; simplify_eq.
Qed.

Lemma wp_deref p q s Q E : heap q !! p = Some s -> Q s q -> wp (deref p) q Q E.
Proof. unfold wp, deref. by intros ->. Qed.

Lemma wp_upd p f q s Q E : heap q !! p = Some s -> Q tt (set_heap (<[p := f s]> (heap q)) q) -> wp (upd p f) q Q E.
Proof. intros Hp HQ. unfold upd. apply wp_bind. by eapply wp_deref. Qed.

Lemma wp_upd_at p f q s act acc gc (Q : unit -> QUIC_STREAM_MAP -> Prop) E :
  at_ p s act acc gc q -> keeps s (f s) ->
  (forall q', at_ p (f s) act acc gc q' -> frame p q q' -> Q tt q') -> wp (upd p f) q Q E.
Proof.
  intros [[Hl Hs] Hp] Hk HQ. eapply wp_upd; [done|]. apply HQ; [split; [split|]|split]; cbn; try done.
  - by eapply links_upd.
  - intros p' s' Hp' Hne. apply (Hs p'); [|done]. rewrite lookup_insert_ne in Hp' by congruence. done.
  - by rewrite lookup_insert_eq.
  - intros p' Hne. by rewrite lookup_insert_ne.
  - intros k. unfold slack. cbn. rewrite (msum_insert_Some _ _ _ _ _ Hp). destruct Hk. specialize (k_refs0 k). lia.
Qed.

Lemma at_change act acc gc q p s s' act' gc' al gl rr n :
  at_ p s act acc gc q ->
  id s' = id s -> type s' = type s -> (forall k, held_refs k s' <= held_refs k s) ->
  rep act' al -> rep gc' gl ->
  (forall p', p' <> p -> (p' ∈ act' <-> p' ∈ act)) -> (p ∈ act' <-> active s' = true) ->
  (forall p', p' <> p -> (p' ∈ gc' <-> p' ∈ gc)) -> (p ∈ gc' <-> ready_for_gc s' = true) ->
  match rr with None => act' = [] | Some c => c ∈ act' end ->
  n = num_shutdown_flush q - Z.b2z (shutdown_flush s) + Z.b2z (shutdown_flush s') ->
  let q' := set_heap (<[p := s']> (heap q)) (set_active_list al (set_ready_for_gc_list gl
              (set_rr_cur rr (set_num_shutdown_flush n q)))) in
  at_ p s' act' acc gc' q' /\ frame p q q'.
Proof.
  intros [[Hl Hs] Hp] Hid Ht Hrefs Hal Hgl Ha Hap Hg Hgp Hrr Hn. cbn zeta.
  split; [split; [split|]|split]; cbn; try done.
  - by eapply (links_change act acc gc q p s).
  - intros p' s1 Hp' Hne. apply (Hs p'); [|done]. rewrite lookup_insert_ne in Hp' by congruence. done.
  - by rewrite lookup_insert_eq.
  - intros p' Hne. by rewrite lookup_insert_ne.
  - intros k. unfold slack. cbn. rewrite (msum_insert_Some _ _ _ _ _ Hp). specialize (Hrefs k). lia.
Qed.

Lemma at_flag act acc gc q p s : at_ p s act acc gc q -> (p ∈ act <-> active s = true) /\ (p ∈ gc <-> ready_for_gc s = true).
Proof.
  intros [[[] _] Hp]. rewrite l_active0, l_ready0. split; by apply lookup_flag.
Qed.

Lemma set_active_id b s : active s = b -> set_active b s = s.
Proof. intros <-. by destruct s. Qed.

Lemma wp_mark_active p q s act acc gc (Q : unit -> QUIC_STREAM_MAP -> Prop) E :
  at_ p s act acc gc q ->
  (forall q', at_ p (set_active true s) (if active s then act else act ++ [p]) acc gc q' -> frame p q q' -> Q tt q') ->
  wp (stream_map_mark_active p) q Q E.
Proof.
  intros Hat HQ. pose proof (at_flag _ _ _ _ _ _ Hat) as [Hfa Hfg]. pose proof Hat as [[Hl _] Hp].
  unfold stream_map_mark_active. apply wp_bind. eapply wp_deref; [done|]. destruct (active s) eqn:Ha.
  - apply wp_ret, HQ; [by rewrite set_active_id|reflexivity].
  - assert (Hn : p ∉ act) by (rewrite Hfa; congruence).
    destruct (insert_tail_rep _ _ p (l_act _ _ _ _ Hl) Hn) as (al & El & Hal).
    unfold on_active. wp_steps. unfold wp at 1, lift_res. rewrite El. cbn [fst]. wp_steps.
    eapply wp_upd; [cbn; by destruct (rr_cur q)|].
    set (rr := match rr_cur q with None => Some p | Some c => Some c end).
    destruct (at_change act acc gc q p s (set_active true s) (act ++ [p]) gc al (ready_for_gc_list q) rr (num_shutdown_flush q))
      as [H1 H2]; try done; try (cbn; lia); try apply Hl.
    + intros p' Hne. rewrite elem_of_app, list_elem_of_singleton. tauto.
    + split; [done|]. intros _. apply elem_of_app. right. by apply list_elem_of_singleton.
    + pose proof (l_rr _ _ _ _ Hl). unfold rr. destruct (rr_cur q); apply elem_of_app; [by left|right; by apply list_elem_of_singleton].
    + revert H1 H2. unfold rr. destruct (rr_cur q) eqn:Er; destruct q; cbn in *; subst; apply HQ.
Qed.

Lemma head_other (a b : list nat) p : NoDup (a ++ p :: b) ->
  match (if decide (head (b ++ a ++ [p]) = Some p) then None else head (b ++ a ++ [p])) with
  | None => a ++ b = []
  | Some c => c ∈ a ++ b
  end.
Proof.
  intros Hnd. destruct (last_not_self a b p Hnd) as [_ Hhb]. destruct b as [|x b]; cbn.
  - destruct a as [|x a]; cbn; [by rewrite decide_True|]. apply NoDup_app in Hnd as (_ & Hnd & _).
    rewrite decide_False; [left|]. intros [= ->]. apply (Hnd p); left.
  - rewrite decide_False; [|done]. apply elem_of_app. right. left.
Qed.

Lemma wp_mark_inactive p q s act acc gc (Q : unit -> QUIC_STREAM_MAP -> Prop) E :
  at_ p s act acc gc q ->
  (forall q' act', at_ p (set_active false s) act' acc gc q' -> frame p q q' -> Q tt q') ->
  wp (stream_map_mark_inactive p) q Q E.
Proof.
  intros Hat HQ. pose proof (at_flag _ _ _ _ _ _ Hat) as [Hfa Hfg]. pose proof Hat as [[Hl _] Hp].
  unfold stream_map_mark_inactive. apply wp_bind. eapply wp_deref; [done|]. destruct (active s) eqn:Ha; cbn [negb].
  2: { apply wp_ret. eapply HQ; [by rewrite set_active_id|reflexivity]. }
  destruct (list_elem_of_split act p) as (a & b & Eab); [by apply Hfa|].
  pose proof (l_act _ _ _ _ Hl) as Hact. rewrite Eab in Hact. pose proof (rep_nodup _ _ Hact) as Hnd.
  destruct (remove_rep _ _ _ _ Hact) as (al & El & Hal).
  set (rr := if decide (rr_cur q = Some p)
             then if decide (head (b ++ a ++ [p]) = Some p) then None else head (b ++ a ++ [p]) else rr_cur q).
  assert (Hrr : match rr with None => a ++ b = [] | Some c => c ∈ a ++ b end).
  { unfold rr. case_decide; [by apply head_other|]. pose proof (l_rr _ _ _ _ Hl) as Hr. rewrite Eab in Hr.
    destruct (rr_cur q); [|by apply app_eq_nil in Hr as [_ ?]]. rewrite elem_of_app, elem_of_cons in *.
    destruct Hr as [?|[?|?]]; [auto|congruence|auto]. }
  apply NoDup_app in Hnd as (_ & Hnd & Hnd2). apply NoDup_cons in Hnd2 as [Hpb _].
  destruct (at_change act acc gc q p s (set_active false s) (a ++ b) gc al (ready_for_gc_list q) rr (num_shutdown_flush q))
    as [H1 H2]; try done; try (cbn; lia); try apply Hl.
  { intros p' Hne. rewrite Eab, !elem_of_app, elem_of_cons. tauto. }
  { split; [|done]. rewrite elem_of_app. intros [Hin|?]; [|done]. destruct (Hnd p Hin). left. }
  specialize (HQ _ _ H1 H2). clear H1 H2. apply wp_bind. apply wp_get.
  unfold rr in HQ. apply wp_bind. destruct (decide (rr_cur q = Some p)) as [Er|Er].
  - apply wp_bind. unfold wp at 1, lift_res. rewrite (next_rep _ _ _ _ Hact). wp_steps.
    unfold on_active. cbn [rr_cur set_rr_cur]. destruct (decide (head (b ++ a ++ [p]) = Some p)); wp_steps;
      unfold wp at 1, lift_res; cbn [active_list set_rr_cur]; rewrite El; wp_steps; (eapply wp_upd; [done|]); by destruct q.
  - wp_steps. rewrite decide_False by done. unfold on_active. wp_steps. unfold wp at 1, lift_res. rewrite El. wp_steps.
    eapply wp_upd; [done|]. by destruct q.
Qed.

Lemma flush_positive act acc gc q p s : links act acc gc q -> heap q !! p = Some s ->
  0 <= num_shutdown_flush q < UINT64_MOD /\ (shutdown_flush s = true -> 0 < num_shutdown_flush q).
Proof.
  intros Hl Hp. rewrite (l_flush _ _ _ _ Hl). pose proof (l_size _ _ _ _ Hl) as Hsz.
  assert (Hb : forall m, 0 <= msum (fun s => Z.b2z (shutdown_flush s)) m <= Z.of_nat (size m)).
  { intros m. induction m as [|i x m Hi IH] using map_ind; [done|].
    rewrite msum_insert_None, map_size_insert_None by done. destruct (shutdown_flush x); cbn [Z.b2z]; lia. }
  pose proof (Hb (heap q)). split; [lia|]. intros Hf. rewrite <- (insert_delete_id _ _ _ Hp).
  rewrite msum_insert_None by apply lookup_delete_eq. specialize (Hb (delete p (heap q))). rewrite Hf. cbn. lia.
Qed.

Lemma set_flush_id b s : shutdown_flush s = b -> set_shutdown_flush b s = s.
Proof. intros <-. by destruct s. Qed.

Lemma wp_flush_done p q s act acc gc (Q : unit -> QUIC_STREAM_MAP -> Prop) E :
  at_ p s act acc gc q ->
  (forall q', at_ p (set_shutdown_flush false s) act acc gc q' -> frame p q q' -> Q tt q') ->
  wp (shutdown_flush_done p) q Q E.
Proof.
  intros Hat HQ. pose proof (at_flag _ _ _ _ _ _ Hat) as [Hfa Hfg]. pose proof Hat as [[Hl _] Hp].
  destruct (flush_positive _ _ _ _ _ _ Hl Hp) as [Hn Hpos].
  unfold shutdown_flush_done. apply wp_bind. eapply wp_deref; [done|]. destruct (shutdown_flush s) eqn:Hf; cbn [negb].
  2: { apply wp_ret, HQ; [by rewrite set_flush_id|reflexivity]. }
  specialize (Hpos eq_refl). wp_steps. unfold assert_. destruct (Z.ltb_spec 0 (num_shutdown_flush q)); [|lia].
  wp_steps. eapply wp_upd; [done|]. wp_steps. cbn [num_shutdown_flush set_heap]. rewrite u64_id by (unfold is_u64; lia).
  destruct (at_change act acc gc q p s (set_shutdown_flush false s) act gc (active_list q) (ready_for_gc_list q) (rr_cur q)
              (num_shutdown_flush q - 1)) as [H1 H2]; try done; try apply Hl; [cbn; rewrite Hf; cbn; lia|].
  specialize (HQ _ H1 H2). by destruct q.
Qed.

(** ** What [update_state] computes *)

Definition totally_acked (s : QUIC_STREAM) : bool :=
  match sstream s with
  | Some ss => match SStream.ossl_quic_sstream_is_totally_acked ss with Ret b => b | _ => false end
  | None => false
  end.

Definition after_acked (s : QUIC_STREAM) : QUIC_STREAM :=
  match send_state s with
  | SSTREAM_DATA_SENT =>
      if totally_acked s then set_shutdown_flush false (set_sstream None (set_send_state SSTREAM_DATA_RECVD s)) else s
  | SSTREAM_SEND => if shutdown_flush s && totally_acked s then set_shutdown_flush false s else s
  | _ => s
  end.

Definition collectable (s : QUIC_STREAM) : bool :=
  deleted s && (negb (ossl_quic_stream_has_recv s) || acked_stop_sending s)
  && (negb (ossl_quic_stream_has_send s) || bool_decide (send_state s = SSTREAM_DATA_RECVD)
      || bool_decide (send_state s = SSTREAM_RESET_RECVD)).

Definition after_gc (s : QUIC_STREAM) : QUIC_STREAM := if ready_for_gc s then s else set_ready_for_gc (collectable s) s.

(** The spent watermark and the credit of a stream; then whether there is data
    to send that they allow, or a bare FIN. *)
Definition txfcs_of (tx : Txfc.store) (p : nat) : option (Z * Z) :=
  t ← tx !! p; c ← Txfc.ossl_quic_txfc_get_credit tx p 0; Some (Txfc.swm t, c).
Definition has_data (tx : Txfc.store) (p : nat) (s : QUIC_STREAM) : bool :=
  match sstream s, txfcs_of tx p with
  | Some ss, Some (swm, credit) =>
      match SStream.ossl_quic_sstream_get_stream_frame 0 2 ss with
      | Ret (h, _) => (SStream.h_is_fin h && (SStream.h_len h =? 0)) || (SStream.h_offset h <? u64 (swm + credit))
      | _ => false
      end
  | _, _ => false
  end.

Definition wants_active (q : QUIC_STREAM_MAP) (p : nat) (s : QUIC_STREAM) : bool :=
  allowed_by_stream_limit q s && negb (ready_for_gc s)
  && ((bool_decide (recv_state s = RSTREAM_RECV)
       && (want_max_stream_data s || match rxfcs q !! p with Some r => Rxfc.has_cwm_changed r | None => false end))
      || want_stop_sending s || want_reset_stream s
      || (negb (peer_stop_sending s) && has_data (txfcs q) p s)).

Definition updated (q : QUIC_STREAM_MAP) (p : nat) (s : QUIC_STREAM) : QUIC_STREAM :=
  let s' := after_gc (after_acked s) in set_active (wants_active q p s') s'.

Lemma wp_totally_acked p q s act acc gc (Q : bool -> QUIC_STREAM_MAP -> Prop) E :
  at_ p s act acc gc q -> stream_ok (is_server q) s -> ossl_quic_stream_has_send_buffer s = true ->
  Q (totally_acked s) q -> wp (is_totally_acked p) q Q E.
Proof.
  intros [_ Hp] Hok Hb HQ. pose proof (so_sstream _ _ Hok) as Hs. rewrite Hb in Hs. destruct (sstream s) as [ss|] eqn:Es; [|done].
  destruct (so_buf _ _ Hok ss Es) as [d Hd]. destruct (SStream.totally_acked_ok d ss Hd) as (b & Eb & _).
  unfold is_totally_acked. wp_steps. eapply wp_deref; [done|]. wp_steps. rewrite Es. unfold lift_opt. wp_steps.
  unfold wp, lift_res. rewrite Eb. unfold totally_acked in HQ. by rewrite Es, Eb in HQ.
Qed.

Lemma wp_try {S A} (m : M S A) s (Q : bool -> S -> Prop) E :
  wp m s (fun _ => Q true) (Q false) -> wp (try_ m) s Q E.
Proof. unfold wp, try_. by destruct (m s) as [[] ?]. Qed.

Lemma keeps_send_state v s : keeps s (set_send_state v s).
Proof. by split. Qed.
Lemma keeps_sstream v s : keeps s (set_sstream v s).
Proof. by split. Qed.

Lemma wp_update_acked p q s act acc gc (Q : unit -> QUIC_STREAM_MAP -> Prop) E :
  at_ p s act acc gc q -> stream_ok (is_server q) s ->
  (forall q', at_ p (after_acked s) act acc gc q' -> frame p q q' -> Q tt q') ->
  wp (update_acked p) q Q E.
Proof.
  intros Hat Hok HQ. pose proof Hat as [_ Hp]. unfold update_acked. wp_steps. eapply wp_deref; [done|]. wp_steps.
  unfold after_acked in HQ.
  destruct (send_state s) eqn:Est; cbn [bool_decide decide sstream_state_eq_dec]; 
    rewrite ?andb_false_r; try (rewrite bool_decide_eq_false_2 by done); try (rewrite bool_decide_eq_true_2 by done);
    wp_steps; rewrite ?andb_true_r, ?andb_false_r; try (wp_steps; apply HQ; [done|reflexivity]).
  - destruct (shutdown_flush s) eqn:Ef; cbn [andb] in HQ; [|apply wp_ret, HQ; [done|reflexivity]].
    wp_steps. eapply wp_totally_acked; [done..|unfold ossl_quic_stream_has_send_buffer; by rewrite Est|].
    destruct (totally_acked s); cbn [when_]; [|apply wp_ret, HQ; [done|reflexivity]]. by eapply wp_flush_done.
  - eapply wp_totally_acked; [done..|unfold ossl_quic_stream_has_send_buffer; by rewrite Est|].
    destruct (totally_acked s).
    + wp_steps. apply wp_try. unfold ossl_quic_stream_map_notify_totally_acked. wp_steps. eapply wp_deref; [done|].
      rewrite Est. wp_steps. eapply wp_upd_at; [done|apply keeps_send_state|]. intros q1 Hat1 Hf1.
      wp_steps. eapply wp_upd_at; [done|apply keeps_sstream|]. intros q2 Hat2 Hf2.
      eapply wp_flush_done; [done|]. intros q3 Hat3 Hf3. wp_steps. apply HQ; [done|]. by rewrite Hf1, Hf2.
    + apply wp_ret, HQ; [done|reflexivity].
Qed.

Lemma after_acked_ok server s : stream_ok server s -> stream_ok server (after_acked s).
Proof.
  intros Hok. unfold after_acked. destruct (send_state s) eqn:Est; try done.
  - destruct (shutdown_flush s && totally_acked s); [|done]. destruct Hok. split; try done.
  - destruct (totally_acked s); [|done]. destruct Hok.
    split; try done; cbn in *.
    + revert so_send0. unfold ossl_quic_stream_has_send. by rewrite Est.
    + intros H. specialize (so_reset0 H). unfold ossl_quic_stream_send_is_reset in so_reset0. by rewrite Est in so_reset0.
    + intros H. destruct (so_gc0 H) as (? & ? & [?|[?|?]]); congruence.
Qed.

Lemma wp_ready_for_gc q s (Q : bool -> QUIC_STREAM_MAP -> Prop) E :
  stream_ok (is_server q) s -> Q (collectable s) q -> wp (qsm_ready_for_gc s) q Q E.
Proof.
  intros Hok HQ. unfold qsm_ready_for_gc. apply wp_bind.
  destruct (negb (deleted s) || negb (ossl_quic_stream_has_send s) || ossl_quic_stream_send_is_reset s) eqn:Ec; [by wp_steps|].
  zb. pose proof (so_deleted _ _ Hok ltac:(done)) as Hd.
  assert (exists f, ossl_quic_stream_send_get_final_size s = Ret (Some f)) as [f Ef].
  { unfold ossl_quic_stream_send_get_final_size, ossl_quic_stream_has_send, ossl_quic_stream_send_is_reset in *.
    destruct (send_state s) eqn:Est; try done; try (by eexists). destruct Hd as (ss & n & -> & En). rewrite En. by eexists. }
  unfold lift_res. rewrite Ef. by wp_steps.
Qed.

Lemma set_ready_id b s : ready_for_gc s = b -> set_ready_for_gc b s = s.
Proof. intros <-. by destruct s. Qed.

Lemma wp_update_gc p q s act acc gc (Q : unit -> QUIC_STREAM_MAP -> Prop) E :
  at_ p s act acc gc q -> stream_ok (is_server q) s ->
  (forall q' gc', at_ p (after_gc s) act acc gc' q' -> frame p q q' -> Q tt q') ->
  wp (update_gc p) q Q E.
Proof.
  intros Hat Hok HQ. pose proof (at_flag _ _ _ _ _ _ Hat) as [Hfa Hfg]. pose proof Hat as [[Hl _] Hp].
  unfold update_gc. wp_steps. eapply wp_deref; [done|]. unfold after_gc in HQ.
  destruct (ready_for_gc s) eqn:Er; [apply wp_ret; by eapply HQ|].
  wp_steps. apply wp_ready_for_gc; [done|]. wp_steps. destruct (collectable s) eqn:Ec; cbn [when_].
  - assert (Hn : p ∉ gc) by (rewrite Hfg; congruence).
    destruct (insert_tail_rep _ _ p (l_gc _ _ _ _ Hl) Hn) as (gl & El & Hgl).
    eapply wp_upd; [done|]. unfold on_gc. wp_steps. unfold wp at 1, lift_res. cbn [ready_for_gc_list set_heap]. rewrite El. wp_steps.
    destruct (at_change act acc gc q p s (set_ready_for_gc true s) act (gc ++ [p]) (active_list q) gl (rr_cur q) (num_shutdown_flush q))
      as [H1 H2]; try done; try (cbn; lia); try apply Hl.
    + intros p' Hne. rewrite elem_of_app, list_elem_of_singleton. tauto.
    + split; [done|]. intros _. apply elem_of_app. right. by apply list_elem_of_singleton.
    + specialize (HQ _ _ H1 H2). by destruct q.
  - rewrite set_ready_id in HQ by done. eapply wp_upd_at; [done|by split; rewrite ?set_ready_id|].
    intros q' Hat' Hf. rewrite set_ready_id in Hat' by done. wp_steps. by eapply HQ.
Qed.

Lemma txfcs_of_ok act acc gc q p s : links act acc gc q -> heap q !! p = Some s ->
  exists t c, txfcs q !! p = Some t /\ Txfc.ossl_quic_txfc_get_credit (txfcs q) p 0 = Some c /\
    txfcs_of (txfcs q) p = Some (Txfc.swm t, c).
Proof.
  intros Hl Hp. destruct (l_fcs _ _ _ _ Hl _ _ Hp) as (_ & t & Et & Hpar).
  destruct (Txfc.usable_credit _ _ _ Et Hpar) as [c Ec].
  exists t, c. unfold txfcs_of. by rewrite Et, Ec.
Qed.

Definition buffer_ok (s : QUIC_STREAM) : Prop :=
  is_null (sstream s) = negb (ossl_quic_stream_has_send_buffer s) /\
  forall ss, sstream s = Some ss -> exists d, SStream.ss_ok d ss.

Lemma wp_has_data p q s act acc gc (Q : bool -> QUIC_STREAM_MAP -> Prop) E :
  at_ p s act acc gc q -> buffer_ok s -> Q (has_data (txfcs q) p s) q ->
  wp (stream_has_data_to_send p) q Q E.
Proof.
  intros [[Hl _] Hp] [Hs Hbuf] HQ. unfold stream_has_data_to_send. wp_steps. eapply wp_deref; [done|].
  unfold has_data in HQ.
  destruct (sstream s) as [ss|] eqn:Es; cbn [is_null] in Hs; destruct (ossl_quic_stream_has_send_buffer s); try done; cbn [negb].
  unfold lift_opt. wp_steps. destruct (Hbuf ss eq_refl) as [d Hd].
  destruct (txfcs_of_ok _ _ _ _ _ _ Hl Hp) as (t & c & Et & Ec & Etc). rewrite Etc in HQ.
  pose proof (SStream.get_frame_ok d ss 0 Hd ltac:(lia)) as Hg.
  assert (Hd' : SStream.ossl_quic_sstream_get_stream_frame 0 2 ss <> Undef).
  { destruct (SStream.new_set ss !! Z.to_nat 0); [destruct Hg as (iov & -> & _); done|]. rewrite Hg. by destruct (_ && _). }
  destruct (SStream.ossl_quic_sstream_get_stream_frame 0 2 ss) as [[h iov]| |] eqn:Ef; [|by apply wp_ret|done].
  wp_steps. rewrite Ec. unfold txfc_of, lift_opt. wp_steps. rewrite Et. by wp_steps.
Qed.

Lemma wp_should_be_active p q s act acc gc (Q : bool -> QUIC_STREAM_MAP -> Prop) E :
  at_ p s act acc gc q -> buffer_ok s -> Q (wants_active q p s) q ->
  wp (should_be_active (allowed_by_stream_limit q s) p) q Q E.
Proof.
  intros Hat Hb HQ. pose proof Hat as [[Hl _] Hp]. destruct (l_fcs _ _ _ _ Hl _ _ Hp) as ([r Er] & _).
  unfold should_be_active. wp_steps. eapply wp_deref; [done|]. unfold wants_active in HQ. rewrite Er in HQ.
  destruct (allowed_by_stream_limit q s); cbn [negb orb andb] in *; [|by apply wp_ret].
  destruct (ready_for_gc s); cbn [negb andb] in *; [by apply wp_ret|].
  unfold rxfc_of, lift_opt. wp_steps. rewrite Er. wp_steps. cbn [Rxfc.ossl_quic_rxfc_has_cwm_changed fst].
  assert (Hrecv : forall b, ossl_quic_stream_has_recv s && negb (ossl_quic_stream_recv_is_reset s)
            && (bool_decide (recv_state s = RSTREAM_RECV) && b) = bool_decide (recv_state s = RSTREAM_RECV) && b).
  { intros b. unfold ossl_quic_stream_has_recv, ossl_quic_stream_recv_is_reset. by destruct (recv_state s). }
  rewrite Hrecv. destruct (bool_decide (recv_state s = RSTREAM_RECV) && _); [by apply wp_ret|].
  cbn [orb] in HQ. destruct (want_stop_sending s); [by apply wp_ret|]. destruct (want_reset_stream s); [by apply wp_ret|].
  cbn [orb] in *. destruct (peer_stop_sending s); [by apply wp_ret|]. by eapply wp_has_data.
Qed.

(** Collecting and activating a well-formed stream leaves it well formed. *)
Lemma settled_ok server s b :
  stream_ok server s -> (ready_for_gc (after_gc s) = true -> b = false) -> stream_ok server (set_active b (after_gc s)).
Proof.
  intros Hok Hb. unfold after_gc in *. destruct (ready_for_gc s) eqn:Er.
  - rewrite (Hb Er). destruct (so_gc _ _ Hok Er) as [Ha _]. by rewrite set_active_id.
  - destruct Hok. split; try done. cbn in *. intros Hc. split; [auto|]. unfold collectable in Hc. zb. split; [done|].
    unfold ossl_quic_stream_has_send in *. destruct (send_state s); auto; done.
Qed.

Lemma updated_ok server q p s : stream_ok server s -> stream_ok server (updated q p s).
Proof.
  intros Hok. apply settled_ok; [by apply after_acked_ok|]. intros Hr. unfold wants_active. by rewrite Hr, andb_false_r.
Qed.

Lemma after_gc_fields s : id (after_gc s) = id s /\ type (after_gc s) = type s /\ sstream (after_gc s) = sstream s /\
  send_state (after_gc s) = send_state s /\ recv_state (after_gc s) = recv_state s.
Proof. unfold after_gc. by destruct (ready_for_gc s). Qed.

Lemma after_acked_fields s : id (after_acked s) = id s /\ type (after_acked s) = type s /\ recv_state (after_acked s) = recv_state s.
Proof. unfold after_acked. destruct (send_state s); try done; by destruct (_ : bool). Qed.

Lemma allowed_ext q q' s s' : get_stream_limit_cb q' = get_stream_limit_cb q -> cb_arg q' = cb_arg q ->
  is_server q' = is_server q -> id s' = id s -> type s' = type s -> allowed_by_stream_limit q' s' = allowed_by_stream_limit q s.
Proof.
  intros E1 E2 E3 E4 E5. unfold allowed_by_stream_limit, ossl_quic_stream_map_is_local_allowed_by_stream_limit,
    ossl_quic_stream_is_server_init, ossl_quic_stream_is_bidi. by rewrite E1, E2, E3, E4, E5.
Qed.

Lemma wants_active_frame q q' p s : frame p q q' -> wants_active q' p s = wants_active q p s.
Proof.
  intros [_ _ Hs [Hc Ha] [Ht Hr] _ _]. unfold wants_active. by rewrite Ht, Hr, (allowed_ext q q' s s).
Qed.

Lemma wp_update_state p q s act acc gc (Q : unit -> QUIC_STREAM_MAP -> Prop) E :
  at_ p s act acc gc q -> stream_ok (is_server q) s ->
  (forall q' act' gc', at_ p (updated q p s) act' acc gc' q' -> frame p q q' -> Q tt q') ->
  wp (ossl_quic_stream_map_update_state p) q Q E.
Proof.
  intros Hat Hok HQ. pose proof Hat as [_ Hp]. unfold ossl_quic_stream_map_update_state. wp_steps. eapply wp_deref; [done|].
  wp_steps. eapply wp_update_acked; [done..|]. intros q1 Hat1 Hf1.
  wp_steps. eapply wp_update_gc; [done|rewrite (f_server _ _ _ Hf1); by apply after_acked_ok|]. intros q2 gc2 Hat2 Hf2.
  set (s2 := after_gc (after_acked s)) in *.
  assert (Hf : frame p q q2) by (by rewrite Hf1).
  rewrite <- (allowed_ext q q2 s s2); [|try apply Hf..|].
  2: { unfold s2. destruct (after_gc_fields (after_acked s)) as (-> & _). apply after_acked_fields. }
  2: { unfold s2. destruct (after_gc_fields (after_acked s)) as (_ & -> & _). apply after_acked_fields. }
  wp_steps. eapply wp_should_be_active; [done| |].
  - unfold buffer_ok, ossl_quic_stream_has_send_buffer, s2. destruct (after_gc_fields (after_acked s)) as (_ & _ & -> & -> & _).
    pose proof (after_acked_ok _ _ Hok) as []. done.
  - rewrite (wants_active_frame q q2) by done. destruct (wants_active q p s2) eqn:Ew.
    + eapply wp_mark_active; [done|]. intros q3 Hat3 Hf3. eapply HQ; [|by rewrite Hf].
      unfold updated. fold s2. rewrite Ew. exact Hat3.
    + eapply wp_mark_inactive; [done|]. intros q3 act3 Hat3 Hf3. eapply HQ; [|by rewrite Hf].
      unfold updated. fold s2. rewrite Ew. exact Hat3.
Qed.

(** ** Releasing the receive buffer *)

Lemma free_loop_ok fl l rc : (forall k, SfList.holders l k <= SfList.rcount rc k) ->
  exists rc', SfList.free_loop l (fl, rc) = (Ret tt, (fl, rc')) /\
    forall k, SfList.rcount rc' k = SfList.rcount rc k - SfList.holders l k.
Proof.
  revert rc. induction l as [|f l IH]; intros rc H.
  - exists rc. split; [done|]. intros k. unfold SfList.holders. cbn. lia.
  - destruct (SfList.release_ok (SfList.pkt f) fl rc) as (rc1 & E1 & H1).
    { intros k Hk. specialize (H k). rewrite SfList.holders_cons, decide_True in H by done.
      pose proof (SfList.holders_nonneg l k). lia. }
    destruct (IH rc1) as (rc2 & E2 & H2).
    { intros k. rewrite H1. specialize (H k). rewrite SfList.holders_cons in H. lia. }
    exists rc2. cbn [SfList.free_loop]. unfold SfList.stream_frame_free. rewrite (bind_ret _ _ _ _ _ E1), E2. split; [done|].
    intros k. rewrite H2, H1, SfList.holders_cons. lia.
Qed.

Lemma held_refs_nonneg k s : 0 <= held_refs k s.
Proof. unfold held_refs. destruct (rstream s); [apply SfList.holders_nonneg|lia]. Qed.

Lemma msum_nonneg {A} (f : A -> Z) (h : gmap nat A) : (forall y, 0 <= f y) -> 0 <= msum f h.
Proof.
  intros Hf. induction h as [|j y m Hj IH] using map_ind; [done|]. rewrite msum_insert_None by done. specialize (Hf y). lia.
Qed.

Lemma msum_ge {A} (f : A -> Z) (h : gmap nat A) i x : (forall y, 0 <= f y) -> h !! i = Some x -> f x <= msum f h.
Proof.
  intros Hf Hi. rewrite <- (insert_delete_id h i x Hi), msum_insert_None by apply lookup_delete_eq.
  pose proof (msum_nonneg f (delete i h) Hf). lia.
Qed.

Lemma free_rstream_ok q s : (forall k, held_refs k s <= SfList.rcount (qpkts q) k) ->
  exists pk, free_rstream (rstream s) q = (Ret tt, set_qpkts pk q) /\
    forall k, SfList.rcount pk k = SfList.rcount (qpkts q) k - held_refs k s.
Proof.
  intros H. unfold free_rstream, held_refs in *. destruct (rstream s) as [rs|].
  - destruct (free_loop_ok (RStream.fl rs) (SfList.frames (RStream.fl rs)) (qpkts q) H) as (pk & E & Hpk).
    exists pk. split; [|done]. rewrite (bind_ret get _ q q q) by done. unfold RStream.ossl_quic_rstream_free, RStream.on_fl.
    cbn [fmap option_fmap option_map load RStream.fl RStream.pkts]. unfold SfList.ossl_sframe_list_destroy.
    rewrite (bind_ret get _ _ (RStream.fl rs, qpkts q) (RStream.fl rs, qpkts q)) by done. cbn [fst]. by rewrite E.
  - exists (qpkts q). split; [|intros; lia]. by destruct q.
Qed.

Lemma wp_drop_rstream p q s act acc gc (Q : unit -> QUIC_STREAM_MAP -> Prop) E :
  at_ p s act acc gc q ->
  (forall q', at_ p (set_rstream None s) act acc gc q' -> frame p q q' -> Q tt q') ->
  wp (free_rstream (rstream s)) q (fun _ q1 => wp (upd p (set_rstream None)) q1 Q E) E.
Proof.
  intros [[Hl Hs] Hp] HQ. pose proof Hl as [].
  destruct (free_rstream_ok q s) as (pk & Ef & Hpk).
  { intros k. etrans; [|apply l_pkts0]. apply (msum_ge (held_refs k) _ p); [apply held_refs_nonneg|done]. }
  eapply wp_eq; [exact Ef|]. eapply wp_upd; [done|].
  assert (Hl' : links act acc gc (set_heap (<[p := set_rstream None s]> (heap q)) q)).
  { eapply links_upd; [done..|]. split; try done. intros k. apply held_refs_nonneg. }
  apply HQ; [split; [split|]|split]; cbn; try done.
  - destruct Hl'. split; try done. intros k. cbn. rewrite Hpk, (msum_insert_Some _ _ _ _ _ Hp). specialize (l_pkts0 k). cbn. lia.
  - intros p' s' Hp' Hne. apply (Hs p'); [|done]. rewrite lookup_insert_ne in Hp' by congruence. done.
  - by rewrite lookup_insert_eq.
  - intros p' Hne. by rewrite lookup_insert_ne.
  - intros k. unfold slack. cbn. rewrite (msum_insert_Some _ _ _ _ _ Hp), Hpk. cbn. lia.
Qed.

(** ** New streams *)

Lemma inv_init cb arg bidi uni server tx rx pk : (forall k, 0 <= SfList.rcount pk k) ->
  inv None [] [] [] (ossl_quic_stream_map_init cb arg bidi uni server tx rx pk).
Proof.
  intros Hpk. split; [split; cbn; try apply rep_init; try done|done].
  3: by intros p ?%elem_of_nil.
  all: intros p; split; [by intros ?%elem_of_nil|by intros (? & ? & ?)].
Qed.

(** A stream that is not on any list yet, with its controllers. *)
Definition adopt (p : nat) (s : QUIC_STREAM) (t : Txfc.QUIC_TXFC) (r : Rxfc.QUIC_RXFC) (q : QUIC_STREAM_MAP) : QUIC_STREAM_MAP :=
  set_heap (<[p := s]> (heap q)) (set_txfcs (<[p := t]> (txfcs q)) (set_rxfcs (<[p := r]> (rxfcs q)) q)).

Lemma adopt_inv x act acc gc q p s t r :
  inv None act acc gc q -> heap q !! p = None -> Z.of_nat (size (heap q)) + 1 < UINT64_MOD ->
  active s = false -> ready_for_gc s = false -> shutdown_flush s = false -> (forall k, held_refs k s = 0) ->
  txfcs q !! p = None -> Txfc.usable (txfcs q) t ->
  (x = Some p \/ stream_ok (is_server q) s) ->
  inv x act acc gc (adopt p s t r q).
Proof.
  intros [[] Hs] Hn Hsz Ha Hr Hf Hrs Hnt Hpar Hok.
  assert (Hl : forall p', <[p := s]> (heap q) !! p' = if decide (p' = p) then Some s else heap q !! p').
  { intros p'. rewrite lookup_insert. repeat case_decide; congruence. }
  assert (Hbi : forall p', p' ∈ acc -> bidi_at (adopt p s t r q) p' = bidi_at q p').
  { intros p' Hin. unfold bidi_at, adopt. cbn. rewrite Hl, decide_False; [done|]. intros ->.
    destruct (l_accept0 p Hin). congruence. }
  assert (Hcur : forall p' (f : QUIC_STREAM -> bool), f s = false ->
    (exists s', <[p := s]> (heap q) !! p' = Some s' /\ f s' = true) <-> exists s', heap q !! p' = Some s' /\ f s' = true).
  { intros p' f Hfs. rewrite Hl. case_decide as Hd; [subst p'|done]. rewrite Hn. split; [|by intros (? & ? & ?)].
    intros (? & [= <-] & ?); congruence. }
  assert (Htx : forall u, Txfc.usable (txfcs q) u -> Txfc.usable (<[p := t]> (txfcs q)) u).
  { intros u Hu. eapply Txfc.usable_mono; [exact Hu|]. intros k conn Hk H1 H2. exists conn. rewrite lookup_insert_ne by congruence. done. }
  split; [split; cbn; try done|].
  - intros p'. by rewrite l_active0, Hcur.
  - intros p'. by rewrite l_ready0, Hcur.
  - intros p' Hin. rewrite Hl. case_decide; eauto.
  - rewrite l_bidi0. apply count_at_ext. intros p' Hin. by rewrite Hbi.
  - rewrite l_uni0. apply count_at_ext. intros p' Hin. by rewrite Hbi.
  - rewrite msum_insert_None, Hf by done. cbn. lia.
  - rewrite map_size_insert_None by done. lia.
  - intros i p' E. destruct (l_table0 _ _ E) as (s' & Es & Hi). rewrite Hl. case_decide; [congruence|eauto].
  - intros p' s' E. destruct (decide (p' = p)) as [->|Hne].
    + rewrite !lookup_insert_eq. split; [eauto|]. exists t. split; [done|]. by apply Htx.
    + rewrite lookup_insert_ne in E by done. destruct (l_fcs0 _ _ E) as (Hr' & t' & Et & Ht). rewrite !lookup_insert_ne by done.
      split; [done|]. exists t'. split; [done|]. by apply Htx.
  - intros k. rewrite msum_insert_None, Hrs by done. specialize (l_pkts0 k). lia.
  - intros p' s'. cbn. rewrite Hl. case_decide as Hd; [intros [= <-] Hx; destruct Hok; [congruence|done]|].
    intros Hp' _. by apply (Hs p').
Qed.

(** The entry of the hash table. *)
Lemma table_inv x act acc gc q p s : inv x act acc gc q -> heap q !! p = Some s ->
  inv x act acc gc (set_table (<[id s := p]> (table q)) q).
Proof.
  intros [[] Hs] Hp. split; [split; cbn; try done|done].
  intros i p' E. rewrite lookup_insert in E. case_decide; [simplify_eq; eauto|eauto].
Qed.
End StreamMapInv.
