(* ===== verification/StreamMapSpec.v ===== *)
(** * What the stream map promises

    The operations on one stream as one type, what each does to the stream it is
    called on ([trans]), and the theorems about all of them: they are total and
    preserve the invariant, they follow the state machines of RFC 9000 s. 3.1 and
    3.2, the active streams are the ones that have something to send, and the
    iteration visits every active stream once and gives each its turn. *)
From Stdlib Require Import ZArith Lia.
From stdpp Require Import base tactics option gmap sorting.
From S2P Require Import Prelude OsslTime UintSet QuicFc SfList RStream SStream CList StreamMap StreamMapInv.
#[local] Open Scope Z_scope.
Import CList StreamMap StreamMapInv.

Module StreamMapSpec.

Inductive op :=
| EnsureSendPartId | NotifyAllDataSent | NotifyTotallyAcked | ResetStreamSendPart (aec : Z) | NotifyResetStreamAcked
| NotifySizeKnown (final_size : Z) | NotifyTotallyReceived | NotifyTotallyRead
| NotifyResetRecvPart (app_error_code final_size : Z) | NotifyAppReadReset
| StopSendingRecvPart (aec : Z) | ScheduleStopSending | UpdateState.

Definition exec (o : op) (p : nat) : M QUIC_STREAM_MAP unit :=
  match o with
  | EnsureSendPartId => ossl_quic_stream_map_ensure_send_part_id p
  | NotifyAllDataSent => ossl_quic_stream_map_notify_all_data_sent p
  | NotifyTotallyAcked => ossl_quic_stream_map_notify_totally_acked p
  | ResetStreamSendPart aec => ossl_quic_stream_map_reset_stream_send_part p aec
  | NotifyResetStreamAcked => ossl_quic_stream_map_notify_reset_stream_acked p
  | NotifySizeKnown n => ossl_quic_stream_map_notify_size_known_recv_part p n
  | NotifyTotallyReceived => ossl_quic_stream_map_notify_totally_received p
  | NotifyTotallyRead => ossl_quic_stream_map_notify_totally_read p
  | NotifyResetRecvPart aec n => ossl_quic_stream_map_notify_reset_recv_part p aec n
  | NotifyAppReadReset => ossl_quic_stream_map_notify_app_read_reset_recv_part p
  | StopSendingRecvPart aec => ossl_quic_stream_map_stop_sending_recv_part p aec
  | ScheduleStopSending => ossl_quic_stream_map_schedule_stop_sending p
  | UpdateState => ossl_quic_stream_map_update_state p
  end.

(** The stream after an operation, absent when the operation refuses. *)
Definition reset_record (aec : Z) (s : QUIC_STREAM) : QUIC_STREAM :=
  set_shutdown_flush false (set_sstream None (set_send_state SSTREAM_RESET_SENT
    (set_want_reset_stream true (set_reset_stream_aec aec s)))).
Definition sized (q : QUIC_STREAM_MAP) (p : nat) (s : QUIC_STREAM) : QUIC_STREAM :=
  set_send_final_size (match txfcs q !! p with Some t => Txfc.swm t | None => 0 end) s.
Definition reset_recv_record (aec : Z) (s : QUIC_STREAM) : QUIC_STREAM :=
  set_rstream None (set_want_stop_sending false (set_peer_reset_stream_aec aec (set_recv_state RSTREAM_RESET_RECVD s))).
Definition scheduled (q : QUIC_STREAM_MAP) (p : nat) (s : QUIC_STREAM) : QUIC_STREAM :=
  if want_stop_sending s then s
  else match recv_state s with
       | RSTREAM_RECV | RSTREAM_SIZE_KNOWN => updated q p (set_want_stop_sending true s)
       | _ => s
       end.
Definition final_size_agrees (q : QUIC_STREAM_MAP) (p : nat) (s : QUIC_STREAM) (n : Z) : bool :=
  match rxfcs q !! p with
  | Some r => match ossl_quic_stream_recv_get_final_size s r with Some m => m =? n | None => true end
  | None => false
  end.

Definition trans (o : op) (q : QUIC_STREAM_MAP) (p : nat) (s : QUIC_STREAM) : option QUIC_STREAM :=
  match o with
  | EnsureSendPartId =>
      match send_state s with
      | SSTREAM_NONE => None | SSTREAM_READY => Some (set_send_state SSTREAM_SEND s) | _ => Some s
      end
  | NotifyAllDataSent =>
      match send_state s, sstream s ≫= SStream.ossl_quic_sstream_get_final_size with
      | SSTREAM_SEND, Some n => Some (set_send_state SSTREAM_DATA_SENT (set_send_final_size n s))
      | _, _ => None
      end
  | NotifyTotallyAcked =>
      match send_state s with
      | SSTREAM_DATA_SENT => Some (set_shutdown_flush false (set_sstream None (set_send_state SSTREAM_DATA_RECVD s)))
      | _ => None
      end
  | ResetStreamSendPart aec =>
      match send_state s with
      | SSTREAM_NONE | SSTREAM_DATA_RECVD => None
      | SSTREAM_READY => Some (updated q p (reset_record aec (sized q p (set_send_state SSTREAM_SEND s))))
      | SSTREAM_SEND => Some (updated q p (reset_record aec (sized q p s)))
      | SSTREAM_DATA_SENT => Some (updated q p (reset_record aec s))
      | SSTREAM_RESET_SENT | SSTREAM_RESET_RECVD => Some s
      end
  | NotifyResetStreamAcked =>
      match send_state s with
      | SSTREAM_RESET_SENT => Some (set_send_state SSTREAM_RESET_RECVD s) | SSTREAM_RESET_RECVD => Some s | _ => None
      end
  | NotifySizeKnown _ =>
      match recv_state s with RSTREAM_RECV => Some (set_recv_state RSTREAM_SIZE_KNOWN s) | _ => None end
  | NotifyTotallyReceived =>
      match recv_state s with
      | RSTREAM_SIZE_KNOWN => Some (set_want_stop_sending false (set_recv_state RSTREAM_DATA_RECVD s)) | _ => None
      end
  | NotifyTotallyRead =>
      match recv_state s with
      | RSTREAM_DATA_RECVD => Some (set_rstream None (set_recv_state RSTREAM_DATA_READ s)) | _ => None
      end
  | NotifyResetRecvPart aec n =>
      match recv_state s with
      | RSTREAM_NONE => None
      | RSTREAM_RECV | RSTREAM_SIZE_KNOWN | RSTREAM_DATA_RECVD =>
          if final_size_agrees q p s n then Some (updated q p (reset_recv_record aec s)) else None
      | _ => Some s
      end
  | NotifyAppReadReset =>
      match recv_state s with RSTREAM_RESET_RECVD => Some (set_recv_state RSTREAM_RESET_READ s) | _ => None end
  | StopSendingRecvPart aec =>
      if stop_sending s then None
      else match recv_state s with
           | RSTREAM_RECV | RSTREAM_SIZE_KNOWN =>
               Some (scheduled q p (set_stop_sending_aec aec (set_stop_sending true s)))
           | _ => None
           end
  | ScheduleStopSending => if stop_sending s then Some (scheduled q p s) else None
  | UpdateState => Some (updated q p s)
  end.

(** The two outcomes of an operation on the stream [p]. *)
Definition done_ok (p : nat) (acc : list nat) (q : QUIC_STREAM_MAP) (s : QUIC_STREAM) (q' : QUIC_STREAM_MAP) : Prop :=
  exists act' gc', at_ p s act' acc gc' q' /\ stream_ok (is_server q') s /\ frame p q q'.

Ltac preds := unfold ossl_quic_stream_has_send, ossl_quic_stream_has_recv, ossl_quic_stream_has_send_buffer,
  ossl_quic_stream_has_recv_buffer, ossl_quic_stream_send_is_reset, ossl_quic_stream_is_local_init,
  ossl_quic_stream_is_server_init, ossl_quic_stream_is_bidi in *.

(** [sok] proves that a changed stream is still well formed. *)
Ltac sok :=
  match goal with Hok : stream_ok _ ?s |- _ =>
    destruct Hok; split; preds; cbn in *; try done;
    repeat match goal with
    | E : send_state s = _ |- _ => rewrite E in *; clear E
    | E : recv_state s = _ |- _ => rewrite E in *; clear E
    end; try done; try congruence;
    intros; repeat match goal with H : ?b = true -> _, K : ?b = true |- _ => specialize (H K) end;
    try done; try (intuition congruence)
  end.

Lemma done_ok_here p acc act gc q s : at_ p s act acc gc q -> stream_ok (is_server q) s -> done_ok p acc q s q.
Proof. intros. by exists act, gc. Qed.

Lemma wp_update_done p q0 q s act acc gc (Q : unit -> QUIC_STREAM_MAP -> Prop) E :
  at_ p s act acc gc q -> stream_ok (is_server q0) s -> frame p q0 q ->
  (forall q', done_ok p acc q0 (updated q0 p s) q' -> Q tt q') ->
  wp (ossl_quic_stream_map_update_state p) q Q E.
Proof.
  intros Hat Hok Hf HQ. eapply wp_update_state; [done|by rewrite (f_server p q0 q)|].
  intros q' act' gc' Hat' Hf'. apply HQ. exists act', gc'. assert (Hf2 : frame p q0 q') by (by rewrite Hf).
  split_and!; [|rewrite (f_server p q0 q') by done; by apply updated_ok|done].
  assert (Eu : updated q p s = updated q0 p s) by (unfold updated; by rewrite (wants_active_frame q0 q)). by rewrite <- Eu.
Qed.

(** The outcome of [m], called in the state [q] for the operation [o]. *)
Definition op_post (o : op) (p : nat) (acc : list nat) (q : QUIC_STREAM_MAP) (s : QUIC_STREAM)
    (m : M QUIC_STREAM_MAP unit) (q1 : QUIC_STREAM_MAP) : Prop :=
  wp m q1 (fun _ q' => exists s', trans o q p s = Some s' /\ done_ok p acc q s' q')
          (fun q' => q' = q /\ trans o q p s = None).

(** One more assignment; the last one. *)
Ltac up := eapply wp_upd_at; [eassumption|by split|]; let q' := fresh "q" in intros q' ? ?; wp_steps.
Ltac finish := eexists; split; [reflexivity|]; eexists _, _; split_and!;
  [eassumption|match goal with Hf : frame _ ?q ?q' |- stream_ok (is_server ?q') _ => rewrite (f_server _ q q' Hf) end; by sok|
   eassumption].

Lemma send_ops_ok o p acc act gc q s :
  match o with EnsureSendPartId | NotifyAllDataSent | NotifyTotallyAcked | NotifyResetStreamAcked => True | _ => False end ->
  at_ p s act acc gc q -> stream_ok (is_server q) s -> op_post o p acc q s (exec o p) q.
Proof.
  intros Ho Hat Hok. pose proof Hat as [_ Hp].
  assert (Hsame : forall s', Some s' = Some s -> exists s'', Some s' = Some s'' /\ done_ok p acc q s'' q).
  { intros s' [= ->]. eexists. split; [done|]. by eapply done_ok_here. }
  destruct o; try done; clear Ho; unfold op_post, exec.
  - unfold ossl_quic_stream_map_ensure_send_part_id. wp_steps. eapply wp_deref; [done|]. cbn [trans].
    destruct (send_state s) eqn:Est; try (apply wp_ret; by apply Hsame); [by apply wp_fail|]. up. finish.
  - unfold ossl_quic_stream_map_notify_all_data_sent. wp_steps. eapply wp_deref; [done|]. cbn [trans].
    destruct (send_state s) eqn:Est; try by apply wp_fail. pose proof (so_sstream _ _ Hok) as Hs. preds. rewrite Est in Hs.
    destruct (sstream s) as [ss|] eqn:Es; [|done]. unfold lift_opt. wp_steps. cbn [mbind option_bind].
    destruct (SStream.ossl_quic_sstream_get_final_size ss) as [n|] eqn:En; [|by apply wp_fail].
    wp_steps. up. up. assert (frame p q q1) by (etrans; eassumption). finish.
  - unfold ossl_quic_stream_map_notify_totally_acked. wp_steps. eapply wp_deref; [done|]. cbn [trans].
    destruct (send_state s) eqn:Est; try by apply wp_fail. wp_steps. up. up.
    eapply wp_flush_done; [eassumption|]. intros q2 Hat2 Hf2. assert (frame p q q2) by (do 2 (etrans; [eassumption|]); done). finish.
  - unfold ossl_quic_stream_map_notify_reset_stream_acked. wp_steps. eapply wp_deref; [done|]. cbn [trans].
    destruct (send_state s) eqn:Est; try (by apply wp_fail); try (apply wp_ret; by apply Hsame). up. finish.
Qed.

Lemma recv_ops_ok o p acc act gc q s :
  match o with NotifySizeKnown _ | NotifyTotallyReceived | NotifyTotallyRead | NotifyAppReadReset => True | _ => False end ->
  at_ p s act acc gc q -> stream_ok (is_server q) s -> op_post o p acc q s (exec o p) q.
Proof.
  intros Ho Hat Hok. pose proof Hat as [_ Hp]. destruct o; try done; clear Ho; unfold op_post, exec.
  - unfold ossl_quic_stream_map_notify_size_known_recv_part. wp_steps. eapply wp_deref; [done|]. cbn [trans].
    destruct (recv_state s) eqn:Est; try (by apply wp_fail). up. finish.
  - unfold ossl_quic_stream_map_notify_totally_received. wp_steps. eapply wp_deref; [done|]. cbn [trans].
    destruct (recv_state s) eqn:Est; try (by apply wp_fail). wp_steps. up. up. assert (frame p q q1) by (by etrans). finish.
  - unfold ossl_quic_stream_map_notify_totally_read. wp_steps. eapply wp_deref; [done|]. cbn [trans].
    destruct (recv_state s) eqn:Est; try (by apply wp_fail). wp_steps. up.
    change (rstream s) with (rstream (set_recv_state RSTREAM_DATA_READ s)).
    eapply wp_drop_rstream; [eassumption|]. intros q1 Hat1 Hf1. assert (frame p q q1) by (by etrans). finish.
  - unfold ossl_quic_stream_map_notify_app_read_reset_recv_part. wp_steps. eapply wp_deref; [done|]. cbn [trans].
    destruct (recv_state s) eqn:Est; try (by apply wp_fail). up. finish.
Qed.

Lemma wp_reset_send p acc act gc q0 q s aec (Q : unit -> QUIC_STREAM_MAP -> Prop) E :
  at_ p s act acc gc q -> frame p q0 q -> stream_ok (is_server q0) (reset_record aec s) ->
  (forall q', done_ok p acc q0 (updated q0 p (reset_record aec s)) q' -> Q tt q') ->
  wp (reset_send p aec) q Q E.
Proof.
  intros Hat Hf Hok HQ. unfold reset_send. wp_steps. do 4 up. eapply wp_flush_done; [eassumption|]. intros q5 Hat5 Hf5.
  wp_steps. eapply (wp_update_done p q0); [exact Hat5|exact Hok| |exact HQ].
  do 4 (etrans; [eassumption|]). by etrans.
Qed.

Lemma wp_reset_send_size p acc act gc q0 q s aec (Q : unit -> QUIC_STREAM_MAP -> Prop) E :
  at_ p s act acc gc q -> frame p q0 q -> stream_ok (is_server q0) (reset_record aec (sized q0 p s)) ->
  (forall q', done_ok p acc q0 (updated q0 p (reset_record aec (sized q0 p s))) q' -> Q tt q') ->
  wp (reset_send_size p aec) q Q E.
Proof.
  intros Hat Hf Hok HQ. unfold reset_send_size. pose proof Hat as [[Hl _] Hp].
  destruct (l_fcs _ _ _ _ Hl _ _ Hp) as (_ & t & Et & _). unfold txfc_of, lift_opt. wp_steps. rewrite Et. wp_steps. up.
  destruct (f_fcs _ _ _ Hf) as [Ht _].
  assert (Es : sized q0 p s = set_send_final_size (Txfc.ossl_quic_txfc_get_swm t) s) by (unfold sized; by rewrite <- Ht, Et).
  rewrite Es in *. eapply (wp_reset_send p acc act gc q0); [eassumption|by etrans|exact Hok|exact HQ].
Qed.

Lemma reset_send_ok p acc act gc q s aec :
  at_ p s act acc gc q -> stream_ok (is_server q) s ->
  op_post (ResetStreamSendPart aec) p acc q s (exec (ResetStreamSendPart aec) p) q.
Proof.
  intros Hat Hok. pose proof Hat as [_ Hp]. unfold op_post, exec, ossl_quic_stream_map_reset_stream_send_part.
  wp_steps. eapply wp_deref; [done|]. cbn [trans].
  destruct (send_state s) eqn:Est; try (by apply wp_fail); try (apply wp_ret; eexists; split; [done|]; by eapply done_ok_here).
  - wp_steps. unfold ossl_quic_stream_map_ensure_send_part_id. wp_steps. eapply wp_deref; [done|]. rewrite Est. up.
    eapply (wp_reset_send_size p acc act gc q); [eassumption..|by sok|]. eauto.
  - eapply (wp_reset_send_size p acc act gc q); [eassumption|reflexivity|by sok|]. eauto.
  - eapply (wp_reset_send p acc act gc q); [eassumption|reflexivity|by sok|]. eauto.
Qed.

Lemma reset_recv_ok p acc act gc q s aec n :
  at_ p s act acc gc q -> stream_ok (is_server q) s ->
  op_post (NotifyResetRecvPart aec n) p acc q s (exec (NotifyResetRecvPart aec n) p) q.
Proof.
  intros Hat Hok. pose proof Hat as [[Hl _] Hp]. destruct (l_fcs _ _ _ _ Hl _ _ Hp) as ([r Er] & _).
  assert (Hmain : match recv_state s with RSTREAM_RECV | RSTREAM_SIZE_KNOWN | RSTREAM_DATA_RECVD => True | _ => False end ->
    stream_ok (is_server q) (reset_recv_record aec s)).
  { intros Hst. destruct (recv_state s) eqn:Est; try done; sok. }
  unfold op_post, exec, ossl_quic_stream_map_notify_reset_recv_part.
  wp_steps. eapply wp_deref; [done|]. cbn [trans]. unfold final_size_agrees. rewrite Er.
  destruct (recv_state s) eqn:Est; try (by apply wp_fail);
    try (apply wp_ret; eexists; split; [done|]; by eapply done_ok_here); specialize (Hmain I);
    unfold rxfc_of, lift_opt; wp_steps; rewrite Er; wp_steps; (apply wp_guard; intros Eg; rewrite Eg; [|done]);
    wp_steps; do 3 up; (change (rstream s) with (rstream (set_want_stop_sending false (set_peer_reset_stream_aec aec
      (set_recv_state RSTREAM_RESET_RECVD s)))));
    (eapply wp_mono; [eapply wp_drop_rstream; [eassumption|]|intros ? ? Hx; apply wp_bind; exact Hx|done]);
    intros q3 Hat3 Hf3; wp_steps; (eapply (wp_update_done p q); [exact Hat3|exact Hmain|do 3 (etrans; [eassumption|]); done|]);
    intros q' Hd; eexists; (split; [reflexivity|exact Hd]).
Qed.

Lemma wp_schedule p acc act gc q0 q s (P : QUIC_STREAM_MAP -> Prop) E :
  at_ p s act acc gc q -> stream_ok (is_server q0) s -> frame p q0 q -> stop_sending s = true ->
  (forall q', done_ok p acc q0 (scheduled q0 p s) q' -> P q') ->
  wp (ossl_quic_stream_map_schedule_stop_sending p) q (fun _ => P) E.
Proof.
  intros Hat Hok Hf Hs HP. pose proof Hat as [_ Hp]. unfold ossl_quic_stream_map_schedule_stop_sending. wp_steps.
  eapply wp_deref; [done|]. rewrite Hs. wp_steps. apply wp_guard; [intros _|done]. unfold scheduled in HP.
  assert (Hsame : done_ok p acc q0 s q) by (exists act, gc; split_and!; [done|by rewrite (f_server p q0 q)|done]).
  destruct (want_stop_sending s) eqn:Ew; [apply wp_ret; by apply HP|].
  destruct (recv_state s) eqn:Est; try (apply wp_ret; by apply HP); wp_steps; up;
    (eapply (wp_update_done p q0); [eassumption|by sok|by etrans|exact HP]).
Qed.

Lemma stop_sending_ok p acc act gc q s aec :
  at_ p s act acc gc q -> stream_ok (is_server q) s ->
  op_post (StopSendingRecvPart aec) p acc q s (exec (StopSendingRecvPart aec) p) q.
Proof.
  intros Hat Hok. pose proof Hat as [_ Hp]. unfold op_post, exec, ossl_quic_stream_map_stop_sending_recv_part.
  wp_steps. eapply wp_deref; [done|]. cbn [trans]. destruct (stop_sending s) eqn:Es; cbn [negb]; wp_steps; [by apply wp_fail|].
  apply wp_guard; [intros _|done].
  destruct (recv_state s) eqn:Est; try (by apply wp_fail); wp_steps; do 2 up;
    (eapply (wp_schedule p acc act gc q); [eassumption|by sok|by etrans|done|]); intros q' Hd; eexists; (split; [reflexivity|exact Hd]).
Qed.

Lemma schedule_ok p acc act gc q s :
  at_ p s act acc gc q -> stream_ok (is_server q) s ->
  op_post ScheduleStopSending p acc q s (exec ScheduleStopSending p) q.
Proof.
  intros Hat Hok. pose proof Hat as [_ Hp]. unfold op_post, exec. cbn [trans]. destruct (stop_sending s) eqn:Es.
  - eapply wp_schedule; [eassumption|done|reflexivity|done|]. intros q' Hd; eexists; (split; [reflexivity|exact Hd]).
  - unfold ossl_quic_stream_map_schedule_stop_sending. wp_steps. eapply wp_deref; [done|]. rewrite Es. by apply wp_bind, wp_guard.
Qed.

(** Every operation on a live stream. *)
Lemma op_ok o p act acc gc q s : inv None act acc gc q -> heap q !! p = Some s -> op_post o p acc q s (exec o p) q.
Proof.
  intros Hi Hp. destruct (inv_open _ _ _ _ _ _ Hi Hp) as [Hat Hok].
  destruct o; eauto using send_ops_ok, recv_ops_ok, reset_send_ok, reset_recv_ok, stop_sending_ok, schedule_ok.
  unfold op_post, exec. eapply wp_update_done; [done|done|reflexivity|]. intros q' Hd; eexists; (split; [reflexivity|exact Hd]).
Qed.

(** ** The state machines of RFC 9000 *)

Inductive send_edge : sstream_state -> sstream_state -> Prop :=
| e_ready_send : send_edge SSTREAM_READY SSTREAM_SEND
| e_ready_reset : send_edge SSTREAM_READY SSTREAM_RESET_SENT
| e_send_sent : send_edge SSTREAM_SEND SSTREAM_DATA_SENT
| e_send_reset : send_edge SSTREAM_SEND SSTREAM_RESET_SENT
| e_sent_recvd : send_edge SSTREAM_DATA_SENT SSTREAM_DATA_RECVD
| e_sent_reset : send_edge SSTREAM_DATA_SENT SSTREAM_RESET_SENT
| e_reset_recvd : send_edge SSTREAM_RESET_SENT SSTREAM_RESET_RECVD.

Inductive recv_edge : rstream_state -> rstream_state -> Prop :=
| e_recv_size : recv_edge RSTREAM_RECV RSTREAM_SIZE_KNOWN
| e_recv_reset : recv_edge RSTREAM_RECV RSTREAM_RESET_RECVD
| e_size_recvd : recv_edge RSTREAM_SIZE_KNOWN RSTREAM_DATA_RECVD
| e_size_reset : recv_edge RSTREAM_SIZE_KNOWN RSTREAM_RESET_RECVD
| e_recvd_read : recv_edge RSTREAM_DATA_RECVD RSTREAM_DATA_READ
| e_recvd_reset : recv_edge RSTREAM_DATA_RECVD RSTREAM_RESET_RECVD
| e_reset_read : recv_edge RSTREAM_RESET_RECVD RSTREAM_RESET_READ.

#[export] Hint Constructors send_edge recv_edge : ossl.

Definition at_most_one {A} (R : A -> A -> Prop) (x y : A) : Prop := x = y \/ R x y.

Record machine_step (s s' : QUIC_STREAM) : Prop := {
  m_id : id s' = id s;
  m_type : type s' = type s;
  m_send : at_most_one send_edge (send_state s) (send_state s');
  m_recv : at_most_one recv_edge (recv_state s) (recv_state s')
}.

Lemma updated_fields q p s : id (updated q p s) = id s /\ type (updated q p s) = type s /\
  recv_state (updated q p s) = recv_state s /\
  (send_state (updated q p s) = send_state s \/ send_state s = SSTREAM_DATA_SENT /\ send_state (updated q p s) = SSTREAM_DATA_RECVD).
Proof.
  unfold updated. cbn. destruct (after_gc_fields (after_acked s)) as (-> & -> & _ & -> & ->).
  destruct (after_acked_fields s) as (-> & -> & ->). split_and!; try done. unfold after_acked.
  destruct (send_state s) eqn:E; try (by left); destruct (_ : bool); auto.
Qed.

Lemma updated_machine q p s s0 : machine_step s0 s -> (send_state s = SSTREAM_DATA_SENT -> send_state s0 = SSTREAM_DATA_SENT) ->
  machine_step s0 (updated q p s).
Proof.
  intros [H1 H2 H3 H4] Hd. destruct (updated_fields q p s) as (E1 & E2 & E3 & E4).
  split; [congruence|congruence| |by rewrite E3].
  destruct E4 as [->|[E ->]]; [done|]. rewrite Hd by done. right. constructor.
Qed.

Lemma machine_refl s : machine_step s s.
Proof. by split; try left. Qed.

Lemma scheduled_machine q p s s0 : machine_step s0 s -> send_state s = send_state s0 -> machine_step s0 (scheduled q p s).
Proof.
  intros H Hs. unfold scheduled. destruct (want_stop_sending s); [done|].
  destruct (recv_state s) eqn:E; try done; apply updated_machine; cbn; try congruence; destruct H; by split.
Qed.

Lemma trans_machine o q p s s' : trans o q p s = Some s' -> machine_step s s'.
Proof.
  unfold trans, at_most_one. intros H.
  destruct o; repeat case_match; simplify_eq; try apply machine_refl;
    try (apply updated_machine); try (apply scheduled_machine); try apply machine_refl; try done;
    split; try done; cbn in *; unfold at_most_one; repeat match goal with E : _ = _ |- _ => rewrite E end; auto with ossl.
Qed.

(** C8: each of the thirteen operations of the stream map on a stream follows
    RFC 9000's state machines.  In a well-formed map and for a live stream the
    call is defined (no assertion fails, no pointer is invalid); it takes at most
    one edge of the sending machine (s. 3.1) and at most one of the receiving
    machine (s. 3.2), does not touch any other stream, and leaves a well-formed
    map. *)
Theorem stream_ops_follow_rfc o p act acc gc q s :
  inv None act acc gc q -> heap q !! p = Some s ->
  exists r q' s', exec o p q = (r, q') /\ r <> Undef /\ heap q' !! p = Some s' /\ machine_step s s' /\
    (forall p', p' <> p -> heap q' !! p' = heap q !! p') /\
    exists act' gc', inv None act' acc gc' q'.
Proof.
  intros Hi Hp. pose proof (op_ok o p act acc gc q s Hi Hp) as H. unfold op_post, wp in H.
  destruct (exec o p q) as [[u| |] q']; [| |done].
  - destruct H as (s' & Ht & act' & gc' & Hat & Hok & Hf). exists (Ret u), q', s'. split_and!; try done.
    + apply Hat.
    + by eapply trans_machine.
    + apply Hf.
    + exists act', gc'. by eapply at_close.
  - destruct H as [-> _]. exists Err, q, s. split_and!; try done; [apply machine_refl|eauto].
Qed.

(** ** Refused calls *)

(** When the code returns 1. *)
Definition accepts (o : op) (s : QUIC_STREAM) (r : Rxfc.QUIC_RXFC) : Prop :=
  match o with
  | EnsureSendPartId => send_state s <> SSTREAM_NONE
  | NotifyAllDataSent => send_state s = SSTREAM_SEND /\
      exists ss, sstream s = Some ss /\ SStream.have_final_size ss = true
  | NotifyTotallyAcked => send_state s = SSTREAM_DATA_SENT
  | ResetStreamSendPart _ => send_state s <> SSTREAM_NONE /\ send_state s <> SSTREAM_DATA_RECVD
  | NotifyResetStreamAcked => send_state s = SSTREAM_RESET_SENT \/ send_state s = SSTREAM_RESET_RECVD
  | NotifySizeKnown _ => recv_state s = RSTREAM_RECV
  | NotifyTotallyReceived => recv_state s = RSTREAM_SIZE_KNOWN
  | NotifyTotallyRead => recv_state s = RSTREAM_DATA_RECVD
  | NotifyResetRecvPart _ n => recv_state s <> RSTREAM_NONE /\
      (recv_state s = RSTREAM_SIZE_KNOWN \/ recv_state s = RSTREAM_DATA_RECVD -> Rxfc.is_fin r = true -> Rxfc.hwm r = n)
  | NotifyAppReadReset => recv_state s = RSTREAM_RESET_RECVD
  | StopSendingRecvPart _ => stop_sending s = false /\ (recv_state s = RSTREAM_RECV \/ recv_state s = RSTREAM_SIZE_KNOWN)
  | ScheduleStopSending => stop_sending s = true
  | UpdateState => True
  end.

Lemma trans_accepts o q p s r : rxfcs q !! p = Some r -> is_Some (trans o q p s) <-> accepts o s r.
Proof.
  intros Er. assert (Hs : forall x : QUIC_STREAM, is_Some (Some x)) by eauto.
  assert (Hn : ~ is_Some (@None QUIC_STREAM)) by (by intros []).
  destruct o; cbn [trans accepts]; try (case_match; intuition (congruence || eauto); fail); try (by split; eauto).
  - destruct (send_state s); try (intuition (congruence || eauto); fail).
    destruct (sstream s) as [ss|]; cbn [mbind option_bind]; [|split; [done|by intros (_ & ? & ? & _)]].
    unfold SStream.ossl_quic_sstream_get_final_size. destruct (SStream.have_final_size ss) eqn:Eh; cbn [negb].
    + split; eauto.
    + split; [done|]. intros (_ & ? & [= <-] & ?). congruence.
  - unfold final_size_agrees, ossl_quic_stream_recv_get_final_size, Rxfc.ossl_quic_rxfc_get_final_size. rewrite Er.
    destruct (recv_state s); try (intuition (congruence || eauto); fail);
      (destruct (Rxfc.is_fin r); cbn [negb]; [destruct (Z.eqb_spec (Rxfc.hwm r) final_size)|]);
      intuition (congruence || eauto).
  - destruct (stop_sending s); [intuition congruence|]. destruct (recv_state s); intuition (congruence || eauto).
Qed.

(** When quic_stream_map.h says that a call returns 1; it says nothing of a call
    with a state it does not list other than that the transition is not taken. *)
Definition documented (o : op) (s : QUIC_STREAM) : Prop :=
  match o with
  | EnsureSendPartId => send_state s <> SSTREAM_NONE
  | NotifyAllDataSent => send_state s = SSTREAM_SEND
  | NotifyTotallyAcked => send_state s = SSTREAM_DATA_SENT
  | ResetStreamSendPart _ =>
      send_state s = SSTREAM_READY \/ send_state s = SSTREAM_SEND \/ send_state s = SSTREAM_DATA_SENT \/
      send_state s = SSTREAM_RESET_SENT \/ send_state s = SSTREAM_RESET_RECVD
  | NotifyResetStreamAcked => send_state s = SSTREAM_RESET_SENT \/ send_state s = SSTREAM_RESET_RECVD
  | NotifySizeKnown _ => recv_state s = RSTREAM_RECV
  | NotifyTotallyReceived => recv_state s = RSTREAM_SIZE_KNOWN
  | NotifyTotallyRead => recv_state s = RSTREAM_DATA_RECVD
  | NotifyResetRecvPart _ _ =>
      recv_state s = RSTREAM_RECV \/ recv_state s = RSTREAM_SIZE_KNOWN \/ recv_state s = RSTREAM_DATA_RECVD
  | NotifyAppReadReset => recv_state s = RSTREAM_RESET_RECVD
  | StopSendingRecvPart _ => stop_sending s = false
  | ScheduleStopSending => stop_sending s = true
  | UpdateState => True
  end.

(** The three calls for which the code and the header differ. *)
Definition departs (o : op) : bool :=
  match o with NotifyAllDataSent | NotifyResetRecvPart _ _ | StopSendingRecvPart _ => true | _ => false end.

Lemma accepts_documented o s r : departs o = false -> accepts o s r <-> documented o s.
Proof. destruct o; try done; intros _; cbn [accepts documented]; destruct (send_state s); naive_solver. Qed.

(** What the header leaves out: all data can only have been sent once the final
    size is known; a reset of the receiving part is refused if it changes the
    final size of a stream whose end was seen, and accepted, without a
    transition, when the stream has been read or reset before; and STOP_SENDING
    is refused, however unmarked the stream, unless data is still to come. *)
Theorem stream_ops_departures s r aec n :
  (accepts NotifyAllDataSent s r <->
   documented NotifyAllDataSent s /\ exists ss, sstream s = Some ss /\ SStream.have_final_size ss = true) /\
  (accepts (NotifyResetRecvPart aec n) s r <->
   documented (NotifyResetRecvPart aec n) s /\
     (recv_state s = RSTREAM_SIZE_KNOWN \/ recv_state s = RSTREAM_DATA_RECVD -> Rxfc.is_fin r = true -> Rxfc.hwm r = n) \/
   recv_state s = RSTREAM_DATA_READ \/ recv_state s = RSTREAM_RESET_RECVD \/ recv_state s = RSTREAM_RESET_READ) /\
  (accepts (StopSendingRecvPart aec) s r <->
   documented (StopSendingRecvPart aec) s /\ (recv_state s = RSTREAM_RECV \/ recv_state s = RSTREAM_SIZE_KNOWN)).
Proof. cbn [accepts documented]. split_and!; [done| |done]. destruct (recv_state s); intuition congruence. Qed.

(** C25: when the thirteen operations on a stream succeed.  A call on a stream of
    a well-formed map succeeds exactly if the code's conditions on the stream's
    state ([accepts]) hold, and otherwise returns 0 and has changed nothing; for
    ten of the operations these are the states quic_stream_map.h lists, and for
    the other three [stream_ops_departures] says how they differ. *)
Theorem stream_ops_refuse o p act acc gc q s r :
  inv None act acc gc q -> heap q !! p = Some s -> rxfcs q !! p = Some r ->
  ((accepts o s r /\ exists q', exec o p q = (Ret tt, q')) \/ (~ accepts o s r /\ exec o p q = (Err, q))) /\
  (departs o = false -> accepts o s r <-> documented o s).
Proof.
  intros Hi Hp Er. split; [|by apply accepts_documented]. pose proof (op_ok o p act acc gc q s Hi Hp) as H. unfold op_post, wp in H.
  pose proof (trans_accepts o q p s r Er) as Ha.
  destruct (exec o p q) as [[[]| |] q']; [left|right|done].
  - destruct H as (s' & Ht & _). rewrite Ht in Ha. split; [by apply Ha|eauto].
  - destruct H as [-> Ht]. rewrite Ht in Ha. split; [|done]. rewrite <- Ha. by intros [].
Qed.

(** ** The active streams *)

(** A stream has something to say: a byte that flow control lets it send or a
    FIN that follows nothing, or one of the three frames about it is due. *)
Definition sendable (ss : SStream.QUIC_SSTREAM) (limit : Z) : Prop :=
  (exists k, UintSet.mem k (SStream.new_set ss) /\ k < limit) \/
  ((forall k, ~ UintSet.mem k (SStream.new_set ss)) /\ SStream.have_final_size ss = true /\ SStream.sent_final_size ss = false).

Lemma has_data_spec tx p s d ss w c :
  sstream s = Some ss -> SStream.ss_ok d ss -> txfcs_of tx p = Some (w, c) ->
  has_data tx p s = true <-> sendable ss (u64 (w + c)).
Proof.
  intros Es Hd Et. unfold has_data, sendable. rewrite Es, Et. pose proof (SStream.get_frame_ok d ss 0 Hd ltac:(lia)) as Hg.
  cbn [Z.to_nat] in Hg. pose proof (SStream.so_new _ _ Hd) as Hwf.
  destruct (SStream.new_set ss) as [|r l] eqn:En; cbn [lookup list_lookup length Z.of_nat Z.eqb andb] in Hg.
  - assert (Hno : forall k, ~ UintSet.mem k []) by (intros k Hk; by apply Exists_nil in Hk).
    rewrite Hg. destruct (SStream.have_final_size ss), (SStream.sent_final_size ss); cbn; split; try done;
      try (intros _; by right); intros [(k & Hk & _)|(_ & ? & ?)]; try done; by destruct (Hno k).
  - destruct Hg as (iov & -> & _). cbn [SStream.h_is_fin SStream.h_len SStream.h_offset].
    destruct (SStream.new_range _ ss r Hd) as (Hr & _); [rewrite En; left|]. unfold UintSet.range_ok in Hr.
    destruct (Z.eqb_spec (UintSet.end_ r - UintSet.start r + 1) 0); [lia|]. rewrite andb_false_r. cbn [orb].
    rewrite Z.ltb_lt. pose proof (SStream.mem_range (r :: l) r (UintSet.start r) ltac:(left) ltac:(lia)) as Hin.
    split; [intros; left; by exists (UintSet.start r)|]. intros [(k & Hk & Hlt)|(Hno & _)]; [|by destruct (Hno _ Hin)].
    pose proof Hwf as (_ & Hab & _)%UintSet.gwf_cons. rewrite UintSet.mem_cons in Hk. destruct Hk as [Hk|Hk].
    + unfold UintSet.in_range in Hk. lia.
    + apply Exists_exists in Hk as (r2 & Hr2 & Hk). unfold UintSet.above in Hab. rewrite Forall_forall in Hab.
      specialize (Hab _ Hr2). unfold UintSet.in_range in Hk. cbn in Hab. lia.
Qed.

Definition has_something_to_say (q : QUIC_STREAM_MAP) (p : nat) (s : QUIC_STREAM) : Prop :=
  (recv_state s = RSTREAM_RECV /\
     (want_max_stream_data s = true \/ exists r, rxfcs q !! p = Some r /\ Rxfc.has_cwm_changed r = true)) \/
  want_stop_sending s = true \/ want_reset_stream s = true \/
  (peer_stop_sending s = false /\
   exists ss w c, sstream s = Some ss /\ txfcs_of (txfcs q) p = Some (w, c) /\ sendable ss (u64 (w + c))).

Lemma wants_active_spec act acc gc q p s0 s :
  links act acc gc q -> heap q !! p = Some s0 -> buffer_ok s ->
  wants_active q p s = true <->
    allowed_by_stream_limit q s = true /\ ready_for_gc s = false /\ has_something_to_say q p s.
Proof.
  intros Hl Hp [_ Hb]. destruct (txfcs_of_ok _ _ _ _ _ _ Hl Hp) as (t & c & _ & _ & Et).
  unfold wants_active, has_something_to_say.
  assert (H1 : (if rxfcs q !! p is Some r then Rxfc.has_cwm_changed r else false) = true <->
               exists r, rxfcs q !! p = Some r /\ Rxfc.has_cwm_changed r = true).
  { destruct (rxfcs q !! p); split; try done; [eauto|by intros (? & [= <-] & ?)|by intros (? & ? & ?)]. }
  assert (H2 : has_data (txfcs q) p s = true <->
    exists ss w c, sstream s = Some ss /\ txfcs_of (txfcs q) p = Some (w, c) /\ sendable ss (u64 (w + c))).
  { destruct (sstream s) as [ss|] eqn:Es.
    - destruct (Hb ss eq_refl) as [d Hd]. rewrite (has_data_spec _ _ _ d ss _ _ Es Hd Et). split; [eauto 10|].
      intros (? & ? & ? & [= <-] & E & ?). rewrite Et in E. by simplify_eq.
    - unfold has_data. rewrite Es. split; [done|by intros (? & ? & ? & ? & _)]. }
  rewrite !andb_true_iff, !orb_true_iff, !andb_true_iff, orb_true_iff, bool_decide_eq_true, !negb_true_iff, H1, H2. tauto.
Qed.

(** An updated stream is settled: the parts of an update leave it as it is. *)
Lemma update_fixpoint q p s :
  after_acked (updated q p s) = updated q p s /\ after_gc (updated q p s) = updated q p s /\
  active (updated q p s) = wants_active q p (updated q p s).
Proof.
  assert (Ha : forall b s, after_acked (set_active b s) = set_active b (after_acked s)).
  { intros b s1. unfold after_acked, totally_acked. cbn. destruct (send_state s1); try done; by destruct (_ : bool). }
  assert (Hg : forall b s, after_gc (set_active b s) = set_active b (after_gc s)) by (intros; unfold after_gc; cbn; by destruct (ready_for_gc _)).
  assert (Haa : after_acked (after_gc (after_acked s)) = after_gc (after_acked s)).
  { unfold after_acked at 1. destruct (after_gc_fields (after_acked s)) as (_ & _ & Es & -> & _).
    unfold totally_acked. rewrite Es. unfold after_acked. destruct (send_state s) eqn:E; try (by rewrite E); unfold after_gc.
    - destruct (shutdown_flush s && totally_acked s) eqn:Ef; cbn; rewrite E; [by destruct (ready_for_gc s)|].
      unfold totally_acked in Ef. by destruct (ready_for_gc s); cbn; rewrite Ef.
    - destruct (totally_acked s) eqn:Ef; cbn; [done|]. rewrite E. unfold totally_acked in Ef. by rewrite Ef. }
  assert (Hgg : forall s, after_gc (after_gc s) = after_gc s).
  { intros s1. unfold after_gc. destruct (ready_for_gc s1) eqn:E; [by rewrite E|]. cbn.
    destruct (collectable s1) eqn:Ec; [done|]. change (collectable (set_ready_for_gc false s1)) with (collectable s1).
    by rewrite Ec. }
  unfold updated. rewrite Ha, Haa, Hg, Hgg. done.
Qed.

(** Updating a settled stream changes nothing. *)
Lemma wp_acked_noop p q s act acc gc (Q : unit -> QUIC_STREAM_MAP -> Prop) E :
  at_ p s act acc gc q -> stream_ok (is_server q) s -> after_acked s = s -> Q tt q -> wp (update_acked p) q Q E.
Proof.
  intros Hat Hok Hs HQ. pose proof Hat as [_ Hp]. unfold update_acked. wp_steps. eapply wp_deref; [done|]. wp_steps.
  unfold after_acked in Hs. destruct (send_state s) eqn:Est;
    try (rewrite bool_decide_eq_false_2 by done); try (rewrite bool_decide_eq_true_2 by done);
    wp_steps; rewrite ?andb_true_r, ?andb_false_r; try (wp_steps; exact HQ).
  - destruct (shutdown_flush s) eqn:Ef; cbn [andb] in Hs; [|by apply wp_ret].
    wp_steps. eapply wp_totally_acked; [done..|unfold ossl_quic_stream_has_send_buffer; by rewrite Est|].
    destruct (totally_acked s); cbn [when_]; [|by apply wp_ret].
    apply (f_equal shutdown_flush) in Hs. by rewrite Ef in Hs.
  - eapply wp_totally_acked; [done..|unfold ossl_quic_stream_has_send_buffer; by rewrite Est|].
    destruct (totally_acked s); [apply (f_equal send_state) in Hs; by rewrite Est in Hs|].
    by apply wp_ret.
Qed.

Lemma wp_gc_noop p q s act acc gc (Q : unit -> QUIC_STREAM_MAP -> Prop) E :
  at_ p s act acc gc q -> stream_ok (is_server q) s -> after_gc s = s -> Q tt q -> wp (update_gc p) q Q E.
Proof.
  intros Hat Hok Hs HQ. pose proof Hat as [_ Hp]. unfold update_gc. wp_steps. eapply wp_deref; [done|].
  unfold after_gc in Hs. destruct (ready_for_gc s) eqn:Er; [by apply wp_ret|].
  wp_steps. apply wp_ready_for_gc; [done|]. wp_steps. eapply wp_upd; [done|]. rewrite Hs, insert_id by done.
  apply (f_equal ready_for_gc) in Hs. cbn in Hs. rewrite Hs, Er. cbn [when_]. wp_steps. by destruct q.
Qed.

Lemma update_settled p q s act acc gc :
  at_ p s act acc gc q -> stream_ok (is_server q) s -> buffer_ok s ->
  after_acked s = s -> after_gc s = s -> active s = wants_active q p s ->
  ossl_quic_stream_map_update_state p q = (Ret tt, q).
Proof.
  intros Hat Hok Hb Ha Hg Hw. pose proof Hat as [_ Hp].
  assert (H : wp (ossl_quic_stream_map_update_state p) q (fun _ q' => q' = q) (fun _ => False)).
  { unfold ossl_quic_stream_map_update_state. wp_steps. eapply wp_deref; [done|]. wp_steps.
    eapply wp_acked_noop; [done..|]. wp_steps. eapply wp_gc_noop; [done..|]. wp_steps.
    eapply wp_should_be_active; [done..|]. rewrite <- Hw. destruct (active s) eqn:Ea.
    - unfold stream_map_mark_active. wp_steps. eapply wp_deref; [done|]. rewrite Ea. by apply wp_ret.
    - unfold stream_map_mark_inactive. wp_steps. eapply wp_deref; [done|]. rewrite Ea. by apply wp_ret. }
  unfold wp in H. by destruct (ossl_quic_stream_map_update_state p q) as [[[]| |] q'] eqn:Eq; subst.
Qed.

(** Every byte the application has written is acknowledged, and so is the end of
    the stream if it has one. *)
Definition all_acked (ss : SStream.QUIC_SSTREAM) : Prop :=
  (SStream.have_final_size ss = true -> SStream.acked_final_size ss = true) /\
  forall k, 0 <= k < SStream.ossl_quic_sstream_get_cur_size ss -> UintSet.mem k (SStream.acked_set ss).

Lemma totally_acked_spec s ss : buffer_ok s -> sstream s = Some ss -> totally_acked s = true <-> all_acked ss.
Proof.
  intros [_ Hb] Es. destruct (Hb ss Es) as [d Hd]. destruct (SStream.totally_acked_ok d ss Hd) as (b & Eb & Hs).
  unfold totally_acked. rewrite Es, Eb, Hs. unfold all_acked, SStream.ossl_quic_sstream_get_cur_size.
  by rewrite (SStream.so_head _ _ Hd).
Qed.

(** C26: what [ossl_quic_stream_map_update_state] does, in a well-formed map (whose
    send buffers keep the ranges acknowledged apart, as they are when no two
    acknowledgements overlap).  The stream is active afterwards exactly when the
    stream limit of its type allows it, it does not wait to be collected and it
    has something to say; a send part in DATA_SENT moves to DATA_RECVD exactly when
    every byte and the end of the stream are acknowledged; the stream waits to be
    collected exactly when it did before (it is never taken back) or all
    obligations towards the peer are met; and calling it again changes nothing
    at all ("idempotent"), as the header says. *)
Theorem stream_update_state_exact p act acc gc q s :
  inv None act acc gc q -> heap q !! p = Some s ->
  exists q' s', exec UpdateState p q = (Ret tt, q') /\ heap q' !! p = Some s' /\
    (active s' = true <-> allowed_by_stream_limit q s = true /\ ready_for_gc s' = false /\ has_something_to_say q p s') /\
    (forall ss, send_state s = SSTREAM_DATA_SENT -> sstream s = Some ss ->
       send_state s' = SSTREAM_DATA_RECVD <-> all_acked ss) /\
    (ready_for_gc s' = true <-> ready_for_gc s = true \/ collectable s' = true) /\
    exec UpdateState p q' = (Ret tt, q').
Proof.
  intros Hi Hp. pose proof Hi as [Hl _]. pose proof (op_ok UpdateState p act acc gc q s Hi Hp) as H. unfold op_post, wp in H.
  destruct (exec UpdateState p q) as [[[]| |] q']; [|by destruct H as [_ ?]|done].
  destruct H as (s' & [= <-] & act' & gc' & Hat & Hok & Hf). exists q', (updated q p s).
  split; [done|]. split; [apply Hat|]. set (s2 := after_gc (after_acked s)).
  destruct (inv_open _ _ _ _ _ _ Hi Hp) as [_ Hok0].
  assert (Hs2 : buffer_ok s2).
  { unfold buffer_ok, ossl_quic_stream_has_send_buffer, s2. destruct (after_gc_fields (after_acked s)) as (_ & _ & -> & -> & _).
    by destruct (after_acked_ok _ _ Hok0). }
  split; [|split; [|split]].
  - change (active (updated q p s)) with (wants_active q p s2). rewrite (wants_active_spec act acc gc q p s s2) by done.
    rewrite (allowed_ext q q s s2); try done;
      destruct (after_gc_fields (after_acked s)) as (E1 & E2 & _); destruct (after_acked_fields s) as (E3 & E4 & _);
      unfold s2; congruence.
  - intros ss Est Es. rewrite <- (totally_acked_spec s ss) by (done || by destruct Hok0).
    change (send_state (updated q p s)) with (send_state s2). unfold s2.
    destruct (after_gc_fields (after_acked s)) as (_ & _ & _ & -> & _). unfold after_acked. rewrite Est.
    destruct (totally_acked s); cbn; [done|]. rewrite Est. done.
  - unfold updated. cbn. unfold after_gc. assert (Hr : ready_for_gc (after_acked s) = ready_for_gc s).
    { unfold after_acked. destruct (send_state s); try done; by case_match. }
    rewrite Hr. destruct (ready_for_gc s) eqn:Er; [rewrite Hr; tauto|]. cbn.
    split; [intros Hc; right; exact Hc|intros [?|Hc]; [done|exact Hc]].
  - destruct (update_fixpoint q p s) as (Ha & Hg & Hw). cbn [exec].
    apply (update_settled p q' (updated q p s) act' acc gc'); try done.
    by rewrite (wants_active_frame q q').
Qed.

(** ** Iteration *)

(** [l] is the list of active streams, read from [c] on and around. *)
Definition rotation (act : list nat) (l : list nat) : Prop := exists a b, act = a ++ b /\ l = b ++ a.

Lemma rotation_next act c t : rotation act (c :: t) -> rotation act (t ++ [c]).
Proof.
  intros (a & [|x b] & -> & E); cbn in E.
  - destruct a as [|y a]; [done|]. injection E as <- <-. exists [c], t. by rewrite app_nil_r.
  - injection E as <- ->. exists (a ++ [c]), b. by rewrite <- !app_assoc.
Qed.

Lemma rotation_list_next act cl c t : rep act cl -> rotation act (c :: t) -> list_next (Some c) cl = Ret (head (t ++ [c])).
Proof.
  intros Hr (a & [|x b] & -> & E); cbn in E.
  - rewrite app_nil_r in Hr. destruct a as [|y a]; [done|]. injection E as <- <-. by rewrite (next_rep [] t cl c Hr).
  - injection E as <- ->. rewrite (next_rep a b cl c Hr). by rewrite <- app_assoc.
Qed.

Lemma rotation_nodup act l : NoDup act -> rotation act l -> NoDup l.
Proof. intros Hn (a & b & -> & ->). by rewrite Permutation_app_comm. Qed.

Lemma rotation_here act c : c ∈ act -> exists t, rotation act (c :: t).
Proof. intros (a & b & ->)%list_elem_of_split. exists (b ++ a), a, (c :: b). done. Qed.

Lemma rotation_swap act l1 l2 : rotation act (l1 ++ l2) -> rotation act (l2 ++ l1).
Proof.
  revert l2. induction l1 as [|x l1 IH]; intros l2 H; [by rewrite app_nil_r|].
  cbn in H. apply rotation_next in H. rewrite <- app_assoc in H. apply IH in H. by rewrite <- app_assoc in H.
Qed.

Lemma iter_visits_step q n f c : iter_visits q (S n) (mkIter f (Some c)) =
  match list_next (Some c) (active_list q) with
  | Ret x => l ← iter_visits q n (mkIter f (if decide (x = f) then None else x)); Some (c :: l)
  | _ => None
  end.
Proof. cbn. unfold ossl_quic_stream_iter_next. cbn. by destruct (list_next (Some c) (active_list q)). Qed.

(** The rest of an iteration that started at [f]: the streams [visited] are
    behind, [c :: t] is ahead. *)
Lemma visits_from q act f c visited t :
  rep act (active_list q) -> rotation act (visited ++ c :: t) -> head (visited ++ [c]) = Some f ->
  iter_visits q (S (length t)) (mkIter (Some f) (Some c)) = Some (c :: t).
Proof.
  intros Hr. revert c visited. induction t as [|x t IH]; intros c visited Hrot Hf;
    pose proof (rotation_list_next act _ c _ Hr (rotation_swap act visited (c :: _) Hrot)) as Hn;
    rewrite iter_visits_step, Hn.
  - by rewrite Hf, decide_True.
  - cbn [app head length]. rewrite decide_False.
    + rewrite (IH x (visited ++ [c])); [done|by rewrite <- app_assoc|]. rewrite <- Hf. by destruct visited.
    + intros [= ->]. pose proof (rotation_nodup _ _ (rep_nodup _ _ Hr) Hrot) as Hnd.
      destruct visited as [|v visited]; cbn in Hf; injection Hf as ->; cbn in Hnd; apply NoDup_cons in Hnd as [Hnd _]; apply Hnd; set_solver.
Qed.

Lemma iter_init_run adv q act c t : rep act (active_list q) -> rotation act (c :: t) -> rr_cur q = Some c ->
  ossl_quic_stream_iter_init adv q = (Ret (mkIter (Some c) (Some c)),
    if adv then let q1 := set_rr_counter (u64 (rr_counter q + 1)) q in
      if rr_stepping q <=? u64 (rr_counter q + 1) then set_rr_cur (head (t ++ [c])) (set_rr_counter 0 q1) else q1
    else q).
Proof.
  intros Hr Ht Hc. unfold ossl_quic_stream_iter_init. rewrite (bind_ret get _ q q q) by done. rewrite Hc.
  destruct adv; [|done]. cbn [andb negb is_null stream]. unfold mbind, M_bind, get, modify. cbn.
  destruct (rr_stepping q <=? u64 (rr_counter q + 1)); [|done].
  rewrite Hc. unfold lift_res. by rewrite (rotation_list_next act _ c t Hr Ht).
Qed.

(** C27: iterating over the active streams ends: from [ossl_quic_stream_iter_init]
    on, as many steps as there are active streams visit each of them exactly once,
    first the one whose turn it is, then in the order of the list; and that is the
    end of the iteration ([iter_visits] has just enough fuel). *)
Theorem stream_iteration_terminates adv act acc gc q :
  inv None act acc gc q ->
  exists it q' l, ossl_quic_stream_iter_init adv q = (Ret it, q') /\
    iter_visits q' (length act) it = Some l /\ rotation act l /\ l ≡ₚ act /\ head l = rr_cur q.
Proof.
  intros [[] _]. destruct (rr_cur q) as [c|] eqn:Ec.
  - destruct (rotation_here act c l_rr0) as [t Ht].
    assert (Hperm : c :: t ≡ₚ act) by (destruct Ht as (a & b & -> & ->); apply Permutation_app_comm).
    eexists _, _, (c :: t). split; [by apply (iter_init_run adv q act c t)|]. split_and!; try done.
    rewrite <- (Permutation_length Hperm). apply (visits_from _ act c c []); [|done|done]. by destruct adv; [case_match|].
  - exists (mkIter None None), q, []. rewrite l_rr0. split_and!; try done; [|by exists [], []].
    unfold ossl_quic_stream_iter_init. rewrite (bind_ret get _ q q q) by done. rewrite Ec. by destruct adv.
Qed.

(** The streams a number of iterations in a row start with. *)
Fixpoint starts (n : nat) : M QUIC_STREAM_MAP (list (option nat)) :=
  match n with
  | O => mret []
  | S n => it ← ossl_quic_stream_iter_init true; l ← starts n; mret (stream it :: l)
  end.

(** Where the round robin stands: the turn of [c], [t] next. *)
Record turn (act : list nat) (k : Z) (c : nat) (t : list nat) (q : QUIC_STREAM_MAP) : Prop := {
  t_rep : rep act (active_list q);
  t_rot : rotation act (c :: t);
  t_cur : rr_cur q = Some c;
  t_step : 0 <= rr_counter q < rr_stepping q /\ rr_stepping q <= UINT64_MAX /\ rr_stepping q - rr_counter q = k
}.

Lemma init_turn act k c t q : turn act k c t q ->
  exists q', ossl_quic_stream_iter_init true q = (Ret (mkIter (Some c) (Some c)), q') /\
    rr_stepping q' = rr_stepping q /\
    if k =? 1 then exists c' t', t ++ [c] = c' :: t' /\ turn act (rr_stepping q) c' t' q' else turn act (k - 1) c t q'.
Proof.
  intros [Hr Hrot Hc (Hk1 & Hk2 & Hk3)]. rewrite (iter_init_run true q act c t Hr Hrot Hc). eexists. split; [reflexivity|].
  cbn zeta. rewrite u64_id by (unfold is_u64; lia).
  destruct (Z.leb_spec (rr_stepping q) (rr_counter q + 1)), (Z.eqb_spec k 1); try lia; (split; [done|]).
  - destruct (t ++ [c]) as [|c' t'] eqn:E; [by destruct t|]. exists c', t'. split; [done|].
    split; cbn; try done; [rewrite <- E; by apply rotation_next|lia].
  - split; cbn; try done. lia.
Qed.

(** The stream at position [i] of the rotation has its turn within [i] rounds. *)
Lemma turn_comes act p i : forall m k c t q, turn act k c t q -> (c :: t) !! i = Some p -> 
  Z.of_nat m = k + Z.of_nat i * rr_stepping q ->
  exists l q', starts m q = (Ret l, q') /\ Some p ∈ l.
Proof.
  intros m. revert i. induction m as [|m IH]; intros i k c t q Ht Hi Hm.
  - destruct Ht as [_ _ _ (? & ? & ?)]. nia.
  - destruct (init_turn _ _ _ _ _ Ht) as (q' & E & Es & Hq'). cbn [starts]. rewrite (bind_ret _ _ _ _ _ E).
    assert (Hrest : Some p ∈ [Some c] \/ exists l q'', starts m q' = (Ret l, q'') /\ Some p ∈ l).
    { destruct i as [|i]; [left; cbn in Hi; simplify_eq; set_solver|right].
      destruct (Z.eqb_spec k 1) as [->|Hk].
      - destruct Hq' as (c' & t' & Et & Hq'). apply (IH i _ c' t' q' Hq'); [|rewrite Es; lia].
        rewrite <- Et. apply lookup_app_l_Some. exact Hi.
      - apply (IH (S i) (k - 1) c t q' Hq' Hi). rewrite Es. lia. }
    assert (Htot : exists l q'', starts m q' = (Ret l, q'')).
    { clear - Ht Hq' Es. assert (H : exists k c t, turn act k c t q').
      { destruct (k =? 1); [destruct Hq' as (c' & t' & _ & H)|]; eauto. }
      clear Ht Hq' Es. revert q' H. induction m as [|m IH]; intros q1 (k1 & c1 & t1 & H1); [by eexists _, _|].
      destruct (init_turn _ _ _ _ _ H1) as (q2 & E & _ & H2). cbn [starts]. rewrite (bind_ret _ _ _ _ _ E).
      destruct (IH q2) as (l & q3 & E3); [destruct (k1 =? 1); [destruct H2 as (c' & t' & _ & H)|]; eauto|].
      rewrite (bind_ret _ _ _ _ _ E3). by eexists _, _. }
    destruct Hrest as [Hin|(l & q'' & E2 & Hin)].
    + destruct Htot as (l & q'' & E2). rewrite (bind_ret _ _ _ _ _ E2). eexists _, _. split; [reflexivity|]. cbn.
      apply list_elem_of_singleton in Hin. rewrite Hin. left.
    + rewrite (bind_ret _ _ _ _ _ E2). eexists _, _. split; [reflexivity|]. by right.
Qed.

(** C28: the round robin is fair: as long as the active streams stay the same,
    every one of them is the first to be served within [rr_stepping] iterations
    for each active stream, whatever the position the rotation is at. *)
Theorem stream_round_robin_fair act acc gc q p :
  inv None act acc gc q -> 0 <= rr_counter q < rr_stepping q -> rr_stepping q <= UINT64_MAX -> p ∈ act ->
  exists n l q', Z.of_nat n <= Z.of_nat (length act) * rr_stepping q /\ starts n q = (Ret l, q') /\ Some p ∈ l.
Proof.
  intros [[] _] Hc Hs Hp. destruct (rr_cur q) as [c|] eqn:Ec; [|subst; by apply elem_of_nil in Hp].
  destruct (rotation_here act c l_rr0) as [t Ht].
  assert (Hperm : c :: t ≡ₚ act) by (destruct Ht as (a & b & -> & ->); apply Permutation_app_comm).
  assert (Hpt : p ∈ c :: t) by (by rewrite Hperm). apply list_elem_of_lookup in Hpt as [i Hi].
  pose proof (lookup_lt_Some _ _ _ Hi) as Hlt. rewrite (Permutation_length Hperm) in Hlt.
  set (k := rr_stepping q - rr_counter q).
  destruct (turn_comes act p i (Z.to_nat (k + Z.of_nat i * rr_stepping q)) k c t q) as (l & q' & E & Hin); try done.
  - rewrite Z2Nat.id; [lia|nia].
  - exists (Z.to_nat (k + Z.of_nat i * rr_stepping q)), l, q'. split_and!; try done. rewrite Z2Nat.id; nia.
Qed.

(** ** Accept queue *)

Lemma count_app f l1 l2 : count_at f (l1 ++ l2) = count_at f l1 + count_at f l2.
Proof. unfold count_at. rewrite filter_app, length_app. lia. Qed.
Lemma count_one f p : count_at f [p] = Z.b2z (f p).
Proof. unfold count_at. rewrite filter_cons, filter_nil. destruct (f p) eqn:E; cbn; rewrite ?decide_True, ?decide_False by congruence; done. Qed.

Lemma count_bound act acc gc q f : links act acc gc q -> 0 <= count_at f acc <= Z.of_nat (length acc) /\
  Z.of_nat (length acc) <= Z.of_nat (size (heap q)).
Proof.
  intros []. split.
  - unfold count_at. pose proof (length_filter (fun p => f p = true) acc). lia.
  - apply Nat2Z.inj_le. rewrite <- size_dom, <- (size_list_to_set (C := gset nat) acc) by apply l_acc0.
    apply subseteq_size. intros p Hp. rewrite elem_of_list_to_set in Hp. apply elem_of_dom. auto.
Qed.

Definition bidi_count (q : QUIC_STREAM_MAP) (l : list nat) : Z := count_at (bidi_at q) l.
Definition uni_count (q : QUIC_STREAM_MAP) (l : list nat) : Z := count_at (fun p => negb (bidi_at q p)) l.

(** Replacing the queue, with counters that agree with it. *)
Lemma set_accept_inv x act acc gc acc' al q nb nu rx :
  inv x act acc gc q -> rep acc' al -> (forall p, p ∈ acc' -> is_Some (heap q !! p)) ->
  nb = bidi_count q acc' -> nu = uni_count q acc' -> (forall p, is_Some (rxfcs q !! p) -> is_Some (rx !! p)) ->
  inv x act acc' gc (set_rxfcs rx (set_num_accept_uni nu (set_num_accept_bidi nb (set_accept_list al q)))).
Proof.
  intros [[] Hs] Hr Hh -> -> Hrx. split; [split; cbn; try done|done].
  intros p s Hp. destruct (l_fcs0 p s Hp) as [H1 H2]. auto.
Qed.

Lemma accept_push_ok act acc gc q p s : inv None act acc gc q -> heap q !! p = Some s -> p ∉ acc ->
  exists q', ossl_quic_stream_map_push_accept_queue p q = (Ret tt, q') /\ inv None act (acc ++ [p]) gc q' /\
    heap q' = heap q /\ frame p q q'.
Proof.
  intros Hi Hp Hn. pose proof Hi as [Hl _]. pose proof Hl as [].
  destruct (insert_tail_rep _ _ p l_acc0 Hn) as (al & El & Hal).
  assert (Hh : forall p', p' ∈ acc ++ [p] -> is_Some (heap q !! p')).
  { intros p' [?| ->%list_elem_of_singleton]%elem_of_app; eauto. }
  pose proof (count_bound _ _ _ _ (bidi_at q) Hl) as [Hb1 Hb2]. pose proof (count_bound _ _ _ _ (fun p => negb (bidi_at q p)) Hl) as [Hu1 _].
  assert (Hlt : Z.of_nat (length acc) + 1 <= Z.of_nat (size (heap q))).
  { assert (Hx : (length (acc ++ [p]) <= size (heap q))%nat).
    { rewrite <- size_dom, <- (size_list_to_set (C := gset nat) (acc ++ [p])) by apply Hal.
      apply subseteq_size. intros p' Hp'. rewrite elem_of_list_to_set in Hp'. apply elem_of_dom. auto. }
    rewrite length_app in Hx. cbn in Hx. lia. }
  assert (Hbi : bidi_at q p = ossl_quic_stream_is_bidi s) by (unfold bidi_at; by rewrite Hp).
  unfold ossl_quic_stream_map_push_accept_queue, on_accept, lift_res, deref, mbind, M_bind, get, modify. cbn. rewrite El. cbn.
  rewrite Hp. eexists. split; [reflexivity|].
  pose proof (set_accept_inv None act acc gc (acc ++ [p]) al q (bidi_count q (acc ++ [p])) (uni_count q (acc ++ [p])) (rxfcs q)
                Hi Hal Hh eq_refl eq_refl (fun _ H => H)) as Hfin.
  unfold bidi_count, uni_count in *. rewrite !count_app, !count_one, Hbi, <- l_bidi0, <- l_uni0 in Hfin. rewrite <- l_bidi0 in Hb1. rewrite <- l_uni0 in Hu1.
  destruct (ossl_quic_stream_is_bidi s); cbn [Z.b2z negb] in *; rewrite Z.add_0_r in Hfin; rewrite u64_id by (unfold is_u64; cbn; lia);
    (split; [by destruct q|by split]).
Qed.

Lemma retire_fields ck r n m rtt r' ck' : Rxfc.rxfc_on_retire ck r n m rtt = (r', ck') ->
  Rxfc.standalone r' = Rxfc.standalone r /\ Rxfc.parent r' = Rxfc.parent r /\ Rxfc.hwm r' = Rxfc.hwm r /\
  Rxfc.is_fin r' = Rxfc.is_fin r /\ Rxfc.error_code r' = Rxfc.error_code r.
Proof.
  unfold Rxfc.rxfc_on_retire, Rxfc.rxfc_update_cwm, Rxfc.rxfc_adjust_window_size.
  set (r1 := if OsslTime.ossl_time_is_zero (Rxfc.epoch_start r) then _ else _).
  assert (E1 : Rxfc.standalone r1.1 = Rxfc.standalone r /\ Rxfc.parent r1.1 = Rxfc.parent r /\ Rxfc.hwm r1.1 = Rxfc.hwm r /\
    Rxfc.is_fin r1.1 = Rxfc.is_fin r /\ Rxfc.error_code r1.1 = Rxfc.error_code r).
  { unfold r1, Rxfc.rxfc_start_epoch. destruct (OsslTime.ossl_time_is_zero _); [|done]. by destruct (read_clock ck). }
  destruct r1 as [r1 ck1]. cbn [fst] in E1. destruct (negb _); [intros [= <- _]; done|].
  destruct (Rxfc.rxfc_should_bump_window_size _ _ _) as [b ck2]. unfold Rxfc.rxfc_start_epoch. destruct (read_clock ck2) as [now ck3].
  destruct (_ <? _) in |- *; intros [= <- _]; done.
Qed.

(** What retiring one stream does to a stream-count controller. *)
Lemma retire_one ck h fc r rtt : h !! fc = Some r -> Rxfc.standalone r = true -> Rxfc.rxfc_ok r ->
  Rxfc.rwm r <= Rxfc.swm r < UINT64_MAX ->
  exists ok r', Rxfc.ossl_quic_rxfc_on_retire ck h fc 1 rtt = Some (ok, <[fc := r']> h) /\
    (r' = r \/ exists ck', Rxfc.rxfc_on_retire ck r 1 0 rtt = (r', ck')) /\ Rxfc.cwm r <= Rxfc.cwm r' /\ Rxfc.rwm r' = if Rxfc.rwm r <? Rxfc.swm r then Rxfc.rwm r + 1 else Rxfc.rwm r.
Proof.
  intros Hh Hs Hok Hle. pose proof Hok as (Hc & Hsw & Hrw & _). unfold is_u64 in *. unfold Rxfc.ossl_quic_rxfc_on_retire.
  rewrite Hh. cbn [mbind option_bind]. rewrite Hs, andb_false_r. cbn [Z.eqb].
  destruct (Z.ltb_spec (Rxfc.rwm r) (Rxfc.swm r)).
  - rewrite u64_id by (unfold is_u64; lia). destruct (Z.ltb_spec (Rxfc.swm r) (Rxfc.rwm r + 1)); [lia|].
    destruct (Rxfc.rxfc_on_retire ck r 1 0 rtt) as [r' ck'] eqn:E. rewrite (proj1 (retire_fields _ _ _ _ _ _ _ E)), Hs.
    destruct (Rxfc.on_retire_spec ck r 1 0 rtt r' ck' Hok ltac:(unfold is_u64; lia) E) as (Hok' & Hcw & _ & Hrw' & _).
    exists true, r'. rewrite u64_id in Hrw' by (unfold is_u64; lia). split_and!; try done. right. eauto.
  - rewrite u64_id by (unfold is_u64; lia). destruct (Z.ltb_spec (Rxfc.swm r) (Rxfc.rwm r + 1)); [|lia].
    exists false, r. rewrite insert_id by done. split_and!; auto. lia.
Qed.

(** The controller that counts the peer's streams of the type of [s]. *)
Definition counted (q : QUIC_STREAM_MAP) (s : QUIC_STREAM) (fc : nat) (r : Rxfc.QUIC_RXFC) : Prop :=
  qsm_get_max_streams_rxfc q s = Some fc /\ rxfcs q !! fc = Some r /\ Rxfc.standalone r = true /\ Rxfc.rxfc_ok r /\
  Rxfc.rwm r <= Rxfc.swm r < UINT64_MAX.

(** What the accept queue does not touch. *)
Definition accepted_frame (q q' : QUIC_STREAM_MAP) : Prop :=
  table q' = table q /\ txfcs q' = txfcs q /\ qpkts q' = qpkts q /\ is_server q' = is_server q /\
  max_streams_bidi_rxfc q' = max_streams_bidi_rxfc q /\ max_streams_uni_rxfc q' = max_streams_uni_rxfc q.

Lemma remove_accept_ok ck rtt act a b gc q p s fc r : 
  inv None act (a ++ p :: b) gc q -> heap q !! p = Some s -> counted q s fc r ->
  exists q' r', ossl_quic_stream_map_remove_from_accept_queue ck p rtt q = (Ret tt, q') /\ inv None act (a ++ b) gc q' /\
    heap q' = heap q /\ rxfcs q' = <[fc := r']> (rxfcs q) /\ accepted_frame q q' /\
    (r' = r \/ exists ck', Rxfc.rxfc_on_retire ck r 1 0 rtt = (r', ck')) /\
    Rxfc.rwm r' = (if Rxfc.rwm r <? Rxfc.swm r then Rxfc.rwm r + 1 else Rxfc.rwm r) /\ Rxfc.cwm r <= Rxfc.cwm r'.
Proof.
  intros Hi Hp (Hfc & Hr & Hst & Hok & Hle). pose proof Hi as [Hl _]. pose proof Hl as [].
  destruct (remove_rep _ _ _ _ l_acc0) as (al & El & Hal).
  assert (Hh : forall p', p' ∈ a ++ b -> is_Some (heap q !! p')).
  { intros p' Hin. apply l_accept0. rewrite elem_of_app in *. rewrite elem_of_cons. tauto. }
  pose proof (count_bound _ _ _ _ (bidi_at q) Hl) as [Hb1 Hb2]. pose proof (count_bound _ _ _ _ (fun p => negb (bidi_at q p)) Hl) as [Hu1 _].
  destruct (retire_one ck (rxfcs q) fc r rtt Hr Hst Hok Hle) as (ok & r' & Er & Hst' & Hcw & Hrw).
  assert (Hbi : bidi_at q p = ossl_quic_stream_is_bidi s) by (unfold bidi_at; by rewrite Hp).
  assert (Hrx : forall p', is_Some (rxfcs q !! p') -> is_Some (<[fc := r']> (rxfcs q) !! p')).
  { intros p' ?. rewrite lookup_insert. case_decide; eauto. }
  unfold ossl_quic_stream_map_remove_from_accept_queue, on_accept, lift_res, deref, mbind, M_bind, get, modify. cbn. rewrite El. cbn.
  rewrite Hp. unfold qsm_get_max_streams_rxfc in *. 
  pose proof (set_accept_inv None act (a ++ p :: b) gc (a ++ b) al q (bidi_count q (a ++ b)) (uni_count q (a ++ b)) (<[fc := r']> (rxfcs q))
                Hi Hal Hh eq_refl eq_refl Hrx) as Hfin.
  assert (Hcnt : forall f, count_at f (a ++ b) = count_at f (a ++ p :: b) - Z.b2z (f p)).
  { intros f. rewrite !count_app. change (p :: b) with ([p] ++ b). rewrite count_app, count_one. lia. }
  assert (Hpos : forall f, 0 <= count_at f (a ++ b)) by (intros; unfold count_at; lia).
  pose proof (Hpos (bidi_at q)) as Hp1. pose proof (Hpos (fun p => negb (bidi_at q p))) as Hp2.
  unfold bidi_count, uni_count in *. rewrite !Hcnt, Hbi, <- ?l_bidi0, <- ?l_uni0 in *.
  destruct (ossl_quic_stream_is_bidi s); cbn [Z.b2z negb] in *; rewrite Z.sub_0_r in Hfin;
    (rewrite u64_id by (unfold is_u64; cbn; lia)); cbn; rewrite Hfc; cbn; rewrite Er; cbn;
    eexists _, r'; (split; [reflexivity|]); (split; [by destruct q|]); split_and!; by eauto.
Qed.

(** The accept queue is first in, first out, and its two lengths are exact.
    Pushing a stream that is not queued puts it last; the head is what
    [peek] returns; removing a stream, from wherever it is, keeps the order of the
    others and gives the peer one more stream of that type when one was counted.
    The lengths reported are the numbers of queued streams of each type. *)
Theorem stream_accept_queue ck rtt act acc gc q p s :
  inv None act acc gc q -> heap q !! p = Some s ->
  ossl_quic_stream_map_peek_accept_queue q = Ret (head acc) /\
  ossl_quic_stream_map_get_accept_queue_len q false = bidi_count q acc /\
  ossl_quic_stream_map_get_accept_queue_len q true = uni_count q acc /\
  ossl_quic_stream_map_get_total_accept_queue_len q = Z.of_nat (length acc) /\
  (p ∉ acc -> exists q', ossl_quic_stream_map_push_accept_queue p q = (Ret tt, q') /\ inv None act (acc ++ [p]) gc q') /\
  (forall a b fc r, acc = a ++ p :: b -> counted q s fc r ->
     exists q' r', ossl_quic_stream_map_remove_from_accept_queue ck p rtt q = (Ret tt, q') /\ inv None act (a ++ b) gc q' /\
       rxfcs q' !! fc = Some r' /\
       Rxfc.rwm r' = (if Rxfc.rwm r <? Rxfc.swm r then Rxfc.rwm r + 1 else Rxfc.rwm r) /\ Rxfc.cwm r <= Rxfc.cwm r').
Proof.
  intros Hi Hp. pose proof Hi as [Hl _]. pose proof Hl as [].
  pose proof (count_bound _ _ _ _ (bidi_at q) Hl) as [_ Hb].
  split_and!; [by apply next_head_rep|done|done| | |].
  - unfold ossl_quic_stream_map_get_total_accept_queue_len. cbn. rewrite l_bidi0, l_uni0.
    assert (E : forall f l, count_at f l + count_at (fun p => negb (f p)) l = Z.of_nat (length l)).
    { intros f l. induction l as [|x l IH]; [done|]. change (x :: l) with ([x] ++ l).
      rewrite !count_app, !count_one, length_app. destruct (f x); cbn in *; lia. }
    rewrite E. apply u64_id. unfold is_u64. lia.
  - intros Hn. destruct (accept_push_ok _ _ _ _ _ _ Hi Hp Hn) as (q' & E & Hi' & _). eauto.
  - intros a b fc r -> Hc. destruct (remove_accept_ok ck rtt _ _ _ _ _ _ _ _ _ Hi Hp Hc) as (q' & r' & E & Hi' & _ & Hrx & _ & _ & H).
    exists q', r'. rewrite Hrx, lookup_insert_eq. tauto.
Qed.

(** [ossl_quic_stream_map_gc] releases nothing: the loop starts at the head of
    the list of streams that can be collected and stops when it is at the head, so
    its body never runs and streams stay allocated until the connection ends. *)
Theorem stream_gc_releases_nothing act acc gc q :
  inv None act acc gc q -> ossl_quic_stream_map_gc q = (Ret tt, q).
Proof.
  intros [[] _]. unfold ossl_quic_stream_map_gc. rewrite (bind_ret get _ q q q) by done.
  rewrite (bind_ret (lift_res _) _ q (head gc) q) by (unfold lift_res; by rewrite (next_head_rep _ _ l_gc0)).
  destruct (head gc) as [p|]; cbn; [|by destruct (size (heap q))]. destruct (size (heap q)); cbn; by rewrite decide_True.
Qed.
End StreamMapSpec.
