(* ===== verification/StreamChan.v ===== *)
(** * Streams of a channel

    Model of the part of [ssl/quic/quic_channel.c] that creates, rejects and
    counts streams.  The channel is the record of the fields these functions use;
    its stream map holds the flow controllers, its own included, in the stores of
    the map, [conn_txfc] and [conn_rxfc] being the addresses of the connection's.
    [max_local_streams_bidi] and [max_local_streams_uni] are what the argument of
    the map's callback points to ([cb_arg]).  [raised] records the protocol errors
    raised, last first: the code and the frame type.

    The outcomes of the allocations a call makes are its argument [mem]. *)
From Stdlib Require Import ZArith Lia.
From stdpp Require Import base tactics option gmap sorting.
From S2P Require Import Prelude QuicFc SfList RStream SStream CList StreamMap StreamMapInv StreamMapSpec.
#[local] Open Scope Z_scope.
Import CList StreamMap StreamMapInv StreamMapSpec.

Module StreamChan.

Record QUIC_CHANNEL := mkCh {
  qsm : QUIC_STREAM_MAP; ch_is_server : bool; conn_txfc : nat; conn_rxfc : nat;
  next_local_stream_ordinal_bidi : Z; next_local_stream_ordinal_uni : Z;
  next_remote_stream_ordinal_bidi : Z; next_remote_stream_ordinal_uni : Z;
  got_remote_transport_params : bool;
  rx_init_max_stream_data_bidi_local : Z; rx_init_max_stream_data_bidi_remote : Z; rx_init_max_stream_data_uni : Z;
  tx_init_max_stream_data_bidi_local : Z; tx_init_max_stream_data_bidi_remote : Z; tx_init_max_stream_data_uni : Z;
  incoming_stream_auto_reject : bool; incoming_stream_auto_reject_aec : Z;
  raised : list (Z * Z)
}.

(** Assignments to one field. *)
Definition set_qsm (v : QUIC_STREAM_MAP) (c : QUIC_CHANNEL) : QUIC_CHANNEL :=
    mkCh v (ch_is_server c) (conn_txfc c) (conn_rxfc c) (next_local_stream_ordinal_bidi c)
    (next_local_stream_ordinal_uni c) (next_remote_stream_ordinal_bidi c) (next_remote_stream_ordinal_uni c)
    (got_remote_transport_params c) (rx_init_max_stream_data_bidi_local c) (rx_init_max_stream_data_bidi_remote c)
    (rx_init_max_stream_data_uni c) (tx_init_max_stream_data_bidi_local c) (tx_init_max_stream_data_bidi_remote c)
    (tx_init_max_stream_data_uni c) (incoming_stream_auto_reject c) (incoming_stream_auto_reject_aec c) (raised c).
Definition set_next_local_stream_ordinal_bidi (v : Z) (c : QUIC_CHANNEL) : QUIC_CHANNEL :=
    mkCh (qsm c) (ch_is_server c) (conn_txfc c) (conn_rxfc c) v (next_local_stream_ordinal_uni c)
    (next_remote_stream_ordinal_bidi c) (next_remote_stream_ordinal_uni c) (got_remote_transport_params c)
    (rx_init_max_stream_data_bidi_local c) (rx_init_max_stream_data_bidi_remote c) (rx_init_max_stream_data_uni c)
    (tx_init_max_stream_data_bidi_local c) (tx_init_max_stream_data_bidi_remote c) (tx_init_max_stream_data_uni c)
    (incoming_stream_auto_reject c) (incoming_stream_auto_reject_aec c) (raised c).
Definition set_next_local_stream_ordinal_uni (v : Z) (c : QUIC_CHANNEL) : QUIC_CHANNEL :=
    mkCh (qsm c) (ch_is_server c) (conn_txfc c) (conn_rxfc c) (next_local_stream_ordinal_bidi c) v
    (next_remote_stream_ordinal_bidi c) (next_remote_stream_ordinal_uni c) (got_remote_transport_params c)
    (rx_init_max_stream_data_bidi_local c) (rx_init_max_stream_data_bidi_remote c) (rx_init_max_stream_data_uni c)
    (tx_init_max_stream_data_bidi_local c) (tx_init_max_stream_data_bidi_remote c) (tx_init_max_stream_data_uni c)
    (incoming_stream_auto_reject c) (incoming_stream_auto_reject_aec c) (raised c).
Definition set_next_remote_stream_ordinal_bidi (v : Z) (c : QUIC_CHANNEL) : QUIC_CHANNEL :=
    mkCh (qsm c) (ch_is_server c) (conn_txfc c) (conn_rxfc c) (next_local_stream_ordinal_bidi c)
    (next_local_stream_ordinal_uni c) v (next_remote_stream_ordinal_uni c) (got_remote_transport_params c)
    (rx_init_max_stream_data_bidi_local c) (rx_init_max_stream_data_bidi_remote c) (rx_init_max_stream_data_uni c)
    (tx_init_max_stream_data_bidi_local c) (tx_init_max_stream_data_bidi_remote c) (tx_init_max_stream_data_uni c)
    (incoming_stream_auto_reject c) (incoming_stream_auto_reject_aec c) (raised c).
Definition set_next_remote_stream_ordinal_uni (v : Z) (c : QUIC_CHANNEL) : QUIC_CHANNEL :=
    mkCh (qsm c) (ch_is_server c) (conn_txfc c) (conn_rxfc c) (next_local_stream_ordinal_bidi c)
    (next_local_stream_ordinal_uni c) (next_remote_stream_ordinal_bidi c) v (got_remote_transport_params c)
    (rx_init_max_stream_data_bidi_local c) (rx_init_max_stream_data_bidi_remote c) (rx_init_max_stream_data_uni c)
    (tx_init_max_stream_data_bidi_local c) (tx_init_max_stream_data_bidi_remote c) (tx_init_max_stream_data_uni c)
    (incoming_stream_auto_reject c) (incoming_stream_auto_reject_aec c) (raised c).
Definition set_incoming_stream_auto_reject (v : bool) (c : QUIC_CHANNEL) : QUIC_CHANNEL :=
    mkCh (qsm c) (ch_is_server c) (conn_txfc c) (conn_rxfc c) (next_local_stream_ordinal_bidi c)
    (next_local_stream_ordinal_uni c) (next_remote_stream_ordinal_bidi c) (next_remote_stream_ordinal_uni c)
    (got_remote_transport_params c) (rx_init_max_stream_data_bidi_local c) (rx_init_max_stream_data_bidi_remote c)
    (rx_init_max_stream_data_uni c) (tx_init_max_stream_data_bidi_local c) (tx_init_max_stream_data_bidi_remote c)
    (tx_init_max_stream_data_uni c) v (incoming_stream_auto_reject_aec c) (raised c).
Definition set_incoming_stream_auto_reject_aec (v : Z) (c : QUIC_CHANNEL) : QUIC_CHANNEL :=
    mkCh (qsm c) (ch_is_server c) (conn_txfc c) (conn_rxfc c) (next_local_stream_ordinal_bidi c)
    (next_local_stream_ordinal_uni c) (next_remote_stream_ordinal_bidi c) (next_remote_stream_ordinal_uni c)
    (got_remote_transport_params c) (rx_init_max_stream_data_bidi_local c) (rx_init_max_stream_data_bidi_remote c)
    (rx_init_max_stream_data_uni c) (tx_init_max_stream_data_bidi_local c) (tx_init_max_stream_data_bidi_remote c)
    (tx_init_max_stream_data_uni c) (incoming_stream_auto_reject c) v (raised c).
Definition set_raised (v : list (Z * Z)) (c : QUIC_CHANNEL) : QUIC_CHANNEL :=
    mkCh (qsm c) (ch_is_server c) (conn_txfc c) (conn_rxfc c) (next_local_stream_ordinal_bidi c)
    (next_local_stream_ordinal_uni c) (next_remote_stream_ordinal_bidi c) (next_remote_stream_ordinal_uni c)
    (got_remote_transport_params c) (rx_init_max_stream_data_bidi_local c) (rx_init_max_stream_data_bidi_remote c)
    (rx_init_max_stream_data_uni c) (tx_init_max_stream_data_bidi_local c) (tx_init_max_stream_data_bidi_remote c)
    (tx_init_max_stream_data_uni c) (incoming_stream_auto_reject c) (incoming_stream_auto_reject_aec c) v.

Definition on_qsm {A} (m : M QUIC_STREAM_MAP A) : M QUIC_CHANNEL A := fun c =>
  let '(r, q) := m (qsm c) in (r, set_qsm q c).

(** The address of the new stream, if there is memory for it, whether there is
    memory for its entry in the hash table, for the send buffer and its block and
    for the receive buffer. *)
Record mem := mkMem { m_stream : option nat; m_entry : bool; m_sstream : bool; m_block : bool; m_rstream : bool }.

Definition INIT_APP_BUF_LEN : Z := 8192.
Definition DEFAULT_STREAM_RXFC_MAX_WND_MUL : Z := 12.

Definition get_stream_limit (uni : bool) (arg : Z * Z) : Z := if uni then arg.2 else arg.1.

Definition init_sstream (m : mem) (p : nat) : M QUIC_CHANNEL unit :=
  let ss := SStream.ossl_quic_sstream_new (m_sstream m) (m_block m) INIT_APP_BUF_LEN in
  on_qsm (upd p (set_sstream ss));; guard_ (negb (is_null ss)).

Definition init_rstream (m : mem) (p : nat) : M QUIC_CHANNEL unit :=
  c ← get;
  let rs := RStream.ossl_quic_rstream_new None None 0 (m_rstream m) true (qpkts (qsm c)) (rxfcs (qsm c)) [] in
  on_qsm (upd p (set_rstream rs));; guard_ (negb (is_null rs)).

Definition init_txfc (p : nat) : M QUIC_CHANNEL unit :=
  c ← get;
  r ← lift_opt (Txfc.ossl_quic_txfc_init (txfcs (qsm c)) p (Some (conn_txfc c)));
  guard_ r.1;; on_qsm (modify (set_txfcs r.2)).

Definition bump_txfc (p : nat) (cwm : Z) : M QUIC_STREAM_MAP unit :=
  t ← txfc_of p;
  modify (fun q => set_txfcs (<[p := (Txfc.ossl_quic_txfc_bump_cwm t cwm).2]> (txfcs q)) q).

(** [get_time] is the clock the controller will read. *)
Definition init_rxfc (p : nat) (wnd : Z) : M QUIC_CHANNEL unit :=
  c ← get;
  r ← lift_opt (Rxfc.ossl_quic_rxfc_init (rxfcs (qsm c)) p (Some (conn_rxfc c)) wnd
                  (u64 (DEFAULT_STREAM_RXFC_MAX_WND_MUL * wnd)));
  guard_ r.1;; on_qsm (modify (set_rxfcs r.2)).

Definition ch_init_new_stream (m : mem) (p : nat) (can_send can_recv : bool) : M QUIC_CHANNEL unit :=
  s ← on_qsm (deref p);
  c ← get;
  let server_init := ossl_quic_stream_is_server_init s in
  let local_init := Bool.eqb (ch_is_server c) server_init in
  let is_uni := negb (ossl_quic_stream_is_bidi s) in
  ok ← try_ (
    when_ can_send (init_sstream m p);;
    when_ can_recv (init_rstream m p);;
    init_txfc p;;
    when_ (got_remote_transport_params c && can_send)
      (on_qsm (bump_txfc p (if is_uni then rx_init_max_stream_data_uni c
                            else if local_init then rx_init_max_stream_data_bidi_local c
                            else rx_init_max_stream_data_bidi_remote c)));;
    init_rxfc p (if negb can_recv then 0
                 else if is_uni then tx_init_max_stream_data_uni c
                 else if local_init then tx_init_max_stream_data_bidi_local c
                 else tx_init_max_stream_data_bidi_remote c));
  if ok : bool then mret tt
  else
    on_qsm (upd p (set_sstream None));;
    s ← on_qsm (deref p);
    on_qsm (free_rstream (rstream s));;
    on_qsm (upd p (set_rstream None));;
    fail.

(** The ordinals are reached through a pointer to one of the two fields. *)
Definition ch_get_local_stream_next_ordinal_ptr (c : QUIC_CHANNEL) (is_uni : bool) : Z :=
  if is_uni then next_local_stream_ordinal_uni c else next_local_stream_ordinal_bidi c.
Definition set_next_local (is_uni : bool) (v : Z) (c : QUIC_CHANNEL) : QUIC_CHANNEL :=
  if is_uni then set_next_local_stream_ordinal_uni v c else set_next_local_stream_ordinal_bidi v c.
Definition ch_get_local_stream_max_ptr (c : QUIC_CHANNEL) (is_uni : bool) : Z :=
  if is_uni then (cb_arg (qsm c)).2 else (cb_arg (qsm c)).1.
Definition ch_get_remote_stream_count_rxfc (c : QUIC_CHANNEL) (is_uni : bool) : option nat :=
  if is_uni then max_streams_uni_rxfc (qsm c) else max_streams_bidi_rxfc (qsm c).

Definition ossl_quic_channel_is_new_local_stream_admissible (c : QUIC_CHANNEL) (is_uni : bool) : bool :=
  ossl_quic_stream_map_is_local_allowed_by_stream_limit (qsm c) (ch_get_local_stream_next_ordinal_ptr c is_uni) is_uni.
Definition ossl_quic_channel_get_local_stream_count_avail (c : QUIC_CHANNEL) (is_uni : bool) : Z :=
  u64 (ch_get_local_stream_max_ptr c is_uni - ch_get_local_stream_next_ordinal_ptr c is_uni).
Definition ossl_quic_channel_get_remote_stream_count_avail (c : QUIC_CHANNEL) (is_uni : bool) : option Z :=
  fc ← ch_get_remote_stream_count_rxfc c is_uni; r ← rxfcs (qsm c) !! fc; Some (Rxfc.ossl_quic_rxfc_get_credit r).

(** The stream, [Err] for null. *)
Definition ossl_quic_channel_new_stream_local (m : mem) (is_uni : bool) : M QUIC_CHANNEL nat :=
  c ← get;
  let type := Z.lor (Z.b2z (ch_is_server c)) (if is_uni then 2 else 0) in
  let ordinal := ch_get_local_stream_next_ordinal_ptr c is_uni in
  guard_ (ordinal <? Z.shiftl 1 62);;
  let stream_id := Z.lor (u64 (Z.shiftl ordinal 2)) type in
  p ← on_qsm (ossl_quic_stream_map_alloc (m_stream m) (m_entry m) stream_id type);
  ok ← try_ (ch_init_new_stream m p true (negb is_uni));
  if ok : bool then
    modify (fun c => set_next_local is_uni (u64 (ch_get_local_stream_next_ordinal_ptr c is_uni + 1)) c);; mret p
  else on_qsm (ossl_quic_stream_map_release (Some p));; fail.

Definition ossl_quic_channel_reject_stream (p : nat) : M QUIC_CHANNEL unit :=
  c ← get;
  on_qsm (try_ (ossl_quic_stream_map_stop_sending_recv_part p (incoming_stream_auto_reject_aec c)));;
  on_qsm (try_ (ossl_quic_stream_map_reset_stream_send_part p (incoming_stream_auto_reject_aec c)));;
  on_qsm (upd p (set_deleted true));;
  on_qsm (ossl_quic_stream_map_update_state p).

Definition ossl_quic_channel_new_stream_remote (m : mem) (stream_id : Z) : M QUIC_CHANNEL nat :=
  c ← get;
  let peer_role := if ch_is_server c then 0 else 1 in
  guard_ (Z.land stream_id 1 =? peer_role);;
  let is_uni := Z.land stream_id 2 =? 2 in
  p ← on_qsm (ossl_quic_stream_map_alloc (m_stream m) (m_entry m) stream_id (Z.land stream_id 3));
  ok ← try_ (ch_init_new_stream m p (negb is_uni) true);
  if ok : bool then
    (if incoming_stream_auto_reject c then ossl_quic_channel_reject_stream p
     else on_qsm (ossl_quic_stream_map_push_accept_queue p));;
    mret p
  else on_qsm (ossl_quic_stream_map_release (Some p));; fail.

Definition ossl_quic_channel_set_incoming_stream_auto_reject (enable : bool) (aec : Z) (c : QUIC_CHANNEL) : QUIC_CHANNEL :=
  set_incoming_stream_auto_reject_aec aec (set_incoming_stream_auto_reject enable c).

(** [ossl_quic_channel_raise_protocol_error], for this part of the channel. *)
Definition raise_protocol_error {A} (error_code frame_type : Z) : M QUIC_CHANNEL A :=
  modify (fun c => set_raised ((error_code, frame_type) :: raised c) c);; fail.


(** ** Creating a stream *)

(** The map while the stream [s] is made at the address [p], with its
    controllers. *)
Definition born (lh : bool) (p : nat) (s : QUIC_STREAM) (t : Txfc.QUIC_TXFC) (r : Rxfc.QUIC_RXFC) (q : QUIC_STREAM_MAP) : QUIC_STREAM_MAP :=
  if lh then set_table (<[id s := p]> (table q)) (adopt p s t r q) else adopt p s t r q.

Lemma born_here lh p s t r q : heap (born lh p s t r q) !! p = Some s.
Proof. destruct lh; cbn; by rewrite lookup_insert_eq. Qed.

Lemma born_tx lh p s t r q k : k <> p -> txfcs (born lh p s t r q) !! k = txfcs q !! k.
Proof. intros. destruct lh; cbn; by rewrite lookup_insert_ne. Qed.
Lemma born_rx lh p s t r q k : k <> p -> rxfcs (born lh p s t r q) !! k = rxfcs q !! k.
Proof. intros. destruct lh; cbn; by rewrite lookup_insert_ne. Qed.
Lemma born_pkts lh p s t r q : qpkts (born lh p s t r q) = qpkts q.
Proof. by destruct lh. Qed.

Lemma born_upd lh p s t r q f : id (f s) = id s -> upd p f (born lh p s t r q) = (Ret tt, born lh p (f s) t r q).
Proof.
  intros Hid. unfold upd. erewrite bind_ret by (unfold deref; by rewrite born_here). unfold modify. f_equal.
  assert (E : heap (born lh p s t r q) = <[p := s]> (heap q)) by (by destruct lh). rewrite E, insert_insert_eq.
  unfold born. rewrite Hid. by destruct lh.
Qed.

Lemma born_set_tx lh p s t r q t' : set_txfcs (<[p := t']> (txfcs (born lh p s t r q))) (born lh p s t r q) = born lh p s t' r q.
Proof.
  assert (E : txfcs (born lh p s t r q) = <[p := t]> (txfcs q)) by (by destruct lh). rewrite E, insert_insert_eq. by destruct lh.
Qed.
Lemma born_set_rx lh p s t r q r' : set_rxfcs (<[p := r']> (rxfcs (born lh p s t r q))) (born lh p s t r q) = born lh p s t r' q.
Proof.
  assert (E : rxfcs (born lh p s t r q) = <[p := r]> (rxfcs q)) by (by destruct lh). rewrite E, insert_insert_eq. by destruct lh.
Qed.

Lemma on_qsm_run {A} (m : M QUIC_STREAM_MAP A) c r q' : m (qsm c) = (r, q') -> on_qsm m c = (r, set_qsm q' c).
Proof. unfold on_qsm. by intros ->. Qed.

(** Nothing at the address [p] yet. *)
Definition fresh (p : nat) (q : QUIC_STREAM_MAP) : Prop :=
  heap q !! p = None /\ txfcs q !! p = None /\ rxfcs q !! p = None.

Lemma alloc_run m lh sid ty q : table q !! sid = None ->
  ossl_quic_stream_map_alloc m lh sid ty q =
  match m with
  | None => (Err, q)
  | Some p => (Ret p, born lh p (new_stream sid ty (is_server q)) zero_txfc zero_rxfc q)
  end.
Proof.
  intros Ht. unfold ossl_quic_stream_map_alloc. rewrite (bind_ret get _ q q q) by done. rewrite Ht. destruct m as [p|]; [|done].
  destruct lh; by destruct q.
Qed.

Lemma new_stream_id sid ty server : id (new_stream sid ty server) = sid.
Proof. done. Qed.

Lemma list_rep_unlink l c p : rep l c -> p ∉ l -> unlink p c = Ret c.
Proof. intros H Hn. unfold unlink. by rewrite (rep_out _ _ H p Hn). Qed.

Lemma on_list_id f q : f (active_list q) = Ret (active_list q) -> on_active f q = (Ret tt, q).
Proof. intros E. unfold on_active, lift_res, mbind, M_bind, get, modify. rewrite E. by destruct q. Qed.
Lemma on_list_id2 f q : f (accept_list q) = Ret (accept_list q) -> on_accept f q = (Ret tt, q).
Proof. intros E. unfold on_accept, lift_res, mbind, M_bind, get, modify. rewrite E. by destruct q. Qed.
Lemma on_list_id3 f q : f (ready_for_gc_list q) = Ret (ready_for_gc_list q) -> on_gc f q = (Ret tt, q).
Proof. intros E. unfold on_gc, lift_res, mbind, M_bind, get, modify. rewrite E. by destruct q. Qed.

Lemma release_born act acc gc lh p s t r q :
  links act acc gc q -> fresh p q -> table q !! id s = None -> rstream s = None ->
  ossl_quic_stream_map_release (Some p) (born lh p s t r q) = (Ret tt, q).
Proof.
  intros [] (Hh & Htx & Hrx) Ht Hrs.
  assert (Ha : p ∉ act) by (rewrite l_active0, Hh; by intros (? & ? & ?)).
  assert (Hg : p ∉ gc) by (rewrite l_ready0, Hh; by intros (? & ? & ?)).
  assert (Hc : p ∉ acc) by (intros Hin; apply l_accept0 in Hin; rewrite Hh in Hin; by destruct Hin).
  assert (Ea : active_list (born lh p s t r q) = active_list q) by (by destruct lh).
  assert (Ec : accept_list (born lh p s t r q) = accept_list q) by (by destruct lh).
  assert (Eg : ready_for_gc_list (born lh p s t r q) = ready_for_gc_list q) by (by destruct lh).
  unfold ossl_quic_stream_map_release. erewrite bind_ret by (unfold deref; by rewrite born_here).
  rewrite (bind_ret _ _ _ tt (born lh p s t r q)).
  2: { apply on_list_id. rewrite Ea. by eapply list_rep_unlink. }
  rewrite (bind_ret _ _ _ tt (born lh p s t r q)).
  2: { apply on_list_id2. rewrite Ec. by eapply list_rep_unlink. }
  rewrite (bind_ret _ _ _ tt (born lh p s t r q)).
  2: { apply on_list_id3. rewrite Eg. by eapply list_rep_unlink. }
  rewrite Hrs. rewrite (bind_ret _ _ _ tt (born lh p s t r q)) by done.
  unfold modify. f_equal. destruct lh; cbn; rewrite !delete_insert_id by done; [|rewrite delete_id by done]; by destruct q.
Qed.

(** The channel with a stream in the making. *)
Abbreviation mk lh p s t r q c := (set_qsm (born lh p s t r q) c).

Lemma wp_on_qsm_upd lh p s t r q c f (Q : unit -> QUIC_CHANNEL -> Prop) E :
  id (f s) = id s -> Q tt (mk lh p (f s) t r q c) -> wp (on_qsm (upd p f)) (mk lh p s t r q c) Q E.
Proof. intros Hid HQ. eapply wp_eq; [|exact HQ]. erewrite on_qsm_run by (cbn; by apply born_upd). done. Qed.

Lemma wp_on_deref lh p s t r q c (Q : QUIC_STREAM -> QUIC_CHANNEL -> Prop) E :
  Q s (mk lh p s t r q c) -> wp (on_qsm (deref p)) (mk lh p s t r q c) Q E.
Proof. intros HQ. eapply wp_eq; [|exact HQ]. erewrite on_qsm_run; [|cbn; unfold deref; by rewrite born_here]. done. Qed.

(** What a new stream needs of the rest of the channel. *)
Record parents (q : QUIC_STREAM_MAP) (c : QUIC_CHANNEL) : Prop := {
  pa_tx : exists t, txfcs q !! conn_txfc c = Some t /\ Txfc.parent t = None /\ Txfc.txfc_ok t;
  pa_rx : exists r, rxfcs q !! conn_rxfc c = Some r /\ Rxfc.parent r = None
}.

Definition new_tx (c : QUIC_CHANNEL) (cwm : Z) : Txfc.QUIC_TXFC := Txfc.mkTxfc (Some (conn_txfc c)) 0 cwm false.
Definition new_rx (c : QUIC_CHANNEL) (wnd : Z) : Rxfc.QUIC_RXFC :=
  Rxfc.mkRxfc wnd 0 0 0 0 wnd (u64 (DEFAULT_STREAM_RXFC_MAX_WND_MUL * wnd)) 0 (Some (conn_rxfc c)) 0 false false false.

(** The buffers of a new stream. *)
Definition new_buffers (can_send can_recv : bool) (s s' : QUIC_STREAM) : Prop :=
  exists ss rs, s' = set_rstream rs (set_sstream ss s) /\
    (if can_send then exists x, ss = Some x /\ SStream.ss_ok [] x else ss = None) /\
    (if can_recv then exists x, rs = Some x /\ RStream.fl x = SfList.ossl_sframe_list_init else rs = None).

(** Memory for the stream or for one of its buffers is missing. *)
Definition mem_fails (m : mem) : Prop :=
  m_stream m = None \/ m_sstream m = false \/ m_block m = false \/ m_rstream m = false.

Lemma sstream_new_fails m : SStream.ossl_quic_sstream_new (m_sstream m) (m_block m) INIT_APP_BUF_LEN = None -> mem_fails m.
Proof.
  unfold mem_fails. destruct (m_sstream m), (m_block m); auto. intros E. exfalso.
  assert (H : is_null (SStream.ossl_quic_sstream_new true true INIT_APP_BUF_LEN) = false) by (vm_compute; reflexivity).
  by rewrite E in H.
Qed.

Lemma rstream_new_fails m pk fc ck : RStream.ossl_quic_rstream_new None None 0 (m_rstream m) true pk fc ck = None -> mem_fails m.
Proof. unfold mem_fails. destruct (m_rstream m); auto. done. Qed.

Section Init.
Context (lh : bool) (p : nat) (q : QUIC_STREAM_MAP) (c : QUIC_CHANNEL) (m : mem) (sid : Z).
Hypotheses (Hfresh : fresh p q) (Hpar : parents q c).

(** Some stage of the making of the stream. *)
Definition stage (c' : QUIC_CHANNEL) : Prop :=
  exists s t r, c' = mk lh p s t r q c /\ id s = sid /\ (forall x, rstream s = Some x -> RStream.fl x = SfList.ossl_sframe_list_init) /\
    mem_fails m.

Lemma wp_init_sstream s t r (b : bool) (Q : unit -> QUIC_CHANNEL -> Prop) :
  id s = sid -> rstream s = None -> sstream s = None ->
  (forall ss, (if b then exists x, ss = Some x /\ SStream.ss_ok [] x else ss = None) ->
     Q tt (mk lh p (set_sstream ss s) t r q c)) ->
  wp (when_ b (init_sstream m p)) (mk lh p s t r q c) Q stage.
Proof.
  intros Hid Hrs Hss HQ. destruct b; cbn [when_].
  2: { apply wp_ret. specialize (HQ None eq_refl). by destruct s; cbn in *; subst. }
  unfold init_sstream. wp_steps. apply wp_on_qsm_upd; [done|].
  destruct (SStream.ossl_quic_sstream_new _ _ _) as [ss|] eqn:E; cbn [is_null negb].
  - apply wp_guard; [intros _|done]. apply HQ. exists ss. split; [done|].
    unfold SStream.ossl_quic_sstream_new in E. destruct (negb (m_sstream m)); [done|].
    by destruct (SStream.new_sender_ok (m_block m) INIT_APP_BUF_LEN ss ltac:(unfold INIT_APP_BUF_LEN; lia) E) as [].
  - apply wp_guard; [done|intros _]. eexists _, t, r. split; [done|]. split; [done|].
    split; [cbn; by rewrite Hrs|by apply sstream_new_fails].
Qed.

Lemma wp_init_rstream s t r (b : bool) (Q : unit -> QUIC_CHANNEL -> Prop) :
  id s = sid -> rstream s = None ->
  (forall rs, (if b then exists x, rs = Some x /\ RStream.fl x = SfList.ossl_sframe_list_init else rs = None) ->
     Q tt (mk lh p (set_rstream rs s) t r q c)) ->
  wp (when_ b (init_rstream m p)) (mk lh p s t r q c) Q stage.
Proof.
  intros Hid Hrs HQ. destruct b; cbn [when_].
  2: { apply wp_ret. specialize (HQ None eq_refl). by destruct s; cbn in *; subst. }
  unfold init_rstream. wp_steps. apply wp_on_qsm_upd; [done|].
  destruct (RStream.ossl_quic_rstream_new _ _ _ _ _ _ _ _) as [rs|] eqn:E; cbn [is_null negb].
  - apply wp_guard; [intros _|done]. apply HQ. exists rs. split; [done|].
    unfold RStream.ossl_quic_rstream_new in E. by repeat case_match; simplify_eq.
  - apply wp_guard; [done|intros _]. eexists _, t, r. split; [done|]. split; [done|].
    split; [done|by eapply rstream_new_fails].
Qed.

Lemma fresh_conn : conn_txfc c <> p /\ conn_rxfc c <> p.
Proof.
  destruct Hfresh as (_ & H1 & H2), Hpar as [(? & E1 & _) (? & E2 & _)]. split; intros Eq; congruence.
Qed.

Lemma wp_init_txfc s t r (Q : unit -> QUIC_CHANNEL -> Prop) E :
  Q tt (mk lh p s (new_tx c 0) r q c) -> wp (init_txfc p) (mk lh p s t r q c) Q E.
Proof.
  intros HQ. destruct fresh_conn as [Hct _]. destruct (pa_tx _ _ Hpar) as (t0 & Et & Hp0 & _).
  unfold init_txfc. wp_steps. unfold Txfc.ossl_quic_txfc_init, Txfc.txfc_is_conn_level. cbn [qsm set_qsm conn_txfc].
  rewrite born_tx, Et by done. cbn [mbind option_bind]. rewrite Hp0. cbn [is_null negb lift_opt]. wp_steps. cbn [fst snd].
  apply wp_guard; [intros _|done]. eapply wp_eq; [|exact HQ]. unfold on_qsm, modify. cbn [qsm set_qsm]. by rewrite born_set_tx.
Qed.

Lemma wp_bump s r (b : bool) v (Q : unit -> QUIC_CHANNEL -> Prop) E : 0 <= v ->
  Q tt (mk lh p s (new_tx c (if b then v else 0)) r q c) ->
  wp (when_ b (on_qsm (bump_txfc p v))) (mk lh p s (new_tx c 0) r q c) Q E.
Proof.
  intros Hv HQ. destruct b; cbn [when_]; [|by apply wp_ret]. eapply wp_eq; [|exact HQ].
  unfold on_qsm, bump_txfc, txfc_of, lift_opt, mbind, M_bind, get, modify. cbn [qsm set_qsm].
  assert (E1 : txfcs (born lh p s (new_tx c 0) r q) !! p = Some (new_tx c 0)) by (destruct lh; cbn; by rewrite lookup_insert_eq).
  rewrite E1. cbn. rewrite born_set_tx. unfold Txfc.ossl_quic_txfc_bump_cwm. cbn.
  destruct (Z.leb_spec v 0); [|done]. by replace v with 0 by lia.
Qed.

Lemma wp_init_rxfc s t r wnd (Q : unit -> QUIC_CHANNEL -> Prop) E :
  Q tt (mk lh p s t (new_rx c wnd) q c) -> wp (init_rxfc p wnd) (mk lh p s t r q c) Q E.
Proof.
  intros HQ. destruct fresh_conn as [_ Hcr]. destruct (pa_rx _ _ Hpar) as (r0 & Er & Hp0).
  unfold init_rxfc. wp_steps. unfold Rxfc.ossl_quic_rxfc_init, Rxfc.rxfc_is_conn_level. cbn [qsm set_qsm conn_rxfc].
  rewrite born_rx, Er by done. cbn [mbind option_bind]. rewrite Hp0. cbn [is_null negb lift_opt]. wp_steps. cbn [fst snd].
  apply wp_guard; [intros _|done]. eapply wp_eq; [|exact HQ]. unfold on_qsm, modify. cbn [qsm set_qsm]. by rewrite born_set_rx.
Qed.

Definition params_ok : Prop :=
  is_u64 (rx_init_max_stream_data_uni c) /\ is_u64 (rx_init_max_stream_data_bidi_local c) /\ is_u64 (rx_init_max_stream_data_bidi_remote c).

Lemma wp_ch_init s t r can_send can_recv (Q : unit -> QUIC_CHANNEL -> Prop) (E : QUIC_CHANNEL -> Prop) :
  params_ok -> id s = sid -> sstream s = None -> rstream s = None ->
  (forall s' cwm wnd, is_u64 cwm -> new_buffers can_send can_recv s s' -> Q tt (mk lh p s' (new_tx c cwm) (new_rx c wnd) q c)) ->
  (forall s' t' r', id s' = sid -> rstream s' = None -> mem_fails m -> E (mk lh p s' t' r' q c)) ->
  wp (ch_init_new_stream m p can_send can_recv) (mk lh p s t r q c) Q E.
Proof.
  intros (Hp1 & Hp2 & Hp3) Hid Hss Hrs HQ HE. unfold ch_init_new_stream. wp_steps. apply wp_on_deref. wp_steps.
  apply wp_try. eapply wp_mono with (E := stage); [|intros ? ? Hx; exact Hx|].
  - apply wp_bind, wp_init_sstream; [done..|]. intros ss Hs. apply wp_bind, wp_init_rstream; [done|by cbn|]. intros rs Hr.
    apply wp_bind, wp_init_txfc. apply wp_bind, wp_bump; [repeat case_match; first [by apply Hp1|by apply Hp2|by apply Hp3|done]|]. apply wp_init_rxfc. apply wp_ret.
    apply HQ; [repeat case_match; first [apply Hp1|apply Hp2|apply Hp3|done]|]. exists ss, rs. split_and!; try done. 
  - intros c' (s1 & t1 & r1 & -> & Hid1 & Hfl & Hmf). wp_steps. apply wp_on_qsm_upd; [done|]. wp_steps. apply wp_on_deref. wp_steps.
    assert (Ef : free_rstream (rstream s1) (born lh p (set_sstream None s1) t1 r1 q) = (Ret tt, born lh p (set_sstream None s1) t1 r1 q)).
    { destruct (rstream s1) as [x|] eqn:Ex; [|done]. unfold free_rstream, lift_res, mbind, M_bind, get, modify.
      cbn [fmap option_fmap option_map]. unfold RStream.ossl_quic_rstream_free, RStream.on_fl, SfList.ossl_sframe_list_destroy, load.
      cbn [RStream.fl RStream.pkts]. rewrite (Hfl x eq_refl). cbn. by destruct lh, q. }
    eapply wp_eq; [apply on_qsm_run; exact Ef|]. cbn [set_qsm]. wp_steps. 
    change (set_qsm (born lh p (set_sstream None s1) t1 r1 q) (mk lh p (set_sstream None s1) t1 r1 q c)) with (mk lh p (set_sstream None s1) t1 r1 q c).
    apply wp_on_qsm_upd; [done|]. wp_steps. by apply HE.
Qed.
End Init.

(** ** Invariant of the channel's streams *)

Definition id_uni (i : Z) : bool := Z.land i 2 =? 2.
Definition id_local (c : QUIC_CHANNEL) (i : Z) : bool := Bool.eqb (Z.land i 1 =? 1) (ch_is_server c).
(** The first ordinal not used yet for streams like [i]. *)
Definition next_ordinal (c : QUIC_CHANNEL) (i : Z) : Z :=
  if id_local c i then ch_get_local_stream_next_ordinal_ptr c (id_uni i)
  else if id_uni i then next_remote_stream_ordinal_uni c else next_remote_stream_ordinal_bidi c.

(** What a controller may report: nothing, a flow control error, a final size error. *)
Definition rx_errors (r : Rxfc.QUIC_RXFC) : Prop :=
  Rxfc.error_code r = 0 \/ Rxfc.error_code r = Rxfc.OSSL_QUIC_ERR_FLOW_CONTROL_ERROR \/
  Rxfc.error_code r = Rxfc.OSSL_QUIC_ERR_FINAL_SIZE_ERROR.

(** What the receive buffer of a stream and its flow controller know of each other. *)
Record rx_ok (s : QUIC_STREAM) (r : Rxfc.QUIC_RXFC) : Prop := {
  rx_list rs : rstream s = Some rs -> SfList.sfl_ok (RStream.fl rs) /\ SfList.curr_end (RStream.fl rs) <= Rxfc.hwm r;
  rx_fin rs : rstream s = Some rs -> SfList.fin (RStream.fl rs) = true ->
    Rxfc.is_fin r = true /\ SfList.curr_end (RStream.fl rs) = Rxfc.hwm r;
  rx_known : recv_state s <> RSTREAM_NONE -> recv_state s <> RSTREAM_RECV -> Rxfc.is_fin r = true;
  rx_hwm : 0 <= Rxfc.hwm r;
  rx_err : rx_errors r
}.

Record stream_inv (c : QUIC_CHANNEL) (p : nat) (s : QUIC_STREAM) : Prop := {
  si_rx : exists r, rxfcs (qsm c) !! p = Some r /\ Rxfc.parent r = Some (conn_rxfc c) /\ Rxfc.standalone r = false /\ rx_ok s r;
  si_tx : exists t, txfcs (qsm c) !! p = Some t /\ Txfc.parent t = Some (conn_txfc c);
  si_type : type s = Z.land (id s) 3;
  si_id : 0 <= Z.shiftr (id s) 2 < next_ordinal c (id s)
}.

(** A controller that counts the streams the peer opens: until a violation, what
    it has counted is the highest ordinal seen. *)
Definition count_ok (r : Rxfc.QUIC_RXFC) : Prop :=
  Rxfc.standalone r = true /\ Rxfc.parent r = None /\ Rxfc.is_fin r = false /\ Rxfc.rxfc_ok r /\
  (Rxfc.error_code r = 0 -> Rxfc.swm r = Rxfc.hwm r).
Definition counter_ok (c : QUIC_CHANNEL) (fc : option nat) : Prop :=
  exists a r, fc = Some a /\ rxfcs (qsm c) !! a = Some r /\ count_ok r /\ heap (qsm c) !! a = None.

Record chan_inv (act acc gc : list nat) (c : QUIC_CHANNEL) : Prop := {
  ci_map : inv None act acc gc (qsm c);
  ci_server : is_server (qsm c) = ch_is_server c;
  ci_parents : parents (qsm c) c;
  ci_apart : heap (qsm c) !! conn_txfc c = None /\ heap (qsm c) !! conn_rxfc c = None;
  ci_conn_rx : exists r, rxfcs (qsm c) !! conn_rxfc c = Some r /\ Rxfc.standalone r = false;
  ci_count : counter_ok c (max_streams_bidi_rxfc (qsm c)) /\ counter_ok c (max_streams_uni_rxfc (qsm c));
  ci_params : params_ok c;
  ci_nexts : 0 <= next_local_stream_ordinal_bidi c /\ 0 <= next_local_stream_ordinal_uni c /\
             0 <= next_remote_stream_ordinal_bidi c /\ 0 <= next_remote_stream_ordinal_uni c;
  ci_addr p : is_Some (heap (qsm c) !! p) -> Z.of_nat p < UINT64_MAX;
  ci_streams p s : heap (qsm c) !! p = Some s -> stream_inv c p s
}.

Lemma land3 i : 0 <= Z.land i 3 < 4 /\ Z.land (Z.land i 3) 1 = Z.land i 1 /\ Z.land (Z.land i 3) 2 = Z.land i 2.
Proof.
  rewrite <- !Z.land_assoc. split; [|done]. change 3 with (Z.ones 2). rewrite Z.land_ones by lia. apply Z.mod_pos_bound. lia.
Qed.

Lemma land2 i : Z.land i 2 = 0 \/ Z.land i 2 = 2.
Proof.
  destruct (land3 i) as (Hr & _ & <-). assert (H : Z.land i 3 = 0 \/ Z.land i 3 = 1 \/ Z.land i 3 = 2 \/ Z.land i 3 = 3) by lia.
  destruct H as [->|[->|[->| ->]]]; auto.
Qed.

Lemma id_parts ord ty : 0 <= ord -> 0 <= ty < 4 -> let i := Z.lor (Z.shiftl ord 2) ty in
  Z.land i 3 = ty /\ Z.shiftr i 2 = ord /\ i = ord * 4 + ty.
Proof.
  intros Ho Ht. cbn zeta. assert (E : Z.lor (Z.shiftl ord 2) ty = ord * 4 + ty) by (rewrite lor_shiftl_add by lia; lia).
  rewrite E. split_and!; [| |done].
  - change 3 with (Z.ones 2). rewrite Z.land_ones by lia. change (2 ^ 2) with 4. rewrite Z.add_comm, Z.mod_add, Z.mod_small; lia.
  - rewrite Z.shiftr_div_pow2 by lia. change (2 ^ 2) with 4. rewrite Z.div_add_l, Z.div_small; lia.
Qed.

(** An identifier whose ordinal has not been given out is free. *)
Lemma id_free act acc gc c i : chan_inv act acc gc c -> next_ordinal c i <= Z.shiftr i 2 -> table (qsm c) !! i = None.
Proof.
  intros [Hi _ _ _ _ _ _ _ _ Hst] Hn. destruct (table (qsm c) !! i) as [p|] eqn:Et; [|done]. exfalso.
  destruct (l_table _ _ _ _ (i_links _ _ _ _ _ Hi) _ _ Et) as (s & Hp & <-). destruct (si_id _ _ _ (Hst p s Hp)). lia.
Qed.

(** ** Operations of the map on the channel *)

Lemma rx_ok_ext s s' r : rx_ok s r -> (rstream s' = rstream s \/ rstream s' = None) ->
  (recv_state s' = RSTREAM_NONE \/ recv_state s' = RSTREAM_RECV \/ Rxfc.is_fin r = true) -> rx_ok s' r.
Proof.
  intros [H1 H2 H3 H4 H5] Hrs Hst. split; [| |intuition|done|done].
  - intros rs E. destruct Hrs as [E'|E']; [|congruence]. apply H1. congruence.
  - intros rs E. destruct Hrs as [E'|E']; [|congruence]. apply H2. congruence.
Qed.

Lemma updated_rstream q p s : rstream (updated q p s) = rstream s.
Proof.
  unfold updated, after_gc, after_acked. cbn. destruct (send_state s); repeat case_match; done.
Qed.

Lemma updated_recv q p s : recv_state (updated q p s) = recv_state s.
Proof. apply updated_fields. Qed.

Lemma trans_rx o q p s s' r : trans o q p s = Some s' -> rx_ok s r ->
  match o with NotifySizeKnown _ | NotifyResetRecvPart _ _ => Rxfc.is_fin r = true | _ => True end -> rx_ok s' r.
Proof.
  intros Ht Hr Hc. apply (rx_ok_ext s); [done| |].
  - unfold trans, scheduled in Ht. destruct o; repeat case_match; simplify_eq; rewrite ?updated_rstream; cbn; auto.
  - pose proof (rx_known _ _ Hr) as Hk. destruct (trans_machine _ _ _ _ _ Ht) as [_ _ _ [Heq|He]].
    + rewrite <- Heq. destruct (recv_state s); auto.
    + destruct (recv_state s) eqn:Es; try (right; right; by apply Hk); [inversion He|].
      right. unfold trans, scheduled in Ht.
      destruct o; try (by right); left; repeat case_match; simplify_eq; rewrite ?updated_recv; cbn [recv_state set_send_state
        set_send_final_size set_sstream set_shutdown_flush reset_record sized set_want_reset_stream set_reset_stream_aec
        set_want_stop_sending set_stop_sending set_stop_sending_aec]; congruence.
Qed.

Lemma chan_frame act acc gc act' acc' gc' c q' p s s' :
  chan_inv act acc gc c -> inv None act' acc' gc' q' -> frame p (qsm c) q' ->
  heap (qsm c) !! p = Some s -> heap q' !! p = Some s' -> id s' = id s -> type s' = type s ->
  (forall r, rxfcs (qsm c) !! p = Some r -> rx_ok s r -> rx_ok s' r) -> chan_inv act' acc' gc' (set_qsm q' c).
Proof.
  intros [Hi Hs Hp [Ha1 Ha2] Hcr [Hc1 Hc2] Hpa Hn Had Hst] Hi' Hf Hps Hps' Hid Hty Hrx.
  destruct Hf as [Fh Ft Fs Fc [Ftx Frx] [Fm1 Fm2] _].
  assert (Hnone : forall k, heap (qsm c) !! k = None -> heap q' !! k = None).
  { intros k Hk. rewrite Fh; [done|]. intros ->. congruence. }
  assert (Hcnt : forall fc, counter_ok c fc -> counter_ok (set_qsm q' c) fc).
  { intros fc (a & r & -> & Hr & H1 & H2). exists a, r. cbn. rewrite Frx. split_and!; auto. }
  split; cbn; rewrite ?Fm1, ?Fm2, ?Frx; auto; try congruence.
  - destruct Hp as [H1 H2]. split; cbn; by rewrite ?Ftx, ?Frx.
  - intros k Hk. apply Had. destruct (decide (k = p)) as [->|Hne]; [eauto|]. by rewrite <- (Fh k Hne).
  - intros p' s1 Hp1. destruct (decide (p' = p)) as [->|Hne].
    + rewrite Hps' in Hp1. injection Hp1 as <-. destruct (Hst p s Hps) as [(r & Er & Hpr & Hsr & Hok) H2 H3 H4].
      split; cbn; rewrite ?Ftx, ?Frx, ?Hid, ?Hty; try done. exists r. split_and!; try done. by apply Hrx.
    + rewrite Fh in Hp1 by done. destruct (Hst p' s1 Hp1) as [H1 H2 H3 H4]. split; cbn; rewrite ?Ftx, ?Frx; done.
Qed.

Lemma wp_on_qsm {A} (m : M QUIC_STREAM_MAP A) c (Q : A -> QUIC_CHANNEL -> Prop) E :
  wp m (qsm c) (fun a q' => Q a (set_qsm q' c)) (fun q' => E (set_qsm q' c)) -> wp (on_qsm m) c Q E.
Proof. unfold wp, on_qsm. by destruct (m (qsm c)) as [[] ?]. Qed.

Lemma set_qsm_id c : set_qsm (qsm c) c = c.
Proof. by destruct c. Qed.

Lemma wp_chan_op o p act acc gc c s (Q : unit -> QUIC_CHANNEL -> Prop) (E : QUIC_CHANNEL -> Prop) :
  chan_inv act acc gc c -> heap (qsm c) !! p = Some s ->
  match o with NotifySizeKnown _ | NotifyResetRecvPart _ _ => forall r, rxfcs (qsm c) !! p = Some r -> Rxfc.is_fin r = true | _ => True end ->
  (forall q' s' act' gc', trans o (qsm c) p s = Some s' -> chan_inv act' acc gc' (set_qsm q' c) -> heap q' !! p = Some s' ->
     frame p (qsm c) q' -> Q tt (set_qsm q' c)) ->
  (trans o (qsm c) p s = None -> E c) ->
  wp (on_qsm (exec o p)) c Q E.
Proof.
  intros Hc Hp Ho HQ HE. apply wp_on_qsm. eapply wp_mono; [exact (op_ok o p act acc gc (qsm c) s (ci_map _ _ _ _ Hc) Hp)| |].
  - intros [] q' (s' & Ht & act' & gc' & Hat & Hok & Hf). destruct (trans_machine _ _ _ _ _ Ht) as [Hid Hty _ _].
    pose proof (at_here _ _ _ _ _ _ Hat) as Hh.
    eapply (HQ q' s' act' gc'); try done. eapply (chan_frame act acc gc act' acc gc'); try done; [by eapply at_close|].
    intros r Hr Hrx. eapply trans_rx; [done..|]. destruct o; auto.
  - intros q' [-> Ht]. rewrite set_qsm_id. auto.
Qed.

(** ** A new stream in the channel *)

Definition set_next_remote (is_uni : bool) (v : Z) (c : QUIC_CHANNEL) : QUIC_CHANNEL :=
  if is_uni then set_next_remote_stream_ordinal_uni v c else set_next_remote_stream_ordinal_bidi v c.
(** The next ordinal for streams like [i] becomes [v]. *)
Definition set_next (i v : Z) (c : QUIC_CHANNEL) : QUIC_CHANNEL :=
  if id_local c i then set_next_local (id_uni i) v c else set_next_remote (id_uni i) v c.

Lemma set_next_fields i v c : qsm (set_next i v c) = qsm c /\ ch_is_server (set_next i v c) = ch_is_server c /\
  conn_txfc (set_next i v c) = conn_txfc c /\ conn_rxfc (set_next i v c) = conn_rxfc c /\
  (params_ok c -> params_ok (set_next i v c)).
Proof. unfold set_next, set_next_local, set_next_remote. by repeat case_match. Qed.

Lemma set_next_ordinal i v c : next_ordinal (set_next i v c) i = v /\
  (next_ordinal c i <= v -> forall j, next_ordinal c j <= next_ordinal (set_next i v c) j).
Proof.
  unfold next_ordinal, id_local, set_next, id_local, set_next_local, set_next_remote, ch_get_local_stream_next_ordinal_ptr.
  destruct (Bool.eqb (Z.land i 1 =? 1) (ch_is_server c)) eqn:El, (id_uni i) eqn:Eu; cbn; rewrite ?El; (split; [done|]); intros Hv j;
    destruct (Bool.eqb (Z.land j 1 =? 1) (ch_is_server c)), (id_uni j); cbn; lia.
Qed.

Lemma set_next_nonneg i v c : 0 <= v ->
  0 <= next_local_stream_ordinal_bidi c /\ 0 <= next_local_stream_ordinal_uni c /\
  0 <= next_remote_stream_ordinal_bidi c /\ 0 <= next_remote_stream_ordinal_uni c ->
  0 <= next_local_stream_ordinal_bidi (set_next i v c) /\ 0 <= next_local_stream_ordinal_uni (set_next i v c) /\
  0 <= next_remote_stream_ordinal_bidi (set_next i v c) /\ 0 <= next_remote_stream_ordinal_uni (set_next i v c).
Proof. intros Hv H. unfold set_next, set_next_local, set_next_remote. repeat case_match; cbn; tauto. Qed.

Definition sends (s : QUIC_STREAM) : bool := ossl_quic_stream_is_local_init s || ossl_quic_stream_is_bidi s.
Definition receives (s : QUIC_STREAM) : bool := negb (ossl_quic_stream_is_local_init s) || ossl_quic_stream_is_bidi s.

Lemma fresh_stream_ok server sid ty c s' wnd : let s0 := new_stream sid ty server in
  new_buffers (sends s0) (receives s0) s0 s' ->
  stream_ok server s' /\ rx_ok s' (new_rx c wnd) /\ active s' = false /\ ready_for_gc s' = false /\ shutdown_flush s' = false /\
  type s' = u8 ty /\ id s' = sid.
Proof.
  cbn zeta. intros (ss & rs & -> & Hss & Hrs). set (s0 := new_stream sid ty server) in *.
  assert (E1 : send_state s0 = if sends s0 then SSTREAM_READY else SSTREAM_NONE) by done.
  assert (E2 : recv_state s0 = if receives s0 then RSTREAM_RECV else RSTREAM_NONE) by done.
  split_and!; try done.
  - split; try done; preds; cbn [send_state recv_state sstream rstream set_sstream set_rstream]; rewrite ?E1, ?E2.
    + destruct (sends s0); [by destruct Hss as (? & -> & _)|by subst ss].
    + destruct (receives s0); [by destruct Hrs as (? & -> & _)|by subst rs].
    + change (negb (bool_decide ((if sends s0 then SSTREAM_READY else SSTREAM_NONE) = SSTREAM_NONE)) = sends s0). by destruct (sends s0).
    + change (negb (bool_decide ((if receives s0 then RSTREAM_RECV else RSTREAM_NONE) = RSTREAM_NONE)) = receives s0). by destruct (receives s0).
    + intros x ->. destruct (sends s0); [destruct Hss as (y & [= ->] & ?); eauto|done].
  - assert (Hfl : forall x, rs = Some x -> RStream.fl x = SfList.ossl_sframe_list_init).
    { intros x ->. destruct (receives s0); [by destruct Hrs as (y & [= ->] & ?)|done]. }
    split; cbn [rstream set_rstream recv_state set_sstream].
    + intros x Hx. rewrite (Hfl x Hx). split; [|done]. split; cbn; [constructor|constructor|constructor|done|unfold SfList.MAX_END; lia].
    + intros x Hx. by rewrite (Hfl x Hx).
    + rewrite E2. by destruct (receives s0).
    + done.
    + by left.
Qed.

(** The addresses in use and one more are less than there are. *)
Lemma size_room act acc gc c p : chan_inv act acc gc c -> Z.of_nat p < UINT64_MAX -> heap (qsm c) !! p = None ->
  Z.of_nat (size (heap (qsm c))) + 1 < UINT64_MOD.
Proof.
  intros Hc Hp Hn. set (d := {[p]} ∪ dom (heap (qsm c)) : gset nat).
  assert (Hd : d ⊆ set_seq 0 (Z.to_nat UINT64_MAX)).
  { intros k [->%elem_of_singleton|Hk]%elem_of_union; apply elem_of_set_seq; [lia|].
    apply elem_of_dom, (ci_addr _ _ _ _ Hc) in Hk. lia. }
  apply subseteq_size in Hd. rewrite size_set_seq in Hd. unfold d in Hd.
  rewrite size_union, size_singleton, size_dom in Hd by (intros k ->%elem_of_singleton Hk; apply elem_of_dom in Hk; rewrite Hn in Hk; by destruct Hk).
  lia.
Qed.

Lemma born_chan act acc gc c lh p s cwm wnd :
  chan_inv act acc gc c -> fresh p (qsm c) -> Z.of_nat p < UINT64_MAX -> is_u64 cwm ->
  stream_ok (ch_is_server c) s -> rx_ok s (new_rx c wnd) -> (forall k, held_refs k s = 0) ->
  active s = false -> ready_for_gc s = false -> shutdown_flush s = false -> type s = Z.land (id s) 3 ->
  next_ordinal c (id s) = Z.shiftr (id s) 2 -> 0 <= Z.shiftr (id s) 2 ->
  chan_inv act acc gc (set_next (id s) (Z.shiftr (id s) 2 + 1) (mk lh p s (new_tx c cwm) (new_rx c wnd) (qsm c) c)).
Proof.
  intros Hc Hfresh Hlt Hcwm Hok Hrx Hrefs Ha Hr Hf Hty Hord Hpos. set (v := Z.shiftr (id s) 2 + 1).
  pose proof (size_room act acc gc c p Hc Hlt (proj1 Hfresh)) as Hsz.
  pose proof Hc as [Hi Hs Hp [Ha1 Ha2] (rc & Erc & Hsc) [Hc1 Hc2] Hpa Hn Had Hst]. pose proof Hfresh as (Hh & Htx & Hrxf).
  destruct (fresh_conn p (qsm c) c Hfresh Hp) as [Hct Hcr].
  set (c1 := mk lh p s (new_tx c cwm) (new_rx c wnd) (qsm c) c). destruct (set_next_fields (id s) v c1) as (E1 & E2 & E3 & E4 & E5).
  destruct (set_next_ordinal (id s) v c1) as [Ev Hmono]. specialize (Hmono ltac:(change (next_ordinal c1 (id s)) with (next_ordinal c (id s)); lia)).
  assert (Hb : born lh p s (new_tx c cwm) (new_rx c wnd) (qsm c) = qsm c1) by done.
  assert (Hadopt : inv None act acc gc (adopt p s (new_tx c cwm) (new_rx c wnd) (qsm c))).
  { apply adopt_inv; try done; [|right; by rewrite Hs]. split; [split; cbn; [unfold is_u64 in Hcwm; lia|done]|]. intros k [= <-]. apply (pa_tx _ _ Hp). }
  assert (Hinv : inv None act acc gc (qsm c1)).
  { unfold c1. cbn [qsm set_qsm]. unfold born. destruct lh; [|done].
    apply (table_inv None act acc gc (adopt p s (new_tx c cwm) (new_rx c wnd) (qsm c)) p s); [done|]. cbn. by rewrite lookup_insert_eq. }
  assert (Hheap : heap (qsm c1) = <[p := s]> (heap (qsm c))) by (unfold c1; by destruct lh).
  assert (Hm : max_streams_bidi_rxfc (qsm c1) = max_streams_bidi_rxfc (qsm c) /\ max_streams_uni_rxfc (qsm c1) = max_streams_uni_rxfc (qsm c) /\
    is_server (qsm c1) = is_server (qsm c)) by (unfold c1; by destruct lh). destruct Hm as (Hm1 & Hm2 & Hm3).
  assert (Htx1 : txfcs (qsm c1) = <[p := new_tx c cwm]> (txfcs (qsm c))) by (unfold c1; by destruct lh).
  assert (Hrx1 : rxfcs (qsm c1) = <[p := new_rx c wnd]> (rxfcs (qsm c))) by (unfold c1; by destruct lh).
  assert (Hcnt : forall fc, counter_ok c fc -> counter_ok (set_next (id s) v c1) fc).
  { intros fc (a & r & -> & Er & H1 & H2). exists a, r. rewrite E1, Hrx1, Hheap. assert (a <> p) by congruence.
    rewrite !lookup_insert_ne by congruence. done. }
  split; rewrite ?E1, ?E2, ?E3, ?E4; try done.
  - rewrite Hm3. exact Hs.
  - destruct Hp as [H1 H2]. split; rewrite ?E3, ?E4, ?Htx1, ?Hrx1, lookup_insert_ne by (cbn; congruence); done.
  - change (conn_txfc c1) with (conn_txfc c). change (conn_rxfc c1) with (conn_rxfc c). rewrite Hheap, !lookup_insert_ne by congruence. done.
  - exists rc. change (conn_rxfc c1) with (conn_rxfc c). rewrite Hrx1, lookup_insert_ne by congruence. done.
  - rewrite Hm1, Hm2. auto.
  - by apply E5.
  - apply set_next_nonneg; [lia|done].
  - intros k. rewrite Hheap, lookup_insert. case_decide; [by subst|auto].
  - intros p' s1 Hp1. rewrite Hheap, lookup_insert in Hp1. case_decide as Hd.
    + subst p'. injection Hp1 as <-. split; rewrite ?E1, ?E3, ?E4, ?Htx1, ?Hrx1, ?lookup_insert_eq; try done.
      * eexists. split_and!; done.
      * by eexists.
      * rewrite Ev. lia.
    + destruct (Hst p' s1 Hp1) as [H1 H2 H3 H4]. split; rewrite ?E1, ?E3, ?E4, ?Htx1, ?Hrx1, ?lookup_insert_ne by done; try done.
      specialize (Hmono (id s1)). change (next_ordinal c1 (id s1)) with (next_ordinal c (id s1)) in Hmono. lia.
Qed.

(** The memory a call is given. *)
Definition mem_ok (m : mem) (c : QUIC_CHANNEL) : Prop :=
  forall p, m_stream m = Some p -> fresh p (qsm c) /\ Z.of_nat p < UINT64_MAX.

Lemma u8_land3 i : u8 (Z.land i 3) = Z.land i 3.
Proof. apply u8_id. destruct (land3 i) as [? _]. unfold is_u8. lia. Qed.

(** The stream of a new identifier is made whole or not at all. *)
Lemma wp_create m c sid ty cs cr (K : nat -> M QUIC_CHANNEL nat) act acc gc (Q : nat -> QUIC_CHANNEL -> Prop) (E : QUIC_CHANNEL -> Prop) :
  chan_inv act acc gc c -> mem_ok m c -> ty = Z.land sid 3 -> next_ordinal c sid = Z.shiftr sid 2 -> 0 <= Z.shiftr sid 2 ->
  cs = sends (new_stream sid ty (ch_is_server c)) -> cr = receives (new_stream sid ty (ch_is_server c)) ->
  (mem_fails m -> E c) ->
  (forall p s cwm wnd, let c1 := mk (m_entry m) p s (new_tx c cwm) (new_rx c wnd) (qsm c) c in
     m_stream m = Some p -> heap (qsm c) !! p = None -> new_buffers cs cr (new_stream sid ty (ch_is_server c)) s -> id s = sid ->
     chan_inv act acc gc (set_next sid (Z.shiftr sid 2 + 1) c1) -> wp (K p) c1 Q E) ->
  wp (p ← on_qsm (ossl_quic_stream_map_alloc (m_stream m) (m_entry m) sid ty);
      ok ← try_ (ch_init_new_stream m p cs cr);
      if ok : bool then K p else on_qsm (ossl_quic_stream_map_release (Some p));; fail) c Q E.
Proof.
  intros Hc Hm -> Hord Hpos Hcs Hcr HE HK. pose proof Hc as [Hi Hs Hp _ _ _ Hpa _ _ _].
  assert (Hfree : table (qsm c) !! sid = None) by (eapply id_free; [done|lia]).
  apply wp_bind, wp_on_qsm. unfold wp at 1. rewrite alloc_run by done. destruct (m_stream m) as [p|] eqn:Ep;
    [|rewrite set_qsm_id; apply HE; by left].
  destruct (Hm p Ep) as [Hfr Hlt]. clear Hm. rename Hfr into Hm. rewrite Hs. wp_steps. apply wp_try.
  eapply (wp_ch_init (m_entry m) p (qsm c) c m sid); try done.
  - intros s' cwm wnd Hcwm Hnb. pose proof Hnb as Hnb'. rewrite Hcs, Hcr in Hnb'.
    destruct (fresh_stream_ok _ _ _ c s' wnd Hnb') as (Hok & Hrx & Ha & Hr & Hf & Hty & Hid).
    rewrite <- Hid in *. apply (HK p s' cwm wnd); try done; [apply Hm|]. apply (born_chan act acc gc); try done.
    + intros k. unfold held_refs. destruct Hnb as (ss & rs & -> & _ & Hrs). cbn. destruct cr; [destruct Hrs as (x & -> & ->); done|by rewrite Hrs].
    + rewrite Hty. apply u8_land3.
  - intros s' t' r' Hid Hrs Hmf. apply wp_bind, wp_on_qsm. unfold wp at 1.
    cbn [qsm set_qsm]. rewrite (release_born act acc gc); [|apply Hi|done|by rewrite Hid|done]. wp_steps.
    specialize (HE Hmf). by destruct c.
Qed.

Definition local_type (c : QUIC_CHANNEL) (is_uni : bool) : Z := Z.lor (Z.b2z (ch_is_server c)) (if is_uni then 2 else 0).
Definition local_id (c : QUIC_CHANNEL) (is_uni : bool) : Z := ch_get_local_stream_next_ordinal_ptr c is_uni * 4 + local_type c is_uni.

Lemma local_id_parts c is_uni : 0 <= ch_get_local_stream_next_ordinal_ptr c is_uni < Z.shiftl 1 62 ->
  let i := Z.lor (u64 (Z.shiftl (ch_get_local_stream_next_ordinal_ptr c is_uni) 2)) (local_type c is_uni) in
  i = local_id c is_uni /\ Z.land i 3 = local_type c is_uni /\ Z.shiftr i 2 = ch_get_local_stream_next_ordinal_ptr c is_uni /\
  id_local c i = true /\ id_uni i = is_uni.
Proof.
  intros Ho. cbn zeta. change (Z.shiftl 1 62) with (2 ^ 62) in Ho. rewrite u64_id by (unfold is_u64; rewrite Z.shiftl_mul_pow2 by lia; lia).
  assert (Ht : 0 <= local_type c is_uni < 4) by (unfold local_type; by destruct (ch_is_server c), is_uni).
  destruct (id_parts (ch_get_local_stream_next_ordinal_ptr c is_uni) (local_type c is_uni) ltac:(lia) Ht) as (E1 & E2 & E3).
  destruct (land3 (Z.lor (Z.shiftl (ch_get_local_stream_next_ordinal_ptr c is_uni) 2) (local_type c is_uni))) as (_ & F1 & F2).
  split_and!; try done; unfold id_local, id_uni; rewrite <- ?F1, <- ?F2, E1; unfold local_type; by destruct (ch_is_server c), is_uni.
Qed.

Lemma new_local_ok m is_uni act acc gc c (Q : nat -> QUIC_CHANNEL -> Prop) (E : QUIC_CHANNEL -> Prop) :
  chan_inv act acc gc c -> mem_ok m c -> (Z.shiftl 1 62 <= ch_get_local_stream_next_ordinal_ptr c is_uni \/ mem_fails m -> E c) ->
  (ch_get_local_stream_next_ordinal_ptr c is_uni < Z.shiftl 1 62 ->
   forall p s c', m_stream m = Some p -> chan_inv act acc gc c' -> heap (qsm c') = <[p := s]> (heap (qsm c)) -> heap (qsm c) !! p = None ->
    id s = local_id c is_uni -> send_state s = SSTREAM_READY -> recv_state s = (if is_uni then RSTREAM_NONE else RSTREAM_RECV) ->
    table (qsm c) !! id s = None -> table (qsm c') = (if m_entry m then <[id s := p]> (table (qsm c)) else table (qsm c)) ->
    ch_get_local_stream_next_ordinal_ptr c' is_uni = ch_get_local_stream_next_ordinal_ptr c is_uni + 1 -> Q p c') ->
  wp (ossl_quic_channel_new_stream_local m is_uni) c Q E.
Proof.
  intros Hc Hm HE HQ. unfold ossl_quic_channel_new_stream_local. wp_steps. fold (local_type c is_uni).
  assert (Hnn : 0 <= ch_get_local_stream_next_ordinal_ptr c is_uni).
  { unfold ch_get_local_stream_next_ordinal_ptr. destruct (ci_nexts _ _ _ _ Hc) as (? & ? & _). by destruct is_uni. }
  apply wp_guard; [intros Ho%Z.ltb_lt|intros Ho%Z.ltb_ge; apply HE; by left].
  destruct (local_id_parts c is_uni (conj Hnn Ho)) as (Ei & E3 & E4 & E5 & E6). cbn zeta in *.
  set (sid := Z.lor (u64 (Z.shiftl (ch_get_local_stream_next_ordinal_ptr c is_uni) 2)) (local_type c is_uni)) in *.
  assert (Hs0 : sends (new_stream sid (local_type c is_uni) (ch_is_server c)) = true /\
                receives (new_stream sid (local_type c is_uni) (ch_is_server c)) = negb is_uni).
  { unfold sends, receives, local_type. by destruct (ch_is_server c), is_uni. }
  assert (Hnext : next_ordinal c sid = Z.shiftr sid 2) by (unfold next_ordinal; by rewrite E5, E6, E4).
  apply (wp_create m c sid (local_type c is_uni) true (negb is_uni) _ act acc gc); try done; try (symmetry; apply Hs0); [by rewrite E4|by auto|].
  intros p s cwm wnd c1 Ep Hnone Hnb Hid Hci. wp_steps.
  assert (Ec : set_next_local is_uni (u64 (ch_get_local_stream_next_ordinal_ptr c1 is_uni + 1)) c1 = set_next sid (Z.shiftr sid 2 + 1) c1).
  { unfold set_next. change (id_local c1 sid) with (id_local c sid). rewrite E5, E6, E4.
    change (ch_get_local_stream_next_ordinal_ptr c1 is_uni) with (ch_get_local_stream_next_ordinal_ptr c is_uni).
    rewrite u64_id; [done|]. change (Z.shiftl 1 62) with (2 ^ 62) in Ho. unfold is_u64. lia. }
  rewrite Ec. destruct (set_next_fields sid (Z.shiftr sid 2 + 1) c1) as (Eq & _).
  destruct Hnb as (ss & rs & Es & _).
  assert (Est : send_state s = (if sends (new_stream sid (local_type c is_uni) (ch_is_server c)) then SSTREAM_READY else SSTREAM_NONE) /\
    recv_state s = (if receives (new_stream sid (local_type c is_uni) (ch_is_server c)) then RSTREAM_RECV else RSTREAM_NONE)) by (by subst s).
  destruct Hs0 as [F1 F2]. rewrite F1, F2 in Est. destruct Est as [Es1 Es2].
  apply (HQ Ho p s); try done; rewrite ?Eq.
  - unfold c1. by destruct (m_entry m).
  - congruence.
  - rewrite Es2. by destruct is_uni.
  - rewrite Hid. eapply id_free; [exact Hc|]. rewrite Hnext. lia.
  - unfold c1. by destruct (m_entry m).
  - unfold set_next. change (id_local c1 sid) with (id_local c sid). rewrite E5, E6, E4. unfold set_next_local, ch_get_local_stream_next_ordinal_ptr.
    by destruct is_uni.
Qed.

(** [ossl_quic_channel_new_stream_local] opens the next stream of our own of
    a type, or fails and has changed nothing.  It fails only when the ordinals are
    used up or there is no memory (an entry of the hash table apart).  A new
    stream has the identifier its ordinal, role and direction give, which no
    other stream has; its parts are in READY and, when bidirectional, RECV; the
    ordinal is used up and the channel well formed. *)
Theorem local_stream_creation m is_uni act acc gc c :
  chan_inv act acc gc c -> mem_ok m c ->
  (ossl_quic_channel_new_stream_local m is_uni c = (Err, c) /\
   (2 ^ 62 <= ch_get_local_stream_next_ordinal_ptr c is_uni \/ mem_fails m)) \/
  exists p s c', ossl_quic_channel_new_stream_local m is_uni c = (Ret p, c') /\ chan_inv act acc gc c' /\
    heap (qsm c') = <[p := s]> (heap (qsm c)) /\ heap (qsm c) !! p = None /\
    id s = 4 * ch_get_local_stream_next_ordinal_ptr c is_uni + (if is_uni then 2 else 0) + Z.b2z (ch_is_server c) /\
    (forall p' s', heap (qsm c) !! p' = Some s' -> id s' <> id s) /\
    send_state s = SSTREAM_READY /\ recv_state s = (if is_uni then RSTREAM_NONE else RSTREAM_RECV) /\
    ch_get_local_stream_next_ordinal_ptr c' is_uni = ch_get_local_stream_next_ordinal_ptr c is_uni + 1.
Proof.
  intros Hc Hm. pose proof (new_local_ok m is_uni act acc gc c (fun p c' => exists s, chan_inv act acc gc c' /\
    heap (qsm c') = <[p := s]> (heap (qsm c)) /\ heap (qsm c) !! p = None /\ id s = local_id c is_uni /\
    send_state s = SSTREAM_READY /\ recv_state s = (if is_uni then RSTREAM_NONE else RSTREAM_RECV) /\
    ch_get_local_stream_next_ordinal_ptr c' is_uni = ch_get_local_stream_next_ordinal_ptr c is_uni + 1 /\
    ch_get_local_stream_next_ordinal_ptr c is_uni < Z.shiftl 1 62)
    (fun c' => c' = c /\ (2 ^ 62 <= ch_get_local_stream_next_ordinal_ptr c is_uni \/ mem_fails m)) Hc Hm) as H.
  unfold wp in H. destruct (ossl_quic_channel_new_stream_local m is_uni c) as [[p| |] c']; [right|left|].
  - destruct H as (s & H1 & H2 & H3 & H4 & H5 & H6 & H7 & H8); [done|by intros; eexists|].
    assert (Hid : local_id c is_uni = 4 * ch_get_local_stream_next_ordinal_ptr c is_uni + (if is_uni then 2 else 0) + Z.b2z (ch_is_server c)).
    { unfold local_id, local_type. destruct is_uni, (ch_is_server c); cbn [Z.b2z]; rewrite ?Z.lor_0_r;
        change (Z.lor 1 2) with 3; change (Z.lor 0 2) with 2; lia. }
    exists p, s, c'. split_and!; try done; [congruence|]. intros p' s' Hp' Heq.
    destruct (si_id _ _ _ (ci_streams _ _ _ _ Hc p' s' Hp')) as [_ Hlt]. rewrite Heq, H4 in Hlt.
    assert (Hnn : 0 <= ch_get_local_stream_next_ordinal_ptr c is_uni).
    { unfold ch_get_local_stream_next_ordinal_ptr. destruct (ci_nexts _ _ _ _ Hc) as (? & ? & _). by destruct is_uni. }
    destruct (local_id_parts c is_uni (conj Hnn H8)) as (Ei & _ & E4 & E5 & E6). cbn zeta in *. rewrite Ei in E4, E5, E6.
    unfold next_ordinal in Hlt. rewrite E4, E5, E6 in Hlt. lia.
  - destruct H as [-> H]; [done|by intros; eexists|done].
  - destruct H; [done|by intros; eexists].
Qed.

(** ** Rejecting a stream *)

Definition reject_q (aec : Z) (p : nat) : M QUIC_STREAM_MAP unit :=
  try_ (ossl_quic_stream_map_stop_sending_recv_part p aec);;
  try_ (ossl_quic_stream_map_reset_stream_send_part p aec);;
  upd p (set_deleted true);;
  ossl_quic_stream_map_update_state p.

Lemma on_qsm_bind {A B} (m : M QUIC_STREAM_MAP A) (f : A -> M QUIC_STREAM_MAP B) c :
  on_qsm (m ≫= f) c = (on_qsm m ≫= fun a => on_qsm (f a)) c.
Proof. unfold on_qsm, mbind, M_bind. by destruct (m (qsm c)) as [[] ?]. Qed.

Lemma bind_ext {S A B} (m : M S A) (f g : A -> M S B) s : (forall a s', f a s' = g a s') -> (m ≫= f) s = (m ≫= g) s.
Proof. intros H. unfold mbind, M_bind. by destruct (m s) as [[] ?]. Qed.

Lemma reject_eq p c : ossl_quic_channel_reject_stream p c = on_qsm (reject_q (incoming_stream_auto_reject_aec c) p) c.
Proof.
  unfold ossl_quic_channel_reject_stream, reject_q. rewrite (bind_ret get _ c c c) by done.
  repeat (rewrite on_qsm_bind; apply bind_ext; intros). done.
Qed.

(** What stays of a stream under the operations a rejection is made of. *)
Record same_recv (s s' : QUIC_STREAM) : Prop := {
  sr_id : id s' = id s; sr_type : type s' = type s; sr_rstream : rstream s' = rstream s; sr_recv : recv_state s' = recv_state s
}.

Lemma trans_same_recv o q p s s' : trans o q p s = Some s' ->
  match o with StopSendingRecvPart _ | ResetStreamSendPart _ | UpdateState => True | _ => False end -> same_recv s s'.
Proof.
  intros Ht Ho. destruct (trans_machine _ _ _ _ _ Ht) as [Hid Hty _ _]. split; try done;
    unfold trans, scheduled in Ht; destruct o; try done; repeat case_match; simplify_eq; rewrite ?updated_rstream, ?updated_recv; done.
Qed.

Lemma reject_q_ok aec p act acc gc q s : inv None act acc gc q -> heap q !! p = Some s ->
  wp (reject_q aec p) q (fun _ q' => exists act' gc' s', inv None act' acc gc' q' /\ heap q' !! p = Some s' /\ frame p q q' /\
    same_recv s s' /\ deleted s' = true /\ send_state s' <> SSTREAM_READY /\ send_state s' <> SSTREAM_SEND) (fun _ => False).
Proof.
  intros Hi Hp. unfold reject_q. apply wp_bind, wp_try.
  assert (Hsame : same_recv s s) by done.
  assert (H1 : wp (ossl_quic_stream_map_stop_sending_recv_part p aec) q
    (fun _ q1 => exists act1 gc1 s1, inv None act1 acc gc1 q1 /\ heap q1 !! p = Some s1 /\ frame p q q1 /\ same_recv s s1)
    (fun q1 => exists act1 gc1 s1, inv None act1 acc gc1 q1 /\ heap q1 !! p = Some s1 /\ frame p q q1 /\ same_recv s s1)).
  { eapply wp_mono; [exact (op_ok (StopSendingRecvPart aec) p act acc gc q s Hi Hp)| |].
    - intros [] q1 (s1 & Ht & act1 & gc1 & Hat & Hok & Hf). exists act1, gc1, s1.
      split_and!; try done; [by eapply at_close|apply Hat|by eapply trans_same_recv].
    - intros q1 [-> _]. by exists act, gc, s. }
  assert (H2 : forall q1, (exists act1 gc1 s1, inv None act1 acc gc1 q1 /\ heap q1 !! p = Some s1 /\ frame p q q1 /\ same_recv s s1) ->
    wp (try_ (ossl_quic_stream_map_reset_stream_send_part p aec);; upd p (set_deleted true);; ossl_quic_stream_map_update_state p) q1
      (fun _ q' => exists act' gc' s', inv None act' acc gc' q' /\ heap q' !! p = Some s' /\ frame p q q' /\
        same_recv s s' /\ deleted s' = true /\ send_state s' <> SSTREAM_READY /\ send_state s' <> SSTREAM_SEND) (fun _ => False)).
  2: { eapply wp_mono; [exact H1| |]; intros; by apply H2. }
  clear H1. intros q1 (act1 & gc1 & s1 & Hi1 & Hp1 & Hf1 & Hr1).
  assert (Hlast : forall q2 act2 gc2 s2, at_ p s2 act2 acc gc2 q2 -> stream_ok (is_server q2) s2 -> frame p q q2 -> same_recv s s2 ->
    send_state s2 <> SSTREAM_READY -> send_state s2 <> SSTREAM_SEND ->
    wp (upd p (set_deleted true);; ossl_quic_stream_map_update_state p) q2
      (fun _ q' => exists act' gc' s', inv None act' acc gc' q' /\ heap q' !! p = Some s' /\ frame p q q' /\
        same_recv s s' /\ deleted s' = true /\ send_state s' <> SSTREAM_READY /\ send_state s' <> SSTREAM_SEND) (fun _ => False)).
  { intros q2 act2 gc2 s2 Hat Hok Hf2 Hr2 Hn1 Hn2. apply wp_bind. eapply wp_upd_at; [exact Hat|by split|]. intros q3 Hat3 Hf3.
    assert (Hok3 : stream_ok (is_server q2) (set_deleted true s2)).
    { destruct Hok. split; try done; cbn in *; [intros _; by destruct (send_state s2)|intuition]. }
    eapply (wp_update_done p q2 q3); [exact Hat3|exact Hok3|done|].
    intros q' (act' & gc' & Hat' & Hok' & Hf'). destruct (updated_fields q2 p (set_deleted true s2)) as (U1 & U2 & U3 & U4).
    exists act', gc', (updated q2 p (set_deleted true s2)). split_and!; [by eapply at_close|apply Hat'|by etrans| | | |].
    - destruct Hr2. split; rewrite ?U1, ?U2, ?U3, ?updated_rstream; done.
    - unfold updated, after_gc, after_acked. cbn. destruct (send_state s2); repeat case_match; done.
    - destruct U4 as [->|[_ ->]]; done.
    - destruct U4 as [->|[_ ->]]; done. }
  apply wp_bind, wp_try. eapply wp_mono; [exact (op_ok (ResetStreamSendPart aec) p act1 acc gc1 q1 s1 Hi1 Hp1)| |].
  - intros [] q2 (s2 & Ht & act2 & gc2 & Hat & Hok & Hf). apply (Hlast q2 act2 gc2 s2); try done; [by etrans| | |].
    + destruct (trans_same_recv _ _ _ _ _ Ht I), Hr1. split; congruence.
    + cbn in Ht. destruct (send_state s1) eqn:E1; try done; injection Ht as <-; try congruence;
        match goal with |- send_state (updated ?a ?b ?x) <> _ => destruct (updated_fields a b x) as (_ & _ & _ & [->|[_ ->]]); done end.
    + cbn in Ht. destruct (send_state s1) eqn:E1; try done; injection Ht as <-; try congruence;
        match goal with |- send_state (updated ?a ?b ?x) <> _ => destruct (updated_fields a b x) as (_ & _ & _ & [->|[_ ->]]); done end.
  - intros q2 [-> Ht]. destruct (inv_open _ _ _ _ _ _ Hi1 Hp1) as [Hat Hok]. apply (Hlast q1 act1 gc1 s1); try done;
      cbn in Ht; by destruct (send_state s1).
Qed.

(** ** Streams the peer opens *)

Lemma set_next_qsm i v q c : set_next i v (set_qsm q c) = set_qsm q (set_next i v c).
Proof.
  unfold set_next. change (id_local (set_qsm q c) i) with (id_local c i). unfold set_next_local, set_next_remote.
  by repeat case_match.
Qed.

Lemma remote_stream c sid : id_local c sid = false ->
  sends (new_stream sid (Z.land sid 3) (ch_is_server c)) = negb (id_uni sid) /\
  receives (new_stream sid (Z.land sid 3) (ch_is_server c)) = true /\
  (Z.land sid 1 =? if ch_is_server c then 0 else 1) = true.
Proof.
  unfold id_local, id_uni, sends, receives, ossl_quic_stream_is_local_init, ossl_quic_stream_is_server_init, ossl_quic_stream_is_bidi.
  cbn [type as_server new_stream set_send_state set_recv_state set_send_final_size zalloc_stream].
  rewrite u8_land3. destruct (land3 sid) as (Hr & -> & ->). intros E. rewrite E.
  assert (H1 : Z.land sid 1 = 0 \/ Z.land sid 1 = 1).
  { destruct (land3 sid) as (_ & <- & _). assert (H : Z.land sid 3 = 0 \/ Z.land sid 3 = 1 \/ Z.land sid 3 = 2 \/ Z.land sid 3 = 3) by lia.
    destruct H as [->|[->|[->| ->]]]; auto. }
  split_and!; [destruct (land2 sid) as [->| ->]; done|done|].
  destruct H1 as [H1|H1]; rewrite H1 in *; by destruct (ch_is_server c).
Qed.

Lemma new_remote_ok m sid act acc gc c (Q : nat -> QUIC_CHANNEL -> Prop) (E : QUIC_CHANNEL -> Prop) :
  chan_inv act acc gc c -> mem_ok m c -> id_local c sid = false -> next_ordinal c sid = Z.shiftr sid 2 -> (mem_fails m -> E c) ->
  (forall p q' s act' gc', m_stream m = Some p ->
     chan_inv act' (if incoming_stream_auto_reject c then acc else acc ++ [p]) gc' (set_next sid (Z.shiftr sid 2 + 1) (set_qsm q' c)) ->
     heap q' !! p = Some s -> id s = sid -> recv_state s = RSTREAM_RECV -> heap (qsm c) !! p = None ->
     (forall p', p' <> p -> heap q' !! p' = heap (qsm c) !! p') ->
     table q' = (if m_entry m then <[sid := p]> (table (qsm c)) else table (qsm c)) -> (forall k, slack (qsm c) k <= slack q' k) ->
     (exists t r, rxfcs q' = <[p := r]> (rxfcs (qsm c)) /\ txfcs q' = <[p := t]> (txfcs (qsm c)) /\ Rxfc.hwm r = 0 /\ Rxfc.is_fin r = false) ->
     Q p (set_qsm q' c)) ->
  wp (ossl_quic_channel_new_stream_remote m sid) c Q E.
Proof.
  intros Hc Hm Hloc Hnext HE HQ. destruct (remote_stream c sid Hloc) as (Hs & Hr & Hg).
  assert (Hpos : 0 <= Z.shiftr sid 2).
  { rewrite <- Hnext. unfold next_ordinal. rewrite Hloc. destruct (ci_nexts _ _ _ _ Hc) as (_ & _ & ? & ?). destruct (id_uni sid); lia. }
  unfold ossl_quic_channel_new_stream_remote. wp_steps. rewrite Hg. apply wp_guard; [intros _|done]. fold (id_uni sid).
  apply (wp_create m c sid (Z.land sid 3) (negb (id_uni sid)) true _ act acc gc); try done.
  intros p s cwm wnd c1 Ep Hnone Hnb Hid Hci.
  assert (Hq1 : qsm (set_next sid (Z.shiftr sid 2 + 1) c1) = qsm c1) by apply set_next_fields.
  assert (Hh : heap (qsm c1) !! p = Some s) by (unfold c1; cbn [qsm set_qsm]; apply born_here).
  assert (Hrecv : recv_state s = RSTREAM_RECV).
  { destruct Hnb as (ss & rs & -> & _).
    change (recv_state (set_rstream rs (set_sstream ss (new_stream sid (Z.land sid 3) (ch_is_server c)))))
      with (if receives (new_stream sid (Z.land sid 3) (ch_is_server c)) then RSTREAM_RECV else RSTREAM_NONE). by rewrite Hr. }
  assert (Hfin : forall q' act' acc' gc' s', inv None act' acc' gc' q' -> heap q' !! p = Some s' -> frame p (qsm c1) q' -> same_recv s s' ->
    acc' = (if incoming_stream_auto_reject c then acc else acc ++ [p]) -> Q p (set_qsm q' c1)).
  { intros q' act' acc' gc' s' Hi' Hp' Hf' [R1 R2 R3 R4] ->. change (set_qsm q' c1) with (set_qsm q' c).
    apply (HQ p q' s' act' gc'); try done.
    - change (set_qsm q' c) with (set_qsm q' c1). rewrite set_next_qsm.
      eapply (chan_frame act acc gc _ _ _ (set_next sid (Z.shiftr sid 2 + 1) c1)); rewrite ?Hq1; try done.
      intros r _ Hrx. apply (rx_ok_ext s); [done|by left|]. rewrite R4, Hrecv. auto.
    - congruence.
    - congruence.
    - intros p' Hne. rewrite (f_heap _ _ _ Hf') by done. unfold c1. destruct (m_entry m); cbn; by rewrite lookup_insert_ne.
    - rewrite (f_table _ _ _ Hf'). rewrite <- Hid. unfold c1. by destruct (m_entry m).
    - intros k. rewrite <- (f_slack _ _ _ Hf' k). apply Z.eq_le_incl. unfold slack, c1.
      assert (Hz : held_refs k s = 0).
      { destruct Hnb as (ss & rs & -> & _ & (x & -> & Hx)). unfold held_refs. cbn. by rewrite Hx. }
      destruct (m_entry m); cbn; rewrite msum_insert_None by done; lia.
    - destruct (f_fcs _ _ _ Hf') as [-> ->]. eexists _, _. unfold c1. by destruct (m_entry m). }
  pose proof (ci_map _ _ _ _ Hci) as Hi. rewrite Hq1 in Hi. destruct (incoming_stream_auto_reject c) eqn:Er.
  - apply wp_bind. unfold wp at 1. rewrite reject_eq. fold (wp (on_qsm (reject_q (incoming_stream_auto_reject_aec c1) p)) c1
      (fun (_ : unit) s' => wp (mret p) s' Q E) E).
    apply wp_on_qsm. eapply wp_mono; [exact (reject_q_ok _ p act acc gc (qsm c1) s Hi Hh)| |done].
    intros [] q' (act' & gc' & s' & Hi' & Hp' & Hf' & Hr' & _). wp_steps. by eapply (Hfin q').
  - apply wp_bind, wp_on_qsm. destruct (accept_push_ok act acc gc (qsm c1) p s Hi Hh) as (q' & Eq & Hi' & Hheap & Hf').
    { intros Hin. pose proof (ci_map _ _ _ _ Hc) as [[] _]. destruct (l_accept0 p Hin). congruence. }
    eapply wp_eq; [exact Eq|]. wp_steps. eapply (Hfin q'); [exact Hi'|by rewrite Hheap|done|done|done].
Qed.
End StreamChan.
