(* ===== verification/RxDepack.v ===== *)
(** * Frames received

    Model of [ssl/quic/quic_rx_depack.c]: what the frames of a packet do to the
    channel.  [depack_process_frames] reads one frame after the other, checks that
    its type is legal in the packet and calls the handler; the handlers of the
    frames about streams and flow control are modelled.  Those of ACK, CRYPTO,
    NEW_CONNECTION_ID, PATH_CHALLENGE, CONNECTION_CLOSE and HANDSHAKE_DONE frames
    work on other parts of the connection and are not: where the code calls one of
    them, the model stops and returns the type of the frame, with the packet
    still at it ([passed_on]); what is left of the packet after the frame is the matter of
    another run of the loop.

    The state holds the packet, the channel, the fields of the packetiser and of
    the ACK manager's record that are written here; the callback that reports
    frames to the application is left out.  What the environment
    decides while a frame is processed is the record [env]: the outcomes of the
    allocations for new streams, the outcome of the allocation of a list entry
    and the order of the hash table's buckets.  [parent_pkt] is the address of
    the packet's reference counter. *)
From Stdlib Require Import ZArith Lia.
From stdpp Require Import base tactics option gmap sorting.
From S2P Require Import Prelude Packet QuicWire QuicWirePkt QuicFc SfList RStream SStream CList StreamMap StreamChan.
#[local] Open Scope Z_scope.
Import Packet QuicWire CList StreamMap StreamChan.

Module RxDepack.
Export PktType.

Definition OSSL_QUIC_ERR_NO_ERROR : Z := 0x00.
Definition OSSL_QUIC_ERR_INTERNAL_ERROR : Z := 0x01.
Definition OSSL_QUIC_ERR_STREAM_LIMIT_ERROR : Z := 0x04.
Definition OSSL_QUIC_ERR_STREAM_STATE_ERROR : Z := 0x05.
Definition OSSL_QUIC_ERR_FRAME_ENCODING_ERROR : Z := 0x07.
Definition OSSL_QUIC_ERR_PROTOCOL_VIOLATION : Z := 0x0A.

Record env := mkEnv { e_mem : nat -> mem; e_alloc : bool; e_order : gmap Z nat -> list nat }.

Record DEPACK := mkD { pkt : PACKET; ch : QUIC_CHANNEL; force_ack_eliciting : Z; is_ack_eliciting : bool }.

Definition set_pkt (v : PACKET) (d : DEPACK) : DEPACK := mkD v (ch d) (force_ack_eliciting d) (is_ack_eliciting d).
Definition set_ch (v : QUIC_CHANNEL) (d : DEPACK) : DEPACK := mkD (pkt d) v (force_ack_eliciting d) (is_ack_eliciting d).
Definition set_force_ack_eliciting (v : Z) (d : DEPACK) : DEPACK := mkD (pkt d) (ch d) v (is_ack_eliciting d).
Definition set_is_ack_eliciting (v : bool) (d : DEPACK) : DEPACK := mkD (pkt d) (ch d) (force_ack_eliciting d) v.

Definition on_pkt {A} (m : M PACKET A) : M DEPACK A := fun d => let '(r, p) := m (pkt d) in (r, set_pkt p d).
Definition on_ch {A} (m : M QUIC_CHANNEL A) : M DEPACK A := fun d => let '(r, c) := m (ch d) in (r, set_ch c d).

(** [if (!m) { raise_protocol_error(...); return 0; }]. *)
Definition or_raise {A} (m : M QUIC_CHANNEL A) (error_code frame_type : Z) : M QUIC_CHANNEL A := fun c =>
  match m c with (Err, c) => raise_protocol_error error_code frame_type c | r => r end.

(** A handler: decode the frame, then act on the channel. *)
Definition decoding {A B} (decode : M PACKET A) (frame_type : Z) (act : A -> M QUIC_CHANNEL B) : M DEPACK B := fun d =>
  match on_pkt decode d with
  | (Ret f, d) => on_ch (act f) d
  | (Err, d) => on_ch (raise_protocol_error OSSL_QUIC_ERR_FRAME_ENCODING_ERROR frame_type) d
  | (Undef, d) => (Undef, d)
  end.

(** ** Calls into the stream's parts *)

(** [ossl_quic_rxfc_on_rx_stream_frame], with the error a failure raises. *)
Definition notify_rxfc (fc : nat) (end_ : Z) (fin : bool) (frame_type : Z) : M QUIC_CHANNEL unit :=
  c ← get;
  r ← lift_opt (Rxfc.ossl_quic_rxfc_on_rx_stream_frame (rxfcs (qsm c)) fc end_ fin);
  on_qsm (modify (set_rxfcs r.2));;
  if r.1 : bool then mret tt else raise_protocol_error OSSL_QUIC_ERR_INTERNAL_ERROR frame_type.

Definition rxfc_error (fc : nat) : M QUIC_CHANNEL Z :=
  r ← on_qsm (rxfc_of fc); mret (Rxfc.ossl_quic_rxfc_get_error r false).1.

(** A call on the receive buffer of a stream. *)
Definition on_rstream {A} (p : nat) (m : M RStream.QUIC_RSTREAM A) : M QUIC_STREAM_MAP A := 
  s ← deref p;
  rs ← lift_opt (rstream s);
  q ← get;
  let '(r, rs) := m (load q rs) in
  upd p (set_rstream (Some rs));;
  modify (set_qpkts (RStream.pkts rs));;
  lift_res r.

(** ** Streams the peer opens *)
Definition next_remote (is_uni : bool) (c : QUIC_CHANNEL) : Z :=
  if is_uni then next_remote_stream_ordinal_uni c else next_remote_stream_ordinal_bidi c.

(** The loop while [*p_next_ordinal_remote <= stream_ordinal]; [i] counts the
    allocations, [stream] is the last stream. *)
Fixpoint create_streams (e : env) (stream_id frame_type : Z) (is_uni : bool) (fuel i : nat) (stream : option nat)
    : M QUIC_CHANNEL (option nat) :=
  c ← get;
  if next_remote is_uni c <=? Z.shiftr stream_id 2 then
    match fuel with
    | O => undefined
    | S fuel =>
        let cur_stream_id := Z.lor (u64 (Z.shiftl (next_remote is_uni c) 2)) (Z.land stream_id 3) in
        p ← or_raise (ossl_quic_channel_new_stream_remote (e_mem e i) cur_stream_id) OSSL_QUIC_ERR_INTERNAL_ERROR frame_type;
        modify (fun c => set_next_remote is_uni (u64 (next_remote is_uni c + 1)) c);;
        create_streams e stream_id frame_type is_uni fuel (S i) (Some p)
    end
  else mret stream.

(** The stream, [None] for an old one that is to be ignored. *)
Definition depack_do_implicit_stream_create (e : env) (stream_id frame_type : Z) : M QUIC_CHANNEL (option nat) :=
  c ← get;
  match ossl_quic_stream_map_get_by_id stream_id (qsm c) with
  | Some p => mret (Some p)
  | None =>
      let peer_role := if ch_is_server c then 0 else 1 in
      let is_remote_init := Z.land stream_id 1 =? peer_role in
      let is_uni := Z.land stream_id 2 =? 2 in
      let stream_ordinal := Z.shiftr stream_id 2 in
      if is_remote_init then
        fc ← lift_opt (ch_get_remote_stream_count_rxfc c is_uni);
        notify_rxfc fc (u64 (stream_ordinal + 1)) false frame_type;;
        err ← rxfc_error fc;
        if negb (err =? OSSL_QUIC_ERR_NO_ERROR) then raise_protocol_error OSSL_QUIC_ERR_STREAM_LIMIT_ERROR frame_type
        else create_streams e stream_id frame_type is_uni (Z.to_nat (stream_ordinal + 1 - next_remote is_uni c)) 0 None
      else if ch_get_local_stream_next_ordinal_ptr c is_uni <=? stream_ordinal
      then raise_protocol_error OSSL_QUIC_ERR_STREAM_STATE_ERROR frame_type
      else mret None
  end.

(** [if (!depack_do_implicit_stream_create(...)) return 0; if (stream == NULL)
    return 1;] and the test of the part the frame is about. *)
Definition with_stream {A} (e : env) (stream_id frame_type : Z) (has_part : QUIC_STREAM -> bool) (ignored : A)
    (act : nat -> QUIC_STREAM -> M QUIC_CHANNEL A) : M QUIC_CHANNEL A :=
  r ← depack_do_implicit_stream_create e stream_id frame_type;
  match r with
  | None => mret ignored
  | Some p =>
      s ← on_qsm (deref p);
      if negb (has_part s) then raise_protocol_error OSSL_QUIC_ERR_STREAM_STATE_ERROR frame_type
      else act p s
  end.

(** What both frames that carry data or a final size do first. *)
Definition flow_control (p : nat) (end_ : Z) (fin : bool) (frame_type : Z) : M QUIC_CHANNEL unit :=
  notify_rxfc p end_ fin frame_type;;
  fce ← rxfc_error p;
  if negb (fce =? OSSL_QUIC_ERR_NO_ERROR) then raise_protocol_error fce frame_type else mret tt.

(** ** Frames about one stream *)
Definition depack_do_frame_reset_stream (e : env) : M DEPACK unit :=
  decoding ossl_quic_wire_decode_frame_reset_stream OSSL_QUIC_FRAME_TYPE_RESET_STREAM (fun f =>
    with_stream e (rs_stream_id f) OSSL_QUIC_FRAME_TYPE_RESET_STREAM ossl_quic_stream_has_recv tt (fun p _ =>
      flow_control p (rs_final_size f) true OSSL_QUIC_FRAME_TYPE_RESET_STREAM;;
      on_qsm (try_ (ossl_quic_stream_map_notify_reset_recv_part p (rs_app_error_code f) (rs_final_size f)));;
      on_qsm (ossl_quic_stream_map_update_state p))).

Definition depack_do_frame_stop_sending (e : env) : M DEPACK unit :=
  decoding ossl_quic_wire_decode_frame_stop_sending OSSL_QUIC_FRAME_TYPE_STOP_SENDING (fun f =>
    with_stream e (ss_stream_id f) OSSL_QUIC_FRAME_TYPE_STOP_SENDING ossl_quic_stream_has_send tt (fun p _ =>
      on_qsm (upd p (set_peer_stop_sending true));;
      on_qsm (upd p (set_peer_stop_sending_aec (ss_app_error_code f)));;
      on_qsm (try_ (ossl_quic_stream_map_reset_stream_send_part p (ss_app_error_code f)));;
      mret tt)).

(** From the switch over the state of the receive part on; [*datalen]. *)
Definition receive_data (e : env) (parent_pkt : nat) (frame_type : Z) (f : OSSL_QUIC_FRAME_STREAM) (p : nat) (s : QUIC_STREAM)
    : M QUIC_CHANNEL Z :=
  match recv_state s with
  | RSTREAM_RECV | RSTREAM_SIZE_KNOWN =>
      r ← on_qsm (rxfc_of p);
      when_ (st_is_fin f && is_null (ossl_quic_stream_recv_get_final_size s r))
        (on_qsm (try_ (ossl_quic_stream_map_notify_size_known_recv_part p (u64 (st_offset f + st_len f))));; mret tt);;
      s ← on_qsm (deref p);
      if stop_sending s then mret 0
      else
        when_ ((0 <? st_len f) || st_is_fin f)
          (or_raise (on_qsm (on_rstream p (RStream.ossl_quic_rstream_queue_data (e_alloc e) (Some parent_pkt)
                               (st_offset f) (st_data f) (st_len f) (st_is_fin f))))
             OSSL_QUIC_ERR_INTERNAL_ERROR frame_type);;
        s ← on_qsm (deref p);
        rs_fin ← (if bool_decide (recv_state s = RSTREAM_SIZE_KNOWN)
                  then rs ← lift_opt (rstream s); a ← lift_opt (RStream.ossl_quic_rstream_available rs); mret a.2
                  else mret false);
        when_ rs_fin (on_qsm (try_ (ossl_quic_stream_map_notify_totally_received p));; mret tt);;
        mret (st_len f)
  | _ => mret 0
  end.

Definition depack_do_frame_stream (e : env) (parent_pkt : nat) (frame_type : Z) : M DEPACK Z :=
  decoding (ossl_quic_wire_decode_frame_stream false) frame_type (fun f =>
    with_stream e (st_stream_id f) frame_type ossl_quic_stream_has_recv 0 (fun p s =>
      flow_control p (u64 (st_offset f + st_len f)) (st_is_fin f) frame_type;;
      receive_data e parent_pkt frame_type f p s)).

Definition depack_do_frame_max_stream_data (e : env) : M DEPACK unit :=
  decoding ossl_quic_wire_decode_frame_max_stream_data OSSL_QUIC_FRAME_TYPE_MAX_STREAM_DATA (fun '(stream_id, max_stream_data) =>
    with_stream e stream_id OSSL_QUIC_FRAME_TYPE_MAX_STREAM_DATA ossl_quic_stream_has_send tt (fun p _ =>
      on_qsm (bump_txfc p max_stream_data);;
      on_qsm (ossl_quic_stream_map_update_state p))).

Definition depack_do_frame_stream_data_blocked (e : env) : M DEPACK unit :=
  decoding ossl_quic_wire_decode_frame_stream_data_blocked OSSL_QUIC_FRAME_TYPE_STREAM_DATA_BLOCKED (fun '(stream_id, _) =>
    with_stream e stream_id OSSL_QUIC_FRAME_TYPE_STREAM_DATA_BLOCKED ossl_quic_stream_has_recv tt (fun _ _ => mret tt)).

(** ** Frames about the connection *)
Definition visit_all (e : env) (visit_cb : nat -> M QUIC_STREAM_MAP unit) : M QUIC_STREAM_MAP unit :=
  q ← get; ossl_quic_stream_map_visit visit_cb (e_order e (table q)).
Definition update_streams (p : nat) : M QUIC_STREAM_MAP unit := ossl_quic_stream_map_update_state p.
Definition update_streams_bidi (p : nat) : M QUIC_STREAM_MAP unit :=
  s ← deref p; if negb (ossl_quic_stream_is_bidi s) then mret tt else ossl_quic_stream_map_update_state p.
Definition update_streams_uni (p : nat) : M QUIC_STREAM_MAP unit :=
  s ← deref p; if ossl_quic_stream_is_bidi s then mret tt else ossl_quic_stream_map_update_state p.

Definition depack_do_frame_max_data (e : env) : M DEPACK unit :=
  decoding ossl_quic_wire_decode_frame_max_data OSSL_QUIC_FRAME_TYPE_MAX_DATA (fun max_data =>
    c ← get;
    on_qsm (bump_txfc (conn_txfc c) max_data);;
    on_qsm (visit_all e update_streams)).

Definition depack_do_frame_max_streams (e : env) (frame_type : Z) : M DEPACK unit :=
  decoding ossl_quic_wire_decode_frame_max_streams frame_type (fun max_streams =>
    if Z.shiftl 1 60 <? max_streams then raise_protocol_error OSSL_QUIC_ERR_FRAME_ENCODING_ERROR frame_type
    else if frame_type =? OSSL_QUIC_FRAME_TYPE_MAX_STREAMS_BIDI then
      on_qsm (modify (fun q => if (cb_arg q).1 <? max_streams then set_cb_arg (max_streams, (cb_arg q).2) q else q));;
      on_qsm (visit_all e update_streams_bidi)
    else if frame_type =? OSSL_QUIC_FRAME_TYPE_MAX_STREAMS_UNI then
      on_qsm (modify (fun q => if (cb_arg q).2 <? max_streams then set_cb_arg ((cb_arg q).1, max_streams) q else q));;
      on_qsm (visit_all e update_streams_uni)
    else raise_protocol_error OSSL_QUIC_ERR_FRAME_ENCODING_ERROR frame_type).

Definition depack_do_frame_data_blocked : M DEPACK unit :=
  decoding ossl_quic_wire_decode_frame_data_blocked OSSL_QUIC_FRAME_TYPE_DATA_BLOCKED (fun _ => mret tt).

Definition depack_do_frame_streams_blocked (frame_type : Z) : M DEPACK unit :=
  decoding ossl_quic_wire_decode_frame_streams_blocked frame_type (fun max_data =>
    if Z.shiftl 1 60 <? max_data then raise_protocol_error OSSL_QUIC_ERR_STREAM_LIMIT_ERROR frame_type else mret tt).

Definition depack_do_frame_new_token : M DEPACK unit :=
  decoding ossl_quic_wire_decode_frame_new_token OSSL_QUIC_FRAME_TYPE_NEW_TOKEN (fun '(_, token_len) =>
    if token_len =? 0 then raise_protocol_error OSSL_QUIC_ERR_FRAME_ENCODING_ERROR OSSL_QUIC_FRAME_TYPE_NEW_TOKEN else mret tt).

Definition depack_do_frame_retire_conn_id : M DEPACK unit :=
  decoding ossl_quic_wire_decode_frame_retire_conn_id OSSL_QUIC_FRAME_TYPE_RETIRE_CONN_ID (fun _ =>
    c ← get;
    if negb (ch_is_server c) then raise_protocol_error OSSL_QUIC_ERR_PROTOCOL_VIOLATION OSSL_QUIC_FRAME_TYPE_RETIRE_CONN_ID
    else mret tt).

Definition depack_do_frame_path_response : M DEPACK unit :=
  decoding ossl_quic_wire_decode_frame_path_response OSSL_QUIC_FRAME_TYPE_PATH_RESPONSE (fun _ => mret tt).

Definition depack_do_frame_padding : M DEPACK unit := on_pkt (try_ ossl_quic_wire_decode_padding);; mret tt.

(** The field has [QUIC_PN_SPACE_NUM] bits. *)
Definition ossl_quic_tx_packetiser_schedule_ack_eliciting (pn_space : Z) (d : DEPACK) : DEPACK :=
  set_force_ack_eliciting (Z.lor (force_ack_eliciting d) (Z.shiftl 1 pn_space) mod 2 ^ QUIC_PN_SPACE_NUM) d.

Definition depack_do_frame_ping (enc_level : Z) : M DEPACK unit :=
  decoding ossl_quic_wire_decode_frame_ping OSSL_QUIC_FRAME_TYPE_PING (fun _ => mret tt);;
  modify (ossl_quic_tx_packetiser_schedule_ack_eliciting enc_level).

(** ** The frames of a packet *)
Definition raise {A} (error_code frame_type : Z) : M DEPACK A := on_ch (raise_protocol_error error_code frame_type).

Definition in_0rtt_1rtt (pkt_type : Z) : bool := (pkt_type =? QUIC_PKT_TYPE_0RTT) || (pkt_type =? QUIC_PKT_TYPE_1RTT).

(** The handler of a type, after the check of the packet's type. *)
Definition legal {A} (b : bool) (frame_type : Z) (m : M DEPACK A) : M DEPACK A :=
  if b then m else raise OSSL_QUIC_ERR_PROTOCOL_VIOLATION frame_type.

Definition not_ack_eliciting (frame_type : Z) : bool :=
  (frame_type =? OSSL_QUIC_FRAME_TYPE_PADDING) || (frame_type =? OSSL_QUIC_FRAME_TYPE_ACK_WITHOUT_ECN)
  || (frame_type =? OSSL_QUIC_FRAME_TYPE_ACK_WITH_ECN) || (frame_type =? OSSL_QUIC_FRAME_TYPE_CONN_CLOSE_TRANSPORT)
  || (frame_type =? OSSL_QUIC_FRAME_TYPE_CONN_CLOSE_APP).

(** The frame has been processed, or it is to be passed on to a handler that is not
    modelled. *)
Definition processed {A} (m : M DEPACK A) : M DEPACK (option Z) := m;; mret None.
Definition passed_on (frame_type : Z) : M DEPACK (option Z) := mret (Some frame_type).

Section Process.
Context (pkt_type enc_level : Z) (parent_pkt : nat).

(** The cases from NEW_CONN_ID on. *)
Definition process_conn_frame (frame_type : Z) : M DEPACK (option Z) :=
  if frame_type =? OSSL_QUIC_FRAME_TYPE_NEW_CONN_ID then
    (if in_0rtt_1rtt pkt_type then mret tt
     else modify (fun d => set_ch (set_raised ((OSSL_QUIC_ERR_PROTOCOL_VIOLATION, frame_type) :: raised (ch d)) (ch d)) d));;
    passed_on frame_type
  else if frame_type =? OSSL_QUIC_FRAME_TYPE_RETIRE_CONN_ID then
    legal (in_0rtt_1rtt pkt_type) frame_type (processed depack_do_frame_retire_conn_id)
  else if frame_type =? OSSL_QUIC_FRAME_TYPE_PATH_CHALLENGE then
    legal (in_0rtt_1rtt pkt_type) frame_type (passed_on frame_type)
  else if frame_type =? OSSL_QUIC_FRAME_TYPE_PATH_RESPONSE then
    legal (pkt_type =? QUIC_PKT_TYPE_1RTT) frame_type (processed depack_do_frame_path_response)
  else if frame_type =? OSSL_QUIC_FRAME_TYPE_CONN_CLOSE_APP then
    legal (in_0rtt_1rtt pkt_type) frame_type (passed_on frame_type)
  else if frame_type =? OSSL_QUIC_FRAME_TYPE_CONN_CLOSE_TRANSPORT then passed_on frame_type
  else if frame_type =? OSSL_QUIC_FRAME_TYPE_HANDSHAKE_DONE then
    legal (pkt_type =? QUIC_PKT_TYPE_1RTT) frame_type (passed_on frame_type)
  else raise OSSL_QUIC_ERR_FRAME_ENCODING_ERROR frame_type.

(** The cases from MAX_DATA on. *)
Definition process_limit_frame (e : env) (frame_type : Z) : M DEPACK (option Z) :=
  if frame_type =? OSSL_QUIC_FRAME_TYPE_MAX_DATA then
    legal (in_0rtt_1rtt pkt_type) frame_type (processed (depack_do_frame_max_data e))
  else if frame_type =? OSSL_QUIC_FRAME_TYPE_MAX_STREAM_DATA then
    legal (in_0rtt_1rtt pkt_type) frame_type (processed (depack_do_frame_max_stream_data e))
  else if (frame_type =? OSSL_QUIC_FRAME_TYPE_MAX_STREAMS_BIDI) || (frame_type =? OSSL_QUIC_FRAME_TYPE_MAX_STREAMS_UNI) then
    legal (in_0rtt_1rtt pkt_type) frame_type (processed (depack_do_frame_max_streams e frame_type))
  else if frame_type =? OSSL_QUIC_FRAME_TYPE_DATA_BLOCKED then
    legal (in_0rtt_1rtt pkt_type) frame_type (processed depack_do_frame_data_blocked)
  else if frame_type =? OSSL_QUIC_FRAME_TYPE_STREAM_DATA_BLOCKED then
    legal (in_0rtt_1rtt pkt_type) frame_type (processed (depack_do_frame_stream_data_blocked e))
  else if (frame_type =? OSSL_QUIC_FRAME_TYPE_STREAMS_BLOCKED_BIDI) || (frame_type =? OSSL_QUIC_FRAME_TYPE_STREAMS_BLOCKED_UNI) then
    legal (in_0rtt_1rtt pkt_type) frame_type (processed (depack_do_frame_streams_blocked frame_type))
  else process_conn_frame frame_type.

(** The second switch. *)
Definition process_frame (e : env) (frame_type : Z) : M DEPACK (option Z) :=
  if frame_type =? OSSL_QUIC_FRAME_TYPE_PING then processed (depack_do_frame_ping enc_level)
  else if frame_type =? OSSL_QUIC_FRAME_TYPE_PADDING then processed depack_do_frame_padding
  else if (frame_type =? OSSL_QUIC_FRAME_TYPE_ACK_WITHOUT_ECN) || (frame_type =? OSSL_QUIC_FRAME_TYPE_ACK_WITH_ECN) then
    legal (negb (pkt_type =? QUIC_PKT_TYPE_0RTT)) frame_type (passed_on frame_type)
  else if frame_type =? OSSL_QUIC_FRAME_TYPE_RESET_STREAM then
    legal (in_0rtt_1rtt pkt_type) frame_type (processed (depack_do_frame_reset_stream e))
  else if frame_type =? OSSL_QUIC_FRAME_TYPE_STOP_SENDING then
    legal (in_0rtt_1rtt pkt_type) frame_type (processed (depack_do_frame_stop_sending e))
  else if frame_type =? OSSL_QUIC_FRAME_TYPE_CRYPTO then
    legal (negb (pkt_type =? QUIC_PKT_TYPE_0RTT)) frame_type (passed_on frame_type)
  else if frame_type =? OSSL_QUIC_FRAME_TYPE_NEW_TOKEN then
    legal (pkt_type =? QUIC_PKT_TYPE_1RTT) frame_type (processed depack_do_frame_new_token)
  else if (OSSL_QUIC_FRAME_TYPE_STREAM <=? frame_type) && (frame_type <=? 0x0F) then
    legal (in_0rtt_1rtt pkt_type) frame_type (processed (depack_do_frame_stream e parent_pkt frame_type))
  else process_limit_frame e frame_type.

(** The body of the loop: the frame header, then the frame. *)
Definition next_frame (e : env) : M DEPACK (option Z) := fun d =>
  match on_pkt ossl_quic_wire_peek_frame_header d with
  | (Undef, d) => (Undef, d)
  | (Err, d) => raise OSSL_QUIC_ERR_PROTOCOL_VIOLATION 0 d
  | (Ret (frame_type, was_minimal), d) =>
      if negb was_minimal then raise OSSL_QUIC_ERR_PROTOCOL_VIOLATION frame_type d
      else
        (modify (fun d => if not_ack_eliciting frame_type then d else set_is_ack_eliciting true d);;
         process_frame e frame_type) d
  end.

(** [while (PACKET_remaining(pkt) > 0)]; [envs] gives the environment of each
    frame.  [None] is the end of the packet. *)
Fixpoint process_loop (envs : nat -> env) (fuel i : nat) : M DEPACK (option Z) :=
  r ← on_pkt PACKET_remaining;
  if 0 <? r then
    match fuel with
    | O => undefined
    | S fuel =>
        left_ ← next_frame (envs i);
        match left_ with None => process_loop envs fuel (S i) | Some frame_type => mret (Some frame_type) end
    end
  else mret None.

Definition depack_process_frames (envs : nat -> env) : M DEPACK (option Z) :=
  r ← on_pkt PACKET_remaining;
  if r =? 0 then raise OSSL_QUIC_ERR_PROTOCOL_VIOLATION 0
  else process_loop envs (Z.to_nat r) 0.
End Process.
End RxDepack.
