(* ===== verification/RxDepackInv.v ===== *)
(** * Frames received: the channel stays well formed

    [keep] relates the channel before and after a part of a handler: the
    invariant holds, packet references are not lost, every stream is still there
    and has followed its state machines, and only addresses the environment gave
    out are in use.  [fine] is the outcome of a part of a handler: it returns with
    no error raised, or fails with exactly one protocol error raised; undefined
    behaviour is excluded. *)
From Stdlib Require Import ZArith Lia.
From stdpp Require Import base tactics option gmap sorting relations.
From S2P Require Import Prelude UintSet Packet QuicWire QuicFc SfList RStream SStream CList StreamMap StreamMapInv StreamMapSpec StreamChan RxDepack.
#[local] Open Scope Z_scope.
Import CList StreamMap StreamMapInv StreamMapSpec StreamChan RxDepack.

Module RxDepackInv.

Record keep (e : env) (c c' : QUIC_CHANNEL) : Prop := {
  kp_inv : exists act acc gc, chan_inv act acc gc c';
  kp_slack k : slack (qsm c) k <= slack (qsm c') k;
  kp_live p s : heap (qsm c) !! p = Some s -> exists s', heap (qsm c') !! p = Some s' /\ rtc machine_step s s';
  kp_table : table (qsm c) ⊆ table (qsm c');
  kp_fresh p : fresh p (qsm c) -> (forall i, m_stream (e_mem e i) <> Some p) -> fresh p (qsm c');
  kp_server : ch_is_server c' = ch_is_server c
}.

Lemma keep_refl e c act acc gc : chan_inv act acc gc c -> keep e c c.
Proof. intros Hc. split; try done; [eauto|]. intros p s Hp. exists s. by split. Qed.

Lemma keep_trans e c1 c2 c3 : keep e c1 c2 -> keep e c2 c3 -> keep e c1 c3.
Proof.
  intros [_ S1 L1 T1 F1 V1] [I2 S2 L2 T2 F2 V2]. split; [done| | | | |congruence].
  - intros k. by transitivity (slack (qsm c2) k).
  - intros p s Hp. destruct (L1 p s Hp) as (s1 & Hp1 & H1). destruct (L2 p s1 Hp1) as (s2 & Hp2 & H2).
    exists s2. split; [done|]. by transitivity s1.
  - by transitivity (table (qsm c2)).
  - intros p Hp Hi. auto.
Qed.

Definition fine {A} (e : env) (X : Z * Z -> Prop) (m : M QUIC_CHANNEL A) (c : QUIC_CHANNEL) (Q : A -> QUIC_CHANNEL -> Prop) : Prop :=
  wp m c (fun a c' => keep e c c' /\ raised c' = raised c /\ Q a c')
         (fun c' => keep e c c' /\ exists x, X x /\ raised c' = x :: raised c).

Lemma fine_mono {A} e X (m : M QUIC_CHANNEL A) c (Q R : A -> QUIC_CHANNEL -> Prop) :
  fine e X m c Q -> (forall a c', Q a c' -> R a c') -> fine e X m c R.
Proof. intros Hm HQR. eapply wp_mono; [exact Hm| |done]. intros a c' (H1 & H2 & H3). auto. Qed.

Lemma fine_bind {A B} e X (m : M QUIC_CHANNEL A) (f : A -> M QUIC_CHANNEL B) c (Q : A -> QUIC_CHANNEL -> Prop) R :
  fine e X m c Q -> (forall a c', keep e c c' -> Q a c' -> fine e X (f a) c' R) -> fine e X (m ≫= f) c R.
Proof.
  intros Hm Hf. apply wp_bind. eapply wp_mono; [exact Hm| |].
  - intros a c' (Hk & Hr & HQ). eapply wp_mono; [exact (Hf a c' Hk HQ)| |].
    + intros b c2 (Hk2 & Hr2 & HR). split_and!; [by eapply keep_trans|congruence|done].
    + intros c2 (Hk2 & x & HX & Hr2). split; [by eapply keep_trans|]. exists x. split; [done|congruence].
  - done.
Qed.

Lemma fine_ret {A} e X (a : A) c act acc gc (Q : A -> QUIC_CHANNEL -> Prop) : chan_inv act acc gc c -> Q a c -> fine e X (mret a) c Q.
Proof. intros Hc HQ. apply wp_ret. split_and!; [by eapply keep_refl|done|done]. Qed.

Lemma fine_pure {A B} e X (a : A) (f : A -> M QUIC_CHANNEL B) c Q : fine e X (f a) c Q -> fine e X (mret a ≫= f) c Q.
Proof. done. Qed.

Lemma fine_get e X c act acc gc (Q : QUIC_CHANNEL -> QUIC_CHANNEL -> Prop) : chan_inv act acc gc c -> Q c c -> fine e X get c Q.
Proof. intros Hc HQ. apply wp_get. split_and!; [by eapply keep_refl|done|done]. Qed.

Lemma raised_inv act acc gc c l : chan_inv act acc gc c -> chan_inv act acc gc (set_raised l c).
Proof.
  intros [H1 H2 [H3 H3'] H4 H5 [H6 H6'] H7 H8 H9 H10]. split; try done.
  intros p s Hp. destruct (H10 p s Hp). by split.
Qed.

Lemma raised_keep e c l act acc gc : chan_inv act acc gc c -> keep e c (set_raised l c).
Proof.
  intros Hc. split; try done; [eexists _, _, _; by apply raised_inv|]. intros p s Hp. exists s. by split.
Qed.

Lemma fine_raise {A} e X code ft c act acc gc (Q : A -> QUIC_CHANNEL -> Prop) :
  chan_inv act acc gc c -> X (code, ft) -> fine e X (raise_protocol_error code ft) c Q.
Proof.
  intros Hc HX. unfold raise_protocol_error, fine. wp_steps. split; [by eapply raised_keep|]. by exists (code, ft).
Qed.

Lemma fine_or_raise {A} e X (m : M QUIC_CHANNEL A) code ft c (Q : A -> QUIC_CHANNEL -> Prop) :
  wp m c (fun a c' => keep e c c' /\ raised c' = raised c /\ Q a c') (fun c' => keep e c c' /\ raised c' = raised c) ->
  X (code, ft) -> fine e X (or_raise m code ft) c Q.
Proof.
  unfold fine, wp, or_raise. destruct (m c) as [[a| |] c']; try done. intros [Hk Hr] HX. cbn.
  destruct (kp_inv _ _ _ Hk) as (act & acc & gc & Hc). split; [|rewrite Hr; by exists (code, ft)].
  eapply keep_trans; [exact Hk|]. by eapply raised_keep.
Qed.

(** ** Operations of the map *)

(** An operation of the map on the stream [p]. *)
Lemma frame_keep e act acc gc act' acc' gc' c q' p s s' :
  chan_inv act acc gc c -> chan_inv act' acc' gc' (set_qsm q' c) -> frame p (qsm c) q' ->
  heap (qsm c) !! p = Some s -> heap q' !! p = Some s' -> rtc machine_step s s' -> keep e c (set_qsm q' c).
Proof.
  intros Hc Hc' Hf Hp Hp' Hst. split; cbn; [by eexists _, _, _|apply Hf| |by rewrite (f_table _ _ _ Hf)| |done].
  - intros p1 s1 Hp1. destruct (decide (p1 = p)) as [->|Hne]; [exists s'; split; congruence|].
    exists s1. by rewrite (f_heap _ _ _ Hf).
  - intros p1 (H1 & H2 & H3) _. destruct (f_fcs _ _ _ Hf) as [E1 E2]. unfold fresh. rewrite E1, E2. split; [|done].
    rewrite (f_heap _ _ _ Hf); [done|congruence].
Qed.

Lemma fine_op e X o p c s act acc gc (Q : unit -> QUIC_CHANNEL -> Prop) : chan_inv act acc gc c -> heap (qsm c) !! p = Some s ->
  match o with NotifySizeKnown _ | NotifyResetRecvPart _ _ => forall r, rxfcs (qsm c) !! p = Some r -> Rxfc.is_fin r = true | _ => True end ->
  is_Some (trans o (qsm c) p s) ->
  (forall c' s', heap (qsm c') !! p = Some s' -> trans o (qsm c) p s = Some s' -> rxfcs (qsm c') = rxfcs (qsm c) -> Q tt c') ->
  fine e X (on_qsm (exec o p)) c Q.
Proof.
  intros Hc Hp Ho Hs HQ. eapply wp_chan_op; [done|done|done| |].
  - intros q' s' act' gc' Ht Hc' Hp' Hf. split_and!; [|done|apply (HQ _ s'); [done|done|apply (f_fcs _ _ _ Hf)]].
    eapply frame_keep; try done. by eapply rtc_once, trans_machine.
  - intros Ht. rewrite Ht in Hs. by destruct Hs.
Qed.

Lemma try_on_qsm {A} (m : M QUIC_STREAM_MAP A) c : on_qsm (try_ m) c = try_ (on_qsm m) c.
Proof. unfold on_qsm, try_. by destruct (m (qsm c)) as [[] ?]. Qed.

(** A call whose failure is ignored. *)
Lemma fine_try_op e X o p c s act acc gc (Q : bool -> QUIC_CHANNEL -> Prop) : chan_inv act acc gc c -> heap (qsm c) !! p = Some s ->
  match o with NotifySizeKnown _ | NotifyResetRecvPart _ _ => forall r, rxfcs (qsm c) !! p = Some r -> Rxfc.is_fin r = true | _ => True end ->
  (forall b c' s', heap (qsm c') !! p = Some s' -> trans o (qsm c) p s = Some s' \/ trans o (qsm c) p s = None /\ s' = s ->
     rxfcs (qsm c') = rxfcs (qsm c) -> Q b c') ->
  fine e X (on_qsm (try_ (exec o p))) c Q.
Proof.
  intros Hc Hp Ho HQ. unfold fine, wp. rewrite try_on_qsm. fold (wp (try_ (on_qsm (exec o p))) c
    (fun a c' => keep e c c' /\ raised c' = raised c /\ Q a c') (fun c' => keep e c c' /\ exists x, X x /\ raised c' = x :: raised c)).
  apply wp_try. eapply wp_chan_op; [done|done|done| |].
  - intros q' s' act' gc' Ht Hc' Hp' Hf. split_and!; [|done|apply (HQ _ _ s'); [done|by left|apply (f_fcs _ _ _ Hf)]].
    eapply frame_keep; try done. by eapply rtc_once, trans_machine.
  - intros Ht. split_and!; [by eapply keep_refl|done|]. apply (HQ _ _ s); [done|by right|done].
Qed.

Lemma fine_deref e X p c s act acc gc (Q : QUIC_STREAM -> QUIC_CHANNEL -> Prop) : chan_inv act acc gc c ->
  heap (qsm c) !! p = Some s -> Q s c -> fine e X (on_qsm (deref p)) c Q.
Proof.
  intros Hc Hp HQ. apply wp_on_qsm. eapply wp_deref; [done|]. rewrite set_qsm_id. split_and!; [by eapply keep_refl|done|done].
Qed.

Lemma fine_rxfc e X p c r act acc gc (Q : Rxfc.QUIC_RXFC -> QUIC_CHANNEL -> Prop) : chan_inv act acc gc c ->
  rxfcs (qsm c) !! p = Some r -> Q r c -> fine e X (on_qsm (rxfc_of p)) c Q.
Proof.
  intros Hc Hp HQ. apply wp_on_qsm. unfold rxfc_of, lift_opt. wp_steps. rewrite Hp. wp_steps. rewrite set_qsm_id.
  split_and!; [by eapply keep_refl|done|done].
Qed.

(** ** Receive flow control *)

(** What a controller may become when a frame is counted. *)
Record rx_step (r r' : Rxfc.QUIC_RXFC) : Prop := {
  rs_parent : Rxfc.parent r' = Rxfc.parent r;
  rs_standalone : Rxfc.standalone r' = Rxfc.standalone r;
  rs_hwm : Rxfc.hwm r <= Rxfc.hwm r';
  rs_fin : Rxfc.is_fin r = true -> Rxfc.is_fin r' = true /\ Rxfc.hwm r' = Rxfc.hwm r;
  rs_err : rx_errors r -> rx_errors r';
  rs_count : count_ok r -> count_ok r'
}.

Lemma rx_step_refl r : rx_step r r.
Proof. by split. Qed.

Lemma rx_ok_step s r r' : rx_step r r' -> rx_ok s r -> rx_ok s r'.
Proof.
  intros [_ _ Hh Hf Herr _] [H1 H2 H3 H4 H5]. split; [| | |lia|auto].
  - intros rs E. destruct (H1 rs E). split; [done|lia].
  - intros rs E Ef. destruct (H2 rs E Ef) as [Hfin Hce]. destruct (Hf Hfin). split; congruence.
  - intros Hn Hr. apply Hf. auto.
Qed.

(** The controller at [fc] after a frame that ends at [end_]. *)
Record counted_frame (r r' : Rxfc.QUIC_RXFC) (end_ : Z) (fin : bool) : Prop := {
  cf_step : rx_step r r';
  cf_clean : Rxfc.error_code r' = 0 -> Rxfc.error_code r = 0 /\ end_ <= Rxfc.hwm r' /\
    (fin = true -> Rxfc.is_fin r' = true /\ Rxfc.hwm r' = end_) /\ (Rxfc.is_fin r = true -> end_ <= Rxfc.hwm r);
  cf_limit : count_ok r -> Rxfc.error_code r' = 0 -> end_ <= Rxfc.cwm r;
  cf_within : count_ok r -> Rxfc.error_code r = 0 -> fin = false -> end_ <= Rxfc.cwm r -> Rxfc.error_code r' = 0;
  cf_cwm : Rxfc.cwm r' = Rxfc.cwm r
}.

Lemma controlled_fields r n : let r' := (Rxfc.on_rx_controlled_bytes r n).2 in
  Rxfc.parent r' = Rxfc.parent r /\ Rxfc.standalone r' = Rxfc.standalone r /\ Rxfc.hwm r' = Rxfc.hwm r /\
  Rxfc.is_fin r' = Rxfc.is_fin r /\ Rxfc.cwm r' = Rxfc.cwm r /\
  Rxfc.error_code r' = (if u64 (Rxfc.cwm r - Rxfc.swm r) <? n then 3 else Rxfc.error_code r).
Proof. unfold Rxfc.on_rx_controlled_bytes. by destruct (_ <? n). Qed.

Lemma counted_step r r' : Rxfc.parent r' = Rxfc.parent r -> Rxfc.standalone r' = Rxfc.standalone r -> Rxfc.hwm r' = Rxfc.hwm r ->
  Rxfc.is_fin r' = Rxfc.is_fin r -> (rx_errors r -> rx_errors r') -> Rxfc.standalone r = false -> rx_step r r'.
Proof. intros E1 E2 E3 E4 E5 E6. split; try congruence; [lia|intros; split; congruence|done|intros (Hs & _); congruence]. Qed.

(** Counting [end_] against the controller itself. *)
Lemma counted_self r end_ fin : is_u64 end_ -> 0 <= Rxfc.hwm r -> (Rxfc.standalone r = true -> fin = false) ->
  counted_frame r (let r1 := if fin then Rxfc.set_is_fin true r else r in
     if Rxfc.is_fin r && ((fin && negb (Rxfc.hwm r =? end_)) || (Rxfc.hwm r <? end_)) then Rxfc.set_error_code 6 r
     else if Rxfc.hwm r <? end_ then (Rxfc.on_rx_controlled_bytes (Rxfc.set_hwm end_ r1) (u64 (end_ - Rxfc.hwm r))).2
     else if (end_ <? Rxfc.hwm r) && fin then Rxfc.set_error_code 6 r1 else r1) end_ fin.
Proof.
  intros He Hh Hfin. cbn zeta.
  destruct (Rxfc.is_fin r && _) eqn:E1.
  { assert (Hn : ~ count_ok r) by (intros (? & ? & Hf & Hr & _); by rewrite Hf in E1).
    split; try done. split; try done. intros _. by right; right. }
  destruct (Z.ltb_spec (Rxfc.hwm r) end_) as [Hlt|Hge].
  - rewrite orb_true_r, andb_true_r in E1.
    set (r1 := Rxfc.set_hwm end_ (if fin then Rxfc.set_is_fin true r else r)).
    assert (F : Rxfc.parent r1 = Rxfc.parent r /\ Rxfc.standalone r1 = Rxfc.standalone r /\ Rxfc.hwm r1 = end_ /\
      (fin = true -> Rxfc.is_fin r1 = true) /\ (fin = false -> Rxfc.is_fin r1 = Rxfc.is_fin r) /\ Rxfc.cwm r1 = Rxfc.cwm r /\ Rxfc.swm r1 = Rxfc.swm r /\
      Rxfc.error_code r1 = Rxfc.error_code r /\ (Rxfc.rxfc_ok r -> Rxfc.rxfc_ok r1)).
    { unfold r1. destruct fin; cbn; split_and!; try done; unfold Rxfc.rxfc_ok; cbn; tauto. }
    destruct F as (F1 & F2 & F3 & F4 & F4' & F5 & F6 & F7 & F8).
    assert (Ed : u64 (end_ - Rxfc.hwm r) = end_ - Rxfc.hwm r) by (apply u64_id; unfold is_u64 in *; lia). rewrite Ed.
    destruct (controlled_fields r1 (end_ - Rxfc.hwm r)) as (G1 & G2 & G3 & G4 & G5 & G6). cbn zeta in *.
    rewrite F5, F6, F7 in G6.
    assert (Hcr : count_ok r -> u64 (Rxfc.cwm r - Rxfc.swm r) = Rxfc.cwm r - Rxfc.swm r).
    { intros (_ & _ & _ & (Hc & Hs & _) & _). apply u64_id. unfold is_u64 in *. lia. }
    split; rewrite ?G5, ?G6; try congruence.
    + split; try congruence; [unfold rx_errors; rewrite G6; destruct (_ <? _); [by right; left|done]|].
      intros Hc. pose proof Hc as (H1 & H2 & H3 & H4 & H5). specialize (F8 H4).
      destruct (Rxfc.controlled_bytes_spec r1 (end_ - Rxfc.hwm r) F8 ltac:(unfold is_u64 in *; lia)) as (K1 & _ & _ & _ & K5 & K6).
      split_and!; try congruence; [rewrite G4, (F4' (Hfin H1)); done|].
      rewrite K6, K5, F5, F6, F7, G3, F3. destruct (Z.ltb_spec (Rxfc.cwm r) (Rxfc.swm r + (end_ - Rxfc.hwm r))); [done|].
      intros E0. rewrite (H5 E0) in *. lia.
    + destruct (_ <? _) eqn:E2; [done|]. intros E0. split_and!; [done|lia| |congruence]. intros Hf. split; [rewrite G4; auto|congruence].
    + intros Hc. rewrite (Hcr Hc). destruct (Z.ltb_spec (Rxfc.cwm r - Rxfc.swm r) (end_ - Rxfc.hwm r)); [done|].
      intros E0. destruct Hc as (_ & _ & _ & _ & Hs). rewrite (Hs E0) in *. lia.
    + intros Hc E0 _ Hle. rewrite (Hcr Hc). destruct Hc as (_ & _ & _ & _ & Hs). rewrite (Hs E0).
      destruct (Z.ltb_spec (Rxfc.cwm r - Rxfc.hwm r) (end_ - Rxfc.hwm r)); [lia|done].
  - destruct fin; cbn [andb orb] in *.
    + rewrite orb_false_r in E1. assert (Hns : count_ok r -> False) by (intros (Hs & _); by specialize (Hfin Hs)).
      destruct (Z.ltb_spec end_ (Rxfc.hwm r)) as [Hlt|Hle].
      * rewrite andb_false_iff in E1. assert (Hnf : Rxfc.is_fin r = false) by (destruct E1 as [?|?%negb_false_iff%Z.eqb_eq]; [done|lia]).
        split; try done. split; try done; cbn. by right; right.
      * split; try done; cbn. intros; split_and!; try done; lia.
    + rewrite andb_false_r. split; try done.
      intros (_ & _ & _ & (Hcw & Hsw & _) & Hs) E0. rewrite (Hs E0) in Hsw. lia.
Qed.

Lemma rx_frame_stream h p r q cr end_ fin :
  h !! p = Some r -> Rxfc.parent r = Some q -> Rxfc.standalone r = false -> h !! q = Some cr -> Rxfc.standalone cr = false -> q <> p ->
  is_u64 end_ -> 0 <= Rxfc.hwm r ->
  exists r' cr', Rxfc.ossl_quic_rxfc_on_rx_stream_frame h p end_ fin = Some (true, <[q := cr']> (<[p := r']> h)) /\
    counted_frame r r' end_ fin /\ rx_step cr cr'.
Proof.
  intros Hp Hpar Hst Hq Hsq Hne He Hh. pose proof (counted_self r end_ fin He Hh ltac:(congruence)) as Hc. cbn zeta in Hc.
  assert (Hsame : forall r', <[q := cr]> (<[p := r']> h) = <[p := r']> h) by (intros; apply insert_id; by rewrite lookup_insert_ne).
  unfold Rxfc.ossl_quic_rxfc_on_rx_stream_frame. rewrite Hp. cbn [mbind option_bind]. rewrite Hst, Hpar. cbn [negb andb is_null].
  set (r1 := if fin then Rxfc.set_is_fin true r else r) in *.
  assert (E1 : Rxfc.hwm r1 = Rxfc.hwm r /\ Rxfc.parent r1 = Some q) by (unfold r1; by destruct fin). destruct E1 as [E1 E2].
  destruct (Rxfc.is_fin r && _); [eexists _, cr; by rewrite Hsame|]. rewrite E1.
  destruct (Rxfc.hwm r <? end_).
  - change (Rxfc.parent (Rxfc.set_hwm end_ r1)) with (Rxfc.parent r1). rewrite E2, lookup_insert_ne, Hq by done. cbn.
    eexists _, _. split; [reflexivity|]. split; [exact Hc|]. 
    destruct (controlled_fields cr (u64 (end_ - Rxfc.hwm r))) as (G1 & G2 & G3 & G4 & _ & G6).
    apply counted_step; try done. unfold rx_errors. rewrite G6. destruct (_ <? _); [by right; left|done].
  - destruct ((end_ <? Rxfc.hwm r) && fin); eexists _, cr; rewrite Hsame; done.
Qed.

Lemma rx_frame_count h p r end_ : h !! p = Some r -> count_ok r -> is_u64 end_ ->
  exists r', Rxfc.ossl_quic_rxfc_on_rx_stream_frame h p end_ false = Some (true, <[p := r']> h) /\ counted_frame r r' end_ false.
Proof.
  intros Hp Hok He. pose proof Hok as (Hst & Hpar & Hfin & (_ & _ & _ & Hh & _) & _).
  pose proof (counted_self r end_ false He ltac:(unfold is_u64 in *; lia) ltac:(done)) as Hc. cbn zeta in Hc.
  unfold Rxfc.ossl_quic_rxfc_on_rx_stream_frame. rewrite Hp. cbn [mbind option_bind]. rewrite Hst, Hfin in *. cbn [negb andb] in *.
  destruct (Rxfc.hwm r <? end_).
  - change (Rxfc.parent (Rxfc.set_hwm end_ r)) with (Rxfc.parent r). rewrite Hpar. by eexists.
  - rewrite andb_false_r in *. eexists. by split.
Qed.

Lemma chan_rxfcs e act acc gc c rx : chan_inv act acc gc c ->
  (forall k r, rxfcs (qsm c) !! k = Some r -> exists r', rx !! k = Some r' /\ rx_step r r') ->
  (forall k, rxfcs (qsm c) !! k = None -> rx !! k = None) ->
  chan_inv act acc gc (set_qsm (set_rxfcs rx (qsm c)) c) /\ keep e c (set_qsm (set_rxfcs rx (qsm c)) c).
Proof.
  intros Hc Hrx Hno. assert (Hc' : chan_inv act acc gc (set_qsm (set_rxfcs rx (qsm c)) c)).
  { destruct Hc as [[[] Hss] H2 [H3 (r0 & Er0 & H3')] H4 (rc & Erc & H5) [H6 H6'] H7 H8 H9 H10].
    assert (Hcnt : forall fc, counter_ok c fc -> counter_ok (set_qsm (set_rxfcs rx (qsm c)) c) fc).
    { intros fc (a & r & -> & Er & Hok & Hn). destruct (Hrx a r Er) as (r' & Er' & Hst). exists a, r'. split_and!; try done. by apply Hst. }
    split; cbn; auto.
    - split; [split; try done|done]. intros p s Hp. destruct (l_fcs0 p s Hp) as [[r Er] Ht]. split; [|done].
      destruct (Hrx p r Er) as (r' & Er' & _). eauto.
    - split; cbn; [done|]. destruct (Hrx _ _ Er0) as (r' & Er' & Hst). exists r'. split; [done|]. by rewrite (rs_parent _ _ Hst).
    - destruct (Hrx _ _ Erc) as (r' & Er' & Hst). exists r'. split; [done|]. by rewrite (rs_standalone _ _ Hst).
    - intros p s Hp. destruct (H10 p s Hp) as [(r & Er & K1 & K2 & K3) K4 K5 K6]. split; try done. cbn.
      destruct (Hrx _ _ Er) as (r' & Er' & Hst). exists r'. rewrite (rs_standalone _ _ Hst), (rs_parent _ _ Hst). split_and!; try done.
      by eapply rx_ok_step. }
  split; [done|]. split; try done; [eauto| |].
  - intros p s Hp. exists s. by split.
  - intros p (F1 & F2 & F3) _. split_and!; cbn; auto.
Qed.

(** Telling the controller of the stream [p]. *)
Lemma fine_notify_stream e X p s end_ fin ft c act acc gc (Q : unit -> QUIC_CHANNEL -> Prop) :
  chan_inv act acc gc c -> heap (qsm c) !! p = Some s -> is_u64 end_ ->
  (forall r r' c', rxfcs (qsm c) !! p = Some r -> rx_ok s r -> counted_frame r r' end_ fin -> chan_inv act acc gc c' ->
     rxfcs (qsm c') !! p = Some r' -> heap (qsm c') = heap (qsm c) -> rx_ok s r' -> Q tt c') ->
  fine e X (notify_rxfc p end_ fin ft) c Q.
Proof.
  intros Hc Hp He HQ. destruct (si_rx _ _ _ (ci_streams _ _ _ _ Hc p s Hp)) as (r & Er & Hpar & Hst & Hok).
  destruct (ci_conn_rx _ _ _ _ Hc) as (cr & Ecr & Hscr). destruct (ci_apart _ _ _ _ Hc) as [_ Hap].
  assert (Hne : conn_rxfc c <> p) by congruence.
  destruct (rx_frame_stream (rxfcs (qsm c)) p r (conn_rxfc c) cr end_ fin) as (r' & cr' & E & Hcf & Hcs); try done; [by apply Hok|].
  set (rx := <[conn_rxfc c := cr']> (<[p := r']> (rxfcs (qsm c)))) in *.
  destruct (chan_rxfcs e act acc gc c rx Hc) as [Hc' Hk].
  { intros k r0 Ek. unfold rx. rewrite lookup_insert. case_decide as Hd.
    - subst k. exists cr'. rewrite Ecr in Ek. injection Ek as <-. done.
    - rewrite lookup_insert. case_decide as Hd2; [subst k; rewrite Er in Ek; injection Ek as <-; exists r'; split; [done|apply Hcf]|].
      exists r0. split; [done|apply rx_step_refl]. }
  { intros k Hk. unfold rx. rewrite !lookup_insert_ne by congruence. done. }
  unfold notify_rxfc, fine. wp_steps. rewrite E. cbn [lift_opt]. wp_steps. apply wp_on_qsm. wp_steps. cbn [fst snd]. wp_steps.
  split_and!; [exact Hk|done|]. apply (HQ r r'); try done; [cbn; unfold rx; by rewrite lookup_insert_ne, lookup_insert_eq|].
  eapply rx_ok_step; [apply Hcf|done].
Qed.

(** Telling the controller that counts the streams of a type. *)
Lemma fine_notify_count e X fc r end_ ft c act acc gc (Q : unit -> QUIC_CHANNEL -> Prop) :
  chan_inv act acc gc c -> rxfcs (qsm c) !! fc = Some r -> count_ok r -> is_u64 end_ ->
  (forall r', counted_frame r r' end_ false ->
     let c' := set_qsm (set_rxfcs (<[fc := r']> (rxfcs (qsm c))) (qsm c)) c in chan_inv act acc gc c' -> Q tt c') ->
  fine e X (notify_rxfc fc end_ false ft) c Q.
Proof.
  intros Hc Er Hok He HQ. destruct (rx_frame_count (rxfcs (qsm c)) fc r end_) as (r' & E & Hcf); try done.
  destruct (chan_rxfcs e act acc gc c (<[fc := r']> (rxfcs (qsm c))) Hc) as [Hc' Hk].
  { intros k r0 Ek. rewrite lookup_insert. case_decide as Hd.
    - subst k. rewrite Er in Ek. injection Ek as <-. exists r'. split; [done|apply Hcf].
    - exists r0. split; [done|apply rx_step_refl]. }
  { intros k Hk. rewrite lookup_insert_ne by congruence. done. }
  unfold notify_rxfc, fine. wp_steps. rewrite E. cbn [lift_opt]. wp_steps. apply wp_on_qsm. wp_steps. cbn [fst snd]. wp_steps.
  split_and!; [exact Hk|done|by apply HQ].
Qed.

Lemma fine_rxfc_error e X p c r act acc gc (Q : Z -> QUIC_CHANNEL -> Prop) : chan_inv act acc gc c ->
  rxfcs (qsm c) !! p = Some r -> Q (Rxfc.error_code r) c -> fine e X (rxfc_error p) c Q.
Proof.
  intros Hc Hp HQ. unfold rxfc_error. eapply fine_bind with (Q := fun r' c' => r' = r /\ c' = c); [by eapply fine_rxfc|].
  intros r' c' Hk [-> ->]. by eapply fine_ret.
Qed.

(** A frame's data or final size, checked: from here on the controller agrees
    with it. *)
Lemma fine_flow_control e X p s end_ fin ft c act acc gc (Q : unit -> QUIC_CHANNEL -> Prop) :
  chan_inv act acc gc c -> heap (qsm c) !! p = Some s -> is_u64 end_ ->
  X (Rxfc.OSSL_QUIC_ERR_FLOW_CONTROL_ERROR, ft) -> X (Rxfc.OSSL_QUIC_ERR_FINAL_SIZE_ERROR, ft) ->
  (forall r r' c', rx_ok s r -> counted_frame r r' end_ fin -> Rxfc.error_code r' = 0 -> chan_inv act acc gc c' ->
     rxfcs (qsm c') !! p = Some r' -> heap (qsm c') = heap (qsm c) -> Q tt c') ->
  fine e X (flow_control p end_ fin ft) c Q.
Proof.
  intros Hc Hp He HX1 HX2 HQ. unfold flow_control.
  eapply fine_bind with (Q := fun _ c' => exists r r', rx_ok s r /\ counted_frame r r' end_ fin /\ chan_inv act acc gc c' /\
     rxfcs (qsm c') !! p = Some r' /\ heap (qsm c') = heap (qsm c)).
  { eapply fine_notify_stream; [done|done|done|]. intros r r' c' ? ? ? ? ? ? _. by exists r, r'. }
  intros [] c1 _ (r & r' & Hok & Hcf & Hc1 & Er' & Hh).
  eapply fine_bind with (Q := fun x c' => x = Rxfc.error_code r' /\ c' = c1); [by eapply fine_rxfc_error|].
  intros x c' _ [-> ->]. destruct (Z.eqb_spec (Rxfc.error_code r') OSSL_QUIC_ERR_NO_ERROR) as [E0|]; cbn [negb].
  - eapply fine_ret; [done|]. by apply (HQ r r').
  - eapply fine_raise; [done|]. destruct (rx_err _ _ (rx_ok_step _ _ _ (cf_step _ _ _ _ Hcf) Hok)) as [?|[->| ->]]; done.
Qed.

(** ** Transmit flow control and assignments to a stream *)

Lemma chan_txfc e act acc gc c p t t' : chan_inv act acc gc c -> txfcs (qsm c) !! p = Some t -> Txfc.parent t' = Txfc.parent t -> (Txfc.txfc_ok t -> Txfc.txfc_ok t') ->
  let c' := set_qsm (set_txfcs (<[p := t']> (txfcs (qsm c))) (qsm c)) c in chan_inv act acc gc c' /\ keep e c c'.
Proof.
  intros Hc Ht Hpar Hok. cbn zeta.
  assert (Hl : forall k t0, txfcs (qsm c) !! k = Some t0 -> exists t1, <[p := t']> (txfcs (qsm c)) !! k = Some t1 /\ Txfc.parent t1 = Txfc.parent t0 /\ (Txfc.txfc_ok t0 -> Txfc.txfc_ok t1)).
  { intros k t0 Hk. rewrite lookup_insert. case_decide as Hd; [|eauto]. subst k. exists t'. rewrite Hk in Ht. simplify_eq. done. }
  assert (Hc' : chan_inv act acc gc (set_qsm (set_txfcs (<[p := t']> (txfcs (qsm c))) (qsm c)) c)).
  { destruct Hc as [[[] Hss] H2 [(t0 & Et0 & H3 & H3o) H3'] H4 H5 [H6 H6'] H7 H8 H9 H10]. split; try done.
    - split; [split; try done|done]. intros k s Hk. destruct (l_fcs0 k s Hk) as (Hr & t1 & Et1 & Hp1). split; [done|].
      destruct (Hl k t1 Et1) as (t2 & Et2 & Hp2 & Ho2). exists t2. split; [done|]. destruct Hp1 as [Ht1 Hp1]. split; [auto|]. intros k2 Hk2. rewrite Hp2 in Hk2.
      destruct (Hp1 k2 Hk2) as (t3 & Et3 & Hn3 & Ho3). destruct (Hl k2 t3 Et3) as (t4 & Et4 & Hp4 & Ho4). exists t4. split_and!; [done|congruence|auto].
    - split; [|done]. destruct (Hl _ t0 Et0) as (t1 & Et1 & Hp1 & Ho1). exists t1. split_and!; [done|congruence|auto].
    - intros k s Hk. destruct (H10 k s Hk) as [K1 (t1 & Et1 & K2) K3 K4]. split; try done.
      destruct (Hl _ t1 Et1) as (t2 & Et2 & Hp2 & _). exists t2. split; [done|]. cbn. congruence. }
  split; [done|]. split; try done; [eauto| |].
  - intros k s Hk. exists s. by split.
  - intros k (F1 & F2 & F3) _. split_and!; try done. cbn. rewrite lookup_insert_ne by congruence. done.
Qed.

Lemma fine_bump e X p t v c act acc gc (Q : unit -> QUIC_CHANNEL -> Prop) : chan_inv act acc gc c -> txfcs (qsm c) !! p = Some t -> is_u64 v ->
  (forall c', chan_inv act acc gc c' -> heap (qsm c') = heap (qsm c) -> table (qsm c') = table (qsm c) -> Q tt c') ->
  fine e X (on_qsm (bump_txfc p v)) c Q.
Proof.
  intros Hc Ht Hv HQ. apply wp_on_qsm. unfold bump_txfc, txfc_of, lift_opt. wp_steps. rewrite Ht. wp_steps.
  assert (Hpar : Txfc.parent (Txfc.ossl_quic_txfc_bump_cwm t v).2 = Txfc.parent t).
  { unfold Txfc.ossl_quic_txfc_bump_cwm. by destruct (_ <=? _). }
  assert (Hto : Txfc.txfc_ok t -> Txfc.txfc_ok (Txfc.ossl_quic_txfc_bump_cwm t v).2).
  { unfold Txfc.ossl_quic_txfc_bump_cwm, Txfc.txfc_ok, is_u64 in *. destruct (Z.leb_spec v (Txfc.cwm t)); cbn; [done|lia]. }
  destruct (chan_txfc e act acc gc c p t _ Hc Ht Hpar Hto) as [Hc' Hk]. split_and!; [done|done|by apply HQ].
Qed.

(** Raising a limit on the number of streams. *)
Lemma fine_set_limit e X v c act acc gc (Q : unit -> QUIC_CHANNEL -> Prop) (f : QUIC_STREAM_MAP -> QUIC_STREAM_MAP) :
  chan_inv act acc gc c -> (forall q, f q = q \/ f q = set_cb_arg (v q) q) ->
  (forall c', chan_inv act acc gc c' -> heap (qsm c') = heap (qsm c) -> table (qsm c') = table (qsm c) -> Q tt c') ->
  fine e X (on_qsm (modify f)) c Q.
Proof.
  intros Hc Hf HQ. apply wp_on_qsm. wp_steps. destruct (Hf (qsm c)) as [->| ->].
  { rewrite set_qsm_id. split_and!; [by eapply keep_refl|done|by apply HQ]. }
  assert (Hc' : chan_inv act acc gc (set_qsm (set_cb_arg (v (qsm c)) (qsm c)) c)).
  { destruct Hc as [[[] Hss] H2 [H3 H3'] H4 H5 [H6 H6'] H7 H8 H9 H10]. split; try done.
    intros k s Hk. destruct (H10 k s Hk). by split. }
  split_and!; [|done|by apply HQ]. split; try done; [eauto|]. intros k s Hk. exists s. by split.
Qed.

(** An assignment to fields that the invariant does not tie to others. *)
Lemma fine_upd e X p f s c act acc gc (Q : unit -> QUIC_CHANNEL -> Prop) : chan_inv act acc gc c -> heap (qsm c) !! p = Some s ->
  keeps s (f s) -> (forall b, stream_ok b s -> stream_ok b (f s)) -> rstream (f s) = rstream s -> recv_state (f s) = recv_state s ->
  send_state (f s) = send_state s ->
  (forall c', chan_inv act acc gc c' -> heap (qsm c') !! p = Some (f s) -> Q tt c') -> fine e X (on_qsm (upd p f)) c Q.
Proof.
  intros Hc Hp Hk Hok Hrs Hrv Hsd HQ. destruct (inv_open _ _ _ _ _ _ (ci_map _ _ _ _ Hc) Hp) as [Hat Hso].
  apply wp_on_qsm. eapply wp_upd_at; [exact Hat|exact Hk|]. intros q' Hat' Hf. pose proof (at_here _ _ _ _ _ _ Hat') as Hp'.
  assert (Hc' : chan_inv act acc gc (set_qsm q' c)).
  { eapply (chan_frame act acc gc act acc gc c q' p s (f s)); try done; try apply Hk.
    - eapply at_close; [exact Hat'|]. rewrite (f_server _ _ _ Hf). auto.
    - intros r _ Hrx. apply (rx_ok_ext s); [done|by left|]. rewrite Hrv. pose proof (rx_known _ _ Hrx).
      destruct (recv_state s); try (right; right; by auto); auto. }
  split_and!; [|done|by apply HQ]. eapply (frame_keep e act acc gc act acc gc c q' p s (f s)); try done.
  apply rtc_once. split; try apply Hk; [by left|by left].
Qed.

(** ** The receive buffer *)

Lemma links_rstream act acc gc q p s rs pk :
  links act acc gc q -> heap q !! p = Some s ->
  (forall k, SfList.rcount (qpkts q) k - held_refs k s = SfList.rcount pk k - SfList.holders (SfList.frames (RStream.fl rs)) k) ->
  let q' := set_qpkts pk (set_heap (<[p := set_rstream (Some rs) s]> (heap q)) q) in
  links act acc gc q' /\ frame p q q'.
Proof.
  intros Hl Hp Hrefs. cbn zeta. pose proof Hl as [].
  assert (Hsum : forall k, msum (held_refs k) (<[p := set_rstream (Some rs) s]> (heap q)) =
    msum (held_refs k) (heap q) - held_refs k s + SfList.holders (SfList.frames (RStream.fl rs)) k).
  { intros k. by rewrite (msum_insert_Some _ _ _ _ _ Hp). }
  split.
  - pose proof (links_upd act acc gc q p s (set_rstream None s) Hl Hp) as [].
    { split; try done. intros k. unfold held_refs at 1. cbn. unfold held_refs. destruct (rstream s); [apply SfList.holders_nonneg|done]. }
    assert (Hb : forall p', bidi_at (set_heap (<[p := set_rstream None s]> (heap q)) q) p' =
      bidi_at (set_qpkts pk (set_heap (<[p := set_rstream (Some rs) s]> (heap q)) q)) p').
    { intros p'. unfold bidi_at. cbn. rewrite !lookup_insert. by case_decide. }
    assert (Hx : forall (P : QUIC_STREAM -> Prop) p', P (set_rstream None s) <-> P (set_rstream (Some rs) s) ->
      (exists s', <[p := set_rstream None s]> (heap q) !! p' = Some s' /\ P s') <->
      (exists s', <[p := set_rstream (Some rs) s]> (heap q) !! p' = Some s' /\ P s')).
    { intros P p' HP. rewrite !lookup_insert. case_decide; [|done]. split; intros (? & [= <-] & ?); eexists; (split; [done|]); tauto. }
    split; try done.
    + intros p'. rewrite (l_active1 p'). by apply (Hx (fun s => active s = true)).
    + intros p'. rewrite (l_ready1 p'). by apply (Hx (fun s => ready_for_gc s = true)).
    + intros p' Hin. destruct (l_accept1 p' Hin) as [s' Hs']. cbn in *. rewrite lookup_insert in *. case_decide; eauto.
    + cbn in *. rewrite l_bidi1. apply count_at_ext. intros. apply Hb.
    + cbn in *. rewrite l_uni1. apply count_at_ext. intros. f_equal. apply Hb.
    + cbn in *. rewrite l_flush1, !(msum_insert_Some _ _ _ _ _ Hp). done.
    + cbn in *. rewrite map_size_insert_Some in * by eauto. done.
    + intros i p' E. destruct (l_table1 i p' E) as (s' & Hs' & Hi). cbn in *. rewrite lookup_insert in *. case_decide; [|eauto].
      injection Hs' as <-. eexists. by split.
    + intros p' s' Hs'. cbn in *. apply (l_fcs0 p' (if decide (p = p') then s else s')). rewrite lookup_insert in Hs'. case_decide; [by subst|done].
    + intros k. cbn. rewrite Hsum. specialize (l_pkts0 k). specialize (Hrefs k). lia.
  - split; try done; [intros p' Hne; cbn; by rewrite lookup_insert_ne|].
    intros k. unfold slack. cbn. rewrite Hsum. specialize (Hrefs k). lia.
Qed.

(** What the controller [r] guarantees of a frame with the bytes from [off] to
    [off + len]. *)
Record admitted (fl : SfList.SFRAME_LIST) (r : Rxfc.QUIC_RXFC) (off len : Z) (fin : bool) : Prop := {
  ad_range : 0 <= off /\ 0 <= len /\ off + len <= SfList.MAX_END;
  ad_ok : SfList.sfl_ok fl;
  ad_end : SfList.curr_end fl <= Rxfc.hwm r /\ off + len <= Rxfc.hwm r;
  ad_fin : fin = true -> Rxfc.is_fin r = true /\ Rxfc.hwm r = off + len;
  ad_old : SfList.fin fl = true -> Rxfc.is_fin r = true /\ SfList.curr_end fl = Rxfc.hwm r
}.

Lemma queue_run alloc pk off d len fin rs r : admitted (RStream.fl rs) r off len fin ->
  SfList.refs_ok (RStream.fl rs, RStream.pkts rs) -> 0 < SfList.others (RStream.fl rs, RStream.pkts rs) pk -> (len = 0 -> fin = true) ->
  exists res rs', RStream.ossl_quic_rstream_queue_data alloc (Some pk) off (Some d) len fin rs = (res, rs') /\
    (res = Ret tt \/ res = Err /\ alloc = false) /\
    (forall k, SfList.others (RStream.fl rs', RStream.pkts rs') k = SfList.others (RStream.fl rs, RStream.pkts rs) k) /\
    SfList.sfl_ok (RStream.fl rs') /\ SfList.curr_end (RStream.fl rs') <= Rxfc.hwm r /\
    (SfList.fin (RStream.fl rs') = true -> Rxfc.is_fin r = true /\ SfList.curr_end (RStream.fl rs') = Rxfc.hwm r).
Proof.
  intros [Hr Hok He Hf Ho] Hrefs Hpk Hne. unfold RStream.ossl_quic_rstream_queue_data. unfold SfList.MAX_END in *. cbn [is_null andb orb].
  rewrite guard_true by (destruct (Z.eqb_spec len 0); [by rewrite Hne|done]).
  rewrite u64_id by (unfold is_u64; lia). set (rg := UintSet.mkRange off (off + len)).
  destruct (SfList.insert_run alloc rg (Some pk) (Some d) fin (RStream.fl rs) (RStream.pkts rs)) as [[Ha E]|([l1 rc1] & E & Hg)]; try done.
  - unfold SfList.range_ok, SfList.MAX_END. cbn. lia.
  - by intros q [= <-].
  - unfold SfList.fin_consistent. cbn. destruct fin, (SfList.fin (RStream.fl rs)); cbn;
      try destruct (Hf eq_refl); try destruct (Ho eq_refl); rewrite ?andb_true_iff, ?Z.leb_le; lia.
  - unfold RStream.on_fl. rewrite E. eexists _, _. split; [reflexivity|]. cbn. split_and!; try done; [by right|tauto].
  - unfold RStream.on_fl. rewrite E. eexists _, _. split; [reflexivity|]. destruct Hg as [Gok Gfin Goff Glk Gcl Gcov Gfr Gend Goth]. cbn in *.
    change (SfList.curr_end (SfList.set_fin (fin || SfList.fin (RStream.fl rs)) l1)) with (SfList.curr_end l1). rewrite Gend.
    split_and!; [by left|exact Goth|by destruct Gok|lia|].
    intros Hx. apply orb_true_iff in Hx as [Hx|Hx]; [destruct (Hf Hx)|destruct (Ho Hx)]; (split; [done|lia]).
Qed.

Lemma fine_queue e X p s rs r pk off d len fin ft c act acc gc (Q : unit -> QUIC_CHANNEL -> Prop) :
  chan_inv act acc gc c -> heap (qsm c) !! p = Some s -> rstream s = Some rs -> rxfcs (qsm c) !! p = Some r ->
  admitted (RStream.fl rs) r off len fin -> (len = 0 -> fin = true) -> 0 < slack (qsm c) pk ->
  X (OSSL_QUIC_ERR_INTERNAL_ERROR, ft) ->
  (forall c' rs', chan_inv act acc gc c' -> heap (qsm c') !! p = Some (set_rstream (Some rs') s) -> SfList.sfl_ok (RStream.fl rs') -> Q tt c') ->
  fine e X (or_raise (on_qsm (on_rstream p (RStream.ossl_quic_rstream_queue_data (e_alloc e) (Some pk) off (Some d) len fin)))
            OSSL_QUIC_ERR_INTERNAL_ERROR ft) c Q.
Proof.
  intros Hc Hp Hrs Hr Had Hne Hpk HX HQ. pose proof (ci_map _ _ _ _ Hc) as Hi. pose proof (i_links _ _ _ _ _ Hi) as Hl.
  assert (Hoth : forall k, slack (qsm c) k <= SfList.others (RStream.fl rs, qpkts (qsm c)) k).
  { intros k. unfold slack, SfList.others. cbn. assert (H : held_refs k s <= msum (held_refs k) (heap (qsm c))).
    { apply (msum_ge (held_refs k) _ p); [apply held_refs_nonneg|done]. }
    unfold held_refs in H at 1. rewrite Hrs in H. lia. }
  assert (Hsl : forall k, 0 <= slack (qsm c) k) by (intros k; pose proof (l_pkts _ _ _ _ Hl k); unfold slack; lia).
  destruct (queue_run (e_alloc e) pk off d len fin (load (qsm c) rs) r) as (res & rs' & E & Hres & Ho & Hok' & He' & Hf'); try done.
  { intros k. cbn. specialize (Hoth k). specialize (Hsl k). lia. }
  { cbn. specialize (Hoth pk). lia. }
  destruct (links_rstream act acc gc (qsm c) p s rs' (RStream.pkts rs') Hl Hp) as [Hl' Hf].
  { intros k. specialize (Ho k). unfold SfList.others in Ho. cbn in Ho. unfold held_refs. rewrite Hrs. lia. }
  set (q' := set_qpkts (RStream.pkts rs') (set_heap (<[p := set_rstream (Some rs') s]> (heap (qsm c))) (qsm c))) in *.
  assert (Hp' : heap q' !! p = Some (set_rstream (Some rs') s)) by (cbn; by rewrite lookup_insert_eq).
  assert (Hi' : inv None act acc gc q').
  { split; [done|]. intros p1 s1 Hp1 _. cbn in Hp1. rewrite lookup_insert in Hp1. case_decide as Hd.
    - injection Hp1 as <-. destruct (i_streams _ _ _ _ _ Hi p s Hp ltac:(done)) as [S1 S2 S3 S4 S5 S6 S7 S8 S9 S10 S11]. split; try done. by rewrite Hrs in S3.
    - by apply (i_streams _ _ _ _ _ Hi p1 s1 Hp1). }
  assert (Hc' : chan_inv act acc gc (set_qsm q' c)).
  { eapply (chan_frame act acc gc act acc gc c q' p s); try done. intros r0 Er0 [R1 R2 R3 R4]. rewrite Hr in Er0. injection Er0 as <-.
    split; cbn; try done; intros x [= <-]; [by split|by auto]. }
  assert (Hk : keep e c (set_qsm q' c)).
  { eapply (frame_keep e act acc gc act acc gc c q' p s); try done. apply rtc_once. by split; try left. }
  apply fine_or_raise; [|done]. apply wp_on_qsm. unfold on_rstream. wp_steps. eapply wp_deref; [done|]. rewrite Hrs. cbn [lift_opt]. wp_steps.
  rewrite E. wp_steps. eapply wp_upd; [done|]. wp_steps. fold q'. unfold lift_res.
  destruct Hres as [->|[-> _]]; unfold wp; [split_and!; [done|done|by apply (HQ _ rs')]|by split].
Qed.

(** ** Every stream *)

Lemma fine_visit e X f order : (forall p c s act acc gc, chan_inv act acc gc c -> heap (qsm c) !! p = Some s ->
    fine e X (on_qsm (f p)) c (fun _ _ => True)) -> forall c act acc gc, chan_inv act acc gc c ->
  (forall p, p ∈ order -> is_Some (heap (qsm c) !! p)) ->
  fine e X (on_qsm (ossl_quic_stream_map_visit f order)) c (fun _ _ => True).
Proof.
  intros Hf. induction order as [|p order IH]; intros c act acc gc Hc Hlive.
  - apply wp_on_qsm, wp_ret. rewrite set_qsm_id. split_and!; [by eapply keep_refl|done|done].
  - unfold fine, wp. cbn [ossl_quic_stream_map_visit]. rewrite on_qsm_bind. destruct (Hlive p) as [s Hs]; [left|].
    apply (fine_bind e X _ _ c (fun _ _ => True)); [by eapply Hf|]. intros [] c1 Hk _.
    destruct (kp_inv _ _ _ Hk) as (act1 & acc1 & gc1 & Hc1). eapply IH; [exact Hc1|]. intros p' Hin.
    destruct (Hlive p') as [s' Hs']; [by right|]. destruct (kp_live _ _ _ Hk p' s' Hs') as (s1 & Hs1 & _). eauto.
Qed.

(** The order of the buckets lists the table's streams. *)
Definition order_ok (e : env) : Prop := forall t : gmap Z nat, e_order e t ≡ₚ (map_to_list t).*2.

Lemma fine_visit_all e X f c act acc gc : order_ok e ->
  (forall p c s act acc gc, chan_inv act acc gc c -> heap (qsm c) !! p = Some s -> fine e X (on_qsm (f p)) c (fun _ _ => True)) ->
  chan_inv act acc gc c -> fine e X (on_qsm (visit_all e f)) c (fun _ _ => True).
Proof.
  intros Ho Hf Hc. unfold fine, wp, visit_all. rewrite on_qsm_bind.
  apply (fine_bind e X _ _ c (fun q c' => q = qsm c /\ c' = c)).
  { apply wp_on_qsm, wp_get. rewrite set_qsm_id. split_and!; [by eapply keep_refl|done|done|done]. }
  intros q c' _ [-> ->]. eapply fine_visit; [exact Hf|exact Hc|]. intros p Hp. rewrite (Ho (table (qsm c))) in Hp.
  apply list_elem_of_fmap in Hp as ([i p'] & -> & Hin). apply elem_of_map_to_list in Hin.
  destruct (l_table _ _ _ _ (i_links _ _ _ _ _ (ci_map _ _ _ _ Hc)) _ _ Hin) as (s & Hs & _). eauto.
Qed.

Lemma fine_update e X p c s act acc gc : chan_inv act acc gc c -> heap (qsm c) !! p = Some s ->
  fine e X (on_qsm (ossl_quic_stream_map_update_state p)) c (fun _ _ => True).
Proof. intros Hc Hp. eapply (fine_op e X UpdateState); try done; by eexists. Qed.

Lemma fine_cond_update e X p c s act acc gc (b : QUIC_STREAM -> bool) : chan_inv act acc gc c -> heap (qsm c) !! p = Some s ->
  fine e X (on_qsm (s ← deref p; if b s then mret tt else ossl_quic_stream_map_update_state p)) c (fun _ _ => True).
Proof.
  intros Hc Hp. unfold fine, wp. rewrite on_qsm_bind. apply (fine_bind e X _ _ c (fun s' c' => s' = s /\ c' = c)); [by eapply fine_deref|].
  intros s' c' _ [-> ->]. destruct (b s); [|by eapply fine_update].
  apply wp_on_qsm, wp_ret. rewrite set_qsm_id. split_and!; [by eapply keep_refl|done|done].
Qed.

(** ** Streams the peer opens *)

(** The addresses the allocator gives out are new, and pairwise different. *)
Definition supply (e : env) (i : nat) (c : QUIC_CHANNEL) : Prop :=
  (forall j, (i <= j)%nat -> mem_ok (e_mem e j) c) /\
  (forall j k p, m_stream (e_mem e j) = Some p -> m_stream (e_mem e k) = Some p -> j = k).

(** A stream with the identifier [k] is there. *)
Definition opened (c : QUIC_CHANNEL) (k : Z) : Prop := exists p s, heap (qsm c) !! p = Some s /\ id s = k.

Lemma rtc_machine s s' : rtc machine_step s s' -> id s' = id s /\ type s' = type s.
Proof. induction 1 as [|x y z [H1 H2 _ _] _ [IH1 IH2]]; [done|]. split; congruence. Qed.

Lemma opened_keep e c c' k : keep e c c' -> opened c k -> opened c' k.
Proof.
  intros Hk (p & s & Hp & <-). destruct (kp_live _ _ _ Hk p s Hp) as (s' & Hp' & Hs). exists p, s'. split; [done|]. by apply rtc_machine.
Qed.

(** The identifier of the stream with a given ordinal, of the type of [sid]. *)
Definition sibling (sid k : Z) : Z := k * 4 + Z.land sid 3.

Lemma sibling_parts c sid k : 0 <= k < 2 ^ 62 -> let i := Z.lor (u64 (Z.shiftl k 2)) (Z.land sid 3) in
  i = sibling sid k /\ Z.shiftr i 2 = k /\ id_local c i = id_local c sid /\ id_uni i = id_uni sid.
Proof.
  intros Hk. cbn zeta. rewrite u64_id by (unfold is_u64; rewrite Z.shiftl_mul_pow2 by lia; lia).
  destruct (land3 sid) as (Hr & L1 & L2). destruct (id_parts k (Z.land sid 3) ltac:(lia) Hr) as (E1 & E2 & E3).
  unfold id_local, id_uni. set (i := Z.lor (Z.shiftl k 2) (Z.land sid 3)) in *. destruct (land3 i) as (_ & K1 & K2).
  rewrite <- K1, <- K2, E1, L1, L2. split_and!; done.
Qed.

Lemma sibling_self sid : 0 <= sid -> sibling sid (Z.shiftr sid 2) = sid.
Proof.
  intros Hs. unfold sibling. change 3 with (Z.ones 2). rewrite Z.land_ones, Z.shiftr_div_pow2 by lia.
  change (2 ^ 2) with 4. pose proof (Z.div_mod sid 4). lia.
Qed.

Lemma fine_new_remote e X i sid ft c act acc gc (Q : nat -> QUIC_CHANNEL -> Prop) :
  let k := next_remote (id_uni sid) c in
  chan_inv act acc gc c -> supply e i c -> id_local c sid = false -> k < 2 ^ 62 ->
  (mem_fails (e_mem e i) -> X (OSSL_QUIC_ERR_INTERNAL_ERROR, ft)) ->
  (forall p s c' act' acc' gc', chan_inv act' acc' gc' c' -> supply e (S i) c' -> id_local c' sid = false ->
     next_remote (id_uni sid) c' = k + 1 -> heap (qsm c') !! p = Some s -> id s = sibling sid k -> recv_state s = RSTREAM_RECV -> Q p c') ->
  fine e X (p ← or_raise (ossl_quic_channel_new_stream_remote (e_mem e i) (Z.lor (u64 (Z.shiftl k 2)) (Z.land sid 3)))
              OSSL_QUIC_ERR_INTERNAL_ERROR ft;
            modify (fun c => set_next_remote (id_uni sid) (u64 (next_remote (id_uni sid) c + 1)) c);; mret p) c Q.
Proof.
  intros k Hc Hsup Hloc Hk HX HQ.
  assert (Hk0 : 0 <= k).
  { unfold k, next_remote. destruct (ci_nexts _ _ _ _ Hc) as (_ & _ & ? & ?). by destruct (id_uni sid). }
  destruct (sibling_parts c sid k (conj Hk0 Hk)) as (Ei & Es & El & Eu). cbn zeta in *.
  set (cur := Z.lor (u64 (Z.shiftl k 2)) (Z.land sid 3)) in *.
  assert (Hnext : next_ordinal c cur = Z.shiftr cur 2) by (unfold next_ordinal; by rewrite El, Hloc, Eu, Es).
  unfold fine. apply wp_bind. unfold wp at 1, or_raise.
  assert (Hnew : wp (ossl_quic_channel_new_stream_remote (e_mem e i) cur) c (fun p c1 =>
      let c2 := set_next_remote (id_uni sid) (u64 (next_remote (id_uni sid) c1 + 1)) c1 in
      keep e c c2 /\ raised c2 = raised c /\ Q p c2) (fun c1 => c1 = c /\ mem_fails (e_mem e i))).
  2: { unfold wp in Hnew. destruct (ossl_quic_channel_new_stream_remote (e_mem e i) cur c) as [[p| |] c1]; [| |done].
       - wp_steps. apply Hnew.
       - destruct Hnew as [-> Hm]. by apply (fine_raise (A := nat) e X _ _ c act acc gc (fun _ _ => True)); [|apply HX]. }
  eapply new_remote_ok; [exact Hc|by apply Hsup|by rewrite El|done|done|].
  intros p q' s act' gc' Hm Hc' Hp Hid Hrv Hnone Hoth Htab Hsl (t & r & Hrx & Htx & _). cbn zeta.
  assert (Enext : next_remote (id_uni sid) (set_qsm q' c) = k) by done. rewrite Enext, (u64_id (k + 1)) by (unfold is_u64; lia).
  assert (Ec : set_next cur (Z.shiftr cur 2 + 1) (set_qsm q' c) = set_next_remote (id_uni sid) (k + 1) (set_qsm q' c)).
  { unfold set_next. change (id_local (set_qsm q' c) cur) with (id_local c cur). by rewrite El, Hloc, Es, Eu. }
  rewrite Ec in Hc'. set (c2 := set_next_remote (id_uni sid) (k + 1) (set_qsm q' c)) in *.
  assert (Eq : qsm c2 = q' /\ raised c2 = raised c /\ ch_is_server c2 = ch_is_server c) by (unfold c2, set_next_remote; by destruct (id_uni sid)).
  destruct Eq as (Eq & Er & Esv).
  assert (Hfr : forall p1, fresh p1 (qsm c) -> p1 <> p -> fresh p1 q').
  { intros p1 (F1 & F2 & F3) Hne. unfold fresh. rewrite Hrx, Htx, !lookup_insert_ne, Hoth by congruence. done. }
  split_and!; [split; rewrite ?Eq|done|].
  - eauto.
  - exact Hsl.
  - intros p1 s1 Hp1. exists s1. split; [|done]. rewrite Hoth; [done|congruence].
  - rewrite Htab. destruct (m_entry (e_mem e i)); [|done]. apply insert_subseteq. eapply id_free; [exact Hc|lia].
  - intros p1 Hp1 Hno. apply Hfr; [done|]. intros ->. by apply (Hno i).
  - done.
  - apply (HQ p s c2 _ _ _ Hc'); rewrite ?Eq; try done.
    + destruct Hsup as [Hs1 Hs2]. split; [|done]. intros j Hj p1 Hp1. destruct (Hs1 j ltac:(lia) p1 Hp1) as [Hf1 Hlt]. split; [|done].
      rewrite Eq. apply Hfr; [done|]. intros ->. specialize (Hs2 j i p Hp1 Hm). lia.
    + unfold id_local. by rewrite Esv.
    + unfold c2, next_remote, set_next_remote. by destruct (id_uni sid).
    + congruence.
Qed.

(** The streams from the first one not used yet up to [sid] are there; the result
    is the last one. *)
Definition created (sid : Z) (stream : option nat) (c : QUIC_CHANNEL) (r : option nat) (c' : QUIC_CHANNEL) : Prop :=
  let k := next_remote (id_uni sid) c in let ord := Z.shiftr sid 2 in
  next_remote (id_uni sid) c' = Z.max k (ord + 1) /\ (forall j, k <= j <= ord -> opened c' (sibling sid j)) /\
  if k <=? ord then exists p s, r = Some p /\ heap (qsm c') !! p = Some s /\ id s = sid /\ recv_state s = RSTREAM_RECV
  else r = stream /\ c' = c.

Lemma fine_create_streams e X sid ft : 0 <= sid < 2 ^ 62 -> (forall i, mem_fails (e_mem e i) -> X (OSSL_QUIC_ERR_INTERNAL_ERROR, ft)) ->
  forall fuel i stream c act acc gc, chan_inv act acc gc c -> supply e i c -> id_local c sid = false ->
  fuel = Z.to_nat (Z.shiftr sid 2 + 1 - next_remote (id_uni sid) c) ->
  fine e X (create_streams e sid ft (id_uni sid) fuel i stream) c (created sid stream c).
Proof.
  intros Hsid HX. assert (Hord : 0 <= Z.shiftr sid 2 < 2 ^ 60).
  { rewrite Z.shiftr_div_pow2 by lia. split; [apply Z.div_pos; lia|apply Z.div_lt_upper_bound; lia]. }
  intros fuel. induction fuel as [|fuel IH]; intros i stream c act acc gc Hc Hsup Hloc Hfuel; cbn [create_streams];
    (eapply fine_bind with (Q := fun x c' => x = c /\ c' = c); [by eapply fine_get|]); intros x c0 _ [-> ->]; unfold created;
    destruct (Z.leb_spec (next_remote (id_uni sid) c) (Z.shiftr sid 2)) as [Hle|Hgt].
  1: lia.
  1, 3: eapply fine_ret; [done|]; split_and!; try done; [lia|intros; lia].
  set (k := next_remote (id_uni sid) c) in *.
  assert (Hstep : fine e X ((p ← or_raise (ossl_quic_channel_new_stream_remote (e_mem e i) (Z.lor (u64 (Z.shiftl k 2)) (Z.land sid 3)))
              OSSL_QUIC_ERR_INTERNAL_ERROR ft;
            modify (fun c => set_next_remote (id_uni sid) (u64 (next_remote (id_uni sid) c + 1)) c);; mret p) ≫=
            fun p => create_streams e sid ft (id_uni sid) fuel (S i) (Some p)) c (created sid stream c)).
  2: { unfold created in Hstep. fold k in Hstep. destruct (Z.leb_spec k (Z.shiftr sid 2)); [|lia].
       revert Hstep. unfold fine, wp, mbind, M_bind, modify. cbn.
       destruct (or_raise (ossl_quic_channel_new_stream_remote _ _) _ _ c) as [[p| |] c1]; exact (fun H => H). }
  eapply fine_bind with (Q := fun p c1 => exists s act1 acc1 gc1, chan_inv act1 acc1 gc1 c1 /\ supply e (S i) c1 /\ id_local c1 sid = false /\
     next_remote (id_uni sid) c1 = k + 1 /\ heap (qsm c1) !! p = Some s /\ id s = sibling sid k /\ recv_state s = RSTREAM_RECV).
  { eapply fine_new_remote; [exact Hc|exact Hsup|exact Hloc|fold k; lia|by apply HX|]. intros p s c1 act1 acc1 gc1 ? ? ? ? ? ? ?.
    by exists s, act1, acc1, gc1. }
  intros p c1 Hk1 (s & act1 & acc1 & gc1 & Hc1 & Hsup1 & Hloc1 & Hn1 & Hp & Hid & Hrv).
  assert (Hop : opened c1 (sibling sid k)) by (by exists p, s).
  eapply wp_mono; [eapply (IH (S i) (Some p) c1); [exact Hc1|exact Hsup1|exact Hloc1|rewrite Hn1; lia]| |done].
  intros r c2 (Hk2 & Hr2 & Hnx & Hopn & Hres). split_and!; [done|done|]. unfold created. fold k. rewrite Hn1 in *.
  destruct (Z.leb_spec k (Z.shiftr sid 2)); [|lia]. split_and!; [rewrite Hnx; lia| |].
  - intros j Hj. destruct (decide (j = k)) as [->|]; [by eapply opened_keep|]. apply Hopn. lia.
  - destruct (Z.leb_spec (k + 1) (Z.shiftr sid 2)); [done|]. destruct Hres as [-> ->]. exists p, s. split_and!; try done.
    rewrite Hid. assert (k = Z.shiftr sid 2) as -> by lia. apply sibling_self. lia.
Qed.
End RxDepackInv.
