(* ===== verification/RxDepackSpec.v ===== *)
(** * Frames received: the theorems

    What the decoders establish of a frame's fields, the outcome of each handler,
    and the properties of [quic_rx_depack.c]: whatever a packet holds, its
    processing ends, leaves a well-formed channel and raises at most one error;
    streams the peer opens are opened in order and within the limit; and the
    places where the code departs from its documentation. *)
From Stdlib Require Import ZArith Lia.
From stdpp Require Import base tactics option gmap sorting relations.
From S2P Require Import Prelude UintSet QuicVlint Packet QuicWire QuicFc SfList RStream SStream CList StreamMap StreamMapInv StreamMapSpec.
From S2P Require Import StreamChan RxDepack RxDepackInv.
#[local] Open Scope Z_scope.
Import Packet QuicWire CList StreamMap StreamMapInv StreamMapSpec StreamChan RxDepack RxDepackInv.

Module RxDepackSpec.

(** ** Decoding *)

(** A packet as [PACKET_buf_init] makes them. *)
Definition pkt_ok (p : PACKET) : Prop := packet_ok p /\ remaining p <= SIZE_MAX / 2.

(** What a decoder returns satisfies [Q]; it stays in the packet. *)
Definition dec {A} (m : M PACKET A) (Q : A -> Prop) : Prop := forall p, pkt_ok p ->
  wp m p (fun a p' => pkt_ok p' /\ suffix_of p' p /\ Q a) (fun p' => pkt_ok p' /\ suffix_of p' p).
(** And it consumes something. *)
Definition frame_dec {A} (m : M PACKET A) (Q : A -> Prop) : Prop := forall p, pkt_ok p ->
  wp m p (fun a p' => pkt_ok p' /\ suffix_of p' p /\ remaining p' < remaining p /\ Q a) (fun p' => pkt_ok p' /\ suffix_of p' p).

Lemma pkt_suffix p p' : pkt_ok p -> packet_ok p' -> suffix_of p' p -> pkt_ok p'.
Proof. intros [_ Hr] Hp' (k & Hk & _ & Hrem). split; [done|lia]. Qed.

Lemma dec_safe {A} (m : M PACKET A) : safe m -> dec m (fun _ => True).
Proof.
  intros Hs p Hp. destruct (Hs p (proj1 Hp)) as (r & p' & E & Hr & Hp' & Hsuf). unfold wp. rewrite E.
  pose proof (pkt_suffix p p' Hp Hp' Hsuf). by destruct r.
Qed.

Lemma dec_bind {A B} (m : M PACKET A) (f : A -> M PACKET B) (Q : A -> Prop) (R : B -> Prop) :
  dec m Q -> (forall a, Q a -> dec (f a) R) -> dec (m ≫= f) R.
Proof.
  intros Hm Hf p Hp. apply wp_bind. eapply wp_mono; [exact (Hm p Hp)| |done]. intros a p1 (Hp1 & Hs1 & HQ).
  eapply wp_mono; [exact (Hf a HQ p1 Hp1)| |].
  - intros b p2 (Hp2 & Hs2 & HR). split_and!; [done|by eapply suffix_trans|done].
  - intros p2 (Hp2 & Hs2). split; [done|by eapply suffix_trans].
Qed.

Lemma dec_ret {A} (a : A) (Q : A -> Prop) : Q a -> dec (mret a) Q.
Proof. intros HQ p Hp. apply wp_ret. split_and!; [done|apply suffix_refl, Hp|done]. Qed.

Lemma dec_vlint : dec PACKET_get_quic_vlint vint.
Proof.
  intros p Hp. destruct (get_vlint_inv p (proj1 Hp)) as [E|(v & p' & E & Hp' & Hs & Hv & _)]; unfold wp; rewrite E.
  - split; [done|apply suffix_refl, Hp].
  - split_and!; [by eapply pkt_suffix|done|done].
Qed.

Lemma dec_guard b : dec (guard_ b) (fun _ => b = true).
Proof. intros p Hp. apply wp_guard; intros ->; split_and!; try done; apply suffix_refl, Hp. Qed.

Lemma dec_remaining : dec PACKET_remaining (fun v => 0 <= v <= SIZE_MAX / 2).
Proof. intros p Hp. unfold wp, PACKET_remaining. split_and!; try done; [apply suffix_refl, Hp| |]; apply Hp. Qed.

Lemma frame_dec_bind {A} (f : Z -> M PACKET A) (R : A -> Prop) : (forall a, vint a -> dec (f a) R) ->
  frame_dec (PACKET_get_quic_vlint ≫= f) R.
Proof.
  intros Hf p Hp. apply wp_bind. destruct (get_vlint_inv p (proj1 Hp)) as [E|(v & p1 & E & Hp1 & Hs1 & Hv & Hlt)]; unfold wp at 1; rewrite E.
  - split; [done|apply suffix_refl, Hp].
  - eapply wp_mono; [exact (Hf v Hv p1 (pkt_suffix p p1 Hp Hp1 Hs1))| |].
    + intros b p2 (Hp2 & Hs2 & HR). split_and!; [done|by eapply suffix_trans| |done]. destruct Hs2 as (k & Hk & _ & Hrem). lia.
    + intros p2 (Hp2 & Hs2). split; [done|by eapply suffix_trans].
Qed.

Lemma frame_dec_assoc {A B C} (m : M PACKET A) (f : A -> M PACKET B) (h : B -> M PACKET C) R :
  frame_dec (a ← m; b ← f a; h b) R -> frame_dec ((a ← m; f a) ≫= h) R.
Proof.
  intros H p Hp. specialize (H p Hp). unfold wp, mbind, M_bind in *. destruct (m p) as [[a| |] p1]; try done.
Qed.

(** A decoder that reads numbers. *)
Ltac dec_step :=
  match goal with
  | |- dec (PACKET_get_quic_vlint ≫= _) _ => eapply dec_bind; [apply dec_vlint|intros ? ?]
  | |- dec (guard_ _ ≫= _) _ => eapply dec_bind; [apply dec_guard|intros ? ?]
  | |- dec (mret _) _ => apply dec_ret
  | |- dec PACKET_get_quic_vlint _ => apply dec_vlint
  end.
Ltac header := unfold expect_frame_header, expect_frame_header_mask, ossl_quic_wire_skip_frame_header;
  apply frame_dec_assoc, frame_dec_bind; intros ? _.

Lemma vint_62 v : vint v <-> 0 <= v < 2 ^ 62.
Proof. unfold vint. change Vlint.OSSL_QUIC_VLINT_MAX with (2 ^ 62 - 1). lia. Qed.

Lemma dec_reset_stream : frame_dec ossl_quic_wire_decode_frame_reset_stream
  (fun f => vint (rs_stream_id f) /\ vint (rs_app_error_code f) /\ vint (rs_final_size f)).
Proof. unfold ossl_quic_wire_decode_frame_reset_stream. header. repeat dec_step. done. Qed.

Lemma dec_stop_sending : frame_dec ossl_quic_wire_decode_frame_stop_sending (fun f => vint (ss_stream_id f) /\ vint (ss_app_error_code f)).
Proof. unfold ossl_quic_wire_decode_frame_stop_sending. header. repeat dec_step. done. Qed.

Lemma dec_max_data : frame_dec ossl_quic_wire_decode_frame_max_data vint.
Proof. unfold ossl_quic_wire_decode_frame_max_data. header. repeat dec_step. Qed.
Lemma dec_max_stream_data : frame_dec ossl_quic_wire_decode_frame_max_stream_data (fun f => vint f.1 /\ vint f.2).
Proof. unfold ossl_quic_wire_decode_frame_max_stream_data. header. repeat dec_step. done. Qed.
Lemma dec_data_blocked : frame_dec ossl_quic_wire_decode_frame_data_blocked vint.
Proof. unfold ossl_quic_wire_decode_frame_data_blocked. header. repeat dec_step. Qed.
Lemma dec_stream_data_blocked : frame_dec ossl_quic_wire_decode_frame_stream_data_blocked (fun f => vint f.1 /\ vint f.2).
Proof. unfold ossl_quic_wire_decode_frame_stream_data_blocked. header. repeat dec_step. done. Qed.
Lemma dec_retire_conn_id : frame_dec ossl_quic_wire_decode_frame_retire_conn_id vint.
Proof. unfold ossl_quic_wire_decode_frame_retire_conn_id. header. repeat dec_step. Qed.

Lemma dec_assoc {A B C} (m : M PACKET A) (f : A -> M PACKET B) (h : B -> M PACKET C) R :
  dec (a ← m; b ← f a; h b) R -> dec ((a ← m; f a) ≫= h) R.
Proof. intros H p Hp. specialize (H p Hp). unfold wp, mbind, M_bind in *. by destruct (m p) as [[a| |] p1]. Qed.

Lemma dec_ret_bind {A B} (a : A) (f : A -> M PACKET B) R : dec (f a) R -> dec (mret a ≫= f) R.
Proof. done. Qed.

Ltac header_mask := header; apply dec_assoc; dec_step; apply dec_ret_bind.

Lemma dec_max_streams : frame_dec ossl_quic_wire_decode_frame_max_streams vint.
Proof. unfold ossl_quic_wire_decode_frame_max_streams. header_mask. repeat dec_step. Qed.
Lemma dec_streams_blocked : frame_dec ossl_quic_wire_decode_frame_streams_blocked vint.
Proof. unfold ossl_quic_wire_decode_frame_streams_blocked. header_mask. repeat dec_step. Qed.

Lemma dec_ping : frame_dec ossl_quic_wire_decode_frame_ping (fun _ => True).
Proof.
  unfold ossl_quic_wire_decode_frame_ping, expect_frame_header, ossl_quic_wire_skip_frame_header. apply frame_dec_bind. intros.
  apply dec_safe, safe_guard.
Qed.

Lemma dec_path_response : frame_dec ossl_quic_wire_decode_frame_path_response (fun _ => True).
Proof. unfold ossl_quic_wire_decode_frame_path_response. header. dec_step. apply dec_safe, get_net_8_safe. Qed.

Lemma dec_new_token : frame_dec ossl_quic_wire_decode_frame_new_token (fun _ => True).
Proof.
  unfold ossl_quic_wire_decode_frame_new_token. header. do 3 dec_step. apply dec_safe, safe_bind; [apply safe_data|intros tok].
  apply safe_bind; [|intros; apply safe_ret]. apply PACKET_forward_safe. match goal with H : vint _ |- _ => apply vint_62 in H end. lia.
Qed.

(** The fields of a STREAM frame. *)
Record stream_frame_ok (f : OSSL_QUIC_FRAME_STREAM) : Prop := {
  sf_id : vint (st_stream_id f);
  sf_range : 0 <= st_offset f /\ 0 <= st_len f /\ st_offset f + st_len f < 2 ^ 62;
  sf_data : exists d, st_data f = Some d
}.

Lemma dec_stream : frame_dec (ossl_quic_wire_decode_frame_stream false) stream_frame_ok.
Proof.
  unfold ossl_quic_wire_decode_frame_stream. header_mask. dec_step.
  eapply dec_bind with (Q := vint).
  { destruct (negb _); [apply dec_vlint|]. apply dec_ret. by apply vint_62. }
  intros off Hoff%vint_62. cbv zeta. eapply dec_bind with (Q := fun v => 0 <= v <= SIZE_MAX / 2).
  { destruct (negb _); [|apply dec_remaining]. intros p Hp. eapply wp_mono; [exact (dec_vlint p Hp)| |done].
    intros v p' (H1 & H2 & H3%vint_62). split_and!; try done; [lia|]. change (SIZE_MAX / 2) with 9223372036854775807. lia. }
  intros len Hlen. change (SIZE_MAX / 2) with 9223372036854775807 in Hlen. eapply dec_bind; [apply dec_guard|].
  intros ? Hg. cbv beta in Hg. change MAX_STREAM_END with (2 ^ 62 - 1) in Hg. rewrite negb_true_iff, Z.ltb_ge, u64_id in Hg by (unfold is_u64; lia).
  eapply dec_bind; [apply dec_safe, safe_data|intros d ?]. dec_step.
  eapply dec_bind; [apply dec_safe, PACKET_forward_safe; lia|intros ? ?]. apply dec_ret. split; cbn; [done|lia|by exists d].
Qed.

(** ** The stream a frame is about *)

Definition conn_error (code : Z) : Prop :=
  code = OSSL_QUIC_ERR_INTERNAL_ERROR \/ code = Rxfc.OSSL_QUIC_ERR_FLOW_CONTROL_ERROR \/ code = OSSL_QUIC_ERR_STREAM_LIMIT_ERROR \/
  code = OSSL_QUIC_ERR_STREAM_STATE_ERROR \/ code = Rxfc.OSSL_QUIC_ERR_FINAL_SIZE_ERROR \/ code = OSSL_QUIC_ERR_FRAME_ENCODING_ERROR \/
  code = OSSL_QUIC_ERR_PROTOCOL_VIOLATION.
(** An error a frame of the type [ft] leads to. *)
Definition error_of (ft : Z) (x : Z * Z) : Prop := conn_error x.1 /\ x.2 = ft.

Ltac err := split; [unfold conn_error; cbn; tauto|done].

Lemma remote_role c sid : (Z.land sid 1 =? if ch_is_server c then 0 else 1) = negb (id_local c sid).
Proof.
  unfold id_local. destruct (land3 sid) as (Hr & <- & _).
  assert (H : Z.land sid 3 = 0 \/ Z.land sid 3 = 1 \/ Z.land sid 3 = 2 \/ Z.land sid 3 = 3) by lia.
  destruct H as [->|[->|[->| ->]]], (ch_is_server c); reflexivity.
Qed.

Lemma shiftr_62 sid : vint sid -> 0 <= Z.shiftr sid 2 < 2 ^ 60.
Proof. intros Hs%vint_62. rewrite Z.shiftr_div_pow2 by lia. split; [apply Z.div_pos; lia|apply Z.div_lt_upper_bound; lia]. Qed.

(** The channel after an ordinal has been counted against the limit. *)
Abbreviation counted_chan a r' c := (set_qsm (set_rxfcs (<[a := r']> (rxfcs (qsm c))) (qsm c)) c).

Lemma implicit_remote_run e sid ft c act acc gc a r : chan_inv act acc gc c -> vint sid -> table (qsm c) !! sid = None ->
  id_local c sid = false -> ch_get_remote_stream_count_rxfc c (id_uni sid) = Some a -> rxfcs (qsm c) !! a = Some r -> count_ok r ->
  exists r', counted_frame r r' (Z.shiftr sid 2 + 1) false /\ chan_inv act acc gc (counted_chan a r' c) /\ keep e c (counted_chan a r' c) /\
    depack_do_implicit_stream_create e sid ft c =
      (if Rxfc.error_code r' =? 0
       then create_streams e sid ft (id_uni sid) (Z.to_nat (Z.shiftr sid 2 + 1 - next_remote (id_uni sid) c)) 0 None
       else raise_protocol_error OSSL_QUIC_ERR_STREAM_LIMIT_ERROR ft) (counted_chan a r' c).
Proof.
  intros Hc Hsid Et El Ea Er Hok. pose proof (shiftr_62 sid Hsid) as Hord.
  destruct (rx_frame_count (rxfcs (qsm c)) a r (Z.shiftr sid 2 + 1)) as (r' & E & Hcf); [done|done|unfold is_u64; lia|].
  exists r'. split; [done|].
  destruct (chan_rxfcs e act acc gc c (<[a := r']> (rxfcs (qsm c))) Hc) as [Hc1 Hk1].
  { intros k r0 Ek. rewrite lookup_insert. case_decide as Hd.
    - subst k. rewrite Er in Ek. injection Ek as <-. exists r'. split; [done|apply Hcf].
    - exists r0. split; [done|apply rx_step_refl]. }
  { intros k Hk. rewrite lookup_insert_ne by congruence. done. }
  split_and!; [done|done|]. unfold depack_do_implicit_stream_create. rewrite (bind_ret get _ c c c) by done.
  unfold ossl_quic_stream_map_get_by_id. rewrite Et, remote_role, El. cbn [negb]. fold (id_uni sid). rewrite Ea.
  rewrite (bind_ret (lift_opt _) _ c a c) by done. rewrite u64_id by (unfold is_u64; lia).
  rewrite (bind_ret _ _ c tt (counted_chan a r' c)).
  2: { unfold notify_rxfc. rewrite (bind_ret get _ c c c) by done. rewrite E. done. }
  rewrite (bind_ret (rxfc_error a) _ _ (Rxfc.error_code r') (counted_chan a r' c)).
  2: { unfold rxfc_error, on_qsm, rxfc_of, lift_opt, mbind, M_bind, get. cbn. by rewrite lookup_insert_eq. }
  change OSSL_QUIC_ERR_NO_ERROR with 0. by destruct (Rxfc.error_code r' =? 0).
Qed.

Lemma supply_count e c a r' : supply e 0 c -> is_Some (rxfcs (qsm c) !! a) -> supply e 0 (counted_chan a r' c).
Proof.
  intros [Hs1 Hs2] [r Er]. split; [|done]. intros j Hj p Hp. destruct (Hs1 j Hj p Hp) as [(F1 & F2 & F3) Hlt]. split; [|done].
  split_and!; try done. cbn. rewrite lookup_insert_ne by congruence. done.
Qed.

Lemma counter_here c act acc gc u : chan_inv act acc gc c ->
  exists a r, ch_get_remote_stream_count_rxfc c u = Some a /\ rxfcs (qsm c) !! a = Some r /\ count_ok r.
Proof.
  intros Hc. destruct (ci_count _ _ _ _ Hc) as [Hb Hu]. assert (Hcnt : counter_ok c (ch_get_remote_stream_count_rxfc c u))
    by (unfold ch_get_remote_stream_count_rxfc; by destruct u). destruct Hcnt as (a & r & E & Er & Hok & _). eauto.
Qed.

Lemma fine_implicit_create e sid ft c act acc gc : chan_inv act acc gc c -> supply e 0 c -> vint sid ->
  fine e (error_of ft) (depack_do_implicit_stream_create e sid ft) c
    (fun r c' => forall p, r = Some p -> exists s, heap (qsm c') !! p = Some s /\ id s = sid).
Proof.
  intros Hc Hsup Hsid. destruct (table (qsm c) !! sid) as [p|] eqn:Et; [|destruct (id_local c sid) eqn:El].
  3: { destruct (counter_here c act acc gc (id_uni sid) Hc) as (a & r & Ea & Er & Hok).
       destruct (implicit_remote_run e sid ft c act acc gc a r) as (r' & Hcf & Hc1 & Hk1 & E); try done.
       unfold fine, wp. rewrite E. destruct (Rxfc.error_code r' =? 0).
       - assert (H : fine e (error_of ft) (create_streams e sid ft (id_uni sid) (Z.to_nat (Z.shiftr sid 2 + 1 - next_remote (id_uni sid) c)) 0 None)
           (counted_chan a r' c) (created sid None (counted_chan a r' c))).
         { eapply fine_create_streams; [by apply vint_62|intros; err|exact Hc1| |exact El|done]. apply supply_count; eauto. }
         unfold fine, wp in H. destruct (create_streams _ _ _ _ _ _ _ _) as [[res| |] c2]; [| |done].
         + destruct H as (Hk2 & Hr2 & _ & _ & Hres). split_and!; [by eapply keep_trans|done|]. intros p ->.
           destruct (_ <=? _); [|by destruct Hres]. destruct Hres as (p' & s & [= <-] & Hs & Hid & _). eauto.
         + destruct H as (Hk2 & x & HX & Hr2). split; [by eapply keep_trans|eauto].
       - cbn. split; [eapply keep_trans; [exact Hk1|by eapply raised_keep]|]. eexists. split; [|reflexivity]. err. }
  all: unfold depack_do_implicit_stream_create; (eapply fine_bind with (Q := fun x c' => x = c /\ c' = c); [by eapply fine_get|]);
    intros x c0 _ [-> ->]; unfold ossl_quic_stream_map_get_by_id; rewrite Et.
  - eapply fine_ret; [done|]. intros p' [= <-]. by apply (l_table _ _ _ _ (i_links _ _ _ _ _ (ci_map _ _ _ _ Hc))).
  - rewrite remote_role, El. cbn [negb]. destruct (_ <=? _); [eapply fine_raise; [done|err]|by eapply fine_ret].
Qed.

Lemma fine_with_stream {A} e pk sid ft has_part (ignored : A) body c act acc gc :
  chan_inv act acc gc c -> supply e 0 c -> vint sid -> 0 < slack (qsm c) pk ->
  (forall p s c' act' acc' gc', chan_inv act' acc' gc' c' -> heap (qsm c') !! p = Some s -> has_part s = true -> 0 < slack (qsm c') pk ->
     fine e (error_of ft) (body p s) c' (fun _ _ => True)) ->
  fine e (error_of ft) (with_stream e sid ft has_part ignored body) c (fun _ _ => True).
Proof.
  intros Hc Hsup Hsid Hpk Hb. unfold with_stream. eapply fine_bind; [by eapply fine_implicit_create|].
  intros [p|] c1 Hk Hr; destruct (kp_inv _ _ _ Hk) as (act1 & acc1 & gc1 & Hc1); [|by eapply fine_ret].
  destruct (Hr p eq_refl) as (s & Hs & _). pose proof (kp_slack _ _ _ Hk pk).
  eapply fine_bind with (Q := fun x c' => x = s /\ c' = c1); [by eapply fine_deref|]. intros x c' _ [-> ->].
  destruct (has_part s) eqn:Eh; cbn [negb]; [eapply Hb; try done; lia|eapply fine_raise; [done|err]].
Qed.

Lemma avail_total rs : SfList.sfl_ok (RStream.fl rs) -> exists a, RStream.ossl_quic_rstream_available rs = Some a.
Proof.
  intros Hok. pose proof (RStream.curr_end_max _ Hok). pose proof (SfList.ok_offset _ Hok).
  destruct (RStream.available_loop_ok (RStream.fl rs) Hok (length (SfList.frames (RStream.fl rs))) None (SfList.offset (RStream.fl rs)) 0)
    as (n & E & _); [done|cbn; lia|lia|lia|]. by eexists.
Qed.

(** What is left of a handler that has finished with the stream's buffer. *)
Lemma fine_finish e ft p s3 rs c (len : Z) act acc gc : chan_inv act acc gc c -> heap (qsm c) !! p = Some s3 -> rstream s3 = Some rs ->
  SfList.sfl_ok (RStream.fl rs) ->
  fine e (error_of ft) (s ← on_qsm (deref p);
        rs_fin ← (if bool_decide (recv_state s = RSTREAM_SIZE_KNOWN)
                  then rs ← lift_opt (rstream s); a ← lift_opt (RStream.ossl_quic_rstream_available rs); mret a.2
                  else mret false);
        when_ rs_fin (on_qsm (try_ (ossl_quic_stream_map_notify_totally_received p));; mret tt);;
        mret len) c (fun _ _ => True).
Proof.
  intros Hc Hp Hrs Hok. destruct (avail_total rs Hok) as [a Ea].
  eapply fine_bind with (Q := fun x c' => x = s3 /\ c' = c); [by eapply fine_deref|]. intros x c' _ [-> ->].
  eapply fine_bind with (Q := fun _ c' => c' = c).
  { case_bool_decide; [|by eapply fine_ret]. rewrite Hrs. cbn [lift_opt]. apply fine_pure. rewrite Ea. cbn [lift_opt]. apply fine_pure.
    by eapply fine_ret. }
  intros rs_fin c' _ ->. eapply fine_bind with (Q := fun _ _ => True).
  - destruct rs_fin; cbn [when_]; [|by eapply fine_ret].
    eapply fine_bind with (Q := fun _ _ => True); [by eapply (fine_try_op e _ NotifyTotallyReceived)|].
    intros b c1 Hk _. destruct (kp_inv _ _ _ Hk) as (? & ? & ? & ?). by eapply fine_ret.
  - intros [] c1 Hk _. destruct (kp_inv _ _ _ Hk) as (? & ? & ? & ?). by eapply fine_ret.
Qed.

(** The stream's controller lets the frame into the buffer. *)
Lemma frame_admitted s r r' rs f : counted_frame r r' (st_offset f + st_len f) (st_is_fin f) -> Rxfc.error_code r' = 0 -> rx_ok s r' ->
  rstream s = Some rs -> stream_frame_ok f -> admitted (RStream.fl rs) r' (st_offset f) (st_len f) (st_is_fin f).
Proof.
  intros Hcf E0 Hrx Hrs [_ Hrange _]. destruct (cf_clean _ _ _ _ Hcf E0) as (_ & He & Hf & _).
  destruct (rx_list _ _ Hrx rs Hrs) as [Hok Hend]. split; try done.
  - unfold SfList.MAX_END. lia.
  - by apply (rx_fin _ _ Hrx rs Hrs).
Qed.

Lemma fine_receive_data e pk ft f p s r r' c act acc gc :
  chan_inv act acc gc c -> heap (qsm c) !! p = Some s -> rxfcs (qsm c) !! p = Some r' ->
  counted_frame r r' (st_offset f + st_len f) (st_is_fin f) -> Rxfc.error_code r' = 0 -> stream_frame_ok f -> 0 < slack (qsm c) pk ->
  fine e (error_of ft) (receive_data e pk ft f p s) c (fun _ _ => True).
Proof.
  intros Hc Hp Hr Hcf E0 Hfr Hpk. pose proof (cf_clean _ _ _ _ Hcf E0) as (_ & _ & Hfin & _).
  assert (Hbuf : match recv_state s with RSTREAM_RECV | RSTREAM_SIZE_KNOWN => exists rs, rstream s = Some rs | _ => True end).
  { pose proof (so_rstream _ _ (i_streams _ _ _ _ _ (ci_map _ _ _ _ Hc) p s Hp ltac:(done))) as Hn. revert Hn.
    unfold ossl_quic_stream_has_recv_buffer. destruct (rstream s), (recv_state s); try done; eauto. }
  unfold receive_data.
  assert (Hmain : (exists rs, rstream s = Some rs) -> fine e (error_of ft)
    (r ← on_qsm (rxfc_of p);
      when_ (st_is_fin f && is_null (ossl_quic_stream_recv_get_final_size s r))
        (on_qsm (try_ (ossl_quic_stream_map_notify_size_known_recv_part p (u64 (st_offset f + st_len f))));; mret tt);;
      s ← on_qsm (deref p);
      if stop_sending s then mret 0
      else
        when_ ((0 <? st_len f) || st_is_fin f)
          (or_raise (on_qsm (on_rstream p (RStream.ossl_quic_rstream_queue_data (e_alloc e) (Some pk)
                               (st_offset f) (st_data f) (st_len f) (st_is_fin f))))
             OSSL_QUIC_ERR_INTERNAL_ERROR ft);;
        s ← on_qsm (deref p);
        rs_fin ← (if bool_decide (recv_state s = RSTREAM_SIZE_KNOWN)
                  then rs ← lift_opt (rstream s); a ← lift_opt (RStream.ossl_quic_rstream_available rs); mret a.2
                  else mret false);
        when_ rs_fin (on_qsm (try_ (ossl_quic_stream_map_notify_totally_received p));; mret tt);;
        mret (st_len f)) c (fun _ _ => True)).
  2: { destruct (recv_state s); try (by eapply fine_ret); by apply Hmain. }
  intros [rs Hrs]. eapply fine_bind with (Q := fun x c' => x = r' /\ c' = c); [by eapply fine_rxfc|]. intros x c0 _ [-> ->].
  eapply fine_bind with (Q := fun _ c' => exists s2 act2 acc2 gc2, chan_inv act2 acc2 gc2 c' /\ heap (qsm c') !! p = Some s2 /\
     rstream s2 = rstream s /\ rxfcs (qsm c') = rxfcs (qsm c)).
  { destruct (st_is_fin f && _) eqn:Ew; cbn [when_]; [|eapply fine_ret; [done|by exists s, act, acc, gc]].
    apply andb_true_iff in Ew as [Ef _]. destruct (Hfin Ef) as [Hif _].
    eapply fine_bind with (Q := fun _ c' => exists s2, heap (qsm c') !! p = Some s2 /\ rstream s2 = rstream s /\ rxfcs (qsm c') = rxfcs (qsm c)).
    - eapply (fine_try_op e _ (NotifySizeKnown (u64 (st_offset f + st_len f)))); [done|done|by intros ? Ex; rewrite Hr in Ex; injection Ex as <-|].
      intros b c' s2 Hs2 Ht Hrf. exists s2. split_and!; try done. destruct Ht as [Ht|[_ ->]]; [|done]. cbn in Ht.
      by destruct (recv_state s); try done; injection Ht as <-.
    - intros b c1 Hk (s2 & H1 & H2 & H3). destruct (kp_inv _ _ _ Hk) as (act2 & acc2 & gc2 & Hc2). eapply fine_ret; [done|].
      by exists s2, act2, acc2, gc2. }
  intros [] c2 Hk2 (s2 & act2 & acc2 & gc2 & Hc2 & Hs2 & Hrs2 & Hrf). rewrite Hrs in Hrs2. rewrite <- Hrf in Hr.
  pose proof (kp_slack _ _ _ Hk2 pk).
  eapply fine_bind with (Q := fun x c' => x = s2 /\ c' = c2); [by eapply fine_deref|]. intros x c' _ [-> ->].
  destruct (stop_sending s2); [by eapply fine_ret|].
  destruct (si_rx _ _ _ (ci_streams _ _ _ _ Hc2 p s2 Hs2)) as (rr & Err & _ & _ & Hrx2). rewrite Hr in Err. injection Err as <-.
  assert (Had : admitted (RStream.fl rs) r' (st_offset f) (st_len f) (st_is_fin f)).
  { by eapply (frame_admitted s2 r r'). }
  destruct (sf_data _ Hfr) as [d Ed]. rewrite Ed.
  eapply fine_bind with (Q := fun _ c' => exists s3 rs3 act3 acc3 gc3, chan_inv act3 acc3 gc3 c' /\ heap (qsm c') !! p = Some s3 /\
     rstream s3 = Some rs3 /\ SfList.sfl_ok (RStream.fl rs3)).
  { destruct ((0 <? st_len f) || st_is_fin f) eqn:Eq; cbn [when_].
    - eapply fine_queue; try done; [|lia|err|].
      + intros Hz. rewrite Hz in Eq. by destruct (st_is_fin f).
      + intros c' rs' Hc' Hh Hok. by exists (set_rstream (Some rs') s2), rs', act2, acc2, gc2.
    - eapply fine_ret; [done|]. exists s2, rs, act2, acc2, gc2. split_and!; try done. apply Had. }
  intros [] c3 _ (s3 & rs3 & act3 & acc3 & gc3 & Hc3 & Hs3 & Hrs3 & Hok3). by eapply fine_finish.
Qed.

(** ** Handlers *)

(** The conditions a handler is called under: [pk] is the packet's reference
    counter, held by the caller. *)
Record ready (pk : nat) (e : env) (d : DEPACK) : Prop := {
  rd_pkt : pkt_ok (pkt d);
  rd_inv : exists act acc gc, chan_inv act acc gc (ch d);
  rd_supply : supply e 0 (ch d);
  rd_order : order_ok e;
  rd_refs : 0 < slack (qsm (ch d)) pk
}.

Definition handler_ok {A} (pk : nat) (e : env) (X : Z * Z -> Prop) (m : M DEPACK A) : Prop := forall d, ready pk e d ->
  wp m d (fun _ d' => pkt_ok (pkt d') /\ suffix_of (pkt d') (pkt d) /\ remaining (pkt d') < remaining (pkt d) /\
                      keep e (ch d) (ch d') /\ raised (ch d') = raised (ch d))
         (fun d' => pkt_ok (pkt d') /\ suffix_of (pkt d') (pkt d) /\ keep e (ch d) (ch d') /\
                    exists x, X x /\ raised (ch d') = x :: raised (ch d)).

Lemma handler_decoding {A B} pk e X (decode : M PACKET A) ft (body : A -> M QUIC_CHANNEL B) (Q : A -> Prop) :
  frame_dec decode Q -> X (OSSL_QUIC_ERR_FRAME_ENCODING_ERROR, ft) ->
  (forall f c act acc gc, Q f -> chan_inv act acc gc c -> supply e 0 c -> order_ok e -> 0 < slack (qsm c) pk ->
     fine e X (body f) c (fun _ _ => True)) ->
  handler_ok pk e X (decoding decode ft body).
Proof.
  intros Hd HX Hb d [Hp (act & acc & gc & Hc) Hs Ho Hpk]. specialize (Hd (pkt d) Hp). unfold wp, decoding, on_pkt in *.
  destruct (decode (pkt d)) as [[f| |] p1]; [| |done].
  - destruct Hd as (Hp1 & Hs1 & Hlt & HQ). specialize (Hb f (ch d) act acc gc HQ Hc Hs Ho Hpk). unfold fine, wp in Hb.
    unfold on_ch. cbn [ch set_pkt]. destruct (body f (ch d)) as [[b| |] c1]; cbn; [tauto|tauto|done].
  - destruct Hd as (Hp1 & Hs1). cbn. split_and!; [done|done|by eapply raised_keep|by eexists].
Qed.

Lemma reset_stream_ok pk e : handler_ok pk e (error_of OSSL_QUIC_FRAME_TYPE_RESET_STREAM) (depack_do_frame_reset_stream e).
Proof.
  eapply handler_decoding; [apply dec_reset_stream|err|]. intros f c act acc gc (Hid & _ & Hfs%vint_62) Hc Hsup Ho Hpk.
  eapply fine_with_stream; try done. intros p s c1 act1 acc1 gc1 Hc1 Hp _ _.
  eapply fine_bind with (Q := fun _ c' => exists r', chan_inv act1 acc1 gc1 c' /\ heap (qsm c') !! p = Some s /\
     rxfcs (qsm c') !! p = Some r' /\ Rxfc.is_fin r' = true).
  { eapply fine_flow_control; [exact Hc1|exact Hp|unfold is_u64; lia|err|err|].
    intros r r' c' _ Hcf E0 Hc' Hr' Hh. exists r'. rewrite Hh. destruct (cf_clean _ _ _ _ Hcf E0) as (_ & _ & Hf & _).
    split_and!; try done. by apply Hf. }
  intros [] c2 _ (r' & Hc2 & Hp2 & Hr2 & Hfin).
  eapply fine_bind with (Q := fun _ c' => exists s', heap (qsm c') !! p = Some s').
  { eapply (fine_try_op e _ (NotifyResetRecvPart (rs_app_error_code f) (rs_final_size f))); [exact Hc2|exact Hp2| |eauto].
    intros r Er. rewrite Hr2 in Er. by injection Er as <-. }
  intros b c3 Hk (s' & Hs'). destruct (kp_inv _ _ _ Hk) as (act3 & acc3 & gc3 & Hc3). by eapply fine_update.
Qed.

Lemma stop_sending_frame_ok pk e : handler_ok pk e (error_of OSSL_QUIC_FRAME_TYPE_STOP_SENDING) (depack_do_frame_stop_sending e).
Proof.
  eapply handler_decoding; [apply dec_stop_sending|err|]. intros f c act acc gc (Hid & _) Hc Hsup Ho Hpk.
  eapply fine_with_stream; try done. intros p s c1 act1 acc1 gc1 Hc1 Hp _ _.
  eapply fine_bind with (Q := fun _ c' => chan_inv act1 acc1 gc1 c' /\ heap (qsm c') !! p = Some (set_peer_stop_sending true s)).
  { eapply (fine_upd e _ p (set_peer_stop_sending true) s); try done. intros b []; by split. }
  intros [] c2 _ [Hc2 Hp2]. set (s2 := set_peer_stop_sending true s) in *.
  eapply fine_bind with (Q := fun _ c' => chan_inv act1 acc1 gc1 c' /\ heap (qsm c') !! p = Some (set_peer_stop_sending_aec (ss_app_error_code f) s2)).
  { eapply (fine_upd e _ p (set_peer_stop_sending_aec (ss_app_error_code f)) s2); try done. intros b []; by split. }
  intros [] c3 _ [Hc3 Hp3].
  eapply fine_bind with (Q := fun _ _ => True).
  { by eapply (fine_try_op e _ (ResetStreamSendPart (ss_app_error_code f))). }
  intros b c4 Hk _. destruct (kp_inv _ _ _ Hk) as (? & ? & ? & ?). by eapply fine_ret.
Qed.

Lemma stream_frame_handler_ok pk e ft : handler_ok pk e (error_of ft) (depack_do_frame_stream e pk ft).
Proof.
  eapply handler_decoding; [apply dec_stream|err|]. intros f c act acc gc Hf Hc Hsup Ho Hpk. pose proof Hf as [Hid Hrange _].
  eapply fine_with_stream; try done. intros p s c1 act1 acc1 gc1 Hc1 Hp _ Hpk1. rewrite u64_id by (unfold is_u64; lia).
  eapply fine_bind with (Q := fun _ c' => exists r r', chan_inv act1 acc1 gc1 c' /\ heap (qsm c') !! p = Some s /\
     rxfcs (qsm c') !! p = Some r' /\ counted_frame r r' (st_offset f + st_len f) (st_is_fin f) /\ Rxfc.error_code r' = 0).
  { eapply fine_flow_control; [exact Hc1|exact Hp|unfold is_u64; lia|err|err|].
    intros r r' c' _ Hcf E0 Hc' Hr' Hh. exists r, r'. by rewrite Hh. }
  intros [] c2 Hk (r & r' & Hc2 & Hp2 & Hr2 & Hcf & E0). pose proof (kp_slack _ _ _ Hk pk).
  eapply (fine_receive_data e pk ft f p s r r'); try done. lia.
Qed.

Lemma vint_u64 v : vint v -> is_u64 v.
Proof. intros Hv. pose proof (vint_bound v Hv). unfold is_u64. lia. Qed.

Lemma max_stream_data_ok pk e : handler_ok pk e (error_of OSSL_QUIC_FRAME_TYPE_MAX_STREAM_DATA) (depack_do_frame_max_stream_data e).
Proof.
  eapply handler_decoding; [apply dec_max_stream_data|err|]. intros [sid v] c act acc gc [Hid Hv%vint_u64] Hc Hsup Ho Hpk.
  eapply fine_with_stream; try done. intros p s c1 act1 acc1 gc1 Hc1 Hp _ _.
  destruct (si_tx _ _ _ (ci_streams _ _ _ _ Hc1 p s Hp)) as (t & Et & _).
  eapply fine_bind with (Q := fun _ c' => chan_inv act1 acc1 gc1 c' /\ heap (qsm c') = heap (qsm c1)); [by eapply (fine_bump e _ p t v)|].
  intros [] c2 _ [Hc2 Hh]. eapply fine_update; [exact Hc2|]. by rewrite Hh.
Qed.

Lemma max_data_ok pk e : handler_ok pk e (error_of OSSL_QUIC_FRAME_TYPE_MAX_DATA) (depack_do_frame_max_data e).
Proof.
  eapply handler_decoding; [apply dec_max_data|err|]. intros v c act acc gc Hv%vint_u64 Hc Hsup Ho Hpk.
  eapply fine_bind with (Q := fun x c' => x = c /\ c' = c); [by eapply fine_get|]. intros x c' _ [-> ->].
  destruct (pa_tx _ _ (ci_parents _ _ _ _ Hc)) as (t & Et & _).
  eapply fine_bind with (Q := fun _ c' => chan_inv act acc gc c'); [by eapply (fine_bump e _ (conn_txfc c) t v)|].
  intros [] c2 _ Hc2. eapply fine_visit_all; [done| |exact Hc2]. intros. by eapply fine_update.
Qed.

Lemma fine_limit e ft v f g c act acc gc : chan_inv act acc gc c -> order_ok e -> (forall q, f q = q \/ f q = set_cb_arg (v q) q) ->
  (forall p c s act acc gc, chan_inv act acc gc c -> heap (qsm c) !! p = Some s -> fine e (error_of ft) (on_qsm (g p)) c (fun _ _ => True)) ->
  fine e (error_of ft) (on_qsm (modify f);; on_qsm (visit_all e g)) c (fun _ _ => True).
Proof.
  intros Hc Ho Hf Hg. eapply fine_bind with (Q := fun _ c' => chan_inv act acc gc c'); [by eapply fine_set_limit|].
  intros [] c2 _ Hc2. by eapply fine_visit_all.
Qed.

Lemma max_streams_ok pk e ft : handler_ok pk e (error_of ft) (depack_do_frame_max_streams e ft).
Proof.
  eapply handler_decoding; [apply dec_max_streams|err|]. intros v c act acc gc _ Hc Hsup Ho Hpk.
  destruct (_ <? v); [eapply fine_raise; [done|err]|]. destruct (_ =? _); [|destruct (_ =? _); [|eapply fine_raise; [done|err]]].
  - eapply (fine_limit e ft (fun q => (v, (cb_arg q).2))); [done|done| |].
    + intros q. destruct (_ <? _); auto.
    + intros. by eapply fine_cond_update.
  - eapply (fine_limit e ft (fun q => ((cb_arg q).1, v))); [done|done| |].
    + intros q. destruct (_ <? _); auto.
    + intros. by eapply fine_cond_update.
Qed.

Lemma simple_handlers_ok pk e ft :
  handler_ok pk e (error_of OSSL_QUIC_FRAME_TYPE_DATA_BLOCKED) depack_do_frame_data_blocked /\
  handler_ok pk e (error_of OSSL_QUIC_FRAME_TYPE_STREAM_DATA_BLOCKED) (depack_do_frame_stream_data_blocked e) /\
  handler_ok pk e (error_of ft) (depack_do_frame_streams_blocked ft) /\
  handler_ok pk e (error_of OSSL_QUIC_FRAME_TYPE_NEW_TOKEN) depack_do_frame_new_token /\
  handler_ok pk e (error_of OSSL_QUIC_FRAME_TYPE_RETIRE_CONN_ID) depack_do_frame_retire_conn_id /\
  handler_ok pk e (error_of OSSL_QUIC_FRAME_TYPE_PATH_RESPONSE) depack_do_frame_path_response.
Proof.
  split_and!.
  - eapply handler_decoding; [apply dec_data_blocked|err|]. intros. by eapply fine_ret.
  - eapply handler_decoding; [apply dec_stream_data_blocked|err|]. intros [sid v] c act acc gc [Hid _] Hc Hsup Ho Hpk.
    eapply fine_with_stream; try done. intros. by eapply fine_ret.
  - eapply handler_decoding; [apply dec_streams_blocked|err|]. intros v c act acc gc _ Hc _ _ _.
    destruct (_ <? v); [eapply fine_raise; [done|err]|by eapply fine_ret].
  - eapply handler_decoding; [apply dec_new_token|err|]. intros [t v] c act acc gc _ Hc _ _ _.
    destruct (v =? 0); [eapply fine_raise; [done|err]|by eapply fine_ret].
  - eapply handler_decoding; [apply dec_retire_conn_id|err|]. intros v c act acc gc _ Hc _ _ _.
    eapply fine_bind with (Q := fun x c' => x = c /\ c' = c); [by eapply fine_get|]. intros x c' _ [-> ->].
    destruct (negb _); [eapply fine_raise; [done|err]|by eapply fine_ret].
  - eapply handler_decoding; [apply dec_path_response|err|]. intros. by eapply fine_ret.
Qed.

(** ** Dispatch *)

Lemma ping_ok pk e enc : handler_ok pk e (error_of OSSL_QUIC_FRAME_TYPE_PING) (depack_do_frame_ping enc).
Proof.
  assert (H : handler_ok pk e (error_of OSSL_QUIC_FRAME_TYPE_PING)
    (decoding ossl_quic_wire_decode_frame_ping OSSL_QUIC_FRAME_TYPE_PING (fun _ => mret tt))).
  { eapply handler_decoding; [apply dec_ping|err|]. intros. by eapply fine_ret. }
  intros d Hd. apply wp_bind. eapply wp_mono; [exact (H d Hd)|done|done].
Qed.

(** A minimal frame type 0 is the byte 0. *)
Lemma peek_zero p p' : packet_ok p -> ossl_quic_wire_peek_frame_header p = (Ret (0, true), p') ->
  exists l, curr p = 0 :: l /\ 1 <= remaining p.
Proof.
  intros Hp E. pose proof Hp as [Hr _ Hb]. destruct (vlint_cases p Hp) as [E1|(n & v & E1 & E2 & Hn & Hv)];
    unfold ossl_quic_wire_peek_frame_header, PACKET_peek_quic_vlint_ex in E; [by rewrite (bind_err _ _ _ _ E1) in E|].
  rewrite (bind_ret _ _ _ _ _ E1), (bind_ret _ _ _ _ _ E2) in E. injection E as Ev Emin. subst v.
  apply Z.eqb_eq in Emin. change (Vlint.ossl_quic_vlint_encode_len 0) with 1 in Emin. subst n.
  destruct p as [c rem]. cbn [curr remaining] in *. destruct c as [|b l]; [cbn in Hr; lia|]. apply Forall_cons in Hb as [Hb Hl].
  exists l. split; [|lia]. f_equal. unfold vlint_enclen, PACKET_remaining, mbind, M_bind in E1. cbn in E1.
  destruct (rem <? 1); [done|]. cbn in E1. destruct (rem <? Vlint.ossl_quic_vlint_decode_len b); [done|]. cbn in E1.
  injection E1 as El. unfold vlint_decode_at, PACKET_data, mbind, M_bind in E2. cbn [curr] in E2.
  rewrite Vlint.decode_unchecked_spec, El in E2 by (done || lia). cbn in E2. injection E2 as E2.
  destruct (Vlint.decode_len_spec b Hb) as [Ed Hq]. rewrite Ed in El.
  assert (Hz : b / 64 = 0).
  { destruct (Z.eq_dec (b / 64) 0) as [|Hne]; [done|]. assert (2 ^ 1 <= 2 ^ (b / 64)) by (apply Z.pow_le_mono_r; lia). lia. }
  pose proof (Z.div_mod b 64). lia.
Qed.

Lemma padding_ok pk e d l : ready pk e d -> curr (pkt d) = 0 :: l -> 1 <= remaining (pkt d) ->
  wp depack_do_frame_padding d (fun _ d' => pkt_ok (pkt d') /\ suffix_of (pkt d') (pkt d) /\ remaining (pkt d') < remaining (pkt d) /\
                      keep e (ch d) (ch d') /\ raised (ch d') = raised (ch d)) (fun _ => False).
Proof.
  intros [Hp (act & acc & gc & Hc) _ _ _] Hl Hr.
  set (n := Z.of_nat (count_zeros (take (Z.to_nat (remaining (pkt d))) (curr (pkt d))))).
  assert (Hn : 1 <= n <= remaining (pkt d)).
  { unfold n. split.
    - rewrite Hl. destruct (Z.to_nat (remaining (pkt d))) as [|k] eqn:E; [lia|]. cbn. lia.
    - assert (Hc0 : forall l, (count_zeros l <= length l)%nat) by (intros x; induction x as [|b x IH]; cbn; [lia|destruct (b =? 0); lia]).
      etrans; [apply inj_le, Hc0|]. rewrite length_take. lia. }
  destruct Hp as [Hp Hmax]. destruct (forward_safe (pkt d) n Hp ltac:(lia)) as (p' & E & Hp' & Hs).
  assert (Ed : ossl_quic_wire_decode_padding (pkt d) = (Ret n, p')).
  { unfold ossl_quic_wire_decode_padding. rewrite (bind_ret PACKET_data _ _ (curr (pkt d)) (pkt d)) by done.
    rewrite (bind_ret PACKET_remaining _ _ (remaining (pkt d)) (pkt d)) by done. fold n.
    rewrite (bind_ret (PACKET_forward n) _ _ tt p'); [done|]. unfold PACKET_forward. rewrite (bind_ret (need n) _ _ tt (pkt d)); [done|].
    unfold need. rewrite (bind_ret PACKET_remaining _ _ (remaining (pkt d)) (pkt d)) by done. destruct (Z.ltb_spec (remaining (pkt d)) n); [lia|done]. }
  unfold wp, depack_do_frame_padding. rewrite (bind_ret _ _ d true (set_pkt p' d)) by (unfold on_pkt, try_; by rewrite Ed).
  cbn. injection E as E.
  split_and!; [by apply (pkt_suffix (pkt d))|done| |by eapply keep_refl|done].
  rewrite <- E. cbn. rewrite u64_id; [lia|]. destruct Hp. unfold is_u64. lia.
Qed.

Lemma peek_header_run p : packet_ok p -> exists r, ossl_quic_wire_peek_frame_header p = (r, p) /\ r <> Undef.
Proof.
  intros Hp. unfold ossl_quic_wire_peek_frame_header, PACKET_peek_quic_vlint_ex. destruct (vlint_cases p Hp) as [E|(n & v & E1 & E2 & _)].
  - rewrite (bind_err _ _ _ _ E). eauto.
  - rewrite (bind_ret _ _ _ _ _ E1), (bind_ret _ _ _ _ _ E2). by eexists.
Qed.

(** The frames whose handlers are elsewhere. *)
Definition elsewhere (ft : Z) : bool :=
  (ft =? OSSL_QUIC_FRAME_TYPE_ACK_WITHOUT_ECN) || (ft =? OSSL_QUIC_FRAME_TYPE_ACK_WITH_ECN) || (ft =? OSSL_QUIC_FRAME_TYPE_CRYPTO) ||
  (ft =? OSSL_QUIC_FRAME_TYPE_NEW_CONN_ID) || (ft =? OSSL_QUIC_FRAME_TYPE_PATH_CHALLENGE) || (ft =? OSSL_QUIC_FRAME_TYPE_CONN_CLOSE_APP) ||
  (ft =? OSSL_QUIC_FRAME_TYPE_CONN_CLOSE_TRANSPORT) || (ft =? OSSL_QUIC_FRAME_TYPE_HANDSHAKE_DONE).

Section Process.
Context (pkt_type enc_level : Z) (pk : nat).

(** What the dispatch does with a frame of the type [ft]: the frame is processed, or left
    as it is to a handler that is elsewhere. *)
Definition frame_ok (e : env) (ft : Z) (m : M DEPACK (option Z)) : Prop := forall d, ready pk e d ->
  wp m d (fun r d' => match r with
                      | None => pkt_ok (pkt d') /\ suffix_of (pkt d') (pkt d) /\ remaining (pkt d') < remaining (pkt d) /\
                                keep e (ch d) (ch d') /\ raised (ch d') = raised (ch d)
                      | Some t => t = ft /\ elsewhere ft = true /\ d' = d
                      end)
         (fun d' => pkt_ok (pkt d') /\ suffix_of (pkt d') (pkt d) /\ keep e (ch d) (ch d') /\
                    exists x, error_of ft x /\ raised (ch d') = x :: raised (ch d)).

Lemma frame_processed {A} e ft (m : M DEPACK A) : handler_ok pk e (error_of ft) m -> frame_ok e ft (processed m).
Proof. intros Hm d Hd. apply wp_bind. eapply wp_mono; [exact (Hm d Hd)|intros a d' H; by apply wp_ret|done]. Qed.
Lemma frame_passed_on e ft : elsewhere ft = true -> frame_ok e ft (passed_on ft).
Proof. intros He d Hd. by apply wp_ret. Qed.
Lemma frame_raise e ft code : conn_error code -> frame_ok e ft (raise code ft).
Proof.
  intros Hc d [Hp (act & acc & gc & Hi) _ _ _]. unfold wp. cbn. split_and!; [done|apply suffix_refl, Hp|by eapply raised_keep|by exists (code, ft)].
Qed.
Lemma frame_legal e ft b m : frame_ok e ft m -> frame_ok e ft (legal b ft m).
Proof. intros Hm. unfold legal. destruct b; [done|]. apply frame_raise. unfold conn_error. tauto. Qed.

Lemma process_frame_ok e ft : ft <> OSSL_QUIC_FRAME_TYPE_PADDING -> (in_0rtt_1rtt pkt_type = true \/ ft <> OSSL_QUIC_FRAME_TYPE_NEW_CONN_ID) ->
  frame_ok e ft (process_frame pkt_type enc_level pk e ft).
Proof.
  intros Hp Hn. destruct (simple_handlers_ok pk e ft) as (S1 & S2 & S3 & S4 & S5 & S6).
  unfold process_frame, process_limit_frame, process_conn_frame.
  repeat match goal with
    | |- frame_ok _ _ (if ?ft =? ?k then _ else _) => destruct (Z.eqb_spec ft k) as [->|?]
    | |- frame_ok _ _ (if ?b then _ else _) => destruct b eqn:?
    end; try apply frame_legal; try (by apply frame_passed_on);
    try (apply frame_processed; first [assumption|apply ping_ok|apply reset_stream_ok|apply stop_sending_frame_ok|apply max_data_ok
           |apply max_stream_data_ok|apply max_streams_ok|apply stream_frame_handler_ok]); try done.
  - apply frame_passed_on. match goal with H : _ || _ = true |- _ => apply orb_true_iff in H as [->%Z.eqb_eq| ->%Z.eqb_eq] end; done.
  - destruct Hn as [->|Hn]; [by apply frame_passed_on|done].
  - apply frame_raise. unfold conn_error. tauto.
Qed.

(** What processing one frame or several does. *)
Record progress (d d' : DEPACK) : Prop := {
  pg_pkt : pkt_ok (pkt d');
  pg_suffix : suffix_of (pkt d') (pkt d);
  pg_inv : exists act acc gc, chan_inv act acc gc (ch d');
  pg_slack k : slack (qsm (ch d)) k <= slack (qsm (ch d')) k;
  pg_live p s : heap (qsm (ch d)) !! p = Some s -> exists s', heap (qsm (ch d')) !! p = Some s' /\ rtc machine_step s s';
  pg_table : table (qsm (ch d)) ⊆ table (qsm (ch d'));
  pg_raised : exists l, raised (ch d') = l ++ raised (ch d)
}.

Lemma keep_progress e d d' : pkt_ok (pkt d') -> suffix_of (pkt d') (pkt d) -> keep e (ch d) (ch d') ->
  (exists l, raised (ch d') = l ++ raised (ch d)) -> progress d d'.
Proof. intros H1 H2 [K1 K2 K3 K4 _ _] H3. by split. Qed.

Lemma progress_trans d1 d2 d3 : progress d1 d2 -> progress d2 d3 -> progress d1 d3.
Proof.
  intros [P1 P2 _ P4 P5 P6 (l1 & P7)] [Q1 Q2 Q3 Q4 Q5 Q6 (l2 & Q7)]. split; try done.
  - by eapply suffix_trans.
  - intros k. by transitivity (slack (qsm (ch d2)) k).
  - intros p s Hp. destruct (P5 p s Hp) as (s1 & Hp1 & H1). destruct (Q5 p s1 Hp1) as (s2 & Hp2 & H2). exists s2. split; [done|by transitivity s1].
  - by transitivity (table (qsm (ch d2))).
  - exists (l2 ++ l1). by rewrite Q7, P7, app_assoc.
Qed.

Definition frame_done (e : env) (d d' : DEPACK) : Prop :=
  progress d d' /\ keep e (ch d) (ch d') /\ remaining (pkt d') < remaining (pkt d) /\ raised (ch d') = raised (ch d).

(** The packet [d'] has got to is at a frame of the type [ft], which is left to its handler.
    No error has been raised, but for a NEW_CONNECTION_ID frame where there should be none. *)
Record stops_at (ft : Z) (d d' : DEPACK) : Prop := {
  sa_type : elsewhere ft = true;
  sa_header : ossl_quic_wire_peek_frame_header (pkt d') = (Ret (ft, true), pkt d');
  sa_raised : raised (ch d') =
    if (ft =? OSSL_QUIC_FRAME_TYPE_NEW_CONN_ID) && negb (in_0rtt_1rtt pkt_type) then (OSSL_QUIC_ERR_PROTOCOL_VIOLATION, ft) :: raised (ch d) else raised (ch d)
}.

(** A processing that fails has raised one error. *)
Definition has_raised (d d' : DEPACK) : Prop := exists x, conn_error x.1 /\ raised (ch d') = x :: raised (ch d).

(** The outcome of [m], which takes over in the state [d1] from [d]. *)
Definition outcome (e : env) (d d1 : DEPACK) (m : M DEPACK (option Z)) : Prop :=
  wp m d1 (fun r d' => match r with None => frame_done e d d' | Some ft => progress d d' /\ stops_at ft d d' end)
    (fun d' => progress d d' /\ has_raised d d').

Lemma outcome_raise e d code ft : conn_error code -> ready pk e d -> outcome e d d (raise code ft).
Proof.
  intros Hc [Hp (act & acc & gc & Hi) _ _ _]. unfold outcome, wp. cbn. split; [|by exists (code, ft)].
  eapply (keep_progress e); cbn; [done|apply suffix_refl, Hp|by eapply raised_keep|by exists [(code, ft)]].
Qed.

Lemma outcome_frame e d d1 ft m : ready pk e d1 -> pkt d1 = pkt d -> ch d1 = ch d -> ossl_quic_wire_peek_frame_header (pkt d) = (Ret (ft, true), pkt d) ->
  in_0rtt_1rtt pkt_type = true \/ ft <> OSSL_QUIC_FRAME_TYPE_NEW_CONN_ID -> frame_ok e ft m -> outcome e d d1 m.
Proof.
  intros Hd1 E1 E2 Eh Hn Hm. eapply wp_mono; [exact (Hm d1 Hd1)| |]; rewrite E1, E2.
  - intros [t|] d'.
    + intros (-> & He & ->). pose proof Hd1 as [Hp (act & acc & gc & Hc) _ _ _]. split; [eapply (keep_progress e); rewrite ?E1, ?E2; [by rewrite <- E1|apply suffix_refl; rewrite <- E1; apply Hp| |by exists []]|].
      { rewrite E2 in Hc. by eapply keep_refl. }
      split; rewrite ?E1, ?E2; try done. destruct Hn as [->|Hn]; [by rewrite andb_false_r|]. apply Z.eqb_neq in Hn. by rewrite Hn.
    + intros (H1 & H2 & H3 & H4 & H5). split_and!; try done. eapply keep_progress; try done. by exists [].
  - intros d' (H1 & H2 & H3 & x & [HX _] & H5). split; [|by exists x]. eapply keep_progress; try done. by exists [x].
Qed.

Lemma outcome_padding e d d1 : ready pk e d1 -> pkt d1 = pkt d -> ch d1 = ch d ->
  ossl_quic_wire_peek_frame_header (pkt d) = (Ret (OSSL_QUIC_FRAME_TYPE_PADDING, true), pkt d) -> outcome e d d1 (processed depack_do_frame_padding).
Proof.
  intros Hd1 E1 E2 E. rewrite <- E1 in E. destruct (peek_zero (pkt d1) _ (proj1 (rd_pkt _ _ _ Hd1)) E) as (l & Hl & Hrem).
  apply wp_bind. eapply wp_mono; [exact (padding_ok pk e d1 l Hd1 Hl Hrem)| |done]. rewrite E1, E2. intros [] d' (H1 & H2 & H3 & H4 & H5). apply wp_ret.
  split_and!; try done. eapply keep_progress; try done. by exists [].
Qed.

(** A NEW_CONNECTION_ID frame where it is not allowed: the error is raised, and
    the frame passed on all the same. *)
Lemma outcome_new_conn_id e d d1 : ready pk e d1 -> pkt d1 = pkt d -> ch d1 = ch d -> in_0rtt_1rtt pkt_type = false ->
  ossl_quic_wire_peek_frame_header (pkt d) = (Ret (OSSL_QUIC_FRAME_TYPE_NEW_CONN_ID, true), pkt d) ->
  outcome e d d1 (process_frame pkt_type enc_level pk e OSSL_QUIC_FRAME_TYPE_NEW_CONN_ID).
Proof.
  intros Hd1 E1 E2 Ert Eh. set (x := (OSSL_QUIC_ERR_PROTOCOL_VIOLATION, OSSL_QUIC_FRAME_TYPE_NEW_CONN_ID)).
  change (process_frame pkt_type enc_level pk e OSSL_QUIC_FRAME_TYPE_NEW_CONN_ID) with (process_conn_frame pkt_type OSSL_QUIC_FRAME_TYPE_NEW_CONN_ID).
  unfold outcome, process_conn_frame. rewrite Z.eqb_refl, Ert. apply wp_bind, wp_modify, wp_ret. pose proof Hd1 as [Hp (act & acc & gc & Hc) _ _ _]. cbn.
  assert (Hk : keep e (ch d) (set_raised (x :: raised (ch d1)) (ch d1))) by (rewrite <- E2; by eapply raised_keep).
  split; [eapply (keep_progress e); cbn; rewrite ?E1; [by rewrite <- E1|apply suffix_refl; rewrite <- E1; apply Hp|done|rewrite E2; by exists [x]]|].
  split; cbn; rewrite ?E1, ?E2, ?Ert; done.
Qed.

Lemma next_frame_ok e d : ready pk e d -> outcome e d d (next_frame pkt_type enc_level pk e).
Proof.
  intros Hd. pose proof Hd as [Hp Hc Hs Ho Hpk].
  unfold outcome, wp, next_frame, on_pkt. destruct (peek_header_run (pkt d) (proj1 Hp)) as (r & E & Hr). rewrite E.
  assert (Ed : set_pkt (pkt d) d = d) by (by destruct d). rewrite Ed. assert (Hv : conn_error OSSL_QUIC_ERR_PROTOCOL_VIOLATION) by (unfold conn_error; tauto).
  destruct r as [[ft b]| |]; [|by apply outcome_raise|done]. destruct b; cbn [negb]; [|by apply outcome_raise].
  set (d1 := if not_ack_eliciting ft then d else set_is_ack_eliciting true d).
  assert (E1 : pkt d1 = pkt d /\ ch d1 = ch d) by (unfold d1; by destruct (not_ack_eliciting ft)). destruct E1 as [E1 E2].
  rewrite (bind_ret (modify _) _ d tt d1) by done. clearbody d1.
  assert (Hd1 : ready pk e d1) by (split; rewrite ?E1, ?E2; eauto).
  destruct (Z.eq_dec ft OSSL_QUIC_FRAME_TYPE_PADDING) as [->|Hnp]; [by apply outcome_padding|].
  destruct (in_0rtt_1rtt pkt_type) eqn:Ert; [eapply outcome_frame; try done; [by left|apply process_frame_ok; auto]|].
  destruct (Z.eq_dec ft OSSL_QUIC_FRAME_TYPE_NEW_CONN_ID) as [->|Hnc]; [by apply outcome_new_conn_id|].
  eapply outcome_frame; try done; [by right|apply process_frame_ok; auto].
Qed.

(** The environments of the frames of a packet: each as a handler needs it, with
    addresses that are not given out twice. *)
Definition supplies (envs : nat -> env) (i : nat) (c : QUIC_CHANNEL) : Prop :=
  (forall j, (i <= j)%nat -> supply (envs j) 0 c) /\ (forall j, order_ok (envs j)) /\
  (forall j k m n p, m_stream (e_mem (envs j) m) = Some p -> m_stream (e_mem (envs k) n) = Some p -> j = k).

Lemma supplies_keep envs i c c' : supplies envs i c -> keep (envs i) c c' -> supplies envs (S i) c'.
Proof.
  intros (Hs & Ho & Hd) Hk. split_and!; try done. intros j Hj. destruct (Hs j ltac:(lia)) as [H1 H2]. split; [|done].
  intros m Hm p Hp. destruct (H1 m Hm p Hp) as [Hf Hlt]. split; [|done]. apply (kp_fresh _ _ _ Hk); [done|].
  intros n Hn. specialize (Hd _ _ _ _ _ Hp Hn). lia.
Qed.

Lemma loop_ok envs fuel : forall i d, pkt_ok (pkt d) -> (exists act acc gc, chan_inv act acc gc (ch d)) -> supplies envs i (ch d) ->
  0 < slack (qsm (ch d)) pk -> remaining (pkt d) <= Z.of_nat fuel ->
  wp (process_loop pkt_type enc_level pk envs fuel i) d
    (fun r d' => progress d d' /\ match r with None => remaining (pkt d') = 0 /\ raised (ch d') = raised (ch d) | Some ft => stops_at ft d d' end)
    (fun d' => progress d d' /\ has_raised d d').
Proof.
  induction fuel as [|fuel IH]; intros i d Hp Hc Hs Hpk Hf; cbn [process_loop]; unfold wp;
    rewrite (bind_ret (on_pkt PACKET_remaining) _ d (remaining (pkt d)) d) by (by destruct d);
    pose proof (ok_rem _ (proj1 Hp)) as [Hr0 _]; destruct (Z.ltb_spec 0 (remaining (pkt d))) as [Hlt|Hge].
  1: lia.
  1, 3: assert (Hrefl : progress d d) by (split; try done; [apply suffix_refl; lia|intros p s ?; exists s; by split|by exists []]);
    (split_and!; [done|lia|done]).
  apply wp_bind. pose proof Hs as (Hs1 & Ho & _). eapply wp_mono; [apply (next_frame_ok (envs i) d)| |done].
  { split; try done. by apply Hs1. }
  intros [ft|] d1; [intros H; by apply wp_ret|]. intros (Hpg & Hk & Hdec & Hra). pose proof Hpg as [P1 _ P3 P4 _ _ _].
  eapply wp_mono; [apply (IH (S i) d1); try done| |].
  - by eapply supplies_keep.
  - specialize (P4 pk). lia.
  - lia.
  - intros r d2 (Hpg2 & H2). split; [by eapply progress_trans|]. destruct r as [ft|]; [|by rewrite <- Hra]. destruct H2. split; [done|done|by rewrite <- Hra].
  - intros d2 (Hpg2 & x & Hx & Ex). split; [by eapply progress_trans|]. exists x. by rewrite <- Hra.
Qed.
End Process.

(** What a packet, or what is left of one, leads to. *)
Definition depacked (pkt_type : Z) (d : DEPACK) (x : res (option Z) * DEPACK) : Prop :=
  progress d x.2 /\
  match x.1 with
  | Ret None => remaining (pkt x.2) = 0 /\ raised (ch x.2) = raised (ch d)
  | Ret (Some ft) => stops_at pkt_type ft d x.2
  | Err => has_raised d x.2
  | Undef => False
  end.

Lemma rest_processed pkt_type enc_level pk envs d :
  pkt_ok (pkt d) -> (exists act acc gc, chan_inv act acc gc (ch d)) -> supplies envs 0 (ch d) -> 0 < slack (qsm (ch d)) pk ->
  depacked pkt_type d (process_loop pkt_type enc_level pk envs (Z.to_nat (remaining (pkt d))) 0 d).
Proof.
  intros Hp Hc Hs Hpk. pose proof (ok_rem _ (proj1 Hp)) as [Hr0 _].
  pose proof (loop_ok pkt_type enc_level pk envs (Z.to_nat (remaining (pkt d))) 0 d Hp Hc Hs Hpk ltac:(lia)) as H.
  unfold depacked, wp in *. by destruct (process_loop _ _ _ _ _ _ d) as [[[]| |] d'].
Qed.

Lemma packet_processed pkt_type enc_level pk envs d :
  pkt_ok (pkt d) -> (exists act acc gc, chan_inv act acc gc (ch d)) -> supplies envs 0 (ch d) -> 0 < slack (qsm (ch d)) pk ->
  depacked pkt_type d (depack_process_frames pkt_type enc_level pk envs d).
Proof.
  intros Hp Hc Hs Hpk. pose proof (ok_rem _ (proj1 Hp)) as [Hr0 _].
  unfold depack_process_frames. rewrite (bind_ret (on_pkt PACKET_remaining) _ d (remaining (pkt d)) d) by (by destruct d).
  destruct (Z.eqb_spec (remaining (pkt d)) 0) as [Hz|Hnz]; [|by apply rest_processed]. destruct Hc as (act & acc & gc & Hc).
  split; cbn; [|eexists; split; [|reflexivity]; unfold conn_error; cbn; tauto].
  eapply (keep_progress (envs 0%nat)); cbn; [done|by apply suffix_refl|by eapply raised_keep|by eexists [_]].
Qed.

(** C6: whatever bytes the peer puts in a packet, [depack_process_frames] ends
    (the number of bytes is enough fuel for the loop) without undefined
    behaviour: no assertion fails, no pointer is invalid and nothing outside the
    packet is read, up to the end of the packet or to the first ACK, CRYPTO, NEW_CONNECTION_ID,
    PATH_CHALLENGE, CONNECTION_CLOSE or HANDSHAKE_DONE frame, which is left to its handler with the packet still at it.
    The channel it leaves is well formed, every stream is still
    there and has followed the state machines of RFC 9000, no packet reference
    is lost.  When it fails exactly one protocol error has been raised, with one of the
    codes of RFC 9000 that the handlers use; when the packet has been consumed none has been
    raised; when a frame is passed on none has been raised either, except for a NEW_CONNECTION_ID frame in a packet that must not carry
    one, which is passed on with the error raised.  The same is true of the loop on what is left of the
    packet after such a frame. *)
Theorem depack_packet_robust pkt_type enc_level pk envs d :
  pkt_ok (pkt d) -> (exists act acc gc, chan_inv act acc gc (ch d)) -> supplies envs 0 (ch d) -> 0 < slack (qsm (ch d)) pk ->
  depacked pkt_type d (depack_process_frames pkt_type enc_level pk envs d) /\
  depacked pkt_type d (process_loop pkt_type enc_level pk envs (Z.to_nat (remaining (pkt d))) 0 d).
Proof. intros Hp Hc Hs Hpk. split; [by apply packet_processed|by apply rest_processed]. Qed.

(** C9: the stream a frame names is found or opened as RFC 9000 s. 2.1 and 3
    demand.  A known stream is returned.  A stream of our own that we have not
    opened is a STREAM_STATE_ERROR, one we have closed is ignored.  A stream of
    the peer's beyond the limit we gave is a STREAM_LIMIT_ERROR and opens
    nothing; below it, it is opened with every stream of its type that comes
    before it, in order and each once, or ignored when it was opened before;
    the only other outcome is an INTERNAL_ERROR, when there is no memory. *)
Theorem implicit_stream_creation e sid ft c act acc gc :
  chan_inv act acc gc c -> supply e 0 c -> vint sid ->
  let run := depack_do_implicit_stream_create e sid ft c in let ord := Z.shiftr sid 2 in let next := next_remote (id_uni sid) c in
  match table (qsm c) !! sid with
  | Some p => run = (Ret (Some p), c)
  | None =>
      if id_local c sid then
        run = if ch_get_local_stream_next_ordinal_ptr c (id_uni sid) <=? ord
              then (Err, set_raised ((OSSL_QUIC_ERR_STREAM_STATE_ERROR, ft) :: raised c) c) else (Ret None, c)
      else exists a r, ch_get_remote_stream_count_rxfc c (id_uni sid) = Some a /\ rxfcs (qsm c) !! a = Some r /\
        exists c', keep e c c' /\
        if bool_decide (Rxfc.error_code r = 0 /\ ord < Rxfc.cwm r) then
          run = (Err, c') /\ raised c' = (OSSL_QUIC_ERR_INTERNAL_ERROR, ft) :: raised c /\ (exists i, mem_fails (e_mem e i)) \/
          raised c' = raised c /\ next_remote (id_uni sid) c' = Z.max next (ord + 1) /\
          (forall j, next <= j <= ord -> opened c' (sibling sid j)) /\
          (if next <=? ord then exists p s, run = (Ret (Some p), c') /\ heap (qsm c') !! p = Some s /\ id s = sid
           else run = (Ret None, c') /\ heap (qsm c') = heap (qsm c))
        else run = (Err, c') /\ raised c' = (OSSL_QUIC_ERR_STREAM_LIMIT_ERROR, ft) :: raised c /\ heap (qsm c') = heap (qsm c)
  end.
Proof.
  intros Hc Hsup Hsid. cbn zeta. destruct (table (qsm c) !! sid) as [p|] eqn:Et; [|destruct (id_local c sid) eqn:El].
  1, 2: unfold depack_do_implicit_stream_create; rewrite (bind_ret get _ c c c) by done; unfold ossl_quic_stream_map_get_by_id; rewrite Et;
    try done; rewrite remote_role, El; cbn [negb]; fold (id_uni sid); by destruct (_ <=? _).
  destruct (counter_here c act acc gc (id_uni sid) Hc) as (a & r & Ea & Er & Hok). exists a, r. split_and!; [done|done|].
  destruct (implicit_remote_run e sid ft c act acc gc a r) as (r' & Hcf & Hc1 & Hk1 & E); try done. rewrite E.
  set (X := fun x : Z * Z => x = (OSSL_QUIC_ERR_INTERNAL_ERROR, ft) /\ exists i, mem_fails (e_mem e i)).
  assert (H : fine e X (create_streams e sid ft (id_uni sid) (Z.to_nat (Z.shiftr sid 2 + 1 - next_remote (id_uni sid) c)) 0 None)
    (counted_chan a r' c) (created sid None (counted_chan a r' c))).
  { eapply fine_create_streams; [by apply vint_62|intros i Hi; split; eauto|exact Hc1| |exact El|done]. apply supply_count; eauto. }
  destruct (Z.eqb_spec (Rxfc.error_code r') 0) as [E0|Hne].
  - rewrite bool_decide_eq_true_2.
    2: { destruct (cf_clean _ _ _ _ Hcf E0) as [? _]. pose proof (cf_limit _ _ _ _ Hcf Hok E0). split; [done|lia]. }
    unfold fine, wp in H. destruct (create_streams _ _ _ _ _ _ _ _) as [[res| |] c2]; [| |done]; exists c2.
    + destruct H as (Hk2 & Hr2 & Hn & Hop & Hres). split; [by eapply keep_trans|]. right. split_and!; try done.
      change (next_remote (id_uni sid) (counted_chan a r' c)) with (next_remote (id_uni sid) c) in Hres.
      destruct (_ <=? _); [|by destruct Hres as [-> ->]]. destruct Hres as (p & s & -> & Hp & Hid & _). by exists p, s.
    + destruct H as (Hk2 & x & [-> Hi] & Hr2). split; [by eapply keep_trans|]. by left.
  - rewrite bool_decide_eq_false_2.
    2: { intros [E0 Hlt]. apply Hne. apply (cf_within _ _ _ _ Hcf); try done. lia. }
    eexists. split; [|split; [reflexivity|done]]. eapply keep_trans; [exact Hk1|by eapply raised_keep].
Qed.
End RxDepackSpec.
