(* ===== verification/ChanLife.v ===== *)
(** * The life of a channel's streams

    A channel begins with no streams ([begins]); after that streams are opened by
    the application and by the peer, packets arrive, the application writes, ends and
    accepts streams, data of the send buffers is sent, acknowledged and lost, and the operations of the stream map are called on streams
    ([step]).  [reachable] are the channels all of this leads to, and the
    invariant of [StreamChan] holds in every one of them. *)
From Stdlib Require Import ZArith Lia.
From stdpp Require Import base tactics option gmap sorting.
From S2P Require Import Prelude OsslTime Packet QuicFc SfList RStream SStream CList StreamMap StreamMapInv StreamMapSpec StreamChan.
From S2P Require Import RxDepack RxDepackInv RxDepackSpec.
#[local] Open Scope Z_scope.
Import Packet CList StreamMap StreamMapInv StreamMapSpec StreamChan RxDepack RxDepackInv RxDepackSpec.

Module ChanLife.

(** A channel as it is created: no streams yet, the connection's controllers and
    those that count streams in place. *)
Record begins (c : QUIC_CHANNEL) : Prop := {
  bg_map : exists cb arg bidi uni tx rx pk, qsm c = ossl_quic_stream_map_init cb arg bidi uni (ch_is_server c) tx rx pk;
  bg_tx : exists t, txfcs (qsm c) !! conn_txfc c = Some t /\ Txfc.parent t = None /\ Txfc.txfc_ok t;
  bg_rx : exists r, rxfcs (qsm c) !! conn_rxfc c = Some r /\ Rxfc.parent r = None /\ Rxfc.standalone r = false;
  bg_count : counter_ok c (max_streams_bidi_rxfc (qsm c)) /\ counter_ok c (max_streams_uni_rxfc (qsm c));
  bg_pkts k : 0 <= SfList.rcount (qpkts (qsm c)) k;
  bg_params : params_ok c;
  bg_nexts : next_local_stream_ordinal_bidi c = 0 /\ next_local_stream_ordinal_uni c = 0 /\
             next_remote_stream_ordinal_bidi c = 0 /\ next_remote_stream_ordinal_uni c = 0
}.

Lemma begins_inv c : begins c -> chan_inv [] [] [] c.
Proof.
  intros [(cb & arg & bidi & uni & tx & rx & pk & Eq) Ht (r & Er & Hr1 & Hr2) Hc Hp Hpa (N1 & N2 & N3 & N4)].
  assert (Hh : heap (qsm c) = ∅) by (by rewrite Eq). split; rewrite ?Hh; try done; try lia.
  - rewrite Eq in *. split; [split; cbn; try done|done]; try apply rep_init;
      try (intros p; split; [by intros ?%elem_of_nil|by intros (? & ? & ?)]); try (by intros p ?%elem_of_nil).
  - by rewrite Eq.
  - split; [done|]. eauto.
  - eauto.
  - by intros p [s ?].
Qed.

(** ** Steps *)

(** The packet that arrives at the address [pk], with one reference: its
    receiver's. *)
Definition arrives (pk : nat) (c : QUIC_CHANNEL) : QUIC_CHANNEL := set_qsm (set_qpkts (<[pk := 1]> (qpkts (qsm c))) (qsm c)) c.

(** What is done to the send buffer of a stream: the application appends data and ends the
    stream, the packetiser sends ranges, and the dispatcher marks them acknowledged and lost. *)
Inductive send_op :=
  | Append (alloc : bool) (buf : list Z) | EndStream
  | Transmitted (lo hi : Z) | TransmittedFin (final_size : Z)
  | Acked (alloc : bool) (lo hi : Z) | AckedFin
  | Lost (alloc : bool) (lo hi : Z) | LostFin.

Definition send_exec (o : send_op) : M SStream.QUIC_SSTREAM unit :=
  match o with
  | Append alloc buf => SStream.ossl_quic_sstream_append alloc buf (Z.of_nat (length buf));; mret tt
  | EndStream => SStream.ossl_quic_sstream_fin
  | Transmitted lo hi => SStream.ossl_quic_sstream_mark_transmitted true lo hi
  | TransmittedFin n => SStream.ossl_quic_sstream_mark_transmitted_fin n
  | Acked alloc lo hi => SStream.ossl_quic_sstream_mark_acked alloc lo hi
  | AckedFin => SStream.ossl_quic_sstream_mark_acked_fin
  | Lost alloc lo hi => SStream.ossl_quic_sstream_mark_lost alloc lo hi
  | LostFin => SStream.ossl_quic_sstream_mark_lost_fin
  end.
Definition send_legal (o : send_op) (ss : SStream.QUIC_SSTREAM) : Prop :=
  match o with
  | Append _ buf => Z.of_nat (length buf) < 2 ^ 63
  | Transmitted lo hi => 0 <= lo <= hi /\ hi < UINT64_MOD
  | Acked _ lo hi | Lost _ lo hi => 0 <= lo <= hi /\ forall k, lo <= k <= hi -> SStream.in_flight ss k
  | _ => True
  end.

Definition on_sstream {A} (p : nat) (m : M SStream.QUIC_SSTREAM A) : M QUIC_STREAM_MAP A :=
  s ← deref p;
  ss ← lift_opt (sstream s);
  let '(r, ss') := m ss in
  upd p (set_sstream (Some ss'));; lift_res r.

(** The receiver drops its reference. *)
Definition released (pk : nat) (c : QUIC_CHANNEL) : QUIC_CHANNEL :=
  set_qsm (set_qpkts (SfList.ossl_qrx_pkt_release (Some pk) (SfList.ossl_sframe_list_init, qpkts (qsm c))).2.2 (qsm c)) c.

(** Calls that only the arrival of a frame leads to. *)
Definition from_frames (o : op) : bool :=
  match o with NotifySizeKnown _ | NotifyResetRecvPart _ _ => true | _ => false end.

Inductive step (c : QUIC_CHANNEL) : QUIC_CHANNEL -> Prop :=
| StepOpen m is_uni : mem_ok m c -> step c (ossl_quic_channel_new_stream_local m is_uni c).2
| StepOp o p : is_Some (heap (qsm c) !! p) -> from_frames o = false -> step c (on_qsm (exec o p) c).2
| StepSend o p s ss : heap (qsm c) !! p = Some s -> sstream s = Some ss -> send_legal o ss ->
    step c (on_qsm (on_sstream p (send_exec o)) c).2
| StepAccept ck rtt p s fc r : is_Some (accept_list (qsm c) !! Some p) -> heap (qsm c) !! p = Some s -> counted (qsm c) s fc r ->
    step c (on_qsm (ossl_quic_stream_map_remove_from_accept_queue ck p rtt) c).2
| StepPacket pkt_type enc_level pk envs pkt f a :
    qpkts (qsm c) !! pk = None -> pkt_ok pkt -> supplies envs 0 (arrives pk c) ->
    step c (ch (depack_process_frames pkt_type enc_level pk envs (mkD pkt (arrives pk c) f a)).2)
| StepRest pkt_type enc_level pk envs pkt f a :
    0 < slack (qsm c) pk -> pkt_ok pkt -> supplies envs 0 c ->
    step c (ch (process_loop pkt_type enc_level pk envs (Z.to_nat (remaining pkt)) 0 (mkD pkt c f a)).2)
| StepRelease pk : 0 < slack (qsm c) pk -> step c (released pk c).

Inductive reachable : QUIC_CHANNEL -> Prop :=
| ReachBegin c : begins c -> reachable c
| ReachStep c c' : reachable c -> step c c' -> reachable c'.

(** ** The invariant is kept *)

Definition well_formed (c : QUIC_CHANNEL) : Prop := exists act acc gc, chan_inv act acc gc c.

(** Changing the counters of packets that no stream needs. *)
Lemma pkts_inv act acc gc c pk : chan_inv act acc gc c -> (forall k, msum (held_refs k) (heap (qsm c)) <= SfList.rcount pk k) ->
  chan_inv act acc gc (set_qsm (set_qpkts pk (qsm c)) c).
Proof.
  intros [[[] Hss] H2 [H3 H3'] H4 H5 [H6 H6'] H7 H8 H9 H10] Hpk. split; try done.
  intros p s Hp. destruct (H10 p s Hp). by split.
Qed.

Lemma arrives_inv act acc gc c pk : chan_inv act acc gc c -> qpkts (qsm c) !! pk = None ->
  chan_inv act acc gc (arrives pk c) /\ 0 < slack (qsm (arrives pk c)) pk.
Proof.
  intros Hc Hpk. pose proof (l_pkts _ _ _ _ (i_links _ _ _ _ _ (ci_map _ _ _ _ Hc))) as Hl.
  assert (H0 : msum (held_refs pk) (heap (qsm c)) <= 0) by (rewrite (Hl pk); unfold SfList.rcount; by rewrite Hpk).
  split.
  - apply pkts_inv; [done|]. intros k. destruct (decide (k = pk)) as [->|Hne].
    + unfold SfList.rcount. rewrite lookup_insert_eq. cbn. lia.
    + rewrite (Hl k). unfold SfList.rcount. by rewrite lookup_insert_ne.
  - unfold slack, SfList.rcount. cbn. rewrite lookup_insert_eq. cbn. lia.
Qed.

Lemma released_inv act acc gc c pk : chan_inv act acc gc c -> 0 < slack (qsm c) pk -> chan_inv act acc gc (released pk c).
Proof.
  intros Hc Hs. pose proof (l_pkts _ _ _ _ (i_links _ _ _ _ _ (ci_map _ _ _ _ Hc))) as Hl. unfold slack in Hs.
  pose proof (msum_nonneg (held_refs pk) (heap (qsm c)) (held_refs_nonneg pk)) as Hge.
  unfold released. apply pkts_inv; [done|]. intros k.
  destruct (SfList.release_ok (Some pk) SfList.ossl_sframe_list_init (qpkts (qsm c))) as (rc & -> & Hrc).
  { intros q [= <-]. lia. }
  cbn [snd]. rewrite Hrc. specialize (Hl k). case_decide as E; [injection E as <-|]; lia.
Qed.

Lemma send_exec_ok o d ss : SStream.ss_ok d ss -> send_legal o ss ->
  exists r ss' d', send_exec o ss = (r, ss') /\ r <> Undef /\ SStream.ss_ok d' ss' /\ (SStream.have_final_size ss = true -> SStream.have_final_size ss' = true).
Proof.
  intros Hd Hl. destruct o as [alloc buf| |lo hi|n|alloc lo hi| |alloc lo hi|]; cbn [send_exec send_legal] in *.
  - destruct (SStream.append_ok d ss alloc buf Hd Hl) as (r & ss' & E & Hfs & _ & _ & Hr). unfold mbind, M_bind. rewrite E.
    destruct Hr as [(-> & _ & Hd' & _)|(-> & Hd' & _)]; (eexists _, ss', _; split_and!; [reflexivity|done|exact Hd'|by rewrite Hfs]).
  - unfold SStream.ossl_quic_sstream_fin. rewrite (bind_ret get _ ss ss ss) by done. destruct (SStream.have_final_size ss) eqn:Ef; (eexists _, _, d; split_and!; [reflexivity|done| |done]); [done|].
    destruct Hd. by split.
  - destruct Hl as [Hlo Hhi]. destruct (SStream.transmitted_ok d ss lo hi Hd Hlo Hhi) as (s' & E & Hd' & _). by eexists _, _, d.
  - unfold SStream.ossl_quic_sstream_mark_transmitted_fin. rewrite (bind_ret get _ ss ss ss) by done.
    destruct (SStream.have_final_size ss && _) eqn:Eg; [rewrite guard_true by done|rewrite guard_false by done]; (eexists _, _, d; split_and!; [reflexivity|done| |done]); [|done].
    destruct Hd. by split.
  - destruct Hl as [Hlo Hf]. destruct (SStream.acked_ok d ss alloc lo hi Hd Hlo Hf) as (r & ss' & E & Hr & Hd' & _ & _ & Hfs & _). exists r, ss', d. split_and!; try done. by rewrite Hfs.
  - unfold SStream.ossl_quic_sstream_mark_acked_fin. rewrite (bind_ret get _ ss ss ss) by done.
    destruct (SStream.have_final_size ss) eqn:Eg; [rewrite guard_true by done|rewrite guard_false by done]; (eexists _, _, d; split_and!; [reflexivity|done| |done]); [|done].
    destruct Hd. by split.
  - destruct Hl as [Hlo Hf]. destruct (SStream.lost_ok d ss alloc lo hi Hd Hlo Hf) as (r & s' & E & Hr & Hd' & _). by eexists r, _, d.
  - unfold SStream.ossl_quic_sstream_mark_lost_fin. rewrite (bind_ret get _ ss ss ss) by done.
    destruct (negb (SStream.acked_final_size ss)) eqn:Eg; [rewrite guard_true by done|rewrite guard_false by done]; (eexists _, _, d; split_and!; [reflexivity|done| |done]); [|done].
    destruct Hd. by split.
Qed.

Lemma send_inv act acc gc c o p s ss : chan_inv act acc gc c -> heap (qsm c) !! p = Some s -> sstream s = Some ss -> send_legal o ss ->
  chan_inv act acc gc (on_qsm (on_sstream p (send_exec o)) c).2.
Proof.
  intros Hc Hp Es Hl. destruct (inv_open _ _ _ _ _ _ (ci_map _ _ _ _ Hc) Hp) as [Hat Hok]. destruct (so_buf _ _ Hok ss Es) as [d Hd].
  destruct (send_exec_ok o d ss Hd Hl) as (r & ss' & d' & E & _ & Hd' & Hfs).
  assert (Hok' : forall b, stream_ok b s -> stream_ok b (set_sstream (Some ss') s)).
  { intros b []. split; try done; cbn.
    - by rewrite Es in so_sstream0.
    - intros x [= <-]. eauto.
    - intros Hdel. specialize (so_deleted0 Hdel). destruct (send_state s); try done. destruct so_deleted0 as (ss0 & n & E0 & En).
      rewrite Es in E0. injection E0 as <-. exists ss', (RingBuf.RingBuf.head_offset (SStream.ring ss')). split; [done|].
      unfold SStream.ossl_quic_sstream_get_final_size in *. destruct (SStream.have_final_size ss); [by rewrite Hfs|done]. }
  pose proof (fine_upd (mkEnv (fun _ => mkMem None false false false false) false (fun _ => [])) (fun _ => True) p
    (set_sstream (Some ss')) s c act acc gc (fun _ c' => chan_inv act acc gc c') Hc Hp ltac:(by split) Hok' eq_refl eq_refl eq_refl
    ltac:(done)) as Hu.
  unfold fine, wp, on_qsm in *. unfold on_sstream.
  rewrite (bind_ret (deref p) _ (qsm c) s (qsm c)) by (unfold deref; by rewrite Hp). rewrite Es. cbn [lift_opt].
  rewrite (bind_ret (mret ss) _ (qsm c) ss (qsm c)) by done. rewrite E.
  destruct (upd p (set_sstream (Some ss')) (qsm c)) as [[[]| |] q'] eqn:Eu; cbn in Hu; [| |done].
  2: { destruct Hu as (_ & x & _ & Hx). apply (f_equal length) in Hx. cbn in Hx. lia. }
  rewrite (bind_ret _ _ _ tt q' Eu). apply Hu.
Qed.

(** Giving the peer one more stream. *)
Lemma retire_step ck r n m rtt r' ck' : Rxfc.rxfc_ok r -> is_u64 m -> Rxfc.rxfc_on_retire ck r n m rtt = (r', ck') -> rx_step r r'.
Proof.
  intros Hok Hm E. destruct (Rxfc.on_retire_spec ck r n m rtt r' ck' Hok Hm E) as (Hok' & _ & Hs & _).
  destruct (retire_fields _ _ _ _ _ _ _ E) as (H2 & H1 & H3 & H4 & H5). split; try congruence.
  - lia.
  - intros. split; congruence.
  - unfold rx_errors. by rewrite H5.
  - intros (K1 & K2 & K3 & K4 & K5). unfold count_ok. rewrite H1, H2, H3, H4, H5, Hs. split_and!; done.
Qed.

(** The queue of a channel, with counters that agree with it. *)
Lemma accept_inv act acc acc' gc c q' : chan_inv act acc gc c -> inv None act acc' gc q' -> heap q' = heap (qsm c) ->
  rxfcs q' = rxfcs (qsm c) -> accepted_frame (qsm c) q' -> chan_inv act acc' gc (set_qsm q' c).
Proof.
  intros [Hi H2 [H3 H3'] H4 H5 [H6 H6'] H7 H8 H9 H10] Hi' Hh Hr (F1 & F2 & F3 & F4 & F5 & F6).
  assert (Hcnt : forall fc, counter_ok c fc -> counter_ok (set_qsm q' c) fc) by (unfold counter_ok; cbn; by rewrite Hh, Hr).
  split; cbn; rewrite ?Hh, ?Hr, ?F2, ?F4, ?F5, ?F6; auto.
  - split; cbn; by rewrite ?Hr, ?F2.
  - intros p s Hp. destruct (H10 p s Hp). split; cbn; by rewrite ?Hr, ?F2.
Qed.

Lemma accepted_inv ck rtt act a b gc c p s fc r : chan_inv act (a ++ p :: b) gc c -> heap (qsm c) !! p = Some s -> counted (qsm c) s fc r ->
  chan_inv act (a ++ b) gc (on_qsm (ossl_quic_stream_map_remove_from_accept_queue ck p rtt) c).2.
Proof.
  intros Hc Hp Hcnt. pose proof Hcnt as (_ & Er & _ & Hok & _).
  destruct (remove_accept_ok ck rtt _ _ _ _ _ _ _ _ _ (ci_map _ _ _ _ Hc) Hp Hcnt) as (q' & r' & E & Hi' & Hh & Hrx & Hf & Hr' & _).
  unfold on_qsm. rewrite E. cbn [snd].
  assert (Hst : rx_step r r').
  { destruct Hr' as [->|[ck' Hr']]; [apply rx_step_refl|]. eapply retire_step; [done| |done]. unfold is_u64. lia. }
  destruct (chan_rxfcs (mkEnv (fun _ => mkMem None false false false false) false (fun _ => [])) act (a ++ p :: b) gc c
    (<[fc := r']> (rxfcs (qsm c))) Hc) as [Hc1 _].
  - intros k rk Hk. rewrite lookup_insert. case_decide; [|exists rk; split; [done|apply rx_step_refl]]. subst k.
    exists r'. split; [done|]. congruence.
  - intros k Hk. rewrite lookup_insert_ne by congruence. done.
  - by eapply (accept_inv act (a ++ p :: b) (a ++ b) gc _ q' Hc1).
Qed.

Lemma wp_after {S A} (m : M S A) s (P : S -> Prop) : wp m s (fun _ => P) P -> P (m s).2.
Proof. unfold wp. by destruct (m s) as [[] ?]. Qed.

Lemma step_inv c c' : well_formed c -> step c c' -> well_formed c'.
Proof.
  intros (act & acc & gc & Hc) Hs. destruct Hs as [m is_uni Hm|o p [s Hp] Ho|o p s ss Hp Hss Hl|ck rtt p s fc r Hin Hp Hcnt|
    pt el pk envs pkt f a Hpk Hok Hsup|pt el pk envs pkt f a Hpk Hok Hsup|pk Hpk].
  - apply wp_after. eapply new_local_ok; [done|done| |]; intros; by eexists _, _, _.
  - apply wp_after. eapply wp_chan_op; [done|done|by destruct o| |]; intros; by eexists _, _, _.
  - eexists _, _, _. by eapply send_inv.
  - rewrite <- (rep_linked acc) in Hin by apply (ci_map _ _ _ _ Hc). apply list_elem_of_split in Hin as (a & b & ->). eexists _, _, _. by eapply accepted_inv.
  - destruct (arrives_inv _ _ _ _ pk Hc Hpk) as [Hc1 Hsl].
    apply (pg_inv _ _ (proj1 (packet_processed pt el pk envs (mkD pkt (arrives pk c) f a) Hok ltac:(by eexists _, _, _) Hsup Hsl))).
  - apply (pg_inv _ _ (proj1 (rest_processed pt el pk envs (mkD pkt c f a) Hok ltac:(by eexists _, _, _) Hsup Hpk))).
  - eexists _, _, _. by apply released_inv.
Qed.

Lemma channel_reachable_inv c : reachable c -> well_formed c.
Proof. induction 1 as [c Hb|c c' _ IH Hs]; [eexists _, _, _; by apply begins_inv|by eapply step_inv]. Qed.

Lemma init_by_id c s : as_server s = ch_is_server c -> type s = Z.land (id s) 3 ->
  ossl_quic_stream_is_local_init s = id_local c (id s) /\ ossl_quic_stream_is_bidi s = negb (id_uni (id s)).
Proof.
  intros Hs Ht. unfold ossl_quic_stream_is_local_init, ossl_quic_stream_is_server_init, ossl_quic_stream_is_bidi, id_local, id_uni.
  destruct (land3 (id s)) as (_ & E1 & E2). rewrite Ht, Hs, E1, E2. split; [done|]. by destruct (land2 (id s)) as [->| ->].
Qed.

Lemma holders_pos l f k : f ∈ l -> SfList.pkt f = Some k -> 0 < SfList.holders l k.
Proof.
  intros Hf Hk. apply list_elem_of_split in Hf as (a & b & ->).
  pose proof (SfList.holders_nonneg a k). pose proof (SfList.holders_nonneg b k).
  rewrite SfList.holders_app, SfList.holders_cons, decide_True by done. lia.
Qed.

(** C7: in every channel that is reached by the application opening, writing, ending and
    accepting streams, by the frames about streams and limits of the packets that arrive (whatever bytes they hold), by data being sent,
    acknowledged and lost, and by the operations of the stream map, in any order, each stream is what its identifier says: the
    two low bits are its type; it has a sending part exactly when it is ours or
    bidirectional and a receiving part exactly when it is the peer's or
    bidirectional; its ordinal has been given out; it has a send buffer exactly
    in the states in which data may still have to be sent again and a receive
    buffer exactly in those in which data may still have to be read; the hash
    table finds it under its identifier only; and every packet that its receive
    buffer refers to is still allocated. *)
Theorem channel_streams_typed c p s : reachable c -> heap (qsm c) !! p = Some s ->
  type s = Z.land (id s) 3 /\
  ossl_quic_stream_has_send s = id_local c (id s) || negb (id_uni (id s)) /\
  ossl_quic_stream_has_recv s = negb (id_local c (id s)) || negb (id_uni (id s)) /\
  0 <= Z.shiftr (id s) 2 < next_ordinal c (id s) /\
  (sstream s <> None <-> send_state s = SSTREAM_READY \/ send_state s = SSTREAM_SEND \/ send_state s = SSTREAM_DATA_SENT) /\
  (rstream s <> None <-> recv_state s = RSTREAM_RECV \/ recv_state s = RSTREAM_SIZE_KNOWN \/ recv_state s = RSTREAM_DATA_RECVD) /\
  (forall i, table (qsm c) !! i = Some p -> i = id s) /\
  (forall rs f k, rstream s = Some rs -> f ∈ SfList.frames (RStream.fl rs) -> SfList.pkt f = Some k ->
     0 < SfList.rcount (qpkts (qsm c)) k).
Proof.
  intros Hr Hp. destruct (channel_reachable_inv c Hr) as (act & acc & gc & Hc). pose proof (ci_map _ _ _ _ Hc) as [[] Hss].
  destruct (ci_streams _ _ _ _ Hc p s Hp) as [_ _ Hty Hid]. destruct (Hss p s Hp ltac:(done)) as [].
  destruct (init_by_id c s) as [E1 E2]; [by rewrite so_server0; apply Hc|done|]. rewrite E1, E2 in *.
  split_and!; try done; try lia.
  - unfold ossl_quic_stream_has_send_buffer in *. destruct (sstream s), (send_state s); cbn in *; intuition congruence.
  - unfold ossl_quic_stream_has_recv_buffer in *. destruct (rstream s), (recv_state s); cbn in *; intuition congruence.
  - intros i Hi. destruct (l_table0 i p Hi) as (s' & Hs' & <-). congruence.
  - intros rs f k Hrs Hf Hk. eapply Z.lt_le_trans; [|apply l_pkts0].
    eapply Z.lt_le_trans; [|exact (msum_ge (held_refs k) _ p s (held_refs_nonneg k) Hp)].
    unfold held_refs. rewrite Hrs. by eapply holders_pos.
Qed.
End ChanLife.
