(* ===== verification/StreamSample.v ===== *)
(** * A server channel at work

    A channel with an empty stream map, the channels after the application has
    opened a stream and reset it and after the peer has opened one with a packet,
    on which the theorems about streams are applied; and the three places where
    processing a packet does not do what it should. *)
From Stdlib Require Import ZArith Lia.
From stdpp Require Import base tactics option gmap sorting.
From S2P Require Import Prelude OsslTime Packet QuicWire QuicFc SfList RStream SStream CList StreamMap StreamMapInv StreamMapSpec StreamChan.
From S2P Require Import RxDepack RxDepackInv RxDepackSpec ChanLife.
#[local] Open Scope Z_scope.
Import Packet QuicWire CList StreamMap StreamMapInv StreamMapSpec StreamChan RxDepack RxDepackInv RxDepackSpec ChanLife.

Module StreamSample.

(** The connection's controllers at 1 and 2, with [window] bytes to receive; the
    controllers that count streams at 3 and 4. *)
Definition sample_tx : Txfc.store := {[ 1%nat := Txfc.mkTxfc None 0 1000 false ]}.
Definition counter (n : Z) : Rxfc.QUIC_RXFC := Rxfc.mkRxfc n 0 0 0 0 n n 0 None 0 false false true.
Definition sample_rx (window : Z) : Rxfc.store :=
  <[ 2%nat := Rxfc.mkRxfc window 0 0 0 0 window 1000 0 None 0 false false false ]> (<[ 3%nat := counter 2 ]> {[ 4%nat := counter 2 ]}).
Definition sample_ch (window : Z) : QUIC_CHANNEL :=
  mkCh (ossl_quic_stream_map_init (Some get_stream_limit) (4, 4) (Some 3%nat) (Some 4%nat) true sample_tx (sample_rx window) ∅)
    true 1 2 0 0 0 0 true 500 500 500 100 100 100 false 0 [].

Lemma sample_begins w : begins (sample_ch w).
Proof.
  assert (Hc : count_ok (counter 2)) by (split_and!; try done; unfold Rxfc.rxfc_ok, is_u64; cbn; lia).
  split; cbn; try lia; try done.
  - by eexists _, _, _, _, _, _, _.
  - eexists. by split.
  - by eexists.
  - split; [exists 3%nat, (counter 2)|exists 4%nat, (counter 2)]; by split_and!.
Qed.

(** Memory for one stream, at the address 20. *)
Definition enough : mem := mkMem (Some 20%nat) true true true true.
Definition no_mem : mem := mkMem None false false false false.

Lemma enough_ok w : mem_ok enough (sample_ch w).
Proof. intros p [= <-]. by split_and!. Qed.

(** The application opens a bidirectional stream, and resets it. *)
Definition opened_ch : QUIC_CHANNEL := (ossl_quic_channel_new_stream_local enough false (sample_ch 50)).2.
Definition reset_ch : QUIC_CHANNEL := (on_qsm (exec (ResetStreamSendPart 7) 20) opened_ch).2.

(** The peer's packet: three bytes on its first stream, and padding. *)
Definition sample_pkt : PACKET := mkPacket [0x0a; 0; 3; 1; 2; 3; 0; 0] 8.
Definition sample_envs (j : nat) : env :=
  mkEnv (fun i => if decide (j + i = 0)%nat then enough else no_mem) true (fun t => (map_to_list t).*2).
Definition sample_d (w : Z) : DEPACK := mkD sample_pkt (arrives 7 (sample_ch w)) 0 false.
Definition received (w : Z) : res (option Z) * DEPACK :=
  depack_process_frames QUIC_PKT_TYPE_1RTT QUIC_ENC_LEVEL_1RTT 7 sample_envs (sample_d w).
Definition received_ch : QUIC_CHANNEL := ch (received 50).2.

Lemma sample_supplies w : supplies sample_envs 0 (arrives 7 (sample_ch w)).
Proof.
  assert (H : forall j i p, m_stream (e_mem (sample_envs j) i) = Some p -> j = 0%nat /\ i = 0%nat /\ p = 20%nat).
  { intros j i p. cbn. case_decide; [intros [= <-]; lia|done]. }
  split_and!.
  - intros j _. split.
    + intros i _ p (_ & _ & ->)%H. by split_and!.
    + intros i k p (_ & -> & _)%H (_ & -> & _)%H. done.
  - intros j t. done.
  - intros j k m n p (-> & _)%H (-> & _)%H. done.
Qed.

Lemma sample_pkt_ok : pkt_ok sample_pkt.
Proof. split; [split; cbn; [lia|lia|]|by vm_compute]. by repeat constructor. Qed.

Lemma not_null {A} (o : option A) : is_null o = false -> is_Some o.
Proof. destruct o; [eauto|done]. Qed.

Lemma opened_reachable : reachable opened_ch.
Proof. eapply ReachStep; [apply ReachBegin, sample_begins|]. apply StepOpen, enough_ok. Qed.
Lemma reset_reachable : reachable reset_ch.
Proof. eapply ReachStep; [apply opened_reachable|]. apply StepOp; [apply not_null; vm_compute; reflexivity|reflexivity]. Qed.
Lemma received_reachable : reachable received_ch.
Proof.
  eapply ReachStep; [apply ReachBegin, (sample_begins 50)|].
  apply (StepPacket _ QUIC_PKT_TYPE_1RTT QUIC_ENC_LEVEL_1RTT 7 sample_envs sample_pkt 0 false);
    [vm_compute; reflexivity|apply sample_pkt_ok|apply sample_supplies].
Qed.

(** A stream that is there and passes a test. *)
Lemma fetch (f : QUIC_STREAM -> bool) o : match o with Some s => f s | None => false end = true -> exists s, o = Some s /\ f s = true.
Proof. destruct o; [eauto|done]. Qed.

Definition is_ready (s : QUIC_STREAM) : bool := bool_decide (send_state s = SSTREAM_READY).
Definition is_receiving (s : QUIC_STREAM) : bool := bool_decide (recv_state s = RSTREAM_RECV).

Lemma opened_stream : exists s, heap (qsm opened_ch) !! 20%nat = Some s /\ is_ready s = true.
Proof. apply fetch. vm_compute. reflexivity. Qed.
Lemma reset_stream : exists s, heap (qsm reset_ch) !! 20%nat = Some s /\ active s = true.
Proof. apply fetch. vm_compute. reflexivity. Qed.
Lemma received_stream : exists s, heap (qsm received_ch) !! 20%nat = Some s /\ is_receiving s = true.
Proof. apply fetch. vm_compute. reflexivity. Qed.

Lemma opened_inv : exists act acc gc, chan_inv act acc gc opened_ch.
Proof. apply channel_reachable_inv, opened_reachable. Qed.
Lemma reset_inv : exists act acc gc, chan_inv act acc gc reset_ch /\ 20%nat ∈ act.
Proof.
  destruct (channel_reachable_inv _ reset_reachable) as (act & acc & gc & Hc). exists act, acc, gc. split; [exact Hc|].
  apply (l_active _ _ _ _ (i_links _ _ _ _ _ (ci_map _ _ _ _ Hc))), reset_stream.
Qed.
Lemma received_inv : exists act acc gc, chan_inv act acc gc received_ch.
Proof. apply channel_reachable_inv, received_reachable. Qed.

(** ** The theorems on these channels *)

Lemma channel_streams_typed_witness : reachable received_ch /\
  exists s, heap (qsm received_ch) !! 20%nat = Some s /\ type s = Z.land (id s) 3 /\ rstream s <> None.
Proof.
  split; [exact received_reachable|]. destruct received_stream as (s & Hs & Hr). exists s. split; [exact Hs|].
  destruct (channel_streams_typed received_ch 20 s received_reachable Hs) as (H1 & _ & _ & _ & _ & H2 & _).
  split; [exact H1|]. apply H2. left. by apply bool_decide_eq_true in Hr.
Defined.

Lemma stream_ops_follow_rfc_witness : exists r q' s s',
  heap (qsm opened_ch) !! 20%nat = Some s /\ exec (ResetStreamSendPart 7) 20 (qsm opened_ch) = (r, q') /\ heap q' !! 20%nat = Some s' /\
  machine_step s s'.
Proof.
  destruct opened_inv as (act & acc & gc & Hc). destruct opened_stream as (s & Hs & _).
  destruct (stream_ops_follow_rfc (ResetStreamSendPart 7) 20 act acc gc (qsm opened_ch) s (ci_map _ _ _ _ Hc) Hs)
    as (r & q' & s' & H1 & _ & H2 & H3 & _).
  exists r, q', s, s'. split; [exact Hs|]. split; [exact H1|]. split; [exact H2|exact H3].
Defined.

Lemma stream_ops_refuse_witness : exists s r, heap (qsm opened_ch) !! 20%nat = Some s /\ ~ accepts NotifyTotallyAcked s r /\
  exec NotifyTotallyAcked 20 (qsm opened_ch) = (Err, qsm opened_ch).
Proof.
  destruct opened_inv as (act & acc & gc & Hc). destruct opened_stream as (s & Hs & Hr).
  destruct (l_fcs _ _ _ _ (i_links _ _ _ _ _ (ci_map _ _ _ _ Hc)) 20%nat s Hs) as [[r Er] _].
  exists s, r. split; [exact Hs|].
  destruct (stream_ops_refuse NotifyTotallyAcked 20 act acc gc (qsm opened_ch) s r (ci_map _ _ _ _ Hc) Hs Er) as [[[Ha _]|H] _]; [|exact H].
  apply bool_decide_eq_true in Hr. unfold accepts in Ha. congruence.
Defined.

Lemma stream_update_state_exact_witness : exists q' s s', heap (qsm reset_ch) !! 20%nat = Some s /\
  exec UpdateState 20 (qsm reset_ch) = (Ret tt, q') /\ heap q' !! 20%nat = Some s' /\
  (ready_for_gc s' = true <-> ready_for_gc s = true \/ collectable s' = true).
Proof.
  destruct reset_inv as (act & acc & gc & Hc & _). destruct reset_stream as (s & Hs & _).
  destruct (stream_update_state_exact 20 act acc gc (qsm reset_ch) s (ci_map _ _ _ _ Hc) Hs) as (q' & s' & H1 & H2 & _ & _ & H3 & _).
  exists q', s, s'. split; [exact Hs|]. split; [exact H1|]. split; [exact H2|exact H3].
Defined.

Lemma stream_iteration_terminates_witness : exists act it q' l, 20%nat ∈ act /\
  ossl_quic_stream_iter_init true (qsm reset_ch) = (Ret it, q') /\ iter_visits q' (length act) it = Some l /\ l ≡ₚ act.
Proof.
  destruct reset_inv as (act & acc & gc & Hc & Hin).
  destruct (stream_iteration_terminates true act acc gc (qsm reset_ch) (ci_map _ _ _ _ Hc)) as (it & q' & l & H1 & H2 & _ & H3 & _).
  exists act, it, q', l. split; [exact Hin|]. split; [exact H1|]. split; [exact H2|exact H3].
Defined.

Lemma stream_round_robin_fair_witness : exists n l q', starts n (qsm reset_ch) = (Ret l, q') /\ Some 20%nat ∈ l.
Proof.
  destruct reset_inv as (act & acc & gc & Hc & Hin).
  destruct (stream_round_robin_fair act acc gc (qsm reset_ch) 20 (ci_map _ _ _ _ Hc)) as (n & l & q' & _ & H1 & H2);
    [vm_compute; split; congruence|vm_compute; congruence|exact Hin|].
  exists n, l, q'. split; [exact H1|exact H2].
Defined.

Lemma stream_accept_queue_witness : exists acc s, heap (qsm received_ch) !! 20%nat = Some s /\
  ossl_quic_stream_map_peek_accept_queue (qsm received_ch) = Ret (head acc) /\
  ossl_quic_stream_map_get_total_accept_queue_len (qsm received_ch) = Z.of_nat (length acc).
Proof.
  destruct received_inv as (act & acc & gc & Hc). destruct received_stream as (s & Hs & _).
  destruct (stream_accept_queue [] 0 act acc gc (qsm received_ch) 20 s (ci_map _ _ _ _ Hc) Hs) as (H1 & _ & _ & H2 & _).
  exists acc, s. split; [exact Hs|]. split; [exact H1|exact H2].
Defined.

Lemma stream_gc_releases_nothing_witness : ossl_quic_stream_map_gc (qsm reset_ch) = (Ret tt, qsm reset_ch).
Proof.
  destruct reset_inv as (act & acc & gc & Hc & _). exact (stream_gc_releases_nothing act acc gc (qsm reset_ch) (ci_map _ _ _ _ Hc)).
Defined.

Lemma local_stream_creation_witness : exists p s c',
  ossl_quic_channel_new_stream_local enough true (sample_ch 50) = (Ret p, c') /\ heap (qsm c') !! p = Some s /\ id s = 3.
Proof.
  destruct (local_stream_creation enough true [] [] [] (sample_ch 50) (begins_inv _ (sample_begins 50)) (enough_ok 50))
    as [[_ [H|H]]|(p & s & c' & E & _ & Hh & _ & Hid & _)].
  - exfalso. vm_compute in H. by apply H.
  - exfalso. unfold mem_fails in H. cbn in H. intuition congruence.
  - exists p, s, c'. split; [exact E|]. split; [|exact Hid]. rewrite Hh. apply lookup_insert_eq.
Defined.

Lemma implicit_stream_creation_witness :
  exists c', depack_do_implicit_stream_create (sample_envs 0) 8 0x0a (sample_ch 50) = (Err, c') /\
    raised c' = [(OSSL_QUIC_ERR_STREAM_LIMIT_ERROR, 0x0a)].
Proof.
  pose proof (implicit_stream_creation (sample_envs 0) 8 0x0a (sample_ch 50) [] [] [] (begins_inv _ (sample_begins 50))) as H.
  destruct H as (a & r & Ha & Hr & c' & _ & H).
  - exact (proj1 (sample_supplies 50) 0%nat (le_n 0)).
  - vm_compute. split; congruence.
  - injection Ha as <-. injection Hr as <-. destruct H as (E & H & _). exists c'. split; [exact E|exact H].
Defined.

(** The same bytes with an ACK frame after them: the packet is left at the frame. *)
Definition acking_pkt : PACKET := mkPacket [0x0a; 0; 3; 1; 2; 3; 2; 0; 0; 0; 0] 11.
Definition acking_d : DEPACK := mkD acking_pkt (arrives 7 (sample_ch 50)) 0 false.

Lemma depack_packet_robust_witness : exists d',
  depack_process_frames QUIC_PKT_TYPE_1RTT QUIC_ENC_LEVEL_1RTT 7 sample_envs acking_d = (Ret (Some OSSL_QUIC_FRAME_TYPE_ACK_WITHOUT_ECN), d') /\
  curr (pkt d') = [2; 0; 0; 0; 0] /\ progress acking_d d'.
Proof.
  destruct (depack_packet_robust QUIC_PKT_TYPE_1RTT QUIC_ENC_LEVEL_1RTT 7 sample_envs acking_d) as [[Hp _] _].
  - split; [split; cbn; [lia|lia|]|by vm_compute]. by repeat constructor.
  - exists [], [], []. apply arrives_inv; [apply begins_inv, sample_begins|reflexivity].
  - exact (sample_supplies 50).
  - vm_compute. reflexivity.
  - destruct (depack_process_frames QUIC_PKT_TYPE_1RTT QUIC_ENC_LEVEL_1RTT 7 sample_envs acking_d) as [r d'] eqn:E. exists d'. cbn [snd] in Hp.
    split; [|split; [|exact Hp]]; revert E; vm_compute; intros [= <- <-]; reflexivity.
Defined.

(** ** What a packet gets away with *)

(** A peer may exceed the limit on the data of the whole connection.  The
    connection's controller notices, but [depack_do_frame_stream] only asks the
    stream's controller for an error, and nothing else asks the connection's: with
    two bytes left on the connection, a frame with three is accepted. *)
Theorem conn_flow_control_unchecked :
  (received 2).1 = Ret None /\ raised (ch (received 2).2) = [] /\
  Rxfc.error_code <$> rxfcs (qsm (ch (received 2).2)) !! conn_rxfc (ch (received 2).2) = Some Rxfc.OSSL_QUIC_ERR_FLOW_CONTROL_ERROR.
Proof. vm_compute. split; [reflexivity|]. split; reflexivity. Qed.

(** Two slips of the dispatch.  A PING in a 1-RTT packet schedules no reply,
    since the encryption level is passed where the packet number space is
    expected and the bit it selects is outside the field.  A NEW_CONNECTION_ID
    frame in a packet that must not carry one is processed all the same: the
    error is raised, but the handler is called. *)
Theorem depack_dispatch_slips :
  (forall d, 0 <= force_ack_eliciting d < 2 ^ QUIC_PN_SPACE_NUM ->
     force_ack_eliciting (ossl_quic_tx_packetiser_schedule_ack_eliciting (ossl_quic_pkt_type_to_enc_level QUIC_PKT_TYPE_1RTT) d) =
     force_ack_eliciting d) /\
  (forall pkt_type enc_level pk e d, in_0rtt_1rtt pkt_type = false ->
     process_frame pkt_type enc_level pk e OSSL_QUIC_FRAME_TYPE_NEW_CONN_ID d =
     passed_on OSSL_QUIC_FRAME_TYPE_NEW_CONN_ID
       (set_ch (set_raised ((OSSL_QUIC_ERR_PROTOCOL_VIOLATION, OSSL_QUIC_FRAME_TYPE_NEW_CONN_ID) :: raised (ch d)) (ch d)) d)).
Proof.
  split.
  - intros d Hd. change (2 ^ QUIC_PN_SPACE_NUM) with 8 in *.
    unfold ossl_quic_tx_packetiser_schedule_ack_eliciting. cbn [force_ack_eliciting set_force_ack_eliciting].
    change (Z.shiftl 1 (ossl_quic_pkt_type_to_enc_level QUIC_PKT_TYPE_1RTT)) with (Z.shiftl 1 3). change (2 ^ QUIC_PN_SPACE_NUM) with (2 ^ 3).
    rewrite Z.lor_comm, lor_shiftl_add by lia. change (1 * 2 ^ 3) with 8. change (2 ^ 3) with 8.
    rewrite Z.add_comm, <- (Z.mul_1_l 8) at 1. rewrite Z.mod_add, Z.mod_small; lia.
  - intros pt el pk e d Hpt. unfold process_frame, process_limit_frame, process_conn_frame. cbn -[in_0rtt_1rtt]. by rewrite Hpt.
Qed.
End StreamSample.
