(* ===== verification/AckHist.v ===== *)
(** * Packet histories of the ACK manager

    Model of the first half of [ssl/quic/quic_ackm.c]: the packets sent that
    wait for an acknowledgement, in a list in the order of their numbers and in
    a hash table indexed by number, and the numbers of the packets received that
    the peer may not know to have been received, in a [UINT_SET] above a
    watermark.

    A packet is a value, identified in the list by its number, so that the check
    that its list pointers are null is not represented.  [lh_insert] has no
    effect when its allocation fails; the code ignores its result. *)
From Stdlib Require Import ZArith Lia.
From stdpp Require Import base tactics list gmap sorting.
From S2P Require Import Prelude OsslTime UintSet.
#[local] Open Scope Z_scope.
Import OsslTime UintSet.

Module AckHist.

Inductive QUIC_PN_SPACE := QUIC_PN_SPACE_INITIAL | QUIC_PN_SPACE_HANDSHAKE | QUIC_PN_SPACE_APP.

#[global] Instance QUIC_PN_SPACE_eq_dec : EqDecision QUIC_PN_SPACE.
Proof. solve_decision. Defined.

Definition QUIC_PN_INVALID : Z := UINT64_MAX.
Definition ossl_quic_pn_max (a b : Z) : Z := if b <? a then a else b.

(** [cb_arg] stands for the callbacks and their argument. *)
Record OSSL_ACKM_TX_PKT := mkTx {
  pkt_num : Z; num_bytes : Z; time : OSSL_TIME; largest_acked : Z; pkt_space : QUIC_PN_SPACE;
  is_inflight : bool; is_ack_eliciting : bool; is_pto_probe : bool; is_mtu_probe : bool; cb_arg : nat
}.

#[global] Instance OSSL_ACKM_TX_PKT_eq_dec : EqDecision OSSL_ACKM_TX_PKT.
Proof. solve_decision. Defined.

(** ** Packets sent *)

Record tx_pkt_history_st := mkTxh {
  packets : list OSSL_ACKM_TX_PKT; pmap : gmap Z OSSL_ACKM_TX_PKT; tx_watermark : Z; highest_sent : Z
}.

(** [alloc]: whether the hash table can be created. *)
Definition tx_pkt_history_init (alloc : bool) : option tx_pkt_history_st :=
  if alloc then Some (mkTxh [] ∅ 0 0) else None.
Definition tx_pkt_history_destroy (h : tx_pkt_history_st) : tx_pkt_history_st :=
  mkTxh [] ∅ (tx_watermark h) (highest_sent h).

Definition tx_pkt_history_add_actual (alloc : bool) (h : tx_pkt_history_st) (pkt : OSSL_ACKM_TX_PKT)
    : option tx_pkt_history_st :=
  match pmap h !! pkt_num pkt with
  | Some _ => None
  | None =>
      Some (mkTxh (packets h ++ [pkt]) (if alloc then <[pkt_num pkt := pkt]> (pmap h) else pmap h)
              (tx_watermark h) (highest_sent h))
  end.

Definition tx_pkt_history_add (alloc : bool) (h : tx_pkt_history_st) (pkt : OSSL_ACKM_TX_PKT)
    : option tx_pkt_history_st :=
  if negb (tx_watermark h <=? pkt_num pkt) then None
  else
    h ← tx_pkt_history_add_actual alloc h pkt;
    Some (mkTxh (packets h) (pmap h) (u64 (pkt_num pkt + 1)) (pkt_num pkt)).

Definition tx_pkt_history_by_pkt_num (h : tx_pkt_history_st) (pn : Z) : option OSSL_ACKM_TX_PKT := pmap h !! pn.

Definition tx_pkt_history_remove (h : tx_pkt_history_st) (pn : Z) : bool * tx_pkt_history_st :=
  match tx_pkt_history_by_pkt_num h pn with
  | None => (false, h)
  | Some _ =>
      (true, mkTxh (filter (fun p => pkt_num p <> pn) (packets h)) (delete pn (pmap h))
               (tx_watermark h) (highest_sent h))
  end.

(** ** Packets received *)

Record rx_pkt_history_st := mkRxh { pn_set : UINT_SET; rx_watermark : Z }.

Definition rx_pkt_history_init : rx_pkt_history_st := mkRxh ossl_uint_set_init 0.
Definition rx_pkt_history_destroy (h : rx_pkt_history_st) : rx_pkt_history_st := mkRxh [] (rx_watermark h).

Definition MAX_RX_ACK_RANGES : Z := 32.

(** The functions return 1 or 0 and the history; [None] when behaviour is
    undefined.  [alloc] is the outcome of the allocations of the set. *)
Definition rx_pkt_history_bump_watermark (alloc : bool) (h : rx_pkt_history_st) (wm : Z)
    : option (bool * rx_pkt_history_st) :=
  if wm <=? rx_watermark h then Some (true, h)
  else
    '(ok, s) ← ossl_uint_set_remove alloc (pn_set h) (mkRange 0 (u64 (wm - 1)));
    if ok : bool then Some (true, mkRxh s wm) else Some (false, mkRxh s (rx_watermark h)).

(** The loop that removes the lowest ranges; [highest] is [QUIC_PN_INVALID]
    until one is.  Every round removes a range. *)
Fixpoint trim_loop (fuel : nat) (alloc : bool) (s : UINT_SET) (highest : Z) : option (UINT_SET * Z) :=
  if MAX_RX_ACK_RANGES <? Z.of_nat (length s) then
    match fuel, s with
    | S fuel, r :: _ =>
        let highest := if highest =? QUIC_PN_INVALID then end_ r else ossl_quic_pn_max highest (end_ r) in
        '(_, s) ← ossl_uint_set_remove alloc s r;
        trim_loop fuel alloc s highest
    | _, _ => None
    end
  else Some (s, highest).

Definition rx_pkt_history_trim_range_count (alloc : bool) (h : rx_pkt_history_st) : option rx_pkt_history_st :=
  '(s, highest) ← trim_loop (length (pn_set h)) alloc (pn_set h) QUIC_PN_INVALID;
  let h := mkRxh s (rx_watermark h) in
  if negb (highest =? QUIC_PN_INVALID) then snd <$> rx_pkt_history_bump_watermark alloc h (u64 (highest + 1))
  else Some h.

Definition rx_pkt_history_add_pn (alloc : bool) (h : rx_pkt_history_st) (pn : Z) : option (bool * rx_pkt_history_st) :=
  if pn <? rx_watermark h then Some (true, h)
  else
    let '(ok, s) := ossl_uint_set_insert alloc (pn_set h) (mkRange pn pn) in
    if negb ok then Some (false, mkRxh s (rx_watermark h))
    else
      h ← rx_pkt_history_trim_range_count alloc (mkRxh s (rx_watermark h));
      Some (true, h).

(** ** Invariants of the sending side *)

Record txh_ok (h : tx_pkt_history_st) : Prop := {
  th_sorted : StronglySorted (fun a b => pkt_num a < pkt_num b) (packets h);
  th_map pn p : pmap h !! pn = Some p <-> p ∈ packets h /\ pkt_num p = pn;
  th_range : Forall (fun p => 0 <= pkt_num p < tx_watermark h) (packets h)
}.

Lemma txh_empty w hs : txh_ok (mkTxh [] ∅ w hs).
Proof.
  split; cbn; [constructor| |constructor]. intros pn p. rewrite lookup_empty. split; [done|]. intros [H _]. by apply elem_of_nil in H.
Qed.

Lemma by_num_in h p : txh_ok h -> p ∈ packets h -> tx_pkt_history_by_pkt_num h (pkt_num p) = Some p.
Proof. intros Hok Hp. by apply Hok. Qed.

Lemma num_inj h p q : txh_ok h -> p ∈ packets h -> q ∈ packets h -> pkt_num p = pkt_num q -> p = q.
Proof.
  intros Hok Hp Hq E. pose proof (by_num_in h p Hok Hp) as H1. pose proof (by_num_in h q Hok Hq) as H2.
  rewrite E, H2 in H1. congruence.
Qed.

Lemma add_ok h pkt :
  txh_ok h -> is_u64 (pkt_num pkt) -> pkt_num pkt <> UINT64_MAX ->
  match tx_pkt_history_add true h pkt with
  | Some h' => tx_watermark h <= pkt_num pkt /\ txh_ok h' /\ packets h' = packets h ++ [pkt] /\
      tx_watermark h' = pkt_num pkt + 1 /\ highest_sent h' = pkt_num pkt
  | None => pkt_num pkt < tx_watermark h
  end.
Proof.
  intros Hok Hu Hm. pose proof Hok as [Hs Hmap Hr]. unfold tx_pkt_history_add, tx_pkt_history_add_actual.
  destruct (Z.leb_spec (tx_watermark h) (pkt_num pkt)) as [Hle|Hgt]; cbn [negb]; [|lia].
  rewrite Forall_forall in Hr.
  destruct (pmap h !! pkt_num pkt) as [q|] eqn:E; cbn.
  { apply Hmap in E as [Hq E]. specialize (Hr q Hq). lia. }
  unfold is_u64 in Hu. rewrite u64_id by (unfold is_u64; lia). split_and!; try done. split; cbn.
  - apply StronglySorted_app. split_and!; [|done|constructor; constructor].
    intros a b Ha Hb. apply list_elem_of_singleton in Hb as ->. specialize (Hr a Ha). lia.
  - intros pn p. rewrite elem_of_app, list_elem_of_singleton. destruct (decide (pn = pkt_num pkt)) as [-> |Hne].
    + rewrite lookup_insert_eq. split; [intros [= <-]; auto|]. intros [[Hp|Hp] Ep]; [|by subst].
      specialize (Hr p Hp). lia.
    + rewrite lookup_insert_ne, Hmap by done. split; [intros [? ?]; auto|]. intros [[Hp| ->] Ep]; [done|congruence].
  - rewrite Forall_app, Forall_forall. split; [intros p Hp; specialize (Hr p Hp); cbn; lia|repeat constructor; lia].
Qed.

Lemma sorted_filter {A} (R : A -> A -> Prop) (P : A -> Prop) `{!forall x, Decision (P x)} l :
  StronglySorted R l -> StronglySorted R (filter P l).
Proof.
  induction 1 as [|a l Hl IH Ha]; [constructor|]. rewrite filter_cons. case_decide; [|done].
  constructor; [done|]. apply Forall_forall. intros x Hx. apply list_elem_of_filter in Hx as [_ Hx].
  rewrite Forall_forall in Ha. by apply Ha.
Qed.

(** Removing packets one after another is filtering them out. *)
Lemma tx_remove_ok h p :
  txh_ok h -> p ∈ packets h ->
  exists h', tx_pkt_history_remove h (pkt_num p) = (true, h') /\ txh_ok h' /\
    packets h' = filter (fun q => pkt_num q <> pkt_num p) (packets h) /\
    tx_watermark h' = tx_watermark h /\ highest_sent h' = highest_sent h.
Proof.
  intros Hok Hp. unfold tx_pkt_history_remove. rewrite (by_num_in h p Hok Hp). eexists. split; [reflexivity|].
  destruct Hok as [Hs Hmap Hr]. split_and!; try done. split; cbn.
  - by apply sorted_filter.
  - intros pn q. rewrite list_elem_of_filter. destruct (decide (pn = pkt_num p)) as [-> |Hne].
    + rewrite lookup_delete_eq. split; [done|]. intros [[H _] E]. congruence.
    + rewrite lookup_delete_ne, Hmap by done. split; [intros [? ?]; split; [split; [congruence|done]|done]|tauto].
  - apply Forall_forall. intros q Hq. apply list_elem_of_filter in Hq as [_ Hq]. rewrite Forall_forall in Hr. by apply Hr.
Qed.

(** ** Invariants of the receiving side *)

(** Packet numbers are below 2^62. *)
Definition MAX_PN : Z := 2 ^ 62.

Record rxh_ok (h : rx_pkt_history_st) : Prop := {
  rh_set : gwf (pn_set h);
  rh_above k : mem k (pn_set h) -> rx_watermark h <= k < MAX_PN;
  rh_wm : 0 <= rx_watermark h <= MAX_PN;
  rh_count : Z.of_nat (length (pn_set h)) <= MAX_RX_ACK_RANGES
}.

(** Removing from the low end needs no memory and adds no range. *)
Lemma remove_low alloc range rl : forall after,
  Forall (fun z => start range <= start z) rl -> start range <= end_ range ->
  exists s', remove_walk alloc range rl after = Some s' /\ (length s' <= length rl + length after)%nat.
Proof.
  induction rl as [|z rl IH]; intros after Hl Hr; cbn [remove_walk]; [eexists; split; [done|cbn; lia]|].
  apply Forall_cons in Hl as [Hz Hl].
  destruct (Z.ltb_spec (end_ z) (start range)).
  { eexists. split; [reflexivity|]. cbn. rewrite !length_app, length_rev. cbn. lia. }
  destruct (Z.leb_spec (start range) (start z)); [|lia]. cbn [andb]. destruct (Z.leb_spec (end_ z) (end_ range)).
  { destruct (IH after Hl Hr) as (s' & -> & Hs). eexists. split; [done|]. cbn. lia. }
  destruct (Z.leb_spec (start z) (end_ range)).
  { destruct (IH (mkRange (u64 (end_ range + 1)) (end_ z) :: after) Hl Hr) as (s' & -> & Hs).
    eexists. split; [done|]. cbn in *. lia. }
  destruct (Z.ltb_spec (start z) (start range)); [lia|]. cbn [andb].
  destruct (IH (z :: after) Hl Hr) as (s' & -> & Hs). eexists. split; [done|]. cbn in *. lia.
Qed.

(** A range below all the others is the only one removed. *)
Lemma remove_first alloc r rl : forall after,
  Forall (fun z => start r <= end_ z /\ end_ r < start z /\ start z <= end_ z) rl -> start r <= end_ r ->
  remove_walk alloc r (rl ++ [r]) after = Some (rev rl ++ after).
Proof.
  induction rl as [|z rl IH]; intros after Hl Hr; cbn [app remove_walk].
  - rewrite !Z.leb_refl. by destruct (Z.ltb_spec (end_ r) (start r)); [lia|].
  - apply Forall_cons in Hl as [(Hz1 & Hz2 & Hz3) Hl]. destruct (Z.ltb_spec (end_ z) (start r)); [lia|].
    destruct (Z.leb_spec (end_ z) (end_ r)); [lia|]. rewrite andb_false_r.
    destruct (Z.leb_spec (start z) (end_ r)); [lia|]. rewrite andb_false_r.
    destruct (Z.ltb_spec (start z) (start r)); [lia|]. cbn [andb]. rewrite IH by done. cbn. by rewrite <- app_assoc.
Qed.

Lemma remove_head alloc r t : gwf (r :: t) -> ossl_uint_set_remove alloc (r :: t) r = Some (true, t).
Proof.
  intros (Hr & Ha & Ht)%gwf_cons. unfold range_ok in Hr. unfold ossl_uint_set_remove.
  destruct (Z.leb_spec (start r) (end_ r)); [|lia]. cbn [negb rev]. rewrite remove_first; [by rewrite app_nil_r, rev_involutive| |lia].
  apply Forall_forall. intros z Hz. apply list_elem_of_In, in_rev, list_elem_of_In in Hz.
  unfold above in Ha. rewrite Forall_forall in Ha. specialize (Ha z Hz). destruct Ht as [Ht _].
  rewrite Forall_forall in Ht. specialize (Ht z Hz). unfold range_ok in Ht. lia.
Qed.

Lemma trim_ok alloc s : forall fuel highest,
  gwf s -> (length s <= fuel)%nat -> (forall k, mem k s -> k < MAX_PN) ->
  (highest = QUIC_PN_INVALID \/ highest < MAX_PN /\ forall k, mem k s -> highest < k) ->
  exists dropped rest hi, trim_loop fuel alloc s highest = Some (rest, hi) /\ s = dropped ++ rest /\ gwf rest /\
    Z.of_nat (length rest) <= MAX_RX_ACK_RANGES /\ (highest = QUIC_PN_INVALID \/ highest <= hi) /\
    (dropped = [] /\ hi = highest \/
     0 <= hi < MAX_PN /\ (forall k, mem k dropped -> k <= hi) /\ (forall k, mem k rest -> hi < k)).
Proof.
  induction s as [|r t IH]; intros fuel highest Hs Hf Hb Hh; destruct fuel as [|fuel]; cbn [trim_loop]; try (cbn in Hf; lia).
  1,2: exists [], [], highest; split_and!; try done; try (right; lia); by left.
  destruct (Z.ltb_spec MAX_RX_ACK_RANGES (Z.of_nat (length (r :: t)))) as [Hgt|Hle].
  2: { exists [], (r :: t), highest. split_and!; try done; try (right; lia); by left. }
  pose proof Hs as (Hr & Ha & Ht)%gwf_cons. unfold range_ok in Hr. rewrite remove_head by done. cbn [mbind option_bind].
  assert (Hre : end_ r < MAX_PN /\ (highest = QUIC_PN_INVALID \/ highest < end_ r)).
  { assert (mem (end_ r) (r :: t)) as Hm by (apply mem_cons; left; unfold in_range; lia).
    split; [by apply Hb|]. destruct Hh as [Hh|[_ Hh]]; [by left|right; by apply Hh]. }
  assert (Hhi : (if highest =? QUIC_PN_INVALID then end_ r else ossl_quic_pn_max highest (end_ r)) = end_ r).
  { destruct (Z.eqb_spec highest QUIC_PN_INVALID); [done|]. unfold ossl_quic_pn_max. zcase; lia. }
  rewrite Hhi. assert (Hab : forall k, mem k t -> end_ r < k).
  { intros k Hk. pose proof (above_mem _ _ _ Ha Hk). lia. }
  destruct (IH fuel (end_ r)) as (dr & rest & hi & E & -> & Hg & Hl & Hm & Hcase); [done|cbn in Hf; lia| |right; split; [lia|done]|].
  { intros k Hk. apply Hb, mem_cons. by right. }
  assert (Hle : end_ r <= hi). { unfold QUIC_PN_INVALID, MAX_PN in *. lia. }
  exists (r :: dr), rest, hi. split_and!; [done..|destruct Hre as [_ [?|?]]; [by left|right; lia]|]. right.
  destruct Hcase as [[-> ->]|(H1 & H2 & H3)].
  - split_and!; [lia|lia| |done]. intros k [Hk|Hk%mem_nil]%mem_cons; [unfold in_range in Hk; lia|done].
  - split_and!; [lia|lia| |done]. intros k [Hk|Hk]%mem_cons; [unfold in_range in Hk; lia|auto].
Qed.

(** What a set loses when the watermark is raised, and that no memory is needed. *)
Lemma bump_ok alloc h wm :
  gwf (pn_set h) -> (forall k, mem k (pn_set h) -> rx_watermark h <= k) -> 0 <= rx_watermark h -> wm <= MAX_PN ->
  exists h', rx_pkt_history_bump_watermark alloc h wm = Some (true, h') /\ gwf (pn_set h') /\
    (length (pn_set h') <= length (pn_set h))%nat /\ rx_watermark h' = Z.max (rx_watermark h) wm /\
    forall k, mem k (pn_set h') <-> mem k (pn_set h) /\ rx_watermark h' <= k.
Proof.
  intros Hs Hab Hw Hm. unfold rx_pkt_history_bump_watermark. destruct (Z.leb_spec wm (rx_watermark h)) as [Hle|Hgt].
  { exists h. split_and!; try done; [lia|]. intros k. split; [|tauto]. intros Hk. split; [done|by apply Hab]. }
  unfold MAX_PN in Hm. rewrite u64_id by (unfold is_u64; lia).
  assert (Hr : range_ok (mkRange 0 (wm - 1))) by (unfold range_ok; cbn; lia).
  pose proof (remove_refines alloc (pn_set h) (mkRange 0 (wm - 1)) (gwf_wf _ Hs) Hr) as Href.
  pose proof (fun b s' => remove_gapped alloc (pn_set h) (mkRange 0 (wm - 1)) b s' Hs Hr) as Hgap.
  assert (Hlow : exists s', ossl_uint_set_remove alloc (pn_set h) (mkRange 0 (wm - 1)) = Some (true, s') /\
      (length s' <= length (pn_set h))%nat).
  { unfold ossl_uint_set_remove. cbn [start end_]. destruct (Z.leb_spec 0 (wm - 1)); [|lia]. cbn [negb].
    destruct (remove_low alloc (mkRange 0 (wm - 1)) (rev (pn_set h)) []) as (s' & -> & Hl); [|cbn; lia|].
    - apply Forall_rev. destruct Hs as [Hs _]. eapply Forall_impl; [exact Hs|]. unfold range_ok. cbn. lia.
    - exists s'. split; [done|]. cbn in Hl. rewrite length_rev in Hl. lia. }
  destruct Hlow as (s' & E & Hl). rewrite E in *. cbn [mbind option_bind]. destruct Href as (_ & _ & Href).
  eexists. split; [reflexivity|]. cbn. split_and!; [by eapply Hgap|done|lia|].
  intros k. rewrite Href. unfold in_range. cbn. split; [|intros [Hk ?]; split; [done|lia]].
  intros [Hk Hn]. split; [done|]. specialize (Hab k Hk). lia.
Qed.

Lemma bump_rxh_ok alloc h wm :
  rxh_ok h -> wm <= MAX_PN ->
  exists h', rx_pkt_history_bump_watermark alloc h wm = Some (true, h') /\ rxh_ok h' /\
    rx_watermark h' = Z.max (rx_watermark h) wm /\
    forall k, mem k (pn_set h') <-> mem k (pn_set h) /\ rx_watermark h' <= k.
Proof.
  intros [Hs Ha Hw Hc] Hm. destruct (bump_ok alloc h wm Hs) as (h' & E & Hs' & Hl & Hwm & Hk); [|lia|done|].
  { intros k Hk. by apply Ha in Hk as [? _]. }
  exists h'. split_and!; try done. split; [done| |lia|lia].
  intros k Hmem. apply Hk in Hmem as [Hmem Hge]. specialize (Ha k Hmem). lia.
Qed.

(** Recording a packet number: what is in the set was there or is the number;
    what is not tracked any more is below the watermark. *)
Lemma add_pn_ok alloc h pn :
  rxh_ok h -> rx_watermark h <= pn < MAX_PN -> ~ mem pn (pn_set h) ->
  match rx_pkt_history_add_pn alloc h pn with
  | Some (true, h') => rxh_ok h' /\ rx_watermark h <= rx_watermark h' /\
      (forall k, mem k (pn_set h') <-> (k = pn \/ mem k (pn_set h)) /\ rx_watermark h' <= k)
  | Some (false, h') => h' = h /\ alloc = false
  | None => False
  end.
Proof.
  intros [Hs Ha Hw Hc] Hpn Hn. unfold rx_pkt_history_add_pn. destruct (Z.ltb_spec pn (rx_watermark h)); [lia|].
  assert (Hr : range_ok (mkRange pn pn)) by (unfold range_ok, MAX_PN in *; cbn; lia).
  pose proof (insert_refines alloc _ _ (gwf_wf _ Hs) Hr) as Href.
  pose proof (insert_gapped alloc _ _ Hs Hr) as Hgap. unfold insert_post in Href.
  destruct (ossl_uint_set_insert alloc (pn_set h) (mkRange pn pn)) as [[|] s]; cbn [negb snd] in *.
  2: { destruct Href as [-> ->]. by destruct h. }
  destruct Href as [_ Href]. unfold in_range in Href. cbn in Href.
  assert (Hs' : gwf s). { apply Hgap. intros v Hv. replace v with pn; [done|unfold in_range in Hv; cbn in Hv; lia]. }
  assert (Hin : forall k, mem k s -> rx_watermark h <= k < MAX_PN).
  { intros k Hk. apply Href in Hk as [Hk|Hk]; [auto|lia]. }
  unfold rx_pkt_history_trim_range_count. cbn [pn_set rx_watermark].
  destruct (trim_ok alloc s (length s) QUIC_PN_INVALID Hs') as (dr & rest & hi & E & -> & Hg & Hl & _ & Hcase);
    [done|intros k Hk; apply Hin in Hk; lia|by left|]. rewrite E. cbn [mbind option_bind].
  destruct Hcase as [[-> ->]|(Hhi & Hdr & Hrest)].
  { cbn. split_and!; [by split|lia|]. intros k. rewrite app_nil_l in *. rewrite (Href k). split.
    - intros [Hk|Hk]; (split; [|by apply Hin, Href; auto]); [by right|left; lia].
    - intros [[->|Hk] _]; [right; lia|by left]. }
  destruct (Z.eqb_spec hi QUIC_PN_INVALID) as [->|_]; [unfold QUIC_PN_INVALID, MAX_PN in Hhi; lia|]. cbn [negb].
  rewrite u64_id by (unfold is_u64, MAX_PN in *; lia).
  destruct (bump_ok alloc (mkRxh rest (rx_watermark h)) (hi + 1)) as (h' & -> & Hg' & Hl' & Hwm & Hk'); cbn in *; [done| |lia|lia|].
  { intros k Hk. apply Hin. apply mem_app. by right. }
  split_and!; [split; [done| |lia|lia]|lia|].
  - intros k [Hk Hge]%Hk'. split; [lia|]. apply (Hin k), mem_app. by right.
  - intros k. rewrite Hk'. split; intros [Hk Hge]; (split; [|done]).
    + assert (Hm : mem k (dr ++ rest)) by (apply mem_app; by right). apply Href in Hm as [Hm|Hm]; [by right|left; lia].
    + assert (Hm : mem k (dr ++ rest)) by (apply Href; destruct Hk as [->|Hk]; [right; lia|by left]).
      apply mem_app in Hm as [Hm|Hm]; [|done]. apply Hdr in Hm. lia.
Qed.

End AckHist.
