(* ===== verification/Txpim.v ===== *)
(** * Transmitted packet information

    Model of [ssl/quic/quic_txpim.c]: the pool of records about packets, with the
    chunks of stream data each packet carries.  Records are kept in a heap by
    address, their [prev] and [next] fields in a store of links ([DList]).  The
    array of chunks is a list of [alloc_chunks] elements; those a reallocation adds
    have no meaningful contents.  Allocations are inputs.

    [qsort] is any function with the behaviour the C standard gives it ([Qsort]):
    the order of elements that compare equal is not specified. *)
From Stdlib Require Import ZArith Lia.
From stdpp Require Import base tactics option gmap sorting.
From S2P Require Import Prelude AckHist DList.
#[local] Open Scope Z_scope.
Import AckHist DList.

Module Txpim.

Record QUIC_TXPIM_CHUNK := mkChunk {
  stream_id : Z; start : Z; end_ : Z; has_fin : bool; has_stop_sending : bool; has_reset_stream : bool
}.

(** [fifd] is whether the field is set. *)
Record QUIC_TXPIM_PKT_EX := mkPkt {
  ackm_pkt : OSSL_ACKM_TX_PKT; retx_head : option nat; fifd : bool; pkt_type : Z;
  had_handshake_done_frame : bool; had_max_data_frame : bool; had_max_streams_bidi_frame : bool;
  had_max_streams_uni_frame : bool; had_ack_frame : bool; had_conn_close : bool;
  chunks : list QUIC_TXPIM_CHUNK; num_chunks : Z; alloc_chunks : Z; chunks_need_sort : bool
}.

Definition set_ackm_pkt (v : OSSL_ACKM_TX_PKT) (x : QUIC_TXPIM_PKT_EX) : QUIC_TXPIM_PKT_EX :=
  mkPkt v (retx_head x) (fifd x) (pkt_type x) (had_handshake_done_frame x) (had_max_data_frame x) (had_max_streams_bidi_frame x)
    (had_max_streams_uni_frame x) (had_ack_frame x) (had_conn_close x) (chunks x) (num_chunks x) (alloc_chunks x) (chunks_need_sort x).
Definition set_retx_head (v : option nat) (x : QUIC_TXPIM_PKT_EX) : QUIC_TXPIM_PKT_EX :=
  mkPkt (ackm_pkt x) v (fifd x) (pkt_type x) (had_handshake_done_frame x) (had_max_data_frame x) (had_max_streams_bidi_frame x)
    (had_max_streams_uni_frame x) (had_ack_frame x) (had_conn_close x) (chunks x) (num_chunks x) (alloc_chunks x) (chunks_need_sort x).
Definition set_fifd (v : bool) (x : QUIC_TXPIM_PKT_EX) : QUIC_TXPIM_PKT_EX :=
  mkPkt (ackm_pkt x) (retx_head x) v (pkt_type x) (had_handshake_done_frame x) (had_max_data_frame x) (had_max_streams_bidi_frame x)
    (had_max_streams_uni_frame x) (had_ack_frame x) (had_conn_close x) (chunks x) (num_chunks x) (alloc_chunks x) (chunks_need_sort x).
Definition set_had (hd md mb mu ack cc : bool) (x : QUIC_TXPIM_PKT_EX) : QUIC_TXPIM_PKT_EX :=
  mkPkt (ackm_pkt x) (retx_head x) (fifd x) (pkt_type x) hd md mb mu ack cc (chunks x) (num_chunks x) (alloc_chunks x) (chunks_need_sort x).
Definition set_chunks (l : list QUIC_TXPIM_CHUNK) (n a : Z) (sort : bool) (x : QUIC_TXPIM_PKT_EX) : QUIC_TXPIM_PKT_EX :=
  mkPkt (ackm_pkt x) (retx_head x) (fifd x) (pkt_type x) (had_handshake_done_frame x) (had_max_data_frame x) (had_max_streams_bidi_frame x)
    (had_max_streams_uni_frame x) (had_ack_frame x) (had_conn_close x) l n a sort.

Record QUIC_TXPIM := mkTxpim { pkts : gmap nat QUIC_TXPIM_PKT_EX; links : store; free_list : dlist; in_use : Z }.

Definition set_pkts (m : gmap nat QUIC_TXPIM_PKT_EX) (t : QUIC_TXPIM) : QUIC_TXPIM := mkTxpim m (links t) (free_list t) (in_use t).

Definition MAX_ALLOC_CHUNKS : Z := 512.

Definition pkt (p : nat) : M QUIC_TXPIM QUIC_TXPIM_PKT_EX := fun t => match pkts t !! p with Some x => (Ret x, t) | None => (Undef, t) end.
Definition upd_pkt (p : nat) (f : QUIC_TXPIM_PKT_EX -> QUIC_TXPIM_PKT_EX) : M QUIC_TXPIM unit :=
  x ← pkt p; modify (fun t => set_pkts (<[p := f x]> (pkts t)) t).
Definition on_free (f : dlist -> store -> option (dlist * store)) : M QUIC_TXPIM unit := fun t =>
  match f (free_list t) (links t) with
  | Some (l, k) => (Ret tt, mkTxpim (pkts t) k l (in_use t))
  | None => (Undef, t)
  end.

Definition zero_txpim : QUIC_TXPIM := mkTxpim ∅ ∅ list_empty 0.
Definition ossl_quic_txpim_new (alloc : bool) : option QUIC_TXPIM := if alloc then Some zero_txpim else None.

(** The loop of [free_list] from [p] on. *)
Fixpoint free_from (fuel : nat) (p : option nat) : M QUIC_TXPIM unit :=
  match p with
  | None => mret tt
  | Some q =>
      match fuel with
      | O => undefined
      | S fuel =>
          t ← get;
          match links t !! q with
          | None => undefined
          | Some k =>
              modify (fun t => mkTxpim (delete q (pkts t)) (delete q (links t)) (free_list t) (in_use t));;
              free_from fuel (next k)
          end
      end
  end.
Definition free_list_ : M QUIC_TXPIM unit :=
  t ← get; free_from (size (links t)) (head_ (free_list t));; modify (fun t => mkTxpim (pkts t) (links t) list_empty (in_use t)).
Definition ossl_quic_txpim_free : M QUIC_TXPIM unit :=
  t ← get; if in_use t =? 0 then free_list_ else undefined.

Definition zero_ackm_pkt : OSSL_ACKM_TX_PKT := mkTx 0 0 0 0 QUIC_PN_SPACE_INITIAL false false false false 0%nat.
Definition blank_pkt : QUIC_TXPIM_PKT_EX := mkPkt zero_ackm_pkt None false 0 false false false false false false [] 0 0 false.
Definition blank_chunk : QUIC_TXPIM_CHUNK := mkChunk 0 0 0 false false false.

Definition txpim_get_free (mem : option nat) : M QUIC_TXPIM nat :=
  t ← get;
  match head_ (free_list t) with
  | Some p => mret p
  | None =>
      match mem with
      | None => fail
      | Some p =>
          modify (fun t => mkTxpim (<[p := blank_pkt]> (pkts t)) (<[p := mkNode None None]> (links t)) (free_list t) (in_use t));;
          on_free (fun l => list_insert_tail l p);;
          mret p
      end
  end.

Definition ossl_quic_txpim_pkt_clear_chunks (p : nat) : M QUIC_TXPIM unit :=
  upd_pkt p (fun x => set_chunks (chunks x) 0 (alloc_chunks x) (chunks_need_sort x) x).

Definition txpim_clear (p : nat) : M QUIC_TXPIM unit :=
  upd_pkt p (set_ackm_pkt zero_ackm_pkt);;
  ossl_quic_txpim_pkt_clear_chunks p;;
  upd_pkt p (set_retx_head None);;
  upd_pkt p (set_fifd false);;
  upd_pkt p (set_had false false false false false false).

Definition ossl_quic_txpim_pkt_alloc (mem : option nat) : M QUIC_TXPIM nat :=
  p ← txpim_get_free mem;
  txpim_clear p;;
  on_free (fun l => list_remove l p);;
  modify (fun t => mkTxpim (pkts t) (links t) (free_list t) (u64 (in_use t + 1)));;
  mret p.

Definition ossl_quic_txpim_pkt_release (p : nat) : M QUIC_TXPIM unit :=
  t ← get;
  if 0 <? in_use t then
    modify (fun t => mkTxpim (pkts t) (links t) (free_list t) (u64 (in_use t - 1)));;
    on_free (fun l => list_insert_tail l p)
  else undefined.

(** The new number of elements when the array is full. *)
Definition grown (n : Z) : Z :=
  let m := if n =? 0 then 4 else u64 (n * 8) / 5 in if MAX_ALLOC_CHUNKS <? m then MAX_ALLOC_CHUNKS else m.

Definition ossl_quic_txpim_pkt_append_chunk (alloc : bool) (p : nat) (chunk : QUIC_TXPIM_CHUNK) : M QUIC_TXPIM unit :=
  x ← pkt p;
  (if num_chunks x =? alloc_chunks x then
     let new_alloc_chunks := grown (alloc_chunks x) in
     guard_ (negb (num_chunks x =? new_alloc_chunks));;
     guard_ alloc;;
     upd_pkt p (fun x => set_chunks (take (Z.to_nat new_alloc_chunks) (chunks x)
       ++ replicate (Z.to_nat new_alloc_chunks - length (chunks x)) blank_chunk) (num_chunks x) new_alloc_chunks (chunks_need_sort x) x)
   else mret tt);;
  x ← pkt p;
  if num_chunks x <? Z.of_nat (length (chunks x)) then
    upd_pkt p (fun x => set_chunks (<[Z.to_nat (num_chunks x) := chunk]> (chunks x)) (u64 (num_chunks x + 1)) (alloc_chunks x) true x)
  else undefined.

Definition compare (ac bc : QUIC_TXPIM_CHUNK) : Z :=
  if stream_id ac <? stream_id bc then -1
  else if stream_id bc <? stream_id ac then 1
  else if start ac <? start bc then -1
  else if start bc <? start ac then 1
  else 0.

(** What the C standard says of [qsort] with a comparison that orders elements. *)
Class Qsort := { qsort : list QUIC_TXPIM_CHUNK -> list QUIC_TXPIM_CHUNK }.
Class QsortLaws `{!Qsort} : Prop := {
  qsort_perm l : qsort l ≡ₚ l;
  qsort_sorted l : StronglySorted (fun a b => compare a b <= 0) (qsort l)
}.

Section Chunks.
Context `{!Qsort}.

(** The chunks the returned pointer gives access to. *)
Definition ossl_quic_txpim_pkt_get_chunks (p : nat) : M QUIC_TXPIM (list QUIC_TXPIM_CHUNK) :=
  x ← pkt p;
  (if chunks_need_sort x then
     let n := Z.to_nat (num_chunks x) in
     if num_chunks x <=? Z.of_nat (length (chunks x)) then
       upd_pkt p (fun x => set_chunks (qsort (take n (chunks x)) ++ drop n (chunks x)) (num_chunks x) (alloc_chunks x) false x)
     else undefined
   else mret tt);;
  x ← pkt p; mret (chunks x).
End Chunks.

Definition ossl_quic_txpim_pkt_get_num_chunks (p : nat) : M QUIC_TXPIM Z := x ← pkt p; mret (num_chunks x).
Definition ossl_quic_txpim_get_in_use (t : QUIC_TXPIM) : Z := in_use t.

(** ** The pool *)

(** The records in the free list are [F], those in use [U]. *)
Record pool_ok (F U : list nat) (t : QUIC_TXPIM) : Prop := {
  po_dl : dl F (free_list t) (links t);
  po_nodup : NoDup (F ++ U);
  po_in p : is_Some (pkts t !! p) <-> p ∈ F ++ U;
  po_dom : dom (links t) = dom (pkts t);
  po_use : in_use t = Z.of_nat (length U);
  po_small : Z.of_nat (length U) < UINT64_MOD
}.

(** The chunks of a record. *)
Definition used (x : QUIC_TXPIM_PKT_EX) : list QUIC_TXPIM_CHUNK := take (Z.to_nat (num_chunks x)) (chunks x).

Record array_ok (x : QUIC_TXPIM_PKT_EX) : Prop := {
  ao_num : 0 <= num_chunks x <= alloc_chunks x;
  ao_alloc : alloc_chunks x = 0 \/ 4 <= alloc_chunks x <= MAX_ALLOC_CHUNKS;
  ao_len : Z.of_nat (length (chunks x)) = alloc_chunks x;
  ao_sorted : chunks_need_sort x = false -> StronglySorted (fun a b => compare a b <= 0) (used x)
}.

Lemma pkt_run p t x : pkts t !! p = Some x -> pkt p t = (Ret x, t).
Proof. unfold pkt. by intros ->. Qed.
Lemma upd_pkt_run p f t x : pkts t !! p = Some x -> upd_pkt p f t = (Ret tt, set_pkts (<[p := f x]> (pkts t)) t).
Proof. intros H. unfold upd_pkt. by rewrite (bind_ret _ _ _ _ _ (pkt_run _ _ _ H)). Qed.
Lemma set_pkts_twice p (y z : QUIC_TXPIM_PKT_EX) t : set_pkts (<[p := z]> (pkts (set_pkts (<[p := y]> (pkts t)) t))) (set_pkts (<[p := y]> (pkts t)) t) = set_pkts (<[p := z]> (pkts t)) t.
Proof. unfold set_pkts. cbn. by rewrite insert_insert_eq. Qed.

(** A change of a record that is allocated keeps the pool. *)
Lemma pool_set F U t p y : pool_ok F U t -> p ∈ F ++ U -> pool_ok F U (set_pkts (<[p := y]> (pkts t)) t).
Proof.
  intros [H1 H2 H3 H4 H5 H6] Hp. assert (Hs : is_Some (pkts t !! p)) by (by apply H3). split; try done.
  - intros q. cbn. rewrite lookup_insert. case_decide; [subst|apply H3]. split; [done|eauto].
  - cbn. by rewrite dom_insert_lookup_L.
Qed.

(** The record [pkt_alloc] hands out. *)
Definition cleared_pkt (x : QUIC_TXPIM_PKT_EX) : QUIC_TXPIM_PKT_EX :=
  mkPkt zero_ackm_pkt None false (pkt_type x) false false false false false false (chunks x) 0 (alloc_chunks x) (chunks_need_sort x).

Lemma clear_pkt_run p t x : pkts t !! p = Some x -> txpim_clear p t = (Ret tt, set_pkts (<[p := cleared_pkt x]> (pkts t)) t).
Proof.
  intros Hx. unfold txpim_clear, ossl_quic_txpim_pkt_clear_chunks.
  rewrite (bind_ret _ _ _ _ _ (upd_pkt_run _ _ _ _ Hx)).
  do 3 (erewrite bind_ret by (erewrite upd_pkt_run by (cbn; apply lookup_insert_eq); rewrite set_pkts_twice; reflexivity)).
  erewrite upd_pkt_run by (cbn; apply lookup_insert_eq). by rewrite set_pkts_twice.
Qed.

(** An allocated record is taken out of the free list. *)
Lemma take_run F U t p : pool_ok F U t -> p ∈ F -> Z.of_nat (length U) + 1 < UINT64_MOD -> exists t' F',
  (on_free (fun l => list_remove l p);; modify (fun t => mkTxpim (pkts t) (links t) (free_list t) (u64 (in_use t + 1)));; mret p) t = (Ret p, t') /\
  pool_ok F' (p :: U) t' /\ pkts t' = pkts t.
Proof.
  intros [H1 H2 H3 H4 H5 H6] (a & b & ->)%list_elem_of_split Hs. destruct (remove_dl a b _ _ p H1) as (l' & k & E & Hd & [Hdom _] & _).
  rewrite (bind_ret _ _ t tt (mkTxpim (pkts t) k l' (in_use t))) by (unfold on_free; by rewrite E).
  eexists _, (a ++ b). split; [done|]. split; [|done]. assert (Hperm : (a ++ b) ++ p :: U ≡ₚ (a ++ p :: b) ++ U) by solve_Permutation. split; cbn.
  - done.
  - by rewrite Hperm.
  - intros q. rewrite H3. by rewrite Hperm.
  - congruence.
  - rewrite H5. rewrite u64_id by (unfold is_u64; lia). lia.
  - lia.
Qed.

Lemma pkt_alloc_run F U t mem : pool_ok F U t -> (forall p, mem = Some p -> pkts t !! p = None) -> Z.of_nat (length U) + 1 < UINT64_MOD ->
  ossl_quic_txpim_pkt_alloc mem t = (Err, t) /\ F = [] /\ mem = None \/
  exists p x t' F', ossl_quic_txpim_pkt_alloc mem t = (Ret p, t') /\ pool_ok F' (p :: U) t' /\ pkts t' = <[p := cleared_pkt x]> (pkts t) /\
    (pkts t !! p = Some x \/ pkts t !! p = None /\ x = blank_pkt).
Proof.
  intros Hok Hm Hs. pose proof (po_dl _ _ _ Hok) as Hd. pose proof (dl_list _ _ _ Hd) as El. unfold ossl_quic_txpim_pkt_alloc, txpim_get_free.
  destruct F as [|p F].
  - destruct mem as [p|]; [right|left; rewrite (bind_err _ _ t t); [done|]; by rewrite (bind_ret get _ t t t), El]. specialize (Hm p eq_refl).
    set (t0 := mkTxpim (<[p := blank_pkt]> (pkts t)) (<[p := mkNode None None]> (links t)) (free_list t) (in_use t)).
    assert (Hp : p ∉ U) by (intros Hp; destruct (proj2 (po_in _ _ _ Hok p)) as [? ?]; [done|congruence]).
    destruct (insert_tail_dl [] (free_list t0) (links t0) p) as (l' & k & E & Hd' & [Hdom _]); [by apply dl_nil|by intros ?%elem_of_nil|cbn; rewrite lookup_insert_eq; eauto|].
    set (t1 := mkTxpim (pkts t0) k l' (in_use t0)). rewrite (bind_ret _ _ t p t1).
    2: { rewrite (bind_ret get _ t t t), El by done. cbn [head_ head]. rewrite (bind_ret (modify _) _ t tt t0) by done. by rewrite (bind_ret _ _ t0 tt t1) by (unfold on_free; by rewrite E). }
    assert (Hok1 : pool_ok [p] U t1).
    { destruct Hok as [H1 H2 H3 H4 H5 H6]. split; try done.
      - apply NoDup_cons. split; [done|]. by cbn in H2.
      - intros q. cbn. rewrite lookup_insert. destruct (decide (p = q)) as [->|Hne]; [split; [intros _; left|eauto]|]. rewrite H3. cbn. rewrite elem_of_cons. split; [by right|by intros [->|]].
      - cbn in *. by rewrite Hdom, !dom_insert_L, H4. }
    assert (Hx : pkts t1 !! p = Some blank_pkt) by (cbn; apply lookup_insert_eq). rewrite (bind_ret _ _ _ _ _ (clear_pkt_run _ _ _ Hx)).
    destruct (take_run [p] U (set_pkts (<[p := cleared_pkt blank_pkt]> (pkts t1)) t1) p) as (t' & F' & E' & Hok' & Ep); [apply pool_set; [done|left]|left|done|].
    exists p, blank_pkt, t', F'. split_and!; try done; [|by right]. rewrite Ep. cbn. by rewrite insert_insert_eq.
  - right. assert (Hin : p ∈ p :: F) by left. destruct (proj2 (po_in _ _ _ Hok p)) as [x Hx]; [apply elem_of_app; by left|].
    rewrite (bind_ret _ _ t p t) by (by rewrite (bind_ret get _ t t t), El). rewrite (bind_ret _ _ _ _ _ (clear_pkt_run _ _ _ Hx)).
    destruct (take_run (p :: F) U (set_pkts (<[p := cleared_pkt x]> (pkts t)) t) p) as (t' & F' & E' & Hok' & Ep); [apply pool_set; [done|apply elem_of_app; by left]|done|done|].
    exists p, x, t', F'. split_and!; try done. by left.
Qed.

Lemma pkt_release_run F a p b t : pool_ok F (a ++ p :: b) t -> exists t',
  ossl_quic_txpim_pkt_release p t = (Ret tt, t') /\ pool_ok (F ++ [p]) (a ++ b) t' /\ pkts t' = pkts t.
Proof.
  intros [H1 H2 H3 H4 H5 H6]. rewrite length_app in H5, H6. cbn in H5, H6. unfold ossl_quic_txpim_pkt_release. rewrite (bind_ret get _ t t t) by done.
  replace (0 <? in_use t) with true by (symmetry; apply Z.ltb_lt; lia). rewrite (bind_ret (modify _) _ t tt (mkTxpim (pkts t) (links t) (free_list t) (u64 (in_use t - 1)))) by done.
  assert (Hp : p ∉ F). { intros Hp. apply NoDup_app in H2 as (_ & H2 & _). apply (H2 p Hp), elem_of_app. right. left. }
  destruct (insert_tail_dl F (free_list t) (links t) p H1 Hp) as (l' & k & E & Hd & [Hdom _]).
  { apply elem_of_dom. rewrite H4. apply elem_of_dom, H3, elem_of_app. right. apply elem_of_app. right. left. }
  eexists. split; [unfold on_free; cbn; rewrite E; reflexivity|]. split; [|done]. assert (Hperm : (F ++ [p]) ++ a ++ b ≡ₚ F ++ a ++ p :: b) by solve_Permutation. split; cbn.
  - done.
  - by rewrite Hperm.
  - intros q. rewrite H3. by rewrite Hperm.
  - congruence.
  - rewrite length_app. rewrite u64_id by (unfold is_u64; lia). lia.
  - rewrite length_app. lia.
Qed.

(** ** Chunks *)

Lemma grown_range n : n = 0 \/ 4 <= n < MAX_ALLOC_CHUNKS -> n < grown n <= MAX_ALLOC_CHUNKS /\ 4 <= grown n.
Proof.
  unfold grown, MAX_ALLOC_CHUNKS. intros H. destruct (n =? 0) eqn:E; [apply Z.eqb_eq in E as ->; cbn; lia|]. apply Z.eqb_neq in E.
  rewrite u64_id by (unfold is_u64; lia). pose proof (Z.div_mod (n * 8) 5) as Hd. pose proof (Z.mod_pos_bound (n * 8) 5). destruct (512 <? _) eqn:El; [lia|]. apply Z.ltb_ge in El. lia.
Qed.

(** Writing behind the last chunk. *)
Lemma write_chunk (l : list QUIC_TXPIM_CHUNK) n c : (n < length l)%nat -> take (S n) (<[n := c]> l) = take n l ++ [c].
Proof.
  intros Hn. rewrite (take_S_r _ _ c) by (by apply list_lookup_insert_eq). by rewrite take_insert_ge by lia.
Qed.

(** [y] is [x] with one more chunk. *)
Record appended (c : QUIC_TXPIM_CHUNK) (x y : QUIC_TXPIM_PKT_EX) : Prop := {
  ap_rest : y = set_chunks (chunks y) (num_chunks x + 1) (alloc_chunks y) true x;
  ap_ok : array_ok y;
  ap_used : used y = used x ++ [c]
}.

(** The array after a reallocation, if there was one. *)
Definition room (alloc : bool) (x : QUIC_TXPIM_PKT_EX) : bool :=
  if num_chunks x =? MAX_ALLOC_CHUNKS then false else negb (num_chunks x =? alloc_chunks x) || alloc.

Lemma append_run t p x alloc c : pkts t !! p = Some x -> array_ok x ->
  (room alloc x = false /\ ossl_quic_txpim_pkt_append_chunk alloc p c t = (Err, t)) \/
  (room alloc x = true /\ exists y, appended c x y /\ ossl_quic_txpim_pkt_append_chunk alloc p c t = (Ret tt, set_pkts (<[p := y]> (pkts t)) t)).
Proof.
  intros Hx [Hn Ha Hl Hs]. unfold ossl_quic_txpim_pkt_append_chunk, room. rewrite (bind_ret _ _ _ _ _ (pkt_run _ _ _ Hx)).
  assert (Hw : forall x1, num_chunks x1 = num_chunks x -> Z.of_nat (length (chunks x1)) = alloc_chunks x1 -> num_chunks x < alloc_chunks x1 -> 4 <= alloc_chunks x1 <= MAX_ALLOC_CHUNKS ->
    used x1 = used x -> x1 = set_chunks (chunks x1) (num_chunks x) (alloc_chunks x1) (chunks_need_sort x) x ->
    let y := set_chunks (<[Z.to_nat (num_chunks x1) := c]> (chunks x1)) (u64 (num_chunks x1 + 1)) (alloc_chunks x1) true x1 in appended c x y).
  { intros x1 En El Hlt Hm Eu Er. unfold MAX_ALLOC_CHUNKS in Hm. cbn. rewrite u64_id by (unfold is_u64; lia). split; cbn.
    - rewrite En. by rewrite Er.
    - split; cbn; [lia|unfold MAX_ALLOC_CHUNKS; lia|by rewrite length_insert|done].
    - unfold used at 1. cbn. replace (Z.to_nat (num_chunks x1 + 1)) with (S (Z.to_nat (num_chunks x1))) by lia. rewrite write_chunk by lia. f_equal. exact Eu. }
  destruct (num_chunks x =? alloc_chunks x) eqn:En; cbn [negb orb].
  - apply Z.eqb_eq in En. destruct (num_chunks x =? MAX_ALLOC_CHUNKS) eqn:Em.
    { apply Z.eqb_eq in Em. left. split; [done|]. by rewrite <- En, Em. }
    apply Z.eqb_neq in Em. destruct (grown_range (alloc_chunks x)) as [Hg Hg4]; [lia|]. replace (num_chunks x =? grown (alloc_chunks x)) with false by (symmetry; apply Z.eqb_neq; lia).
    destruct alloc; [right|by left]. split; [done|]. cbn [negb guard_].
    set (x1 := set_chunks (take (Z.to_nat (grown (alloc_chunks x))) (chunks x) ++ replicate (Z.to_nat (grown (alloc_chunks x)) - length (chunks x)) blank_chunk) (num_chunks x) (grown (alloc_chunks x)) (chunks_need_sort x) x).
    set (t1 := set_pkts (<[p := x1]> (pkts t)) t). assert (Hx1 : pkts t1 !! p = Some x1) by (cbn; apply lookup_insert_eq).
    assert (El1 : Z.of_nat (length (chunks x1)) = alloc_chunks x1) by (cbn; rewrite length_app, length_take, length_replicate; lia).
    eexists. split; [apply (Hw x1); try done; cbn; try lia|].
    + unfold used, x1. cbn. rewrite take_app_le by (rewrite length_take; lia). rewrite take_take. f_equal. lia.
    + erewrite bind_ret by (cbn [guard_]; rewrite (bind_ret (mret tt) _ t tt t) by done; rewrite (bind_ret (mret tt) _ t tt t) by done; exact (upd_pkt_run _ _ _ _ Hx)).
      fold x1 t1. rewrite (bind_ret _ _ _ _ _ (pkt_run _ _ _ Hx1)).
      replace (num_chunks x1 <? Z.of_nat (length (chunks x1))) with true by (symmetry; apply Z.ltb_lt; rewrite El1; cbn; lia).
      rewrite (upd_pkt_run _ _ _ _ Hx1). unfold t1. by rewrite set_pkts_twice.
  - apply Z.eqb_neq in En. unfold MAX_ALLOC_CHUNKS in *. replace (num_chunks x =? 512) with false by (symmetry; apply Z.eqb_neq; lia). right. split; [done|].
    eexists. split; [apply (Hw x); try done; try lia; by destruct x|]. rewrite (bind_ret (mret tt) _ t tt t) by done. rewrite (bind_ret _ _ _ _ _ (pkt_run _ _ _ Hx)).
    replace (num_chunks x <? Z.of_nat (length (chunks x))) with true by (symmetry; apply Z.ltb_lt; lia). by rewrite (upd_pkt_run _ _ _ _ Hx).
Qed.

Section Sorted.
Context `{!Qsort, !QsortLaws}.

(** [y] is [x] with its chunks in order. *)
Record ordered (x y : QUIC_TXPIM_PKT_EX) : Prop := {
  or_rest : y = set_chunks (chunks y) (num_chunks x) (alloc_chunks x) false x;
  or_ok : array_ok y;
  or_perm : used y ≡ₚ used x
}.

Lemma get_chunks_run t p x : pkts t !! p = Some x -> array_ok x -> exists y,
  ordered x y /\ ossl_quic_txpim_pkt_get_chunks p t = (Ret (chunks y), set_pkts (<[p := y]> (pkts t)) t).
Proof.
  intros Hx [Hn Ha Hl Hs]. unfold ossl_quic_txpim_pkt_get_chunks. rewrite (bind_ret _ _ _ _ _ (pkt_run _ _ _ Hx)). destruct (chunks_need_sort x) eqn:En.
  - replace (num_chunks x <=? Z.of_nat (length (chunks x))) with true by (symmetry; apply Z.leb_le; lia).
    set (n := Z.to_nat (num_chunks x)). set (y := set_chunks (qsort (take n (chunks x)) ++ drop n (chunks x)) (num_chunks x) (alloc_chunks x) false x).
    assert (Hlen : length (qsort (take n (chunks x))) = n) by (rewrite qsort_perm, length_take; lia).
    assert (Hu : used y = qsort (take n (chunks x))) by (unfold used, y; cbn; by rewrite take_app_length').
    exists y. split; [split; [done| |by rewrite Hu, qsort_perm]|].
    + split; cbn; [done|done|rewrite length_app, Hlen, length_drop; lia|]. intros _. rewrite Hu. apply qsort_sorted.
    + rewrite (bind_ret _ _ _ _ _ (upd_pkt_run _ _ _ _ Hx)). fold n y. erewrite bind_ret by (apply pkt_run; cbn; apply lookup_insert_eq). done.
  - exists x. rewrite insert_id by done. split; [split; [rewrite <- En; by destruct x|split; auto|done]|].
    rewrite (bind_ret (mret tt) _ t tt t) by done. rewrite (bind_ret _ _ _ _ _ (pkt_run _ _ _ Hx)). by destruct t.
Qed.

Definition append_all (p : nat) (cs : list QUIC_TXPIM_CHUNK) : M QUIC_TXPIM unit :=
  foldr (fun c m => ossl_quic_txpim_pkt_append_chunk true p c;; m) (mret tt) cs.

Lemma append_all_run p cs : forall t x, pkts t !! p = Some x -> array_ok x -> num_chunks x + Z.of_nat (length cs) <= MAX_ALLOC_CHUNKS ->
  exists y, append_all p cs t = (Ret tt, set_pkts (<[p := y]> (pkts t)) t) /\ array_ok y /\ used y = used x ++ cs /\ num_chunks y = num_chunks x + Z.of_nat (length cs).
Proof.
  induction cs as [|c cs IH]; intros t x Hx Hok Hn; cbn [append_all foldr].
  - exists x. rewrite insert_id, app_nil_r by done. split_and!; [by destruct t|done|done|cbn; lia].
  - cbn in Hn. destruct (append_run t p x true c Hx Hok) as [[Hr _]|[_ (y & [Hrest Hoky Hu] & E)]].
    { unfold room in Hr. rewrite orb_true_r in Hr. destruct (num_chunks x =? MAX_ALLOC_CHUNKS) eqn:Em; [|done]. apply Z.eqb_eq in Em. lia. }
    assert (En : num_chunks y = num_chunks x + 1) by (by rewrite Hrest). rewrite (bind_ret _ _ _ _ _ E).
    destruct (IH (set_pkts (<[p := y]> (pkts t)) t) y) as (z & Ez & Hz & Huz & Hnz); [cbn; apply lookup_insert_eq|done|lia|].
    exists z. rewrite set_pkts_twice in Ez. split_and!; [done|done|by rewrite Huz, Hu, <- app_assoc|cbn; lia].
Qed.

(** A record handed out by [pkt_alloc] takes up to 512 chunks, whatever the
    sizes its array has on the way, when allocations succeed; the array
    [get_chunks] returns then begins with exactly these chunks, ordered by stream
    and offset.  The 513th chunk is refused, and the record is left as it was. *)
Theorem txpim_chunks_kept t p x cs : pkts t !! p = Some x -> array_ok x -> num_chunks x = 0 -> Z.of_nat (length cs) <= MAX_ALLOC_CHUNKS ->
  exists t' l t'', append_all p cs t = (Ret tt, t') /\ ossl_quic_txpim_pkt_get_num_chunks p t' = (Ret (Z.of_nat (length cs)), t') /\
    ossl_quic_txpim_pkt_get_chunks p t' = (Ret l, t'') /\ take (length cs) l ≡ₚ cs /\
    StronglySorted (fun a b => compare a b <= 0) (take (length cs) l) /\
    (Z.of_nat (length cs) = MAX_ALLOC_CHUNKS -> forall alloc c, ossl_quic_txpim_pkt_append_chunk alloc p c t'' = (Err, t'')).
Proof.
  intros Hx Hok Hn Hl. destruct (append_all_run p cs t x Hx Hok) as (y & E & Hy & Hu & Hny); [lia|]. set (t' := set_pkts (<[p := y]> (pkts t)) t) in *.
  assert (Hx' : pkts t' !! p = Some y) by (cbn; apply lookup_insert_eq). destruct (get_chunks_run t' p y Hx' Hy) as (z & [Hrest Hz Hp] & Ez).
  assert (Hnz : num_chunks z = Z.of_nat (length cs)) by (rewrite Hrest; cbn; lia).
  assert (Huz : take (length cs) (chunks z) = used z) by (unfold used; f_equal; lia). assert (Hux : used x = []) by (unfold used; by rewrite Hn).
  eexists t', (chunks z), _. split_and!; [done| |exact Ez|by rewrite Huz, Hp, Hu, Hux| |].
  - unfold ossl_quic_txpim_pkt_get_num_chunks. rewrite (bind_ret _ _ _ _ _ (pkt_run _ _ _ Hx')). by rewrite Hny, Hn.
  - rewrite Huz. apply (ao_sorted _ Hz). by rewrite Hrest.
  - intros Hmax alloc c. edestruct (append_run (set_pkts (<[p := z]> (pkts t')) t') p z alloc c) as [[_ Ea]|[Hr _]]; [cbn; apply lookup_insert_eq|done|done|].
    unfold room in Hr. by rewrite Hnz, Hmax in Hr.
Qed.
End Sorted.
End Txpim.
