(* ===== verification/Ackm.v ===== *)
(** * The ACK manager

    Model of the second half of [ssl/quic/quic_ackm.c], loss recovery (RFC
    9002) and the generation of ACK frames.

    The functions are in the monad of the prelude: [Err] is a return value of 0,
    [Undef] an assertion that fails or an access out of bounds, the state is kept
    in every case.  The arrays indexed by packet number space are triples.  The
    callbacks of packets and deadlines only append to the log of the state.  A
    reading of the clock takes the next value of [now].  The congestion
    controller is a parameter: a table of methods on a state of any type.

    Packets belong to the caller, and [ackm_on_pkts_acked] reads [is_inflight] of a packet
    after its callback, which is allowed to free it; here the fields of a packet are those it had,
    so the model is that of a caller which keeps a packet until the function
    returns.  The only caller does: its callbacks give the record of a packet back to a pool
    without touching the packet in it ([fifd_fates] of FifdSpec).  The fields
    [lowest_unacked_pkt], never used, and variables that are only assigned
    are left out.  [ossl_ackm_free] only gives memory back. *)
From Stdlib Require Import ZArith Lia Bool.
From stdpp Require Import base tactics list gmap.
From S2P Require Import Prelude OsslTime UintSet Statm NewReno QuicWire AckHist.
#[local] Open Scope Z_scope.
Import OsslTime Statm AckHist.
Import QuicWire(OSSL_QUIC_ACK_RANGE, range_start, range_end, OSSL_QUIC_FRAME_ACK, mkAck, ack_ranges, num_ack_ranges,
  delay_time, ect0, ect1, ecnce, ecn_present, used_ranges).

Module Ackm.

(** ** Data *)

Record per_space (A : Type) := mkPer { p_initial : A; p_handshake : A; p_app : A }.
Arguments mkPer {A}.
Arguments p_initial {A}.
Arguments p_handshake {A}.
Arguments p_app {A}.

Definition sel {A} (v : per_space A) (s : QUIC_PN_SPACE) : A :=
  match s with
  | QUIC_PN_SPACE_INITIAL => p_initial v
  | QUIC_PN_SPACE_HANDSHAKE => p_handshake v
  | QUIC_PN_SPACE_APP => p_app v
  end.
Definition alter_at {A} (s : QUIC_PN_SPACE) (f : A -> A) (v : per_space A) : per_space A :=
  match s with
  | QUIC_PN_SPACE_INITIAL => mkPer (f (p_initial v)) (p_handshake v) (p_app v)
  | QUIC_PN_SPACE_HANDSHAKE => mkPer (p_initial v) (f (p_handshake v)) (p_app v)
  | QUIC_PN_SPACE_APP => mkPer (p_initial v) (p_handshake v) (f (p_app v))
  end.

Inductive OSSL_ACKM_ECN := OSSL_ACKM_ECN_NONE | OSSL_ACKM_ECN_ECT1 | OSSL_ACKM_ECN_ECT0 | OSSL_ACKM_ECN_ECNCE.

Record OSSL_ACKM_RX_PKT := mkRx {
  rx_pkt_num : Z; rx_time : OSSL_TIME; rx_pkt_space : QUIC_PN_SPACE; rx_is_ack_eliciting : bool; ecn : OSSL_ACKM_ECN
}.

Record OSSL_ACKM_PROBE_INFO := mkProbe {
  anti_deadlock_initial : Z; anti_deadlock_handshake : Z; pto : per_space Z
}.

(** The methods the ACK manager calls. *)
Record OSSL_CC_METHOD (CC : Type) := mkMethod {
  on_data_sent : CC -> Z -> bool * CC;
  on_data_acked : CC -> NewReno.OSSL_CC_ACK_INFO -> bool * CC;
  on_data_lost : CC -> NewReno.OSSL_CC_LOSS_INFO -> bool * CC;
  on_data_lost_finished : CC -> Z -> bool * CC;
  on_data_invalidated : CC -> Z -> bool * CC;
  on_ecn : CC -> NewReno.OSSL_CC_ECN_INFO -> bool * CC
}.
Arguments mkMethod {CC}.
Arguments on_data_sent {CC}.
Arguments on_data_acked {CC}.
Arguments on_data_lost {CC}.
Arguments on_data_lost_finished {CC}.
Arguments on_data_invalidated {CC}.
Arguments on_ecn {CC}.

Definition ossl_cc_newreno_method : OSSL_CC_METHOD NewReno.cc_state :=
  mkMethod NewReno.newreno_on_data_sent NewReno.newreno_on_data_acked NewReno.newreno_on_data_lost
    NewReno.newreno_on_data_lost_finished NewReno.newreno_on_data_invalidated NewReno.newreno_on_ecn.

(** The elements of the arrays of [ossl_ackm_st], by packet number space: those
    that concern packets sent and those that concern packets received. *)
Record tx_state := mkTxs {
  tx_history : tx_pkt_history_st; largest_acked_pkt : Z; time_of_last_ack_eliciting_pkt : OSSL_TIME;
  loss_time : OSSL_TIME; ack_eliciting_bytes_in_flight : Z; peer_ecnce : Z
}.
Record rx_state := mkRxs {
  rx_history : rx_pkt_history_st; rx_ack_desired : bool; rx_ack_generated : bool; ack : OSSL_QUIC_FRAME_ACK;
  rx_largest_pn : Z; rx_largest_time : OSSL_TIME; rx_ect0 : Z; rx_ect1 : Z; rx_ecnce : Z;
  rx_ack_eliciting_pkts_since_last_ack : Z; rx_ack_flush_deadline : OSSL_TIME
}.

(** Calls of the callbacks. *)
Inductive event :=
  | Acked (p : OSSL_ACKM_TX_PKT) | Lost (p : OSSL_ACKM_TX_PKT) | Discarded (p : OSSL_ACKM_TX_PKT)
  | LossDeadline (t : OSSL_TIME) | AckDeadline (t : OSSL_TIME) (s : QUIC_PN_SPACE).

Record OSSL_ACKM (CC : Type) := mkAckm {
  tx : per_space tx_state; rx : per_space rx_state; discarded : per_space bool;
  now : clock; statm : OSSL_STATM; cc_data : CC;
  pto_count : Z; loss_detection_deadline : OSSL_TIME; first_rtt_sample : OSSL_TIME; bytes_in_flight : Z;
  handshake_confirmed : bool; peer_completed_addr_validation : bool; pending_probe : OSSL_ACKM_PROBE_INFO;
  rx_max_ack_delay : OSSL_TIME; tx_max_ack_delay : OSSL_TIME;
  loss_detection_deadline_cb : bool; ack_deadline_cb : bool; log : list event
}.
Arguments mkAckm {CC}.
Arguments tx {CC}.
Arguments rx {CC}.
Arguments discarded {CC}.
Arguments now {CC}.
Arguments statm {CC}.
Arguments cc_data {CC}.
Arguments pto_count {CC}.
Arguments loss_detection_deadline {CC}.
Arguments first_rtt_sample {CC}.
Arguments bytes_in_flight {CC}.
Arguments handshake_confirmed {CC}.
Arguments peer_completed_addr_validation {CC}.
Arguments pending_probe {CC}.
Arguments rx_max_ack_delay {CC}.
Arguments tx_max_ack_delay {CC}.
Arguments loss_detection_deadline_cb {CC}.
Arguments ack_deadline_cb {CC}.
Arguments log {CC}.

(** Assignments to one field. *)
Definition set_tx_history (v : tx_pkt_history_st) (s : tx_state) : tx_state :=
    mkTxs v (largest_acked_pkt s) (time_of_last_ack_eliciting_pkt s) (loss_time s) (ack_eliciting_bytes_in_flight s)
    (peer_ecnce s).
Definition set_largest_acked_pkt (v : Z) (s : tx_state) : tx_state :=
    mkTxs (tx_history s) v (time_of_last_ack_eliciting_pkt s) (loss_time s) (ack_eliciting_bytes_in_flight s)
    (peer_ecnce s).
Definition set_time_of_last_ack_eliciting_pkt (v : OSSL_TIME) (s : tx_state) : tx_state :=
  mkTxs (tx_history s) (largest_acked_pkt s) v (loss_time s) (ack_eliciting_bytes_in_flight s) (peer_ecnce s).
Definition set_loss_time (v : OSSL_TIME) (s : tx_state) : tx_state :=
    mkTxs (tx_history s) (largest_acked_pkt s) (time_of_last_ack_eliciting_pkt s) v (ack_eliciting_bytes_in_flight
    s) (peer_ecnce s).
Definition set_ack_eliciting_bytes_in_flight (v : Z) (s : tx_state) : tx_state :=
  mkTxs (tx_history s) (largest_acked_pkt s) (time_of_last_ack_eliciting_pkt s) (loss_time s) v (peer_ecnce s).
Definition set_peer_ecnce (v : Z) (s : tx_state) : tx_state :=
    mkTxs (tx_history s) (largest_acked_pkt s) (time_of_last_ack_eliciting_pkt s) (loss_time s)
    (ack_eliciting_bytes_in_flight s) v.
Definition set_rx_history (v : rx_pkt_history_st) (s : rx_state) : rx_state :=
    mkRxs v (rx_ack_desired s) (rx_ack_generated s) (ack s) (rx_largest_pn s) (rx_largest_time s) (rx_ect0 s)
    (rx_ect1 s) (rx_ecnce s) (rx_ack_eliciting_pkts_since_last_ack s) (rx_ack_flush_deadline s).
Definition set_rx_ack_desired (v : bool) (s : rx_state) : rx_state :=
    mkRxs (rx_history s) v (rx_ack_generated s) (ack s) (rx_largest_pn s) (rx_largest_time s) (rx_ect0 s) (rx_ect1
    s) (rx_ecnce s) (rx_ack_eliciting_pkts_since_last_ack s) (rx_ack_flush_deadline s).
Definition set_rx_ack_generated (v : bool) (s : rx_state) : rx_state :=
    mkRxs (rx_history s) (rx_ack_desired s) v (ack s) (rx_largest_pn s) (rx_largest_time s) (rx_ect0 s) (rx_ect1 s)
    (rx_ecnce s) (rx_ack_eliciting_pkts_since_last_ack s) (rx_ack_flush_deadline s).
Definition set_ack (v : OSSL_QUIC_FRAME_ACK) (s : rx_state) : rx_state :=
    mkRxs (rx_history s) (rx_ack_desired s) (rx_ack_generated s) v (rx_largest_pn s) (rx_largest_time s) (rx_ect0 s)
    (rx_ect1 s) (rx_ecnce s) (rx_ack_eliciting_pkts_since_last_ack s) (rx_ack_flush_deadline s).
Definition set_rx_largest_pn (v : Z) (s : rx_state) : rx_state :=
    mkRxs (rx_history s) (rx_ack_desired s) (rx_ack_generated s) (ack s) v (rx_largest_time s) (rx_ect0 s) (rx_ect1
    s) (rx_ecnce s) (rx_ack_eliciting_pkts_since_last_ack s) (rx_ack_flush_deadline s).
Definition set_rx_largest_time (v : OSSL_TIME) (s : rx_state) : rx_state :=
    mkRxs (rx_history s) (rx_ack_desired s) (rx_ack_generated s) (ack s) (rx_largest_pn s) v (rx_ect0 s) (rx_ect1 s)
    (rx_ecnce s) (rx_ack_eliciting_pkts_since_last_ack s) (rx_ack_flush_deadline s).
Definition set_rx_ect0 (v : Z) (s : rx_state) : rx_state :=
    mkRxs (rx_history s) (rx_ack_desired s) (rx_ack_generated s) (ack s) (rx_largest_pn s) (rx_largest_time s) v
    (rx_ect1 s) (rx_ecnce s) (rx_ack_eliciting_pkts_since_last_ack s) (rx_ack_flush_deadline s).
Definition set_rx_ect1 (v : Z) (s : rx_state) : rx_state :=
    mkRxs (rx_history s) (rx_ack_desired s) (rx_ack_generated s) (ack s) (rx_largest_pn s) (rx_largest_time s)
    (rx_ect0 s) v (rx_ecnce s) (rx_ack_eliciting_pkts_since_last_ack s) (rx_ack_flush_deadline s).
Definition set_rx_ecnce (v : Z) (s : rx_state) : rx_state :=
    mkRxs (rx_history s) (rx_ack_desired s) (rx_ack_generated s) (ack s) (rx_largest_pn s) (rx_largest_time s)
    (rx_ect0 s) (rx_ect1 s) v (rx_ack_eliciting_pkts_since_last_ack s) (rx_ack_flush_deadline s).
Definition set_rx_ack_eliciting_pkts_since_last_ack (v : Z) (s : rx_state) : rx_state :=
    mkRxs (rx_history s) (rx_ack_desired s) (rx_ack_generated s) (ack s) (rx_largest_pn s) (rx_largest_time s)
    (rx_ect0 s) (rx_ect1 s) (rx_ecnce s) v (rx_ack_flush_deadline s).
Definition set_rx_ack_flush_deadline (v : OSSL_TIME) (s : rx_state) : rx_state :=
    mkRxs (rx_history s) (rx_ack_desired s) (rx_ack_generated s) (ack s) (rx_largest_pn s) (rx_largest_time s)
    (rx_ect0 s) (rx_ect1 s) (rx_ecnce s) (rx_ack_eliciting_pkts_since_last_ack s) v.
Definition set_tx {CC} (v : per_space tx_state) (s : OSSL_ACKM CC) : OSSL_ACKM CC :=
    mkAckm v (rx s) (discarded s) (now s) (statm s) (cc_data s) (pto_count s) (loss_detection_deadline s)
    (first_rtt_sample s) (bytes_in_flight s) (handshake_confirmed s) (peer_completed_addr_validation s)
    (pending_probe s) (rx_max_ack_delay s) (tx_max_ack_delay s) (loss_detection_deadline_cb s) (ack_deadline_cb s)
    (log s).
Definition set_rx {CC} (v : per_space rx_state) (s : OSSL_ACKM CC) : OSSL_ACKM CC :=
    mkAckm (tx s) v (discarded s) (now s) (statm s) (cc_data s) (pto_count s) (loss_detection_deadline s)
    (first_rtt_sample s) (bytes_in_flight s) (handshake_confirmed s) (peer_completed_addr_validation s)
    (pending_probe s) (rx_max_ack_delay s) (tx_max_ack_delay s) (loss_detection_deadline_cb s) (ack_deadline_cb s)
    (log s).
Definition set_discarded {CC} (v : per_space bool) (s : OSSL_ACKM CC) : OSSL_ACKM CC :=
    mkAckm (tx s) (rx s) v (now s) (statm s) (cc_data s) (pto_count s) (loss_detection_deadline s) (first_rtt_sample
    s) (bytes_in_flight s) (handshake_confirmed s) (peer_completed_addr_validation s) (pending_probe s)
    (rx_max_ack_delay s) (tx_max_ack_delay s) (loss_detection_deadline_cb s) (ack_deadline_cb s) (log s).
Definition set_now {CC} (v : clock) (s : OSSL_ACKM CC) : OSSL_ACKM CC :=
    mkAckm (tx s) (rx s) (discarded s) v (statm s) (cc_data s) (pto_count s) (loss_detection_deadline s)
    (first_rtt_sample s) (bytes_in_flight s) (handshake_confirmed s) (peer_completed_addr_validation s)
    (pending_probe s) (rx_max_ack_delay s) (tx_max_ack_delay s) (loss_detection_deadline_cb s) (ack_deadline_cb s)
    (log s).
Definition set_statm {CC} (v : OSSL_STATM) (s : OSSL_ACKM CC) : OSSL_ACKM CC :=
    mkAckm (tx s) (rx s) (discarded s) (now s) v (cc_data s) (pto_count s) (loss_detection_deadline s)
    (first_rtt_sample s) (bytes_in_flight s) (handshake_confirmed s) (peer_completed_addr_validation s)
    (pending_probe s) (rx_max_ack_delay s) (tx_max_ack_delay s) (loss_detection_deadline_cb s) (ack_deadline_cb s)
    (log s).
Definition set_cc_data {CC} (v : CC) (s : OSSL_ACKM CC) : OSSL_ACKM CC :=
    mkAckm (tx s) (rx s) (discarded s) (now s) (statm s) v (pto_count s) (loss_detection_deadline s)
    (first_rtt_sample s) (bytes_in_flight s) (handshake_confirmed s) (peer_completed_addr_validation s)
    (pending_probe s) (rx_max_ack_delay s) (tx_max_ack_delay s) (loss_detection_deadline_cb s) (ack_deadline_cb s)
    (log s).
Definition set_pto_count {CC} (v : Z) (s : OSSL_ACKM CC) : OSSL_ACKM CC :=
    mkAckm (tx s) (rx s) (discarded s) (now s) (statm s) (cc_data s) v (loss_detection_deadline s) (first_rtt_sample
    s) (bytes_in_flight s) (handshake_confirmed s) (peer_completed_addr_validation s) (pending_probe s)
    (rx_max_ack_delay s) (tx_max_ack_delay s) (loss_detection_deadline_cb s) (ack_deadline_cb s) (log s).
Definition set_loss_detection_deadline {CC} (v : OSSL_TIME) (s : OSSL_ACKM CC) : OSSL_ACKM CC :=
    mkAckm (tx s) (rx s) (discarded s) (now s) (statm s) (cc_data s) (pto_count s) v (first_rtt_sample s)
    (bytes_in_flight s) (handshake_confirmed s) (peer_completed_addr_validation s) (pending_probe s)
    (rx_max_ack_delay s) (tx_max_ack_delay s) (loss_detection_deadline_cb s) (ack_deadline_cb s) (log s).
Definition set_first_rtt_sample {CC} (v : OSSL_TIME) (s : OSSL_ACKM CC) : OSSL_ACKM CC :=
    mkAckm (tx s) (rx s) (discarded s) (now s) (statm s) (cc_data s) (pto_count s) (loss_detection_deadline s) v
    (bytes_in_flight s) (handshake_confirmed s) (peer_completed_addr_validation s) (pending_probe s)
    (rx_max_ack_delay s) (tx_max_ack_delay s) (loss_detection_deadline_cb s) (ack_deadline_cb s) (log s).
Definition set_bytes_in_flight {CC} (v : Z) (s : OSSL_ACKM CC) : OSSL_ACKM CC :=
    mkAckm (tx s) (rx s) (discarded s) (now s) (statm s) (cc_data s) (pto_count s) (loss_detection_deadline s)
    (first_rtt_sample s) v (handshake_confirmed s) (peer_completed_addr_validation s) (pending_probe s)
    (rx_max_ack_delay s) (tx_max_ack_delay s) (loss_detection_deadline_cb s) (ack_deadline_cb s) (log s).
Definition set_handshake_confirmed {CC} (v : bool) (s : OSSL_ACKM CC) : OSSL_ACKM CC :=
    mkAckm (tx s) (rx s) (discarded s) (now s) (statm s) (cc_data s) (pto_count s) (loss_detection_deadline s)
    (first_rtt_sample s) (bytes_in_flight s) v (peer_completed_addr_validation s) (pending_probe s)
    (rx_max_ack_delay s) (tx_max_ack_delay s) (loss_detection_deadline_cb s) (ack_deadline_cb s) (log s).
Definition set_peer_completed_addr_validation {CC} (v : bool) (s : OSSL_ACKM CC) : OSSL_ACKM CC :=
    mkAckm (tx s) (rx s) (discarded s) (now s) (statm s) (cc_data s) (pto_count s) (loss_detection_deadline s)
    (first_rtt_sample s) (bytes_in_flight s) (handshake_confirmed s) v (pending_probe s) (rx_max_ack_delay s)
    (tx_max_ack_delay s) (loss_detection_deadline_cb s) (ack_deadline_cb s) (log s).
Definition set_pending_probe {CC} (v : OSSL_ACKM_PROBE_INFO) (s : OSSL_ACKM CC) : OSSL_ACKM CC :=
    mkAckm (tx s) (rx s) (discarded s) (now s) (statm s) (cc_data s) (pto_count s) (loss_detection_deadline s)
    (first_rtt_sample s) (bytes_in_flight s) (handshake_confirmed s) (peer_completed_addr_validation s) v
    (rx_max_ack_delay s) (tx_max_ack_delay s) (loss_detection_deadline_cb s) (ack_deadline_cb s) (log s).
Definition set_rx_max_ack_delay {CC} (v : OSSL_TIME) (s : OSSL_ACKM CC) : OSSL_ACKM CC :=
    mkAckm (tx s) (rx s) (discarded s) (now s) (statm s) (cc_data s) (pto_count s) (loss_detection_deadline s)
    (first_rtt_sample s) (bytes_in_flight s) (handshake_confirmed s) (peer_completed_addr_validation s)
    (pending_probe s) v (tx_max_ack_delay s) (loss_detection_deadline_cb s) (ack_deadline_cb s) (log s).
Definition set_tx_max_ack_delay {CC} (v : OSSL_TIME) (s : OSSL_ACKM CC) : OSSL_ACKM CC :=
    mkAckm (tx s) (rx s) (discarded s) (now s) (statm s) (cc_data s) (pto_count s) (loss_detection_deadline s)
    (first_rtt_sample s) (bytes_in_flight s) (handshake_confirmed s) (peer_completed_addr_validation s)
    (pending_probe s) (rx_max_ack_delay s) v (loss_detection_deadline_cb s) (ack_deadline_cb s) (log s).
Definition set_loss_detection_deadline_cb {CC} (v : bool) (s : OSSL_ACKM CC) : OSSL_ACKM CC :=
    mkAckm (tx s) (rx s) (discarded s) (now s) (statm s) (cc_data s) (pto_count s) (loss_detection_deadline s)
    (first_rtt_sample s) (bytes_in_flight s) (handshake_confirmed s) (peer_completed_addr_validation s)
    (pending_probe s) (rx_max_ack_delay s) (tx_max_ack_delay s) v (ack_deadline_cb s) (log s).
Definition set_ack_deadline_cb {CC} (v : bool) (s : OSSL_ACKM CC) : OSSL_ACKM CC :=
    mkAckm (tx s) (rx s) (discarded s) (now s) (statm s) (cc_data s) (pto_count s) (loss_detection_deadline s)
    (first_rtt_sample s) (bytes_in_flight s) (handshake_confirmed s) (peer_completed_addr_validation s)
    (pending_probe s) (rx_max_ack_delay s) (tx_max_ack_delay s) (loss_detection_deadline_cb s) v (log s).
Definition set_log {CC} (v : list event) (s : OSSL_ACKM CC) : OSSL_ACKM CC :=
    mkAckm (tx s) (rx s) (discarded s) (now s) (statm s) (cc_data s) (pto_count s) (loss_detection_deadline s)
    (first_rtt_sample s) (bytes_in_flight s) (handshake_confirmed s) (peer_completed_addr_validation s)
    (pending_probe s) (rx_max_ack_delay s) (tx_max_ack_delay s) (loss_detection_deadline_cb s) (ack_deadline_cb s)
    v.

(** ** Constants *)

Definition K_GRANULARITY : Z := 1 * OSSL_TIME_MS.
Definition K_PKT_THRESHOLD : Z := 3.
Definition K_TIME_THRESHOLD_NUM : Z := 9.
Definition K_TIME_THRESHOLD_DEN : Z := 8.
Definition MAX_PTO_COUNT : Z := 16.
Definition QUIC_DEFAULT_MAX_ACK_DELAY : Z := 25.
Definition DEFAULT_TX_MAX_ACK_DELAY : OSSL_TIME := ossl_ms2time QUIC_DEFAULT_MAX_ACK_DELAY.
Definition PKTS_BEFORE_ACK : Z := 2.
Definition QUIC_PN_SPACE_NUM : Z := 3.
Definition spaces : list QUIC_PN_SPACE := [QUIC_PN_SPACE_INITIAL; QUIC_PN_SPACE_HANDSHAKE; QUIC_PN_SPACE_APP].

Definition min_u32 (x y : Z) : Z := if x <? y then x else y.

Section Methods.
Context {CC : Type} (cc_method : OSSL_CC_METHOD CC).
Abbreviation st := (OSSL_ACKM CC) (only parsing).

(** ** Parts of the state *)

Definition upd_tx (s : QUIC_PN_SPACE) (f : tx_state -> tx_state) : M st unit := modify (fun a => set_tx (alter_at s f (tx a)) a).
Definition upd_rx (s : QUIC_PN_SPACE) (f : rx_state -> rx_state) : M st unit := modify (fun a => set_rx (alter_at s f (rx a)) a).
Definition assert_ (b : bool) : M st unit := if b then mret tt else undefined.
Definition call (e : event) : M st unit := modify (fun a => set_log (log a ++ [e]) a).
Definition read_now : M st OSSL_TIME :=
  a ← get;
  let '(t, ck) := read_clock (now a) in
  modify (set_now ck);;
  mret t.
Definition cc_call (f : CC -> bool * CC) : M st unit := modify (fun a => set_cc_data (snd (f (cc_data a))) a).

Definition get_tx_history (s : QUIC_PN_SPACE) : M st tx_pkt_history_st :=
  a ← get;
  assert_ (negb (sel (discarded a) s));;
  mret (tx_history (sel (tx a) s)).
Definition get_rx_history (s : QUIC_PN_SPACE) : M st rx_pkt_history_st :=
  a ← get;
  assert_ (negb (sel (discarded a) s));;
  mret (rx_history (sel (rx a) s)).

Definition ack_includes_ack_eliciting (l : list OSSL_ACKM_TX_PKT) : bool := existsb is_ack_eliciting l.

Definition ackm_ack_eliciting_bytes_in_flight (a : st) : Z :=
  foldl (fun total i => u64 (total + ack_eliciting_bytes_in_flight (sel (tx a) i))) 0 spaces.

Definition range_contains (range : OSSL_QUIC_ACK_RANGE) (pn : Z) : bool :=
  (range_start range <=? pn) && (pn <=? range_end range).

(** ** Packets that an ACK frame acknowledges *)

(** The inner loop: the ranges from the one at which it stops.  A range is passed
    when the packet is below it, as the assertion there says. *)
Fixpoint advance (pn : Z) (ranges : list OSSL_QUIC_ACK_RANGE) : list OSSL_QUIC_ACK_RANGE :=
  match ranges with
  | [] => []
  | r :: rest =>
      if range_contains r pn then ranges
      else if range_end r <? pn then ranges
      else advance pn rest
  end.

(** The outer loop, from a packet towards the lowest numbers. *)
Fixpoint acked_walk (h : tx_pkt_history_st) (pkts : list OSSL_ACKM_TX_PKT) (ranges : list OSSL_QUIC_ACK_RANGE)
    : list OSSL_ACKM_TX_PKT * tx_pkt_history_st :=
  match pkts with
  | [] => ([], h)
  | pkt :: pprev =>
      match advance (pkt_num pkt) ranges with
      | [] => ([], h)
      | r :: rest =>
          if range_contains r (pkt_num pkt) then
            let '(_, h) := tx_pkt_history_remove h (pkt_num pkt) in
            let '(l, h) := acked_walk h pprev (r :: rest) in
            (pkt :: l, h)
          else acked_walk h pprev (r :: rest)
      end
  end.

Fixpoint from_pkt (pn : Z) (l : list OSSL_ACKM_TX_PKT) : list OSSL_ACKM_TX_PKT :=
  match l with
  | [] => []
  | p :: rest => if pkt_num p =? pn then l else from_pkt pn rest
  end.

Definition first_range (f : OSSL_QUIC_FRAME_ACK) : M st OSSL_QUIC_ACK_RANGE :=
  match ack_ranges f with [] => undefined | r :: _ => mret r end.

Definition ackm_detect_and_remove_newly_acked_pkts (f : OSSL_QUIC_FRAME_ACK) (s : QUIC_PN_SPACE)
    : M st (list OSSL_ACKM_TX_PKT) :=
  assert_ (0 <? num_ack_ranges f);;
  h ← get_tx_history s;
  r0 ← first_range f;
  let pkts := match tx_pkt_history_by_pkt_num h (range_end r0) with
              | Some _ => from_pkt (range_end r0) (rev (packets h))
              | None => rev (packets h)
              end in
  let '(acked, h) := acked_walk h pkts (used_ranges f) in
  upd_tx s (set_tx_history h);;
  mret acked.

(** ** Packets deemed lost *)

Definition pkt_lost (largest lost_send_time : Z) (pkt : OSSL_ACKM_TX_PKT) : bool :=
  (ossl_time_compare (time pkt) lost_send_time <=? 0) || (u64 (pkt_num pkt + K_PKT_THRESHOLD) <=? largest).

(** The loop from the lowest number; [None] if the assertion on the space of a
    packet fails. *)
Fixpoint lost_walk (s : QUIC_PN_SPACE) (largest lost_send_time loss_delay : Z) (pkts : list OSSL_ACKM_TX_PKT)
    (h : tx_pkt_history_st) (lt : OSSL_TIME) : option (list OSSL_ACKM_TX_PKT * tx_pkt_history_st * OSSL_TIME) :=
  match pkts with
  | [] => Some ([], h, lt)
  | pkt :: pnext =>
      if negb (bool_decide (s = pkt_space pkt)) then None
      else if largest <? pkt_num pkt then lost_walk s largest lost_send_time loss_delay pnext h lt
      else if pkt_lost largest lost_send_time pkt then
        let '(_, h) := tx_pkt_history_remove h (pkt_num pkt) in
        '(l, h, lt) ← lost_walk s largest lost_send_time loss_delay pnext h lt;
        Some (pkt :: l, h, lt)
      else
        let t := ossl_time_add (time pkt) loss_delay in
        lost_walk s largest lost_send_time loss_delay pnext h (if ossl_time_is_zero lt then t else ossl_time_min lt t)
  end.

Definition loss_delay_of (rtt : OSSL_RTT_INFO) : OSSL_TIME :=
  let loss_delay := ossl_time_multiply (ossl_time_max (info_latest_rtt rtt) (info_smoothed_rtt rtt)) K_TIME_THRESHOLD_NUM in
  let loss_delay := ossl_time_divide loss_delay K_TIME_THRESHOLD_DEN in
  ossl_time_max loss_delay (ossl_ticks2time K_GRANULARITY).

Definition ackm_detect_and_remove_lost_pkts (s : QUIC_PN_SPACE) : M st (list OSSL_ACKM_TX_PKT) :=
  a ← get;
  assert_ (negb (largest_acked_pkt (sel (tx a) s) =? QUIC_PN_INVALID));;
  let rtt := ossl_statm_get_rtt_info (statm a) in
  upd_tx s (set_loss_time ossl_time_zero);;
  let loss_delay := loss_delay_of rtt in
  now ← read_now;
  let lost_send_time := ossl_time_subtract now loss_delay in
  h ← get_tx_history s;
  match lost_walk s (largest_acked_pkt (sel (tx a) s)) lost_send_time loss_delay (packets h) h ossl_time_zero with
  | None => undefined
  | Some (lost, h, lt) =>
      upd_tx s (set_tx_history h);;
      upd_tx s (set_loss_time lt);;
      mret lost
  end.

(** ** The loss detection timer *)

Definition ackm_get_loss_time_and_space (a : st) : OSSL_TIME * QUIC_PN_SPACE :=
  foldl (fun '(time, space) i =>
           if ossl_time_is_zero time || (ossl_time_compare (loss_time (sel (tx a) i)) time =? -1)
           then (loss_time (sel (tx a) i), i) else (time, space))
        (loss_time (sel (tx a) QUIC_PN_SPACE_INITIAL), QUIC_PN_SPACE_INITIAL)
        [QUIC_PN_SPACE_HANDSHAKE; QUIC_PN_SPACE_APP].

Definition pto_base (rtt : OSSL_RTT_INFO) : OSSL_TIME :=
  ossl_time_add (info_smoothed_rtt rtt)
    (ossl_time_max (ossl_time_multiply (info_rtt_variance rtt) 4) (ossl_ticks2time K_GRANULARITY)).

Definition pto_factor (a : st) : Z := Z.shiftl 1 (min_u32 (pto_count a) MAX_PTO_COUNT).

(** The loop over the packet number spaces. *)
Fixpoint pto_walk (a : st) (duration : OSSL_TIME) (l : list QUIC_PN_SPACE) (pto_timeout : OSSL_TIME)
    (pto_space : QUIC_PN_SPACE) : OSSL_TIME * QUIC_PN_SPACE :=
  match l with
  | [] => (pto_timeout, pto_space)
  | i :: l =>
      if ack_eliciting_bytes_in_flight (sel (tx a) i) =? 0 then pto_walk a duration l pto_timeout pto_space
      else if bool_decide (i = QUIC_PN_SPACE_APP) && negb (handshake_confirmed a) then (pto_timeout, pto_space)
      else
        let duration :=
          if bool_decide (i = QUIC_PN_SPACE_APP) && negb (ossl_time_is_infinite (rx_max_ack_delay a))
          then ossl_time_add duration (ossl_time_multiply (rx_max_ack_delay a) (pto_factor a)) else duration in
        let t := ossl_time_add (time_of_last_ack_eliciting_pkt (sel (tx a) i)) duration in
        if ossl_time_compare t pto_timeout <? 0 then pto_walk a duration l t i
        else pto_walk a duration l pto_timeout pto_space
  end.

Definition ackm_get_pto_time_and_space : M st (OSSL_TIME * QUIC_PN_SPACE) :=
  a ← get;
  let duration := pto_base (ossl_statm_get_rtt_info (statm a)) in
  let duration := ossl_time_multiply duration (pto_factor a) in
  if ackm_ack_eliciting_bytes_in_flight a =? 0 then
    assert_ (negb (peer_completed_addr_validation a));;
    now ← read_now;
    mret (ossl_time_add now duration,
          if sel (discarded a) QUIC_PN_SPACE_INITIAL then QUIC_PN_SPACE_HANDSHAKE else QUIC_PN_SPACE_INITIAL)
  else mret (pto_walk a duration spaces ossl_time_infinite QUIC_PN_SPACE_INITIAL).

Definition ackm_set_loss_detection_timer_actual (deadline : OSSL_TIME) : M st unit :=
  modify (set_loss_detection_deadline deadline);;
  a ← get;
  if loss_detection_deadline_cb a then call (LossDeadline deadline) else mret tt.

Definition ackm_set_loss_detection_timer : M st unit :=
  a ← get;
  let '(earliest_loss_time, _) := ackm_get_loss_time_and_space a in
  if negb (ossl_time_is_zero earliest_loss_time) then ackm_set_loss_detection_timer_actual earliest_loss_time
  else if (ackm_ack_eliciting_bytes_in_flight a =? 0) && peer_completed_addr_validation a
  then ackm_set_loss_detection_timer_actual ossl_time_zero
  else
    '(timeout, _) ← ackm_get_pto_time_and_space;
    ackm_set_loss_detection_timer_actual timeout.

(** ** Packets resolved *)

(** Not implemented by the code. *)
Definition ackm_in_persistent_congestion (a : st) (lpkt : list OSSL_ACKM_TX_PKT) : bool := false.

Definition sub_in_flight (p : OSSL_ACKM_TX_PKT) : M st unit :=
  modify (fun a => set_bytes_in_flight (u64 (bytes_in_flight a - num_bytes p)) a);;
  if is_ack_eliciting p then
    upd_tx (pkt_space p) (fun t => set_ack_eliciting_bytes_in_flight (u64 (ack_eliciting_bytes_in_flight t - num_bytes p)) t)
  else mret tt.

Fixpoint lost_loop (pseudo : bool) (l : list OSSL_ACKM_TX_PKT) : M st unit :=
  match l with
  | [] => mret tt
  | p :: pnext =>
      (if is_inflight p then
         sub_in_flight p;;
         if negb pseudo then cc_call (fun c => on_data_lost cc_method c (NewReno.mkLossInfo (time p) (num_bytes p)))
         else mret tt
       else mret tt);;
      call (Lost p);;
      lost_loop pseudo pnext
  end.

Definition ackm_on_pkts_lost (lpkt : list OSSL_ACKM_TX_PKT) (pseudo : bool) : M st unit :=
  lost_loop pseudo lpkt;;
  a ← get;
  let flags := if negb (ossl_time_is_zero (first_rtt_sample a)) && ackm_in_persistent_congestion a lpkt
               then NewReno.OSSL_CC_LOST_FLAG_PERSISTENT_CONGESTION else 0 in
  cc_call (fun c => on_data_lost_finished cc_method c flags).

(** [alloc] is the outcome of the allocations of the sets, and below of the hash
    tables. *)
Definition bump_rx (alloc : bool) (s : QUIC_PN_SPACE) (wm : Z) : M st unit :=
  h ← get_rx_history s;
  match rx_pkt_history_bump_watermark alloc h wm with
  | None => undefined
  | Some (_, h) => upd_rx s (set_rx_history h)
  end.

Fixpoint ackm_on_pkts_acked (alloc : bool) (l : list OSSL_ACKM_TX_PKT) : M st unit :=
  match l with
  | [] => mret tt
  | p :: anext =>
      (if is_inflight p then
         sub_in_flight p;;
         if negb (largest_acked p =? QUIC_PN_INVALID) then bump_rx alloc (pkt_space p) (u64 (largest_acked p + 1))
         else mret tt
       else mret tt);;
      call (Acked p);;
      (if is_inflight p then cc_call (fun c => on_data_acked cc_method c (NewReno.mkAckInfo (time p) (num_bytes p)))
       else mret tt);;
      ackm_on_pkts_acked alloc anext
  end.

(** ** Construction *)

Definition zero_ack : OSSL_QUIC_FRAME_ACK := mkAck [] 0 0 0 0 0 false.
Definition new_tx (h : tx_pkt_history_st) : tx_state := mkTxs h QUIC_PN_INVALID 0 0 0 0.
Definition new_rx : rx_state := mkRxs rx_pkt_history_init false false zero_ack 0 0 0 0 0 0 ossl_time_infinite.

(** [allocs]: whether the hash tables of the three spaces can be created. *)
Definition ossl_ackm_new (alloc : bool) (allocs : per_space bool) (ck : clock) (sm : OSSL_STATM) (cc : CC) : option st :=
  if negb alloc then None
  else
    h0 ← tx_pkt_history_init (p_initial allocs);
    h1 ← tx_pkt_history_init (p_handshake allocs);
    h2 ← tx_pkt_history_init (p_app allocs);
    Some (mkAckm (mkPer (new_tx h0) (new_tx h1) (new_tx h2)) (mkPer new_rx new_rx new_rx) (mkPer false false false)
            ck sm cc 0 0 0 0 false false (mkProbe 0 0 (mkPer 0 0 0))
            (ossl_ms2time QUIC_DEFAULT_MAX_ACK_DELAY) DEFAULT_TX_MAX_ACK_DELAY false false []).

(** ** Events of the connection *)

Definition ossl_ackm_on_tx_packet (alloc : bool) (pkt : OSSL_ACKM_TX_PKT) : M st unit :=
  let s := pkt_space pkt in
  h ← get_tx_history s;
  a ← get;
  guard_ (negb (ossl_time_is_zero (time pkt)
                || (0 <? ossl_time_compare (time_of_last_ack_eliciting_pkt (sel (tx a) s)) (time pkt))));;
  guard_ (negb (num_bytes pkt =? 0));;
  guard_ (negb (negb (is_inflight pkt) && is_ack_eliciting pkt));;
  match tx_pkt_history_add alloc h pkt with
  | None => fail
  | Some h =>
      upd_tx s (set_tx_history h);;
      if is_inflight pkt then
        (if is_ack_eliciting pkt then
           upd_tx s (set_time_of_last_ack_eliciting_pkt (time pkt));;
           upd_tx s (fun t => set_ack_eliciting_bytes_in_flight (u64 (ack_eliciting_bytes_in_flight t + num_bytes pkt)) t)
         else mret tt);;
        modify (fun a => set_bytes_in_flight (u64 (bytes_in_flight a + num_bytes pkt)) a);;
        ackm_set_loss_detection_timer;;
        cc_call (fun c => on_data_sent cc_method c (num_bytes pkt))
      else mret tt
  end.

Definition ossl_ackm_on_rx_datagram (num_bytes : Z) : M st unit := mret tt.

Definition ackm_process_ecn (f : OSSL_QUIC_FRAME_ACK) (s : QUIC_PN_SPACE) : M st unit :=
  a ← get;
  if peer_ecnce (sel (tx a) s) <? ecnce f then
    upd_tx s (set_peer_ecnce (ecnce f));;
    h ← get_tx_history s;
    r0 ← first_range f;
    match tx_pkt_history_by_pkt_num h (range_end r0) with
    | None => mret tt
    | Some pkt => cc_call (fun c => on_ecn cc_method c (NewReno.mkEcnInfo (time pkt)))
    end
  else mret tt.

(** The update of the round-trip time; [p] is the first packet of the list. *)
Definition rtt_sample (f : OSSL_QUIC_FRAME_ACK) (p : OSSL_ACKM_TX_PKT) : M st unit :=
  now ← read_now;
  a ← get;
  (if ossl_time_is_zero (first_rtt_sample a) then modify (set_first_rtt_sample now) else mret tt);;
  let ack_delay := if handshake_confirmed a then ossl_time_min (delay_time f) (rx_max_ack_delay a) else delay_time f in
  modify (set_statm (ossl_statm_update_rtt (statm a) ack_delay (ossl_time_subtract now (time p)))).

Definition ossl_ackm_on_rx_ack_frame (alloc : bool) (f : OSSL_QUIC_FRAME_ACK) (s : QUIC_PN_SPACE) : M st unit :=
  r0 ← first_range f;
  upd_tx s (fun t => set_largest_acked_pkt
    (if largest_acked_pkt t =? QUIC_PN_INVALID then range_end r0
     else ossl_quic_pn_max (largest_acked_pkt t) (range_end r0)) t);;
  a ← get;
  let must_set_timer := negb (peer_completed_addr_validation a) && bool_decide (s = QUIC_PN_SPACE_HANDSHAKE) in
  (if must_set_timer then modify (set_peer_completed_addr_validation true) else mret tt);;
  na_pkts ← ackm_detect_and_remove_newly_acked_pkts f s;
  match na_pkts with
  | [] => if must_set_timer then ackm_set_loss_detection_timer else mret tt
  | p :: _ =>
      (if (pkt_num p =? range_end r0) && ack_includes_ack_eliciting na_pkts then rtt_sample f p else mret tt);;
      (if ecn_present f then ackm_process_ecn f s else mret tt);;
      lost_pkts ← ackm_detect_and_remove_lost_pkts s;
      (match lost_pkts with [] => mret tt | _ => ackm_on_pkts_lost lost_pkts false end);;
      ackm_on_pkts_acked alloc na_pkts;;
      a ← get;
      (if peer_completed_addr_validation a then modify (set_pto_count 0) else mret tt);;
      ackm_set_loss_detection_timer
  end.

(** The loop over the packets of a discarded space; the result is the number of
    bytes invalidated. *)
Fixpoint discard_loop (l : list OSSL_ACKM_TX_PKT) (num_bytes_invalidated : Z) : M st Z :=
  match l with
  | [] => mret num_bytes_invalidated
  | pkt :: pnext =>
      (if is_inflight pkt then modify (fun a => set_bytes_in_flight (u64 (bytes_in_flight a - num_bytes pkt)) a)
       else mret tt);;
      call (Discarded pkt);;
      discard_loop pnext (if is_inflight pkt then u64 (num_bytes_invalidated + num_bytes pkt) else num_bytes_invalidated)
  end.

Definition ossl_ackm_on_pkt_space_discarded (s : QUIC_PN_SPACE) : M st unit :=
  a ← get;
  guard_ (negb (sel (discarded a) s));;
  (if bool_decide (s = QUIC_PN_SPACE_HANDSHAKE) then modify (set_peer_completed_addr_validation true) else mret tt);;
  h ← get_tx_history s;
  invalidated ← discard_loop (packets h) 0;
  upd_tx s (fun t => set_tx_history (tx_pkt_history_destroy (tx_history t)) t);;
  upd_rx s (fun r => set_rx_history (rx_pkt_history_destroy (rx_history r)) r);;
  (if 0 <? invalidated then cc_call (fun c => on_data_invalidated cc_method c invalidated) else mret tt);;
  upd_tx s (set_time_of_last_ack_eliciting_pkt ossl_time_zero);;
  upd_tx s (set_loss_time ossl_time_zero);;
  modify (set_pto_count 0);;
  modify (fun a => set_discarded (alter_at s (fun _ => true) (discarded a)) a);;
  upd_tx s (set_ack_eliciting_bytes_in_flight 0);;
  ackm_set_loss_detection_timer.

Definition ossl_ackm_on_handshake_confirmed : M st unit :=
  modify (set_handshake_confirmed true);;
  modify (set_peer_completed_addr_validation true);;
  ackm_set_loss_detection_timer.

Definition upd_probe (f : OSSL_ACKM_PROBE_INFO -> OSSL_ACKM_PROBE_INFO) : M st unit :=
  modify (fun a => set_pending_probe (f (pending_probe a)) a).
Definition ackm_queue_probe_anti_deadlock_handshake : M st unit :=
  upd_probe (fun p => mkProbe (anti_deadlock_initial p) (u32 (anti_deadlock_handshake p + 1)) (pto p)).
Definition ackm_queue_probe_anti_deadlock_initial : M st unit :=
  upd_probe (fun p => mkProbe (u32 (anti_deadlock_initial p + 1)) (anti_deadlock_handshake p) (pto p)).
Definition ackm_queue_probe (s : QUIC_PN_SPACE) : M st unit :=
  upd_probe (fun p => mkProbe (anti_deadlock_initial p) (anti_deadlock_handshake p)
                        (alter_at s (fun n => u32 (n + 1)) (pto p))).

Definition ossl_ackm_on_timeout : M st unit :=
  a ← get;
  let '(earliest_loss_time, s) := ackm_get_loss_time_and_space a in
  if negb (ossl_time_is_zero earliest_loss_time) then
    lost_pkts ← ackm_detect_and_remove_lost_pkts s;
    (match lost_pkts with [] => mret tt | _ => ackm_on_pkts_lost lost_pkts false end);;
    ackm_set_loss_detection_timer
  else
    (if ackm_ack_eliciting_bytes_in_flight a =? 0 then
       assert_ (negb (peer_completed_addr_validation a));;
       if sel (discarded a) QUIC_PN_SPACE_INITIAL then ackm_queue_probe_anti_deadlock_handshake
       else ackm_queue_probe_anti_deadlock_initial
     else
       '(_, s) ← ackm_get_pto_time_and_space;
       ackm_queue_probe s);;
    modify (fun a => set_pto_count (u32 (pto_count a + 1)) a);;
    ackm_set_loss_detection_timer.

Definition ossl_ackm_get_loss_detection_deadline (a : st) : OSSL_TIME := loss_detection_deadline a.
Definition ossl_ackm_get0_probe_request (a : st) : OSSL_ACKM_PROBE_INFO := pending_probe a.

Definition ossl_ackm_get_largest_unacked (s : QUIC_PN_SPACE) : M st Z :=
  h ← get_tx_history s;
  match last (packets h) with
  | Some p => mret (pkt_num p)
  | None => fail
  end.

(** ** Acknowledging packets received *)

Definition ossl_ackm_get_ack_deadline (a : st) (s : QUIC_PN_SPACE) : OSSL_TIME :=
  if rx_ack_desired (sel (rx a) s) then ossl_time_zero else rx_ack_flush_deadline (sel (rx a) s).

Definition ossl_ackm_is_ack_desired (s : QUIC_PN_SPACE) : M st bool :=
  a ← get;
  let r := sel (rx a) s in
  if rx_ack_desired r then mret true
  else if ossl_time_is_infinite (rx_ack_flush_deadline r) then mret false
  else
    now ← read_now;
    mret (0 <=? ossl_time_compare now (rx_ack_flush_deadline r)).

Definition ack_contains (f : OSSL_QUIC_FRAME_ACK) (pn : Z) : bool := existsb (fun r => range_contains r pn) (used_ranges f).

Definition ackm_is_missing (a : st) (s : QUIC_PN_SPACE) (pn : Z) : bool :=
  match used_ranges (ack (sel (rx a) s)) with
  | [] => false
  | r0 :: _ => (pn <=? range_end r0) && negb (ack_contains (ack (sel (rx a) s)) pn)
  end.

Definition ackm_has_newly_missing (s : QUIC_PN_SPACE) : M st bool :=
  h ← get_rx_history s;
  a ← get;
  match last (pn_set h), used_ranges (ack (sel (rx a) s)) with
  | Some r, r0 :: _ =>
      mret ((UintSet.start r =? UintSet.end_ r) && (u64 (range_end r0 + 1) <? UintSet.start r))
  | _, _ => mret false
  end.

Definition ackm_set_flush_deadline (s : QUIC_PN_SPACE) (deadline : OSSL_TIME) : M st unit :=
  upd_rx s (set_rx_ack_flush_deadline deadline);;
  a ← get;
  if ack_deadline_cb a then call (AckDeadline (ossl_ackm_get_ack_deadline a s) s) else mret tt.

Definition ackm_queue_ack (s : QUIC_PN_SPACE) : M st unit :=
  upd_rx s (set_rx_ack_desired true);;
  ackm_set_flush_deadline s ossl_time_infinite.

Definition ackm_on_rx_ack_eliciting (rx_time : OSSL_TIME) (s : QUIC_PN_SPACE) (was_missing : bool) : M st unit :=
  a ← get;
  if rx_ack_desired (sel (rx a) s) then mret tt
  else
    upd_rx s (fun r => set_rx_ack_eliciting_pkts_since_last_ack (u32 (rx_ack_eliciting_pkts_since_last_ack r + 1)) r);;
    a ← get;
    let r := sel (rx a) s in
    q ← (if negb (rx_ack_generated r) || was_missing || (PKTS_BEFORE_ACK <=? rx_ack_eliciting_pkts_since_last_ack r)
         then mret true else ackm_has_newly_missing s);
    if q : bool then ackm_queue_ack s
    else
      let delay := if bool_decide (s = QUIC_PN_SPACE_INITIAL) || bool_decide (s = QUIC_PN_SPACE_HANDSHAKE)
                   then ossl_time_zero else tx_max_ack_delay a in
      if ossl_time_is_infinite (rx_ack_flush_deadline r) then ackm_set_flush_deadline s (ossl_time_add rx_time delay)
      else ackm_set_flush_deadline s (ossl_time_min (rx_ack_flush_deadline r) (ossl_time_add rx_time delay)).

Definition ossl_ackm_is_rx_pn_processable (pn : Z) (s : QUIC_PN_SPACE) : M st bool :=
  h ← get_rx_history s;
  mret ((rx_watermark h <=? pn) && negb (UintSet.ossl_uint_set_query (pn_set h) pn)).

Definition count_ecn (e : OSSL_ACKM_ECN) (r : rx_state) : rx_state :=
  match e with
  | OSSL_ACKM_ECN_ECT0 => set_rx_ect0 (u64 (rx_ect0 r + 1)) r
  | OSSL_ACKM_ECN_ECT1 => set_rx_ect1 (u64 (rx_ect1 r + 1)) r
  | OSSL_ACKM_ECN_ECNCE => set_rx_ecnce (u64 (rx_ecnce r + 1)) r
  | OSSL_ACKM_ECN_NONE => r
  end.

Definition ossl_ackm_on_rx_packet (alloc : bool) (pkt : OSSL_ACKM_RX_PKT) : M st unit :=
  let s := rx_pkt_space pkt in
  h ← get_rx_history s;
  processable ← ossl_ackm_is_rx_pn_processable (rx_pkt_num pkt) s;
  if negb processable then mret tt
  else
    upd_rx s (fun r => if rx_largest_pn r <? rx_pkt_num pkt
                       then set_rx_largest_time (rx_time pkt) (set_rx_largest_pn (rx_pkt_num pkt) r) else r);;
    a ← get;
    let was_missing := ackm_is_missing a s (rx_pkt_num pkt) in
    match rx_pkt_history_add_pn alloc h (rx_pkt_num pkt) with
    | None => undefined
    | Some (ok, h) =>
        upd_rx s (set_rx_history h);;
        guard_ ok;;
        (if rx_is_ack_eliciting pkt then ackm_on_rx_ack_eliciting (rx_time pkt) s was_missing else mret tt);;
        upd_rx s (count_ecn (ecn pkt))
    end.

(** [OSSL_NELEM(ackm->ack_ranges)] is the number of packet number spaces. *)
Definition NELEM_ack_ranges : Z := QUIC_PN_SPACE_NUM.

Definition ackm_fill_rx_ack_ranges (s : QUIC_PN_SPACE) : M st (list OSSL_QUIC_ACK_RANGE) :=
  h ← get_rx_history s;
  mret (map (fun r => QuicWire.mkRange (UintSet.start r) (UintSet.end_ r))
          (take (Z.to_nat NELEM_ack_ranges) (rev (pn_set h)))).

Definition ossl_ackm_get_ack_frame (s : QUIC_PN_SPACE) : M st OSSL_QUIC_FRAME_ACK :=
  now ← read_now;
  ranges ← ackm_fill_rx_ack_ranges s;
  a ← get;
  let r := sel (rx a) s in
  let delay :=
    if negb (ossl_time_is_zero (rx_largest_time r)) && (0 <? ossl_time_compare now (rx_largest_time r))
       && bool_decide (s = QUIC_PN_SPACE_APP)
    then ossl_time_subtract now (rx_largest_time r) else ossl_time_zero in
  let f := mkAck ranges (Z.of_nat (length ranges)) delay (rx_ect0 r) (rx_ect1 r) (rx_ecnce r) true in
  upd_rx s (set_ack f);;
  upd_rx s (set_rx_ack_eliciting_pkts_since_last_ack 0);;
  upd_rx s (set_rx_ack_generated true);;
  upd_rx s (set_rx_ack_desired false);;
  ackm_set_flush_deadline s ossl_time_infinite;;
  mret f.

(** ** Settings *)

Definition ossl_ackm_set_loss_detection_deadline_callback (fn : bool) : M st unit := modify (set_loss_detection_deadline_cb fn).
Definition ossl_ackm_set_ack_deadline_callback (fn : bool) : M st unit := modify (set_ack_deadline_cb fn).

Definition ossl_ackm_mark_packet_pseudo_lost (s : QUIC_PN_SPACE) (pn : Z) : M st unit :=
  h ← get_tx_history s;
  match tx_pkt_history_by_pkt_num h pn with
  | None => fail
  | Some pkt =>
      let '(_, h) := tx_pkt_history_remove h (pkt_num pkt) in
      upd_tx s (set_tx_history h);;
      ackm_on_pkts_lost [pkt] true
  end.

Definition ossl_ackm_get_pto_duration (a : st) : OSSL_TIME :=
  let duration := pto_base (ossl_statm_get_rtt_info (statm a)) in
  if negb (ossl_time_is_infinite (rx_max_ack_delay a)) then ossl_time_add duration (rx_max_ack_delay a) else duration.

Definition ossl_ackm_get_largest_acked (a : st) (s : QUIC_PN_SPACE) : Z := largest_acked_pkt (sel (tx a) s).
Definition ossl_ackm_set_rx_max_ack_delay (v : OSSL_TIME) : M st unit := modify (set_rx_max_ack_delay v).
Definition ossl_ackm_set_tx_max_ack_delay (v : OSSL_TIME) : M st unit := modify (set_tx_max_ack_delay v).

End Methods.

End Ackm.
