(* ===== verification/AckmDetect.v ===== *)
(** * Which packets the ACK manager deems acknowledged or lost

    The two walks over the history of packets sent, one from the highest number
    along the ranges of an ACK frame and one from the lowest along the rules of
    RFC 9002 section 6.1, against their definitions as filters of the history. *)
From Stdlib Require Import ZArith Lia Bool.
From stdpp Require Import base tactics list gmap sorting.
From S2P Require Import Prelude OsslTime Statm QuicWire AckHist Ackm.
#[local] Open Scope Z_scope.
Import OsslTime AckHist Ackm.
Import QuicWire(OSSL_QUIC_ACK_RANGE, range_start, range_end, descending, valid_ranges, used_ranges).

Module AckmDetect.

(** ** Lists of packets *)

Abbreviation pkts := (list OSSL_ACKM_TX_PKT) (only parsing).
Definition by_num (a b : OSSL_ACKM_TX_PKT) : Prop := pkt_num a < pkt_num b.

(** What is removed and what is left, for a history in order. *)
Record removed (h h' : tx_pkt_history_st) (out : pkts) : Prop := {
  rm_ok : txh_ok h';
  rm_perm : Permutation (packets h) (out ++ packets h');
  rm_left : forall p, p ∈ packets h' <-> p ∈ packets h /\ p ∉ out;
  rm_mark : tx_watermark h' = tx_watermark h /\ highest_sent h' = highest_sent h
}.

Lemma sorted_nodup l : StronglySorted by_num l -> NoDup l.
Proof.
  induction 1 as [|a l Hl IH Ha]; constructor; [|done]. intros Hin. rewrite Forall_forall in Ha.
  specialize (Ha a Hin). unfold by_num in Ha. lia.
Qed.

Lemma filter_ext_in {A} (P Q : A -> Prop) `{!forall x, Decision (P x), !forall x, Decision (Q x)} (l : list A) :
  (forall x, x ∈ l -> P x <-> Q x) -> filter P l = filter Q l.
Proof.
  induction l as [|x l IH]; intros Hx; [done|]. rewrite !filter_cons, IH by (intros y Hy; apply Hx; by right).
  specialize (Hx x ltac:(left)). repeat case_decide; tauto.
Qed.

Lemma filter_none {A} (P : A -> Prop) `{!forall x, Decision (P x)} (l : list A) :
  (forall x, x ∈ l -> ~ P x) -> filter P l = [].
Proof.
  induction l as [|x l IH]; intros Hx; [done|]. rewrite filter_cons, decide_False by (apply Hx; left).
  apply IH. intros y Hy. apply Hx. by right.
Qed.

Lemma txh_nodup h : txh_ok h -> NoDup (packets h).
Proof. intros [Hs _ _]. by apply sorted_nodup. Qed.

Lemma removed_nil h : txh_ok h -> removed h h [].
Proof. intros Hok. split; [done|done| |done]. intros p. rewrite elem_of_nil. tauto. Qed.

Lemma removed_one h p : txh_ok h -> p ∈ packets h -> exists h', tx_pkt_history_remove h (pkt_num p) = (true, h') /\ removed h h' [p].
Proof.
  intros Hok Hp. destruct (tx_remove_ok h p Hok Hp) as (h' & E & Hok' & Hpk & Hw). exists h'. split; [done|].
  assert (Hin : forall q, q ∈ packets h' <-> q ∈ packets h /\ q ∉ [p]).
  { intros q. rewrite Hpk, list_elem_of_filter, list_elem_of_singleton. split.
    - intros [Hne Hq]. split; [done|]. intros ->. done.
    - intros [Hq Hne]. split; [|done]. intros E'. apply Hne. exact (num_inj h q p Hok Hq Hp E'). }
  split; [done| |done|done]. apply NoDup_Permutation; [by apply txh_nodup| |].
  - cbn. constructor; [|by apply txh_nodup]. intros Hx. apply Hin in Hx as [_ Hx]. apply Hx. by left.
  - intros q. rewrite elem_of_app, Hin, list_elem_of_singleton. split; [|intros [-> |[? _]]; done].
    intros Hq. destruct (decide (q = p)); [by left|right; done].
Qed.

Lemma removed_trans h1 h2 h3 l1 l2 : removed h1 h2 l1 -> removed h2 h3 l2 -> removed h1 h3 (l1 ++ l2).
Proof.
  intros [O1 P1 L1 M1] [O2 P2 L2 M2]. split; [done| | |].
  - by rewrite P1, P2, app_assoc.
  - intros p. rewrite L2, L1, not_elem_of_app. tauto.
  - destruct M1 as [<- <-]. done.
Qed.

(** ** Acknowledged packets *)

Definition in_ranges (ranges : list OSSL_QUIC_ACK_RANGE) (pn : Z) : bool := existsb (fun r => range_contains r pn) ranges.

(** Ranges in descending order, as [ossl_quic_wire_decode_frame_ack] yields them. *)
Definition ranges_desc (l : list OSSL_QUIC_ACK_RANGE) : Prop :=
  StronglySorted (fun a b => range_end b < range_start a) l /\ Forall (fun r => range_start r <= range_end r) l.

Lemma descending_desc l : forall start, descending start l -> ranges_desc l /\ Forall (fun r => range_end r < start) l.
Proof.
  induction l as [|r l IH]; intros start; cbn [descending]; [split; [split|]; constructor|].
  intros (Hr & He & Hd). apply IH in Hd as [[Hs Hl] Hb]. split; [split; constructor; try done; lia|].
  constructor; [lia|]. eapply Forall_impl; [exact Hb|]. cbn. lia.
Qed.

Lemma valid_ranges_desc l : valid_ranges l -> ranges_desc l.
Proof.
  destruct l as [|r l]; [done|]. intros (Hr & _ & Hd). apply descending_desc in Hd as [[Hs Hl] Hb].
  split; constructor; try done; lia.
Qed.

Lemma advance_spec ranges pn : ranges_desc ranges ->
  ranges_desc (advance pn ranges) /\
  (forall q, q <= pn -> in_ranges (advance pn ranges) q = in_ranges ranges q) /\
  match advance pn ranges with
  | [] => in_ranges ranges pn = false
  | r :: _ => in_ranges ranges pn = range_contains r pn
  end.
Proof.
  induction ranges as [|r rest IH]; intros [Hs Hl]; cbn [advance]; [done|].
  apply StronglySorted_inv in Hs as [Hs Hr]. apply Forall_cons in Hl as [Hr' Hl].
  assert (Hhi : forall q, range_end r < q \/ range_start r <= q <= range_end r -> in_ranges rest q = false).
  { intros q Hq. apply not_true_iff_false. intros Hin%existsb_exists. destruct Hin as (x & Hx & Hc).
    apply list_elem_of_In in Hx. rewrite Forall_forall in Hr. specialize (Hr x Hx). unfold range_contains in Hc. zb. lia. }
  destruct (range_contains r pn) eqn:Ec.
  { split; [by split; constructor|]. split; [done|]. cbn [in_ranges existsb]. by rewrite Ec. }
  destruct (Z.ltb_spec (range_end r) pn) as [Hgt|Hle].
  { split; [by split; constructor|]. split; [done|]. cbn [in_ranges existsb]. rewrite Ec, <- Ec at 1.
    rewrite Ec. apply Hhi. by left. }
  assert (Hlt : pn < range_start r).
  { unfold range_contains in Ec. apply andb_false_iff in Ec as [Ec|Ec]; zb; lia. }
  destruct (IH (conj Hs Hl)) as (H1 & H2 & H3). split; [done|].
  assert (Hskip : forall q, q <= pn -> in_ranges (r :: rest) q = in_ranges rest q).
  { intros q Hq. cbn [in_ranges existsb]. unfold range_contains at 1. destruct (Z.leb_spec (range_start r) q); [lia|done]. }
  split; [intros q Hq; rewrite Hskip by done; auto|]. rewrite (Hskip pn) by lia. done.
Qed.

(** The packets the walk takes are those in the ranges, from the highest number. *)
Lemma acked_walk_spec l : forall h ranges acked h',
  txh_ok h -> ranges_desc ranges -> StronglySorted (fun a b => pkt_num b < pkt_num a) l ->
  (forall p, p ∈ l -> p ∈ packets h) -> acked_walk h l ranges = (acked, h') ->
  acked = filter (fun p => in_ranges ranges (pkt_num p) = true) l /\ removed h h' acked.
Proof.
  induction l as [|pkt l IH]; intros h ranges acked h' Hok Hr Hs Hin; cbn [acked_walk].
  { intros [= <- <-]. split; [done|by apply removed_nil]. }
  apply StronglySorted_inv in Hs as [Hs Hlow]. rewrite Forall_forall in Hlow.
  destruct (advance_spec ranges (pkt_num pkt) Hr) as (Hr' & Heq & Hc).
  assert (Hfil : filter (fun p => in_ranges (advance (pkt_num pkt) ranges) (pkt_num p) = true) l =
                 filter (fun p => in_ranges ranges (pkt_num p) = true) l).
  { apply filter_ext_in. intros x Hx. rewrite Heq; [done|]. specialize (Hlow x Hx). lia. }
  rewrite filter_cons. destruct (advance (pkt_num pkt) ranges) as [|r rest] eqn:Ea.
  { intros [= <- <-]. rewrite Hc. split; [|by apply removed_nil]. rewrite decide_False by done.
    rewrite <- Hfil. symmetry. by apply filter_none. }
  rewrite Hc. destruct (range_contains r (pkt_num pkt)) eqn:Erc.
  - destruct (removed_one h pkt Hok) as (h1 & -> & Hrm); [apply Hin; left|].
    destruct (acked_walk h1 l (r :: rest)) as [l' h2] eqn:Ew. intros [= <- <-]. rewrite decide_True by done.
    destruct (IH h1 (r :: rest) l' h2) as [-> Hrm2]; [apply Hrm|done|done| |done|].
    { intros p Hp. apply (rm_left _ _ _ Hrm). split; [apply Hin; by right|]. rewrite list_elem_of_singleton.
      intros ->. specialize (Hlow pkt Hp). lia. }
    rewrite Hfil in *. split; [done|]. exact (removed_trans _ _ _ _ _ Hrm Hrm2).
  - intros Ew. rewrite decide_False by done. destruct (IH h (r :: rest) acked h') as [-> Hrm]; try done.
    intros p Hp. apply Hin. by right.
Qed.

Lemma from_pkt_split pn l : (exists p, p ∈ l /\ pkt_num p = pn) ->
  exists l1 p l2, l = l1 ++ p :: l2 /\ pkt_num p = pn /\ from_pkt pn l = p :: l2.
Proof.
  induction l as [|q l IH]; intros (p & Hp & E); [by apply elem_of_nil in Hp|]. cbn [from_pkt].
  destruct (Z.eqb_spec (pkt_num q) pn) as [Eq|Hne]; [by exists [], q, l|].
  destruct IH as (l1 & p' & l2 & -> & Ep & ->); [|by exists (q :: l1), p', l2].
  exists p. apply elem_of_cons in Hp as [->|Hp]; [done|done].
Qed.

Lemma sorted_rev {A} (R : A -> A -> Prop) l : StronglySorted R l -> StronglySorted (fun a b => R b a) (rev l).
Proof.
  induction 1 as [|a l Hl IH Ha]; cbn; [constructor|]. apply StronglySorted_app. split_and!; [|done|constructor; constructor].
  intros x y Hx Hy. apply list_elem_of_singleton in Hy as ->. rewrite Forall_forall in Ha. apply Ha.
  by apply list_elem_of_In, in_rev, list_elem_of_In in Hx.
Qed.

(** The packets the manager starts its walk from hold every packet in the ranges:
    skipping to the end of the first range loses none. *)
Lemma start_covers h ranges r0 rest :
  txh_ok h -> ranges_desc ranges -> ranges = r0 :: rest ->
  let l := match tx_pkt_history_by_pkt_num h (range_end r0) with
           | Some _ => from_pkt (range_end r0) (rev (packets h))
           | None => rev (packets h)
           end in
  StronglySorted (fun a b => pkt_num b < pkt_num a) l /\ (forall p, p ∈ l -> p ∈ packets h) /\
  filter (fun p => in_ranges ranges (pkt_num p) = true) l = filter (fun p => in_ranges ranges (pkt_num p) = true) (rev (packets h)).
Proof.
  intros Hok Hr -> l. pose proof (sorted_rev _ _ (th_sorted _ Hok)) as Hs. subst l.
  assert (Hin : forall p, p ∈ rev (packets h) -> p ∈ packets h).
  { intros p Hp. by apply list_elem_of_In, in_rev, list_elem_of_In in Hp. }
  destruct (tx_pkt_history_by_pkt_num h (range_end r0)) as [p|] eqn:E; [|done].
  apply Hok in E as [Hp E]. destruct (from_pkt_split (range_end r0) (rev (packets h))) as (l1 & q & l2 & El & Eq & ->).
  { exists p. split; [|done]. by apply list_elem_of_In, in_rev; rewrite rev_involutive; apply list_elem_of_In. }
  rewrite El in *. apply StronglySorted_app in Hs as (Hcross & _ & Hs2). split; [done|]. split.
  { intros x Hx. apply Hin, elem_of_app. by right. }
  rewrite filter_app, (filter_none _ l1); [done|]. intros x Hx Hc.
  pose proof (Hcross x q Hx ltac:(left)) as Hgt. cbn in Hgt. apply existsb_exists in Hc as (r & Hr' & Hc).
  apply list_elem_of_In in Hr'. destruct Hr as [Hrs Hrl]. apply StronglySorted_inv in Hrs as [_ Hrs].
  rewrite Forall_forall in Hrs, Hrl. unfold range_contains in Hc. zb.
  apply elem_of_cons in Hr' as [->|Hr']; [lia|]. specialize (Hrs r Hr'). specialize (Hrl r0 ltac:(left)). lia.
Qed.

(** ** Lost packets *)

(** RFC 9002 section 6.1: sent before an acknowledged packet, and either long
    enough ago or three numbers or more below it. *)
Definition deemed_lost (largest lost_send_time : Z) (p : OSSL_ACKM_TX_PKT) : bool :=
  (pkt_num p <=? largest) && ((time p <=? lost_send_time) || (pkt_num p + 3 <=? largest)).

(** The packets that wait for the time threshold. *)
Definition waiting (largest lost_send_time : Z) (p : OSSL_ACKM_TX_PKT) : bool :=
  (pkt_num p <=? largest) && negb (deemed_lost largest lost_send_time p).

(** The earliest of the times at which they will be lost, zero if there are none. *)
Definition earliest (ts : list Z) : Z := match ts with [] => 0 | t :: ts => foldl Z.min t ts end.

Definition sent_packet (s : QUIC_PN_SPACE) (p : OSSL_ACKM_TX_PKT) : Prop :=
  pkt_space p = s /\ 0 <= pkt_num p < MAX_PN /\ 0 < time p < UINT64_MOD.

Lemma pkt_lost_spec s largest lst p :
  sent_packet s p -> (largest <? pkt_num p) = false -> pkt_lost largest lst p = deemed_lost largest lst p.
Proof.
  intros (_ & Hn & Ht) Hle. unfold pkt_lost, deemed_lost, K_PKT_THRESHOLD, MAX_PN in *. zb. rewrite time_compare_spec, u64_id by (unfold is_u64; lia).
  destruct (Z.leb_spec (pkt_num p) largest); [|lia]. cbn. f_equal.
  destruct (Z.leb_spec (Z.sgn (time p - lst)) 0), (Z.leb_spec (time p) lst); try done; lia.
Qed.

Lemma lost_walk_spec s largest lst delay l : forall h lt,
  txh_ok h -> StronglySorted by_num l -> (forall p, p ∈ l -> p ∈ packets h) -> Forall (sent_packet s) l ->
  is_u64 delay -> 0 <= lt ->
  exists h' lt', lost_walk s largest lst delay l h lt =
      Some (filter (fun p => deemed_lost largest lst p = true) l, h', lt') /\
    removed h h' (filter (fun p => deemed_lost largest lst p = true) l) /\
    lt' = earliest ((if lt =? 0 then [] else [lt]) ++
            map (fun p => ossl_time_add (time p) delay) (filter (fun p => waiting largest lst p = true) l)).
Proof.
  induction l as [|p l IH]; intros h lt Hok Hs Hin Hl Hd Hlt; cbn [lost_walk].
  { exists h, lt. split_and!; [done|by apply removed_nil|]. cbn. rewrite app_nil_r. by destruct (Z.eqb_spec lt 0). }
  apply StronglySorted_inv in Hs as [Hs Hlow]. apply Forall_cons in Hl as [Hp Hl].
  rewrite bool_decide_true by (symmetry; apply Hp). cbn [negb]. rewrite !filter_cons.
  destruct (Z.ltb_spec largest (pkt_num p)) as [Hgt|Hle].
  { assert (deemed_lost largest lst p = false /\ waiting largest lst p = false) as [Ed Ew].
    { unfold waiting, deemed_lost. by destruct (Z.leb_spec (pkt_num p) largest); [lia|]. }
    rewrite !decide_False by congruence. apply IH; try done. intros q Hq. apply Hin. by right. }
  rewrite (pkt_lost_spec s) by (try done; by apply Z.ltb_ge).
  assert (Hw : waiting largest lst p = negb (deemed_lost largest lst p)).
  { unfold waiting. by destruct (Z.leb_spec (pkt_num p) largest); [|lia]. }
  destruct (deemed_lost largest lst p) eqn:El; cbn [negb] in Hw.
  - rewrite decide_True, (decide_False (P := waiting _ _ _ = _)) by congruence. destruct (removed_one h p Hok) as (h1 & -> & Hrm); [apply Hin; left|].
    destruct (IH h1 lt) as (h2 & lt2 & -> & Hrm2 & ->); [apply Hrm|done| |done|done|done|].
    { intros q Hq. apply (rm_left _ _ _ Hrm). split; [apply Hin; by right|]. rewrite list_elem_of_singleton. intros ->.
      rewrite Forall_forall in Hlow. specialize (Hlow p Hq). unfold by_num in Hlow. lia. }
    eexists _, _. split; [reflexivity|]. split; [|done]. exact (removed_trans _ _ _ _ _ Hrm Hrm2).
  - rewrite decide_False, (decide_True (P := waiting _ _ _ = _)) by congruence. destruct Hp as (_ & _ & Ht).
    assert (Hpos : 0 < ossl_time_add (time p) delay).
    { rewrite time_add_spec by (unfold is_u64 in *; lia). unfold is_u64 in Hd. lia. }
    rewrite time_is_zero_spec, time_min_spec.
    destruct (IH h (if lt =? 0 then ossl_time_add (time p) delay else Z.min lt (ossl_time_add (time p) delay)))
      as (h2 & lt2 & -> & Hrm2 & ->); try done; [intros q Hq; apply Hin; by right|zcase; lia|].
    eexists _, _. split; [reflexivity|]. split; [done|]. destruct (Z.eqb_spec lt 0); cbn.
    + destruct (Z.eqb_spec (ossl_time_add (time p) delay) 0); [lia|done].
    + destruct (Z.eqb_spec (Z.min lt (ossl_time_add (time p) delay)) 0); [lia|done].
Qed.

(** ** The detection functions *)

(** What is left of the history, in order. *)
Lemma removed_filter h h' (P : OSSL_ACKM_TX_PKT -> bool) out :
  txh_ok h -> removed h h' out -> Permutation out (filter (fun p => P p = true) (packets h)) ->
  packets h' = filter (fun p => P p = false) (packets h).
Proof.
  intros Hok [Hok' _ Hl _] Hout. apply (StronglySorted_unique_strong by_num).
  - intros x y _ _. unfold by_num. lia.
  - apply Hok'.
  - apply sorted_filter, Hok.
  - apply NoDup_Permutation; [by apply txh_nodup|apply NoDup_filter; by apply txh_nodup|].
    intros p. rewrite Hl, Hout, !list_elem_of_filter. clear Hl. destruct (P p); intuition congruence.
Qed.

Lemma detect_acked {CC} (a : OSSL_ACKM CC) f s :
  sel (discarded a) s = false -> txh_ok (tx_history (sel (tx a) s)) -> 0 < QuicWire.num_ack_ranges f ->
  QuicWire.ack_ranges f <> [] -> ranges_desc (used_ranges f) ->
  exists h', ackm_detect_and_remove_newly_acked_pkts f s a =
      (Ret (filter (fun p => in_ranges (used_ranges f) (pkt_num p) = true) (rev (packets (tx_history (sel (tx a) s))))),
       set_tx (alter_at s (set_tx_history h') (tx a)) a) /\
    removed (tx_history (sel (tx a) s)) h'
      (filter (fun p => in_ranges (used_ranges f) (pkt_num p) = true) (rev (packets (tx_history (sel (tx a) s))))).
Proof.
  intros Hd Hok Hn Hne Hr. set (h := tx_history (sel (tx a) s)) in *. unfold used_ranges in *.
  destruct (QuicWire.ack_ranges f) as [|r0 rest] eqn:Er; [done|].
  assert (Hu : exists rest', take (Z.to_nat (QuicWire.num_ack_ranges f)) (r0 :: rest) = r0 :: rest').
  { destruct (Z.to_nat (QuicWire.num_ack_ranges f)) eqn:En; [lia|]. by eexists. }
  destruct Hu as [rest' Hu]. rewrite Hu in *.
  destruct (start_covers h _ r0 rest' Hok Hr eq_refl) as (Hs & Hin & Hf). cbv zeta in *.
  unfold ackm_detect_and_remove_newly_acked_pkts, assert_. destruct (Z.ltb_spec 0 (QuicWire.num_ack_ranges f)); [|lia].
  rewrite (bind_ret (mret tt) _ a tt a) by done.
  rewrite (bind_ret (get_tx_history s) _ a h a) by (unfold get_tx_history, mbind, M_bind, get, assert_; by rewrite Hd).
  unfold first_range, used_ranges. rewrite Er, Hu. rewrite (bind_ret (mret r0) _ a r0 a) by done.
  destruct (acked_walk _ _ _) as [acked h'] eqn:Ew.
  destruct (acked_walk_spec _ _ _ _ _ Hok Hr Hs Hin Ew) as [-> Hrm]. rewrite Hf in *. by exists h'.
Qed.

Lemma detect_lost {CC} (a : OSSL_ACKM CC) s :
  let t := sel (tx a) s in
  let h := tx_history t in
  let delay := loss_delay_of (Statm.ossl_statm_get_rtt_info (statm a)) in
  let lst := ossl_time_subtract (read_clock (now a)).1 delay in
  sel (discarded a) s = false -> largest_acked_pkt t <> QUIC_PN_INVALID -> txh_ok h ->
  Forall (sent_packet s) (packets h) -> is_u64 delay ->
  exists h' a', ackm_detect_and_remove_lost_pkts s a =
      (Ret (filter (fun p => deemed_lost (largest_acked_pkt t) lst p = true) (packets h)), a') /\
    a' = set_now (read_clock (now a)).2 (set_tx (alter_at s (fun t' => set_loss_time (earliest
             (map (fun p => ossl_time_add (time p) delay)
                (filter (fun p => waiting (largest_acked_pkt t) lst p = true) (packets h)))) (set_tx_history h' t')) (tx a)) a) /\
    removed h h' (filter (fun p => deemed_lost (largest_acked_pkt t) lst p = true) (packets h)).
Proof.
  intros t h delay lst Hd Hla Hok Hp Hdel. unfold ackm_detect_and_remove_lost_pkts.
  destruct (lost_walk_spec s (largest_acked_pkt t) lst delay (packets h) h 0) as (h' & lt' & Ew & Hrm & Hlt);
    [done|apply Hok|done|done|done|done|].
  exists h'. eexists. split; [|split; [reflexivity|done]].
  assert (Hsel : forall g, sel (alter_at s g (tx a)) s = g t) by (intros; subst t; by destruct s).
  unfold read_now, get_tx_history, upd_tx, assert_, mbind, M_bind, get, modify. fold t.
  destruct (Z.eqb_spec (largest_acked_pkt t) QUIC_PN_INVALID); [done|].
  cbn [negb mret M_ret now set_tx set_now discarded tx statm]. subst lst. destruct (read_clock (now a)) as [nw ck] eqn:Ec.
  cbn [negb mret M_ret now set_tx set_now discarded tx statm fst snd] in *. rewrite Hd, Hsel. cbn [negb mret M_ret tx_history set_loss_time].
  fold h delay. change ossl_time_zero with 0. rewrite Ew, Hlt. cbn -[alter_at earliest]. f_equal. by destruct s.
Qed.

End AckmDetect.
