(* ===== verification/AckmInv.v ===== *)
(** * Accounting of the ACK manager

    The invariant of the ACK manager across its operations: the histories, the
    byte counters, the congestion controller's view of them, and the callbacks
    made so far account for every packet sent.  The operations are taken one by
    one with the rules of [wp]; [pend] stands for packets an operation has taken
    from a history and not yet reported. *)
From Stdlib Require Import ZArith Lia Bool.
From stdpp Require Import base tactics list gmap sorting.
From S2P Require Import Prelude OsslTime UintSet Statm NewReno QuicWire AckHist Ackm AckmDetect.
#[local] Open Scope Z_scope.
Import OsslTime AckHist Ackm AckmDetect.
Import QuicWire(OSSL_QUIC_ACK_RANGE, range_start, range_end, OSSL_QUIC_FRAME_ACK, ack_ranges, num_ack_ranges, used_ranges).

Module AckmInv.

(** ** What a congestion controller promises

    Each event changes its count of the bytes in flight (the diagnostic
    [bytes_in_flight]) by the size it reports, as long as the caller reports
    bytes that are in flight. *)
Class CcAccounting {CC : Type} (m : OSSL_CC_METHOD CC) := {
  cc_bytes : CC -> Z;
  cc_sent c n : 0 <= n -> 0 <= cc_bytes c -> cc_bytes c + n < UINT64_MOD -> cc_bytes (on_data_sent m c n).2 = cc_bytes c + n;
  cc_acked c i : 0 <= NewReno.ack_tx_size i <= cc_bytes c -> cc_bytes c < UINT64_MOD ->
    cc_bytes (on_data_acked m c i).2 = cc_bytes c - NewReno.ack_tx_size i;
  cc_lost c i : 0 <= NewReno.loss_tx_size i <= cc_bytes c -> cc_bytes c < UINT64_MOD ->
    cc_bytes (on_data_lost m c i).2 = cc_bytes c - NewReno.loss_tx_size i;
  cc_invalidated c n : 0 <= n <= cc_bytes c -> cc_bytes c < UINT64_MOD ->
    cc_bytes (on_data_invalidated m c n).2 = cc_bytes c - n;
  cc_finished c fl : cc_bytes (on_data_lost_finished m c fl).2 = cc_bytes c;
  cc_ecn c i : cc_bytes (on_ecn m c i).2 = cc_bytes c
}.

Lemma flush_bytes c fl : NewReno.bytes_in_flight (NewReno.nr (NewReno.newreno_flush c fl)) = NewReno.bytes_in_flight (NewReno.nr c).
Proof.
  unfold NewReno.newreno_flush, NewReno.newreno_cong, NewReno.newreno_update_diag. repeat zcase; cbn; try done;
  repeat match goal with |- context [let '(_, _) := ?x in _] => destruct x end; repeat zcase; cbn; done.
Qed.

#[global] Instance newreno_accounting : CcAccounting ossl_cc_newreno_method.
Proof.
  refine {| cc_bytes c := NewReno.bytes_in_flight (NewReno.nr c) |}; cbn [on_data_sent on_data_acked on_data_lost on_data_invalidated on_data_lost_finished on_ecn ossl_cc_newreno_method].
  - intros c n ? ? ?. cbn -[u64]. by rewrite u64_id by (unfold is_u64; lia).
  - intros c i ? ?. unfold NewReno.newreno_on_data_acked. u64_simpl. repeat zcase; reflexivity.
  - intros c i ? ?. unfold NewReno.newreno_on_data_lost. u64_simpl. repeat zcase; try reflexivity; lia.
  - intros c n ? ?. cbn -[u64]. by rewrite u64_id by (unfold is_u64; lia).
  - intros. apply flush_bytes.
  - intros. unfold NewReno.newreno_on_ecn. cbv zeta. cbn [snd]. by rewrite flush_bytes.
Defined.

(** ** Sums over packets *)

Definition psum (f : OSSL_ACKM_TX_PKT -> Z) (l : pkts) : Z := foldr (fun p n => f p + n) 0 l.

Lemma psum_app f l1 l2 : psum f (l1 ++ l2) = psum f l1 + psum f l2.
Proof. induction l1 as [|p l1 IH]; cbn [psum app foldr]; unfold psum in *; lia. Qed.

#[global] Instance psum_perm f : Proper (Permutation ==> eq) (psum f).
Proof. intros l1 l2. induction 1; unfold psum in *; cbn; lia. Qed.

Lemma psum_nonneg f l : (forall p, p ∈ l -> 0 <= f p) -> 0 <= psum f l.
Proof.
  induction l as [|p l IH]; intros Hl; unfold psum in *; cbn; [lia|]. pose proof (Hl p ltac:(left)).
  assert (0 <= foldr (fun p n => f p + n) 0 l) by (apply IH; intros q Hq; apply Hl; by right). lia.
Qed.

Definition flight_bytes (p : OSSL_ACKM_TX_PKT) : Z := if is_inflight p then num_bytes p else 0.
Definition elic_bytes (s : QUIC_PN_SPACE) (p : OSSL_ACKM_TX_PKT) : Z :=
  if is_ack_eliciting p && bool_decide (pkt_space p = s) then num_bytes p else 0.
Abbreviation flight := (psum flight_bytes).
Abbreviation elic s := (psum (elic_bytes s)).

(** ** The parts of the state the invariant is about *)

Section Inv.
Context {CC : Type} {m : OSSL_CC_METHOD CC} `{!CcAccounting m}.
Abbreviation st := (OSSL_ACKM CC) (only parsing).

(** The packets in the histories; those of a space and those of the others. *)
Definition held (v : per_space tx_state) (s : QUIC_PN_SPACE) : pkts := packets (tx_history (sel v s)).
Definition hist (v : per_space tx_state) : pkts :=
  held v QUIC_PN_SPACE_INITIAL ++ held v QUIC_PN_SPACE_HANDSHAKE ++ held v QUIC_PN_SPACE_APP.
Definition others (v : per_space tx_state) (s : QUIC_PN_SPACE) : pkts :=
  match s with
  | QUIC_PN_SPACE_INITIAL => held v QUIC_PN_SPACE_HANDSHAKE ++ held v QUIC_PN_SPACE_APP
  | QUIC_PN_SPACE_HANDSHAKE => held v QUIC_PN_SPACE_INITIAL ++ held v QUIC_PN_SPACE_APP
  | QUIC_PN_SPACE_APP => held v QUIC_PN_SPACE_INITIAL ++ held v QUIC_PN_SPACE_HANDSHAKE
  end.

Lemma hist_split v s : Permutation (hist v) (held v s ++ others v s).
Proof.
  unfold hist. destruct s; cbn [others]; [done| |].
  - rewrite !app_assoc. apply Permutation_app_tail, Permutation_app_comm.
  - by rewrite (Permutation_app_comm (held v QUIC_PN_SPACE_APP)), app_assoc.
Qed.

Lemma others_alter v s f : others (alter_at s f v) s = others v s.
Proof. by destruct s. Qed.

Lemma sel_alter {A} (v : per_space A) s f : sel (alter_at s f v) s = f (sel v s).
Proof. by destruct s. Qed.
Lemma sel_alter_ne {A} (v : per_space A) s s' f : s' <> s -> sel (alter_at s f v) s' = sel v s'.
Proof. by destruct s, s'. Qed.
Lemma alter_alter {A} (v : per_space A) s f g : alter_at s f (alter_at s g v) = alter_at s (fun x => f (g x)) v.
Proof. by destruct s. Qed.
Lemma sel_alter_case {A} (P : A -> Prop) (v : per_space A) s s' f :
  (s' = s -> P (f (sel v s))) -> (s' <> s -> P (sel v s')) -> P (sel (alter_at s f v) s').
Proof. intros H1 H2. destruct (decide (s' = s)) as [->|Hne]; [rewrite sel_alter|rewrite sel_alter_ne by done]; auto. Qed.

(** The packets whose callback was called. *)
Definition reported (e : event) : option OSSL_ACKM_TX_PKT :=
  match e with Acked p | Lost p | Discarded p => Some p | _ => None end.
Definition resolved (l : list event) : pkts := omap reported l.

Definition key (p : OSSL_ACKM_TX_PKT) : QUIC_PN_SPACE * Z := (pkt_space p, pkt_num p).

Record pkt_ok (p : OSSL_ACKM_TX_PKT) : Prop := {
  po_sent : sent_packet (pkt_space p) p;
  po_size : 0 < num_bytes p < UINT64_MOD;
  po_elic : is_ack_eliciting p = true -> is_inflight p = true;
  po_acks : largest_acked p = QUIC_PN_INVALID \/ 0 <= largest_acked p < MAX_PN
}.

Definition statm_ok (x : Statm.OSSL_STATM) : Prop :=
  is_u64 (Statm.smoothed_rtt x) /\ is_u64 (Statm.latest_rtt x) /\ is_u64 (Statm.min_rtt x) /\ is_u64 (Statm.rtt_variance x).

(** The history of the view of the specification: the packets accepted, the bytes
    the congestion controller was not told about, the packet numbers processed. *)
Record ghost := mkGhost { sent : pkts; leaked : Z; processed : per_space (list Z) }.

(** A number processed is in the set or below the watermark; the set holds only
    numbers processed. *)
Record rx_ok (r : rx_pkt_history_st) (disc : bool) (done : list Z) : Prop := {
  ro_hist : rxh_ok r;
  ro_done : disc = false -> forall k, k ∈ done -> k < rx_watermark r \/ UintSet.mem k (pn_set r);
  ro_only : forall k, UintSet.mem k (pn_set r) -> k ∈ done
}.

Record tx_ok (t : tx_state) (disc : bool) (s : QUIC_PN_SPACE) : Prop := {
  to_hist : txh_ok (tx_history t);
  to_space : Forall (fun p => pkt_space p = s) (packets (tx_history t));
  to_disc : disc = true -> packets (tx_history t) = [] /\ loss_time t = 0;
  to_loss : loss_time t <> 0 -> largest_acked_pkt t <> QUIC_PN_INVALID;
  to_time : is_u64 (time_of_last_ack_eliciting_pkt t)
}.

Record inv (a : st) (pend : pkts) (g : ghost) : Prop := {
  i_tx s : tx_ok (sel (tx a) s) (sel (discarded a) s) s;
  i_rx s : rx_ok (rx_history (sel (rx a) s)) (sel (discarded a) s) (sel (processed g) s);
  i_sent : Forall pkt_ok (sent g);
  i_mark : Forall (fun p => pkt_num p < tx_watermark (tx_history (sel (tx a) (pkt_space p)))) (sent g);
  i_keys : NoDup (key <$> sent g);
  i_perm : Permutation (sent g) (hist (tx a) ++ pend ++ resolved (log a));
  i_pend : Forall (fun p => sel (discarded a) (pkt_space p) = false) pend;
  i_bytes : bytes_in_flight a = flight (hist (tx a) ++ pend);
  i_elic s : ack_eliciting_bytes_in_flight (sel (tx a) s) = elic s (hist (tx a) ++ pend);
  i_cc : cc_bytes (cc_data a) = flight (hist (tx a) ++ pend) + leaked g;
  i_leak : 0 <= leaked g;
  i_bound : flight (hist (tx a) ++ pend) + leaked g < UINT64_MOD;
  i_clock : Forall is_u64 (now a);
  i_statm : statm_ok (statm a);
  i_delay : is_u64 (rx_max_ack_delay a);
  i_pto : 0 <= pto_count a
}.

(** Assignments to the other fields keep it. *)
Lemma inv_frame a a' pend g :
  inv a pend g -> tx a' = tx a -> discarded a' = discarded a -> bytes_in_flight a' = bytes_in_flight a ->
  cc_bytes (cc_data a') = cc_bytes (cc_data a) -> resolved (log a') = resolved (log a) ->
  (forall s, rx_history (sel (rx a') s) = rx_history (sel (rx a) s)) ->
  Forall is_u64 (now a') -> statm_ok (statm a') -> is_u64 (rx_max_ack_delay a') -> 0 <= pto_count a' -> inv a' pend g.
Proof.
  intros [] Etx Ed Eb Ec El Erx Hn Hs Hd Hpc. split; rewrite ?Etx, ?Ed, ?Eb, ?Ec, ?El; try done. intros s. by rewrite Erx.
Qed.

(** Assignments to the state of one space that keep its history and its count. *)
Lemma inv_tx a pend g s f :
  inv a pend g -> (forall t, tx_history (f t) = tx_history t) ->
  (forall t, ack_eliciting_bytes_in_flight (f t) = ack_eliciting_bytes_in_flight t) ->
  tx_ok (f (sel (tx a) s)) (sel (discarded a) s) s ->
  inv (set_tx (alter_at s f (tx a)) a) pend g.
Proof.
  intros [] Hh He Hok. assert (Hheld : forall s', held (alter_at s f (tx a)) s' = held (tx a) s').
  { intros s'. unfold held. apply (sel_alter_case (fun t => packets (tx_history t) = _)); intros; by subst; rewrite ?Hh. }
  assert (Hhist : hist (alter_at s f (tx a)) = hist (tx a)) by (unfold hist; by rewrite !Hheld).
  split; cbn [tx set_tx rx discarded log bytes_in_flight cc_data now statm rx_max_ack_delay pto_count]; rewrite ?Hhist; try done.
  - intros s'. by apply sel_alter_case; intros; subst.
  - eapply Forall_impl; [exact i_mark0|]. cbn. intros p Hp. apply sel_alter_case; intros Hs; [|done]. by rewrite Hh, <- Hs.
  - intros s'. apply (sel_alter_case (fun t => ack_eliciting_bytes_in_flight t = _)); intros; [subst; by rewrite He|done].
Qed.

(** Packets taken from the history of a space. *)
Lemma inv_take a pend g s h' out :
  inv a pend g -> removed (tx_history (sel (tx a) s)) h' out -> sel (discarded a) s = false ->
  inv (set_tx (alter_at s (set_tx_history h') (tx a)) a) (out ++ pend) g.
Proof.
  intros [] [Hok Hp Hl [Hw _]] Hd.
  assert (Hhist : Permutation (hist (tx a) ++ pend) (hist (alter_at s (set_tx_history h') (tx a)) ++ out ++ pend)).
  { rewrite (hist_split (tx a) s), (hist_split (alter_at s (set_tx_history h') (tx a)) s), others_alter.
    unfold held at 1 2. rewrite sel_alter, Hp. cbn. rewrite <- !app_assoc. rewrite (Permutation_app_swap_app out).
    apply Permutation_app_head. rewrite (Permutation_app_swap_app out). done. }
  pose proof (i_tx0 s) as [Th Ts Td Tl Tt].
  split; cbn [tx set_tx rx discarded log bytes_in_flight cc_data now statm rx_max_ack_delay pto_count]; rewrite <- ?Hhist; try done.
  - intros s'. apply sel_alter_case; intros; [subst|done]. split; cbn; try done; [|intros; congruence].
    apply Forall_forall. intros p Hpp. apply Hl in Hpp as [Hpp _]. rewrite Forall_forall in Ts. by apply Ts.
  - eapply Forall_impl; [exact i_mark0|]. cbn. intros p Hpm. apply sel_alter_case; intros Hs; [|done]. cbn. by rewrite Hw, <- Hs.
  - rewrite i_perm0, !app_assoc. apply Permutation_app_tail. rewrite <- (app_assoc _ out pend). done.
  - apply Forall_app. split; [|done]. apply Forall_forall. intros p Hpp. rewrite Forall_forall in Ts. rewrite Ts; [done|].
    rewrite Hp. apply elem_of_app. by left.
  - intros s'. rewrite <- Hhist. apply (sel_alter_case (fun t => ack_eliciting_bytes_in_flight t = _)); intros; subst; cbn; auto.
Qed.

(** ** Packets reported *)

Lemma psum_le f1 f2 l : (forall p, p ∈ l -> f1 p <= f2 p) -> psum f1 l <= psum f2 l.
Proof.
  induction l as [|p l IH]; intros Hl; unfold psum in *; cbn; [lia|]. pose proof (Hl p ltac:(left)).
  assert (foldr (fun p n => f1 p + n) 0 l <= foldr (fun p n => f2 p + n) 0 l) by (apply IH; intros q Hq; apply Hl; by right). lia.
Qed.

Lemma flight_bytes_range p : pkt_ok p -> 0 <= flight_bytes p.
Proof. intros [_ ? _ _]. unfold flight_bytes. zcase; lia. Qed.

Lemma elic_bytes_range s p : pkt_ok p -> 0 <= elic_bytes s p <= flight_bytes p.
Proof.
  intros [_ ? He _]. unfold elic_bytes, flight_bytes. destruct (is_ack_eliciting p); cbn; [rewrite He by done|]; repeat zcase; lia.
Qed.

Lemma inv_outstanding a pend g p : inv a pend g -> p ∈ hist (tx a) ++ pend -> pkt_ok p.
Proof.
  intros [] Hp. rewrite Forall_forall in i_sent0. apply i_sent0. rewrite i_perm0, app_assoc. apply elem_of_app. by left.
Qed.

Lemma inv_sums a pend g s :
  inv a pend g -> 0 <= elic s (hist (tx a) ++ pend) <= flight (hist (tx a) ++ pend).
Proof.
  intros Hi. pose proof (fun p => inv_outstanding _ _ _ p Hi) as Ho. split.
  - apply psum_nonneg. intros p Hp. apply elic_bytes_range. by apply Ho.
  - apply psum_le. intros p Hp. apply elic_bytes_range. by apply Ho.
Qed.

Lemma psum_middle f l1 p l2 : psum f (l1 ++ p :: l2) = f p + psum f (l1 ++ l2).
Proof. rewrite !psum_app. cbn. fold (psum f l2). lia. Qed.

(** What is known of the next packet to report. *)
Lemma inv_next a p pend g :
  inv a (p :: pend) g ->
  pkt_ok p /\ sel (discarded a) (pkt_space p) = false /\
  0 <= flight_bytes p <= bytes_in_flight a /\ flight_bytes p <= cc_bytes (cc_data a) /\ bytes_in_flight a < UINT64_MOD /\
  cc_bytes (cc_data a) < UINT64_MOD /\
  0 <= elic_bytes (pkt_space p) p <= ack_eliciting_bytes_in_flight (sel (tx a) (pkt_space p)) /\
  ack_eliciting_bytes_in_flight (sel (tx a) (pkt_space p)) < UINT64_MOD.
Proof.
  intros Hi. pose proof (inv_sums _ _ _ (pkt_space p) Hi) as Hs. pose proof Hi as [].
  assert (Hin : p ∈ hist (tx a) ++ p :: pend) by (rewrite elem_of_app; right; left).
  pose proof (inv_outstanding _ _ _ _ Hi Hin) as Hp. apply Forall_cons in i_pend0 as [Hd _].
  assert (Hr : forall q, q ∈ hist (tx a) ++ pend -> pkt_ok q).
  { intros q Hq. apply (inv_outstanding _ _ _ _ Hi). rewrite elem_of_app, elem_of_cons in *. tauto. }
  pose proof (flight_bytes_range p Hp). pose proof (elic_bytes_range (pkt_space p) p Hp).
  assert (0 <= flight (hist (tx a) ++ pend)) by (apply psum_nonneg; intros q Hq; apply flight_bytes_range; auto).
  assert (0 <= elic (pkt_space p) (hist (tx a) ++ pend)) by (apply psum_nonneg; intros q Hq; apply elic_bytes_range; auto).
  rewrite i_bytes0, i_cc0, i_elic0, !psum_middle in *. split_and!; try done; lia.
Qed.

Definition add_leak (n : Z) (g : ghost) : ghost := mkGhost (sent g) (leaked g + n) (processed g).

Definition less_elic (p : OSSL_ACKM_TX_PKT) (t : tx_state) : tx_state :=
  set_ack_eliciting_bytes_in_flight (u64 (ack_eliciting_bytes_in_flight t - num_bytes p)) t.

(** A packet leaves the bytes in flight and its callback is called; [n] bytes are
    kept from the congestion controller. *)
Lemma inv_settled a a' p pend g n :
  inv a (p :: pend) g -> bytes_in_flight a' = bytes_in_flight a - flight_bytes p ->
  tx a' = (if is_ack_eliciting p then alter_at (pkt_space p) (less_elic p) (tx a) else tx a) ->
  discarded a' = discarded a -> now a' = now a -> statm a' = statm a -> rx_max_ack_delay a' = rx_max_ack_delay a ->
  pto_count a' = pto_count a -> 0 <= n -> cc_bytes (cc_data a') = cc_bytes (cc_data a) - flight_bytes p + n -> n <= flight_bytes p ->
  resolved (log a') = resolved (log a) ++ [p] ->
  (forall s, rx_ok (rx_history (sel (rx a') s)) (sel (discarded a) s) (sel (processed g) s)) ->
  inv a' pend (add_leak n g).
Proof.
  intros Hi Eb Et Ed En Es Er Epc Hn Ec Hnf El Hrx. pose proof (inv_next _ _ _ _ Hi) as (Hp & Hdp & _ & _ & _ & _ & He & Hem).
  pose proof Hi as [].
  assert (Hheld : forall s, tx_history (sel (tx a') s) = tx_history (sel (tx a) s)).
  { intros s. rewrite Et. destruct (is_ack_eliciting p); [|done].
    apply (sel_alter_case (fun t => tx_history t = _)); intros; by subst. }
  assert (Hhist : hist (tx a') = hist (tx a)) by (unfold hist, held; by rewrite !Hheld).
  split; rewrite ?Hhist, ?Ed, ?En, ?Es, ?Er, ?Epc; cbn [sent leaked processed add_leak]; try done.
  - intros s. rewrite Et. destruct (is_ack_eliciting p); [|done]. apply sel_alter_case; intros; [subst|done].
    by destruct (i_tx0 (pkt_space p)).
  - eapply Forall_impl; [exact i_mark0|]. cbn. intros q. by rewrite Hheld.
  - rewrite i_perm0, El. cbn. apply Permutation_app_head. rewrite app_assoc. by rewrite (Permutation_app_comm _ [p]).
  - by apply Forall_cons in i_pend0 as [_ ?].
  - rewrite Eb, i_bytes0, psum_middle. lia.
  - intros s. specialize (i_elic0 s). rewrite psum_middle in i_elic0. rewrite Et.
    unfold elic_bytes at 1 in i_elic0. unfold elic_bytes at 1 2 in He.
    destruct (is_ack_eliciting p); cbn [andb] in *; [|lia].
    rewrite bool_decide_true in He by done.
    apply (sel_alter_case (fun t => ack_eliciting_bytes_in_flight t = _)); intros Hs.
    + subst. rewrite bool_decide_true in i_elic0 by done. cbn. rewrite u64_id by (unfold is_u64; lia). lia.
    + rewrite bool_decide_false in i_elic0 by congruence. lia.
  - rewrite Ec, i_cc0, psum_middle. lia.
  - lia.
  - rewrite psum_middle in i_bound0. lia.
Qed.

Lemma inv_leak0 a pend g : inv a pend (add_leak 0 g) -> inv a pend g.
Proof. unfold add_leak. rewrite Z.add_0_r. by destruct g. Qed.

Lemma resolved_app l1 l2 : resolved (l1 ++ l2) = resolved l1 ++ resolved l2.
Proof. apply omap_app. Qed.

(** Fields the reports leave alone. *)
Record kept (a a' : st) : Prop := {
  k_disc : discarded a' = discarded a;
  k_peer : peer_completed_addr_validation a' = peer_completed_addr_validation a;
  k_conf : handshake_confirmed a' = handshake_confirmed a;
  k_dead : loss_detection_deadline a' = loss_detection_deadline a;
  k_statm : statm a' = statm a
}.

Lemma kept_refl a : kept a a.
Proof. done. Qed.
Lemma kept_trans a1 a2 a3 : kept a1 a2 -> kept a2 a3 -> kept a1 a3.
Proof. intros [] []. split; congruence. Qed.

Lemma wp_sub p pend g a (Q : unit -> st -> Prop) E :
  inv a (p :: pend) g -> is_inflight p = true ->
  Q tt (set_tx (if is_ack_eliciting p then alter_at (pkt_space p) (less_elic p) (tx a) else tx a)
          (set_bytes_in_flight (bytes_in_flight a - flight_bytes p) a)) ->
  wp (sub_in_flight p) a Q E.
Proof.
  intros Hi Hf HQ. pose proof (inv_next _ _ _ _ Hi) as (_ & _ & Hb & _ & Hm & _). unfold flight_bytes in *. rewrite Hf in *.
  unfold sub_in_flight. wp_steps. rewrite u64_id by (unfold is_u64; lia).
  destruct (is_ack_eliciting p); [by apply wp_modify|]. apply wp_ret. by destruct a.
Qed.

(** The loop over the packets lost. *)
Lemma lost_loop_ok pseudo l : forall a pend g E,
  inv a (l ++ pend) g ->
  wp (lost_loop m pseudo l) a
    (fun _ a' => inv a' pend (add_leak (if pseudo then flight l else 0) g) /\ kept a a' /\ log a' = log a ++ map Lost l) E.
Proof.
  induction l as [|p l IH]; intros a pend g E Hi; cbn [lost_loop map app].
  { apply wp_ret. split_and!; [|done|by rewrite app_nil_r]. unfold add_leak. replace (if pseudo then _ else _) with 0 by (by destruct pseudo).
    by rewrite Z.add_0_r; destruct g. }
  pose proof (inv_next _ _ _ _ Hi) as (Hp & Hd & Hb & Hc & _ & Hcm & _).
  eapply (wp_seq _ _ _ _ (fun _ _ a' => inv a' (l ++ pend) (add_leak (if pseudo then flight_bytes p else 0) g) /\ kept a a' /\ log a' = log a ++ [Lost p])).
  { apply wp_bind. pose proof (i_rx _ _ _ Hi) as Hrx.
    destruct (is_inflight p) eqn:Hf.
    - assert (Ef : flight_bytes p = num_bytes p) by (unfold flight_bytes; by rewrite Hf).
      apply wp_bind, (wp_sub p (l ++ pend) g); [done|done|]. destruct pseudo; cbn [negb]; wp_steps; (split_and!; [|done|done]);
        (eapply inv_settled; [exact Hi|done|done|done|done|done|done|done|lia| |lia| |done]);
        try (cbn -[resolved]; by rewrite resolved_app); cbn; [lia|rewrite cc_lost by (cbn; lia); cbn; lia].
    - assert (Ef : flight_bytes p = 0) by (unfold flight_bytes; by rewrite Hf).
      assert (He : is_ack_eliciting p = false).
      { destruct Hp as [_ _ He _]. destruct (is_ack_eliciting p); [|done]. rewrite He in Hf; done. }
      wp_steps. split_and!; [|done|done]. eapply inv_settled; [exact Hi| | |done|done|done|done|done| | | | |done];
        cbn -[resolved]; rewrite ?He, ?Ef; try done; [lia|destruct pseudo; lia..|by rewrite resolved_app]. }
  intros _ _ a1 (Hi1 & Hk & Hl). eapply wp_mono; [by apply IH| |done]. intros _ a2 (Hi2 & Hk2 & Hl2). cbv beta.
  split_and!; [|by eapply kept_trans|by rewrite Hl2, Hl, <- app_assoc]. revert Hi2. unfold add_leak. cbn [sent leaked processed].
  cbn [psum foldr]. fold (flight l). destruct pseudo; by rewrite ?Z.add_0_r, <- ?Z.add_assoc.
Qed.

Lemma on_pkts_lost_ok pseudo l a pend g E :
  inv a (l ++ pend) g ->
  wp (ackm_on_pkts_lost m l pseudo) a
    (fun _ a' => inv a' pend (add_leak (if pseudo then flight l else 0) g) /\ kept a a' /\ log a' = log a ++ map Lost l) E.
Proof.
  intros Hi. unfold ackm_on_pkts_lost. apply wp_bind. eapply wp_mono; [by apply lost_loop_ok| |done].
  intros _ a1 (Hi1 & Hk & Hl). wp_steps. split_and!; [|by destruct Hk; split|done].
  pose proof Hi1 as []. eapply (inv_frame a1); try done. cbn. apply cc_finished.
Qed.

Lemma rx_ok_bump alloc r disc ns wm :
  rx_ok r disc ns -> wm <= MAX_PN -> exists r', rx_pkt_history_bump_watermark alloc r wm = Some (true, r') /\ rx_ok r' disc ns.
Proof.
  intros [Hh Hd Ho] Hw. destruct (bump_rxh_ok alloc r wm Hh Hw) as (r' & E & Hh' & Hwm & Hm). exists r'. split; [done|].
  split; [done| |].
  - intros Hdisc k Hk. destruct (Hd Hdisc k Hk) as [Hlt|Hin]; [left; lia|]. destruct (Z.lt_ge_cases k (rx_watermark r')); [by left|].
    right. by apply Hm.
  - intros k Hk. apply Hm in Hk as [Hk _]. auto.
Qed.

(** Raising the watermark of the packets received keeps the invariant. *)
Lemma bump_rx_ok alloc s wm a ns (Q : unit -> st -> Prop) E :
  rx_ok (rx_history (sel (rx a) s)) false ns -> sel (discarded a) s = false -> wm <= MAX_PN ->
  (forall h, rx_ok h false ns -> Q tt (set_rx (alter_at s (set_rx_history h) (rx a)) a)) ->
  wp (bump_rx alloc s wm) a Q E.
Proof.
  intros Hr Hd Hw HQ. unfold bump_rx, get_rx_history, assert_. wp_steps. rewrite Hd. cbn [negb]. wp_steps.
  destruct (rx_ok_bump alloc _ _ _ wm Hr Hw) as (r' & -> & Hr'). apply wp_modify. by apply HQ.
Qed.

Lemma resolved_acked l : resolved (map Acked l) = l.
Proof. induction l as [|p l IH]; cbn; [done|]. by f_equal. Qed.

(** The loop over the packets acknowledged. *)
Lemma on_pkts_acked_ok alloc l : forall a pend g E,
  inv a (l ++ pend) g ->
  wp (ackm_on_pkts_acked m alloc l) a (fun _ a' => inv a' pend g /\ kept a a' /\ log a' = log a ++ map Acked l) E.
Proof.
  induction l as [|p l IH]; intros a pend g E Hi; cbn [ackm_on_pkts_acked map app].
  { apply wp_ret. split_and!; [done|done|by rewrite app_nil_r]. }
  pose proof (inv_next _ _ _ _ Hi) as (Hp & Hd & Hb & Hc & _ & Hcm & _).
  assert (Hrest : forall a1, inv a1 (l ++ pend) g /\ kept a a1 /\ log a1 = log a ++ [Acked p] ->
    wp (ackm_on_pkts_acked m alloc l) a1 (fun _ a' => inv a' pend g /\ kept a a' /\ log a' = log a ++ Acked p :: map Acked l) E).
  { intros a1 (Hi1 & Hk & Hl). eapply wp_mono; [by apply IH| |done]. intros _ a2 (Hi2 & Hk2 & Hl2). cbv beta.
    split_and!; [done|by eapply kept_trans|by rewrite Hl2, Hl, <- app_assoc]. }
  apply wp_bind. destruct (is_inflight p) eqn:Hf.
  - assert (Ef : flight_bytes p = num_bytes p) by (unfold flight_bytes; by rewrite Hf).
    apply wp_bind, (wp_sub p (l ++ pend) g); [done|done|].
    set (a1 := set_tx _ _). assert (Hfin : forall rx', (forall s, rx_ok (rx_history (sel rx' s)) (sel (discarded a) s) (sel (processed g) s)) ->
      wp (call (Acked p);; cc_call (fun c => on_data_acked m c (NewReno.mkAckInfo (time p) (num_bytes p)));; ackm_on_pkts_acked m alloc l)
        (set_rx rx' a1) (fun _ a' => inv a' pend g /\ kept a a' /\ log a' = log a ++ Acked p :: map Acked l) E).
    { intros rx' Hrx. unfold call, cc_call. wp_steps. apply Hrest. split_and!; [|done|done]. apply inv_leak0.
      eapply inv_settled; [exact Hi|done|done|done|done|done|done|done|lia| |lia| |done]; cbn -[resolved]; [|by rewrite resolved_app].
      rewrite cc_acked by (cbn; lia). cbn. lia. }
    destruct (Z.eqb_spec (largest_acked p) QUIC_PN_INVALID) as [El|Hne]; cbn [negb].
    + apply wp_ret. replace a1 with (set_rx (rx a) a1) by (by destruct a). apply Hfin. apply Hi.
    + destruct Hp as [_ _ _ [Hpa|Hpa]]; [done|]. rewrite u64_id by (unfold is_u64, MAX_PN in *; lia).
      apply (bump_rx_ok alloc _ _ _ (sel (processed g) (pkt_space p))); [|done|lia|].
      { pose proof (i_rx _ _ _ Hi (pkt_space p)) as Hr. by rewrite Hd in Hr. }
      intros h Hh. cbn [rx set_tx set_bytes_in_flight a1]. apply Hfin. intros s.
      apply (sel_alter_case (fun r => rx_ok (rx_history r) _ _)); intros; subst; [by rewrite Hd|apply Hi].
  - assert (Ef : flight_bytes p = 0) by (unfold flight_bytes; by rewrite Hf).
    assert (He : is_ack_eliciting p = false).
    { destruct Hp as [_ _ He _]. destruct (is_ack_eliciting p); [|done]. rewrite He in Hf; done. }
    unfold call, cc_call. wp_steps. apply Hrest. split_and!; [|done|done]. apply inv_leak0.
    eapply inv_settled; [exact Hi| | |done|done|done|done|done|lia| | | |apply Hi]; cbn -[resolved]; rewrite ?He, ?Ef; try done; try lia.
    by rewrite resolved_app.
Qed.

(** ** Times *)

Lemma u64_clock ck : Forall is_u64 ck -> is_u64 (read_clock ck).1 /\ Forall is_u64 (read_clock ck).2.
Proof. intros [|t ck' Ht Hck]; [by split|]. done. Qed.

Lemma update_rtt_ok x d r : statm_ok x -> is_u64 d -> is_u64 r -> statm_ok (Statm.ossl_statm_update_rtt x d r).
Proof.
  intros (H1 & H2 & H3 & H4) Hd Hr. unfold Statm.ossl_statm_update_rtt.
  assert (Hl : is_u64 (if ossl_time_is_zero r then Statm.latest_rtt x else r)) by (by zcase).
  set (l := if ossl_time_is_zero r then Statm.latest_rtt x else r) in *.
  destruct (negb (Statm.have_first_sample x)); unfold statm_ok; cbn.
  { split_and!; try done. by apply is_u64_divide. }
  assert (Hm : is_u64 (if ossl_time_compare l (Statm.min_rtt x) <? 0 then l else Statm.min_rtt x)) by (by zcase).
  set (mn := if _ <? 0 then _ else _) in *.
  assert (Ha : is_u64 (if 0 <=? ossl_time_compare l (ossl_time_add mn d) then ossl_time_subtract l d else l))
    by (zcase; [by apply is_u64_subtract|done]).
  split_and!; try done; apply is_u64_divide; try done; apply is_u64_add; try done; try (by apply is_u64_multiply).
  by apply is_u64_abs_difference.
Qed.

Lemma loss_delay_u64 x : statm_ok x -> is_u64 (loss_delay_of (Statm.ossl_statm_get_rtt_info x)).
Proof.
  intros (H1 & H2 & _ & _). unfold loss_delay_of. cbn [Statm.ossl_statm_get_rtt_info Statm.info_latest_rtt Statm.info_smoothed_rtt].
  rewrite !time_max_spec. pose proof (is_u64_divide (ossl_time_multiply (Z.max (Statm.latest_rtt x) (Statm.smoothed_rtt x)) 9) 8) as Hd.
  unfold K_TIME_THRESHOLD_NUM, K_TIME_THRESHOLD_DEN, ossl_ticks2time, K_GRANULARITY, OSSL_TIME_MS, OSSL_TIME_SECOND.
  assert (is_u64 (ossl_time_multiply (Z.max (Statm.latest_rtt x) (Statm.smoothed_rtt x)) 9)) as Hm
    by (apply is_u64_multiply; unfold is_u64 in *; lia).
  specialize (Hd Hm ltac:(lia)). unfold is_u64 in *. change (1 * (1000000000 / 1000)) with 1000000. lia.
Qed.

Lemma pto_base_range x : statm_ok x ->
  1000000 <= pto_base (Statm.ossl_statm_get_rtt_info x) < UINT64_MOD.
Proof.
  intros (H1 & _ & _ & H4). unfold pto_base. cbn [Statm.ossl_statm_get_rtt_info Statm.info_smoothed_rtt Statm.info_rtt_variance].
  rewrite time_max_spec. pose proof (is_u64_multiply (Statm.rtt_variance x) 4 H4 ltac:(done)) as Hm.
  change (ossl_ticks2time K_GRANULARITY) with 1000000.
  rewrite time_add_spec by (unfold is_u64 in *; lia). unfold is_u64 in *. lia.
Qed.

Lemma pto_factor_range (a : st) : 0 <= pto_count a -> 1 <= pto_factor a <= 2 ^ 16.
Proof.
  intros Hp. unfold pto_factor, min_u32, MAX_PTO_COUNT. rewrite Z.shiftl_mul_pow2 by (zcase; lia). rewrite Z.mul_1_l.
  assert (Hr : 0 <= (if pto_count a <? 16 then pto_count a else 16) <= 16) by (zcase; lia).
  split; [apply (Z.pow_le_mono_r 2 0)|apply Z.pow_le_mono_r]; lia.
Qed.

(** The probe timeout is never zero. *)
Lemma pto_walk_pos (a : st) l : forall d t s,
  is_u64 (rx_max_ack_delay a) -> 0 <= pto_count a -> (forall s, is_u64 (time_of_last_ack_eliciting_pkt (sel (tx a) s))) ->
  0 < d < UINT64_MOD -> 0 < t -> 0 < (pto_walk a d l t s).1.
Proof.
  induction l as [|i l IH]; intros d t s Hr Hp Ht Hd Hpos; cbn [pto_walk]; [done|].
  destruct (_ =? 0); [by apply IH|]. destruct (bool_decide _ && _); [done|].
  set (d' := if bool_decide _ && _ then _ else _).
  assert (Hd' : 0 < d' < UINT64_MOD).
  { pose proof (pto_factor_range a Hp). subst d'. zcase; [|done].
    assert (Hm : is_u64 (ossl_time_multiply (rx_max_ack_delay a) (pto_factor a))) by (apply is_u64_multiply; [done|unfold is_u64; lia]).
    rewrite time_add_spec by (unfold is_u64 in *; lia). unfold is_u64 in Hm. lia. }
  zcase; apply IH; try done. specialize (Ht i). rewrite time_add_spec by (unfold is_u64 in *; lia). unfold is_u64 in Ht. lia.
Qed.

(** ** The loss detection timer *)

(** A timer is set only when there is something to time, and always when there are
    ack-eliciting packets in flight. *)
Definition timer_ok (a : st) : Prop :=
  (loss_detection_deadline a <> 0 ->
     (ackm_get_loss_time_and_space a).1 <> 0 \/ ackm_ack_eliciting_bytes_in_flight a <> 0 \/
     peer_completed_addr_validation a = false) /\
  (ackm_ack_eliciting_bytes_in_flight a <> 0 -> loss_detection_deadline a <> 0).

(** The deadline RFC 9002 (A.8) prescribes; times saturate at [UINT64_MAX].  The loss time
    that counts: the least, except that a space that waits for none hides those before it. *)
Definition next_loss (a : st) : Z :=
  let first t u := if (t =? 0) || (u <? t) then u else t in
  first (first (loss_time (sel (tx a) QUIC_PN_SPACE_INITIAL)) (loss_time (sel (tx a) QUIC_PN_SPACE_HANDSHAKE)))
    (loss_time (sel (tx a) QUIC_PN_SPACE_APP)).

(** The probe timeout, doubled with every probe sent up to sixteen times. *)
Definition backoff (a : st) : Z := 2 ^ Z.min (pto_count a) 16.
Definition probe_timeout (a : st) : Z :=
  let x := statm a in
  Z.min (Z.min (Statm.smoothed_rtt x + Z.max (Z.min (Statm.rtt_variance x * 4) UINT64_MAX) 1000000) UINT64_MAX * backoff a) UINT64_MAX.

(** When a probe for the last ack-eliciting packet of a space is due; the peer may delay
    acknowledgements of application data. *)
Definition probe_deadline (a : st) (s : QUIC_PN_SPACE) : Z :=
  let wait := match s with
              | QUIC_PN_SPACE_APP => if rx_max_ack_delay a =? UINT64_MAX then probe_timeout a
                                     else Z.min (probe_timeout a + Z.min (rx_max_ack_delay a * backoff a) UINT64_MAX) UINT64_MAX
              | _ => probe_timeout a
              end in
  Z.min (time_of_last_ack_eliciting_pkt (sel (tx a) s) + wait) UINT64_MAX.

(** The spaces that are probed: application data not before the handshake is confirmed. *)
Definition probed (a : st) (s : QUIC_PN_SPACE) : bool :=
  negb (ack_eliciting_bytes_in_flight (sel (tx a) s) =? 0) &&
  match s with QUIC_PN_SPACE_APP => handshake_confirmed a | _ => true end.

Definition timed (a : st) : Prop :=
  let d := loss_detection_deadline a in
  if negb (next_loss a =? 0) then d = next_loss a
  else if ackm_ack_eliciting_bytes_in_flight a =? 0 then
    if peer_completed_addr_validation a then d = 0 else exists t, is_u64 t /\ d = Z.min (t + probe_timeout a) UINT64_MAX
  else d = foldr Z.min UINT64_MAX (map (probe_deadline a) (filter (fun s => probed a s = true) spaces)).

Lemma next_loss_spec (a : st) : (ackm_get_loss_time_and_space a).1 = next_loss a.
Proof.
  unfold ackm_get_loss_time_and_space, next_loss. cbn [foldl]. rewrite !time_is_zero_spec.
  assert (Hc : forall x y, (ossl_time_compare x y =? -1) = (x <? y)).
  { intros x y. rewrite time_compare_spec. destruct (Z.ltb_spec x y); [rewrite Z.sgn_neg by lia; done|].
    destruct (Z.eqb_spec (Z.sgn (x - y)) (-1)); lia. }
  rewrite Hc. destruct (_ || _); cbv beta iota; rewrite !time_is_zero_spec, Hc; by destruct (_ || _).
Qed.

Lemma pto_factor_spec (a : st) : 0 <= pto_count a -> pto_factor a = backoff a.
Proof.
  intros Hp. unfold pto_factor, backoff, min_u32, MAX_PTO_COUNT. rewrite Z.shiftl_1_l. f_equal. zcase; lia.
Qed.

Lemma probe_timeout_spec (a : st) : statm_ok (statm a) -> 0 <= pto_count a ->
  ossl_time_multiply (pto_base (Statm.ossl_statm_get_rtt_info (statm a))) (pto_factor a) = probe_timeout a /\ is_u64 (probe_timeout a).
Proof.
  intros Hs Hp. pose proof (pto_base_range _ Hs) as Hb. pose proof (pto_factor_range a Hp) as Hf. pose proof Hs as (H1 & _ & _ & H4).
  unfold probe_timeout. rewrite <- pto_factor_spec by done.
  rewrite time_multiply_spec by (unfold is_u64; lia).
  assert (Eb : pto_base (Statm.ossl_statm_get_rtt_info (statm a)) =
    Z.min (Statm.smoothed_rtt (statm a) + Z.max (Z.min (Statm.rtt_variance (statm a) * 4) UINT64_MAX) 1000000) UINT64_MAX).
  { unfold pto_base. cbn [Statm.ossl_statm_get_rtt_info Statm.info_smoothed_rtt Statm.info_rtt_variance].
    rewrite time_max_spec, time_multiply_spec by done. change (ossl_ticks2time K_GRANULARITY) with 1000000.
    rewrite time_add_spec by (unfold is_u64 in *; lia). done. }
  rewrite <- Eb. split; [done|]. unfold is_u64. nia.
Qed.

(** The loop over the spaces computes the least of the deadlines of those that are
    probed. *)
Lemma pto_walk_spec (a : st) :
  statm_ok (statm a) -> 0 <= pto_count a -> is_u64 (rx_max_ack_delay a) -> (forall s, is_u64 (time_of_last_ack_eliciting_pkt (sel (tx a) s))) ->
  (pto_walk a (probe_timeout a) spaces ossl_time_infinite QUIC_PN_SPACE_INITIAL).1 =
    foldr Z.min UINT64_MAX (map (probe_deadline a) (filter (fun s => probed a s = true) spaces)).
Proof.
  intros Hs Hp Hd Ht. destruct (probe_timeout_spec a Hs Hp) as [_ Hpt]. pose proof (pto_factor_range a Hp) as Hf.
  assert (Hw : forall s, s <> QUIC_PN_SPACE_APP ->
    ossl_time_add (time_of_last_ack_eliciting_pkt (sel (tx a) s)) (probe_timeout a) = probe_deadline a s).
  { intros s Hn. rewrite time_add_spec by done. unfold probe_deadline. by destruct s. }
  assert (Hwa : ossl_time_add (time_of_last_ack_eliciting_pkt (sel (tx a) QUIC_PN_SPACE_APP))
    (if negb (ossl_time_is_infinite (rx_max_ack_delay a))
     then ossl_time_add (probe_timeout a) (ossl_time_multiply (rx_max_ack_delay a) (pto_factor a)) else probe_timeout a)
    = probe_deadline a QUIC_PN_SPACE_APP).
  { assert (Ei : ossl_time_is_infinite (rx_max_ack_delay a) = (rx_max_ack_delay a =? UINT64_MAX)).
    { unfold ossl_time_is_infinite. rewrite time_compare_spec. change ossl_time_infinite with UINT64_MAX.
      destruct (Z.eqb_spec (rx_max_ack_delay a) UINT64_MAX), (Z.eqb_spec (Z.sgn (rx_max_ack_delay a - UINT64_MAX)) 0); lia. }
    assert (Hm : is_u64 (ossl_time_multiply (rx_max_ack_delay a) (pto_factor a))) by (apply is_u64_multiply; [done|unfold is_u64; lia]).
    rewrite Ei, time_add_spec by first [done|destruct (_ =? UINT64_MAX); cbn [negb]; [done|by apply is_u64_add]].
    unfold probe_deadline. destruct (_ =? UINT64_MAX); cbn [negb]; [done|]. rewrite time_add_spec by done.
    rewrite time_multiply_spec by first [done|unfold is_u64; lia]. by rewrite pto_factor_spec. }
  assert (Hle : forall s, probe_deadline a s <= UINT64_MAX) by (intros; unfold probe_deadline; lia).
  assert (Hc : forall x y, (ossl_time_compare x y <? 0) = (x <? y)).
  { intros x y. rewrite time_compare_spec. destruct (Z.ltb_spec x y), (Z.ltb_spec (Z.sgn (x - y)) 0); lia. }
  pose proof (Hle QUIC_PN_SPACE_INITIAL). pose proof (Hle QUIC_PN_SPACE_HANDSHAKE). pose proof (Hle QUIC_PN_SPACE_APP).
  unfold spaces. cbn [pto_walk]. rewrite !Hc. change ossl_time_infinite with UINT64_MAX.
  rewrite !(bool_decide_eq_false_2 (QUIC_PN_SPACE_INITIAL = _)), !(bool_decide_eq_false_2 (QUIC_PN_SPACE_HANDSHAKE = _)) by done.
  rewrite !(bool_decide_eq_true_2 (QUIC_PN_SPACE_APP = _)) by done. cbn [andb]. rewrite !Hwa, !Hw by done.
  unfold probed. repeat rewrite filter_cons. rewrite filter_nil.
  destruct (Z.eqb_spec (ack_eliciting_bytes_in_flight (sel (tx a) QUIC_PN_SPACE_INITIAL)) 0);
    destruct (Z.eqb_spec (ack_eliciting_bytes_in_flight (sel (tx a) QUIC_PN_SPACE_HANDSHAKE)) 0);
    destruct (Z.eqb_spec (ack_eliciting_bytes_in_flight (sel (tx a) QUIC_PN_SPACE_APP)) 0);
    destruct (handshake_confirmed a); cbn [negb andb fst];
    repeat first [case_decide; [|done]|case_decide; [done|]]; cbn [map foldr];
    repeat (zcase; cbn [fst]); lia.
Qed.

(** States that differ in the timer, the clock and calls of the deadline callbacks. *)
Definition retimed (a a' : st) (d : Z) : Prop :=
  exists ck evs, a' = set_loss_detection_deadline d (set_now ck (set_log (log a ++ evs) a)) /\ resolved evs = [] /\
    Forall is_u64 ck.

Lemma inv_retimed a a' d pend g : inv a pend g -> retimed a a' d -> inv a' pend g.
Proof.
  intros Hi (ck & evs & -> & He & Hck). pose proof Hi as []. eapply inv_frame; [exact Hi|done..| |done|done|done|done|done].
  cbn. by rewrite resolved_app, He, app_nil_r.
Qed.

(** What the computation of the timer needs. *)
Record times_ok (a : st) : Prop := {
  ti_last s : is_u64 (time_of_last_ack_eliciting_pkt (sel (tx a) s));
  ti_clock : Forall is_u64 (now a);
  ti_statm : statm_ok (statm a);
  ti_delay : is_u64 (rx_max_ack_delay a);
  ti_pto : 0 <= pto_count a
}.

Lemma inv_times a pend g : inv a pend g -> times_ok a.
Proof. intros []. split; try done. intros s. apply i_tx0. Qed.

Lemma set_timer_actual a d (Q : unit -> st -> Prop) E :
  Forall is_u64 (now a) -> (forall a', retimed a a' d -> Q tt a') -> wp (ackm_set_loss_detection_timer_actual d) a Q E.
Proof.
  intros Hn HQ. unfold ackm_set_loss_detection_timer_actual. wp_steps. unfold call.
  destruct (loss_detection_deadline_cb _); wp_steps; apply HQ; [exists (now a), [LossDeadline d]|exists (now a), []]; cbn; split_and!; try done.
  rewrite app_nil_r. by destruct a.
Qed.

Lemma pto_time_ok a (Q : OSSL_TIME * QUIC_PN_SPACE -> st -> Prop) E :
  times_ok a -> (ackm_ack_eliciting_bytes_in_flight a = 0 -> peer_completed_addr_validation a = false) ->
  (forall t s ck, 0 < t -> Forall is_u64 ck ->
     (if ackm_ack_eliciting_bytes_in_flight a =? 0 then exists t0, is_u64 t0 /\ t = Z.min (t0 + probe_timeout a) UINT64_MAX
      else t = foldr Z.min UINT64_MAX (map (probe_deadline a) (filter (fun s => probed a s = true) spaces))) ->
     Q (t, s) (set_now ck a)) -> wp ackm_get_pto_time_and_space a Q E.
Proof.
  intros [] Hae HQ. unfold ackm_get_pto_time_and_space. wp_steps.
  pose proof (pto_base_range _ ti_statm0) as Hb. pose proof (pto_factor_range a ti_pto0) as Hf.
  assert (Hd : 0 < ossl_time_multiply (pto_base (Statm.ossl_statm_get_rtt_info (statm a))) (pto_factor a) < UINT64_MOD).
  { rewrite time_multiply_spec by (unfold is_u64; lia). nia. }
  destruct (probe_timeout_spec a ti_statm0 ti_pto0) as [Epto Hpto]. rewrite Epto in *.
  destruct (Z.eqb_spec (ackm_ack_eliciting_bytes_in_flight a) 0) as [Ez|Hnz].
  - rewrite Hae by done. cbn [negb assert_]. unfold read_now. wp_steps. destruct (u64_clock _ ti_clock0) as [Ht Hck].
    destruct (read_clock (now a)) as [t ck]. wp_steps. cbn in Ht. rewrite time_add_spec by done.
    apply HQ; [unfold is_u64 in Ht; lia|done|by exists t].
  - apply wp_ret. destruct (pto_walk _ _ _ _ _) as [t s] eqn:Ew. replace a with (set_now (now a) a) at 1 by (by destruct a).
    apply HQ; [|done|]; change t with ((t, s).1); rewrite <- Ew; [by apply pto_walk_pos|by apply pto_walk_spec].
Qed.

Lemma set_timer_ok a (Q : unit -> st -> Prop) E :
  times_ok a -> (forall a' d, retimed a a' d -> timer_ok a' -> timed a' -> Q tt a') ->
  wp ackm_set_loss_detection_timer a Q E.
Proof.
  intros Hi HQ. pose proof Hi as []. unfold ackm_set_loss_detection_timer. wp_steps.
  assert (Hdone : forall d b ck, Forall is_u64 ck -> b = set_now ck a ->
    (d <> 0 -> (ackm_get_loss_time_and_space a).1 <> 0 \/ ackm_ack_eliciting_bytes_in_flight a <> 0 \/
               peer_completed_addr_validation a = false) ->
    (ackm_ack_eliciting_bytes_in_flight a <> 0 -> d <> 0) -> timed (set_loss_detection_deadline d a) ->
    wp (ackm_set_loss_detection_timer_actual d) b Q E).
  { intros d b ck Hck -> Hd1 Hd2 Hd3. apply set_timer_actual; [done|]. intros a' (ck' & evs & -> & He & Hck').
    assert (Hr : retimed a (set_loss_detection_deadline d (set_now ck' (set_log (log (set_now ck a) ++ evs) (set_now ck a)))) d)
      by (by exists ck', evs). by eapply HQ. }
  pose proof (next_loss_spec a) as Enl.
  destruct (ackm_get_loss_time_and_space a) as [t s] eqn:El. rewrite time_is_zero_spec. cbn [fst] in Hdone, Enl.
  assert (Ea : a = set_now (now a) a) by (by destruct a).
  assert (Htd : forall d, timed (set_loss_detection_deadline d a) = (if negb (t =? 0) then d = t
    else if ackm_ack_eliciting_bytes_in_flight a =? 0 then
      if peer_completed_addr_validation a then d = 0 else exists t, is_u64 t /\ d = Z.min (t + probe_timeout a) UINT64_MAX
    else d = foldr Z.min UINT64_MAX (map (probe_deadline a) (filter (fun s => probed a s = true) spaces)))).
  { intros d. unfold timed. change (next_loss (set_loss_detection_deadline d a)) with (next_loss a). by rewrite <- Enl. }
  destruct (Z.eqb_spec t 0) as [->|Hnz]; cbn [negb] in *; [|apply (Hdone t a (now a)); auto; by rewrite Htd].
  destruct (Z.eqb_spec (ackm_ack_eliciting_bytes_in_flight a) 0) as [Ez|Hae]; cbn [andb];
    [destruct (peer_completed_addr_validation a) eqn:Ep; [apply (Hdone 0 a (now a)); auto; by rewrite Htd|]|];
    apply wp_bind, (pto_time_ok a); try done; intros t' s' ck Ht Hck Hx; (apply (Hdone t' _ ck); [done|done|by auto|intros _; lia|rewrite Htd]).
  - by rewrite Ez in Hx.
  - by destruct (Z.eqb_spec (ackm_ack_eliciting_bytes_in_flight a) 0).
Qed.

(** ** Packets sent *)

Definition add_sent (p : OSSL_ACKM_TX_PKT) (g : ghost) : ghost := mkGhost (sent g ++ [p]) (leaked g) (processed g).

Lemma inv_add a a' pkt g h' f :
  inv a [] g -> pkt_ok pkt -> flight (hist (tx a)) + leaked g + num_bytes pkt < UINT64_MOD ->
  sel (discarded a) (pkt_space pkt) = false -> txh_ok h' -> tx_watermark (tx_history (sel (tx a) (pkt_space pkt))) <= pkt_num pkt ->
  packets h' = held (tx a) (pkt_space pkt) ++ [pkt] -> tx_watermark h' = pkt_num pkt + 1 ->
  tx a' = alter_at (pkt_space pkt) f (tx a) ->
  (let t := sel (tx a) (pkt_space pkt) in
   tx_history (f t) = h' /\ ack_eliciting_bytes_in_flight (f t) = ack_eliciting_bytes_in_flight t + elic_bytes (pkt_space pkt) pkt /\
   loss_time (f t) = loss_time t /\ largest_acked_pkt (f t) = largest_acked_pkt t /\ is_u64 (time_of_last_ack_eliciting_pkt (f t))) ->
  discarded a' = discarded a -> bytes_in_flight a' = bytes_in_flight a + flight_bytes pkt ->
  cc_bytes (cc_data a') = cc_bytes (cc_data a) + flight_bytes pkt -> log a' = log a -> rx a' = rx a ->
  times_ok a' -> inv a' [] (add_sent pkt g).
Proof.
  intros Hi Hp Hb Hd Hok Hle Hpk Hwm Et (Fh & Fe & Fl & Fa & _) Ed Eb Ec El Er Hti. pose proof Hi as [].
  destruct Hti as [Hlast Hck Hst Hdl Hpt]. rewrite !app_nil_r in *.
  assert (Helic : forall s, ack_eliciting_bytes_in_flight (sel (tx a) s) = elic s (hist (tx a)))
    by (intros s; by rewrite i_elic0, ?app_nil_r).
  assert (Hhist : Permutation (hist (tx a')) (pkt :: hist (tx a))).
  { rewrite Et, (hist_split _ (pkt_space pkt)), others_alter, (hist_split (tx a) (pkt_space pkt)).
    unfold held at 1. rewrite sel_alter, Fh, Hpk. rewrite <- app_assoc. cbn. by rewrite <- Permutation_middle. }
  pose proof (flight_bytes_range pkt Hp) as Hf0. assert (Hf : flight_bytes pkt <= num_bytes pkt).
  { destruct Hp as [_ ? _ _]. unfold flight_bytes. zcase; lia. }
  split; rewrite ?app_nil_r, ?Ed, ?El, ?Er; cbn [sent leaked processed add_sent]; try done.
  - intros s. specialize (Hlast s). revert Hlast. rewrite Et.
    apply (sel_alter_case (fun t => is_u64 (time_of_last_ack_eliciting_pkt t) -> tx_ok t _ _)); intros; [subst|apply i_tx0].
    destruct (i_tx0 (pkt_space pkt)) as [_ Ts Td Tl _]. split; rewrite ?Fh, ?Fl, ?Fa; try done; [|intros; congruence].
    rewrite Hpk. apply Forall_app. split; [done|]. by apply Forall_singleton.
  - apply Forall_app. split; [done|]. by apply Forall_singleton.
  - rewrite Et. apply Forall_app. split; [|apply Forall_singleton; rewrite sel_alter, Fh; lia].
    eapply Forall_impl; [exact i_mark0|]. cbn. intros q Hq. apply sel_alter_case; intros Hs; [|done].
    rewrite Fh, Hwm. rewrite Hs in Hq. lia.
  - rewrite fmap_app. apply NoDup_app. split_and!; [done| |cbn; apply NoDup_singleton].
    intros k Hk Hk'. apply list_elem_of_fmap in Hk as (q & -> & Hq). apply list_elem_of_singleton in Hk'.
    rewrite Forall_forall in i_mark0. specialize (i_mark0 q Hq). unfold key in Hk'. injection Hk' as Hks Hkn. rewrite Hks in i_mark0. lia.
  - rewrite i_perm0, Hhist. cbn. by rewrite (Permutation_app_comm _ [pkt]).
  - rewrite Eb, i_bytes0, Hhist. cbn. fold (flight (hist (tx a))). lia.
  - intros s. rewrite ?app_nil_r, Hhist. cbn [psum foldr]. fold (elic s (hist (tx a))). rewrite Et.
    apply (sel_alter_case (fun t => ack_eliciting_bytes_in_flight t = _)); intros Hs.
    + subst. rewrite Fe, Helic. lia.
    + rewrite Helic. unfold elic_bytes at 2. rewrite bool_decide_false by congruence. by rewrite andb_false_r.
  - rewrite Ec, i_cc0, Hhist. cbn. fold (flight (hist (tx a))). lia.
  - rewrite Hhist. cbn. fold (flight (hist (tx a))). lia.
Qed.

End Inv.

End AckmInv.
