(* ===== verification/AckmOps.v ===== *)
(** * The operations of the ACK manager

    Every operation keeps the invariant of [AckmInv] and the timer in order; the
    properties of the ACK manager follow for the states it can reach. *)
From Stdlib Require Import ZArith Lia Bool.
From stdpp Require Import base tactics list gmap sorting.
From S2P Require Import Prelude OsslTime UintSet Statm NewReno QuicVlint QuicWire AckHist Ackm AckmDetect AckmInv.
#[local] Open Scope Z_scope.
Import OsslTime AckHist Ackm AckmDetect AckmInv.
Import QuicWire(OSSL_QUIC_ACK_RANGE, range_start, range_end, OSSL_QUIC_FRAME_ACK, ack_ranges, num_ack_ranges,
  delay_time, used_ranges, valid_ranges).

Module AckmOps.

Section Ops.
Context {CC : Type} {m : OSSL_CC_METHOD CC} `{!CcAccounting m}.
Abbreviation st := (OSSL_ACKM CC) (only parsing).

(** ** Helpers *)

Lemma wp_tx_history s (a : st) (Q : tx_pkt_history_st -> st -> Prop) E :
  sel (discarded a) s = false -> Q (tx_history (sel (tx a) s)) a -> wp (get_tx_history s) a Q E.
Proof. intros Hd HQ. unfold get_tx_history, assert_. wp_steps. rewrite Hd. cbn [negb]. by wp_steps. Qed.

Lemma wp_rx_history s (a : st) (Q : rx_pkt_history_st -> st -> Prop) E :
  sel (discarded a) s = false -> Q (rx_history (sel (rx a) s)) a -> wp (get_rx_history s) a Q E.
Proof. intros Hd HQ. unfold get_rx_history, assert_. wp_steps. rewrite Hd. cbn [negb]. by wp_steps. Qed.

Lemma wp_read_now (a : st) (Q : OSSL_TIME -> st -> Prop) E :
  Q (read_clock (now a)).1 (set_now (read_clock (now a)).2 a) -> wp read_now a Q E.
Proof. intros HQ. unfold read_now. wp_steps. destruct (read_clock (now a)). by wp_steps. Qed.

Lemma loss_time_ext (a a' : st) :
  (forall s, loss_time (sel (tx a') s) = loss_time (sel (tx a) s)) ->
  ackm_get_loss_time_and_space a' = ackm_get_loss_time_and_space a.
Proof.
  intros El. unfold ackm_get_loss_time_and_space. cbn [foldl]. rewrite !El. by destruct (_ || _); rewrite !El.
Qed.

Lemma elic_ext (a a' : st) :
  (forall s, ack_eliciting_bytes_in_flight (sel (tx a') s) = ack_eliciting_bytes_in_flight (sel (tx a) s)) ->
  ackm_ack_eliciting_bytes_in_flight a' = ackm_ack_eliciting_bytes_in_flight a.
Proof. intros Ee. unfold ackm_ack_eliciting_bytes_in_flight. cbn [foldl spaces]. by rewrite !Ee. Qed.

Lemma timer_frame (a a' : st) :
  timer_ok a -> (forall s, loss_time (sel (tx a') s) = loss_time (sel (tx a) s)) ->
  (forall s, ack_eliciting_bytes_in_flight (sel (tx a') s) = ack_eliciting_bytes_in_flight (sel (tx a) s)) ->
  loss_detection_deadline a' = loss_detection_deadline a ->
  peer_completed_addr_validation a' = peer_completed_addr_validation a -> timer_ok a'.
Proof.
  intros Ht El Ee Ed Ep. unfold timer_ok. by rewrite Ed, Ep, (loss_time_ext a a' El), (elic_ext a a' Ee).
Qed.

(** What the deadline depends on. *)
Lemma timed_frame (a a' : st) :
  timed a -> (forall s, loss_time (sel (tx a') s) = loss_time (sel (tx a) s)) ->
  (forall s, ack_eliciting_bytes_in_flight (sel (tx a') s) = ack_eliciting_bytes_in_flight (sel (tx a) s)) ->
  (forall s, time_of_last_ack_eliciting_pkt (sel (tx a') s) = time_of_last_ack_eliciting_pkt (sel (tx a) s)) ->
  loss_detection_deadline a' = loss_detection_deadline a -> peer_completed_addr_validation a' = peer_completed_addr_validation a ->
  statm a' = statm a -> pto_count a' = pto_count a -> rx_max_ack_delay a' = rx_max_ack_delay a ->
  handshake_confirmed a' = handshake_confirmed a -> timed a'.
Proof.
  intros Ht El Ee Et Ed Ep Es Ec Er Eh. unfold timed in *. rewrite <- !next_loss_spec in *.
  rewrite (loss_time_ext a a' El), (elic_ext a a' Ee), Ed, Ep.
  assert (Epr : probe_timeout a' = probe_timeout a) by (unfold probe_timeout, backoff; by rewrite Es, Ec).
  assert (Epd : forall s, probe_deadline a' s = probe_deadline a s) by (intros s; unfold probe_deadline, backoff; by rewrite Epr, Et, Er, Ec).
  assert (Epb : forall s, probed a' s = probed a s) by (intros s; unfold probed; by rewrite Ee, Eh).
  rewrite Epr. unfold spaces in *. repeat (rewrite !filter_cons in * ). rewrite !filter_nil, !Epb in *.
  repeat case_decide; cbn [map foldr] in *; by rewrite ?Epd.
Qed.

(** ** Sending *)

Lemma on_tx_packet_ok pkt a g :
  inv a [] g -> timer_ok a -> sel (discarded a) (pkt_space pkt) = false ->
  0 <= pkt_num pkt < MAX_PN -> is_u64 (time pkt) -> is_u64 (num_bytes pkt) ->
  (largest_acked pkt = QUIC_PN_INVALID \/ 0 <= largest_acked pkt < MAX_PN) ->
  flight (hist (tx a)) + leaked g + num_bytes pkt < UINT64_MOD ->
  wp (ossl_ackm_on_tx_packet m true pkt) a
    (fun _ a' => inv a' [] (add_sent pkt g) /\ timer_ok a' /\ resolved (log a') = resolved (log a) /\
                 (is_inflight pkt = true \/ timed a -> timed a')) (fun a' => a' = a).
Proof.
  intros Hi Ht Hd Hn Htm Hb Hla Hsum. unfold ossl_ackm_on_tx_packet. apply wp_bind, wp_tx_history; [done|]. wp_steps.
  apply wp_guard; [|done]. intros G1. wp_steps. apply wp_guard; [|done]. intros G2. wp_steps. apply wp_guard; [|done]. intros G3.
  rewrite time_is_zero_spec in G1. apply negb_true_iff, orb_false_iff in G1 as [G1 _]. zb.
  assert (Hp : pkt_ok pkt).
  { unfold is_u64 in *. split; [split_and!; try done; lia|lia| |done]. intros He. rewrite He, andb_true_r in G3. by destruct (is_inflight pkt). }
  pose proof Hi as []. pose proof (i_tx0 (pkt_space pkt)) as [Th _ _ _ Tt].
  pose proof (add_ok _ pkt Th ltac:(unfold is_u64, MAX_PN in *; lia) ltac:(unfold MAX_PN in *; lia)) as Hadd.
  destruct (tx_pkt_history_add true _ pkt) as [h'|]; [|by apply wp_fail]. destruct Hadd as (Hle & Hok & Hpk & Hwm & _).
  pose proof (inv_sums _ _ _ (pkt_space pkt) Hi) as Hsums. rewrite app_nil_r in *.
  assert (Hni : forall s, elic s (hist (tx a) ++ []) = elic s (hist (tx a))) by (intros; by rewrite app_nil_r).
  unfold is_u64 in Hb. unfold upd_tx, cc_call. wp_steps. destruct (is_inflight pkt) eqn:Hf.
  2: { assert (He : is_ack_eliciting pkt = false) by (destruct (is_ack_eliciting pkt); done).
    wp_steps. split_and!; [| |done|].
    - eapply (inv_add a _ _ _ h' (set_tx_history h')); try done; cbn; rewrite ?app_nil_r; try done;
        unfold flight_bytes, elic_bytes; rewrite ?Hf, ?He; cbn; try lia; [split_and!; try done; lia|].
      split; try done. intros s. cbn. apply (sel_alter_case (fun t => is_u64 (time_of_last_ack_eliciting_pkt t))); intros; [done|apply i_tx0].
    - eapply timer_frame; try done; intros s; cbn; apply (sel_alter_case (fun t => _ t = _)); intros; by subst.
    - intros [|Htd]; [done|]. eapply timed_frame; try done; intros s; cbn; apply (sel_alter_case (fun t => _ t = _)); intros; by subst. }
  assert (Hfl : flight_bytes pkt = num_bytes pkt) by (unfold flight_bytes; by rewrite Hf).
  pose proof (inv_sums _ _ _ QUIC_PN_SPACE_APP Hi) as Hs0. rewrite app_nil_r in Hs0.
  assert (Hfin : forall f, let a1 := set_bytes_in_flight (u64 (bytes_in_flight a + num_bytes pkt)) (set_tx (alter_at (pkt_space pkt) f (tx a)) a) in
    (let t := sel (tx a) (pkt_space pkt) in
     tx_history (f t) = h' /\ ack_eliciting_bytes_in_flight (f t) = ack_eliciting_bytes_in_flight t + elic_bytes (pkt_space pkt) pkt /\
     loss_time (f t) = loss_time t /\ largest_acked_pkt (f t) = largest_acked_pkt t /\ is_u64 (time_of_last_ack_eliciting_pkt (f t))) ->
    wp ackm_set_loss_detection_timer a1 (fun _ a' => wp (modify (fun a => set_cc_data (on_data_sent m (cc_data a) (num_bytes pkt)).2 a)) a'
      (fun _ a' => inv a' [] (add_sent pkt g) /\ timer_ok a' /\ resolved (log a') = resolved (log a) /\ (true = true \/ timed a -> timed a'))
      (fun a' => a' = a)) (fun a' => a' = a)).
  { intros f a1 Hft. pose proof Hft as (_ & _ & _ & _ & Htf).
    assert (Hti : times_ok a1).
    { split; try done. intros s. cbn. apply (sel_alter_case (fun t => is_u64 (time_of_last_ack_eliciting_pkt t))); intros; [by subst|apply i_tx0]. }
    apply set_timer_ok; [done|]. intros a2 d (ck & evs & -> & He & Hck) Htim Htd. apply wp_modify. split_and!; [|done|by cbn; rewrite resolved_app, He, app_nil_r|by intros _].
    apply (inv_retimed (set_cc_data (on_data_sent m (cc_data a1) (num_bytes pkt)).2 a1) _ d); [|by exists ck, evs].
    eapply (inv_add a _ _ _ h' f); try done; cbn; rewrite ?app_nil_r; try done.
    - rewrite Hfl, u64_id by (unfold is_u64; lia). done.
    - rewrite cc_sent by lia. lia.
    - by destruct Hti. }
  destruct (is_ack_eliciting pkt) eqn:He; wp_steps; cbn [tx set_tx bytes_in_flight set_bytes_in_flight]; rewrite ?alter_alter; apply Hfin;
    cbn; unfold elic_bytes; rewrite He; cbn; rewrite ?bool_decide_true by done; split_and!; try done; [|lia].
  rewrite u64_id; [done|]. unfold is_u64. rewrite i_elic0, ?app_nil_r. lia.
Qed.

(** ** Acknowledgements received *)

(** The calls that report packets. *)
Definition reports (l : list event) : list event := filter (fun e => reported e <> None) l.

Lemma reports_app l1 l2 : reports (l1 ++ l2) = reports l1 ++ reports l2.
Proof. apply filter_app. Qed.

Lemma reports_none l : resolved l = [] -> reports l = [].
Proof.
  induction l as [|e l IH]; [done|]. unfold reports in *. rewrite filter_cons.
  change (resolved (e :: l)) with (match reported e with Some p => p :: resolved l | None => resolved l end).
  destruct (reported e) eqn:E; [done|]. intros Hl. rewrite decide_False by tauto. auto.
Qed.

Lemma reports_all {A} (f : A -> event) l : (forall x, reported (f x) <> None) -> reports (map f l) = map f l.
Proof. intros Hf. induction l as [|x l IH]; [done|]. unfold reports in *. cbn [map]. by rewrite filter_cons, decide_True, IH. Qed.

(** The round-trip times after the sample an ACK frame gives: the time since the packet
    was sent, and the delay the peer claims, bounded once the handshake is confirmed. *)
Definition rtt_after (f : OSSL_QUIC_FRAME_ACK) (p : OSSL_ACKM_TX_PKT) (a : st) : Statm.OSSL_STATM :=
  Statm.ossl_statm_update_rtt (statm a)
    (if handshake_confirmed a then Z.min (delay_time f) (rx_max_ack_delay a) else delay_time f)
    (Z.max ((read_clock (now a)).1 - time p) 0).

Lemma rtt_sample_ok f p a pend g E :
  inv a pend g -> pkt_ok p -> is_u64 (delay_time f) ->
  wp (rtt_sample f p) a (fun _ a' => inv a' pend g /\ discarded a' = discarded a /\ tx a' = tx a /\ log a' = log a /\
    now a' = (read_clock (now a)).2 /\ statm a' = rtt_after f p a) E.
Proof.
  intros Hi [(_ & _ & Ht) _ _ _] Hf. pose proof Hi as []. destruct (u64_clock _ i_clock0) as [Hn Hck].
  unfold rtt_sample. apply wp_bind, wp_read_now. wp_steps. set (a0 := set_now _ a).
  set (d := if handshake_confirmed a0 then _ else _). set (n := (read_clock (now a)).1) in *.
  assert (Hd : is_u64 d). { subst d. destruct (handshake_confirmed a0); [|done]. rewrite time_min_spec. cbn. unfold is_u64 in *. lia. }
  assert (Hs : statm_ok (Statm.ossl_statm_update_rtt (statm a) d (ossl_time_subtract n (time p)))).
  { apply update_rtt_ok; [done|done|]. apply is_u64_subtract; [done|]. unfold is_u64. lia. }
  assert (Es : Statm.ossl_statm_update_rtt (statm a) d (ossl_time_subtract n (time p)) = rtt_after f p a).
  { unfold rtt_after. rewrite <- time_min_spec, time_subtract_spec by (done || unfold is_u64; lia). done. }
  destruct (ossl_time_is_zero _); wp_steps; (split_and!; [|done|done|done|done|exact Es]); by eapply (inv_frame a).
Qed.

Lemma process_ecn_ok f s a pend g E :
  inv a pend g -> sel (discarded a) s = false -> ack_ranges f <> [] ->
  wp (ackm_process_ecn m f s) a (fun _ a' => inv a' pend g /\ kept a a' /\ held (tx a') s = held (tx a) s /\
    largest_acked_pkt (sel (tx a') s) = largest_acked_pkt (sel (tx a) s) /\ log a' = log a /\ now a' = now a /\ statm a' = statm a) E.
Proof.
  intros Hi Hd Hr. unfold ackm_process_ecn. wp_steps. destruct (_ <? _); [|by apply wp_ret]. unfold upd_tx. wp_steps.
  set (a1 := set_tx _ a).
  assert (Hi1 : inv a1 pend g).
  { apply inv_tx; [done|done|done|]. pose proof (i_tx _ _ _ Hi s) as []. by split. }
  assert (Hh : held (tx a1) s = held (tx a) s) by (unfold held; cbn; by rewrite sel_alter).
  assert (Hl : largest_acked_pkt (sel (tx a1) s) = largest_acked_pkt (sel (tx a) s)) by (cbn; by rewrite sel_alter).
  apply wp_tx_history; [done|]. unfold first_range. destruct (ack_ranges f) as [|r0 rs]; [done|]. wp_steps.
  destruct (tx_pkt_history_by_pkt_num _ _) as [p|]; [|by apply wp_ret]. unfold cc_call. wp_steps. split_and!; try done.
  pose proof Hi1 as []. eapply (inv_frame a1); try done. cbn. apply cc_ecn.
Qed.

Lemma inv_held_sent a pend g s : inv a pend g -> Forall (sent_packet s) (held (tx a) s).
Proof.
  intros Hi. apply Forall_forall. intros p Hp. destruct (i_tx _ _ _ Hi s) as [_ Ts _ _ _]. rewrite Forall_forall in Ts.
  rewrite <- (Ts p Hp). apply po_sent, (inv_outstanding _ _ _ _ Hi), elem_of_app. left. rewrite (hist_split _ s).
  apply elem_of_app. by left.
Qed.

(** RFC 9002 section 6.1.2: nine eighths of the greater of the latest and the smoothed
    round-trip time, and at least a millisecond; times saturate. *)
Definition time_threshold (x : Statm.OSSL_STATM) : Z :=
  Z.max (Z.min (Z.max (Statm.latest_rtt x) (Statm.smoothed_rtt x) * 9) UINT64_MAX / 8) 1000000.

Lemma loss_delay_spec x : statm_ok x -> loss_delay_of (Statm.ossl_statm_get_rtt_info x) = time_threshold x.
Proof.
  intros (H1 & H2 & _ & _). unfold loss_delay_of, time_threshold.
  cbn [Statm.ossl_statm_get_rtt_info Statm.info_latest_rtt Statm.info_smoothed_rtt].
  unfold K_TIME_THRESHOLD_NUM, K_TIME_THRESHOLD_DEN. rewrite !time_max_spec, time_divide_spec by lia.
  rewrite time_multiply_spec by (unfold is_u64 in *; lia). done.
Qed.

(** The packets of [l] lost at the time [t], the packet [largest] having been
    acknowledged. *)
Definition lost_of (largest t : Z) (x : Statm.OSSL_STATM) (l : pkts) : pkts :=
  filter (fun p => deemed_lost largest (Z.max (t - time_threshold x) 0) p = true) l.

Lemma lost_of_eq largest t x l : is_u64 t -> statm_ok x ->
  filter (fun p => deemed_lost largest (ossl_time_subtract t (loss_delay_of (Statm.ossl_statm_get_rtt_info x))) p = true) l = lost_of largest t x l.
Proof.
  intros Ht Hx. unfold lost_of. rewrite time_subtract_spec by (done || by apply loss_delay_u64). by rewrite loss_delay_spec.
Qed.

Lemma detect_lost_ok s a pend g (Q : pkts -> st -> Prop) E :
  inv a pend g -> sel (discarded a) s = false -> largest_acked_pkt (sel (tx a) s) <> QUIC_PN_INVALID ->
  (forall a', let lost := lost_of (largest_acked_pkt (sel (tx a) s)) (read_clock (now a)).1 (statm a) (held (tx a) s) in
     inv a' (lost ++ pend) g -> kept a a' -> log a' = log a -> statm a' = statm a ->
     (forall s', s' <> s -> sel (tx a') s' = sel (tx a) s') -> Q lost a') ->
  wp (ackm_detect_and_remove_lost_pkts s) a Q E.
Proof.
  intros Hi Hd Hla HQ. pose proof (i_tx _ _ _ Hi s) as [Th Ts Td Tl Tt]. destruct (u64_clock _ (i_clock _ _ _ Hi)) as [Hn Hck].
  destruct (detect_lost a s) as (h' & a' & E1 & -> & Hrm); [done|done|done| |apply loss_delay_u64, Hi|].
  { by eapply inv_held_sent. }
  rewrite (lost_of_eq _ _ _ _ Hn) in E1, Hrm by apply Hi.
  eapply wp_eq; [exact E1|]. apply HQ; try done.
  2: { intros s' Hne. cbn. by apply sel_alter_ne. }
  match goal with |- context [set_loss_time ?x _] => set (lt := x) end. pose proof (inv_take _ _ _ _ _ _ Hi Hrm Hd) as Hi1.
  assert (Hi2 : inv (set_tx (alter_at s (set_loss_time lt) (alter_at s (set_tx_history h') (tx a))) a) (lost_of
    (largest_acked_pkt (sel (tx a) s)) (read_clock (now a)).1 (statm a) (held (tx a) s) ++ pend) g).
  { refine (inv_tx _ _ _ s (set_loss_time lt) Hi1 _ _ _); [done|done|]. cbn. rewrite sel_alter. cbn.
    pose proof (i_tx _ _ _ Hi1 s) as [Th' Ts' _ _ _]. cbn in Th', Ts'. rewrite sel_alter in Th', Ts'. split; cbn; try done.
    intros; congruence. }
  rewrite alter_alter in Hi2. pose proof Hi2 as []. by eapply inv_frame.
Qed.

(** A frame as the decoder yields it. *)
Record frame_ok (f : OSSL_QUIC_FRAME_ACK) : Prop := {
  fo_num : 0 < num_ack_ranges f <= Z.of_nat (length (ack_ranges f));
  fo_ranges : valid_ranges (used_ranges f);
  fo_delay : is_u64 (delay_time f)
}.

Definition new_largest (old hi : Z) : Z := if old =? QUIC_PN_INVALID then hi else ossl_quic_pn_max old hi.

Definition acked_of (f : OSSL_QUIC_FRAME_ACK) (l : pkts) : pkts := filter (fun p => in_ranges (used_ranges f) (pkt_num p) = true) l.
Definition unacked_of (f : OSSL_QUIC_FRAME_ACK) (l : pkts) : pkts := filter (fun p => in_ranges (used_ranges f) (pkt_num p) = false) l.

(** Whether the frame gives a sample of the round-trip time: the largest number it
    acknowledges is new, and one of the packets newly acknowledged is ack-eliciting. *)
Definition gives_sample (f : OSSL_QUIC_FRAME_ACK) (acked : pkts) : bool :=
  match acked with
  | p :: _ => (pkt_num p =? default 0 (range_end <$> head (ack_ranges f))) && existsb is_ack_eliciting acked
  | [] => false
  end.

(** The round-trip times, and the time of the clock, when an ACK frame has the lost
    packets looked for: the clock is read for the sample first. *)
Definition at_detection (f : OSSL_QUIC_FRAME_ACK) (acked : pkts) (a : st) : Z * Statm.OSSL_STATM :=
  match acked with
  | p :: _ => if gives_sample f acked then ((read_clock (read_clock (now a)).2).1, rtt_after f p a)
              else ((read_clock (now a)).1, statm a)
  | [] => ((read_clock (now a)).1, statm a)
  end.

(** What an ACK frame does: the packets in its ranges are acknowledged, from
    the highest number; if there are any, those of the others that RFC 9002 deems
    lost at the time the clock gives, with the round-trip times as they are after the
    sample of the frame, are reported first. *)
Definition ack_effect (f : OSSL_QUIC_FRAME_ACK) (s : QUIC_PN_SPACE) (a a' : st) : Prop :=
  let acked := acked_of f (rev (held (tx a) s)) in
  let '(t, rtt) := at_detection f acked a in
  let hi := new_largest (largest_acked_pkt (sel (tx a) s)) (default 0 (range_end <$> head (ack_ranges f))) in
  statm a' = rtt /\
  reports (log a') = reports (log a) ++
    map Lost (if acked is [] then [] else lost_of hi t rtt (unacked_of f (held (tx a) s))) ++ map Acked acked.

Lemma frame_first f : frame_ok f -> exists r0 rest, ack_ranges f = r0 :: rest /\ 0 <= range_end r0 < MAX_PN.
Proof.
  intros [Hn Hr _]. unfold used_ranges in Hr. destruct (ack_ranges f) as [|r0 rest]; [cbn in Hn; lia|]. exists r0, rest. split; [done|].
  destruct (Z.to_nat (num_ack_ranges f)) eqn:E; [lia|]. cbn in Hr. destruct Hr as (_ & Hv & _). unfold QuicWire.vint in Hv.
  change Vlint.OSSL_QUIC_VLINT_MAX with 4611686018427387903 in Hv. change MAX_PN with 4611686018427387904. lia.
Qed.

(** The second half of the handler, from the RTT sample on. *)
Lemma ack_tail_ok alloc f s (p : OSSL_ACKM_TX_PKT) acked (c : bool) a g (Q : unit -> st -> Prop) E :
  inv a acked g -> acked <> [] -> p ∈ acked -> frame_ok f -> sel (discarded a) s = false ->
  largest_acked_pkt (sel (tx a) s) <> QUIC_PN_INVALID ->
  (forall a', inv a' [] g -> timer_ok a' -> timed a' ->
     let t := (read_clock (if c then (read_clock (now a)).2 else now a)).1 in
     let rtt := if c then rtt_after f p a else statm a in
     statm a' = rtt -> reports (log a') = reports (log a) ++
       map Lost (lost_of (largest_acked_pkt (sel (tx a) s)) t rtt (held (tx a) s)) ++ map Acked acked -> Q tt a') ->
  wp ((if c : bool then rtt_sample f p else mret tt);;
      (if QuicWire.ecn_present f then ackm_process_ecn m f s else mret tt);;
      lost_pkts ← ackm_detect_and_remove_lost_pkts s;
      (match lost_pkts with [] => mret tt | _ => ackm_on_pkts_lost m lost_pkts false end);;
      ackm_on_pkts_acked m alloc acked;;
      a ← get;
      (if peer_completed_addr_validation a then modify (set_pto_count 0) else mret tt);;
      ackm_set_loss_detection_timer) a Q E.
Proof.
  intros Hi Hne Hp Hf Hd Hla HQ. destruct (frame_first f Hf) as (r0 & rest & Er & _).
  assert (Hpok : pkt_ok p) by (apply (inv_outstanding _ _ _ _ Hi), elem_of_app; by right).
  apply wp_bind. eapply (wp_mono _ _ (fun _ a' => inv a' acked g /\ discarded a' = discarded a /\ tx a' = tx a /\ log a' = log a /\
    now a' = (if c then (read_clock (now a)).2 else now a) /\ statm a' = (if c then rtt_after f p a else statm a))); [| |by intros].
  { destruct c; [apply rtt_sample_ok; try done; apply Hf|by apply wp_ret]. }
  intros _ a1 (Hi1 & Ed1 & Et1 & El1 & En1 & Es1). apply wp_bind.
  eapply (wp_mono _ _ (fun _ a' => inv a' acked g /\ kept a1 a' /\ held (tx a') s = held (tx a1) s /\
    largest_acked_pkt (sel (tx a') s) = largest_acked_pkt (sel (tx a1) s) /\ log a' = log a1 /\ now a' = now a1 /\ statm a' = statm a1)); [| |by intros].
  { destruct (QuicWire.ecn_present f); [|by apply wp_ret]. apply process_ecn_ok; [done|by rewrite Ed1|by rewrite Er]. }
  intros _ a2 (Hi2 & Hk2 & Eh2 & Ela2 & El2 & En2 & Es2).
  apply wp_bind, (detect_lost_ok s a2 acked g); [done|by rewrite (k_disc _ _ Hk2), Ed1|by rewrite Ela2, Et1|].
  rewrite Ela2, Eh2, Et1. intros a3 lost Hi3 Hk3 El3 Es3 _. apply wp_bind.
  eapply (wp_mono _ _ (fun _ a' => inv a' acked g /\ kept a3 a' /\ log a' = log a3 ++ map Lost lost)); [| |by intros].
  { destruct lost as [|q lost'] eqn:Eq; [apply wp_ret; by rewrite app_nil_r|]. rewrite <- Eq in *.
    eapply wp_mono; [apply (on_pkts_lost_ok false lost a3 acked g (fun _ => False)); done| |done].
    intros _ a' (Hi' & Hk' & El'). split; [by apply inv_leak0|done]. }
  intros _ a4 (Hi4 & Hk4 & El4). apply wp_bind.
  eapply wp_mono; [apply (on_pkts_acked_ok alloc acked a4 [] g (fun _ => False)); by rewrite app_nil_r| |done].
  intros _ a5 (Hi5 & Hk5 & El5). wp_steps.
  assert (Hend : forall b, inv b [] g -> log b = log a5 -> statm b = statm a5 -> wp ackm_set_loss_detection_timer b Q E).
  { intros b Hb Elb Esb. apply set_timer_ok; [by eapply inv_times|]. intros a6 d Hr Ht Htd.
    assert (Ert : statm a5 = (if c then rtt_after f p a else statm a)) by (rewrite (k_statm _ _ Hk5), (k_statm _ _ Hk4), Es3, Es2; exact Es1).
    apply HQ; [by eapply inv_retimed|done|done|destruct Hr as (ck & evs & -> & _); cbn; by rewrite Esb|].
    destruct Hr as (ck & evs & -> & He & _). cbn. rewrite Elb, El5, El4, El3, El2, El1. rewrite !reports_app, <- !app_assoc.
    rewrite (reports_none evs He), app_nil_r, !reports_all by done. rewrite <- En1, <- En2, <- Es1, <- Es2. done. }
  destruct (peer_completed_addr_validation a5); wp_steps; apply Hend; try done. pose proof Hi5 as []. by eapply (inv_frame a5).
Qed.

Lemma new_largest_valid old hi : 0 <= hi < MAX_PN -> new_largest old hi <> QUIC_PN_INVALID.
Proof. unfold new_largest, ossl_quic_pn_max, MAX_PN, QUIC_PN_INVALID. intros. repeat zcase; lia. Qed.

Lemma on_rx_ack_frame_ok alloc f s a g E :
  inv a [] g -> timer_ok a -> sel (discarded a) s = false -> frame_ok f ->
  wp (ossl_ackm_on_rx_ack_frame m alloc f s) a (fun _ a' => inv a' [] g /\ timer_ok a' /\ ack_effect f s a a' /\
    (acked_of f (rev (held (tx a) s)) <> [] \/ timed a -> timed a')) E.
Proof.
  intros Hi Ht Hd Hf. destruct (frame_first f Hf) as (r0 & rest & Er & Hr0). pose proof Hf as [Hn Hv _].
  unfold ossl_ackm_on_rx_ack_frame, first_range. rewrite Er. unfold upd_tx. wp_steps.
  set (a1 := set_tx _ a). pose proof (i_tx _ _ _ Hi s) as [Th Ts Td Tl Tt].
  assert (Hi1 : inv a1 [] g).
  { apply inv_tx; [done|done|done|]. split; cbn; try done. intros _. by apply new_largest_valid. }
  assert (Hhi : largest_acked_pkt (sel (tx a1) s) = new_largest (largest_acked_pkt (sel (tx a) s)) (range_end r0))
    by (cbn; by rewrite sel_alter).
  assert (Hh1 : tx_history (sel (tx a1) s) = tx_history (sel (tx a) s)) by (cbn; by rewrite sel_alter).
  set (must := negb _ && _). set (a2 := if must then set_peer_completed_addr_validation true a1 else a1).
  assert (Hi2 : inv a2 [] g) by (subst a2; destruct must; [pose proof Hi1 as []; by eapply (inv_frame a1)|done]).
  assert (E2 : tx a2 = tx a1 /\ discarded a2 = discarded a /\ log a2 = log a) by (subst a2; by destruct must).
  destruct E2 as (Et2 & Ed2 & El2).
  eapply (wp_eq _ _ tt a2); [subst a2; by destruct must|]. cbv beta. apply wp_bind.
  destruct (detect_acked a2 f s) as (h' & Edet & Hrm); rewrite ?Et2, ?Hh1, ?Ed2 in *; try done; [lia|by rewrite Er|by apply valid_ranges_desc|].
  eapply wp_eq; [exact Edet|]. cbv beta. fold (acked_of f (rev (packets (tx_history (sel (tx a) s))))) in Hrm |- *.
  fold (held (tx a) s) in Hrm |- *. set (acked := acked_of f (rev (held (tx a) s))) in *. set (a3 := set_tx _ a2).
  assert (Hi3 : inv a3 acked g).
  { subst a3. rewrite <- Et2, <- (app_nil_r acked). eapply inv_take; [exact Hi2| |by rewrite Ed2]. by rewrite Et2, Hh1. }
  assert (Hheld : held (tx a3) s = unacked_of f (held (tx a) s)).
  { unfold held at 1. cbn. rewrite sel_alter. cbn. eapply removed_filter; [exact Th|exact Hrm|].
    unfold acked, acked_of, held. by rewrite <- (Permutation_rev (packets (tx_history (sel (tx a) s)))). }
  assert (Hhi3 : largest_acked_pkt (sel (tx a3) s) = new_largest (largest_acked_pkt (sel (tx a) s)) (range_end r0))
    by (rewrite <- Hhi; cbn; by rewrite !sel_alter).
  assert (El3 : log a3 = log a) by done. assert (Erg : forall b, ack_effect f s a b = let '(t, rtt) := at_detection f acked a in
    statm b = rtt /\ reports (log b) = reports (log a) ++ map Lost (if acked is [] then [] else
      lost_of (new_largest (largest_acked_pkt (sel (tx a) s)) (range_end r0)) t rtt (unacked_of f (held (tx a) s))) ++ map Acked acked).
  { intros b. unfold ack_effect. fold acked. rewrite Er. done. }
  assert (E3 : now a3 = now a /\ statm a3 = statm a /\ forall p, rtt_after f p a3 = rtt_after f p a) by (subst a3 a2; by destruct must).
  destruct E3 as (En3 & Es3 & Ert3).
  destruct acked as [|p acked'] eqn:Eacked.
  - assert (Hsame : forall d b, retimed a3 b d -> reports (log b) = reports (log a) ++ map Lost [] ++ map Acked []).
    { intros d b (ck & evs & -> & He & _). cbn. rewrite El2, reports_app, (reports_none evs He). by rewrite app_nil_r. }
    destruct must eqn:Em.
    + apply set_timer_ok; [by eapply inv_times|]. intros a4 d Hr Ht4 Htd4. split_and!; [by eapply inv_retimed|done| |done].
      rewrite Erg. split; [|by eapply Hsame]. destruct Hr as (ck & evs & -> & _). cbn. exact Es3.
    + apply wp_ret. split_and!; [done| |rewrite Erg; split; [exact Es3|by rewrite El3, app_nil_r]|].
      * eapply timer_frame; [exact Ht|..]; try done; intros s'; cbn; rewrite ?Et2; cbn;
          apply (sel_alter_case (fun t => _ t = _)); intros; subst; cbn; rewrite ?sel_alter; try done; by rewrite sel_alter_ne.
      * intros [|Htd]; [done|]. eapply timed_frame; [exact Htd|..]; try done; intros s'; cbn; rewrite ?Et2; cbn;
          apply (sel_alter_case (fun t => _ t = _)); intros; subst; cbn; rewrite ?sel_alter; try done; by rewrite sel_alter_ne.
  - rewrite <- Eacked in *. apply ack_tail_ok with (g := g); try done; [by rewrite Eacked|rewrite Eacked; left|cbn; by rewrite Ed2|
      rewrite Hhi3; by apply new_largest_valid|].
    intros a' Hi' Ht' Htd' t rtt Est Hrep. split_and!; [done|done| |done]. rewrite Erg.
    assert (Ec : (pkt_num p =? range_end r0) && ack_includes_ack_eliciting acked = gives_sample f acked) by (rewrite Eacked; cbn [gives_sample]; by rewrite Er).
    assert (Edt : at_detection f acked a = (t, rtt)).
    { unfold t, rtt. rewrite Ec, En3, Es3, Ert3. unfold at_detection. rewrite Eacked. by destruct (gives_sample f (p :: acked')). }
    rewrite Edt. split; [done|]. rewrite Hrep, El3, Hhi3, Hheld. by rewrite Eacked.
Qed.

(** ** Discarding a space *)

Lemma discard_loop_ok l : forall n (a : st) E,
  Forall pkt_ok l -> flight l <= bytes_in_flight a < UINT64_MOD -> 0 <= n -> n + flight l < UINT64_MOD ->
  wp (discard_loop l n) a (fun n' a' => n' = n + flight l /\
    a' = set_bytes_in_flight (bytes_in_flight a - flight l) (set_log (log a ++ map Discarded l) a)) E.
Proof.
  induction l as [|p l IH]; intros n a E Hl Hb Hn Hs; cbn [discard_loop].
  { apply wp_ret. cbn. split; [lia|]. rewrite app_nil_r, Z.sub_0_r. by destruct a. }
  apply Forall_cons in Hl as [Hp Hl]. change (flight (p :: l)) with (flight_bytes p + flight l) in *.
  pose proof (flight_bytes_range p Hp) as Hf. pose proof (po_size p Hp) as Hz.
  assert (0 <= flight l). { apply psum_nonneg. intros q Hq. apply flight_bytes_range. rewrite Forall_forall in Hl. auto. }
  set (a1 := set_log (log a ++ [Discarded p]) (set_bytes_in_flight (bytes_in_flight a - flight_bytes p) a)).
  assert (Hrest : wp (discard_loop l (n + flight_bytes p)) a1 (fun n' a' => n' = n + (flight_bytes p + flight l) /\
    a' = set_bytes_in_flight (bytes_in_flight a - (flight_bytes p + flight l)) (set_log (log a ++ map Discarded (p :: l)) a)) E).
  { eapply wp_mono; [apply IH; try done; cbn; lia| |by intros]. intros n' a' [-> ->]. split; [lia|]. cbn.
    rewrite <- app_assoc. unfold set_bytes_in_flight, set_log. cbn. f_equal. lia. }
  subst a1. unfold call. apply wp_bind. destruct (is_inflight p) eqn:Hfp; wp_steps.
  - assert (Ef : flight_bytes p = num_bytes p) by (unfold flight_bytes; by rewrite Hfp).
    rewrite <- Ef, !u64_id by (unfold is_u64; lia). exact Hrest.
  - assert (Ef : flight_bytes p = 0) by (unfold flight_bytes; by rewrite Hfp). rewrite Ef, Z.add_0_r, Z.sub_0_r in *.
    replace (set_bytes_in_flight (bytes_in_flight a) a) with a in Hrest by (by destruct a). exact Hrest.
Qed.

Lemma elic_elsewhere s l : Forall (fun p => pkt_space p <> s) l -> elic s l = 0.
Proof.
  induction 1 as [|p l Hp Hl IH]; [done|]. change (elic s (p :: l)) with (elic_bytes s p + elic s l). rewrite IH.
  unfold elic_bytes. rewrite bool_decide_false by done. by rewrite andb_false_r.
Qed.

Lemma others_space a pend g s : inv a pend g -> Forall (fun p => pkt_space p <> s) (others (tx a) s).
Proof.
  intros Hi. assert (Hs : forall s', s' <> s -> Forall (fun p => pkt_space p <> s) (held (tx a) s')).
  { intros s' Hne. destruct (i_tx _ _ _ Hi s') as [_ Ts _ _ _]. eapply Forall_impl; [exact Ts|]. cbn. congruence. }
  destruct s; cbn; apply Forall_app; split; by apply Hs.
Qed.

Lemma inv_discard a a' s g :
  inv a [] g -> sel (discarded a) s = false ->
  tx a' = alter_at s (fun t => mkTxs (tx_pkt_history_destroy (tx_history t)) (largest_acked_pkt t) 0 0 0 (peer_ecnce t)) (tx a) ->
  (forall s', rx_history (sel (rx a') s') = if decide (s' = s) then rx_pkt_history_destroy (rx_history (sel (rx a) s))
                                           else rx_history (sel (rx a) s')) ->
  discarded a' = alter_at s (fun _ => true) (discarded a) ->
  bytes_in_flight a' = bytes_in_flight a - flight (held (tx a) s) ->
  cc_bytes (cc_data a') = cc_bytes (cc_data a) - flight (held (tx a) s) ->
  resolved (log a') = resolved (log a) ++ held (tx a) s -> times_ok a' -> inv a' [] g.
Proof.
  intros Hi Hd Et Er Ed Eb Ec El [Hlast Hck Hst Hdl Hpt]. pose proof (others_space _ _ _ s Hi) as Hoth. pose proof Hi as [].
  assert (Hhist : Permutation (hist (tx a')) (others (tx a) s)).
  { rewrite Et, (hist_split _ s), others_alter. unfold held. rewrite sel_alter. done. }
  assert (Hheld : Forall (fun p => pkt_space p = s) (held (tx a) s)) by apply i_tx0.
  rewrite !app_nil_r in *. rewrite (hist_split (tx a) s), psum_app in i_bytes0, i_cc0, i_bound0.
  assert (Hpos : 0 <= flight (held (tx a) s)).
  { apply psum_nonneg. intros p Hp. apply flight_bytes_range, (inv_outstanding _ _ _ _ Hi), elem_of_app. left.
    rewrite (hist_split _ s). apply elem_of_app. by left. }
  split; rewrite ?app_nil_r, ?Hhist; try done.
  - intros s'. pose proof (Hlast s') as Hls. revert Hls. rewrite Et, Ed.
    destruct (decide (s' = s)) as [->|Hne]; [rewrite !sel_alter|by rewrite !sel_alter_ne].
    destruct (i_tx0 s) as [_ _ _ _ _]. intros _. split; cbn; try done; apply txh_empty.
  - intros s'. rewrite Er, Ed. case_decide as Hs; [subst; rewrite sel_alter|by rewrite sel_alter_ne].
    destruct (i_rx0 s) as [[_ _ Hw _] _ _]. split; cbn; [split; cbn; try done|done|]; try (intros k Hk; by apply UintSet.mem_nil in Hk).
    apply UintSet.gwf_nil.
  - rewrite Et. eapply Forall_impl; [exact i_mark0|]. cbn. intros p Hp. apply sel_alter_case; intros Hs; [|done]. cbn. by rewrite <- Hs.
  - rewrite i_perm0, El, ?Hhist, (hist_split (tx a) s). cbn. rewrite <- app_assoc, (Permutation_app_comm (held _ _)), <- app_assoc. done.
  - rewrite Eb, i_bytes0. lia.
  - intros s'. rewrite ?app_nil_r, Hhist, Et. specialize (i_elic0 s'). rewrite ?app_nil_r, (hist_split (tx a) s), psum_app in i_elic0.
    apply (sel_alter_case (fun t => ack_eliciting_bytes_in_flight t = _)); intros Hs; [subst|].
    + by rewrite elic_elsewhere.
    + rewrite i_elic0, (elic_elsewhere s' (held _ _)); [lia|]. eapply Forall_impl; [exact Hheld|]. cbn. congruence.
  - rewrite Ec, i_cc0. lia.
  - lia.
Qed.

Lemma resolved_discarded l : resolved (map Discarded l) = l.
Proof. induction l as [|p l IH]; cbn; [done|]. by f_equal. Qed.

Lemma on_pkt_space_discarded_ok s a g :
  inv a [] g -> timer_ok a ->
  wp (ossl_ackm_on_pkt_space_discarded m s) a
    (fun _ a' => inv a' [] g /\ timer_ok a' /\ sel (discarded a) s = false /\
                 reports (log a') = reports (log a) ++ map Discarded (held (tx a) s) /\ timed a')
    (fun a' => a' = a /\ sel (discarded a) s = true).
Proof.
  intros Hi Ht. unfold ossl_ackm_on_pkt_space_discarded. wp_steps. apply wp_guard; intros Hd;
    [apply negb_true_iff in Hd|apply negb_false_iff in Hd; done].
  wp_steps. set (a1 := if bool_decide (s = QUIC_PN_SPACE_HANDSHAKE) then set_peer_completed_addr_validation true a else a).
  eapply (wp_eq _ _ tt a1); [subst a1; by destruct (bool_decide _)|]. cbv beta. apply wp_bind.
  assert (E1 : tx a1 = tx a /\ rx a1 = rx a /\ discarded a1 = discarded a /\ log a1 = log a /\ bytes_in_flight a1 = bytes_in_flight a /\
    cc_data a1 = cc_data a /\ now a1 = now a /\ statm a1 = statm a /\ rx_max_ack_delay a1 = rx_max_ack_delay a)
    by (subst a1; by destruct (bool_decide _)).
  destruct E1 as (Et & Erx & Ed & El & Eb & Ec & En & Es & Edl). clearbody a1.
  apply wp_tx_history; [by rewrite Ed|]. apply wp_bind. rewrite Et. fold (held (tx a) s).
  pose proof Hi as []. pose proof (inv_sums _ _ _ s Hi) as Hsums. rewrite app_nil_r in *.
  assert (Hok : forall l, (forall p, p ∈ l -> p ∈ hist (tx a)) -> Forall pkt_ok l).
  { intros l Hl. apply Forall_forall. intros p Hp. apply (inv_outstanding _ _ _ _ Hi), elem_of_app. left. auto. }
  assert (Hnn : forall l, Forall pkt_ok l -> 0 <= flight l).
  { intros l Hl. apply psum_nonneg. intros p Hp. apply flight_bytes_range. rewrite Forall_forall in Hl. auto. }
  assert (Hh : Forall pkt_ok (held (tx a) s) /\ Forall pkt_ok (others (tx a) s)).
  { split; apply Hok; intros p Hp; rewrite (hist_split _ s), elem_of_app; auto. }
  destruct Hh as [Hh Ho]. pose proof (Hnn _ Hh). pose proof (Hnn _ Ho).
  assert (Hsum : flight (hist (tx a)) = flight (held (tx a) s) + flight (others (tx a) s)) by (by rewrite (hist_split _ s), psum_app).
  eapply wp_mono; [apply (discard_loop_ok _ 0 a1 (fun _ => False)); [done|lia|lia|lia]| |done].
  intros n a2 [-> ->]. rewrite Z.add_0_l. unfold upd_tx, upd_rx, cc_call. wp_steps. set (n := flight (held (tx a) s)) in *.
  match goal with |- wp (if _ then _ else _) ?x _ _ =>
    eapply (wp_eq _ _ tt (set_cc_data (if 0 <? n then (on_data_invalidated m (cc_data a) n).2 else cc_data a) x)) end.
  { rewrite <- Ec. destruct (0 <? n); [done|]. by destruct a1. }
  cbv beta. wp_steps. cbn [tx rx discarded set_tx set_cc_data set_rx set_bytes_in_flight set_log set_discarded set_pto_count]. rewrite !alter_alter, ?Et, ?Ed, ?Erx, ?El, ?Eb.
  match goal with |- wp _ ?x _ _ => set (a3 := x) end.
  assert (Hti : times_ok a3).
  { split; cbn; rewrite ?En, ?Es, ?Edl; try done. intros s'.
    apply (sel_alter_case (fun t => is_u64 (time_of_last_ack_eliciting_pkt t))); intros; [done|apply i_tx0]. }
  apply set_timer_ok; [done|]. intros a4 d Hr Ht4 Htd4.
  assert (Hi3 : inv a3 [] g).
  { eapply (inv_discard a _ s); try done; cbn -[resolved].
    - intros s'. case_decide; [subst; by rewrite sel_alter|by rewrite sel_alter_ne].
    - destruct (Z.ltb_spec 0 n); [|fold n; lia]. rewrite cc_invalidated by lia. done.
    - by rewrite resolved_app, resolved_discarded. }
  split_and!; [by eapply inv_retimed|done|done| |done]. destruct Hr as (ck & evs & -> & He & _). cbn.
  by rewrite !reports_app, (reports_none evs He), app_nil_r, reports_all.
Qed.

(** ** The handshake, the timer *)

Lemma on_handshake_confirmed_ok a g E :
  inv a [] g -> wp ossl_ackm_on_handshake_confirmed a (fun _ a' => inv a' [] g /\ timer_ok a' /\ reports (log a') = reports (log a) /\ timed a') E.
Proof.
  intros Hi. unfold ossl_ackm_on_handshake_confirmed. wp_steps. match goal with |- wp _ ?x _ _ => set (a1 := x) end.
  assert (Hi1 : inv a1 [] g) by (pose proof Hi as []; by eapply (inv_frame a)).
  apply set_timer_ok; [by eapply inv_times|]. intros a2 d Hr Ht Htd. split_and!; [by eapply inv_retimed|done| |done].
  destruct Hr as (ck & evs & -> & He & _). cbn. by rewrite reports_app, (reports_none evs He), app_nil_r.
Qed.

(** The space whose loss time is the earliest holds it. *)
Lemma loss_space (a : st) t s : ackm_get_loss_time_and_space a = (t, s) -> t = loss_time (sel (tx a) s).
Proof.
  unfold ackm_get_loss_time_and_space. cbn [foldl]. destruct (_ || _); cbv beta iota; destruct (_ || _); by intros [= <- <-].
Qed.

Lemma on_timeout_ok a g E :
  inv a [] g -> timer_ok a -> loss_detection_deadline a <> 0 ->
  wp (ossl_ackm_on_timeout m) a (fun _ a' => inv a' [] g /\ timer_ok a' /\
    timed a' /\ let s := (ackm_get_loss_time_and_space a).2 in
    reports (log a') = reports (log a) ++ map Lost (if loss_time (sel (tx a) s) =? 0 then [] else
      lost_of (largest_acked_pkt (sel (tx a) s)) (read_clock (now a)).1 (statm a) (held (tx a) s))) E.
Proof.
  intros Hi Ht Hdl. unfold ossl_ackm_on_timeout. wp_steps. destruct (ackm_get_loss_time_and_space a) as [t s] eqn:El. cbn [snd].
  pose proof (loss_space _ _ _ El) as Et. rewrite time_is_zero_spec. destruct (i_tx _ _ _ Hi s) as [_ _ Td Tl _].
  destruct (Z.eqb_spec t 0) as [Ez|Hnz]; cbn [negb].
  - assert (Hend : forall b, inv b [] g -> log b = log a -> wp ackm_set_loss_detection_timer b (fun _ a' => inv a' [] g /\ timer_ok a' /\ timed a' /\
      reports (log a') = reports (log a) ++ map Lost (if loss_time (sel (tx a) s) =? 0 then [] else
      lost_of (largest_acked_pkt (sel (tx a) s)) (read_clock (now a)).1 (statm a) (held (tx a) s))) E).
    { intros b Hb Elb. apply set_timer_ok; [by eapply inv_times|]. intros a2 d Hr Ht2 Htd2. split_and!; [by eapply inv_retimed|done|done|].
      rewrite <- Et, Ez. destruct Hr as (ck & evs & -> & He & _). cbn.
      by rewrite Elb, reports_app, (reports_none evs He), app_nil_r. }
    destruct Ht as [Ht _]. specialize (Ht Hdl). rewrite El in Ht. cbn [fst] in Ht. pose proof Hi as [].
    assert (Hu : forall n, 0 <= u32 n) by (intros n; unfold u32; apply Z.mod_pos_bound; lia).
    destruct (Z.eqb_spec (ackm_ack_eliciting_bytes_in_flight a) 0) as [Ea|Hae].
    + rewrite Ea in Ht. assert (Hp : peer_completed_addr_validation a = false) by tauto. rewrite Hp. cbn [negb assert_].
      wp_steps. unfold ackm_queue_probe_anti_deadlock_handshake, ackm_queue_probe_anti_deadlock_initial, upd_probe.
      destruct (sel (discarded a) QUIC_PN_SPACE_INITIAL); wp_steps; (apply Hend; [|done]); eapply (inv_frame a); try done; apply Hu.
    + wp_steps. apply (pto_time_ok a); [by eapply inv_times|done|]. intros t' s' ck _ Hck _.
      unfold ackm_queue_probe, upd_probe. wp_steps. apply Hend; [|done]. eapply (inv_frame a); try done; apply Hu.
  - rewrite Et in Hnz. apply wp_bind, (detect_lost_ok s a [] g); [done| |by apply Tl|].
    { destruct (sel (discarded a) s); [|done]. destruct Td; done. }
    intros a1 lost Hi1 Hk1 El1 Es1 _. apply wp_bind.
    eapply (wp_mono _ _ (fun _ a' => inv a' [] g /\ log a' = log a1 ++ map Lost lost)); [| |by intros].
    { destruct lost as [|q lost'] eqn:Eq; [apply wp_ret; by rewrite app_nil_r|]. rewrite <- Eq in *.
      eapply wp_mono; [apply (on_pkts_lost_ok false lost a1 [] g (fun _ => False)); done| |done].
      intros _ a' (Hi' & _ & El'). split; [by apply inv_leak0|done]. }
    intros _ a2 [Hi2 El2]. apply set_timer_ok; [by eapply inv_times|]. intros a3 d Hr Ht3 Htd3.
    split_and!; [by eapply inv_retimed|done|done|]. destruct (Z.eqb_spec (loss_time (sel (tx a) s)) 0); [done|].
    destruct Hr as (ck & evs & -> & He & _). cbn. by rewrite El2, El1, !reports_app, (reports_none evs He), app_nil_r, reports_all.
Qed.

Definition eliciting_bytes (p : OSSL_ACKM_TX_PKT) : Z := if is_ack_eliciting p then num_bytes p else 0.

Lemma eliciting_split l : psum eliciting_bytes l =
  elic QUIC_PN_SPACE_INITIAL l + elic QUIC_PN_SPACE_HANDSHAKE l + elic QUIC_PN_SPACE_APP l.
Proof.
  induction l as [|p l IH]; [done|].
  assert (Hp : eliciting_bytes p = elic_bytes QUIC_PN_SPACE_INITIAL p + elic_bytes QUIC_PN_SPACE_HANDSHAKE p + elic_bytes QUIC_PN_SPACE_APP p).
  { unfold eliciting_bytes, elic_bytes. destruct (is_ack_eliciting p), (pkt_space p); cbn [andb]; repeat case_bool_decide; done || lia. }
  assert (Hc : forall f, psum f (p :: l) = f p + psum f l) by done. rewrite !Hc, IH, Hp. lia.
Qed.

(** The three counters together are the bytes of the ack-eliciting packets. *)
Lemma total_elic a pend g :
  inv a pend g -> ackm_ack_eliciting_bytes_in_flight a = psum eliciting_bytes (hist (tx a) ++ pend).
Proof.
  intros Hi. pose proof Hi as []. pose proof (inv_sums _ _ _ QUIC_PN_SPACE_INITIAL Hi).
  pose proof (inv_sums _ _ _ QUIC_PN_SPACE_HANDSHAKE Hi). pose proof (inv_sums _ _ _ QUIC_PN_SPACE_APP Hi).
  assert (psum eliciting_bytes (hist (tx a) ++ pend) <= flight (hist (tx a) ++ pend)).
  { apply psum_le. intros p Hp. destruct (inv_outstanding _ _ _ _ Hi Hp) as [_ ? He _]. unfold eliciting_bytes, flight_bytes.
    destruct (is_ack_eliciting p); [rewrite He by done|]; repeat zcase; lia. }
  rewrite eliciting_split in *. unfold ackm_ack_eliciting_bytes_in_flight. cbn [foldl spaces]. rewrite !i_elic0.
  rewrite !u64_id; unfold is_u64; rewrite ?u64_id; unfold is_u64; rewrite ?u64_id; unfold is_u64; try lia.
Qed.

(** Only while the address is not validated, as on a Retry: the timer is left as it
    was. *)
Lemma pseudo_lost_ok s pn a g :
  inv a [] g -> timer_ok a -> sel (discarded a) s = false -> peer_completed_addr_validation a = false ->
  wp (ossl_ackm_mark_packet_pseudo_lost m s pn) a
    (fun _ a' => timer_ok a' /\ exists p, p ∈ held (tx a) s /\ pkt_num p = pn /\ inv a' [] (add_leak (flight_bytes p) g) /\
                 reports (log a') = reports (log a) ++ [Lost p])
    (fun a' => a' = a /\ forall p, p ∈ held (tx a) s -> pkt_num p <> pn).
Proof.
  intros Hi [_ Ht] Hd Hp. unfold ossl_ackm_mark_packet_pseudo_lost. apply wp_bind, wp_tx_history; [done|].
  pose proof (i_tx _ _ _ Hi s) as [Th _ _ _ _]. destruct (tx_pkt_history_by_pkt_num _ pn) as [p|] eqn:Ef.
  2: { apply wp_fail. split; [done|]. intros p Hp' <-. rewrite (by_num_in _ p Th Hp') in Ef. done. }
  apply Th in Ef as [Hin Epn]. destruct (removed_one _ p Th Hin) as (h' & -> & Hrm). unfold upd_tx. wp_steps.
  pose proof (inv_take _ _ _ _ _ _ Hi Hrm Hd) as Hi1. cbn [app] in Hi1. set (a1 := set_tx _ a) in *.
  eapply wp_mono; [apply (on_pkts_lost_ok true [p] a1 [] g (fun _ => False)); exact Hi1| |done].
  intros _ a2 (Hi2 & Hk & El). cbn [psum foldr] in Hi2. rewrite Z.add_0_r in Hi2. split.
  - split; [intros _; right; right; by rewrite (k_peer _ _ Hk)|]. rewrite (k_dead _ _ Hk). intros Hne. apply Ht. intros Hz. apply Hne.
    rewrite (total_elic _ _ _ Hi2), (total_elic _ _ _ Hi) in *. rewrite app_nil_r in *.
    assert (Hperm : Permutation (sent g) (hist (tx a2) ++ resolved (log a2))) by apply Hi2.
    assert (Hr : resolved (log a2) = resolved (log a) ++ [p]) by (by rewrite El, resolved_app).
    pose proof (i_perm _ _ _ Hi) as Hp0. cbn [app] in Hp0. rewrite Hr, Hp0, app_assoc, (Permutation_app_comm _ [p]), app_assoc in Hperm.
    apply Permutation_app_inv_r in Hperm. rewrite Hperm in Hz. cbn in Hz. fold (psum eliciting_bytes (hist (tx a2))) in Hz.
    assert (Hnn : forall q, q ∈ hist (tx a) -> 0 <= eliciting_bytes q).
    { intros q Hq. destruct (inv_outstanding a [] g q Hi) as [_ ? _ _]; [by rewrite app_nil_r|]. unfold eliciting_bytes. zcase; lia. }
    assert (0 <= psum eliciting_bytes (hist (tx a2))).
    { apply psum_nonneg. intros q Hq. apply Hnn. rewrite Hperm. by right. }
    assert (0 <= eliciting_bytes p) by (apply Hnn; rewrite Hperm; by left). lia.
  - exists p. split_and!; try done. rewrite El, reports_app. done.
Qed.

(** ** Packets received *)

Lemma resolved_reports l : resolved l = omap reported (reports l).
Proof.
  induction l as [|e l IH]; [done|]. unfold reports in *. rewrite filter_cons.
  change (resolved (e :: l)) with (match reported e with Some p => p :: resolved l | None => resolved l end).
  destruct (reported e) eqn:E; [|rewrite decide_False by tauto; done]. rewrite decide_True by done. cbn. by rewrite E, IH.
Qed.

(** Changes of the receiving state outside the history, and of the log. *)
Record rx_only (a a' : st) : Prop := {
  xo_tx : tx a' = tx a; xo_disc : discarded a' = discarded a; xo_bytes : bytes_in_flight a' = bytes_in_flight a;
  xo_cc : cc_data a' = cc_data a; xo_statm : statm a' = statm a; xo_delay : rx_max_ack_delay a' = rx_max_ack_delay a;
  xo_pto : pto_count a' = pto_count a; xo_dead : loss_detection_deadline a' = loss_detection_deadline a;
  xo_peer : peer_completed_addr_validation a' = peer_completed_addr_validation a;
  xo_conf : handshake_confirmed a' = handshake_confirmed a;
  xo_log : reports (log a') = reports (log a);
  xo_rx s : rx_history (sel (rx a') s) = rx_history (sel (rx a) s);
  xo_now : Forall is_u64 (now a) -> Forall is_u64 (now a')
}.

Lemma rx_only_refl a : rx_only a a.
Proof. done. Qed.
Lemma rx_only_trans a b c : rx_only a b -> rx_only b c -> rx_only a c.
Proof. intros [] []. split; try congruence. auto. Qed.

Lemma inv_rx_only a a' g : inv a [] g -> rx_only a a' -> inv a' [] g.
Proof.
  intros Hi []. pose proof Hi as []. eapply (inv_frame a);
    [done|done|done|done|by rewrite xo_cc0| |done|auto|by rewrite xo_statm0|by rewrite xo_delay0|by rewrite xo_pto0].
  by rewrite (resolved_reports (log a')), xo_log0, <- resolved_reports.
Qed.

Lemma rx_only_timer a a' : rx_only a a' -> timer_ok a -> timer_ok a'.
Proof. intros [] Ht. eapply timer_frame; try done; intros s; by rewrite xo_tx0. Qed.

Lemma rx_only_timed a a' : rx_only a a' -> timed a -> timed a'.
Proof. intros [] Ht. eapply timed_frame; try done; intros s; by rewrite xo_tx0. Qed.

Lemma rx_only_upd s f (a : st) : (forall r, rx_history (f r) = rx_history r) -> rx_only a (set_rx (alter_at s f (rx a)) a).
Proof.
  intros Hf. split; try done. intros s'. cbn. apply (sel_alter_case (fun r => rx_history r = _)); intros; subst; by rewrite ?Hf.
Qed.

Lemma wp_flush_deadline s d (a : st) (Q : unit -> st -> Prop) E :
  (forall a', rx_only a a' -> Q tt a') -> wp (ackm_set_flush_deadline s d) a Q E.
Proof.
  intros HQ. unfold ackm_set_flush_deadline, upd_rx, call. wp_steps.
  pose proof (rx_only_upd s (set_rx_ack_flush_deadline d) a ltac:(done)) as Hu.
  destruct (ack_deadline_cb _); wp_steps; apply HQ; [|done]. eapply rx_only_trans; [exact Hu|]. split; try done.
  change (log (set_log ?x ?y)) with x. rewrite reports_app, app_nil_r. done.
Qed.

Lemma on_rx_eliciting_ok t s b (a : st) (Q : unit -> st -> Prop) E :
  sel (discarded a) s = false -> (forall a', rx_only a a' -> Q tt a') -> wp (ackm_on_rx_ack_eliciting t s b) a Q E.
Proof.
  intros Hd HQ. unfold ackm_on_rx_ack_eliciting. wp_steps. destruct (rx_ack_desired _); [by apply HQ|]. unfold upd_rx. wp_steps.
  set (a1 := set_rx _ a). assert (H1 : rx_only a a1) by (by apply rx_only_upd).
  assert (Hfl : forall d b, rx_only a b -> wp (ackm_set_flush_deadline s d) b Q E).
  { intros d b' Hb. apply wp_flush_deadline. intros a' Ha'. by eapply HQ, rx_only_trans. }
  eapply (wp_mono _ _ (fun _ b => b = a1)); [| |by intros].
  - destruct (_ || _); [by apply wp_ret|]. unfold ackm_has_newly_missing. apply wp_bind, wp_rx_history; [done|]. wp_steps.
    destruct (last _); [|by apply wp_ret]. by destruct (used_ranges _); apply wp_ret.
  - intros q ? ->. destruct q; [|destruct (ossl_time_is_infinite _); by apply Hfl].
    unfold ackm_queue_ack, upd_rx. wp_steps. apply Hfl. eapply rx_only_trans; [exact H1|]. by apply rx_only_upd.
Qed.

Definition add_processed (s : QUIC_PN_SPACE) (pn : Z) (g : ghost) : ghost :=
  mkGhost (sent g) (leaked g) (alter_at s (fun l => l ++ [pn]) (processed g)).

(** Whether a packet number may be processed. *)
Definition processable (a : st) (s : QUIC_PN_SPACE) (pn : Z) : bool :=
  let h := rx_history (sel (rx a) s) in (rx_watermark h <=? pn) && negb (UintSet.ossl_uint_set_query (pn_set h) pn).

Lemma processable_fresh a pend g s pn :
  inv a pend g -> sel (discarded a) s = false -> processable a s pn = true -> pn ∉ sel (processed g) s.
Proof.
  intros Hi Hd Hp Hin. destruct (i_rx _ _ _ Hi s) as [Hh Hdone _]. unfold processable in Hp. apply andb_true_iff in Hp as [Hw Hq].
  apply negb_true_iff in Hq. zb. destruct (Hdone Hd pn Hin) as [Hlt|Hm]; [lia|].
  apply UintSet.query_refines in Hm; [congruence|apply UintSet.gwf_wf, Hh].
Qed.

(** A packet number recorded. *)
Lemma rx_ok_add h h' ns pn :
  rx_ok h false ns -> rxh_ok h' -> rx_watermark h <= rx_watermark h' ->
  (forall k, UintSet.mem k (pn_set h') <-> (k = pn \/ UintSet.mem k (pn_set h)) /\ rx_watermark h' <= k) ->
  rx_ok h' false (ns ++ [pn]).
Proof.
  intros [_ Hd Ho] Hh' Hw Hm. split; [done| |].
  - intros _ k Hk. destruct (Z.lt_ge_cases k (rx_watermark h')); [by left|right]. apply Hm. split; [|done].
    apply elem_of_app in Hk as [Hk|Hk%list_elem_of_singleton]; [|by left]. destruct (Hd eq_refl k Hk); [lia|by right].
  - intros k [[->|Hk] _]%Hm; apply elem_of_app; [right; by left|left; auto].
Qed.

Lemma inv_rx_add a s h' pn g :
  inv a [] g -> sel (discarded a) s = false -> rx_ok h' false (sel (processed g) s ++ [pn]) ->
  inv (set_rx (alter_at s (set_rx_history h') (rx a)) a) [] (add_processed s pn g).
Proof.
  intros [] Hd Hr. split; try done. intros s'. cbn [rx set_rx discarded processed add_processed].
  destruct (decide (s' = s)) as [->|Hne]; [rewrite !sel_alter|by rewrite !sel_alter_ne]. by rewrite Hd.
Qed.

Lemma on_rx_packet_ok alloc pkt a g :
  let s := rx_pkt_space pkt in
  inv a [] g -> timer_ok a -> sel (discarded a) s = false -> 0 <= rx_pkt_num pkt < MAX_PN ->
  wp (ossl_ackm_on_rx_packet alloc pkt) a
    (fun _ a' => inv a' [] (if processable a s (rx_pkt_num pkt) then add_processed s (rx_pkt_num pkt) g else g) /\
       timer_ok a' /\ reports (log a') = reports (log a) /\ (timed a -> timed a'))
    (fun a' => inv a' [] g /\ timer_ok a' /\ reports (log a') = reports (log a) /\ alloc = false /\ (timed a -> timed a')).
Proof.
  intros s Hi Ht Hd Hpn. unfold ossl_ackm_on_rx_packet. apply wp_bind, wp_rx_history; [done|]. apply wp_bind.
  unfold ossl_ackm_is_rx_pn_processable. apply wp_bind, wp_rx_history; [done|]. apply wp_ret.
  change (_ && _) with (processable a s (rx_pkt_num pkt)). destruct (processable a s (rx_pkt_num pkt)) eqn:Hpr; cbn [negb]; [|by apply wp_ret].
  unfold upd_rx. wp_steps. fold s. set (a1 := set_rx _ a).
  assert (H1 : rx_only a a1) by (apply rx_only_upd; intros r; by destruct (_ <? _)).
  pose proof (i_rx _ _ _ Hi s) as Hrx. rewrite Hd in Hrx. unfold processable in Hpr. apply andb_true_iff in Hpr as [Hw Hq]. apply negb_true_iff in Hq. zb.
  pose proof (add_pn_ok alloc _ (rx_pkt_num pkt) (ro_hist _ _ _ Hrx) ltac:(lia)) as Hadd.
  assert (Hnm : ~ UintSet.mem (rx_pkt_num pkt) (pn_set (rx_history (sel (rx a) s)))).
  { rewrite <- UintSet.query_refines by apply UintSet.gwf_wf, Hrx. congruence. }
  specialize (Hadd Hnm). destruct (rx_pkt_history_add_pn _ _ _) as [[[|] h']|]; [| |done]; wp_steps.
  - destruct Hadd as (Hh' & Hle & Hm). set (a2 := set_rx _ a1).
    assert (Hi2 : inv a2 [] (add_processed s (rx_pkt_num pkt) g)).
    { apply inv_rx_add; [by eapply inv_rx_only|done|]. by eapply rx_ok_add. }
    assert (Ht2 : timer_ok a2) by exact (rx_only_timer _ _ H1 Ht).
    assert (Htd2 : timed a -> timed a2) by exact (rx_only_timed _ _ H1).
    assert (Hend : forall b, rx_only a2 b -> wp (modify (fun a => set_rx (alter_at s (count_ecn (ecn pkt)) (rx a)) a)) b
      (fun _ a' => inv a' [] (add_processed s (rx_pkt_num pkt) g) /\ timer_ok a' /\ reports (log a') = reports (log a) /\ (timed a -> timed a'))
      (fun a' => inv a' [] g /\ timer_ok a' /\ reports (log a') = reports (log a) /\ alloc = false /\ (timed a -> timed a'))).
    { intros b Hb. apply wp_modify. assert (H3 : rx_only a2 (set_rx (alter_at s (count_ecn (ecn pkt)) (rx b)) b)).
      { eapply rx_only_trans; [exact Hb|]. apply rx_only_upd. intros r. by destruct (ecn pkt). }
      split_and!; [by eapply inv_rx_only|by eapply rx_only_timer|exact (xo_log _ _ H3)|intros Htd; eapply rx_only_timed; [exact H3|auto]]. }
    apply wp_guard; [|done]. intros _. apply wp_bind. destruct (rx_is_ack_eliciting pkt); [|apply wp_ret; by apply Hend].
    by apply on_rx_eliciting_ok.
  - destruct Hadd as [-> ->]. assert (H2 : rx_only a (set_rx (alter_at s (set_rx_history (rx_history (sel (rx a) s))) (rx a1)) a1)).
    { destruct H1. split; try done. intros s'. cbn. apply (sel_alter_case (fun r => rx_history r = _)); intros; subst; [done|apply xo_rx0]. }
    apply wp_guard; [done|]. intros _. split_and!; [by eapply inv_rx_only|by eapply rx_only_timer|exact (xo_log _ _ H2)|done|by apply rx_only_timed].
Qed.

(** ** ACK frames *)

Definition as_range (r : UintSet.UINT_RANGE) : OSSL_QUIC_ACK_RANGE := QuicWire.mkRange (UintSet.start r) (UintSet.end_ r).

Lemma get_ack_frame_ok s a g E :
  inv a [] g -> timer_ok a -> sel (discarded a) s = false ->
  wp (ossl_ackm_get_ack_frame s) a
    (fun f a' => inv a' [] g /\ timer_ok a' /\ reports (log a') = reports (log a) /\
       used_ranges f = map as_range (take 3 (rev (pn_set (rx_history (sel (rx a) s))))) /\
       ack_ranges f = used_ranges f /\ num_ack_ranges f = Z.of_nat (length (used_ranges f)) /\
       QuicWire.ect0 f = rx_ect0 (sel (rx a) s) /\ QuicWire.ect1 f = rx_ect1 (sel (rx a) s) /\
       QuicWire.ecnce f = rx_ecnce (sel (rx a) s) /\ (is_u64 (rx_largest_time (sel (rx a) s)) -> is_u64 (delay_time f)) /\
       (timed a -> timed a')) E.
Proof.
  intros Hi Ht Hd. unfold ossl_ackm_get_ack_frame, ackm_fill_rx_ack_ranges. apply wp_bind, wp_read_now.
  do 2 apply wp_bind. apply wp_rx_history; [done|]. unfold upd_rx. wp_steps.
  set (f := QuicWire.mkAck _ _ _ _ _ _ _). match goal with |- wp _ ?x _ _ => set (a1 := x) end.
  assert (H1 : rx_only a a1).
  { split; try done; [|intros Hn; by apply (u64_clock (now a))]. intros s'. cbn. rewrite !alter_alter.
    apply (sel_alter_case (fun r => rx_history r = _)); intros; by subst. }
  apply wp_flush_deadline. intros a2 H2. apply wp_ret. pose proof (rx_only_trans _ _ _ H1 H2) as H3.
  split_and!; [by eapply inv_rx_only|by eapply rx_only_timer|exact (xo_log _ _ H3)|..]; unfold used_ranges; cbn -[take].
  - rewrite Nat2Z.id. by rewrite firstn_all.
  - by rewrite Nat2Z.id, firstn_all.
  - by rewrite Nat2Z.id, firstn_all.
  - done.
  - done.
  - done.
  - intros Hl. destruct (_ && _); [|done]. apply is_u64_subtract; [|done]. apply u64_clock, Hi.
  - by apply rx_only_timed.
Qed.

End Ops.

End AckmOps.
