(* ===== verification/AckmSpec.v ===== *)
(** * Properties of the ACK manager

    The states the ACK manager reaches by calls its users may make, and what
    holds of them: the accounting of packets and bytes, agreement with the
    congestion controller, the effect of an ACK frame, the timer, duplicate
    detection, and the way of an ACK frame from one endpoint to the other. *)
From Stdlib Require Import ZArith Lia Bool.
From stdpp Require Import base tactics list gmap sorting.
From S2P Require Import Prelude OsslTime UintSet Statm NewReno QuicVlint Packet WPacket QuicWire AckHist Ackm AckmDetect AckmInv AckmOps.
#[local] Open Scope Z_scope.
Import OsslTime AckHist Ackm AckmDetect AckmInv AckmOps.
Import QuicWire(OSSL_QUIC_ACK_RANGE, range_start, range_end, OSSL_QUIC_FRAME_ACK, ack_ranges, num_ack_ranges,
  delay_time, ect0, ect1, ecnce, used_ranges, valid_ranges, descending).

Module AckmSpec.

(** ** Calls *)

Inductive op :=
  | TxPacket (pkt : OSSL_ACKM_TX_PKT)
  | RxPacket (alloc : bool) (pkt : OSSL_ACKM_RX_PKT)
  | RxAck (alloc : bool) (f : OSSL_QUIC_FRAME_ACK) (s : QUIC_PN_SPACE)
  | SpaceDiscarded (s : QUIC_PN_SPACE)
  | HandshakeConfirmed
  | OnTimeout
  | GetAck (s : QUIC_PN_SPACE)
  | PseudoLost (s : QUIC_PN_SPACE) (pn : Z)
  | SetRxDelay (t : OSSL_TIME)
  | SetTxDelay (t : OSSL_TIME)
  | SetLossCb (b : bool)
  | SetAckCb (b : bool).

Section Spec.
Context {CC : Type} {m : OSSL_CC_METHOD CC} `{!CcAccounting m}.
Abbreviation st := (OSSL_ACKM CC) (only parsing).

(** The allocation of an entry of the hash table succeeds ([true] for a packet sent): the
    code does not notice when it fails. *)
Definition exec (o : op) : M st unit :=
  match o with
  | TxPacket pkt => ossl_ackm_on_tx_packet m true pkt
  | RxPacket alloc pkt => ossl_ackm_on_rx_packet alloc pkt
  | RxAck alloc f s => ossl_ackm_on_rx_ack_frame m alloc f s
  | SpaceDiscarded s => ossl_ackm_on_pkt_space_discarded m s
  | HandshakeConfirmed => ossl_ackm_on_handshake_confirmed
  | OnTimeout => ossl_ackm_on_timeout m
  | GetAck s => _ ← ossl_ackm_get_ack_frame s; mret tt
  | PseudoLost s pn => ossl_ackm_mark_packet_pseudo_lost m s pn
  | SetRxDelay t => ossl_ackm_set_rx_max_ack_delay t
  | SetTxDelay t => ossl_ackm_set_tx_max_ack_delay t
  | SetLossCb b => ossl_ackm_set_loss_detection_deadline_callback b
  | SetAckCb b => ossl_ackm_set_ack_deadline_callback b
  end.

(** What the users of the ACK manager see to: spaces in use, numbers and sizes in
    range, frames from the decoder, a timeout only when one was asked for, a pseudo
    loss only on a Retry. *)
Definition allowed (a : st) (g : ghost) (o : op) : Prop :=
  match o with
  | TxPacket pkt => sel (discarded a) (pkt_space pkt) = false /\ 0 <= pkt_num pkt < MAX_PN /\ is_u64 (time pkt) /\
      is_u64 (num_bytes pkt) /\ (largest_acked pkt = QUIC_PN_INVALID \/ 0 <= largest_acked pkt < MAX_PN) /\
      bytes_in_flight a + leaked g + num_bytes pkt < UINT64_MOD
  | RxPacket _ pkt => sel (discarded a) (rx_pkt_space pkt) = false /\ 0 <= rx_pkt_num pkt < MAX_PN
  | RxAck _ f s => sel (discarded a) s = false /\ frame_ok f
  | OnTimeout => loss_detection_deadline a <> 0
  | GetAck s => sel (discarded a) s = false
  | PseudoLost s pn => sel (discarded a) s = false /\ peer_completed_addr_validation a = false
  | SetRxDelay t => is_u64 t
  | SpaceDiscarded _ | HandshakeConfirmed | SetTxDelay _ | SetLossCb _ | SetAckCb _ => True
  end.

(** The view of the specification after a call that returned 1 or 0. *)
Definition after (o : op) (ok : bool) (a : st) (g : ghost) : ghost :=
  if negb ok then g
  else
    match o with
    | TxPacket pkt => add_sent pkt g
    | RxPacket _ pkt => if processable a (rx_pkt_space pkt) (rx_pkt_num pkt)
                        then add_processed (rx_pkt_space pkt) (rx_pkt_num pkt) g else g
    | PseudoLost s pn => add_leak (default 0 (flight_bytes <$> tx_pkt_history_by_pkt_num (tx_history (sel (tx a) s)) pn)) g
    | _ => g
    end.

Definition returned {A} (r : res A) : bool := match r with Ret _ => true | _ => false end.

Inductive reachable : st -> ghost -> Prop :=
  | reach_new ck sm cc a :
      ossl_ackm_new true (mkPer true true true) ck sm cc = Some a ->
      Forall is_u64 ck -> statm_ok sm -> cc_bytes cc = 0 -> reachable a (mkGhost [] 0 (mkPer [] [] []))
  | reach_step a g o r a' :
      reachable a g -> allowed a g o -> exec o a = (r, a') -> reachable a' (after o (returned r) a g).

Lemma new_inv ck sm cc (a : st) :
  ossl_ackm_new true (mkPer true true true) ck sm cc = Some a -> Forall is_u64 ck -> statm_ok sm -> cc_bytes cc = 0 ->
  inv a [] (mkGhost [] 0 (mkPer [] [] [])) /\ timer_ok a.
Proof.
  intros [= <-] Hck Hsm Hcc. split; [|by split]. split; cbn; try done.
  - intros s. destruct s; (split; cbn; [apply txh_empty|constructor|done|done|done]).
  - assert (Hrx : rx_ok rx_pkt_history_init false []).
    { split; [|intros _ k Hk; by apply elem_of_nil in Hk|intros k Hk; by apply UintSet.mem_nil in Hk].
      split; cbn; [apply UintSet.gwf_nil|intros k Hk; by apply UintSet.mem_nil in Hk|unfold MAX_PN; lia|done]. }
    intros s. by destruct s.
  - constructor.
  - intros s. by destruct s.
Qed.

(** One call keeps the invariant and the timer in order; it has no undefined
    behaviour. *)
Lemma exec_ok o a g :
  inv a [] g -> timer_ok a -> allowed a g o ->
  wp (exec o) a (fun _ a' => inv a' [] (after o true a g) /\ timer_ok a') (fun a' => inv a' [] (after o false a g) /\ timer_ok a').
Proof.
  intros Hi Ht Ha. destruct o; cbn in Ha; cbn [exec after negb].
  - destruct Ha as (Hd & Hn & Htm & Hb & Hla & Hs). pose proof (i_bytes _ _ _ Hi) as Eb. rewrite app_nil_r in Eb. rewrite Eb in Hs.
    eapply wp_mono; [by apply on_tx_packet_ok|by intros _ a' (? & ? & _)|by intros a' ->].
  - destruct Ha as [Hd Hn]. eapply wp_mono; [by apply on_rx_packet_ok| |]; intros; cbv beta in *; tauto.
  - destruct Ha as [Hd Hf]. eapply wp_mono; [apply (on_rx_ack_frame_ok alloc f s a g (fun _ => False)); done| |done]. intros; cbv beta in *; tauto.
  - eapply wp_mono; [by apply on_pkt_space_discarded_ok| |]; [intros; cbv beta in *; tauto|by intros a' [-> _]].
  - eapply wp_mono; [apply (on_handshake_confirmed_ok a g (fun _ => False)); done| |done]. intros; cbv beta in *; tauto.
  - eapply wp_mono; [apply (on_timeout_ok a g (fun _ => False)); done| |done]. intros; cbv beta in *; tauto.
  - apply wp_bind. eapply wp_mono; [apply (get_ack_frame_ok s a g (fun _ => False)); done| |done]. intros f a' (? & ? & _). by apply wp_ret.
  - destruct Ha as [Hd Hp]. eapply wp_mono; [by apply pseudo_lost_ok| |by intros a' [-> _]].
    intros _ a' (Ht' & p & Hin & Hpn & Hi' & _). split; [|done]. destruct (i_tx _ _ _ Hi s) as [Th _ _ _ _].
    rewrite <- Hpn. by rewrite (by_num_in _ p Th Hin).
  - apply wp_modify. split; [|done]. pose proof Hi as []. by eapply (inv_frame a).
  - apply wp_modify. split; [|done]. pose proof Hi as []. by eapply (inv_frame a).
  - apply wp_modify. split; [|done]. pose proof Hi as []. by eapply (inv_frame a).
  - apply wp_modify. split; [|done]. pose proof Hi as []. by eapply (inv_frame a).
Qed.

Lemma ackm_reachable_inv a g : reachable a g -> inv a [] g /\ timer_ok a.
Proof.
  induction 1 as [ck sm cc a Hnew Hck Hsm Hcc|a g o r a' _ [Hi Ht] Ha He]; [by eapply new_inv|].
  pose proof (exec_ok o a g Hi Ht Ha) as Hw. unfold wp in Hw. rewrite He in Hw. by destruct r.
Qed.





(** ** Runs *)

#[global] Instance descending_dec start l : Decision (descending start l).
Proof. revert start. induction l as [|r l IH]; intros start; cbn; apply _. Defined.
#[global] Instance valid_ranges_dec l : Decision (valid_ranges l).
Proof. destruct l; cbn; unfold QuicWire.vint; apply _. Defined.
#[global] Instance frame_ok_dec f : Decision (frame_ok f).
Proof.
  refine (cast_if (decide (0 < num_ack_ranges f <= Z.of_nat (length (ack_ranges f)) /\ valid_ranges (used_ranges f) /\ is_u64 (delay_time f))));
    first [intros; tauto|split; tauto|intros []; tauto].
Defined.
#[global] Instance allowed_dec a g o : Decision (allowed a g o).
Proof. destruct o; cbn; apply _. Defined.

(** A sequence of allowed calls. *)
Fixpoint run (ops : list op) (a : st) (g : ghost) : option (st * ghost) :=
  match ops with
  | [] => Some (a, g)
  | o :: ops =>
      if decide (allowed a g o) then let '(r, a') := exec o a in run ops a' (after o (returned r) a g) else None
  end.

Lemma run_reachable ops : forall a g a' g', reachable a g -> run ops a g = Some (a', g') -> reachable a' g'.
Proof.
  induction ops as [|o ops IH]; intros a g a' g' Hr; cbn; [by intros [= <- <-]|].
  case_decide as Ha; [|done]. destruct (exec o a) as [r a1] eqn:He. intros H. eapply IH; [|exact H]. by eapply reach_step.
Qed.

(** ** ACK frames *)

Lemma descending_map l : forall start,
  StronglySorted (fun a b => UintSet.gap b a) l -> Forall UintSet.range_ok l -> Forall (fun r => UintSet.end_ r + 2 <= start) l ->
  descending start (map as_range l).
Proof.
  induction l as [|r l IH]; intros start Hs Hok Hb; cbn; [done|]. apply StronglySorted_inv in Hs as [Hs Hr].
  apply Forall_cons in Hok as [Hr0 Hok]. apply Forall_cons in Hb as [Hb0 _]. unfold UintSet.range_ok in Hr0.
  split; [lia|]. split; [lia|]. apply IH; [done|done|]. eapply Forall_impl; [exact Hr|]. unfold UintSet.gap. cbn. lia.
Qed.

Lemma descending_take n l : forall start, descending start l -> descending start (take n l).
Proof. revert n. induction l as [|r l IH]; intros [|n] start; cbn; try done. intros (? & ? & ?). auto. Qed.

(** The ranges the frame reports. *)
Lemma ack_ranges_valid h n :
  rxh_ok h -> pn_set h <> [] -> valid_ranges (map as_range (take (S n) (rev (pn_set h)))).
Proof.
  intros [[Hok Hs] Ha _ _] Hne. apply sorted_rev in Hs. apply Forall_rev in Hok.
  assert (Hmem : forall r, r ∈ rev (pn_set h) -> UintSet.range_ok r -> UintSet.end_ r < MAX_PN).
  { intros r Hr Hro. apply (Ha (UintSet.end_ r)). apply UintSet.mem_rev. unfold UintSet.mem. apply Exists_exists. exists r. split; [done|].
    unfold UintSet.in_range, UintSet.range_ok in *. lia. }
  destruct (rev (pn_set h)) as [|r l] eqn:E.
  { apply (f_equal (@rev _)) in E. rewrite rev_involutive in E. done. }
  apply Forall_cons in Hok as [Hr Hok]. specialize (Hmem r ltac:(left) Hr). unfold UintSet.range_ok in Hr. unfold MAX_PN in Hmem.
  cbn [take map valid_ranges as_range range_start range_end]. apply StronglySorted_inv in Hs as [Hs Hgap]. split; [lia|]. split.
  { unfold QuicWire.vint. change Vlint.OSSL_QUIC_VLINT_MAX with (2 ^ 62 - 1). lia. }
  rewrite <- firstn_map. apply descending_take. apply descending_map; [done|done|]. eapply Forall_impl; [exact Hgap|]. unfold UintSet.gap. cbn. lia.
Qed.

(** A packet number the frame covers is in the set. *)
Lemma in_ranges_mem set n k : in_ranges (map as_range (take n (rev set))) k = true -> UintSet.mem k set.
Proof.
  intros (r & Hr & Hc)%existsb_exists. apply in_map_iff in Hr as (x & <- & Hx). apply UintSet.mem_rev. unfold UintSet.mem.
  apply Exists_exists. exists x. split; [|unfold range_contains in Hc; cbn in Hc; zb; split; lia].
  apply list_elem_of_In in Hx. rewrite <- (take_drop n (rev set)). apply elem_of_app. by left.
Qed.

(** No number is recorded twice. *)
Lemma reachable_fresh a g : reachable a g -> forall s, NoDup (sel (processed g) s).
Proof.
  induction 1 as [ck sm cc a Hnew Hck Hsm Hcc|a g o r a' Hr IH Ha He]; intros s; [destruct s; constructor|].
  pose proof (ackm_reachable_inv _ _ Hr) as [Hi _]. unfold after. destruct (negb (returned r)); [done|]. destruct o; try apply IH.
  cbn in Ha. destruct Ha as [Hd _]. destruct (processable a _ _) eqn:Hp; [|apply IH].
  pose proof (processable_fresh _ _ _ _ _ Hi Hd Hp) as Hnew. cbn. apply sel_alter_case; intros; [|apply IH].
  apply NoDup_app. split_and!; [apply IH| |apply NoDup_singleton]. intros k Hk Hk'. apply list_elem_of_singleton in Hk' as ->. done.
Qed.

(** The frame generated, under bounds on the clock of the last packet and on the
    counters of ECN marks. *)
Lemma get_ack_frame_valid s a g e :
  inv a [] g -> timer_ok a -> sel (discarded a) s = false -> pn_set (rx_history (sel (rx a) s)) <> [] -> 0 <= e < 64 ->
  is_u64 (rx_largest_time (sel (rx a) s)) -> QuicWire.vint (rx_ect0 (sel (rx a) s)) -> QuicWire.vint (rx_ect1 (sel (rx a) s)) ->
  QuicWire.vint (rx_ecnce (sel (rx a) s)) ->
  exists f a', ossl_ackm_get_ack_frame s a = (Ret f, a') /\ QuicWire.valid_ack e f /\ num_ack_ranges f <= 3 /\
    forall k, in_ranges (used_ranges f) k = true -> k ∈ sel (processed g) s.
Proof.
  intros Hi Ht Hd Hne He Htm H0 H1 H2. pose proof (get_ack_frame_ok s a g (fun _ => False) Hi Ht Hd) as Hw. unfold wp in Hw.
  destruct (ossl_ackm_get_ack_frame s a) as [[f| |] a'] eqn:Ef; [|done|done]. destruct Hw as (_ & _ & _ & Hu & Hr & Hn & E0 & E1 & E2 & Hdel & _).
  exists f, a'. split; [done|]. destruct (i_rx _ _ _ Hi s) as [Hh _ Ho].
  assert (Hlen : (length (used_ranges f) <= 3)%nat) by (rewrite Hu, length_map, length_take; lia).
  pose proof (ack_ranges_valid _ 2 Hh Hne) as Hv. rewrite <- Hu in Hv.
  assert (Hpos : (0 < length (used_ranges f))%nat) by (destruct (used_ranges f); [done|cbn; lia]).
  split; [|split; [lia|]].
  2: { intros k Hk. apply Ho. rewrite Hu in Hk. by eapply in_ranges_mem. }
  split; [done|rewrite Hr, Hn; lia| |done|auto|by rewrite E0, E1, E2]. unfold QuicWire.vint. rewrite Hn.
  change Vlint.OSSL_QUIC_VLINT_MAX with (2 ^ 62 - 1). lia.
Qed.

(** ** Properties of one endpoint *)

(** C14: as long as the hash table of the history has memory for each packet sent (when it has not,
    [tx_pkt_history_add] does not notice), every packet the ACK manager accepted is, at any time, in exactly one place:
    in the history of its space or in the log of the callbacks, that is, reported
    acknowledged, lost or discarded exactly once; no two accepted packets have the
    same space and number.  The counters [bytes_in_flight] and, by space,
    [ack_eliciting_bytes_in_flight] are the sums of the sizes of the packets in the
    histories that are in flight, and ack-eliciting, without wrapping. *)
Theorem ackm_accounting a g :
  reachable a g ->
  Permutation (sent g) (hist (tx a) ++ resolved (log a)) /\ NoDup (key <$> sent g) /\
  bytes_in_flight a = psum flight_bytes (hist (tx a)) /\ bytes_in_flight a < UINT64_MOD /\
  (forall s, ack_eliciting_bytes_in_flight (sel (tx a) s) = psum (elic_bytes s) (hist (tx a))) /\
  ackm_ack_eliciting_bytes_in_flight a = psum eliciting_bytes (hist (tx a)).
Proof.
  intros Hr. destruct (ackm_reachable_inv _ _ Hr) as [Hi _]. pose proof (total_elic _ _ _ Hi) as Ht. pose proof Hi as [].
  rewrite !app_nil_r in *. split_and!; try done. lia.
Qed.

(** No call the users of the ACK manager may make fails an assertion or reads an array
    out of bounds, in any state it can reach.  The memory of the packets is the caller's: whether it is
    still there when the manager reads it is a question about the caller ([fifd_fates] of FifdSpec). *)
Theorem ackm_never_undefined a g o :
  reachable a g -> allowed a g o -> (exec o a).1 <> Undef.
Proof.
  intros Hr Ha. destruct (ackm_reachable_inv _ _ Hr) as [Hi Ht]. pose proof (exec_ok o a g Hi Ht Ha) as Hw. unfold wp in Hw.
  by destruct (exec o a) as [[] ?].
Qed.

(** C13: an ACK frame acknowledges exactly the packets of the history whose numbers
    are in its ranges; if there are any, exactly those of the others that RFC 9002
    section 6.1 deems lost are reported lost, before them: packets three numbers or more
    below the largest acknowledged, or sent no later than the time the clock gives less
    nine eighths of the greater of the latest and the smoothed round-trip time (at least a
    millisecond).  The round-trip times are those after the sample the frame gives, which is
    taken exactly if the largest number it acknowledges is new and one of the packets newly
    acknowledged is ack-eliciting.  No other packet is reported. *)
Theorem ackm_ack_frame_exact alloc a g f s :
  reachable a g -> sel (discarded a) s = false -> frame_ok f ->
  exists a', ossl_ackm_on_rx_ack_frame m alloc f s a = (Ret tt, a') /\ ack_effect f s a a'.
Proof.
  intros Hr Hd Hf. destruct (ackm_reachable_inv _ _ Hr) as [Hi Ht].
  pose proof (on_rx_ack_frame_ok alloc f s a g (fun _ => False) Hi Ht Hd Hf) as Hw. unfold wp in Hw.
  destruct (ossl_ackm_on_rx_ack_frame m alloc f s a) as [[[]| |] a']; [|done|done]. exists a'. tauto.
Qed.


(** C29: no packet number is processed twice: one that [ossl_ackm_is_rx_pn_processable]
    admits was never processed in its space before, and the numbers processed are
    distinct; the state kept for this is at most 32 ranges. *)
Theorem ackm_no_duplicates a g s pn :
  reachable a g -> sel (discarded a) s = false ->
  (exists b, ossl_ackm_is_rx_pn_processable pn s a = (Ret b, a) /\ (b = true -> pn ∉ sel (processed g) s)) /\
  NoDup (sel (processed g) s) /\ Z.of_nat (length (pn_set (rx_history (sel (rx a) s)))) <= MAX_RX_ACK_RANGES.
Proof.
  intros Hr Hd. destruct (ackm_reachable_inv _ _ Hr) as [Hi Ht]. split_and!.
  - exists (processable a s pn). split; [|by apply (processable_fresh a [] g)].
    unfold ossl_ackm_is_rx_pn_processable, get_rx_history, assert_, mbind, M_bind, get. by rewrite Hd.
  - by eapply reachable_fresh.
  - apply (i_rx _ _ _ Hi s).
Qed.

End Spec.

(** ** Properties of several parts *)

(** C30: with the NewReno controller, its count of bytes in flight is the ACK
    manager's, plus the bytes of the packets pseudo-lost on a Retry, of which it is
    never told. *)
Theorem ackm_newreno_agree (a : OSSL_ACKM NewReno.cc_state) g :
  reachable (m := ossl_cc_newreno_method) a g ->
  NewReno.bytes_in_flight (NewReno.nr (cc_data a)) = bytes_in_flight a + leaked g.
Proof.
  intros Hr. destruct (ackm_reachable_inv _ _ Hr) as [[] _]. cbn [cc_bytes newreno_accounting] in i_cc0. rewrite i_bytes0. exact i_cc0.
Qed.

(** What the decoder yields for a frame is a frame the handler accepts. *)
Lemma decoded_frame_ok e f out :
  QuicWire.valid_ack e f -> used_ranges (QuicWire.decoded_ack e f out) = used_ranges f -> frame_ok (QuicWire.decoded_ack e f out).
Proof.
  intros Hv Hu. pose proof (QuicWire.used_length e f Hv) as Hlen. pose proof (QuicWire.wire_delay_vint e f Hv) as Hd.
  destruct (QuicWire.delay_scaled e f Hv) as (_ & _ & Hds). pose proof Hv as [He Hn _ Hr Hdl _].
  assert (En : num_ack_ranges (QuicWire.decoded_ack e f out) = num_ack_ranges f) by (unfold QuicWire.decoded_ack; by destruct (QuicWire.ecn_present f)).
  assert (Ed : delay_time (QuicWire.decoded_ack e f out) = QuicWire.wire_delay e f * 2 ^ e * 1000)
    by (unfold QuicWire.decoded_ack; by destruct (QuicWire.ecn_present f)).
  split; [|by rewrite Hu|].
  - rewrite En. apply (f_equal length) in Hu. unfold used_ranges at 1 in Hu. rewrite length_take, En in Hu. lia.
  - rewrite Ed. unfold is_u64 in *. unfold QuicWire.vint in Hd. assert (0 < 2 ^ e) by (apply Z.pow_pos_nonneg; lia). nia.
Qed.

(** C12: the way of an acknowledgement: the frame one endpoint generates for the
    numbers it processed can be written and read, and the endpoint that receives it
    takes as acknowledged only packets whose numbers the first has processed. *)
Theorem ackm_ack_end_to_end {CC1 CC2} (m1 : OSSL_CC_METHOD CC1) (m2 : OSSL_CC_METHOD CC2) `{!CcAccounting m1, !CcAccounting m2}
    (a : OSSL_ACKM CC1) ga (b : OSSL_ACKM CC2) gb s e out rest alloc :
  reachable (m := m1) a ga -> reachable (m := m2) b gb -> sel (discarded a) s = false -> sel (discarded b) s = false ->
  pn_set (rx_history (sel (rx a) s)) <> [] -> 0 <= e < 64 -> is_u64 (rx_largest_time (sel (rx a) s)) ->
  QuicWire.vint (rx_ect0 (sel (rx a) s)) -> QuicWire.vint (rx_ect1 (sel (rx a) s)) -> QuicWire.vint (rx_ecnce (sel (rx a) s)) ->
  3 <= num_ack_ranges out <= Z.of_nat (length (ack_ranges out)) -> bytes rest ->
  exists f a', ossl_ackm_get_ack_frame s a = (Ret f, a') /\
    WPacket.appends (QuicWire.ossl_quic_wire_encode_frame_ack e f) (QuicWire.ack_wire e f) /\
    forall rem, Z.of_nat (length (QuicWire.ack_wire e f)) <= rem < UINT64_MOD ->
    exists f' n p', QuicWire.ossl_quic_wire_decode_frame_ack e (Some out) (Packet.mkPacket (QuicWire.ack_wire e f ++ rest) rem)
        = (Ret (Some f', n), p') /\
      exists b' lost acked, ossl_ackm_on_rx_ack_frame m2 alloc f' s b = (Ret tt, b') /\
        reports (log b') = reports (log b) ++ map Lost lost ++ map Acked acked /\
        forall p, p ∈ acked -> pkt_num p ∈ sel (processed ga) s.
Proof.
  intros Hra Hrb Hda Hdb Hne He Htm H0 H1 H2 Hout Hrest. destruct (ackm_reachable_inv _ _ Hra) as [Hia Hta].
  destruct (ackm_reachable_inv _ _ Hrb) as [Hib Htb].
  destruct (get_ack_frame_valid s a ga e Hia Hta Hda Hne He Htm H0 H1 H2) as (f & a' & Ef & Hv & Hn & Hin).
  exists f, a'. split; [done|]. split; [by apply QuicWire.encode_ack_appends|]. intros rem Hrem.
  exists (QuicWire.decoded_ack e f out). do 2 eexists. split; [apply QuicWire.decode_ack_reads; [done|lia|done|done]|].
  pose proof (QuicWire.decoded_ack_ranges e f out Hv ltac:(lia)) as Hu. pose proof (decoded_frame_ok e f out Hv Hu) as Hf.
  pose proof (on_rx_ack_frame_ok alloc _ s b gb (fun _ => False) Hib Htb Hdb Hf) as Hw. unfold wp in Hw.
  destruct (ossl_ackm_on_rx_ack_frame m2 alloc (QuicWire.decoded_ack e f out) s b) as [[[]| |] b'] eqn:Eb; [|done|done].
  destruct Hw as (_ & _ & Hrep & _). unfold ack_effect in Hrep. destruct (at_detection _ _ b) as [t rtt]. destruct Hrep as [_ Hrep]. do 3 eexists. split; [done|]. split; [exact Hrep|].
  intros p Hp. apply list_elem_of_filter in Hp as [Hp _]. apply Hin. by rewrite <- Hu.
Qed.

(** ** Examples *)

Definition ex_new : OSSL_ACKM NewReno.cc_state :=
  match ossl_ackm_new true (mkPer true true true) [90000000; 90000000; 99000000] Statm.ossl_statm_init NewReno.fresh
    as o return match o with Some _ => OSSL_ACKM NewReno.cc_state | None => unit end
  with Some a => a | None => tt end.
Definition ex_ghost : ghost := mkGhost [] 0 (mkPer [] [] []).

Definition ex_pkt (n : Z) : OSSL_ACKM_TX_PKT :=
  mkTx n 1200 (50000000 + n * 1000000) QUIC_PN_INVALID QUIC_PN_SPACE_APP true true false false 0%nat.
Definition ex_ack : OSSL_QUIC_FRAME_ACK := QuicWire.mkAck [QuicWire.mkRange 4 4; QuicWire.mkRange 1 1] 2 0 0 0 0 false.

(** A sender: six packets, of which two have been acknowledged and one lost. *)
Definition ex_sending : list op := HandshakeConfirmed :: map TxPacket (map ex_pkt [0; 1; 2; 3; 4; 5]).
Definition ex_sender : OSSL_ACKM NewReno.cc_state * ghost :=
  default (ex_new, ex_ghost) (run (m := ossl_cc_newreno_method) ex_sending ex_new ex_ghost).
Definition ex_acked : OSSL_ACKM NewReno.cc_state * ghost :=
  default (ex_new, ex_ghost) (run (m := ossl_cc_newreno_method) (ex_sending ++ [RxAck true ex_ack QUIC_PN_SPACE_APP]) ex_new ex_ghost).

(** A receiver of three packets with a gap. *)
Definition ex_rx (n : Z) : op := RxPacket true (mkRx n (60000000 + n) QUIC_PN_SPACE_APP true OSSL_ACKM_ECN_NONE).
Definition ex_receiver : OSSL_ACKM NewReno.cc_state * ghost :=
  default (ex_new, ex_ghost) (run (m := ossl_cc_newreno_method) (map ex_rx [0; 1; 3]) ex_new ex_ghost).

Lemma ex_new_reachable : reachable (m := ossl_cc_newreno_method) ex_new ex_ghost.
Proof.
  eapply (reach_new [90000000; 90000000; 99000000] Statm.ossl_statm_init NewReno.fresh); [reflexivity|by repeat constructor| |reflexivity].
  unfold statm_ok, is_u64. vm_compute. intuition discriminate.
Qed.

Lemma ex_reachable ops x :
  x = default (ex_new, ex_ghost) (run (m := ossl_cc_newreno_method) ops ex_new ex_ghost) -> reachable (m := ossl_cc_newreno_method) x.1 x.2.
Proof.
  intros ->. destruct (run ops ex_new ex_ghost) as [[a g]|] eqn:E; [|apply ex_new_reachable].
  exact (run_reachable ops _ _ a g ex_new_reachable E).
Qed.

Lemma ackm_accounting_witness :
  map pkt_num (hist (tx ex_acked.1)) = [2; 3; 5] /\ reports (log ex_acked.1) = [Lost (ex_pkt 0); Acked (ex_pkt 4); Acked (ex_pkt 1)] /\
  bytes_in_flight ex_acked.1 = psum flight_bytes (hist (tx ex_acked.1)).
Proof.
  split; [vm_compute; reflexivity|]. split; [vm_compute; reflexivity|].
  apply (ackm_accounting (m := ossl_cc_newreno_method) ex_acked.1 ex_acked.2). exact (ex_reachable _ _ eq_refl).
Defined.

Lemma ackm_never_undefined_witness :
  (exec (m := ossl_cc_newreno_method) (RxAck true ex_ack QUIC_PN_SPACE_APP) ex_sender.1).1 <> Undef.
Proof.
  apply (ackm_never_undefined ex_sender.1 ex_sender.2); [exact (ex_reachable _ _ eq_refl)|].
  apply (bool_decide_unpack _). vm_compute. exact I.
Defined.

Lemma ackm_ack_frame_exact_witness :
  map pkt_num (acked_of ex_ack (rev (held (tx ex_sender.1) QUIC_PN_SPACE_APP))) = [4; 1] /\
  exists a', ossl_ackm_on_rx_ack_frame ossl_cc_newreno_method true ex_ack QUIC_PN_SPACE_APP ex_sender.1 = (Ret tt, a') /\
    ack_effect ex_ack QUIC_PN_SPACE_APP ex_sender.1 a'.
Proof.
  split; [vm_compute; reflexivity|].
  apply (ackm_ack_frame_exact true ex_sender.1 ex_sender.2); [exact (ex_reachable _ _ eq_refl)|vm_compute; reflexivity|].
  apply (bool_decide_unpack _). vm_compute. exact I.
Defined.


Lemma ackm_no_duplicates_witness :
  sel (processed ex_receiver.2) QUIC_PN_SPACE_APP = [0; 1; 3] /\
  exists b, ossl_ackm_is_rx_pn_processable 2 QUIC_PN_SPACE_APP ex_receiver.1 = (Ret b, ex_receiver.1) /\
    (b = true -> 2 ∉ sel (processed ex_receiver.2) QUIC_PN_SPACE_APP).
Proof.
  split; [vm_compute; reflexivity|].
  apply (ackm_no_duplicates (m := ossl_cc_newreno_method) ex_receiver.1 ex_receiver.2 QUIC_PN_SPACE_APP 2);
    [exact (ex_reachable _ _ eq_refl)|vm_compute; reflexivity].
Defined.

Lemma ackm_newreno_agree_witness :
  bytes_in_flight ex_acked.1 = 3600 /\ NewReno.bytes_in_flight (NewReno.nr (cc_data ex_acked.1)) = bytes_in_flight ex_acked.1 + 0.
Proof. split; [vm_compute; reflexivity|]. exact (ackm_newreno_agree ex_acked.1 ex_acked.2 (ex_reachable _ _ eq_refl)). Defined.

Lemma ackm_ack_end_to_end_witness :
  exists f a', ossl_ackm_get_ack_frame QUIC_PN_SPACE_APP ex_receiver.1 = (Ret f, a') /\ used_ranges f = [QuicWire.mkRange 3 3; QuicWire.mkRange 0 1].
Proof.
  destruct (ackm_ack_end_to_end ossl_cc_newreno_method ossl_cc_newreno_method ex_receiver.1 ex_receiver.2 ex_sender.1 ex_sender.2
    QUIC_PN_SPACE_APP 3 (QuicWire.mkAck (repeat (QuicWire.mkRange 0 0) 8) 8 0 0 0 0 false) [] true) as (f & a' & Ef & _);
    [exact (ex_reachable _ _ eq_refl)|exact (ex_reachable _ _ eq_refl)|vm_compute; reflexivity|vm_compute; reflexivity
    |vm_compute; discriminate|lia|apply (bool_decide_unpack _); vm_compute; exact I
    |apply (bool_decide_unpack _); vm_compute; exact I|apply (bool_decide_unpack _); vm_compute; exact I|apply (bool_decide_unpack _); vm_compute; exact I
    |cbn; lia|constructor|].
  exists f, a'. split; [exact Ef|]. revert Ef. vm_compute. intros [= <- _]. reflexivity.
Defined.

(** ** Where the code departs from its intent *)

(** A time of zero stands for none, yet it is less than any other: while the
    application space has no loss time, those of the other spaces are not seen, and
    the timer is not set for them. *)
Theorem ackm_loss_time_hidden {CC} (a : OSSL_ACKM CC) :
  (forall s, 0 <= loss_time (sel (tx a) s)) -> loss_time (sel (tx a) QUIC_PN_SPACE_APP) = 0 ->
  (ackm_get_loss_time_and_space a).1 = 0.
Proof.
  intros Hnn Happ. unfold ackm_get_loss_time_and_space. cbn [foldl].
  assert (Hz : forall t (s : QUIC_PN_SPACE), 0 <= t ->
    (if ossl_time_is_zero t || (ossl_time_compare 0 t =? -1) then (0, QUIC_PN_SPACE_APP) else (t, s)).1 = 0).
  { intros t s Ht. rewrite time_is_zero_spec, time_compare_spec. destruct (Z.eqb_spec t 0); [done|].
    destruct (Z.eqb_spec (Z.sgn (0 - t)) (-1)); [done|lia]. }
  destruct (_ || _); cbv beta iota; rewrite Happ; apply Hz, Hnn.
Qed.

(** Packets 0, 2, 4, 6 and 8 received: five ranges are tracked, three reported.
    Packet 0 alone received: its time is not recorded, the delay is reported as
    zero. *)
Theorem ackm_ack_frame_quirks :
  let a := (default (ex_new, ex_ghost) (run (m := ossl_cc_newreno_method) (map ex_rx [0; 2; 4; 6; 8]) ex_new ex_ghost)).1 in
  let b := (default (ex_new, ex_ghost) (run (m := ossl_cc_newreno_method) (map ex_rx [0]) ex_new ex_ghost)).1 in
  length (pn_set (rx_history (sel (rx a) QUIC_PN_SPACE_APP))) = 5%nat /\
  (exists f a', ossl_ackm_get_ack_frame QUIC_PN_SPACE_APP a = (Ret f, a') /\ num_ack_ranges f = 3) /\
  (exists f b', ossl_ackm_get_ack_frame QUIC_PN_SPACE_APP b = (Ret f, b') /\ delay_time f = 0).
Proof.
  cbv zeta. split; [vm_compute; reflexivity|]. split; do 2 eexists; (split; [vm_compute; reflexivity|reflexivity]).
Qed.

End AckmSpec.
