(* ===== verification/Fifd.v ===== *)
(** * Frames in flight

    Model of [ssl/quic/quic_fifd.c] with the callbacks the packetiser gives it
    ([get_sstream_by_id], [on_regen_notify], [on_confirm_notify],
    [on_sstream_updated] of [ssl/quic/quic_txp.c], its only user): what becomes of
    the control frames, of the stream data and of the flags of a packet when it is
    sent, acknowledged, lost or discarded.

    The dispatcher works on the control frame queue, the pool of packet records,
    the stream map, the send buffers of the CRYPTO streams, the flags of the
    packetiser and the ACK manager, which are one state here ([conn]).  The ACK
    manager calls back in the middle of its loops; since the callbacks do not use it
    and it does not use what they change, [with_callbacks] runs those its log names,
    in order, when its function has returned.  Loops over the control frames of a packet have the
    number of items as fuel.  The outcomes of allocations for the [i]-th chunk of a
    packet are [al i].  Logging ([qlog]) is left out. *)
From Stdlib Require Import ZArith Lia.
From stdpp Require Import base tactics option gmap sorting.
From S2P Require Import Prelude QuicWire SStream StreamMap AckHist Ackm DList Cfq Txpim.
#[local] Open Scope Z_scope.
Import AckHist Txpim.
Import QuicWire.

Module Fifd.

(** What the packetiser keeps of the frames it has to send. *)
Record txp_flags := mkFlags {
  want_handshake_done : bool; want_max_data : bool; want_max_streams_bidi : bool; want_max_streams_uni : bool; want_ack : Z
}.

Record conn (CC : Type) := mkConn {
  cfq : Cfq.QUIC_CFQ; txpim : QUIC_TXPIM; qsm : StreamMap.QUIC_STREAM_MAP; crypto : Ackm.per_space (option SStream.QUIC_SSTREAM);
  txp : txp_flags; ackm : Ackm.OSSL_ACKM CC
}.
Arguments mkConn {CC}.
Arguments cfq {CC}.
Arguments txpim {CC}.
Arguments qsm {CC}.
Arguments crypto {CC}.
Arguments txp {CC}.
Arguments ackm {CC}.

Definition set_cfq {CC} (v : Cfq.QUIC_CFQ) (c : conn CC) : conn CC := mkConn v (txpim c) (qsm c) (crypto c) (txp c) (ackm c).
Definition set_txpim {CC} (v : QUIC_TXPIM) (c : conn CC) : conn CC := mkConn (cfq c) v (qsm c) (crypto c) (txp c) (ackm c).
Definition set_qsm {CC} (v : StreamMap.QUIC_STREAM_MAP) (c : conn CC) : conn CC := mkConn (cfq c) (txpim c) v (crypto c) (txp c) (ackm c).
Definition set_crypto {CC} (v : Ackm.per_space (option SStream.QUIC_SSTREAM)) (c : conn CC) : conn CC :=
  mkConn (cfq c) (txpim c) (qsm c) v (txp c) (ackm c).
Definition set_txp {CC} (v : txp_flags) (c : conn CC) : conn CC := mkConn (cfq c) (txpim c) (qsm c) (crypto c) v (ackm c).
Definition set_ackm {CC} (v : Ackm.OSSL_ACKM CC) (c : conn CC) : conn CC := mkConn (cfq c) (txpim c) (qsm c) (crypto c) (txp c) v.

Section Dispatch.
Context {CC : Type} `{!Qsort}.
Abbreviation C := (conn CC).

(** A function of one component. *)
Definition zoom {T A} (get : C -> T) (set : T -> C -> C) (m : M T A) : M C A := fun c => let '(r, t) := m (get c) in (r, set t c).
Definition on_cfq {A} (m : M Cfq.QUIC_CFQ A) : M C A := zoom cfq set_cfq m.
Definition on_txpim {A} (m : M QUIC_TXPIM A) : M C A := zoom txpim set_txpim m.
Definition on_qsm {A} (m : M StreamMap.QUIC_STREAM_MAP A) : M C A := zoom qsm set_qsm m.
Definition on_ackm {A} (m : M (Ackm.OSSL_ACKM CC) A) : M C A := zoom ackm set_ackm m.

(** ** Callbacks of the packetiser *)

(** Where a send buffer is. *)
Inductive place := InStream (p : nat) | InCrypto (s : QUIC_PN_SPACE).

Definition get_sstream_by_id (stream_id : Z) (pn_space : QUIC_PN_SPACE) : M C (option place) :=
  c ← get;
  if stream_id =? UINT64_MAX then mret (if is_null (Ackm.sel (crypto c) pn_space) then None else Some (InCrypto pn_space))
  else
    match StreamMap.ossl_quic_stream_map_get_by_id stream_id (qsm c) with
    | None => mret None
    | Some p =>
        s ← on_qsm (StreamMap.deref p);
        mret (if is_null (StreamMap.sstream s) then None else Some (InStream p))
    end.

(** A function of the send buffer at a place. *)
Definition at_place {A} (w : place) (m : M SStream.QUIC_SSTREAM A) : M C A :=
  match w with
  | InStream p =>
      s ← on_qsm (StreamMap.deref p);
      match StreamMap.sstream s with
      | None => undefined
      | Some ss => (fun c => let '(r, ss') := m ss in
          (r, set_qsm (StreamMap.set_heap (<[p := StreamMap.set_sstream (Some ss') s]> (StreamMap.heap (qsm c))) (qsm c)) c)) : M C A
      end
  | InCrypto s => fun c =>
      match Ackm.sel (crypto c) s with
      | None => (Undef, c)
      | Some ss => let '(r, ss') := m ss in (r, set_crypto (Ackm.alter_at s (fun _ => Some ss') (crypto c)) c)
      end
  end.

(** A call whose result is not used. *)
Definition ignore {S A} (m : M S A) : M S unit := StreamMap.try_ m;; mret tt.

Definition with_stream (stream_id : Z) (f : nat -> M StreamMap.QUIC_STREAM_MAP unit) : M C unit :=
  c ← get;
  match StreamMap.ossl_quic_stream_map_get_by_id stream_id (qsm c) with
  | None => mret tt
  | Some p => on_qsm (f p)
  end.

Definition upd_flags (f : txp_flags -> txp_flags) : M C unit := modify (fun c => set_txp (f (txp c)) c).
Definition pn_space_num (s : QUIC_PN_SPACE) : Z :=
  match s with QUIC_PN_SPACE_INITIAL => 0 | QUIC_PN_SPACE_HANDSHAKE => 1 | QUIC_PN_SPACE_APP => 2 end.

Definition on_regen_notify (frame_type stream_id : Z) (pkt : nat) : M C unit :=
  if frame_type =? OSSL_QUIC_FRAME_TYPE_HANDSHAKE_DONE then
    upd_flags (fun f => mkFlags true (want_max_data f) (want_max_streams_bidi f) (want_max_streams_uni f) (want_ack f))
  else if frame_type =? OSSL_QUIC_FRAME_TYPE_MAX_DATA then
    upd_flags (fun f => mkFlags (want_handshake_done f) true (want_max_streams_bidi f) (want_max_streams_uni f) (want_ack f))
  else if frame_type =? OSSL_QUIC_FRAME_TYPE_MAX_STREAMS_BIDI then
    upd_flags (fun f => mkFlags (want_handshake_done f) (want_max_data f) true (want_max_streams_uni f) (want_ack f))
  else if frame_type =? OSSL_QUIC_FRAME_TYPE_MAX_STREAMS_UNI then
    upd_flags (fun f => mkFlags (want_handshake_done f) (want_max_data f) (want_max_streams_bidi f) true (want_ack f))
  else if frame_type =? OSSL_QUIC_FRAME_TYPE_ACK_WITH_ECN then
    x ← on_txpim (Txpim.pkt pkt);
    upd_flags (fun f => mkFlags (want_handshake_done f) (want_max_data f) (want_max_streams_bidi f) (want_max_streams_uni f)
                          (Z.lor (want_ack f) (Z.shiftl 1 (pn_space_num (pkt_space (ackm_pkt x))))))
  else if frame_type =? OSSL_QUIC_FRAME_TYPE_MAX_STREAM_DATA then
    with_stream stream_id (fun s => StreamMap.upd s (StreamMap.set_want_max_stream_data true);; StreamMap.ossl_quic_stream_map_update_state s)
  else if frame_type =? OSSL_QUIC_FRAME_TYPE_STOP_SENDING then
    with_stream stream_id (fun s => ignore (StreamMap.ossl_quic_stream_map_schedule_stop_sending s))
  else if frame_type =? OSSL_QUIC_FRAME_TYPE_RESET_STREAM then
    with_stream stream_id (fun s => StreamMap.upd s (StreamMap.set_want_reset_stream true);; StreamMap.ossl_quic_stream_map_update_state s)
  else undefined.

Definition on_confirm_notify (frame_type stream_id : Z) (pkt : nat) : M C unit :=
  if frame_type =? OSSL_QUIC_FRAME_TYPE_STOP_SENDING then
    with_stream stream_id (fun s => StreamMap.upd s (StreamMap.set_acked_stop_sending true);; StreamMap.ossl_quic_stream_map_update_state s)
  else if frame_type =? OSSL_QUIC_FRAME_TYPE_RESET_STREAM then
    with_stream stream_id (fun s =>
      ignore (StreamMap.ossl_quic_stream_map_notify_reset_stream_acked s);; StreamMap.ossl_quic_stream_map_update_state s)
  else undefined.

Definition on_sstream_updated (stream_id : Z) : M C unit := with_stream stream_id StreamMap.ossl_quic_stream_map_update_state.

(** ** The dispatcher *)

(** [f] for each chunk, with its number. *)
Fixpoint each_chunk (f : nat -> QUIC_TXPIM_CHUNK -> M C unit) (i : nat) (l : list QUIC_TXPIM_CHUNK) : M C unit :=
  match l with [] => mret tt | ch :: l => f i ch;; each_chunk f (S i) l end.

(** [chunks = ossl_quic_txpim_pkt_get_chunks(pkt)], [num_chunks = ...] and the loop
    over them. *)
Definition for_chunks (pkt : nat) (f : nat -> QUIC_TXPIM_CHUNK -> M C unit) : M C unit :=
  chunks ← on_txpim (ossl_quic_txpim_pkt_get_chunks pkt);
  num_chunks ← on_txpim (ossl_quic_txpim_pkt_get_num_chunks pkt);
  if num_chunks <=? Z.of_nat (length chunks) then each_chunk f 0 (take (Z.to_nat num_chunks) chunks) else undefined.

(** The loop over the control frames from [p] on; the next one is read first.  (In
    [ossl_quic_fifd_pkt_commit] it is read after [ossl_quic_cfq_mark_tx], which does not
    change it.) *)
Fixpoint each_item (fuel : nat) (f : nat -> M Cfq.QUIC_CFQ unit) (p : option nat) : M C unit :=
  match p with
  | None => mret tt
  | Some q =>
      match fuel with
      | O => undefined
      | S fuel =>
          x ← on_cfq (Cfq.item q);
          on_cfq (f q);;
          each_item fuel f (Cfq.pkt_next x)
      end
  end.
Definition for_items (pkt : nat) (f : nat -> M Cfq.QUIC_CFQ unit) : M C unit :=
  x ← on_txpim (Txpim.pkt pkt);
  c ← get;
  each_item (size (Cfq.items (cfq c))) f (retx_head x).

(** [pkt->fifd], which the callbacks follow. *)
Definition the_fifd (pkt : nat) : M C QUIC_TXPIM_PKT_EX := x ← on_txpim (Txpim.pkt pkt); if fifd x then mret x else undefined.

Definition when_ (b : bool) (m : M C unit) : M C unit := if b then m else mret tt.

Definition has_data (ch : QUIC_TXPIM_CHUNK) : bool := start ch <=? end_ ch.
Definition not_crypto (ch : QUIC_TXPIM_CHUNK) : bool := negb (stream_id ch =? UINT64_MAX).

(** One turn of the loop of [on_acked]. *)
Definition acked_chunk (al : nat -> bool) (pkt : nat) (s : QUIC_PN_SPACE) (i : nat) (ch : QUIC_TXPIM_CHUNK) : M C unit :=
  w ← get_sstream_by_id (stream_id ch) s;
  match w with
  | None => mret tt
  | Some w =>
      when_ (has_data ch) (ignore (at_place w (SStream.ossl_quic_sstream_mark_acked (al i) (start ch) (end_ ch))));;
      when_ (has_fin ch && not_crypto ch) (ignore (at_place w SStream.ossl_quic_sstream_mark_acked_fin));;
      when_ (has_stop_sending ch && not_crypto ch) (on_confirm_notify OSSL_QUIC_FRAME_TYPE_STOP_SENDING (stream_id ch) pkt);;
      when_ (has_reset_stream ch && not_crypto ch) (on_confirm_notify OSSL_QUIC_FRAME_TYPE_RESET_STREAM (stream_id ch) pkt);;
      b ← at_place w (fun ss => (SStream.ossl_quic_sstream_is_totally_acked ss, ss));
      when_ b (on_sstream_updated (stream_id ch))
  end.

Definition on_acked (al : nat -> bool) (pkt : nat) : M C unit :=
  x ← the_fifd pkt;
  for_chunks pkt (acked_chunk al pkt (pkt_space (ackm_pkt x)));;
  for_items pkt Cfq.ossl_quic_cfq_release;;
  on_txpim (ossl_quic_txpim_pkt_release pkt).

(** One turn of the loop of [on_lost]. *)
Definition lost_chunk (al : nat -> bool) (pkt : nat) (s : QUIC_PN_SPACE) (i : nat) (ch : QUIC_TXPIM_CHUNK) : M C unit :=
  w ← get_sstream_by_id (stream_id ch) s;
  match w with
  | None => mret tt
  | Some w =>
      when_ (has_data ch) (ignore (at_place w (SStream.ossl_quic_sstream_mark_lost (al i) (start ch) (end_ ch))));;
      when_ (has_fin ch && not_crypto ch) (ignore (at_place w SStream.ossl_quic_sstream_mark_lost_fin));;
      when_ (has_stop_sending ch && not_crypto ch) (on_regen_notify OSSL_QUIC_FRAME_TYPE_STOP_SENDING (stream_id ch) pkt);;
      when_ (has_reset_stream ch && not_crypto ch) (on_regen_notify OSSL_QUIC_FRAME_TYPE_RESET_STREAM (stream_id ch) pkt);;
      on_regen_notify OSSL_QUIC_FRAME_TYPE_MAX_STREAM_DATA (stream_id ch) pkt;;
      when_ ((has_data ch || has_fin ch && not_crypto ch) && not_crypto ch) (on_sstream_updated (stream_id ch))
  end.

Definition on_lost (al : nat -> bool) (pkt : nat) : M C unit :=
  x ← the_fifd pkt;
  for_chunks pkt (lost_chunk al pkt (pkt_space (ackm_pkt x)));;
  for_items pkt (fun p => Cfq.ossl_quic_cfq_mark_lost p Cfq.UINT32_MAX);;
  when_ (had_handshake_done_frame x) (on_regen_notify OSSL_QUIC_FRAME_TYPE_HANDSHAKE_DONE UINT64_MAX pkt);;
  when_ (had_max_data_frame x) (on_regen_notify OSSL_QUIC_FRAME_TYPE_MAX_DATA UINT64_MAX pkt);;
  when_ (had_max_streams_bidi_frame x) (on_regen_notify OSSL_QUIC_FRAME_TYPE_MAX_STREAMS_BIDI UINT64_MAX pkt);;
  when_ (had_max_streams_uni_frame x) (on_regen_notify OSSL_QUIC_FRAME_TYPE_MAX_STREAMS_UNI UINT64_MAX pkt);;
  when_ (had_ack_frame x) (on_regen_notify OSSL_QUIC_FRAME_TYPE_ACK_WITH_ECN UINT64_MAX pkt);;
  on_txpim (ossl_quic_txpim_pkt_release pkt).

Definition on_discarded (pkt : nat) : M C unit :=
  the_fifd pkt;;
  for_items pkt Cfq.ossl_quic_cfq_release;;
  on_txpim (ossl_quic_txpim_pkt_release pkt).

(** One turn of the loop over chunks of [ossl_quic_fifd_pkt_commit]. *)
Definition commit_chunk (al : nat -> bool) (s : QUIC_PN_SPACE) (i : nat) (ch : QUIC_TXPIM_CHUNK) : M C unit :=
  w ← get_sstream_by_id (stream_id ch) s;
  match w with
  | None => mret tt
  | Some w =>
      when_ (has_data ch) (at_place w (SStream.ossl_quic_sstream_mark_transmitted (al i) (start ch) (end_ ch)));;
      when_ (has_fin ch) (at_place w (SStream.ossl_quic_sstream_mark_transmitted_fin (u64 (end_ ch + 1))))
  end.

Definition set_cb (p : nat) (a : OSSL_ACKM_TX_PKT) : OSSL_ACKM_TX_PKT :=
  mkTx (pkt_num a) (num_bytes a) (time a) (largest_acked a) (pkt_space a) (is_inflight a) (is_ack_eliciting a) (is_pto_probe a) (is_mtu_probe a) p.

Definition ossl_quic_fifd_pkt_commit (m : Ackm.OSSL_CC_METHOD CC) (al : nat -> bool) (alloc : bool) (pkt : nat) : M C unit :=
  on_txpim (upd_pkt pkt (set_fifd true));;
  on_txpim (upd_pkt pkt (fun x => set_ackm_pkt (set_cb pkt (ackm_pkt x)) x));;
  for_items pkt Cfq.ossl_quic_cfq_mark_tx;;
  x ← on_txpim (Txpim.pkt pkt);
  for_chunks pkt (commit_chunk al (pkt_space (ackm_pkt x)));;
  x ← on_txpim (Txpim.pkt pkt);
  on_ackm (Ackm.ossl_ackm_on_tx_packet m alloc (ackm_pkt x)).

(** [ossl_quic_txpim_pkt_add_cfq_item]. *)
Definition ossl_quic_txpim_pkt_add_cfq_item (fpkt item : nat) : M C unit :=
  x ← on_txpim (Txpim.pkt fpkt);
  on_cfq (Cfq.upd_item item (Cfq.set_pkt_links None (retx_head x)));;
  on_txpim (upd_pkt fpkt (set_retx_head (Some item))).

(** ** Calls of the ACK manager *)

Definition dispatch (al : nat -> bool) (e : Ackm.event) : M C unit :=
  match e with
  | Ackm.Acked p => on_acked al (cb_arg p)
  | Ackm.Lost p => on_lost al (cb_arg p)
  | Ackm.Discarded p => on_discarded (cb_arg p)
  | Ackm.LossDeadline _ | Ackm.AckDeadline _ _ => mret tt
  end.

Fixpoint dispatch_all (al : nat -> bool) (l : list Ackm.event) : M C unit :=
  match l with [] => mret tt | e :: l => dispatch al e;; dispatch_all al l end.

Definition with_callbacks (al : nat -> bool) (m : M (Ackm.OSSL_ACKM CC) unit) : M C unit := fun c =>
  let '(r, a) := m (Ackm.set_log [] (ackm c)) in
  match dispatch_all al (Ackm.log a) (set_ackm (Ackm.set_log [] a) c) with
  | (Ret _, c') => (r, c')
  | (r', c') => (r', c')
  end.

(** [ossl_quic_tx_packetiser_discard_enc_level]. *)
Definition QUIC_ENC_LEVEL_0RTT : Z := 2.
Definition QUIC_ENC_LEVEL_NUM : Z := 4.
Definition ossl_quic_enc_level_to_pn_space (enc_level : Z) : option QUIC_PN_SPACE :=
  if enc_level =? 0 then Some QUIC_PN_SPACE_INITIAL
  else if enc_level =? 1 then Some QUIC_PN_SPACE_HANDSHAKE
  else if (enc_level =? 2) || (enc_level =? 3) then Some QUIC_PN_SPACE_APP
  else None.
Definition ossl_quic_tx_packetiser_discard_enc_level (enc_level : Z) : M C unit :=
  guard_ (negb (QUIC_ENC_LEVEL_NUM <=? enc_level));;
  if negb (enc_level =? QUIC_ENC_LEVEL_0RTT) then
    match ossl_quic_enc_level_to_pn_space enc_level with
    | Some s => modify (fun c => set_crypto (Ackm.alter_at s (fun _ => None) (crypto c)) c)
    | None => undefined
    end
  else mret tt.
End Dispatch.

(** [shdr] of a STREAM frame to the record of its chunk
    ([txp_generate_stream_frames]). *)
Definition stream_chunk (stream_id offset len : Z) (is_fin : bool) : QUIC_TXPIM_CHUNK :=
  mkChunk stream_id offset (u64 (u64 (offset + len) - 1)) is_fin false false.

(** The record of the STOP_SENDING and RESET_STREAM frames of a stream
    ([txp_pkt_commit]). *)
Definition abort_chunk (stream_id : Z) (sent_stop_sending sent_reset_stream : bool) : QUIC_TXPIM_CHUNK :=
  mkChunk stream_id UINT64_MAX 0 false sent_stop_sending sent_reset_stream.
End Fifd.
