(* ===== verification/FifdStreams.v ===== *)
(** * Stream data in flight

    What the turns of the loops of the dispatcher over chunks do to the send
    buffers: a chunk that is sent puts its bytes in flight, one that is
    acknowledged or lost takes them out of it, and no other byte is touched. *)
From Stdlib Require Import ZArith Lia.
From stdpp Require Import base tactics option gmap sorting.
From S2P Require Import Prelude UintSet RingBuf QuicWire SStream StreamMap StreamMapInv StreamMapSpec AckHist Ackm DList Cfq Txpim Fifd.
#[local] Open Scope Z_scope.
Import QuicWire(OSSL_QUIC_FRAME_TYPE_STOP_SENDING, OSSL_QUIC_FRAME_TYPE_MAX_STREAM_DATA).
Import AckHist Txpim Fifd StreamMapInv StreamMapSpec.

Module FifdStreams.

(** ** Send buffers *)
Section Buffers.
Import UintSet RingBuf SStream.

(** Marks on bytes in flight, when allocations succeed. *)
Lemma lost_exact d q lo hi : ss_ok d q -> 0 <= lo <= hi -> (forall k, lo <= k <= hi -> in_flight q k) ->
  exists s', ossl_quic_sstream_mark_lost true lo hi q = (Ret tt, set_new s' q) /\ ss_ok d (set_new s' q) /\
    forall k, mem k s' <-> mem k (new_set q) \/ lo <= k <= hi.
Proof.
  intros Hok Hlo Hfl. destruct (lost_ok d q true lo hi Hok Hlo Hfl) as (r & s' & E & _ & Hok' & _).
  pose proof Hok as [Hr Hh Hn Ha Hnin Hain Ht Htm Hd Hfin]. pose proof max_offset_val as Hmv. destruct (Hfl hi ltac:(lia)) as [Hhi _]. destruct Hr as [Hr1 Hr2 Hr3 Hr4 Hr5].
  unfold ossl_quic_sstream_mark_lost in E. destruct (insert_set true (new_set q) (mkRange lo hi)) as (ok & s1 & E1 & _ & Hm);
    [done|unfold range_ok; cbn; lia|intros v Hv; by apply Hfl|].
  rewrite E1 in E. injection E as Er Es. assert (s1 = s') as -> by (by destruct q). destruct ok; [|by destruct Hm].
  exists s'. split_and!; [unfold ossl_quic_sstream_mark_lost; by rewrite E1|done|]. exact Hm.
Qed.

Lemma acked_after alloc lo hi q r q' : ossl_quic_sstream_mark_acked alloc lo hi q = (r, q') ->
  acked_set q' = (ossl_uint_set_insert alloc (acked_set q) (mkRange lo hi)).2 /\ acked_final_size q' = acked_final_size q /\ sent_final_size q' = sent_final_size q.
Proof.
  unfold ossl_quic_sstream_mark_acked. rewrite (bind_ret get _ q q q) by done. destruct (ossl_uint_set_insert alloc (acked_set q) (mkRange lo hi)) as [ok s'].
  erewrite (bind_ret (put _)) by reflexivity. destruct ok; [rewrite guard_true by done|rewrite guard_false by done; by intros [= <- <-]].
  unfold qss_cull. rewrite (bind_ret get _ (set_acked s' q) _ _ eq_refl). destruct (head _) as [h|]; [|by intros [= <- <-]].
  unfold on_ring. destruct (RingBuf.ring_buf_cpop_range _ _ _ _) as [? ?]. by intros [= <- <-].
Qed.

Lemma acked_exact d q lo hi : ss_ok d q -> 0 <= lo <= hi -> (forall k, lo <= k <= hi -> in_flight q k) ->
  exists q', ossl_quic_sstream_mark_acked true lo hi q = (Ret tt, q') /\ ss_ok d q' /\ have_final_size q' = have_final_size q /\
    head_offset (ring q') = head_offset (ring q) /\ new_set q' = new_set q /\ forall k, mem k (acked_set q') <-> mem k (acked_set q) \/ lo <= k <= hi.
Proof.
  intros Hok Hlo Hfl. destruct (acked_ok d q true lo hi Hok Hlo Hfl) as (r & q' & E & Hr & Hok' & Hnew & Hh' & Hf & _ & Hs & _).
  destruct (acked_after _ _ _ _ _ _ E) as (Ha' & _ & _). pose proof Hok as [Hrb Hh Hn Ha Hnin Hain Ht Htm Hd Hfin]. pose proof max_offset_val as Hmv.
  destruct (Hfl hi ltac:(lia)) as [Hhi _]. pose proof Hrb as [Hr1 Hr2 Hr3 Hr4 Hr5].
  destruct (insert_set true (acked_set q) (mkRange lo hi)) as (ok & s1 & E1 & _ & Hm); [done|unfold range_ok; cbn; lia|intros v Hv; by apply Hfl|].
  destruct ok; [|by destruct Hm]. rewrite E1 in Ha'. cbn in Ha'. exists q'. split_and!; try done.
  - rewrite E. f_equal. unfold ossl_quic_sstream_mark_acked in E. rewrite (bind_ret get _ q q q), E1 in E by done. erewrite (bind_ret (put _)) in E by reflexivity.
    rewrite guard_true in E by done. destruct (cull_ok (set_acked s1 q)) as (r' & E' & _); try done.
    { cbn. rewrite <- Ha'. apply Hok'. } { cbn. intros k [Hk|Hk]%Hm; [by apply Hain|]. cbn in Hk. by destruct (Hfl k Hk). } { cbn. intros k Hk. apply Hm. left. by apply Ht. }
    rewrite E' in E. by injection E as <- _.
  - intros k. rewrite Ha'. exact (Hm k).
Qed.

(** What the FIN marks change. *)
Lemma ss_ok_final d q a b : ss_ok d q -> (b = true -> have_final_size q = true) -> ss_ok d (set_final (have_final_size q) a b q).
Proof. intros [] Hb. by split. Qed.
End Buffers.

(** ** Streams *)

(** A stream whose data has all been sent and acknowledged has been told so. *)
Definition settled (s : StreamMap.QUIC_STREAM) : Prop := StreamMap.send_state s = StreamMap.SSTREAM_DATA_SENT -> totally_acked s = false.

Record streams_ok (q : StreamMap.QUIC_STREAM_MAP) (cr : Ackm.per_space (option SStream.QUIC_SSTREAM)) : Prop := {
  st_inv : exists act acc gc, inv None act acc gc q;
  st_settled p s : StreamMap.heap q !! p = Some s -> settled s;
  st_ids i p : StreamMap.table q !! i = Some p -> i <> UINT64_MAX;
  st_crypto s ss : Ackm.sel cr s = Some ss -> exists d, SStream.ss_ok d ss
}.

(** The send buffer a chunk is about. *)
Inductive target := TStream (i : Z) | TCrypto (s : QUIC_PN_SPACE).
#[global] Instance target_eq : EqDecision target.
Proof. solve_decision. Defined.

Definition target_of (s : QUIC_PN_SPACE) (ch : QUIC_TXPIM_CHUNK) : target :=
  if stream_id ch =? UINT64_MAX then TCrypto s else TStream (stream_id ch).
Definition buffer (q : StreamMap.QUIC_STREAM_MAP) (cr : Ackm.per_space (option SStream.QUIC_SSTREAM)) (w : target) : option SStream.QUIC_SSTREAM :=
  match w with
  | TStream i => p ← StreamMap.table q !! i; s ← StreamMap.heap q !! p; StreamMap.sstream s
  | TCrypto s => Ackm.sel cr s
  end.

(** What happens to a buffer: [R], or it is freed. *)
Definition changes (R : SStream.QUIC_SSTREAM -> SStream.QUIC_SSTREAM -> Prop) (ss : SStream.QUIC_SSTREAM) (o : option SStream.QUIC_SSTREAM) : Prop :=
  o = None \/ exists ss', o = Some ss' /\ R ss ss'.

(** The bytes of a chunk; they leave those in flight, for those acknowledged or those
    to be sent, or join them.  A FIN that is acknowledged is so for good, and one that is
    lost is to be sent again, unless it has been acknowledged. *)
Definition bytes_of (ch : QUIC_TXPIM_CHUNK) (k : Z) : Prop := Fifd.has_data ch = true /\ start ch <= k <= end_ ch.
Inductive fate := IsAcked | IsLost.
Definition is_acked (f : fate) : bool := match f with IsAcked => true | IsLost => false end.
Definition ends_stream (ch : QUIC_TXPIM_CHUNK) : bool := has_fin ch && not_crypto ch.
Record fin_leaves (f : fate) (fin : bool) (ss ss' : SStream.QUIC_SSTREAM) : Prop := {
  fl_have : SStream.have_final_size ss' = SStream.have_final_size ss;
  fl_acked : SStream.acked_final_size ss' = SStream.acked_final_size ss || (is_acked f && fin && SStream.have_final_size ss);
  fl_sent : SStream.sent_final_size ss' = SStream.sent_final_size ss && negb (negb (is_acked f) && fin && negb (SStream.acked_final_size ss))
}.
Record bytes_leave (f : fate) (ch : QUIC_TXPIM_CHUNK) (ss ss' : SStream.QUIC_SSTREAM) : Prop := {
  lv_head : RingBuf.head_offset (SStream.ring ss') = RingBuf.head_offset (SStream.ring ss);
  lv_new k : UintSet.mem k (SStream.new_set ss') <-> UintSet.mem k (SStream.new_set ss) \/ f = IsLost /\ bytes_of ch k;
  lv_acked k : UintSet.mem k (SStream.acked_set ss') <-> UintSet.mem k (SStream.acked_set ss) \/ f = IsAcked /\ bytes_of ch k
}.
Record leave (f : fate) (ch : QUIC_TXPIM_CHUNK) (ss ss' : SStream.QUIC_SSTREAM) : Prop := {
  lv_bytes : bytes_leave f ch ss ss';
  lv_fin : fin_leaves f (ends_stream ch) ss ss'
}.
Definition join (ch : QUIC_TXPIM_CHUNK) (ss ss' : SStream.QUIC_SSTREAM) : Prop :=
  (forall k, SStream.in_flight ss' k <-> SStream.in_flight ss k \/ bytes_of ch k) /\
  forall k, UintSet.mem k (SStream.new_set ss') <-> UintSet.mem k (SStream.new_set ss) /\ ~ bytes_of ch k.

(** The stream [p] of [q0] in the middle of a turn: it is now [s]. *)
Record at_work (q0 : StreamMap.QUIC_STREAM_MAP) (p : nat) (s : StreamMap.QUIC_STREAM) (q : StreamMap.QUIC_STREAM_MAP) : Prop := {
  aw_at : exists act acc gc, at_ p s act acc gc q;
  aw_ok : stream_ok (StreamMap.is_server q) s;
  aw_frame : frame p q0 q
}.

Lemma work_start q cr p s : streams_ok q cr -> StreamMap.heap q !! p = Some s -> at_work q p s q.
Proof. intros [(act & acc & gc & Hi) _ _ _] Hp. destruct (inv_open _ _ _ _ _ _ Hi Hp). by split; [eauto|..]. Qed.

Lemma work_end q0 cr p s q : streams_ok q0 cr -> at_work q0 p s q -> settled s -> streams_ok q cr.
Proof.
  intros [_ H2 H3 H4] [(act & acc & gc & Ha) Hok Hf] Hs. split.
  - exists act, acc, gc. by eapply at_close.
  - intros p' s' Hp'. destruct (decide (p' = p)) as [->|Hne]; [rewrite (at_here _ _ _ _ _ _ Ha) in Hp'; by injection Hp' as <-|].
    rewrite (f_heap _ _ _ Hf) in Hp' by done. eauto.
  - rewrite (f_table _ _ _ Hf). exact H3.
  - exact H4.
Qed.

Lemma work_here q0 p s q : at_work q0 p s q -> StreamMap.heap q !! p = Some s.
Proof. intros [(act & acc & gc & Ha) _ _]. apply Ha. Qed.

(** The final size, which the rest of the stream's state depends on, is kept. *)
Definition same_final (ss ss' : SStream.QUIC_SSTREAM) : Prop := SStream.have_final_size ss' = SStream.have_final_size ss.

Lemma work_buffer q0 p s q ss ss' : at_work q0 p s q -> StreamMap.sstream s = Some ss -> (exists d, SStream.ss_ok d ss') -> same_final ss ss' ->
  at_work q0 p (StreamMap.set_sstream (Some ss') s)
    (StreamMap.set_heap (<[p := StreamMap.set_sstream (Some ss') s]> (StreamMap.heap q)) q).
Proof.
  intros [(act & acc & gc & Ha) Hok Hf] Hss Hd Hfin. set (s' := StreamMap.set_sstream (Some ss') s).
  assert (Hk : keeps s s') by apply keeps_sstream.
  pose proof (wp_upd_at p (fun _ => s') q s act acc gc (fun _ q' => at_ p s' act acc gc q' /\ frame p q q') (fun _ => False) Ha Hk (fun q' H1 H2 => conj H1 H2)) as Hw.
  unfold wp, StreamMap.upd, StreamMap.deref in Hw. unfold mbind, M_bind in Hw. rewrite (at_here _ _ _ _ _ _ Ha) in Hw. cbn in Hw. destruct Hw as [Ha' Hf'].
  split; [eauto| |by transitivity q]. rewrite (f_server _ _ _ Hf'). destruct Hok. split; cbn; try done.
  - by rewrite Hss in so_sstream0.
  - intros x [= <-]. done.
  - intros Hdel. specialize (so_deleted0 Hdel). destruct (StreamMap.send_state s); try done. destruct so_deleted0 as (x & n & Hx & Hn). rewrite Hss in Hx. injection Hx as <-.
    exists ss'. unfold SStream.ossl_quic_sstream_get_final_size in *. rewrite Hfin. destruct (SStream.have_final_size ss); [eauto|done].
Qed.

Lemma after_gc_sstream s : StreamMap.sstream (after_gc s) = StreamMap.sstream s /\ StreamMap.send_state (after_gc s) = StreamMap.send_state s.
Proof. unfold after_gc. by destruct (StreamMap.ready_for_gc s). Qed.

Lemma updated_settled q p s : settled (updated q p s).
Proof.
  unfold settled, updated, totally_acked. cbn. destruct (after_gc_sstream (after_acked s)) as [-> ->]. unfold after_acked.
  destruct (StreamMap.send_state s) eqn:E; try (rewrite E; done); destruct (totally_acked s) eqn:Et; try done.
  - by destruct (StreamMap.shutdown_flush s); cbn; rewrite ?E.
  - by destruct (StreamMap.shutdown_flush s); cbn; rewrite ?E.
Qed.

Lemma updated_sstream q p s : StreamMap.sstream (updated q p s) = StreamMap.sstream s \/ StreamMap.sstream (updated q p s) = None.
Proof.
  unfold updated. cbn. destruct (after_gc_sstream (after_acked s)) as [-> _]. unfold after_acked.
  destruct (StreamMap.send_state s); try (by left); destruct (totally_acked s); try (by left); [destruct (StreamMap.shutdown_flush s); by left| |].
  - destruct (StreamMap.shutdown_flush s); by left.
  - by right.
Qed.

Lemma updated_keeps q p s : settled s -> StreamMap.sstream (updated q p s) = StreamMap.sstream s.
Proof.
  intros Hs. unfold updated. cbn. destruct (after_gc_sstream (after_acked s)) as [-> _]. unfold after_acked, settled in *.
  destruct (StreamMap.send_state s); try done; [by destruct (_ && _)|]. by rewrite Hs.
Qed.

Lemma work_update q0 p s q : at_work q0 p s q -> wp (StreamMap.ossl_quic_stream_map_update_state p) q (fun _ q' => at_work q0 p (updated q p s) q') (fun _ => False).
Proof.
  intros [(act & acc & gc & Ha) Hok Hf]. eapply wp_update_state; [done|done|]. intros q' act' gc' Ha' Hf'. split; [eauto| |by transitivity q].
  rewrite (f_server _ _ _ Hf'). by apply updated_ok.
Qed.

(** An assignment to a field, and an update. *)
Lemma work_upd q0 p s q f : at_work q0 p s q -> keeps s (f s) -> (forall b, stream_ok b s -> stream_ok b (f s)) ->
  wp (StreamMap.upd p f) q (fun _ q' => at_work q0 p (f s) q') (fun _ => False).
Proof.
  intros [(act & acc & gc & Ha) Hok Hf] Hk Hs. eapply wp_upd_at; [done|done|]. intros q' Ha' Hf'. split; [eauto| |by transitivity q].
  rewrite (f_server _ _ _ Hf'). by apply Hs.
Qed.

Lemma wp_then {S A} (m1 m2 : M S unit) (k : M S A) s (P : S -> Prop) (Q : A -> S -> Prop) (E0 E : S -> Prop) :
  wp (m1;; m2) s (fun _ => P) E0 -> (forall s', P s' -> wp k s' Q E) -> (forall s', E0 s' -> E s') -> wp (m1;; m2;; k) s Q E.
Proof.
  unfold wp, mbind, M_bind. intros Hm Hk HE. destruct (m1 s) as [[] s1]; [|by apply HE|done]. destruct (m2 s1) as [[] s2]; [by apply Hk|by apply HE|done].
Qed.

Section Turns.
Context {CC : Type} `{!Qsort}.
Abbreviation C := (conn CC).

Lemma wp_zoom_qsm {A} (m : M StreamMap.QUIC_STREAM_MAP A) (c : C) q Q E :
  wp m q (fun a q' => Q a (set_qsm q' c)) (fun q' => E (set_qsm q' c)) -> wp (on_qsm m) (set_qsm q c) Q E.
Proof. unfold wp, on_qsm, zoom. cbn. by destruct (m q) as [[] ?]. Qed.

Lemma find_stream i spn p s (c : C) q : i <> UINT64_MAX -> StreamMap.table q !! i = Some p -> StreamMap.heap q !! p = Some s ->
  get_sstream_by_id i spn (set_qsm q c) = (Ret (if is_null (StreamMap.sstream s) then None else Some (InStream p)), set_qsm q c).
Proof.
  intros Hi Ht Hp. unfold get_sstream_by_id. rewrite (bind_ret get _ _ _ _ eq_refl). replace (i =? UINT64_MAX) with false by (symmetry; by apply Z.eqb_neq).
  cbn [qsm set_qsm]. unfold StreamMap.ossl_quic_stream_map_get_by_id. rewrite Ht. unfold on_qsm, zoom, StreamMap.deref. unfold mbind, M_bind. cbn. by rewrite Hp.
Qed.

Lemma find_no_stream i spn (c : C) q : i <> UINT64_MAX -> StreamMap.table q !! i = None -> get_sstream_by_id i spn (set_qsm q c) = (Ret None, set_qsm q c).
Proof.
  intros Hi Ht. unfold get_sstream_by_id. rewrite (bind_ret get _ _ _ _ eq_refl). replace (i =? UINT64_MAX) with false by (symmetry; by apply Z.eqb_neq).
  cbn [qsm set_qsm]. unfold StreamMap.ossl_quic_stream_map_get_by_id. by rewrite Ht.
Qed.

Lemma at_stream {A} p s ss ss' r (m : M SStream.QUIC_SSTREAM A) (c : C) q : StreamMap.heap q !! p = Some s -> StreamMap.sstream s = Some ss -> m ss = (r, ss') ->
  at_place (InStream p) m (set_qsm q c) =
    (r, set_qsm (StreamMap.set_heap (<[p := StreamMap.set_sstream (Some ss') s]> (StreamMap.heap q)) q) c).
Proof.
  intros Hp Hss Hm. unfold at_place, on_qsm, zoom, StreamMap.deref. unfold mbind, M_bind. cbn. rewrite Hp. rewrite Hss, Hm. done.
Qed.

Lemma wp_ignore {S A} (m : M S A) s (P : S -> Prop) : wp m s (fun _ => P) P -> wp (ignore m) s (fun _ => P) (fun _ => False).
Proof. unfold wp, ignore, StreamMap.try_. unfold mbind, M_bind. by destruct (m s) as [[] ?]. Qed.

Lemma wp_with_stream i p f (c : C) q Q E : StreamMap.table q !! i = Some p -> wp (f p) q (fun a q' => Q a (set_qsm q' c)) (fun q' => E (set_qsm q' c)) ->
  wp (with_stream i f) (set_qsm q c) Q E.
Proof.
  intros Ht Hw. unfold with_stream. apply wp_bind, wp_get. cbn. unfold StreamMap.ossl_quic_stream_map_get_by_id. rewrite Ht. by apply wp_zoom_qsm.
Qed.

(** Working on the buffer of the stream. *)
Lemma work_place {A} q0 p s ss q (c : C) (m : M SStream.QUIC_SSTREAM A) r ss' : at_work q0 p s q -> StreamMap.sstream s = Some ss -> m ss = (r, ss') ->
  (exists d, SStream.ss_ok d ss') -> same_final ss ss' -> exists q', at_place (InStream p) m (set_qsm q c) = (r, set_qsm q' c) /\ at_work q0 p (StreamMap.set_sstream (Some ss') s) q'.
Proof.
  intros Hw Hss Hm Hd Hf. eexists. split; [apply (at_stream p s ss ss'); [by eapply work_here|done|done]|]. by eapply work_buffer.
Qed.

Lemma leave_flight f ch ss ss' k : leave f ch ss ss' -> SStream.in_flight ss' k <-> SStream.in_flight ss k /\ ~ bytes_of ch k.
Proof. intros [[Hh Hn Ha] _]. unfold SStream.in_flight. rewrite Hh, Hn, Ha. assert (H1 : IsAcked <> IsLost) by done. assert (H2 : IsLost <> IsAcked) by done.
  assert (H3 : IsLost = IsLost) by done. assert (H4 : IsAcked = IsAcked) by done. destruct f; tauto.
Qed.

Lemma leave_nothing f ch ss : Fifd.has_data ch = false -> bytes_leave f ch ss ss.
Proof. intros Hd. split; [done|..]; intros k; unfold bytes_of; rewrite Hd; split; [by left|by intros [|(_ & ? & _)]|by left|by intros [|(_ & ? & _)]]. Qed.
Lemma no_fin_leaves f ss ss' : SStream.have_final_size ss' = SStream.have_final_size ss -> SStream.acked_final_size ss' = SStream.acked_final_size ss ->
  SStream.sent_final_size ss' = SStream.sent_final_size ss -> fin_leaves f false ss ss'.
Proof. intros E1 E2 E3. split; rewrite ?E1, ?E2, ?E3, ?andb_false_r; cbn; by rewrite ?orb_false_r, ?andb_true_r. Qed.

(** Marks that move no byte, and marks of bytes. *)
Record fin_mark (f : fate) (fin : bool) (ss ss' : SStream.QUIC_SSTREAM) : Prop := {
  fm_head : RingBuf.head_offset (SStream.ring ss') = RingBuf.head_offset (SStream.ring ss);
  fm_new : SStream.new_set ss' = SStream.new_set ss;
  fm_acked : SStream.acked_set ss' = SStream.acked_set ss;
  fm_fin : fin_leaves f fin ss ss'
}.
Record byte_mark (f : fate) (ch : QUIC_TXPIM_CHUNK) (ss ss' : SStream.QUIC_SSTREAM) : Prop := {
  bm_bytes : bytes_leave f ch ss ss';
  bm_have : SStream.have_final_size ss' = SStream.have_final_size ss;
  bm_acked : SStream.acked_final_size ss' = SStream.acked_final_size ss;
  bm_sent : SStream.sent_final_size ss' = SStream.sent_final_size ss
}.

Lemma byte_mark_nothing f ch ss : Fifd.has_data ch = false -> byte_mark f ch ss ss.
Proof. intros Hd. by split; [apply leave_nothing|..]. Qed.
Lemma byte_mark_leaves f ch ss ss' : byte_mark f ch ss ss' -> ends_stream ch = false -> leave f ch ss ss'.
Proof. intros [H1 H2 H3 H4] E. split; [done|]. rewrite E. by apply no_fin_leaves. Qed.
Lemma marks_leave f ch ss ss1 ss2 : byte_mark f ch ss ss1 -> fin_mark f (ends_stream ch) ss1 ss2 -> leave f ch ss ss2.
Proof.
  intros [[H1 H2 H3] B2 B3 B4] [E1 E2 E3 [F1 F2 F3]]. split; [split; [congruence|intros k; by rewrite E2|intros k; by rewrite E3]|].
  rewrite B2 in F1, F2. rewrite B3 in F2, F3. rewrite B4 in F3. by split.
Qed.

(** A mark with the effect [R]; it may fail, but not go wrong. *)
Definition marked (R : SStream.QUIC_SSTREAM -> SStream.QUIC_SSTREAM -> Prop) (ss ss' : SStream.QUIC_SSTREAM) : Prop :=
  (exists d, SStream.ss_ok d ss') /\ same_final ss ss' /\ R ss ss'.
Definition mark_ok (m : M SStream.QUIC_SSTREAM unit) (R : SStream.QUIC_SSTREAM -> SStream.QUIC_SSTREAM -> Prop) (ss : SStream.QUIC_SSTREAM) : Prop :=
  wp m ss (fun _ => marked R ss) (marked R ss).

Lemma wp_mark_stream q0 p s ss q (c : C) m R : at_work q0 p s q -> StreamMap.sstream s = Some ss -> mark_ok m R ss ->
  wp (ignore (at_place (InStream p) m)) (set_qsm q c) (fun _ c' => exists q' ss', c' = set_qsm q' c /\ at_work q0 p (StreamMap.set_sstream (Some ss') s) q' /\
    R ss ss') (fun _ => False).
Proof.
  intros Hw Hss Hm. apply wp_ignore. unfold mark_ok, wp in Hm. destruct (m ss) as [r ss'] eqn:E. unfold wp.
  assert (Hall : r <> Undef /\ marked R ss ss') by (by destruct r).
  destruct Hall as (Hr & Hd & Hf & Hk). destruct (work_place q0 p s ss q c m r ss' Hw Hss E Hd Hf) as (q' & -> & Hw'). destruct r; [exists q', ss'; done..|done].
Qed.

(** The marks at the beginning of a turn. *)
Lemma wp_marks f q0 p s ss q (c : C) ch (b : bool) m1 m2 : at_work q0 p s q -> StreamMap.sstream s = Some ss ->
  (Fifd.has_data ch = true -> mark_ok m1 (byte_mark f ch) ss) -> b = ends_stream ch -> (forall ss1, (exists d, SStream.ss_ok d ss1) -> mark_ok m2 (fin_mark f true) ss1) ->
  wp (when_ (Fifd.has_data ch) (ignore (at_place (InStream p) m1));; when_ b (ignore (at_place (InStream p) m2))) (set_qsm q c)
    (fun _ c' => exists q' s' ss', c' = set_qsm q' c /\ at_work q0 p s' q' /\ StreamMap.sstream s' = Some ss' /\ (Fifd.has_data ch = false -> b = false -> s' = s) /\
       leave f ch ss ss') (fun _ => False).
Proof.
  intros Hw Hss H1 Eb H2.
  assert (Ha : wp (when_ (Fifd.has_data ch) (ignore (at_place (InStream p) m1))) (set_qsm q c)
    (fun _ c' => exists q' s' ss', c' = set_qsm q' c /\ at_work q0 p s' q' /\ StreamMap.sstream s' = Some ss' /\ (Fifd.has_data ch = false -> s' = s) /\
       byte_mark f ch ss ss') (fun _ => False)).
  { unfold when_. destruct (Fifd.has_data ch) eqn:Eh.
    - eapply wp_mono; [apply (wp_mark_stream q0 p s ss q c m1 (byte_mark f ch)); auto| |done]. intros _ c' (q' & ss' & -> & Hw' & Hk). eexists q', _, ss'. split_and!; try done.
    - apply wp_ret. exists q, s, ss. split_and!; try done. by apply byte_mark_nothing. }
  apply wp_bind. eapply wp_mono; [exact Ha| |done]. intros _ c' (q1 & s1 & ss1 & -> & Hw1 & Hss1 & Hsame & Hk1). unfold when_. destruct b.
  - eapply wp_mono; [apply (wp_mark_stream q0 p s1 ss1 q1 c m2 (fin_mark f true)); [done|done|]| |done].
    + apply H2. exact (so_buf _ _ (aw_ok _ _ _ _ Hw1) ss1 Hss1).
    + intros _ c' (q' & ss' & -> & Hw' & Hk). eexists q', _, ss'. split_and!; try done. eapply marks_leave; [done|]. by rewrite <- Eb.
  - apply wp_ret. exists q1, s1, ss1. split_and!; try done; [intros; by apply Hsame|by apply byte_mark_leaves].
Qed.

(** The marks of the loops. *)
Lemma mark_acked_ok d ss ch : SStream.ss_ok d ss -> Fifd.has_data ch = true -> 0 <= start ch -> (forall k, bytes_of ch k -> SStream.in_flight ss k) ->
  mark_ok (SStream.ossl_quic_sstream_mark_acked true (start ch) (end_ ch)) (byte_mark IsAcked ch) ss.
Proof.
  intros Hok Hd Hs Hf. pose proof Hd as Hle%Z.leb_le. destruct (acked_exact d ss (start ch) (end_ ch) Hok) as (q' & E & Hok' & Hfin & Hh & Hn & Hk); [lia|intros k Hk; by apply Hf|].
  destruct (acked_after _ _ _ _ _ _ E) as (_ & Ea & Es). unfold mark_ok. eapply wp_eq; [exact E|]. split_and!; [eauto|done|]. split; [|done..]. split; [done|intros k; rewrite Hn; by intuition|intros k; rewrite Hk; unfold bytes_of; tauto].
Qed.
Lemma mark_lost_ok d ss ch : SStream.ss_ok d ss -> Fifd.has_data ch = true -> 0 <= start ch -> (forall k, bytes_of ch k -> SStream.in_flight ss k) ->
  mark_ok (SStream.ossl_quic_sstream_mark_lost true (start ch) (end_ ch)) (byte_mark IsLost ch) ss.
Proof.
  intros Hok Hd Hs Hf. pose proof Hd as Hle%Z.leb_le. destruct (lost_exact d ss (start ch) (end_ ch) Hok) as (q' & E & Hok' & Hk); [lia|intros k Hk; by apply Hf|].
  unfold mark_ok. eapply wp_eq; [exact E|]. split_and!; [eauto|done|]. split; [|done..]. split; [done|intros k; cbn; rewrite Hk; unfold bytes_of; tauto|intros k; by intuition].
Qed.
Lemma mark_acked_fin_ok ss : (exists d, SStream.ss_ok d ss) -> mark_ok SStream.ossl_quic_sstream_mark_acked_fin (fin_mark IsAcked true) ss.
Proof.
  intros [d Hok]. unfold mark_ok, SStream.ossl_quic_sstream_mark_acked_fin. apply wp_bind, wp_get, wp_bind, wp_guard; intros Hb.
  - eapply wp_eq; [reflexivity|]. split_and!; [exists d; by apply ss_ok_final|done|]. split; [done..|]. split; cbn; rewrite ?Hb, ?orb_true_r, ?andb_true_r; done.
  - split_and!; [eauto|done|]. split; [done..|]. split; cbn; rewrite ?Hb, ?orb_false_r, ?andb_true_r; done.
Qed.
Lemma mark_lost_fin_ok ss : (exists d, SStream.ss_ok d ss) -> mark_ok SStream.ossl_quic_sstream_mark_lost_fin (fin_mark IsLost true) ss.
Proof.
  intros [d Hok]. unfold mark_ok, SStream.ossl_quic_sstream_mark_lost_fin. apply wp_bind, wp_get, wp_bind, wp_guard; intros Hb.
  - eapply wp_eq; [reflexivity|]. split_and!; [exists d; apply ss_ok_final; [done|apply Hok]|done|]. split; [done..|]. split; cbn; rewrite ?Hb, ?orb_false_r, ?andb_false_r; done.
  - apply negb_false_iff in Hb. split_and!; [eauto|done|]. split; [done..|]. split; cbn; rewrite ?Hb, ?orb_false_r, ?andb_true_r; done.
Qed.

(** What a turn of a loop does to the stream [p], whose buffer was [ss]. *)
Definition stream_turn (p : nat) (R : SStream.QUIC_SSTREAM -> SStream.QUIC_SSTREAM -> Prop) (q0 : StreamMap.QUIC_STREAM_MAP) (cr : Ackm.per_space (option SStream.QUIC_SSTREAM))
    (ss : SStream.QUIC_SSTREAM) (q' : StreamMap.QUIC_STREAM_MAP) : Prop :=
  streams_ok q' cr /\ frame p q0 q' /\ exists s', StreamMap.heap q' !! p = Some s' /\ changes R ss (StreamMap.sstream s').

Lemma turn_end p R q0 cr ss s ss1 q : streams_ok q0 cr -> at_work q0 p s q -> settled s ->
  R ss ss1 -> StreamMap.sstream s = Some ss1 \/ StreamMap.sstream s = None -> stream_turn p R q0 cr ss q.
Proof.
  intros Hst Hw Hs Hk Ho. split; [by eapply work_end|]. split; [apply Hw|]. exists s. split; [by eapply work_here|].
  destruct Ho as [->| ->]; [right; eauto|by left].
Qed.

(** Chunks are of stream data or of STOP_SENDING and RESET_STREAM frames, and a
    stream that was reset has no buffer any more. *)
Definition shape_ok (ch : QUIC_TXPIM_CHUNK) : Prop :=
  0 <= start ch /\ (has_stop_sending ch = true \/ has_reset_stream ch = true -> Fifd.has_data ch = false /\ has_fin ch = false).

Lemma keeps_field s s' : StreamMap.id s' = StreamMap.id s -> StreamMap.type s' = StreamMap.type s -> StreamMap.active s' = StreamMap.active s ->
  StreamMap.ready_for_gc s' = StreamMap.ready_for_gc s -> StreamMap.shutdown_flush s' = StreamMap.shutdown_flush s -> StreamMap.rstream s' = StreamMap.rstream s -> keeps s s'.
Proof. intros ? ? ? ? ? Hr. split; try done. intros k. unfold held_refs. by rewrite Hr. Qed.

Lemma not_crypto_id ch : not_crypto ch = true -> stream_id ch <> UINT64_MAX.
Proof. unfold not_crypto. by intros ?%negb_true_iff%Z.eqb_neq. Qed.

Lemma acked_stream_turn al pkt spn i ch (c : C) q cr p s ss : streams_ok q cr -> StreamMap.table q !! stream_id ch = Some p -> StreamMap.heap q !! p = Some s ->
  StreamMap.sstream s = Some ss -> al i = true -> shape_ok ch -> has_reset_stream ch = false -> (forall k, bytes_of ch k -> SStream.in_flight ss k) ->
  wp (acked_chunk al pkt spn i ch) (set_qsm q c) (fun _ c' => exists q', c' = set_qsm q' c /\ stream_turn p (leave IsAcked ch) q cr ss q') (fun _ => False).
Proof.
  intros Hst Ht Hp Hss Hal [Hpos Hshape] Hrs Hfl. pose proof (st_ids _ _ Hst _ _ Ht) as Hid. pose proof (work_start _ _ _ _ Hst Hp) as Hw.
  destruct (so_buf _ _ (aw_ok _ _ _ _ Hw) ss Hss) as [d Hd]. unfold acked_chunk. apply wp_bind. eapply wp_eq; [by apply (find_stream _ _ p s)|]. rewrite Hss. cbn [is_null].
  assert (Hnc : not_crypto ch = true) by (unfold not_crypto; by apply negb_true_iff, Z.eqb_neq). rewrite Hnc, Hrs, !andb_true_r. cbn [andb].
  eapply wp_then; [apply (wp_marks IsAcked q p s ss q c ch (has_fin ch)); [done|done| |by unfold ends_stream; rewrite Hnc, andb_true_r|exact mark_acked_fin_ok]| |done].
  { rewrite Hal. intros Hhd. by eapply mark_acked_ok. }
  intros c1 (q1 & s1 & ss1 & -> & Hw1 & Hss1 & Hsame & Hk1). apply wp_bind.
  assert (Hstop : wp (when_ (has_stop_sending ch) (on_confirm_notify OSSL_QUIC_FRAME_TYPE_STOP_SENDING (stream_id ch) pkt)) (set_qsm q1 c)
    (fun _ c' => exists q' s', c' = set_qsm q' c /\ at_work q p s' q' /\ StreamMap.sstream s' = Some ss1) (fun _ => False)).
  { unfold when_. destruct (has_stop_sending ch) eqn:Eh; [|apply wp_ret; eauto]. destruct Hshape as [Hhd Hhf]; [by left|].
    assert (Es : s1 = s) by (by apply Hsame). subst s1. rewrite Hss in Hss1. injection Hss1 as <-.
    eapply (wp_with_stream _ p); [rewrite (f_table _ _ _ (aw_frame _ _ _ _ Hw1)); done|]. apply wp_bind.
    eapply wp_mono; [apply (work_upd q p s q1 _ Hw1); [by apply keeps_field|intros b Hok; by sok]| |done]. intros [] q2 Hw2.
    eapply wp_mono; [exact (work_update _ _ _ _ Hw2)| |done]. intros [] q3 Hw3. eexists q3, _. split_and!; try done.
    rewrite updated_keeps; [done|]. exact (st_settled _ _ Hst p s Hp). }
  eapply wp_mono; [exact Hstop| |done]. intros [] c2 (q2 & s2 & -> & Hw2 & Hss2). apply wp_bind, wp_ret, wp_bind.
  destruct (so_buf _ _ (aw_ok _ _ _ _ Hw2) ss1 Hss2) as [d2 Hd2]. destruct (SStream.totally_acked_ok d2 ss1 Hd2) as (b & Eb & _).
  destruct (work_place q p s2 ss1 q2 c (fun ss => (SStream.ossl_quic_sstream_is_totally_acked ss, ss)) (Ret b) ss1 Hw2 Hss2) as (q3 & E3 & Hw3); [by rewrite Eb|eauto|done|].
  eapply wp_eq; [exact E3|]. unfold when_. destruct b.
  - eapply (wp_with_stream _ p); [rewrite (f_table _ _ _ (aw_frame _ _ _ _ Hw3)); done|]. eapply wp_mono; [exact (work_update _ _ _ _ Hw3)| |done].
    intros [] q4 Hw4. exists q4. split; [done|]. eapply turn_end; [done|done|apply updated_settled|done|]. apply updated_sstream.
  - apply wp_ret. exists q3. split; [done|]. eapply turn_end; [done|done| |done|by left]. unfold settled, totally_acked. cbn. by rewrite Eb.
Qed.

Lemma scheduled_sstream q p s : StreamMap.sstream (scheduled q p s) = StreamMap.sstream s \/ StreamMap.sstream (scheduled q p s) = None.
Proof.
  unfold scheduled. destruct (StreamMap.want_stop_sending s); [by left|].
  destruct (StreamMap.recv_state s); try (by left); exact (updated_sstream q p (StreamMap.set_want_stop_sending true s)).
Qed.

Lemma work_schedule q0 p s q : at_work q0 p s q -> wp (ignore (StreamMap.ossl_quic_stream_map_schedule_stop_sending p)) q
  (fun _ q' => exists s', at_work q0 p s' q' /\ (StreamMap.sstream s' = StreamMap.sstream s \/ StreamMap.sstream s' = None)) (fun _ => False).
Proof.
  intros Hw. pose proof Hw as [(act & acc & gc & Ha) Hok Hf]. apply wp_ignore. eapply wp_mono; [exact (schedule_ok p acc act gc q s Ha Hok)| |].
  - intros [] q' (s' & Htr & act' & gc' & Ha' & Hok' & Hf'). cbn in Htr. destruct (StreamMap.stop_sending s); [|done]. injection Htr as <-. exists (scheduled q p s).
    split; [split; [eauto|done|by transitivity q]|]. apply scheduled_sstream.
  - intros q' [-> _]. exists s. split; [done|by left].
Qed.

Lemma lost_stream_turn al pkt spn i ch (c : C) q cr p s ss : streams_ok q cr -> StreamMap.table q !! stream_id ch = Some p -> StreamMap.heap q !! p = Some s ->
  StreamMap.sstream s = Some ss -> al i = true -> shape_ok ch -> has_reset_stream ch = false -> (forall k, bytes_of ch k -> SStream.in_flight ss k) ->
  wp (lost_chunk al pkt spn i ch) (set_qsm q c) (fun _ c' => exists q', c' = set_qsm q' c /\ stream_turn p (leave IsLost ch) q cr ss q') (fun _ => False).
Proof.
  intros Hst Ht Hp Hss Hal [Hpos Hshape] Hrs Hfl. pose proof (st_ids _ _ Hst _ _ Ht) as Hid. pose proof (work_start _ _ _ _ Hst Hp) as Hw.
  destruct (so_buf _ _ (aw_ok _ _ _ _ Hw) ss Hss) as [d Hd]. unfold lost_chunk. apply wp_bind. eapply wp_eq; [by apply (find_stream _ _ p s)|]. rewrite Hss. cbn [is_null].
  assert (Hnc : not_crypto ch = true) by (unfold not_crypto; by apply negb_true_iff, Z.eqb_neq). rewrite Hnc, Hrs, !andb_true_r. cbn [andb].
  eapply wp_then; [apply (wp_marks IsLost q p s ss q c ch (has_fin ch)); [done|done| |by unfold ends_stream; rewrite Hnc, andb_true_r|exact mark_lost_fin_ok]| |done].
  { rewrite Hal. intros Hhd. by eapply mark_lost_ok. }
  intros c1 (q1 & s1 & ss1 & -> & Hw1 & Hss1 & _ & Hk1). apply wp_bind.
  assert (Hstop : wp (when_ (has_stop_sending ch) (on_regen_notify OSSL_QUIC_FRAME_TYPE_STOP_SENDING (stream_id ch) pkt)) (set_qsm q1 c)
    (fun _ c' => exists q' s', c' = set_qsm q' c /\ at_work q p s' q' /\ (StreamMap.sstream s' = Some ss1 \/ StreamMap.sstream s' = None)) (fun _ => False)).
  { unfold when_. destruct (has_stop_sending ch); [|apply wp_ret; eauto 6].
    eapply (wp_with_stream _ p); [rewrite (f_table _ _ _ (aw_frame _ _ _ _ Hw1)); done|]. eapply wp_mono; [exact (work_schedule _ _ _ _ Hw1)| |done].
    intros [] q2 (s2 & Hw2 & Hs2). rewrite Hss1 in Hs2. eauto. }
  eapply wp_mono; [exact Hstop| |done]. intros [] c2 (q2 & s2 & -> & Hw2 & Hss2). apply wp_bind, wp_ret, wp_bind.
  eapply (wp_with_stream _ p); [rewrite (f_table _ _ _ (aw_frame _ _ _ _ Hw2)); done|]. apply wp_bind.
  eapply wp_mono; [apply (work_upd q p s2 q2 _ Hw2); [by apply keeps_field|intros b Hok; by sok]| |done]. intros [] q3 Hw3.
  eapply wp_mono; [exact (work_update _ _ _ _ Hw3)| |done]. intros [] q4 Hw4.
  set (s4 := updated q3 p (StreamMap.set_want_max_stream_data true s2)) in *.
  assert (Hss4 : StreamMap.sstream s4 = Some ss1 \/ StreamMap.sstream s4 = None) by (unfold s4; destruct (updated_sstream q3 p (StreamMap.set_want_max_stream_data true s2)) as [E|E]; rewrite E; [exact Hss2|by right]).
  unfold when_. destruct (Fifd.has_data ch || has_fin ch).
  - eapply (wp_with_stream _ p); [rewrite (f_table _ _ _ (aw_frame _ _ _ _ Hw4)); done|]. eapply wp_mono; [exact (work_update _ _ _ _ Hw4)| |done].
    intros [] q5 Hw5. exists q5. split; [done|]. eapply turn_end; [done|done|apply updated_settled|done|]. destruct (updated_sstream q4 p s4) as [E|E]; [by rewrite E|by right].
  - apply wp_ret. exists q4. split; [done|]. eapply turn_end; [done|done|apply updated_settled|done|done].
Qed.

(** What a turn does to the buffers of the connection. *)
Record turned (w : target) (R : SStream.QUIC_SSTREAM -> SStream.QUIC_SSTREAM -> Prop) (q : StreamMap.QUIC_STREAM_MAP) (cr : Ackm.per_space (option SStream.QUIC_SSTREAM))
    (q' : StreamMap.QUIC_STREAM_MAP) (cr' : Ackm.per_space (option SStream.QUIC_SSTREAM)) : Prop := {
  tu_ok : streams_ok q' cr';
  tu_other w' : w' <> w -> buffer q' cr' w' = buffer q cr w';
  tu_here : match buffer q cr w with None => buffer q' cr' w = None | Some ss => changes R ss (buffer q' cr' w) end
}.

Lemma turned_none w R q cr : streams_ok q cr -> buffer q cr w = None -> turned w R q cr q cr.
Proof. intros Hst Hb. split; [done|done|]. by rewrite Hb. Qed.

Lemma turned_stream p i R q cr s ss q' : StreamMap.table q !! i = Some p -> StreamMap.heap q !! p = Some s -> StreamMap.sstream s = Some ss ->
  streams_ok q cr -> stream_turn p R q cr ss q' -> turned (TStream i) R q cr q' cr.
Proof.
  intros Ht Hp Hss [(act & acc & gc & Hi) _ _ _] (Hst' & Hf & s' & Hp' & Hl). pose proof (l_table _ _ _ _ (i_links _ _ _ _ _ Hi)) as Hid. split; [done| |].
  - intros [j|sp] Hw; [|done]. cbn. rewrite (f_table _ _ _ Hf). destruct (StreamMap.table q !! j) as [p'|] eqn:Ej; [|done]. cbn. rewrite (f_heap _ _ _ Hf); [done|].
    intros ->. destruct (Hid _ _ Ej) as (s1 & H1 & <-). destruct (Hid _ _ Ht) as (s2 & H2 & <-). simplify_eq.
  - cbn. rewrite Ht. cbn. rewrite Hp. cbn. rewrite Hss, (f_table _ _ _ Hf), Ht. cbn. rewrite Hp'. done.
Qed.

Lemma sel_set_here {A} (v : Ackm.per_space A) s x s' : Ackm.sel (Ackm.alter_at s (fun _ => x) v) s' = if decide (s' = s) then x else Ackm.sel v s'.
Proof. by destruct s, s'. Qed.

Lemma turned_crypto s R q cr ss ss' : streams_ok q cr -> Ackm.sel cr s = Some ss -> (exists d, SStream.ss_ok d ss') ->
  R ss ss' -> turned (TCrypto s) R q cr q (Ackm.alter_at s (fun _ => Some ss') cr).
Proof.
  intros [H1 H2 H3 H4] Hs Hd Hk. split.
  - split; try done. intros s1 x. rewrite sel_set_here. case_decide; [by intros [= <-]|apply H4].
  - intros [j|s1] Hw; [done|]. cbn. rewrite sel_set_here, decide_False; [done|]. by intros ->.
  - cbn. rewrite Hs, sel_set_here, decide_True by done. right. eauto.
Qed.

Lemma crypto_ids q cr : streams_ok q cr -> StreamMap.table q !! UINT64_MAX = None.
Proof. intros Hst. destruct (StreamMap.table q !! UINT64_MAX) as [p|] eqn:E; [|done]. by apply (st_ids _ _ Hst) in E. Qed.

Lemma wp_no_stream i f (c : C) Q E : StreamMap.table (qsm c) !! i = None -> Q tt c -> wp (with_stream i f) c Q E.
Proof. intros Ht HQ. unfold with_stream. apply wp_bind, wp_get. unfold StreamMap.ossl_quic_stream_map_get_by_id. by rewrite Ht. Qed.

Lemma find_crypto spn (c : C) : get_sstream_by_id UINT64_MAX spn c = (Ret (if is_null (Ackm.sel (crypto c) spn) then None else Some (InCrypto spn)), c).
Proof. unfold get_sstream_by_id. by rewrite (bind_ret get _ _ _ _ eq_refl). Qed.

(** A mark on the buffer of a CRYPTO stream. *)
Lemma wp_mark_crypto f spn (c : C) ss ch m (b : bool) : streams_ok (qsm c) (crypto c) -> Ackm.sel (crypto c) spn = Some ss -> (b = true -> mark_ok m (byte_mark f ch) ss) ->
  (b = false -> Fifd.has_data ch = false) -> ends_stream ch = false ->
  wp (when_ b (ignore (at_place (InCrypto spn) m))) c (fun _ c' => exists cr' ss', c' = set_crypto cr' c /\
    turned (TCrypto spn) (leave f ch) (qsm c) (crypto c) (qsm c) cr' /\ Ackm.sel cr' spn = Some ss' /\ exists d, SStream.ss_ok d ss') (fun _ => False).
Proof.
  intros Hst Hs Hm Hb He. unfold when_. destruct b.
  - specialize (Hm eq_refl). apply wp_ignore. unfold at_place. unfold mark_ok, wp in *. rewrite Hs. destruct (m ss) as [r ss'] eqn:E.
    assert (Hall : r <> Undef /\ (exists d, SStream.ss_ok d ss') /\ leave f ch ss ss') by (destruct r; [destruct Hm as (? & ? & ?); split_and!; [done|done|by apply byte_mark_leaves]..|done]).
    destruct Hall as (Hr & Hd & Hk). assert (Hgoal : exists cr' ss'0, set_crypto (Ackm.alter_at spn (fun _ => Some ss') (crypto c)) c = set_crypto cr' c /\
      turned (TCrypto spn) (leave f ch) (qsm c) (crypto c) (qsm c) cr' /\ Ackm.sel cr' spn = Some ss'0 /\ exists d, SStream.ss_ok d ss'0).
    { eexists _, ss'. split; [done|]. split; [by eapply turned_crypto|]. by rewrite sel_set_here, decide_True. }
    by destruct r.
  - apply wp_ret. exists (crypto c), ss. split_and!; [by destruct c| |done|by apply (st_crypto _ _ Hst spn)]. split; [done|done|]. cbn. rewrite Hs. right. exists ss. split; [done|]. apply byte_mark_leaves; [|done]. by apply byte_mark_nothing, Hb.
Qed.

(** A chunk that may be acknowledged or lost. *)
Record chunk_ready (s : QUIC_PN_SPACE) (ch : QUIC_TXPIM_CHUNK) (q : StreamMap.QUIC_STREAM_MAP) (cr : Ackm.per_space (option SStream.QUIC_SSTREAM)) : Prop := {
  cr_shape : shape_ok ch;
  cr_reset : has_reset_stream ch = true -> buffer q cr (target_of s ch) = None;
  cr_bytes ss k : buffer q cr (target_of s ch) = Some ss -> bytes_of ch k -> SStream.in_flight ss k
}.

Definition turn_done (R : SStream.QUIC_SSTREAM -> SStream.QUIC_SSTREAM -> Prop) (s : QUIC_PN_SPACE) (ch : QUIC_TXPIM_CHUNK) (c c' : C) : Prop :=
  exists q' cr', c' = set_crypto cr' (set_qsm q' c) /\ turned (target_of s ch) R (qsm c) (crypto c) q' cr'.

(** The buffer is found, or the turn does nothing. *)
Lemma turn_cases R E spn ch (c : C) (k : place -> M C unit) : streams_ok (qsm c) (crypto c) -> (has_reset_stream ch = true -> buffer (qsm c) (crypto c) (target_of spn ch) = None) ->
  (forall p s ss, stream_id ch <> UINT64_MAX -> StreamMap.table (qsm c) !! stream_id ch = Some p -> StreamMap.heap (qsm c) !! p = Some s -> StreamMap.sstream s = Some ss ->
     has_reset_stream ch = false -> buffer (qsm c) (crypto c) (target_of spn ch) = Some ss -> wp (k (InStream p)) c (fun _ c' => exists q', c' = set_qsm q' c /\ stream_turn p R (qsm c) (crypto c) ss q') E) ->
  (forall ss d, stream_id ch = UINT64_MAX -> Ackm.sel (crypto c) spn = Some ss -> SStream.ss_ok d ss -> buffer (qsm c) (crypto c) (target_of spn ch) = Some ss ->
     wp (k (InCrypto spn)) c (fun _ c' => exists cr', c' = set_crypto cr' c /\ turned (TCrypto spn) R (qsm c) (crypto c) (qsm c) cr') E) ->
  wp (w ← get_sstream_by_id (stream_id ch) spn; match w with None => mret tt | Some w => k w end) c (fun _ => turn_done R spn ch c) E.
Proof.
  intros Hst Hre Hs Hc. assert (Hself : c = set_qsm (qsm c) c) by (by destruct c). assert (Hnone : buffer (qsm c) (crypto c) (target_of spn ch) = None -> turn_done R spn ch c c).
  { intros Hb. exists (qsm c), (crypto c). split; [by destruct c|]. by apply turned_none. }
  apply wp_bind. unfold turn_done, target_of in *. destruct (stream_id ch =? UINT64_MAX) eqn:Ei.
  - apply Z.eqb_eq in Ei. eapply wp_eq; [rewrite Ei; apply find_crypto|]. cbn in Hnone, Hc. destruct (Ackm.sel (crypto c) spn) as [ss|] eqn:Es; cbn [is_null]; [|by apply wp_ret, Hnone].
    destruct (st_crypto _ _ Hst _ _ Es) as [d Hd]. eapply wp_mono; [exact (Hc ss d Ei eq_refl Hd eq_refl)| |done]. intros [] c' (cr' & -> & Ht). exists (qsm c), cr'. by destruct c.
  - apply Z.eqb_neq in Ei. cbn in Hnone, Hre, Hs. destruct (StreamMap.table (qsm c) !! stream_id ch) as [p|] eqn:Et.
    2: { eapply wp_eq; [rewrite Hself at 1; by apply find_no_stream|]. apply wp_ret. rewrite <- Hself. by apply Hnone. }
    pose proof Hst as [(act & acc & gc & Hi) _ _ _]. destruct (l_table _ _ _ _ (i_links _ _ _ _ _ Hi) _ _ Et) as (s & Hp & _).
    eapply wp_eq; [rewrite Hself at 1; by apply (find_stream _ _ p s)|]. rewrite <- Hself. cbn in Hnone, Hre, Hs. rewrite Hp in *. cbn in Hnone, Hre, Hs.
    destruct (StreamMap.sstream s) as [ss|] eqn:Es; cbn [is_null]; [|by apply wp_ret, Hnone].
    eapply wp_mono; [apply (Hs p s ss); try done| |done]; [by destruct (has_reset_stream ch); [specialize (Hre eq_refl)|]|].
    intros [] c' (q' & -> & Htu). exists q', (crypto c). split; [by destruct c|]. by eapply turned_stream.
Qed.

Lemma acked_turn al pkt spn i ch (c : C) : streams_ok (qsm c) (crypto c) -> chunk_ready spn ch (qsm c) (crypto c) -> al i = true ->
  wp (acked_chunk al pkt spn i ch) c (fun _ => turn_done (leave IsAcked ch) spn ch c) (fun _ => False).
Proof.
  intros Hst Hr Hal. pose proof (cr_shape _ _ _ _ Hr) as Hsh. assert (Hself : c = set_qsm (qsm c) c) by (by destruct c). apply turn_cases; [done|apply Hr| |].
  - intros p s ss Hi Ht Hp Hss Hrs Hb. assert (Hby : forall k, bytes_of ch k -> SStream.in_flight ss k) by (intros k; by apply (cr_bytes _ _ _ _ Hr)). pose proof (acked_stream_turn al pkt spn i ch c (qsm c) (crypto c) p s ss Hst Ht Hp Hss Hal Hsh Hrs Hby) as Hw. rewrite <- Hself in Hw.
    unfold acked_chunk in Hw. rewrite Hself in Hw at 1. unfold wp in Hw. rewrite (bind_ret _ _ _ _ _ (find_stream (stream_id ch) spn p s c (qsm c) Hi Ht Hp)) in Hw. rewrite Hss, <- Hself in Hw. exact Hw.
  - intros ss d Hi Hs Hd Hb. assert (Hby : forall k, bytes_of ch k -> SStream.in_flight ss k) by (intros k; by apply (cr_bytes _ _ _ _ Hr)). assert (Hnc : not_crypto ch = false) by (unfold not_crypto; by rewrite Hi, Z.eqb_refl). rewrite Hnc, !andb_false_r. apply wp_bind.
    eapply wp_mono; [apply (wp_mark_crypto IsAcked spn c ss ch); [done|done|..]| |done].
    + rewrite Hal. intros Hhd. eapply mark_acked_ok; [done|done|apply Hsh|done].
    + done.
    + unfold ends_stream. by rewrite Hnc, andb_false_r.
    + intros [] c' (cr' & ss' & -> & Htu & Hs' & d' & Hd'). do 3 (apply wp_bind, wp_ret). apply wp_bind. destruct (SStream.totally_acked_ok d' ss' Hd') as (b & Eb & _).
      set (cr2 := Ackm.alter_at spn (fun _ => Some ss') cr'). assert (Ecr : cr2 = cr') by (unfold cr2; destruct cr', spn; cbn in *; by rewrite Hs').
      eapply (wp_eq _ _ b (set_crypto cr2 c)); [unfold at_place; cbn; by rewrite Hs', Eb|]. rewrite Ecr. unfold when_. destruct b; [|apply wp_ret; eauto].
      apply wp_no_stream; [rewrite Hi; by eapply crypto_ids|]. eauto.
Qed.

Lemma lost_turn al pkt spn i ch (c : C) : streams_ok (qsm c) (crypto c) -> chunk_ready spn ch (qsm c) (crypto c) -> al i = true ->
  wp (lost_chunk al pkt spn i ch) c (fun _ => turn_done (leave IsLost ch) spn ch c) (fun _ => False).
Proof.
  intros Hst Hr Hal. pose proof (cr_shape _ _ _ _ Hr) as Hsh. assert (Hself : c = set_qsm (qsm c) c) by (by destruct c). apply turn_cases; [done|apply Hr| |].
  - intros p s ss Hi Ht Hp Hss Hrs Hb. assert (Hby : forall k, bytes_of ch k -> SStream.in_flight ss k) by (intros k; by apply (cr_bytes _ _ _ _ Hr)). pose proof (lost_stream_turn al pkt spn i ch c (qsm c) (crypto c) p s ss Hst Ht Hp Hss Hal Hsh Hrs Hby) as Hw. rewrite <- Hself in Hw.
    unfold lost_chunk in Hw. rewrite Hself in Hw at 1. unfold wp in Hw. rewrite (bind_ret _ _ _ _ _ (find_stream (stream_id ch) spn p s c (qsm c) Hi Ht Hp)) in Hw. rewrite Hss, <- Hself in Hw. exact Hw.
  - intros ss d Hi Hs Hd Hb. assert (Hby : forall k, bytes_of ch k -> SStream.in_flight ss k) by (intros k; by apply (cr_bytes _ _ _ _ Hr)). assert (Hnc : not_crypto ch = false) by (unfold not_crypto; by rewrite Hi, Z.eqb_refl). rewrite Hnc, !andb_false_r. apply wp_bind.
    eapply wp_mono; [apply (wp_mark_crypto IsLost spn c ss ch); [done|done|..]| |done].
    + rewrite Hal. intros Hhd. eapply mark_lost_ok; [done|done|apply Hsh|done].
    + done.
    + unfold ends_stream. by rewrite Hnc, andb_false_r.
    + intros [] c' (cr' & ss' & -> & Htu & Hs' & d' & Hd'). do 3 (apply wp_bind, wp_ret). apply wp_bind.
      eapply wp_mono; [apply (wp_no_stream (stream_id ch) _ (set_crypto cr' c) (fun _ c' => c' = set_crypto cr' c) (fun _ => False)); [rewrite Hi; by eapply crypto_ids|done]| |done].
      intros [] c' ->. apply wp_ret. eauto.
Qed.

(** A chunk whose bytes are all waiting to be sent. *)
Record chunk_sendable (s : QUIC_PN_SPACE) (ch : QUIC_TXPIM_CHUNK) (q : StreamMap.QUIC_STREAM_MAP) (cr : Ackm.per_space (option SStream.QUIC_SSTREAM)) : Prop := {
  cs_range : 0 <= start ch /\ end_ ch < UINT64_MOD;
  cs_reset : has_reset_stream ch = true -> buffer q cr (target_of s ch) = None;
  cs_bytes ss k : buffer q cr (target_of s ch) = Some ss -> bytes_of ch k -> UintSet.mem k (SStream.new_set ss)
}.

(** After the marks of a chunk that is sent. *)
Definition sent_buffer (ch : QUIC_TXPIM_CHUNK) (ss ss' : SStream.QUIC_SSTREAM) : Prop :=
  (exists d, SStream.ss_ok d ss') /\ same_final ss ss' /\ SStream.ossl_quic_sstream_is_totally_acked ss' = SStream.ossl_quic_sstream_is_totally_acked ss /\
  join ch ss ss'.

Lemma transmitted_marks d ss ch : SStream.ss_ok d ss -> 0 <= start ch -> end_ ch < UINT64_MOD -> (forall k, bytes_of ch k -> UintSet.mem k (SStream.new_set ss)) ->
  exists ss1, (if Fifd.has_data ch then SStream.ossl_quic_sstream_mark_transmitted true (start ch) (end_ ch) else mret tt) ss = (Ret tt, ss1) /\ sent_buffer ch ss ss1.
Proof.
  intros Hok Hs He Hb. destruct (Fifd.has_data ch) eqn:Eh.
  - pose proof Eh as Hle%Z.leb_le. destruct (SStream.transmitted_ok d ss (start ch) (end_ ch) Hok) as (s' & E & Hok' & Hk); [lia|done|]. eexists. split; [exact E|].
    assert (Hnew : forall k, start ch <= k <= end_ ch -> 0 <= k < RingBuf.head_offset (SStream.ring ss) /\ ~ UintSet.mem k (SStream.acked_set ss))
      by (intros k Hr; apply (SStream.so_new_in _ _ Hok), Hb; by split).
    split_and!; [eauto|done|done|split; intros k; unfold bytes_of; rewrite Eh; cbn; rewrite ?Hk; [|tauto]]. unfold SStream.in_flight. cbn. rewrite Hk. specialize (Hnew k).
    split; [|tauto]. intros (H1 & H2 & H3). destruct (decide (start ch <= k <= end_ ch)); [by right|left; tauto].
  - exists ss. split; [done|]. split_and!; [eauto|done|done|]. split; intros k; unfold bytes_of; rewrite Eh; [split; [by left|by intros [|[]]]|].
    split; [intros Hm; split; [done|by intros [? _]]|tauto].
Qed.

Lemma send_fin_ok ss ch ss1 : sent_buffer ch ss ss1 ->
  wp (if has_fin ch then SStream.ossl_quic_sstream_mark_transmitted_fin (u64 (end_ ch + 1)) else mret tt) ss1 (fun _ => sent_buffer ch ss) (sent_buffer ch ss).
Proof.
  intros Hs. destruct (has_fin ch); [|by apply wp_ret]. unfold SStream.ossl_quic_sstream_mark_transmitted_fin. apply wp_bind, wp_get, wp_bind, wp_guard; [intros _|done].
  destruct Hs as ([d Hd] & Hf & Ht & Hk). eapply wp_eq; [reflexivity|]. split_and!; [exists d; apply ss_ok_final; [done|apply Hd]|done|by rewrite <- Ht|exact Hk].
Qed.

Lemma commit_turn spn i ch al (c : C) : streams_ok (qsm c) (crypto c) -> chunk_sendable spn ch (qsm c) (crypto c) -> al i = true ->
  wp (commit_chunk al spn i ch) c (fun _ => turn_done (join ch) spn ch c) (fun _ => True).
Proof.
  intros Hst [[Hs He] Hre Hb] Hal. assert (Hself : c = set_qsm (qsm c) c) by (by destruct c). unfold commit_chunk. rewrite Hal. apply turn_cases; [done|done| |].
  - intros p s ss Hi Ht Hp Hss Hrs Hbu. pose proof (work_start _ _ _ _ Hst Hp) as Hw. destruct (so_buf _ _ (aw_ok _ _ _ _ Hw) ss Hss) as [d Hd].
    destruct (transmitted_marks d ss ch Hd Hs He) as (ss1 & E1 & Hs1); [intros k; by apply Hb|]. rewrite Hself.
    assert (H1 : exists q1, when_ (Fifd.has_data ch) (at_place (InStream p) (SStream.ossl_quic_sstream_mark_transmitted true (start ch) (end_ ch))) (set_qsm (qsm c) c) = (Ret tt, set_qsm q1 c)
      /\ at_work (qsm c) p (StreamMap.set_sstream (Some ss1) s) q1).
    { unfold when_. destruct (Fifd.has_data ch) eqn:Eh; [eapply work_place; [done|done|exact E1|apply Hs1|apply Hs1]|]. exists (qsm c). injection E1 as <-. split; [done|].
      assert (StreamMap.set_sstream (Some ss) s = s) as -> by (destruct s; cbn in *; by rewrite Hss). done. }
    destruct H1 as (q1 & E & Hw1). apply wp_bind. eapply wp_eq; [exact E|]. pose proof (send_fin_ok ss ch ss1 Hs1) as Hf. unfold when_.
    assert (Hend : forall ss2 q2, sent_buffer ch ss ss2 -> at_work (qsm c) p (StreamMap.set_sstream (Some ss2) s) q2 -> stream_turn p (join ch) (qsm c) (crypto c) ss q2).
    { intros ss2 q2 (_ & _ & Hta & Hk) Hw2. eapply turn_end; [done|done| |exact Hk|by left]. intros Hst2. pose proof (st_settled _ _ Hst p s Hp Hst2) as Hset. unfold totally_acked in *. cbn. by rewrite Hta, Hss in *. }
    destruct (has_fin ch); [|apply wp_ret; eauto]. unfold wp in Hf. destruct (SStream.ossl_quic_sstream_mark_transmitted_fin (u64 (end_ ch + 1)) ss1) as [r ss2] eqn:E2.
    assert (Hr : r <> Undef /\ sent_buffer ch ss ss2) by (by destruct r). destruct Hr as [Hr Hs2].
    destruct (work_place (qsm c) p _ ss1 q1 c (SStream.ossl_quic_sstream_mark_transmitted_fin (u64 (end_ ch + 1))) r ss2 Hw1 eq_refl E2) as (q2 & E3 & Hw2); [apply Hs2| |].
    { destruct Hs1 as (_ & H1 & _), Hs2 as (_ & H2 & _). unfold same_final in *. congruence. }
    unfold wp. rewrite E3. destruct r; [|done|done]. exists q2. split; [by destruct c|]. eapply (Hend ss2); [done|]. exact Hw2.
  - intros ss d Hi Hsel Hd Hbu. destruct (transmitted_marks d ss ch Hd Hs He) as (ss1 & E1 & Hs1); [intros k; by apply Hb|].
    assert (H1 : when_ (Fifd.has_data ch) (at_place (InCrypto spn) (SStream.ossl_quic_sstream_mark_transmitted true (start ch) (end_ ch))) c = (Ret tt, set_crypto (Ackm.alter_at spn (fun _ => Some ss1) (crypto c)) c)).
    { unfold when_. destruct (Fifd.has_data ch); [unfold at_place; by rewrite Hsel, E1|]. injection E1 as <-. destruct c as [? ? ? cr ? ?]. cbn in *. unfold set_crypto. cbn. f_equal. f_equal.
      destruct cr, spn; cbn in *; by rewrite <- Hsel. }
    apply wp_bind. eapply wp_eq; [exact H1|]. pose proof (send_fin_ok ss ch ss1 Hs1) as Hf. unfold when_. set (cr1 := Ackm.alter_at spn (fun _ => Some ss1) (crypto c)).
    destruct (has_fin ch).
    + unfold wp in *. unfold at_place. cbn [crypto set_crypto]. unfold cr1. rewrite sel_set_here, decide_True by done.
      destruct (SStream.ossl_quic_sstream_mark_transmitted_fin (u64 (end_ ch + 1)) ss1) as [[] ss2] eqn:E2; [|done|done]. destruct Hf as (Hd2 & _ & _ & Hk2).
      exists (Ackm.alter_at spn (fun _ => Some ss2) (crypto c)). split; [by destruct c as [? ? ? [] ? ?], spn|]. by eapply turned_crypto.
    + apply wp_ret. exists cr1. split; [done|]. destruct Hs1 as (Hd1 & _ & _ & Hk1). by eapply turned_crypto.
Qed.
End Turns.
End FifdStreams.
