(* ===== verification/FifdLoops.v ===== *)
(** * The loops of the dispatcher

    [flying l]: each byte in flight is in exactly one of the chunks [l], and no
    other byte is in any.  A loop over the chunks of a packet adds them to [l] or
    takes them away; the loops over its control frames treat each of them once. *)
From Stdlib Require Import ZArith Lia.
From stdpp Require Import base tactics option gmap sorting.
From S2P Require Import Prelude UintSet SStream StreamMap AckHist Ackm DList Cfq CfqSpec Txpim Fifd FifdStreams.
#[local] Open Scope Z_scope.
Import AckHist Txpim Fifd FifdStreams.

Module FifdLoops.

Abbreviation located := (QUIC_PN_SPACE * QUIC_TXPIM_CHUNK)%type.
Abbreviation qs := StreamMap.QUIC_STREAM_MAP.
Abbreviation crs := (Ackm.per_space (option SStream.QUIC_SSTREAM)).

Definition covers (w : target) (k : Z) (x : located) : bool :=
  bool_decide (target_of x.1 x.2 = w) && (Fifd.has_data x.2 && ((start x.2 <=? k) && (k <=? end_ x.2))).
Definition cover (w : target) (k : Z) (l : list located) : nat := length (filter (fun x => covers w k x = true) l).

Lemma covers_spec w k x : covers w k x = true <-> target_of x.1 x.2 = w /\ bytes_of x.2 k.
Proof. unfold covers, bytes_of. rewrite !andb_true_iff, bool_decide_eq_true, !Z.leb_le. tauto. Qed.

Lemma cover_cons w k x l : cover w k (x :: l) = ((if covers w k x then 1 else 0) + cover w k l)%nat.
Proof. unfold cover. rewrite filter_cons. destruct (covers w k x); [rewrite decide_True by done|rewrite decide_False by done]; done. Qed.

Lemma cover_app w k l1 l2 : cover w k (l1 ++ l2) = (cover w k l1 + cover w k l2)%nat.
Proof. unfold cover. by rewrite filter_app, length_app. Qed.

#[global] Instance cover_perm w k : Proper ((≡ₚ) ==> eq) (cover w k).
Proof. intros l1 l2 Hl. unfold cover. by rewrite Hl. Qed.

Definition flying (l : list located) (q : qs) (cr : crs) : Prop := forall w ss k, buffer q cr w = Some ss ->
  (cover w k l = 1%nat /\ SStream.in_flight ss k) \/ (cover w k l = 0%nat /\ ~ SStream.in_flight ss k).

(** What holds of the chunks of packets in flight besides: a RESET_STREAM frame is
    sent for a stream without buffer, and stream data in the application space only. *)
Definition proper (l : list located) (q : qs) (cr : crs) : Prop := forall s ch, (s, ch) ∈ l ->
  shape_ok ch /\ (has_reset_stream ch = true -> buffer q cr (target_of s ch) = None) /\
  (s <> QUIC_PN_SPACE_APP -> Fifd.has_data ch = true -> stream_id ch = UINT64_MAX).

Lemma flying_perm l1 l2 q cr : l1 ≡ₚ l2 -> flying l1 q cr -> flying l2 q cr.
Proof. intros Hl Hf w ss k Hb. rewrite <- Hl. by apply Hf. Qed.
Lemma proper_sub l1 l2 q cr : (forall x, x ∈ l2 -> x ∈ l1) -> proper l1 q cr -> proper l2 q cr.
Proof. intros Hl Hp s ch Hin. by apply Hp, Hl. Qed.

Lemma flying_ready s ch l q cr : flying ((s, ch) :: l) q cr -> proper ((s, ch) :: l) q cr -> chunk_ready s ch q cr.
Proof.
  intros Hf Hp. destruct (Hp s ch) as (Hs & Hr & _); [left|]. split; [done|done|]. intros ss k Hb Hk. destruct (Hf _ ss k Hb) as [[_ ?]|[Hc _]]; [done|].
  rewrite cover_cons in Hc. assert (Hcv : covers (target_of s ch) k (s, ch) = true) by (by apply covers_spec). rewrite Hcv in Hc. done.
Qed.

(** Buffers do not come back. *)
Definition gone (q : qs) (cr : crs) (q' : qs) (cr' : crs) : Prop := forall w, buffer q cr w = None -> buffer q' cr' w = None.

Lemma turned_gone w R q cr q' cr' : turned w R q cr q' cr' -> gone q cr q' cr'.
Proof.
  intros [_ Ho Hh] w' Hb. destruct (decide (w' = w)) as [->|Hne]; [by rewrite Hb in Hh|]. by rewrite Ho.
Qed.

(** Bytes marked stay marked, in the buffers that are left. *)
Record buffer_kept (ss ss' : SStream.QUIC_SSTREAM) : Prop := {
  bk_new k : UintSet.mem k (SStream.new_set ss) -> UintSet.mem k (SStream.new_set ss');
  bk_acked k : UintSet.mem k (SStream.acked_set ss) -> UintSet.mem k (SStream.acked_set ss');
  bk_have : SStream.have_final_size ss' = SStream.have_final_size ss;
  bk_fin : SStream.acked_final_size ss = true -> SStream.acked_final_size ss' = true;
  bk_unsent : SStream.sent_final_size ss = false -> SStream.sent_final_size ss' = false
}.
Definition marks_kept (q : qs) (cr : crs) (q' : qs) (cr' : crs) : Prop := forall w ss', buffer q' cr' w = Some ss' -> exists ss, buffer q cr w = Some ss /\ buffer_kept ss ss'.

Lemma marks_kept_refl q cr : marks_kept q cr q cr.
Proof. intros w ss Hb. exists ss. by repeat split. Qed.
Lemma marks_kept_trans q1 cr1 q2 cr2 q3 cr3 : marks_kept q1 cr1 q2 cr2 -> marks_kept q2 cr2 q3 cr3 -> marks_kept q1 cr1 q3 cr3.
Proof.
  intros H1 H2 w ss3 Hb. destruct (H2 w ss3 Hb) as (ss2 & Hb2 & [A1 A2 A3 A4 A5]). destruct (H1 w ss2 Hb2) as (ss1 & Hb1 & [B1 B2 B3 B4 B5]).
  exists ss1. split; [done|]. split; eauto; congruence.
Qed.

Lemma proper_gone l q cr q' cr' : gone q cr q' cr' -> proper l q cr -> proper l q' cr'.
Proof. intros Hg Hp s ch Hin. destruct (Hp s ch Hin) as (Hs & Hr & Hc). split_and!; [done| |done]. intros Hh. by apply Hg, Hr. Qed.

(** The buffer after a turn comes from one before. *)
Lemma turned_back w R q cr q' cr' w' ss' : turned w R q cr q' cr' -> buffer q' cr' w' = Some ss' ->
  exists ss, buffer q cr w' = Some ss /\ (w' <> w /\ ss' = ss \/ w' = w /\ R ss ss').
Proof.
  intros [_ Ho Hh] Hb. destruct (decide (w' = w)) as [->|Hne].
  - destruct (buffer q cr w) as [ss|]; [|congruence]. exists ss. split; [done|]. destruct Hh as [Hn|(x & Hx & HR)]; [congruence|]. right. split; [done|]. congruence.
  - rewrite Ho in Hb by done. exists ss'. auto.
Qed.

Lemma turned_marks f s ch q cr q' cr' : turned (target_of s ch) (leave f ch) q cr q' cr' -> marks_kept q cr q' cr'.
Proof.
  intros Ht w ss' Hb. destruct (turned_back _ _ _ _ _ _ _ _ Ht Hb) as (ss & Hss & Hc). exists ss. split; [done|]. destruct Hc as [[_ ->]|[_ [[_ Hn Ha] [F1 F2 F3]]]]; [done|].
  split; [intros k Hk; apply Hn; by left|intros k Hk; apply Ha; by left|done|by rewrite F2; intros ->|by rewrite F3; intros ->].
Qed.

Lemma flying_leave f s ch l q cr q' cr' : flying ((s, ch) :: l) q cr -> turned (target_of s ch) (leave f ch) q cr q' cr' -> flying l q' cr'.
Proof.
  intros Hf Ht w ss' k Hb. destruct (turned_back _ _ _ _ _ _ _ _ Ht Hb) as (ss & Hss & Hc). pose proof (Hf w ss k Hss) as Hk. rewrite cover_cons in Hk.
  pose proof (covers_spec w k (s, ch)) as Hcv. cbn in Hcv. destruct Hc as [[Hne ->]|[-> HR]].
  - destruct (covers w k (s, ch)); [by destruct (proj1 Hcv eq_refl)|]. done.
  - rewrite (leave_flight f ch ss ss' k HR). destruct (covers (target_of s ch) k (s, ch)) eqn:E.
    + destruct (proj1 Hcv eq_refl) as [_ Hby]. right. destruct Hk as [[Hk _]|[Hk _]]; [|done]. split; [lia|tauto].
    + assert (~ bytes_of ch k) by (intros Hby; by discriminate (proj2 Hcv (conj eq_refl Hby))). tauto.
Qed.

Lemma flying_join s ch l q cr q' cr' : flying l q cr -> turned (target_of s ch) (join ch) q cr q' cr' ->
  (forall ss k, buffer q cr (target_of s ch) = Some ss -> bytes_of ch k -> UintSet.mem k (SStream.new_set ss)) -> flying ((s, ch) :: l) q' cr'.
Proof.
  intros Hf Ht Hn w ss' k Hb. destruct (turned_back _ _ _ _ _ _ _ _ Ht Hb) as (ss & Hss & Hc). pose proof (Hf w ss k Hss) as Hk. rewrite cover_cons.
  pose proof (covers_spec w k (s, ch)) as Hcv. cbn in Hcv. destruct Hc as [[Hne ->]|[-> [HR _]]].
  - destruct (covers w k (s, ch)); [by destruct (proj1 Hcv eq_refl)|]. done.
  - rewrite (HR k). destruct (covers (target_of s ch) k (s, ch)) eqn:E.
    + destruct (proj1 Hcv eq_refl) as [_ Hby]. left. destruct Hk as [[_ (_ & Hnn & _)]|[-> _]]; [by destruct Hnn; apply Hn|]. auto.
    + assert (~ bytes_of ch k) by (intros Hby; by discriminate (proj2 Hcv (conj eq_refl Hby))). tauto.
Qed.

Section Chunks.
Context {CC : Type} `{!Qsort}.
Abbreviation C := (conn CC).

(** The streams after a loop; the rest of the connection is as before. *)
Definition loop_done (l : list located) (c c' : C) : Prop :=
  exists q' cr', c' = set_crypto cr' (set_qsm q' c) /\ streams_ok q' cr' /\ flying l q' cr' /\ gone (qsm c) (crypto c) q' cr'.

(** What became of a chunk whose packet was acknowledged or lost, in a buffer that still
    exists: its bytes are acknowledged or to be sent, and so is the FIN, if it had one. *)
Definition ended (f : fate) (ch : QUIC_TXPIM_CHUNK) (ss : SStream.QUIC_SSTREAM) : Prop :=
  match f with
  | IsAcked => (forall k, bytes_of ch k -> UintSet.mem k (SStream.acked_set ss)) /\
      (ends_stream ch = true -> SStream.have_final_size ss = true -> SStream.acked_final_size ss = true)
  | IsLost => (forall k, bytes_of ch k -> UintSet.mem k (SStream.new_set ss)) /\
      (ends_stream ch = true -> SStream.sent_final_size ss = false \/ SStream.acked_final_size ss = true)
  end.
Definition arrived (f : fate) (l : list located) (q : qs) (cr : crs) : Prop :=
  forall s ch ss, (s, ch) ∈ l -> buffer q cr (target_of s ch) = Some ss -> ended f ch ss.

Lemma ended_kept f ch ss ss' : ended f ch ss -> buffer_kept ss ss' -> ended f ch ss'.
Proof. intros He [K1 K2 K3 K4 K5]. destruct f, He as [H1 H2]; (split; [by auto|]); [rewrite K3; auto|]. intros E. destruct (H2 E); auto. Qed.
Lemma arrived_kept f l q cr q' cr' : arrived f l q cr -> marks_kept q cr q' cr' -> arrived f l q' cr'.
Proof. intros Ha Hm s ch ss' Hin Hb. destruct (Hm _ _ Hb) as (ss & Hss & Hk). eapply ended_kept; [by eapply (Ha s ch ss)|done]. Qed.

Lemma leave_ended f ch ss ss' : leave f ch ss ss' -> ended f ch ss'.
Proof.
  intros [[_ Hn Ha] [F1 F2 F3]]. destruct f; cbn in F2, F3; split.
  - intros k Hk. apply Ha. by right.
  - intros E. rewrite F1, F2, E. intros ->. apply orb_true_r.
  - intros k Hk. apply Hn. by right.
  - intros E. rewrite F2, F3, E, orb_false_r. destruct (SStream.acked_final_size ss); [by right|left]. apply andb_false_r.
Qed.

Lemma arrived_turn f s ch l q cr q' cr' : arrived f l q cr -> turned (target_of s ch) (leave f ch) q cr q' cr' -> arrived f ((s, ch) :: l) q' cr'.
Proof.
  intros Ha Ht. pose proof (arrived_kept _ _ _ _ _ _ Ha (turned_marks _ _ _ _ _ _ _ Ht)) as Ha'. intros s1 ch1 ss' [[= -> ->]|Hin]%elem_of_cons Hb; [|by eapply Ha'].
  destruct (turned_back _ _ _ _ _ _ _ _ Ht Hb) as (ss & Hss & [[Hne _]|[_ HR]]); [done|by eapply leave_ended].
Qed.

Lemma leave_loop ft f s l rest : (forall i ch (c : C), streams_ok (qsm c) (crypto c) -> chunk_ready s ch (qsm c) (crypto c) ->
    wp (f i ch) c (fun _ => turn_done (leave ft ch) s ch c) (fun _ => False)) ->
  forall i done_ (c : C), streams_ok (qsm c) (crypto c) -> flying (((s,.) <$> l) ++ rest) (qsm c) (crypto c) -> proper (((s,.) <$> l) ++ rest) (qsm c) (crypto c) ->
    arrived ft done_ (qsm c) (crypto c) ->
    wp (each_chunk f i l) c (fun _ c' => loop_done rest c c' /\ marks_kept (qsm c) (crypto c) (qsm c') (crypto c') /\ arrived ft (((s,.) <$> l) ++ done_) (qsm c') (crypto c')) (fun _ => False).
Proof.
  intros Hf. induction l as [|ch l IH]; intros i done_ c Hst Hfl Hpr Har; cbn [each_chunk].
  - apply wp_ret. split; [|split; [apply marks_kept_refl|done]]. exists (qsm c), (crypto c). split_and!; [by destruct c|done|exact Hfl|by intros w].
  - rewrite fmap_cons in Hfl, Hpr |- *. cbn [app] in Hfl, Hpr. apply wp_bind. eapply wp_mono; [apply Hf; [done|by eapply flying_ready]| |done]. intros [] c1 (q1 & cr1 & -> & Ht). pose proof (turned_gone _ _ _ _ _ _ Ht) as Hg.
    eapply wp_mono; [apply (IH (S i) ((s, ch) :: done_))| |done].
    + exact (tu_ok _ _ _ _ _ _ Ht).
    + exact (flying_leave _ _ _ _ _ _ _ _ Hfl Ht).
    + eapply proper_gone; [exact Hg|]. eapply proper_sub; [|exact Hpr]. intros x Hx. by right.
    + by eapply arrived_turn.
    + intros [] c2 [(q2 & cr2 & -> & Hst2 & Hfl2 & Hg2) [Hm2 Har2]]. split_and!.
      * exists q2, cr2. split_and!; try done. intros w Hw. by apply Hg2, Hg.
      * eapply marks_kept_trans; [by eapply turned_marks|exact Hm2].
      * intros s1 ch1 ss Hin. apply Har2. rewrite !elem_of_app, !elem_of_cons in *. tauto.
Qed.

(** Chunks that may be sent together. *)
Definition sendable (l : list located) (q : qs) (cr : crs) : Prop :=
  (forall s ch, (s, ch) ∈ l -> 0 <= start ch /\ end_ ch < UINT64_MOD) /\
  forall w ss k, buffer q cr w = Some ss -> (cover w k l <= 1)%nat /\ (cover w k l = 1%nat -> UintSet.mem k (SStream.new_set ss)).

Lemma sendable_head s ch l q cr : sendable ((s, ch) :: l) q cr -> proper ((s, ch) :: l) q cr -> chunk_sendable s ch q cr.
Proof.
  intros [Hr Hs] Hp. split; [apply (Hr s); left|apply (Hp s); left|]. intros ss k Hb Hk. destruct (Hs _ ss k Hb) as [Hle Hm]. apply Hm. rewrite cover_cons in *.
  assert (Hcv : covers (target_of s ch) k (s, ch) = true) by (by apply covers_spec). rewrite Hcv in *. lia.
Qed.

Lemma sendable_tail s ch l q cr q' cr' : sendable ((s, ch) :: l) q cr -> turned (target_of s ch) (join ch) q cr q' cr' -> sendable l q' cr'.
Proof.
  intros [Hr Hs] Ht. split; [intros s1 c1 Hin; apply (Hr s1); by right|]. intros w ss' k Hb. destruct (turned_back _ _ _ _ _ _ _ _ Ht Hb) as (ss & Hss & Hc).
  destruct (Hs w ss k Hss) as [Hle Hm]. rewrite cover_cons in Hle, Hm. split; [lia|]. intros H1. pose proof (covers_spec w k (s, ch)) as Hcv. cbn in Hcv.
  destruct (covers w k (s, ch)); [lia|]. specialize (Hm H1). destruct Hc as [[_ ->]|[-> [_ HR]]]; [done|]. apply HR. split; [done|]. intros Hby. by discriminate (proj2 Hcv (conj eq_refl Hby)).
Qed.

Lemma commit_loop al s l : (forall i, al i = true) -> forall i rest (c : C), streams_ok (qsm c) (crypto c) -> flying rest (qsm c) (crypto c) ->
  sendable ((s,.) <$> l) (qsm c) (crypto c) -> proper ((s,.) <$> l) (qsm c) (crypto c) ->
  wp (each_chunk (commit_chunk al s) i l) c (fun _ => loop_done (((s,.) <$> l) ++ rest) c) (fun _ => True).
Proof.
  intros Hal. induction l as [|ch l IH]; intros i rest c Hst Hfl Hse Hpr; cbn [each_chunk].
  - apply wp_ret. exists (qsm c), (crypto c). split_and!; [by destruct c|done|exact Hfl|by intros w].
  - rewrite fmap_cons in *. pose proof (sendable_head _ _ _ _ _ Hse Hpr) as Hcs. apply wp_bind. eapply wp_mono; [by apply commit_turn| |done]. intros [] c1 (q1 & cr1 & -> & Ht). pose proof (turned_gone _ _ _ _ _ _ Ht) as Hg.
    eapply wp_mono; [apply (IH (S i) ((s, ch) :: rest))| |done].
    + exact (tu_ok _ _ _ _ _ _ Ht).
    + eapply flying_join; [exact Hfl|exact Ht|apply Hcs].
    + exact (sendable_tail _ _ _ _ _ _ _ Hse Ht).
    + eapply proper_gone; [exact Hg|]. eapply proper_sub; [|exact Hpr]. intros x Hx. by right.
    + intros [] c2 (q2 & cr2 & -> & Hst2 & Hfl2 & Hg2). exists q2, cr2. split_and!; try done.
      * eapply flying_perm; [|exact Hfl2]. cbn. solve_Permutation.
      * intros w Hw. by apply Hg2, Hg.
Qed.

(** The chunks of the packet are put in order and gone through. *)
Lemma for_chunks_run `{!QsortLaws} f pkt x (c : C) Q E : Txpim.pkts (txpim c) !! pkt = Some x -> array_ok x ->
  (forall y, ordered x y -> wp (each_chunk f 0 (used y)) (set_txpim (set_pkts (<[pkt := y]> (Txpim.pkts (txpim c))) (txpim c)) c) Q E) -> wp (for_chunks pkt f) c Q E.
Proof.
  intros Hx Hok Hw. destruct (get_chunks_run (txpim c) pkt x Hx Hok) as (y & Ho & E1). specialize (Hw y Ho). unfold for_chunks. apply wp_bind.
  set (t1 := set_pkts (<[pkt := y]> (Txpim.pkts (txpim c))) (txpim c)) in *.
  eapply wp_eq; [unfold on_txpim, zoom; rewrite E1; reflexivity|]. apply wp_bind.
  assert (Hy : Txpim.pkts t1 !! pkt = Some y) by (cbn; apply lookup_insert_eq).
  eapply wp_eq; [unfold on_txpim, zoom, ossl_quic_txpim_pkt_get_num_chunks; cbn [txpim set_txpim]; rewrite (bind_ret _ _ _ _ _ (pkt_run _ _ _ Hy)); reflexivity|].
  destruct (or_ok _ _ Ho) as [Hn Ha Hl _]. replace (num_chunks y <=? Z.of_nat (length (chunks y))) with true by (symmetry; apply Z.leb_le; lia). exact Hw.
Qed.
End Chunks.

(** ** Control frames *)

(** The frames of a packet, linked by [pkt_next]. *)
Fixpoint chain (m : gmap nat Cfq.QUIC_CFQ_ITEM_EX) (h : option nat) (ms : list nat) : Prop :=
  match ms with
  | [] => h = None
  | q :: ms => h = Some q /\ exists x, m !! q = Some x /\ chain m (Cfq.pkt_next x) ms
  end.

Lemma chain_links_frame m m' ms : forall h, (forall q, q ∈ ms -> Cfq.pkt_next <$> m' !! q = Cfq.pkt_next <$> m !! q) -> chain m h ms -> chain m' h ms.
Proof.
  induction ms as [|q ms IH]; [done|]. intros h Hm [-> (x & Hx & Hc)]. split; [done|]. pose proof (Hm q ltac:(left)) as Hq. rewrite Hx in Hq.
  destruct (m' !! q) as [x'|]; [|done]. cbn in Hq. injection Hq as Hq. exists x'. split; [done|]. rewrite Hq. apply IH; [|done]. intros p Hp. apply Hm. by right.
Qed.

Lemma chain_in m ms : forall h q, chain m h ms -> q ∈ ms -> is_Some (m !! q).
Proof. induction ms as [|p ms IH]; intros h q Hc Hq; [by apply elem_of_nil in Hq|]. destruct Hc as [_ (x & Hx & Hc)]. apply elem_of_cons in Hq as [->|Hq]; eauto. Qed.

(** The items [ms] changed by [g]. *)
Definition treated (g : Cfq.QUIC_CFQ_ITEM_EX -> Cfq.QUIC_CFQ_ITEM_EX) (ms : list nat) (m m' : gmap nat Cfq.QUIC_CFQ_ITEM_EX) : Prop :=
  forall q, m' !! q = if decide (q ∈ ms) then g <$> m !! q else m !! q.

Section Items.
Context {CC : Type}.
Abbreviation C := (conn CC).

Lemma items_loop f g (P : Cfq.QUIC_CFQ_ITEM_EX -> Prop) : (forall L cq q x, CfqSpec.cfq_ok L cq -> Cfq.items cq !! q = Some x -> P x ->
    exists cq' L', f q cq = (Ret tt, cq') /\ CfqSpec.cfq_ok L' cq' /\ Cfq.items cq' = <[q := g x]> (Cfq.items cq)) ->
  forall ms h fuel (c : C) L, CfqSpec.cfq_ok L (cfq c) -> chain (Cfq.items (cfq c)) h ms -> NoDup ms -> (length ms <= fuel)%nat ->
    (forall q x, q ∈ ms -> Cfq.items (cfq c) !! q = Some x -> P x) ->
    exists cq' L', each_item fuel f h c = (Ret tt, set_cfq cq' c) /\ CfqSpec.cfq_ok L' cq' /\ treated g ms (Cfq.items (cfq c)) (Cfq.items cq').
Proof.
  intros Hf ms. induction ms as [|q ms IH]; intros h fuel c L Hok Hc Hnd Hfu HP.
  - cbn in Hc. subst h. exists (cfq c), L. split_and!; [destruct fuel; by destruct c|done|]. intros q. rewrite decide_False; [done|]. by intros ?%elem_of_nil.
  - destruct Hc as [-> (x & Hx & Hc)]. apply NoDup_cons in Hnd as [Hq Hnd]. cbn in Hfu. destruct fuel as [|fuel]; [lia|]. cbn [each_item].
    rewrite (bind_ret _ _ c x c) by (unfold on_cfq, zoom; rewrite (CfqSpec.item_run _ _ _ Hx); by destruct c).
    destruct (Hf L (cfq c) q x Hok Hx) as (cq1 & L1 & E1 & Hok1 & Hi1); [by apply (HP q); [left|]|].
    rewrite (bind_ret _ _ c tt (set_cfq cq1 c)) by (unfold on_cfq, zoom; by rewrite E1).
    assert (Hoth : forall p, p ∈ ms -> Cfq.items cq1 !! p = Cfq.items (cfq c) !! p) by (intros p Hp; rewrite Hi1, lookup_insert_ne; [done|by intros ->]).
    destruct (IH (Cfq.pkt_next x) fuel (set_cfq cq1 c) L1) as (cq2 & L2 & E2 & Hok2 & Ht2); [done| |done|lia| |].
    + eapply chain_links_frame; [|exact Hc]. intros p Hp. cbn. by rewrite Hoth.
    + intros p y Hp. cbn. rewrite Hoth by done. apply HP. by right.
    + exists cq2, L2. split; [exact E2|]. split; [done|]. intros p. rewrite (Ht2 p). cbn. rewrite Hi1. destruct (decide (p = q)) as [->|Hne].
      * rewrite decide_False by done. rewrite decide_True by left. by rewrite lookup_insert_eq, Hx.
      * rewrite lookup_insert_ne by done. destruct (decide (p ∈ ms)) as [Hp|Hp]; [by rewrite decide_True by (by right)|].
        rewrite decide_False; [done|]. by intros [?|?]%elem_of_cons.
Qed.

Definition live (x : Cfq.QUIC_CFQ_ITEM_EX) : Prop := Cfq.state x <> -1.
Definition lost_item (x : Cfq.QUIC_CFQ_ITEM_EX) : Cfq.QUIC_CFQ_ITEM_EX :=
  if Cfq.is_unreliable x then CfqSpec.cleared x else CfqSpec.waiting Cfq.UINT32_MAX x.

Lemma chain_fuel L (cq : Cfq.QUIC_CFQ) h ms : CfqSpec.cfq_ok L cq -> chain (Cfq.items cq) h ms -> NoDup ms -> (length ms <= size (Cfq.items cq))%nat.
Proof.
  intros Hok Hc Hnd. rewrite <- (size_list_to_set (C := gset nat)) by done. rewrite <- size_dom. apply subseteq_size. intros p Hp%elem_of_list_to_set.
  apply elem_of_dom. by eapply chain_in.
Qed.

(** The loops over the control frames of a packet. *)
Lemma for_items_run f g (P : Cfq.QUIC_CFQ_ITEM_EX -> Prop) pkt x (c : C) L ms : (forall L cq q x, CfqSpec.cfq_ok L cq -> Cfq.items cq !! q = Some x -> P x ->
    exists cq' L', f q cq = (Ret tt, cq') /\ CfqSpec.cfq_ok L' cq' /\ Cfq.items cq' = <[q := g x]> (Cfq.items cq)) ->
  Txpim.pkts (txpim c) !! pkt = Some x -> CfqSpec.cfq_ok L (cfq c) -> chain (Cfq.items (cfq c)) (retx_head x) ms -> NoDup ms ->
  (forall q x, q ∈ ms -> Cfq.items (cfq c) !! q = Some x -> P x) ->
  exists cq' L', for_items pkt f c = (Ret tt, set_cfq cq' c) /\ CfqSpec.cfq_ok L' cq' /\ treated g ms (Cfq.items (cfq c)) (Cfq.items cq').
Proof.
  intros Hf Hx Hok Hc Hnd HP. unfold for_items. rewrite (bind_ret _ _ c x c) by (unfold on_txpim, zoom; rewrite (pkt_run _ _ _ Hx); by destruct c).
  rewrite (bind_ret get _ c c c) by done. eapply items_loop; [exact Hf|done|done|done|by eapply chain_fuel|done].
Qed.

Lemma release_each L cq q x : CfqSpec.cfq_ok L cq -> Cfq.items cq !! q = Some x -> live x ->
  exists cq' L', Cfq.ossl_quic_cfq_release q cq = (Ret tt, cq') /\ CfqSpec.cfq_ok L' cq' /\ Cfq.items cq' = <[q := CfqSpec.cleared x]> (Cfq.items cq).
Proof. intros Hok Hx Hs. destruct (CfqSpec.cfq_release_run L cq q x Hok Hx Hs) as (c' & L' & E & Hok' & Hi & _). eauto. Qed.
Lemma lost_each L cq q x : CfqSpec.cfq_ok L cq -> Cfq.items cq !! q = Some x -> live x ->
  exists cq' L', Cfq.ossl_quic_cfq_mark_lost q Cfq.UINT32_MAX cq = (Ret tt, cq') /\ CfqSpec.cfq_ok L' cq' /\ Cfq.items cq' = <[q := lost_item x]> (Cfq.items cq).
Proof. intros Hok Hx Hs. destruct (CfqSpec.lost_run L cq q x Cfq.UINT32_MAX Hok Hx Hs) as (c' & L' & E & Hok' & Hi & _). eauto. Qed.
Lemma tx_each L cq q x : CfqSpec.cfq_ok L cq -> Cfq.items cq !! q = Some x -> live x ->
  exists cq' L', Cfq.ossl_quic_cfq_mark_tx q cq = (Ret tt, cq') /\ CfqSpec.cfq_ok L' cq' /\ Cfq.items cq' = <[q := Cfq.set_state Cfq.QUIC_CFQ_STATE_TX x]> (Cfq.items cq).
Proof. intros Hok Hx Hs. destruct (CfqSpec.mark_tx_run L cq q x Hok Hx Hs) as (c' & L' & E & Hok' & Hi & _). eauto. Qed.
End Items.
End FifdLoops.
