(* ===== verification/FifdInv.v ===== *)
(** * The dispatcher keeps track of what is in flight

    [conn_ok K B fl c]: in the connection [c] the records [B] of packets are being
    built and the packets [fl] are in flight; [K] gives the control frames of each
    record.  Frames sent are those of the packets in flight, and bytes in flight
    are those of their chunks, each exactly once. *)
From Stdlib Require Import ZArith Lia.
From stdpp Require Import base tactics option gmap sorting.
From S2P Require Import Prelude QuicWire SStream StreamMap AckHist Ackm DList Cfq CfqSpec Txpim Fifd FifdStreams FifdLoops.
#[local] Open Scope Z_scope.
Import AckHist Txpim Fifd FifdStreams FifdLoops.

Module FifdInv.

Abbreviation sent_pkts := (list OSSL_ACKM_TX_PKT).
Definition addrs (fl : sent_pkts) : list nat := cb_arg <$> fl.

(** The chunks of packets in flight. *)
Definition chunks_at (m : gmap nat QUIC_TXPIM_PKT_EX) (a : OSSL_ACKM_TX_PKT) : list located :=
  match m !! cb_arg a with Some x => (pkt_space a,.) <$> used x | None => [] end.
Definition chunks_of (m : gmap nat QUIC_TXPIM_PKT_EX) (fl : sent_pkts) : list located := concat (chunks_at m <$> fl).

Definition frames_of (K : nat -> list nat) (l : list nat) : list nat := concat (K <$> l).

#[global] Instance frames_perm K : Proper ((≡ₚ) ==> (≡ₚ)) (frames_of K).
Proof. intros l1 l2 Hl. unfold frames_of. by rewrite Hl. Qed.
Lemma frames_app K l1 l2 : frames_of K (l1 ++ l2) = frames_of K l1 ++ frames_of K l2.
Proof. unfold frames_of. by rewrite fmap_app, concat_app. Qed.
Lemma in_frames K l q : q ∈ frames_of K l <-> exists p, p ∈ l /\ q ∈ K p.
Proof.
  unfold frames_of. rewrite list_elem_of_In, in_concat. split.
  - intros (ms & Hm & Hq). apply list_elem_of_In, list_elem_of_fmap in Hm as (p & -> & Hp). exists p. split; [done|]. by apply list_elem_of_In.
  - intros (p & Hp & Hq). exists (K p). rewrite <- !list_elem_of_In. split; [|done]. apply list_elem_of_fmap. eauto.
Qed.

Section Inv.
Context {CC : Type}.
Abbreviation C := (conn CC).

Record conn_ok (K : nat -> list nat) (B : list nat) (fl : sent_pkts) (c : C) : Prop := {
  co_streams : streams_ok (qsm c) (crypto c);
  co_cfq : exists L, CfqSpec.cfq_ok L (cfq c);
  co_pool : exists F, pool_ok F (B ++ addrs fl) (txpim c);
  co_array p x : pkts (txpim c) !! p = Some x -> array_ok x;
  co_sent a : a ∈ fl -> exists x, pkts (txpim c) !! cb_arg a = Some x /\ ackm_pkt x = a /\ fifd x = true;
  co_chain p x : p ∈ B ++ addrs fl -> pkts (txpim c) !! p = Some x -> chain (Cfq.items (cfq c)) (retx_head x) (K p);
  co_nodup : NoDup (frames_of K (B ++ addrs fl));
  co_new q x : q ∈ frames_of K B -> Cfq.items (cfq c) !! q = Some x -> Cfq.state x = Cfq.QUIC_CFQ_STATE_NEW;
  co_tx q x : Cfq.items (cfq c) !! q = Some x -> Cfq.state x = Cfq.QUIC_CFQ_STATE_TX <-> q ∈ frames_of K (addrs fl);
  co_fly : flying (chunks_of (pkts (txpim c)) fl) (qsm c) (crypto c);
  co_proper : proper (chunks_of (pkts (txpim c)) fl) (qsm c) (crypto c)
}.

Lemma chunks_frame m p y fl : p ∉ addrs fl -> chunks_of (<[p := y]> m) fl = chunks_of m fl.
Proof.
  induction fl as [|a fl IH]; [done|]. cbn. intros [Hp Hn]%not_elem_of_cons. unfold chunks_of in *. cbn. rewrite IH by done. f_equal.
  unfold chunks_at. by rewrite lookup_insert_ne.
Qed.

Lemma pool_nodup F U t : pool_ok F U t -> NoDup U.
Proof. intros H%po_nodup. by apply NoDup_app in H as (_ & _ & ?). Qed.

Lemma pool_perm F U U' t : U ≡ₚ U' -> pool_ok F U t -> pool_ok F U' t.
Proof.
  intros Hp [H1 H2 H3 H4 H5 H6]. split; try done.
  - by rewrite <- Hp.
  - intros p. rewrite H3. by rewrite Hp.
  - by rewrite <- (Permutation_length Hp).
  - by rewrite <- (Permutation_length Hp).
Qed.

(** The order of the packets does not matter. *)
Lemma conn_ok_perm K B fl fl' c : fl ≡ₚ fl' -> conn_ok K B fl c -> conn_ok K B fl' c.
Proof.
  intros Hp [H1 H2 [F H3] H4 H5 H6 H7 H8 H9 H10 H11].
  assert (Ha : addrs fl ≡ₚ addrs fl') by (unfold addrs; by rewrite Hp). assert (Hf : frames_of K (addrs fl) ≡ₚ frames_of K (addrs fl')) by (unfold frames_of; by rewrite Ha).
  assert (Hc : chunks_of (pkts (txpim c)) fl ≡ₚ chunks_of (pkts (txpim c)) fl') by (unfold chunks_of; by rewrite Hp). split; try done.
  - exists F. eapply pool_perm; [|done]. by rewrite Ha.
  - intros a Hin. apply H5. by rewrite Hp.
  - intros p x Hin. apply H6. revert Hin. by rewrite !elem_of_app, Ha.
  - revert H7. by rewrite !frames_app, Hf.
  - intros q x Hx. rewrite (H9 q x Hx). by rewrite Hf.
  - by eapply flying_perm.
  - eapply proper_sub; [|exact H11]. intros x. by rewrite Hc.
Qed.

(** A packet in flight is done with. *)
Lemma packet_done K B a fl c c' g y : conn_ok K B (a :: fl) c ->
  streams_ok (qsm c') (crypto c') -> flying (chunks_of (pkts (txpim c)) fl) (qsm c') (crypto c') -> gone (qsm c) (crypto c) (qsm c') (crypto c') ->
  (exists L, CfqSpec.cfq_ok L (cfq c')) -> treated g (K (cb_arg a)) (Cfq.items (cfq c)) (Cfq.items (cfq c')) -> (forall x, Cfq.state (g x) <> Cfq.QUIC_CFQ_STATE_TX) ->
  (exists F, pool_ok F (B ++ addrs fl) (txpim c')) -> pkts (txpim c') = <[cb_arg a := y]> (pkts (txpim c)) -> array_ok y -> conn_ok K B fl c'.
Proof.
  intros [H1 H2 [F H3] H4 H5 H6 H7 H8 H9 H10 H11] Hst Hfl Hg Hcfq Htr HgTX Hpool Epk Hy.
  pose proof (pool_nodup _ _ _ H3) as Hnd. cbn [addrs fmap list_fmap] in Hnd, H7. fold (addrs fl) in Hnd, H7.
  assert (Hperm : B ++ cb_arg a :: addrs fl ≡ₚ cb_arg a :: B ++ addrs fl) by solve_Permutation. rewrite Hperm in Hnd. apply NoDup_cons in Hnd as [Hna Hnd].
  assert (Hnd2 : NoDup (K (cb_arg a) ++ frames_of K (B ++ addrs fl))).
  { revert H7. unfold frames_of. rewrite Hperm. done. }
  apply NoDup_app in Hnd2 as (Hk1 & Hk2 & Hk3).
  assert (Hsame : forall p q, p ∈ B ++ addrs fl -> q ∈ K p -> Cfq.items (cfq c') !! q = Cfq.items (cfq c) !! q).
  { intros p q Hp Hq. rewrite (Htr q), decide_False; [done|]. intros Hqa. apply (Hk2 q Hqa), in_frames. eauto. }
  assert (Hne : forall p, p ∈ B ++ addrs fl -> pkts (txpim c') !! p = pkts (txpim c) !! p) by (intros p Hp; rewrite Epk, lookup_insert_ne; [done|by intros <-]).
  assert (Hin : forall p, p ∈ B ++ addrs fl -> p ∈ B ++ addrs (a :: fl)) by (intros p; rewrite !elem_of_app; cbn; rewrite elem_of_cons; tauto).
  split; try done.
  - intros p x. rewrite Epk, lookup_insert. case_decide; [by intros [= <-]|apply H4].
  - intros a' Ha'. rewrite Hne; [apply H5; by right|]. apply elem_of_app. right. apply list_elem_of_fmap. eauto.
  - intros p x Hp Hx. rewrite Hne in Hx by done. eapply chain_links_frame; [|apply (H6 p x); [by apply Hin|done]]. intros q Hq. by rewrite (Hsame p q).
  - intros q x Hq Hx. apply in_frames in Hq as (p & Hp & Hq). rewrite (Hsame p q) in Hx; [|apply elem_of_app; by left|done]. apply (H8 q x); [apply in_frames; eauto|done].
  - intros q x Hx. rewrite (Htr q) in Hx. destruct (decide (q ∈ K (cb_arg a))) as [Hq|Hq].
    + destruct (Cfq.items (cfq c) !! q) as [x0|]; [|done]. injection Hx as <-. split; [by intros ?%HgTX|]. intros Hf. destruct (Hk2 q Hq). rewrite frames_app. apply elem_of_app. by right.
    + rewrite (H9 q x Hx). unfold frames_of. cbn. rewrite elem_of_app. tauto.
  - rewrite Epk, chunks_frame; [done|]. intros Hx. apply Hna, elem_of_app. by right.
  - rewrite Epk, chunks_frame by (intros Hx; apply Hna, elem_of_app; by right). eapply proper_gone; [exact Hg|]. eapply proper_sub; [|exact H11].
    intros x Hx. unfold chunks_of. cbn. apply elem_of_app. by right.
Qed.
End Inv.

(** ** Events *)
Section Events.
Context {CC : Type} `{!Qsort, !QsortLaws}.
Abbreviation C := (conn CC).

Lemma sent_record K B a fl (c : C) : conn_ok K B (a :: fl) c -> exists x, pkts (txpim c) !! cb_arg a = Some x /\ ackm_pkt x = a /\ fifd x = true /\ array_ok x /\
  chain (Cfq.items (cfq c)) (retx_head x) (K (cb_arg a)) /\ chunks_at (pkts (txpim c)) a = (pkt_space a,.) <$> used x.
Proof.
  intros Hok. destruct (co_sent _ _ _ _ Hok a) as (x & Hx & Ea & Ef); [left|]. exists x. split_and!; try done.
  - by apply (co_array _ _ _ _ Hok (cb_arg a)).
  - apply (co_chain _ _ _ _ Hok); [|done]. apply elem_of_app. right. left.
  - unfold chunks_at. by rewrite Hx.
Qed.

Lemma the_fifd_run p x (c : C) : pkts (txpim c) !! p = Some x -> fifd x = true -> the_fifd p c = (Ret x, c).
Proof.
  intros Hx Hf. unfold the_fifd. rewrite (bind_ret _ _ c x c) by (unfold on_txpim, zoom; rewrite (pkt_run _ _ _ Hx); by destruct c). by rewrite Hf.
Qed.

(** The packet [a] after its chunks and its control frames have been treated. *)
Record treated_packet (ft : fate) (g : Cfq.QUIC_CFQ_ITEM_EX -> Cfq.QUIC_CFQ_ITEM_EX) (K : nat -> list nat) (a : OSSL_ACKM_TX_PKT) (fl : sent_pkts)
    (x : QUIC_TXPIM_PKT_EX) (c c' : C) : Prop := {
  tp_streams : streams_ok (qsm c') (crypto c');
  tp_fly : flying (chunks_of (pkts (txpim c)) fl) (qsm c') (crypto c');
  tp_gone : gone (qsm c) (crypto c) (qsm c') (crypto c');
  tp_marks : marks_kept (qsm c) (crypto c) (qsm c') (crypto c');
  tp_cfq : exists L, CfqSpec.cfq_ok L (cfq c');
  tp_items : treated g (K (cb_arg a)) (Cfq.items (cfq c)) (Cfq.items (cfq c'));
  tp_txpim : exists y, ordered x y /\ txpim c' = set_pkts (<[cb_arg a := y]> (pkts (txpim c))) (txpim c);
  tp_arrived : arrived ft (chunks_at (pkts (txpim c)) a) (qsm c') (crypto c');
  tp_rest : txp c' = txp c /\ ackm c' = ackm c
}.

Lemma treat_packet ft f h g K B a fl x (c : C) (Q : M C unit) E : conn_ok K B (a :: fl) c -> pkts (txpim c) !! cb_arg a = Some x ->
  (forall i ch (c : C), streams_ok (qsm c) (crypto c) -> chunk_ready (pkt_space a) ch (qsm c) (crypto c) ->
     wp (f i ch) c (fun _ => turn_done (leave ft ch) (pkt_space a) ch c) (fun _ => False)) ->
  (forall L cq q y, CfqSpec.cfq_ok L cq -> Cfq.items cq !! q = Some y -> live y ->
     exists cq' L', h q cq = (Ret tt, cq') /\ CfqSpec.cfq_ok L' cq' /\ Cfq.items cq' = <[q := g y]> (Cfq.items cq)) ->
  (forall c', treated_packet ft g K a fl x c c' -> wp Q c' E (fun _ => False)) ->
  wp (for_chunks (cb_arg a) f;; for_items (cb_arg a) h;; Q) c E (fun _ => False).
Proof.
  intros Hok Hx Hf Hh HQ. destruct (sent_record _ _ _ _ _ Hok) as (x' & Hx' & Ea & Efi & Harr & Hch & Eck). rewrite Hx in Hx'. injection Hx' as <-.
  pose proof Hok as [H1 [L H2] [F H3] H4 H5 H6 H7 H8 H9 H10 H11].
  apply wp_bind. eapply for_chunks_run; [done|done|]. intros y Hy. set (t1 := set_pkts (<[cb_arg a := y]> (pkts (txpim c))) (txpim c)).
  assert (Hperm : ((pkt_space a,.) <$> used y) ++ chunks_of (pkts (txpim c)) fl ≡ₚ chunks_of (pkts (txpim c)) (a :: fl)).
  { unfold chunks_of. cbn [fmap list_fmap concat]. by rewrite Eck, (or_perm _ _ Hy). }
  eapply wp_mono; [apply (leave_loop ft f (pkt_space a) (used y) (chunks_of (pkts (txpim c)) fl) Hf 0 []); cbn [qsm crypto set_txpim]| |done].
  - done.
  - eapply flying_perm; [symmetry; exact Hperm|done].
  - eapply proper_sub; [|exact H11]. intros z. by rewrite Hperm.
  - intros ? ? ? Hin. by apply elem_of_nil in Hin.
  - intros [] c1 [(q1 & cr1 & -> & Hst1 & Hfl1 & Hg1) [Hm1 Har1]]. rewrite app_nil_r in Har1. apply wp_bind.
    assert (Hnd : NoDup (K (cb_arg a))). { revert H7. unfold frames_of, addrs. rewrite fmap_app. cbn. rewrite concat_app. cbn. rewrite !NoDup_app. tauto. }
    destruct (for_items_run h g live (cb_arg a) y (set_crypto cr1 (set_qsm q1 (set_txpim t1 c))) L (K (cb_arg a)) Hh) as (cq2 & L2 & E2 & Hok2 & Ht2); [cbn; apply lookup_insert_eq|done| |done| |].
    + cbn. rewrite (or_rest _ _ Hy). exact Hch.
    + cbn. intros q z Hq Hz. assert (Hin : q ∈ frames_of K (addrs (a :: fl))) by (apply in_frames; exists (cb_arg a); split; [left|done]). apply (H9 q z Hz) in Hin. unfold live. by rewrite Hin.
    + eapply wp_eq; [exact E2|]. apply HQ. split; try done.
      * by exists L2.
      * exists y. split; [done|]. done.
      * cbn. rewrite Eck. intros s ch ss Hin. apply Har1. revert Hin. by rewrite (or_perm _ _ Hy).
Qed.

(** Records stay where they are, with the packet the ACK manager has a pointer to. *)
Definition records_kept (m m' : gmap nat QUIC_TXPIM_PKT_EX) : Prop := forall p x, m !! p = Some x -> exists x', m' !! p = Some x' /\ ackm_pkt x' = ackm_pkt x.
Lemma records_kept_refl m : records_kept m m.
Proof. intros p x. eauto. Qed.
Lemma records_kept_trans m1 m2 m3 : records_kept m1 m2 -> records_kept m2 m3 -> records_kept m1 m3.
Proof. intros H1 H2 p x Hx. destruct (H1 p x Hx) as (y & Hy & <-). by apply H2. Qed.

Lemma release_packet K B a fl x ft g (c c' : C) : conn_ok K B (a :: fl) c -> treated_packet ft g K a fl x c c' -> (forall x, Cfq.state (g x) <> Cfq.QUIC_CFQ_STATE_TX) ->
  exists t', on_txpim (ossl_quic_txpim_pkt_release (cb_arg a)) c' = (Ret tt, set_txpim t' c') /\ conn_ok K B fl (set_txpim t' c') /\
    (forall p, p <> cb_arg a -> pkts t' !! p = pkts (txpim c) !! p) /\ (pkts (txpim c) !! cb_arg a = Some x -> records_kept (pkts (txpim c)) (pkts t')).
Proof.
  intros Hok [Hst Hfl Hg Hm Hcfq Hit (y & Hy & Et) Har [Er1 Er2]] Hg'. destruct (co_pool _ _ _ _ Hok) as [F HF]. cbn [addrs fmap list_fmap] in HF. fold (addrs fl) in HF.
  assert (HF1 : pool_ok F (B ++ cb_arg a :: addrs fl) (txpim c')) by (rewrite Et; apply pool_set; [done|apply elem_of_app; right; apply elem_of_app; right; left]).
  destruct (pkt_release_run _ _ _ _ _ HF1) as (t' & E & HF' & Ep). exists t'. split; [unfold on_txpim, zoom; by rewrite E|].
  split; [|split; [intros p Hp; rewrite Ep, Et; cbn; by rewrite lookup_insert_ne|]].
  2: { intros Hx p z Hz. rewrite Ep, Et. cbn. rewrite lookup_insert. case_decide; [subst; exists y; split; [done|]|by eauto]. rewrite Hz in Hx. injection Hx as ->. by rewrite (or_rest _ _ Hy). }
  eapply (packet_done K B a fl c _ g y Hok); try done; [by exists (F ++ [cb_arg a])|cbn; by rewrite Ep, Et|apply Hy].
Qed.

(** What an event leaves. *)
Record packet_event (ft : fate) (g : Cfq.QUIC_CFQ_ITEM_EX -> Cfq.QUIC_CFQ_ITEM_EX) (K : nat -> list nat) (a : OSSL_ACKM_TX_PKT) (c c' : C) : Prop := {
  pe_items : treated g (K (cb_arg a)) (Cfq.items (cfq c)) (Cfq.items (cfq c'));
  pe_arrived : arrived ft (chunks_at (pkts (txpim c)) a) (qsm c') (crypto c');
  pe_gone : gone (qsm c) (crypto c) (qsm c') (crypto c');
  pe_marks : marks_kept (qsm c) (crypto c) (qsm c') (crypto c');
  pe_pkts p : p <> cb_arg a -> pkts (txpim c') !! p = pkts (txpim c) !! p;
  pe_records : records_kept (pkts (txpim c)) (pkts (txpim c'));
  pe_ackm : ackm c' = ackm c
}.

Lemma cleared_state x : Cfq.state (CfqSpec.cleared x) <> Cfq.QUIC_CFQ_STATE_TX.
Proof. unfold CfqSpec.cleared. by destruct x. Qed.
Lemma lost_state x : Cfq.state (lost_item x) <> Cfq.QUIC_CFQ_STATE_TX.
Proof. unfold lost_item. destruct (Cfq.is_unreliable x); [apply cleared_state|]. done. Qed.

Lemma acked_event K B a fl al (c : C) : conn_ok K B (a :: fl) c -> (forall i, al i = true) ->
  wp (on_acked al (cb_arg a)) c (fun _ c' => conn_ok K B fl c' /\ packet_event IsAcked CfqSpec.cleared K a c c' /\ txp c' = txp c) (fun _ => False).
Proof.
  intros Hok Hal. destruct (sent_record _ _ _ _ _ Hok) as (x & Hx & Ea & Efi & _). unfold on_acked. apply wp_bind. eapply wp_eq; [by apply the_fifd_run|]. rewrite Ea.
  eapply (treat_packet IsAcked); [done|done|intros i ch c' Hst Hr; by apply acked_turn|exact release_each|]. intros c' Htp.
  destruct (release_packet _ _ _ _ _ _ _ _ _ Hok Htp cleared_state) as (t' & E & Hok' & Hpk & Hrk). eapply wp_eq; [exact E|]. destruct Htp. destruct tp_rest0. specialize (Hrk Hx). split_and!; try done.
Qed.

(** The flags of a packet that is lost. *)
Definition regenerated (x : QUIC_TXPIM_PKT_EX) (f f' : txp_flags) : Prop :=
  want_handshake_done f' = want_handshake_done f || had_handshake_done_frame x /\ want_max_data f' = want_max_data f || had_max_data_frame x /\
  want_max_streams_bidi f' = want_max_streams_bidi f || had_max_streams_bidi_frame x /\ want_max_streams_uni f' = want_max_streams_uni f || had_max_streams_uni_frame x /\
  want_ack f' = if had_ack_frame x then Z.lor (want_ack f) (Z.shiftl 1 (pn_space_num (pkt_space (ackm_pkt x)))) else want_ack f.

Lemma flag_run (b : bool) h (c : C) : when_ b (upd_flags h) c = (Ret tt, set_txp (if b then h (txp c) else txp c) c).
Proof. unfold when_. destruct b; [done|]. by destruct c. Qed.

Lemma ack_flag_run (b : bool) p y (c : C) : pkts (txpim c) !! p = Some y ->
  when_ b (on_regen_notify QuicWire.OSSL_QUIC_FRAME_TYPE_ACK_WITH_ECN UINT64_MAX p) c = (Ret tt, set_txp (if b then mkFlags (want_handshake_done (txp c)) (want_max_data (txp c)) (want_max_streams_bidi (txp c))
    (want_max_streams_uni (txp c)) (Z.lor (want_ack (txp c)) (Z.shiftl 1 (pn_space_num (pkt_space (ackm_pkt y))))) else txp c) c).
Proof.
  intros Hy. unfold when_. destruct b; [|by destruct c]. unfold on_regen_notify. cbn [Z.eqb Pos.eqb]. cbn.
  rewrite (bind_ret _ _ c y c) by (unfold on_txpim, zoom; rewrite (pkt_run _ _ _ Hy); by destruct c). done.
Qed.

Lemma treated_txp ft g K a fl x (c c' : C) f : treated_packet ft g K a fl x c c' -> treated_packet ft g K a fl x (set_txp f c) (set_txp f c').
Proof. intros [H1 H2 H3 H4 H5 H6 H7 H8 [H9 H10]]. by split. Qed.

Lemma conn_ok_txp K B fl (c : C) f : conn_ok K B fl c -> conn_ok K B fl (set_txp f c).
Proof. intros []. by split. Qed.

Lemma lost_event K B a fl al (c : C) : conn_ok K B (a :: fl) c -> (forall i, al i = true) ->
  wp (on_lost al (cb_arg a)) c (fun _ c' => conn_ok K B fl c' /\ packet_event IsLost lost_item K a c c' /\
    exists x, pkts (txpim c) !! cb_arg a = Some x /\ regenerated x (txp c) (txp c')) (fun _ => False).
Proof.
  intros Hok Hal. destruct (sent_record _ _ _ _ _ Hok) as (x & Hx & Ea & Efi & _). unfold on_lost. apply wp_bind. eapply wp_eq; [by apply the_fifd_run|]. rewrite Ea.
  eapply (treat_packet IsLost); [done|done|intros i ch c' Hst Hr; by apply lost_turn|exact lost_each|]. intros c' Htp.
  pose proof (tp_txpim _ _ _ _ _ _ _ _ Htp) as (y & Hy & Et). assert (Hpy : forall f, pkts (txpim (set_txp f c')) !! cb_arg a = Some y) by (intros f; cbn; rewrite Et; cbn; apply lookup_insert_eq).
  assert (Eap : ackm_pkt y = ackm_pkt x) by (by rewrite (or_rest _ _ Hy)).
  apply wp_bind. eapply wp_eq; [apply flag_run|]. apply wp_bind. eapply wp_eq; [apply flag_run|]. apply wp_bind. eapply wp_eq; [apply flag_run|]. apply wp_bind. eapply wp_eq; [apply flag_run|].
  apply wp_bind. eapply wp_eq; [apply (ack_flag_run _ _ y); apply Hpy|]. cbn [txp set_txp]. match goal with |- wp _ (set_txp ?f _) _ _ => set (f5 := f) end.
  assert (Hf : regenerated x (txp c) f5).
  { destruct (tp_rest _ _ _ _ _ _ _ _ Htp) as [Er _]. unfold f5, regenerated. rewrite Er, Eap. clear.
    destruct (had_handshake_done_frame x), (had_max_data_frame x), (had_max_streams_bidi_frame x), (had_max_streams_uni_frame x), (had_ack_frame x); cbn; rewrite ?orb_true_r, ?orb_false_r; done. }
  destruct (release_packet K B a fl x IsLost lost_item (set_txp f5 c) (set_txp f5 c')) as (t' & E & Hok' & Hpk & Hrk); [by apply conn_ok_txp|by apply treated_txp|exact lost_state|].
  eapply wp_eq; [exact E|]. destruct Htp. destruct tp_rest0. specialize (Hrk Hx). split_and!; [done|done|by exists x].
Qed.

(** A packet is discarded with the buffers it has data of. *)
Lemma discarded_event K B a fl (c : C) : conn_ok K B (a :: fl) c ->
  (forall s ch, (s, ch) ∈ chunks_at (pkts (txpim c)) a -> Fifd.has_data ch = true -> buffer (qsm c) (crypto c) (target_of s ch) = None) ->
  wp (on_discarded (cb_arg a)) c (fun _ c' => conn_ok K B fl c' /\ treated CfqSpec.cleared (K (cb_arg a)) (Cfq.items (cfq c)) (Cfq.items (cfq c')) /\
    qsm c' = qsm c /\ crypto c' = crypto c /\ pkts (txpim c') = pkts (txpim c) /\ ackm c' = ackm c /\ txp c' = txp c) (fun _ => False).
Proof.
  intros Hok Hbuf. destruct (sent_record _ _ _ _ _ Hok) as (x & Hx & Ea & Efi & Harr & Hch & Eck). pose proof Hok as [H1 [L H2] [F H3] H4 H5 H6 H7 H8 H9 H10 H11].
  unfold on_discarded. apply wp_bind. eapply wp_eq; [by apply the_fifd_run|]. apply wp_bind.
  assert (Hnd : NoDup (K (cb_arg a))). { revert H7. unfold frames_of, addrs. rewrite fmap_app. cbn. rewrite concat_app. cbn. rewrite !NoDup_app. tauto. }
  destruct (for_items_run Cfq.ossl_quic_cfq_release CfqSpec.cleared live (cb_arg a) x c L (K (cb_arg a)) release_each) as (cq2 & L2 & E2 & Hok2 & Ht2); try done.
  { intros q z Hq Hz. assert (Hin : q ∈ frames_of K (addrs (a :: fl))) by (apply in_frames; exists (cb_arg a); split; [left|done]). apply (H9 q z Hz) in Hin. unfold live. by rewrite Hin. }
  eapply wp_eq; [exact E2|]. cbn [addrs fmap list_fmap] in H3. destruct (pkt_release_run _ _ _ _ _ H3) as (t' & E & HF' & Ep).
  eapply (wp_eq _ _ tt (set_txpim t' (set_cfq cq2 c))); [unfold on_txpim, zoom; cbn; by rewrite E|]. split_and!; try done.
  eapply (packet_done K B a fl c _ CfqSpec.cleared x Hok); try done; [|by intros w|by exists L2|by exists (F ++ [cb_arg a])|cbn; by rewrite Ep, insert_id].
  intros w ss k Hb. cbn in Hb. pose proof (H10 w ss k Hb) as Hk. unfold chunks_of in Hk. rewrite fmap_cons in Hk. cbn [concat] in Hk. rewrite cover_app in Hk.
  assert (Hz : cover w k (chunks_at (pkts (txpim c)) a) = 0%nat); [|by rewrite Hz in Hk].
  unfold cover. rewrite length_zero_iff_nil. apply elem_of_nil_inv. intros [s ch] [[Htg Hby]%covers_spec Hin]%list_elem_of_filter. cbn in Htg, Hby. destruct Hby as [Hhd _].
  rewrite <- Htg, (Hbuf s ch Hin Hhd) in Hb. done.
Qed.

(** A packet that has been built joins those in flight. *)
Lemma packet_sent K B1 p B2 fl (c c' : C) x y a : conn_ok K (B1 ++ p :: B2) fl c -> cb_arg a = p -> pkts (txpim c) !! p = Some x ->
  streams_ok (qsm c') (crypto c') -> flying (((pkt_space a,.) <$> used y) ++ chunks_of (pkts (txpim c)) fl) (qsm c') (crypto c') -> gone (qsm c) (crypto c) (qsm c') (crypto c') ->
  proper ((pkt_space a,.) <$> used y) (qsm c) (crypto c) ->
  (exists L, CfqSpec.cfq_ok L (cfq c')) -> treated (Cfq.set_state Cfq.QUIC_CFQ_STATE_TX) (K p) (Cfq.items (cfq c)) (Cfq.items (cfq c')) ->
  txpim c' = set_pkts (<[p := y]> (pkts (txpim c))) (txpim c) -> array_ok y -> ackm_pkt y = a -> fifd y = true -> retx_head y = retx_head x -> conn_ok K (B1 ++ B2) (a :: fl) c'.
Proof.
  intros [H1 [L H2] [F H3] H4 H5 H6 H7 H8 H9 H10 H11] Ecb Hx Hst Hfl Hg Hpr Hcfq Htr Et Hy Ea Ef Eh.
  assert (Hperm : (B1 ++ p :: B2) ++ addrs fl ≡ₚ (B1 ++ B2) ++ addrs (a :: fl)) by (cbn [addrs fmap list_fmap]; rewrite Ecb; solve_Permutation).
  assert (Epk : pkts (txpim c') = <[p := y]> (pkts (txpim c))) by (by rewrite Et).
  pose proof (pool_nodup _ _ _ H3) as Hnd. assert (Hperm2 : (B1 ++ p :: B2) ++ addrs fl ≡ₚ p :: (B1 ++ B2) ++ addrs fl) by solve_Permutation.
  rewrite Hperm2 in Hnd. apply NoDup_cons in Hnd as [Hnp _].
  assert (Hk : NoDup (K p ++ frames_of K ((B1 ++ B2) ++ addrs fl))) by (revert H7; unfold frames_of; by rewrite Hperm2). apply NoDup_app in Hk as (_ & Hk & _).
  assert (Hpa : p ∉ addrs fl) by (intros Hp; apply Hnp, elem_of_app; by right).
  assert (Eck : chunks_of (pkts (txpim c')) (a :: fl) = ((pkt_space a,.) <$> used y) ++ chunks_of (pkts (txpim c)) fl).
  { unfold chunks_of. rewrite fmap_cons. cbn [concat]. f_equal; [unfold chunks_at; by rewrite Ecb, Epk, lookup_insert_eq|]. rewrite Epk. by apply (chunks_frame _ p y). }
  split; try done.
  - exists F. rewrite Et. apply pool_set; [by eapply pool_perm|]. apply elem_of_app. right. cbn [addrs fmap list_fmap]. rewrite Ecb. apply elem_of_app. right. left.
  - intros q z. rewrite Epk, lookup_insert. case_decide; [by intros [= <-]|apply H4].
  - intros a' [->|Ha']%elem_of_cons; [exists y; by rewrite Ecb, Epk, lookup_insert_eq|]. rewrite Epk, lookup_insert_ne; [by apply H5|]. intros ->. apply Hpa, list_elem_of_fmap. eauto.
  - intros q z Hq Hz. assert (Hch : exists z0, pkts (txpim c) !! q = Some z0 /\ retx_head z = retx_head z0).
    { rewrite Epk, lookup_insert in Hz. case_decide; [subst; injection Hz as <-; eauto|eauto]. }
    destruct Hch as (z0 & Hz0 & ->). eapply chain_links_frame; [|apply (H6 q z0); [by rewrite Hperm|done]]. intros r _. rewrite (Htr r). case_decide; [|done]. by destruct (Cfq.items (cfq c) !! r).
  - by rewrite <- Hperm.
  - intros q z Hq Hz. assert (Hnot : q ∉ K p) by (intros Hp; apply (Hk q Hp); rewrite frames_app; apply elem_of_app; by left). rewrite (Htr q), decide_False in Hz by done.
    apply (H8 q z); [|done]. revert Hq. rewrite !frames_app, !elem_of_app. unfold frames_of. cbn. rewrite elem_of_app. tauto.
  - intros q z Hz. unfold frames_of, addrs. rewrite fmap_cons. cbn [fmap list_fmap concat]. rewrite Ecb, elem_of_app. rewrite (Htr q) in Hz. destruct (decide (q ∈ K p)) as [Hq|Hq].
    + destruct (Cfq.items (cfq c) !! q) as [z0|]; [|done]. injection Hz as <-. split; [by left|done].
    + rewrite (H9 q z Hz). unfold frames_of, addrs. tauto.
  - by rewrite Eck.
  - rewrite Eck. eapply proper_gone; [exact Hg|]. intros s ch [Hin|Hin]%elem_of_app; [by apply Hpr|by apply H11].
Qed.

Lemma commit_event m K B1 p B2 fl al alloc (c : C) x : conn_ok K (B1 ++ p :: B2) fl c -> (forall i, al i = true) -> pkts (txpim c) !! p = Some x ->
  let a := set_cb p (ackm_pkt x) in let l := (pkt_space a,.) <$> used x in
  sendable l (qsm c) (crypto c) -> proper l (qsm c) (crypto c) -> (Ackm.ossl_ackm_on_tx_packet m alloc a (ackm c)).1 <> Undef ->
  wp (ossl_quic_fifd_pkt_commit m al alloc p) c (fun _ c' => conn_ok K (B1 ++ B2) (a :: fl) c' /\ Ackm.ossl_ackm_on_tx_packet m alloc a (ackm c) = (Ret tt, ackm c')) (fun _ => True).
Proof.
  intros Hok Hal Hx a l Hse Hpr Hun. pose proof Hok as [H1 [L H2] [F H3] H4 H5 H6 H7 H8 H9 H10 H11]. unfold ossl_quic_fifd_pkt_commit.
  set (x1 := set_fifd true x). set (x2 := set_ackm_pkt a x1). set (t2 := set_pkts (<[p := x2]> (pkts (txpim c))) (txpim c)).
  apply wp_bind. eapply wp_eq; [unfold on_txpim, zoom; rewrite (upd_pkt_run _ _ _ _ Hx); reflexivity|]. apply wp_bind.
  eapply (wp_eq _ _ tt (set_txpim t2 c)); [unfold on_txpim, zoom; cbn [txpim set_txpim]; erewrite upd_pkt_run by (cbn; apply lookup_insert_eq); by rewrite set_pkts_twice|].
  assert (Hp : p ∈ (B1 ++ p :: B2) ++ addrs fl) by (apply elem_of_app; left; apply elem_of_app; right; left).
  assert (Hx2 : pkts t2 !! p = Some x2) by (cbn; apply lookup_insert_eq). apply wp_bind.
  assert (Hnd : NoDup (K p)). { revert H7. unfold frames_of. rewrite !fmap_app, !concat_app. cbn. rewrite !NoDup_app. tauto. }
  destruct (for_items_run Cfq.ossl_quic_cfq_mark_tx (Cfq.set_state Cfq.QUIC_CFQ_STATE_TX) live p x2 (set_txpim t2 c) L (K p) tx_each Hx2) as (cq3 & L3 & E3 & Hok3 & Ht3); [done| |done| |].
  { cbn. by apply (H6 p x). }
  { cbn. intros q z Hq Hz. unfold live. rewrite (H8 q z); [done| |done]. apply in_frames. exists p. split; [|done]. apply elem_of_app. right. left. }
  eapply wp_eq; [exact E3|]. apply wp_bind. eapply (wp_eq _ _ x2); [unfold on_txpim, zoom; cbn [txpim set_txpim set_cfq]; rewrite (pkt_run _ _ _ Hx2); reflexivity|].
  set (c3 := set_txpim t2 (set_cfq cq3 (set_txpim t2 c))). assert (Ha2 : array_ok x2) by (pose proof (H4 p x Hx) as []; by split). apply wp_bind.
  eapply (for_chunks_run _ p x2); [done|done|]. intros y Hy. change (pkt_space (ackm_pkt x2)) with (pkt_space a).
  assert (Hperm : (pkt_space a,.) <$> used y ≡ₚ l) by (unfold l; rewrite (or_perm _ _ Hy); done).
  eapply wp_mono; [apply (commit_loop al (pkt_space a) (used y) Hal 0 (chunks_of (pkts (txpim c)) fl)); cbn [qsm crypto set_txpim set_cfq c3]| |done].
  - done.
  - done.
  - destruct Hse as [Hr Hs]. split; [intros s ch Hin; apply (Hr s); by rewrite <- Hperm|]. intros w ss k Hb. rewrite Hperm. by apply Hs.
  - eapply proper_sub; [|exact Hpr]. intros z. by rewrite Hperm.
  - intros [] c4 (q4 & cr4 & -> & Hst4 & Hfl4 & Hg4). cbn [qsm crypto set_txpim set_cfq c3] in Hg4. apply wp_bind.
    set (t4 := set_pkts (<[p := y]> (pkts (txpim c3))) (txpim c3)). assert (Hy4 : pkts t4 !! p = Some y) by (cbn; apply lookup_insert_eq).
    eapply (wp_eq _ _ y); [unfold on_txpim, zoom; cbn [txpim set_txpim set_cfq set_qsm set_crypto]; rewrite (pkt_run _ _ _ Hy4); reflexivity|].
    assert (Ey : ackm_pkt y = a) by (by rewrite (or_rest _ _ Hy)). rewrite Ey. unfold on_ackm, zoom, wp. cbn [ackm set_txpim set_crypto set_qsm set_cfq c3].
    destruct (Ackm.ossl_ackm_on_tx_packet m alloc a (ackm c)) as [[[]| |] ak]; [|done|by apply Hun]. split; [|done].
    eapply (packet_sent K B1 p B2 fl c _ x y a Hok); try done.
    + eapply proper_sub; [|exact Hpr]. intros z. by rewrite Hperm.
    + by exists L3.
    + cbn. unfold t4, set_pkts. cbn. by rewrite insert_insert_eq.
    + apply Hy.
    + by rewrite (or_rest _ _ Hy).
    + by rewrite (or_rest _ _ Hy).
Qed.
End Events.
End FifdInv.
