(* ===== verification/FifdOps.v ===== *)
(** * Steps of the sending side

    Building packets and making control frames keep [conn_ok]; the callbacks of one
    call of the ACK manager, run in the order of its log, each treat their packet,
    whatever the others do. *)
From Stdlib Require Import ZArith Lia.
From stdpp Require Import base tactics option gmap sorting.
From S2P Require Import Prelude UintSet SStream StreamMap AckHist Ackm AckmInv DList Cfq CfqSpec Txpim Fifd FifdStreams FifdLoops FifdInv.
#[local] Open Scope Z_scope.
Import AckHist Txpim Fifd FifdStreams FifdLoops FifdInv.
Import AckmInv(resolved, reported).

Module FifdOps.

(** [K] with other frames for [p]. *)
Definition with_frames (p : nat) (ms : list nat) (K : nat -> list nat) : nat -> list nat := fun q => if decide (q = p) then ms else K q.

Lemma with_frames_same p ms K : with_frames p ms K p = ms.
Proof. unfold with_frames. by rewrite decide_True. Qed.
Lemma with_frames_other p ms K q : q <> p -> with_frames p ms K q = K q.
Proof. intros. unfold with_frames. by rewrite decide_False. Qed.
Lemma frames_with p ms K l : p ∉ l -> frames_of (with_frames p ms K) l = frames_of K l.
Proof.
  intros Hp. unfold frames_of. f_equal. apply list_fmap_ext. intros i q Hq. apply with_frames_other. intros ->. apply Hp. by eapply list_elem_of_lookup_2.
Qed.

Lemma frames_cons K p l : frames_of K (p :: l) = K p ++ frames_of K l.
Proof. done. Qed.

Section Building.
Context {CC : Type} `{!Qsort, !QsortLaws}.
Abbreviation C := (conn CC).

Lemma in_addrs a (fl : sent_pkts) : a ∈ fl -> cb_arg a ∈ addrs fl.
Proof. intros Ha. apply list_elem_of_fmap. eauto. Qed.

(** The frames of records are in the queue, waiting or sent. *)
Lemma frame_live K B fl (c : C) q : conn_ok K B fl c -> q ∈ frames_of K (B ++ addrs fl) -> exists x, Cfq.items (cfq c) !! q = Some x /\ live x.
Proof.
  intros Hok Hq. assert (Hq' := Hq). apply in_frames in Hq' as (p & Hp & Hqp). destruct (co_pool _ _ _ _ Hok) as [F HF].
  destruct (proj2 (po_in _ _ _ HF p)) as [y Hy]; [apply elem_of_app; by right|]. destruct (chain_in _ _ _ _ (co_chain _ _ _ _ Hok p y Hp Hy) Hqp) as [x Hx].
  exists x. split; [done|]. unfold live. rewrite frames_app in Hq. apply elem_of_app in Hq as [Hq|Hq].
  - by rewrite (co_new _ _ _ _ Hok q x Hq Hx).
  - by rewrite (proj2 (co_tx _ _ _ _ Hok q x Hx) Hq).
Qed.

(** A frame is queued. *)
Lemma add_frame_event K B fl (c : C) mem prio pns ftype f enc len cb : conn_ok K B fl c -> (forall p, mem = Some p -> Cfq.items (cfq c) !! p = None) ->
  wp (on_cfq (Cfq.ossl_quic_cfq_add_frame mem prio pns ftype f enc len cb)) c (fun _ c' => conn_ok K B fl c' /\ ackm c' = ackm c) (fun c' => c' = c).
Proof.
  intros Hok Hm. pose proof Hok as [H1 [L H2] [F H3] H4 H5 H6 H7 H8 H9 H10 H11].
  unfold wp, on_cfq, zoom. destruct (CfqSpec.add_run L (cfq c) mem prio pns ftype f enc len cb H2 Hm) as [(-> & _)|(p & y & cq & L' & -> & Hok' & Ey & Hi & _ & _ & Hfr & _)]; [by destruct c|].
  assert (Hp : p ∉ frames_of K (B ++ addrs fl)). { intros Hp. destruct (frame_live _ _ _ _ _ Hok Hp) as (x & Hx & Hl). by destruct (Hfr x Hx). }
  assert (Hne : forall q, q ∈ frames_of K (B ++ addrs fl) -> Cfq.items cq !! q = Cfq.items (cfq c) !! q) by (intros q Hq; rewrite Hi, lookup_insert_ne; [done|by intros ->]).
  split; [|done]. split; cbn; try done; [by exists L'|by exists F|..].
  - intros q x Hq Hx. eapply chain_links_frame; [|by apply (H6 q x)]. intros r Hr. rewrite Hne; [done|]. apply in_frames. eauto.
  - intros q x Hq Hx. rewrite Hne in Hx by (rewrite frames_app; apply elem_of_app; by left). by apply (H8 q x).
  - intros q x. rewrite Hi, lookup_insert. case_decide as Hd; [|apply H9]. subst q. intros [= <-]. rewrite Ey. split; [done|].
    intros Hq. destruct Hp. rewrite frames_app. apply elem_of_app. by right.
Qed.

(** A record is taken from the pool. *)
Lemma alloc_event K B fl (c : C) mem : conn_ok K B fl c -> (forall p, mem = Some p -> pkts (txpim c) !! p = None) -> Z.of_nat (length (B ++ addrs fl)) + 1 < UINT64_MOD ->
  wp (on_txpim (ossl_quic_txpim_pkt_alloc mem)) c (fun p c' => conn_ok (with_frames p [] K) (p :: B) fl c' /\ ackm c' = ackm c) (fun c' => c' = c).
Proof.
  intros Hok Hm Hs. pose proof Hok as [H1 H2 [F H3] H4 H5 H6 H7 H8 H9 H10 H11].
  unfold wp, on_txpim, zoom. destruct (pkt_alloc_run F _ (txpim c) mem H3 Hm Hs) as [(-> & _)|(p & x & t & F' & -> & HF & Ep & Hx)]; [by destruct c|].
  pose proof (pool_nodup _ _ _ HF) as Hnd. apply NoDup_cons in Hnd as [Hp _].
  assert (Hb : p ∉ B) by (intros ?; apply Hp, elem_of_app; by left). assert (Hf : p ∉ addrs fl) by (intros ?; apply Hp, elem_of_app; by right).
  assert (Ha : array_ok (cleared_pkt x)).
  { assert (Hx' : array_ok x) by (destruct Hx as [Hx|[_ ->]]; [by apply (H4 p)|split; cbn; by first [lia|left|constructor]]).
    destruct Hx' as [? ? ? ?]. split; cbn; try done; [lia|]. intros _. constructor. }
  split; [|done]. split; cbn [cfq txpim qsm crypto set_txpim]; try done; rewrite ?Ep.
  - by exists F'.
  - intros q y. rewrite lookup_insert. case_decide; [by intros [= <-]|apply H4].
  - intros a Ha'. pose proof (in_addrs _ _ Ha') as Hin. rewrite lookup_insert_ne by (by intros ->). by apply H5.
  - intros q y Hq. destruct (decide (q = p)) as [->|Hne]; [rewrite lookup_insert_eq, with_frames_same; by intros [= <-]|].
    rewrite lookup_insert_ne, with_frames_other by done. apply H6. by apply elem_of_cons in Hq as [?|?].
  - change ((p :: B) ++ addrs fl) with (p :: B ++ addrs fl). by rewrite frames_cons, with_frames_same, frames_with.
  - intros q y. rewrite frames_cons, with_frames_same, frames_with by done. apply H8.
  - intros q y Hy. rewrite frames_with by done. by apply H9.
  - by rewrite chunks_frame.
  - by rewrite chunks_frame.
Qed.

(** A record is filled in. *)
Lemma record_event K B fl (c : C) p x y : conn_ok K B fl c -> p ∈ B -> pkts (txpim c) !! p = Some x -> array_ok y -> retx_head y = retx_head x ->
  conn_ok K B fl (set_txpim (set_pkts (<[p := y]> (pkts (txpim c))) (txpim c)) c).
Proof.
  intros Hok Hp Hx Hy Eh. pose proof Hok as [H1 H2 [F H3] H4 H5 H6 H7 H8 H9 H10 H11]. pose proof (pool_nodup _ _ _ H3) as Hnd. apply NoDup_app in Hnd as (_ & Hd & _).
  assert (Hf : p ∉ addrs fl) by (by apply Hd). split; cbn [cfq txpim qsm crypto set_txpim pkts set_pkts]; try done.
  - exists F. apply pool_set; [done|]. apply elem_of_app. right. apply elem_of_app. by left.
  - intros q z. rewrite lookup_insert. case_decide; [by intros [= <-]|apply H4].
  - intros a Ha. pose proof (in_addrs _ _ Ha) as Hin. rewrite lookup_insert_ne by (by intros ->). by apply H5.
  - intros q z Hq. rewrite lookup_insert. case_decide as Hd'; [|by apply H6]. subst q. intros [= <-]. rewrite Eh. by apply H6.
  - by rewrite chunks_frame.
  - by rewrite chunks_frame.
Qed.

(** A control frame is put in a packet. *)
Lemma add_item_event K B fl (c : C) p q z : conn_ok K B fl c -> p ∈ B -> Cfq.items (cfq c) !! q = Some z -> Cfq.state z = Cfq.QUIC_CFQ_STATE_NEW ->
  q ∉ frames_of K (B ++ addrs fl) ->
  wp (ossl_quic_txpim_pkt_add_cfq_item p q) c (fun _ c' => conn_ok (with_frames p (q :: K p) K) B fl c' /\ ackm c' = ackm c) (fun _ => False).
Proof.
  intros Hok Hp Hz Hs Hq. pose proof Hok as [H1 [L H2] [F H3] H4 H5 H6 H7 H8 H9 H10 H11]. pose proof (pool_nodup _ _ _ H3) as Hnd.
  destruct (proj2 (po_in _ _ _ H3 p)) as [x Hx]; [apply elem_of_app; right; apply elem_of_app; by left|].
  destruct (list_elem_of_split _ _ Hp) as (B1 & B2 & EB). assert (Hperm : B ++ addrs fl ≡ₚ p :: B1 ++ B2 ++ addrs fl) by (rewrite EB; solve_Permutation).
  rewrite Hperm in Hnd. apply NoDup_cons in Hnd as [Hnp _]. assert (Hf : p ∉ addrs fl) by (intros ?; apply Hnp; rewrite !elem_of_app; tauto).
  unfold ossl_quic_txpim_pkt_add_cfq_item. apply wp_bind. eapply (wp_eq _ _ x c); [unfold on_txpim, zoom; rewrite (pkt_run _ _ _ Hx); by destruct c|].
  destruct (CfqSpec.link_run L (cfq c) q z None (retx_head x) H2 Hz) as (cq & E & Hok' & Hi & _). apply wp_bind. eapply (wp_eq _ _ tt (set_cfq cq c)); [unfold on_cfq, zoom; by rewrite E|].
  eapply wp_eq; [unfold on_txpim, zoom; cbn [txpim set_cfq]; rewrite (upd_pkt_run _ _ _ _ Hx); reflexivity|]. split; [|done].
  assert (Hne : forall r, r ∈ frames_of K (B ++ addrs fl) -> Cfq.items cq !! r = Cfq.items (cfq c) !! r) by (intros r Hr; rewrite Hi, lookup_insert_ne; [done|by intros ->]).
  assert (Hmem : forall l, p ∈ l -> frames_of (with_frames p (q :: K p) K) l ⊆ q :: frames_of K l).
  { intros l _ r (s & Hs' & Hr)%in_frames. unfold with_frames in Hr. rewrite elem_of_cons, in_frames. case_decide; [subst; apply elem_of_cons in Hr as [?|?]|]; eauto. }
  split; cbn [cfq txpim qsm crypto set_txpim set_cfq pkts set_pkts]; try done.
  - by exists L.
  - exists F. apply pool_set; [done|]. apply elem_of_app. right. apply elem_of_app. by left.
  - intros r y. rewrite lookup_insert. case_decide; [intros [= <-]; destruct (H4 p x Hx); by split|apply H4].
  - intros a Ha. pose proof (in_addrs _ _ Ha) as Hin. rewrite lookup_insert_ne by (by intros ->). by apply H5.
  - intros r y Hr. destruct (decide (r = p)) as [->|Hrp].
    + rewrite lookup_insert_eq, with_frames_same. intros [= <-]. split; [done|]. eexists. split; [rewrite Hi; apply lookup_insert_eq|]. cbn.
      eapply chain_links_frame; [|by apply (H6 p x)]. intros s Hs'. rewrite Hne; [done|]. apply in_frames. eauto.
    + rewrite lookup_insert_ne, with_frames_other by done. intros Hy. eapply chain_links_frame; [|by apply (H6 r y)]. intros s Hs'. rewrite Hne; [done|]. apply in_frames. eauto.
  - revert H7. rewrite !Hperm. rewrite !frames_cons, with_frames_same, frames_with by done. intros H7. cbn. apply NoDup_cons. split; [|exact H7]. intros Hin. apply Hq. by rewrite Hperm.
  - intros r y Hr Hy. apply (Hmem B Hp), elem_of_cons in Hr as [->|Hr].
    + rewrite Hi, lookup_insert_eq in Hy. by injection Hy as <-.
    + rewrite Hne in Hy by (rewrite frames_app; apply elem_of_app; by left). by apply (H8 r y).
  - intros r y. rewrite (frames_with p _ K) by done. rewrite Hi, lookup_insert. case_decide as Hd; [|apply H9]. subst r. intros [= <-]. cbn. rewrite <- (H9 q z Hz). done.
  - by rewrite chunks_frame.
  - by rewrite chunks_frame.
Qed.

(** A record is given back before its packet was sent. *)
Lemma abandon_event K B1 p B2 fl (c : C) : conn_ok K (B1 ++ p :: B2) fl c ->
  wp (on_txpim (ossl_quic_txpim_pkt_release p)) c (fun _ c' => conn_ok K (B1 ++ B2) fl c' /\ ackm c' = ackm c) (fun _ => False).
Proof.
  intros [H1 H2 [F H3] H4 H5 H6 H7 H8 H9 H10 H11]. rewrite <- app_assoc in H3. cbn in H3. destruct (pkt_release_run F B1 p (B2 ++ addrs fl) (txpim c) H3) as (t & E & HF & Ep).
  eapply (wp_eq _ _ tt (set_txpim t c)); [unfold on_txpim, zoom; by rewrite E|]. split; [|done].
  assert (Hin : forall q, q ∈ (B1 ++ B2) ++ addrs fl -> q ∈ (B1 ++ p :: B2) ++ addrs fl) by (intros q; rewrite !elem_of_app, elem_of_cons; tauto).
  split; cbn [cfq txpim qsm crypto set_txpim]; rewrite ?Ep; try done.
  - exists (F ++ [p]). by rewrite <- app_assoc.
  - intros q x Hq. by apply H6, Hin.
  - revert H7. rewrite !frames_app. rewrite frames_cons. intros H7. eapply sublist_NoDup; [exact H7|].
    repeat apply sublist_app; try done. by apply sublist_inserts_l.
  - intros q x Hq. apply H8. revert Hq. rewrite !frames_app, !elem_of_app. rewrite frames_cons. rewrite elem_of_app. tauto.
Qed.

(** What other parts may do to the streams: data is written, read and announced, but
    what is in flight stays so, unless its buffer is freed; a new buffer has nothing in flight and
    is not one that packets in flight refer to, since identifiers are not used twice. *)
Definition streams_moved (l : list located) (q : qs) (cr : crs) (q' : qs) (cr' : crs) : Prop := forall w ss', buffer q' cr' w = Some ss' ->
  (exists ss, buffer q cr w = Some ss /\ forall k, SStream.in_flight ss' k <-> SStream.in_flight ss k) \/
  ((forall s ch, (s, ch) ∈ l -> target_of s ch <> w) /\ forall k, ~ SStream.in_flight ss' k).

Lemma streams_event K B fl (c : C) q' cr' : conn_ok K B fl c -> streams_ok q' cr' ->
  streams_moved (chunks_of (pkts (txpim c)) fl) (qsm c) (crypto c) q' cr' -> conn_ok K B fl (set_crypto cr' (set_qsm q' c)).
Proof.
  intros [H1 H2 H3 H4 H5 H6 H7 H8 H9 H10 H11] Hst Hmv. split; cbn; try done.
  - intros w ss' k Hb. destruct (Hmv w ss' Hb) as [(ss & Hs & Hk)|[Hn Hk]]; [rewrite Hk; by apply H10|]. right. split; [|apply Hk].
    unfold cover. apply length_zero_iff_nil, elem_of_nil_inv. intros [s ch] [[Ht _]%covers_spec Hin]%list_elem_of_filter. by apply (Hn s ch).
  - intros s ch Hin. destruct (H11 s ch Hin) as (Hs & Hr & Hc). split_and!; [done| |done]. intros Hres. specialize (Hr Hres). destruct (buffer q' cr' (target_of s ch)) as [ss'|] eqn:Hb; [|done].
    destruct (Hmv _ ss' Hb) as [(ss & Hss & _)|[Hn _]]; [congruence|]. by destruct (Hn s ch).
Qed.
End Building.

(** ** Callbacks *)

(** Flags are only set. *)
Record flags_kept (f f' : txp_flags) : Prop := {
  fk_hd : want_handshake_done f = true -> want_handshake_done f' = true;
  fk_md : want_max_data f = true -> want_max_data f' = true;
  fk_mb : want_max_streams_bidi f = true -> want_max_streams_bidi f' = true;
  fk_mu : want_max_streams_uni f = true -> want_max_streams_uni f' = true;
  fk_ack n : Z.testbit (want_ack f) n = true -> Z.testbit (want_ack f') n = true
}.
Lemma flags_kept_refl f : flags_kept f f.
Proof. by split. Qed.
Lemma flags_kept_trans f1 f2 f3 : flags_kept f1 f2 -> flags_kept f2 f3 -> flags_kept f1 f3.
Proof. intros [] []. split; auto. Qed.

(** The packetiser is to send again what the packet [x] had. *)
Record flags_for (x : QUIC_TXPIM_PKT_EX) (f : txp_flags) : Prop := {
  ff_hd : had_handshake_done_frame x = true -> want_handshake_done f = true;
  ff_md : had_max_data_frame x = true -> want_max_data f = true;
  ff_mb : had_max_streams_bidi_frame x = true -> want_max_streams_bidi f = true;
  ff_mu : had_max_streams_uni_frame x = true -> want_max_streams_uni f = true;
  ff_ack : had_ack_frame x = true -> Z.testbit (want_ack f) (pn_space_num (pkt_space (ackm_pkt x))) = true
}.
Lemma flags_for_kept x f f' : flags_for x f -> flags_kept f f' -> flags_for x f'.
Proof. intros [] []. split; auto. Qed.

Lemma regenerated_flags x f f' : regenerated x f f' -> flags_kept f f' /\ flags_for x f'.
Proof.
  intros (E1 & E2 & E3 & E4 & E5). split; split; rewrite ?E1, ?E2, ?E3, ?E4, ?E5; try (intros ->; by rewrite ?orb_true_r).
  - intros n Hn. destruct (had_ack_frame x); [|done]. by rewrite Z.lor_spec, Hn.
  - intros ->. rewrite Z.lor_spec, Z.shiftl_spec by (by destruct (pkt_space _)). rewrite Z.sub_diag. apply orb_true_r.
Qed.

Section Callbacks.
Context {CC : Type} `{!Qsort, !QsortLaws}.
Abbreviation C := (conn CC).

(** What a callback makes of a packet and its contents. *)
Definition handled (K : nat -> list nat) (e : Ackm.event) (c c' : C) : Prop :=
  match e with
  | Ackm.Acked a =>
      arrived IsAcked (chunks_at (pkts (txpim c)) a) (qsm c') (crypto c') /\
      forall q, q ∈ K (cb_arg a) -> Cfq.items (cfq c') !! q = CfqSpec.cleared <$> Cfq.items (cfq c) !! q
  | Ackm.Lost a =>
      arrived IsLost (chunks_at (pkts (txpim c)) a) (qsm c') (crypto c') /\
      (forall q, q ∈ K (cb_arg a) -> Cfq.items (cfq c') !! q = lost_item <$> Cfq.items (cfq c) !! q) /\
      exists x, pkts (txpim c) !! cb_arg a = Some x /\ flags_for x (txp c')
  | Ackm.Discarded a => forall q, q ∈ K (cb_arg a) -> Cfq.items (cfq c') !! q = CfqSpec.cleared <$> Cfq.items (cfq c) !! q
  | Ackm.LossDeadline _ | Ackm.AckDeadline _ _ => True
  end.

(** What the callbacks for the records [l] leave of the rest. *)
Record later (K : nat -> list nat) (l : list nat) (c c' : C) : Prop := {
  la_marks : marks_kept (qsm c) (crypto c) (qsm c') (crypto c');
  la_flags : flags_kept (txp c) (txp c');
  la_items q : q ∉ frames_of K l -> Cfq.items (cfq c') !! q = Cfq.items (cfq c) !! q;
  la_pkts p : p ∉ l -> pkts (txpim c') !! p = pkts (txpim c) !! p;
  la_records : records_kept (pkts (txpim c)) (pkts (txpim c'));
  la_ackm : ackm c' = ackm c
}.

Lemma later_nil K (c : C) : later K [] c c.
Proof. split; [apply marks_kept_refl|apply flags_kept_refl|done|done|apply records_kept_refl|done]. Qed.
Lemma later_app K l1 l2 (c c1 c2 : C) : later K l1 c c1 -> later K l2 c1 c2 -> later K (l1 ++ l2) c c2.
Proof.
  intros [A1 A2 A3 A4 A5 A6] [B1 B2 B3 B4 B5 B6]. split.
  - by eapply marks_kept_trans.
  - by eapply flags_kept_trans.
  - intros q. rewrite frames_app, not_elem_of_app. intros [? ?]. rewrite B3 by done. by apply A3.
  - intros p. rewrite not_elem_of_app. intros [? ?]. rewrite B4 by done. by apply A4.
  - by eapply records_kept_trans.
  - congruence.
Qed.

Definition ev_addrs (evs : list Ackm.event) : list nat := addrs (resolved evs).

(** The outcome of a callback stands after callbacks for other packets, and does not
    depend on those before it. *)
Lemma handled_later K e l (c c1 c2 : C) : handled K e c c1 -> later K l c1 c2 -> (forall q, q ∈ frames_of K (ev_addrs [e]) -> q ∉ frames_of K l) -> handled K e c c2.
Proof.
  intros Hh [A1 A2 A3 A4 _ _] Hd. assert (Hit : forall a g, ev_addrs [e] = [cb_arg a] -> (forall q, q ∈ K (cb_arg a) -> Cfq.items (cfq c1) !! q = g <$> Cfq.items (cfq c) !! q) ->
    forall q, q ∈ K (cb_arg a) -> Cfq.items (cfq c2) !! q = g <$> Cfq.items (cfq c) !! q).
  { intros a g Ee Hg q Hq. rewrite A3; [by apply Hg|]. apply Hd. rewrite Ee. apply in_frames. exists (cb_arg a). split; [left|done]. }
  destruct e as [a|a|a| |]; cbn [handled] in *; try done.
  - destruct Hh as [H1 H2]. split; [by eapply arrived_kept|by apply (Hit a)].
  - destruct Hh as (H1 & H2 & x & Hx & Hf). split_and!; [by eapply arrived_kept|by apply (Hit a)|]. exists x. split; [done|]. by eapply flags_for_kept.
  - by apply (Hit a).
Qed.

Lemma handled_earlier K e l (c c1 c2 : C) : later K l c c1 -> handled K e c1 c2 -> (forall p, p ∈ ev_addrs [e] -> p ∉ l) ->
  (forall q, q ∈ frames_of K (ev_addrs [e]) -> q ∉ frames_of K l) -> handled K e c c2.
Proof.
  intros [A1 A2 A3 A4 _ _] Hh Hp Hd. assert (Hit : forall a, ev_addrs [e] = [cb_arg a] -> pkts (txpim c1) !! cb_arg a = pkts (txpim c) !! cb_arg a /\
    chunks_at (pkts (txpim c1)) a = chunks_at (pkts (txpim c)) a /\ forall q, q ∈ K (cb_arg a) -> Cfq.items (cfq c1) !! q = Cfq.items (cfq c) !! q).
  { intros a Ee. assert (Ep : pkts (txpim c1) !! cb_arg a = pkts (txpim c) !! cb_arg a) by (apply A4, Hp; rewrite Ee; left).
    split_and!; [done|unfold chunks_at; by rewrite Ep|]. intros q Hq. apply A3, Hd. rewrite Ee. apply in_frames. exists (cb_arg a). split; [left|done]. }
  destruct e as [a|a|a| |]; cbn [handled] in *; try done; destruct (Hit a eq_refl) as (E1 & E2 & E3).
  - rewrite E2 in Hh. destruct Hh as [H1 H2]. split; [done|]. intros q Hq. rewrite H2, E3; done.
  - rewrite E1, E2 in Hh. destruct Hh as (H1 & H2 & H3). split_and!; try done. intros q Hq. rewrite H2, E3; done.
  - intros q Hq. rewrite Hh, E3; done.
Qed.

(** The buffers a discarded packet has data of are gone. *)
Definition discardable (c : C) (a : OSSL_ACKM_TX_PKT) : Prop :=
  forall s ch, (s, ch) ∈ chunks_at (pkts (txpim c)) a -> Fifd.has_data ch = true -> buffer (qsm c) (crypto c) (target_of s ch) = None.

Lemma discardable_later K l (c c' : C) a : later K l c c' -> cb_arg a ∉ l -> discardable c a -> discardable c' a.
Proof.
  intros [A1 _ _ A4 _ _] Hp Hd s ch Hin Hhd. unfold chunks_at in Hin. rewrite A4 in Hin by done. specialize (Hd s ch Hin Hhd).
  destruct (buffer (qsm c') (crypto c') (target_of s ch)) as [ss'|] eqn:Hb; [|done]. destruct (A1 _ _ Hb) as (ss & Hs & _). congruence.
Qed.

Lemma event_later ft g K a (c c' : C) : packet_event ft g K a c c' -> flags_kept (txp c) (txp c') -> later K [cb_arg a] c c'.
Proof.
  intros [H1 H2 H3 H4 H5 H6 H7] Hf. split; try done.
  - intros q Hq. rewrite frames_cons, app_nil_r in Hq. rewrite (H1 q). by rewrite decide_False.
  - intros p Hp. apply H5. intros ->. apply Hp. left.
Qed.

Lemma dispatch_one K B al e fl (c : C) : (forall i, al i = true) -> conn_ok K B (resolved [e] ++ fl) c -> (forall a, e = Ackm.Discarded a -> discardable c a) ->
  wp (dispatch al e) c (fun _ c' => conn_ok K B fl c' /\ handled K e c c' /\ later K (ev_addrs [e]) c c') (fun _ => False).
Proof.
  intros Hal Hok Hd. destruct e as [a|a|a| |]; cbn [dispatch]; [| | |apply wp_ret; split_and!; [done|done|apply later_nil]..]; change (resolved [_] ++ fl) with (a :: fl) in Hok.
  - eapply wp_mono; [by apply acked_event| |done]. intros [] c' (Hok' & He & Ef). split_and!; [done| |eapply event_later; [done|rewrite Ef; apply flags_kept_refl]].
    split; [apply He|]. intros q Hq. rewrite (pe_items _ _ _ _ _ _ He q). by rewrite decide_True.
  - eapply wp_mono; [by apply lost_event| |done]. intros [] c' (Hok' & He & x & Hx & Hr). destruct (regenerated_flags _ _ _ Hr) as [Hk Hf].
    split_and!; [done| |by eapply event_later]. split_and!; [apply He| |by exists x]. intros q Hq. rewrite (pe_items _ _ _ _ _ _ He q). by rewrite decide_True.
  - eapply wp_mono; [apply discarded_event; [done|by apply Hd]| |done]. intros [] c' (Hok' & Ht & Eq & Ec & Ep & Ea & Ef). split_and!; [done| |].
    + intros q Hq. rewrite (Ht q). by rewrite decide_True.
    + split; rewrite ?Eq, ?Ec, ?Ep, ?Ea, ?Ef; [apply marks_kept_refl|apply flags_kept_refl| |done|apply records_kept_refl|done]. intros q Hq. change (ev_addrs [_]) with [cb_arg a] in Hq. rewrite frames_cons, app_nil_r in Hq. rewrite (Ht q). by rewrite decide_False.
Qed.

Lemma ev_addrs_cons e evs : ev_addrs (e :: evs) = ev_addrs [e] ++ ev_addrs evs.
Proof. unfold ev_addrs. change (e :: evs) with ([e] ++ evs). unfold resolved. rewrite omap_app. apply fmap_app. Qed.

Lemma in_ev_addrs e evs p : e ∈ evs -> p ∈ ev_addrs [e] -> p ∈ ev_addrs evs.
Proof. intros (l1 & l2 & ->)%list_elem_of_split Hp. unfold ev_addrs, resolved, addrs in *. rewrite omap_app, fmap_app. apply elem_of_app. right. change (e :: l2) with ([e] ++ l2). rewrite omap_app, fmap_app. apply elem_of_app. by left. Qed.

(** Packets of a log are different and carry different frames. *)
Lemma events_apart K B fl evs (c : C) e : conn_ok K B (resolved (e :: evs) ++ fl) c ->
  (forall p, p ∈ ev_addrs evs -> p ∉ ev_addrs [e]) /\ forall q, q ∈ frames_of K (ev_addrs evs) -> q ∉ frames_of K (ev_addrs [e]).
Proof.
  intros Hok. assert (Ea : addrs (resolved (e :: evs) ++ fl) = ev_addrs [e] ++ ev_addrs evs ++ addrs fl) by (rewrite app_assoc, <- ev_addrs_cons; apply fmap_app).
  destruct (co_pool _ _ _ _ Hok) as [F HF]. pose proof (pool_nodup _ _ _ HF) as Hnd. pose proof (co_nodup _ _ _ _ Hok) as Hnf. rewrite Ea in Hnd, Hnf. rewrite !frames_app in Hnf.
  apply NoDup_app in Hnd as (_ & _ & (_ & Hnd & _)%NoDup_app). apply NoDup_app in Hnf as (_ & _ & (_ & Hnf & _)%NoDup_app). split.
  - intros p Hp Hp'. apply (Hnd p Hp'), elem_of_app. by left.
  - intros q Hq Hq'. apply (Hnf q Hq'), elem_of_app. by left.
Qed.

Lemma dispatch_run K B al evs : (forall i, al i = true) -> forall fl (c : C), conn_ok K B (resolved evs ++ fl) c -> (forall a, Ackm.Discarded a ∈ evs -> discardable c a) ->
  wp (dispatch_all al evs) c (fun _ c' => conn_ok K B fl c' /\ (forall e, e ∈ evs -> handled K e c c') /\ later K (ev_addrs evs) c c') (fun _ => False).
Proof.
  intros Hal. induction evs as [|e evs IH]; intros fl c Hok Hd; cbn [dispatch_all].
  - apply wp_ret. split_and!; [done|by intros e ?%elem_of_nil|apply later_nil].
  - destruct (events_apart _ _ _ _ _ _ Hok) as [Hap Haf]. assert (Er : resolved (e :: evs) ++ fl = resolved [e] ++ (resolved evs ++ fl)) by (change (e :: evs) with ([e] ++ evs); unfold resolved; by rewrite omap_app, app_assoc).
    rewrite Er in Hok. apply wp_bind. eapply wp_mono; [apply dispatch_one; [done|exact Hok|intros a ->; apply Hd; left]| |done]. intros [] c1 (Hok1 & Hh1 & Hl1).
    assert (Hin : forall e' p, e' ∈ evs -> p ∈ ev_addrs [e'] -> p ∉ ev_addrs [e]) by (intros e' p He' Hp; apply Hap; by eapply in_ev_addrs).
    assert (Hfr : forall e' q, e' ∈ evs -> q ∈ frames_of K (ev_addrs [e']) -> q ∉ frames_of K (ev_addrs [e])).
    { intros e' q He' (p & Hp & Hq)%in_frames. apply Haf, in_frames. exists p. split; [by eapply in_ev_addrs|done]. }
    eapply wp_mono; [apply (IH fl c1 Hok1)| |done].
    + intros a Ha. eapply discardable_later; [exact Hl1| |apply Hd; by right]. apply (Hin (Ackm.Discarded a)); [done|left].
    + intros [] c2 (Hok2 & Hh2 & Hl2). split_and!; [done| |rewrite ev_addrs_cons; by eapply later_app].
      intros e' [->|He']%elem_of_cons.
      * eapply handled_later; [exact Hh1|exact Hl2|]. intros q Hq Hq'. by apply (Haf q).
      * eapply handled_earlier; [exact Hl1|by apply Hh2|intros p; by apply (Hin e')|intros q; by apply (Hfr e')].
Qed.
End Callbacks.
End FifdOps.
