(* ===== verification/FifdSpec.v ===== *)
(** * The sending side of a connection

    The states the control frame queue, the packet records, the streams, the flags of
    the packetiser and the ACK manager reach together: packets are built, sent,
    acknowledged, lost and discarded in any order.  Nothing in flight is forgotten,
    and each packet that leaves the history of the ACK manager has its contents
    confirmed or queued again. *)
From Stdlib Require Import ZArith Lia.
From stdpp Require Import base tactics option gmap sorting.
From S2P Require Import Prelude OsslTime UintSet Statm NewReno SStream StreamMap AckHist Ackm AckmDetect AckmInv AckmOps AckmSpec DList Cfq CfqSpec Txpim Fifd FifdStreams FifdLoops FifdInv FifdOps.
#[local] Open Scope Z_scope.
Import AckHist Txpim Fifd FifdStreams FifdLoops FifdInv FifdOps.
Import AckmInv(resolved, reported, hist, held, inv, ghost, mkGhost, timer_ok, CcAccounting, cc_bytes).

Module FifdSpec.

(** The frames of a record, read from the links. *)
Fixpoint follow (fuel : nat) (m : gmap nat Cfq.QUIC_CFQ_ITEM_EX) (h : option nat) : list nat :=
  match h, fuel with
  | Some q, S fuel => q :: (match m !! q with Some x => follow fuel m (Cfq.pkt_next x) | None => [] end)
  | _, _ => []
  end.
Definition frames_in {CC} (c : conn CC) (p : nat) : list nat :=
  match pkts (txpim c) !! p with Some x => follow (size (Cfq.items (cfq c))) (Cfq.items (cfq c)) (retx_head x) | None => [] end.

Lemma follow_chain m ms : forall fuel h, chain m h ms -> (length ms <= fuel)%nat -> follow fuel m h = ms.
Proof.
  induction ms as [|q ms IH]; intros fuel h Hc Hl; cbn in *; [subst h; by destruct fuel|]. destruct Hc as [-> (x & Hx & Hc)].
  destruct fuel as [|fuel]; [lia|]. cbn. rewrite Hx. f_equal. apply IH; [done|lia].
Qed.

Lemma frames_in_ok {CC} K B fl (c : conn CC) p : conn_ok K B fl c -> p ∈ B ++ addrs fl -> frames_in c p = K p.
Proof.
  intros Hok Hp. destruct (co_pool _ _ _ _ Hok) as [F HF]. destruct (proj2 (po_in _ _ _ HF p)) as [x Hx]; [apply elem_of_app; by right|].
  unfold frames_in. rewrite Hx. pose proof (co_chain _ _ _ _ Hok p x Hp Hx) as Hc. destruct (co_cfq _ _ _ _ Hok) as [L HL]. apply follow_chain; [done|].
  eapply chain_fuel; [done|done|]. pose proof (co_nodup _ _ _ _ Hok) as Hnd. apply list_elem_of_split in Hp as (l1 & l2 & El). rewrite El, frames_app, frames_cons in Hnd.
  by apply NoDup_app in Hnd as (_ & _ & (? & _)%NoDup_app).
Qed.

Lemma frames_of_in {CC} K B fl (c : conn CC) l : conn_ok K B fl c -> (forall p, p ∈ l -> p ∈ B ++ addrs fl) -> frames_of (frames_in c) l = frames_of K l.
Proof. intros Hok Hl. unfold frames_of. f_equal. apply list_fmap_ext. intros i p Hp. eapply frames_in_ok; [done|]. apply Hl. by eapply list_elem_of_lookup_2. Qed.

(** ** The ACK manager *)
Section Manager.
Context {CC : Type} {m : Ackm.OSSL_CC_METHOD CC} `{!CcAccounting m}.
Abbreviation A := (Ackm.OSSL_ACKM CC).

(** The view that forgets the packets already reported. *)
Definition rebase (a : A) (g : ghost) : ghost := mkGhost (hist (Ackm.tx a)) (AckmInv.leaked g) (AckmInv.processed g).

Lemma inv_clear (a : A) g : inv a [] g -> inv (Ackm.set_log [] a) [] (rebase a g).
Proof.
  intros [H1 H2 H3 H4 H5 H6 H7 H8 H9 H10 H11 H12 H13 H14 H15 H16]. cbn [app] in H6. assert (Hsub : forall p, p ∈ hist (Ackm.tx a) -> p ∈ AckmInv.sent g) by (intros p Hp; rewrite H6; apply elem_of_app; by left).
  split; try done; cbn.
  - apply Forall_forall. intros p Hp. rewrite Forall_forall in H3. auto.
  - apply Forall_forall. intros p Hp. rewrite Forall_forall in H4. apply H4. auto.
  - rewrite H6, fmap_app in H5. by apply NoDup_app in H5 as (? & _).
  - by rewrite app_nil_r.
Qed.

(** Only the discarding of a space reports packets as discarded, those of the space. *)
Definition discards_only (o : AckmSpec.op) (a : A) (evs : list Ackm.event) : Prop :=
  forall p, Ackm.Discarded p ∈ evs -> exists s, o = AckmSpec.SpaceDiscarded s /\ p ∈ held (Ackm.tx a) s.

Lemma in_reports p evs : Ackm.Discarded p ∈ evs <-> Ackm.Discarded p ∈ AckmOps.reports evs.
Proof. unfold AckmOps.reports. rewrite list_elem_of_filter. cbn. split; [done|tauto]. Qed.

Lemma exec_reports o (a : A) g : inv a [] g -> timer_ok a -> AckmSpec.allowed a g o -> resolved (Ackm.log a) = [] ->
  wp (AckmSpec.exec (m := m) o) a (fun _ a' => discards_only o a (Ackm.log a')) (fun a' => discards_only o a (Ackm.log a')).
Proof.
  intros Hi Ht Ha Hl. assert (Er : AckmOps.reports (Ackm.log a) = []).
  { unfold AckmOps.reports. apply elem_of_nil_inv. intros e [He Hin]%list_elem_of_filter. destruct (reported e) as [p|] eqn:Ee; [|done].
    assert (Hp : p ∈ resolved (Ackm.log a)) by (apply list_elem_of_omap; eauto). rewrite Hl in Hp. by apply elem_of_nil in Hp. }
  assert (Hno : forall (l : list Ackm.event), (forall p, Ackm.Discarded p ∉ AckmOps.reports l) -> discards_only o a l) by (intros l Hp p Hin%in_reports; by destruct (Hp p)).
  assert (Hsame : forall l, AckmOps.reports l = AckmOps.reports (Ackm.log a) -> discards_only o a l) by (intros l El; apply Hno; intros p; rewrite El, Er; apply not_elem_of_nil).
  assert (Hlost : forall l ps qs, AckmOps.reports l = AckmOps.reports (Ackm.log a) ++ map Ackm.Lost ps ++ map Ackm.Acked qs -> discards_only o a l).
  { intros l ps qs El. apply Hno. intros p. rewrite El, Er. cbn. rewrite elem_of_app, !list_elem_of_In, !in_map_iff. intros [(? & ? & _)|(? & ? & _)]; done. }
  destruct o; cbn [AckmSpec.exec AckmSpec.allowed] in *.
  - destruct Ha as (Hd & Hn & Htm & Hb & Hla & Hs). pose proof (AckmInv.i_bytes _ _ _ Hi) as Eb. rewrite app_nil_r in Eb. rewrite Eb in Hs.
    eapply wp_mono; [by apply (AckmOps.on_tx_packet_ok _ a g)| |intros a' ->; by apply Hsame]. intros _ a' (_ & _ & El & _). apply Hno. intros p Hp%in_reports.
    assert (Hr : p ∈ resolved (Ackm.log a')) by (apply list_elem_of_omap; eauto). rewrite El, Hl in Hr. by apply elem_of_nil in Hr.
  - destruct Ha as [Hd Hn]. eapply wp_mono; [by apply AckmOps.on_rx_packet_ok| |]; cbv beta; [intros _ a' (_ & _ & E & _)|intros a' (_ & _ & E & _)]; by apply Hsame.
  - destruct Ha as [Hd Hf]. eapply wp_mono; [apply (AckmOps.on_rx_ack_frame_ok alloc f s a g (fun _ => False)); done| |done]. intros _ a' (_ & _ & E & _). unfold AckmOps.ack_effect in E. case_match. destruct E as [_ E]. by eapply Hlost.
  - eapply wp_mono; [by apply AckmOps.on_pkt_space_discarded_ok| |intros a' [-> _]; by apply Hsame]. intros _ a' (_ & _ & _ & E & _) p Hp%in_reports. rewrite E, Er in Hp. cbn in Hp.
    apply list_elem_of_In, in_map_iff in Hp as (p' & [= ->] & Hp). exists s. split; [done|]. by apply list_elem_of_In.
  - eapply wp_mono; [apply (AckmOps.on_handshake_confirmed_ok a g (fun _ => False)); done| |done]. intros _ a' (_ & _ & E & _). by apply Hsame.
  - eapply wp_mono; [apply (AckmOps.on_timeout_ok a g (fun _ => False)); done| |done]. intros _ a' (_ & _ & _ & E). cbv zeta in E. eapply (Hlost _ _ []). cbn. rewrite app_nil_r. exact E.
  - apply wp_bind. eapply wp_mono; [apply (AckmOps.get_ack_frame_ok s a g (fun _ => False)); done| |done]. intros f a' (_ & _ & E & _). apply wp_ret. by apply Hsame.
  - destruct Ha as [Hd Hp]. eapply wp_mono; [by apply AckmOps.pseudo_lost_ok| |intros a' [-> _]; by apply Hsame]. intros _ a' (_ & p & _ & _ & _ & E). by apply (Hlost _ [p] []).
  - apply wp_modify. by apply Hsame.
  - apply wp_modify. by apply Hsame.
  - apply wp_modify. by apply Hsame.
  - apply wp_modify. by apply Hsame.
Qed.
End Manager.

(** ** Steps of a connection *)

Inductive op :=
  | AddFrame (mem : option nat) (prio pns ftype flags : Z) (enc : option (nat * list Z)) (len : Z) (cb : option nat)
  | PktAlloc (mem : option nat)
  | FillPkt (p : nat) (a : OSSL_ACKM_TX_PKT) (hd md mb mu ack cc : bool)
  | AddItem (p q : nat)
  | AppendChunk (alloc : bool) (p : nat) (ch : QUIC_TXPIM_CHUNK)
  | Abandon (p : nat)
  | Commit (p : nat)
  | Ack (o : AckmSpec.op)
  | DiscardEl (enc_level : Z)
  | Streams (q : qs) (cr : crs).

Section Conn.
Context {CC : Type} {m : Ackm.OSSL_CC_METHOD CC} `{!CcAccounting m, !Qsort, !QsortLaws}.
Abbreviation C := (conn CC).

Definition enough : nat -> bool := fun _ => true.

(** A step, from the records [B] of packets being built to those after it.  The
    allocations for the marks on the streams ([enough]) and for the history of the ACK manager succeed: when
    they do not, bytes are left in flight with no packet (the marks of [on_acked] and
    [on_lost] are not tried again).  [FillPkt] stands for the packetiser's assignments to the
    fields of a record, [DiscardEl] for the calls [ch_discard_el] makes here, and
    [Streams] for what other parts do to the streams. *)
Definition exec (o : op) (B : list nat) : M C (list nat) :=
  match o with
  | AddFrame mem prio pns ftype fl enc len cb => on_cfq (Cfq.ossl_quic_cfq_add_frame mem prio pns ftype fl enc len cb);; mret B
  | PktAlloc mem => p ← on_txpim (ossl_quic_txpim_pkt_alloc mem); mret (p :: B)
  | FillPkt p a hd md mb mu ack cc => on_txpim (upd_pkt p (fun x => set_had hd md mb mu ack cc (set_ackm_pkt a x)));; mret B
  | AddItem p q => ossl_quic_txpim_pkt_add_cfq_item p q;; mret B
  | AppendChunk alloc p ch => on_txpim (ossl_quic_txpim_pkt_append_chunk alloc p ch);; mret B
  | Abandon p => on_txpim (ossl_quic_txpim_pkt_release p);; mret (filter (fun q => q <> p) B)
  | Commit p => ossl_quic_fifd_pkt_commit m enough true p;; mret (filter (fun q => q <> p) B)
  | Ack o => with_callbacks enough (AckmSpec.exec (m := m) o);; mret B
  | DiscardEl el =>
      ossl_quic_tx_packetiser_discard_enc_level el;;
      match ossl_quic_enc_level_to_pn_space el with
      | Some s => with_callbacks enough (AckmSpec.exec (m := m) (AckmSpec.SpaceDiscarded s));; mret B
      | None => undefined
      end
  | Streams q cr => modify (fun c => set_crypto cr (set_qsm q c));; mret B
  end.

Definition in_flight_pkts (c : C) : sent_pkts := hist (Ackm.tx (ackm c)).

(** The chunks of a record as those of a packet of its space. *)
Definition chunks_for (x : QUIC_TXPIM_PKT_EX) : list located := (pkt_space (ackm_pkt x),.) <$> used x.

(** What the packetiser and the channel see to: addresses of new memory are new, only
    packets being built are changed, a frame is put in one packet, the data of a packet
    is waiting to be sent ([sendable]) and shaped as the packetiser makes it ([proper]), numbers and sizes are in range. *)
Definition allowed (B : list nat) (c : C) (o : op) : Prop :=
  match o with
  | AddFrame mem _ _ _ _ _ _ _ => forall p, mem = Some p -> Cfq.items (cfq c) !! p = None
  | PktAlloc mem => (forall p, mem = Some p -> pkts (txpim c) !! p = None) /\ Z.of_nat (length (B ++ addrs (in_flight_pkts c))) + 1 < UINT64_MOD
  | FillPkt p _ _ _ _ _ _ _ | AppendChunk _ p _ | Abandon p => p ∈ B
  | AddItem p q => p ∈ B /\ (exists z, Cfq.items (cfq c) !! q = Some z /\ Cfq.state z = Cfq.QUIC_CFQ_STATE_NEW) /\ q ∉ frames_of (frames_in c) B
  | Commit p => p ∈ B /\ exists x, pkts (txpim c) !! p = Some x /\ sendable (chunks_for x) (qsm c) (crypto c) /\ proper (chunks_for x) (qsm c) (crypto c) /\
      let a := ackm_pkt x in Ackm.sel (Ackm.discarded (ackm c)) (pkt_space a) = false /\ 0 <= pkt_num a < MAX_PN /\ is_u64 (time a) /\ is_u64 (num_bytes a) /\
      (largest_acked a = QUIC_PN_INVALID \/ 0 <= largest_acked a < MAX_PN) /\ cc_bytes (Ackm.cc_data (ackm c)) + num_bytes a < UINT64_MOD
  | Ack (AckmSpec.TxPacket _) | Ack (AckmSpec.SpaceDiscarded _) => False
  | Ack o => AckmSpec.allowed (ackm c) AckmSpec.ex_ghost o
  | DiscardEl el => el = 0 \/ el = 1
  | Streams q cr => streams_ok q cr /\ streams_moved (chunks_of (pkts (txpim c)) (in_flight_pkts c)) (qsm c) (crypto c) q cr
  end.

(** A packet that cannot be committed ends the connection. *)
Definition continues {A} (o : op) (r : res A) : Prop := match o with Commit _ => r <> Err | _ => True end.

Inductive reachable : list nat -> C -> Prop :=
  | reach_new q cr f ck sm cc a cq t :
      Cfq.ossl_quic_cfq_new true = Some cq -> ossl_quic_txpim_new true = Some t ->
      Ackm.ossl_ackm_new true (Ackm.mkPer true true true) ck sm cc = Some a -> Forall is_u64 ck -> AckmInv.statm_ok sm -> cc_bytes cc = 0 ->
      streams_ok q cr -> (forall w ss k, buffer q cr w = Some ss -> ~ SStream.in_flight ss k) ->
      reachable [] (mkConn cq t q cr f a)
  | reach_step B c o r c' : reachable B c -> allowed B c o -> exec o B c = (r, c') -> continues o r ->
      reachable (match r with Ret B' => B' | _ => B end) c'.

Record conn_inv (B : list nat) (c : C) : Prop := {
  ci_conn : exists K, conn_ok K B (in_flight_pkts c) c;
  ci_ackm : exists g, inv (ackm c) [] g /\ AckmInv.sent g ≡ₚ in_flight_pkts c;
  ci_timer : timer_ok (ackm c)
}.

Lemma conn_quiet B c : conn_inv B c -> resolved (Ackm.log (ackm c)) = [].
Proof.
  intros [_ (g & Hi & Hs) _]. pose proof (AckmInv.i_perm _ _ _ Hi) as Hp. cbn in Hp. unfold in_flight_pkts in Hs. rewrite Hs in Hp.
  apply Permutation_length in Hp. rewrite length_app in Hp. apply length_zero_iff_nil. lia.
Qed.

Lemma filter_others (p : nat) (l : list nat) : p ∉ l -> filter (fun q => q <> p) l = l.
Proof. induction l as [|q l IH]; [done|]. intros [Hq Hl]%not_elem_of_cons. rewrite filter_cons, decide_True by done. by rewrite IH. Qed.
Lemma filter_one (B1 : list nat) p B2 : NoDup (B1 ++ p :: B2) -> filter (fun q => q <> p) (B1 ++ p :: B2) = B1 ++ B2.
Proof.
  intros (H1 & H2 & [Hp H3]%NoDup_cons)%NoDup_app. rewrite filter_app, filter_cons, decide_False by tauto.
  rewrite !filter_others; [done|done|]. intros Hq. apply (H2 _ Hq). left.
Qed.

Lemma conn_B_split K B fl (c : C) p : conn_ok K B fl c -> p ∈ B -> exists B1 B2, B = B1 ++ p :: B2 /\ filter (fun q => q <> p) B = B1 ++ B2.
Proof.
  intros Hok (B1 & B2 & ->)%list_elem_of_split. exists B1, B2. split; [done|]. apply filter_one. destruct (co_pool _ _ _ _ Hok) as [F HF]. pose proof (pool_nodup _ _ _ HF) as Hnd.
  by apply NoDup_app in Hnd as (? & _).
Qed.

(** The manager is left alone. *)
Lemma conn_same_ackm B B' K c c' : conn_inv B c -> ackm c' = ackm c -> conn_ok K B' (in_flight_pkts c) c' -> conn_inv B' c'.
Proof. intros [_ (g & Hi & Hs) Ht] Ea Hok. unfold in_flight_pkts in *. split; unfold in_flight_pkts; rewrite ?Ea; eauto. Qed.

Definition not_tx (o : AckmSpec.op) : Prop := match o with AckmSpec.TxPacket _ => False | _ => True end.

Lemma allowed_clear (a : Ackm.OSSL_ACKM CC) g g' o : not_tx o -> AckmSpec.allowed a g o -> AckmSpec.allowed (Ackm.set_log [] a) g' o.
Proof. by destruct o. Qed.
Lemma sent_after (a : Ackm.OSSL_ACKM CC) g o b : not_tx o -> AckmInv.sent (AckmSpec.after o b a g) = AckmInv.sent g.
Proof. intros Ho. unfold AckmSpec.after. destruct b; cbn; [|done]. destruct o; try done. by destruct (AckmOps.processable _ _ _). Qed.

(** The callbacks [l] may as well be made one by one in the middle of the call: after each
    of them the manager is as it left it and the packets [fl] it may still read are where
    they were, with the values they had. *)
Definition undisturbed (l : list Ackm.event) (fl : sent_pkts) (c : C) : Prop := forall evs evs', l = evs ++ evs' ->
  exists c1, dispatch_all enough evs c = (Ret tt, c1) /\ ackm c1 = ackm c /\
    forall p, p ∈ fl -> exists x, pkts (txpim c1) !! cb_arg p = Some x /\ ackm_pkt x = p.

Lemma callbacks_undisturbed K B evs fl (c : C) : conn_ok K B (resolved evs ++ fl) c -> (forall a, Ackm.Discarded a ∈ evs -> discardable c a) ->
  undisturbed evs (resolved evs ++ fl) c.
Proof.
  intros Hok Hd e1 e2 ->. assert (Er : resolved (e1 ++ e2) ++ fl = resolved e1 ++ (resolved e2 ++ fl)) by (unfold resolved; by rewrite omap_app, app_assoc).
  pose proof (dispatch_run K B enough e1 (fun _ => eq_refl) (resolved e2 ++ fl) c) as Hrun. rewrite <- Er in Hrun. specialize (Hrun Hok (fun a Ha => Hd a (proj2 (elem_of_app _ _ _) (or_introl Ha)))).
  unfold wp in Hrun. destruct (dispatch_all enough e1 c) as [[[]| |] c1]; [|done|done]. destruct Hrun as (_ & _ & Hl). exists c1. split_and!; [done|apply Hl|].
  intros p Hp. destruct (co_sent _ _ _ _ Hok p Hp) as (x & Hx & <- & _). by apply (la_records _ _ _ _ Hl).
Qed.

(** What a call of the manager that ended in [a'] and the callbacks it made do. *)
Record call_done (K : nat -> list nat) (B : list nat) (a' : Ackm.OSSL_ACKM CC) (c c' : C) : Prop := {
  cd_inv : conn_inv B c';
  cd_perm : in_flight_pkts c ≡ₚ resolved (Ackm.log a') ++ in_flight_pkts c';
  cd_handled e : e ∈ Ackm.log a' -> handled K e c c';
  cd_between : undisturbed (Ackm.log a') (in_flight_pkts c) (set_ackm (Ackm.set_log [] a') c)
}.

(** A call of the manager, with its callbacks. *)
Lemma ackm_call o B K (c : C) g : conn_ok K B (in_flight_pkts c) c -> inv (ackm c) [] g -> timer_ok (ackm c) -> not_tx o -> AckmSpec.allowed (ackm c) g o ->
  (forall s p, o = AckmSpec.SpaceDiscarded s -> p ∈ held (Ackm.tx (ackm c)) s -> discardable c p) ->
  exists r a' c', AckmSpec.exec (m := m) o (Ackm.set_log [] (ackm c)) = (r, a') /\ r <> Undef /\ with_callbacks enough (AckmSpec.exec (m := m) o) c = (r, c') /\
    call_done K B a' c c'.
Proof.
  intros Hok Hi Ht Ho Ha Hdis. set (a0 := Ackm.set_log [] (ackm c)). set (g0 := rebase (ackm c) g). pose proof (inv_clear _ _ Hi) as Hi0. fold a0 g0 in Hi0.
  assert (Ha0 : AckmSpec.allowed a0 g0 o) by (by eapply allowed_clear). pose proof (AckmSpec.exec_ok o a0 g0 Hi0 Ht Ha0) as Hw. pose proof (exec_reports o a0 g0 Hi0 Ht Ha0 eq_refl) as Hw'.
  unfold wp in Hw, Hw'. destruct (AckmSpec.exec o a0) as [r a'] eqn:Er.
  assert (Hres : r <> Undef /\ (exists g1, inv a' [] g1 /\ AckmInv.sent g1 = in_flight_pkts c) /\ timer_ok a' /\ discards_only o a0 (Ackm.log a')).
  { destruct r as [u| |]; [| |done]; destruct Hw as [Hw1 Hw2]; split_and!; try done; eexists; (split; [exact Hw1|by rewrite sent_after]). }
  destruct Hres as (Hr & (g1 & Hi1 & Hs1) & Ht1 & Hd1). pose proof (AckmInv.i_perm _ _ _ Hi1) as Hp. cbn [app] in Hp. rewrite Hs1, (Permutation_app_comm (hist _)) in Hp.
  set (c1 := set_ackm (Ackm.set_log [] a') c). assert (Hok1 : conn_ok K B (resolved (Ackm.log a') ++ hist (Ackm.tx a')) c1).
  { eapply conn_ok_perm; [exact Hp|]. destruct Hok. by split. }
  pose proof (dispatch_run K B enough (Ackm.log a') (fun _ => eq_refl) _ _ Hok1) as Hrun. unfold wp in Hrun.
  assert (Hdc : forall a, Ackm.Discarded a ∈ Ackm.log a' -> discardable c1 a) by (intros a (s & -> & Hin)%Hd1; by apply (Hdis s)).
  specialize (Hrun Hdc). destruct (dispatch_all enough (Ackm.log a') c1) as [[u| |] c2] eqn:Ec2; [|done|done]. destruct Hrun as (Hok2 & Hh2 & Hl2).
  pose proof (la_ackm _ _ _ _ Hl2) as Ea. cbn in Ea. exists r, a', c2. split_and!; try done.
  - unfold with_callbacks. fold a0. rewrite Er. fold c1. by rewrite Ec2.
  - split; [..|done|].
    + split; unfold in_flight_pkts; rewrite Ea; [by exists K|exists (rebase a' g1); by split; [apply inv_clear|]|done].
    + unfold in_flight_pkts. rewrite Ea. exact Hp.
    + intros evs evs' El. destruct (callbacks_undisturbed _ _ _ _ _ Hok1 Hdc evs evs' El) as (c3 & E3 & Ea3 & Hk3). exists c3. split_and!; [done|done|]. intros p Hin. apply Hk3. by rewrite <- Hp.
Qed.

Lemma commit_ok B (c : C) p : conn_inv B c -> allowed B c (Commit p) -> wp (exec (Commit p) B) c (fun B' c' => conn_inv B' c') (fun _ => True).
Proof.
  intros Hci (Hp & x & Hx & Hse & Hpr & Hd & Hn & Htm & Hnb & Hla & Hsum). pose proof Hci as [[K Hok] (g & Hi & Hs) Ht]. destruct (conn_B_split _ _ _ _ _ Hok Hp) as (B1 & B2 & EB & Ef).
  cbn [exec]. rewrite Ef. set (a := set_cb p (ackm_pkt x)). pose proof (AckmInv.i_cc _ _ _ Hi) as Ecc. rewrite app_nil_r in Ecc. rewrite Ecc in Hsum.
  pose proof (AckmOps.on_tx_packet_ok a _ _ Hi Ht Hd Hn Htm Hnb Hla Hsum) as Hw. unfold wp in Hw. apply wp_bind. eapply wp_mono; [apply (commit_event m K B1 p B2 (in_flight_pkts c) enough true c x)| |done].
  - by rewrite <- EB.
  - done.
  - done.
  - exact Hse.
  - exact Hpr.
  - fold a. by destruct (Ackm.ossl_ackm_on_tx_packet m true a (ackm c)) as [[]].
  - intros [] c' [Hok' Etx]. fold a in Hok', Etx. rewrite Etx in Hw. destruct Hw as (Hi' & Ht' & El & _). apply wp_ret. rewrite (conn_quiet _ _ Hci) in El.
    pose proof (AckmInv.i_perm _ _ _ Hi') as Hperm. rewrite El in Hperm. cbn in Hperm. rewrite app_nil_r in Hperm. split; [|by exists (AckmInv.add_sent a g)|done].
    exists K. eapply conn_ok_perm; [|exact Hok']. unfold in_flight_pkts at 2. rewrite <- Hperm, Hs. solve_Permutation.
Qed.

(** The encryption levels that are discarded, with their spaces. *)
Definition discards (el : Z) (s : QUIC_PN_SPACE) : Prop := el = 0 /\ s = QUIC_PN_SPACE_INITIAL \/ el = 1 /\ s = QUIC_PN_SPACE_HANDSHAKE.

Lemma discard_run K B (c : C) el s : conn_inv B c -> conn_ok K B (in_flight_pkts c) c -> discards el s ->
  exists r a' c', AckmSpec.exec (m := m) (AckmSpec.SpaceDiscarded s) (Ackm.set_log [] (ackm c)) = (r, a') /\ r <> Undef /\
    exec (DiscardEl el) B c = (match r with Ret _ => Ret B | Err => Err | Undef => Undef end, c') /\ call_done K B a' (set_crypto (Ackm.alter_at s (fun _ => None) (crypto c)) c) c'.
Proof.
  intros [_ (g & Hi & Hs) Ht] Hok Hel. assert (Hsp : ossl_quic_enc_level_to_pn_space el = Some s /\
    ossl_quic_tx_packetiser_discard_enc_level el c = (Ret tt, set_crypto (Ackm.alter_at s (fun _ => None) (crypto c)) c)).
  { by destruct Hel as [[-> ->]|[-> ->]]. }
  assert (Hs1 : s <> QUIC_PN_SPACE_APP) by (by destruct Hel as [[_ ->]|[_ ->]]). destruct Hsp as (Hs2 & Hs3). cbn [exec]. rewrite (bind_ret _ _ _ _ _ Hs3), Hs2. set (cr := Ackm.alter_at s (fun _ => None) (crypto c)). set (c1 := set_crypto cr c).
  assert (Hcr : forall s', Ackm.sel cr s' = if decide (s' = s) then None else Ackm.sel (crypto c) s') by (intros s'; by destruct s, s').
  assert (Hbuf : forall w ss, buffer (qsm c) cr w = Some ss -> buffer (qsm c) (crypto c) w = Some ss) by (intros [i|s'] ss; [done|]; cbn; rewrite Hcr; by case_decide).
  assert (Hok1 : conn_ok K B (in_flight_pkts c) c1).
  { replace c1 with (set_crypto cr (set_qsm (qsm c) c)) by (by destruct c). apply streams_event; [done| |].
    - destruct (co_streams _ _ _ _ Hok) as [Ha Hb Hc Hd]. split; try done. intros s' ss. rewrite Hcr. case_decide; [done|]. apply Hd.
    - intros w ss Hb. left. exists ss. split; [by apply Hbuf|done]. }
  destruct (ackm_call (AckmSpec.SpaceDiscarded s) B K c1 g Hok1 Hi Ht I I) as (r & a' & c' & Er & Hr & Ew & Hcd).
  - intros s0 p [= <-] Hp s' ch Hin Hhd. assert (Eps : pkt_space p = s) by (destruct (AckmInv.i_tx _ _ _ Hi s) as [_ Ts _ _ _]; rewrite Forall_forall in Ts; by apply Ts).
    assert (Hh : p ∈ in_flight_pkts c) by (unfold in_flight_pkts; rewrite (AckmInv.hist_split _ s); apply elem_of_app; by left).
    assert (s' = s) as ->. { unfold chunks_at in Hin. destruct (pkts _ !! _); [|by apply elem_of_nil in Hin]. apply list_elem_of_fmap in Hin as (ch' & [= -> _] & _). done. }
    destruct (co_proper _ _ _ _ Hok s ch) as (_ & _ & Hc); [|unfold target_of; rewrite Hc by done; cbn; rewrite Hcr; by rewrite decide_True].
    unfold chunks_of. apply list_elem_of_In, in_concat. eexists. split; apply list_elem_of_In; [apply list_elem_of_fmap; by exists p|done].
  - exists r, a', c'. split_and!; try done. unfold mbind, M_bind. rewrite Ew. by destruct r as [[]| |].
Qed.

Lemma discard_ok B (c : C) el : conn_inv B c -> el = 0 \/ el = 1 ->
  wp (exec (DiscardEl el) B) c (fun B' c' => conn_inv B' c') (fun c' => conn_inv B c').
Proof.
  intros Hci Hel. assert (exists s, discards el s) as [s Hs] by (unfold discards; destruct Hel; eauto). destruct (ci_conn _ _ Hci) as [K Hok].
  destruct (discard_run K B c el s Hci Hok Hs) as (r & a' & c' & _ & Hr & E & Hcd). pose proof (cd_inv _ _ _ _ _ Hcd). unfold wp. rewrite E. by destruct r.
Qed.

Lemma conn_exec_ok o B (c : C) : conn_inv B c -> allowed B c o ->
  wp (exec o B) c (fun B' c' => conn_inv B' c') (fun c' => match o with Commit _ => True | _ => conn_inv B c' end).
Proof.
  intros Hci Ha. pose proof Hci as [[K Hok] (g & Hi & Hs) Ht]. assert (Hin : forall p, p ∈ B -> exists x, pkts (txpim c) !! p = Some x /\ array_ok x).
  { intros p Hp. destruct (co_pool _ _ _ _ Hok) as [F HF]. destruct (proj2 (po_in _ _ _ HF p)) as [x Hx]; [rewrite !elem_of_app; tauto|]. exists x. split; [done|]. by apply (co_array _ _ _ _ Hok p). }
  destruct o as [mem prio pns ftype fl enc len cb|mem|p a hd md mb mu ack cc|p q|alloc p ch|p|p|o|el|q cr]; cbn [allowed] in Ha; [..| |].
  - cbn [exec]. apply wp_bind. eapply wp_mono; [by apply (add_frame_event K B (in_flight_pkts c))| |by intros c' ->]. intros q c' [Hok' Ea]. apply wp_ret. by eapply conn_same_ackm.
  - destruct Ha as [Hm Hl]. cbn [exec]. apply wp_bind. eapply wp_mono; [by apply (alloc_event K B (in_flight_pkts c))| |by intros c' ->]. intros p c' [Hok' Ea]. apply wp_ret. by eapply conn_same_ackm.
  - destruct (Hin p Ha) as (x & Hx & Hax). cbn [exec]. apply wp_bind. eapply wp_eq; [unfold on_txpim, zoom; rewrite (upd_pkt_run _ _ _ _ Hx); reflexivity|]. apply wp_ret.
    eapply conn_same_ackm; [exact Hci|done|]. eapply record_event; try done. destruct Hax. by split.
  - destruct Ha as (Hp & (z & Hz & Hst) & Hq). assert (Hq' : q ∉ frames_of K (B ++ addrs (in_flight_pkts c))).
    { rewrite frames_app, elem_of_app. intros [Hf|Hf]; [apply Hq; erewrite frames_of_in; [done|done|intros; rewrite elem_of_app; tauto]|]. apply (co_tx _ _ _ _ Hok q z Hz) in Hf. by rewrite Hf in Hst. }
    cbn [exec]. apply wp_bind. eapply wp_mono; [by apply (add_item_event K B (in_flight_pkts c) c p q z)| |done]. intros [] c' [Hok' Ea]. apply wp_ret. by eapply conn_same_ackm.
  - destruct (Hin p Ha) as (x & Hx & Hax). cbn [exec]. apply wp_bind. unfold wp, on_txpim, zoom. destruct (append_run (txpim c) p x alloc ch Hx Hax) as [[_ ->]|(_ & y & Hy & ->)]; [by destruct c|].
    eapply conn_same_ackm; [exact Hci|done|]. eapply record_event; try done; [apply Hy|]. by rewrite (ap_rest _ _ _ Hy).
  - destruct (conn_B_split _ _ _ _ _ Hok Ha) as (B1 & B2 & EB & Ef). cbn [exec]. rewrite Ef. apply wp_bind. rewrite EB in Hok. eapply wp_mono; [by apply (abandon_event K B1 p B2)| |done].
    intros [] c' [Hok' Ea]. apply wp_ret. by eapply conn_same_ackm.
  - by apply commit_ok.
  - assert (Hal : not_tx o /\ AckmSpec.allowed (ackm c) g o /\ forall s, o <> AckmSpec.SpaceDiscarded s) by (by destruct o). destruct Hal as (Ho & Hal & Hns).
    destruct (ackm_call o B K c g Hok Hi Ht Ho Hal) as (r & a' & c' & _ & Hr & Ew & Hcd); [by intros s p ?%Hns|]. pose proof (cd_inv _ _ _ _ _ Hcd). cbn [exec]. apply wp_bind. unfold wp. rewrite Ew. by destruct r.
  - by apply discard_ok.
  - destruct Ha as [Hst Hmv]. cbn [exec]. apply wp_bind, wp_modify, wp_ret. eapply conn_same_ackm; [exact Hci|done|]. by apply streams_event.
Qed.

Lemma conn_reachable_inv B (c : C) : reachable B c -> conn_inv B c.
Proof.
  induction 1 as [q cr f ck sm cc a cq t [= <-] [= <-] Hnew Hck Hsm Hcc Hst Hfl|B c o r c' _ IH Ha He Hc].
  - destruct (AckmSpec.new_inv _ _ _ _ Hnew Hck Hsm Hcc) as [Hi Ht]. assert (Eh : hist (Ackm.tx a) = []).
    { pose proof (AckmInv.i_perm _ _ _ Hi) as Hp. cbn in Hp. apply Permutation_nil in Hp. by apply app_eq_nil in Hp as [? _]. }
    split; unfold in_flight_pkts; cbn [ackm]; rewrite ?Eh; [|eexists; by split|done]. exists (fun _ => []). split; cbn; try done.
    + eexists. apply CfqSpec.cfq_new_ok.
    + exists []. split; cbn; try done; [by apply DList.dl_nil|constructor|]. intros p. rewrite lookup_empty. split; [by intros [? ?]|by intros ?%elem_of_nil].
    + intros a' ?%elem_of_nil. done.
    + constructor.
    + intros w ss k Hb. right. split; [done|by eapply Hfl].
    + intros s ch ?%elem_of_nil. done.
  - pose proof (conn_exec_ok o B c IH Ha) as Hw. unfold wp in Hw. rewrite He in Hw. destruct r as [B'| |]; [done| |done]. by destruct o.
Qed.

(** C3: whatever packets were built, sent, acknowledged, lost and discarded, as long as the
    allocations for the marks of the send buffers and for the history of the ACK manager
    succeed, the data put in a packet is data its send buffer has waiting to be sent, each byte in one chunk, no
    packet fails to be committed and other parts of the connection leave the bytes in flight alone:
    the records in use are those of the packets being built and of the packets in the histories of the
    ACK manager; a control frame is in the state sent exactly when it is in a packet in
    flight, and no frame is in two packets; a byte of a send buffer is in flight
    exactly when a chunk of a packet in flight has it, and no two chunks have it. *)
Theorem fifd_nothing_stranded B (c : C) : reachable B c ->
  ossl_quic_txpim_get_in_use (txpim c) = Z.of_nat (length B + length (in_flight_pkts c)) /\
  NoDup (frames_of (frames_in c) (B ++ addrs (in_flight_pkts c))) /\
  (forall q x, Cfq.items (cfq c) !! q = Some x -> Cfq.state x = Cfq.QUIC_CFQ_STATE_TX <-> q ∈ frames_of (frames_in c) (addrs (in_flight_pkts c))) /\
  (forall w ss k, buffer (qsm c) (crypto c) w = Some ss ->
     let n := cover w k (chunks_of (pkts (txpim c)) (in_flight_pkts c)) in (n <= 1)%nat /\ (SStream.in_flight ss k <-> n = 1%nat)).
Proof.
  intros [[K Hok] _ _]%conn_reachable_inv. rewrite (frames_of_in K B (in_flight_pkts c) c) by done.
  rewrite (frames_of_in K B (in_flight_pkts c) c (addrs _)) by (try done; intros; rewrite elem_of_app; tauto). split_and!.
  - destruct (co_pool _ _ _ _ Hok) as [F HF]. unfold ossl_quic_txpim_get_in_use. rewrite (po_use _ _ _ HF), length_app. unfold addrs. by rewrite length_fmap.
  - apply Hok.
  - apply Hok.
  - intros w ss k Hb n. destruct (co_fly _ _ _ _ Hok w ss k Hb) as [[Hn Hk]|[Hn Hk]]; fold n in Hn; rewrite Hn; split; (lia || (split; [by intros ?|done])).
Qed.

(** The frames of the packets called back for are read from the links. *)
Lemma call_frames K B a' (c c1 c' : C) e : conn_ok K B (in_flight_pkts c) c -> in_flight_pkts c1 = in_flight_pkts c -> call_done K B a' c1 c' -> e ∈ Ackm.log a' ->
  handled (frames_in c) e c1 c'.
Proof.
  intros Hok Ef [_ Hp Hh _] He. specialize (Hh e He). rewrite Ef in Hp.
  assert (Hk : forall a, reported e = Some a -> frames_in c (cb_arg a) = K (cb_arg a)).
  { intros a Ea. eapply frames_in_ok; [done|]. apply elem_of_app. right. apply in_addrs. rewrite Hp. apply elem_of_app. left. apply list_elem_of_omap. eauto. }
  destruct e as [a|a|a| |]; cbn [handled] in *; try done; by rewrite (Hk a eq_refl).
Qed.

(** C4: a call of the ACK manager that takes packets out of its histories (an ACK frame, a timeout, a Retry, the
    discarding of a packet number space with its CRYPTO stream) calls back for exactly these, and when it returns, in
    whatever order the callbacks came, this is what became of them, provided that the
    allocations for the marks succeed.  For a packet acknowledged its stream and CRYPTO bytes and its FIN are marked
    acknowledged in every send buffer that still exists, and its control frames are released; for a packet lost its bytes and
    its FIN (unless acknowledged already) wait to be sent again, in
    every send buffer that still exists, its reliable control frames wait in the queue again, the
    others are released, and the HANDSHAKE_DONE, MAX_DATA, MAX_STREAMS and ACK frames the packetiser makes are wanted again; for a packet
    discarded its control frames are released.  Nothing is said of the STOP_SENDING and RESET_STREAM frames of streams.  Between the
    callbacks the manager is as it left it, and the packets it may still read are in memory
    with the values they had. *)
Theorem fifd_fates B (c : C) : reachable B c ->
  (forall o, allowed B c (Ack o) ->
    exists r a' c', AckmSpec.exec (m := m) o (Ackm.set_log [] (ackm c)) = (r, a') /\ with_callbacks enough (AckmSpec.exec (m := m) o) c = (r, c') /\
      in_flight_pkts c ≡ₚ resolved (Ackm.log a') ++ in_flight_pkts c' /\
      (forall e, e ∈ Ackm.log a' -> handled (frames_in c) e c c') /\
      undisturbed (Ackm.log a') (in_flight_pkts c) (set_ackm (Ackm.set_log [] a') c)) /\
  (forall el s, discards el s ->
    exists r a' c', AckmSpec.exec (m := m) (AckmSpec.SpaceDiscarded s) (Ackm.set_log [] (ackm c)) = (r, a') /\ (exec (DiscardEl el) B c).2 = c' /\
      in_flight_pkts c ≡ₚ resolved (Ackm.log a') ++ in_flight_pkts c' /\
      (forall e, e ∈ Ackm.log a' -> handled (frames_in c) e c c') /\
      undisturbed (Ackm.log a') (in_flight_pkts c) (set_ackm (Ackm.set_log [] a') (set_crypto (Ackm.alter_at s (fun _ => None) (crypto c)) c))).
Proof.
  intros Hci%conn_reachable_inv. pose proof Hci as [[K Hok] (g & Hi & Hs) Ht]. split.
  - intros o Ha. assert (Hal : not_tx o /\ AckmSpec.allowed (ackm c) g o /\ forall s, o <> AckmSpec.SpaceDiscarded s) by (by destruct o). destruct Hal as (Ho & Hal & Hns).
    destruct (ackm_call o B K c g Hok Hi Ht Ho Hal) as (r & a' & c' & Er & _ & Ew & Hcd); [by intros s p ?%Hns|].
    exists r, a', c'. split_and!; [done|done|apply Hcd|intros e; by eapply call_frames|apply Hcd].
  - intros el s Hd. destruct (discard_run K B c el s Hci Hok Hd) as (r & a' & c' & Er & _ & Ew & Hcd). exists r, a', c'. split_and!; [done|by rewrite Ew|apply Hcd| |apply Hcd].
    intros e He. assert (Hh : handled (frames_in c) e (set_crypto (Ackm.alter_at s (fun _ => None) (crypto c)) c) c') by (by eapply call_frames). destruct e; exact Hh.
Qed.

(** C5: in any state reached that way (the allocations for marks and for the history
    succeed, packets are built of data waiting to be sent, their numbers and sizes are in range) no step of
    the packetiser, of the channel or of a callback follows a dangling pointer,
    fails an assertion or takes a record that is not in use. *)
Theorem fifd_never_undefined B (c : C) o : reachable B c -> allowed B c o -> (exec o B c).1 <> Undef.
Proof.
  intros Hr%conn_reachable_inv Ha. pose proof (conn_exec_ok o B c Hr Ha) as Hw. unfold wp in Hw. by destruct (exec o B c) as [[] ?].
Qed.
End Conn.
End FifdSpec.
