(* ===== verification/FifdSample.v ===== *)
(** * A connection that sends

    A connection with one stream, its first packet and what becomes of it, on which the
    theorems about the sending side are applied; and where the dispatcher does not do what
    it should. *)
From Stdlib Require Import ZArith Lia.
From stdpp Require Import base tactics option gmap sorting.
From S2P Require Import Prelude OsslTime UintSet RingBuf SStream StreamMap StreamMapInv StreamChan ChanLife StreamSample Statm NewReno.
From S2P Require Import AckHist Ackm AckmInv AckmSpec DList Cfq CfqSpec Txpim Fifd FifdStreams FifdLoops FifdInv FifdOps FifdSpec.
#[local] Open Scope Z_scope.
Import DList(mkNode, list_empty).
Import AckHist Txpim Fifd FifdStreams FifdLoops FifdInv FifdOps FifdSpec.

Module FifdSample.

(** ** A [qsort] *)

Definition chunk_le (a b : QUIC_TXPIM_CHUNK) : Prop := Txpim.compare a b <= 0.
#[global] Instance chunk_le_dec a b : Decision (chunk_le a b).
Proof. unfold chunk_le. apply _. Defined.

Lemma chunk_le_spec a b : chunk_le a b <-> stream_id a < stream_id b \/ stream_id a = stream_id b /\ start a <= start b.
Proof. unfold chunk_le, Txpim.compare. repeat case_match; rewrite ?Z.ltb_lt, ?Z.ltb_ge in *; split; intros; try lia; tauto || lia. Qed.

#[global] Instance chunk_le_trans : Transitive chunk_le.
Proof. intros a b c. rewrite !chunk_le_spec. lia. Qed.
#[global] Instance chunk_le_total : Total chunk_le.
Proof. intros a b. rewrite !chunk_le_spec. lia. Qed.

#[global] Instance merge_qsort : Qsort := {| qsort := merge_sort chunk_le |}.
#[global] Instance merge_qsort_laws : QsortLaws.
Proof. split; [apply merge_sort_Permutation|]. intros l. apply (StronglySorted_merge_sort chunk_le). Qed.

(** Two chunks of a stream, of which the second is given first, and one of another. *)
Definition some_chunks : list QUIC_TXPIM_CHUNK := [mkChunk 4 0 9 false false false; mkChunk 1 10 19 true false false; mkChunk 1 0 9 false false false].
Definition one_record : QUIC_TXPIM := mkTxpim {[ 5%nat := blank_pkt ]} {[ 5%nat := mkNode None None ]} list_empty 1.

Lemma txpim_chunks_kept_witness : exists t' l t'', append_all 5 some_chunks one_record = (Ret tt, t') /\
  ossl_quic_txpim_pkt_get_chunks 5 t' = (Ret l, t'') /\ take 3 l ≡ₚ some_chunks /\ stream_id <$> take 3 l = [1; 1; 4].
Proof.
  destruct (txpim_chunks_kept one_record 5 blank_pkt some_chunks) as (t' & l & t'' & H1 & _ & H2 & H3 & _);
    [reflexivity|split; cbn; first [lia|left; reflexivity|constructor]|reflexivity|vm_compute; discriminate|].
  exists t', l, t''. split; [exact H1|]. split; [exact H2|]. split; [exact H3|]. revert H1 H2. vm_compute. intros [= <-] [= <- _]. reflexivity.
Defined.

(** ** The streams *)

(** A send buffer with five bytes. *)
Definition five : SStream.sender := default SStream.sample_start (SStream.sexec (SStream.Append true [1; 2; 3; 4; 5]) SStream.sample_start).
Definition buf : SStream.QUIC_SSTREAM := SStream.sq five.

Lemma buf_ok : SStream.ss_ok [1; 2; 3; 4; 5] buf.
Proof.
  apply (SStream.sn_ok five), SStream.reachable_ok. apply (SStream.reach_step SStream.sample_start (SStream.Append true [1; 2; 3; 4; 5]));
    [apply (SStream.reach_new true 8); [lia|reflexivity]|cbn; lia|reflexivity].
Qed.
Lemma buf_new k : 0 <= k < 5 -> UintSet.mem k (SStream.new_set buf).
Proof. intros Hk. change (SStream.new_set buf) with [UintSet.mkRange 0 4]. apply UintSet.mem_cons. left. unfold UintSet.in_range. cbn. lia. Qed.
Lemma buf_still k : ~ SStream.in_flight buf k.
Proof. intros (Hk & Hn & _). apply Hn, buf_new. exact Hk. Qed.

(** The stream the application has opened, with data to send. *)
Definition base_q : qs := StreamChan.qsm StreamSample.opened_ch.
Definition sample_q : qs :=
  match StreamMap.heap base_q !! 20%nat with
  | Some s => StreamMap.set_heap (<[20%nat := StreamMap.set_sstream (Some buf) s]> (StreamMap.heap base_q)) base_q
  | None => base_q
  end.
Definition sample_cr : crs := Ackm.mkPer (Some buf) None None.

Definition has_empty_buffer (s : StreamMap.QUIC_STREAM) : bool :=
  match StreamMap.sstream s with Some ss => negb (SStream.have_final_size ss) && bool_decide (StreamMap.send_state s = StreamMap.SSTREAM_READY) | None => false end.
Lemma base_stream : exists s, StreamMap.heap base_q !! 20%nat = Some s /\ has_empty_buffer s = true.
Proof. apply StreamSample.fetch. vm_compute. reflexivity. Qed.
Lemma base_table i p : StreamMap.table base_q !! i = Some p -> i = 1 /\ p = 20%nat.
Proof.
  assert (Ht : map_Forall (fun i p => i = 1 /\ p = 20%nat) (StreamMap.table base_q)) by (apply (bool_decide_unpack _); vm_compute; exact I). apply Ht.
Qed.
Lemma base_heap p s : StreamMap.heap base_q !! p = Some s -> p = 20%nat /\ StreamMap.send_state s = StreamMap.SSTREAM_READY.
Proof.
  assert (Ht : map_Forall (fun p s => p = 20%nat /\ StreamMap.send_state s = StreamMap.SSTREAM_READY) (StreamMap.heap base_q))
    by (apply (bool_decide_unpack _); vm_compute; exact I). apply Ht.
Qed.

Lemma base_ok : streams_ok base_q sample_cr.
Proof.
  split.
  - destruct StreamSample.opened_inv as (act & acc & gc & Hc). exists act, acc, gc. exact (StreamChan.ci_map _ _ _ _ Hc).
  - intros p s [_ Hs]%base_heap Hd. congruence.
  - intros i p [-> _]%base_table. done.
  - intros [] ss; cbn; intros [= <-]. eexists. apply buf_ok.
Qed.

Lemma sample_streams_ok : streams_ok sample_q sample_cr.
Proof.
  destruct base_stream as (s & Hs & Hb). unfold sample_q. rewrite Hs. unfold has_empty_buffer in Hb. destruct (StreamMap.sstream s) as [ss|] eqn:Ess; [|done].
  apply andb_true_iff in Hb as [Hf%negb_true_iff Hr%bool_decide_eq_true]. eapply work_end; [apply base_ok| |].
  - eapply work_buffer; [by eapply work_start; [apply base_ok|]|done|eexists; apply buf_ok|done].
  - intros Hd. change (StreamMap.send_state s = StreamMap.SSTREAM_DATA_SENT) in Hd. congruence.
Qed.

Lemma placed_buffer q p s b i ss : StreamMap.heap q !! p = Some s -> (forall i p', StreamMap.table q !! i = Some p' -> i = 1 /\ p' = p) ->
  buffer (StreamMap.set_heap (<[p := StreamMap.set_sstream (Some b) s]> (StreamMap.heap q)) q) sample_cr (TStream i) = Some ss -> i = 1 /\ ss = b.
Proof.
  intros Hs Ht. cbn. destruct (StreamMap.table q !! i) as [p'|] eqn:E; [|done]. apply Ht in E as [-> ->]. cbn. rewrite lookup_insert_eq. cbn. by intros [= <-].
Qed.

Lemma sample_buffer w ss : buffer sample_q sample_cr w = Some ss -> ss = buf.
Proof.
  destruct w as [i|s]; [|by destruct s; cbn; intros [= <-]]. destruct base_stream as (s & Hs & _). unfold sample_q. rewrite Hs. intros Hb.
  by eapply placed_buffer in Hb as [_ ?]; [|exact Hs|exact base_table].
Qed.
(** ** The first packet *)

Abbreviation conn_nr := (conn NewReno.cc_state).
Abbreviation nr := Ackm.ossl_cc_newreno_method.

Definition c0 : conn_nr := mkConn Cfq.zero_cfq zero_txpim sample_q sample_cr (mkFlags false false false false 0) AckmSpec.ex_new.

Definition go (x : list nat * conn_nr) (o : op) : list nat * conn_nr :=
  let '(r, c) := exec (m := nr) o x.1 x.2 in (match r with Ret B => B | _ => x.1 end, c).

(** A control frame, a MAX_DATA frame and the first three bytes of the stream. *)
Definition first_chunk : QUIC_TXPIM_CHUNK := stream_chunk 1 0 3 false.
Definition made : list nat * conn_nr := go ([], c0) (AddFrame (Some 100%nat) 3 2 0x18 0 (Some (7%nat, [1; 2; 3])) 3 (Some 1%nat)).
Definition taken : list nat * conn_nr := go made (PktAlloc (Some 200%nat)).
Definition filled : list nat * conn_nr := go taken (FillPkt 200 (AckmSpec.ex_pkt 0) false true false false false false).
Definition linked_ : list nat * conn_nr := go filled (AddItem 200 100).
Definition built : list nat * conn_nr := go linked_ (AppendChunk true 200 first_chunk).
Definition sent : list nat * conn_nr := go built (Commit 200).

Definition built_pkt : QUIC_TXPIM_PKT_EX :=
  mkPkt (AckmSpec.ex_pkt 0) (Some 100%nat) false 0 false true false false false false [first_chunk; blank_chunk; blank_chunk; blank_chunk] 1 4 true.

Abbreviation reached x := (reachable (m := nr) x.1 x.2).

Lemma go_reached x o : reached x -> allowed x.1 x.2 o -> continues o (exec (m := nr) o x.1 x.2).1 -> reached (go x o).
Proof.
  intros Hr Ha Hc. unfold go. destruct (exec o x.1 x.2) as [r c] eqn:E. cbn. eapply reach_step; [exact Hr|exact Ha|exact E|exact Hc].
Qed.

Ltac by_compute := apply (bool_decide_unpack _); vm_compute; exact I.

Lemma c0_reached : reached ([] : list nat, c0).
Proof.
  eapply (reach_new _ _ _ [90000000; 90000000; 99000000] Statm.ossl_statm_init NewReno.fresh); [reflexivity|reflexivity|reflexivity|by repeat constructor| |reflexivity|exact sample_streams_ok|].
  - unfold AckmInv.statm_ok, is_u64. vm_compute. intuition discriminate.
  - intros w ss k ->%sample_buffer. apply buf_still.
Qed.
Lemma made_reached : reached made.
Proof. apply (go_reached ([], c0)); [exact c0_reached| |done]. intros p [= <-]. vm_compute. reflexivity. Qed.
Lemma taken_reached : reached taken.
Proof. apply go_reached; [exact made_reached| |done]. split; [intros p [= <-]; vm_compute; reflexivity|vm_compute; reflexivity]. Qed.
Lemma filled_reached : reached filled.
Proof. apply go_reached; [exact taken_reached| |done]. change (200%nat ∈ taken.1). by_compute. Qed.
Lemma linked_reached : reached linked_.
Proof.
  apply go_reached; [exact filled_reached| |done]. split_and!; [by_compute| |by_compute].
  eexists. split; [vm_compute; reflexivity|reflexivity].
Qed.
Lemma built_reached : reached built.
Proof. apply go_reached; [exact linked_reached| |done]. change (200%nat ∈ linked_.1). by_compute. Qed.

(** One chunk that waits may be sent. *)
Lemma sendable_one s ch q cr : 0 <= start ch -> end_ ch < UINT64_MOD -> (forall ss k, buffer q cr (target_of s ch) = Some ss -> bytes_of ch k -> UintSet.mem k (SStream.new_set ss)) ->
  sendable [(s, ch)] q cr.
Proof.
  intros H1 H2 H3. split; [intros s' ch' [= -> ->]%list_elem_of_singleton; done|]. intros w ss k Hb. rewrite cover_cons. pose proof (covers_spec w k (s, ch)) as Hc. cbn in Hc.
  destruct (covers w k (s, ch)); cbn; [|split; [lia|done]]. split; [lia|]. intros _. destruct (proj1 Hc eq_refl) as [<- Hk]. by apply H3.
Qed.

Lemma built_streams : qsm built.2 = sample_q /\ crypto built.2 = sample_cr.
Proof. split; vm_compute; reflexivity. Qed.

Lemma built_allowed : allowed built.1 built.2 (Commit 200).
Proof.
  split; [by_compute|]. exists built_pkt. destruct built_streams as [-> ->]. split; [vm_compute; reflexivity|]. change (chunks_for built_pkt) with [(QUIC_PN_SPACE_APP, first_chunk)]. split_and!.
  - apply sendable_one; [done|done|]. intros ss k ->%sample_buffer [_ Hk]. apply buf_new. change (start first_chunk) with 0 in Hk. change (end_ first_chunk) with 2 in Hk. lia.
  - intros s ch [= -> ->]%list_elem_of_singleton. split_and!; [split; [done|by intros []]|done|done].
  - cbv zeta. split_and!; first [by left|vm_compute; reflexivity|vm_compute; discriminate|vm_compute; split; congruence].
Qed.

Lemma sent_reached : reached sent.
Proof. apply go_reached; [exact built_reached|exact built_allowed|]. vm_compute. discriminate. Qed.

(** ** The theorems on this connection *)

Lemma fifd_nothing_stranded_witness : in_use (txpim sent.2) = 1 /\ frames_of (frames_in sent.2) (addrs (in_flight_pkts sent.2)) = [100%nat] /\
  forall q x, Cfq.items (cfq sent.2) !! q = Some x -> Cfq.state x = Cfq.QUIC_CFQ_STATE_TX <-> q ∈ frames_of (frames_in sent.2) (addrs (in_flight_pkts sent.2)).
Proof.
  destruct (fifd_nothing_stranded sent.1 sent.2 sent_reached) as (H1 & _ & H2 & _).
  split; [|split; [vm_compute; reflexivity|exact H2]]. change (in_use (txpim sent.2)) with (ossl_quic_txpim_get_in_use (txpim sent.2)). rewrite H1. vm_compute. reflexivity.
Defined.

(** The Retry packet arrives before the packet is acknowledged: it is lost. *)
Definition retry : AckmSpec.op := AckmSpec.PseudoLost QUIC_PN_SPACE_APP 0.
Definition after_retry : conn_nr := (with_callbacks enough (AckmSpec.exec (m := nr) retry) sent.2).2.

Lemma retry_allowed : allowed sent.1 sent.2 (Ack retry).
Proof. split; vm_compute; reflexivity. Qed.

Lemma fifd_fates_witness : in_flight_pkts after_retry = [] /\ want_max_data (txp after_retry) = true /\
  Cfq.state <$> Cfq.items (cfq after_retry) !! 100%nat = Some Cfq.QUIC_CFQ_STATE_NEW /\
  exists r c' (a' : Ackm.OSSL_ACKM NewReno.cc_state), with_callbacks enough (AckmSpec.exec (m := nr) retry) sent.2 = (r, c') /\ in_flight_pkts sent.2 ≡ₚ AckmInv.resolved (Ackm.log a') ++ in_flight_pkts c'.
Proof.
  split; [vm_compute; reflexivity|]. split; [vm_compute; reflexivity|]. split; [vm_compute; reflexivity|].
  destruct (proj1 (fifd_fates sent.1 sent.2 sent_reached) retry retry_allowed) as (r & a' & c' & _ & H1 & H2 & _). exists r, c', a'. split; [exact H1|exact H2].
Defined.

Lemma fifd_never_undefined_witness : (exec (m := nr) (Commit 200) built.1 built.2).1 <> Undef.
Proof. exact (fifd_never_undefined built.1 built.2 (Commit 200) built_reached built_allowed). Defined.

(** ** Where the dispatcher departs from its intent *)

(** Frames that abort a stream are not looked after once the stream has no send buffer: when a
    packet with a RESET_STREAM frame (the buffer is freed when the stream is reset) or
    with a STOP_SENDING frame of a stream that only receives is lost, the frame is not sent again, and
    when it is acknowledged, that is not noted. *)
Theorem fifd_abort_frames_dropped {CC} al pkt spn i ch p s (c : conn CC) : Txpim.stream_id ch <> UINT64_MAX ->
  StreamMap.table (qsm c) !! Txpim.stream_id ch = Some p -> StreamMap.heap (qsm c) !! p = Some s -> StreamMap.sstream s = None ->
  lost_chunk al pkt spn i ch c = (Ret tt, c) /\ acked_chunk al pkt spn i ch c = (Ret tt, c).
Proof.
  intros Hi Ht Hs Hss. pose proof (find_stream (Txpim.stream_id ch) spn p s c (qsm c) Hi Ht Hs) as Hf. rewrite Hss in Hf. cbn in Hf. replace (set_qsm (qsm c) c) with c in Hf by (by destruct c).
  unfold lost_chunk, acked_chunk. by rewrite !(bind_ret _ _ _ _ _ Hf).
Qed.

(** The stream the application has reset: its RESET_STREAM frame is sent and lost. *)
Definition reset_conn : conn_nr := set_qsm (StreamChan.qsm StreamSample.reset_ch) c0.
Definition reset_frame : QUIC_TXPIM_CHUNK := abort_chunk 1 false true.

Lemma fifd_abort_frames_dropped_witness : lost_chunk enough 200 QUIC_PN_SPACE_APP 0 reset_frame reset_conn = (Ret tt, reset_conn).
Proof.
  destruct (StreamSample.fetch (fun s => is_null (StreamMap.sstream s)) (StreamMap.heap (qsm reset_conn) !! 20%nat)) as (s & Hs & Hn); [vm_compute; reflexivity|].
  destruct (fifd_abort_frames_dropped enough 200 QUIC_PN_SPACE_APP 0 reset_frame 20 s reset_conn) as [H _];
    [discriminate|vm_compute; reflexivity|exact Hs|destruct (StreamMap.sstream s); [discriminate Hn|reflexivity]|exact H].
Defined.

(** The FIN of an empty stream is recorded as all the bytes there can be: after its loss they
    are all to be sent. *)
Theorem fifd_empty_fin_is_all_bytes :
  let ch := stream_chunk 1 0 0 true in
  Fifd.has_data ch = true /\ end_ ch = UINT64_MAX /\
  SStream.new_set (SStream.ossl_quic_sstream_mark_lost true (start ch) (end_ ch) (SStream.sq SStream.sample_start)).2 = [UintSet.mkRange 0 UINT64_MAX].
Proof. vm_compute. split; [reflexivity|]. split; reflexivity. Qed.
End FifdSample.
